(* ===== verification/_CoqProject ===== *)
-Q . S2P
Prelude.v
StateMonad.v
Chains.v
Oid.v
Asn1Defs.v
SnmpDefs.v
Ber.v
Asn1Parse.v
Asn1ParseProps.v
Asn1ParseWide.v
Asn1Build.v
Asn1BuildProps.v
Asn1RBuild.v
Asn1RBuildProps.v
Asn1RBuildWide.v
SnmpVar.v
SnmpVarProps.v
Codec.v
Edges.v
Pdu.v
Message.v
VpCache.v
PduSpec.v
PduBuildProps.v
PduParseProps.v
MessageProps.v
PduSafety.v
Timeval.v
Session.v
SessionQueue.v
SessionProps.v
SessionWire.v
SessionSafety.v
SessionStream.v
Decimal.v
Int64.v
Int64Props.v
Container.v
QSort.v
BinArray.v
BinArrayProps.v
Ssll.v
ContainerProps.v
Registry.v
RegistryProps.v
LList.v
Vacm.v
VacmView.v
VacmTables.v
VacmState.v
AccessControl.v
AgentDefs.v
AgentRequest.v
AgentQueue.v
AgentPasses.v
AgentSet.v
AgentCache.v
AgentPrepare.v
AgentProps.v
AgentBulk.v
AgentResponse.v
AgentQueueProps.v
Alarms.v
AlarmProps.v
AlarmRun.v
Callback.v
CallbackOps.v
CallbackClear.v
CallbackProps.v
OidStash.v
OidStashTree.v
OidStashProps.v
RedisReader.v
RedisLex.v
RedisStream.v
RedisReply.v
RedisObjects.v
RedisFormat.v
RedisProps.v
