(* ===== verification/Prelude.v ===== *)
(** * A verification of the SNMP core of emane-install

    The repository installs an EMANE radio emulation; the C code it brings along
    is, but for a small trap generator ([src/SNMP-gen/sendtrap.c]) and the redis
    client [hiredis], the SNMP stack [src/SNMP-gen/net-snmp-5.7.3].  This library
    models the part of that stack every message passes through, and proves it
    correct: the comparison of object identifiers, the BER codec, the variable
    bindings, the PDUs and messages of SNMPv1 and SNMPv2c, the sessions that send
    them, wait for the answers and send them again, the access control that
    decides which names a message may touch, and the agent that answers them.  Of
    the redis client it models the protocol: the reader of replies, the objects it
    makes and the commands.

    ** The program and the files that model it

    - [Prelude]: machine integers, memory as lists of cells, big- and little-endian
      byte strings, [memcmp], tactics and the lemmas the components share.
    - [Oid]: [snmplib/snmp_api.c], [snmp_oid_ncompare] to [netsnmp_oid_find_prefix].
      The class [OidOrder] states what other components use of the comparison.
    - [Asn1Defs]: constants of [asn1.h], [snmp_impl.h] and the overflow macros.
    - [Ber]: the wire format as mathematical functions, independent of the code.
    - [Asn1Parse], [Asn1ParseProps], [Asn1ParseWide]: the parsers of
      [snmplib/asn1.c] ([asn_parse_*], [asn_check_packet]), their memory safety,
      framing and value on every encoding.
    - [Asn1Build], [Asn1BuildProps]: the forward builders
      ([asn_build_*]).  The class [Builds] is their contract: the encoding or
      [NULL], and nothing outside the output area.
    - [Asn1RBuild], [Asn1RBuildProps], [Asn1RBuildWide]: the reverse builders ([asn_realloc_rbuild_*]), [asn_realloc] and [snmp_realloc]
      ([snmplib/tools.c]).  The class [Allocator] is the contract of [realloc]; the
      class [RBuilds] is that of the builders.
    - [SnmpVar], [SnmpVarProps]: the variable bindings of [snmplib/snmp.c], which
      call the parsers and both families of builders.
    - [Codec]: the properties of the codec, stated for its callers.
    - [Edges]: what the codec does with packets cut short, identifiers without an
      encoding of their own and integers beyond 32 bits.
    - [SnmpDefs]: constants of [snmp.h].
    - [Pdu]: PDUs ([snmplib/snmp_api.c]): [snmp_pdu_parse];
      [snmp_pdu_build] and [snmp_pdu_realloc_rbuild], with its ring of variables.
      The structure [netsnmp_pdu] is the record [pdu].
    - [Message]: messages: [snmp_parse] and [snmp_build], the header with the
      community ([snmplib/snmp_auth.c]) and the numbering of messages; the static
      variables of [snmp_api.c] are the record [globals].
    - [PduSpec]: the wire format of PDUs and messages, and the PDUs it can carry.
      The class [Framing] is what the two ways to frame a sequence share.
    - [VpCache], [PduBuildProps], [PduParseProps], [MessageProps], [PduSafety]: the
      ring goes through the variables from the last to the first; the builders
      write the format, the parser reads it, together they carry a message; the
      parser is memory safe on every packet and its variables are well typed.
    - [Timeval]: points in time and intervals, with the arithmetic of
      [library/tools.h].
    - [Session]: sessions: [_sess_async_send], [snmp_resend_request],
      [snmp_sess_timeout], [_sess_process_packet]; [_sess_read] and the reassembly of
      streams.  The structures of a session, the static variables and the world are
      the record [machine]; the class [Environment] is the world (callbacks,
      transport, clock, allocation of nodes), the class [Reader] the receiving side
      of a transport.
    - [SessionQueue], [SessionProps], [SessionWire], [SessionSafety], [SessionStream]:
      the list of pending requests and what each operation does to it; sessions as a transition
      system, its invariant and the end of every request; what is sent and what is
      delivered; memory safety of every operation; the messages of a stream.
    - [Int64], [Int64Props]: the 64-bit arithmetic of [snmplib/int64.c] on pairs of
      halves, counters that wrap, and their text.
    - [Registry], [RegistryProps]: the registry of the agent,
      [agent/agent_registry.c]: the chain of subtrees of a context, its search with
      the lookup cache and the saved comparisons, linking and unlinking.
    - [Container]: containers, [snmplib/container.c] and [container.h]: the comparisons
      of entries, the class [ContainerOps] with its laws [ContainerLaws], chains of
      containers, and what a sequence of operations may answer.
    - [QSort], [BinArray], [BinArrayProps]: the sorted array,
      [snmplib/container_binary_array.c]: its sort, its operations, that they satisfy
      the laws, iterators and subsets.
    - [Ssll]: the linked lists, [snmplib/container_list_ssll.c].
    - [ContainerProps]: what the containers promise.
    - [StateMonad]: the monad of the containers, the agent, the redis client, the alarms,
      the callbacks and the stash.
    - [Chains]: heap objects chained by a link in each.
    - [AgentDefs], [AgentRequest]: the handling of a request by the agent,
      [agent/snmp_agent.c] and [agent/agent_handler.c]: the cache of subtrees, the
      calls of handlers ([netsnmp_call_handlers]), access control ([check_acm]), the
      phases of a SET ([handle_set]), the loop of GETNEXT and GETBULK, the order of
      a bulk response and the response itself.  A request is the record
      [agent_session]; the class [AgentEnv] is what the agent calls: the handlers of
      the MIB modules, the view check, the sending of a message.
    - [AgentQueue], [AgentQueueProps]: the requests the agent has under way, the record
      [amachine]: delegated requests, the queue that waits for a SET, from
      [handle_snmp_packet] to the end of the request; that a SET excludes others.
    - [AgentPasses], [AgentSet]: the invariant of a
      request, what the calls of handlers keep of it, one pass over the handlers, and
      the phases of a SET as a state machine.
    - [AgentCache], [AgentPrepare], [AgentProps]: how the names of a
      request get to the subtrees that hold them, and GET and SET as a whole.
    - [AgentBulk], [AgentResponse]: the rows of a GETBULK, and responses in SNMPv1.
    - [Alarms]: alarms, [snmplib/snmp_alarm.c]: functions called after an interval.
      The static variables and the world are the record [alarms]; the class
      [AlarmEnv] is the clock, [malloc] and the functions, which are programs
      ([client]) of calls of the interface.
    - [AlarmProps], [AlarmRun]: the list of alarms and what every function makes of
      it; what alarms promise.
    - [Callback]: callbacks, [snmplib/callback.c]: lists of functions for an event, by
      priority, on a heap, with their locks (the record [callbacks]); the class
      [CallbackEnv] says whether the assertions are compiled in.
    - [CallbackOps], [CallbackClear], [CallbackProps]: the lists as chains of the
      heap, the end, and what callbacks promise.
    - [OidStash]: the stash of identifiers, [snmplib/oid_stash.c]: a tree with a node
      for every prefix, on a heap (the record [stash]).
    - [OidStashTree], [OidStashProps]: which node is where, which are freed, and that
      the stash is a map.
    - [LList]: linked lists of heap objects with their addresses: ordered
      insertion, unlinking, search and scan.
    - [Vacm]: the tables of [snmplib/vacm.c] (views, groups, access rights); its
      static variables are the record [vacm].
    - [VacmView]: names and keys, the orders the tables are kept in; families of view subtrees; [netsnmp_view_get] and
      [netsnmp_view_subtree_check].
    - [VacmTables]: the class [Table] and the three tables as its instances.
    - [VacmState]: the tables as a transition system, its invariant, and the
      searches, scans and deletions.
    - [AccessControl]: the decision of the agent,
      [agent/mibgroup/mibII/vacm_conf.c], on top of [Vacm].
    - [RedisReader]: the reader of replies, [hiredis-master/read.c] (under
      [src/SNMP-gen/c++_redis_cli/hiredis]); the class [ReplyFunctions] is the table
      of functions that make objects.
    - [RedisLex], [RedisStream]: the reader as a lexer and a machine on streams, which
      it implements.
    - [RedisReply]: the protocol as an encoding of values, and that the
      reader makes the objects of a value, and of a stream of values in chunks.
    - [RedisObjects]: the default objects, [hiredis.c], on a heap, and that
      they are the tree of the value.
    - [RedisFormat]: the commands, [hiredis.c].
    - [RedisProps]: what the redis client promises.
    - [Decimal]: decimal text.

    ** How code becomes definitions

    A C object is the list of its cells and a pointer into it an offset ([ptr] when
    it can be null).  Reading or writing a cell that does not exist makes the
    computation [None]; so a theorem that a function returns [Some] says that it
    does not touch memory it should not.  Error returns are values.  [IN/OUT]
    arguments are passed and returned.  Integers are [Z] with the wrap-around of
    their type written out ([u8], [u32], [u64], [s32], [s64]); the machine is LP64
    and little-endian, the build has the opaque special types and the reverse
    encoding of the default configuration.  Debugging output and the texts of
    error messages are left out.

    Loops are structural recursions over the number of turns left or over the
    list they walk.  Where that number is not evident, there is fuel, and running
    out of it is [None]: [subid_loop] and [objid_loop] get the length of the
    contents, [size_loop] the number of components, the loops that shift a value
    of 64 bits out by octets 8 or 10 turns, [room_loop] one turn more than the
    number of bytes asked for, since a turn adds 256 at least, [varbind_loop] the
    number of octets left, since a binding takes two at least, [vpcache_loop] one
    turn more than there are variables, since a turn builds one at least, [drain]
    one turn more than there are octets in the buffer, the scans of [partition] and the searches
    of an array the size of what is left, [array_qsort] the number of entries,
    [set_loop] 6 turns, since a
    request goes through 5 phases at most, [walk] one turn more than there are objects
    on the heap, [process_items] one turn more than there are bytes left, since an
    item takes one at least, [moveToNextTask] the size of the stack, [free_reply] one
    turn more than there are addresses, [countDigits_loop] five groups of four digits;
    the loops over a list of callbacks one turn more than there are nodes on the heap,
    that of [snmp_unregister_callback] one more than twice as many, since a node is
    marked at most once and passed at most once, [find_sibling] and [best_sibling] one
    turn more than there are nodes, [next_loop] one more than twice as many.
    [run_alarms] and [snmp_call_callbacks] take the number of functions they may call
    as an argument, for functions of clients need not come to an end; when these leave
    the interface alone, a number is enough that exceeds the alarms that are due, or
    the callbacks by more than one.  [netsnmp_oid_stash_free] takes its turns as an
    argument; there is a number from which on it ends ([stash_free_frees_once]).
    Nothing is proved of [next_loop].
    [handle_pdu] takes the number of passes of a GETNEXT as an argument;
    the theorems about GET and SET hold for every such number.  The
    theorems show that [None] does not occur, so the fuel is enough.

    ** What the theorems show

    - Codec: every parser is memory safe on every packet that extends 32 bytes
      past the announced data and leaves its caller inside the packet
      ([parsers_memory_safe], [parsers_stay_inside]); both families of builders
      write exactly the encoding of [Ber] ([forward_builders_encode],
      [reverse_builders_encode], [reverse_forward_agree]); what is built is read
      back ([asn_*_roundtrip], [var_op_roundtrip], [rbuild_var_op_roundtrip]);
      buffers grow without losing a byte ([asn_realloc_keeps_written],
      [room_terminates]); a byte stream is cut into messages correctly
      ([asn_check_packet_stream]).
    - Messages: what [snmp_build] puts on the wire is what [snmp_parse] delivers,
      in both encodings ([message_roundtrip]); what is not refused is complete, but
      for the header of the list of variables, whose builder the reverse encoding
      does not look at ([snmp_build_encodes]); no PDU leaves
      in a protocol version that does not have it ([snmp_build_protocol]); no
      packet makes the parser leave its memory, and what it delivers is well typed
      ([snmp_parse_memory_safe], [received_variables_typed]).
    - Sessions: a request is sent as its message and waits for the answer
      ([snmp_sess_async_send_sends]); the answer is offered to the requests it
      answers until a callback takes it ([response_delivered]); a stream is cut into its messages, whichever way the
      bytes come ([stream_read_handles]); a request that is not answered is sent again and, in
      the end, reported ([every_request_ends]); the list of requests stays in order
      ([requests_invariant]) and sending, time-outs and packets of SNMPv1 and
      SNMPv2c, with 32 readable bytes behind them, neither make a session without
      hooks leave its memory nor get it stuck ([session_safe]).
    - 64-bit arithmetic: it is arithmetic modulo [2 ^ 64] ([int64_arithmetic]), its
      decimal text is read back ([int64_print_read]), and a counter of 32 bits is
      tracked over its wraps ([counter32_extended]).
    - Redis client: whatever replies are sent and however their bytes are cut, the
      client makes the trees of their values ([replies_are_read],
      [chunks_do_not_matter], [reader_refines_stream]); what is made for a reply is
      freed with it ([reply_is_freed]); an error is final ([error_is_final]); commands
      are in the protocol, in a block of the right size ([commands_are_read]).  An
      array with 2^32 elements makes the reader write through a null pointer
      ([crash_ex]).
    - Containers: the sort is one ([array_qsort_correct]); the sorted array and the
      unsorted lists are refinements of a multiset ([binary_array_refines],
      [unsorted_list_refines]); an insertion into a chain reaches all containers or
      leaves each with as many entries as before, and with the same ones where keys
      are unique ([insertion_all_or_nothing]); where they are not, an old entry may
      be exchanged for the new one ([exchanged_ex]); iterators and subsets are complete
      ([iterator_sees_all], [get_subset_exact]); an exact search of a sorted list is
      not exact ([sorted_list_find]).
    - Registry: in a registry in order the search finds exactly the subtree that
      holds a name, whatever its caches have collected ([subtree_find_holds]);
      [netsnmp_remove_subtree] can leave one that is not
      ([remove_subtree_stale_offset]).
    - Agent: a SET is refused before any handler runs, or its handlers go through the
      phases together and the answer says whether all of them succeeded
      ([set_request_all_or_nothing], [set_loop_ends]); a SET waits for other requests
      and they wait for it ([set_excludes_others]); every name of a GET reaches the
      handlers that hold it and is answered ([get_request_answered]); the entries of a
      GETBULK come in rows, those of RFC 3416 but for two differences that are told
      exactly ([getbulk_rows]); responses in SNMPv1 have no value that version does
      not have, and the status of a SET is translated ([v1_response_plain]), but not
      that of a GET ([get_status_as_it_is]).
    - Alarms: whatever the functions of clients do, the list stays in order and no
      address outside it is followed ([alarms_invariant]); when functions leave alarms
      alone and none becomes due meanwhile, the alarms that are due run in the order
      of their times and are set again or removed ([alarms_in_order]); otherwise a
      run may go on for ever ([endless_ex]);
      the timer is set to the next one ([timer_set_to_next]), which stops it when that
      one is due ([disarmed_ex]).
    - Callbacks: the chains are tables by priority ([callbacks_refine_table]); an event
      calls the functions of its list in order ([callbacks_called_in_order]); with
      assertions, no freed node is looked at ([callbacks_safe]); without them, a
      function that removes itself makes the code do so ([self_removal_ex]); at the
      end, shared arguments are freed once ([clear_callback_frees_once]).
    - Stash: it is a map from identifiers to data ([stash_refines_map]), and its end
      frees every node and the data under each identifier, once
      ([stash_free_frees_once]); the next node may come before the identifier asked
      for ([next_goes_back_ex]).
    - Identifiers: the comparison is the lexicographic total order, subtrees are
      intervals of it, and the derived tests decide what they say.
    - Views: the search returns the entry RFC 3415 prescribes ([view_get_best]),
      and the check of a whole subtree agrees with the search on every name in it
      ([subtree_check_sound]).
    - Tables: every reachable state is well formed and sorted, and operations go out
      of bounds exactly where the code has no guard, on subtrees of 128 components
      and scans whose entry is gone ([vacm_invariant]); reading an access entry from
      the configuration may take the place of another ([config_access_rekeys]); what
      is created is found and what is
      destroyed is gone; searches for groups and access rights return applicable
      entries only.
    - Access decision: it always gives an answer, it grants a name only to an
      authorised requester ([access_granted_only_if_authorised]) and its answer
      about a subtree covers every name below ([subtree_decision_covers_names]).
    - Limits: [Edges] and the end of [VacmState] prove where the code does not
      guard itself (over-reads of truncated packets, [asn_parse_null],
      identifiers such as 0.40, a subtree of 128 components, a scan during
      deletion, the choice among access entries).

    ** What is not modelled, and the plan

    The branches of SNMPv3 in messages and sessions are parameters: they are
    cryptography and the state of [snmpusm.c] for the most part.  Of
    [snmp_api.c], opening, accepting and closing sessions and the preparation of
    [select] are left out.  Of the agent, the registration of subtrees, the
    cancellation of requests, the address cache and the helpers (but
    [bulk_to_next]) are left out; the loop of GETNEXT and GETBULK and the serving of
    the queue are definitions without theorems yet.  So is
    [netsnmp_oid_stash_getnext_node].  Next would be these theorems, the data lists
    ([data_list.c]), the time window of [lcd_time.c] and the trap generator.  The
    stash is stored in and read from the persistent configuration by functions that
    are left out ([netsnmp_oid_stash_store]), as is its printing.  The timer signal of
    the alarms is the handler [alarm_handler]: that it may come in the middle of
    another function is not modelled.  Of [hiredis], the format
    strings of commands, contexts, sockets and the asynchronous interface, the strings
    and the dictionary are left out.  The persistent configuration of the tables ([vacm_save*],
    [vacm_parse_*]) is text processing, but for what an access line does to the
    table.  The MIB parser, transports, the MIB
    modules of the agent and the command line tools are left out, and so is
    everything in C++, Python and shell. *)
From Stdlib Require Import ZArith Lia.
From stdpp Require Export base numbers list option.

#[global] Open Scope Z_scope.
#[global] Arguments Z.eqb : simpl never.
#[global] Arguments Z.ltb : simpl never.
#[global] Arguments Z.leb : simpl never.

(** * Machine integers (LP64: [long], [size_t] and pointers are 64 bits) *)

(** [wrap w x] is the value an unsigned [w]-bit object holds after [x] is
    stored in it; [swrap w x] is the same for a two's-complement signed one. *)
Definition wrap (w x : Z) : Z := x mod 2 ^ w.
Definition swrap (w x : Z) : Z := (x + 2 ^ (w - 1)) mod 2 ^ w - 2 ^ (w - 1).

Abbreviation u8 := (wrap 8).
Abbreviation u32 := (wrap 32).
Abbreviation u64 := (wrap 64).
Abbreviation s32 := (swrap 32).
Abbreviation s64 := (swrap 64).

Definition sizeof_long : Z := 8.
Definition sizeof_oid : Z := 8.

(** A C pointer into the object at hand: [NULL] or an offset. *)
Inductive ptr : Set :=
| NULL
| Ptr (p : Z).

#[global] Instance ptr_eq_dec : EqDecision ptr.
Proof. solve_decision. Defined.

(** * Memory

    An object of the C program (a packet buffer, a string buffer, an [oid]
    array) is the list of its cells.  Reading or writing a cell that does not
    exist is undefined behaviour; it makes the whole computation [None].  A
    computation that returns normally is [Some], whatever error code or [NULL]
    the C function returns. *)
Definition peek (m : list Z) (p : Z) : option Z :=
  if 0 <=? p then m !! Z.to_nat p else None.

Definition poke (m : list Z) (p v : Z) : option (list Z) :=
  if (0 <=? p) && (p <? Z.of_nat (length m))
  then Some (<[Z.to_nat p := v]> m) else None.

(** [memcpy]/[memmove] out of an object: [n] cells from [p]. *)
Definition peek_n (m : list Z) (p n : Z) : option (list Z) :=
  if (0 <=? p) && (0 <=? n) && (p + n <=? Z.of_nat (length m))
  then Some (take (Z.to_nat n) (drop (Z.to_nat p) m)) else None.

(** [patch m p bs] is [m] with the cells from [p] on replaced by [bs]. *)
Definition patch (m : list Z) (p : Z) (bs : list Z) : list Z :=
  take (Z.to_nat p) m ++ bs ++ drop (Z.to_nat p + length bs) m.

(** [memcpy]/[memmove] into an object. *)
Definition poke_n (m : list Z) (p : Z) (bs : list Z) : option (list Z) :=
  if (0 <=? p) && (p + Z.of_nat (length bs) <=? Z.of_nat (length m))
  then Some (patch m p bs) else None.

(** [holds m p bs]: the cells of [m] from [p] on start with [bs]. *)
Definition holds (m : list Z) (p : Z) (bs : list Z) : Prop :=
  exists pre post, m = pre ++ bs ++ post /\ p = Z.of_nat (length pre).

Definition is_byte (b : Z) : Prop := 0 <= b < 256.
Abbreviation bytes := (Forall is_byte).

Create HintDb snmp discriminated.

(** * Big-endian byte strings *)

(** [be_bytes n v] is the [n]-byte big-endian representation of [v] modulo
    [2^(8n)]; [be_value] reads one back. *)
Fixpoint be_bytes (n : nat) (v : Z) : list Z :=
  match n with
  | O => []
  | S k => (v / 2 ^ (8 * Z.of_nat k)) mod 256 :: be_bytes k v
  end.

Definition be_value (acc : Z) (bs : list Z) : Z :=
  foldl (fun a b => a * 256 + b) acc bs.

(** * Lemmas on machine integers *)

Lemma pow2_pos w : 0 <= w -> 0 < 2 ^ w.
Proof. intros. apply Z.pow_pos_nonneg; lia. Qed.

Lemma wrap_range w x : 0 <= w -> 0 <= wrap w x < 2 ^ w.
Proof. intros. apply Z.mod_pos_bound, pow2_pos; lia. Qed.

Lemma wrap_small w x : 0 <= x < 2 ^ w -> wrap w x = x.
Proof. apply Z.mod_small. Qed.

Lemma swrap_range w x : 0 < w -> - 2 ^ (w - 1) <= swrap w x < 2 ^ (w - 1).
Proof.
  intros Hw. unfold swrap.
  assert (2 ^ w = 2 * 2 ^ (w - 1)) by (rewrite <- Z.pow_succ_r by lia; f_equal; lia).
  pose proof (Z.mod_pos_bound (x + 2 ^ (w - 1)) (2 ^ w) (pow2_pos w ltac:(lia))). lia.
Qed.

Lemma swrap_small w x : 0 < w -> - 2 ^ (w - 1) <= x < 2 ^ (w - 1) -> swrap w x = x.
Proof.
  intros Hw Hx. unfold swrap.
  assert (2 ^ w = 2 * 2 ^ (w - 1)) by (rewrite <- Z.pow_succ_r by lia; f_equal; lia).
  rewrite Z.mod_small by lia. lia.
Qed.

(** A value that fits the signed type read back from its unsigned image. *)
Lemma swrap_wrap w x : 0 < w -> swrap w (wrap w x) = swrap w x.
Proof.
  intros Hw. unfold swrap, wrap. rewrite Zplus_mod_idemp_l. reflexivity.
Qed.

Lemma wrap_swrap w x : 0 < w -> wrap w (swrap w x) = wrap w x.
Proof.
  intros Hw. unfold swrap, wrap. rewrite Zminus_mod_idemp_l. f_equal. lia.
Qed.

Lemma wrap_wrap w x : wrap w (wrap w x) = wrap w x.
Proof. apply Zmod_mod. Qed.

Lemma land_ones_mod x n : 0 <= n -> Z.land x (2 ^ n - 1) = x mod 2 ^ n.
Proof.
  intros. rewrite <- Z.land_ones by lia. f_equal. rewrite Z.ones_equiv. lia.
Qed.

(** [x | b] is an addition when [x] ends in zeros that cover [b]. *)
Lemma lor_disjoint x b n : 0 <= n -> 0 <= b < 2 ^ n -> Z.lor (x * 2 ^ n) b = x * 2 ^ n + b.
Proof.
  intros Hn Hb. rewrite <- Z.shiftl_mul_pow2 by lia. symmetry.
  rewrite Z.add_nocarry_lor; [reflexivity|].
  apply Z.bits_inj'. intros i Hi.
  rewrite Z.land_spec, Z.bits_0. destruct (Z.ltb_spec i n).
  - rewrite Z.shiftl_spec_low by lia. reflexivity.
  - rewrite <- (Z.mod_small b (2 ^ n)) by lia.
    rewrite Z.mod_pow2_bits_high by lia. apply andb_false_r.
Qed.

(** Testing the top bit of a byte. *)
Lemma land_0x80 b : is_byte b -> Z.land b 0x80 = if 128 <=? b then 128 else 0.
Proof.
  intros Hb. unfold is_byte in Hb.
  assert (H : Forall (fun b => Z.land b 0x80 = if 128 <=? b then 128 else 0)
                     (seqZ 0 256)) by (repeat constructor).
  rewrite Forall_forall in H. apply H, list_elem_of_In, elem_of_seqZ. lia.
Qed.

Lemma land_0x7f b : Z.land b 0x7f = b mod 128.
Proof. apply (land_ones_mod b 7). lia. Qed.

(** * Lemmas on memory *)

Lemma peek_Some m p v : peek m p = Some v -> 0 <= p < Z.of_nat (length m).
Proof.
  unfold peek. destruct (Z.leb_spec 0 p); [|done].
  intros Hl%lookup_lt_Some. lia.
Qed.

Lemma peek_in_range m p : 0 <= p < Z.of_nat (length m) -> exists v, peek m p = Some v.
Proof.
  intros Hp. unfold peek. rewrite (proj2 (Z.leb_le 0 p)) by lia.
  apply lookup_lt_is_Some. lia.
Qed.

Lemma peek_byte m p v : bytes m -> peek m p = Some v -> is_byte v.
Proof.
  unfold peek. intros Hm. destruct (0 <=? p); [|done].
  intros Hv. eapply Forall_lookup_1; eauto.
Qed.

Lemma poke_in_range m p v :
  0 <= p < Z.of_nat (length m) -> poke m p v = Some (<[Z.to_nat p := v]> m).
Proof.
  intros Hp. unfold poke.
  rewrite (proj2 (Z.leb_le 0 p)), (proj2 (Z.ltb_lt p _)) by lia. reflexivity.
Qed.

Lemma length_patch m p bs :
  0 <= p -> p + Z.of_nat (length bs) <= Z.of_nat (length m) -> length (patch m p bs) = length m.
Proof.
  intros. unfold patch. rewrite !length_app, length_take, length_drop. lia.
Qed.

Lemma patch_nil m p : patch m p [] = m.
Proof. unfold patch. simpl. rewrite Nat.add_0_r. apply take_drop. Qed.

Lemma poke_patch m p v :
  0 <= p < Z.of_nat (length m) -> poke m p v = Some (patch m p [v]).
Proof.
  intros Hp. rewrite poke_in_range by lia. f_equal. unfold patch.
  rewrite insert_take_drop by lia. simpl. do 3 f_equal. lia.
Qed.

Lemma poke_n_patch m p bs :
  0 <= p -> p + Z.of_nat (length bs) <= Z.of_nat (length m) ->
  poke_n m p bs = Some (patch m p bs).
Proof.
  intros. unfold poke_n.
  rewrite (proj2 (Z.leb_le 0 p)), (proj2 (Z.leb_le _ (Z.of_nat (length m)))) by lia.
  reflexivity.
Qed.

(** Two consecutive writes are one longer write. *)
Lemma patch_patch m p q bs cs :
  0 <= p -> q = p + Z.of_nat (length bs) ->
  p + Z.of_nat (length bs) <= Z.of_nat (length m) ->
  patch (patch m p bs) q cs = patch m p (bs ++ cs).
Proof.
  intros Hp -> Hl. unfold patch.
  replace (Z.to_nat (p + Z.of_nat (length bs))) with (Z.to_nat p + length bs)%nat by lia.
  assert (Ht : length (take (Z.to_nat p) m) = Z.to_nat p) by (rewrite length_take; lia).
  rewrite (app_assoc (take _ m) bs).
  rewrite take_app_le by (rewrite length_app; lia).
  rewrite (firstn_all2 (take _ m ++ bs)) by (rewrite length_app; lia).
  rewrite drop_app_ge by (rewrite length_app; lia).
  rewrite drop_drop, <- !app_assoc. do 3 f_equal.
  f_equal. rewrite !length_app. lia.
Qed.

Lemma patch_holds m p bs :
  0 <= p -> p + Z.of_nat (length bs) <= Z.of_nat (length m) -> holds (patch m p bs) p bs.
Proof.
  intros. exists (take (Z.to_nat p) m), (drop (Z.to_nat p + length bs) m).
  rewrite length_take. split; [done|lia].
Qed.

Lemma patch_peek_outside m p bs q :
  0 <= p -> p + Z.of_nat (length bs) <= Z.of_nat (length m) ->
  q < p \/ p + Z.of_nat (length bs) <= q -> peek (patch m p bs) q = peek m q.
Proof.
  intros Hp Hl Hq. unfold peek, patch. destruct (Z.leb_spec 0 q); [|done].
  destruct Hq.
  - rewrite lookup_app_l by (rewrite length_take; lia).
    apply lookup_take_lt. lia.
  - rewrite !lookup_app_r by (rewrite ?length_take; lia).
    rewrite lookup_drop, length_take. f_equal. lia.
Qed.

Lemma patch_bytes m p bs : bytes m -> bytes bs -> bytes (patch m p bs).
Proof. intros. unfold patch. rewrite !Forall_app. auto using Forall_take, Forall_drop. Qed.

Lemma holds_nil_inv m p : holds m p [] -> 0 <= p <= Z.of_nat (length m).
Proof. intros (pre & post & -> & ->). rewrite length_app. lia. Qed.

Lemma holds_cons m p b bs :
  holds m p (b :: bs) -> peek m p = Some b /\ holds m (p + 1) bs.
Proof.
  intros (pre & post & -> & ->). split.
  - unfold peek. rewrite (proj2 (Z.leb_le 0 _)) by lia. rewrite Nat2Z.id.
    rewrite lookup_app_r by lia. rewrite Nat.sub_diag. reflexivity.
  - exists (pre ++ [b]), post. rewrite <- app_assoc, length_app. split; [done|simpl; lia].
Qed.

Lemma holds_peek m p b bs : holds m p (b :: bs) -> peek m p = Some b.
Proof. intros H. apply holds_cons in H. tauto. Qed.

Lemma holds_tail m p b bs : holds m p (b :: bs) -> holds m (p + 1) bs.
Proof. intros H. apply holds_cons in H. tauto. Qed.

Lemma holds_app m p bs cs :
  holds m p (bs ++ cs) -> holds m p bs /\ holds m (p + Z.of_nat (length bs)) cs.
Proof.
  intros (pre & post & -> & ->). split.
  - exists pre, (cs ++ post). rewrite <- app_assoc. done.
  - exists (pre ++ bs), post. rewrite <- !app_assoc, length_app. split; [done|lia].
Qed.

Lemma holds_range m p bs :
  holds m p bs -> 0 <= p /\ p + Z.of_nat (length bs) <= Z.of_nat (length m).
Proof. intros (pre & post & -> & ->). rewrite !length_app. lia. Qed.

Lemma holds_peek_n m p bs :
  holds m p bs -> peek_n m p (Z.of_nat (length bs)) = Some bs.
Proof.
  intros H. pose proof (holds_range _ _ _ H).
  destruct H as (pre & post & -> & ->). unfold peek_n.
  rewrite (proj2 (Z.leb_le 0 _)), (proj2 (Z.leb_le 0 _)), (proj2 (Z.leb_le _ _)) by lia.
  rewrite !Nat2Z.id. simpl. f_equal.
  rewrite drop_app_length, take_app_length. reflexivity.
Qed.

(** * Lemmas on big-endian byte strings *)

Lemma length_be_bytes n v : length (be_bytes n v) = n.
Proof. induction n; simpl; congruence. Qed.

Lemma be_bytes_byte n v : bytes (be_bytes n v).
Proof.
  induction n; simpl; constructor; [|done].
  apply Z.mod_pos_bound. lia.
Qed.

Lemma be_value_app acc bs cs : be_value acc (bs ++ cs) = be_value (be_value acc bs) cs.
Proof. apply foldl_app. Qed.

Lemma be_value_acc acc bs :
  be_value acc bs = acc * 256 ^ Z.of_nat (length bs) + be_value 0 bs.
Proof.
  revert acc. induction bs as [|b bs IH]; intros acc; simpl; [lia|].
  change (be_value (acc * 256 + b) bs = acc * 256 ^ Z.of_nat (S (length bs)) + be_value (0 * 256 + b) bs).
  rewrite IH, (IH (0 * 256 + b)), Nat2Z.inj_succ, Z.pow_succ_r by lia. lia.
Qed.

Lemma be_value_nil acc : be_value acc [] = acc.
Proof. reflexivity. Qed.

Lemma be_value_cons acc b bs : be_value acc (b :: bs) = be_value (acc * 256 + b) bs.
Proof. reflexivity. Qed.

Lemma be_value_range bs : bytes bs -> 0 <= be_value 0 bs < 256 ^ Z.of_nat (length bs).
Proof.
  induction 1 as [|b bs Hb _ IH]; [simpl; lia|].
  change (be_value 0 (b :: bs)) with (be_value (0 * 256 + b) bs).
  rewrite be_value_acc. simpl length. rewrite Nat2Z.inj_succ, Z.pow_succ_r by lia.
  unfold is_byte in Hb. nia.
Qed.

Lemma be_value_be_bytes n v : be_value 0 (be_bytes n v) = v mod 2 ^ (8 * Z.of_nat n).
Proof.
  induction n as [|k IH]; [simpl; rewrite Z.mod_1_r; done|].
  change (be_bytes (S k) v) with ((v / 2 ^ (8 * Z.of_nat k)) mod 256 :: be_bytes k v).
  transitivity (be_value (0 * 256 + (v / 2 ^ (8 * Z.of_nat k)) mod 256) (be_bytes k v)); [done|].
  rewrite be_value_acc, IH, length_be_bytes.
  replace (256 ^ Z.of_nat k) with (2 ^ (8 * Z.of_nat k)) by (rewrite Z.pow_mul_r by lia; done).
  replace (8 * Z.of_nat (S k)) with (8 * Z.of_nat k + 8) by lia.
  rewrite Z.pow_add_r by lia.
  pose proof (pow2_pos (8 * Z.of_nat k) ltac:(lia)).
  rewrite (Z.rem_mul_r v (2 ^ (8 * Z.of_nat k)) (2 ^ 8)) by lia.
  change (2 ^ 8) with 256. lia.
Qed.

Lemma be_bytes_S n v : be_bytes (S n) v = (v / 2 ^ (8 * Z.of_nat n)) mod 256 :: be_bytes n v.
Proof. reflexivity. Qed.

Lemma be_bytes_app j k v : be_bytes j (v / 2 ^ (8 * Z.of_nat k)) ++ be_bytes k v = be_bytes (j + k) v.
Proof.
  induction j as [|j IH]; [done|]. cbn [be_bytes Nat.add app]. rewrite IH. f_equal.
  rewrite Z.div_div, <- Z.pow_add_r by (try apply pow2_pos; try apply Z.pow_nonzero; lia).
  do 3 f_equal. lia.
Qed.

(** The bytes do not depend on what lies above them. *)
Lemma be_bytes_high n j x k :
  Z.of_nat n <= j -> be_bytes n (x + k * 2 ^ (8 * j)) = be_bytes n x.
Proof.
  induction n as [|n IH]; intros Hj; [done|].
  change (be_bytes (S n)) with (fun v => (v / 2 ^ (8 * Z.of_nat n)) mod 256 :: be_bytes n v).
  cbv beta. rewrite IH by lia. f_equal.
  replace (8 * j) with (8 * (j - Z.of_nat n - 1) + 8 + 8 * Z.of_nat n) by lia.
  rewrite !Z.pow_add_r by lia. change (2 ^ 8) with 256.
  rewrite !Z.mul_assoc, Z.div_add by (apply Z.pow_nonzero; lia).
  apply Z_mod_plus_full.
Qed.

Lemma be_bytes_be_value bs : bytes bs -> be_bytes (length bs) (be_value 0 bs) = bs.
Proof.
  induction 1 as [|b bs Hb Hbs IH]; [done|]. rewrite be_value_cons, be_value_acc.
  pose proof (be_value_range bs Hbs).
  assert (HP : 256 ^ Z.of_nat (length bs) = 2 ^ (8 * Z.of_nat (length bs)))
    by (by rewrite Z.pow_mul_r by lia).
  rewrite HP in *. simpl length.
  change (be_bytes (S (length bs))) with
    (fun v => (v / 2 ^ (8 * Z.of_nat (length bs))) mod 256 :: be_bytes (length bs) v).
  cbv beta. f_equal.
  - unfold is_byte in Hb. rewrite Z.div_add_l by lia. rewrite (Z.div_small (be_value 0 bs)) by lia.
    rewrite Z.mod_small; lia.
  - rewrite Z.add_comm, be_bytes_high by lia. exact IH.
Qed.

Arguments be_value : simpl never.
Arguments be_bytes : simpl never.

(** * Control flow and lexicographic comparison *)

(** Outcome of one C loop: a [return] inside it, or falling out of it. *)
Inductive flow (R S : Type) : Type :=
| Return (r : R)
| Next (s : S).
Arguments Return {R S} r.
Arguments Next {R S} s.

(** Sign of the lexicographic comparison of two strings of cells. *)
Fixpoint lex_sign (a b : list Z) : Z :=
  match a, b with
  | [], [] => 0
  | [], _ :: _ => -1
  | _ :: _, [] => 1
  | x :: a', y :: b' => if x =? y then lex_sign a' b' else if x <? y then -1 else 1
  end.

(** [memcmp] on objects of bytes; its result is only ever compared with 0. *)
Definition memcmp (a b : list Z) (n : Z) : option Z :=
  x ← peek_n a 0 n; y ← peek_n b 0 n; Some (lex_sign x y).

Lemma lex_sign_refl a : lex_sign a a = 0.
Proof. induction a; simpl; [done|]. by rewrite Z.eqb_refl. Qed.

Lemma lex_sign_eq a b : lex_sign a b = 0 <-> a = b.
Proof.
  split; [|intros ->; apply lex_sign_refl].
  revert b. induction a as [|x a IH]; intros [|y b]; simpl; try done.
  destruct (Z.eqb_spec x y); [intros; f_equal; auto|].
  by destruct (x <? y).
Qed.

Lemma lex_sign_range a b : lex_sign a b = -1 \/ lex_sign a b = 0 \/ lex_sign a b = 1.
Proof.
  revert b. induction a as [|x a IH]; intros [|y b]; simpl; auto.
  destruct (x =? y); [auto|]. destruct (x <? y); auto.
Qed.

Lemma lex_sign_opp a b : lex_sign b a = - lex_sign a b.
Proof.
  revert b. induction a as [|x a IH]; intros [|y b]; simpl; try done.
  rewrite Z.eqb_sym. destruct (Z.eqb_spec x y); [auto|].
  destruct (Z.ltb_spec x y), (Z.ltb_spec y x); lia.
Qed.

Lemma lex_sign_trans a b c :
  lex_sign a b <= 0 -> lex_sign b c <= 0 -> lex_sign a c <= 0.
Proof.
  revert b c. induction a as [|x a IH]; intros [|y b] [|z c]; simpl; try lia.
  repeat case_match; rewrite ?Z.eqb_eq, ?Z.eqb_neq, ?Z.ltb_lt, ?Z.ltb_ge in *;
    try lia; subst; intros; try congruence; eauto; try lia.
Qed.

Lemma lex_sign_app_same p a b : lex_sign (p ++ a) (p ++ b) = lex_sign a b.
Proof. induction p; simpl; [done|]. by rewrite Z.eqb_refl. Qed.

(** Little-endian image of an integer object in memory. *)
Definition le_bytes (n : nat) (v : Z) : list Z := reverse (be_bytes n v).
Definition le_value (bs : list Z) : Z := be_value 0 (reverse bs).
#[global] Arguments le_bytes : simpl never.
#[global] Arguments le_value : simpl never.

Lemma length_le_bytes n v : length (le_bytes n v) = n.
Proof. unfold le_bytes. by rewrite length_reverse, length_be_bytes. Qed.

Lemma le_value_le_bytes n v : le_value (le_bytes n v) = v mod 2 ^ (8 * Z.of_nat n).
Proof. unfold le_value, le_bytes. rewrite reverse_involutive. apply be_value_be_bytes. Qed.

Lemma le_bytes_inj n v w :
  0 <= v < 2 ^ (8 * Z.of_nat n) -> 0 <= w < 2 ^ (8 * Z.of_nat n) ->
  le_bytes n v = le_bytes n w -> v = w.
Proof.
  intros Hv Hw H%(f_equal le_value). rewrite !le_value_le_bytes in H.
  by rewrite !Z.mod_small in H by lia.
Qed.

Lemma peek_drop m p v :
  peek m p = Some v -> drop (Z.to_nat p) m = v :: drop (Z.to_nat (p + 1)) m.
Proof.
  intros H. pose proof (peek_Some _ _ _ H). unfold peek in H.
  rewrite (proj2 (Z.leb_le 0 p)) in H by lia.
  rewrite (drop_S _ _ _ H). do 2 f_equal. lia.
Qed.

Lemma peek_n_take m n : 0 <= n <= Z.of_nat (length m) -> peek_n m 0 n = Some (take (Z.to_nat n) m).
Proof.
  intros Hn. unfold peek_n. rewrite !(proj2 (Z.leb_le _ _)) by lia. simpl. by rewrite drop_0.
Qed.

(** Length of the longest common prefix. *)
Fixpoint lcp (a b : list Z) : nat :=
  match a, b with
  | x :: a', y :: b' => if x =? y then S (lcp a' b') else O
  | _, _ => O
  end.

Lemma lcp_le a b : (lcp a b <= length a /\ lcp a b <= length b)%nat.
Proof.
  revert b. induction a as [|x a IH]; intros [|y b]; simpl; try lia.
  destruct (x =? y); [|lia]. specialize (IH b). lia.
Qed.

Lemma lcp_take a b : take (lcp a b) a = take (lcp a b) b.
Proof.
  revert b. induction a as [|x a IH]; intros [|y b]; simpl; try done.
  destruct (Z.eqb_spec x y); simpl; [|done]. by rewrite e, IH.
Qed.

Lemma lcp_max a b k : (k <= length a)%nat -> (k <= length b)%nat ->
  take k a = take k b -> (k <= lcp a b)%nat.
Proof.
  revert b k. induction a as [|x a IH]; intros [|y b] [|k]; simpl; try lia.
  intros Ha Hb [= -> H]. rewrite Z.eqb_refl. apply le_n_S, IH; [lia|lia|done].
Qed.

Lemma lcp_prefix a b : lcp a b = length a <-> a `prefix_of` b.
Proof.
  split.
  - intros H. pose proof (lcp_take a b) as Ht. rewrite H in Ht.
    rewrite firstn_all in Ht. rewrite Ht. apply prefix_take.
  - intros [k ->]. induction a; simpl; [done|]. by rewrite Z.eqb_refl, IHa.
Qed.

(** Two strings compare by their common length first, then by length. *)
Lemma lex_sign_split a b :
  lex_sign a b =
  let n := Nat.min (length a) (length b) in
  if decide (take n a = take n b)
  then Z.sgn (Z.of_nat (length a) - Z.of_nat (length b))
  else lex_sign (take n a) (take n b).
Proof.
  revert b. induction a as [|x a IH]; intros [|y b]; simpl; try done.
  destruct (Z.eqb_spec x y) as [->|Hne].
  - rewrite IH. simpl. repeat case_decide; simplify_eq; try done; try congruence.
    f_equal. lia.
  - case_decide; [congruence|done].
Qed.

Lemma lex_sign_prefix a b : lex_sign a (a ++ b) <= 0.
Proof. induction a; simpl; [by destruct b|]. by rewrite Z.eqb_refl. Qed.

(** The strings that extend [p] form an interval of the order. *)
Lemma lex_sign_convex p a b :
  lex_sign p a <= 0 -> lex_sign a (p ++ b) <= 0 -> p `prefix_of` a.
Proof.
  revert a. induction p as [|x p IH]; intros [|y a]; simpl.
  - intros. exists []. done.
  - intros. by exists (y :: a).
  - lia.
  - destruct (Z.eqb_spec x y) as [->|Hne].
    + rewrite Z.eqb_refl. intros H1 H2.
      apply prefix_cons. eauto.
    + rewrite (proj2 (Z.eqb_neq y x)) by lia.
      destruct (Z.ltb_spec x y), (Z.ltb_spec y x); lia.
Qed.

Lemma lcp_take_min n a b : lcp (take n a) (take n b) = Nat.min n (lcp a b).
Proof.
  revert a b. induction n as [|n IH]; intros [|x a] [|y b]; simpl; try done.
  destruct (x =? y); simpl; [by rewrite IH|done].
Qed.

Lemma lcp_refl a : lcp a a = length a.
Proof. induction a; simpl; [done|]. by rewrite Z.eqb_refl, IHa. Qed.

(** Closes a decidable closed goal by evaluating its decision procedure. *)
Ltac by_decide := apply (bool_decide_unpack _); vm_compute; exact I.

(** * Notation for the early returns of the C code

    [try p <- e or r; k]: [e] is a call that may fault ([None]), fail
    ([Some None], the C function then returns [r]) or give [p]. *)
Declare Scope c_scope.
Delimit Scope c_scope with C.
Notation "'try' p <- e 'or' r ; k" :=
  (match e with
   | None => None
   | Some None => Some r
   | Some (Some p) => k
   end)
  (at level 100, p pattern, e at level 99, r at level 99, k at level 200,
   format "'[v' 'try'  p  <-  e  'or'  r ; '//' k ']'") : c_scope.
#[global] Open Scope c_scope.

(** A struct counter64 of [asn1.h]; its fields are [u_long]. *)
Record counter64 : Set := Counter64 { high : Z; low : Z }.

(** Byte order: [ntohl]/[htonl] on a little-endian machine. *)
Definition ntohl (x : Z) : Z := be_value 0 (le_bytes 4 x).
Definition htonl (x : Z) : Z := le_value (be_bytes 4 x).

(** Runs a hypothesis [e = Some _] through the code of [e]: splits every test
    and every call, dropping the branches that cannot give the result. *)
Ltac run_inv :=
  repeat first
    [ progress simplify_eq/=
    | match goal with
      | H : (_ ≫= _) = Some _ |- _ => apply bind_Some in H as (? & ? & ?)
      | H : (let '(_, _) := ?p in _) = Some _ |- _ => destruct p eqn:?
      | H : match ?x with _ => _ end = Some _ |- _ => destruct x eqn:?
      | H : match ?x with _ => _ end _ = Some _ |- _ => destruct x eqn:?
      end ].

(** Runs the binds of the goal whose first computation has returned. *)
Ltac obind :=
  repeat (match goal with
          | |- context [@mbind option option_bind ?A ?B ?f (Some ?x)] =>
            change (@mbind option option_bind A B f (Some x)) with (f x)
          end; cbv beta iota).

(** Proves an equation between results whose integer parts agree by [lia]. *)
Ltac result_eq :=
  repeat match goal with
  | |- Some _ = Some _ => apply f_equal
  | |- (_, _) = (_, _) => apply f_equal2
  | |- Ptr _ = Ptr _ => apply f_equal
  | |- Next _ = Next _ => apply f_equal
  | |- Return _ = Return _ => apply f_equal
  end; try done; try lia.

(** Turns the boolean tests of the code into propositions. *)
Ltac bool_prop :=
  rewrite ?andb_true_iff, ?andb_false_iff, ?orb_true_iff, ?orb_false_iff,
    ?negb_true_iff, ?negb_false_iff, ?Z.eqb_eq, ?Z.eqb_neq, ?Z.ltb_lt, ?Z.ltb_ge,
    ?Z.leb_le, ?Z.leb_gt in *.

Lemma mod_mod_pow x : x mod 2 ^ 64 mod 2 ^ 32 = x mod 2 ^ 32.
Proof.
  change (2 ^ 64) with (2 ^ 32 * 2 ^ 32). rewrite Z.rem_mul_r by lia.
  rewrite (Z.mul_comm (2 ^ 32)), Z_mod_plus_full. apply Z.mod_mod. lia.
Qed.
