(* ===== verification/StateMonad.v ===== *)
(** The monad of the stateful components: a computation sees a state and gives a
    result and the state after it, or [None] where the code is undefined.  [runs]
    is total correctness: the computation returns, and what it returns satisfies the
    postcondition. *)
From stdpp Require Import base list option.
From S2P Require Import Prelude.

Definition M (S A : Type) : Type := S -> option (A * S).

#[export] Instance M_ret S : MRet (M S) := fun A x s => Some (x, s).
#[export] Instance M_bind S : MBind (M S) := fun A B k m s => match m s with Some (x, s) => k x s | None => None end.

Definition get {S} : M S S := fun s => Some (s, s).
Definition gets {S A} (f : S -> A) : M S A := fun s => Some (f s, s).
Definition modify {S} (f : S -> S) : M S unit := fun s => Some (tt, f s).
Definition lift {S A} (o : option A) : M S A := fun s => match o with Some x => Some (x, s) | None => None end.
Definition skip {S} : M S unit := mret tt.

(** [if (b) m] *)
Definition when {S} (b : bool) (m : M S unit) : M S unit := if b then m else skip.

Fixpoint for_each {S A} (f : A -> M S unit) (xs : list A) : M S unit :=
  match xs with
  | [] => skip
  | x :: xs => f x ;; for_each f xs
  end.

(** [m] returns, in a state and with a result that satisfy [Q]. *)
Definition runs {S A} (m : M S A) (Q : A -> S -> Prop) (s : S) : Prop :=
  match m s with Some (x, s) => Q x s | None => False end.

Section monad.
Context {S : Type}.
Implicit Types s : S.

Lemma runs_ret {A} (x : A) (Q : A -> S -> Prop) s : Q x s -> runs (mret x) Q s.
Proof. done. Qed.

Lemma runs_bind {A B} (m : M S A) (k : A -> M S B) (Q : B -> S -> Prop) s :
  runs m (fun x s => runs (k x) Q s) s -> runs (m ≫= k) Q s.
Proof. unfold runs, mbind, M_bind. by destruct (m s) as [[x s']|]. Qed.

Lemma runs_mono {A} (m : M S A) (P Q : A -> S -> Prop) s : runs m P s -> (forall x s, P x s -> Q x s) -> runs m Q s.
Proof. unfold runs. destruct (m s) as [[x s']|]; eauto. Qed.

Lemma runs_and {A} (m : M S A) (P Q : A -> S -> Prop) s : runs m P s -> runs m Q s -> runs m (fun x s => P x s /\ Q x s) s.
Proof. unfold runs. by destruct (m s) as [[x s']|]. Qed.

Lemma runs_get (Q : S -> S -> Prop) s : Q s s -> runs get Q s.
Proof. done. Qed.

Lemma runs_gets {A} (f : S -> A) (Q : A -> S -> Prop) s : Q (f s) s -> runs (gets f) Q s.
Proof. done. Qed.

Lemma runs_modify f (Q : unit -> S -> Prop) s : Q tt (f s) -> runs (modify f) Q s.
Proof. done. Qed.

Lemma runs_lift {A} (o : option A) x (Q : A -> S -> Prop) s : o = Some x -> Q x s -> runs (lift o) Q s.
Proof. by intros ->. Qed.

Lemma runs_when b (m : M S unit) (Q : unit -> S -> Prop) s : (b = true -> runs m Q s) -> (b = false -> Q tt s) -> runs (when b m) Q s.
Proof. destruct b; [auto|]. intros _ H. by apply H. Qed.

(** An invariant of the loop body is one of the loop. *)
Lemma runs_for_each {A} (f : A -> M S unit) (xs : list A) (I : S -> Prop) s :
  I s -> (forall x s, x ∈ xs -> I s -> runs (f x) (fun _ => I) s) -> runs (for_each f xs) (fun _ => I) s.
Proof.
  intros Hs Hf. revert s Hs. induction xs as [|x xs IH]; intros s Hs; [done|]. cbn [for_each]. apply runs_bind.
  eapply runs_mono; [apply Hf; [by left|done]|]. intros u s' Hs'. apply IH; [|done]. intros y s'' Hy. apply Hf. by right.
Qed.

(** A result, read off the run. *)
Lemma runs_Some {A} (m : M S A) (Q : A -> S -> Prop) s : runs m Q s -> exists x s', m s = Some (x, s') /\ Q x s'.
Proof. unfold runs. destruct (m s) as [[x s']|]; [eauto|done]. Qed.

(** Equations of runs whose first part is known. *)
Lemma bind_Some {A B} (f : M S A) (k : A -> M S B) s x s' : f s = Some (x, s') -> (f ≫= k) s = k x s'.
Proof. intros Hf. unfold mbind, M_bind. by rewrite Hf. Qed.

Lemma bind_None {A B} (f : M S A) (k : A -> M S B) s : f s = None -> (f ≫= k) s = None.
Proof. intros Hf. unfold mbind, M_bind. by rewrite Hf. Qed.

Lemma bind_lift {A B} (o : option A) x (k : A -> M S B) s : o = Some x -> (lift o ≫= k) s = k x s.
Proof. by intros ->. Qed.

Lemma bind_eq {A B} (f g : M S A) (k : A -> M S B) s s' : f s = g s' -> (f ≫= k) s = (g ≫= k) s'.
Proof. intros Hf. unfold mbind, M_bind. by rewrite Hf. Qed.
End monad.

#[export] Hint Resolve runs_ret runs_get runs_gets runs_modify : snmp.

(** Goes through the code of a computation up to the next call. *)
Ltac run1 :=
  lazymatch goal with
  | |- runs (_ ≫= _) _ _ => apply runs_bind
  | |- runs (mret _) _ _ => apply runs_ret
  | |- runs get _ _ => apply runs_get
  | |- runs (gets _) _ _ => apply runs_gets
  | |- runs (modify _) _ _ => apply runs_modify
  | |- runs skip _ _ => apply runs_ret
  | |- runs (lift (Some _)) _ _ => eapply runs_lift; [reflexivity|]
  end.
Ltac run := cbv beta zeta match; repeat (run1; cbv beta zeta match).

(** Goes over a part of the computation by what is known of it. *)
Tactic Notation "run_by" tactic3(t) := eapply runs_mono; [solve [t]|cbv beta].
Tactic Notation "run_by" tactic3(t) "as" simple_intropattern_list(pats) := run_by (t); intros pats.

(** A step of a run whose outcome [t] gives. *)
Tactic Notation "step" tactic3(t) := erewrite bind_Some by t; cbv beta match zeta.
