(* ===== verification/Chains.v ===== *)
(** Chains of heap objects linked by a pointer in each: what following the links
    gives, that it cannot run into a circle, and how a chain changes when an object
    is linked in or unlinked.  [nxt p] is the link in the object at [p], none if
    there is no object. *)
From Stdlib Require Import ZArith Lia.
From stdpp Require Import gmap.
From S2P Require Import Prelude.

(** [for (x = p; x; x = x->next)]: the objects it visits. *)
Fixpoint walk (nxt : Z -> option (option Z)) (fuel : nat) (p : option Z) : option (list Z) :=
  match fuel, p with
  | _, None => Some []
  | O, _ => None
  | S fuel, Some x => n ← nxt x; l ← walk nxt fuel n; Some (x :: l)
  end.

(** [linked nxt p ps q]: from [p] the links lead through [ps] to [q]. *)
Fixpoint linked (nxt : Z -> option (option Z)) (p : option Z) (ps : list Z) (q : option Z) : Prop :=
  match ps with
  | [] => p = q
  | x :: ps => p = Some x /\ exists n, nxt x = Some n /\ linked nxt n ps q
  end.

Abbreviation chain nxt p ps := (linked nxt p ps None).

Section chains.
Implicit Types nxt : Z -> option (option Z).

Lemma linked_app nxt p xs ys q : linked nxt p (xs ++ ys) q <-> exists r, linked nxt p xs r /\ linked nxt r ys q.
Proof.
  revert p. induction xs as [|x xs IH]; intros p; cbn.
  - split; [eauto|]. by intros (r & -> & H).
  - split.
    + intros [-> (n & Hn & H)]. apply IH in H as (r & H1 & H2). eauto 10.
    + intros (r & [-> (n & Hn & H1)] & H2). split; [done|]. exists n. split; [done|]. apply IH. eauto.
Qed.

Lemma linked_ext nxt nxt' p ps q : (forall x, x ∈ ps -> nxt' x = nxt x) -> linked nxt p ps q -> linked nxt' p ps q.
Proof.
  revert p. induction ps as [|x ps IH]; intros p He; cbn; [done|]. intros [-> (n & Hn & H)].
  split; [done|]. exists n. rewrite He by (by left). split; [done|]. apply IH; [|done]. intros y Hy. apply He. by right.
Qed.

Lemma chain_inj nxt ps : forall p ps', chain nxt p ps -> chain nxt p ps' -> ps = ps'.
Proof.
  induction ps as [|x ps IH]; intros p [|x' ps']; cbn.
  - done.
  - by intros -> [? _].
  - by intros [-> _] ?.
  - intros [-> (n & Hn & H)] [[= <-] (n' & Hn' & H')]. simplify_eq. f_equal. by eapply IH.
Qed.

(** A chain that ends has no circle. *)
Lemma chain_NoDup nxt p ps : chain nxt p ps -> NoDup ps.
Proof.
  revert p. induction ps as [|x ps IH]; intros p Hc; [constructor|]. constructor.
  - intros Hin. apply list_elem_of_split in Hin as (xs & ys & ->). destruct Hc as [-> (n & Hn & Hc)].
    pose proof Hc as Hc0. apply linked_app in Hc as (r & _ & [-> (n' & Hn' & Hc')]). simplify_eq.
    pose proof (chain_inj _ _ _ _ Hc0 Hc') as Heq. apply (f_equal length) in Heq. rewrite length_app in Heq. cbn in Heq. lia.
  - destruct Hc as [_ (n & _ & Hc)]. by eapply IH.
Qed.

Lemma walk_chain nxt p ps fuel : chain nxt p ps -> (length ps < fuel)%nat -> walk nxt fuel p = Some ps.
Proof.
  revert p fuel. induction ps as [|x ps IH]; intros p [|fuel] Hc Hf; cbn in *; try lia.
  - by subst p.
  - destruct Hc as [-> (n & -> & Hc)]. obind. rewrite (IH n fuel) by (done || lia). done.
Qed.

Lemma walk_Some nxt fuel : forall p ps, walk nxt fuel p = Some ps -> chain nxt p ps.
Proof.
  induction fuel as [|fuel IH]; intros [x|] ps; cbn; try done; try (intros [= <-]; done).
  destruct (nxt x) as [n|] eqn:Hn; [|done]. obind. destruct (walk nxt fuel n) as [l|] eqn:Hw; [|done]. obind. intros [= <-].
  split; [done|]. exists n. split; [done|]. by apply IH.
Qed.

Lemma chain_member nxt p ps x : chain nxt p ps -> x ∈ ps -> exists n, nxt x = Some n.
Proof.
  intros Hc Hx. apply list_elem_of_split in Hx as (xs & ys & ->). apply linked_app in Hc as (r & _ & [-> (n & Hn & _)]). eauto.
Qed.

(** A chain of objects of a map is no longer than the map. *)
Lemma chain_length {A} (h : gmap Z A) (f : A -> option Z) p ps : chain (fun x => f <$> h !! x) p ps -> (length ps <= size h)%nat.
Proof.
  intros Hc. rewrite <- size_dom. rewrite <- (size_list_to_set (C := gset Z)) by (by eapply chain_NoDup).
  apply subseteq_size. intros x. rewrite elem_of_list_to_set, elem_of_dom. intros Hx.
  destruct (chain_member _ _ _ _ Hc Hx) as (n & Hn). destruct (h !! x); [eauto|done].
Qed.

Lemma walk_map {A} (h : gmap Z A) (f : A -> option Z) p ps :
  chain (fun x => f <$> h !! x) p ps -> walk (fun x => f <$> h !! x) (S (size h)) p = Some ps.
Proof. intros Hc. apply walk_chain; [done|]. apply chain_length in Hc. lia. Qed.

(** A chain, link by link. *)
Lemma linked_steps nxt xs q : (forall k x, xs !! k = Some x -> nxt x = Some (match xs !! S k with Some y => Some y | None => q end)) ->
  linked nxt (match head xs with Some x => Some x | None => q end) xs q.
Proof.
  induction xs as [|x xs IH]; intros Hs; [done|]. split; [done|]. exists (match head xs with Some y => Some y | None => q end). split.
  - rewrite (Hs 0%nat x eq_refl). by destruct xs.
  - apply IH. intros k y Hy. exact (Hs (S k) y Hy).
Qed.

(** Linking behind the last object. *)
Lemma linked_snoc nxt nxt' p ps x y q :
  linked nxt p (ps ++ [x]) q -> NoDup (ps ++ [x]) -> (forall z, z <> x -> nxt' z = nxt z) -> nxt' x = Some y -> linked nxt' p (ps ++ [x]) y.
Proof.
  intros Hl Hnd He Hx. apply linked_app in Hl as (r & H1 & [-> _]). apply linked_app. exists (Some x). split.
  - eapply linked_ext; [|exact H1]. intros z Hz. apply He. intros ->. apply list.NoDup_app in Hnd as (_ & Hd & _). apply (Hd x Hz). by left.
  - split; [done|]. by exists y.
Qed.

(** Taking an object out, by the link before it. *)
Lemma linked_remove nxt nxt' p xs w x ys q n :
  linked nxt p (xs ++ w :: x :: ys) q -> NoDup (xs ++ w :: x :: ys) -> nxt x = Some n ->
  (forall z, z <> w -> z <> x -> nxt' z = nxt z) -> nxt' w = Some n -> linked nxt' p (xs ++ w :: ys) q.
Proof.
  intros Hl Hnd Hx He Hw. apply linked_app in Hl as (r & H1 & [-> (m & Hm & [-> (n' & Hn' & H2)])]). rewrite Hx in Hn'. injection Hn' as <-.
  apply list.NoDup_app in Hnd as (_ & Hd & Hnd). apply list.NoDup_cons in Hnd as [Hw' Hnd]. apply list.NoDup_cons in Hnd as [Hx' _].
  apply linked_app. exists (Some w). split.
  - eapply linked_ext; [|exact H1]. intros z Hz. apply He; intros ->; apply (Hd _ Hz); set_solver.
  - split; [done|]. exists n. split; [done|]. eapply linked_ext; [|exact H2]. intros z Hz. apply He; intros ->; set_solver.
Qed.
End chains.
