(* ===== verification/Oid.v ===== *)
(** Object identifiers: the comparison routines of [snmplib/snmp_api.c].

    An [oid] array is the list of its cells, its length argument a [size_t];
    the code keeps loop counters in an [int], which the model writes out. *)
From Stdlib Require Import ZArith Lia.
From S2P Require Import Prelude.

(** Memory image of an [oid] array: 8 little-endian bytes per cell. *)
Definition oid_image (o : list Z) : list Z := o ≫= le_bytes 8.

(** The loop [while (len-- > 0)] shared by the comparison routines: walks both
    arrays from index [i] and returns at the first difference, with the value
    of [len] at that point. *)
Fixpoint oid_cmp_loop (n : nat) (name1 name2 : list Z) (i len : Z)
  : option (flow (Z * Z) Z) :=
  match n with
  | O => Some (Next (len - 1))
  | S k =>
    let len := len - 1 in
    x ← peek name1 i; y ← peek name2 i;
    if negb (x =? y) then
      if x <? y then Some (Return (-1, len)) else Some (Return (1, len))
    else oid_cmp_loop k name1 name2 (i + 1) len
  end.

Definition while_len (len : Z) (name1 name2 : list Z) : option (flow (Z * Z) Z) :=
  oid_cmp_loop (Z.to_nat len) name1 name2 0 len.

Definition snmp_oid_ncompare (in_name1 : list Z) (len1 : Z)
    (in_name2 : list Z) (len2 max_len : Z) : option Z :=
  let min_len := if len1 <? len2 then len1 else len2 in
  let min_len := if max_len <? min_len then max_len else min_len in
  let len := s32 min_len in
  f ← while_len len in_name1 in_name2;
  match f with
  | Return (r, _) => Some r
  | Next _ =>
    if negb (min_len =? max_len) then
      if len1 <? len2 then Some (-1)
      else if len2 <? len1 then Some 1
      else Some 0
    else Some 0
  end.

Definition snmp_oid_compare (in_name1 : list Z) (len1 : Z)
    (in_name2 : list Z) (len2 : Z) : option Z :=
  let len := s32 (if len1 <? len2 then len1 else len2) in
  f ← while_len len in_name1 in_name2;
  match f with
  | Return (r, _) => Some r
  | Next _ =>
    if len1 <? len2 then Some (-1)
    else if len2 <? len1 then Some 1
    else Some 0
  end.

(** Returns the comparison and the value stored in [*offpt]. *)
Definition netsnmp_oid_compare_ll (in_name1 : list Z) (len1 : Z)
    (in_name2 : list Z) (len2 : Z) : option (Z * Z) :=
  let initlen := s32 (if len1 <? len2 then len1 else len2) in
  f ← while_len initlen in_name1 in_name2;
  match f with
  | Return (r, len) => Some (r, u64 (initlen - len))
  | Next len =>
    let offpt := u64 (initlen - len) in
    if len1 <? len2 then Some (-1, offpt)
    else if len2 <? len1 then Some (1, offpt)
    else Some (0, offpt)
  end.

Definition snmp_oidtree_compare (in_name1 : list Z) (len1 : Z)
    (in_name2 : list Z) (len2 : Z) : option Z :=
  let len := s32 (if len1 <? len2 then len1 else len2) in
  snmp_oid_compare in_name1 (u64 len) in_name2 (u64 len).

Definition snmp_oidsubtree_compare (in_name1 : list Z) (len1 : Z)
    (in_name2 : list Z) (len2 : Z) : option Z :=
  let len := s32 (if len1 <? len2 then len1 else len2) in
  snmp_oid_compare in_name1 len1 in_name2 (u64 len).

(** The equality routine accepts null array pointers ([None]). *)
Definition netsnmp_oid_equals (in_name1 : option (list Z)) (len1 : Z)
    (in_name2 : option (list Z)) (len2 : Z) : option Z :=
  let len := s32 len1 in
  if negb (len1 =? len2) then Some 1
  else if len1 =? 0 then Some 0
  else match in_name1, in_name2 with
  | Some name1, Some name2 =>
    f ← while_len len name1 name2;
    match f with
    | Return _ => Some 1
    | Next _ => Some 0
    end
  | _, _ => Some 1
  end.

Definition netsnmp_oid_is_subtree (in_name1 : list Z) (len1 : Z)
    (in_name2 : list Z) (len2 : Z) : option Z :=
  if len2 <? len1 then Some 1
  else
    c ← memcmp (oid_image in_name1) (oid_image in_name2) (u64 (len1 * sizeof_oid));
    if negb (c =? 0) then Some 1 else Some 0.

(** [for (i = 0; i < (int)min_size; i++)] of [netsnmp_oid_find_prefix]. *)
Fixpoint find_prefix_loop (n : nat) (name1 name2 : list Z) (i : Z) : option (flow Z unit) :=
  match n with
  | O => Some (Next tt)
  | S k =>
    x ← peek name1 i; y ← peek name2 i;
    if negb (x =? y) then Some (Return i) else find_prefix_loop k name1 name2 (i + 1)
  end.

Definition netsnmp_oid_find_prefix (in_name1 : option (list Z)) (len1 : Z)
    (in_name2 : option (list Z)) (len2 : Z) : option Z :=
  match in_name1, in_name2 with
  | Some name1, Some name2 =>
    if (len1 =? 0) || (len2 =? 0) then Some (-1)
    else
      x ← peek name1 0; y ← peek name2 0;
      if negb (x =? y) then Some 0
      else
        let min_size := if len1 <? len2 then len1 else len2 in
        f ← find_prefix_loop (Z.to_nat (s32 min_size)) name1 name2 0;
        match f with
        | Return i => Some i
        | Next _ => Some (s32 min_size)
        end
  | _, _ => Some (-1)
  end.

(** * Correctness *)

(** [oid_ok o len]: an array of [oid] cells with a length argument that does
    not reach past its end and fits the [int] the loops count in. *)
Definition oid_ok (o : list Z) (len : Z) : Prop :=
  0 <= len <= Z.of_nat (length o) /\ len < 2 ^ 31 /\ Forall (fun x => 0 <= x < 2 ^ 64) o.

#[export] Instance oid_ok_dec o len : Decision (oid_ok o len).
Proof. unfold oid_ok. apply _. Defined.

(** The identifier a pointer and a length denote. *)
Definition oid_of (o : list Z) (len : Z) : list Z := take (Z.to_nat len) o.

Lemma oid_of_length o len : oid_ok o len -> Z.of_nat (length (oid_of o len)) = len.
Proof. intros (? & _). unfold oid_of. rewrite length_take. lia. Qed.

Lemma oid_cmp_loop_spec n a b i len :
  0 <= i -> i + Z.of_nat n <= Z.of_nat (length a) -> i + Z.of_nat n <= Z.of_nat (length b) ->
  let a' := take n (drop (Z.to_nat i) a) in
  let b' := take n (drop (Z.to_nat i) b) in
  oid_cmp_loop n a b i len =
  Some (if decide (a' = b') then Next (len - Z.of_nat n - 1)
        else Return (lex_sign a' b', len - Z.of_nat (lcp a' b') - 1)).
Proof.
  revert i len. induction n as [|n IH]; intros i len Hi Ha Hb; simpl.
  { do 2 f_equal. lia. }
  destruct (peek_in_range a i) as [x Hx]; [lia|].
  destruct (peek_in_range b i) as [y Hy]; [lia|].
  rewrite Hx, Hy. simpl.
  rewrite (peek_drop _ _ _ Hx), (peek_drop _ _ _ Hy). simpl.
  destruct (Z.eqb_spec x y) as [->|Hne]; simpl.
  - rewrite IH by lia. simpl. repeat case_decide; simplify_eq; try congruence.
    + do 2 f_equal. lia.
    + do 3 f_equal. lia.
  - case_decide; [congruence|].
    destruct (x <? y); do 3 f_equal; lia.
Qed.

Lemma s32_small len : 0 <= len < 2 ^ 31 -> s32 len = len.
Proof. intros. apply swrap_small; lia. Qed.

Lemma while_len_spec len a b :
  0 <= len <= Z.of_nat (length a) -> len <= Z.of_nat (length b) ->
  let a' := oid_of a len in
  let b' := oid_of b len in
  while_len len a b =
  Some (if decide (a' = b') then Next (-1)
        else Return (lex_sign a' b', len - Z.of_nat (lcp a' b') - 1)).
Proof.
  intros Ha Hb. unfold while_len. rewrite oid_cmp_loop_spec by lia.
  cbv zeta. rewrite !drop_0. fold (oid_of a len) (oid_of b len).
  case_decide; [|done]. do 2 f_equal. lia.
Qed.

Lemma oid_of_min a len n : 0 <= n -> n <= len -> oid_of a n = take (Z.to_nat n) (oid_of a len).
Proof. intros. unfold oid_of. rewrite take_take. f_equal. lia. Qed.

Lemma oid_ok_shorter o len n : oid_ok o len -> 0 <= n <= len -> oid_ok o n.
Proof. unfold oid_ok. intros (? & ? & ?) ?. split_and!; try done; lia. Qed.

(** The comparison of two identifiers in terms of their common length. *)
Lemma lex_sign_oid a la b lb m :
  oid_ok a la -> oid_ok b lb -> m = Z.min la lb ->
  lex_sign (oid_of a la) (oid_of b lb) =
  if decide (oid_of a m = oid_of b m) then Z.sgn (la - lb)
  else lex_sign (oid_of a m) (oid_of b m).
Proof.
  intros Ha Hb ->. pose proof (oid_of_length _ _ Ha) as La. pose proof (oid_of_length _ _ Hb) as Lb.
  destruct Ha as (? & _), Hb as (? & _).
  rewrite lex_sign_split. cbv zeta.
  replace (length (oid_of a la) `min` length (oid_of b lb))%nat with (Z.to_nat (Z.min la lb)) by lia.
  rewrite <- (oid_of_min a la), <- (oid_of_min b lb) by lia. by rewrite La, Lb.
Qed.

Lemma if_ltb_min la lb : (if la <? lb then la else lb) = Z.min la lb.
Proof. destruct (Z.ltb_spec la lb); lia. Qed.

Lemma if_ltb_sgn {A} la lb (f : Z -> A) :
  (if la <? lb then f (-1) else if lb <? la then f 1 else f 0) = f (Z.sgn (la - lb)).
Proof.
  destruct (Z.ltb_spec la lb); [by rewrite Z.sgn_neg by lia|].
  destruct (Z.ltb_spec lb la); [by rewrite Z.sgn_pos by lia|].
  by replace (la - lb) with 0 by lia.
Qed.

Lemma snmp_oid_compare_spec a la b lb :
  oid_ok a la -> oid_ok b lb ->
  snmp_oid_compare a la b lb = Some (lex_sign (oid_of a la) (oid_of b lb)).
Proof.
  intros Ha Hb. rewrite (lex_sign_oid a la b lb _ Ha Hb eq_refl).
  destruct Ha as (? & ? & _), Hb as (? & ? & _).
  unfold snmp_oid_compare. rewrite if_ltb_min, s32_small by lia.
  rewrite while_len_spec by lia. simpl. case_decide; [|done].
  apply (if_ltb_sgn la lb Some).
Qed.

Lemma snmp_oid_ncompare_spec a la b lb mx :
  oid_ok a la -> oid_ok b lb -> 0 <= mx ->
  snmp_oid_ncompare a la b lb mx =
  Some (lex_sign (oid_of a (Z.min la mx)) (oid_of b (Z.min lb mx))).
Proof.
  intros Ha Hb Hm.
  pose proof (oid_ok_shorter _ _ (Z.min la mx) Ha) as Ha'.
  pose proof (oid_ok_shorter _ _ (Z.min lb mx) Hb) as Hb'.
  destruct Ha as (? & ? & _), Hb as (? & ? & _).
  rewrite (lex_sign_oid a _ b _ (Z.min mx (Z.min la lb))) by (auto with lia).
  unfold snmp_oid_ncompare. rewrite (if_ltb_min la lb), (if_ltb_min mx), s32_small by lia.
  rewrite while_len_spec by lia. simpl. case_decide; [|done].
  rewrite (if_ltb_sgn la lb Some).
  destruct (Z.eqb_spec (Z.min mx (Z.min la lb)) mx); simpl; f_equal; lia.
Qed.

Lemma netsnmp_oid_compare_ll_spec a la b lb :
  oid_ok a la -> oid_ok b lb ->
  netsnmp_oid_compare_ll a la b lb =
  Some (lex_sign (oid_of a la) (oid_of b lb),
        Z.of_nat (lcp (oid_of a la) (oid_of b lb)) + 1).
Proof.
  intros Ha Hb. rewrite (lex_sign_oid a la b lb _ Ha Hb eq_refl).
  pose proof (lcp_le (oid_of a la) (oid_of b lb)) as Hl.
  pose proof (oid_of_length _ _ Ha). pose proof (oid_of_length _ _ Hb).
  pose proof (lcp_take_min (Z.to_nat (Z.min la lb)) (oid_of a la) (oid_of b lb)) as Hm.
  destruct Ha as (? & ? & _), Hb as (? & ? & _).
  rewrite <- !oid_of_min in Hm by lia.
  unfold netsnmp_oid_compare_ll. rewrite if_ltb_min, s32_small by lia.
  rewrite while_len_spec by lia. simpl. case_decide as Heq.
  - rewrite (if_ltb_sgn la lb (fun r => Some (r, _))), wrap_small by lia.
    rewrite Heq, lcp_refl in Hm. unfold oid_of in Hm at 1. rewrite length_take in Hm.
    do 2 f_equal. lia.
  - rewrite wrap_small by lia. do 2 f_equal. lia.
Qed.

(** C-level tests of equality, of subtree membership and of the common prefix. *)

Lemma oid_image_length o : length (oid_image o) = (8 * length o)%nat.
Proof.
  induction o as [|x o IH]; [done|].
  change (oid_image (x :: o)) with (le_bytes 8 x ++ oid_image o).
  rewrite length_app, length_le_bytes, IH. simpl. lia.
Qed.

Lemma oid_image_take o n : take (8 * n) (oid_image o) = oid_image (take n o).
Proof.
  revert n. induction o as [|x o IH]; intros [|n]; try by rewrite ?take_nil.
  change (oid_image (x :: o)) with (le_bytes 8 x ++ oid_image o).
  change (oid_image (take (S n) (x :: o))) with (le_bytes 8 x ++ oid_image (take n o)).
  rewrite take_app_ge by (rewrite length_le_bytes; lia).
  rewrite length_le_bytes, <- IH. do 2 f_equal. lia.
Qed.

Lemma oid_image_inj o p :
  Forall (fun x => 0 <= x < 2 ^ 64) o -> Forall (fun x => 0 <= x < 2 ^ 64) p ->
  oid_image o = oid_image p -> o = p.
Proof.
  intros Ho. revert p. induction Ho as [|x o Hx _ IH]; intros [|y p] Hp; try done.
  apply Forall_cons_1 in Hp as [Hy Hp].
  change (le_bytes 8 x ++ oid_image o = le_bytes 8 y ++ oid_image p -> x :: o = y :: p).
  intros [E1 E2]%app_inj_1; [|by rewrite !length_le_bytes].
  apply le_bytes_inj in E1; [|done..]. f_equal; auto.
Qed.

Lemma netsnmp_oid_is_subtree_spec a la b lb :
  oid_ok a la -> oid_ok b lb ->
  netsnmp_oid_is_subtree a la b lb =
  Some (if decide (oid_of a la `prefix_of` oid_of b lb) then 0 else 1).
Proof.
  intros Ha Hb. pose proof (oid_of_length _ _ Ha). pose proof (oid_of_length _ _ Hb).
  destruct Ha as (? & ? & Fa), Hb as (? & ? & Fb).
  unfold netsnmp_oid_is_subtree, memcmp. destruct (Z.ltb_spec lb la).
  { case_decide as Hp; [|done]. apply prefix_length in Hp. lia. }
  rewrite wrap_small by (unfold sizeof_oid; lia).
  unfold peek_n, sizeof_oid. rewrite !oid_image_length.
  rewrite !(proj2 (Z.leb_le _ _)) by lia. simpl.
  replace (Z.to_nat (la * 8)) with (8 * Z.to_nat la)%nat by lia.
  rewrite !drop_0, !oid_image_take.
  destruct (Z.eqb_spec (lex_sign (oid_image (take (Z.to_nat la) a))
                                 (oid_image (take (Z.to_nat la) b))) 0) as [E|E]; simpl.
  - apply lex_sign_eq, oid_image_inj in E; auto using Forall_take.
    rewrite decide_True; [done|]. unfold oid_of in *.
    replace (take (Z.to_nat lb) b) with (take (Z.to_nat la) b ++ drop (Z.to_nat la) (take (Z.to_nat lb) b)).
    + rewrite E. by apply prefix_app_r.
    + rewrite <- (take_drop (Z.to_nat la) (take (Z.to_nat lb) b)) at 2.
      rewrite take_take. do 2 f_equal. lia.
  - rewrite decide_False; [done|]. intros [k Hk]. apply E, lex_sign_eq. f_equal.
    apply (f_equal (take (Z.to_nat la))) in Hk. unfold oid_of in *.
    rewrite take_take, take_app_length' in Hk by lia. rewrite <- Hk. f_equal. lia.
Qed.

Lemma netsnmp_oid_equals_spec a la b lb :
  oid_ok a la -> oid_ok b lb ->
  netsnmp_oid_equals (Some a) la (Some b) lb =
  Some (if decide (oid_of a la = oid_of b lb) then 0 else 1).
Proof.
  intros Ha Hb. pose proof (oid_of_length _ _ Ha) as La. pose proof (oid_of_length _ _ Hb) as Lb.
  destruct Ha as (? & ? & _), Hb as (? & ? & _).
  unfold netsnmp_oid_equals. destruct (Z.eqb_spec la lb) as [<-|Hne]; simpl.
  2: { rewrite decide_False; [done|congruence]. }
  destruct (Z.eqb_spec la 0) as [->|].
  { by rewrite decide_True by done. }
  rewrite s32_small, while_len_spec by lia. simpl. by case_decide.
Qed.

Lemma find_prefix_loop_spec n a b i :
  0 <= i -> i + Z.of_nat n <= Z.of_nat (length a) -> i + Z.of_nat n <= Z.of_nat (length b) ->
  let k := lcp (take n (drop (Z.to_nat i) a)) (take n (drop (Z.to_nat i) b)) in
  find_prefix_loop n a b i =
  Some (if (k <? n)%nat then Return (i + Z.of_nat k) else Next tt).
Proof.
  revert i. induction n as [|n IH]; intros i Hi Ha Hb; [done|].
  destruct (peek_in_range a i) as [x Hx]; [lia|].
  destruct (peek_in_range b i) as [y Hy]; [lia|].
  simpl. rewrite Hx, Hy. simpl.
  rewrite (peek_drop _ _ _ Hx), (peek_drop _ _ _ Hy). simpl.
  destruct (Z.eqb_spec x y) as [->|Hne]; simpl.
  - rewrite IH by lia. simpl.
    change (S ?k <? S ?m)%nat with (k <? m)%nat. case_match; [|done]. do 2 f_equal. lia.
  - do 2 f_equal. lia.
Qed.

Lemma netsnmp_oid_find_prefix_spec a la b lb :
  oid_ok a la -> oid_ok b lb -> la <> 0 -> lb <> 0 ->
  netsnmp_oid_find_prefix (Some a) la (Some b) lb =
  Some (Z.of_nat (lcp (oid_of a la) (oid_of b lb))).
Proof.
  intros Ha Hb ??.
  pose proof (oid_of_length _ _ Ha) as La. pose proof (oid_of_length _ _ Hb) as Lb.
  pose proof (lcp_le (oid_of a la) (oid_of b lb)) as Hl.
  pose proof (lcp_take_min (Z.to_nat (Z.min la lb)) (oid_of a la) (oid_of b lb)) as Hm.
  destruct Ha as (? & ? & _), Hb as (? & ? & _).
  rewrite <- !oid_of_min in Hm by lia. unfold oid_of in Hm at 1 2.
  unfold netsnmp_oid_find_prefix.
  rewrite (proj2 (Z.eqb_neq la 0)), (proj2 (Z.eqb_neq lb 0)) by lia. simpl.
  destruct (peek_in_range a 0) as [x Hx]; [lia|].
  destruct (peek_in_range b 0) as [y Hy]; [lia|].
  rewrite Hx, Hy. simpl. destruct (Z.eqb_spec x y) as [->|Hne]; simpl.
  - rewrite if_ltb_min, s32_small by lia.
    rewrite find_prefix_loop_spec by lia. simpl. rewrite !drop_0, Hm.
    destruct (Nat.ltb_spec (Z.to_nat (la `min` lb) `min` lcp (oid_of a la) (oid_of b lb))
                           (Z.to_nat (la `min` lb))); f_equal; lia.
  - pose proof (peek_drop _ _ _ Hx) as Dx. pose proof (peek_drop _ _ _ Hy) as Dy.
    rewrite drop_0 in Dx, Dy. rewrite Dx, Dy. unfold oid_of.
    destruct (Z.to_nat la) eqn:Ela; [lia|]. destruct (Z.to_nat lb) eqn:Elb; [lia|].
    simpl. by rewrite (proj2 (Z.eqb_neq x y)).
Qed.

(** * The interface other components use

    [oid_order cmp]: a comparison of identifiers that is a total order whose
    zero is equality and in which a subtree is an interval. *)
Class OidOrder (cmp : list Z -> list Z -> Z) : Prop := {
  oo_eq a b : cmp a b = 0 <-> a = b;
  oo_opp a b : cmp b a = - cmp a b;
  oo_trans a b c : cmp a b <= 0 -> cmp b c <= 0 -> cmp a c <= 0;
  oo_prefix p b : cmp p (p ++ b) <= 0;
  oo_convex p a b : cmp p a <= 0 -> cmp a (p ++ b) <= 0 -> p `prefix_of` a
}.

#[export] Instance lex_sign_order : OidOrder lex_sign.
Proof.
  split; eauto using lex_sign_eq, lex_sign_opp, lex_sign_trans, lex_sign_prefix, lex_sign_convex.
Qed.

(** * Properties *)

(** on any two identifiers [snmp_oid_compare] returns, without reading past
    either array, the sign of their lexicographic comparison, shorter first. *)
Theorem snmp_oid_compare_lexicographic a la b lb :
  oid_ok a la -> oid_ok b lb ->
  snmp_oid_compare a la b lb = Some (lex_sign (oid_of a la) (oid_of b lb)).
Proof. apply snmp_oid_compare_spec. Qed.

Lemma snmp_oid_compare_lexicographic_witness :
  snmp_oid_compare [1; 3; 6; 1; 4294967295] 4 [1; 3; 6; 2] 4 = Some (-1).
Proof. apply snmp_oid_compare_lexicographic; by_decide. Defined.

(** [snmp_oid_compare] is a total order on identifiers: zero exactly on
    equal ones, swapping the arguments negates the result, and it is transitive. *)
Theorem snmp_oid_compare_total_order a la b lb c lc :
  oid_ok a la -> oid_ok b lb -> oid_ok c lc ->
  (snmp_oid_compare a la b lb = Some 0 <-> oid_of a la = oid_of b lb) /\
  (forall r, snmp_oid_compare a la b lb = Some r -> snmp_oid_compare b lb a la = Some (- r)) /\
  (forall r s, snmp_oid_compare a la b lb = Some r -> snmp_oid_compare b lb c lc = Some s ->
     r <= 0 -> s <= 0 -> exists t, snmp_oid_compare a la c lc = Some t /\ t <= 0).
Proof.
  intros Ha Hb Hc. rewrite !snmp_oid_compare_spec by done. split_and!.
  - rewrite <- (oo_eq (cmp := lex_sign)). split; [by intros [= ?]|by intros ->].
  - intros r [= <-]. by rewrite <- oo_opp.
  - intros r s [= <-] [= <-] Hr Hs. eexists. split; [done|]. by eapply oo_trans.
Qed.

Lemma snmp_oid_compare_total_order_witness :
  exists t, snmp_oid_compare [1; 3] 2 [1; 3; 6; 1] 4 = Some t /\ t <= 0.
Proof.
  eapply (snmp_oid_compare_total_order [1; 3] 2 [1; 3; 6] 3 [1; 3; 6; 1] 4);
    [by_decide..| | | |]; try reflexivity; by_decide.
Defined.

(** The identifiers below a subtree are contiguous in the order the agent
    walks: if [c] lies between a subtree root [a] and one of its members [b],
    then [netsnmp_oid_is_subtree] accepts [c] too. *)
Theorem subtree_is_interval a la b lb c lc r s :
  oid_ok a la -> oid_ok b lb -> oid_ok c lc ->
  netsnmp_oid_is_subtree a la b lb = Some 0 ->
  snmp_oid_compare a la c lc = Some r -> snmp_oid_compare c lc b lb = Some s ->
  r <= 0 -> s <= 0 -> netsnmp_oid_is_subtree a la c lc = Some 0.
Proof.
  intros Ha Hb Hc. rewrite !netsnmp_oid_is_subtree_spec, !snmp_oid_compare_spec by done.
  case_decide as Hp; [|done]. intros _ [= <-] [= <-] Hr Hs.
  destruct Hp as [k Hk]. rewrite Hk in Hs.
  rewrite decide_True; [done|]. by eapply oo_convex.
Qed.

Lemma subtree_is_interval_witness :
  netsnmp_oid_is_subtree [1; 3; 6] 3 [1; 3; 6; 1] 4 = Some 0.
Proof.
  apply (subtree_is_interval [1; 3; 6] 3 [1; 3; 6; 2; 5] 5 [1; 3; 6; 1] 4 (-1) (-1));
    first [by_decide | reflexivity].
Defined.

(** [netsnmp_oid_is_subtree] returns 0 exactly when the first identifier is
    a prefix of the second, [netsnmp_oid_equals] exactly when they are equal, and
    the bounded comparison agrees with the full one on the truncated identifiers. *)
Theorem oid_tests_decide a la b lb mx :
  oid_ok a la -> oid_ok b lb -> 0 <= mx ->
  (netsnmp_oid_is_subtree a la b lb = Some 0 <-> oid_of a la `prefix_of` oid_of b lb) /\
  (netsnmp_oid_equals (Some a) la (Some b) lb = Some 0 <-> oid_of a la = oid_of b lb) /\
  snmp_oid_ncompare a la b lb mx = snmp_oid_compare a (Z.min la mx) b (Z.min lb mx).
Proof.
  intros Ha Hb Hm. rewrite netsnmp_oid_is_subtree_spec, netsnmp_oid_equals_spec by done.
  rewrite snmp_oid_ncompare_spec by done.
  rewrite snmp_oid_compare_spec by
    (eapply oid_ok_shorter; [eassumption|]; unfold oid_ok in *; lia).
  split_and!; [repeat case_decide; naive_solver..|done].
Qed.

Lemma oid_tests_decide_witness :
  snmp_oid_ncompare [1; 3; 6; 9] 4 [1; 3; 6; 1; 4] 5 3 =
  snmp_oid_compare [1; 3; 6; 9] 3 [1; 3; 6; 1; 4] 3.
Proof. apply (oid_tests_decide [1; 3; 6; 9] 4 [1; 3; 6; 1; 4] 5 3); by_decide. Defined.

(** [netsnmp_oid_find_prefix] returns the length of a common prefix, and no
    longer common prefix exists; [netsnmp_oid_compare_ll] stores one more than
    that length in [*offpt] and otherwise compares like [snmp_oid_compare]. *)
Theorem find_prefix_longest a la b lb :
  oid_ok a la -> oid_ok b lb -> la <> 0 -> lb <> 0 ->
  exists n, netsnmp_oid_find_prefix (Some a) la (Some b) lb = Some n /\
    0 <= n <= Z.min la lb /\ oid_of a n = oid_of b n /\
    (forall k, 0 <= k <= Z.min la lb -> oid_of a k = oid_of b k -> k <= n) /\
    exists r, snmp_oid_compare a la b lb = Some r /\
              netsnmp_oid_compare_ll a la b lb = Some (r, n + 1).
Proof.
  intros Ha Hb ??. rewrite netsnmp_oid_find_prefix_spec by done.
  rewrite netsnmp_oid_compare_ll_spec, snmp_oid_compare_spec by done.
  pose proof (oid_of_length _ _ Ha). pose proof (oid_of_length _ _ Hb).
  pose proof (lcp_le (oid_of a la) (oid_of b lb)).
  pose proof (lcp_take (oid_of a la) (oid_of b lb)) as Ht.
  eexists. split_and!; [done|lia|lia| | |eauto].
  - set (n := lcp _ _) in *. rewrite (oid_of_min a la (Z.of_nat n)) by lia.
    rewrite (oid_of_min b lb (Z.of_nat n)) by lia. by rewrite Nat2Z.id.
  - intros k Hk E. rewrite (oid_of_min a la), (oid_of_min b lb) in E by lia.
    apply lcp_max in E; lia.
Qed.

Lemma find_prefix_longest_witness :
  exists n, netsnmp_oid_find_prefix (Some [1; 3; 6; 1]) 4 (Some [1; 3; 7]) 3 = Some n /\
    0 <= n <= Z.min 4 3 /\ oid_of [1; 3; 6; 1] n = oid_of [1; 3; 7] n /\
    (forall k, 0 <= k <= Z.min 4 3 -> oid_of [1; 3; 6; 1] k = oid_of [1; 3; 7] k -> k <= n) /\
    exists r, snmp_oid_compare [1; 3; 6; 1] 4 [1; 3; 7] 3 = Some r /\
              netsnmp_oid_compare_ll [1; 3; 6; 1] 4 [1; 3; 7] 3 = Some (r, n + 1).
Proof. apply find_prefix_longest; [by_decide..|done|done]. Defined.
