(* ===== verification/Asn1Defs.v ===== *)
(** Constants and helper macros of [asn1.h], [snmp_impl.h] and [asn1.c]. *)
From Stdlib Require Import ZArith.
From S2P Require Import Prelude.

Definition MAX_OID_LEN : Z := 128.
Definition MAX_SUBID : Z := 0xFFFFFFFF.

Definition ASN_BOOLEAN : Z := 0x01.
Definition ASN_INTEGER : Z := 0x02.
Definition ASN_BIT_STR : Z := 0x03.
Definition ASN_OCTET_STR : Z := 0x04.
Definition ASN_NULL : Z := 0x05.
Definition ASN_OBJECT_ID : Z := 0x06.
Definition ASN_SEQUENCE : Z := 0x10.
Definition ASN_SET : Z := 0x11.

Definition ASN_UNIVERSAL : Z := 0x00.
Definition ASN_APPLICATION : Z := 0x40.
Definition ASN_CONTEXT : Z := 0x80.
Definition ASN_PRIVATE : Z := 0xC0.
Definition ASN_PRIMITIVE : Z := 0x00.
Definition ASN_CONSTRUCTOR : Z := 0x20.
Definition ASN_LONG_LEN : Z := 0x80.
Definition ASN_EXTENSION_ID : Z := 0x1F.
Definition ASN_BIT8 : Z := 0x80.

Definition IS_EXTENSION_ID (byte : Z) : bool :=
  Z.land byte ASN_EXTENSION_ID =? ASN_EXTENSION_ID.

Definition ASN_OPAQUE_TAG1 : Z := Eval compute in Z.lor ASN_CONTEXT ASN_EXTENSION_ID.
Definition ASN_OPAQUE_TAG2 : Z := 0x30.
Definition ASN_OPAQUE_COUNTER64 : Z := Eval compute in ASN_OPAQUE_TAG2 + Z.lor ASN_APPLICATION 6.
Definition ASN_OPAQUE_FLOAT : Z := Eval compute in ASN_OPAQUE_TAG2 + Z.lor ASN_APPLICATION 8.
Definition ASN_OPAQUE_DOUBLE : Z := Eval compute in ASN_OPAQUE_TAG2 + Z.lor ASN_APPLICATION 9.
Definition ASN_OPAQUE_I64 : Z := Eval compute in ASN_OPAQUE_TAG2 + Z.lor ASN_APPLICATION 10.
Definition ASN_OPAQUE_U64 : Z := Eval compute in ASN_OPAQUE_TAG2 + Z.lor ASN_APPLICATION 11.
Definition ASN_OPAQUE_COUNTER64_MX_BER_LEN : Z := 12.
Definition ASN_OPAQUE_FLOAT_BER_LEN : Z := 7.
Definition ASN_OPAQUE_DOUBLE_BER_LEN : Z := 11.

Definition ASN_IPADDRESS : Z := Eval compute in Z.lor ASN_APPLICATION 0.
Definition ASN_COUNTER : Z := Eval compute in Z.lor ASN_APPLICATION 1.
Definition ASN_GAUGE : Z := Eval compute in Z.lor ASN_APPLICATION 2.
Definition ASN_TIMETICKS : Z := Eval compute in Z.lor ASN_APPLICATION 3.
Definition ASN_OPAQUE : Z := Eval compute in Z.lor ASN_APPLICATION 4.
Definition ASN_NSAP : Z := Eval compute in Z.lor ASN_APPLICATION 5.
Definition ASN_COUNTER64 : Z := Eval compute in Z.lor ASN_APPLICATION 6.
Definition ASN_UINTEGER : Z := Eval compute in Z.lor ASN_APPLICATION 7.

Definition sizeof_counter64 : Z := 16.
Definition sizeof_float : Z := 4.
Definition sizeof_double : Z := 8.

Definition INT32_MAX : Z := 2147483647.
Definition INT32_MIN : Z := 0 - INT32_MAX - 1.
Definition UINT32_MAX : Z := 4294967295.

(** The macros that clamp a 64-bit [long] to the 32 bits SNMP carries. *)
Definition CHECK_OVERFLOW_S (x : Z) : Z :=
  if INT32_MAX <? x then Z.land x 0xffffffff
  else if x <? INT32_MIN then 0 - Z.land x 0xffffffff
  else x.

Definition CHECK_OVERFLOW_U (x : Z) : Z :=
  if UINT32_MAX <? x then Z.land x 0xffffffff else x.

Lemma CHECK_OVERFLOW_U_mod x : 0 <= x -> CHECK_OVERFLOW_U x = x mod 2 ^ 32.
Proof.
  intros Hx. unfold CHECK_OVERFLOW_U, UINT32_MAX. destruct (Z.ltb_spec 4294967295 x).
  - apply (land_ones_mod x 32). lia.
  - rewrite Z.mod_small by lia. reflexivity.
Qed.

Lemma CHECK_OVERFLOW_U_range x : 0 <= x -> 0 <= CHECK_OVERFLOW_U x < 2 ^ 32.
Proof. intros. rewrite CHECK_OVERFLOW_U_mod by lia. apply Z.mod_pos_bound. lia. Qed.

Lemma CHECK_OVERFLOW_U_id x : 0 <= x < 2 ^ 32 -> CHECK_OVERFLOW_U x = x.
Proof. intros. rewrite CHECK_OVERFLOW_U_mod by lia. apply Z.mod_small. lia. Qed.

Lemma CHECK_OVERFLOW_S_id x : - 2 ^ 31 <= x < 2 ^ 31 -> CHECK_OVERFLOW_S x = x.
Proof.
  intros. unfold CHECK_OVERFLOW_S, INT32_MIN, INT32_MAX.
  destruct (Z.ltb_spec 2147483647 x); [lia|].
  destruct (Z.ltb_spec x (0 - 2147483647 - 1)); [lia|]. reflexivity.
Qed.

Lemma CHECK_OVERFLOW_S_range x : - 2 ^ 32 < CHECK_OVERFLOW_S x < 2 ^ 32.
Proof.
  unfold CHECK_OVERFLOW_S, INT32_MIN, INT32_MAX.
  pose proof (Z.mod_pos_bound x (2 ^ 32) ltac:(lia)).
  change 0xffffffff with (2 ^ 32 - 1). rewrite land_ones_mod by lia.
  destruct (Z.ltb_spec 2147483647 x); [lia|].
  destruct (Z.ltb_spec x (0 - 2147483647 - 1)); lia.
Qed.
