(* ===== verification/SnmpDefs.v ===== *)
(** The versions and the types of PDU of [snmp.h], and what else messages,
    sessions, access control and the agent share. *)
From Stdlib Require Import ZArith Lia.
From S2P Require Import Prelude Asn1Defs.

Definition SNMP_VERSION_1 : Z := 0.
Definition SNMP_VERSION_2c : Z := 1.
Definition SNMP_VERSION_3 : Z := 3.

Definition SNMP_MSG_GET : Z := Eval compute in Z.lor (Z.lor ASN_CONTEXT ASN_CONSTRUCTOR) 0x0.
Definition SNMP_MSG_GETNEXT : Z := Eval compute in Z.lor (Z.lor ASN_CONTEXT ASN_CONSTRUCTOR) 0x1.
Definition SNMP_MSG_RESPONSE : Z := Eval compute in Z.lor (Z.lor ASN_CONTEXT ASN_CONSTRUCTOR) 0x2.
Definition SNMP_MSG_SET : Z := Eval compute in Z.lor (Z.lor ASN_CONTEXT ASN_CONSTRUCTOR) 0x3.
Definition SNMP_MSG_TRAP : Z := Eval compute in Z.lor (Z.lor ASN_CONTEXT ASN_CONSTRUCTOR) 0x4.
Definition SNMP_MSG_GETBULK : Z := Eval compute in Z.lor (Z.lor ASN_CONTEXT ASN_CONSTRUCTOR) 0x5.
Definition SNMP_MSG_INFORM : Z := Eval compute in Z.lor (Z.lor ASN_CONTEXT ASN_CONSTRUCTOR) 0x6.
Definition SNMP_MSG_TRAP2 : Z := Eval compute in Z.lor (Z.lor ASN_CONTEXT ASN_CONSTRUCTOR) 0x7.
Definition SNMP_MSG_REPORT : Z := Eval compute in Z.lor (Z.lor ASN_CONTEXT ASN_CONSTRUCTOR) 0x8.

Definition NETSNMP_CALLBACK_OP_RECEIVED_MESSAGE : Z := 1.
Definition STAT_SNMPUNKNOWNPDUHANDLERS : Z := 2.
Definition SNMPERR_SUCCESS : Z := 0.
Definition SNMPERR_MALLOC : Z := -62.
Definition SNMPERR_GENERR : Z := -1.

(** [flags & f] *)
Definition has_flag (fl f : Z) : bool := negb (Z.land fl f =? 0).
