(* ===== verification/Ber.v ===== *)
(** The wire format: the Basic Encoding Rules as mathematical functions, with no
    reference to the code.  The parsers and the two families of builders are
    proved against these functions. *)
From Stdlib Require Import ZArith Lia.
From S2P Require Import Prelude Asn1Defs.

(** ** Lengths *)

(** Octets a positive length needs. *)
Definition len_octets (n : Z) : nat := Z.to_nat (Z.log2 n / 8 + 1).

Definition ber_length (n : Z) : list Z :=
  if n <? 128 then [n]
  else (128 + Z.of_nat (len_octets n)) :: be_bytes (len_octets n) n.

Definition zlen (bs : list Z) : Z := Z.of_nat (length bs).

(** Tag, length, contents. *)
Definition tlv (t : Z) (contents : list Z) : list Z :=
  t :: ber_length (zlen contents) ++ contents.

(** ** Integers *)

(** [fits n v]: [v] is representable in [n] octets of two's complement. *)
Definition fits (n v : Z) : Prop := - 2 ^ (8 * n - 1) <= v < 2 ^ (8 * n - 1).

Definition int_size (v : Z) : nat :=
  Z.to_nat ((Z.log2 (if v <? 0 then - v - 1 else v) + 9) / 8).

(** Minimal two's-complement contents octets. *)
Definition ber_int (v : Z) : list Z := be_bytes (int_size v) v.

(** The value of two's-complement contents octets. *)
Definition twos (bs : list Z) : Z :=
  let u := be_value 0 bs in
  if 2 ^ (8 * zlen bs - 1) <=? u then u - 2 ^ (8 * zlen bs) else u.

(** ** Object identifiers *)

(** [n] groups of 7 bits, all but the last with the top bit set. *)
Fixpoint b128 (n : nat) (v : Z) : list Z :=
  match n with
  | O => []
  | S k => ((v / 2 ^ (7 * Z.of_nat k)) mod 128 + match k with O => 0 | S _ => 128 end) :: b128 k v
  end.

Definition subid_size (v : Z) : nat := Z.to_nat (Z.log2 v / 7 + 1).

Definition ber_subid (v : Z) : list Z := b128 (subid_size v) v.

(** Contents octets of an identifier with at least two components. *)
Definition ber_oid (o : list Z) : list Z :=
  match o with
  | x :: y :: rest => ber_subid (40 * x + y) ++ (rest ≫= ber_subid)
  | _ => []
  end.

(** * Facts *)

Lemma zlen_nonneg bs : 0 <= zlen bs.
Proof. unfold zlen. lia. Qed.

Lemma zlen_cons b bs : zlen (b :: bs) = zlen bs + 1.
Proof. unfold zlen. simpl length. lia. Qed.

Lemma zlen_app a b : zlen (a ++ b) = zlen a + zlen b.
Proof. unfold zlen. rewrite length_app. lia. Qed.

Lemma zlen_nil : zlen [] = 0.
Proof. reflexivity. Qed.

Lemma zlen_be_bytes n v : zlen (be_bytes n v) = Z.of_nat n.
Proof. unfold zlen. by rewrite length_be_bytes. Qed.

Create Rewrite HintDb zlen.
#[export] Hint Rewrite zlen_cons zlen_app zlen_nil zlen_be_bytes : zlen.

(** [log2] and a power-of-two bound, at octet granularity. *)
Lemma octets_bound a n w :
  0 < w -> 0 <= a -> 0 < n -> (a < 2 ^ (w * n) <-> Z.log2 a / w + 1 <= n).
Proof.
  intros Hw Ha Hn. destruct (Z.eq_dec a 0) as [->|Hne].
  - change (Z.log2 0) with 0. rewrite Z.div_0_l by lia.
    pose proof (pow2_pos (w * n) ltac:(nia)). lia.
  - rewrite Z.log2_lt_pow2 by lia. split; intros H.
    + apply Z.div_lt_upper_bound in H; lia.
    + pose proof (Z.mul_succ_div_gt (Z.log2 a) w Hw). nia.
Qed.

Lemma len_octets_bound n k : 0 < k -> 0 <= n -> (n < 2 ^ (8 * k) <-> Z.of_nat (len_octets n) <= k).
Proof.
  intros Hk Hn. rewrite (octets_bound n k 8) by lia. unfold len_octets.
  pose proof (Z.div_pos (Z.log2 n) 8 (Z.log2_nonneg n) ltac:(lia)). lia.
Qed.

Lemma len_octets_pos n : (0 < len_octets n)%nat.
Proof.
  unfold len_octets. pose proof (Z.div_pos (Z.log2 n) 8 (Z.log2_nonneg n) ltac:(lia)). lia.
Qed.

Lemma subid_size_bound v k : 0 < k -> 0 <= v -> (v < 2 ^ (7 * k) <-> Z.of_nat (subid_size v) <= k).
Proof.
  intros Hk Hv. rewrite (octets_bound v k 7) by lia. unfold subid_size.
  pose proof (Z.div_pos (Z.log2 v) 7 (Z.log2_nonneg v) ltac:(lia)). lia.
Qed.

Lemma subid_size_pos v : (0 < subid_size v)%nat.
Proof.
  unfold subid_size. pose proof (Z.div_pos (Z.log2 v) 7 (Z.log2_nonneg v) ltac:(lia)). lia.
Qed.

Lemma int_size_bound v k : 0 < k -> (fits k v <-> Z.of_nat (int_size v) <= k).
Proof.
  intros Hk. unfold fits, int_size.
  set (a := if v <? 0 then - v - 1 else v).
  assert (Ha : 0 <= a) by (subst a; destruct (Z.ltb_spec v 0); lia).
  assert (Hf : - 2 ^ (8 * k - 1) <= v < 2 ^ (8 * k - 1) <-> a < 2 ^ (8 * k - 1)).
  { pose proof (pow2_pos (8 * k - 1) ltac:(lia)). subst a. destruct (Z.ltb_spec v 0); lia. }
  rewrite Hf. pose proof (Z.log2_nonneg a).
  pose proof (Z.div_pos (Z.log2 a + 9) 8 ltac:(lia) ltac:(lia)).
  destruct (Z.eq_dec a 0) as [->|Hne].
  - change (Z.log2 0) with 0. change ((0 + 9) / 8) with 1.
    pose proof (pow2_pos (8 * k - 1) ltac:(lia)). lia.
  - rewrite Z.log2_lt_pow2 by lia. split; intros Hl.
    + enough ((Z.log2 a + 9) / 8 < k + 1) by lia. apply Z.div_lt_upper_bound; lia.
    + pose proof (Z.mul_succ_div_gt (Z.log2 a + 9) 8 ltac:(lia)). lia.
Qed.

Lemma int_size_pos v : (0 < int_size v)%nat.
Proof.
  unfold int_size. set (a := if v <? 0 then - v - 1 else v).
  pose proof (Z.log2_nonneg a).
  assert (1 <= (Z.log2 a + 9) / 8) by (apply Z.div_le_lower_bound; lia). lia.
Qed.

Lemma int_size_fits v : fits (Z.of_nat (int_size v)) v.
Proof. pose proof (int_size_pos v). apply int_size_bound; lia. Qed.

(** The size is the one the builders look for. *)
Lemma int_size_unique n v :
  0 < n -> fits n v -> n = 1 \/ ~ fits (n - 1) v -> Z.of_nat (int_size v) = n.
Proof.
  intros Hn Hf Hmin. pose proof (int_size_pos v).
  apply int_size_bound in Hf; [|done]. destruct Hmin as [->|Hmin]; [lia|].
  destruct (Z.eq_dec n 1); [lia|]. rewrite int_size_bound in Hmin by lia. lia.
Qed.

Lemma fits_mono n k v : 0 < n <= k -> fits n v -> fits k v.
Proof.
  unfold fits. intros Hn Hf. pose proof (Z.pow_le_mono_r 2 (8 * n - 1) (8 * k - 1)). lia.
Qed.

Lemma ber_length_short n : 0 <= n < 128 -> ber_length n = [n].
Proof. intros. unfold ber_length. by rewrite (proj2 (Z.ltb_lt n 128)) by lia. Qed.

Lemma zlen_ber_length n : 0 <= n < 2 ^ 32 -> 1 <= zlen (ber_length n) <= 5.
Proof.
  intros Hn. unfold ber_length. destruct (Z.ltb_spec n 128); [done|].
  autorewrite with zlen. pose proof (len_octets_pos n).
  pose proof (proj1 (len_octets_bound n 4 ltac:(lia) ltac:(lia)) ltac:(lia)). lia.
Qed.

Lemma ber_length_bytes n : 0 <= n < 2 ^ 64 -> bytes (ber_length n).
Proof.
  intros Hn. unfold ber_length. destruct (Z.ltb_spec n 128).
  - repeat constructor; lia.
  - constructor; [|apply be_bytes_byte]. unfold is_byte.
    pose proof (proj1 (len_octets_bound n 8 ltac:(lia) ltac:(lia)) ltac:(lia)). lia.
Qed.

Lemma twos_be_bytes n v : (0 < n)%nat -> fits (Z.of_nat n) v -> twos (be_bytes n v) = v.
Proof.
  unfold twos, fits. intros Hn Hf. rewrite zlen_be_bytes, be_value_be_bytes.
  set (w := 8 * Z.of_nat n) in *.
  assert (Hw : 2 ^ w = 2 * 2 ^ (w - 1)) by (rewrite <- Z.pow_succ_r by lia; f_equal; lia).
  destruct (Z.ltb_spec v 0).
  - rewrite <- (Z_mod_plus_full v 1), Z.mod_small by lia.
    rewrite (proj2 (Z.leb_le _ _)) by lia. lia.
  - rewrite Z.mod_small by lia.
    destruct (Z.leb_spec (2 ^ (w - 1)) v); lia.
Qed.

(** Round trip of the contents octets of an integer. *)
Lemma twos_ber_int v : twos (ber_int v) = v.
Proof. apply twos_be_bytes; [apply int_size_pos|apply int_size_fits]. Qed.

Lemma ber_int_bytes v : bytes (ber_int v).
Proof. apply be_bytes_byte. Qed.

Lemma zlen_ber_int v : zlen (ber_int v) = Z.of_nat (int_size v).
Proof. apply zlen_be_bytes. Qed.

Lemma zlen_tlv t c : zlen (tlv t c) = 1 + zlen (ber_length (zlen c)) + zlen c.
Proof. unfold tlv. autorewrite with zlen. lia. Qed.

Lemma holds_tlv m d t c :
  holds m d (tlv t c) ->
  peek m d = Some t /\ holds m (d + 1) (ber_length (zlen c)) /\
  holds m (d + 1 + zlen (ber_length (zlen c))) c.
Proof.
  unfold tlv. intros [? [? ?]%holds_app]%holds_cons. done.
Qed.

(** The sign octet decides the sign. *)
Lemma twos_cons b bs :
  is_byte b -> bytes bs ->
  twos (b :: bs) = be_value (if 128 <=? b then -1 else 0) (b :: bs).
Proof.
  intros Hb Hbs. unfold twos. rewrite !be_value_cons, zlen_cons.
  rewrite be_value_acc, (be_value_acc ((if 128 <=? b then -1 else 0) * 256 + b)).
  pose proof (be_value_range bs Hbs) as Hr. fold (zlen bs) in *.
  pose proof (zlen_nonneg bs).
  replace (8 * (zlen bs + 1) - 1) with (8 * zlen bs + 7) by lia.
  replace (8 * (zlen bs + 1)) with (8 * zlen bs + 8) by lia.
  rewrite !Z.pow_add_r by lia.
  replace (256 ^ zlen bs) with (2 ^ (8 * zlen bs)) in * by (rewrite Z.pow_mul_r by lia; done).
  set (P := 2 ^ (8 * zlen bs)) in *. unfold is_byte in Hb.
  destruct (Z.leb_spec 128 b).
  - rewrite (proj2 (Z.leb_le _ _)) by nia. nia.
  - rewrite (proj2 (Z.leb_gt _ _)) by nia. nia.
Qed.

Lemma twos_range bs : bytes bs -> 0 < zlen bs -> fits (zlen bs) (twos bs).
Proof.
  intros Hb Hl. unfold twos, fits. pose proof (be_value_range bs Hb) as Hr. fold (zlen bs) in Hr.
  replace (256 ^ zlen bs) with (2 ^ (8 * zlen bs)) in Hr by (rewrite Z.pow_mul_r by lia; done).
  assert (2 ^ (8 * zlen bs) = 2 * 2 ^ (8 * zlen bs - 1))
    by (rewrite <- Z.pow_succ_r by lia; f_equal; lia).
  destruct (Z.leb_spec (2 ^ (8 * zlen bs - 1)) (be_value 0 bs)); lia.
Qed.

Lemma twos_mod bs : bytes bs -> twos bs mod 2 ^ (8 * zlen bs) = be_value 0 bs.
Proof.
  intros Hb. unfold twos. pose proof (be_value_range bs Hb) as Hr. fold (zlen bs) in Hr.
  pose proof (zlen_nonneg bs).
  replace (256 ^ zlen bs) with (2 ^ (8 * zlen bs)) in Hr by (rewrite Z.pow_mul_r by lia; done).
  destruct (_ <=? _).
  - rewrite <- (Z_mod_plus_full _ 1), Z.mod_small by lia. lia.
  - apply Z.mod_small. lia.
Qed.

(** ** Sub-identifiers *)

Lemma length_b128 n v : length (b128 n v) = n.
Proof. induction n; simpl; congruence. Qed.

Lemma zlen_ber_subid v : zlen (ber_subid v) = Z.of_nat (subid_size v).
Proof. unfold zlen, ber_subid. by rewrite length_b128. Qed.

Lemma b128_bytes n v : bytes (b128 n v).
Proof.
  induction n as [|n IH]; simpl; constructor; [|done]. unfold is_byte.
  pose proof (Z.mod_pos_bound (v / 2 ^ (7 * Z.of_nat n)) 128 ltac:(lia)). destruct n; lia.
Qed.

Lemma b128_last n v : (0 < n)%nat -> exists l, b128 n v = l ++ [v mod 128].
Proof.
  induction n as [|[|n] IH]; intros Hn; [lia| |].
  - exists []. simpl. by rewrite Z.div_1_r, Z.add_0_r.
  - destruct IH as [l Hl]; [lia|].
    exists (((v / 2 ^ (7 * Z.of_nat (S n))) mod 128 + 128) :: l).
    change (b128 (S (S n)) v) with (((v / 2 ^ (7 * Z.of_nat (S n))) mod 128 + 128) :: b128 (S n) v).
    by rewrite Hl.
Qed.

Lemma ber_oid_bytes o : bytes (ber_oid o).
Proof.
  assert (Hb : forall l, bytes (l ≫= ber_subid)).
  { induction l as [|v l IH]; [constructor|].
    change ((v :: l) ≫= ber_subid) with (ber_subid v ++ (l ≫= ber_subid)).
    apply Forall_app. split; [apply b128_bytes|done]. }
  destruct o as [|x [|y rest]]; [constructor..|]. apply (Hb ((40 * x + y) :: rest)).
Qed.
