(* ===== verification/Asn1Parse.v ===== *)
(** The BER parsers of [snmplib/asn1.c].

    [m] is the object that holds the received packet; a [u_char *] into it is an
    offset.  A parser takes the [IN/OUT] arguments of the C function as a record
    [pout] ([*datalength], [*type] and the object the value is stored in) and
    returns their final values together with the pointer the C function
    returns.  [None] is a read outside [m] or a write outside the output
    object.  Debugging output and [ERROR_MSG] texts are left out; where an
    [ERROR_MSG] text is formatted from packet bytes, those reads are kept. *)
From Stdlib Require Import ZArith Lia.
From S2P Require Import Prelude Asn1Defs.

Record pout (T : Type) : Type := mkpout {
  datalength : Z;   (* size_t *)
  type : Z;         (* u_char *)
  out : T
}.
Arguments mkpout {T} _ _ _.
Arguments datalength {T} _.
Arguments type {T} _.
Arguments out {T} _.

Definition set_datalength {T} (s : pout T) (n : Z) : pout T := mkpout n (type s) (out s).
Definition set_type {T} (s : pout T) (t : Z) : pout T := mkpout (datalength s) t (out s).
Definition set_out {T} (s : pout T) (o : T) : pout T := mkpout (datalength s) (type s) o.

(** ** asn_parse_length *)

(** [while (lengthbyte--) { *length <<= 8; *length |= *data++; }] *)
Fixpoint length_loop (n : nat) (m : list Z) (data length : Z) : option (Z * Z) :=
  match n with
  | O => Some (length, data)
  | S k =>
    b ← peek m data;
    length_loop k m (data + 1) (Z.lor (u64 (Z.shiftl length 8)) b)
  end.

(** [length0] is what [*length] holds on entry; some errors leave it there. *)
Definition asn_parse_length (m : list Z) (data : ptr) (length0 : Z) : option (Z * ptr) :=
  match data with
  | NULL => Some (length0, NULL)
  | Ptr data =>
    lengthbyte ← peek m data;
    if negb (Z.land lengthbyte ASN_LONG_LEN =? 0) then
      let lengthbyte := Z.land lengthbyte (Z.lnot ASN_LONG_LEN) in
      if lengthbyte =? 0 then Some (length0, NULL)
      else if sizeof_long <? lengthbyte then Some (length0, NULL)
      else
        '(length, data) ← length_loop (Z.to_nat lengthbyte) m (data + 1) 0;
        if s64 length <? 0 then Some (length, NULL)
        else Some (length, Ptr data)
    else Some (lengthbyte, Ptr (data + 1))
  end.

(** [true] is the C result 1: the length is bad. *)
Definition _asn_parse_length_check (bufp : ptr) (data plen dlen : Z) : bool :=
  match bufp with
  | NULL => true
  | Ptr bufp =>
    let header_len := u64 (bufp - data) in
    (0x7fffffff <? plen) || (0x7fffffff <? header_len) || (dlen <? u64 (plen + header_len))
  end.

Definition _asn_bitstring_check (asn_length : Z) : bool := asn_length <? 1.

(** The two statements every parser starts its value with:
    [bufp = asn_parse_length(bufp, &asn_length);
     if (_asn_parse_length_check(..., bufp, data, asn_length, *datalength)) return NULL;]
    gives [asn_length] and the new [bufp]. *)
Definition parse_length_checked (m : list Z) (bufp data dlen : Z) : option (option (Z * Z)) :=
  '(asn_length, bufp) ← asn_parse_length m (Ptr bufp) 0;
  if _asn_parse_length_check bufp data asn_length dlen then Some None
  else match bufp with
       | NULL => Some None
       | Ptr bufp => Some (Some (asn_length, bufp))
       end.

(** ** Integers *)

(** [while (asn_length--) value = (value << 8) | *bufp++;] on a [long]. *)
Fixpoint int_loop (n : nat) (m : list Z) (bufp value : Z) : option (Z * Z) :=
  match n with
  | O => Some (value, bufp)
  | S k =>
    b ← peek m bufp;
    int_loop k m (bufp + 1) (Z.lor (s64 (Z.shiftl value 8)) b)
  end.

Definition asn_parse_int (m : list Z) (data : Z) (s : pout Z) (intsize : Z)
  : option (pout Z * ptr) :=
  if negb (intsize =? sizeof_long) then Some (s, NULL)
  else
    b ← peek m data;
    let s := set_type s b in
    if negb (type s =? ASN_INTEGER) then Some (s, NULL)
    else
      try (asn_length, bufp) <- parse_length_checked m (data + 1) data (datalength s) or (s, NULL);
      if (intsize <? asn_length) || (s32 asn_length =? 0) then Some (s, NULL)
      else
        let s := set_datalength s (u64 (datalength s - (s32 asn_length + (bufp - data)))) in
        b ← peek m bufp;
        let value := if negb (Z.land b 0x80 =? 0) then -1 else 0 in
        '(value, bufp) ← int_loop (Z.to_nat asn_length) m bufp value;
        let value := CHECK_OVERFLOW_S value in
        Some (set_out s value, Ptr bufp).

(** The same loop on a [u_long]. *)
Fixpoint uint_loop (n : nat) (m : list Z) (bufp value : Z) : option (Z * Z) :=
  match n with
  | O => Some (value, bufp)
  | S k =>
    b ← peek m bufp;
    uint_loop k m (bufp + 1) (Z.lor (u64 (Z.shiftl value 8)) b)
  end.

(** [guard && *bufp != 0x00], with C's short circuit. *)
Definition and_nonzero (guard : bool) (m : list Z) (bufp : Z) : option bool :=
  if guard then b ← peek m bufp; Some (negb (b =? 0)) else Some false.

Definition asn_parse_unsigned_int (m : list Z) (data : Z) (s : pout Z) (intsize : Z)
  : option (pout Z * ptr) :=
  if negb (intsize =? sizeof_long) then Some (s, NULL)
  else
    b ← peek m data;
    let s := set_type s b in
    if negb (type s =? ASN_COUNTER) && negb (type s =? ASN_GAUGE)
       && negb (type s =? ASN_TIMETICKS) && negb (type s =? ASN_UINTEGER)
    then Some (s, NULL)
    else
      try (asn_length, bufp) <- parse_length_checked m (data + 1) data (datalength s) or (s, NULL);
      if (intsize + 1 <? asn_length) || (s32 asn_length =? 0) then Some (s, NULL)
      else
        bad ← and_nonzero (asn_length =? intsize + 1) m bufp;
        if (bad : bool) then Some (s, NULL)
        else
          let s := set_datalength s (u64 (datalength s - (s32 asn_length + (bufp - data)))) in
          b ← peek m bufp;
          let value := if negb (Z.land b 0x80 =? 0) then u64 (Z.lnot 0) else 0 in
          '(value, bufp) ← uint_loop (Z.to_nat asn_length) m bufp value;
          let value := CHECK_OVERFLOW_U value in
          Some (set_out s value, Ptr bufp).

(** ** Strings: the output object is [str] with its [*strlength] *)

Definition asn_parse_string (m : list Z) (data : Z) (s : pout (list Z * Z))
  : option (pout (list Z * Z) * ptr) :=
  b ← peek m data;
  let s := set_type s b in
  if negb (type s =? ASN_OCTET_STR) && negb (type s =? ASN_IPADDRESS)
     && negb (type s =? ASN_OPAQUE) && negb (type s =? ASN_NSAP)
  then Some (s, NULL)
  else
    try (asn_length, bufp) <- parse_length_checked m (data + 1) data (datalength s) or (s, NULL);
    let '(str, strlength) := out s in
    if strlength <? asn_length then Some (s, NULL)
    else
      bs ← peek_n m bufp asn_length;
      str ← poke_n str 0 bs;
      str ← (if asn_length <? strlength then poke str asn_length 0 else Some str);
      let s := set_out s (str, asn_length) in
      let s := set_datalength s (u64 (datalength s - (asn_length + (bufp - data)))) in
      Some (s, Ptr (bufp + asn_length)).

Definition asn_parse_bitstring (m : list Z) (data : Z) (s : pout (list Z * Z))
  : option (pout (list Z * Z) * ptr) :=
  b ← peek m data;
  let s := set_type s b in
  if negb (type s =? ASN_BIT_STR) then Some (s, NULL)
  else
    try (asn_length, bufp) <- parse_length_checked m (data + 1) data (datalength s) or (s, NULL);
    let '(str, strlength) := out s in
    if strlength <? asn_length then Some (s, NULL)
    else
      _ ← peek m bufp;
      if _asn_bitstring_check asn_length then Some (s, NULL)
      else
        bs ← peek_n m bufp asn_length;
        str ← poke_n str 0 bs;
        let s := set_out s (str, u64 (s32 asn_length)) in
        let s := set_datalength s (u64 (datalength s - (s32 asn_length + (bufp - data)))) in
        Some (s, Ptr (bufp + asn_length)).

(** ** Headers *)

Definition is_opaque_special (t : Z) : bool :=
  (t =? ASN_OPAQUE_COUNTER64) || (t =? ASN_OPAQUE_U64) || (t =? ASN_OPAQUE_FLOAT)
  || (t =? ASN_OPAQUE_DOUBLE) || (t =? ASN_OPAQUE_I64).

(** [*bufp == t], read only when [guard] holds. *)
Definition and_byte_is (guard : bool) (m : list Z) (bufp : Z) (t : Z) : option bool :=
  if guard then b ← peek m bufp; Some (b =? t) else Some false.

Definition asn_parse_header (m : list Z) (data : ptr) (s : pout unit) : option (pout unit * ptr) :=
  match data with
  | NULL => Some (s, NULL)
  | Ptr data =>
    b ← peek m data;
    if IS_EXTENSION_ID b then Some (s, NULL)
    else
      let s := set_type s b in
      try (asn_length, bufp) <- parse_length_checked m (data + 1) data (datalength s) or (s, NULL);
      special ← and_byte_is (type s =? ASN_OPAQUE) m bufp ASN_OPAQUE_TAG1;
      if (special : bool) then
        t ← peek m (bufp + 1);
        if is_opaque_special t then
          let s := set_type s t in
          try (asn_length, bufp) <- parse_length_checked m (bufp + 2) data (datalength s) or (s, NULL);
          Some (set_datalength s (u64 (s32 asn_length)), Ptr bufp)
        else Some (set_datalength s (u64 (s32 asn_length)), Ptr bufp)
      else Some (set_datalength s (u64 (s32 asn_length)), Ptr bufp)
  end.

Definition asn_parse_sequence (m : list Z) (data : ptr) (s : pout unit) (expected_type : Z)
  : option (pout unit * ptr) :=
  '(s, data) ← asn_parse_header m data s;
  match data with
  | NULL => Some (s, NULL)
  | Ptr p => if negb (type s =? expected_type) then Some (s, NULL) else Some (s, Ptr p)
  end.

(** Result of [asn_check_packet]; [junk] is the indeterminate initial value of
    its local [asn_length]. *)
Definition asn_check_packet (pkt : list Z) (len junk : Z) : option Z :=
  if len <? 2 then Some 0
  else
    t ← peek pkt 0;
    if negb (t =? Z.lor ASN_SEQUENCE ASN_CONSTRUCTOR) then Some (-1)
    else
      l ← peek pkt 1;
      if negb (Z.land l 0x80 =? 0) then
        if s32 len <? Z.land l (Z.lnot 0x80) + 2 then Some 0
        else
          '(asn_length, _) ← asn_parse_length pkt (Ptr 1) junk;
          Some (s32 (u64 (asn_length + 2 + Z.land l (Z.lnot 0x80))))
      else Some (l + 2).

(** ** Null *)

Definition asn_parse_null (m : list Z) (data : Z) (s : pout unit) : option (pout unit * ptr) :=
  b ← peek m data;
  let s := set_type s b in
  '(asn_length, bufp) ← asn_parse_length m (Ptr (data + 1)) 0;
  match bufp with
  | NULL => Some (s, NULL)
  | Ptr bufp =>
    if negb (asn_length =? 0) then Some (s, NULL)
    else Some (set_datalength s (u64 (datalength s - (bufp - data))), Ptr (bufp + asn_length))
  end.

(** ** Object identifiers: the output object is [objid] with its [*objidlength] *)

(** [do { subidentifier = (subidentifier << 7) + ( *bufp & ~ASN_BIT8); length--; }
     while (( *bufp++ & ASN_BIT8) && (length > 0));]
    It makes at most [max 1 length] turns, which is the fuel it is given. *)
Fixpoint subid_loop (fuel : nat) (m : list Z) (bufp length subidentifier : Z)
  : option (Z * Z * Z) :=
  match fuel with
  | O => None
  | S k =>
    b ← peek m bufp;
    let subidentifier :=
      u64 (u64 (Z.shiftl subidentifier 7) + Z.land b (Z.lnot ASN_BIT8)) in
    let length := length - 1 in
    if negb (Z.land b ASN_BIT8 =? 0) && (0 <? length)
    then subid_loop k m (bufp + 1) length subidentifier
    else Some (subidentifier, bufp + 1, length)
  end.

(** The [while] loop over the sub-identifiers.  [Return (objid, n)]: the
    function returns [NULL] with these contents of [objid] and [*objidlength];
    [Next (bufp, oidp, length, objid, n)]: the loop ended.  Every turn consumes
    a byte, so [length] turns are enough. *)
Fixpoint objid_loop (fuel : nat) (m : list Z) (bufp oidp length : Z) (objid : list Z)
    (objidlength : Z) : option (flow (list Z * Z) (Z * Z * Z * list Z * Z)) :=
  if negb (0 <? length) then Some (Next (bufp, oidp, length, objid, objidlength))
  else
    let more := 0 <? objidlength in
    let objidlength := u64 (objidlength - 1) in
    if negb more then Some (Next (bufp, oidp, length, objid, objidlength))
    else match fuel with
    | O => None
    | S k =>
      '(subidentifier, bufp, length) ← subid_loop (Z.to_nat length) m bufp length 0;
      last ← (if length =? 0
              then b ← peek m (bufp - 1); Some (negb (Z.land b ASN_BIT8 =? 0))
              else Some false);
      if (last : bool) then Some (Return (objid, objidlength))
      else if MAX_SUBID <? subidentifier then Some (Return (objid, objidlength))
      else
        objid ← poke objid oidp subidentifier;
        objid_loop k m bufp (oidp + 1) length objid objidlength
    end.

(** [objid[0] = objid[1] = 0] for an encoding without contents. *)
Definition objid_empty (asn_length : Z) (objid : list Z) : option (list Z) :=
  if asn_length =? 0 then o ← poke objid 1 0; poke o 0 0 else Some objid.

(** The first two components are encoded as one sub-identifier. *)
Definition objid_first_two (objid : list Z) : option (list Z) :=
  subidentifier ← peek objid 1;
  if subidentifier =? 0x2B then o ← poke objid 0 1; poke o 1 3
  else if subidentifier <? 40 then o ← poke objid 0 0; poke o 1 subidentifier
  else if subidentifier <? 80 then o ← poke objid 0 1; poke o 1 (subidentifier - 40)
  else o ← poke objid 0 2; poke o 1 (subidentifier - 80).

Definition asn_parse_objid (m : list Z) (data : Z) (s : pout (list Z * Z))
  : option (pout (list Z * Z) * ptr) :=
  let '(objid, original_length) := out s in
  b ← peek m data;
  let s := set_type s b in
  if negb (type s =? ASN_OBJECT_ID) then Some (s, NULL)
  else
    try (asn_length, bufp) <- parse_length_checked m (data + 1) data (datalength s) or (s, NULL);
    let s := set_datalength s (u64 (datalength s - (s32 asn_length + (bufp - data)))) in
    objid ← objid_empty asn_length objid;
    f ← objid_loop (Z.to_nat asn_length) m bufp 1 asn_length objid (u64 (original_length - 1));
    match f with
    | Return o => Some (set_out s o, NULL)
    | Next (bufp, oidp, length, objid, objidlength) =>
      if negb (0 =? length) then Some (set_out s (objid, original_length), NULL)
      else
        objid ← objid_first_two objid;
        Some (set_out s (objid, u64 (s32 oidp)), Ptr bufp)
    end.

(** ** 64-bit integers *)

(** [high = ((0x00FFFFFF & high) << 8) | ((low & 0xFF000000U) >> 24);
     low = ((low & 0x00FFFFFF) << 8) | *bufp++;] *)
Definition shift_in (c : counter64) (b : Z) : counter64 :=
  Counter64
    (Z.lor (Z.shiftl (Z.land 0x00FFFFFF (high c)) 8) (Z.shiftr (Z.land (low c) 0xFF000000) 24))
    (Z.lor (Z.shiftl (Z.land (low c) 0x00FFFFFF) 8) b).

Fixpoint int64_loop (n : nat) (m : list Z) (bufp : Z) (c : counter64) : option (counter64 * Z) :=
  match n with
  | O => Some (c, bufp)
  | S k => b ← peek m bufp; int64_loop k m (bufp + 1) (shift_in c b)
  end.

Definition int64sizelimit : Z := 4 * 2 + 1.

Definition asn_parse_unsigned_int64 (m : list Z) (data : Z) (s : pout counter64) (countersize : Z)
  : option (pout counter64 * ptr) :=
  if negb (countersize =? sizeof_counter64) then Some (s, NULL)
  else
    b ← peek m data;
    let s := set_type s b in
    if negb (type s =? ASN_COUNTER64) && negb (type s =? ASN_OPAQUE) then Some (s, NULL)
    else
      try (asn_length, bufp) <- parse_length_checked m (data + 1) data (datalength s) or (s, NULL);
      tag1 ← and_byte_is ((type s =? ASN_OPAQUE) && (asn_length <=? ASN_OPAQUE_COUNTER64_MX_BER_LEN))
                         m bufp ASN_OPAQUE_TAG1;
      is_c64 ← and_byte_is tag1 m (bufp + 1) ASN_OPAQUE_COUNTER64;
      is_u64 ← and_byte_is (tag1 && negb is_c64) m (bufp + 1) ASN_OPAQUE_U64;
      t ← (if is_c64 || is_u64 then peek m (bufp + 1) else Some (type s));
      let s := set_type s t in
      try (asn_length, bufp) <-
        (if is_c64 || is_u64
         then parse_length_checked m (bufp + 2) data (datalength s)
         else Some (Some (asn_length, bufp))) or (s, NULL);
      toolong ← and_nonzero (s32 asn_length =? int64sizelimit) m bufp;
      if (int64sizelimit <? s32 asn_length) || toolong then Some (s, NULL)
      else
        let s := set_datalength s (u64 (datalength s - (s32 asn_length + (bufp - data)))) in
        '(c, bufp) ← int64_loop (Z.to_nat asn_length) m bufp (Counter64 0 0);
        Some (set_out s (Counter64 (CHECK_OVERFLOW_U (high c)) (CHECK_OVERFLOW_U (low c))), Ptr bufp).

Definition asn_parse_signed_int64 (m : list Z) (data : Z) (s : pout counter64) (countersize : Z)
  : option (pout counter64 * ptr) :=
  if negb (countersize =? sizeof_counter64) then Some (s, NULL)
  else
    b ← peek m data;
    let s := set_type s b in
    try (asn_length, bufp) <- parse_length_checked m (data + 1) data (datalength s) or (s, NULL);
    tag1 ← and_byte_is ((type s =? ASN_OPAQUE) && (asn_length <=? ASN_OPAQUE_COUNTER64_MX_BER_LEN))
                       m bufp ASN_OPAQUE_TAG1;
    is_i64 ← and_byte_is tag1 m (bufp + 1) ASN_OPAQUE_I64;
    if negb is_i64 then
      (* the error text quotes these two bytes *)
      _ ← peek m bufp; _ ← peek m (bufp + 1); Some (s, NULL)
    else
      t ← peek m (bufp + 1);
      let s := set_type s t in
      try (asn_length, bufp) <- parse_length_checked m (bufp + 2) data (datalength s) or (s, NULL);
      toolong ← and_nonzero (s32 asn_length =? int64sizelimit) m bufp;
      if (int64sizelimit <? s32 asn_length) || toolong then Some (s, NULL)
      else
        let s := set_datalength s (u64 (datalength s - (s32 asn_length + (bufp - data)))) in
        b ← peek m bufp;
        let c := if negb (Z.land b 0x80 =? 0) then Counter64 0xFFFFFF 0xFFFFFFFF else Counter64 0 0 in
        '(c, bufp) ← int64_loop (Z.to_nat asn_length) m bufp c;
        Some (set_out s (Counter64 (CHECK_OVERFLOW_U (high c)) (CHECK_OVERFLOW_U (low c))), Ptr bufp).

(** ** Floating point: values are the bit patterns of [float] and [double] *)

Definition asn_parse_float (m : list Z) (data : Z) (s : pout Z) (floatsize : Z)
  : option (pout Z * ptr) :=
  if negb (floatsize =? sizeof_float) then Some (s, NULL)
  else
    b ← peek m data;
    let s := set_type s b in
    try (asn_length, bufp) <- parse_length_checked m (data + 1) data (datalength s) or (s, NULL);
    tag1 ← and_byte_is ((type s =? ASN_OPAQUE) && (asn_length =? ASN_OPAQUE_FLOAT_BER_LEN))
                       m bufp ASN_OPAQUE_TAG1;
    tag2 ← and_byte_is tag1 m (bufp + 1) ASN_OPAQUE_FLOAT;
    try (asn_length, bufp) <-
      (if (tag2 : bool) then parse_length_checked m (bufp + 2) data (datalength s)
       else Some (Some (asn_length, bufp))) or (s, NULL);
    let s := if (tag2 : bool) then set_type s ASN_OPAQUE_FLOAT else s in
    if negb (type s =? ASN_OPAQUE_FLOAT) then Some (s, NULL)
    else if negb (asn_length =? sizeof_float) then Some (s, NULL)
    else
      let s := set_datalength s (u64 (datalength s - (s32 asn_length + (bufp - data)))) in
      c ← peek_n m bufp asn_length;
      Some (set_out s (ntohl (le_value c)), Ptr bufp).

(** The union [fu] of [asn_parse_double]: its [c] member is copied from the
    packet, its [intVal] members are swapped, its [doubleVal] is the result. *)
Definition double_of_wire (c : list Z) : Z :=
  let int0 := le_value (take 4 c) in
  let int1 := le_value (drop 4 c) in
  let tmp := ntohl int0 in
  let int0 := ntohl int1 in
  let int1 := tmp in
  le_value (le_bytes 4 int0 ++ le_bytes 4 int1).

Definition asn_parse_double (m : list Z) (data : Z) (s : pout Z) (doublesize : Z)
  : option (pout Z * ptr) :=
  if negb (doublesize =? sizeof_double) then Some (s, NULL)
  else
    b ← peek m data;
    let s := set_type s b in
    try (asn_length, bufp) <- parse_length_checked m (data + 1) data (datalength s) or (s, NULL);
    tag1 ← and_byte_is ((type s =? ASN_OPAQUE) && (asn_length =? ASN_OPAQUE_DOUBLE_BER_LEN))
                       m bufp ASN_OPAQUE_TAG1;
    tag2 ← and_byte_is tag1 m (bufp + 1) ASN_OPAQUE_DOUBLE;
    try (asn_length, bufp) <-
      (if (tag2 : bool) then parse_length_checked m (bufp + 2) data (datalength s)
       else Some (Some (asn_length, bufp))) or (s, NULL);
    let s := if (tag2 : bool) then set_type s ASN_OPAQUE_DOUBLE else s in
    if negb (type s =? ASN_OPAQUE_DOUBLE) then Some (s, NULL)
    else if negb (asn_length =? sizeof_double) then Some (s, NULL)
    else
      let s := set_datalength s (u64 (datalength s - (s32 asn_length + (bufp - data)))) in
      c ← peek_n m bufp asn_length;
      Some (set_out s (double_of_wire c), Ptr bufp).
