(* ===== verification/Asn1ParseProps.v ===== *)
(** Correctness of the parsers of [Asn1Parse]. *)
From Stdlib Require Import ZArith Lia.
From S2P Require Import Prelude Asn1Defs Ber Asn1Parse.

#[local] Arguments asn_parse_length : simpl never.
#[local] Arguments _asn_parse_length_check : simpl never.
#[local] Arguments parse_length_checked : simpl never.
#[local] Arguments and_byte_is : simpl never.
#[local] Arguments and_nonzero : simpl never.

(** * The accumulation loops *)

Lemma shift8_unsigned v b : is_byte b -> Z.lor (u64 (Z.shiftl v 8)) b = u64 (v * 256 + b).
Proof.
  unfold is_byte, wrap. intros Hb. rewrite Z.shiftl_mul_pow2 by lia.
  change (2 ^ 64) with (2 ^ 56 * 2 ^ 8). rewrite Z.mul_mod_distr_r by lia.
  rewrite lor_disjoint by lia.
  pose proof (Z.mod_pos_bound v (2 ^ 56) ltac:(lia)).
  apply (Z.mod_unique_pos _ _ (v / 2 ^ 56)); [lia|].
  pose proof (Z.div_mod v (2 ^ 56) ltac:(lia)). lia.
Qed.

Lemma shift8_signed v b : is_byte b -> Z.lor (s64 (Z.shiftl v 8)) b = s64 (v * 256 + b).
Proof.
  intros Hb. unfold swrap. change (64 - 1) with 63.
  replace (Z.shiftl v 8 + 2 ^ 63) with (Z.shiftl (v + 2 ^ 55) 8)
    by (rewrite !Z.shiftl_mul_pow2 by lia; lia).
  replace (v * 256 + b + 2 ^ 63) with ((v + 2 ^ 55) * 256 + b) by lia.
  fold (u64 (Z.shiftl (v + 2 ^ 55) 8)) (u64 ((v + 2 ^ 55) * 256 + b)).
  rewrite <- shift8_unsigned by done.
  unfold wrap. rewrite Z.shiftl_mul_pow2 by lia.
  change (2 ^ 64) with (2 ^ 56 * 2 ^ 8). rewrite Z.mul_mod_distr_r by lia.
  replace (((v + 2 ^ 55) mod 2 ^ 56) * 2 ^ 8 - 2 ^ 63)
    with (((v + 2 ^ 55) mod 2 ^ 56 - 2 ^ 55) * 2 ^ 8) by lia.
  unfold is_byte in Hb. rewrite !lor_disjoint by lia. lia.
Qed.

Lemma u64_step v b : u64 (u64 v * 256 + b) = u64 (v * 256 + b).
Proof. unfold wrap. rewrite Z.add_mod, Z.mul_mod_idemp_l, <- Z.add_mod by lia. done. Qed.

Lemma s64_step v b : s64 (s64 v * 256 + b) = s64 (v * 256 + b).
Proof.
  rewrite <- (swrap_wrap 64 (s64 v * 256 + b)), <- (swrap_wrap 64 (v * 256 + b)) by lia.
  f_equal. rewrite <- u64_step, wrap_swrap by lia. apply u64_step.
Qed.

Lemma length_loop_ber n m data v bs :
  holds m data bs -> bytes bs -> length bs = n -> u64 v = v ->
  length_loop n m data v = Some (u64 (be_value v bs), data + Z.of_nat n).
Proof.
  revert data v bs. induction n as [|n IH]; intros data v [|b bs] Hh Hb Hl Hv; try done.
  - simpl. by rewrite be_value_nil, Hv, Z.add_0_r.
  - apply Forall_cons_1 in Hb as [Hb Hbs]. simpl in Hl.
    simpl. rewrite (holds_peek _ _ _ _ Hh). simpl.
    rewrite shift8_unsigned by done.
    rewrite (IH _ _ bs); [|by eapply holds_tail|done|lia|by rewrite wrap_wrap].
    f_equal. f_equal; [|lia]. rewrite be_value_cons, be_value_acc, (be_value_acc (v * 256 + b)).
    unfold wrap. rewrite Z.add_mod, Z.mul_mod_idemp_l, <- Z.add_mod by lia. done.
Qed.

Lemma uint_loop_ber n m data v bs :
  holds m data bs -> bytes bs -> length bs = n -> u64 v = v ->
  uint_loop n m data v = Some (u64 (be_value v bs), data + Z.of_nat n).
Proof. apply length_loop_ber. Qed.

Lemma int_loop_ber n m data v bs :
  holds m data bs -> bytes bs -> length bs = n -> s64 v = v ->
  int_loop n m data v = Some (s64 (be_value v bs), data + Z.of_nat n).
Proof.
  revert data v bs. induction n as [|n IH]; intros data v [|b bs] Hh Hb Hl Hv; try done.
  - simpl. by rewrite be_value_nil, Hv, Z.add_0_r.
  - apply Forall_cons_1 in Hb as [Hb Hbs]. simpl in Hl.
    simpl. rewrite (holds_peek _ _ _ _ Hh). simpl.
    rewrite shift8_signed by done.
    rewrite (IH _ _ bs); [|by eapply holds_tail|done|lia|].
    2: { rewrite <- swrap_wrap, wrap_swrap, swrap_wrap by lia. done. }
    f_equal. f_equal; [|lia].
    rewrite be_value_cons, be_value_acc, (be_value_acc (v * 256 + b)).
    rewrite <- swrap_wrap, <- (swrap_wrap 64 ((v * 256 + b) * _ + _)) by lia. f_equal.
    unfold wrap. rewrite Z.add_mod, (Z.mul_mod (s64 _)) by lia.
    fold (u64 (s64 (v * 256 + b))). rewrite wrap_swrap by lia.
    unfold wrap. rewrite <- Z.mul_mod, <- Z.add_mod by lia. done.
Qed.

(** * Lengths *)

Lemma asn_parse_length_ber m p n l0 :
  holds m p (ber_length n) -> 0 <= n < 2 ^ 63 ->
  asn_parse_length m (Ptr p) l0 = Some (n, Ptr (p + zlen (ber_length n))).
Proof.
  intros Hh Hn. unfold asn_parse_length. unfold ber_length in *.
  destruct (Z.ltb_spec n 128).
  - rewrite (holds_peek _ _ _ _ Hh). simpl. unfold ASN_LONG_LEN.
    rewrite land_0x80 by (unfold is_byte; lia).
    rewrite (proj2 (Z.leb_gt _ _)) by lia. done.
  - set (k := len_octets n) in *. pose proof (len_octets_pos n).
    pose proof (proj1 (len_octets_bound n 8 ltac:(lia) ltac:(lia)) ltac:(lia)) as Hk.
    fold k in Hk. assert (0 < k)%nat by done.
    rewrite (holds_peek _ _ _ _ Hh). simpl. unfold ASN_LONG_LEN, sizeof_long.
    rewrite land_0x80 by (unfold is_byte; lia).
    rewrite (proj2 (Z.leb_le _ _)) by lia. simpl.
    assert (Hb : Z.land (128 + Z.of_nat k) (Z.lnot 128) = Z.of_nat k).
    { clearbody k. do 9 (destruct k as [|k]; [done|]). lia. }
    rewrite Hb, (proj2 (Z.eqb_neq _ _)), (proj2 (Z.ltb_ge _ _)) by lia. rewrite Nat2Z.id.
    rewrite (length_loop_ber k m (p + 1) 0 (be_bytes k n)); 
      [|by eapply holds_tail|apply be_bytes_byte|apply length_be_bytes|done].
    simpl. rewrite be_value_be_bytes, Z.mod_small, wrap_small.
    + rewrite swrap_small, (proj2 (Z.ltb_ge _ _)) by lia.
      autorewrite with zlen. do 3 f_equal. lia.
    + lia.
    + split; [lia|]. apply len_octets_bound; [lia|lia|]. fold k. lia.
Qed.

Lemma length_loop_inv n m d v len p :
  bytes m -> 0 <= v < 2 ^ 64 -> length_loop n m d v = Some (len, p) ->
  p = d + Z.of_nat n /\ 0 <= len < 2 ^ 64.
Proof.
  intros Hm. revert d v. induction n as [|n IH]; intros d v Hv H; simpl in H; run_inv; [lia|].
  match goal with Hp : peek m d = Some _ |- _ => pose proof (peek_byte _ _ _ Hm Hp) end.
  rewrite shift8_unsigned in * by done.
  match goal with Hl : length_loop n _ _ _ = _ |- _ => apply IH in Hl; [lia|] end.
  apply wrap_range. lia.
Qed.

Lemma length_loop_total n m d v :
  0 <= d -> d + Z.of_nat n <= Z.of_nat (length m) -> exists r, length_loop n m d v = Some r.
Proof.
  revert d v. induction n as [|n IH]; intros d v Hd Hl; simpl; [eauto|].
  destruct (peek_in_range m d) as [b Hb]; [lia|]. rewrite Hb. simpl. apply IH; lia.
Qed.

Lemma land_lnot_0x80 b : is_byte b -> Z.land b (Z.lnot 0x80) = b mod 128.
Proof.
  intros Hb. unfold is_byte in Hb.
  assert (H : Forall (fun b => Z.land b (Z.lnot 0x80) = b mod 128) (seqZ 0 256)) by (repeat constructor).
  rewrite Forall_forall in H. apply H, list_elem_of_In, elem_of_seqZ. lia.
Qed.

(** What a successful [asn_parse_length] means, for any input. *)
Lemma asn_parse_length_inv m d l0 len p :
  bytes m -> asn_parse_length m (Ptr d) l0 = Some (len, Ptr p) ->
  d < p <= d + 9 /\ 0 <= len < 2 ^ 63.
Proof.
  intros Hm H. unfold asn_parse_length in H. run_inv.
  - match goal with Hp : peek m d = Some _ |- _ => pose proof (peek_byte _ _ _ Hm Hp) as Hb end.
    match goal with Hl : length_loop _ _ _ _ = _ |- _ =>
      apply length_loop_inv in Hl as [-> Hlen]; [|done|lia] end.
    unfold ASN_LONG_LEN, sizeof_long in *. bool_prop.
    rewrite land_lnot_0x80 in * by done.
    pose proof (Z.mod_pos_bound x 128 ltac:(lia)). split; [lia|].
    destruct (Z.ltb_spec len (2 ^ 63)); [lia|].
    exfalso. revert Heqb2. unfold swrap.
    rewrite <- (Z_mod_plus_full _ (-1)), Z.mod_small by lia. lia.
  - match goal with Hp : peek m d = Some _ |- _ => pose proof (peek_byte _ _ _ Hm Hp) as Hb end.
    unfold is_byte in Hb. lia.
Qed.

Lemma asn_parse_length_total m d l0 :
  bytes m -> 0 <= d -> d + 9 <= Z.of_nat (length m) ->
  exists r, asn_parse_length m (Ptr d) l0 = Some r.
Proof.
  intros Hm Hd Hl. unfold asn_parse_length.
  destruct (peek_in_range m d) as [b Hb]; [lia|]. rewrite Hb. simpl.
  pose proof (peek_byte _ _ _ Hm Hb). unfold ASN_LONG_LEN, sizeof_long.
  rewrite land_lnot_0x80 by done. pose proof (Z.mod_pos_bound b 128 ltac:(lia)).
  destruct (negb _); [|eauto]. destruct (b mod 128 =? 0); [eauto|].
  destruct (Z.ltb_spec 8 (b mod 128)); [eauto|].
  destruct (length_loop_total (Z.to_nat (b mod 128)) m (d + 1) 0) as [[len p] Hr]; [lia..|].
  rewrite Hr. simpl. destruct (s64 len <? 0); eauto.
Qed.

Lemma parse_length_checked_ber m bufp data dlen n :
  holds m bufp (ber_length n) -> 0 <= n <= 0x7fffffff ->
  0 <= bufp - data <= 64 -> (bufp - data) + zlen (ber_length n) + n <= dlen ->
  parse_length_checked m bufp data dlen = Some (Some (n, bufp + zlen (ber_length n))).
Proof.
  intros Hh Hn Hd Hl. unfold parse_length_checked.
  rewrite (asn_parse_length_ber _ _ n) by (done || lia).
  simpl. unfold _asn_parse_length_check.
  pose proof (zlen_ber_length n ltac:(lia)).
  rewrite (wrap_small 64 (_ - data)) by lia. rewrite wrap_small by lia.
  by rewrite !(proj2 (Z.ltb_ge _ _)) by lia.
Qed.

(** A length that passed the check describes contents inside the announced data. *)
Lemma parse_length_checked_inv m bufp data dlen n p :
  bytes m -> 0 <= bufp - data <= 64 ->
  parse_length_checked m bufp data dlen = Some (Some (n, p)) ->
  bufp < p <= bufp + 9 /\ 0 <= n <= 0x7fffffff /\ (p - data) + n <= dlen.
Proof.
  intros Hm Hd H. unfold parse_length_checked in H. run_inv.
  match goal with Hl : asn_parse_length _ _ _ = _ |- _ =>
    apply asn_parse_length_inv in Hl as [Hp Hn]; [|done] end.
  unfold _asn_parse_length_check in *. bool_prop.
  rewrite (wrap_small 64 (p - data)) in * by lia. rewrite wrap_small in * by lia. lia.
Qed.

Lemma parse_length_checked_total m bufp data dlen :
  bytes m -> 0 <= bufp -> bufp + 9 <= Z.of_nat (length m) ->
  exists r, parse_length_checked m bufp data dlen = Some r.
Proof.
  intros Hm Hb Hl. unfold parse_length_checked.
  destruct (asn_parse_length_total m bufp 0 Hm Hb Hl) as [[len p] Hr]. rewrite Hr. simpl.
  destruct (_asn_parse_length_check _ _ _ _); [eauto|]. destruct p; eauto.
Qed.

Lemma s32_len n : 0 <= n <= 0x7fffffff -> s32 n = n.
Proof. intros. apply swrap_small; lia. Qed.

(** * Framing

    [framed data s s' p]: the parser returned [p] past [data], it took no more
    than the bytes announced by [*datalength], and [*datalength] is now what is
    left of them. *)
Definition framed {T} (data : Z) (s s' : pout T) (p : Z) : Prop :=
  data < p /\ p - data <= datalength s /\ datalength s' = datalength s - (p - data).

(** [*datalength -= n + (bufp - data)] when the contents fit. *)
Lemma sub_consumed dl n k :
  0 <= dl < 2 ^ 64 -> 0 <= n -> 0 <= k -> k + n <= dl -> u64 (dl - (n + k)) = dl - (n + k).
Proof. intros. apply wrap_small. lia. Qed.

Lemma int_loop_end n m p v r q : int_loop n m p v = Some (r, q) -> q = p + Z.of_nat n.
Proof. revert p v. induction n as [|n IH]; intros p v H; simpl in H; run_inv; [lia|]. apply IH in H0. lia. Qed.

Lemma uint_loop_end n m p v r q : uint_loop n m p v = Some (r, q) -> q = p + Z.of_nat n.
Proof. revert p v. induction n as [|n IH]; intros p v H; simpl in H; run_inv; [lia|]. apply IH in H0. lia. Qed.

Lemma int64_loop_end n m p v r q : int64_loop n m p v = Some (r, q) -> q = p + Z.of_nat n.
Proof. revert p v. induction n as [|n IH]; intros p v H; simpl in H; run_inv; [lia|]. apply IH in H0. lia. Qed.

Ltac use_checked :=
  repeat match goal with
  | H : parse_length_checked _ _ _ _ = Some (Some _) |- _ =>
    apply parse_length_checked_inv in H as (? & ? & ?); [|done|lia]
  | H : int_loop _ _ _ _ = Some _ |- _ => apply int_loop_end in H
  | H : uint_loop _ _ _ _ = Some _ |- _ => apply uint_loop_end in H
  | H : int64_loop _ _ _ _ = Some _ |- _ => apply int64_loop_end in H
  end.

Ltac frame_done :=
  unfold framed; simpl in *; rewrite ?s32_len in * by lia; rewrite sub_consumed by lia; lia.

Section frames.
Context {m : list Z} (Hm : bytes m).

Lemma asn_parse_int_framed data s sz s' p :
  0 <= datalength s < 2 ^ 64 -> asn_parse_int m data s sz = Some (s', Ptr p) -> framed data s s' p.
Proof. intros Hd H. unfold asn_parse_int in H. run_inv. use_checked. frame_done. Qed.

Lemma asn_parse_unsigned_int_framed data s sz s' p :
  0 <= datalength s < 2 ^ 64 ->
  asn_parse_unsigned_int m data s sz = Some (s', Ptr p) -> framed data s s' p.
Proof. intros Hd H. unfold asn_parse_unsigned_int in H. run_inv. use_checked. frame_done. Qed.

Lemma asn_parse_string_framed data s s' p :
  0 <= datalength s < 2 ^ 64 -> asn_parse_string m data s = Some (s', Ptr p) -> framed data s s' p.
Proof. intros Hd H. unfold asn_parse_string in H. run_inv; use_checked; frame_done. Qed.

Lemma asn_parse_bitstring_framed data s s' p :
  0 <= datalength s < 2 ^ 64 -> asn_parse_bitstring m data s = Some (s', Ptr p) -> framed data s s' p.
Proof. intros Hd H. unfold asn_parse_bitstring in H. run_inv; use_checked; frame_done. Qed.

Lemma asn_parse_unsigned_int64_framed data s sz s' p :
  0 <= datalength s < 2 ^ 64 ->
  asn_parse_unsigned_int64 m data s sz = Some (s', Ptr p) -> framed data s s' p.
Proof. intros Hd H. unfold asn_parse_unsigned_int64 in H. run_inv; use_checked; frame_done. Qed.

Lemma asn_parse_signed_int64_framed data s sz s' p :
  0 <= datalength s < 2 ^ 64 ->
  asn_parse_signed_int64 m data s sz = Some (s', Ptr p) -> framed data s s' p.
Proof. intros Hd H. unfold asn_parse_signed_int64 in H. run_inv; use_checked; frame_done. Qed.
End frames.

(** ** The identifier loops *)

Lemma subid_loop_inv fuel m bufp len v r q l :
  0 < len -> subid_loop fuel m bufp len v = Some (r, q, l) ->
  q + l = bufp + len /\ 0 <= l < len.
Proof.
  revert bufp len v. induction fuel as [|fuel IH]; intros bufp len v Hl H; simpl in H; run_inv.
  - bool_prop. apply IH in H0; lia.
  - lia.
Qed.

Lemma objid_loop_inv fuel m bufp oidp len objid n q o l objid' n' :
  0 <= len -> 0 <= n < 2 ^ 64 ->
  objid_loop fuel m bufp oidp len objid n = Some (Next (q, o, l, objid', n')) ->
  q + l = bufp + len /\ 0 <= l /\ oidp <= o <= oidp + n.
Proof.
  revert bufp oidp len objid n.
  induction fuel as [|fuel IH]; intros bufp oidp len objid n Hl Hn H; simpl in H;
    run_inv; try lia;
    match goal with Hs : subid_loop _ _ _ _ _ = Some _ |- _ =>
      apply subid_loop_inv in Hs; [|bool_prop; lia] end;
    bool_prop; rewrite wrap_small in * by lia;
    match goal with Ho : objid_loop _ _ _ _ _ _ _ = Some _ |- _ => apply IH in Ho; lia end.
Qed.

Lemma asn_parse_objid_framed m data s s' p :
  bytes m -> 0 <= datalength s < 2 ^ 64 ->
  asn_parse_objid m data s = Some (s', Ptr p) -> framed data s s' p.
Proof.
  intros Hm Hd H. unfold asn_parse_objid in H.
  destruct (out s) as [objid orig]. run_inv; use_checked;
    match goal with Ho : objid_loop _ _ _ _ _ _ _ = Some _ |- _ =>
      apply objid_loop_inv in Ho as (? & ? & ?); [|lia|apply wrap_range; lia] end;
    bool_prop; frame_done.
Qed.

(** * Memory safety

    The parsers look at the tag and the length octets before they compare with
    [*datalength]; they are safe when the packet object extends 32 bytes past
    the announced data. *)
Definition readable (m : list Z) (data dl : Z) : Prop :=
  bytes m /\ 0 <= data /\ 0 <= dl < 2 ^ 63 /\ data + dl + 32 <= Z.of_nat (length m).

Lemma length_loop_is_Some n m p v :
  0 <= p -> p + Z.of_nat n <= Z.of_nat (length m) -> is_Some (length_loop n m p v).
Proof. intros. destruct (length_loop_total n m p v) as [? ->]; eauto. Qed.

Lemma int_loop_is_Some n m p v :
  0 <= p -> p + Z.of_nat n <= Z.of_nat (length m) -> is_Some (int_loop n m p v).
Proof.
  revert p v. induction n as [|n IH]; intros p v Hp Hl; simpl; [eauto|].
  destruct (peek_in_range m p) as [b ->]; [lia|]. simpl. apply IH; lia.
Qed.

Lemma int64_loop_is_Some n m p v :
  0 <= p -> p + Z.of_nat n <= Z.of_nat (length m) -> is_Some (int64_loop n m p v).
Proof.
  revert p v. induction n as [|n IH]; intros p v Hp Hl; simpl; [eauto|].
  destruct (peek_in_range m p) as [b ->]; [lia|]. simpl. apply IH; lia.
Qed.

Lemma and_byte_is_total g m p t :
  0 <= p < Z.of_nat (length m) -> exists b, and_byte_is g m p t = Some b.
Proof.
  intros. unfold and_byte_is. destruct g; [|eauto].
  destruct (peek_in_range m p) as [b ->]; [lia|]. simpl. eauto.
Qed.

Lemma and_nonzero_total g m p :
  0 <= p < Z.of_nat (length m) -> exists b, and_nonzero g m p = Some b.
Proof.
  intros. unfold and_nonzero. destruct g; [|eauto].
  destruct (peek_in_range m p) as [b ->]; [lia|]. simpl. eauto.
Qed.

Lemma peek_n_total m p n :
  0 <= p -> 0 <= n -> p + n <= Z.of_nat (length m) ->
  exists bs, peek_n m p n = Some bs /\ Z.of_nat (length bs) = n.
Proof.
  intros. unfold peek_n. rewrite !(proj2 (Z.leb_le _ _)) by lia. eexists. split; [done|].
  rewrite length_take, length_drop. lia.
Qed.

Lemma subid_loop_is_Some fuel m bufp len v :
  0 < len -> len <= Z.of_nat fuel -> 0 <= bufp -> bufp + len <= Z.of_nat (length m) ->
  is_Some (subid_loop fuel m bufp len v).
Proof.
  revert bufp len v. induction fuel as [|fuel IH]; intros bufp len v Hl Hf Hb Hm; [lia|].
  simpl. destruct (peek_in_range m bufp) as [b ->]; [lia|]. simpl.
  destruct (negb _ && _) eqn:E; [|eauto]. bool_prop. apply IH; lia.
Qed.

Lemma objid_loop_total fuel m bufp oidp len objid n :
  0 <= len -> len <= Z.of_nat fuel -> 0 <= bufp -> bufp + len <= Z.of_nat (length m) ->
  0 <= oidp -> 0 <= n < 2 ^ 64 -> oidp + n <= Z.of_nat (length objid) ->
  exists f, objid_loop fuel m bufp oidp len objid n = Some f /\
    forall q o l objid' n', f = Next (q, o, l, objid', n') -> length objid' = length objid.
Proof.
  revert bufp oidp len objid n.
  induction fuel as [|fuel IH]; intros bufp oidp len objid n Hl Hf Hb Hm Ho Hn Hc; simpl.
  { rewrite (proj2 (Z.ltb_ge 0 len)) by lia. simpl. eexists. split; [done|]. congruence. }
  destruct (Z.ltb_spec 0 len); simpl; [|eexists; split; [done|]; congruence].
  destruct (Z.ltb_spec 0 n); simpl; [|eexists; split; [done|]; congruence].
  destruct (subid_loop_is_Some (Z.to_nat len) m bufp len 0) as [[[v q] l] E]; [lia..|].
  rewrite E. simpl. apply subid_loop_inv in E; [|lia].
  destruct (peek_in_range m (q - 1)) as [b Hq]; [lia|]. rewrite Hq.
  destruct (if l =? 0 then _ else _) as [[|]|] eqn:El; simpl; [| |by destruct (l =? 0)].
  { eexists. split; [done|]. done. }
  destruct (MAX_SUBID <? v); [eexists; split; [done|]; done|].
  rewrite poke_in_range by lia. simpl. rewrite wrap_small by lia.
  destruct (IH q (oidp + 1) l (<[Z.to_nat oidp:=v]> objid) (n - 1)) as (f & Hfe & Hlen);
    [lia..|rewrite length_insert; lia|].
  exists f. split; [done|]. intros ????? ->. erewrite Hlen by done. apply length_insert.
Qed.

(** One step of a safety proof: every read is in range, every test splits. *)
Ltac safe_step :=
  match goal with
  | |- is_Some (Some _) => by eexists
  | |- is_Some (peek ?m ?p ≫= _) => destruct (peek_in_range m p) as [? ->]; [lia|]; simpl
  | |- is_Some (peek_n ?m ?p ?n ≫= _) =>
    destruct (peek_n_total m p n) as (? & -> & ?); [lia..|]; simpl
  | |- is_Some (and_byte_is ?g ?m ?p ?t ≫= _) =>
    destruct (and_byte_is_total g m p t) as [? ->]; [lia|]; simpl
  | |- is_Some (and_nonzero ?g ?m ?p ≫= _) =>
    destruct (and_nonzero_total g m p) as [? ->]; [lia|]; simpl
  | |- is_Some (int_loop ?n ?m ?p ?v ≫= _) =>
    destruct (int_loop_is_Some n m p v) as [[? ?] ->]; [lia..|]; simpl
  | |- is_Some (uint_loop ?n ?m ?p ?v ≫= _) =>
    destruct (length_loop_is_Some n m p v) as [[? ?] Hloop]; [lia..|];
    change length_loop with uint_loop in Hloop; rewrite Hloop; clear Hloop; simpl
  | |- is_Some (int64_loop ?n ?m ?p ?v ≫= _) =>
    destruct (int64_loop_is_Some n m p v) as [[? ?] ->]; [lia..|]; simpl
  | |- is_Some match parse_length_checked ?m ?b ?d ?l with _ => _ end =>
    destruct (parse_length_checked_total m b d l) as [[[? ?]|] Hplc]; [done|lia|lia| |];
    rewrite Hplc;
    [apply parse_length_checked_inv in Hplc as (? & ? & ?); [|done|lia]|]
  | |- is_Some ((if ?b then _ else _) ≫= _) => destruct b eqn:?; simpl
  | |- is_Some (match (if ?b then _ else _) with _ => _ end) => destruct b eqn:?; simpl
  | |- is_Some (if ?b then _ else _) => destruct b eqn:?
  end.

Section safety.
Context {m : list Z} {data : Z}.

Lemma asn_parse_int_safe s sz :
  readable m data (datalength s) -> is_Some (asn_parse_int m data s sz).
Proof.
  intros (Hm & ? & ? & ?). unfold asn_parse_int. repeat safe_step.
Qed.

Lemma asn_parse_unsigned_int_safe s sz :
  readable m data (datalength s) -> is_Some (asn_parse_unsigned_int m data s sz).
Proof.
  intros (Hm & ? & ? & ?). unfold asn_parse_unsigned_int. repeat safe_step.
Qed.

Lemma asn_parse_null_safe s :
  readable m data (datalength s) -> is_Some (asn_parse_null m data s).
Proof.
  intros (Hm & ? & ? & ?). unfold asn_parse_null. safe_step.
  destruct (asn_parse_length_total m (data + 1) 0) as [[n [|q]] ->]; [done|lia|lia|..]; simpl;
    repeat safe_step.
Qed.

Lemma asn_parse_header_safe s :
  readable m data (datalength s) -> is_Some (asn_parse_header m (Ptr data) s).
Proof.
  intros (Hm & ? & ? & ?). unfold asn_parse_header. repeat safe_step.
Qed.

Lemma asn_parse_unsigned_int64_safe s sz :
  readable m data (datalength s) -> is_Some (asn_parse_unsigned_int64 m data s sz).
Proof.
  intros (Hm & ? & ? & ?). unfold asn_parse_unsigned_int64. repeat safe_step.
Qed.

Lemma asn_parse_signed_int64_safe s sz :
  readable m data (datalength s) -> is_Some (asn_parse_signed_int64 m data s sz).
Proof.
  intros (Hm & ? & ? & ?). unfold asn_parse_signed_int64. repeat safe_step.
Qed.

Lemma asn_parse_float_safe s sz :
  readable m data (datalength s) -> is_Some (asn_parse_float m data s sz).
Proof.
  intros (Hm & ? & ? & ?). unfold asn_parse_float. repeat safe_step.
Qed.

Lemma asn_parse_double_safe s sz :
  readable m data (datalength s) -> is_Some (asn_parse_double m data s sz).
Proof.
  intros (Hm & ? & ? & ?). unfold asn_parse_double. repeat safe_step.
Qed.

(** An output string object: [*strlength] tells its size. *)
Definition str_ok (o : list Z * Z) : Prop := 0 <= o.2 <= Z.of_nat (length o.1).

Lemma asn_parse_string_safe s :
  readable m data (datalength s) -> str_ok (out s) -> is_Some (asn_parse_string m data s).
Proof.
  intros (Hm & ? & ? & ?) Ho. unfold asn_parse_string, str_ok in *.
  destruct (out s) as [str n] eqn:E. simpl in Ho.
  repeat safe_step; simpl; rewrite ?E; repeat safe_step;
    rewrite poke_n_patch by lia; simpl; repeat safe_step.
  bool_prop. rewrite poke_in_range by (rewrite length_patch; lia). simpl. by eexists.
Qed.

Lemma asn_parse_bitstring_safe s :
  readable m data (datalength s) -> str_ok (out s) -> is_Some (asn_parse_bitstring m data s).
Proof.
  intros (Hm & ? & ? & ?) Ho. unfold asn_parse_bitstring, str_ok in *.
  destruct (out s) as [str n] eqn:E. simpl in Ho.
  repeat safe_step; simpl; rewrite ?E; repeat safe_step.
  bool_prop. rewrite poke_n_patch by lia; simpl; repeat safe_step.
Qed.
End safety.

(** An output identifier object: room for two components at least. *)
Definition oidbuf_ok (o : list Z * Z) : Prop :=
  1 <= o.2 <= Z.of_nat (length o.1) /\ 2 <= Z.of_nat (length o.1) < 2 ^ 31.

Lemma poke2_total o i j v w :
  0 <= i < Z.of_nat (length o) -> 0 <= j < Z.of_nat (length o) ->
  exists o', (o1 ← poke o i v; poke o1 j w) = Some o' /\ length o' = length o.
Proof.
  intros. rewrite poke_in_range by lia. simpl. rewrite poke_in_range by (rewrite length_insert; lia).
  eexists. split; [done|]. by rewrite !length_insert.
Qed.

Lemma objid_empty_total n o :
  2 <= Z.of_nat (length o) -> exists o', objid_empty n o = Some o' /\ length o' = length o.
Proof. intros. unfold objid_empty. destruct (n =? 0); [apply poke2_total; lia|eauto]. Qed.

Lemma objid_first_two_total o :
  2 <= Z.of_nat (length o) -> exists o', objid_first_two o = Some o' /\ length o' = length o.
Proof.
  intros. unfold objid_first_two. destruct (peek_in_range o 1) as [x ->]; [lia|]. simpl.
  repeat case_match; apply poke2_total; lia.
Qed.

Lemma asn_parse_objid_safe m data s :
  readable m data (datalength s) -> oidbuf_ok (out s) -> is_Some (asn_parse_objid m data s).
Proof.
  intros (Hm & ? & ? & ?) Ho. unfold asn_parse_objid, oidbuf_ok in *.
  destruct (out s) as [objid orig] eqn:E. simpl in Ho. repeat safe_step.
  match goal with |- is_Some (objid_empty ?n ?o ≫= _) =>
    destruct (objid_empty_total n o) as (o1 & -> & Hl1); [lia|] end. simpl.
  rewrite (wrap_small 64 (orig - 1)) by lia.
  match goal with |- is_Some (objid_loop ?f ?m ?b ?p ?l ?o ?n ≫= _) =>
    destruct (objid_loop_total f m b p l o n) as (f' & -> & Hl'); [lia..|]; simpl end.
  destruct f' as [r|[[[[q o2] l] objid'] n']]; [by eexists|].
  specialize (Hl' _ _ _ _ _ eq_refl). safe_step; [by eexists|].
  destruct (objid_first_two_total objid') as (o3 & -> & _); [lia|]. by eexists.
Qed.

(** * What the parsers return on an encoding

    Each lemma: the packet holds a tag, the minimal length and contents [c] at
    [data], and [*datalength] covers them. *)

Definition tlv_at (m : list Z) (data t : Z) (c : list Z) (dl : Z) : Prop :=
  holds m data (tlv t c) /\ bytes c /\ zlen c <= 0x7fffffff /\ zlen (tlv t c) <= dl < 2 ^ 64.

Lemma tlv_at_header m data t c dl :
  tlv_at m data t c dl ->
  peek m data = Some t /\
  parse_length_checked m (data + 1) data dl =
    Some (Some (zlen c, data + 1 + zlen (ber_length (zlen c)))) /\
  holds m (data + 1 + zlen (ber_length (zlen c))) c /\
  0 <= zlen c /\ 1 <= zlen (ber_length (zlen c)) <= 5 /\
  1 + zlen (ber_length (zlen c)) + zlen c <= dl.
Proof.
  intros (Hh & Hb & Hl & Hd). apply holds_tlv in Hh as (Ht & Hlen & Hc).
  rewrite zlen_tlv in Hd. pose proof (zlen_nonneg c).
  pose proof (zlen_ber_length (zlen c) ltac:(lia)).
  rewrite (parse_length_checked_ber _ _ _ _ (zlen c)) by (done || lia). split_and!; done || lia.
Qed.

Ltac enter_tlv H :=
  let Ht := fresh "Ht" in let Hp := fresh "Hp" in let Hc := fresh "Hc" in
  pose proof H as (Ht & Hp & Hc & ? & ? & ?)%tlv_at_header;
  rewrite Ht; simpl; rewrite Hp; clear Ht Hp.

Lemma sign_of_first b : is_byte b -> negb (Z.land b 0x80 =? 0) = (128 <=? b).
Proof. intros. rewrite land_0x80 by done. by destruct (128 <=? b). Qed.

Lemma asn_parse_int_tlv m data s c :
  tlv_at m data ASN_INTEGER c (datalength s) -> 1 <= zlen c <= 8 ->
  asn_parse_int m data s sizeof_long =
  Some (mkpout (datalength s - zlen (tlv ASN_INTEGER c)) ASN_INTEGER (CHECK_OVERFLOW_S (twos c)),
        Ptr (data + zlen (tlv ASN_INTEGER c))).
Proof.
  intros Hat Hn. unfold asn_parse_int. rewrite Z.eqb_refl. simpl. enter_tlv Hat.
  destruct Hat as (_ & Hb & Hz & Hd). pose proof (twos_range c Hb ltac:(lia)) as Hr.
  rewrite s32_len by lia. unfold sizeof_long.
  rewrite (proj2 (Z.ltb_ge _ _)), (proj2 (Z.eqb_neq _ _)) by lia. simpl.
  destruct c as [|b c]; [rewrite zlen_nil in Hn; lia|]. pose proof Hb as [Hb1 Hbs]%Forall_cons_1.
  rewrite (holds_peek _ _ _ _ Hc). simpl. rewrite sign_of_first by done.
  rewrite (int_loop_ber _ _ _ _ (b :: c)); [|done|done|unfold zlen; lia|by destruct (128 <=? b)].
  simpl. rewrite <- twos_cons by done.
  rewrite (swrap_small 64 (twos _)).
  - rewrite zlen_tlv in *. unfold set_out, set_datalength. simpl.
    rewrite wrap_small by lia. do 3 f_equal; lia.
  - lia.
  - pose proof (fits_mono (zlen (b :: c)) 8 _ ltac:(lia) Hr) as H8. unfold fits in H8. exact H8.
Qed.

Lemma twos_mod_u64 b c init :
  is_byte b -> bytes c -> init = (if 128 <=? b then u64 (Z.lnot 0) else 0) ->
  u64 (be_value init (b :: c)) mod 2 ^ 32 = twos (b :: c) mod 2 ^ 32.
Proof.
  intros Hb Hc ->. rewrite twos_cons by done.
  rewrite (be_value_acc (if 128 <=? b then u64 _ else 0)), (be_value_acc (if 128 <=? b then -1 else 0)).
  set (E := 256 ^ _). set (V := be_value 0 _).
  destruct (128 <=? b).
  - change (u64 (Z.lnot 0)) with (2 ^ 64 - 1). unfold wrap.
    replace ((2 ^ 64 - 1) * E + V) with (-1 * E + V + E * 2 ^ 64) by lia.
    rewrite Z_mod_plus_full. rewrite (mod_mod_pow (-1 * E + V)). done.
  - unfold wrap. apply mod_mod_pow.
Qed.

Lemma asn_parse_unsigned_int_tlv m data s t c :
  t = ASN_COUNTER \/ t = ASN_GAUGE \/ t = ASN_TIMETICKS \/ t = ASN_UINTEGER ->
  tlv_at m data t c (datalength s) -> 1 <= zlen c <= 8 ->
  asn_parse_unsigned_int m data s sizeof_long =
  Some (mkpout (datalength s - zlen (tlv t c)) t (twos c mod 2 ^ 32),
        Ptr (data + zlen (tlv t c))).
Proof.
  intros Ht Hat Hn. unfold asn_parse_unsigned_int. rewrite Z.eqb_refl. simpl.
  assert (Htb : negb (t =? ASN_COUNTER) && negb (t =? ASN_GAUGE)
       && negb (t =? ASN_TIMETICKS) && negb (t =? ASN_UINTEGER) = false)
    by (destruct Ht as [->|[->|[->| ->]]]; done).
  enter_tlv Hat. rewrite Htb. clear Htb.
  destruct Hat as (_ & Hb & Hz & Hd). rewrite s32_len by lia. unfold sizeof_long.
  rewrite (proj2 (Z.ltb_ge _ _)), !(proj2 (Z.eqb_neq _ _)) by lia. simpl.
  destruct c as [|b c]; [rewrite zlen_nil in Hn; lia|]. pose proof Hb as [Hb1 Hbs]%Forall_cons_1.
  rewrite (holds_peek _ _ _ _ Hc). simpl. rewrite sign_of_first by done.
  rewrite (uint_loop_ber _ _ _ _ (b :: c)); [|done|done|unfold zlen; lia|by destruct (128 <=? b)].
  simpl. rewrite CHECK_OVERFLOW_U_mod by (apply wrap_range; lia).
  rewrite (twos_mod_u64 b c) by done.
  rewrite zlen_tlv in *. unfold set_out, set_datalength. simpl.
  rewrite wrap_small by lia. do 3 f_equal; lia.
Qed.

Lemma asn_parse_string_tlv m data s t c str n :
  t = ASN_OCTET_STR \/ t = ASN_IPADDRESS \/ t = ASN_OPAQUE \/ t = ASN_NSAP ->
  tlv_at m data t c (datalength s) -> out s = (str, n) -> zlen c <= n <= zlen str ->
  asn_parse_string m data s =
  Some (mkpout (datalength s - zlen (tlv t c)) t
               (if zlen c <? n then patch str 0 (c ++ [0]) else patch str 0 c, zlen c),
        Ptr (data + zlen (tlv t c))).
Proof.
  intros Ht Hat Ho Hn. unfold asn_parse_string.
  assert (Htb : negb (t =? ASN_OCTET_STR) && negb (t =? ASN_IPADDRESS)
       && negb (t =? ASN_OPAQUE) && negb (t =? ASN_NSAP) = false)
    by (destruct Ht as [->|[->|[->| ->]]]; done).
  enter_tlv Hat. rewrite Htb, Ho. clear Htb.
  destruct Hat as (_ & Hb & Hz & Hd). rewrite (proj2 (Z.ltb_ge _ _)) by lia.
  pose proof (holds_peek_n _ _ _ Hc) as Hpn. fold (zlen c) in Hpn. rewrite Hpn. simpl.
  rewrite poke_n_patch by (unfold zlen in *; lia). simpl.
  rewrite zlen_tlv in *. unfold set_out, set_datalength, set_type. simpl.
  rewrite wrap_small by lia.
  destruct (Z.ltb_spec (zlen c) n); simpl; [|do 3 f_equal; lia].
  rewrite poke_patch by (rewrite length_patch; unfold zlen in *; lia). simpl.
  rewrite patch_patch by (unfold zlen in *; lia). do 3 f_equal; lia.
Qed.

Lemma asn_parse_bitstring_tlv m data s c str n :
  tlv_at m data ASN_BIT_STR c (datalength s) -> out s = (str, n) ->
  1 <= zlen c <= n -> n <= zlen str ->
  asn_parse_bitstring m data s =
  Some (mkpout (datalength s - zlen (tlv ASN_BIT_STR c)) ASN_BIT_STR (patch str 0 c, zlen c),
        Ptr (data + zlen (tlv ASN_BIT_STR c))).
Proof.
  intros Hat Ho Hn Hs. unfold asn_parse_bitstring. enter_tlv Hat. rewrite Ho.
  destruct Hat as (_ & Hb & Hz & Hd). rewrite (proj2 (Z.ltb_ge _ _)) by lia.
  rewrite s32_len by lia. unfold _asn_bitstring_check. rewrite (proj2 (Z.ltb_ge _ 1)) by lia.
  pose proof (holds_peek_n _ _ _ Hc) as Hpn. fold (zlen c) in Hpn.
  destruct c as [|b c]; [rewrite zlen_nil in Hn; lia|].
  rewrite (holds_peek _ _ _ _ Hc). simpl. rewrite Hpn. simpl.
  rewrite poke_n_patch by (unfold zlen in *; lia). simpl.
  rewrite zlen_tlv in *. unfold set_out, set_datalength, set_type. simpl.
  rewrite !wrap_small by lia. do 3 f_equal; lia.
Qed.

Lemma asn_parse_null_tlv m data s :
  tlv_at m data ASN_NULL [] (datalength s) ->
  asn_parse_null m data s =
  Some (mkpout (datalength s - 2) ASN_NULL (out s), Ptr (data + 2)).
Proof.
  intros (Hh & _ & _ & Hd). unfold asn_parse_null. change (zlen (tlv ASN_NULL [])) with 2 in Hd.
  apply holds_tlv in Hh as (Ht & Hl & _). rewrite Ht. simpl.
  rewrite (asn_parse_length_ber _ _ 0) by done. simpl.
  unfold set_datalength, set_type. simpl. change (zlen (ber_length 0)) with 1.
  rewrite wrap_small by lia. do 3 f_equal; lia.
Qed.

(** ** Identifiers *)

Lemma subid_loop_b128 k m bufp len v acc fuel :
  holds m bufp (b128 (S k) v) -> Z.of_nat (S k) <= len -> (S k <= fuel)%nat ->
  subid_loop fuel m bufp len acc =
  Some (u64 (acc * 2 ^ (7 * Z.of_nat (S k)) + v mod 2 ^ (7 * Z.of_nat (S k))),
        bufp + Z.of_nat (S k), len - Z.of_nat (S k)).
Proof.
  revert bufp len acc fuel. induction k as [|k IH]; intros bufp len acc fuel Hh Hl Hf;
    (destruct fuel as [|fuel]; [lia|]); cbn [subid_loop];
    pose proof (holds_peek _ _ _ _ Hh) as Hp; rewrite Hp; simpl.
  - change (2 ^ (7 * Z.of_nat 0)) with 1. rewrite Z.div_1_r, Z.add_0_r.
    pose proof (Z.mod_pos_bound v 128 ltac:(lia)). unfold ASN_BIT8.
    rewrite land_0x80, land_lnot_0x80 by (unfold is_byte; lia).
    rewrite (proj2 (Z.leb_gt _ _)) by lia. simpl.
    change (2 ^ (7 * Z.of_nat 1)) with 128.
    rewrite Z.mod_mod, Z.shiftl_mul_pow2 by lia. change (2 ^ 7) with 128.
    unfold wrap. rewrite Zplus_mod_idemp_l. do 3 f_equal; lia.
  - set (d := (v / 2 ^ (7 * Z.of_nat (S k))) mod 128) in *.
    pose proof (Z.mod_pos_bound (v / 2 ^ (7 * Z.of_nat (S k))) 128 ltac:(lia)). fold d in H.
    unfold ASN_BIT8. rewrite land_0x80, land_lnot_0x80 by (unfold is_byte; lia).
    rewrite (proj2 (Z.leb_le _ _)), (proj2 (Z.ltb_lt _ _)) by lia. simpl.
    rewrite (IH _ _ _ fuel) by (lia || by eapply holds_tail).
    rewrite Z.shiftl_mul_pow2 by lia. change (2 ^ 7) with 128.
    rewrite (Z.add_mod d 128), Z.mod_same, Z.add_0_r, Z.mod_mod, (Z.mod_small d) by lia.
    replace (7 * Z.of_nat (S (S k))) with (7 * Z.of_nat (S k) + 7) by lia.
    set (P := 7 * Z.of_nat (S k)) in *. rewrite Z.pow_add_r by lia. change (2 ^ 7) with 128.
    pose proof (pow2_pos P ltac:(lia)).
    rewrite (Z.rem_mul_r v (2 ^ P) 128) by lia. fold d.
    unfold wrap. rewrite Zplus_mod_idemp_l.
    rewrite Z.add_mod, Z.mul_mod_idemp_l, <- Z.add_mod by lia.
    do 2 f_equal; [|lia]. f_equal; [|lia]. f_equal. lia.
Qed.

Lemma subid_loop_ber m bufp len v :
  holds m bufp (ber_subid v) -> 0 <= v < 2 ^ 32 -> zlen (ber_subid v) <= len ->
  subid_loop (Z.to_nat len) m bufp len 0 =
  Some (v, bufp + zlen (ber_subid v), len - zlen (ber_subid v)).
Proof.
  intros Hh Hv Hl. rewrite zlen_ber_subid in *. pose proof (subid_size_pos v).
  pose proof (subid_size_bound v (Z.of_nat (subid_size v)) ltac:(lia) ltac:(lia)) as Hb.
  unfold ber_subid in Hh. destruct (subid_size v) as [|k] eqn:E; [lia|].
  rewrite (subid_loop_b128 k _ _ _ v) by (done || lia).
  rewrite Z.mod_small, wrap_small by lia. do 3 f_equal; lia.
Qed.

(** The outer loop stores one component per encoded sub-identifier. *)
Lemma objid_loop_ber vs : forall fuel m bufp oidp objid n,
  holds m bufp (vs ≫= ber_subid) -> Forall (fun v => 0 <= v < 2 ^ 32) vs ->
  zlen (vs ≫= ber_subid) <= Z.of_nat fuel ->
  0 <= oidp -> Z.of_nat (length vs) <= n < 2 ^ 64 -> oidp + Z.of_nat (length vs) <= zlen objid ->
  objid_loop fuel m bufp oidp (zlen (vs ≫= ber_subid)) objid n =
  Some (Next (bufp + zlen (vs ≫= ber_subid), oidp + Z.of_nat (length vs), 0,
              patch objid oidp vs, n - Z.of_nat (length vs))).
Proof.
  induction vs as [|v vs IH]; intros fuel m bufp oidp objid n Hh Hv Hf Ho Hn Hc.
  { destruct fuel; simpl; rewrite patch_nil; result_eq; unfold zlen; simpl; lia. }
  change ((v :: vs) ≫= ber_subid) with (ber_subid v ++ (vs ≫= ber_subid)) in *.
  apply (Forall_cons_1 _ v vs) in Hv as [Hv Hvs]. apply holds_app in Hh as [Hh1 Hh2].
  fold (zlen (ber_subid v)) in Hh2. autorewrite with zlen in *.
  pose proof (subid_size_pos v). pose proof (zlen_ber_subid v) as Hz.
  set (L := zlen (vs ≫= ber_subid)) in *. pose proof (zlen_nonneg (vs ≫= ber_subid)). fold L in H0.
  simpl length in *. destruct fuel as [|fuel]; [lia|]. cbn [objid_loop].
  rewrite (proj2 (Z.ltb_lt 0 _)), (proj2 (Z.ltb_lt 0 n)) by lia. cbn [negb].
  rewrite (subid_loop_ber m bufp _ v) by (done || lia). simpl.
  replace (zlen (ber_subid v) + L - zlen (ber_subid v)) with L by lia.
  assert (Hlast : peek m (bufp + zlen (ber_subid v) - 1) = Some (v mod 128)).
  { unfold ber_subid in *. destruct (b128_last (subid_size v) v) as [l Hl]; [done|].
    rewrite Hl in *. apply holds_app in Hh1 as [_ Hh1]. apply holds_peek in Hh1.
    autorewrite with zlen. rewrite <- Hh1. f_equal. unfold zlen. lia. }
  rewrite Hlast. simpl. pose proof (Z.mod_pos_bound v 128 ltac:(lia)).
  unfold ASN_BIT8. rewrite land_0x80 by (unfold is_byte; lia).
  rewrite (proj2 (Z.leb_gt 128 _)) by lia. simpl.
  replace (if L =? 0 then Some false else Some false) with (Some false) by (by destruct (L =? 0)).
  simpl. unfold MAX_SUBID. rewrite (proj2 (Z.ltb_ge _ v)) by lia.
  rewrite poke_patch by (unfold zlen in *; lia). simpl. rewrite wrap_small by lia.
  subst L. rewrite IH; try done; try lia.
  - rewrite patch_patch by (simpl; unfold zlen in *; lia). result_eq.
  - unfold zlen in *. rewrite length_patch; simpl; lia.
Qed.

Lemma poke_second a b l y : poke (a :: b :: l) 1 y = Some (a :: y :: l).
Proof. by rewrite poke_in_range by (simpl; lia). Qed.

Lemma objid_first_two_ber x y z rest :
  0 <= x <= 2 -> 0 <= y -> (x < 2 -> y < 40) ->
  objid_first_two (z :: (40 * x + y) :: rest) = Some (x :: y :: rest).
Proof.
  intros Hx Hy Hxy. unfold objid_first_two. simpl.
  assert (x = 0 \/ x = 1 \/ x = 2) as [->|[->| ->]] by lia;
    rewrite !poke_second;
    repeat match goal with |- context [if ?b then _ else _] => destruct b eqn:? end;
    bool_prop; try lia; result_eq; do 2 f_equal; lia.
Qed.

Lemma objid_patched_ber objid x y rest vs :
  vs = (40 * x + y) :: rest -> 0 <= x <= 2 -> 0 <= y -> (x < 2 -> y < 40) -> 2 <= zlen objid ->
  objid_first_two (patch objid 1 vs) = Some (patch objid 0 (x :: y :: rest)).
Proof.
  intros -> Hx Hy Hxy Hl. destruct objid as [|z [|w tl]]; [done..|].
  apply (objid_first_two_ber x y z (rest ++ drop (length rest) tl)); done.
Qed.

(** An identifier the protocol can carry: two components at least, the first
    two in the ranges X.660 gives them, sub-identifiers of 32 bits. *)
Definition wire_oid (o : list Z) : Prop :=
  match o with
  | x :: y :: rest =>
    0 <= x <= 2 /\ 0 <= y /\ (x < 2 -> y < 40) /\ 40 * x + y < 2 ^ 32 /\
    Forall (fun v => 0 <= v < 2 ^ 32) rest
  | _ => False
  end.

Lemma asn_parse_objid_tlv m data s o objid n :
  wire_oid o -> tlv_at m data ASN_OBJECT_ID (ber_oid o) (datalength s) ->
  out s = (objid, n) -> zlen o <= n <= zlen objid -> zlen objid < 2 ^ 31 ->
  asn_parse_objid m data s =
  Some (mkpout (datalength s - zlen (tlv ASN_OBJECT_ID (ber_oid o))) ASN_OBJECT_ID
               (patch objid 0 o, zlen o),
        Ptr (data + zlen (tlv ASN_OBJECT_ID (ber_oid o)))).
Proof.
  intros Ho Hat Hs Hn Hm. unfold asn_parse_objid. rewrite Hs. enter_tlv Hat.
  destruct o as [|x [|y rest]]; [done..|]. destruct Ho as (Hx & Hy & Hxy & Hf & Hr).
  destruct Hat as (_ & Hb & Hz & Hd). pose proof (zlen_ber_subid (40 * x + y)).
  pose proof (subid_size_pos (40 * x + y)). pose proof (zlen_nonneg (rest ≫= ber_subid)).
  assert (Hpos : 0 < zlen (ber_oid (x :: y :: rest))) by (simpl; rewrite zlen_app; lia).
  change (ber_oid (x :: y :: rest)) with (((40 * x + y) :: rest) ≫= ber_subid) in *.
  assert (Hvs : Forall (fun v => 0 <= v < 2 ^ 32) ((40 * x + y) :: rest)) by (constructor; [lia|done]).
  assert (Hlen : Z.of_nat (length ((40 * x + y) :: rest)) = zlen (x :: y :: rest) - 1)
    by (unfold zlen; simpl length; lia).
  remember ((40 * x + y) :: rest) as vs eqn:Evs.
  rewrite s32_len by lia. unfold objid_empty. rewrite (proj2 (Z.eqb_neq _ 0)) by lia. simpl.
  rewrite (wrap_small 64 (n - 1)) by (autorewrite with zlen in *; pose proof (zlen_nonneg rest); lia).
  rewrite objid_loop_ber; try done; try lia.
  pose proof (zlen_nonneg rest).
  simpl. rewrite (objid_patched_ber _ x y rest) by (done || (autorewrite with zlen in *; lia)). simpl.
  rewrite zlen_tlv in *. unfold set_out, set_datalength. simpl.
  rewrite Hlen. autorewrite with zlen in *.
  rewrite (swrap_small 32) by lia. rewrite !wrap_small by lia. result_eq.
  do 2 f_equal; lia.
Qed.
