(* ===== verification/Asn1ParseWide.v ===== *)
(** What the parsers of 64-bit integers, floating-point values and headers
    return on an encoding. *)
From Stdlib Require Import ZArith Lia.
From S2P Require Import Prelude Asn1Defs Ber Asn1Parse Asn1ParseProps.

#[local] Arguments asn_parse_length : simpl never.
#[local] Arguments parse_length_checked : simpl never.

(** * Counters of two 32-bit halves *)

(** The counter that holds [v] modulo [2^64]. *)
Definition split64 (v : Z) : counter64 := Counter64 ((v / 2 ^ 32) mod 2 ^ 32) (v mod 2 ^ 32).

Definition cval (c : counter64) : Z := high c * 2 ^ 32 + low c.

Definition c64_ok (c : counter64) : Prop := 0 <= high c < 2 ^ 32 /\ 0 <= low c < 2 ^ 32.

Lemma split64_ok v : c64_ok (split64 v).
Proof. split; apply Z.mod_pos_bound; lia. Qed.

Lemma cval_split64 v : cval (split64 v) = v mod 2 ^ 64.
Proof.
  unfold cval, split64. simpl high. simpl low. change (2 ^ 64) with (2 ^ 32 * 2 ^ 32).
  rewrite Z.rem_mul_r by lia. lia.
Qed.

Lemma split64_cval c : c64_ok c -> split64 (cval c) = c.
Proof.
  destruct c as [h l]. unfold c64_ok, split64, cval. simpl. intros [Hh Hl]. f_equal.
  - rewrite Z.div_add_l, (Z.div_small l), Z.add_0_r by lia. apply Z.mod_small. lia.
  - rewrite Z.add_comm, Z_mod_plus_full. apply Z.mod_small. lia.
Qed.

Lemma split64_mod v : split64 (v mod 2 ^ 64) = split64 v.
Proof. rewrite <- cval_split64. apply split64_cval, split64_ok. Qed.

Lemma shift_in_split v b : is_byte b -> shift_in (split64 v) b = split64 (v * 256 + b).
Proof.
  intros Hb. unfold is_byte in Hb. unfold shift_in, split64. simpl high. simpl low.
  rewrite (Z.land_comm 16777215), Z.shiftr_land.
  change 16777215 with (2 ^ 24 - 1). change (Z.shiftr 4278190080 24) with (2 ^ 8 - 1).
  rewrite !land_ones_mod, !Z.shiftl_mul_pow2, Z.shiftr_div_pow2 by lia.
  rewrite !lor_disjoint by (lia || apply Z.mod_pos_bound; lia).
  change (2 ^ 32) with 4294967296. change (2 ^ 24) with 16777216. change (2 ^ 8) with 256.
  f_equal; Z.to_euclidean_division_equations; lia.
Qed.

#[global] Arguments split64 : simpl never.

(** A sign extended to 56 bits is enough: the first byte shifts the rest out. *)
Lemma shift_in_sign b :
  is_byte b -> shift_in (Counter64 0xFFFFFF 0xFFFFFFFF) b = split64 (-1 * 256 + b).
Proof. intros Hb. by rewrite <- shift_in_split. Qed.

Lemma int64_loop_split n m p v bs :
  holds m p bs -> bytes bs -> length bs = n ->
  int64_loop n m p (split64 v) = Some (split64 (be_value v bs), p + Z.of_nat n).
Proof.
  revert p v bs. induction n as [|n IH]; intros p v [|b bs] Hh Hb Hl; try done.
  - simpl. by rewrite Z.add_0_r.
  - apply Forall_cons_1 in Hb as [Hb Hbs]. simpl in Hl. simpl.
    rewrite (holds_peek _ _ _ _ Hh). simpl. rewrite shift_in_split by done.
    rewrite (IH _ _ bs); [|by eapply holds_tail|done|lia]. rewrite be_value_cons. result_eq.
Qed.

Lemma check_split64 v :
  Counter64 (CHECK_OVERFLOW_U (high (split64 v))) (CHECK_OVERFLOW_U (low (split64 v))) = split64 v.
Proof. destruct (split64_ok v). rewrite !CHECK_OVERFLOW_U_id by done. by destruct (split64 v). Qed.

(** * Values wrapped in an Opaque *)

(** The contents of an Opaque that holds a value of one of the special types. *)
Definition opaque_contents (t : Z) (c : list Z) : list Z := ASN_OPAQUE_TAG1 :: tlv t c.

Definition opaque_tlv (t : Z) (c : list Z) : list Z := tlv ASN_OPAQUE (opaque_contents t c).

Definition opaque_at (m : list Z) (data t : Z) (c : list Z) (dl : Z) : Prop :=
  tlv_at m data ASN_OPAQUE (opaque_contents t c) dl /\ zlen c <= 9.

Lemma zlen_opaque t c : 
  zlen c <= 9 -> zlen (opaque_contents t c) = zlen c + 3 /\ zlen (opaque_tlv t c) = zlen c + 5.
Proof.
  intros Hc. unfold opaque_tlv, opaque_contents. pose proof (zlen_nonneg c).
  rewrite !zlen_tlv, !zlen_cons, zlen_tlv, (ber_length_short (zlen c)) by lia.
  change (zlen [zlen c]) with 1. rewrite (ber_length_short (_ + 1)) by lia.
  rewrite zlen_cons, zlen_nil. lia.
Qed.

(** Everything a parser looks at before the contents. *)
Lemma opaque_at_header m data t c dl :
  opaque_at m data t c dl ->
  peek m data = Some ASN_OPAQUE /\
  parse_length_checked m (data + 1) data dl = Some (Some (zlen c + 3, data + 2)) /\
  peek m (data + 2) = Some ASN_OPAQUE_TAG1 /\ peek m (data + 2 + 1) = Some t /\
  parse_length_checked m (data + 2 + 2) data dl = Some (Some (zlen c, data + 5)) /\
  holds m (data + 5) c /\ bytes c /\ 0 <= zlen c /\ zlen c + 5 <= dl < 2 ^ 64.
Proof.
  intros [Hat Hl]. pose proof (zlen_nonneg c).
  pose proof (zlen_opaque t c Hl) as [Hz1 Hz2]. pose proof Hat as (Ht & Hp & Hc & Hs)%tlv_at_header.
  rewrite Hz1, ber_length_short in * by lia. change (zlen [zlen c + 3]) with 1 in *.
  replace (data + 1 + 1) with (data + 2) in * by lia.
  destruct Hat as (_ & Hb & _ & Hd). fold (opaque_tlv t c) in Hd. rewrite Hz2 in Hd.
  apply Forall_cons_1 in Hb as [_ [_ [_ Hb]%Forall_app]%Forall_cons_1].
  apply holds_cons in Hc as [Hc1 Hc2]. apply holds_tlv in Hc2 as (Hc2 & Hc3 & Hc4).
  rewrite ber_length_short in Hc3, Hc4 by lia. change (zlen [zlen c]) with 1 in Hc4.
  replace (data + 2 + 2) with (data + 2 + 1 + 1) by lia.
  rewrite (parse_length_checked_ber m (data + 2 + 1 + 1) data dl (zlen c));
    rewrite ?ber_length_short; change (zlen [zlen c]) with 1; try done; try lia.
  replace (data + 2 + 1 + 1 + 1) with (data + 5) in * by lia. split_and!; done || lia.
Qed.

Ltac enter_opaque H :=
  let Ht := fresh "Ht" in let Hp := fresh "Hp" in let H1 := fresh "H1" in
  let H2 := fresh "H2" in let Hp2 := fresh "Hp2" in
  pose proof H as (Ht & Hp & H1 & H2 & Hp2 & ? & ? & ? & ?)%opaque_at_header;
  rewrite Ht; simpl; rewrite Hp; unfold and_byte_is; simpl;
  repeat progress (rewrite ?H1, ?H2, ?Hp2; simpl);
  clear Ht Hp H1 H2 Hp2.

(** ** 64-bit integers *)

(** Contents the unsigned parser accepts: at most 9 octets, the ninth a zero. *)
Definition u64_contents (c : list Z) : Prop :=
  zlen c <= 8 \/ (zlen c = 9 /\ head c = Some 0).

Lemma u64_guard m p c :
  u64_contents c -> holds m p c ->
  and_nonzero (zlen c =? int64sizelimit) m p = Some false /\ (int64sizelimit <? zlen c) = false.
Proof.
  intros Hc Hh. unfold and_nonzero. change int64sizelimit with 9.
  split; [|apply Z.ltb_ge; destruct Hc; lia].
  destruct Hc as [Hc|[Hc Hd]]; [by rewrite (proj2 (Z.eqb_neq _ _)) by lia|].
  rewrite Hc, Z.eqb_refl. destruct c as [|b c]; [done|]. injection Hd as ->.
  by rewrite (holds_peek _ _ _ _ Hh).
Qed.

(** The end of both parsers: accumulate, clamp, account for the bytes. *)
Lemma int64_finish m p c (s : pout counter64) v k :
  holds m p c -> bytes c -> 0 <= k -> zlen c + k <= datalength s < 2 ^ 64 ->
  ('(r, bufp) ← int64_loop (Z.to_nat (zlen c)) m p (split64 v);
   Some (set_out (set_datalength s (u64 (datalength s - (zlen c + k))))
           (Counter64 (CHECK_OVERFLOW_U (high r)) (CHECK_OVERFLOW_U (low r))), Ptr bufp)) =
  Some (mkpout (datalength s - (zlen c + k)) (type s) (split64 (be_value v c)), Ptr (p + zlen c)).
Proof.
  intros Hh Hb Hk Hd. pose proof (zlen_nonneg c).
  rewrite (int64_loop_split _ _ _ _ c); [|done|done|unfold zlen; lia]. cbn [mbind option_bind].
  rewrite check_split64. unfold set_out, set_datalength. simpl.
  rewrite wrap_small by lia. result_eq.
Qed.

Lemma asn_parse_unsigned_int64_tlv m data s c :
  tlv_at m data ASN_COUNTER64 c (datalength s) -> u64_contents c ->
  asn_parse_unsigned_int64 m data s sizeof_counter64 =
  Some (mkpout (datalength s - zlen (tlv ASN_COUNTER64 c)) ASN_COUNTER64 (split64 (be_value 0 c)),
        Ptr (data + zlen (tlv ASN_COUNTER64 c))).
Proof.
  intros Hat Hn. unfold asn_parse_unsigned_int64. rewrite Z.eqb_refl. simpl. enter_tlv Hat.
  destruct Hat as (_ & Hb & Hz & Hd). destruct (u64_guard _ _ _ Hn Hc) as [Hg1 Hg2].
  simpl. rewrite s32_len by lia. rewrite Hg1, Hg2. simpl. rewrite zlen_tlv in *.
  change (Counter64 0 0) with (split64 0).
  rewrite (int64_finish _ _ _ (set_type (set_type s _) _)) by (done || simpl; lia).
  simpl. result_eq. f_equal; lia.
Qed.

Lemma asn_parse_unsigned_int64_opaque m data s t c :
  t = ASN_OPAQUE_COUNTER64 \/ t = ASN_OPAQUE_U64 ->
  opaque_at m data t c (datalength s) -> u64_contents c ->
  asn_parse_unsigned_int64 m data s sizeof_counter64 =
  Some (mkpout (datalength s - zlen (opaque_tlv t c)) t (split64 (be_value 0 c)),
        Ptr (data + zlen (opaque_tlv t c))).
Proof.
  intros Ht Hat Hn. unfold asn_parse_unsigned_int64. rewrite Z.eqb_refl. simpl.
  pose proof (proj2 Hat) as Hl. destruct (zlen_opaque t c Hl) as [_ Hz].
  pose proof Hat as (H1 & H2 & H3 & H4 & H5 & H6 & H7 & H8 & H9)%opaque_at_header.
  rewrite H1. simpl. rewrite H2. unfold ASN_OPAQUE_COUNTER64_MX_BER_LEN, and_byte_is.
  rewrite (proj2 (Z.leb_le _ _)) by lia. simpl. rewrite H3, H4. simpl. rewrite ?H4.
  destruct (u64_guard _ _ _ Hn H6) as [Hg1 Hg2]. change (Counter64 0 0) with (split64 0).
  destruct Ht as [->| ->]; simpl; rewrite H5, s32_len, Hg1, Hg2 by lia; simpl;
    rewrite (int64_finish _ _ _ (set_type (set_type s _) _)) by (done || simpl; lia);
    simpl; rewrite Hz; result_eq; f_equal; lia.
Qed.

Lemma asn_parse_signed_int64_opaque m data s c :
  opaque_at m data ASN_OPAQUE_I64 c (datalength s) -> 1 <= zlen c <= 8 ->
  asn_parse_signed_int64 m data s sizeof_counter64 =
  Some (mkpout (datalength s - zlen (opaque_tlv ASN_OPAQUE_I64 c)) ASN_OPAQUE_I64 (split64 (twos c)),
        Ptr (data + zlen (opaque_tlv ASN_OPAQUE_I64 c))).
Proof.
  intros Hat Hn. unfold asn_parse_signed_int64. rewrite Z.eqb_refl. simpl.
  destruct (zlen_opaque ASN_OPAQUE_I64 c (proj2 Hat)) as [_ Hz].
  pose proof Hat as (H1 & H2 & H3 & H4 & H5 & H6 & H7 & H8 & H9)%opaque_at_header.
  rewrite H1. simpl. rewrite H2. unfold ASN_OPAQUE_COUNTER64_MX_BER_LEN, and_byte_is.
  rewrite (proj2 (Z.leb_le _ _)) by lia. simpl. rewrite H3. simpl. rewrite H4. simpl. rewrite ?H4.
  simpl. rewrite H5, s32_len by lia.
  destruct (u64_guard m (data + 5) c (or_introl (proj2 Hn)) H6) as [Hg1 Hg2]. rewrite Hg1, Hg2. simpl.
  destruct c as [|b c]; [change (zlen []) with 0 in Hn; lia|].
  pose proof H7 as [Hb Hbs]%Forall_cons_1.
  rewrite (holds_peek _ _ _ _ H6). simpl. rewrite sign_of_first by done.
  assert (Hloop : int64_loop (Z.to_nat (zlen (b :: c))) m (data + 5)
                    (if 128 <=? b then Counter64 0xFFFFFF 0xFFFFFFFF else Counter64 0 0) =
                  int64_loop (Z.to_nat (zlen (b :: c))) m (data + 5)
                    (split64 (if 128 <=? b then -1 else 0))).
  { unfold zlen. rewrite Nat2Z.id. simpl. rewrite (holds_peek _ _ _ _ H6). simpl.
    destruct (128 <=? b); [|done]. rewrite shift_in_sign, shift_in_split by done. done. }
  rewrite Hloop, (int64_finish _ _ _ (set_type (set_type s _) _)) by (done || simpl; lia).
  rewrite <- twos_cons, Hz by done. simpl. result_eq. f_equal; lia.
Qed.

(** ** Floating point

    [asn_parse_float] and [asn_parse_double] account for the whole object in
    [*datalength], but the pointer they return is that of the contents octets,
    not the first byte past them. *)

Lemma ntohl_le_value bs : length bs = 4%nat -> bytes bs -> ntohl (le_value bs) = be_value 0 bs.
Proof.
  intros Hl Hb. unfold ntohl, le_value. rewrite <- (reverse_involutive bs) at 2.
  unfold le_bytes. f_equal. f_equal. rewrite <- length_reverse in Hl. rewrite <- Hl.
  apply be_bytes_be_value. by apply Forall_reverse.
Qed.

Lemma be_bytes_4 bs : length bs = 4%nat -> bytes bs -> be_bytes 4 (be_value 0 bs) = bs.
Proof. intros <-. apply be_bytes_be_value. Qed.

Lemma asn_parse_float_opaque m data s c :
  opaque_at m data ASN_OPAQUE_FLOAT c (datalength s) -> zlen c = 4 ->
  asn_parse_float m data s sizeof_float =
  Some (mkpout (datalength s - zlen (opaque_tlv ASN_OPAQUE_FLOAT c)) ASN_OPAQUE_FLOAT (be_value 0 c),
        Ptr (data + 5)).
Proof.
  intros Hat Hn. unfold asn_parse_float. rewrite Z.eqb_refl. simpl.
  destruct (zlen_opaque ASN_OPAQUE_FLOAT c (proj2 Hat)) as [_ Hz].
  pose proof Hat as (H1 & H2 & H3 & H4 & H5 & H6 & H7 & H8 & H9)%opaque_at_header.
  pose proof (holds_peek_n _ _ _ H6) as H10. fold (zlen c) in H10. rewrite Hn in *.
  rewrite H1. simpl. rewrite H2. unfold and_byte_is. simpl. rewrite H3. simpl. rewrite H4. simpl.
  rewrite H5. simpl. rewrite H10. simpl.
  rewrite ntohl_le_value by (done || unfold zlen in *; lia).
  unfold set_out, set_datalength. simpl. change (s32 4) with 4. rewrite wrap_small by lia.
  rewrite Hz. result_eq. f_equal; lia.
Qed.

Lemma double_of_wire_be c : length c = 8%nat -> bytes c -> double_of_wire c = be_value 0 c.
Proof.
  intros Hl Hb. unfold double_of_wire.
  assert (length (take 4 c) = 4%nat /\ length (drop 4 c) = 4%nat) as [H1 H2]
    by (rewrite length_take, length_drop; lia).
  assert (bytes (take 4 c) /\ bytes (drop 4 c)) as [H3 H4] by auto using Forall_take, Forall_drop.
  rewrite !ntohl_le_value by done.
  unfold le_value, le_bytes. rewrite reverse_app, be_value_app, !reverse_involutive.
  by rewrite !be_bytes_4, <- be_value_app, take_drop by done.
Qed.

Lemma asn_parse_double_opaque m data s c :
  opaque_at m data ASN_OPAQUE_DOUBLE c (datalength s) -> zlen c = 8 ->
  asn_parse_double m data s sizeof_double =
  Some (mkpout (datalength s - zlen (opaque_tlv ASN_OPAQUE_DOUBLE c)) ASN_OPAQUE_DOUBLE (be_value 0 c),
        Ptr (data + 5)).
Proof.
  intros Hat Hn. unfold asn_parse_double. rewrite Z.eqb_refl. simpl.
  destruct (zlen_opaque ASN_OPAQUE_DOUBLE c (proj2 Hat)) as [_ Hz].
  pose proof Hat as (H1 & H2 & H3 & H4 & H5 & H6 & H7 & H8 & H9)%opaque_at_header.
  pose proof (holds_peek_n _ _ _ H6) as H10. fold (zlen c) in H10. rewrite Hn in *.
  rewrite H1. simpl. rewrite H2. unfold and_byte_is. simpl. rewrite H3. simpl. rewrite H4. simpl.
  rewrite H5. simpl. rewrite H10. cbn [mbind option_bind].
  rewrite double_of_wire_be by (done || unfold zlen in *; lia).
  unfold set_out, set_datalength. simpl. change (s32 8) with 8. rewrite wrap_small by lia.
  rewrite Hz. result_eq. f_equal; lia.
Qed.

(** ** Headers *)

Lemma asn_parse_header_tlv m data s t c :
  tlv_at m data t c (datalength s) -> IS_EXTENSION_ID t = false ->
  (t = ASN_OPAQUE -> forall tl, c <> ASN_OPAQUE_TAG1 :: tl) -> (t = ASN_OPAQUE -> c <> []) ->
  asn_parse_header m (Ptr data) s =
  Some (mkpout (zlen c) t (out s), Ptr (data + 1 + zlen (ber_length (zlen c)))).
Proof.
  intros Hat Hx Hno Hne. unfold asn_parse_header. pose proof Hat as (_ & _ & Hz & _).
  pose proof Hat as (Ht & Hp & Hc & H0 & H1 & H2)%tlv_at_header. rewrite Ht. simpl. rewrite Hx.
  simpl. rewrite Hp. unfold and_byte_is, set_datalength, set_type.
  assert (Hfin : forall s' : pout unit, s' = mkpout (u64 (s32 (zlen c))) t (out s) ->
    Some (s', Ptr (data + 1 + zlen (ber_length (zlen c)))) =
    Some (mkpout (zlen c) t (out s), Ptr (data + 1 + zlen (ber_length (zlen c))))).
  { intros s' ->. by rewrite s32_len, wrap_small by lia. }
  destruct (Z.eqb_spec t ASN_OPAQUE) as [->|]; simpl; [|by apply Hfin].
  destruct c as [|b c]; [by destruct Hne|]. rewrite (holds_peek _ _ _ _ Hc). simpl.
  destruct (Z.eqb_spec b ASN_OPAQUE_TAG1) as [->|]; [by destruct (Hno eq_refl c)|by apply Hfin].
Qed.

Lemma asn_parse_header_opaque m data s t c :
  opaque_at m data t c (datalength s) -> is_opaque_special t = true ->
  asn_parse_header m (Ptr data) s = Some (mkpout (zlen c) t (out s), Ptr (data + 5)).
Proof.
  intros Hat Ht. unfold asn_parse_header. pose proof (proj2 Hat) as Hl.
  pose proof Hat as (H1 & H2 & H3 & H4 & H5 & H6 & H7 & H8 & H9)%opaque_at_header.
  rewrite H1. simpl. rewrite H2. unfold and_byte_is. simpl. rewrite H3. simpl. rewrite H4. simpl.
  rewrite Ht, H5. unfold set_datalength, set_type. simpl.
  by rewrite s32_len, wrap_small by lia.
Qed.

Lemma asn_parse_sequence_header m data s ty :
  asn_parse_sequence m data s ty =
  ('(s', p) ← asn_parse_header m data s;
   Some (s', if type s' =? ty then p else NULL)).
Proof.
  unfold asn_parse_sequence. destruct (asn_parse_header m data s) as [[s' [|p]]|]; simpl; try done.
  - by destruct (_ =? _).
  - by destruct (_ =? _).
Qed.

(** ** Framing of a byte stream: [asn_check_packet] *)

Lemma ber_length_octets n :
  0 <= n -> zlen (ber_length n) = if n <? 128 then 1 else 1 + Z.of_nat (len_octets n).
Proof.
  intros. unfold ber_length. destruct (n <? 128); [done|]. autorewrite with zlen. lia.
Qed.

(** [len] bytes that start with a message or are the start of one: nothing is
    decided before the header is complete, then the size of the whole message is
    known. *)
Lemma asn_check_packet_holds b len c junk :
  zlen (tlv 0x30 c) < 2 ^ 31 -> 0 <= len < 2 ^ 31 -> holds b 0 (take (Z.to_nat len) (tlv 0x30 c)) ->
  asn_check_packet b len junk =
  Some (if len <? 1 + zlen (ber_length (zlen c)) then 0 else zlen (tlv 0x30 c)).
Proof.
  intros Hsz Hlen Hh. unfold asn_check_packet. pose proof (zlen_nonneg c). pose proof (zlen_tlv 0x30 c) as Hz.
  assert (Hk : 1 <= zlen (ber_length (zlen c)) <= 5) by (pose proof (zlen_nonneg (ber_length (zlen c))); apply zlen_ber_length; lia).
  destruct (Z.ltb_spec len 2); [by rewrite (proj2 (Z.ltb_lt _ _)) by lia|].
  remember (Z.to_nat len) as n eqn:Hn. destruct n as [|[|n]]; [lia..|].
  assert (H1 : forall x l, tlv 0x30 c = 0x30 :: x :: l -> peek b 0 = Some 0x30 /\ peek b 1 = Some x /\ holds b 1 (x :: take n l)).
  { intros x l Hl. rewrite Hl in Hh. change (take _ _) with (0x30 :: x :: take n l) in Hh.
    pose proof (holds_peek _ _ _ _ Hh). apply holds_tail in Hh. pose proof (holds_peek _ _ _ _ Hh). done. }
  unfold ber_length in *. unfold tlv in *. unfold ber_length in *. destruct (Z.ltb_spec (zlen c) 128).
  - destruct (H1 _ _ eq_refl) as (-> & -> & _). simpl. rewrite land_0x80 by (unfold is_byte; lia).
    rewrite (proj2 (Z.leb_gt _ _)) by lia. simpl.
    change (zlen [zlen c]) with 1. rewrite (proj2 (Z.ltb_ge _ _)) by lia. result_eq.
    autorewrite with zlen. lia.
  - set (k := len_octets (zlen c)) in *. pose proof (len_octets_pos (zlen c)). fold k in H3.
    destruct (H1 (128 + Z.of_nat k) (be_bytes k (zlen c) ++ c) eq_refl) as (-> & -> & Hl). simpl.
    autorewrite with zlen in Hsz, Hz, Hk |- *.
    assert (Hb : is_byte (128 + Z.of_nat k)) by (unfold is_byte; lia).
    rewrite land_0x80 by done. rewrite (proj2 (Z.leb_le _ _)) by lia. simpl.
    rewrite (land_lnot_0x80 _ Hb), (swrap_small 32) by lia.
    rewrite Z.add_mod, Z.mod_same, Z.add_0_l, Z.mod_mod, Z.mod_small by lia.
    destruct (Z.ltb_spec len (Z.of_nat k + 2)); [by rewrite (proj2 (Z.ltb_lt _ _)) by lia|].
    rewrite (proj2 (Z.ltb_ge len _)) by lia.
    rewrite (asn_parse_length_ber _ _ (zlen c)); [|  |lia].
    + simpl. rewrite wrap_small, swrap_small by lia. result_eq.
    + unfold ber_length. rewrite (proj2 (Z.ltb_ge _ _)) by lia. fold k.
      rewrite take_app, take_ge, length_be_bytes in Hl by (rewrite length_be_bytes; lia).
      by apply (holds_app b 1 ((128 + Z.of_nat k) :: be_bytes k (zlen c))) in Hl as [Hl _].
Qed.

Lemma asn_check_packet_prefix c n junk :
  zlen (tlv 0x30 c) < 2 ^ 31 ->
  let len := zlen (take n (tlv 0x30 c)) in
  asn_check_packet (take n (tlv 0x30 c)) len junk =
  Some (if len <? 1 + zlen (ber_length (zlen c)) then 0 else zlen (tlv 0x30 c)).
Proof.
  intros Hsz len. assert (Hlen : len <= zlen (tlv 0x30 c)) by (subst len; unfold zlen; rewrite length_take; lia).
  pose proof (zlen_nonneg (take n (tlv 0x30 c))). apply asn_check_packet_holds; [done|lia|].
  exists [], []. rewrite app_nil_r. split; [|done]. cbn [app]. subst len. unfold zlen.
  by rewrite Nat2Z.id, length_take, <- firstn_firstn, firstn_all.
Qed.
