(* ===== verification/Asn1Build.v ===== *)
(** The forward BER builders of [snmplib/asn1.c] ([asn_build_*]).

    A builder gets the object [m] it writes into, the offset [data] of its
    output and the value [dl] of [*datalength]; it returns the final contents of
    the object, the final [*datalength] and the pointer the C function returns.
    [None] is an access outside an object.  What a failing builder has already
    written stays written. *)
From Stdlib Require Import ZArith Lia.
From S2P Require Import Prelude Asn1Defs Asn1Parse.

Definition bres : Type := (list Z * Z * ptr)%type.

(** [true] is the C result 1. *)
Definition _asn_build_header_check (data : ptr) (datalen typedlen : Z) : bool :=
  match data with
  | NULL => true
  | Ptr _ => datalen <? typedlen
  end.

Definition asn_build_length (m : list Z) (data dl length : Z) : option bres :=
  if length <? 0x80 then
    if dl <? 1 then Some (m, dl, NULL)
    else
      m ← poke m data (u8 length);
      Some (m, u64 (dl - 1), Ptr (data + 1))
  else if length <=? 0xFF then
    if dl <? 2 then Some (m, dl, NULL)
    else
      m ← poke m data (Z.lor 0x01 ASN_LONG_LEN);
      m ← poke m (data + 1) (u8 length);
      Some (m, u64 (dl - 2), Ptr (data + 2))
  else
    if dl <? 3 then Some (m, dl, NULL)
    else
      m ← poke m data (Z.lor 0x02 ASN_LONG_LEN);
      m ← poke m (data + 1) (Z.land (Z.shiftr length 8) 0xFF);
      m ← poke m (data + 2) (Z.land length 0xFF);
      Some (m, u64 (dl - 3), Ptr (data + 3)).

Definition asn_build_header (m : list Z) (data dl type length : Z) : option bres :=
  if dl <? 1 then Some (m, dl, NULL)
  else
    m ← poke m data type;
    asn_build_length m (data + 1) (u64 (dl - 1)) length.

Definition asn_build_sequence (m : list Z) (data dl type length : Z) : option bres :=
  if dl <? 4 then Some (m, dl, NULL)
  else
    let dl := u64 (dl - 4) in
    m ← poke m data type;
    m ← poke m (data + 1) (Z.lor 0x02 ASN_LONG_LEN);
    m ← poke m (data + 2) (Z.land (Z.shiftr length 8) 0xFF);
    m ← poke m (data + 3) (Z.land length 0xFF);
    Some (m, dl, Ptr (data + 4)).

(** [data = asn_build_header(data, datalength, type, n);
     if (_asn_build_header_check(..., data, *datalength, n)) return NULL; k] *)
Definition with_header (m : list Z) (data dl type n : Z)
    (k : list Z -> Z -> Z -> option bres) : option bres :=
  '(m, dl, data) ← asn_build_header m data dl type n;
  if _asn_build_header_check data dl n then Some (m, dl, NULL)
  else match data with
       | NULL => Some (m, dl, NULL)
       | Ptr data => k m data dl
       end.

(** ** Integers *)

(** The top 9 bits of a [long] and the test for redundant leading octets. *)
Definition mask9 : Z := Z.shiftl 0x1FF (8 * (sizeof_long - 1) - 1).
Definition redundant (integer : Z) : bool :=
  (Z.land integer mask9 =? 0) || (Z.land integer mask9 =? mask9).

(** [while (redundant && intsize > 1) { intsize--; integer <<= 8; }];
    [wr] is the wrap-around of the type of [integer]. *)
Fixpoint trunc_loop (wr : Z -> Z) (intsize : nat) (integer : Z) : nat * Z :=
  match intsize with
  | S (S _ as n) =>
    if redundant integer then trunc_loop wr n (wr (Z.shiftl integer 8)) else (intsize, integer)
  | _ => (intsize, integer)
  end.

Definition top_octet (integer : Z) : Z :=
  u8 (Z.shiftr (Z.land integer (Z.shiftl 0xFF (8 * (sizeof_long - 1)))) (8 * (sizeof_long - 1))).

(** [while (intsize--) { *data++ = top octet; integer <<= 8; }] *)
Fixpoint store_loop (wr : Z -> Z) (n : nat) (m : list Z) (data integer : Z) : option (list Z * Z) :=
  match n with
  | O => Some (m, data)
  | S k =>
    m ← poke m data (top_octet integer);
    store_loop wr k m (data + 1) (wr (Z.shiftl integer 8))
  end.

Definition asn_build_int (m : list Z) (data dl type integer intsize : Z) : option bres :=
  if negb (intsize =? sizeof_long) then Some (m, dl, NULL)
  else
    let '(n, integer) := trunc_loop s64 (Z.to_nat intsize) (CHECK_OVERFLOW_S integer) in
    with_header m data dl type (Z.of_nat n) (fun m data dl =>
      let dl := u64 (dl - Z.of_nat n) in
      '(m, data) ← store_loop s64 n m data integer;
      Some (m, dl, Ptr data)).

(** [if (add_null_byte == 1) { *data++ = '\0'; intsize--; }] *)
Definition null_byte (add_null_byte : bool) (m : list Z) (data : Z) (n : nat)
  : option (list Z * Z * nat) :=
  if add_null_byte then m ← poke m data 0; Some (m, data + 1, Nat.pred n) else Some (m, data, n).

Definition asn_build_unsigned_int (m : list Z) (data dl type integer intsize : Z) : option bres :=
  if negb (intsize =? sizeof_long) then Some (m, dl, NULL)
  else
    let integer := CHECK_OVERFLOW_U integer in
    let add_null_byte := negb (Z.land (top_octet integer) 0x80 =? 0) in
    let '(n, integer) :=
      if add_null_byte then (Z.to_nat (intsize + 1), integer)
      else trunc_loop u64 (Z.to_nat intsize) integer in
    with_header m data dl type (Z.of_nat n) (fun m data dl =>
      let dl := u64 (dl - Z.of_nat n) in
      '(m, data, n) ← null_byte add_null_byte m data n;
      '(m, data) ← store_loop u64 n m data integer;
      Some (m, dl, Ptr data)).

(** ** Strings; [str] is [None] for a null pointer *)

Definition asn_build_string (m : list Z) (data dl type : Z) (str : option (list Z)) (strlength : Z)
  : option bres :=
  with_header m data dl type strlength (fun m data dl =>
    m ← (if negb (strlength =? 0) then
           match str with
           | None => poke_n m data (replicate (Z.to_nat strlength) 0)
           | Some str => bs ← peek_n str 0 strlength; poke_n m data bs
           end
         else Some m);
    Some (m, u64 (dl - strlength), Ptr (data + strlength))).

Definition asn_build_null (m : list Z) (data dl type : Z) : option bres :=
  asn_build_header m data dl type 0.

Definition asn_build_bitstring (m : list Z) (data dl type : Z) (str : option (list Z)) (strlength : Z)
  : option bres :=
  _ ← (match str with None => Some 0 | Some str => peek str 0 end);
  if _asn_bitstring_check strlength then Some (m, dl, NULL)
  else
    with_header m data dl type strlength (fun m data dl =>
      if 0 <? strlength then
        match str with
        | Some str =>
          bs ← peek_n str 0 strlength;
          m ← poke_n m data bs;
          Some (m, u64 (dl - strlength), Ptr (data + strlength))
        | None => Some (m, dl, NULL)
        end
      else Some (m, u64 (dl - strlength), Ptr (data + strlength))).

(** ** Object identifiers *)

(** Octets a sub-identifier of 32 bits takes. *)
Definition subid_octets (objid_val : Z) : Z :=
  if objid_val <? 0x80 then 1
  else if objid_val <? 0x4000 then 2
  else if objid_val <? 0x200000 then 3
  else if objid_val <? 0x10000000 then 4
  else 5.

(** The loop that fills [objid_size] from cell [i] on and sums up [asnlength];
    at most [objidlength] turns. *)
Fixpoint size_loop (fuel : nat) (objid : list Z) (op i objidlength objid_val : Z)
    (objid_size : list Z) (asnlength : Z) : option (list Z * Z) :=
  match fuel with
  | O => None
  | S k =>
    let objid_val := CHECK_OVERFLOW_U objid_val in
    objid_size ← poke objid_size i (subid_octets objid_val);
    let asnlength := asnlength + subid_octets objid_val in
    if s32 objidlength <=? i + 1 then Some (objid_size, asnlength)
    else
      objid_val ← peek objid op;
      size_loop k objid (op + 1) (i + 1) objidlength objid_val objid_size asnlength
  end.

(** The octets [switch (objid_size[i])] stores. *)
Definition subid_bytes (size objid_val : Z) : list Z :=
  let lead k := u8 (Z.lor (Z.shiftr objid_val k) 0x80) in
  let mid k := u8 (Z.lor (Z.land (Z.shiftr objid_val k) 0x7f) 0x80) in
  let last := u8 (Z.land objid_val 0x07f) in
  if size =? 1 then [u8 objid_val]
  else if size =? 2 then [lead 7; last]
  else if size =? 3 then [lead 14; mid 7; last]
  else if size =? 4 then [lead 21; mid 14; mid 7; last]
  else if size =? 5 then [lead 28; mid 21; mid 14; mid 7; last]
  else [].

(** The loop that stores the sub-identifiers; [n] turns are left. *)
Fixpoint oid_store_loop (n : nat) (objid : list Z) (op i objid_val : Z) (objid_size : list Z)
    (m : list Z) (data : Z) : option (list Z * Z) :=
  match n with
  | O => Some (m, data)
  | S k =>
    '(objid_val, op) ← (if negb (i =? 1) then v ← peek objid op; Some (u32 v, op + 1)
                        else Some (objid_val, op));
    size ← peek objid_size i;
    m ← poke_n m data (subid_bytes size objid_val);
    oid_store_loop k objid op (i + 1) objid_val objid_size m
      (data + Z.of_nat (length (subid_bytes size objid_val)))
  end.

(** The combination of the first two components: [Return tt] is [return NULL],
    [Next (objid_val, objidlength, op)] goes on. *)
Definition objid_first (objid : list Z) (objidlength : Z) : option (flow unit (Z * Z * Z)) :=
  if objidlength =? 0 then Some (Next (0, 2, 0))
  else
    x ← peek objid 0;
    if 2 <? x then Some (Return tt)
    else if objidlength =? 1 then Some (Next (u64 (x * 40), 2, 1))
    else
      y ← peek objid 1;
      if (40 <? y) && (x <? 2) then Some (Return tt)
      else Some (Next (u64 (u64 (x * 40) + y), objidlength, 2)).

(** [objid_size] is a local array; its cells are written before they are read. *)
Definition asn_build_objid (m : list Z) (data dl type : Z) (objid : list Z) (objidlength : Z)
  : option bres :=
  f ← objid_first objid objidlength;
  match f with
  | Return _ => Some (m, dl, NULL)
  | Next (first_objid_val, objidlength, op) =>
    if MAX_OID_LEN <? objidlength then Some (m, dl, NULL)
    else
      '(objid_size, asnlength) ←
        size_loop (Z.to_nat objidlength) objid op 1 objidlength first_objid_val
                  (replicate (Z.to_nat MAX_OID_LEN) 0) 0;
      with_header m data dl type asnlength (fun m data dl =>
        '(m, data) ← oid_store_loop (Z.to_nat (objidlength - 1)) objid 2 1 first_objid_val
                                    objid_size m data;
        Some (m, u64 (dl - asnlength), Ptr data))
  end.

(** ** 64-bit integers *)

(** [high = ((high & 0x00ffffff) << 8) | ((low & mask) >> 24);
     low = (low & 0x00ffffff) << 8;] *)
Definition shift_out (c : counter64) : counter64 :=
  Counter64
    (Z.lor (Z.shiftl (Z.land (high c) 0x00FFFFFF) 8) (Z.shiftr (Z.land (low c) 0xFF000000) 24))
    (Z.shiftl (Z.land (low c) 0x00FFFFFF) 8).

Definition redundant64 (c : counter64) : bool :=
  (Z.land (high c) 0xff800000 =? 0) || (Z.land (high c) 0xff800000 =? 0xff800000).

Fixpoint trunc64_loop (intsize : nat) (c : counter64) : nat * counter64 :=
  match intsize with
  | S (S _ as n) =>
    if redundant64 c then trunc64_loop n (shift_out c) else (intsize, c)
  | _ => (intsize, c)
  end.

Fixpoint store64_loop (n : nat) (m : list Z) (data : Z) (c : counter64) : option (list Z * Z) :=
  match n with
  | O => Some (m, data)
  | S k =>
    m ← poke m data (u8 (Z.shiftr (high c) 24));
    store64_loop k m (data + 1) (shift_out c)
  end.

(** The Opaque wrapper: header, then
    [*data++ = ASN_OPAQUE_TAG1; *data++ = tag; *data++ = (u_char) n; *datalength -= 3;] *)
Definition with_opaque (m : list Z) (data dl tag n : Z) (k : list Z -> Z -> Z -> option bres)
  : option bres :=
  with_header m data dl ASN_OPAQUE (n + 3) (fun m data dl =>
    m ← poke m data ASN_OPAQUE_TAG1;
    m ← poke m (data + 1) tag;
    m ← poke m (data + 2) (u8 n);
    k m (data + 3) (u64 (dl - 3))).

Definition asn_build_unsigned_int64 (m : list Z) (data dl type : Z) (c : counter64) (countersize : Z)
  : option bres :=
  if negb (countersize =? sizeof_counter64) then Some (m, dl, NULL)
  else
    let c := Counter64 (CHECK_OVERFLOW_U (high c)) (CHECK_OVERFLOW_U (low c)) in
    let add_null_byte := negb (Z.land (high c) 0x80000000 =? 0) in
    let '(n, c) := if add_null_byte then (9%nat, c) else trunc64_loop 8 c in
    let contents m data dl :=
      let dl := u64 (dl - Z.of_nat n) in
      '(m, data, n) ← null_byte add_null_byte m data n;
      '(m, data) ← store64_loop n m data c;
      Some (m, dl, Ptr data) in
    if type =? ASN_OPAQUE_COUNTER64 then
      with_opaque m data dl ASN_OPAQUE_COUNTER64 (Z.of_nat n) contents
    else if type =? ASN_OPAQUE_U64 then
      with_opaque m data dl ASN_OPAQUE_U64 (Z.of_nat n) contents
    else with_header m data dl type (Z.of_nat n) contents.

(** [type] is not used by the C function. *)
Definition asn_build_signed_int64 (m : list Z) (data dl type : Z) (c : counter64) (countersize : Z)
  : option bres :=
  if negb (countersize =? sizeof_counter64) then Some (m, dl, NULL)
  else
    let c := Counter64 (CHECK_OVERFLOW_S (s64 (high c))) (CHECK_OVERFLOW_U (low c)) in
    let '(n, c) := trunc64_loop 8 c in
    with_opaque m data dl ASN_OPAQUE_I64 (Z.of_nat n) (fun m data dl =>
      let dl := u64 (dl - Z.of_nat n) in
      '(m, data) ← store64_loop n m data c;
      Some (m, dl, Ptr data)).

(** ** Floating point: values are the bit patterns of [float] and [double] *)

Definition asn_build_float (m : list Z) (data dl type floatVal floatsize : Z) : option bres :=
  if negb (floatsize =? sizeof_float) then Some (m, dl, NULL)
  else
    with_opaque m data dl ASN_OPAQUE_FLOAT floatsize (fun m data dl =>
      let intVal := htonl floatVal in
      m ← poke_n m data (le_bytes 4 intVal);
      Some (m, u64 (dl - floatsize), Ptr (data + floatsize))).

(** The union [fu] after its [intVal] members are swapped. *)
Definition wire_of_double (doubleVal : Z) : list Z :=
  let c := le_bytes 8 doubleVal in
  let tmp := htonl (le_value (take 4 c)) in
  let int0 := htonl (le_value (drop 4 c)) in
  let int1 := tmp in
  le_bytes 4 int0 ++ le_bytes 4 int1.

Definition asn_build_double (m : list Z) (data dl type doubleVal doublesize : Z) : option bres :=
  if negb (doublesize =? sizeof_double) then Some (m, dl, NULL)
  else
    with_opaque m data dl ASN_OPAQUE_DOUBLE doublesize (fun m data dl =>
      m ← poke_n m data (wire_of_double doubleVal);
      Some (m, u64 (dl - doublesize), Ptr (data + doublesize))).
