(* ===== verification/Asn1BuildProps.v ===== *)
(** Correctness of the forward builders of [Asn1Build]: each one writes exactly
    the encoding [Ber] defines, or fails without touching anything outside the
    space it was given. *)
From Stdlib Require Import ZArith Lia.
From S2P Require Import Prelude Asn1Defs Ber Asn1Parse Asn1ParseProps Asn1ParseWide Asn1Build.

(** * The contract *)

(** A failed call: nothing outside the [dl] cells from [d] on has changed. *)
Definition confined (m m' : list Z) (d dl : Z) : Prop :=
  length m' = length m /\
  forall q, q < d \/ d + dl <= q -> peek m' q = peek m q.

(** [Builds f bs]: called on an output area of [dl] cells at [d], [f] writes
    [bs] there and accounts for it when there is room, and otherwise returns
    [NULL]. *)
Class Builds (f : list Z -> Z -> Z -> option bres) (bs : list Z) : Prop :=
  builds m d dl : 0 <= d -> 0 <= dl < 2 ^ 64 -> d + dl <= zlen m ->
    if decide (zlen bs <= dl)
    then f m d dl = Some (patch m d bs, dl - zlen bs, Ptr (d + zlen bs))
    else exists m' dl', f m d dl = Some (m', dl', NULL) /\ confined m m' d dl.

(** [Writes k c]: the rest of a builder, run where the room for [c] is known to
    exist. *)
Class Writes (k : list Z -> Z -> Z -> option bres) (c : list Z) : Prop :=
  writes m d dl : 0 <= d -> zlen c <= dl < 2 ^ 64 -> d + dl <= zlen m ->
    k m d dl = Some (patch m d c, dl - zlen c, Ptr (d + zlen c)).

Lemma confined_refl m d dl : confined m m d dl.
Proof. done. Qed.

Lemma confined_patch m d dl bs :
  0 <= d -> zlen bs <= dl -> d + dl <= zlen m -> confined m (patch m d bs) d dl.
Proof.
  unfold zlen. intros. split; [apply length_patch; lia|].
  intros q Hq. apply patch_peek_outside; lia.
Qed.

Lemma zlen_patch m p bs : 0 <= p -> p + zlen bs <= zlen m -> zlen (patch m p bs) = zlen m.
Proof. unfold zlen. intros. rewrite length_patch; lia. Qed.

Lemma poke_zlen m p v : 0 <= p < zlen m -> poke m p v = Some (patch m p [v]).
Proof. unfold zlen. apply poke_patch. Qed.

(** Appends a write to the writes made so far. *)
Lemma poke_after m p bs q v :
  0 <= p -> q = p + zlen bs -> q < zlen m ->
  poke (patch m p bs) q v = Some (patch m p (bs ++ [v])).
Proof.
  unfold zlen. intros Hp -> Hq. rewrite poke_patch by (rewrite length_patch; lia).
  by rewrite patch_patch by lia.
Qed.

Lemma poke_n_zlen m p bs : 0 <= p -> p + zlen bs <= zlen m -> poke_n m p bs = Some (patch m p bs).
Proof. unfold zlen. apply poke_n_patch. Qed.

Ltac pokes := rewrite poke_zlen by lia; cbn [mbind option_bind];
  repeat (rewrite poke_after by (autorewrite with zlen; lia); cbn [mbind option_bind]); simpl app.

(** * Lengths and headers *)

Lemma ber_length_medium n : 128 <= n <= 0xFF -> ber_length n = [129; n].
Proof.
  intros Hn. unfold ber_length. rewrite (proj2 (Z.ltb_ge _ _)) by lia.
  pose proof (len_octets_pos n). pose proof (proj1 (len_octets_bound n 1 ltac:(lia) ltac:(lia)) ltac:(lia)).
  assert (len_octets n = 1%nat) as -> by lia. unfold be_bytes.
  change (2 ^ _) with 1. by rewrite Z.div_1_r, Z.mod_small by lia.
Qed.

Lemma ber_length_long n : 0xFF < n <= 0xFFFF -> ber_length n = [130; n / 256; n mod 256].
Proof.
  intros Hn. unfold ber_length. rewrite (proj2 (Z.ltb_ge _ _)) by lia.
  pose proof (proj1 (len_octets_bound n 2 ltac:(lia) ltac:(lia)) ltac:(lia)).
  assert (~ Z.of_nat (len_octets n) <= 1) by (rewrite <- len_octets_bound; lia).
  assert (len_octets n = 2%nat) as -> by lia. unfold be_bytes.
  change (2 ^ (8 * Z.of_nat 1)) with 256. change (2 ^ (8 * Z.of_nat 0)) with 1.
  rewrite Z.div_1_r, (Z.mod_small (n / 256)); [done|].
  Z.to_euclidean_division_equations. lia.
Qed.

Lemma octet_of_shiftr n : 0 <= n <= 0xFFFF -> Z.land (Z.shiftr n 8) 0xFF = n / 256.
Proof.
  intros. rewrite Z.shiftr_div_pow2 by lia. change 0xFF with (2 ^ 8 - 1).
  rewrite land_ones_mod by lia. change (2 ^ 8) with 256.
  apply Z.mod_small. Z.to_euclidean_division_equations. lia.
Qed.

Lemma octet_of_low n : Z.land n 0xFF = n mod 256.
Proof. change 0xFF with (2 ^ 8 - 1). by rewrite land_ones_mod by lia. Qed.

#[export] Instance asn_build_length_builds n :
  0 <= n <= 0xFFFF -> Builds (fun m d dl => asn_build_length m d dl n) (ber_length n).
Proof.
  intros Hn m d dl Hd Hdl Hm. unfold asn_build_length.
  assert (Hfail : exists m' dl', Some (m, dl, NULL) = Some (m', dl', NULL) /\ confined m m' d dl)
    by (exists m, dl; split; [done|apply confined_refl]).
  destruct (Z.ltb_spec n 0x80); [|destruct (Z.leb_spec n 0xFF)].
  - rewrite ber_length_short by lia. autorewrite with zlen.
    case_decide; [rewrite (proj2 (Z.ltb_ge _ _)) by lia|by rewrite (proj2 (Z.ltb_lt _ _)) by lia].
    pokes. rewrite !wrap_small by lia. result_eq.
  - rewrite ber_length_medium by lia. autorewrite with zlen.
    case_decide; [rewrite (proj2 (Z.ltb_ge _ _)) by lia|by rewrite (proj2 (Z.ltb_lt _ _)) by lia].
    pokes. rewrite !wrap_small by lia. result_eq.
  - rewrite ber_length_long, octet_of_shiftr, octet_of_low by lia. autorewrite with zlen.
    case_decide; [rewrite (proj2 (Z.ltb_ge _ _)) by lia|by rewrite (proj2 (Z.ltb_lt _ _)) by lia].
    pokes. rewrite !wrap_small by lia. result_eq.
Qed.

(** A failure after a first write is still confined. *)
Lemma confined_after m m' d bs dl dl' :
  0 <= d -> dl = zlen bs + dl' -> 0 <= dl' -> d + dl <= zlen m ->
  confined (patch m d bs) m' (d + zlen bs) dl' -> confined m m' d dl.
Proof.
  intros Hd -> Hdl Hm [Hl Hq]. pose proof (zlen_nonneg bs). unfold zlen in *.
  rewrite length_patch in Hl by lia.
  split; [done|]. intros q Hout. rewrite Hq by lia. apply patch_peek_outside; lia.
Qed.

#[export] Instance asn_build_header_builds t n :
  0 <= n <= 0xFFFF -> Builds (fun m d dl => asn_build_header m d dl t n) (t :: ber_length n).
Proof.
  intros Hn m d dl Hd Hdl Hm. unfold asn_build_header. autorewrite with zlen.
  pose proof (zlen_nonneg (ber_length n)).
  destruct (Z.ltb_spec dl 1).
  { rewrite decide_False by lia. exists m, dl. split; [done|apply confined_refl]. }
  rewrite poke_zlen by lia. cbn [mbind option_bind]. rewrite wrap_small by lia.
  pose proof (asn_build_length_builds n Hn (patch m d [t]) (d + 1) (dl - 1)) as Hl.
  rewrite zlen_patch in Hl by (autorewrite with zlen; lia).
  specialize (Hl ltac:(lia) ltac:(lia) ltac:(lia)).
  destruct (decide (zlen (ber_length n) <= dl - 1)).
  - rewrite decide_True by lia. rewrite Hl.
    rewrite patch_patch by (simpl; unfold zlen in *; lia). result_eq.
  - rewrite decide_False by lia. destruct Hl as (m' & dl' & -> & Hc).
    exists m', dl'. split; [done|].
    eapply (confined_after m m' d [t] dl (dl - 1)); try done; autorewrite with zlen; lia.
Qed.

(** The shape of every builder: header, room check, contents. *)
#[export] Instance with_header_builds t n k c :
  Writes k c -> zlen c = n -> n <= 0xFFFF ->
  Builds (fun m d dl => with_header m d dl t n k) (tlv t c).
Proof.
  intros Hk <- Hn m d dl Hd Hdl Hm. unfold with_header, tlv. pose proof (zlen_nonneg c).
  change (t :: ber_length (zlen c) ++ c) with ((t :: ber_length (zlen c)) ++ c).
  set (h := t :: ber_length (zlen c)). rewrite zlen_app. pose proof (zlen_nonneg h).
  pose proof (asn_build_header_builds t (zlen c) ltac:(lia) m d dl Hd Hdl Hm) as Hh. fold h in Hh.
  destruct (decide (zlen h <= dl)).
  - rewrite Hh. cbn [mbind option_bind]. unfold _asn_build_header_check.
    destruct (Z.ltb_spec (dl - zlen h) (zlen c)).
    + rewrite decide_False by lia. eexists _, _. split; [done|]. apply confined_patch; lia.
    + rewrite decide_True by lia. rewrite (Hk (patch m d h)); rewrite ?zlen_patch by lia; try lia.
      rewrite patch_patch by (unfold zlen in *; lia). result_eq.
  - rewrite decide_False by lia. destruct Hh as (m' & dl' & -> & Hc). simpl.
    eexists _, _. split; [done|exact Hc].
Qed.

#[export] Instance with_opaque_builds t n k c :
  Writes k c -> zlen c = n -> n <= 9 ->
  Builds (fun m d dl => with_opaque m d dl t n k) (opaque_tlv t c).
Proof.
  intros Hk Hn Hn9. unfold with_opaque, opaque_tlv. pose proof (zlen_nonneg c).
  assert (Hoc : opaque_contents t c = [ASN_OPAQUE_TAG1; t; zlen c] ++ c).
  { unfold opaque_contents, tlv. by rewrite ber_length_short by lia. }
  apply with_header_builds; [|rewrite Hoc; autorewrite with zlen; lia|lia].
  rewrite Hoc, <- Hn. intros m d dl Hd Hdl Hm. rewrite zlen_app in *.
  change (zlen [ASN_OPAQUE_TAG1; t; zlen c]) with 3 in *.
  pokes. rewrite !wrap_small by lia.
  rewrite Hk; rewrite ?zlen_patch by (change (zlen [ASN_OPAQUE_TAG1; t; zlen c]) with 3; lia); try lia.
  rewrite patch_patch by (simpl; unfold zlen in *; lia). result_eq.
Qed.

(** * Integers *)

(** The nine most significant bits of a 64-bit word. *)
Lemma land_high x k w :
  0 <= k -> 0 <= w -> Z.land x (Z.shiftl (2 ^ w - 1) k) = ((x / 2 ^ k) mod 2 ^ w) * 2 ^ k.
Proof.
  intros Hk Hw. rewrite <- land_ones_mod by done. rewrite <- Z.shiftr_div_pow2, <- Z.shiftl_mul_pow2 by done.
  apply Z.bits_inj'. intros i Hi. rewrite Z.land_spec, !Z.shiftl_spec by done.
  destruct (Z.ltb_spec i k).
  - rewrite !(Z.testbit_neg_r _ (i - k)) by lia. apply andb_false_r.
  - rewrite Z.land_spec, Z.shiftr_spec by lia. by replace (i - k + k) with i by lia.
Qed.

(** A word whose top nine bits agree is a small number. *)
Lemma top9_small X :
  - 2 ^ 63 <= X < 2 ^ 63 ->
  ((X / 2 ^ 55) mod 2 ^ 9 = 0 \/ (X / 2 ^ 55) mod 2 ^ 9 = 511) <-> - 2 ^ 55 <= X < 2 ^ 55.
Proof.
  change (2 ^ 63) with 9223372036854775808. change (2 ^ 55) with 36028797018963968.
  change (2 ^ 9) with 512. intros H. split; intros; Z.to_euclidean_division_equations; lia.
Qed.

(** The word with [n] octets of [v] left to go, flush with the top. *)
Definition shifted (n v : Z) : Z := v * 2 ^ (8 * (8 - n)).

Lemma shifted_top9 n v :
  2 <= n <= 8 -> fits n v ->
  ((shifted n v / 2 ^ 55) mod 2 ^ 9 = 0 \/ (shifted n v / 2 ^ 55) mod 2 ^ 9 = 511) <-> fits (n - 1) v.
Proof.
  intros Hn Hf. unfold fits, shifted in *.
  pose proof (pow2_pos (8 * (8 - n)) ltac:(lia)).
  assert (2 ^ 63 = 2 ^ (8 * n - 1) * 2 ^ (8 * (8 - n))) by (rewrite <- Z.pow_add_r by lia; f_equal; lia).
  assert (2 ^ 55 = 2 ^ (8 * (n - 1) - 1) * 2 ^ (8 * (8 - n))) by (rewrite <- Z.pow_add_r by lia; f_equal; lia).
  rewrite top9_small by nia. nia.
Qed.

Lemma shifted_pred n v : n <= 8 -> shifted n v * 256 = shifted (n - 1) v.
Proof.
  intros. unfold shifted. replace (8 * (8 - (n - 1))) with (8 * (8 - n) + 8) by lia.
  rewrite Z.pow_add_r by lia. change (2 ^ 8) with 256. lia.
Qed.

Lemma shifted_octet n v :
  1 <= n <= 8 -> (shifted n v / 2 ^ 56) mod 256 = (v / 2 ^ (8 * (n - 1))) mod 256.
Proof.
  intros Hn. unfold shifted. replace (2 ^ 56) with (2 ^ (8 * (n - 1)) * 2 ^ (8 * (8 - n)))
    by (rewrite <- Z.pow_add_r by lia; f_equal; lia).
  by rewrite Z.div_mul_cancel_r by (apply Z.pow_nonzero; lia).
Qed.

(** Bits 55 and up of a word only depend on it modulo [2^64]. *)
Lemma div_mod64 X k w : 0 <= k -> 0 <= w -> k + w <= 64 ->
  (X mod 2 ^ 64 / 2 ^ k) mod 2 ^ w = (X / 2 ^ k) mod 2 ^ w.
Proof.
  intros Hk Hw Hs. rewrite (Z.mod_eq X (2 ^ 64)) by lia.
  replace (2 ^ 64) with (2 ^ (64 - k - w) * 2 ^ w * 2 ^ k) at 1
    by (rewrite <- !Z.pow_add_r by lia; f_equal; lia).
  replace (X - 2 ^ (64 - k - w) * 2 ^ w * 2 ^ k * (X / 2 ^ 64))
    with (X + (- 2 ^ (64 - k - w) * (X / 2 ^ 64)) * 2 ^ w * 2 ^ k) by lia.
  rewrite Z.div_add by (apply Z.pow_nonzero; lia). apply Z_mod_plus_full.
Qed.

(** A register [x] of either signedness that holds [shifted n v]. *)
Definition word_is (x n v : Z) : Prop := x mod 2 ^ 64 = shifted n v mod 2 ^ 64.

Definition word_wrap (wr : Z -> Z) : Prop := forall x, wr x mod 2 ^ 64 = x mod 2 ^ 64.

Lemma u64_word_wrap : word_wrap u64.
Proof. intros x. apply Z.mod_mod. lia. Qed.

Lemma s64_word_wrap : word_wrap s64.
Proof. intros x. apply (wrap_swrap 64). lia. Qed.

#[export] Hint Resolve u64_word_wrap s64_word_wrap : snmp.

Lemma word_is_bits x n v k w : word_is x n v -> 0 <= k -> 0 <= w -> k + w <= 64 ->
  (x / 2 ^ k) mod 2 ^ w = (shifted n v / 2 ^ k) mod 2 ^ w.
Proof. intros Hx ???. rewrite <- div_mod64, Hx, div_mod64 by lia. done. Qed.

Lemma word_is_shift wr x n v :
  word_wrap wr -> n <= 8 -> word_is x n v -> word_is (wr (Z.shiftl x 8)) (n - 1) v.
Proof.
  unfold word_is. intros Hw Hn Hx. rewrite Hw, Z.shiftl_mul_pow2 by lia. change (2 ^ 8) with 256.
  by rewrite <- shifted_pred, Z.mul_mod, Hx, <- Z.mul_mod by lia.
Qed.

Lemma redundant_fits x n v :
  2 <= n <= 8 -> fits n v -> word_is x n v -> redundant x = true <-> fits (n - 1) v.
Proof.
  intros Hn Hf Hx. unfold redundant, mask9, sizeof_long.
  change (8 * (8 - 1) - 1) with 55. change 0x1FF with (2 ^ 9 - 1).
  rewrite land_high by lia. rewrite (word_is_bits x n v) by (done || lia).
  rewrite <- (shifted_top9 n v) by done.
  change (Z.shiftl (2 ^ 9 - 1) 55) with (511 * 2 ^ 55). rewrite orb_true_iff, !Z.eqb_eq. lia.
Qed.

(** The loop stops at the minimal number of octets. *)
Lemma trunc_loop_spec wr n x v :
  word_wrap wr -> (1 <= n <= 8)%nat -> fits (Z.of_nat n) v -> word_is x (Z.of_nat n) v ->
  exists x', trunc_loop wr n x = (int_size v, x') /\ word_is x' (Z.of_nat (int_size v)) v.
Proof.
  intros Hw. revert x. induction n as [|n IH]; intros x Hn Hf Hx; [lia|].
  assert (Hstop : int_size v = S n -> exists x', (S n, x) = (int_size v, x') /\ word_is x' (Z.of_nat (int_size v)) v)
    by (intros ->; by exists x).
  destruct n as [|n].
  { apply Hstop. apply Nat2Z.inj. by apply int_size_unique; [lia| |left]. }
  cbn [trunc_loop]. pose proof (redundant_fits x (Z.of_nat (S (S n))) v ltac:(lia) Hf Hx) as Hr.
  replace (Z.of_nat (S (S n)) - 1) with (Z.of_nat (S n)) in Hr by lia.
  destruct (redundant x).
  - apply IH; [lia|by apply Hr|].
    replace (Z.of_nat (S n)) with (Z.of_nat (S (S n)) - 1) by lia. apply word_is_shift; [done|lia|done].
  - apply Hstop, Nat2Z.inj. apply int_size_unique; [lia|done|right].
    replace (Z.of_nat (S (S n)) - 1) with (Z.of_nat (S n)) by lia. intros ?. by apply diff_false_true, Hr.
Qed.

Lemma top_octet_shifted x n v :
  1 <= n <= 8 -> word_is x n v -> top_octet x = (v / 2 ^ (8 * (n - 1))) mod 256.
Proof.
  intros Hn Hx. unfold top_octet, sizeof_long. change (8 * (8 - 1)) with 56. change 0xFF with (2 ^ 8 - 1).
  rewrite land_high, Z.shiftr_div_pow2, Z.div_mul by lia.
  unfold wrap. rewrite Z.mod_mod, (word_is_bits x n v) by (done || lia). by apply shifted_octet.
Qed.

Lemma store_loop_spec wr n m d x v :
  word_wrap wr -> (n <= 8)%nat -> 0 <= d -> d + Z.of_nat n <= zlen m -> word_is x (Z.of_nat n) v ->
  store_loop wr n m d x = Some (patch m d (be_bytes n v), d + Z.of_nat n).
Proof.
  intros Hw. revert m d x. induction n as [|n IH]; intros m d x Hn Hd Hm Hx.
  { simpl. by rewrite patch_nil, Z.add_0_r. }
  cbn [store_loop]. rewrite poke_zlen by lia. cbn [mbind option_bind].
  rewrite IH; [|lia|lia|rewrite zlen_patch; change (zlen [_]) with 1; lia|].
  2: { replace (Z.of_nat n) with (Z.of_nat (S n) - 1) by lia. apply word_is_shift; [done|lia|done]. }
  rewrite patch_patch by (simpl; unfold zlen in *; lia).
  rewrite (top_octet_shifted _ (Z.of_nat (S n)) v) by (done || lia).
  replace (Z.of_nat (S n) - 1) with (Z.of_nat n) by lia. result_eq.
Qed.

Lemma store_writes wr n x v :
  word_wrap wr -> (n <= 8)%nat -> word_is x (Z.of_nat n) v ->
  Writes (fun m data dl =>
    '(m, data) ← store_loop wr n m data x; Some (m, u64 (dl - Z.of_nat n), Ptr data)) (be_bytes n v).
Proof.
  intros Hw Hn Hx m d dl Hd Hdl Hm. rewrite zlen_be_bytes in *.
  rewrite (store_loop_spec wr n m d x v) by (done || lia). cbn [mbind option_bind].
  by rewrite wrap_small by lia.
Qed.

Lemma int_size_le v n : 0 < n -> fits n v -> Z.of_nat (int_size v) <= n.
Proof. intros. by apply int_size_bound. Qed.

Lemma word_is_8 x v : x mod 2 ^ 64 = v mod 2 ^ 64 -> word_is x 8 v.
Proof. intros. unfold word_is, shifted. by rewrite Z.mul_1_r. Qed.

Lemma CHECK_OVERFLOW_S_fits v : fits 8 (CHECK_OVERFLOW_S v).
Proof. unfold fits. pose proof (CHECK_OVERFLOW_S_range v). lia. Qed.

#[export] Instance asn_build_int_builds t v :
  Builds (fun m d dl => asn_build_int m d dl t v sizeof_long) (tlv t (ber_int (CHECK_OVERFLOW_S v))).
Proof.
  unfold asn_build_int. rewrite Z.eqb_refl. cbn [negb]. set (w := CHECK_OVERFLOW_S v).
  pose proof (CHECK_OVERFLOW_S_fits v) as Hf. fold w in Hf. pose proof (int_size_le w 8 ltac:(lia) Hf).
  destruct (trunc_loop_spec s64 8 w w) as (x & Hx & Hw); [auto with snmp|lia|done|by apply word_is_8|].
  change (Z.to_nat sizeof_long) with 8%nat. rewrite Hx.
  apply with_header_builds; [|apply zlen_ber_int|lia].
  apply store_writes; [auto with snmp|lia|done].
Qed.

#[export] Instance asn_build_unsigned_int_builds t v :
  0 <= v -> Builds (fun m d dl => asn_build_unsigned_int m d dl t v sizeof_long) (tlv t (ber_int (v mod 2 ^ 32))).
Proof.
  intros Hv. unfold asn_build_unsigned_int. rewrite Z.eqb_refl. cbn [negb].
  rewrite CHECK_OVERFLOW_U_mod by done. set (w := v mod 2 ^ 32).
  assert (Hr : 0 <= w < 2 ^ 32) by (apply Z.mod_pos_bound; lia).
  assert (Hf : fits 8 w) by (unfold fits; lia). pose proof (int_size_le w 8 ltac:(lia) Hf).
  rewrite (top_octet_shifted w 8 w) by (lia || by apply word_is_8).
  change (8 * (8 - 1)) with 56. rewrite (Z.div_small w) by lia.
  change (Z.land (0 mod 256) 128 =? 0) with true. cbn [negb].
  destruct (trunc_loop_spec u64 8 w w) as (x & Hx & Hw); [auto with snmp|lia|done|by apply word_is_8|].
  change (Z.to_nat sizeof_long) with 8%nat. rewrite Hx. cbn [null_byte mbind option_bind].
  apply with_header_builds; [|apply zlen_ber_int|lia].
  apply store_writes; [auto with snmp|lia|done].
Qed.

(** * Strings, null *)

Lemma peek_n_all c n : zlen c = n -> peek_n c 0 n = Some c.
Proof. intros <-. apply holds_peek_n. exists [], []. by rewrite app_nil_r. Qed.

#[export] Instance asn_build_string_builds t c n :
  zlen c = n -> n <= 0xFFFF -> Builds (fun m d dl => asn_build_string m d dl t (Some c) n) (tlv t c).
Proof.
  intros Hn Hs. apply with_header_builds; [|done|done].
  intros m d dl Hd Hdl Hm. pose proof (zlen_nonneg c).
  destruct (Z.eqb_spec n 0) as [->|Hne]; cbn [negb].
  - destruct c as [|b c]; [|rewrite zlen_cons in Hn; pose proof (zlen_nonneg c); lia].
    simpl. rewrite patch_nil, wrap_small by lia. done.
  - rewrite peek_n_all by done. cbn [mbind option_bind].
    rewrite poke_n_zlen by lia. cbn [mbind option_bind]. by rewrite wrap_small, Hn by lia.
Qed.

(** A null pointer stands for [strlength] zero octets. *)
#[export] Instance asn_build_string_null_builds t n :
  0 <= n <= 0xFFFF ->
  Builds (fun m d dl => asn_build_string m d dl t None n) (tlv t (replicate (Z.to_nat n) 0)).
Proof.
  intros Hn.
  assert (Hz : zlen (replicate (Z.to_nat n) 0) = n) by (unfold zlen; rewrite length_replicate; lia).
  apply with_header_builds; [|done|lia].
  intros m d dl Hd Hdl Hm. rewrite Hz in *.
  destruct (Z.eqb_spec n 0) as [->|Hne]; cbn [negb].
  - simpl. rewrite patch_nil, wrap_small by lia. done.
  - rewrite poke_n_zlen by lia. cbn [mbind option_bind]. by rewrite wrap_small by lia.
Qed.

#[export] Instance asn_build_null_builds t :
  Builds (fun m d dl => asn_build_null m d dl t) (tlv t []).
Proof. unfold asn_build_null. apply (asn_build_header_builds t 0). lia. Qed.

#[export] Instance asn_build_bitstring_builds t c n :
  zlen c = n -> 1 <= n <= 0xFFFF ->
  Builds (fun m d dl => asn_build_bitstring m d dl t (Some c) n) (tlv t c).
Proof.
  intros Hn Hs m d dl Hd Hdl Hm. unfold asn_build_bitstring, _asn_bitstring_check.
  destruct (peek_in_range c 0) as [b Hb]; [unfold zlen in Hn; lia|]. rewrite Hb.
  cbn [mbind option_bind]. rewrite (proj2 (Z.ltb_ge n 1)) by lia. revert m d dl Hd Hdl Hm.
  apply with_header_builds; [|done|lia].
  intros m d dl Hd Hdl Hm. rewrite (proj2 (Z.ltb_lt 0 n)) by lia.
  rewrite peek_n_all by done. cbn [mbind option_bind].
  rewrite poke_n_zlen by lia. cbn [mbind option_bind]. by rewrite wrap_small, Hn by lia.
Qed.

(** The fixed-size header of a sequence: always the two-octet long form. *)
Definition seq_header (t n : Z) : list Z := [t; 130; n / 256; n mod 256].

#[export] Instance asn_build_sequence_builds t n :
  0 <= n <= 0xFFFF -> Builds (fun m d dl => asn_build_sequence m d dl t n) (seq_header t n).
Proof.
  intros Hn m d dl Hd Hdl Hm. unfold asn_build_sequence. change (zlen (seq_header t n)) with 4.
  case_decide; [rewrite (proj2 (Z.ltb_ge _ _)) by lia|rewrite (proj2 (Z.ltb_lt _ _)) by lia].
  - pokes. rewrite octet_of_shiftr, octet_of_low, wrap_small by lia. done.
  - exists m, dl. split; [done|apply confined_refl].
Qed.

(** * 64-bit integers *)

Lemma shift_out_in c : shift_out c = shift_in c 0.
Proof. unfold shift_out, shift_in. by rewrite Z.lor_0_r, (Z.land_comm (high c)). Qed.

Lemma shift_out_split n v : n <= 8 -> shift_out (split64 (shifted n v)) = split64 (shifted (n - 1) v).
Proof.
  intros. rewrite shift_out_in, shift_in_split by (unfold is_byte; lia).
  by rewrite Z.add_0_r, shifted_pred by lia.
Qed.

Lemma high_split64_bits X k w :
  0 <= k -> 0 <= w -> k + w <= 32 -> (high (split64 X) / 2 ^ k) mod 2 ^ w = (X / 2 ^ (32 + k)) mod 2 ^ w.
Proof.
  intros. unfold split64. cbn [high].
  assert (Hh : (X / 2 ^ 32) mod 2 ^ 32 = X mod 2 ^ 64 / 2 ^ 32).
  { change (2 ^ 64) with (2 ^ 32 * 2 ^ 32). rewrite Z.rem_mul_r by lia.
    rewrite (Z.mul_comm (2 ^ 32) (_ mod _)), Z.div_add by lia.
    by rewrite (Z.div_small (X mod 2 ^ 32)) by (apply Z.mod_pos_bound; lia). }
  rewrite Hh, Z.div_div by (try apply Z.pow_pos_nonneg; lia).
  rewrite <- Z.pow_add_r by lia. apply div_mod64; lia.
Qed.

Lemma redundant64_fits n v :
  2 <= n <= 8 -> fits n v -> redundant64 (split64 (shifted n v)) = true <-> fits (n - 1) v.
Proof.
  intros Hn Hf. unfold redundant64. change 0xff800000 with (Z.shiftl (2 ^ 9 - 1) 23).
  rewrite land_high, high_split64_bits by lia. change (32 + 23) with 55.
  rewrite <- (shifted_top9 n v) by done.
  change (Z.shiftl (2 ^ 9 - 1) 23) with (511 * 2 ^ 23). rewrite orb_true_iff, !Z.eqb_eq. lia.
Qed.

Lemma trunc64_loop_spec n v :
  (1 <= n <= 8)%nat -> fits (Z.of_nat n) v ->
  trunc64_loop n (split64 (shifted (Z.of_nat n) v)) =
  (int_size v, split64 (shifted (Z.of_nat (int_size v)) v)).
Proof.
  induction n as [|n IH]; intros Hn Hf; [lia|].
  assert (Hstop : int_size v = S n -> (S n, split64 (shifted (Z.of_nat (S n)) v)) =
    (int_size v, split64 (shifted (Z.of_nat (int_size v)) v))) by (intros ->; done).
  destruct n as [|n].
  { apply Hstop. apply Nat2Z.inj. by apply int_size_unique; [lia| |left]. }
  cbn [trunc64_loop]. pose proof (redundant64_fits (Z.of_nat (S (S n))) v ltac:(lia) Hf) as Hr.
  rewrite shift_out_split by lia.
  replace (Z.of_nat (S (S n)) - 1) with (Z.of_nat (S n)) in * by lia.
  destruct (redundant64 _).
  - apply IH; [lia|by apply Hr].
  - apply Hstop, Nat2Z.inj. apply int_size_unique; [lia|done|right].
    replace (Z.of_nat (S (S n)) - 1) with (Z.of_nat (S n)) by lia. intros ?. by apply diff_false_true, Hr.
Qed.

Lemma store64_loop_spec n m d v :
  (n <= 8)%nat -> 0 <= d -> d + Z.of_nat n <= zlen m ->
  store64_loop n m d (split64 (shifted (Z.of_nat n) v)) = Some (patch m d (be_bytes n v), d + Z.of_nat n).
Proof.
  revert m d. induction n as [|n IH]; intros m d Hn Hd Hm.
  { simpl. by rewrite patch_nil, Z.add_0_r. }
  cbn [store64_loop]. rewrite poke_zlen, shift_out_split by lia. cbn [mbind option_bind].
  replace (Z.of_nat (S n) - 1) with (Z.of_nat n) by lia.
  rewrite IH by (try lia; rewrite zlen_patch; change (zlen [_]) with 1; lia).
  rewrite patch_patch by (simpl; unfold zlen in *; lia).
  unfold wrap. rewrite Z.shiftr_div_pow2, high_split64_bits by lia. change (32 + 24) with 56.
  change (2 ^ 8) with 256. rewrite shifted_octet by lia.
  replace (Z.of_nat (S n) - 1) with (Z.of_nat n) by lia. result_eq.
Qed.

Lemma store64_writes n v :
  (n <= 8)%nat ->
  Writes (fun m data dl =>
    '(m, data) ← store64_loop n m data (split64 (shifted (Z.of_nat n) v));
    Some (m, u64 (dl - Z.of_nat n), Ptr data)) (be_bytes n v).
Proof.
  intros Hn m d dl Hd Hdl Hm. rewrite zlen_be_bytes in *.
  rewrite store64_loop_spec by lia. cbn [mbind option_bind]. by rewrite wrap_small by lia.
Qed.

Lemma split64_8 v : split64 v = split64 (shifted 8 v).
Proof. unfold shifted. by rewrite Z.mul_1_r. Qed.

(** What the macros leave of a counter. *)
Definition c64_value (c : counter64) : Z := high c mod 2 ^ 32 * 2 ^ 32 + low c mod 2 ^ 32.

Lemma c64_value_ok c : c64_ok c -> c64_value c = cval c.
Proof. intros [Hh Hl]. unfold c64_value, cval. by rewrite !Z.mod_small by done. Qed.

Lemma checked_split64 c :
  0 <= high c -> 0 <= low c ->
  Counter64 (CHECK_OVERFLOW_U (high c)) (CHECK_OVERFLOW_U (low c)) = split64 (c64_value c).
Proof.
  intros. rewrite !CHECK_OVERFLOW_U_mod by done.
  symmetry. apply (split64_cval (Counter64 _ _)). split; apply Z.mod_pos_bound; lia.
Qed.

Lemma c64_value_range c : 0 <= c64_value c < 2 ^ 64.
Proof.
  unfold c64_value. pose proof (Z.mod_pos_bound (high c) (2 ^ 32) ltac:(lia)).
  pose proof (Z.mod_pos_bound (low c) (2 ^ 32) ltac:(lia)). lia.
Qed.

(** The sign bit of the high half, read as the C code does. *)
Lemma high_msb v : 0 <= v < 2 ^ 64 -> negb (Z.land (high (split64 v)) 0x80000000 =? 0) = (2 ^ 63 <=? v).
Proof.
  intros Hv. change 0x80000000 with (Z.shiftl (2 ^ 1 - 1) 31).
  rewrite land_high, high_split64_bits by lia. change (32 + 31) with 63.
  destruct (Z.leb_spec (2 ^ 63) v).
  - replace (v / 2 ^ 63) with 1; [done|]. apply (Z.div_unique_pos _ _ _ (v - 2 ^ 63)); lia.
  - by rewrite Z.div_small by lia.
Qed.

Lemma be_bytes_9 v : 0 <= v < 2 ^ 64 -> be_bytes 9 v = 0 :: be_bytes 8 v.
Proof.
  intros. change (be_bytes 9 v) with ((v / 2 ^ 64) mod 256 :: be_bytes 8 v).
  by rewrite Z.div_small by lia.
Qed.

Section unsigned_int64.
Context (c : counter64) (Hh : 0 <= high c) (Hl : 0 <= low c).

(** The contents written for a counter, with or without the null octet. *)
Lemma u64_contents_writes :
  let v := c64_value c in
  let b := 2 ^ 63 <=? v in
  let n := if b then 9%nat else int_size v in
  Z.of_nat (int_size v) <= 9 /\ n = int_size v /\
  Writes (fun m data dl =>
    '(m, data, n) ← null_byte b m data n;
    '(m, data) ← store64_loop n m data
       (split64 (if b then v else shifted (Z.of_nat (int_size v)) v));
    Some (m, u64 (dl - Z.of_nat (int_size v)), Ptr data)) (ber_int v).
Proof.
  intros v b n. pose proof (c64_value_range c) as Hr. fold v in Hr. unfold n, b.
  pose proof (int_size_pos v).
  destruct (Z.leb_spec (2 ^ 63) v).
  - assert (H9 : int_size v = 9%nat).
    { apply Nat2Z.inj, int_size_unique; [lia| |right]; unfold fits; lia. }
    split; [lia|]. split; [done|]. unfold ber_int. rewrite H9.
    intros m d dl Hd Hdl Hm. rewrite zlen_be_bytes in *. cbn [null_byte Nat.pred].
    rewrite poke_zlen by lia. cbn [mbind option_bind]. rewrite split64_8.
    rewrite (store64_loop_spec 8) by (try lia; rewrite zlen_patch; change (zlen [0]) with 1; lia).
    cbn [mbind option_bind]. rewrite patch_patch by (simpl; unfold zlen in *; lia).
    rewrite be_bytes_9, wrap_small by lia. result_eq.
  - assert (Hf : fits 8 v) by (unfold fits; lia). pose proof (int_size_le v 8 ltac:(lia) Hf).
    split; [lia|]. split; [done|]. apply store64_writes. lia.
Qed.

Lemma asn_build_unsigned_int64_shape t :
  let n := Z.of_nat (int_size (c64_value c)) in
  exists k, Writes k (ber_int (c64_value c)) /\ n <= 9 /\
    forall m d dl, asn_build_unsigned_int64 m d dl t c sizeof_counter64 =
      if t =? ASN_OPAQUE_COUNTER64 then with_opaque m d dl ASN_OPAQUE_COUNTER64 n k
      else if t =? ASN_OPAQUE_U64 then with_opaque m d dl ASN_OPAQUE_U64 n k
      else with_header m d dl t n k.
Proof.
  intros n. unfold asn_build_unsigned_int64. rewrite Z.eqb_refl. cbn [negb].
  rewrite checked_split64, high_msb by (done || apply c64_value_range).
  destruct u64_contents_writes as (Hn9 & Hn & Hw). unfold n.
  destruct (2 ^ 63 <=? c64_value c) eqn:E.
  - rewrite <- Hn in *. eexists. split; [exact Hw|]. split; [lia|done].
  - rewrite split64_8, (trunc64_loop_spec 8); [|lia|].
    + eexists. split; [exact Hw|]. split; [lia|done].
    + unfold fits. pose proof (c64_value_range c). bool_prop. lia.
Qed.

#[export] Instance asn_build_unsigned_int64_builds t :
  t <> ASN_OPAQUE_COUNTER64 -> t <> ASN_OPAQUE_U64 ->
  Builds (fun m d dl => asn_build_unsigned_int64 m d dl t c sizeof_counter64)
         (tlv t (ber_int (c64_value c))).
Proof.
  intros Ht1 Ht2. destruct (asn_build_unsigned_int64_shape t) as (k & Hk & Hn & Heq).
  rewrite (proj2 (Z.eqb_neq _ _) Ht1), (proj2 (Z.eqb_neq _ _) Ht2) in Heq.
  intros m d dl. rewrite Heq. revert m d dl.
  apply with_header_builds; [done|apply zlen_ber_int|lia].
Qed.

#[export] Instance asn_build_unsigned_int64_opaque_builds t :
  t = ASN_OPAQUE_COUNTER64 \/ t = ASN_OPAQUE_U64 ->
  Builds (fun m d dl => asn_build_unsigned_int64 m d dl t c sizeof_counter64)
         (opaque_tlv t (ber_int (c64_value c))).
Proof.
  intros Ht. destruct (asn_build_unsigned_int64_shape t) as (k & Hk & Hn & Heq).
  intros m d dl. rewrite Heq. revert m d dl.
  destruct Ht as [-> | ->]; (apply with_opaque_builds; [done|apply zlen_ber_int|lia]).
Qed.
End unsigned_int64.

(** A signed counter is the 64-bit two's-complement number its halves form. *)
Lemma checked_signed c :
  c64_ok c ->
  Counter64 (CHECK_OVERFLOW_S (s64 (high c))) (CHECK_OVERFLOW_U (low c)) = split64 (s64 (cval c)).
Proof.
  intros Hok. pose proof Hok as [Hh Hl]. rewrite CHECK_OVERFLOW_U_id, (swrap_small 64) by lia.
  assert (CHECK_OVERFLOW_S (high c) = high c) as ->.
  { unfold CHECK_OVERFLOW_S, INT32_MIN, INT32_MAX. destruct (Z.ltb_spec 2147483647 (high c)).
    - change 0xffffffff with (2 ^ 32 - 1). rewrite land_ones_mod by lia. by apply Z.mod_small.
    - by rewrite (proj2 (Z.ltb_ge _ _)) by lia. }
  rewrite <- (split64_mod (s64 _)). change (s64 (cval c) mod 2 ^ 64) with (u64 (s64 (cval c))).
  rewrite wrap_swrap by lia. unfold wrap. rewrite split64_mod, split64_cval by done. by destruct c.
Qed.

#[export] Instance asn_build_signed_int64_builds t c :
  c64_ok c ->
  Builds (fun m d dl => asn_build_signed_int64 m d dl t c sizeof_counter64)
         (opaque_tlv ASN_OPAQUE_I64 (ber_int (s64 (cval c)))).
Proof.
  intros Hok. unfold asn_build_signed_int64. rewrite Z.eqb_refl. cbn [negb].
  rewrite checked_signed by done. set (v := s64 (cval c)).
  assert (Hf : fits 8 v) by (apply (swrap_range 64); lia). pose proof (int_size_le v 8 ltac:(lia) Hf).
  rewrite split64_8, (trunc64_loop_spec 8) by (done || lia).
  apply with_opaque_builds; [|apply zlen_ber_int|lia]. apply store64_writes. lia.
Qed.

(** * Floating point *)

Lemma le_bytes_htonl x : le_bytes 4 (htonl x) = be_bytes 4 x.
Proof.
  unfold htonl, le_value, le_bytes.
  pose proof (be_bytes_4 (reverse (be_bytes 4 x))) as H. rewrite H, reverse_involutive; [done| |].
  - by rewrite length_reverse, length_be_bytes.
  - apply Forall_reverse, be_bytes_byte.
Qed.

#[export] Instance asn_build_float_builds t v :
  Builds (fun m d dl => asn_build_float m d dl t v sizeof_float)
         (opaque_tlv ASN_OPAQUE_FLOAT (be_bytes 4 v)).
Proof.
  unfold asn_build_float. rewrite Z.eqb_refl. cbn [negb]. rewrite le_bytes_htonl.
  apply with_opaque_builds; [|apply zlen_be_bytes|done].
  intros m d dl Hd Hdl Hm. rewrite zlen_be_bytes in *. change sizeof_float with 4.
  rewrite poke_n_zlen by (autorewrite with zlen; lia). cbn [mbind option_bind].
  by rewrite wrap_small by lia.
Qed.

Lemma wire_of_double_be v : wire_of_double v = be_bytes 8 v.
Proof.
  unfold wire_of_double. rewrite !le_bytes_htonl. unfold le_value.
  assert (Hb : bytes (be_bytes 8 v)) by apply be_bytes_byte.
  assert (Hl : length (be_bytes 8 v) = 8%nat) by apply length_be_bytes.
  unfold le_bytes. generalize dependent (be_bytes 8 v). intros w Hb Hl.
  do 8 (destruct w as [|? w]; [done|]). destruct w; [|done].
  do 8 (apply Forall_cons_1 in Hb as [? Hb]).
  change (reverse (drop 4 _)) with [z; z0; z1; z2]. change (reverse (take 4 _)) with [z3; z4; z5; z6].
  by rewrite !be_bytes_4 by auto using Forall_cons_2.
Qed.

#[export] Instance asn_build_double_builds t v :
  Builds (fun m d dl => asn_build_double m d dl t v sizeof_double)
         (opaque_tlv ASN_OPAQUE_DOUBLE (be_bytes 8 v)).
Proof.
  unfold asn_build_double. rewrite Z.eqb_refl. cbn [negb]. rewrite wire_of_double_be.
  apply with_opaque_builds; [|apply zlen_be_bytes|done].
  intros m d dl Hd Hdl Hm. rewrite zlen_be_bytes in *. change sizeof_double with 8.
  rewrite poke_n_zlen by (autorewrite with zlen; lia). cbn [mbind option_bind].
  by rewrite wrap_small by lia.
Qed.

(** Correctness of [asn_build_objid]. *)

(** A sub-identifier of 32 bits. *)
Abbreviation subid32 := (fun v : Z => 0 <= v < 2 ^ 32).

Lemma subid_octets_size v : 0 <= v < 2 ^ 32 -> subid_octets v = Z.of_nat (subid_size v).
Proof.
  intros Hv. unfold subid_octets. pose proof (subid_size_pos v).
  pose proof (subid_size_bound v 1 ltac:(lia) ltac:(lia)) as H1. change (2 ^ (7 * 1)) with 0x80 in H1.
  pose proof (subid_size_bound v 2 ltac:(lia) ltac:(lia)) as H2. change (2 ^ (7 * 2)) with 0x4000 in H2.
  pose proof (subid_size_bound v 3 ltac:(lia) ltac:(lia)) as H3. change (2 ^ (7 * 3)) with 0x200000 in H3.
  pose proof (subid_size_bound v 4 ltac:(lia) ltac:(lia)) as H4. change (2 ^ (7 * 4)) with 0x10000000 in H4.
  pose proof (subid_size_bound v 5 ltac:(lia) ltac:(lia)) as H5. change (2 ^ (7 * 5)) with 0x800000000 in H5.
  repeat match goal with |- context [if ?a <? ?b then _ else _] => destruct (Z.ltb_spec a b) end; lia.
Qed.

Lemma lor_0x80 x : 0 <= x < 128 -> Z.lor x 0x80 = x + 128.
Proof. intros. rewrite Z.lor_comm. change 0x80 with (1 * 2 ^ 7). rewrite lor_disjoint by lia. lia. Qed.

Lemma lead_octet v k :
  0 <= k -> 0 <= v < 2 ^ (k + 7) -> u8 (Z.lor (Z.shiftr v k) 0x80) = (v / 2 ^ k) mod 128 + 128.
Proof.
  intros Hk Hv. rewrite Z.shiftr_div_pow2 by lia. rewrite Z.pow_add_r in Hv by lia.
  pose proof (pow2_pos k Hk).
  assert (0 <= v / 2 ^ k < 128) by (split; [apply Z.div_pos; lia|apply Z.div_lt_upper_bound; lia]).
  by rewrite lor_0x80, wrap_small, Z.mod_small by lia.
Qed.

Lemma mid_octet v k :
  0 <= k -> u8 (Z.lor (Z.land (Z.shiftr v k) 0x7f) 0x80) = (v / 2 ^ k) mod 128 + 128.
Proof.
  intros Hk. rewrite Z.shiftr_div_pow2, land_0x7f by lia.
  pose proof (Z.mod_pos_bound (v / 2 ^ k) 128 ltac:(lia)). by rewrite lor_0x80, wrap_small by lia.
Qed.

Lemma last_octet v : u8 (Z.land v 0x07f) = (v / 2 ^ 0) mod 128 + 0.
Proof.
  rewrite land_0x7f, Z.div_1_r, Z.add_0_r. apply wrap_small.
  pose proof (Z.mod_pos_bound v 128 ltac:(lia)). lia.
Qed.

(** The [switch] stores the base-128 digits. *)
Lemma subid_bytes_ber v : 0 <= v < 2 ^ 32 -> subid_bytes (subid_octets v) v = ber_subid v.
Proof.
  intros Hv. unfold ber_subid. rewrite subid_octets_size by done.
  pose proof (subid_size_pos v) as Hp.
  pose proof (proj1 (subid_size_bound v 5 ltac:(lia) ltac:(lia)) ltac:(lia)) as H5.
  pose proof (proj2 (subid_size_bound v (Z.of_nat (subid_size v)) ltac:(lia) ltac:(lia)) ltac:(lia)) as Hb.
  unfold subid_bytes. rewrite last_octet, !mid_octet by lia.
  destruct (subid_size v) as [|[|[|[|[|[|]]]]]]; try lia; cbn -[Z.pow Z.div Z.modulo Z.lor Z.shiftr wrap].
  - rewrite wrap_small by lia. f_equal. rewrite Z.div_1_r, Z.add_0_r. symmetry. apply Z.mod_small. lia.
  - by rewrite (lead_octet v 7) by lia.
  - by rewrite (lead_octet v 14) by lia.
  - by rewrite (lead_octet v 21) by lia.
  - by rewrite (lead_octet v 28) by lia.
Qed.

(** * The two loops *)

Lemma size_loop_spec rest : forall fuel objid op i v sizes asn,
  holds objid op rest -> 0 <= v < 2 ^ 32 -> Forall subid32 rest ->
  1 <= i -> i + 1 + zlen rest <= zlen sizes -> zlen sizes < 2 ^ 31 -> (length rest < fuel)%nat ->
  size_loop fuel objid op i (i + 1 + zlen rest) v sizes asn =
  Some (patch sizes i (subid_octets <$> v :: rest), asn + zlen ((v :: rest) ≫= ber_subid)).
Proof.
  induction rest as [|w rest IH]; intros [|fuel] objid op i v sizes asn Hh Hv Hr Hi Hs Hz Hf;
    try (simpl in Hf; lia); cbn [size_loop]; rewrite CHECK_OVERFLOW_U_id by done;
    rewrite ?zlen_cons, ?zlen_nil in *.
  - rewrite poke_zlen by lia. obind.
    rewrite swrap_small, (proj2 (Z.leb_le _ _)) by lia. cbn. rewrite app_nil_r, zlen_ber_subid.
    by rewrite subid_octets_size.
  - pose proof (zlen_nonneg rest).
    apply (Forall_cons_1 _ w rest) in Hr as [Hw Hr]. apply holds_cons in Hh as [Hp Hh].
    rewrite poke_zlen by lia. obind.
    rewrite swrap_small, (proj2 (Z.leb_gt _ _)) by lia. rewrite Hp. obind.
    replace (i + 1 + (zlen rest + 1)) with (i + 1 + 1 + zlen rest) by lia.
    assert (Hl : zlen (patch sizes i [subid_octets v]) = zlen sizes)
      by (rewrite zlen_patch; change (zlen [subid_octets v]) with 1; lia).
    rewrite IH by (done || lia || (simpl in Hf; lia)).
    rewrite patch_patch by (simpl; unfold zlen in *; lia).
    change ((v :: w :: rest) ≫= ber_subid) with (ber_subid v ++ ((w :: rest) ≫= ber_subid)).
    rewrite zlen_app, zlen_ber_subid, <- subid_octets_size by done. result_eq.
Qed.

Lemma oid_store_loop_spec rest : forall objid op i v sizes m d,
  holds objid op rest -> holds sizes i (subid_octets <$> rest) -> Forall subid32 rest ->
  2 <= i -> 0 <= d -> d + zlen (rest ≫= ber_subid) <= zlen m ->
  oid_store_loop (length rest) objid op i v sizes m d =
  Some (patch m d (rest ≫= ber_subid), d + zlen (rest ≫= ber_subid)).
Proof.
  induction rest as [|w rest IH]; intros objid op i v sizes m d Hh Hs Hr Hi Hd Hm.
  { simpl. rewrite patch_nil. change (zlen []) with 0. result_eq. }
  apply (Forall_cons_1 _ w rest) in Hr as [Hw Hr]. apply holds_cons in Hh as [Hp Hh].
  rewrite fmap_cons in Hs. apply holds_cons in Hs as [Hsp Hs].
  change ((w :: rest) ≫= ber_subid) with (ber_subid w ++ (rest ≫= ber_subid)) in *.
  rewrite zlen_app in *. pose proof (zlen_nonneg (rest ≫= ber_subid)). pose proof (zlen_nonneg (ber_subid w)).
  cbn [length oid_store_loop]. rewrite (proj2 (Z.eqb_neq i 1)) by lia. cbn [negb].
  rewrite Hp. obind. rewrite (wrap_small 32 w), Hsp by done. obind.
  rewrite subid_bytes_ber, poke_n_zlen by (done || lia). obind.
  fold (zlen (ber_subid w)). rewrite IH by (done || lia || (rewrite zlen_patch; lia)).
  rewrite patch_patch by (unfold zlen in *; lia). result_eq.
Qed.

Lemma bind_subid_bound vs : Forall subid32 vs -> zlen (vs ≫= ber_subid) <= 5 * Z.of_nat (length vs).
Proof.
  induction 1 as [|v vs Hv _ IH]; [done|].
  change ((v :: vs) ≫= ber_subid) with (ber_subid v ++ (vs ≫= ber_subid)).
  rewrite zlen_app, zlen_ber_subid. simpl length.
  pose proof (proj1 (subid_size_bound v 5 ltac:(lia) ltac:(lia)) ltac:(lia)). lia.
Qed.

Lemma objid_first_wire x y rest :
  0 <= x <= 2 -> 0 <= y -> (x < 2 -> y < 40) -> 40 * x + y < 2 ^ 32 ->
  objid_first (x :: y :: rest) (zlen (x :: y :: rest)) =
  Some (Next (40 * x + y, zlen (x :: y :: rest), 2)).
Proof.
  intros Hx Hy Hxy Hf. unfold objid_first. rewrite !zlen_cons. pose proof (zlen_nonneg rest).
  rewrite (proj2 (Z.eqb_neq _ 0)) by lia. simpl. rewrite (proj2 (Z.ltb_ge 2 x)) by lia.
  rewrite (proj2 (Z.eqb_neq _ 1)) by lia.
  assert ((40 <? y) && (x <? 2) = false) as ->.
  { destruct (Z.ltb_spec 40 y), (Z.ltb_spec x 2); lia || done. }
  rewrite (wrap_small 64 (x * 40)), wrap_small by lia. result_eq.
Qed.

#[export] Instance asn_build_objid_builds t o :
  wire_oid o -> zlen o <= MAX_OID_LEN ->
  Builds (fun m d dl => asn_build_objid m d dl t o (zlen o)) (tlv t (ber_oid o)).
Proof.
  intros Ho Hlen m d dl. destruct o as [|x [|y rest]]; [done..|]. destruct Ho as (Hx & Hy & Hxy & Hf & Hr).
  unfold asn_build_objid. rewrite objid_first_wire by done. obind.
  unfold MAX_OID_LEN in *. rewrite (proj2 (Z.ltb_ge 128 _)) by lia.
  change (ber_oid (x :: y :: rest)) with (((40 * x + y) :: rest) ≫= ber_subid).
  assert (Hh : holds (x :: y :: rest) 2 rest) by (exists [x; y], []; rewrite app_nil_r; done).
  set (szs := replicate (Z.to_nat 128) 0).
  assert (Hz : zlen szs = 128) by reflexivity.
  replace (zlen (x :: y :: rest)) with (1 + 1 + zlen rest) in * by (rewrite !zlen_cons; lia).
  rewrite size_loop_spec by (done || lia || unfold zlen; lia). obind. rewrite Z.add_0_l.
  pose proof (zlen_nonneg rest).
  set (v := 40 * x + y) in *. set (c := (v :: rest) ≫= ber_subid).
  assert (Hv : Forall subid32 (v :: rest)) by (constructor; [subst v; lia|done]).
  pose proof (bind_subid_bound _ Hv) as Hc. fold c in Hc. simpl length in Hc. fold (zlen rest) in *.
  revert m d dl. apply with_header_builds; [|done|unfold zlen in *; lia].
  intros m d dl Hd Hdl Hm.
  replace (Z.to_nat (1 + 1 + zlen rest - 1)) with (S (length rest)) by (unfold zlen; lia).
  cbn [oid_store_loop]. rewrite Z.eqb_refl. cbn [negb]; obind.
  assert (Hsz : holds (patch szs 1 (subid_octets <$> v :: rest)) 1 (subid_octets <$> v :: rest)).
  { apply patch_holds; rewrite ?length_fmap; simpl length; unfold zlen in *; lia. }
  rewrite fmap_cons in Hsz. pose proof Hsz as [Hp Hsz']%holds_cons. rewrite fmap_cons, Hp.
  obind. rewrite subid_bytes_ber by (subst v; lia).
  change c with (ber_subid v ++ (rest ≫= ber_subid)) in *. rewrite zlen_app in *.
  pose proof (zlen_nonneg (ber_subid v)). pose proof (zlen_nonneg (rest ≫= ber_subid)).
  rewrite poke_n_zlen by lia. obind. fold (zlen (ber_subid v)).
  rewrite oid_store_loop_spec by (done || lia || (rewrite zlen_patch; lia)). obind.
  rewrite patch_patch by (unfold zlen in *; lia). rewrite wrap_small by lia. result_eq.
Qed.
