(* ===== verification/Asn1RBuild.v ===== *)
(** The reverse BER builders of [snmplib/asn1.c] ([asn_realloc_rbuild_*]), with
    [asn_realloc] and [snmp_realloc] ([snmplib/tools.c]).

    A reverse builder fills the buffer [*pkt] of [*pkt_len] bytes from its end
    towards its start; [*offset] bytes are in use.  When the parameter [r] is
    set, the buffer grows on demand.  The three [IN/OUT] arguments are the
    record [rstate]; a null [*pkt] is the empty object.  A result is the final
    state and the C result (1 or 0); [None] is an access outside the buffer.
    [realloc] is a parameter (type class [Allocator]). *)
From Stdlib Require Import ZArith Lia.
From S2P Require Import Prelude Asn1Defs Ber Asn1Build.

(** [realloc(b, n)] ([malloc(n)] when there is no [b]): fails, or gives an
    object of [n] bytes that starts with the old contents, or with as much of it
    as fits; objects are smaller than [PTRDIFF_MAX]. *)
Class Allocator : Type := {
  realloc : list Z -> Z -> option (list Z);
  realloc_size b n b' : realloc b n = Some b' -> zlen b' = n /\ n < 2 ^ 63;
  realloc_keeps b n b' : realloc b n = Some b' -> zlen b <= n -> take (length b) b' = b;
  realloc_shrinks b n b' : realloc b n = Some b' -> 0 <= n <= zlen b -> b' = take (Z.to_nat n) b;
}.

Record rstate : Type := mkrstate { pkt : list Z; pkt_len : Z; offset : Z }.

Definition rres : Type := option (rstate * bool).

(** [if (!e) return 0; k] *)
Definition rseq (e : rres) (k : rstate -> rres) : rres :=
  '(s, ok) ← e; if (ok : bool) then k s else Some (s, false).

Notation "s <~ e ; k" := (rseq e (fun s => k))
  (at level 100, e at level 99, k at level 200, right associativity) : c_scope.

Definition set_offset (s : rstate) (o : Z) : rstate := mkrstate (pkt s) (pkt_len s) o.
Definition set_pkt (s : rstate) (p : list Z) : rstate := mkrstate p (pkt_len s) (offset s).

Section rbuild.
Context {A : Allocator}.

Definition snmp_realloc (buf : list Z) (buf_len : Z) : option (list Z * Z) :=
  let new_buf_len :=
    if buf_len <=? 255 then u64 (buf_len + 256)
    else if (255 <? buf_len) && (buf_len <=? 8191) then u64 (buf_len * 2)
    else if 8191 <? buf_len then u64 (buf_len + 8192)
    else 0 in
  match realloc buf new_buf_len with
  | Some new_buf => Some (new_buf, new_buf_len)
  | None => None
  end.

Definition asn_realloc (s : rstate) : rres :=
  let old_pkt_len := pkt_len s in
  match snmp_realloc (pkt s) (pkt_len s) with
  | Some (p, len) =>
    bs ← peek_n p 0 old_pkt_len;
    p ← poke_n p (len - old_pkt_len) bs;
    p ← poke_n p 0 (replicate (Z.to_nat (len - old_pkt_len)) 32);
    Some (mkrstate p len (offset s), true)
  | None => Some (s, false)
  end.

(** [if (( *pkt_len - *offset) < 1 && !(r && asn_realloc(pkt, pkt_len))) return 0;] *)
Definition room1 (r : bool) (s : rstate) : rres :=
  if u64 (pkt_len s - offset s) <? 1
  then if r then asn_realloc s else Some (s, false)
  else Some (s, true).

(** [while (( *pkt_len - *offset) < n) if (!(r && asn_realloc(pkt, pkt_len))) return 0;]
    Every turn adds 256 bytes at least, so [n + 1] turns are enough. *)
Fixpoint room_loop (fuel : nat) (r : bool) (n : Z) (s : rstate) : rres :=
  if u64 (pkt_len s - offset s) <? n
  then match fuel with
       | O => None
       | S k => s <~ (if r then asn_realloc s else Some (s, false)); room_loop k r n s
       end
  else Some (s, true).

Definition room (r : bool) (n : Z) (s : rstate) : rres := room_loop (S (Z.to_nat n)) r n s.

(** [*( *pkt + *pkt_len - (++*offset)) = b;] *)
Definition rstore (b : Z) (s : rstate) : rres :=
  let s := set_offset s (u64 (offset s + 1)) in
  p ← poke (pkt s) (pkt_len s - offset s) b;
  Some (set_pkt s p, true).

(** [*offset += n; memcpy( *pkt + *pkt_len - *offset, bs, n);] *)
Definition rcopy (bs : list Z) (n : Z) (s : rstate) : rres :=
  let s := set_offset s (u64 (offset s + n)) in
  src ← peek_n bs 0 n;
  p ← poke_n (pkt s) (pkt_len s - offset s) src;
  Some (set_pkt s p, true).

Definition rput (r : bool) (b : Z) (s : rstate) : rres := s <~ room1 r s; rstore b s.

(** [while (length > 0xff) { room; store (length & 0xff); length >>= 8; }]; a
    [size_t] has 8 bytes. *)
Fixpoint rlength_loop (fuel : nat) (r : bool) (length : Z) (s : rstate)
    (k : Z -> rstate -> rres) : rres :=
  if 0xff <? length then
    match fuel with
    | O => None
    | S f => s <~ rput r (Z.land length 0xff) s; rlength_loop f r (Z.shiftr length 8) s k
    end
  else k length s.

Definition asn_realloc_rbuild_length (r : bool) (length : Z) (s : rstate) : rres :=
  let start_offset := offset s in
  if length <=? 0x7f then rput r (u8 length) s
  else
    rlength_loop 8 r length s (fun length s =>
      s <~ room r 2 s;
      s <~ rstore (Z.land length 0xff) s;
      let tmp_int := s32 (u64 (offset s - start_offset)) in
      rstore (u8 (Z.lor tmp_int 0x80)) s).

Definition asn_realloc_rbuild_header (r : bool) (type length : Z) (s : rstate) : rres :=
  s <~ asn_realloc_rbuild_length r length s;
  rput r type s.

(** [true] is the C result 1. *)
Definition _asn_realloc_build_header_check (s : rstate) (typedlen : Z) : bool :=
  bool_decide (pkt s = []) || (pkt_len s <? typedlen).

(** [if (asn_realloc_rbuild_header(...)) { if (check) return 0; else return 1; } return 0;] *)
Definition rheader_checked (r : bool) (type length : Z) (typedlen : rstate -> Z) (s : rstate) : rres :=
  s <~ asn_realloc_rbuild_header r type length s;
  Some (s, negb (_asn_realloc_build_header_check s (typedlen s))).

(** ** Integers *)

(** [while (integer != testvalue) { room; store integer; integer >>= 8; }]; a
    [long] has 8 bytes. *)
Fixpoint rint_loop (fuel : nat) (r : bool) (testvalue integer : Z) (s : rstate) : rres :=
  if negb (integer =? testvalue) then
    match fuel with
    | O => None
    | S f => s <~ rput r (u8 integer) s; rint_loop f r testvalue (Z.shiftr integer 8) s
    end
  else Some (s, true).

(** [if (( *( *pkt + *pkt_len - *offset) & 0x80) != (testvalue & 0x80)) { room; store pad; }] *)
Definition rsign (r : bool) (testvalue pad : Z) (s : rstate) : rres :=
  b ← peek (pkt s) (pkt_len s - offset s);
  if negb (Z.land b 0x80 =? Z.land testvalue 0x80) then rput r pad s else Some (s, true).

Definition asn_realloc_rbuild_int (r : bool) (type integer intsize : Z) (s : rstate) : rres :=
  let start_offset := offset s in
  if negb (intsize =? sizeof_long) then Some (s, false)
  else
    let integer := CHECK_OVERFLOW_S integer in
    let testvalue := if integer <? 0 then -1 else 0 in
    s <~ rput r (u8 integer) s;
    s <~ rint_loop 8 r testvalue (Z.shiftr integer 8) s;
    s <~ rsign r testvalue (Z.land testvalue 0xff) s;
    rheader_checked r type (u64 (offset s - start_offset)) (fun s => u64 (offset s - start_offset)) s.

Definition asn_realloc_rbuild_unsigned_int (r : bool) (type integer intsize : Z) (s : rstate) : rres :=
  let start_offset := offset s in
  if negb (intsize =? sizeof_long) then Some (s, false)
  else
    let integer := CHECK_OVERFLOW_U integer in
    s <~ rput r (u8 integer) s;
    s <~ rint_loop 8 r 0 (Z.shiftr integer 8) s;
    s <~ rsign r 0 0 s;
    rheader_checked r type (u64 (offset s - start_offset)) (fun s => u64 (offset s - start_offset)) s.

(** ** Strings, sequences, null *)

Definition asn_realloc_rbuild_string (r : bool) (type : Z) (str : list Z) (strlength : Z) (s : rstate)
  : rres :=
  s <~ room r strlength s;
  s <~ rcopy str strlength s;
  rheader_checked r type strlength (fun _ => strlength) s.

Definition asn_realloc_rbuild_bitstring (r : bool) (type : Z) (str : list Z) (strlength : Z) (s : rstate)
  : rres :=
  s <~ room r strlength s;
  s <~ rcopy str strlength s;
  rheader_checked r type strlength (fun _ => strlength) s.

Definition asn_realloc_rbuild_sequence (r : bool) (type length : Z) (s : rstate) : rres :=
  asn_realloc_rbuild_header r type length s.

Definition asn_realloc_rbuild_null (r : bool) (type : Z) (s : rstate) : rres :=
  asn_realloc_rbuild_header r type 0 s.

(** ** Object identifiers *)

(** [while (tmpint > 0) { room; store ((tmpint & 0x7f) | 0x80); tmpint >>= 7; }];
    an [oid] has 64 bits. *)
Fixpoint rsubid_loop (fuel : nat) (r : bool) (tmpint : Z) (s : rstate) : rres :=
  if 0 <? tmpint then
    match fuel with
    | O => None
    | S f => s <~ rput r (u8 (Z.lor (Z.land tmpint 0x7f) 0x80)) s; rsubid_loop f r (Z.shiftr tmpint 7) s
    end
  else Some (s, true).

Definition rsubid (r : bool) (tmpint : Z) (s : rstate) : rres :=
  s <~ rput r (Z.land (u8 tmpint) 0x7f) s;
  rsubid_loop 10 r (Z.shiftr tmpint 7) s.

(** [for (i = objidlength; i > 2; i--)]; [n] turns are left, [i = n + 2]. *)
Fixpoint rsubids (n : nat) (r : bool) (objid : list Z) (s : rstate) : rres :=
  match n with
  | O => Some (s, true)
  | S k =>
    tmpint ← peek objid (Z.of_nat n + 2 - 1);
    s <~ rsubid r (CHECK_OVERFLOW_U tmpint) s;
    rsubids k r objid s
  end.

Definition asn_realloc_rbuild_objid (r : bool) (type : Z) (objid : list Z) (objidlength : Z) (s : rstate)
  : rres :=
  let start_offset := offset s in
  s <~ (if objidlength =? 0 then
          s <~ room r 2 s; s <~ rstore 0 s; rstore 0 s
        else
          x ← peek objid 0;
          if 2 <? x then Some (s, false)
          else if objidlength =? 1 then rput r (u8 x) s
          else
            s <~ rsubids (Z.to_nat (objidlength - 2)) r objid s;
            y ← peek objid 1;
            if (40 <? y) && (x <? 2) then Some (s, false)
            else rsubid r (u64 (u64 (x * 40) + y)) s);
  rheader_checked r type (u64 (offset s - start_offset)) (fun s => u64 (offset s - start_offset)) s.

(** ** 64-bit integers *)

(** [while (low != testvalue && (limit ? count < 4 : 1)) { count++; room; store; low >>= 8; }];
    the continuation gets [count]. *)
Fixpoint rlow_loop (fuel : nat) (r limit : bool) (testvalue low count : Z) (s : rstate)
    (k : Z -> rstate -> rres) : rres :=
  if negb (low =? testvalue) && (negb limit || (count <? 4)) then
    match fuel with
    | O => None
    | S f => s <~ rput r (u8 low) s; rlow_loop f r limit testvalue (Z.shiftr low 8) (count + 1) s k
    end
  else k count s.

(** [for (; count < 4; count++) { room; store pad; }] *)
Fixpoint rpad (n : nat) (r : bool) (pad : Z) (s : rstate) : rres :=
  match n with
  | O => Some (s, true)
  | S k => s <~ rput r pad s; rpad k r pad s
  end.

(** [while (free < 5) ...; store intsize; store tag; store ASN_OPAQUE_TAG1;] and
    the header of the Opaque. *)
Definition ropaque (r : bool) (tag intsize : Z) (s : rstate) : rres :=
  s <~ room r 5 s;
  s <~ rstore (u8 intsize) s;
  s <~ rstore tag s;
  s <~ rstore ASN_OPAQUE_TAG1 s;
  rheader_checked r ASN_OPAQUE (u64 (intsize + 3)) (fun _ => u64 (intsize + 3)) s.

Definition asn_realloc_rbuild_unsigned_int64 (r : bool) (type : Z) (c : counter64) (countersize : Z)
    (s : rstate) : rres :=
  let start_offset := offset s in
  if negb (countersize =? sizeof_counter64) then Some (s, false)
  else
    let high := CHECK_OVERFLOW_U (high c) in
    let low := CHECK_OVERFLOW_U (low c) in
    s <~ rput r (u8 low) s;
    s <~ rlow_loop 8 r false 0 (Z.shiftr low 8) 1 s (fun count s =>
           if negb (high =? 0) then
             s <~ rpad (Z.to_nat (4 - count)) r 0 s;
             s <~ rput r (u8 high) s;
             rint_loop 8 r 0 (Z.shiftr high 8) s
           else Some (s, true));
    s <~ rsign r 0 0 s;
    let intsize := u64 (offset s - start_offset) in
    if type =? ASN_OPAQUE_COUNTER64 then ropaque r ASN_OPAQUE_COUNTER64 intsize s
    else if type =? ASN_OPAQUE_U64 then ropaque r ASN_OPAQUE_U64 intsize s
    else rheader_checked r type intsize (fun _ => intsize) s.

(** [low] and [high] are [int32_t]: the overflow macros do not change them. *)
Definition asn_realloc_rbuild_signed_int64 (r : bool) (type : Z) (c : counter64) (countersize : Z)
    (s : rstate) : rres :=
  let start_offset := offset s in
  let low := s32 (low c) in
  let high := s32 (high c) in
  let testvalue := if negb (Z.land high 0x80000000 =? 0) then -1 else 0 in
  let pad := if testvalue =? 0 then 0 else 0xff in
  if negb (countersize =? sizeof_counter64) then Some (s, false)
  else
    s <~ rput r (u8 low) s;
    s <~ rlow_loop 4 r true testvalue (Z.shiftr low 8) 1 s (fun count s =>
           if negb (high =? testvalue) then
             s <~ rpad (Z.to_nat (4 - count)) r pad s;
             s <~ rput r (u8 high) s;
             rint_loop 4 r testvalue (Z.shiftr high 8) s
           else Some (s, true));
    s <~ rsign r testvalue pad s;
    let intsize := u64 (offset s - start_offset) in
    ropaque r ASN_OPAQUE_I64 intsize s.

(** ** Floating point *)

(** The special tag and length in front of a value already stored. *)
Definition rfloat_tail (r : bool) (tag size : Z) (s : rstate) : rres :=
  s <~ rstore (u8 size) s;
  s <~ rstore tag s;
  s <~ rstore ASN_OPAQUE_TAG1 s;
  rheader_checked r ASN_OPAQUE (size + 3) (fun _ => size + 3) s.

Definition asn_realloc_rbuild_float (r : bool) (type floatVal floatsize : Z) (s : rstate) : rres :=
  if negb (floatsize =? sizeof_float) || (122 <? floatsize) then Some (s, false)
  else
    s <~ room r (floatsize + 3) s;
    let intVal := htonl floatVal in
    s <~ rcopy (le_bytes 4 intVal) floatsize s;
    rfloat_tail r ASN_OPAQUE_FLOAT floatsize s.

Definition asn_realloc_rbuild_double (r : bool) (type doubleVal doublesize : Z) (s : rstate) : rres :=
  if negb (doublesize =? sizeof_double) || (122 <? doublesize) then Some (s, false)
  else
    s <~ room r (doublesize + 3) s;
    s <~ rcopy (wire_of_double doubleVal) doublesize s;
    rfloat_tail r ASN_OPAQUE_DOUBLE doublesize s.

End rbuild.
