(* ===== verification/Asn1RBuildProps.v ===== *)
(** Correctness of the reverse builders of [Asn1RBuild]: each one puts exactly
    the encoding [Ber] defines in front of what is already in the buffer, never
    touches memory outside it, and fails only when there is no room and the
    buffer may not or cannot grow. *)
From Stdlib Require Import ZArith Lia.
From S2P Require Import Prelude Asn1Defs Ber Asn1Parse Asn1ParseProps Asn1ParseWide Asn1Build Asn1BuildProps.
From S2P Require Import Asn1RBuild.

(** The buffer as its owner sees it. *)
Definition rwf (s : rstate) : Prop :=
  pkt_len s = zlen (pkt s) /\ 0 <= offset s <= pkt_len s /\ pkt_len s < 2 ^ 63.

(** The bytes encoded so far. *)
Definition written (s : rstate) : list Z := drop (Z.to_nat (pkt_len s - offset s)) (pkt s).

Lemma zlen_written s : rwf s -> zlen (written s) = offset s.
Proof. intros (Hl & Ho & _). unfold written, zlen in *. rewrite length_drop. lia. Qed.

Section contract.
Context {A : Allocator}.

(** Every request below [L] bytes is served. *)
Definition grows (L : Z) : Prop := forall b n, zlen b <= n < L -> is_Some (realloc b n).

(** Outcome of a (partial) builder started in [s] to put [bs] in front. *)
Definition rpost (r : bool) (s : rstate) (bs : list Z) (res : rres) : Prop :=
  exists s' ok, res = Some (s', ok) /\ rwf s' /\
    pkt_len s <= pkt_len s' /\ (r = false -> pkt_len s' = pkt_len s) /\
    (if (ok : bool) then written s' = bs ++ written s
     else pkt_len s - offset s < zlen bs /\ (r = true -> ~ grows (offset s + zlen bs + 8192)) /\
          written s `suffix_of` written s').

Lemma grows_mono L L' : L <= L' -> grows L' -> grows L.
Proof. intros Hl Hg b n Hn. apply Hg. lia. Qed.

(** Sequencing of two steps. *)
Lemma rseq_post r s bs1 bs2 e k :
  rwf s -> rpost r s bs1 e ->
  (forall s1, rwf s1 -> offset s1 = offset s + zlen bs1 -> written s1 = bs1 ++ written s ->
              rpost r s1 bs2 (k s1)) ->
  rpost r s (bs2 ++ bs1) (rseq e k).
Proof.
  intros Hs (s1 & ok & -> & Hw1 & Hle & Hr & Hok) Hk. unfold rseq. simpl.
  unfold rpost. pose proof (zlen_app bs2 bs1). pose proof (zlen_nonneg bs1). pose proof (zlen_nonneg bs2).
  destruct ok.
  - assert (Ho : offset s1 = offset s + zlen bs1).
    { rewrite <- !zlen_written, Hok, zlen_app by done. lia. }
    destruct (Hk s1 Hw1 Ho Hok) as (s2 & ok2 & -> & Hw2 & Hle2 & Hr2 & Hok2).
    exists s2, ok2. split_and!; try done; try lia.
    { intros ->. rewrite Hr2, Hr by done. done. }
    destruct ok2.
    + by rewrite Hok2, Hok, app_assoc.
    + destruct Hok2 as (Hf & Hg & Hsf). split_and!; [lia| |].
      * intros Hr' Hgr. apply Hg; [done|]. eapply grows_mono; [|done]. lia.
      * etransitivity; [|done]. rewrite Hok. by exists bs1.
  - destruct Hok as (Hf & Hg & Hsf). exists s1, false. split_and!; try done; try lia.
    intros Hr' Hgr. apply Hg; [done|]. eapply grows_mono; [|done]. lia.
Qed.

Lemma rpost_ret r s : rwf s -> rpost r s [] (Some (s, true)).
Proof. intros. exists s, true. split_and!; done || lia. Qed.

(** ** Growing the buffer *)

(** The buffer is larger, what is encoded stays encoded. *)
Definition grown (s s' : rstate) : Prop :=
  rwf s' /\ offset s' = offset s /\ written s' = written s /\
  pkt_len s + 256 <= pkt_len s' <= pkt_len s + 8192.

Lemma snmp_realloc_size b n b' n' :
  0 <= n < 2 ^ 63 -> snmp_realloc b n = Some (b', n') ->
  n + 256 <= n' <= n + 8192 /\ realloc b n' = Some b'.
Proof.
  intros Hn H. unfold snmp_realloc in H.
  destruct (Z.leb_spec n 255), (Z.ltb_spec 255 n), (Z.leb_spec n 8191), (Z.ltb_spec 8191 n);
    simpl in H; try lia; rewrite wrap_small in H by lia;
    destruct (realloc _ _) eqn:E; simplify_eq; (split; [lia|done]).
Qed.

Lemma snmp_realloc_fails b n :
  0 <= n < 2 ^ 63 -> zlen b = n -> snmp_realloc b n = None -> ~ grows (n + 8193).
Proof.
  intros Hn Hb H Hg. unfold snmp_realloc in H.
  destruct (Z.leb_spec n 255), (Z.ltb_spec 255 n), (Z.leb_spec n 8191), (Z.ltb_spec 8191 n);
    simpl in H; try lia; rewrite wrap_small in H by lia;
    match type of H with context [realloc b ?k] =>
      destruct (Hg b k) as [b' Hb']; [lia|]; rewrite Hb' in H; done end.
Qed.

Lemma asn_realloc_spec s :
  rwf s ->
  (exists s', asn_realloc s = Some (s', true) /\ grown s s') \/
  (asn_realloc s = Some (s, false) /\ ~ grows (pkt_len s + 8193)).
Proof.
  intros (Hl & Ho & Hp). unfold asn_realloc.
  destruct (snmp_realloc (pkt s) (pkt_len s)) as [[p n]|] eqn:E; [left|right].
  - apply snmp_realloc_size in E as [Hn E]; [|lia].
    pose proof (realloc_size _ _ _ E) as [Hz Hn63]. pose proof (realloc_keeps _ _ _ E ltac:(lia)) as Hk.
    assert (Hpk : peek_n p 0 (pkt_len s) = Some (pkt s)).
    { unfold peek_n. rewrite !(proj2 (Z.leb_le _ _)) by (unfold zlen in *; lia). simpl.
      replace (Z.to_nat (pkt_len s)) with (length (pkt s)) by (unfold zlen in *; lia).
      by rewrite drop_0, Hk. }
    rewrite Hpk. obind. rewrite poke_n_zlen by lia. obind.
    assert (Hrep : zlen (replicate (Z.to_nat (n - pkt_len s)) 32) = n - pkt_len s)
      by (unfold zlen; rewrite length_replicate; lia).
    rewrite poke_n_zlen by (rewrite ?zlen_patch; lia). obind.
    eexists. split; [done|]. split_and!; simpl; try done; try lia.
    + split_and!; simpl; try lia. rewrite !zlen_patch; rewrite ?zlen_patch; lia.
    + unfold written. simpl. set (k := n - pkt_len s) in *.
      unfold patch at 1. rewrite take_0, app_nil_l.
      rewrite drop_app_ge by (rewrite length_replicate; lia). rewrite drop_drop, length_replicate.
      unfold patch. rewrite drop_app_ge by (rewrite length_take; unfold zlen in *; lia).
      rewrite drop_app_le by (rewrite length_take; unfold zlen in *; lia).
      rewrite (drop_ge p), app_nil_r by (unfold zlen in *; lia).
      f_equal. rewrite length_take. unfold zlen in *. lia.
  - split; [done|]. apply snmp_realloc_fails in E; [done|lia|done].
Qed.

(** ** Room and stores *)

(** The step that makes room for [n] bytes: nothing is written. *)
Definition rroom (r : bool) (s : rstate) (n : Z) (res : rres) : Prop :=
  exists s' ok, res = Some (s', ok) /\ rwf s' /\ pkt_len s <= pkt_len s' /\
    (r = false -> pkt_len s' = pkt_len s) /\ offset s' = offset s /\ written s' = written s /\
    (if (ok : bool) then n <= pkt_len s' - offset s'
     else pkt_len s - offset s < n /\ (r = true -> ~ grows (offset s + n + 8192))).

Lemma rfree s : rwf s -> u64 (pkt_len s - offset s) = pkt_len s - offset s.
Proof. intros (_ & ? & ?). apply wrap_small. lia. Qed.

Lemma room1_spec r s : rwf s -> rroom r s 1 (room1 r s).
Proof.
  intros Hs. pose proof Hs as (_ & Hoff & _). unfold room1. rewrite rfree by done.
  destruct (Z.ltb_spec (pkt_len s - offset s) 1).
  - destruct r.
    + destruct (asn_realloc_spec s Hs) as [(s' & -> & Hw & Ho & Hwr & Hg)|[-> Hg]].
      * exists s', true. split_and!; done || lia.
      * exists s, false. split_and!; try done; try lia. intros _ Hgr. apply Hg.
        eapply grows_mono; [|done]. lia.
    + exists s, false. split_and!; done || lia.
  - exists s, true. split_and!; done || lia.
Qed.

Lemma room_loop_spec fuel r n s :
  rwf s -> n - (pkt_len s - offset s) <= Z.of_nat fuel -> rroom r s n (room_loop fuel r n s).
Proof.
  revert s. induction fuel as [|fuel IH]; intros s Hs Hn; simpl; rewrite rfree by done;
    destruct (Z.ltb_spec (pkt_len s - offset s) n); try lia; try (exists s, true; split_and!; done || lia).
  destruct r; simpl; [|exists s, false; split_and!; done || lia].
  destruct (asn_realloc_spec s Hs) as [(s' & -> & Hw & Ho & Hwr & Hg)|[-> Hg]]; simpl.
  - destruct (IH s' Hw ltac:(lia)) as (s2 & ok & -> & Hw2 & Hle & Hr & Ho2 & Hwr2 & Hok).
    exists s2, ok. split_and!; try done; try lia; try congruence.
    destruct ok; [lia|]. destruct Hok as [Hf Hgr]. split; [lia|]. by rewrite <- Ho.
  - exists s, false. split_and!; try done; try lia. intros _ Hgr. apply Hg.
    eapply grows_mono; [|done]. lia.
Qed.

Lemma room_spec r n s : rwf s -> 0 <= n -> rroom r s n (room r n s).
Proof. intros Hs Hn. apply room_loop_spec; [done|]. destruct Hs as (_ & ? & _). lia. Qed.

(** A copy into space known to be free. *)
Lemma rcopy_spec bs n s :
  rwf s -> zlen bs = n -> n <= pkt_len s - offset s ->
  exists s', rcopy bs n s = Some (s', true) /\ rwf s' /\ pkt_len s' = pkt_len s /\
    offset s' = offset s + n /\ written s' = bs ++ written s.
Proof.
  intros (Hl & Ho & Hp) Hn Hf. pose proof (zlen_nonneg bs). unfold rcopy, set_offset, set_pkt. simpl.
  rewrite peek_n_all by done. obind. rewrite wrap_small by lia.
  rewrite poke_n_zlen by lia. obind. eexists. split; [done|]. unfold rwf, written. simpl.
  split_and!; try lia.
  - by rewrite zlen_patch by lia.
  - unfold patch. rewrite drop_app_ge by (rewrite length_take; unfold zlen in *; lia).
    rewrite length_take. replace (_ - _)%nat with 0%nat by (unfold zlen in *; lia). rewrite drop_0.
    do 2 f_equal. unfold zlen in *. lia.
Qed.

Lemma rstore_rcopy b s : 0 <= pkt_len s - u64 (offset s + 1) < zlen (pkt s) -> rstore b s = rcopy [b] 1 s.
Proof.
  intros H. unfold rstore, rcopy, set_offset. simpl. unfold zlen in H. rewrite poke_patch by done.
  by rewrite poke_n_patch by (simpl; lia).
Qed.

Lemma rstore_spec b s :
  rwf s -> 1 <= pkt_len s - offset s ->
  exists s', rstore b s = Some (s', true) /\ rwf s' /\ pkt_len s' = pkt_len s /\
    offset s' = offset s + 1 /\ written s' = b :: written s.
Proof.
  intros Hs Hf. pose proof Hs as (Hl & Ho & Hp).
  rewrite rstore_rcopy by (rewrite wrap_small; lia). by apply rcopy_spec.
Qed.

(** A room check followed by code that writes [bs] without further checks. *)
Lemma room_then r s n bs e k :
  rwf s -> zlen bs = n -> rroom r s n e ->
  (forall s1, rwf s1 -> offset s1 = offset s -> written s1 = written s -> n <= pkt_len s1 - offset s1 ->
     exists s', k s1 = Some (s', true) /\ rwf s' /\ pkt_len s' = pkt_len s1 /\
       written s' = bs ++ written s1) ->
  rpost r s bs (rseq e k).
Proof.
  intros Hs Hn (s1 & ok & -> & Hw1 & Hle & Hr & Ho & Hwr & Hok) Hk. unfold rseq. simpl. destruct ok.
  - destruct (Hk s1 Hw1 Ho Hwr Hok) as (s' & -> & Hw' & Hp' & Hwr').
    exists s', true. rewrite Hp', Hwr', Hwr. split_and!; done || lia.
  - exists s1, false. rewrite Hn, Hwr. split_and!; try done; try lia; tauto.
Qed.

Lemma rput_post r b s : rwf s -> rpost r s [b] (rput r b s).
Proof.
  intros Hs. apply (room_then r s 1); [done|done|by apply room1_spec|].
  intros s1 Hs1 _ _ Hf. destruct (rstore_spec b s1 Hs1 Hf) as (s' & ? & ? & ? & ? & ?). eauto.
Qed.

(** ** Chains of steps

    [mid r s bs s1]: started in [s], a builder has come to [s1] with [bs]
    written. *)
Definition mid (r : bool) (s : rstate) (bs : list Z) (s1 : rstate) : Prop :=
  rwf s1 /\ pkt_len s <= pkt_len s1 /\ (r = false -> pkt_len s1 = pkt_len s) /\
  written s1 = bs ++ written s.

Lemma mid_start r s : rwf s -> mid r s [] s.
Proof. intros. split_and!; done || lia. Qed.

Lemma mid_rwf r s bs s1 : mid r s bs s1 -> rwf s1.
Proof. by intros (? & _). Qed.

Lemma mid_offset r s bs s1 : rwf s -> mid r s bs s1 -> offset s1 = offset s + zlen bs.
Proof.
  intros Hs (Hs1 & _ & _ & Hw). rewrite <- !zlen_written, Hw, zlen_app by done. lia.
Qed.

Lemma mid_done r s bs s1 : mid r s bs s1 -> rpost r s bs (Some (s1, true)).
Proof. intros (Hs1 & Hl & Hr & Hw). exists s1, true. by split_and!. Qed.

(** One step of a chain that ends with [bs] written. *)
Lemma rseq_mid r s bs1 b bs s1 e k :
  rwf s -> mid r s bs1 s1 -> rpost r s1 b e -> zlen b + zlen bs1 <= zlen bs ->
  (forall s2, mid r s (b ++ bs1) s2 -> rpost r s bs (k s2)) ->
  rpost r s bs (rseq e k).
Proof.
  intros Hs Hm (s2 & ok & -> & Hw2 & Hl2 & Hr2 & Hok) Hb Hk. pose proof (mid_offset _ _ _ _ Hs Hm) as Ho.
  destruct Hm as (Hw1 & Hl1 & Hr1 & Hwr1). unfold rseq. obind. pose proof (zlen_nonneg bs1).
  destruct ok.
  - apply Hk. split_and!; [done|lia| |by rewrite Hok, Hwr1, app_assoc].
    intros Hr. by rewrite Hr2, Hr1.
  - destruct Hok as (Hf & Hg & Hsf). exists s2, false. split_and!; try done; try lia.
    + intros Hr. by rewrite Hr2, Hr1.
    + intros Hr Hgr. apply Hg; [done|]. eapply grows_mono; [|done]. lia.
    + etransitivity; [|done]. rewrite Hwr1. by exists bs1.
Qed.

Lemma rseq_ret e : rseq e (fun s => Some (s, true)) = e.
Proof. unfold rseq. by destruct e as [[s [|]]|]. Qed.

(** The last step of a chain. *)
Lemma rlast_mid r s bs1 b bs s1 e :
  rwf s -> mid r s bs1 s1 -> rpost r s1 b e -> bs = b ++ bs1 -> rpost r s bs e.
Proof.
  intros Hs Hm He ->. rewrite <- (rseq_ret e).
  eapply rseq_mid; [done..|rewrite zlen_app; lia|]. intros s2. apply mid_done.
Qed.

(** The bytes written last. *)
Lemma peek_written s b w : rwf s -> written s = b :: w -> peek (pkt s) (pkt_len s - offset s) = Some b.
Proof.
  intros (Hl & Ho & _) Hw. unfold peek. rewrite (proj2 (Z.leb_le 0 _)) by lia.
  apply (f_equal (fun l => l !! 0%nat)) in Hw. unfold written in Hw.
  rewrite lookup_drop in Hw. change ((b :: w) !! 0%nat) with (Some b) in Hw. rewrite <- Hw. f_equal. lia.
Qed.

(** * Lengths and headers *)

Lemma rlength_loop_post r s n bs kont f : forall k s1 len,
  len = n / 2 ^ (8 * Z.of_nat k) -> rwf s -> 128 <= n < 2 ^ 64 -> Z.of_nat f = 8 - Z.of_nat k ->
  (k = 0%nat \/ 2 ^ (8 * Z.of_nat k) <= n) -> mid r s (be_bytes k n) s1 ->
  Z.of_nat (len_octets n) <= zlen bs ->
  (forall k s1, mid r s (be_bytes k n) s1 -> len_octets n = S k ->
     rpost r s bs (kont (n / 2 ^ (8 * Z.of_nat k)) s1)) ->
  rpost r s bs (rlength_loop f r len s1 kont).
Proof.
  induction f as [|f IH]; intros k s1 len -> Hs Hn Hf Hk Hm Hz Hkont; cbn [rlength_loop].
  all: pose proof (pow2_pos (8 * Z.of_nat k) ltac:(lia)) as HP;
    assert (HP8 : 2 ^ (8 * (Z.of_nat k + 1)) = 2 ^ (8 * Z.of_nat k) * 256)
      by (rewrite <- (Z.pow_add_r 2 _ 8) by lia; f_equal; lia);
    pose proof (len_octets_bound n (Z.of_nat k + 1) ltac:(lia) ltac:(lia)) as Hb;
    destruct (Z.ltb_spec 0xff (n / 2 ^ (8 * Z.of_nat k))) as [Hc|Hc].
  - assert (n / 2 ^ (8 * Z.of_nat k) < 256); [|lia]. replace k with 8%nat by lia.
    rewrite Z.div_small by lia. done.
  - apply Hkont; [done|]. destruct Hk as [->|Hk].
    + assert (n < 2 ^ (8 * (Z.of_nat 0 + 1))) by (rewrite Z.div_1_r in Hc; lia).
      pose proof (len_octets_pos n). lia.
    + exfalso. replace k with 8%nat in Hk by lia. change (2 ^ (8 * Z.of_nat 8)) with (2 ^ 64) in Hk. lia.
  - assert (Hge : 2 ^ (8 * Z.of_nat (S k)) <= n).
    { replace (Z.of_nat (S k)) with (Z.of_nat k + 1) by lia. rewrite HP8.
      pose proof (Z.mul_div_le n (2 ^ (8 * Z.of_nat k)) HP). nia. }
    eapply rseq_mid; [done|exact Hm|apply rput_post; eapply mid_rwf, Hm| |].
    + rewrite zlen_be_bytes. change (zlen [_]) with 1.
      assert (~ n < 2 ^ (8 * (Z.of_nat k + 1))) by (replace (Z.of_nat k + 1) with (Z.of_nat (S k)) by lia; lia).
      lia.
    + intros s2 Hm2. rewrite Z.shiftr_div_pow2, Z.div_div, <- Z.pow_add_r by lia.
      replace (8 * Z.of_nat k + 8) with (8 * Z.of_nat (S k)) by lia.
      apply (IH (S k)); try done; [lia|by right|].
      rewrite octet_of_low in Hm2. exact Hm2.
  - apply Hkont; [done|].
    assert (Hlt : n < 2 ^ (8 * (Z.of_nat k + 1))).
    { rewrite HP8. pose proof (Z.mul_succ_div_gt n (2 ^ (8 * Z.of_nat k)) HP). nia. }
    destruct Hk as [->|Hk]; [pose proof (len_octets_pos n); lia|].
    destruct k as [|k]; [pose proof (len_octets_pos n); lia|].
    pose proof (len_octets_bound n (Z.of_nat (S k)) ltac:(lia) ltac:(lia)). lia.
Qed.

(** Two stores after one room check. *)
Lemma rstore2_post r s a b k2 :
  rwf s -> (forall s1, rwf s1 -> offset s1 = offset s + 1 -> k2 s1 = rstore b s1) ->
  rpost r s [b; a] (s <~ room r 2 s; s <~ rstore a s; k2 s).
Proof.
  intros Hs Hk. apply (room_then r s 2); [done|done|apply room_spec; [done|lia]|].
  intros s1 Hs1 Ho1 Hw1 Hf. destruct (rstore_spec a s1 Hs1) as (s2 & -> & Hs2 & Hp2 & Ho2 & Hw2); [lia|].
  unfold rseq. obind. rewrite Hk by (done || lia).
  destruct (rstore_spec b s2 Hs2) as (s3 & -> & Hs3 & Hp3 & Ho3 & Hw3); [lia|].
  exists s3. rewrite Hw3, Hw2. split_and!; done || lia.
Qed.

Lemma asn_realloc_rbuild_length_post r n s :
  rwf s -> 0 <= n < 2 ^ 64 -> rpost r s (ber_length n) (asn_realloc_rbuild_length r n s).
Proof.
  intros Hs Hn. unfold asn_realloc_rbuild_length, ber_length. destruct (Z.leb_spec n 0x7f).
  { rewrite (proj2 (Z.ltb_lt n 128)), wrap_small by lia. by apply rput_post. }
  rewrite (proj2 (Z.ltb_ge n 128)) by lia.
  apply (rlength_loop_post r s n _ _ 8 0); [by rewrite Z.div_1_r|done|lia|done|by left|by apply mid_start|autorewrite with zlen; lia|].
  intros k s1 Hm Hk. pose proof (mid_offset _ _ _ _ Hs Hm) as Ho. rewrite zlen_be_bytes in Ho.
  pose proof (mid_rwf _ _ _ _ Hm) as Hs1. pose proof (len_octets_bound n 8 ltac:(lia) ltac:(lia)).
  eapply rlast_mid; [done|exact Hm|apply (rstore2_post r s1 _ (128 + Z.of_nat (len_octets n))); [done|]|].
  - intros s2 _ Ho2. rewrite Ho2, Ho, Hk. f_equal.
    replace (offset s + Z.of_nat k + 1 - offset s) with (Z.of_nat (S k)) by lia.
    rewrite (wrap_small 64), swrap_small, lor_0x80, wrap_small by lia. lia.
  - rewrite Hk, octet_of_low. done.
Qed.

Lemma asn_realloc_rbuild_header_post r t n s :
  rwf s -> 0 <= n < 2 ^ 64 -> rpost r s (t :: ber_length n) (asn_realloc_rbuild_header r t n s).
Proof.
  intros Hs Hn. unfold asn_realloc_rbuild_header.
  apply (rseq_post r s (ber_length n) [t]); [done|by apply asn_realloc_rbuild_length_post|].
  intros s1 Hs1 _ _. by apply rput_post.
Qed.

(** The check after the header never fails: the header itself is in the buffer. *)
Lemma rheader_checked_post r t n tl s :
  rwf s -> 0 <= n < 2 ^ 64 ->
  (forall s', rwf s' -> offset s <= offset s' -> tl s' <= offset s') ->
  rpost r s (t :: ber_length n) (rheader_checked r t n tl s).
Proof.
  intros Hs Hn Htl. unfold rheader_checked.
  pose proof (rseq_mid r s [] (t :: ber_length n) (t :: ber_length n) s
    (asn_realloc_rbuild_header r t n s)
    (fun s0 => Some (s0, negb (_asn_realloc_build_header_check s0 (tl s0))))) as Hstep.
  apply Hstep; [done|by apply mid_start|by apply asn_realloc_rbuild_header_post|
    change (zlen []) with 0; lia|].
  intros s2 Hm. rewrite app_nil_r in Hm. pose proof (mid_offset _ _ _ _ Hs Hm) as Ho.
  pose proof (mid_rwf _ _ _ _ Hm) as Hs2. pose proof (zlen_nonneg (t :: ber_length n)).
  unfold _asn_realloc_build_header_check. specialize (Htl s2 Hs2 ltac:(lia)).
  assert (pkt s2 <> []).
  { destruct Hm as (_ & _ & _ & Hw). unfold written in Hw at 1. intros He. rewrite He in Hw.
    by rewrite drop_nil in Hw. }
  rewrite bool_decide_false by done. destruct Hs2 as (_ & ? & _).
  rewrite (proj2 (Z.ltb_ge _ _)) by lia. simpl. by apply mid_done.
Qed.

(** Contents already in the buffer get their tag and length. *)
Lemma rwrap_post r t c s s1 tl :
  rwf s -> mid r s c s1 ->
  (forall s', rwf s' -> offset s1 <= offset s' -> tl s' <= offset s') ->
  forall n, n = zlen c -> rpost r s (tlv t c) (rheader_checked r t n tl s1).
Proof.
  intros Hs Hm Htl n ->. pose proof (mid_rwf _ _ _ _ Hm) as Hs1. pose proof (mid_offset _ _ _ _ Hs Hm).
  pose proof (zlen_nonneg c). destruct Hs as (? & ? & ?). destruct Hs1 as (? & ? & ?).
  eapply rlast_mid; [done|exact Hm|apply rheader_checked_post; [done|lia|done]|].
  done.
Qed.

End contract.

(** A builder that puts [bs] in front of the buffer. *)
Class RBuilds {A : Allocator} (f : bool -> rstate -> rres) (bs : list Z) : Prop :=
  rbuilds r s : rwf s -> rpost r s bs (f r s).

Section builders.
Context {A : Allocator}.

#[export] Instance asn_realloc_rbuild_header_rbuilds t n :
  0 <= n < 2 ^ 64 -> RBuilds (fun r s => asn_realloc_rbuild_header r t n s) (t :: ber_length n).
Proof. intros Hn r s Hs. by apply asn_realloc_rbuild_header_post. Qed.

#[export] Instance asn_realloc_rbuild_sequence_rbuilds t n :
  0 <= n < 2 ^ 64 -> RBuilds (fun r s => asn_realloc_rbuild_sequence r t n s) (t :: ber_length n).
Proof. intros Hn r s Hs. by apply asn_realloc_rbuild_header_post. Qed.

#[export] Instance asn_realloc_rbuild_null_rbuilds t :
  RBuilds (fun r s => asn_realloc_rbuild_null r t s) (tlv t []).
Proof. intros r s Hs. by apply (asn_realloc_rbuild_header_post r t 0). Qed.

(** ** Strings *)

#[export] Instance asn_realloc_rbuild_string_rbuilds t c n :
  zlen c = n -> n < 2 ^ 63 -> RBuilds (fun r s => asn_realloc_rbuild_string r t c n s) (tlv t c).
Proof.
  intros Hn Hs63 r s Hs. pose proof Hs as (_ & Hoff & _). pose proof (zlen_nonneg c).
  unfold asn_realloc_rbuild_string.
  destruct (room_spec r n s Hs ltac:(lia)) as (s1 & ok & -> & Hs1 & Hl1 & Hr1 & Ho1 & Hw1 & Hok).
  unfold rseq at 1. obind. rewrite <- Hn in *. destruct ok.
  - destruct (rcopy_spec c (zlen c) s1 Hs1 eq_refl ltac:(lia)) as (s2 & -> & Hs2 & Hl2 & Ho2 & Hw2).
    unfold rseq at 1. obind. apply rwrap_post; [done| |intros; lia|done].
    split_and!; [done|lia| |by rewrite Hw2, Hw1]. intros Hr. rewrite Hl2. by apply Hr1.
  - exists s1, false. rewrite zlen_tlv. pose proof (zlen_nonneg (ber_length (zlen c))).
    split_and!; try done; [lia| |by rewrite Hw1].
    intros Hr Hg. apply Hok; [done|]. eapply grows_mono; [|done]. lia.
Qed.

#[export] Instance asn_realloc_rbuild_bitstring_rbuilds t c n :
  zlen c = n -> n < 2 ^ 63 -> RBuilds (fun r s => asn_realloc_rbuild_bitstring r t c n s) (tlv t c).
Proof. apply asn_realloc_rbuild_string_rbuilds. Qed.
End builders.

(** Correctness of the reverse builders of integers, identifiers and
    floating-point values. *)

(** * Arithmetic of sign extension *)

(** [tv] is the value all further octets of [v] have. *)
Definition sign_of (v tv : Z) : Prop := (v < 0 /\ tv = -1) \/ (0 <= v /\ tv = 0).

(** [k] octets are the fewest after which only copies of the sign remain. *)
Definition sized (k : nat) (v tv : Z) : Prop :=
  (1 <= k)%nat /\ v / 2 ^ (8 * Z.of_nat k) = tv /\
  (k = 1%nat \/ v / 2 ^ (8 * Z.of_nat (k - 1)) <> tv).

Lemma div_is_sign v tv P :
  0 < P -> sign_of v tv -> v / P = tv <-> - P <= v < P.
Proof.
  intros HP Ht. pose proof (Z.mul_div_le v P HP). pose proof (Z.mul_succ_div_gt v P HP).
  destruct Ht as [[Hv ->]|[Hv ->]]; split; intros; nia.
Qed.

Lemma sign_of_div v tv P : 0 < P -> sign_of v tv -> sign_of (v / P) tv.
Proof.
  intros HP [[Hv ->]|[Hv ->]]; [left|right]; (split; [|done]).
  - apply Z.div_lt_upper_bound; lia.
  - apply Z.div_pos; lia.
Qed.

Lemma pow_double k : (1 <= k)%nat -> 2 ^ (8 * Z.of_nat k) = 2 * 2 ^ (8 * Z.of_nat k - 1).
Proof. intros. rewrite <- Z.pow_succ_r by lia. f_equal. lia. Qed.

(** Either the sign bit is right, or one more octet is needed. *)
Lemma sized_int_size k v tv :
  sign_of v tv -> sized k v tv ->
  (fits (Z.of_nat k) v /\ int_size v = k) \/ (~ fits (Z.of_nat k) v /\ int_size v = S k).
Proof.
  intros Ht (Hk & Hd & Hmin). pose proof (pow2_pos (8 * Z.of_nat k) ltac:(lia)).
  apply (div_is_sign v tv) in Hd; [|done|done]. pose proof (pow_double k Hk).
  destruct (decide (fits (Z.of_nat k) v)) as [Hf|Hf].
  - left. split; [done|]. apply Nat2Z.inj, int_size_unique; [lia|done|].
    destruct Hmin as [->|Hmin]; [by left|right]. intros Hf'. apply Hmin.
    apply (div_is_sign v tv); [apply pow2_pos; lia|done|]. unfold fits in Hf'.
    replace (Z.of_nat (k - 1)) with (Z.of_nat k - 1) by lia.
    pose proof (Z.pow_le_mono_r 2 (8 * (Z.of_nat k - 1) - 1) (8 * (Z.of_nat k - 1)) ltac:(lia) ltac:(lia)). lia.
  - right. split; [done|]. apply Nat2Z.inj, int_size_unique; [lia| |right].
    + unfold fits. replace (8 * Z.of_nat (S k) - 1) with (8 * Z.of_nat k + 7) by lia.
      rewrite Z.pow_add_r by lia. lia.
    + by replace (Z.of_nat (S k) - 1) with (Z.of_nat k) by lia.
Qed.

(** The top bit of the last octet written tells which. *)
Lemma sign_bit_fits k v tv :
  sign_of v tv -> sized k v tv ->
  (Z.land ((v / 2 ^ (8 * Z.of_nat (k - 1))) mod 256) 0x80 =? Z.land tv 0x80) = bool_decide (fits (Z.of_nat k) v).
Proof.
  intros Ht (Hk & Hd & _). set (P := 2 ^ (8 * Z.of_nat (k - 1))).
  assert (HP : 0 < P) by (apply pow2_pos; lia).
  assert (HPk : 2 ^ (8 * Z.of_nat k) = P * 256)
    by (unfold P; rewrite <- (Z.pow_add_r 2 _ 8) by lia; f_equal; lia).
  assert (HPf : 2 ^ (8 * Z.of_nat k - 1) = P * 128)
    by (unfold P; rewrite <- (Z.pow_add_r 2 _ 7) by lia; f_equal; lia).
  apply (div_is_sign v tv) in Hd; [|rewrite HPk; lia|done]. rewrite HPk in Hd.
  pose proof (Z.mod_pos_bound (v / P) 256 ltac:(lia)) as Hm.
  rewrite land_0x80 by done. unfold fits.
  pose proof (Z.mul_div_le v P HP). pose proof (Z.mul_succ_div_gt v P HP).
  destruct Ht as [[Hv ->]|[Hv ->]].
  - assert (Hq : -256 <= v / P < 0) by nia.
    assert (Hmod : (v / P) mod 256 = v / P + 256) by (rewrite <- (Z_mod_plus_full _ 1), Z.mod_small; lia).
    rewrite Hmod. change (Z.land (-1) 128) with 128.
    case_bool_decide; destruct (Z.leb_spec 128 (v / P + 256)); try done; nia.
  - assert (Hq : 0 <= v / P < 256) by nia. rewrite (Z.mod_small (v / P)) by lia.
    change (Z.land 0 128) with 0.
    case_bool_decide; destruct (Z.leb_spec 128 (v / P)); try done; nia.
Qed.

Section builders.
Context {A : Allocator}.

(** * The loops *)

Lemma u8_low x : u8 x = x mod 256.
Proof. reflexivity. Qed.

Lemma be_bytes_1 v : be_bytes 1 v = [v mod 256].
Proof. unfold be_bytes. change (2 ^ _) with 1. by rewrite Z.div_1_r. Qed.

(** The loop that stores octets until the sign is reached. *)
Lemma rint_loop_post r tv f x :
  sign_of x tv -> - 2 ^ (8 * Z.of_nat f) <= x < 2 ^ (8 * Z.of_nat f) ->
  exists j, x / 2 ^ (8 * Z.of_nat j) = tv /\ (j = 0%nat \/ x / 2 ^ (8 * Z.of_nat (j - 1)) <> tv) /\
    (j <= f)%nat /\
    forall s, rwf s -> rpost r s (be_bytes j x) (rint_loop f r tv x s).
Proof.
  revert x. induction f as [|f IH]; intros x Ht Hx.
  - assert (x = tv) as -> by (change (2 ^ (8 * Z.of_nat 0)) with 1 in Hx; destruct Ht; lia).
    exists 0%nat. split_and!; [apply Z.div_1_r|by left|lia|]. intros s Hs. simpl. rewrite Z.eqb_refl.
    by apply rpost_ret.
  - cbn [rint_loop]. destruct (Z.eqb_spec x tv) as [->|Hne]; cbn [negb].
    { exists 0%nat. split_and!; [apply Z.div_1_r|by left|lia|]. intros s Hs. by apply rpost_ret. }
    rewrite Z.shiftr_div_pow2 by lia. change (2 ^ 8) with 256.
    replace (8 * Z.of_nat (S f)) with (8 * Z.of_nat f + 8) in Hx by lia.
    rewrite Z.pow_add_r in Hx by lia. change (2 ^ 8) with 256 in Hx.
    pose proof (Z.mul_div_le x 256 ltac:(lia)). pose proof (Z.mul_succ_div_gt x 256 ltac:(lia)).
    destruct (IH (x / 256)) as (j & Hj & Hmin & Hjf & Hpost); [by apply sign_of_div|lia|].
    assert (Hdd : forall i, x / 256 / 2 ^ (8 * Z.of_nat i) = x / 2 ^ (8 * Z.of_nat (S i))).
    { intros i. rewrite Z.div_div by (try apply pow2_pos; lia). f_equal.
      rewrite <- (Z.pow_add_r 2 8) by lia. f_equal. lia. }
    exists (S j). split_and!; [by rewrite <- Hdd| |lia|].
    + right. replace (S j - 1)%nat with j by lia. destruct Hmin as [->|Hmin].
      * by rewrite Z.div_1_r.
      * destruct j as [|j]; [by rewrite Z.div_1_r|]. rewrite <- Hdd.
        by replace (S j - 1)%nat with j in Hmin by lia.
    + intros s Hs. pose proof (be_bytes_app j 1 x) as Happ.
      change (2 ^ (8 * Z.of_nat 1)) with 256 in Happ. rewrite Nat.add_1_r in Happ. rewrite <- Happ.
      rewrite be_bytes_1. apply rseq_post; [done|by apply rput_post|]. intros s1 Hs1 _ _. by apply Hpost.
Qed.

Lemma rsign_post r tv pad k v w s :
  sign_of v tv -> sized k v tv -> pad = tv mod 256 ->
  rwf s -> written s = be_bytes k v ++ w ->
  exists p, p ++ be_bytes k v = ber_int v /\ rpost r s p (rsign r tv pad s).
Proof.
  intros Ht Hsz -> Hs Hw. unfold rsign. pose proof Hsz as (Hk & Hd & _).
  destruct k as [|k]; [lia|].
  pose proof (peek_written s _ _ Hs Hw) as Hp. rewrite Hp. obind.
  pose proof (sign_bit_fits (S k) v tv Ht Hsz) as Hb. replace (S k - 1)%nat with k in Hb by lia.
  rewrite Hb. destruct (sized_int_size (S k) v tv Ht Hsz) as [[Hf Hi]|[Hf Hi]]; unfold ber_int; rewrite Hi.
  - exists []. rewrite bool_decide_true by done. split; [done|]. by apply rpost_ret.
  - exists [tv mod 256]. rewrite bool_decide_false by done. split; [|by apply rput_post].
    rewrite <- (be_bytes_app 1 (S k)), Hd, be_bytes_1. done.
Qed.

Lemma sized_succ j v tv :
  v / 256 / 2 ^ (8 * Z.of_nat j) = tv ->
  (j = 0%nat \/ v / 256 / 2 ^ (8 * Z.of_nat (j - 1)) <> tv) -> sized (S j) v tv.
Proof.
  intros Hj Hmin.
  assert (Hdd : forall i, v / 256 / 2 ^ (8 * Z.of_nat i) = v / 2 ^ (8 * Z.of_nat (S i))).
  { intros i. rewrite Z.div_div by (try apply pow2_pos; lia). f_equal.
    rewrite <- (Z.pow_add_r 2 8) by lia. f_equal. lia. }
  split; [lia|]. split; [by rewrite <- Hdd|].
  destruct j as [|j]; [by left|right]. destruct Hmin as [|Hmin]; [done|].
  rewrite Hdd in Hmin. by replace (S (S j) - 1)%nat with (S (S j - 1)) by lia.
Qed.

(** Octets, padding, header: the common body of the two 32-bit builders. *)
Lemma rint_body_post r t v tv pad s :
  rwf s -> sign_of v tv -> pad = tv mod 256 -> - 2 ^ 63 <= v < 2 ^ 63 ->
  rpost r s (tlv t (ber_int v))
    (s1 <~ rput r (u8 v) s;
     s2 <~ rint_loop 8 r tv (Z.shiftr v 8) s1;
     s3 <~ rsign r tv pad s2;
     rheader_checked r t (u64 (offset s3 - offset s)) (fun s' => u64 (offset s' - offset s)) s3).
Proof.
  intros Hs Ht Hpad Hv. rewrite Z.shiftr_div_pow2 by lia. change (2 ^ 8) with 256.
  pose proof (Z.mul_div_le v 256 ltac:(lia)). pose proof (Z.mul_succ_div_gt v 256 ltac:(lia)).
  destruct (rint_loop_post r tv 8 (v / 256)) as (j & Hj & Hmin & _ & Hloop);
    [by apply sign_of_div|change (8 * Z.of_nat 8) with 64; lia|].
  pose proof (sized_succ j v tv Hj Hmin) as Hsz.
  pose proof (be_bytes_app j 1 v) as Happ. change (2 ^ (8 * Z.of_nat 1)) with 256 in Happ.
  rewrite Nat.add_1_r, be_bytes_1 in Happ.
  assert (Hlen : Z.of_nat (S j) <= zlen (ber_int v)).
  { rewrite zlen_ber_int. destruct (sized_int_size _ _ _ Ht Hsz) as [[_ ->]|[_ ->]]; lia. }
  pose proof (zlen_tlv t (ber_int v)) as Hz. pose proof (zlen_nonneg (ber_length (zlen (ber_int v)))).
  eapply rseq_mid; [done|by apply mid_start|by apply rput_post|change (zlen [u8 v] + zlen []) with 1; lia|].
  rewrite app_nil_r. intros s1 Hm1.
  eapply rseq_mid; [done|exact Hm1|apply Hloop, (mid_rwf _ _ _ _ Hm1)|
    rewrite zlen_be_bytes; change (zlen [u8 v]) with 1; lia|].
  rewrite u8_low, Happ. intros s2 Hm2. pose proof Hm2 as (Hs2 & _ & _ & Hw2).
  destruct (rsign_post r tv pad (S j) v (written s) s2) as (p & Hp & Hpost); try done.
  eapply rseq_mid; [done|exact Hm2|exact Hpost|rewrite <- zlen_app, Hp; lia|].
  rewrite Hp. intros s3 Hm3. pose proof (mid_offset _ _ _ _ Hs Hm3) as Ho3.
  pose proof (mid_rwf _ _ _ _ Hm3) as (Hs3 & Hs3' & Hs3'').
  pose proof Hs as (_ & Hoff & ?). apply rwrap_post; [done|done| |].
  - intros s' (_ & Ho' & ?) Hle. rewrite wrap_small by lia. lia.
  - rewrite wrap_small by lia. lia.
Qed.

#[export] Instance asn_realloc_rbuild_int_rbuilds t v :
  RBuilds (fun r s => asn_realloc_rbuild_int r t v sizeof_long s) (tlv t (ber_int (CHECK_OVERFLOW_S v))).
Proof.
  intros r s Hs. unfold asn_realloc_rbuild_int. rewrite Z.eqb_refl. cbn [negb].
  pose proof (CHECK_OVERFLOW_S_range v). set (w := CHECK_OVERFLOW_S v) in *.
  apply rint_body_post; [done| | |lia]; destruct (Z.ltb_spec w 0); try done; [left|right]; lia.
Qed.

#[export] Instance asn_realloc_rbuild_unsigned_int_rbuilds t v :
  0 <= v ->
  RBuilds (fun r s => asn_realloc_rbuild_unsigned_int r t v sizeof_long s) (tlv t (ber_int (v mod 2 ^ 32))).
Proof.
  intros Hv r s Hs. unfold asn_realloc_rbuild_unsigned_int. rewrite Z.eqb_refl. cbn [negb].
  rewrite CHECK_OVERFLOW_U_mod by done. pose proof (Z.mod_pos_bound v (2 ^ 32) ltac:(lia)).
  apply rint_body_post; [done|right; lia|done|lia].
Qed.

(** * Object identifiers *)

(** When nothing is left of [v], the digits written are all it has. *)
Lemma subid_stop v k :
  0 <= v -> (1 <= k)%nat -> (k = 1%nat \/ 2 ^ (7 * Z.of_nat (k - 1)) <= v) ->
  v / 2 ^ (7 * Z.of_nat k) <= 0 -> subid_size v = k.
Proof.
  intros Hv Hk Hmin Hq. pose proof (pow2_pos (7 * Z.of_nat k) ltac:(lia)) as HP.
  pose proof (Z.mul_succ_div_gt v _ HP). assert (Hlt : v < 2 ^ (7 * Z.of_nat k)) by nia.
  apply (subid_size_bound v (Z.of_nat k)) in Hlt; [|lia|lia]. pose proof (subid_size_pos v).
  destruct Hmin as [->|Hmin]; [lia|]. destruct (decide (k = 1%nat)); [lia|].
  pose proof (subid_size_bound v (Z.of_nat (k - 1)) ltac:(lia) ltac:(lia)). lia.
Qed.

Lemma rsubid_loop_post r v s f : forall k s1,
  rwf s -> 0 <= v < 2 ^ 64 -> mid r s (b128 k v) s1 -> (1 <= k)%nat -> (11 - k <= f)%nat ->
  (k = 1%nat \/ 2 ^ (7 * Z.of_nat (k - 1)) <= v) ->
  rpost r s (ber_subid v) (rsubid_loop f r (v / 2 ^ (7 * Z.of_nat k)) s1).
Proof.
  induction f as [|f IH]; intros k s1 Hs Hv Hm Hk Hf Hmin; cbn [rsubid_loop];
    pose proof (pow2_pos (7 * Z.of_nat k) ltac:(lia)) as HP;
    destruct (Z.ltb_spec 0 (v / 2 ^ (7 * Z.of_nat k))) as [Hc|Hc];
    try (apply mid_done; unfold ber_subid; by rewrite (subid_stop v k) by (done || lia));
    pose proof (Z.mul_div_le v _ HP); assert (Hbig : 2 ^ (7 * Z.of_nat k) <= v) by nia.
  { exfalso. assert (2 ^ 77 <= 2 ^ (7 * Z.of_nat k)) by (apply Z.pow_le_mono_r; lia). lia. }
  rewrite Z.shiftr_div_pow2, Z.div_div, <- Z.pow_add_r by lia.
  eapply rseq_mid; [done|exact Hm|apply rput_post; eapply mid_rwf, Hm| |].
  - pose proof (subid_size_bound v (Z.of_nat k) ltac:(lia) ltac:(lia)).
    rewrite zlen_ber_subid. unfold zlen. rewrite length_b128. simpl length. lia.
  - intros s2 Hm2. replace (7 * Z.of_nat k + 7) with (7 * Z.of_nat (S k)) by lia.
    apply IH; try done; try lia.
    + cbn [b128]. destruct k as [|k]; [lia|]. rewrite land_0x7f in Hm2.
      pose proof (Z.mod_pos_bound (v / 2 ^ (7 * Z.of_nat (S k))) 128 ltac:(lia)).
      rewrite lor_0x80, wrap_small in Hm2 by lia. exact Hm2.
    + right. by replace (S k - 1)%nat with k by lia.
Qed.

Lemma rsubid_post r v s :
  rwf s -> 0 <= v < 2 ^ 64 -> rpost r s (ber_subid v) (rsubid r v s).
Proof.
  intros Hs Hv. unfold rsubid. rewrite Z.shiftr_div_pow2 by lia.
  eapply rseq_mid; [done|by apply mid_start|by apply rput_post| |].
  - rewrite zlen_ber_subid. pose proof (subid_size_pos v). change (zlen [_] + zlen []) with 1. lia.
  - rewrite app_nil_r. intros s1 Hm. change (2 ^ 7) with (2 ^ (7 * Z.of_nat 1)).
    apply rsubid_loop_post; try done; [|by left].
    cbn [b128]. change (2 ^ (7 * Z.of_nat 0)) with 1. rewrite Z.div_1_r, Z.add_0_r.
    rewrite land_0x7f, u8_low in Hm. rewrite <- (Z.mod_mod_divide v 256 128); [exact Hm|by exists 2].
Qed.

Lemma rsubids_post r objid rest : forall n s,
  rwf s -> holds objid 2 rest -> Forall subid32 rest -> (n <= length rest)%nat ->
  rpost r s (take n rest ≫= ber_subid) (rsubids n r objid s).
Proof.
  induction n as [|n IH]; intros s Hs Hh Hr Hn; cbn [rsubids].
  { rewrite take_0. by apply rpost_ret. }
  destruct (lookup_lt_is_Some_2 rest n) as [v Hv]; [lia|].
  assert (Hp : peek objid (Z.of_nat (S n) + 2 - 1) = Some v).
  { destruct Hh as (pre & post & -> & Hpre). unfold peek. rewrite (proj2 (Z.leb_le 0 _)) by lia.
    rewrite lookup_app_r by lia. rewrite lookup_app_l by lia. rewrite <- Hv. f_equal. lia. }
  rewrite Hp. obind. rewrite (take_S_r rest n v) by done. rewrite bind_app.
  pose proof (proj1 (Forall_lookup _ rest) Hr n v Hv) as Hr32. simpl in Hr32.
  change ([v] ≫= ber_subid) with (ber_subid v ++ []). rewrite app_nil_r.
  rewrite CHECK_OVERFLOW_U_id by done.
  apply rseq_post; [done|apply rsubid_post; [done|lia]|]. intros s1 Hs1 _ _. apply IH; done || lia.
Qed.

#[export] Instance asn_realloc_rbuild_objid_rbuilds t o :
  wire_oid o -> zlen o < 2 ^ 31 ->
  RBuilds (fun r s => asn_realloc_rbuild_objid r t o (zlen o) s) (tlv t (ber_oid o)).
Proof.
  intros Ho Hl r s Hs. destruct o as [|x [|y rest]]; [done..|]. destruct Ho as (Hx & Hy & Hxy & Hf & Hr).
  unfold asn_realloc_rbuild_objid. rewrite !zlen_cons in *. pose proof (zlen_nonneg rest).
  rewrite (proj2 (Z.eqb_neq _ 0)) by lia. change (peek (x :: y :: rest) 0) with (Some x). obind.
  rewrite (proj2 (Z.ltb_ge 2 x)), (proj2 (Z.eqb_neq _ 1)) by lia.
  set (c := ber_oid (x :: y :: rest)). pose proof (zlen_tlv t c) as Hz.
  pose proof (zlen_nonneg (ber_length (zlen c))). pose proof (zlen_nonneg c).
  eapply (rseq_mid r s [] c); [done|by apply mid_start| |change (zlen []) with 0; lia|].
  - replace (Z.to_nat (zlen rest + 1 + 1 - 2)) with (length rest) by (unfold zlen; lia).
    unfold c. cbn [ber_oid].
    apply rseq_post; [done| |].
    + pose proof (rsubids_post r (x :: y :: rest) rest (length rest) s Hs) as Hrs.
      rewrite firstn_all in Hrs. apply Hrs; [exists [x; y], []; by rewrite app_nil_r|done|lia].
    + intros s1 Hs1 _ _. change (peek (x :: y :: rest) 1) with (Some y). obind.
      assert ((40 <? y) && (x <? 2) = false) as ->.
      { destruct (Z.ltb_spec 40 y), (Z.ltb_spec x 2); lia || done. }
      rewrite (wrap_small 64 (x * 40)), wrap_small, (Z.mul_comm x) by lia. apply rsubid_post; [done|lia].
  - rewrite app_nil_r. intros s1 Hm. pose proof (mid_offset _ _ _ _ Hs Hm) as Ho1.
    pose proof (mid_rwf _ _ _ _ Hm) as (_ & Ho1' & Hp1). pose proof Hs as (_ & Hoff & ?).
    apply rwrap_post; [done|done| |rewrite wrap_small by lia; lia].
    intros s' (_ & Ho' & ?) Hle. rewrite wrap_small by lia. lia.
Qed.

End builders.
