(* ===== verification/Asn1RBuildWide.v ===== *)
(** Correctness of the reverse builders of 64-bit integers and floating-point
    values. *)
From Stdlib Require Import ZArith Lia.
From S2P Require Import Prelude Asn1Defs Ber Asn1Parse Asn1ParseProps Asn1ParseWide Asn1Build Asn1BuildProps.
From S2P Require Import Asn1RBuild Asn1RBuildProps.

Lemma rseq_assoc e f g : rseq e (fun s => rseq (f s) g) = rseq (rseq e f) g.
Proof. unfold rseq. by destruct e as [[s [|]]|]. Qed.

Section wide.
Context {A : Allocator}.

(** * The low half *)

(** The loop over the low half stops after [k'] octets, at most 4. *)
Lemma rlow_loop_post r limit tv low f : forall k,
  (1 <= k <= 4)%nat -> (4 - k <= f)%nat ->
  (k = 1%nat \/ low / 2 ^ (8 * Z.of_nat (k - 1)) <> tv) ->
  (limit = false -> low / 2 ^ 32 = tv) ->
  exists k', (k <= k' <= 4)%nat /\
    (low / 2 ^ (8 * Z.of_nat k') = tv \/ k' = 4%nat) /\
    (k' = 1%nat \/ low / 2 ^ (8 * Z.of_nat (k' - 1)) <> tv) /\
    forall s s1 bs kont, rwf s -> mid r s (be_bytes k low) s1 -> Z.of_nat k' <= zlen bs ->
      (forall s2, mid r s (be_bytes k' low) s2 -> rpost r s bs (kont (Z.of_nat k') s2)) ->
      rpost r s bs (rlow_loop f r limit tv (low / 2 ^ (8 * Z.of_nat k)) (Z.of_nat k) s1 kont).
Proof.
  induction f as [|f IH]; intros k Hk Hf Hmin Hlim; cbn [rlow_loop].
  all: destruct (negb (low / 2 ^ (8 * Z.of_nat k) =? tv) && (negb limit || (Z.of_nat k <? 4))) eqn:Hc.
  - exfalso. assert (k = 4%nat) as -> by lia. apply andb_prop in Hc as [Hne Hl].
    destruct limit; [done|]. change (2 ^ (8 * Z.of_nat 4)) with (2 ^ 32) in Hne.
    by rewrite Hlim, Z.eqb_refl in Hne.
  - exists k. split_and!; try lia; try done. by eauto.
  - apply andb_prop in Hc as [Hne%negb_true_iff%Z.eqb_neq Hl].
    assert (Hk4 : (k < 4)%nat).
    { destruct limit; [bool_prop; destruct Hl; [done|lia]|].
      destruct (decide (k = 4%nat)) as [->|]; [|lia]. exfalso. by apply Hne, Hlim. }
    destruct (IH (S k)) as (k' & Hk' & Hstop & Hmin' & Hpost); [lia|lia| |done|].
    { right. by replace (S k - 1)%nat with k by lia. }
    exists k'. split_and!; try done; [lia..|]. intros s s1 bs kont Hs Hm Hz Hkont.
    eapply rseq_mid; [done|exact Hm|apply rput_post; eapply mid_rwf, Hm| |].
    + rewrite zlen_be_bytes. change (zlen [_]) with 1. lia.
    + intros s2 Hm2. rewrite Z.shiftr_div_pow2, Z.div_div, <- Z.pow_add_r by lia.
      replace (8 * Z.of_nat k + 8) with (8 * Z.of_nat (S k)) by lia.
      replace (Z.of_nat k + 1) with (Z.of_nat (S k)) by lia. by apply Hpost.
  - exists k. split_and!; try lia; try done. by eauto.
Qed.

Lemma rpad_post r pad n s : rwf s -> rpost r s (replicate n pad) (rpad n r pad s).
Proof.
  revert s. induction n as [|n IH]; intros s Hs; simpl; [by apply rpost_ret|].
  change (pad :: replicate n pad) with (replicate (S n) pad). rewrite replicate_S_end.
  apply rseq_post; [done|by apply rput_post|]. intros s1 Hs1 _ _. by apply IH.
Qed.

(** Octets of a sign are copies of it. *)
Lemma be_bytes_sign n tv : tv = -1 \/ tv = 0 -> be_bytes n tv = replicate n (tv mod 256).
Proof.
  intros Ht. induction n as [|n IH]; [done|]. rewrite be_bytes_S, IH. cbn [replicate]. f_equal.
  pose proof (pow2_pos (8 * Z.of_nat n) ltac:(lia)). destruct Ht as [-> | ->].
  - f_equal. symmetry. apply (Z.div_unique_pos _ _ _ (2 ^ (8 * Z.of_nat n) - 1)); lia.
  - by rewrite Z.div_0_l by lia.
Qed.

(** * All octets of a 64-bit value *)

(** The two halves of [v] as the code holds them, and their sign. *)
Record halves (v high low tv : Z) : Prop := {
  halves_sign : sign_of v tv;
  halves_range : - 2 ^ 63 <= v < 2 ^ 64;
  halves_high : v / 2 ^ 32 = high;
  halves_low : low mod 2 ^ 32 = v mod 2 ^ 32;
  halves_small k : (k <= 3)%nat -> v / 2 ^ (8 * Z.of_nat k) = tv -> low / 2 ^ (8 * Z.of_nat k) = tv;
  halves_flat k : (k <= 3)%nat -> high = tv -> low / 2 ^ (8 * Z.of_nat k) = tv -> v / 2 ^ (8 * Z.of_nat k) = tv;
}.

Lemma be_bytes_low k v low : (k <= 4)%nat -> low mod 2 ^ 32 = v mod 2 ^ 32 -> be_bytes k low = be_bytes k v.
Proof.
  intros Hk Hl. rewrite (Z.div_mod low (2 ^ 32)), (Z.div_mod v (2 ^ 32)), Hl by lia.
  rewrite !(Z.mul_comm (2 ^ 32)), !(Z.add_comm (_ * _)).
  change (2 ^ 32) with (2 ^ (8 * 4)). by rewrite !be_bytes_high by lia.
Qed.

Lemma div_high v k : v / 2 ^ (8 * Z.of_nat (k + 4)) = v / 2 ^ 32 / 2 ^ (8 * Z.of_nat k).
Proof.
  rewrite Z.div_div by (try apply pow2_pos; lia). f_equal.
  rewrite <- Z.pow_add_r by lia. f_equal. lia.
Qed.

(** The padding up to four octets and the octets of the high half. *)
Lemma high_octets_post r v high low tv g k :
  sign_of v tv -> v / 2 ^ 32 = high -> - 2 ^ 31 <= high < 2 ^ 32 ->
  low mod 2 ^ 32 = v mod 2 ^ 32 -> high <> tv -> (k <= 4 <= g)%nat ->
  low / 2 ^ (8 * Z.of_nat k) = tv \/ k = 4%nat ->
  exists j, sized (S j + 4) v tv /\ forall s s1, rwf s -> mid r s (be_bytes k v) s1 ->
    rpost r s (be_bytes (S j + 4) v)
      (s <~ rpad (4 - k) r (tv mod 256) s1;
       s <~ rput r (u8 high) s;
       rint_loop g r tv (high / 256) s).
Proof.
  intros Ht Hh Hr Hl Hne Hk Hstop.
  assert (Hht : sign_of high tv) by (rewrite <- Hh; apply sign_of_div; [done|done]).
  destruct (rint_loop_post r tv g (high / 256)) as (j & Hj & Hjm & _ & Hloop).
  { by apply sign_of_div. }
  { assert (2 ^ 32 <= 2 ^ (8 * Z.of_nat g)) by (apply Z.pow_le_mono_r; lia).
    split; [apply Z.div_le_lower_bound|apply Z.div_lt_upper_bound]; lia. }
  exists j. split.
  - pose proof (sized_succ j high tv Hj Hjm) as (_ & Hd & Hm). rewrite <- Hh in Hd, Hm, Hne.
    split; [clear; lia|]. rewrite div_high. split; [done|right].
    replace (S j + 4 - 1)%nat with (j + 4)%nat by (clear; lia). rewrite div_high.
    destruct j as [|j]; [by rewrite Z.div_1_r|]. destruct Hm as [|Hm]; [done|].
    by replace (S (S j) - 1)%nat with (S j) in Hm by (clear; lia).
  - clear Hj Hjm Hr Hne. intros s s1 Hs Hm1.
    pose proof (be_bytes_app 1 4 v) as Happ1. change (8 * Z.of_nat 4) with 32 in Happ1.
    pose proof (be_bytes_app (4 - k) k v) as Happ4. pose proof (be_bytes_app j (1 + 4) v) as Happ5.
    assert (Hpad : replicate (4 - k) (tv mod 256) = be_bytes (4 - k) (v / 2 ^ (8 * Z.of_nat k))).
    { destruct Hstop as [Hstop| ->]; [|done].
      rewrite <- (be_bytes_sign (4 - k) tv) by (destruct Ht as [[_ ->]|[_ ->]]; auto).
      rewrite <- Hstop. pose proof (be_bytes_app (4 - k) k low) as Hb.
      rewrite (be_bytes_low (4 - k + k) v low), <- Happ4, (be_bytes_low k v low) in Hb
        by (done || (clear - Hk; lia)). by apply app_inv_tail in Hb. }
    eapply rseq_mid; [done|exact Hm1|apply rpad_post, (mid_rwf _ _ _ _ Hm1)| |].
    { unfold zlen. rewrite length_replicate, !length_be_bytes. clear - Hk. lia. }
    rewrite Hpad, Happ4, Nat.sub_add by (clear - Hk; lia). intros s3 Hm3.
    eapply rseq_mid; [done|exact Hm3|apply rput_post, (mid_rwf _ _ _ _ Hm3)| |].
    { rewrite !zlen_be_bytes. change (zlen [_]) with 1. clear. lia. }
    rewrite u8_low, <- be_bytes_1, <- Hh, Happ1. intros s4 Hm4.
    eapply rlast_mid; [done|exact Hm4|rewrite Hh; apply Hloop, (mid_rwf _ _ _ _ Hm4)|].
    rewrite <- Hh. replace (j + (1 + 4))%nat with (S j + 4)%nat in Happ5 by (clear; lia).
    rewrite <- Happ5. do 2 f_equal. by rewrite Z.div_div by (clear; lia).
Qed.

Lemma octets_post r limit v high low tv f g :
  halves v high low tv -> (3 <= f)%nat -> (4 <= g)%nat -> (limit = false -> low / 2 ^ 32 = tv) ->
  exists K, sized K v tv /\ forall s, rwf s ->
    rpost r s (be_bytes K v)
      (s <~ rput r (u8 low) s;
       rlow_loop f r limit tv (Z.shiftr low 8) 1 s (fun count s =>
         if negb (high =? tv) then
           s <~ rpad (Z.to_nat (4 - count)) r (tv mod 256) s;
           s <~ rput r (u8 high) s;
           rint_loop g r tv (Z.shiftr high 8) s
         else Some (s, true))).
Proof.
  intros H Hf Hg Hlim. destruct H as [Ht Hr Hh Hl Hsm Hfl].
  destruct (rlow_loop_post r limit tv low f 1) as (k & Hk & Hstop & Hmin & Hlow);
    [lia|lia|by left|done|]. clear Hlim Hf.
  assert (Hput : forall s bs kont, rwf s -> Z.of_nat k <= zlen bs ->
      (forall s2, mid r s (be_bytes k v) s2 -> rpost r s bs (kont (Z.of_nat k) s2)) ->
      rpost r s bs (s <~ rput r (u8 low) s; rlow_loop f r limit tv (Z.shiftr low 8) 1 s kont)).
  { intros s bs kont Hs Hz Hkont.
    eapply rseq_mid; [done|by apply mid_start|by apply rput_post|
      change (zlen [_] + zlen []) with 1; clear - Hk Hz; lia|].
    intros s1 Hm1. rewrite Z.shiftr_div_pow2 by done. apply (Hlow s s1); [done| |done|].
    - by rewrite be_bytes_1.
    - intros s2 Hm2. apply Hkont. by rewrite <- (be_bytes_low k v low) by (done || (clear - Hk; lia)). }
  destruct (Z.eqb_spec high tv) as [Heq|Hne]; cbn [negb].
  - exists k. split.
    + split; [clear - Hk; lia|]. split.
      * destruct (decide (k = 4%nat)) as [->|Hk4]; [change (8 * Z.of_nat 4) with 32; congruence|].
        apply Hfl; [clear - Hk Hk4; lia|done|]. by destruct Hstop.
      * destruct Hmin as [->|Hmin]; [by left|right]. intros Hv. apply Hmin, Hsm; [clear - Hk; lia|done].
    + intros s Hs. apply Hput; [done|by rewrite zlen_be_bytes|]. intros s2 Hm2. by apply mid_done.
  - destruct (high_octets_post r v high low tv g k) as (j & Hsz & Hpost); try done; [|clear - Hk Hg; lia|].
    { rewrite <- Hh. split; [apply Z.div_le_lower_bound|apply Z.div_lt_upper_bound]; clear - Hr; lia. }
    exists (S j + 4)%nat. split; [done|]. intros s Hs.
    apply Hput; [done|rewrite zlen_be_bytes; clear - Hk; lia|]. intros s2 Hm2.
    rewrite Z.shiftr_div_pow2 by done. change (2 ^ 8) with 256.
    replace (Z.to_nat (4 - Z.of_nat k)) with (4 - k)%nat by (clear; lia). by apply Hpost.
Qed.

(** * The Opaque wrapper *)

Lemma rroom_mid r s bs1 bs s1 n e k :
  rwf s -> mid r s bs1 s1 -> rroom r s1 n e -> n + zlen bs1 <= zlen bs ->
  (forall s2, mid r s bs1 s2 -> n <= pkt_len s2 - offset s2 -> rpost r s bs (k s2)) ->
  rpost r s bs (rseq e k).
Proof.
  intros Hs Hm (s2 & ok & -> & Hs2 & Hl2 & Hr2 & Ho2 & Hw2 & Hok) Hn Hk.
  pose proof (mid_offset _ _ _ _ Hs Hm) as Ho. destruct Hm as (Hs1 & Hl1 & Hr1 & Hw1).
  unfold rseq. obind. destruct ok.
  - apply Hk; [|done]. split_and!; [done|lia| |by rewrite Hw2]. intros Hr. by rewrite Hr2, Hr1.
  - destruct Hok as [Hf Hg]. exists s2, false. split_and!; try done; try lia.
    + intros Hr. by rewrite Hr2, Hr1.
    + intros Hr Hgr. apply Hg; [done|]. eapply grows_mono; [|done]. lia.
    + rewrite Hw2, Hw1. by exists bs1.
Qed.

Lemma rcopy_mid r s bs1 b n bs s1 k :
  mid r s bs1 s1 -> zlen b = n -> n <= pkt_len s1 - offset s1 ->
  (forall s2, mid r s (b ++ bs1) s2 -> pkt_len s2 - offset s2 = pkt_len s1 - offset s1 - n ->
     rpost r s bs (k s2)) ->
  rpost r s bs (rseq (rcopy b n s1) k).
Proof.
  intros (Hs1 & Hl1 & Hr1 & Hw1) Hn Hf Hk.
  destruct (rcopy_spec b n s1 Hs1 Hn Hf) as (s2 & -> & Hs2 & Hl2 & Ho2 & Hw2). unfold rseq. obind.
  apply Hk; [|lia]. split_and!; [done|lia| |by rewrite Hw2, Hw1, app_assoc]. intros Hr. rewrite Hl2. auto.
Qed.

Lemma rstore_mid r s bs1 b bs s1 k :
  mid r s bs1 s1 -> 1 <= pkt_len s1 - offset s1 ->
  (forall s2, mid r s (b :: bs1) s2 -> pkt_len s2 - offset s2 = pkt_len s1 - offset s1 - 1 ->
     rpost r s bs (k s2)) ->
  rpost r s bs (rseq (rstore b s1) k).
Proof.
  intros Hm Hf Hk. pose proof (mid_rwf _ _ _ _ Hm) as (? & ? & ?).
  rewrite rstore_rcopy by (rewrite wrap_small; lia). by eapply (rcopy_mid r s bs1 [b]).
Qed.

(** The special tag, the Opaque header, and the check after it. *)
Lemma rfloat_tail_post r t c n s s1 :
  rwf s -> mid r s c s1 -> n = zlen c -> n <= 9 -> 3 <= pkt_len s1 - offset s1 ->
  rpost r s (opaque_tlv t c) (rfloat_tail r t n s1).
Proof.
  intros Hs Hm -> Hn Hf. pose proof (zlen_nonneg c). unfold rfloat_tail. rewrite wrap_small by lia.
  eapply rstore_mid; [exact Hm|lia|]. intros s2 Hm2 Hf2.
  eapply rstore_mid; [exact Hm2|lia|]. intros s3 Hm3 Hf3.
  eapply rstore_mid; [exact Hm3|lia|]. intros s4 Hm4 Hf4.
  assert (Hc : opaque_contents t c = ASN_OPAQUE_TAG1 :: t :: zlen c :: c).
  { unfold opaque_contents, tlv. by rewrite ber_length_short by lia. }
  rewrite <- Hc in Hm4. pose proof (mid_offset _ _ _ _ Hs Hm4) as Ho4.
  assert (Hz : zlen (opaque_contents t c) = zlen c + 3) by (rewrite Hc, !zlen_cons; lia).
  pose proof Hs as (_ & ? & _).
  apply rwrap_post; [done|done|intros; lia|lia].
Qed.

Lemma ropaque_post r t c n s s1 :
  rwf s -> mid r s c s1 -> n = zlen c -> n <= 9 ->
  rpost r s (opaque_tlv t c) (ropaque r t n s1).
Proof.
  intros Hs Hm -> Hn. pose proof (zlen_nonneg c). destruct (zlen_opaque t c Hn) as [_ Hz].
  unfold ropaque. rewrite !(wrap_small 64 (zlen c + 3)) by lia.
  eapply rroom_mid; [done|exact Hm|apply room_spec; [eapply mid_rwf, Hm|lia]|lia|].
  intros s2 Hm2 Hf2. apply (rfloat_tail_post r t c (zlen c) s s2); try done; lia.
Qed.

(** * 64-bit integers *)

(** Octets, sign padding and whatever follows. *)
Lemma octets_sign_post r limit v high low tv pad f g s bs k :
  halves v high low tv -> pad = tv mod 256 -> (3 <= f)%nat -> (4 <= g)%nat ->
  (limit = false -> low / 2 ^ 32 = tv) -> rwf s -> zlen (ber_int v) <= zlen bs ->
  (forall s3, mid r s (ber_int v) s3 -> rpost r s bs (k s3)) ->
  rpost r s bs
    (s <~ rput r (u8 low) s;
     s <~ rlow_loop f r limit tv (Z.shiftr low 8) 1 s (fun count s =>
         if negb (high =? tv) then
           s <~ rpad (Z.to_nat (4 - count)) r pad s;
           s <~ rput r (u8 high) s;
           rint_loop g r tv (Z.shiftr high 8) s
         else Some (s, true));
     s <~ rsign r tv pad s; k s).
Proof.
  intros Hh -> Hf Hg Hlim Hs Hz Hk.
  destruct (octets_post r limit v high low tv f g Hh Hf Hg Hlim) as (K & Hsz & Hoct).
  rewrite rseq_assoc. pose proof (halves_sign _ _ _ _ Hh) as Ht.
  assert (HK : Z.of_nat K <= zlen (ber_int v)).
  { rewrite zlen_ber_int. destruct (sized_int_size _ _ _ Ht Hsz) as [[_ ->]|[_ ->]]; lia. }
  eapply rseq_mid; [done|by apply mid_start|by apply Hoct|rewrite zlen_be_bytes; change (zlen []) with 0; lia|].
  rewrite app_nil_r. intros s2 Hm2. pose proof Hm2 as (Hs2 & _ & _ & Hw2).
  destruct (rsign_post r tv (tv mod 256) K v (written s) s2) as (p & Hp & Hpost); try done.
  eapply rseq_mid; [done|exact Hm2|exact Hpost|rewrite <- zlen_app, Hp; lia|].
  by rewrite Hp.
Qed.

Lemma unsigned_halves h l :
  0 <= h < 2 ^ 32 -> 0 <= l < 2 ^ 32 -> halves (h * 2 ^ 32 + l) h l 0.
Proof.
  intros Hh Hl. split.
  - right. lia.
  - lia.
  - rewrite Z.div_add_l, (Z.div_small l) by lia. lia.
  - by rewrite Z.add_comm, Z_mod_plus_full.
  - intros k Hk. pose proof (pow2_pos (8 * Z.of_nat k) ltac:(lia)).
    rewrite !Z.div_small_iff by lia. lia.
  - intros k Hk -> Hd. by rewrite Z.mul_0_l, Z.add_0_l.
Qed.

Lemma s32_mod x : s32 x mod 2 ^ 32 = x mod 2 ^ 32.
Proof. exact (wrap_swrap 32 x eq_refl). Qed.

Lemma signed_halves v tv :
  - 2 ^ 63 <= v < 2 ^ 63 -> sign_of v tv -> halves v (v / 2 ^ 32) (s32 v) tv.
Proof.
  intros Hv Ht.
  assert (Hkp : forall k, (k <= 3)%nat -> 0 < 2 ^ (8 * Z.of_nat k) <= 2 ^ 24).
  { intros k Hk. split; [apply pow2_pos; lia|apply Z.pow_le_mono_r; lia]. }
  split; try done.
  - lia.
  - apply s32_mod.
  - intros k Hk. pose proof (Hkp k Hk). rewrite (div_is_sign v tv) by (done || lia). intros Hr.
    rewrite swrap_small by lia. apply (div_is_sign v tv); [lia|done|lia].
  - intros k Hk Hh Hl. pose proof (Hkp k Hk) as HP. pose proof (s32_mod v) as Hm.
    rewrite <- Hl. f_equal. set (w := s32 v) in *.
    assert (Hw : - 2 ^ 31 <= w < 2 ^ 31) by (apply (swrap_range 32); lia).
    pose proof (Z.div_mod v (2 ^ 32) ltac:(lia)). rewrite Hh, <- Hm in H.
    pose proof (Z.mul_div_le w _ (proj1 HP)). pose proof (Z.mul_succ_div_gt w _ (proj1 HP)).
    rewrite Hl in H0, H1. destruct Ht as [[? ->]|[? ->]].
    + assert (w mod 2 ^ 32 = w + 2 ^ 32) by (symmetry; apply (Z.mod_unique_pos _ _ (-1)); lia). lia.
    + rewrite Z.mod_small in H by lia. lia.
Qed.

(** The halves of a signed counter as the code reads them. *)
Lemma signed_counter c :
  c64_ok c -> s32 (high c) = s64 (cval c) / 2 ^ 32 /\ s32 (low c) = s32 (s64 (cval c)).
Proof.
  intros [Hh Hl]. unfold cval. split.
  - assert (Hs : s64 (high c * 2 ^ 32 + low c) = s32 (high c) * 2 ^ 32 + low c).
    { unfold swrap. change (64 - 1) with 63. change (32 - 1) with 31.
      replace (high c * 2 ^ 32 + low c + 2 ^ 63) with ((high c + 2 ^ 31) * 2 ^ 32 + low c) by lia.
      change (2 ^ 64) with (2 ^ 32 * 2 ^ 32).
      rewrite Z.add_comm, Z.rem_mul_r, Z_mod_plus_full by lia.
      rewrite Z.div_add, (Z.div_small (low c)), (Z.mod_small (low c)) by lia.
      rewrite Z.add_0_l. lia. }
    rewrite Hs, Z.div_add_l, (Z.div_small (low c)) by lia. lia.
  - rewrite <- (swrap_wrap 32 (s64 _)), <- (swrap_wrap 32 (low c)) by lia. f_equal.
    unfold wrap. rewrite <- (mod_mod_pow (s64 _)).
    change (s64 (high c * 2 ^ 32 + low c) mod 2 ^ 64) with (u64 (s64 (high c * 2 ^ 32 + low c))).
    rewrite wrap_swrap by lia. unfold wrap. rewrite mod_mod_pow.
    by rewrite Z.add_comm, Z_mod_plus_full.
Qed.

Lemma testvalue_sign h : - 2 ^ 31 <= h < 2 ^ 31 -> negb (Z.land h 0x80000000 =? 0) = (h <? 0).
Proof.
  intros Hh. change 0x80000000 with (Z.shiftl (2 ^ 1 - 1) 31). rewrite land_high by lia.
  destruct (Z.ltb_spec h 0).
  - replace (h / 2 ^ 31) with (-1) by (apply (Z.div_unique_pos _ _ _ (h + 2 ^ 31)); lia). done.
  - by rewrite Z.div_small by lia.
Qed.

#[export] Instance asn_realloc_rbuild_signed_int64_rbuilds t c :
  c64_ok c ->
  RBuilds (fun r s => asn_realloc_rbuild_signed_int64 r t c sizeof_counter64 s)
          (opaque_tlv ASN_OPAQUE_I64 (ber_int (s64 (cval c)))).
Proof.
  intros Hc r s Hs. unfold asn_realloc_rbuild_signed_int64. rewrite Z.eqb_refl. cbn [negb].
  destruct (signed_counter c Hc) as [Hh Hl]. rewrite testvalue_sign by (apply (swrap_range 32); lia).
  rewrite Hh, Hl. assert (Hv : - 2 ^ 63 <= s64 (cval c) < 2 ^ 63) by (apply (swrap_range 64); lia).
  set (v := s64 (cval c)) in *. clearbody v. clear Hh Hl Hc.
  assert (Hsg : (v / 2 ^ 32 <? 0) = (v <? 0)).
  { pose proof (Z.mul_div_le v (2 ^ 32) ltac:(lia)). pose proof (Z.mul_succ_div_gt v (2 ^ 32) ltac:(lia)).
    destruct (Z.ltb_spec (v / 2 ^ 32) 0), (Z.ltb_spec v 0); done || lia. }
  rewrite Hsg. set (tv := if v <? 0 then -1 else 0).
  assert (Ht : sign_of v tv) by (unfold tv; destruct (Z.ltb_spec v 0); [left|right]; done).
  pose proof (int_size_le v 8 ltac:(lia) Hv) as Hn.
  destruct (zlen_opaque ASN_OPAQUE_I64 (ber_int v)) as [_ Hz]; [rewrite zlen_ber_int; lia|].
  eapply octets_sign_post; [by apply signed_halves| |lia|lia|done|done|lia|].
  { destruct Ht as [[_ ->]|[_ ->]]; done. }
  intros s3 Hm. pose proof (mid_offset _ _ _ _ Hs Hm) as Ho.
  pose proof (mid_rwf _ _ _ _ Hm) as (_ & ? & ?). pose proof Hs as (_ & ? & ?).
  rewrite zlen_ber_int in Ho. apply ropaque_post; try done; rewrite ?zlen_ber_int, wrap_small by lia; lia.
Qed.

Section unsigned_int64.
Context (c : counter64) (Hh : 0 <= high c) (Hl : 0 <= low c).

(** The contents octets, then the header the type asks for. *)
Lemma rbuild_u64_post r s bs k :
  rwf s -> zlen (ber_int (c64_value c)) <= zlen bs ->
  (forall s3, mid r s (ber_int (c64_value c)) s3 ->
     rpost r s bs (k (Z.of_nat (int_size (c64_value c))) s3)) ->
  rpost r s bs
    (let high := CHECK_OVERFLOW_U (high c) in
     let low := CHECK_OVERFLOW_U (low c) in
     s0 <~ rput r (u8 low) s;
     s0 <~ rlow_loop 8 r false 0 (Z.shiftr low 8) 1 s0 (fun count s =>
         if negb (high =? 0) then
           s <~ rpad (Z.to_nat (4 - count)) r 0 s;
           s <~ rput r (u8 high) s;
           rint_loop 8 r 0 (Z.shiftr high 8) s
         else Some (s, true));
     s0 <~ rsign r 0 0 s0;
     k (u64 (offset s0 - offset s)) s0).
Proof.
  intros Hs Hz Hk. rewrite !CHECK_OVERFLOW_U_mod by done.
  pose proof (Z.mod_pos_bound (high c) (2 ^ 32) ltac:(lia)).
  pose proof (Z.mod_pos_bound (low c) (2 ^ 32) ltac:(lia)).
  apply (octets_sign_post r false (c64_value c) (high c mod 2 ^ 32) (low c mod 2 ^ 32) 0 0 8 8);
    [by apply unsigned_halves|done|lia|lia|by intros; rewrite Z.div_small|done|done|].
  intros s3 Hm. pose proof (mid_offset _ _ _ _ Hs Hm) as Ho.
  pose proof (mid_rwf _ _ _ _ Hm) as (_ & ? & ?). pose proof Hs as (_ & ? & ?).
  rewrite zlen_ber_int in Ho. rewrite wrap_small by lia.
  replace (offset s3 - offset s) with (Z.of_nat (int_size (c64_value c))) by lia. by apply Hk.
Qed.

Lemma c64_int_size : Z.of_nat (int_size (c64_value c)) <= 9.
Proof. apply int_size_le; [lia|]. pose proof (c64_value_range c). unfold fits. lia. Qed.

#[export] Instance asn_realloc_rbuild_unsigned_int64_rbuilds t :
  t <> ASN_OPAQUE_COUNTER64 -> t <> ASN_OPAQUE_U64 ->
  RBuilds (fun r s => asn_realloc_rbuild_unsigned_int64 r t c sizeof_counter64 s)
          (tlv t (ber_int (c64_value c))).
Proof.
  intros Ht1 Ht2 r s Hs. unfold asn_realloc_rbuild_unsigned_int64. rewrite Z.eqb_refl. cbn [negb].
  rewrite (proj2 (Z.eqb_neq _ _) Ht1), (proj2 (Z.eqb_neq _ _) Ht2).
  pose proof (zlen_nonneg (ber_length (zlen (ber_int (c64_value c))))).
  apply (rbuild_u64_post r s _ (fun n s => rheader_checked r t n (fun _ => n) s)); [done|rewrite zlen_tlv; lia|].
  intros s3 Hm. pose proof (mid_offset _ _ _ _ Hs Hm) as Ho. rewrite zlen_ber_int in Ho.
  pose proof Hs as (_ & ? & ?). apply rwrap_post; [done|done|intros; lia|by rewrite zlen_ber_int].
Qed.

#[export] Instance asn_realloc_rbuild_unsigned_int64_opaque_rbuilds t :
  t = ASN_OPAQUE_COUNTER64 \/ t = ASN_OPAQUE_U64 ->
  RBuilds (fun r s => asn_realloc_rbuild_unsigned_int64 r t c sizeof_counter64 s)
          (opaque_tlv t (ber_int (c64_value c))).
Proof.
  intros Ht r s Hs. unfold asn_realloc_rbuild_unsigned_int64. rewrite Z.eqb_refl. cbn [negb].
  pose proof c64_int_size. destruct (zlen_opaque t (ber_int (c64_value c))) as [_ Hz];
    [rewrite zlen_ber_int; lia|].
  destruct Ht as [-> | ->]; cbn [Z.eqb Pos.eqb];
    (eapply (rbuild_u64_post r s _ (fun n s => ropaque r _ n s)); [done|lia|]);
    intros s3 Hm; (apply ropaque_post; [done|done|by rewrite zlen_ber_int|lia]).
Qed.
End unsigned_int64.

(** * Floating point *)

#[export] Instance asn_realloc_rbuild_float_rbuilds t v :
  RBuilds (fun r s => asn_realloc_rbuild_float r t v sizeof_float s)
          (opaque_tlv ASN_OPAQUE_FLOAT (be_bytes 4 v)).
Proof.
  intros r s Hs. unfold asn_realloc_rbuild_float. rewrite Z.eqb_refl, le_bytes_htonl. simpl orb. cbv iota.
  assert (Hz4 : zlen (be_bytes 4 v) = 4) by apply zlen_be_bytes.
  destruct (zlen_opaque ASN_OPAQUE_FLOAT (be_bytes 4 v)) as [_ Hz]; [lia|].
  change sizeof_float with 4 in *.
  eapply rroom_mid; [done|by apply mid_start|apply room_spec; [done|lia]|change (zlen []) with 0; lia|].
  intros s1 Hm1 Hf1. eapply rcopy_mid; [exact Hm1|done|lia|]. rewrite app_nil_r. intros s2 Hm2 Hf2.
  apply rfloat_tail_post; try done; lia.
Qed.

#[export] Instance asn_realloc_rbuild_double_rbuilds t v :
  RBuilds (fun r s => asn_realloc_rbuild_double r t v sizeof_double s)
          (opaque_tlv ASN_OPAQUE_DOUBLE (be_bytes 8 v)).
Proof.
  intros r s Hs. unfold asn_realloc_rbuild_double. rewrite Z.eqb_refl, wire_of_double_be. simpl orb. cbv iota.
  assert (Hz8 : zlen (be_bytes 8 v) = 8) by apply zlen_be_bytes.
  destruct (zlen_opaque ASN_OPAQUE_DOUBLE (be_bytes 8 v)) as [_ Hz]; [lia|].
  change sizeof_double with 8 in *.
  eapply rroom_mid; [done|by apply mid_start|apply room_spec; [done|lia]|change (zlen []) with 0; lia|].
  intros s1 Hm1 Hf1. eapply rcopy_mid; [exact Hm1|done|lia|]. rewrite app_nil_r. intros s2 Hm2 Hf2.
  apply rfloat_tail_post; try done; lia.
Qed.

End wide.
