(* ===== verification/SnmpVar.v ===== *)
(** Variable bindings: [snmp_parse_var_op], [snmp_build_var_op] and
    [snmp_realloc_rbuild_var_op] of [snmplib/snmp.c].

    [var_val] is the image in memory of the value (a [u_char *] the code casts
    according to the type), little-endian as on the machine modelled. *)
From Stdlib Require Import ZArith Lia.
From S2P Require Import Prelude Asn1Defs Asn1Parse Asn1Build Asn1RBuild.

Definition SNMP_NOSUCHOBJECT : Z := 0x80.
Definition SNMP_NOSUCHINSTANCE : Z := 0x81.
Definition SNMP_ENDOFMIBVIEW : Z := 0x82.

(** ** Typed access to a value *)

Definition read_u64 (p : list Z) (off : Z) : option Z := bs ← peek_n p off 8; Some (le_value bs).
Definition read_long (p : list Z) : option Z := v ← read_u64 p 0; Some (s64 v).
Definition read_counter64 (p : list Z) : option counter64 :=
  h ← read_u64 p 0; l ← read_u64 p 8; Some (Counter64 h l).
Definition read_float (p : list Z) : option Z := bs ← peek_n p 0 4; Some (le_value bs).
Definition read_double (p : list Z) : option Z := read_u64 p 0.

(** The object as an array of [oid]: its whole elements. *)
Fixpoint oid_array_loop (n : nat) (p : list Z) : list Z :=
  match n with
  | O => []
  | S k => le_value (take 8 p) :: oid_array_loop k (drop 8 p)
  end.
Definition oid_array (p : list Z) : list Z := oid_array_loop (length p / 8) p.

(** The builders look at [*intp] and the like only when the size they are given
    is that of the type; [guarded] reads under that condition. *)
Definition guarded {T} (len size : Z) (dflt : T) (read : option T) : option T :=
  if len =? size then read else Some dflt.

(** ** Parsing *)

(** The [OUT] and [IN/OUT] arguments of [snmp_parse_var_op]. *)
Record var_op : Type := mkvar {
  var_name : list Z;
  var_name_len : Z;
  var_val_type : Z;
  var_val_len : Z;
  var_val : ptr;
  listlength : Z
}.

Definition snmp_parse_var_op (m : list Z) (data : Z) (v : var_op) : option (var_op * ptr) :=
  let var_op_start := data in
  '(s, data) ← asn_parse_sequence m (Ptr data) (mkpout (listlength v) 0 tt)
                                  (Z.lor ASN_SEQUENCE ASN_CONSTRUCTOR);
  match data with
  | NULL => Some (v, NULL)
  | Ptr data =>
    '(s, data) ← asn_parse_objid m data
                   (mkpout (datalength s) (type s) (var_name v, var_name_len v));
    let v := mkvar (out s).1 (out s).2 (var_val_type v) (var_val_len v) (var_val v) (listlength v) in
    match data with
    | NULL => Some (v, NULL)
    | Ptr data =>
      if negb (type s =? Z.lor (Z.lor ASN_UNIVERSAL ASN_PRIMITIVE) ASN_OBJECT_ID) then Some (v, NULL)
      else
        let val := Ptr data in
        '(s, data) ← asn_parse_header m (Ptr data) (mkpout (datalength s) (var_val_type v) tt);
        let v := mkvar (var_name v) (var_name_len v) (type s) (var_val_len v) val (listlength v) in
        match data with
        | NULL => Some (v, NULL)
        | Ptr data =>
          let data := data + datalength s in
          Some (mkvar (var_name v) (var_name_len v) (var_val_type v) (datalength s) val
                      (u64 (listlength v - s32 (data - var_op_start))), Ptr data)
        end
    end
  end.

(** ** Building, forwards *)

Definition is_one_of (t : Z) (l : list Z) : bool := existsb (Z.eqb t) l.

(** The [switch] over [var_val_type]. *)
Definition build_value (m : list Z) (data dl var_val_type var_val_len : Z) (var_val : list Z)
  : option bres :=
  let t := var_val_type in
  if t =? ASN_INTEGER then
    v ← guarded var_val_len sizeof_long 0 (read_long var_val);
    asn_build_int m data dl t v var_val_len
  else if is_one_of t [ASN_GAUGE; ASN_COUNTER; ASN_TIMETICKS; ASN_UINTEGER] then
    v ← guarded var_val_len sizeof_long 0 (read_u64 var_val 0);
    asn_build_unsigned_int m data dl t v var_val_len
  else if is_one_of t [ASN_OPAQUE_COUNTER64; ASN_OPAQUE_U64; ASN_COUNTER64] then
    c ← guarded var_val_len sizeof_counter64 (Counter64 0 0) (read_counter64 var_val);
    asn_build_unsigned_int64 m data dl t c var_val_len
  else if is_one_of t [ASN_OCTET_STR; ASN_IPADDRESS; ASN_OPAQUE; ASN_NSAP] then
    asn_build_string m data dl t (Some var_val) var_val_len
  else if t =? ASN_OBJECT_ID then
    asn_build_objid m data dl t (oid_array var_val) (var_val_len / sizeof_oid)
  else if t =? ASN_NULL then asn_build_null m data dl t
  else if t =? ASN_BIT_STR then asn_build_bitstring m data dl t (Some var_val) var_val_len
  else if is_one_of t [SNMP_NOSUCHOBJECT; SNMP_NOSUCHINSTANCE; SNMP_ENDOFMIBVIEW] then
    asn_build_null m data dl t
  else if t =? ASN_OPAQUE_FLOAT then
    v ← guarded var_val_len sizeof_float 0 (read_float var_val);
    asn_build_float m data dl t v var_val_len
  else if t =? ASN_OPAQUE_DOUBLE then
    v ← guarded var_val_len sizeof_double 0 (read_double var_val);
    asn_build_double m data dl t v var_val_len
  else if t =? ASN_OPAQUE_I64 then
    c ← guarded var_val_len sizeof_counter64 (Counter64 0 0) (read_counter64 var_val);
    asn_build_signed_int64 m data dl t c var_val_len
  else Some (m, dl, NULL).

Definition snmp_build_var_op (m : list Z) (data : Z) (var_name : list Z) (var_name_len : Z)
    (var_val_type var_val_len : Z) (var_val : list Z) (listlength : Z) : option bres :=
  let dataPtr := data in
  if listlength <? 4 then Some (m, listlength, NULL)
  else
    let data := data + 4 in
    let headerLen := data - dataPtr in
    let listlength := u64 (listlength - headerLen) in
    '(m, listlength, data) ←
      asn_build_objid m data listlength (Z.lor (Z.lor ASN_UNIVERSAL ASN_PRIMITIVE) ASN_OBJECT_ID)
                      var_name var_name_len;
    match data with
    | NULL => Some (m, listlength, NULL)
    | Ptr data =>
      '(m, listlength, data) ← build_value m data listlength var_val_type var_val_len var_val;
      match data with
      | NULL => Some (m, listlength, NULL)
      | Ptr data =>
        let dummyLen := u64 ((data - dataPtr) - headerLen) in
        (* the result of this call is ignored *)
        '(m, _, _) ← asn_build_sequence m dataPtr dummyLen (Z.lor ASN_SEQUENCE ASN_CONSTRUCTOR) dummyLen;
        Some (m, listlength, Ptr data)
      end
    end.

(** ** Building, backwards *)

Section rbuild.
Context {A : Allocator}.

(** The reverse builders of integers read the value before they compare its
    size. *)
Definition rbuild_value (r : bool) (var_val_type : Z) (var_val : list Z) (var_val_len : Z) (s : rstate)
  : rres :=
  let t := var_val_type in
  if t =? ASN_INTEGER then
    v ← read_long var_val; asn_realloc_rbuild_int r t v var_val_len s
  else if is_one_of t [ASN_GAUGE; ASN_COUNTER; ASN_TIMETICKS; ASN_UINTEGER] then
    v ← read_u64 var_val 0; asn_realloc_rbuild_unsigned_int r t v var_val_len s
  else if is_one_of t [ASN_OPAQUE_COUNTER64; ASN_OPAQUE_U64; ASN_COUNTER64] then
    c ← read_counter64 var_val; asn_realloc_rbuild_unsigned_int64 r t c var_val_len s
  else if is_one_of t [ASN_OCTET_STR; ASN_IPADDRESS; ASN_OPAQUE; ASN_NSAP] then
    asn_realloc_rbuild_string r t var_val var_val_len s
  else if t =? ASN_OBJECT_ID then
    asn_realloc_rbuild_objid r t (oid_array var_val) (var_val_len / sizeof_oid) s
  else if t =? ASN_NULL then asn_realloc_rbuild_null r t s
  else if t =? ASN_BIT_STR then asn_realloc_rbuild_bitstring r t var_val var_val_len s
  else if is_one_of t [SNMP_NOSUCHOBJECT; SNMP_NOSUCHINSTANCE; SNMP_ENDOFMIBVIEW] then
    asn_realloc_rbuild_null r t s
  else if t =? ASN_OPAQUE_FLOAT then
    v ← guarded var_val_len sizeof_float 0 (read_float var_val);
    asn_realloc_rbuild_float r t v var_val_len s
  else if t =? ASN_OPAQUE_DOUBLE then
    v ← guarded var_val_len sizeof_double 0 (read_double var_val);
    asn_realloc_rbuild_double r t v var_val_len s
  else if t =? ASN_OPAQUE_I64 then
    c ← read_counter64 var_val; asn_realloc_rbuild_signed_int64 r t c var_val_len s
  else Some (s, false).

Definition snmp_realloc_rbuild_var_op (allow_realloc : bool) (var_name : list Z) (var_name_len : Z)
    (var_val_type : Z) (var_val : list Z) (var_val_len : Z) (s : rstate) : rres :=
  let start_offset := offset s in
  s <~ rbuild_value allow_realloc var_val_type var_val var_val_len s;
  s <~ asn_realloc_rbuild_objid allow_realloc
         (Z.lor (Z.lor ASN_UNIVERSAL ASN_PRIMITIVE) ASN_OBJECT_ID) var_name var_name_len s;
  asn_realloc_rbuild_sequence allow_realloc (Z.lor ASN_SEQUENCE ASN_CONSTRUCTOR)
    (u64 (offset s - start_offset)) s.

End rbuild.
