(* ===== verification/SnmpVarProps.v ===== *)
(** Variable bindings on the wire: both builders write the encoding of the
    binding, and the parser reads it back. *)
From Stdlib Require Import ZArith Lia.
From S2P Require Import Prelude Oid Asn1Defs Ber Asn1Parse Asn1ParseProps Asn1ParseWide Asn1Build Asn1BuildProps.
From S2P Require Import Asn1RBuild Asn1RBuildProps Asn1RBuildWide SnmpVar.

(** * Values *)

(** The values of the SNMP types, as the protocol sees them. *)
Inductive value : Type :=
| VInt (v : Z)
| VUns (t v : Z)
| VC64 (t : Z) (c : counter64)
| VStr (t : Z) (bs : list Z)
| VOid (o : list Z)
| VNull (t : Z)
| VBits (bs : list Z)
| VFloat (v : Z)
| VDouble (v : Z)
| VI64 (c : counter64).

Definition vtype (v : value) : Z :=
  match v with
  | VInt _ => ASN_INTEGER
  | VUns t _ | VC64 t _ | VStr t _ | VNull t => t
  | VOid _ => ASN_OBJECT_ID
  | VBits _ => ASN_BIT_STR
  | VFloat _ => ASN_OPAQUE_FLOAT
  | VDouble _ => ASN_OPAQUE_DOUBLE
  | VI64 _ => ASN_OPAQUE_I64
  end.

(** The object in memory that holds the value. *)
Definition vimage (v : value) : list Z :=
  match v with
  | VInt x | VUns _ x | VDouble x => le_bytes 8 x
  | VC64 _ c | VI64 c => le_bytes 8 (high c) ++ le_bytes 8 (low c)
  | VStr _ bs | VBits bs => bs
  | VOid o => oid_image o
  | VNull _ => []
  | VFloat x => le_bytes 4 x
  end.

Definition vlen (v : value) : Z := zlen (vimage v).

Definition u64_ok (x : Z) : Prop := 0 <= x < 2 ^ 64.

(** What a caller may pass. *)
Definition vok (v : value) : Prop :=
  match v with
  | VInt x => - 2 ^ 63 <= x < 2 ^ 63
  | VUns t x => t ∈ [ASN_GAUGE; ASN_COUNTER; ASN_TIMETICKS; ASN_UINTEGER] /\ u64_ok x
  | VC64 t c => t ∈ [ASN_OPAQUE_COUNTER64; ASN_OPAQUE_U64; ASN_COUNTER64] /\ u64_ok (high c) /\ u64_ok (low c)
  | VStr t bs =>
    t ∈ [ASN_OCTET_STR; ASN_IPADDRESS; ASN_OPAQUE; ASN_NSAP] /\ bytes bs /\ zlen bs <= 0x8000 /\
    (t = ASN_OPAQUE -> exists b bs', bs = b :: bs' /\ b <> ASN_OPAQUE_TAG1)
  | VOid o => wire_oid o /\ zlen o <= MAX_OID_LEN
  | VNull t => t ∈ [ASN_NULL; SNMP_NOSUCHOBJECT; SNMP_NOSUCHINSTANCE; SNMP_ENDOFMIBVIEW]
  | VBits bs => bytes bs /\ 1 <= zlen bs <= 0x8000
  | VFloat x => 0 <= x < 2 ^ 32
  | VDouble x => u64_ok x
  | VI64 c => c64_ok c
  end.

(** The encoding. *)
Definition vber (v : value) : list Z :=
  match v with
  | VInt x => tlv ASN_INTEGER (ber_int (CHECK_OVERFLOW_S x))
  | VUns t x => tlv t (ber_int (x mod 2 ^ 32))
  | VC64 t c => if t =? ASN_COUNTER64 then tlv t (ber_int (c64_value c))
                else opaque_tlv t (ber_int (c64_value c))
  | VStr t bs => tlv t bs
  | VOid o => tlv ASN_OBJECT_ID (ber_oid o)
  | VNull t => tlv t []
  | VBits bs => tlv ASN_BIT_STR bs
  | VFloat x => opaque_tlv ASN_OPAQUE_FLOAT (be_bytes 4 x)
  | VDouble x => opaque_tlv ASN_OPAQUE_DOUBLE (be_bytes 8 x)
  | VI64 c => opaque_tlv ASN_OPAQUE_I64 (ber_int (s64 (cval c)))
  end.

(** ** Reading the image back *)

Lemma peek_n_at a b c :
  peek_n (a ++ b ++ c) (zlen a) (zlen b) = Some b.
Proof. apply holds_peek_n. by exists a, c. Qed.

Lemma zlen_le_bytes n v : zlen (le_bytes n v) = Z.of_nat n.
Proof. unfold zlen. by rewrite length_le_bytes. Qed.

Lemma read_u64_at a x c : u64_ok x -> read_u64 (a ++ le_bytes 8 x ++ c) (zlen a) = Some x.
Proof.
  intros Hx. unfold read_u64. rewrite <- (zlen_le_bytes 8 x : _ = 8), peek_n_at. obind.
  rewrite le_value_le_bytes. by rewrite Z.mod_small.
Qed.

Lemma read_u64_image x : u64_ok x -> read_u64 (le_bytes 8 x) 0 = Some x.
Proof. intros Hx. pose proof (read_u64_at [] x [] Hx) as H. by rewrite app_nil_r in H. Qed.

Lemma read_long_image x : - 2 ^ 63 <= x < 2 ^ 63 -> read_long (le_bytes 8 x) = Some x.
Proof.
  intros Hx. unfold read_long, read_u64. rewrite <- (zlen_le_bytes 8 x : _ = 8), peek_n_all by done.
  obind. rewrite le_value_le_bytes. change (8 * Z.of_nat 8) with 64.
  change (x mod 2 ^ 64) with (u64 x). by rewrite swrap_wrap, swrap_small by lia.
Qed.

Lemma read_counter64_image c :
  u64_ok (high c) -> u64_ok (low c) ->
  read_counter64 (le_bytes 8 (high c) ++ le_bytes 8 (low c)) = Some c.
Proof.
  intros Hh Hl. unfold read_counter64.
  pose proof (read_u64_at [] (high c) (le_bytes 8 (low c)) Hh) as H1.
  rewrite app_nil_l, zlen_nil in H1.
  rewrite H1. obind.
  pose proof (read_u64_at (le_bytes 8 (high c)) (low c) [] Hl) as H2.
  rewrite app_nil_r, zlen_le_bytes in H2. change (Z.of_nat 8) with 8 in H2. rewrite H2. obind. by destruct c.
Qed.

Lemma read_float_image x : 0 <= x < 2 ^ 32 -> read_float (le_bytes 4 x) = Some x.
Proof.
  intros Hx. unfold read_float. rewrite <- (zlen_le_bytes 4 x : _ = 4), peek_n_all by done. obind.
  by rewrite le_value_le_bytes, Z.mod_small.
Qed.

Lemma oid_array_image o : Forall u64_ok o -> oid_array (oid_image o) = o.
Proof.
  intros Ho. unfold oid_array. rewrite oid_image_length, Nat.mul_comm, Nat.div_mul by done.
  induction Ho as [|x o Hx Ho IH]; [done|].
  change (oid_image (x :: o)) with (le_bytes 8 x ++ oid_image o). cbn [length oid_array_loop].
  pose proof (length_le_bytes 8 x) as Hl.
  rewrite take_app_le by lia. rewrite firstn_all2 by lia.
  rewrite drop_app_ge, Hl by lia. simpl drop. rewrite drop_0, IH, le_value_le_bytes.
  by rewrite Z.mod_small.
Qed.

Lemma wire_oid_u64 o : wire_oid o -> Forall u64_ok o.
Proof.
  destruct o as [|x [|y rest]]; [done..|]. intros (Hx & Hy & Hxy & Hf & Hr). unfold u64_ok.
  repeat constructor; try lia. eapply Forall_impl; [|exact Hr]. simpl. lia.
Qed.

Lemma voidlen o : zlen (oid_image o) / sizeof_oid = zlen o.
Proof.
  unfold zlen, sizeof_oid. rewrite oid_image_length, Nat2Z.inj_mul.
  by rewrite Z.mul_comm, Z.div_mul by lia.
Qed.

(** ** The two [switch]es *)

Ltac pick_type H :=
  repeat match type of H with
  | _ ∈ [] => by apply elem_of_nil in H
  | _ ∈ _ :: _ => apply elem_of_cons in H as [->|H]
  end.

(** Decides the comparisons of type constants in the goal. *)
Ltac eval_types :=
  repeat match goal with
  | |- context [is_one_of ?a ?l] =>
    let r := eval vm_compute in (is_one_of a l) in
    match r with true => idtac | false => idtac end; change (is_one_of a l) with r
  | |- context [?a =? ?b] =>
    let r := eval vm_compute in (a =? b) in
    match r with true => idtac | false => idtac end; change (a =? b) with r
  end; cbv iota.

(** Opens both sides at a value: [vlen], the type, the image, the read. *)
Ltac enter_value :=
  unfold vlen; cbn [vtype vimage vber]; eval_types;
  unfold guarded; rewrite ?zlen_app, ?zlen_le_bytes; eval_types;
  rewrite ?read_long_image, ?read_u64_image, ?read_counter64_image, ?read_float_image by done; obind.

Lemma build_value_builds v :
  vok v -> Builds (fun m d dl => build_value m d dl (vtype v) (vlen v) (vimage v)) (vber v).
Proof.
  intros Hv m d dl. unfold build_value.
  destruct v as [x|t x|t c|t bs|o|t|bs|x|x|c]; cbn [vok] in Hv.
  - enter_value. apply asn_build_int_builds.
  - destruct Hv as [Ht Hx]. pick_type Ht; enter_value; apply asn_build_unsigned_int_builds; apply Hx.
  - destruct Hv as (Ht & Hh & Hl). pick_type Ht; enter_value; revert m d dl;
      first [apply asn_build_unsigned_int64_opaque_builds; (apply Hh || apply Hl || auto)
            |apply asn_build_unsigned_int64_builds; (apply Hh || apply Hl || done)].
  - destruct Hv as (Ht & _ & Hz & _). pick_type Ht; enter_value; apply asn_build_string_builds; done || lia.
  - destruct Hv as [Ho Hz]. enter_value. rewrite voidlen, oid_array_image by by apply wire_oid_u64.
    by apply asn_build_objid_builds.
  - pick_type Hv; enter_value; apply asn_build_null_builds.
  - destruct Hv as [_ Hz]. enter_value. apply asn_build_bitstring_builds; done || lia.
  - enter_value. apply asn_build_float_builds.
  - enter_value. unfold read_double. rewrite read_u64_image by done. apply asn_build_double_builds.
  - enter_value. destruct Hv as [Hh Hl].
    rewrite read_counter64_image by (unfold u64_ok; lia). by apply asn_build_signed_int64_builds.
Qed.

Section rbuild.
Context {A : Allocator}.

Lemma rbuild_value_rbuilds v :
  vok v -> RBuilds (fun r s => rbuild_value r (vtype v) (vimage v) (vlen v) s) (vber v).
Proof.
  intros Hv r s. unfold rbuild_value.
  destruct v as [x|t x|t c|t bs|o|t|bs|x|x|c]; cbn [vok] in Hv.
  - enter_value. apply asn_realloc_rbuild_int_rbuilds.
  - destruct Hv as [Ht Hx]. pick_type Ht; enter_value; apply asn_realloc_rbuild_unsigned_int_rbuilds; apply Hx.
  - destruct Hv as (Ht & Hh & Hl). pick_type Ht; enter_value; revert r s;
      first [apply asn_realloc_rbuild_unsigned_int64_opaque_rbuilds; (apply Hh || apply Hl || auto)
            |apply asn_realloc_rbuild_unsigned_int64_rbuilds; (apply Hh || apply Hl || done)].
  - destruct Hv as (Ht & _ & Hz & _). pick_type Ht; enter_value;
      apply asn_realloc_rbuild_string_rbuilds; done || lia.
  - destruct Hv as [Ho Hz]. enter_value. rewrite voidlen, oid_array_image by by apply wire_oid_u64.
    unfold MAX_OID_LEN in Hz. apply asn_realloc_rbuild_objid_rbuilds; [done|lia].
  - pick_type Hv; enter_value; apply asn_realloc_rbuild_null_rbuilds.
  - destruct Hv as [_ Hz]. enter_value. apply asn_realloc_rbuild_bitstring_rbuilds; done || lia.
  - enter_value. apply asn_realloc_rbuild_float_rbuilds.
  - enter_value. unfold read_double. rewrite read_u64_image by done. apply asn_realloc_rbuild_double_rbuilds.
  - enter_value. destruct Hv as [Hh Hl].
    rewrite read_counter64_image by (unfold u64_ok; lia). by apply asn_realloc_rbuild_signed_int64_rbuilds.
Qed.
End rbuild.

(** * Bindings *)

Definition name_ok (o : list Z) : Prop := wire_oid o /\ zlen o <= MAX_OID_LEN.

(** The contents of the sequence: name, then value. *)
Definition binding (o : list Z) (v : value) : list Z := tlv ASN_OBJECT_ID (ber_oid o) ++ vber v.

(** The sizes stay far from the limit of a two-octet length. *)
Lemma ber_oid_bound o : name_ok o -> 1 <= zlen (ber_oid o) <= 635.
Proof.
  intros [Ho Hz]. destruct o as [|x [|y rest]]; [done..|]. destruct Ho as (Hx & Hy & Hxy & Hf & Hr).
  assert (Hv : Forall subid32 ((40 * x + y) :: rest)) by (constructor; [lia|done]).
  pose proof (bind_subid_bound _ Hv) as Hb. unfold MAX_OID_LEN in Hz. rewrite !zlen_cons in Hz.
  cbn [ber_oid]. split.
  - rewrite zlen_app, zlen_ber_subid. pose proof (subid_size_pos (40 * x + y)).
    pose proof (zlen_nonneg (rest ≫= ber_subid)). lia.
  - change (ber_subid (40 * x + y) ++ (rest ≫= ber_subid)) with (((40 * x + y) :: rest) ≫= ber_subid).
    etransitivity; [exact Hb|]. simpl length. unfold zlen in Hz. lia.
Qed.

Lemma zlen_tlv_bound t c n : zlen c <= n <= 0xFFFF -> zlen c + 2 <= zlen (tlv t c) <= n + 6.
Proof.
  intros Hc. rewrite zlen_tlv. pose proof (zlen_nonneg c).
  pose proof (zlen_ber_length (zlen c) ltac:(lia)). lia.
Qed.

Lemma vber_bound v : vok v -> 2 <= zlen (vber v) <= 0x8006.
Proof.
  intros Hv.
  assert (Ht : forall t c, zlen c <= 0x8000 -> 2 <= zlen (tlv t c) <= 0x8006).
  { intros t c Hc. pose proof (zlen_tlv_bound t c 0x8000 ltac:(lia)). pose proof (zlen_nonneg c). lia. }
  assert (Hop : forall t c, zlen c <= 9 -> 2 <= zlen (opaque_tlv t c) <= 0x8006).
  { intros t c Hc. destruct (zlen_opaque t c Hc) as [_ ->]. pose proof (zlen_nonneg c). lia. }
  assert (Hi : forall x n, 0 < n -> fits n x -> zlen (ber_int x) <= n).
  { intros x n Hn Hf. rewrite zlen_ber_int. by apply int_size_le. }
  assert (Hc64 : forall c, zlen (ber_int (c64_value c)) <= 9).
  { intros c. apply Hi; [lia|]. pose proof (c64_value_range c). unfold fits. lia. }
  destruct v as [x|t x|t c|t bs|o|t|bs|x|x|c]; cbn [vok vber] in *.
  - apply Ht. pose proof (Hi _ 8 ltac:(lia) (CHECK_OVERFLOW_S_fits x)). lia.
  - apply Ht. pose proof (Z.mod_pos_bound x (2 ^ 32) ltac:(lia)).
    pose proof (Hi (x mod 2 ^ 32) 8 ltac:(lia)) as H8. unfold fits in H8. lia.
  - pose proof (Hc64 c). destruct (t =? ASN_COUNTER64); [apply Ht; lia|by apply Hop].
  - apply Ht. lia.
  - pose proof (ber_oid_bound o Hv). apply Ht. lia.
  - apply Ht. done.
  - apply Ht. lia.
  - apply Hop. by rewrite zlen_be_bytes.
  - apply Hop. by rewrite zlen_be_bytes.
  - apply Hop. pose proof (Hi (s64 (cval c)) 8 ltac:(lia)) as H8.
    pose proof (swrap_range 64 (cval c) ltac:(lia)). unfold fits in H8. lia.
Qed.

Lemma binding_bound o v : name_ok o -> vok v -> 5 <= zlen (binding o v) <= 0x9000.
Proof.
  intros Ho Hv. unfold binding. rewrite zlen_app. pose proof (vber_bound v Hv).
  pose proof (ber_oid_bound o Ho).
  pose proof (zlen_tlv_bound ASN_OBJECT_ID (ber_oid o) 635 ltac:(lia)). lia.
Qed.

(** ** Forwards *)

Lemma confined_trans m m1 m2 d dl : confined m m1 d dl -> confined m1 m2 d dl -> confined m m2 d dl.
Proof. intros [Hl1 Hq1] [Hl2 Hq2]. split; [congruence|]. intros q Hq. by rewrite Hq2, Hq1. Qed.

Lemma confined_within m m' d dl d' dl' :
  confined m m' d' dl' -> d <= d' -> d' + dl' <= d + dl -> confined m m' d dl.
Proof. intros [Hl Hq] H1 H2. split; [done|]. intros q Hout. apply Hq. lia. Qed.

(** A write in front of an earlier one. *)
Lemma patch_before m p a b :
  0 <= p -> p + zlen a + zlen b <= zlen m -> patch (patch m (p + zlen a) b) p a = patch m p (a ++ b).
Proof.
  unfold zlen. intros Hp Hl. unfold patch.
  rewrite take_app_le by (rewrite length_take; lia). rewrite take_take, Nat.min_l by lia.
  rewrite drop_app_ge by (rewrite length_take; lia). rewrite length_take.
  replace (_ - _)%nat with 0%nat by lia. rewrite drop_0, <- app_assoc, length_app.
  replace (Z.to_nat (p + Z.of_nat (length a)) + length b)%nat
    with (Z.to_nat p + (length a + length b))%nat by lia. done.
Qed.

Lemma build_var_op_builds o v :
  name_ok o -> vok v ->
  Builds (fun m d dl => snmp_build_var_op m d o (zlen o) (vtype v) (vlen v) (vimage v) dl)
         (seq_header 0x30 (zlen (binding o v)) ++ binding o v).
Proof.
  intros Ho Hv m d dl Hd Hdl Hm. unfold snmp_build_var_op. rewrite zlen_app.
  change (zlen (seq_header _ _)) with 4. pose proof (binding_bound o v Ho Hv) as Hb.
  set (N := tlv ASN_OBJECT_ID (ber_oid o)) in *. set (V := vber v) in *.
  assert (HB : zlen (binding o v) = zlen N + zlen V) by apply zlen_app.
  pose proof (zlen_nonneg N). pose proof (zlen_nonneg V).
  destruct (Z.ltb_spec dl 4).
  { rewrite decide_False by lia. exists m, dl. split; [done|apply confined_refl]. }
  replace (d + 4 - d) with 4 by lia. rewrite wrap_small by lia.
  pose proof (asn_build_objid_builds ASN_OBJECT_ID o (proj1 Ho) (proj2 Ho) m (d + 4) (dl - 4)
    ltac:(lia) ltac:(lia) ltac:(lia)) as Hname. fold N in Hname.
  change (Z.lor (Z.lor ASN_UNIVERSAL ASN_PRIMITIVE) ASN_OBJECT_ID) with ASN_OBJECT_ID.
  destruct (decide (zlen N <= dl - 4)) as [HN|HN].
  2: { destruct Hname as (m' & dl' & -> & Hc). obind. rewrite decide_False by lia.
       exists m', dl'. split; [done|]. eapply confined_within; [exact Hc|lia|lia]. }
  rewrite Hname. obind. set (m1 := patch m (d + 4) N).
  assert (Hm1 : zlen m1 = zlen m) by (apply zlen_patch; lia).
  pose proof (build_value_builds v Hv m1 (d + 4 + zlen N) (dl - 4 - zlen N)
    ltac:(lia) ltac:(lia) ltac:(lia)) as Hval. fold V in Hval.
  destruct (decide (zlen V <= dl - 4 - zlen N)) as [HV|HV].
  2: { destruct Hval as (m' & dl' & -> & Hc). obind. rewrite decide_False by lia.
       exists m', dl'. split; [done|]. eapply (confined_trans _ m1).
       { eapply (confined_within _ _ _ _ (d + 4) (dl - 4)); [apply confined_patch; lia|lia|lia]. }
       eapply confined_within; [exact Hc|lia|lia]. }
  rewrite Hval. obind. set (m2 := patch m1 (d + 4 + zlen N) V).
  replace (d + 4 + zlen N + zlen V - d - 4) with (zlen (binding o v)) by lia.
  rewrite wrap_small by lia. change (Z.lor ASN_SEQUENCE ASN_CONSTRUCTOR) with 0x30.
  assert (Hm2 : zlen m2 = zlen m) by (unfold m2; rewrite zlen_patch; lia).
  pose proof (asn_build_sequence_builds 0x30 (zlen (binding o v)) ltac:(lia) m2 d (zlen (binding o v))
    Hd ltac:(lia) ltac:(lia)) as Hseq. change (zlen (seq_header _ _)) with 4 in Hseq.
  rewrite decide_True in Hseq by lia. rewrite Hseq. obind. rewrite decide_True by lia.
  unfold m2, m1. rewrite (patch_patch m (d + 4) _ N V) by (unfold zlen in *; lia). fold (binding o v).
  pose proof (patch_before m d (seq_header 0x30 (zlen (binding o v))) (binding o v) Hd) as Hpb.
  change (zlen (seq_header _ _)) with 4 in Hpb. change (N ++ V) with (binding o v).
  rewrite Hpb by lia. result_eq.
Qed.

(** ** Backwards *)

Section rbuild_binding.
Context {A : Allocator}.

Lemma rbuild_var_op_rbuilds o v :
  name_ok o -> vok v ->
  RBuilds (fun r s => snmp_realloc_rbuild_var_op r o (zlen o) (vtype v) (vimage v) (vlen v) s)
          (tlv 0x30 (binding o v)).
Proof.
  intros Ho Hv r s Hs. pose proof (binding_bound o v Ho Hv) as Hb. unfold snmp_realloc_rbuild_var_op.
  set (N := tlv ASN_OBJECT_ID (ber_oid o)). set (V := vber v).
  assert (HB : zlen (binding o v) = zlen N + zlen V) by apply zlen_app.
  pose proof (zlen_tlv 0x30 (binding o v)) as Hz. pose proof (zlen_nonneg N). pose proof (zlen_nonneg V).
  pose proof (zlen_nonneg (ber_length (zlen (binding o v)))).
  change (Z.lor (Z.lor ASN_UNIVERSAL ASN_PRIMITIVE) ASN_OBJECT_ID) with ASN_OBJECT_ID.
  change (Z.lor ASN_SEQUENCE ASN_CONSTRUCTOR) with 0x30.
  eapply rseq_mid; [done|by apply mid_start|by apply rbuild_value_rbuilds|fold V; change (zlen []) with 0; lia|].
  rewrite app_nil_r. intros s1 Hm1.
  eapply rseq_mid; [done|exact Hm1|apply asn_realloc_rbuild_objid_rbuilds|fold N V; lia|].
  { apply Ho. } { destruct Ho as [_ Ho]. unfold MAX_OID_LEN in Ho. lia. } { eapply mid_rwf, Hm1. }
  fold N V. change (N ++ V) with (binding o v). intros s2 Hm2.
  pose proof (mid_offset _ _ _ _ Hs Hm2) as Ho2. rewrite wrap_small by lia.
  replace (offset s2 - offset s) with (zlen (binding o v)) by lia.
  eapply rlast_mid; [done|exact Hm2|apply asn_realloc_rbuild_sequence_rbuilds; [lia|eapply mid_rwf, Hm2]|done].
Qed.
End rbuild_binding.

(** ** Parsing *)

(** The contents octets of a value. *)
Definition vcontents (v : value) : list Z :=
  match v with
  | VInt x => ber_int (CHECK_OVERFLOW_S x)
  | VUns _ x => ber_int (x mod 2 ^ 32)
  | VC64 _ c => ber_int (c64_value c)
  | VStr _ bs | VBits bs => bs
  | VOid o => ber_oid o
  | VNull _ => []
  | VFloat x => be_bytes 4 x
  | VDouble x => be_bytes 8 x
  | VI64 c => ber_int (s64 (cval c))
  end.

Lemma vber_shape v :
  vok v ->
  vber v = (if is_opaque_special (vtype v) then opaque_tlv else tlv) (vtype v) (vcontents v).
Proof.
  intros Hv. destruct v as [x|t x|t c|t bs|o|t|bs|x|x|c]; cbn [vok vber vtype vcontents] in *; try done.
  - destruct Hv as [Ht _]. by pick_type Ht.
  - destruct Hv as [Ht _]. by pick_type Ht.
  - destruct Hv as [Ht _]. by pick_type Ht.
  - by pick_type Hv.
Qed.

Lemma vtype_tag v : vok v -> IS_EXTENSION_ID (vtype v) = false.
Proof.
  intros Hv. destruct v as [x|t x|t c|t bs|o|t|bs|x|x|c]; cbn [vok vtype] in *; try done.
  - destruct Hv as [Ht _]. by pick_type Ht.
  - destruct Hv as [Ht _]. by pick_type Ht.
  - destruct Hv as [Ht _]. by pick_type Ht.
  - by pick_type Hv.
Qed.

Lemma vcontents_bytes v : vok v -> bytes (vcontents v).
Proof.
  intros Hv. destruct v as [x|t x|t c|t bs|o|t|bs|x|x|c]; cbn [vok vcontents] in *;
    try apply be_bytes_byte; try constructor; try tauto.
  apply ber_oid_bytes.
Qed.

Lemma vcontents_bound v : vok v -> zlen (vcontents v) <= 0x8006 /\
  (is_opaque_special (vtype v) = true -> zlen (vcontents v) <= 9).
Proof.
  intros Hv. pose proof (vber_bound v Hv) as Hb. rewrite vber_shape in Hb by done.
  assert (Hs : is_opaque_special (vtype v) = true -> zlen (vcontents v) <= 9).
  { intros Hsp. clear Hb. destruct v as [x|t x|t c|t bs|o|t|bs|x|x|c]; cbn [vok vtype vcontents] in *; try done.
    - destruct Hv as [Ht _]. by pick_type Ht.
    - rewrite zlen_ber_int. apply int_size_le; [lia|]. pose proof (c64_value_range c). unfold fits. lia.
    - destruct Hv as [Ht _]. by pick_type Ht.
    - rewrite zlen_ber_int. pose proof (swrap_range 64 (cval c) ltac:(lia)).
      pose proof (int_size_le (s64 (cval c)) 8 ltac:(lia)) as H8. unfold fits in H8. lia. }
  split; [|exact Hs]. destruct (is_opaque_special (vtype v)); [specialize (Hs eq_refl); lia|].
  rewrite zlen_tlv in Hb. pose proof (zlen_nonneg (ber_length (zlen (vcontents v)))). lia.
Qed.

(** The header of an encoded value: its type, the size and place of its contents. *)
Lemma value_header m q v ty dl :
  vok v -> holds m q (vber v) -> zlen (vber v) <= dl < 2 ^ 64 ->
  asn_parse_header m (Ptr q) (mkpout dl ty tt) =
  Some (mkpout (zlen (vcontents v)) (vtype v) tt, Ptr (q + zlen (vber v) - zlen (vcontents v))).
Proof.
  intros Hv Hh Hdl. pose proof (vcontents_bound v Hv) as [Hc1 Hc2]. pose proof (vcontents_bytes v Hv).
  pose proof (vtype_tag v Hv) as Htag. pose proof (zlen_nonneg (vcontents v)) as Hc0.
  rewrite vber_shape in Hh, Hdl |- * by done.
  destruct (is_opaque_special (vtype v)) eqn:Hsp.
  - specialize (Hc2 eq_refl). destruct (zlen_opaque (vtype v) (vcontents v) Hc2) as [Hz1 Hz2].
    assert (Hat : opaque_at m q (vtype v) (vcontents v) dl).
    { split; [|done]. unfold tlv_at. change (tlv ASN_OPAQUE (opaque_contents (vtype v) (vcontents v)))
        with (opaque_tlv (vtype v) (vcontents v)). split; [done|]. split; [|lia].
      unfold opaque_contents, tlv. repeat apply Forall_cons_2; [done| |].
      - unfold is_opaque_special in Hsp.
        repeat (apply orb_prop in Hsp as [Hsp|Hsp]); apply Z.eqb_eq in Hsp; rewrite Hsp; done.
      - apply Forall_app. split; [apply ber_length_bytes; lia|done]. }
    rewrite (asn_parse_header_opaque _ _ _ (vtype v) (vcontents v)) by done. rewrite Hz2. result_eq.
  - assert (Hat : tlv_at m q (vtype v) (vcontents v) dl) by (split_and!; done || lia).
    rewrite (asn_parse_header_tlv _ _ _ (vtype v) (vcontents v)); try done.
    + rewrite zlen_tlv. result_eq.
    + intros Hop tl. destruct v as [x|t x|t c|t bs|o|t|bs|x|x|c]; cbn [vok vtype vcontents] in *; try done;
        try (destruct Hv as [Ht _]; by pick_type Ht).
      * destruct Hv as (_ & _ & _ & Hno). destruct (Hno Hop) as (b & bs' & -> & Hb). congruence.
    + intros Hop. destruct v as [x|t x|t c|t bs|o|t|bs|x|x|c]; cbn [vok vtype vcontents] in *; try done;
        try (destruct Hv as [Ht _]; by pick_type Ht).
      * destruct Hv as (_ & _ & _ & Hno). destruct (Hno Hop) as (b & bs' & -> & Hb). congruence.
      * by pick_type Hv.
Qed.

(** A sequence header of either form in front of [n] contents octets at [p]. *)
Definition seq_at (m : list Z) (d n p dl : Z) : Prop :=
  peek m d = Some 0x30 /\ parse_length_checked m (d + 1) d dl = Some (Some (n, p)) /\
  0 <= n <= 0x7fffffff.

Lemma seq_at_header m d n p dl ty :
  seq_at m d n p dl ->
  asn_parse_sequence m (Ptr d) (mkpout dl ty tt) 0x30 = Some (mkpout n 0x30 tt, Ptr p).
Proof.
  intros (Ht & Hp & Hn). rewrite asn_parse_sequence_header. unfold asn_parse_header. rewrite Ht. obind.
  unfold set_datalength, set_type. cbn [type datalength out]. change (IS_EXTENSION_ID 48) with false.
  cbv iota. rewrite Hp. change (and_byte_is (48 =? ASN_OPAQUE) m p ASN_OPAQUE_TAG1) with (Some false). obind.
  cbn [type]. by rewrite s32_len, wrap_small by lia.
Qed.

Lemma seq_at_tlv m d c dl :
  holds m d (tlv 0x30 c) -> zlen c <= 0x7fffffff -> zlen (tlv 0x30 c) <= dl < 2 ^ 64 ->
  seq_at m d (zlen c) (d + zlen (tlv 0x30 c) - zlen c) dl.
Proof.
  intros Hh Hc Hdl. apply holds_tlv in Hh as (Ht & Hl & _). rewrite zlen_tlv in *. pose proof (zlen_nonneg c).
  split; [done|]. split; [|lia].
  rewrite (parse_length_checked_ber m (d + 1) d dl (zlen c)) by (done || lia).
  do 3 f_equal. lia.
Qed.

(** The length octets of a header with the fixed size. *)
Lemma parse_length_long m d t n dl :
  holds m d (seq_header t n) -> 0 <= n <= 0xFFFF -> n + 4 <= dl < 2 ^ 64 ->
  parse_length_checked m (d + 1) d dl = Some (Some (n, d + 4)).
Proof.
  intros Hh Hn Hdl. apply holds_tail in Hh.
  unfold parse_length_checked, asn_parse_length. pose proof (holds_peek _ _ _ _ Hh) as Hp. rewrite Hp. obind.
  change (negb (Z.land 130 ASN_LONG_LEN =? 0)) with true.
  change (Z.land 130 (Z.lnot ASN_LONG_LEN)) with 2. change (2 =? 0) with false.
  change (sizeof_long <? 2) with false. cbv iota zeta. change (Z.to_nat 2) with 2%nat.
  assert (Hb : bytes [n / 256; n mod 256]).
  { pose proof (Z.mod_pos_bound n 256 ltac:(lia)).
    repeat constructor; try lia; [apply Z.div_pos; lia|apply Z.div_lt_upper_bound; lia]. }
  rewrite (length_loop_ber 2 m (d + 1 + 1) 0 [n / 256; n mod 256]); [|by eapply holds_tail|done|done|done].
  obind. rewrite !be_value_cons, be_value_nil.
  replace ((0 * 256 + n / 256) * 256 + n mod 256) with n by (pose proof (Z.div_mod n 256 ltac:(lia)); lia).
  rewrite (wrap_small 64 n), swrap_small, (proj2 (Z.ltb_ge _ _)) by lia.
  obind. unfold _asn_parse_length_check. change (Z.of_nat 2) with 2.
  rewrite (wrap_small 64 (_ - d)) by lia. rewrite wrap_small by lia.
  rewrite !(proj2 (Z.ltb_ge _ _)) by lia. simpl orb. cbv iota. do 3 f_equal. lia.
Qed.

Lemma seq_at_long m d n dl :
  holds m d (seq_header 0x30 n) -> 0 <= n <= 0xFFFF -> n + 4 <= dl < 2 ^ 64 -> seq_at m d n (d + 4) dl.
Proof.
  intros Hh Hn Hdl. split; [by apply holds_peek in Hh|]. split; [by apply (parse_length_long m d 0x30)|lia].
Qed.

(** The parser on the sequence of name and value. *)
Lemma parse_var_op_binding m d o v v0 p :
  name_ok o -> vok v -> seq_at m d (zlen (binding o v)) p (listlength v0) ->
  holds m p (binding o v) -> 0 <= p - d -> p - d + zlen (binding o v) <= listlength v0 < 2 ^ 31 ->
  zlen o <= var_name_len v0 <= zlen (var_name v0) -> zlen (var_name v0) < 2 ^ 31 ->
  snmp_parse_var_op m d v0 =
  Some (mkvar (patch (var_name v0) 0 o) (zlen o) (vtype v) (zlen (vcontents v))
              (Ptr (p + zlen (tlv ASN_OBJECT_ID (ber_oid o))))
              (listlength v0 - (p - d + zlen (binding o v))),
        Ptr (p + zlen (binding o v))).
Proof.
  intros Ho Hv Hseq Hh Hpd Hll Hn Hnm. unfold snmp_parse_var_op.
  change (Z.lor ASN_SEQUENCE ASN_CONSTRUCTOR) with 0x30.
  change (Z.lor (Z.lor ASN_UNIVERSAL ASN_PRIMITIVE) ASN_OBJECT_ID) with ASN_OBJECT_ID.
  rewrite (seq_at_header _ _ _ _ _ _ Hseq). obind. cbn [datalength type].
  pose proof (binding_bound o v Ho Hv) as Hb. pose proof (ber_oid_bound o Ho) as Hob.
  apply holds_app in Hh as [HhN HhV]. set (N := tlv ASN_OBJECT_ID (ber_oid o)) in *.
  assert (HB : zlen (binding o v) = zlen N + zlen (vber v)) by apply zlen_app.
  fold (zlen N) in HhV. pose proof (vber_bound v Hv). pose proof (zlen_nonneg N).
  rewrite (asn_parse_objid_tlv m p _ o (var_name v0) (var_name_len v0)); try done; [|apply Ho|].
  2: { cbn [datalength]. split_and!; [done|apply ber_oid_bytes|lia|fold N; lia|lia]. }
  fold N. obind. cbn [datalength type out fst snd]. change (negb (ASN_OBJECT_ID =? ASN_OBJECT_ID)) with false.
  cbv iota. cbn [var_val_type].
  rewrite (value_header m (p + zlen N) v) by (done || lia). obind. cbn [datalength type].
  cbn [var_name var_name_len var_val_type listlength].
  rewrite swrap_small by lia. rewrite wrap_small by lia. result_eq. f_equal. lia.
Qed.
