(* ===== verification/Codec.v ===== *)
(** The codec as a whole: what is proved of [asn1.c] and of the variable
    bindings of [snmp.c], stated for their callers. *)
From Stdlib Require Import ZArith Lia.
From S2P Require Import Prelude Oid Asn1Defs Ber Asn1Parse Asn1ParseProps Asn1ParseWide Asn1Build Asn1BuildProps.
From S2P Require Import Asn1RBuild Asn1RBuildProps Asn1RBuildWide SnmpVar SnmpVarProps.

(** * Decidable side conditions *)

#[export] Instance is_byte_dec b : Decision (is_byte b).
Proof. unfold is_byte. apply _. Defined.

#[export] Instance readable_dec m d dl : Decision (readable m d dl).
Proof. unfold readable. apply _. Defined.

#[export] Instance wire_oid_dec o : Decision (wire_oid o).
Proof. destruct o as [|x [|y rest]]; simpl; apply _. Defined.

#[export] Instance name_ok_dec o : Decision (name_ok o).
Proof. unfold name_ok. apply _. Defined.

#[export] Instance rwf_dec s : Decision (rwf s).
Proof. unfold rwf. apply _. Defined.

#[export] Instance c64_ok_dec c : Decision (c64_ok c).
Proof. unfold c64_ok. apply _. Defined.

(** An allocator that serves every request an object can have the size of. *)
#[local] Program Instance big_heap : Allocator := {|
  realloc b n :=
    if (zlen b <=? n) && (n <? 2 ^ 63) then Some (b ++ replicate (Z.to_nat (n - zlen b)) 0)
    else if (0 <=? n) && (n <? 2 ^ 63) then Some (take (Z.to_nat n) b) else None
|}.
Next Obligation.
  intros b n b' H. simpl in H. destruct (Z.leb_spec (zlen b) n), (Z.ltb_spec n (2 ^ 63)), (Z.leb_spec 0 n);
    simplify_eq/=; (split; [|done]); unfold zlen in *; rewrite ?length_app, ?length_replicate, ?length_take; lia.
Qed.
Next Obligation.
  intros b n b' H Hn. simpl in H. rewrite (proj2 (Z.leb_le _ _) Hn) in H. pose proof (zlen_nonneg b).
  destruct (n <? 2 ^ 63); cbn [andb] in H; [|rewrite andb_false_r in H; done]. simplify_eq. apply take_app_length.
Qed.
Next Obligation.
  intros b n b' H Hn. simpl in H. destruct (Z.leb_spec (zlen b) n), (Z.ltb_spec n (2 ^ 63)), (Z.leb_spec 0 n); simplify_eq/=; try lia.
  - replace n with (zlen b) by lia. unfold zlen. by rewrite Z.sub_diag, Nat2Z.id, app_nil_r, firstn_all.
  - done.
Qed.

(** * Round trips *)

(** [build] wrote [n] bytes at [d] in an area of [dl] and [parse] gives [x]
    back, with the same accounting; or there was no room. *)
Definition roundtrips {T} (build : option bres) (parse : list Z -> option (pout T * ptr))
    (t : Z) (x : T) (n d dl : Z) : Prop :=
  match build with
  | Some (m', dl', Ptr p) =>
    n <= dl /\ p = d + n /\ dl' = dl - n /\ parse m' = Some (mkpout dl' t x, Ptr p)
  | Some (_, _, NULL) => dl < n
  | None => False
  end.

Lemma roundtrips_intro {T} f bs (parse : list Z -> option (pout T * ptr)) t x m d dl :
  Builds f bs -> 0 <= d -> 0 <= dl < 2 ^ 64 -> d + dl <= zlen m ->
  (forall m', holds m' d bs -> zlen bs <= dl ->
     parse m' = Some (mkpout (dl - zlen bs) t x, Ptr (d + zlen bs))) ->
  roundtrips (f m d dl) parse t x (zlen bs) d dl.
Proof.
  intros Hf Hd Hdl Hm Hp. pose proof (Hf m d dl Hd Hdl Hm) as H. unfold roundtrips.
  destruct (decide (zlen bs <= dl)).
  - rewrite H. split_and!; try done. apply Hp; [|done]. apply patch_holds; unfold zlen in *; lia.
  - destruct H as (m' & dl' & -> & _). lia.
Qed.

(** The same for a reverse builder: the value is at the front of the buffer. *)
Definition rroundtrips {T} (res : rres) (parse : list Z -> Z -> Z -> option (pout T * ptr))
    (t : Z) (x : T) (n : Z) : Prop :=
  match res with
  | Some (s', true) =>
    let d := pkt_len s' - offset s' in
    parse (pkt s') d (offset s') = Some (mkpout (offset s' - n) t x, Ptr (d + n))
  | Some (_, false) => True
  | None => False
  end.

Lemma written_holds s bs w : rwf s -> written s = bs ++ w -> holds (pkt s) (pkt_len s - offset s) bs.
Proof.
  intros (Hl & Ho & _) Hw. unfold written in Hw.
  exists (take (Z.to_nat (pkt_len s - offset s)) (pkt s)), w. rewrite <- Hw, take_drop.
  split; [done|]. rewrite length_take. unfold zlen in *. lia.
Qed.

Lemma rroundtrips_intro {A : Allocator} {T} f bs (parse : list Z -> Z -> Z -> option (pout T * ptr)) t x r s :
  RBuilds f bs -> rwf s ->
  (forall m' d dl, holds m' d bs -> zlen bs <= dl < 2 ^ 64 ->
     parse m' d dl = Some (mkpout (dl - zlen bs) t x, Ptr (d + zlen bs))) ->
  rroundtrips (f r s) parse t x (zlen bs).
Proof.
  intros Hf Hs Hp. destruct (Hf r s Hs) as (s' & ok & -> & Hs' & _ & _ & Hok). unfold rroundtrips.
  destruct ok; [|done]. apply Hp; [by eapply written_holds|].
  pose proof (zlen_written s' Hs') as Hz. rewrite Hok, zlen_app in Hz. pose proof (zlen_nonneg (written s)).
  destruct Hs' as (_ & ? & ?). lia.
Qed.

(** The premises of the parsing lemmas. *)
Lemma tlv_at_intro m d t c dl :
  holds m d (tlv t c) -> bytes c -> zlen c <= 0xFFFF -> zlen (tlv t c) <= dl < 2 ^ 64 -> tlv_at m d t c dl.
Proof. intros. split_and!; done || lia. Qed.

Lemma opaque_at_intro m d t c dl :
  holds m d (opaque_tlv t c) -> bytes c -> is_byte t -> zlen c <= 9 ->
  zlen (opaque_tlv t c) <= dl < 2 ^ 64 -> opaque_at m d t c dl.
Proof.
  intros Hh Hb Ht Hc Hdl. destruct (zlen_opaque t c Hc) as [Hz _]. pose proof (zlen_nonneg c). split; [|done].
  apply tlv_at_intro; [done| |lia|done]. unfold opaque_contents, tlv.
  repeat apply Forall_cons_2; [done|done|]. apply Forall_app. split; [apply ber_length_bytes; lia|done].
Qed.

Lemma ber_int_size v n : 0 < n -> fits n v -> 1 <= zlen (ber_int v) <= n.
Proof.
  intros Hn Hf. rewrite zlen_ber_int. pose proof (int_size_pos v). pose proof (int_size_le v n Hn Hf). lia.
Qed.

(** ** Parsing an encoded value *)

Lemma parse_built_int m d s v :
  fits 8 v -> holds m d (tlv ASN_INTEGER (ber_int v)) ->
  zlen (tlv ASN_INTEGER (ber_int v)) <= datalength s < 2 ^ 64 ->
  asn_parse_int m d s sizeof_long =
  Some (mkpout (datalength s - zlen (tlv ASN_INTEGER (ber_int v))) ASN_INTEGER (CHECK_OVERFLOW_S v),
        Ptr (d + zlen (tlv ASN_INTEGER (ber_int v)))).
Proof.
  intros Hv Hh Hdl. pose proof (ber_int_size v 8 ltac:(lia) Hv) as Hz.
  rewrite (asn_parse_int_tlv m d s (ber_int v)); [|apply tlv_at_intro; [done|apply ber_int_bytes|lia|done]|done].
  by rewrite twos_ber_int.
Qed.

Lemma parse_built_uint m d s t v :
  t ∈ [ASN_GAUGE; ASN_COUNTER; ASN_TIMETICKS; ASN_UINTEGER] -> 0 <= v < 2 ^ 32 ->
  holds m d (tlv t (ber_int v)) -> zlen (tlv t (ber_int v)) <= datalength s < 2 ^ 64 ->
  asn_parse_unsigned_int m d s sizeof_long =
  Some (mkpout (datalength s - zlen (tlv t (ber_int v))) t v, Ptr (d + zlen (tlv t (ber_int v)))).
Proof.
  intros Ht Hv Hh Hdl. pose proof (ber_int_size v 8 ltac:(lia) ltac:(unfold fits; lia)) as Hz.
  rewrite (asn_parse_unsigned_int_tlv m d s t (ber_int v));
    [|pick_type Ht; auto|apply tlv_at_intro; [done|apply ber_int_bytes|lia|done]|done].
  by rewrite twos_ber_int, Z.mod_small.
Qed.

(** The contents of a 64-bit counter. *)
Lemma u64_contents_ber v : 0 <= v < 2 ^ 64 -> u64_contents (ber_int v) /\ be_value 0 (ber_int v) = v /\
  1 <= zlen (ber_int v) <= 9.
Proof.
  intros Hv. pose proof (ber_int_size v 9 ltac:(lia) ltac:(unfold fits; lia)) as Hz.
  assert (Hle : v < 2 ^ (8 * zlen (ber_int v))).
  { rewrite zlen_ber_int. pose proof (int_size_fits v) as Hf. unfold fits in Hf. pose proof (int_size_pos v).
    pose proof (Z.pow_le_mono_r 2 (8 * Z.of_nat (int_size v) - 1) (8 * Z.of_nat (int_size v)) ltac:(lia) ltac:(lia)).
    lia. }
  split_and!; try lia.
  - unfold u64_contents. destruct (decide (zlen (ber_int v) = 9)) as [H9|]; [right|left; lia].
    split; [done|]. rewrite zlen_ber_int in H9. unfold ber_int.
    replace (int_size v) with 9%nat by lia. by rewrite be_bytes_9.
  - unfold ber_int. rewrite be_value_be_bytes, <- zlen_ber_int. apply Z.mod_small. lia.
Qed.

Lemma split64_c64_value c : c64_ok c -> split64 (c64_value c) = c.
Proof. intros Hc. rewrite c64_value_ok by done. by apply split64_cval. Qed.

Lemma parse_built_counter64 m d s t c :
  c64_ok c -> t ∈ [ASN_OPAQUE_COUNTER64; ASN_OPAQUE_U64; ASN_COUNTER64] ->
  holds m d (vber (VC64 t c)) -> zlen (vber (VC64 t c)) <= datalength s < 2 ^ 64 ->
  asn_parse_unsigned_int64 m d s sizeof_counter64 =
  Some (mkpout (datalength s - zlen (vber (VC64 t c))) t c, Ptr (d + zlen (vber (VC64 t c)))).
Proof.
  intros Hc Ht Hh Hdl. destruct (u64_contents_ber _ (c64_value_range c)) as (Hu & Hv & Hz).
  assert (Hout : split64 (be_value 0 (ber_int (c64_value c))) = c) by (rewrite Hv; by apply split64_c64_value).
  cbn [vber] in *. destruct (Z.eqb_spec t ASN_COUNTER64) as [->|Hne].
  - rewrite (asn_parse_unsigned_int64_tlv m d s (ber_int (c64_value c))), Hout; [done| |done].
    apply tlv_at_intro; done || lia || apply ber_int_bytes.
  - assert (Ht' : (t = ASN_OPAQUE_COUNTER64 \/ t = ASN_OPAQUE_U64) /\ is_byte t).
    { pick_type Ht; try done; (split; [auto|by_decide]). }
    rewrite (asn_parse_unsigned_int64_opaque m d s t (ber_int (c64_value c))), Hout; [done|tauto| |done].
    apply opaque_at_intro; done || lia || apply ber_int_bytes || tauto.
Qed.

Lemma parse_built_int64 m d s c :
  c64_ok c -> holds m d (vber (VI64 c)) -> zlen (vber (VI64 c)) <= datalength s < 2 ^ 64 ->
  asn_parse_signed_int64 m d s sizeof_counter64 =
  Some (mkpout (datalength s - zlen (vber (VI64 c))) ASN_OPAQUE_I64 c, Ptr (d + zlen (vber (VI64 c)))).
Proof.
  intros Hc Hh Hdl. cbn [vber] in *. pose proof (swrap_range 64 (cval c) ltac:(lia)).
  pose proof (ber_int_size (s64 (cval c)) 8 ltac:(lia) ltac:(unfold fits; lia)) as Hz.
  rewrite (asn_parse_signed_int64_opaque m d s (ber_int (s64 (cval c)))); [| |done].
  - rewrite twos_ber_int, <- split64_mod.
    change (s64 (cval c) mod 2 ^ 64) with (u64 (s64 (cval c))). rewrite wrap_swrap by lia.
    unfold wrap. by rewrite split64_mod, split64_cval.
  - apply opaque_at_intro; done || lia || apply ber_int_bytes || by_decide.
Qed.

(** * Claims: round trips of the forward builders *)

Section claims.
  Context (m : list Z) (d dl : Z).
  Context (Hd : 0 <= d) (Hdl : 0 <= dl < 2 ^ 64) (Hm : d + dl <= zlen m).

(** [asn_parse_int] reads back what [asn_build_int] wrote for any [long]:
    the value itself when it fits 32 bits, and otherwise the value truncated by
    [CHECK_OVERFLOW_S] on both sides.  Both account for the same bytes, and
    [asn_build_int] fails only for lack of room. *)
Theorem asn_int_roundtrip v t0 x0 :
  roundtrips (asn_build_int m d dl ASN_INTEGER v sizeof_long)
    (fun m' => asn_parse_int m' d (mkpout dl t0 x0) sizeof_long)
    ASN_INTEGER (CHECK_OVERFLOW_S (CHECK_OVERFLOW_S v))
    (zlen (tlv ASN_INTEGER (ber_int (CHECK_OVERFLOW_S v)))) d dl /\
  (- 2 ^ 31 <= v < 2 ^ 31 -> CHECK_OVERFLOW_S (CHECK_OVERFLOW_S v) = v).
Proof.
  split; [|intros; rewrite (CHECK_OVERFLOW_S_id v) by done; by apply CHECK_OVERFLOW_S_id].
  apply (roundtrips_intro _ _ _ _ _ _ _ _ (asn_build_int_builds ASN_INTEGER v)); try done.
  intros m' Hh Hn. apply (parse_built_int m' d); done || apply CHECK_OVERFLOW_S_fits || (cbn [datalength]; lia).
Qed.

(** The unsigned 32-bit types (Counter32, Gauge32, TimeTicks, UInteger32)
    survive a round trip, and a value beyond 32 bits is sent modulo [2^32]. *)
Theorem asn_unsigned_int_roundtrip t v t0 x0 :
  t ∈ [ASN_GAUGE; ASN_COUNTER; ASN_TIMETICKS; ASN_UINTEGER] -> 0 <= v ->
  roundtrips (asn_build_unsigned_int m d dl t v sizeof_long)
    (fun m' => asn_parse_unsigned_int m' d (mkpout dl t0 x0) sizeof_long)
    t (v mod 2 ^ 32) (zlen (tlv t (ber_int (v mod 2 ^ 32)))) d dl.
Proof.
  intros Ht Hv. pose proof (Z.mod_pos_bound v (2 ^ 32) ltac:(lia)).
  apply (roundtrips_intro _ _ _ _ _ _ _ _ (asn_build_unsigned_int_builds t v Hv)); try done.
  intros m' Hh Hn. apply (parse_built_uint m' d); done || (cbn [datalength]; lia).
Qed.

(** Octet strings (and IpAddress, Opaque, NSAP) survive a round trip; the
    parser adds a terminating null byte when the buffer has room for it. *)
Theorem asn_string_roundtrip t c t0 str n :
  t ∈ [ASN_OCTET_STR; ASN_IPADDRESS; ASN_OPAQUE; ASN_NSAP] ->
  bytes c -> zlen c <= 0xFFFF -> zlen c <= n <= zlen str ->
  roundtrips (asn_build_string m d dl t (Some c) (zlen c))
    (fun m' => asn_parse_string m' d (mkpout dl t0 (str, n)))
    t (patch str 0 (if zlen c <? n then c ++ [0] else c), zlen c) (zlen (tlv t c)) d dl.
Proof.
  intros Ht Hb Hc Hn.
  apply (roundtrips_intro _ _ _ _ _ _ _ _ (asn_build_string_builds t c _ eq_refl Hc)); try done.
  intros m' Hh Hl. rewrite (asn_parse_string_tlv m' d _ t c str n); try done.
  - by destruct (zlen c <? n).
  - pick_type Ht; auto.
  - apply tlv_at_intro; done || (cbn [datalength]; lia).
Qed.

(** An object identifier of 2 to 128 components, with the first two in the
    ranges of X.660, survives a round trip. *)
Theorem asn_objid_roundtrip o t0 objid n :
  name_ok o -> zlen o <= n <= zlen objid -> zlen objid < 2 ^ 31 ->
  roundtrips (asn_build_objid m d dl ASN_OBJECT_ID o (zlen o))
    (fun m' => asn_parse_objid m' d (mkpout dl t0 (objid, n)))
    ASN_OBJECT_ID (patch objid 0 o, zlen o) (zlen (tlv ASN_OBJECT_ID (ber_oid o))) d dl.
Proof.
  intros Ho Hn Hs. pose proof (ber_oid_bound o Ho).
  apply (roundtrips_intro _ _ _ _ _ _ _ _ (asn_build_objid_builds ASN_OBJECT_ID o (proj1 Ho) (proj2 Ho))); try done.
  intros m' Hh Hl. rewrite (asn_parse_objid_tlv m' d _ o objid n); try done; [apply Ho|].
  apply tlv_at_intro; [done|apply ber_oid_bytes|lia|cbn [datalength]; lia].
Qed.

(** 64-bit counters survive a round trip, bare or wrapped in an Opaque. *)
Theorem asn_counter64_roundtrip t c t0 c0 :
  t ∈ [ASN_OPAQUE_COUNTER64; ASN_OPAQUE_U64; ASN_COUNTER64] -> c64_ok c ->
  roundtrips (asn_build_unsigned_int64 m d dl t c sizeof_counter64)
    (fun m' => asn_parse_unsigned_int64 m' d (mkpout dl t0 c0) sizeof_counter64)
    t c (zlen (vber (VC64 t c))) d dl.
Proof.
  intros Ht Hc. assert (Hb : Builds (fun m d dl => asn_build_unsigned_int64 m d dl t c sizeof_counter64)
                                    (vber (VC64 t c))).
  { destruct Hc as [Hh Hl]. cbn [vber]. destruct (Z.eqb_spec t ASN_COUNTER64) as [->|Hne].
    - apply asn_build_unsigned_int64_builds; done || apply Hh || apply Hl.
    - apply asn_build_unsigned_int64_opaque_builds; [apply Hh|apply Hl|]. pick_type Ht; auto; done. }
  apply (roundtrips_intro _ _ _ _ _ _ _ _ Hb); try done.
  intros m' Hh Hl. apply (parse_built_counter64 m' d); done || (cbn [datalength]; lia).
Qed.

(** Signed 64-bit integers survive a round trip. *)
Theorem asn_int64_roundtrip c t0 c0 :
  c64_ok c ->
  roundtrips (asn_build_signed_int64 m d dl ASN_OPAQUE_I64 c sizeof_counter64)
    (fun m' => asn_parse_signed_int64 m' d (mkpout dl t0 c0) sizeof_counter64)
    ASN_OPAQUE_I64 c (zlen (vber (VI64 c))) d dl.
Proof.
  intros Hc. apply (roundtrips_intro _ _ _ _ _ _ _ _ (asn_build_signed_int64_builds ASN_OPAQUE_I64 c Hc)); try done.
  intros m' Hh Hl. apply (parse_built_int64 m' d); done || (cbn [datalength vber]; lia).
Qed.
End claims.

(** * Claims: the builders *)

(** C35: every forward builder, on every value of every type, writes exactly the
    encoding of the value and accounts for it when there is room, and otherwise
    returns [NULL] without having touched anything outside its output area. *)
Theorem forward_builders_encode v :
  vok v -> Builds (fun m d dl => build_value m d dl (vtype v) (vlen v) (vimage v)) (vber v).
Proof. apply build_value_builds. Qed.

(** C36: every reverse builder, on every value of every type, puts exactly the
    encoding of the value in front of what the buffer holds; it never touches
    memory outside the buffer, it leaves the size of the buffer alone when it
    may not reallocate, and it fails only when the room is missing and the
    allocator refuses a request of less than [offset + size + 8192] bytes. *)
Theorem reverse_builders_encode {A : Allocator} v :
  vok v -> RBuilds (fun r s => rbuild_value r (vtype v) (vimage v) (vlen v) s) (vber v).
Proof. apply rbuild_value_rbuilds. Qed.

(** The forward and the reverse builder of a value agree byte for byte:
    what the one writes at [d] is what the other puts in front of its buffer. *)
Theorem reverse_forward_agree {A : Allocator} v m d dl r s :
  vok v -> 0 <= d -> 0 <= dl < 2 ^ 64 -> d + dl <= zlen m -> rwf s ->
  match build_value m d dl (vtype v) (vlen v) (vimage v),
        rbuild_value r (vtype v) (vimage v) (vlen v) s with
  | Some (m', _, Ptr p), Some (s', true) =>
    exists bs, holds m' d bs /\ zlen bs = p - d /\ written s' = bs ++ written s
  | None, _ | _, None => False
  | _, _ => True
  end.
Proof.
  intros Hv Hd Hdl Hm Hs. pose proof (build_value_builds v Hv m d dl Hd Hdl Hm) as Hf.
  destruct (rbuild_value_rbuilds v Hv r s Hs) as (s' & ok & -> & _ & _ & _ & Hok).
  destruct (decide (zlen (vber v) <= dl)).
  - rewrite Hf. destruct ok; [|done]. exists (vber v). split_and!; [|lia|done].
    apply patch_holds; unfold zlen in *; lia.
  - by destruct Hf as (m' & dl' & -> & _).
Qed.

(** Growing the buffer keeps every encoded byte, at the end of the buffer,
    and adds between 256 and 8192 bytes; a refused request changes nothing. *)
Theorem asn_realloc_keeps_written {A : Allocator} s :
  rwf s ->
  match asn_realloc s with
  | Some (s', true) =>
    rwf s' /\ offset s' = offset s /\ written s' = written s /\
    pkt_len s + 256 <= pkt_len s' <= pkt_len s + 8192
  | Some (s', false) => s' = s
  | None => False
  end.
Proof.
  intros Hs. destruct (asn_realloc_spec s Hs) as [(s' & -> & Hg)|[-> _]]; [exact Hg|done].
Qed.

(** The room check of the reverse builders terminates and, when it succeeds,
    there is room for [n] bytes. *)
Theorem room_terminates {A : Allocator} r n s :
  rwf s -> 0 <= n -> rroom r s n (room r n s).
Proof. apply room_spec. Qed.

(** * Claims: variable bindings *)

(** The binding the parser is expected to deliver. *)
Definition parsed_binding (o : list Z) (v : value) (v0 : var_op) (val n : Z) : var_op :=
  mkvar (patch (var_name v0) 0 o) (zlen o) (vtype v) (zlen (vcontents v)) (Ptr val) (listlength v0 - n).

(** The caller's buffer for the name. *)
Definition name_room (o : list Z) (v0 : var_op) : Prop :=
  zlen o <= var_name_len v0 <= zlen (var_name v0) /\ zlen (var_name v0) < 2 ^ 31.

(** C22: [snmp_parse_var_op] reads back what [snmp_build_var_op] wrote: the name,
    the type of the value, the size of its contents and a pointer at which the
    encoding of the value starts; both consume the same bytes of the list.
    [snmp_build_var_op] fails only for lack of room. *)
Theorem var_op_roundtrip o v m d dl v0 :
  name_ok o -> vok v -> 0 <= d -> 0 <= dl < 2 ^ 31 -> d + dl <= zlen m ->
  listlength v0 = dl -> name_room o v0 ->
  match snmp_build_var_op m d o (zlen o) (vtype v) (vlen v) (vimage v) dl with
  | Some (m', dl', Ptr p) =>
    exists val, holds m' val (vber v) /\ dl' = dl - (p - d) /\
      snmp_parse_var_op m' d v0 = Some (parsed_binding o v v0 val (p - d), Ptr p)
  | Some (_, _, NULL) => dl < 4 + zlen (binding o v)
  | None => False
  end.
Proof.
  intros Ho Hv Hd Hdl Hm Hll [Hn1 Hn2].
  pose proof (build_var_op_builds o v Ho Hv m d dl Hd ltac:(lia) Hm) as Hf. rewrite zlen_app in Hf.
  change (zlen (seq_header _ _)) with 4 in Hf. pose proof (binding_bound o v Ho Hv).
  destruct (decide (4 + zlen (binding o v) <= dl)); [|destruct Hf as (m' & dl' & -> & _); lia].
  rewrite Hf. set (m' := patch m d _).
  assert (Hh : holds m' d (seq_header 0x30 (zlen (binding o v)) ++ binding o v)).
  { apply patch_holds; unfold zlen in *; rewrite ?length_app; change (length (seq_header _ _)) with 4%nat; lia. }
  apply holds_app in Hh as [Hh1 Hh2]. change (Z.of_nat (length (seq_header _ _))) with 4 in Hh2.
  exists (d + 4 + zlen (tlv ASN_OBJECT_ID (ber_oid o))). split; [by apply holds_app in Hh2 as [_ Hh2]|].
  split; [lia|].
  rewrite (parse_var_op_binding m' d o v v0 (d + 4)); try done; try lia; [|apply seq_at_long; done || lia].
  unfold parsed_binding. result_eq. f_equal. lia.
Qed.

(** [snmp_parse_var_op] reads back what [snmp_realloc_rbuild_var_op] put in
    front of the buffer. *)
Theorem rbuild_var_op_roundtrip {A : Allocator} o v r s v0 :
  name_ok o -> vok v -> rwf s -> name_room o v0 ->
  match snmp_realloc_rbuild_var_op r o (zlen o) (vtype v) (vimage v) (vlen v) s with
  | Some (s', true) =>
    let d := pkt_len s' - offset s' in
    let n := zlen (tlv 0x30 (binding o v)) in
    listlength v0 = offset s' -> offset s' < 2 ^ 31 ->
    exists val, holds (pkt s') val (vber v) /\ written s' = tlv 0x30 (binding o v) ++ written s /\
      snmp_parse_var_op (pkt s') d v0 = Some (parsed_binding o v v0 val n, Ptr (d + n))
  | Some (_, false) => pkt_len s - offset s < zlen (tlv 0x30 (binding o v))
  | None => False
  end.
Proof.
  intros Ho Hv Hs [Hn1 Hn2]. pose proof (binding_bound o v Ho Hv).
  destruct (rbuild_var_op_rbuilds o v Ho Hv r s Hs) as (s' & ok & -> & Hs' & _ & _ & Hok).
  destruct ok; [|tauto]. intros d n Hll Hoff. pose proof (written_holds _ _ _ Hs' Hok) as Hh. fold d in Hh.
  pose proof (zlen_written s' Hs') as Hz. rewrite Hok, zlen_app in Hz. pose proof (zlen_nonneg (written s)).
  fold n in Hz. set (p := d + n - zlen (binding o v)).
  assert (Hp : holds (pkt s') p (binding o v)).
  { subst p n. rewrite zlen_tlv. apply holds_tlv in Hh as (_ & _ & Hh). revert Hh.
    replace (d + (1 + zlen (ber_length (zlen (binding o v))) + zlen (binding o v)) - zlen (binding o v))
      with (d + 1 + zlen (ber_length (zlen (binding o v)))) by lia. done. }
  assert (Hn : n = 1 + zlen (ber_length (zlen (binding o v))) + zlen (binding o v)) by apply zlen_tlv.
  pose proof (zlen_nonneg (ber_length (zlen (binding o v)))).
  exists (p + zlen (tlv ASN_OBJECT_ID (ber_oid o))). split; [by apply holds_app in Hp as [_ Hp]|].
  split; [done|].
  rewrite (parse_var_op_binding (pkt s') d o v v0 p); try done; try (subst p; lia).
  - unfold parsed_binding. result_eq. f_equal. subst p. lia.
  - apply seq_at_tlv; [done|lia|]. fold n. lia.
Qed.

(** * Claims: floating point *)

(** A [float] and a [double] keep their bit pattern over a round trip and
    both sides account for the same number of bytes, but the pointer the parsers
    return is that of the contents octets, 5 bytes in, and not the end of the
    object. *)
Theorem asn_float_double_roundtrip m d dl v w t0 x0 :
  0 <= d -> 11 + 5 <= dl < 2 ^ 64 -> d + dl <= zlen m -> 0 <= v < 2 ^ 32 -> 0 <= w < 2 ^ 64 ->
  (exists m', asn_build_float m d dl ASN_OPAQUE_FLOAT v sizeof_float = Some (m', dl - 9, Ptr (d + 9)) /\
     asn_parse_float m' d (mkpout dl t0 x0) sizeof_float =
       Some (mkpout (dl - 9) ASN_OPAQUE_FLOAT v, Ptr (d + 5))) /\
  (exists m', asn_build_double m d dl ASN_OPAQUE_DOUBLE w sizeof_double = Some (m', dl - 13, Ptr (d + 13)) /\
     asn_parse_double m' d (mkpout dl t0 x0) sizeof_double =
       Some (mkpout (dl - 13) ASN_OPAQUE_DOUBLE w, Ptr (d + 5))).
Proof.
  intros Hd Hdl Hm Hv Hw.
  pose proof (asn_build_float_builds ASN_OPAQUE_FLOAT v m d dl Hd ltac:(lia) Hm) as Hf.
  pose proof (asn_build_double_builds ASN_OPAQUE_DOUBLE w m d dl Hd ltac:(lia) Hm) as Hg.
  destruct (zlen_opaque ASN_OPAQUE_FLOAT (be_bytes 4 v)) as [_ Hzf]; [by rewrite zlen_be_bytes|].
  destruct (zlen_opaque ASN_OPAQUE_DOUBLE (be_bytes 8 w)) as [_ Hzg]; [by rewrite zlen_be_bytes|].
  rewrite zlen_be_bytes in Hzf, Hzg. change (Z.of_nat 4 + 5) with 9 in Hzf. change (Z.of_nat 8 + 5) with 13 in Hzg.
  rewrite Hzf, decide_True in Hf by lia. rewrite Hzg, decide_True in Hg by lia.
  split; (eexists; split; [eassumption|]).
  - rewrite (asn_parse_float_opaque _ d _ (be_bytes 4 v)); [|apply opaque_at_intro|apply zlen_be_bytes].
    + rewrite be_value_be_bytes, Z.mod_small, Hzf by done. done.
    + apply patch_holds; unfold zlen in *; lia.
    + apply be_bytes_byte.
    + by_decide.
    + by rewrite zlen_be_bytes.
    + rewrite Hzf. cbn [datalength]. lia.
  - rewrite (asn_parse_double_opaque _ d _ (be_bytes 8 w)); [|apply opaque_at_intro|apply zlen_be_bytes].
    + rewrite be_value_be_bytes, Z.mod_small, Hzg by done. done.
    + apply patch_holds; unfold zlen in *; lia.
    + apply be_bytes_byte.
    + by_decide.
    + by rewrite zlen_be_bytes.
    + rewrite Hzg. cbn [datalength]. lia.
Qed.

(** * Claims: the parsers on arbitrary input *)

(** C23: on any packet that extends 32 bytes past the announced data, no parser
    reads outside the packet or writes outside its output object, whatever the
    packet contains; the string and identifier parsers respect the sizes of the
    buffers they are given. *)
Theorem parsers_memory_safe m data dl t0 sz (x0 : Z) (c0 : counter64) (str : list Z * Z) (objid : list Z * Z) :
  readable m data dl -> str_ok str -> oidbuf_ok objid ->
  is_Some (asn_parse_int m data (mkpout dl t0 x0) sz) /\
  is_Some (asn_parse_unsigned_int m data (mkpout dl t0 x0) sz) /\
  is_Some (asn_parse_string m data (mkpout dl t0 str)) /\
  is_Some (asn_parse_bitstring m data (mkpout dl t0 str)) /\
  is_Some (asn_parse_objid m data (mkpout dl t0 objid)) /\
  is_Some (asn_parse_null m data (mkpout dl t0 tt)) /\
  is_Some (asn_parse_header m (Ptr data) (mkpout dl t0 tt)) /\
  is_Some (asn_parse_unsigned_int64 m data (mkpout dl t0 c0) sz) /\
  is_Some (asn_parse_signed_int64 m data (mkpout dl t0 c0) sz) /\
  is_Some (asn_parse_float m data (mkpout dl t0 x0) sz) /\
  is_Some (asn_parse_double m data (mkpout dl t0 x0) sz).
Proof.
  intros Hr Hs Ho. split_and!;
    auto using asn_parse_int_safe, asn_parse_unsigned_int_safe, asn_parse_string_safe,
      asn_parse_bitstring_safe, asn_parse_objid_safe, asn_parse_null_safe, asn_parse_header_safe,
      asn_parse_unsigned_int64_safe, asn_parse_signed_int64_safe, asn_parse_float_safe,
      asn_parse_double_safe.
Qed.

(** The parsers whose result is an object of type [T], under one name. *)
Definition well_framed {T} (parse : pout T -> option (pout T * ptr)) (data : Z) (s : pout T) : Prop :=
  forall s' p, parse s = Some (s', Ptr p) ->
    data < p /\ p - data <= datalength s /\ datalength s' = datalength s - (p - data).

(** C39: whatever the packet contains, a parser that succeeds returns a pointer
    past [data] and inside the announced data, and [*datalength] is then the
    number of bytes that remain: a caller that goes on parsing never leaves the
    packet. *)
Theorem parsers_stay_inside m data dl t0 sz (x0 : Z) (c0 : counter64) (str : list Z * Z) :
  bytes m -> 0 <= dl < 2 ^ 64 ->
  well_framed (fun s => asn_parse_int m data s sz) data (mkpout dl t0 x0) /\
  well_framed (fun s => asn_parse_unsigned_int m data s sz) data (mkpout dl t0 x0) /\
  well_framed (fun s => asn_parse_string m data s) data (mkpout dl t0 str) /\
  well_framed (fun s => asn_parse_bitstring m data s) data (mkpout dl t0 str) /\
  well_framed (fun s => asn_parse_objid m data s) data (mkpout dl t0 str) /\
  well_framed (fun s => asn_parse_unsigned_int64 m data s sz) data (mkpout dl t0 c0) /\
  well_framed (fun s => asn_parse_signed_int64 m data s sz) data (mkpout dl t0 c0).
Proof.
  intros Hm Hdl. unfold well_framed. split_and!; intros s' p H.
  - by eapply (asn_parse_int_framed Hm).
  - by eapply (asn_parse_unsigned_int_framed Hm).
  - by eapply (asn_parse_string_framed Hm).
  - by eapply (asn_parse_bitstring_framed Hm).
  - by eapply asn_parse_objid_framed.
  - by eapply (asn_parse_unsigned_int64_framed Hm).
  - by eapply (asn_parse_signed_int64_framed Hm).
Qed.

(** [asn_check_packet] frames a byte stream correctly: on any prefix of a
    message it asks for more (0) until the header is complete, and from then on
    gives the size of the whole message. *)
Theorem asn_check_packet_stream c n junk :
  zlen (tlv 0x30 c) < 2 ^ 31 ->
  let len := zlen (take n (tlv 0x30 c)) in
  asn_check_packet (take n (tlv 0x30 c)) len junk =
  Some (if len <? 1 + zlen (ber_length (zlen c)) then 0 else zlen (tlv 0x30 c)).
Proof. apply asn_check_packet_prefix. Qed.

(** * Witnesses *)

#[export] Instance str_ok_dec o : Decision (str_ok o).
Proof. unfold str_ok. apply _. Defined.

#[export] Instance oidbuf_ok_dec o : Decision (oidbuf_ok o).
Proof. unfold oidbuf_ok. apply _. Defined.

#[export] Instance name_room_dec o v0 : Decision (name_room o v0).
Proof. unfold name_room. apply _. Defined.

Lemma asn_int_roundtrip_witness :
  roundtrips (asn_build_int (replicate 16 0) 2 8 ASN_INTEGER (-129) sizeof_long)
    (fun m' => asn_parse_int m' 2 (mkpout 8 0 0) sizeof_long)
    ASN_INTEGER (CHECK_OVERFLOW_S (CHECK_OVERFLOW_S (-129)))
    (zlen (tlv ASN_INTEGER (ber_int (CHECK_OVERFLOW_S (-129))))) 2 8 /\
  CHECK_OVERFLOW_S (CHECK_OVERFLOW_S (-129)) = -129.
Proof.
  split; [apply asn_int_roundtrip; by_decide|].
  apply (asn_int_roundtrip (replicate 16 0) 2 8) with (t0 := 0) (x0 := 0); by_decide.
Defined.

Lemma asn_unsigned_int_roundtrip_witness :
  roundtrips (asn_build_unsigned_int (replicate 16 0) 0 16 ASN_COUNTER (2 ^ 32 + 200) sizeof_long)
    (fun m' => asn_parse_unsigned_int m' 0 (mkpout 16 0 0) sizeof_long)
    ASN_COUNTER ((2 ^ 32 + 200) mod 2 ^ 32) (zlen (tlv ASN_COUNTER (ber_int ((2 ^ 32 + 200) mod 2 ^ 32)))) 0 16.
Proof. apply asn_unsigned_int_roundtrip; by_decide. Defined.

Lemma asn_string_roundtrip_witness :
  roundtrips (asn_build_string (replicate 16 0) 0 16 ASN_OCTET_STR (Some [104; 105]) (zlen [104; 105]))
    (fun m' => asn_parse_string m' 0 (mkpout 16 0 (replicate 4 7, 3)))
    ASN_OCTET_STR (patch (replicate 4 7) 0 (if zlen [104; 105] <? 3 then [104; 105] ++ [0] else [104; 105]),
                   zlen [104; 105])
    (zlen (tlv ASN_OCTET_STR [104; 105])) 0 16.
Proof. apply asn_string_roundtrip; by_decide. Defined.

Lemma asn_objid_roundtrip_witness :
  roundtrips (asn_build_objid (replicate 16 0) 0 16 ASN_OBJECT_ID [1; 3; 6; 1; 4; 1; 8072] (zlen [1; 3; 6; 1; 4; 1; 8072]))
    (fun m' => asn_parse_objid m' 0 (mkpout 16 0 (replicate 10 0, 10)))
    ASN_OBJECT_ID (patch (replicate 10 0) 0 [1; 3; 6; 1; 4; 1; 8072], zlen [1; 3; 6; 1; 4; 1; 8072])
    (zlen (tlv ASN_OBJECT_ID (ber_oid [1; 3; 6; 1; 4; 1; 8072]))) 0 16.
Proof. apply asn_objid_roundtrip; by_decide. Defined.

Lemma asn_counter64_roundtrip_witness :
  roundtrips (asn_build_unsigned_int64 (replicate 32 0) 0 32 ASN_OPAQUE_U64 (Counter64 0x80000000 5) sizeof_counter64)
    (fun m' => asn_parse_unsigned_int64 m' 0 (mkpout 32 0 (Counter64 0 0)) sizeof_counter64)
    ASN_OPAQUE_U64 (Counter64 0x80000000 5) (zlen (vber (VC64 ASN_OPAQUE_U64 (Counter64 0x80000000 5)))) 0 32.
Proof. apply asn_counter64_roundtrip; by_decide. Defined.

Lemma asn_int64_roundtrip_witness :
  roundtrips (asn_build_signed_int64 (replicate 32 0) 0 32 ASN_OPAQUE_I64 (Counter64 0xFFFFFFFF 0xFFFFFF7F) sizeof_counter64)
    (fun m' => asn_parse_signed_int64 m' 0 (mkpout 32 0 (Counter64 0 0)) sizeof_counter64)
    ASN_OPAQUE_I64 (Counter64 0xFFFFFFFF 0xFFFFFF7F) (zlen (vber (VI64 (Counter64 0xFFFFFFFF 0xFFFFFF7F)))) 0 32.
Proof. apply asn_int64_roundtrip; by_decide. Defined.

Lemma forward_builders_encode_witness :
  Builds (fun m d dl => build_value m d dl (vtype (VInt 5)) (vlen (VInt 5)) (vimage (VInt 5))) (vber (VInt 5)).
Proof. apply forward_builders_encode. by_decide. Defined.

Lemma reverse_builders_encode_witness :
  RBuilds (fun r s => rbuild_value r (vtype (VFloat 7)) (vimage (VFloat 7)) (vlen (VFloat 7)) s) (vber (VFloat 7)).
Proof. apply reverse_builders_encode. by_decide. Defined.

Lemma reverse_forward_agree_witness :
  match build_value (replicate 8 0) 0 8 (vtype (VUns ASN_GAUGE 300)) (vlen (VUns ASN_GAUGE 300)) (vimage (VUns ASN_GAUGE 300)),
        rbuild_value true (vtype (VUns ASN_GAUGE 300)) (vimage (VUns ASN_GAUGE 300)) (vlen (VUns ASN_GAUGE 300))
          (mkrstate [] 0 0) with
  | Some (m', _, Ptr p), Some (s', true) =>
    exists bs, holds m' 0 bs /\ zlen bs = p - 0 /\ written s' = bs ++ written (mkrstate [] 0 0)
  | None, _ | _, None => False
  | _, _ => True
  end.
Proof.
  apply (reverse_forward_agree (VUns ASN_GAUGE 300) (replicate 8 0) 0 8 true (mkrstate [] 0 0));
    by_decide.
Defined.

Lemma asn_realloc_keeps_written_witness :
  match asn_realloc (mkrstate [1; 2; 3] 3 2) with
  | Some (s', true) =>
    rwf s' /\ offset s' = offset (mkrstate [1; 2; 3] 3 2) /\
    written s' = written (mkrstate [1; 2; 3] 3 2) /\
    pkt_len (mkrstate [1; 2; 3] 3 2) + 256 <= pkt_len s' <= pkt_len (mkrstate [1; 2; 3] 3 2) + 8192
  | Some (s', false) => s' = mkrstate [1; 2; 3] 3 2
  | None => False
  end.
Proof. apply asn_realloc_keeps_written. by_decide. Defined.

Lemma room_terminates_witness :
  rroom true (mkrstate [] 0 0) 1000 (room true 1000 (mkrstate [] 0 0)).
Proof. apply room_terminates; by_decide. Defined.

Lemma var_op_roundtrip_witness :
  match snmp_build_var_op (replicate 40 0) 0 [1; 3; 6; 1] (zlen [1; 3; 6; 1]) (vtype (VInt 300)) (vlen (VInt 300))
          (vimage (VInt 300)) 40 with
  | Some (m', dl', Ptr p) =>
    exists val, holds m' val (vber (VInt 300)) /\ dl' = 40 - (p - 0) /\
      snmp_parse_var_op m' 0 (mkvar (replicate 8 0) 8 0 0 NULL 40) =
      Some (parsed_binding [1; 3; 6; 1] (VInt 300) (mkvar (replicate 8 0) 8 0 0 NULL 40) val (p - 0), Ptr p)
  | Some (_, _, NULL) => 40 < 4 + zlen (binding [1; 3; 6; 1] (VInt 300))
  | None => False
  end.
Proof. apply (var_op_roundtrip [1; 3; 6; 1] (VInt 300)); by_decide. Defined.

Lemma rbuild_var_op_roundtrip_witness :
  let v0 := mkvar (replicate 8 0) 8 0 0 NULL 11 in
  let res := snmp_realloc_rbuild_var_op true [1; 3; 6; 1] (zlen [1; 3; 6; 1]) (vtype (VInt 300))
               (vimage (VInt 300)) (vlen (VInt 300)) (mkrstate [] 0 0) in
  match res with
  | Some (s', true) =>
    let d := pkt_len s' - offset s' in
    let n := zlen (tlv 0x30 (binding [1; 3; 6; 1] (VInt 300))) in
    listlength v0 = offset s' -> offset s' < 2 ^ 31 ->
    exists val, holds (pkt s') val (vber (VInt 300)) /\
      written s' = tlv 0x30 (binding [1; 3; 6; 1] (VInt 300)) ++ written (mkrstate [] 0 0) /\
      snmp_parse_var_op (pkt s') d v0 = Some (parsed_binding [1; 3; 6; 1] (VInt 300) v0 val n, Ptr (d + n))
  | Some (_, false) =>
    pkt_len (mkrstate [] 0 0) - offset (mkrstate [] 0 0) < zlen (tlv 0x30 (binding [1; 3; 6; 1] (VInt 300)))
  | None => False
  end /\ (fun '(s', ok) => (offset s', ok)) <$> res = Some (listlength v0, true).
Proof.
  intros v0 res. split; [apply (rbuild_var_op_roundtrip [1; 3; 6; 1] (VInt 300) true); by_decide|].
  vm_compute. reflexivity.
Defined.

Lemma asn_float_double_roundtrip_witness :
  (exists m', asn_build_float (replicate 20 0) 0 20 ASN_OPAQUE_FLOAT 0x3f800000 sizeof_float =
     Some (m', 20 - 9, Ptr (0 + 9)) /\
     asn_parse_float m' 0 (mkpout 20 0 0) sizeof_float =
       Some (mkpout (20 - 9) ASN_OPAQUE_FLOAT 0x3f800000, Ptr (0 + 5))) /\
  (exists m', asn_build_double (replicate 20 0) 0 20 ASN_OPAQUE_DOUBLE 0x3ff0000000000001 sizeof_double =
     Some (m', 20 - 13, Ptr (0 + 13)) /\
     asn_parse_double m' 0 (mkpout 20 0 0) sizeof_double =
       Some (mkpout (20 - 13) ASN_OPAQUE_DOUBLE 0x3ff0000000000001, Ptr (0 + 5))).
Proof. apply asn_float_double_roundtrip; by_decide. Defined.

Lemma parsers_memory_safe_witness :
  is_Some (asn_parse_objid (replicate 40 0xFF) 0 (mkpout 8 0 (replicate 4 0, 4))).
Proof.
  destruct (parsers_memory_safe (replicate 40 0xFF) 0 8 0 8 0 (Counter64 0 0) ([0], 1) (replicate 4 0, 4))
    as (_ & _ & _ & _ & H & _); [by_decide..|exact H].
Defined.

Lemma parsers_stay_inside_witness :
  well_framed (fun s => asn_parse_int [2; 1; 5; 0] 0 s 8) 0 (mkpout 4 0 0).
Proof.
  destruct (parsers_stay_inside [2; 1; 5; 0] 0 4 0 8 0 (Counter64 0 0) ([0], 1)) as (H & _); [by_decide..|exact H].
Defined.

Lemma asn_check_packet_stream_witness :
  asn_check_packet (take 3 (tlv 0x30 (replicate 200 1))) (zlen (take 3 (tlv 0x30 (replicate 200 1)))) 99 =
  Some (if zlen (take 3 (tlv 0x30 (replicate 200 1))) <? 1 + zlen (ber_length (zlen (replicate 200 1))) then 0
        else zlen (tlv 0x30 (replicate 200 1))).
Proof. apply (asn_check_packet_stream (replicate 200 1) 3 99). by_decide. Defined.
