(* ===== verification/Edges.v ===== *)
(** What the codec does at the edges of its input: packets cut short, identifiers
    that have no encoding of their own, integers beyond 32 bits. *)
From Stdlib Require Import ZArith Lia.
From S2P Require Import Prelude Oid Asn1Defs Ber Asn1Parse Asn1ParseProps Asn1Build Asn1RBuild.

#[local] Arguments asn_parse_length : simpl never.

(** * Packets cut short *)

Lemma peek_at pre x post : peek (pre ++ x :: post) (zlen pre) = Some x.
Proof.
  unfold peek, zlen. rewrite (proj2 (Z.leb_le 0 _)), Nat2Z.id by lia.
  rewrite lookup_app_r, Nat.sub_diag by lia. done.
Qed.

Lemma peek_at_next pre x post p :
  p = zlen pre + 1 -> peek (pre ++ x :: post) p = peek post 0.
Proof.
  intros ->. unfold peek, zlen. rewrite !(proj2 (Z.leb_le _ _)) by lia.
  rewrite lookup_app_r by lia. by replace (Z.to_nat (Z.of_nat (length pre) + 1) - length pre)%nat with 1%nat by lia.
Qed.

(** The loop over the length octets runs off a packet that ends inside them. *)
Lemma length_loop_short n m p acc :
  0 <= p <= Z.of_nat (length m) -> Z.of_nat (length m) < p + Z.of_nat n ->
  length_loop n m p acc = None.
Proof.
  revert p acc. induction n as [|n IH]; intros p acc Hp Hn; [lia|]. simpl.
  destruct (peek m p) as [b|] eqn:E; [|done]. apply peek_Some in E. apply IH; lia.
Qed.

Lemma asn_parse_length_short m p n acc :
  peek m p = Some (128 + Z.of_nat n) -> (0 < n <= 8)%nat -> Z.of_nat (length m) < p + 1 + Z.of_nat n ->
  asn_parse_length m (Ptr p) acc = None.
Proof.
  intros Hp Hn Hl. pose proof (peek_Some _ _ _ Hp).
  unfold asn_parse_length, ASN_LONG_LEN, sizeof_long. rewrite Hp. obind.
  rewrite land_0x80, land_lnot_0x80 by (unfold is_byte; lia).
  rewrite (proj2 (Z.leb_le _ _)) by lia. simpl.
  assert (E : (128 + Z.of_nat n) mod 128 = Z.of_nat n).
  { rewrite Z.add_comm. change (Z.of_nat n + 128) with (Z.of_nat n + 1 * 128).
    rewrite Z_mod_plus_full, Z.mod_small; lia. }
  rewrite E.
  rewrite (proj2 (Z.eqb_neq _ _)), (proj2 (Z.ltb_ge _ _)) by lia.
  rewrite length_loop_short by lia. done.
Qed.

(** The parsers read past a packet cut short: the tag and the length octets
    are fetched before they are compared with [*datalength].  It happens on every
    packet that ends with a tag, or inside the length octets that the first of
    them announces, whatever [*datalength] says. *)
Theorem parse_overread pre n bs dl t0 x0 str :
  (length bs < n <= 8)%nat ->
  asn_parse_int (pre ++ [ASN_INTEGER]) (zlen pre) (mkpout dl t0 x0) sizeof_long = None /\
  asn_parse_null (pre ++ [ASN_NULL]) (zlen pre) (mkpout dl t0 tt) = None /\
  asn_parse_string (pre ++ ASN_OCTET_STR :: (128 + Z.of_nat n) :: bs) (zlen pre) (mkpout dl t0 str) = None.
Proof.
  intros Hn. unfold asn_parse_int, asn_parse_null, asn_parse_string, parse_length_checked.
  rewrite !peek_at. obind. simpl. split_and!.
  - unfold asn_parse_length. by rewrite peek_at_next.
  - unfold asn_parse_length. by rewrite peek_at_next.
  - rewrite (asn_parse_length_short _ _ n); [done| |lia|].
    + rewrite peek_at_next by done. done.
    + rewrite length_app. simpl. unfold zlen. lia.
Qed.

Lemma parse_overread_witness :
  asn_parse_string ([0x30; 7] ++ ASN_OCTET_STR :: (128 + Z.of_nat 3) :: [1; 2]) (zlen [0x30; 7])
    (mkpout 100 0 ([], 0)) = None.
Proof. apply (parse_overread [0x30; 7] 3 [1; 2] 100 0 0 ([], 0)). by_decide. Defined.

(** [asn_parse_null] subtracts the bytes it has read from [*datalength]
    without comparing: when fewer than the two octets it reads are announced,
    it succeeds and leaves close to [2^64] bytes to parse.  It does not look at
    the tag either. *)
Theorem asn_parse_null_underflow m data t dl t0 :
  peek m data = Some t -> peek m (data + 1) = Some 0 -> 0 <= dl < 2 ->
  asn_parse_null m data (mkpout dl t0 tt) = Some (mkpout (2 ^ 64 - (2 - dl)) t tt, Ptr (data + 2)).
Proof.
  intros Ht Hl Hd. unfold asn_parse_null, asn_parse_length. rewrite Ht. obind.
  rewrite Hl. simpl. replace (data + 1 + 1 - data) with 2 by lia.
  assert (E : u64 (dl - 2) = 2 ^ 64 - (2 - dl)).
  { symmetry. apply (Z.mod_unique_pos _ _ (-1)); lia. }
  rewrite E. unfold set_datalength, set_type. cbn [datalength type out]. do 3 f_equal. lia.
Qed.

Lemma asn_parse_null_underflow_witness :
  asn_parse_null [0x44; 0x00] 0 (mkpout 1 0 tt) = Some (mkpout (2 ^ 64 - 1) 0x44 tt, Ptr 2).
Proof. apply (asn_parse_null_underflow [0x44; 0x00] 0 0x44 1 0); by_decide. Defined.

(** On a message whose length octet is [0x80] (the indefinite form)
    [asn_check_packet] returns a number computed from an uninitialised variable. *)
Theorem asn_check_packet_uninitialised rest junk :
  zlen rest + 2 < 2 ^ 31 ->
  asn_check_packet (0x30 :: 0x80 :: rest) (zlen rest + 2) junk = Some (s32 (u64 (junk + 2))).
Proof.
  intros Hr. pose proof (zlen_nonneg rest). unfold asn_check_packet.
  rewrite (proj2 (Z.ltb_ge _ _)) by lia.
  change (peek (0x30 :: ?l) 0) with (Some 0x30). change (peek (0x30 :: 0x80 :: rest) 1) with (Some 0x80).
  obind. change (negb (0x30 =? Z.lor ASN_SEQUENCE ASN_CONSTRUCTOR)) with false. cbv iota.
  change (negb (Z.land 0x80 0x80 =? 0)) with true. cbv iota.
  change (Z.land 0x80 (Z.lnot 0x80)) with 0.
  rewrite swrap_small, (proj2 (Z.ltb_ge _ _)) by lia.
  unfold asn_parse_length. change (peek (0x30 :: 0x80 :: rest) 1) with (Some 0x80). simpl.
  by rewrite Z.add_0_r.
Qed.

Lemma asn_check_packet_uninitialised_witness :
  asn_check_packet [0x30; 0x80; 2; 1] (zlen [2; 1] + 2) 7 = Some (s32 (u64 (7 + 2))).
Proof. apply (asn_check_packet_uninitialised [2; 1] 7). by_decide. Defined.

(** * Identifiers *)

(** The builders read the first two components only to combine them. *)
Definition same_tail (o o' : list Z) : Prop := forall p, 2 <= p -> peek o p = peek o' p.

Lemma same_tail_cons x y x' y' rest : same_tail (x :: y :: rest) (x' :: y' :: rest).
Proof.
  intros p Hp. unfold peek. rewrite (proj2 (Z.leb_le _ _)) by lia.
  by replace (Z.to_nat p) with (S (S (Z.to_nat p - 2))) by lia.
Qed.

Lemma size_loop_tail o o' fuel op i n v sz len :
  same_tail o o' -> 2 <= op -> size_loop fuel o op i n v sz len = size_loop fuel o' op i n v sz len.
Proof.
  intros Ht. revert op i v sz len. induction fuel as [|k IH]; intros op i v sz len Hop; [done|].
  simpl. destruct (poke sz i _); [|done]. simpl. case_match; [done|].
  rewrite (Ht op Hop). destruct (peek o' op); [|done]. simpl. apply IH. lia.
Qed.

Lemma oid_store_loop_tail o o' n op i v sz m d :
  same_tail o o' -> 2 <= op -> oid_store_loop n o op i v sz m d = oid_store_loop n o' op i v sz m d.
Proof.
  intros Ht. revert op i v m d. induction n as [|k IH]; intros op i v m d Hop; [done|].
  simpl. rewrite (Ht op Hop).
  destruct (negb (i =? 1)); [destruct (peek o' op); [|done]|]; simpl;
    (destruct (peek sz i); [|done]); simpl; (destruct (poke_n _ _ _); [|done]); simpl; apply IH; lia.
Qed.

Lemma rsubids_tail {A : Allocator} o o' n r s :
  same_tail o o' -> rsubids n r o s = rsubids n r o' s.
Proof.
  intros Ht. revert s. induction n as [|k IH]; intros s; [done|].
  cbn [rsubids]. rewrite (Ht (Z.of_nat (S k) + 2 - 1)) by lia.
  destruct (peek o' _); [|done]. obind. unfold rseq.
  destruct (rsubid r _ s) as [[s' [|]]|]; [apply IH|done..].
Qed.

(** Two identifiers whose first two components combine to the same number have
    the same encoding. *)
Lemma asn_build_objid_combine m d dl t x y x' y' rest n :
  2 <= n -> x <= 2 -> x' <= 2 -> (40 <? y) && (x <? 2) = false -> (40 <? y') && (x' <? 2) = false ->
  u64 (u64 (x * 40) + y) = u64 (u64 (x' * 40) + y') ->
  asn_build_objid m d dl t (x :: y :: rest) n = asn_build_objid m d dl t (x' :: y' :: rest) n.
Proof.
  intros Hn Hx Hx' Hy Hy' E. pose proof (same_tail_cons x y x' y' rest) as Ht.
  unfold asn_build_objid, objid_first. rewrite (proj2 (Z.eqb_neq n 0)), (proj2 (Z.eqb_neq n 1)) by lia.
  change (peek (?a :: ?b :: rest) 0) with (Some a). change (peek (?a :: ?b :: rest) 1) with (Some b).
  obind. rewrite (proj2 (Z.ltb_ge 2 x)), (proj2 (Z.ltb_ge 2 x')), Hy, Hy', E by lia.
  obind. case_match; [done|]. rewrite (size_loop_tail _ _ _ _ _ _ _ _ _ Ht) by lia.
  destruct (size_loop _ _ _ _ _ _ _ _) as [[sz len]|]; [|done]. obind. unfold with_header.
  destruct (asn_build_header m d dl t len) as [[[m' dl'] [|p]]|]; [done| |done]. obind.
  case_match; [done|]. by rewrite (oid_store_loop_tail _ _ _ _ _ _ _ _ _ Ht) by lia.
Qed.

Lemma rbuild_objid_combine {A : Allocator} r t x y x' y' rest n s :
  2 <= n -> x <= 2 -> x' <= 2 -> (40 <? y) && (x <? 2) = false -> (40 <? y') && (x' <? 2) = false ->
  u64 (u64 (x * 40) + y) = u64 (u64 (x' * 40) + y') ->
  asn_realloc_rbuild_objid r t (x :: y :: rest) n s = asn_realloc_rbuild_objid r t (x' :: y' :: rest) n s.
Proof.
  intros Hn Hx Hx' Hy Hy' E. pose proof (same_tail_cons x y x' y' rest) as Ht.
  unfold asn_realloc_rbuild_objid. rewrite (proj2 (Z.eqb_neq n 0)), (proj2 (Z.eqb_neq n 1)) by lia.
  change (peek (?a :: ?b :: rest) 0) with (Some a). change (peek (?a :: ?b :: rest) 1) with (Some b).
  obind. rewrite (proj2 (Z.ltb_ge 2 x)), (proj2 (Z.ltb_ge 2 x')) by lia.
  rewrite (rsubids_tail _ _ _ _ _ Ht). f_equal. unfold rseq.
  destruct (rsubids _ _ _ _) as [[s' [|]]|]; [|done..]. cbn. by rewrite Hy, Hy', E.
Qed.

(** Both builders accept a second component of 40 under 0 and 1, which has
    no encoding of its own: 0.40.rest is sent as 1.0.rest, and 1.40.rest as
    2.0.rest. *)
Theorem objid_40_collides {A : Allocator} x rest n m d dl t r s :
  x = 0 \/ x = 1 -> 2 <= n ->
  asn_build_objid m d dl t (x :: 40 :: rest) n = asn_build_objid m d dl t (x + 1 :: 0 :: rest) n /\
  asn_realloc_rbuild_objid r t (x :: 40 :: rest) n s = asn_realloc_rbuild_objid r t (x + 1 :: 0 :: rest) n s.
Proof.
  intros Hx Hn.
  split; [apply asn_build_objid_combine|apply rbuild_objid_combine]; destruct Hx as [-> | ->]; done.
Qed.

(** An allocator that refuses every request. *)
Program Definition no_heap : Allocator := {| realloc _ _ := None |}.
Next Obligation. done. Qed.
Next Obligation. done. Qed.
Next Obligation. done. Qed.

Lemma objid_40_collides_witness :
  asn_build_objid (replicate 6 0) 0 6 ASN_OBJECT_ID [0; 40; 7] 3 =
  asn_build_objid (replicate 6 0) 0 6 ASN_OBJECT_ID [0 + 1; 0; 7] 3.
Proof.
  apply (objid_40_collides (A := no_heap) 0 [7] 3 (replicate 6 0) 0 6 ASN_OBJECT_ID false (mkrstate [] 0 0));
    [by left|by_decide].
Defined.

Lemma rsubid_small {A : Allocator} r x s : 0 <= x < 128 -> rsubid r x s = rput r (u8 x) s.
Proof.
  intros Hx. unfold rsubid. rewrite wrap_small, land_0x7f, Z.mod_small by lia.
  replace (Z.shiftr x 7) with 0 by (rewrite Z.shiftr_div_pow2, Z.div_small; lia).
  unfold rseq. by destruct (rput r x s) as [[s' [|]]|].
Qed.

(** The two families of builders disagree on an identifier of one component
    [x]: the forward one sends it as x.0, the reverse one as 0.x; and the
    identifier without components is 0.0 (one octet) for the forward builder and
    two octets for the reverse one. *)
Theorem objid_short_disagree {A : Allocator} x m d dl t r s :
  0 <= x <= 2 ->
  asn_build_objid m d dl t [x] 1 = asn_build_objid m d dl t [x; 0] 2 /\
  asn_realloc_rbuild_objid r t [x] 1 s = asn_realloc_rbuild_objid r t [0; x] 2 s /\
  asn_build_objid m d dl t [] 0 = asn_build_objid m d dl t [0; 0] 2 /\
  asn_realloc_rbuild_objid false t [] 0 (mkrstate [0; 0; 0; 0] 4 0) =
    Some (mkrstate [t; 2; 0; 0] 4 4, true).
Proof.
  intros Hx. pose proof (rsubid_small r x s ltac:(lia)) as Hr.
  assert (x = 0 \/ x = 1 \/ x = 2) as [-> | [-> | ->]] by lia;
    (split_and!; [reflexivity| |reflexivity|reflexivity]);
    unfold asn_realloc_rbuild_objid; f_equal; symmetry; exact Hr.
Qed.

Lemma objid_short_disagree_witness :
  asn_build_objid (replicate 4 0) 0 4 ASN_OBJECT_ID [1] 1 = asn_build_objid (replicate 4 0) 0 4 ASN_OBJECT_ID [1; 0] 2 /\
  asn_build_objid (replicate 4 0) 0 4 ASN_OBJECT_ID [1; 0] 2 <> asn_build_objid (replicate 4 0) 0 4 ASN_OBJECT_ID [0; 1] 2.
Proof.
  split; [|vm_compute; congruence].
  apply (objid_short_disagree (A := no_heap) 1 (replicate 4 0) 0 4 ASN_OBJECT_ID false (mkrstate [] 0 0)). by_decide.
Defined.

(** * Integers beyond 32 bits *)

(** An integer beyond 32 bits is received as neither its low 32 bits nor a
    saturated value: above [2^31 - 1] it is taken modulo [2^32] without sign,
    below [-2^31] the truncation on both sides gives the negated residue, or
    the residue of the negation when that does not fit. *)
Theorem int_truncation_twice v :
  CHECK_OVERFLOW_S (CHECK_OVERFLOW_S v) =
  if 2 ^ 31 <=? v then v mod 2 ^ 32
  else if - 2 ^ 31 <=? v then v
  else if v mod 2 ^ 32 <=? 2 ^ 31 then - (v mod 2 ^ 32)
  else v mod 2 ^ 32 - 2 ^ 32.
Proof.
  pose proof (Z.mod_pos_bound v (2 ^ 32) ltac:(lia)) as Hv.
  assert (Hs : forall x, CHECK_OVERFLOW_S x =
    if 2 ^ 31 <=? x then x mod 2 ^ 32 else if - 2 ^ 31 <=? x then x else - (x mod 2 ^ 32)).
  { intros x. unfold CHECK_OVERFLOW_S, INT32_MIN, INT32_MAX.
    change 0xffffffff with (2 ^ 32 - 1). rewrite !land_ones_mod by lia.
    destruct (Z.ltb_spec 2147483647 x), (Z.leb_spec (2 ^ 31) x); try lia.
    destruct (Z.ltb_spec x (0 - 2147483647 - 1)), (Z.leb_spec (- 2 ^ 31) x); lia. }
  rewrite (Hs v). destruct (Z.leb_spec (2 ^ 31) v).
  { rewrite Hs, Z.mod_mod by lia. destruct (Z.leb_spec (2 ^ 31) (v mod 2 ^ 32)); [done|].
    by rewrite (proj2 (Z.leb_le _ _)) by lia. }
  destruct (Z.leb_spec (- 2 ^ 31) v); [apply CHECK_OVERFLOW_S_id; lia|].
  rewrite Hs, (proj2 (Z.leb_gt (2 ^ 31) _)) by lia.
  destruct (Z.leb_spec (v mod 2 ^ 32) (2 ^ 31)).
  - by rewrite (proj2 (Z.leb_le _ _)) by lia.
  - rewrite (proj2 (Z.leb_gt _ _)) by lia.
    rewrite (Z.mod_opp_l_nz (v mod 2 ^ 32)); rewrite ?Z.mod_mod by lia; lia.
Qed.
