(* ===== verification/Pdu.v ===== *)
(** The parser of a PDU: [snmp_pdu_parse] ([snmplib/snmp_api.c]) on top of
    [SnmpVar], with [snmp_set_var_objid] ([snmplib/snmp_client.c]) and the
    structures [netsnmp_variable_list] and [netsnmp_pdu] ([types.h]).

    A pointer of a structure is the object it points to; a null one is the empty
    object.  A linked list of variables is a list.  [malloc] may refuse; the
    object it gives has arbitrary contents, which is why a fresh
    [netsnmp_variable_list] is read field by field from the bytes of the object.
    Log messages are left out, the statistics counters are kept. *)
From Stdlib Require Import ZArith Lia.
From S2P Require Import Prelude Oid Asn1Defs SnmpDefs Asn1Parse Asn1Build Asn1RBuild SnmpVar.

Definition UCD_MSG_FLAG_RESPONSE_PDU : Z := 0x100.
Definition MAX_PACKET_LENGTH : Z := 0x7fffffff.

(** * The structures *)

Record variable : Type := mkvariable {
  vp_name : list Z;         (* oid * *)
  vp_name_length : Z;       (* size_t *)
  vp_type : Z;              (* u_char *)
  vp_val : list Z;          (* netsnmp_vardata, as the bytes it points to *)
  vp_val_len : Z            (* size_t *)
}.

Record pdu : Type := mkpdu {
  version : Z;   (* long *)
  command : Z;   (* int *)
  reqid : Z;   (* long *)
  errstat : Z;   (* long; [non_repeaters] *)
  errindex : Z;   (* long; [max_repetitions] *)
  time : Z;   (* u_long *)
  flags : Z;   (* u_long *)
  securityModel : Z;   (* int *)
  securityLevel : Z;   (* int *)
  transid : Z;   (* long *)
  msgid : Z;   (* long *)
  variables : list variable;   (* the list from variables on *)
  community : list Z;   (* u_char *; [] for NULL *)
  community_len : Z;   (* size_t *)
  enterprise : list Z;   (* oid *; [] for NULL *)
  enterprise_length : Z;   (* size_t *)
  trap_type : Z;   (* long *)
  specific_type : Z;   (* long *)
  agent_addr : list Z   (* u_char[4] *)
}.

Definition set_version (x : Z) (p : pdu) : pdu :=
  mkpdu x (command p) (reqid p) (errstat p) (errindex p) (time p) (flags p) (securityModel p) (securityLevel p) (transid p) (msgid p)
        (variables p) (community p) (community_len p) (enterprise p) (enterprise_length p) (trap_type p) (specific_type p) (agent_addr p).
Definition set_command (x : Z) (p : pdu) : pdu :=
  mkpdu (version p) x (reqid p) (errstat p) (errindex p) (time p) (flags p) (securityModel p) (securityLevel p) (transid p) (msgid p)
        (variables p) (community p) (community_len p) (enterprise p) (enterprise_length p) (trap_type p) (specific_type p) (agent_addr p).
Definition set_reqid (x : Z) (p : pdu) : pdu :=
  mkpdu (version p) (command p) x (errstat p) (errindex p) (time p) (flags p) (securityModel p) (securityLevel p) (transid p) (msgid p)
        (variables p) (community p) (community_len p) (enterprise p) (enterprise_length p) (trap_type p) (specific_type p) (agent_addr p).
Definition set_errstat (x : Z) (p : pdu) : pdu :=
  mkpdu (version p) (command p) (reqid p) x (errindex p) (time p) (flags p) (securityModel p) (securityLevel p) (transid p) (msgid p)
        (variables p) (community p) (community_len p) (enterprise p) (enterprise_length p) (trap_type p) (specific_type p) (agent_addr p).
Definition set_errindex (x : Z) (p : pdu) : pdu :=
  mkpdu (version p) (command p) (reqid p) (errstat p) x (time p) (flags p) (securityModel p) (securityLevel p) (transid p) (msgid p)
        (variables p) (community p) (community_len p) (enterprise p) (enterprise_length p) (trap_type p) (specific_type p) (agent_addr p).
Definition set_time (x : Z) (p : pdu) : pdu :=
  mkpdu (version p) (command p) (reqid p) (errstat p) (errindex p) x (flags p) (securityModel p) (securityLevel p) (transid p) (msgid p)
        (variables p) (community p) (community_len p) (enterprise p) (enterprise_length p) (trap_type p) (specific_type p) (agent_addr p).
Definition set_flags (x : Z) (p : pdu) : pdu :=
  mkpdu (version p) (command p) (reqid p) (errstat p) (errindex p) (time p) x (securityModel p) (securityLevel p) (transid p) (msgid p)
        (variables p) (community p) (community_len p) (enterprise p) (enterprise_length p) (trap_type p) (specific_type p) (agent_addr p).
Definition set_securityModel (x : Z) (p : pdu) : pdu :=
  mkpdu (version p) (command p) (reqid p) (errstat p) (errindex p) (time p) (flags p) x (securityLevel p) (transid p) (msgid p)
        (variables p) (community p) (community_len p) (enterprise p) (enterprise_length p) (trap_type p) (specific_type p) (agent_addr p).
Definition set_securityLevel (x : Z) (p : pdu) : pdu :=
  mkpdu (version p) (command p) (reqid p) (errstat p) (errindex p) (time p) (flags p) (securityModel p) x (transid p) (msgid p)
        (variables p) (community p) (community_len p) (enterprise p) (enterprise_length p) (trap_type p) (specific_type p) (agent_addr p).
Definition set_transid (x : Z) (p : pdu) : pdu :=
  mkpdu (version p) (command p) (reqid p) (errstat p) (errindex p) (time p) (flags p) (securityModel p) (securityLevel p) x (msgid p)
        (variables p) (community p) (community_len p) (enterprise p) (enterprise_length p) (trap_type p) (specific_type p) (agent_addr p).
Definition set_msgid (x : Z) (p : pdu) : pdu :=
  mkpdu (version p) (command p) (reqid p) (errstat p) (errindex p) (time p) (flags p) (securityModel p) (securityLevel p) (transid p) x
        (variables p) (community p) (community_len p) (enterprise p) (enterprise_length p) (trap_type p) (specific_type p) (agent_addr p).
Definition set_variables (x : list variable) (p : pdu) : pdu :=
  mkpdu (version p) (command p) (reqid p) (errstat p) (errindex p) (time p) (flags p) (securityModel p) (securityLevel p) (transid p) (msgid p)
        x (community p) (community_len p) (enterprise p) (enterprise_length p) (trap_type p) (specific_type p) (agent_addr p).
Definition set_community (x : list Z) (p : pdu) : pdu :=
  mkpdu (version p) (command p) (reqid p) (errstat p) (errindex p) (time p) (flags p) (securityModel p) (securityLevel p) (transid p) (msgid p)
        (variables p)
        x (community_len p) (enterprise p) (enterprise_length p) (trap_type p) (specific_type p) (agent_addr p).
Definition set_community_len (x : Z) (p : pdu) : pdu :=
  mkpdu (version p) (command p) (reqid p) (errstat p) (errindex p) (time p) (flags p) (securityModel p) (securityLevel p) (transid p) (msgid p)
        (variables p) (community p) x (enterprise p) (enterprise_length p) (trap_type p) (specific_type p) (agent_addr p).
Definition set_enterprise (x : list Z) (p : pdu) : pdu :=
  mkpdu (version p) (command p) (reqid p) (errstat p) (errindex p) (time p) (flags p) (securityModel p) (securityLevel p) (transid p) (msgid p)
        (variables p) (community p) (community_len p) x (enterprise_length p) (trap_type p) (specific_type p) (agent_addr p).
Definition set_enterprise_length (x : Z) (p : pdu) : pdu :=
  mkpdu (version p) (command p) (reqid p) (errstat p) (errindex p) (time p) (flags p) (securityModel p) (securityLevel p) (transid p) (msgid p)
        (variables p) (community p) (community_len p) (enterprise p) x (trap_type p) (specific_type p) (agent_addr p).
Definition set_trap_type (x : Z) (p : pdu) : pdu :=
  mkpdu (version p) (command p) (reqid p) (errstat p) (errindex p) (time p) (flags p) (securityModel p) (securityLevel p) (transid p) (msgid p)
        (variables p) (community p) (community_len p) (enterprise p) (enterprise_length p) x (specific_type p) (agent_addr p).
Definition set_specific_type (x : Z) (p : pdu) : pdu :=
  mkpdu (version p) (command p) (reqid p) (errstat p) (errindex p) (time p) (flags p) (securityModel p) (securityLevel p) (transid p) (msgid p)
        (variables p) (community p) (community_len p) (enterprise p) (enterprise_length p) (trap_type p) x (agent_addr p).
Definition set_agent_addr (x : list Z) (p : pdu) : pdu :=
  mkpdu (version p) (command p) (reqid p) (errstat p) (errindex p) (time p) (flags p) (securityModel p) (securityLevel p) (transid p) (msgid p)
        (variables p) (community p) (community_len p) (enterprise p) (enterprise_length p) (trap_type p) (specific_type p) x.

(** ** Statistics *)

Definition STAT_SNMPINBADVERSIONS : Z := 11.
Definition STAT_SNMPINASNPARSEERRS : Z := 14.

(** [statistics] is the array of [NETSNMP_STAT_MAX_STATS] counters ([u_int]). *)
Definition snmp_increment_statistic (which : Z) (statistics : list Z) : list Z :=
  if (0 <=? which) && (which <? Z.of_nat (length statistics))
  then alter (fun x => u32 (x + 1)) (Z.to_nat which) statistics
  else statistics.

(** ** Variables *)

Section parse.
Context {A : Allocator}.

Definition malloc (n : Z) : option (list Z) := realloc [] n.

(** The layout of [netsnmp_variable_list]. *)
Definition sizeof_variable_list : Z := 1136.
Definition offset_type : Z := 24.
Definition offset_val_len : Z := 40.
Definition offset_name_loc : Z := 48.
Definition offset_buf : Z := 1072.
Definition sizeof_name_loc : Z := 1024.
Definition sizeof_buf : Z := 40.

(** What the loop of [snmp_pdu_parse] makes of the object [malloc] gave it:
    the fields it sets, those it leaves, and the two arrays [name_loc] and
    [buf] inside. *)
Definition fresh_variable (vb : list Z) : option (variable * list Z * list Z) :=
  t ← peek vb offset_type;
  len ← read_u64 vb offset_val_len;
  name_loc ← peek_n vb offset_name_loc sizeof_name_loc;
  buf ← peek_n vb offset_buf sizeof_buf;
  Some (mkvariable [] MAX_OID_LEN t [] len, oid_array name_loc, buf).

(** [None] inside is the C result 1.  [vp->name] is null on entry here, and
    [objid] is not. *)
Definition snmp_set_var_objid (vp : variable) (name_loc objid : list Z) (name_length : Z)
  : option (option variable) :=
  let len := u64 (sizeof_oid * name_length) in
  name ← (if len <=? sizeof_name_loc then Some (Some name_loc)
          else match malloc len with
               | None => Some None
               | Some b => Some (Some (oid_array b))
               end);
  match name with
  | None => Some None
  | Some name =>
    src ← peek_n objid 0 name_length;
    name ← poke_n name 0 src;
    Some (Some (mkvariable name name_length (vp_type vp) (vp_val vp) (vp_val_len vp)))
  end.

(** ** Values *)

(** How the [switch] over [vp->type] is left: [break], [return -1], or the
    default case ([badtype = -1; break]). *)
Inductive outcome : Set := Parsed | Failed | BadType.

#[global] Instance outcome_eq_dec : EqDecision outcome.
Proof. solve_decision. Defined.

Definition set_value (t : Z) (val : list Z) (len : Z) (vp : variable) : variable :=
  mkvariable (vp_name vp) (vp_name_length vp) t val len.

Definition null_fails (p : ptr) : outcome := match p with NULL => Failed | Ptr _ => Parsed end.

(** [p = parse(...); if (!p) return -1; break;] for a value of [len] bytes that
    is stored in [vp->buf]. *)
Definition in_buf {T} (parse : option (pout T * ptr)) (image : T -> list Z) (len : Z)
    (vp : variable) (objid buf : list Z) : option (variable * list Z * outcome) :=
  '(s, p) ← parse;
  val ← poke_n buf 0 (image (out s));
  Some (set_value (type s) val len vp, objid, null_fails p).

(** The same for a string of [vp->val_len] bytes stored in [val]. *)
Definition in_string (parse : option (pout (list Z * Z) * ptr)) (vp : variable) (objid : list Z)
  : option (variable * list Z * outcome) :=
  '(s, p) ← parse;
  Some (set_value (type s) (out s).1 (out s).2 vp, objid, null_fails p).

Definition counter64_image (c : counter64) : list Z := le_bytes 8 (high c) ++ le_bytes 8 (low c).

(** The [switch]; [var_val] is where the value starts, [objid] the local array
    of [snmp_pdu_parse], [buf] that of the variable. *)
Definition parse_value (m : list Z) (var_val : Z) (vp : variable) (objid buf : list Z)
  : option (variable * list Z * outcome) :=
  let len := MAX_PACKET_LENGTH in
  let t := vp_type vp in
  if t =? ASN_INTEGER then
    x ← read_long buf;
    in_buf (asn_parse_int m var_val (mkpout len t x) sizeof_long) (le_bytes 8) sizeof_long vp objid buf
  else if is_one_of t [ASN_COUNTER; ASN_GAUGE; ASN_TIMETICKS; ASN_UINTEGER] then
    x ← read_u64 buf 0;
    in_buf (asn_parse_unsigned_int m var_val (mkpout len t x) sizeof_long) (le_bytes 8) sizeof_long
           vp objid buf
  else if is_one_of t [ASN_OPAQUE_COUNTER64; ASN_OPAQUE_U64; ASN_COUNTER64] then
    c ← read_counter64 buf;
    in_buf (asn_parse_unsigned_int64 m var_val (mkpout len t c) sizeof_counter64) counter64_image
           sizeof_counter64 vp objid buf
  else if t =? ASN_OPAQUE_FLOAT then
    x ← read_float buf;
    in_buf (asn_parse_float m var_val (mkpout len t x) sizeof_float) (le_bytes 4) sizeof_float vp objid buf
  else if t =? ASN_OPAQUE_DOUBLE then
    x ← read_double buf;
    in_buf (asn_parse_double m var_val (mkpout len t x) sizeof_double) (le_bytes 8) sizeof_double vp objid buf
  else if t =? ASN_OPAQUE_I64 then
    c ← read_counter64 buf;
    in_buf (asn_parse_signed_int64 m var_val (mkpout len t c) sizeof_counter64) counter64_image
           sizeof_counter64 vp objid buf
  else if (t =? ASN_IPADDRESS) && negb (vp_val_len vp =? 4) then Some (vp, objid, Failed)
  else if is_one_of t [ASN_IPADDRESS; ASN_OCTET_STR; ASN_OPAQUE; ASN_NSAP] then
    match (if vp_val_len vp <? sizeof_buf then Some buf else malloc (vp_val_len vp)) with
    | None => Some (vp, objid, Failed)
    | Some str =>
      in_string (asn_parse_string m var_val (mkpout len t (str, vp_val_len vp))) vp objid
    end
  else if t =? ASN_OBJECT_ID then
    '(s, p) ← asn_parse_objid m var_val (mkpout len t (objid, MAX_OID_LEN));
    let '(objid, n) := out s in
    match p with
    | NULL => Some (set_value (type s) [] n vp, objid, Failed)
    | Ptr _ =>
      let n := u64 (n * sizeof_oid) in
      match malloc n with
      | None => Some (set_value (type s) [] n vp, objid, Failed)
      | Some b =>
        src ← peek_n (oid_image objid) 0 n;
        val ← poke_n b 0 src;
        Some (set_value (type s) val n vp, objid, Parsed)
      end
    end
  else if is_one_of t [SNMP_NOSUCHOBJECT; SNMP_NOSUCHINSTANCE; SNMP_ENDOFMIBVIEW; ASN_NULL] then
    Some (vp, objid, Parsed)
  else if t =? ASN_BIT_STR then
    match malloc (vp_val_len vp) with
    | None => Some (vp, objid, Failed)
    | Some str =>
      in_string (asn_parse_bitstring m var_val (mkpout len t (str, vp_val_len vp))) vp objid
    end
  else Some (vp, objid, BadType).

(** ** The PDU *)

(** The state of [snmp_pdu_parse]: what its arguments point to, its array
    [objid] and the statistics of the library. *)
Record pstate : Type := mkpstate {
  ps_pdu : pdu;
  ps_objid : list Z;
  ps_length : Z;
  ps_statistics : list Z
}.

Definition upd_pdu (f : pdu -> pdu) (st : pstate) : pstate :=
  mkpstate (f (ps_pdu st)) (ps_objid st) (ps_length st) (ps_statistics st).
Definition upd_objid (o : list Z) (st : pstate) : pstate :=
  mkpstate (ps_pdu st) o (ps_length st) (ps_statistics st).
Definition upd_length (n : Z) (st : pstate) : pstate :=
  mkpstate (ps_pdu st) (ps_objid st) n (ps_statistics st).
Definition upd_statistics (s : list Z) (st : pstate) : pstate :=
  mkpstate (ps_pdu st) (ps_objid st) (ps_length st) s.

(** A stretch of [snmp_pdu_parse]: it returns a code, or goes on at [data]. *)
Definition stretch : Type := option (flow (pstate * Z) (pstate * Z)).

(** [k] where the previous stretch has not returned. *)
Definition then_at (e : stretch) (k : pstate -> Z -> stretch) : stretch :=
  r ← e; match r with Return x => Some (Return x) | Next (st, data) => k st data end.

(** [data = parse(data, length, &type, ...); if (data == NULL) return -1;] where
    [store] puts what was parsed into its place. *)
Definition field {T} (parse : pout T -> option (pout T * ptr)) (x0 : T) (store : T -> pstate -> pstate)
    (st : pstate) : stretch :=
  '(s, data) ← parse (mkpout (ps_length st) 0 x0);
  let st := upd_length (datalength s) (store (out s) st) in
  match data with
  | NULL => Some (Return (st, -1))
  | Ptr data => Some (Next (st, data))
  end.

Definition int_field (m : list Z) (get : pdu -> Z) (set : Z -> pdu -> pdu) (st : pstate) (data : Z) : stretch :=
  field (fun s => asn_parse_int m data s sizeof_long) (get (ps_pdu st)) (fun x => upd_pdu (set x)) st.

(** [pdu->enterprise = malloc(...); if (pdu->enterprise == NULL) return -1;
     memmove(...)] *)
Definition copy_enterprise (st : pstate) (data : Z) : stretch :=
  let n := enterprise_length (ps_pdu st) in
  match malloc (u64 (n * sizeof_oid)) with
  | None => Some (Return (upd_pdu (set_enterprise []) st, -1))
  | Some _ =>
    e ← peek_n (ps_objid st) 0 n;
    Some (Next (upd_pdu (set_enterprise e) st, data))
  end.

(** [case SNMP_MSG_TRAP] *)
Definition trap_fields (m : list Z) (st : pstate) (data : Z) : stretch :=
  then_at (field (asn_parse_objid m data) (ps_objid st, MAX_OID_LEN)
             (fun o st => upd_objid o.1 (upd_pdu (set_enterprise_length o.2) st)) st) (fun st data =>
  then_at (copy_enterprise st data) (fun st data =>
  then_at (field (asn_parse_string m data) (agent_addr (ps_pdu st), 4)
             (fun o => upd_pdu (set_agent_addr o.1)) st) (fun st data =>
  then_at (int_field m trap_type set_trap_type st data) (fun st data =>
  then_at (int_field m specific_type set_specific_type st data) (fun st data =>
  field (fun s => asn_parse_unsigned_int m data s sizeof_long) (time (ps_pdu st))
        (fun x => upd_pdu (set_time x)) st))))).

(** The three fields of the other types. *)
Definition request_fields (m : list Z) (st : pstate) (data : Z) : stretch :=
  then_at (int_field m reqid set_reqid st data) (fun st data =>
  then_at (int_field m errstat set_errstat st data) (fun st data =>
  int_field m errindex set_errindex st data)).

(** [switch (pdu->command)] *)
Definition command_fields (m : list Z) (st : pstate) (data : Z) : stretch :=
  let c := command (ps_pdu st) in
  if c =? SNMP_MSG_TRAP then trap_fields m st data
  else if is_one_of c [SNMP_MSG_RESPONSE; SNMP_MSG_REPORT] then
    request_fields m (upd_pdu (fun p => set_flags (Z.lor (flags p) UCD_MSG_FLAG_RESPONSE_PDU) p) st) data
  else if is_one_of c [SNMP_MSG_GET; SNMP_MSG_GETNEXT; SNMP_MSG_GETBULK; SNMP_MSG_SET; SNMP_MSG_TRAP2;
                       SNMP_MSG_INFORM] then
    request_fields m st data
  else Some (Return (upd_statistics
                       (snmp_increment_statistic STAT_SNMPINASNPARSEERRS (ps_statistics st)) st, -1)).

(** [while ((int) *length > 0)]; [vars] are the variables linked so far.  The
    result is the return code or [badtype].  Every turn takes at least one byte
    off [*length]. *)
Fixpoint varbind_loop (fuel : nat) (m : list Z) (vars : list variable) (badtype : Z) (st : pstate) (data : Z)
  : option (pstate * Z) :=
  if negb (0 <? s32 (ps_length st)) then Some (st, badtype)
  else match fuel with
  | O => None
  | S fuel =>
    match malloc sizeof_variable_list with
    | None => Some (st, -1)
    | Some vb =>
      '(vp, name_loc, buf) ← fresh_variable vb;
      let link vp := upd_pdu (set_variables (vars ++ [vp])) in
      '(v, d) ← snmp_parse_var_op m data
                  (mkvar (ps_objid st) MAX_OID_LEN (vp_type vp) (vp_val_len vp) NULL (ps_length st));
      let st := upd_objid (var_name v) (upd_length (listlength v) st) in
      let vp := mkvariable [] (var_name_len v) (var_val_type v) [] (var_val_len v) in
      match d with
      | NULL => Some (link vp st, -1)
      | Ptr data =>
        named ← snmp_set_var_objid vp name_loc (ps_objid st) (vp_name_length vp);
        match named, var_val v with
        | Some vp, Ptr val =>
          '(vp, objid, o) ← parse_value m val vp (ps_objid st) buf;
          let st := link vp (upd_objid objid st) in
          match o with
          | Failed => Some (st, -1)
          | Parsed => varbind_loop fuel m (vars ++ [vp]) badtype st data
          | BadType => varbind_loop fuel m (vars ++ [vp]) (-1) st data
          end
        | _, _ => Some (link vp st, -1)
        end
      end
    end
  end.

(** The result is the final state and the return code. *)
Definition snmp_pdu_parse (m : list Z) (st : pstate) (data : Z) : option (pstate * Z) :=
  '(s, d) ← asn_parse_header m (Ptr data) (mkpout (ps_length st) 0 tt);
  let st := upd_length (datalength s) st in
  match d with
  | NULL => Some (st, -1)
  | Ptr data =>
    let st := upd_pdu (fun p => set_flags (Z.land (flags p) (Z.lnot UCD_MSG_FLAG_RESPONSE_PDU))
                                          (set_command (type s) p)) st in
    r ← then_at (command_fields m st data) (fun st data =>
          field (fun s => asn_parse_sequence m (Ptr data) s (Z.lor ASN_SEQUENCE ASN_CONSTRUCTOR)) tt
                (fun _ st => st) st);
    match r with
    | Return x => Some x
    | Next (st, data) => varbind_loop (Z.to_nat (ps_length st)) m [] 0 st data
    end
  end.

End parse.

(** The builders of a PDU, [snmp_pdu_build] and [snmp_pdu_realloc_rbuild]
    ([snmplib/snmp_api.c]), on top of [SnmpVar].

    The reverse builder needs the variables from the last to the first, and has
    a list linked forwards: it keeps the last [VPCACHE_SIZE] variables it has
    seen in a ring, builds those, and starts over for the rest.  The variables
    are told apart by their addresses, as the code does ([vp != tmpvp]); here
    the address of a variable is its place in the list. *)

(** * Forwards *)

(** [cp = e; if (cp == NULL) return NULL; k] *)
Definition bseq (e : option bres) (k : list Z -> Z -> Z -> option bres) : option bres :=
  '(m, dl, p) ← e;
  match p with
  | NULL => Some (m, dl, NULL)
  | Ptr cp => k m cp dl
  end.

Definition build_request_fields (p : pdu) (m : list Z) (cp out_length : Z) : option bres :=
  bseq (asn_build_int m cp out_length ASN_INTEGER (reqid p) sizeof_long) (fun m cp out_length =>
  bseq (asn_build_int m cp out_length ASN_INTEGER (errstat p) sizeof_long) (fun m cp out_length =>
  asn_build_int m cp out_length ASN_INTEGER (errindex p) sizeof_long)).

Definition build_trap_fields (p : pdu) (m : list Z) (cp out_length : Z) : option bres :=
  bseq (asn_build_objid m cp out_length ASN_OBJECT_ID (enterprise p) (enterprise_length p))
       (fun m cp out_length =>
  bseq (asn_build_string m cp out_length ASN_IPADDRESS (Some (agent_addr p)) 4) (fun m cp out_length =>
  bseq (asn_build_int m cp out_length ASN_INTEGER (trap_type p) sizeof_long) (fun m cp out_length =>
  bseq (asn_build_int m cp out_length ASN_INTEGER (specific_type p) sizeof_long) (fun m cp out_length =>
  asn_build_unsigned_int m cp out_length ASN_TIMETICKS (time p) sizeof_long)))).

Definition build_fields (p : pdu) : list Z -> Z -> Z -> option bres :=
  if negb (command p =? SNMP_MSG_TRAP) then build_request_fields p else build_trap_fields p.

(** [for (vp = pdu->variables; vp; vp = vp->next_variable)] *)
Fixpoint build_varbinds (vps : list variable) (m : list Z) (cp out_length : Z) : option bres :=
  match vps with
  | [] => Some (m, out_length, Ptr cp)
  | vp :: vps =>
    bseq (snmp_build_var_op m cp (vp_name vp) (vp_name_length vp) (vp_type vp) (vp_val_len vp)
            (vp_val vp) out_length)
         (build_varbinds vps)
  end.

(** The headers are written twice: with length 0 to keep their place, and with
    the right length at the end, when [length] counts the room once more. *)
Definition snmp_pdu_build (p : pdu) (m : list Z) (cp out_length : Z) : option bres :=
  let length := out_length in
  let h1 := cp in
  bseq (asn_build_sequence m cp out_length (u8 (command p)) 0) (fun m cp out_length =>
  let h1e := cp in
  bseq (build_fields p m cp out_length) (fun m cp out_length =>
  let h2 := cp in
  bseq (asn_build_sequence m cp out_length (Z.lor ASN_SEQUENCE ASN_CONSTRUCTOR) 0) (fun m cp out_length =>
  let h2e := cp in
  bseq (build_varbinds (variables p) m cp out_length) (fun m cp out_length =>
  '(m, length, _) ← asn_build_sequence m h2 length (Z.lor ASN_SEQUENCE ASN_CONSTRUCTOR) (u64 (cp - h2e));
  '(m, _, _) ← asn_build_sequence m h1 length (u8 (command p)) (u64 (cp - h1e));
  Some (m, out_length, Ptr cp))))).

(** * Backwards *)

Definition VPCACHE_SIZE : Z := 50.

(** A variable and its address; [None] is an element of the local array that
    was not written yet. *)
Abbreviation vpnode := (nat * variable)%type.
Abbreviation vpcache_t := (list (option vpnode)).

Definition vpcache_get (vpcache : vpcache_t) (i : Z) : option vpnode :=
  if 0 <=? i then mjoin (vpcache !! Z.to_nat i) else None.

Definition vpcache_put (vpcache : vpcache_t) (i : Z) (vp : vpnode) : option vpcache_t :=
  if (0 <=? i) && (i <? Z.of_nat (length vpcache)) then Some (<[Z.to_nat i := Some vp]> vpcache) else None.

(** [for (vp = pdu->variables, i = VPCACHE_SIZE - 1; vp && vp != tmpvp;
      vp = vp->next_variable, i--)]; without [tmpvp] the first of the two loops.
    The result is the array, [i] and [wrapped]. *)
Fixpoint vpcache_fill (vps : list vpnode) (tmpvp : option nat) (vpcache : vpcache_t) (i : Z) (wrapped : bool)
  : option (vpcache_t * Z * bool) :=
  match vps with
  | [] => Some (vpcache, i, wrapped)
  | vp :: vps =>
    if bool_decide (tmpvp = Some vp.1) then Some (vpcache, i, wrapped)
    else
      let wrapped := (i <? 0) || wrapped in
      let i := if i <? 0 then VPCACHE_SIZE - 1 else i in
      vpcache ← vpcache_put vpcache i vp;
      vpcache_fill vps tmpvp vpcache (i - 1) wrapped
  end.

Section rbuild.
Context {A : Allocator}.

(** [for (; n > 0; i++, n--) { vp = vpcache[i]; build; if (rc == 0) return 0; }] *)
Fixpoint vpcache_build (build : variable -> rstate -> rres) (n : nat) (i : Z) (vpcache : vpcache_t) (s : rstate)
  : rres :=
  match n with
  | O => Some (s, true)
  | S n =>
    vp ← vpcache_get vpcache i;
    s <~ build vp.2 s;
    vpcache_build build n (i + 1) vpcache s
  end.

(** [do ... while (notdone)]; every turn but the last builds [VPCACHE_SIZE]
    variables, so the number of variables and one are enough turns. *)
Fixpoint vpcache_loop (fuel : nat) (build : variable -> rstate -> rres) (vps : list vpnode)
    (vpcache : vpcache_t) (final : Z) (wrapped : bool) (s : rstate) : rres :=
  match fuel with
  | O => None
  | S fuel =>
    s <~ vpcache_build build (Z.to_nat (VPCACHE_SIZE - final)) final vpcache s;
    if wrapped then
      s <~ vpcache_build build (Z.to_nat final) 0 vpcache s;
      tmpvp ← vpcache_get vpcache (if final =? 0 then VPCACHE_SIZE - 1 else final - 1);
      '(vpcache, i, wrapped) ← vpcache_fill vps (Some tmpvp.1) vpcache (VPCACHE_SIZE - 1) false;
      vpcache_loop fuel build vps vpcache (i + 1) wrapped s
    else Some (s, true)
  end.

Definition rbuild_varbinds (build : variable -> rstate -> rres) (vars : list variable) (s : rstate) : rres :=
  let vps := imap pair vars in
  '(vpcache, i, wrapped) ←
    vpcache_fill vps None (replicate (Z.to_nat VPCACHE_SIZE) None) (VPCACHE_SIZE - 1) false;
  vpcache_loop (S (length vars)) build vps vpcache (i + 1) wrapped s.

Definition rbuild_var (r : bool) (vp : variable) (s : rstate) : rres :=
  snmp_realloc_rbuild_var_op r (vp_name vp) (vp_name_length vp) (vp_type vp) (vp_val vp) (vp_val_len vp) s.

Definition rbuild_request_fields (p : pdu) (s : rstate) : rres :=
  s <~ asn_realloc_rbuild_int true ASN_INTEGER (errindex p) sizeof_long s;
  s <~ asn_realloc_rbuild_int true ASN_INTEGER (errstat p) sizeof_long s;
  asn_realloc_rbuild_int true ASN_INTEGER (reqid p) sizeof_long s.

Definition rbuild_trap_fields (p : pdu) (s : rstate) : rres :=
  s <~ asn_realloc_rbuild_unsigned_int true ASN_TIMETICKS (time p) sizeof_long s;
  s <~ asn_realloc_rbuild_int true ASN_INTEGER (specific_type p) sizeof_long s;
  s <~ asn_realloc_rbuild_int true ASN_INTEGER (trap_type p) sizeof_long s;
  s <~ asn_realloc_rbuild_string true ASN_IPADDRESS (agent_addr p) 4 s;
  asn_realloc_rbuild_objid true ASN_OBJECT_ID (enterprise p) (enterprise_length p) s.

Definition rbuild_fields (p : pdu) : rstate -> rres :=
  if negb (command p =? SNMP_MSG_TRAP) then rbuild_request_fields p else rbuild_trap_fields p.

(** The result of the builder of the header of the list is not looked at. *)
Definition snmp_pdu_realloc_rbuild (p : pdu) (s : rstate) : rres :=
  let start_offset := offset s in
  s <~ rbuild_varbinds (rbuild_var true) (variables p) s;
  '(s, _) ← asn_realloc_rbuild_sequence true (Z.lor ASN_SEQUENCE ASN_CONSTRUCTOR)
              (u64 (offset s - start_offset)) s;
  s <~ rbuild_fields p s;
  asn_realloc_rbuild_sequence true (u8 (command p)) (u64 (offset s - start_offset)) s.

End rbuild.
