(* ===== verification/Message.v ===== *)
(** Whole messages of SNMPv1 and SNMPv2c: [_snmp_parse], [snmp_parse],
    [_snmp_build] and [snmp_build] of [snmplib/snmp_api.c], with
    [snmp_comstr_parse] and [snmp_comstr_build] ([snmplib/snmp_auth.c]) and the
    counters the library numbers its messages with.

    The part of SNMPv3 ([snmpv3_parse], [snmpv3_build] and what follows them) is
    a parameter: it is cryptography for the most part.  The assertions of
    [_snmp_build] only write log messages and are left out. *)
From Stdlib Require Import ZArith Lia.
From S2P Require Import Prelude Oid Asn1Defs SnmpDefs Asn1Parse Asn1Build Asn1RBuild SnmpVar Pdu.

Definition SNMP_DEFAULT_VERSION : Z := -1.
Definition SNMP_DEFAULT_ERRSTAT : Z := -1.
Definition SNMP_DEFAULT_ERRINDEX : Z := -1.
Definition SNMP_DEFAULT_ENTERPRISE_LENGTH : Z := 0.
Definition SNMP_DEFAULT_TIME : Z := 0.
Definition DEFAULT_TIME : Z := 0.
Definition default_enterprise : list Z := [1; 3; 6; 1; 4; 1; 3; 1; 1].
Definition COMMUNITY_MAX_LEN : Z := 256.
Definition SNMP_SEC_MODEL_SNMPv1 : Z := 1.
Definition SNMP_SEC_MODEL_SNMPv2c : Z := 2.
Definition SNMP_SEC_LEVEL_NOAUTH : Z := 1.
Definition UCD_MSG_FLAG_EXPECT_RESPONSE : Z := 0x200.

Definition SNMPERR_V2_IN_V1 : Z := -7.
Definition SNMPERR_V1_IN_V2 : Z := -8.
Definition SNMPERR_BAD_REPEATERS : Z := -9.
Definition SNMPERR_BAD_REPETITIONS : Z := -10.
Definition SNMPERR_BAD_ASN1_BUILD : Z := -11.
Definition SNMPERR_BAD_PARSE : Z := -13.
Definition SNMPERR_BAD_VERSION : Z := -14.
Definition SNMPERR_UNKNOWN_PDU : Z := -23.
Definition SNMPERR_AUTHENTICATION_FAILURE : Z := -35.

(** * State *)

(** The fields of [netsnmp_session] these functions use.  [authenticator] is a
    function of the application: from the packet, the place and the number of
    the bytes that remain, and the community, to its final [*length] and its
    result. *)
Record session : Type := mksession {
  s_version : Z;
  s_community : list Z;
  s_community_len : Z;
  s_snmp_errno : Z;
  s_errno : Z;
  authenticator : option (list Z -> Z -> Z -> list Z -> Z -> Z * ptr)
}.

Definition set_snmp_errno (e : Z) (s : session) : session :=
  mksession (s_version s) (s_community s) (s_community_len s) e (s_errno s) (authenticator s).

(** [session->s_snmp_errno = 0; session->s_errno = 0;] *)
Definition clear_errno (s : session) : session :=
  mksession (s_version s) (s_community s) (s_community_len s) 0 0 (authenticator s).

(** The static variables of the library, with the options of the default store
    the functions ask for. *)
Record globals : Type := mkglobals {
  Reqid : Z;               (* long *)
  Msgid : Z;
  Sessid : Z;
  Transid : Z;
  statistics : list Z;     (* u_int[] *)
  snmp_errno : Z;
  ds_16bit_ids : bool;
  ds_reverse_encode : bool
}.

Definition set_Reqid (x : Z) (g : globals) : globals :=
  mkglobals x (Msgid g) (Sessid g) (Transid g) (statistics g) (snmp_errno g) (ds_16bit_ids g) (ds_reverse_encode g).
Definition set_Msgid (x : Z) (g : globals) : globals :=
  mkglobals (Reqid g) x (Sessid g) (Transid g) (statistics g) (snmp_errno g) (ds_16bit_ids g) (ds_reverse_encode g).
Definition set_Sessid (x : Z) (g : globals) : globals :=
  mkglobals (Reqid g) (Msgid g) x (Transid g) (statistics g) (snmp_errno g) (ds_16bit_ids g) (ds_reverse_encode g).
Definition set_Transid (x : Z) (g : globals) : globals :=
  mkglobals (Reqid g) (Msgid g) (Sessid g) x (statistics g) (snmp_errno g) (ds_16bit_ids g) (ds_reverse_encode g).
Definition set_statistics (x : list Z) (g : globals) : globals :=
  mkglobals (Reqid g) (Msgid g) (Sessid g) (Transid g) x (snmp_errno g) (ds_16bit_ids g) (ds_reverse_encode g).
Definition SET_SNMP_ERROR (x : Z) (g : globals) : globals :=
  mkglobals (Reqid g) (Msgid g) (Sessid g) (Transid g) (statistics g) x (ds_16bit_ids g) (ds_reverse_encode g).
Definition count (which : Z) (g : globals) : globals :=
  set_statistics (snmp_increment_statistic which (statistics g)) g.

(** The next number after [id]; the first component is the new [id].  [Reqid],
    [Msgid], [Sessid] and [Transid] all advance like this. *)
Definition next_id (ds_16bit_ids : bool) (id : Z) : Z * Z :=
  let retVal := s64 (1 + id) in
  let retVal := if retVal =? 0 then 2 else retVal in
  let id := retVal in
  let retVal := Z.land retVal (if ds_16bit_ids then 0x7fff else 0x7fffffff) in
  if retVal =? 0 then (2, 2) else (id, retVal).

Definition snmp_get_next_reqid (g : globals) : globals * Z :=
  let '(id, retVal) := next_id (ds_16bit_ids g) (Reqid g) in (set_Reqid id g, retVal).
Definition snmp_get_next_msgid (g : globals) : globals * Z :=
  let '(id, retVal) := next_id (ds_16bit_ids g) (Msgid g) in (set_Msgid id g, retVal).
Definition snmp_get_next_sessid (g : globals) : globals * Z :=
  let '(id, retVal) := next_id (ds_16bit_ids g) (Sessid g) in (set_Sessid id g, retVal).
Definition snmp_get_next_transid (g : globals) : globals * Z :=
  let '(id, retVal) := next_id (ds_16bit_ids g) (Transid g) in (set_Transid id g, retVal).

(** * Parsing *)

(** [*length], [psid], [*slen] and [*version] after the call, and the result;
    [ver] is what the local variable of that name starts with. *)
Definition snmp_comstr_parse (m : list Z) (data length : Z) (psid : list Z) (slen version ver : Z)
  : option (Z * list Z * Z * Z * ptr) :=
  let origlen := slen in
  '(s, data) ← asn_parse_sequence m (Ptr data) (mkpout length 0 tt) (Z.lor ASN_SEQUENCE ASN_CONSTRUCTOR);
  match data with
  | NULL => Some (datalength s, psid, slen, version, NULL)
  | Ptr data =>
    '(s, data) ← asn_parse_int m data (mkpout (datalength s) (type s) ver) sizeof_long;
    let version := out s in
    match data with
    | NULL => Some (datalength s, psid, slen, version, NULL)
    | Ptr data =>
      '(s, data) ← asn_parse_string m data (mkpout (datalength s) (type s) (psid, slen));
      let '(psid, slen) := out s in
      match data with
      | NULL => Some (datalength s, psid, slen, version, NULL)
      | Ptr data =>
        psid ← poke psid (Z.min slen (origlen - 1)) 0;
        Some (datalength s, psid, slen, version, Ptr data)
      end
    end
  end.

(** An [int]; [length] and [type] are the function's own. *)
Definition snmp_parse_version (m : list Z) (data length : Z) : option Z :=
  let version := SNMPERR_BAD_VERSION in
  '(s, data) ← asn_parse_sequence m (Ptr data) (mkpout length 0 tt) (Z.lor ASN_SEQUENCE ASN_CONSTRUCTOR);
  match data with
  | NULL => Some version
  | Ptr data =>
    '(s, data) ← asn_parse_int m data (mkpout (datalength s) (type s) version) sizeof_long;
    match data with
    | NULL => Some SNMPERR_BAD_VERSION
    | Ptr _ => if negb (type s =? ASN_INTEGER) then Some SNMPERR_BAD_VERSION else Some (s32 (out s))
    end
  end.

(** What the three local variables that are written before they are set hold on
    entry: [community] and [objid] of [_snmp_parse] and [snmp_pdu_parse], and
    [ver] of [snmp_comstr_parse]. *)
Record locals : Type := mklocals { l_community : list Z; l_objid : list Z; l_ver : Z }.

Record mstate : Type := mkmstate { ms_session : session; ms_pdu : pdu; ms_globals : globals }.

Definition on_session (f : session -> session) (st : mstate) : mstate :=
  mkmstate (f (ms_session st)) (ms_pdu st) (ms_globals st).
Definition on_pdu (f : pdu -> pdu) (st : mstate) : mstate :=
  mkmstate (ms_session st) (f (ms_pdu st)) (ms_globals st).
Definition on_globals (f : globals -> globals) (st : mstate) : mstate :=
  mkmstate (ms_session st) (ms_pdu st) (f (ms_globals st)).

Section message.
Context {A : Allocator}.

(** [result = snmp_pdu_parse(pdu, data, &length); if (result < 0) ...] *)
Definition parse_pdu (loc : locals) (m : list Z) (st : mstate) (data length : Z) : option (mstate * Z) :=
  '(ps, result) ← snmp_pdu_parse m (mkpstate (ms_pdu st) (l_objid loc) length (statistics (ms_globals st))) data;
  let st := mkmstate (ms_session st) (ps_pdu ps) (set_statistics (ps_statistics ps) (ms_globals st)) in
  Some (if result <? 0 then on_globals (count STAT_SNMPINASNPARSEERRS) st else st, result).

(** The community is kept only when it is not empty. *)
Definition store_community (community : list Z) (community_length : Z) (p : pdu) : option (option pdu) :=
  let p := set_community [] (set_community_len 0 p) in
  if community_length =? 0 then Some (Some p)
  else
    match malloc community_length with
    | None => Some None
    | Some _ =>
      c ← peek_n community 0 community_length;
      Some (Some (set_community c (set_community_len community_length p)))
    end.

(** [case SNMP_VERSION_1: case SNMP_VERSION_2c:] *)
Definition parse_community_message (loc : locals) (m : list Z) (st : mstate) (data length : Z)
  : option (mstate * Z) :=
  '(length, community, community_length, version, d) ←
    snmp_comstr_parse m data length (l_community loc) COMMUNITY_MAX_LEN (version (ms_pdu st)) (l_ver loc);
  let st := on_pdu (set_version version) st in
  match d with
  | NULL => Some (st, -1)
  | Ptr data =>
    let sv := s_version (ms_session st) in
    if negb (version =? sv) && negb (sv =? SNMP_DEFAULT_VERSION)
    then Some (on_session (set_snmp_errno SNMPERR_BAD_VERSION) st, -1)
    else
      let model := if version =? SNMP_VERSION_1 then SNMP_SEC_MODEL_SNMPv1 else SNMP_SEC_MODEL_SNMPv2c in
      let p := set_securityModel model (set_securityLevel SNMP_SEC_LEVEL_NOAUTH (ms_pdu st)) in
      stored ← store_community community community_length p;
      match stored with
      | None =>
        Some (on_session (set_snmp_errno SNMPERR_MALLOC)
                (on_pdu (fun _ => set_community [] (set_community_len community_length p)) st), -1)
      | Some p =>
        let st := on_pdu (fun _ => p) st in
        match authenticator (ms_session st) with
        | None => parse_pdu loc m st data length
        | Some auth =>
          match auth m data length community community_length with
          | (_, NULL) => Some (on_session (set_snmp_errno SNMPERR_AUTHENTICATION_FAILURE) st, -1)
          | (length, Ptr data) => parse_pdu loc m st data length
          end
        end
      end
  end.

(** The branch of SNMPv3. *)
Context (snmpv3_message : list Z -> mstate -> Z -> Z -> option (mstate * Z)).

Definition _snmp_parse (loc : locals) (m : list Z) (st : mstate) (data length : Z) : option (mstate * Z) :=
  let st := on_session clear_errno st in
  let '(g, transid) := snmp_get_next_transid (ms_globals st) in
  let st := mkmstate (ms_session st) (set_transid transid (ms_pdu st)) g in
  let sv := s_version (ms_session st) in
  version ← (if negb (sv =? SNMP_DEFAULT_VERSION) then Some sv else snmp_parse_version m data length);
  let st := on_pdu (set_version version) st in
  let bad := on_session (set_snmp_errno SNMPERR_BAD_VERSION) in
  if is_one_of version [SNMP_VERSION_1; SNMP_VERSION_2c] then parse_community_message loc m st data length
  else if version =? SNMP_VERSION_3 then snmpv3_message m st data length
  else if version =? SNMPERR_BAD_VERSION then
    Some (bad (on_globals (count STAT_SNMPINASNPARSEERRS) st), -1)
  else
    let st := on_globals (count STAT_SNMPINBADVERSIONS) st in
    let st := if (version <? 0) || (2147483647 <? version)
              then on_globals (count STAT_SNMPINASNPARSEERRS) st else st in
    Some (bad st, -1).

Definition snmp_parse (loc : locals) (m : list Z) (st : mstate) (data length : Z) : option (mstate * Z) :=
  '(st, rc) ← _snmp_parse loc m st data length;
  if rc =? 0 then Some (st, rc)
  else
    let st := if s_snmp_errno (ms_session st) =? 0
              then on_session (set_snmp_errno SNMPERR_BAD_PARSE) st else st in
    Some (on_globals (SET_SNMP_ERROR (s_snmp_errno (ms_session st))) st, rc).

(** * Building *)

(** [*version] is not changed.  The length of the community is read through a
    [u_char *], which is its low octet.  The result of the last call is not
    looked at. *)
Definition snmp_comstr_build (m : list Z) (data length : Z) (psid : list Z) (slen version messagelen : Z)
  : option bres :=
  let h1 := data in
  let hlength := length in
  bseq (asn_build_sequence m data length (Z.lor ASN_SEQUENCE ASN_CONSTRUCTOR) 0) (fun m data length =>
  let h1e := data in
  bseq (asn_build_int m data length ASN_INTEGER version sizeof_long) (fun m data length =>
  bseq (asn_build_string m data length ASN_OCTET_STR (Some psid) (u8 slen)) (fun m data length =>
  '(m, _, _) ← asn_build_sequence m h1 hlength (Z.lor ASN_SEQUENCE ASN_CONSTRUCTOR)
                 (u64 (data - h1e + messagelen));
  Some (m, length, Ptr data)))).

(** [switch (pdu->command)] of [_snmp_build]: the pdu with the defaults filled
    in, and the error code if it returns -1. *)
Definition default_errs (p : pdu) : pdu :=
  let p := if errstat p =? SNMP_DEFAULT_ERRSTAT then set_errstat 0 p else p in
  if errindex p =? SNMP_DEFAULT_ERRINDEX then set_errindex 0 p else p.

Definition check_command (p : pdu) : pdu * option Z :=
  let c := command p in
  if is_one_of c [SNMP_MSG_RESPONSE; SNMP_MSG_GET; SNMP_MSG_GETNEXT; SNMP_MSG_SET] then (default_errs p, None)
  else if is_one_of c [SNMP_MSG_TRAP2; SNMP_MSG_INFORM] then
    if version p =? SNMP_VERSION_1 then (p, Some SNMPERR_V2_IN_V1) else (default_errs p, None)
  else if c =? SNMP_MSG_GETBULK then
    if version p =? SNMP_VERSION_1 then (p, Some SNMPERR_V2_IN_V1)
    else if errindex p <? 0 then (p, Some SNMPERR_BAD_REPETITIONS)
    else if errstat p <? 0 then (p, Some SNMPERR_BAD_REPEATERS)
    else (p, None)
  else if c =? SNMP_MSG_TRAP then
    if negb (version p =? SNMP_VERSION_1) then (p, Some SNMPERR_V1_IN_V2)
    else
      let p := set_reqid 1 p in
      let finish p :=
        let p := if time p =? SNMP_DEFAULT_TIME then set_time DEFAULT_TIME p else p in
        (set_flags (Z.land (flags p) (Z.lnot UCD_MSG_FLAG_EXPECT_RESPONSE)) p, None) in
      if enterprise_length p =? SNMP_DEFAULT_ENTERPRISE_LENGTH then
        let size := sizeof_oid * Z.of_nat (length default_enterprise) in
        match malloc size with
        | None => (set_enterprise [] p, Some SNMPERR_MALLOC)
        | Some _ => finish (set_enterprise default_enterprise (set_enterprise_length (size / sizeof_oid) p))
        end
      else finish p
  else (p, Some SNMPERR_UNKNOWN_PDU).

(** The community of the session stands in for an empty one, except in a
    response.  [None] is the failure of [malloc]. *)
Definition fill_community (s : session) (p : pdu) : option (pdu * option Z) :=
  if (community_len p =? 0) && negb (command p =? SNMP_MSG_RESPONSE) then
    let len := s_community_len s in
    if len =? 0 then Some (set_community_len len (set_community [] p), None)
    else if community_len p =? len then
      c ← peek_n (s_community s) 0 len;
      c ← poke_n (community p) 0 c;
      Some (set_community_len len (set_community c p), None)
    else
      match malloc len with
      | None => Some (set_community [] p, Some SNMPERR_MALLOC)
      | Some _ =>
        c ← peek_n (s_community s) 0 len;
        Some (set_community_len len (set_community c p), None)
      end
  else Some (p, None).

(** The reverse encoding of the whole message. *)
Definition rbuild_message (p : pdu) (s : rstate) : rres :=
  let start_offset := offset s in
  s <~ snmp_pdu_realloc_rbuild p s;
  s <~ asn_realloc_rbuild_string true ASN_OCTET_STR (community p) (community_len p) s;
  s <~ asn_realloc_rbuild_int true ASN_INTEGER (version p) sizeof_long s;
  asn_realloc_rbuild_sequence true (Z.lor ASN_SEQUENCE ASN_CONSTRUCTOR) (u64 (offset s - start_offset)) s.

(** The forward encoding; [length] is [*pkt_len] on entry.  The result pointer
    is [cp] at the end. *)
Definition build_message (p : pdu) (m : list Z) (pkt_len : Z) : option bres :=
  let length := pkt_len in
  bseq (asn_build_sequence m 0 pkt_len (Z.lor ASN_SEQUENCE ASN_CONSTRUCTOR) 0) (fun m cp pkt_len =>
  let h0e := cp in
  bseq (asn_build_int m cp pkt_len ASN_INTEGER (version p) sizeof_long) (fun m cp pkt_len =>
  bseq (asn_build_string m cp pkt_len ASN_OCTET_STR (Some (community p)) (community_len p))
       (fun m cp pkt_len =>
  bseq (snmp_pdu_build p m cp pkt_len) (fun m cp pkt_len =>
  '(m, _, _) ← asn_build_sequence m 0 length (Z.lor ASN_SEQUENCE ASN_CONSTRUCTOR) (u64 (cp - h0e));
  Some (m, pkt_len, Ptr cp))))).

(** The branch of SNMPv3. *)
Context (snmpv3_build : session -> pdu -> rstate -> option (rstate * session * pdu * Z)).

(** The packet ([*pkt], [*pkt_len], [*offset]), the session and the pdu after
    the call, and the result. *)
Definition _snmp_build (g : globals) (sess : session) (p : pdu) (s : rstate)
  : option (rstate * session * pdu * Z) :=
  let sess := clear_errno sess in
  if version p =? SNMP_VERSION_3 then snmpv3_build sess p s
  else
    let '(p, e) := check_command p in
    match e with
    | Some e => Some (s, set_snmp_errno e sess, p, -1)
    | None =>
      if negb (is_one_of (version p) [SNMP_VERSION_1; SNMP_VERSION_2c])
      then Some (s, set_snmp_errno SNMPERR_BAD_VERSION sess, p, -1)
      else
        '(p, e) ← fill_community sess p;
        match e with
        | Some e => Some (s, set_snmp_errno e sess, p, -1)
        | None =>
          if ds_reverse_encode g then
            '(s, ok) ← rbuild_message p s;
            Some (s, sess, p, if (ok : bool) then 0 else -1)
          else
            '(m, len, d) ← build_message p (pkt s) (pkt_len s);
            match d with
            | NULL => Some (mkrstate m len (offset s), sess, p, -1)
            | Ptr cp => Some (mkrstate m cp (offset s), sess, p, 0)
            end
        end
    end.

Definition snmp_build (g : globals) (sess : session) (p : pdu) (s : rstate)
  : option (rstate * session * pdu * globals * Z) :=
  '(s, sess, p, rc) ← _snmp_build g sess p s;
  if rc =? 0 then Some (s, sess, p, g, rc)
  else
    let sess := if s_snmp_errno sess =? 0 then set_snmp_errno SNMPERR_BAD_ASN1_BUILD sess else sess in
    Some (s, sess, p, SET_SNMP_ERROR (s_snmp_errno sess) g, -1).

End message.
