(* ===== verification/VpCache.v ===== *)
(** The ring of [snmp_pdu_realloc_rbuild]: whatever the number of variables, the
    loops around [vpcache] build every variable once, from the last to the
    first. *)
From Stdlib Require Import ZArith Lia.
From S2P Require Import Prelude Asn1Build Asn1RBuild SnmpVar Pdu.

(** [lia] with divisions by constants. *)
Ltac dlia := Z.to_euclidean_division_equations; lia.

Section ring.
Context (build : variable -> rstate -> rres).

(** The reference: build the variables of a list one after the other. *)
Fixpoint rbuild_list (l : list variable) (s : rstate) : rres :=
  match l with
  | [] => Some (s, true)
  | vp :: l => s <~ build vp s; rbuild_list l s
  end.

Lemma rseq_flatten e k1 k2 : rseq (rseq e k1) k2 = rseq e (fun s => rseq (k1 s) k2).
Proof. unfold rseq. destruct e as [[s [|]]|]; done. Qed.

Lemma rseq_ext e k1 k2 : (forall s, k1 s = k2 s) -> rseq e k1 = rseq e k2.
Proof. intros H. unfold rseq. destruct e as [[s [|]]|]; simpl; auto. Qed.

Lemma rbuild_list_app l1 l2 s :
  rbuild_list (l1 ++ l2) s = rseq (rbuild_list l1 s) (rbuild_list l2).
Proof.
  revert s. induction l1 as [|vp l1 IH]; intros s; [done|]. cbn [rbuild_list app].
  rewrite rseq_flatten. apply rseq_ext. intros s'. apply IH.
Qed.

(** ** Filling the ring *)

Definition ring_get (c : vpcache_t) (p : Z) (vp : vpnode) : Prop :=
  0 <= p /\ c !! Z.to_nat p = Some (Some vp).

(** After the nodes [l] went in: the ring has the last 50 of them, the node
    number [k] at [49 - k mod 50]. *)
Record filled (l : list vpnode) (c : vpcache_t) (i : Z) (wrapped : bool) : Prop := {
  filled_size : length c = 50%nat;
  filled_i : i + 1 = 50 - (if decide (l = []) then 0 else (Z.of_nat (length l) - 1) mod 50 + 1);
  filled_wrapped : wrapped = (50 <? Z.of_nat (length l));
  filled_get : forall k vp, l !! k = Some vp -> Z.of_nat (length l) - 50 <= Z.of_nat k ->
    ring_get c (49 - Z.of_nat k mod 50) vp
}.

Lemma filled_nil c : length c = 50%nat -> filled [] c 49 false.
Proof. intros Hc. by split. Qed.

Lemma filled_snoc l c i w vp :
  filled l c i w ->
  exists c', vpcache_put c (if i <? 0 then VPCACHE_SIZE - 1 else i) vp = Some c' /\
    filled (l ++ [vp]) c' ((if i <? 0 then VPCACHE_SIZE - 1 else i) - 1) ((i <? 0) || w).
Proof.
  intros [Hc Hi Hw Hg]. set (n := Z.of_nat (length l)) in *. unfold VPCACHE_SIZE.
  assert (Hp : (if i <? 0 then 50 - 1 else i) = 49 - n mod 50).
  { destruct (decide (l = [])) as [->|Hne]; [change n with 0; by replace i with 49 by lia|].
    assert (0 < n) by (destruct l; [done|subst n; simpl length; lia]).
    destruct (Z.ltb_spec i 0); dlia. }
  assert (Hwr : (i <? 0) || w = (50 <? n + 1)).
  { rewrite Hw. destruct (decide (l = [])) as [->|Hne].
    - change n with 0. by replace i with 49 by lia.
    - assert (0 < n) by (destruct l; [done|subst n; simpl length; lia]).
      destruct (Z.ltb_spec i 0), (Z.ltb_spec 50 n), (Z.ltb_spec 50 (n + 1)); simpl; try done; dlia. }
  rewrite Hp, Hwr. unfold vpcache_put. rewrite Hc.
  rewrite (proj2 (Z.leb_le 0 _)), (proj2 (Z.ltb_lt _ (Z.of_nat 50))) by dlia.
  eexists. split; [reflexivity|]. split.
  - by rewrite length_insert.
  - rewrite decide_False by (by destruct l). rewrite length_app. simpl length. dlia.
  - rewrite length_app. simpl length. by replace (Z.of_nat (length l + 1)) with (n + 1) by lia.
  - intros k vp' Hk Hlo. rewrite length_app in Hlo. simpl length in Hlo. unfold ring_get. split; [dlia|].
    apply lookup_app_Some in Hk as [Hk|[Hge Hk]].
    + pose proof (lookup_lt_Some _ _ _ Hk). destruct (Hg k vp' Hk ltac:(lia)) as [_ Hget].
      rewrite list_lookup_insert_ne; [done|]. dlia.
    + apply list_lookup_singleton_Some in Hk as [Hk ->]. replace k with (length l) by lia. fold n.
      apply list_lookup_insert_eq. dlia.
Qed.

(** The loop without [tmpvp] takes every node, the one with [tmpvp] those in
    front of the node of that address. *)
Lemma vpcache_fill_all vps : forall l c i w,
  filled l c i w ->
  exists c' i' w', vpcache_fill vps None c i w = Some (c', i', w') /\ filled (l ++ vps) c' i' w'.
Proof.
  induction vps as [|vp vps IH]; intros l c i w Hf; cbn [vpcache_fill].
  - rewrite app_nil_r. eauto.
  - rewrite bool_decide_false by done.
    destruct (filled_snoc l c i w vp Hf) as (c' & -> & Hf'). obind.
    destruct (IH _ _ _ _ Hf') as (c2 & i2 & w2 & -> & Hf2). rewrite <- app_assoc in Hf2. eauto.
Qed.

Lemma vpcache_fill_until vps1 tmpvp vps2 : forall l c i w,
  (forall vp, vp ∈ vps1 -> vp.1 <> tmpvp.1) -> filled l c i w ->
  exists c' i' w', vpcache_fill (vps1 ++ tmpvp :: vps2) (Some tmpvp.1) c i w = Some (c', i', w') /\
    filled (l ++ vps1) c' i' w'.
Proof.
  induction vps1 as [|vp vps1 IH]; intros l c i w Hne Hf; cbn [vpcache_fill app].
  - rewrite bool_decide_true by done. rewrite app_nil_r. eauto.
  - rewrite bool_decide_false by (intros [= Heq]; apply (Hne vp); [left|done]).
    destruct (filled_snoc l c i w vp Hf) as (c' & -> & Hf'). obind.
    destruct (IH (l ++ [vp]) _ _ _ ltac:(intros; apply Hne; by right) Hf') as (c2 & i2 & w2 & -> & Hf2).
    rewrite <- app_assoc in Hf2. eauto.
Qed.

(** ** Emptying it *)

Lemma vpcache_build_list es : forall c p s,
  (forall j vp, es !! j = Some vp -> ring_get c (p + Z.of_nat j) vp) ->
  vpcache_build build (length es) p c s = rbuild_list es.*2 s.
Proof.
  induction es as [|vp es IH]; intros c p s Hes; [done|]. cbn [length vpcache_build fmap list_fmap rbuild_list].
  destruct (Hes 0%nat vp eq_refl) as [Hp Hget]. rewrite Z.add_0_r in Hp, Hget.
  unfold vpcache_get. rewrite (proj2 (Z.leb_le 0 p)) by lia. rewrite Hget. cbn [mjoin option_join]. obind.
  apply rseq_ext. intros s'. apply IH. intros j vp' Hj.
  replace (p + 1 + Z.of_nat j) with (p + Z.of_nat (S j)) by lia. by apply Hes.
Qed.

(** The part of the ring from [p] on, [c] nodes, when the node at [p] is
    number [q]. *)
Lemma ring_segment l c i w q n p :
  filled l c i w -> (q < length l)%nat -> (n <= q + 1)%nat ->
  Z.of_nat (length l) - 50 <= Z.of_nat q + 1 - Z.of_nat n -> p = 49 - Z.of_nat q mod 50 ->
  p + Z.of_nat n <= 50 ->
  forall j vp, take n (drop (length l - S q) (reverse l)) !! j = Some vp -> ring_get c (p + Z.of_nat j) vp.
Proof.
  intros Hf Hq Hn Hlo -> Hend j vp Hj. apply lookup_take_Some in Hj as [Hj Hjn].
  rewrite lookup_drop in Hj. rewrite reverse_lookup in Hj by lia.
  replace (length l - S (length l - S q + j))%nat with (q - j)%nat in Hj by lia.
  pose proof (filled_get _ _ _ _ Hf _ _ Hj ltac:(lia)) as Hg.
  replace (49 - Z.of_nat (q - j) mod 50) with (49 - Z.of_nat q mod 50 + Z.of_nat j) in Hg by dlia. done.
Qed.

(** ** The loop *)

Lemma rbuild_list_split n l s :
  rbuild_list l s = rseq (rbuild_list (take n l) s) (rbuild_list (drop n l)).
Proof. by rewrite <- rbuild_list_app, take_drop. Qed.

(** One turn builds the nodes of the ring, from the last one on. *)
Lemma vpcache_turn l c i w s :
  filled l c i w ->
  rseq (vpcache_build build (Z.to_nat (VPCACHE_SIZE - (i + 1))) (i + 1) c s)
       (fun s => if w then vpcache_build build (Z.to_nat (i + 1)) 0 c s else Some (s, true)) =
  rbuild_list (take 50 (reverse l)).*2 s.
Proof.
  intros Hf. pose proof (filled_i _ _ _ _ Hf) as Hi. pose proof (filled_wrapped _ _ _ _ Hf) as ->.
  unfold VPCACHE_SIZE in *. destruct (decide (l = [])) as [->|Hne].
  { replace (i + 1) with 50 by lia. done. }
  set (n := length l) in *. assert (Hn : (0 < n)%nat) by (subst n; destruct l; simpl; [done|lia]).
  assert (Hrl : length (reverse l) = n) by apply length_reverse.
  set (a := Z.to_nat (50 - (i + 1))). assert (Ha : Z.of_nat a = (Z.of_nat n - 1) mod 50 + 1) by (subst a; dlia).
  assert (Han : (a <= n)%nat) by dlia.
  replace (i + 1) with (49 - Z.of_nat (n - 1) mod 50) by dlia.
  assert (Hrot : forall q k p, (q < n)%nat -> (k <= q + 1)%nat -> Z.of_nat n - 50 <= Z.of_nat q + 1 - Z.of_nat k ->
      p = 49 - Z.of_nat q mod 50 -> p + Z.of_nat k <= 50 ->
      forall s, vpcache_build build k p c s = rbuild_list (take k (drop (n - S q) (reverse l))).*2 s).
  { intros q k p Hq Hk Hlo Hp Hend s'. pose proof (ring_segment _ _ _ _ q k p Hf Hq Hk Hlo Hp Hend) as Hseg.
    assert (Hlen : length (take k (drop (n - S q) (reverse l))) = k)
      by (rewrite length_take, length_drop; lia).
    rewrite <- Hlen at 1. apply vpcache_build_list. exact Hseg. }
  rewrite (Hrot (n - 1)%nat a) by dlia.
  replace (n - S (n - 1))%nat with 0%nat by lia. rewrite drop_0.
  destruct (Z.ltb_spec 50 (Z.of_nat n)) as [Hw|Hw].
  - rewrite (rbuild_list_split a (take 50 (reverse l)).*2). rewrite <- fmap_take, <- fmap_drop.
    rewrite take_take, Nat.min_l by dlia. apply rseq_ext. intros s'.
    rewrite (Hrot (n - 1 - a)%nat _ 0) by dlia. rewrite skipn_firstn_comm.
    replace (n - S (n - 1 - a))%nat with a by dlia.
    by replace (Z.to_nat (49 - Z.of_nat (n - 1) mod 50)) with (50 - a)%nat by dlia.
  - assert (a = n) as -> by dlia. rewrite !firstn_all2 by lia.
    unfold rseq. by destruct (rbuild_list _ s) as [[? [|]]|].
Qed.

(** The node the ring has held longest: the one the next turn stops at. *)
Lemma vpcache_oldest l c i :
  filled l c i true ->
  exists vp, l !! (length l - 50)%nat = Some vp /\
    vpcache_get c (if (i + 1 =? 0) then VPCACHE_SIZE - 1 else i + 1 - 1) = Some vp.
Proof.
  intros Hf. pose proof (filled_i _ _ _ _ Hf) as Hi. pose proof (filled_wrapped _ _ _ _ Hf) as Hw.
  symmetry in Hw. apply Z.ltb_lt in Hw. unfold VPCACHE_SIZE.
  destruct (lookup_lt_is_Some_2 l (length l - 50)) as [vp Hvp]; [lia|]. exists vp. split; [done|].
  destruct (filled_get _ _ _ _ Hf _ _ Hvp ltac:(lia)) as [Hp Hg]. rewrite decide_False in Hi by by destruct l.
  replace (if (i + 1 =? 0) then 50 - 1 else i + 1 - 1) with (49 - Z.of_nat (length l - 50) mod 50).
  - unfold vpcache_get. rewrite (proj2 (Z.leb_le 0 _)) by dlia. by rewrite Hg.
  - destruct (Z.eqb_spec (i + 1) 0); dlia.
Qed.
End ring.

Definition addresses_differ (vps : list vpnode) : Prop :=
  forall i j vp vp', vps !! i = Some vp -> vps !! j = Some vp' -> i <> j -> vp.1 <> vp'.1.

Lemma vpcache_loop_spec build vps : addresses_differ vps -> forall fuel n c i w s,
  (n < 50 * fuel)%nat -> (n <= length vps)%nat -> filled (take n vps) c i w ->
  vpcache_loop fuel build vps c (i + 1) w s = rbuild_list build (reverse (take n vps)).*2 s.
Proof.
  intros Hd. induction fuel as [|fuel IH]; intros n c i w s Hn Hl Hf; [lia|]. cbn [vpcache_loop].
  set (l := take n vps) in *. assert (Hll : length l = n) by (subst l; rewrite length_take; lia).
  rewrite (rbuild_list_split build 50 (reverse l).*2). rewrite <- fmap_take, <- fmap_drop.
  rewrite <- (vpcache_turn build l c i w s Hf), rseq_flatten. apply rseq_ext. intros s1.
  pose proof (filled_wrapped _ _ _ _ Hf) as Hw. destruct w.
  - apply rseq_ext. intros s2. destruct (vpcache_oldest l c i Hf) as (tmpvp & Htmp & ->). obind.
    symmetry in Hw. apply Z.ltb_lt in Hw. subst l. rewrite Hll in *.
    rewrite lookup_take_lt in Htmp by lia.
    assert (Hsplit : vps = take (n - 50) vps ++ tmpvp :: drop (S (n - 50)) vps)
      by (by rewrite take_drop_middle).
    assert (Hne : forall vp, vp ∈ take (n - 50) vps -> vp.1 <> tmpvp.1).
    { intros vp (k & Hk & Hkn)%elem_of_take. eapply Hd; [done|done|lia]. }
    assert (Hnil : filled [] c 49 false) by (apply filled_nil, (filled_size _ _ _ _ Hf)).
    destruct (vpcache_fill_until (take (n - 50) vps) tmpvp (drop (S (n - 50)) vps) [] c 49 false Hne Hnil)
      as (c' & i' & w' & Hfill & Hf').
    rewrite <- Hsplit in Hfill. change (VPCACHE_SIZE - 1) with 49. rewrite Hfill. obind.
    rewrite (IH (n - 50)%nat) by (done || lia).
    by rewrite drop_reverse, Hll, take_take, Nat.min_l by lia.
  - symmetry in Hw. apply Z.ltb_ge in Hw. rewrite drop_ge by (rewrite length_reverse; lia). done.
Qed.

Lemma imap_pair_lookup (vars : list variable) k vp : imap pair vars !! k = Some vp -> vp.1 = k.
Proof. rewrite list_lookup_imap. destruct (vars !! k); intros; simplify_eq/=; done. Qed.

Lemma imap_pair_snd (vars : list variable) : (imap pair vars).*2 = vars.
Proof. apply list_eq. intros k. rewrite list_lookup_fmap, list_lookup_imap. by destruct (vars !! k). Qed.

Lemma imap_pair_addresses (vars : list variable) : addresses_differ (imap pair vars).
Proof. intros i j vp vp' Hi Hj Hij. by rewrite (imap_pair_lookup _ _ _ Hi), (imap_pair_lookup _ _ _ Hj). Qed.

(** Every variable once, from the last to the first, whatever their number. *)
Lemma rbuild_varbinds_list build vars s :
  rbuild_varbinds build vars s = rbuild_list build (reverse vars) s.
Proof.
  unfold rbuild_varbinds. assert (Hl : length (imap pair vars) = length vars) by apply length_imap.
  destruct (vpcache_fill_all (imap pair vars) [] (replicate (Z.to_nat VPCACHE_SIZE) None) 49 false)
    as (c & i & w & Hfill & Hf); [by apply filled_nil|].
  change (VPCACHE_SIZE - 1) with 49. rewrite Hfill. obind.
  rewrite (vpcache_loop_spec build _ (imap_pair_addresses vars) _ (length vars)); [|lia..|].
  - rewrite firstn_all2 by lia. by rewrite fmap_reverse, imap_pair_snd.
  - rewrite firstn_all2 by lia. exact Hf.
Qed.

(** C34: the ring of 50 places in which the reverse builder collects the
    variables, whatever their number, builds each of them once, from the last
    to the first, and stops at the first failure: it is a loop over the reversed
    list. *)
Theorem vpcache_reverses_list build vars s :
  rbuild_varbinds build vars s = rbuild_list build (reverse vars) s.
Proof. apply rbuild_varbinds_list. Qed.
