(* ===== verification/PduSpec.v ===== *)
(** The wire format of a PDU and of a message, as functions of what is sent, and
    the conditions under which the code is expected to carry it.

    The two families of builders frame a sequence differently: the forward one
    always uses a length of two octets, the reverse one the shortest.  The class
    [Framing] states what the parsers rely on; everything else is shared. *)
From Stdlib Require Import ZArith Lia.
From S2P Require Import Prelude Oid Asn1Defs SnmpDefs Ber Asn1Parse Asn1ParseProps Asn1ParseWide Asn1Build.
From S2P Require Import Asn1BuildProps Asn1RBuild SnmpVar SnmpVarProps Codec Pdu Message.

(** * Frames *)

(** [fr t c] is a tag [t], a length and the contents [c], of [lim] octets at
    most, in a form the parsers understand. *)
Class Framing (fr : Z -> list Z -> list Z) (lim : Z) : Prop := {
  frame_at m d t c dl :
    holds m d (fr t c) -> zlen c <= lim -> zlen (fr t c) <= dl < 2 ^ 64 ->
    peek m d = Some t /\
    parse_length_checked m (d + 1) d dl = Some (Some (zlen c, d + zlen (fr t c) - zlen c)) /\
    holds m (d + zlen (fr t c) - zlen c) c;
  frame_size t c : zlen c <= lim -> zlen c + 2 <= zlen (fr t c) <= zlen c + 6;
  frame_ends t c : c `suffix_of` fr t c;
  frame_lim : lim <= 0x7fffffff
}.

Lemma frame_contains fr lim {F : Framing fr lim} t c : zlen c <= zlen (fr t c).
Proof. destruct (frame_ends t c) as [h ->]. rewrite zlen_app. pose proof (zlen_nonneg h). lia. Qed.

Definition long_frame (t : Z) (c : list Z) : list Z := seq_header t (zlen c) ++ c.

#[export] Instance tlv_framing : Framing tlv 0x7fffffff.
Proof.
  split; [|intros t c Hc|intros t c; exists (t :: ber_length (zlen c)); done|done].
  - intros m d t c dl Hh Hc Hdl. apply holds_tlv in Hh as (Ht & Hl & Hh). rewrite zlen_tlv in *.
    pose proof (zlen_nonneg c). split; [done|].
    replace (d + (1 + zlen (ber_length (zlen c)) + zlen c) - zlen c)
      with (d + 1 + zlen (ber_length (zlen c))) by lia.
    split; [|done]. by rewrite (parse_length_checked_ber m (d + 1) d dl (zlen c)) by (done || lia).
  - rewrite zlen_tlv. pose proof (zlen_nonneg c). pose proof (zlen_ber_length (zlen c) ltac:(lia)). lia.
Qed.

Lemma zlen_long_frame t c : zlen (long_frame t c) = zlen c + 4.
Proof. unfold long_frame. rewrite zlen_app. change (zlen (seq_header _ _)) with 4. lia. Qed.

#[export] Instance long_framing : Framing long_frame 0xFFFF.
Proof.
  split; [|intros t c Hc; rewrite zlen_long_frame; lia|intros t c; by eexists|done].
  intros m d t c dl Hh Hc Hdl. pose proof (zlen_nonneg c). rewrite zlen_long_frame in *.
  apply holds_app in Hh as [Hh Hcs]. change (Z.of_nat (length (seq_header _ _))) with 4 in Hcs.
  replace (d + (zlen c + 4) - zlen c) with (d + 4) by lia.
  pose proof (holds_peek _ _ _ _ Hh) as Ht. split; [done|]. split; [|done].
  apply (parse_length_long m d t); [done|lia|lia].
Qed.

(** * Encodings *)

Definition int_ber (x : Z) : list Z := tlv ASN_INTEGER (ber_int (CHECK_OVERFLOW_S x)).

(** A name and its value, as the application sees a binding. *)
Abbreviation vbind := (list Z * value)%type.

Definition fields_ber (p : pdu) : list Z :=
  if command p =? SNMP_MSG_TRAP then
    tlv ASN_OBJECT_ID (ber_oid (enterprise p)) ++ tlv ASN_IPADDRESS (agent_addr p) ++
    int_ber (trap_type p) ++ int_ber (specific_type p) ++ tlv ASN_TIMETICKS (ber_int (time p mod 2 ^ 32))
  else int_ber (reqid p) ++ int_ber (errstat p) ++ int_ber (errindex p).

Section frames.
Context (fr : Z -> list Z -> list Z).

Definition varbind_ber (ov : vbind) : list Z := fr 0x30 (binding ov.1 ov.2).

Definition varbinds_ber (ovs : list vbind) : list Z := ovs ≫= varbind_ber.

Definition pdu_ber (p : pdu) (ovs : list vbind) : list Z :=
  fr (command p) (fields_ber p ++ fr 0x30 (varbinds_ber ovs)).

Definition message_ber (p : pdu) (ovs : list vbind) : list Z :=
  fr 0x30 (int_ber (version p) ++ tlv ASN_OCTET_STR (community p) ++ pdu_ber p ovs).

Lemma varbinds_ber_cons ov ovs : varbinds_ber (ov :: ovs) = varbind_ber ov ++ varbinds_ber ovs.
Proof. reflexivity. Qed.

Lemma varbinds_ber_app l1 l2 : varbinds_ber (l1 ++ l2) = varbinds_ber l1 ++ varbinds_ber l2.
Proof. apply bind_app. Qed.
End frames.

(** * Well-formed PDUs *)

Definition pdu_commands : list Z :=
  [SNMP_MSG_GET; SNMP_MSG_GETNEXT; SNMP_MSG_RESPONSE; SNMP_MSG_SET; SNMP_MSG_TRAP; SNMP_MSG_GETBULK;
   SNMP_MSG_INFORM; SNMP_MSG_TRAP2; SNMP_MSG_REPORT].

(** An address has four bytes; the parser insists on it. *)
Definition vsend (v : value) : Prop :=
  vok v /\ match v with VStr t bs => t = ASN_IPADDRESS -> zlen bs = 4 | _ => True end.

Definition vbind_ok (ov : vbind) : Prop := name_ok ov.1 /\ vsend ov.2.

(** The fields a PDU is sent with. *)
Definition fields_ok (p : pdu) : Prop :=
  command p = SNMP_MSG_TRAP ->
  name_ok (enterprise p) /\ enterprise_length p = zlen (enterprise p) /\
  bytes (agent_addr p) /\ zlen (agent_addr p) = 4 /\ u64_ok (time p).

(** [vp] is the structure an application fills in for a binding. *)
Definition var_of (ov : vbind) : variable :=
  mkvariable ov.1 (zlen ov.1) (vtype ov.2) (vimage ov.2) (vlen ov.2).

(** [vp], as the parser leaves it, holds the name [o] and the value [v]: its
    arrays start with them. *)
Definition carries (vp : variable) (ov : vbind) : Prop :=
  vp_name_length vp = zlen ov.1 /\ take (length ov.1) (vp_name vp) = ov.1 /\
  vp_type vp = vtype ov.2 /\ vp_val_len vp = vlen ov.2 /\
  take (length (vimage ov.2)) (vp_val vp) = vimage ov.2.

(** The value the receiver gets. *)
Definition received (v : value) : value :=
  match v with
  | VInt x => VInt (CHECK_OVERFLOW_S (CHECK_OVERFLOW_S x))
  | VUns t x => VUns t (x mod 2 ^ 32)
  | VC64 t c => VC64 t (split64 (c64_value c))
  | _ => v
  end.

Definition received_bind (ov : vbind) : vbind := (ov.1, received ov.2).

(** Values within the ranges of SNMP arrive as they were sent. *)
Definition in_snmp_range (v : value) : Prop :=
  match v with
  | VInt x => - 2 ^ 31 <= x < 2 ^ 31
  | VUns _ x => 0 <= x < 2 ^ 32
  | VC64 _ c => c64_ok c
  | _ => True
  end.

Lemma received_id v : in_snmp_range v -> received v = v.
Proof.
  destruct v as [x|t x|t c|t bs|o|t|bs|x|x|c]; cbn [in_snmp_range received]; intros H; try done.
  - by rewrite !(CHECK_OVERFLOW_S_id x).
  - by rewrite Z.mod_small.
  - by rewrite split64_c64_value.
Qed.

Lemma int_ber_bound x : 3 <= zlen (int_ber x) <= 10.
Proof.
  unfold int_ber. pose proof (ber_int_size _ 8 ltac:(lia) (CHECK_OVERFLOW_S_fits x)).
  rewrite zlen_tlv, ber_length_short by lia. change (zlen [_]) with 1. lia.
Qed.

Lemma int_ber_holds_parse m d s x :
  holds m d (int_ber x) -> zlen (int_ber x) <= datalength s < 2 ^ 64 ->
  asn_parse_int m d s sizeof_long =
  Some (mkpout (datalength s - zlen (int_ber x)) ASN_INTEGER (CHECK_OVERFLOW_S (CHECK_OVERFLOW_S x)),
        Ptr (d + zlen (int_ber x))).
Proof. apply parse_built_int, CHECK_OVERFLOW_S_fits. Qed.

(** * Deciding the conditions *)

#[export] Instance first_octet_dec t bs :
  Decision (t = ASN_OPAQUE -> exists b bs', bs = b :: bs' /\ b <> ASN_OPAQUE_TAG1).
Proof.
  destruct (decide (t = ASN_OPAQUE)) as [->|Hn]; [|left; done].
  destruct bs as [|b bs]; [right; intros H; by destruct (H eq_refl) as (?&?&?&_)|].
  destruct (decide (b = ASN_OPAQUE_TAG1)) as [->|Hb]; [|left; eauto].
  right. intros H. destruct (H eq_refl) as (? & ? & [= <- <-] & Hne). by apply Hne.
Defined.

#[export] Instance vok_dec v : Decision (vok v).
Proof. destruct v; cbn [vok]; apply _. Defined.

#[export] Instance vsend_dec v : Decision (vsend v).
Proof. unfold vsend. destruct v; apply _. Defined.

#[export] Instance vbind_ok_dec ov : Decision (vbind_ok ov).
Proof. unfold vbind_ok. apply _. Defined.

#[export] Instance fields_ok_dec p : Decision (fields_ok p).
Proof. unfold fields_ok. apply _. Defined.

#[export] Instance variable_eq_dec : EqDecision variable.
Proof. solve_decision. Defined.
