(* ===== verification/PduBuildProps.v ===== *)
(** The builders of PDUs and messages against the wire format of [PduSpec]. *)
From Stdlib Require Import ZArith Lia.
From S2P Require Import Prelude Oid Asn1Defs SnmpDefs Ber Asn1Parse Asn1ParseProps Asn1ParseWide Asn1Build.
From S2P Require Import Asn1BuildProps Asn1RBuild Asn1RBuildProps Asn1RBuildWide SnmpVar SnmpVarProps Codec Pdu VpCache Message PduSpec.

(** * Chains of forward builders

    [bpost m d dl bs res]: the whole chain, started on the area of [dl] cells at
    [d], wrote [bs] or had no room for it. *)
Definition bpost (m : list Z) (d dl : Z) (bs : list Z) (res : option bres) : Prop :=
  if decide (zlen bs <= dl) then res = Some (patch m d bs, dl - zlen bs, Ptr (d + zlen bs))
  else exists m' dl', res = Some (m', dl', NULL) /\ confined m m' d dl.

Section chain.
Context (m : list Z) (d dl : Z).
Context (Hd : 0 <= d) (Hdl : 0 <= dl < 2 ^ 64) (Hm : d + dl <= zlen m).

(** One builder of a chain that has written [pre] and ends with [bs] written. *)
Lemma bseq_step pre b bs f k :
  Builds f b -> zlen pre <= dl -> zlen pre + zlen b <= zlen bs ->
  (zlen (pre ++ b) <= dl ->
   bpost m d dl bs (k (patch m d (pre ++ b)) (d + zlen (pre ++ b)) (dl - zlen (pre ++ b)))) ->
  bpost m d dl bs (bseq (f (patch m d pre) (d + zlen pre) (dl - zlen pre)) k).
Proof.
  intros Hf Hpre Hbs Hk. pose proof (zlen_nonneg pre). pose proof (zlen_nonneg b).
  assert (Hmp : zlen (patch m d pre) = zlen m) by (apply zlen_patch; lia).
  pose proof (Hf (patch m d pre) (d + zlen pre) (dl - zlen pre) ltac:(lia) ltac:(lia) ltac:(lia)) as H1.
  unfold bseq. rewrite zlen_app in Hk. destruct (decide (zlen b <= dl - zlen pre)) as [Hfit|Hno].
  - rewrite H1. obind. rewrite (patch_patch m d _ pre b) by (unfold zlen in *; lia).
    replace (d + zlen pre + zlen b) with (d + (zlen pre + zlen b)) by lia.
    replace (dl - zlen pre - zlen b) with (dl - (zlen pre + zlen b)) by lia. apply Hk. lia.
  - destruct H1 as (m' & dl' & -> & Hc). obind. unfold bpost. rewrite decide_False by lia.
    exists m', dl'. split; [done|]. eapply confined_trans; [by apply confined_patch|].
    eapply confined_within; [exact Hc|lia|lia].
Qed.

(** The last one. *)
Lemma bseq_last pre b bs f :
  Builds f b -> zlen pre <= dl -> bs = pre ++ b ->
  bpost m d dl bs (f (patch m d pre) (d + zlen pre) (dl - zlen pre)).
Proof.
  intros Hf Hpre ->.
  pose proof (bseq_step pre b (pre ++ b) f (fun m cp dl => Some (m, dl, Ptr cp)) Hf Hpre) as H.
  rewrite zlen_app in H. specialize (H ltac:(lia)). unfold bseq in H.
  destruct (f _ _ _) as [[[m' dl'] [|q]]|]; apply H; intros Hfit; unfold bpost;
    rewrite zlen_app, decide_True by lia; done.
Qed.

Lemma bpost_done bs : zlen bs <= dl -> bpost m d dl bs (Some (patch m d bs, dl - zlen bs, Ptr (d + zlen bs))).
Proof. intros. unfold bpost. by rewrite decide_True. Qed.
End chain.

(** A chain starts with nothing written. *)
Lemma chain_builds f bs :
  (forall m d dl, 0 <= d -> 0 <= dl < 2 ^ 64 -> d + dl <= zlen m ->
     bpost m d dl bs (f (patch m d []) (d + zlen []) (dl - zlen []))) ->
  Builds f bs.
Proof.
  intros H m d dl Hd Hdl Hm. specialize (H m d dl Hd Hdl Hm). revert H.
  rewrite patch_nil, zlen_nil, Z.add_0_r, Z.sub_0_r. done.
Qed.

Lemma Builds_bseq f1 b1 f2 b2 :
  Builds f1 b1 -> Builds f2 b2 -> Builds (fun m d dl => bseq (f1 m d dl) f2) (b1 ++ b2).
Proof.
  intros H1 H2. apply chain_builds. intros m d dl Hd Hdl Hm. pose proof (zlen_nonneg b2).
  eapply (bseq_step m d dl Hd Hdl Hm [] b1); [done|change (zlen []) with 0; lia| |].
  - rewrite zlen_app. change (zlen []) with 0. lia.
  - intros Hfit. by apply (bseq_last m d dl Hd Hdl Hm ([] ++ b1) b2).
Qed.

(** Writing the header of a frame again, with the right length. *)
Lemma header_again m d dl pre old post t n :
  0 <= d -> d + zlen (pre ++ old ++ post) <= zlen m -> zlen old = 4 -> 4 <= dl < 2 ^ 64 -> 0 <= n <= 0xFFFF ->
  asn_build_sequence (patch m d (pre ++ old ++ post)) (d + zlen pre) dl t n =
  Some (patch m d (pre ++ seq_header t n ++ post), dl - 4, Ptr (d + zlen pre + 4)).
Proof.
  intros Hd Hm Hold Hdl Hn. rewrite !zlen_app in Hm. pose proof (zlen_nonneg pre). pose proof (zlen_nonneg post).
  set (M := patch m d (pre ++ old ++ post)).
  assert (HM : zlen M = zlen m) by (apply zlen_patch; [lia|rewrite !zlen_app; lia]).
  (* the area of the four octets *)
  unfold asn_build_sequence. rewrite (proj2 (Z.ltb_ge _ _)) by lia.
  pose proof (asn_build_sequence_builds t n Hn M (d + zlen pre) 4 ltac:(lia) ltac:(lia) ltac:(lia)) as H4.
  change (zlen (seq_header t n)) with 4 in H4. rewrite decide_True in H4 by lia.
  unfold asn_build_sequence in H4. change (4 <? 4) with false in H4. cbv iota in H4.
  destruct (poke M _ _) as [m1|]; [|done]. cbn [mbind option_bind] in *.
  destruct (poke m1 _ _) as [m2|]; [|done]. cbn [mbind option_bind] in *.
  destruct (poke m2 _ _) as [m3|]; [|done]. cbn [mbind option_bind] in *.
  destruct (poke m3 _ _) as [m4|]; [|done]. cbn [mbind option_bind] in *.
  injection H4 as ->. rewrite (wrap_small 64 (dl - 4)) by lia. do 3 f_equal.
  unfold M. clear -Hd Hm Hold H H0. unfold zlen in *.
  rewrite <- (patch_patch m d (d + Z.of_nat (length pre)) pre (old ++ post)) by (done || lia).
  rewrite <- (patch_patch m d (d + Z.of_nat (length pre)) pre (seq_header t n ++ post)) by (done || lia).
  set (m1 := patch m d pre). set (q := d + Z.of_nat (length pre)).
  assert (Hm1 : length m1 = length m) by (apply length_patch; lia).
  unfold patch. rewrite length_app. change (length (seq_header t n)) with 4%nat.
  rewrite take_app_le by (rewrite length_take; lia). rewrite take_take, Nat.min_l by lia.
  rewrite drop_app_ge by (rewrite length_take; lia). rewrite length_take.
  replace (Z.to_nat q + 4 - Z.to_nat q `min` length m1)%nat with (length old) by lia.
  rewrite <- !app_assoc, drop_app_length, length_app. do 4 f_equal.
  change (length (seq_header t n)) with 4%nat. lia.
Qed.

(** * Forwards *)

Lemma build_request_fields_builds p :
  Builds (fun m d dl => build_request_fields p m d dl)
         (int_ber (reqid p) ++ int_ber (errstat p) ++ int_ber (errindex p)).
Proof.
  unfold build_request_fields. apply (Builds_bseq _ _ _ _ (asn_build_int_builds _ _)).
  apply (Builds_bseq _ _ _ _ (asn_build_int_builds _ _)). apply asn_build_int_builds.
Qed.

Lemma build_trap_fields_builds p :
  name_ok (enterprise p) -> enterprise_length p = zlen (enterprise p) -> zlen (agent_addr p) = 4 ->
  u64_ok (time p) ->
  Builds (fun m d dl => build_trap_fields p m d dl)
    (tlv ASN_OBJECT_ID (ber_oid (enterprise p)) ++ tlv ASN_IPADDRESS (agent_addr p) ++
     int_ber (trap_type p) ++ int_ber (specific_type p) ++ tlv ASN_TIMETICKS (ber_int (time p mod 2 ^ 32))).
Proof.
  intros [Hw Hl] He Ha Ht. unfold build_trap_fields. rewrite He.
  apply (Builds_bseq _ _ _ _ (asn_build_objid_builds _ _ Hw Hl)).
  apply (Builds_bseq _ _ _ _ (asn_build_string_builds _ _ _ Ha ltac:(lia))).
  apply (Builds_bseq _ _ _ _ (asn_build_int_builds _ _)).
  apply (Builds_bseq _ _ _ _ (asn_build_int_builds _ _)). apply asn_build_unsigned_int_builds, Ht.
Qed.

Lemma build_fields_builds p : fields_ok p -> Builds (fun m d dl => build_fields p m d dl) (fields_ber p).
Proof.
  intros Hp. unfold build_fields, fields_ber, fields_ok in *.
  destruct (Z.eqb_spec (command p) SNMP_MSG_TRAP) as [Hc|Hc]; cbn [negb].
  - destruct (Hp Hc) as (? & ? & ? & ? & ?). by apply build_trap_fields_builds.
  - apply build_request_fields_builds.
Qed.

Lemma build_varbinds_builds ovs :
  Forall vbind_ok ovs ->
  Builds (fun m d dl => build_varbinds (map var_of ovs) m d dl) (varbinds_ber long_frame ovs).
Proof.
  induction 1 as [|[o v] ovs [Ho [Hv _]] _ IH].
  - intros m d dl Hd Hdl Hm. change (varbinds_ber long_frame []) with (@nil Z).
    rewrite decide_True by (change (zlen []) with 0; lia). rewrite patch_nil, zlen_nil.
    by rewrite Z.sub_0_r, Z.add_0_r.
  - rewrite varbinds_ber_cons. apply (Builds_bseq _ _ _ _ (build_var_op_builds o v Ho Hv) IH).
Qed.

Lemma seq_step_builds t n : 0 <= n <= 0xFFFF -> Builds (fun m d dl => asn_build_sequence m d dl t n) (seq_header t n).
Proof. apply asn_build_sequence_builds. Qed.

Lemma zlen_seq_header t n : zlen (seq_header t n) = 4.
Proof. reflexivity. Qed.

Lemma command_u8 p : command p ∈ pdu_commands -> u8 (command p) = command p.
Proof. intros Hc. unfold pdu_commands in Hc. pick_type Hc; reflexivity. Qed.

(** The two headers of a PDU, when everything is in its place. *)
Lemma two_headers_again m d dl t F V {T} (k : list Z -> option T) :
  0 <= d -> d + (8 + zlen F + zlen V) <= zlen m -> 8 + zlen F + zlen V <= dl < 2 ^ 64 ->
  8 + zlen F + zlen V <= 0xFFFF ->
  let cp := d + (4 + (zlen F + (4 + zlen V))) in
  ('(m, length, _) ← asn_build_sequence (patch m d (seq_header t 0 ++ F ++ seq_header 0x30 0 ++ V))
                       (d + (4 + zlen F)) dl 0x30 (u64 (cp - (d + (4 + (zlen F + 4)))));
   '(m, _, _) ← asn_build_sequence m d length t (u64 (cp - (d + 4)));
   k m) = k (patch m d (long_frame t (F ++ long_frame 0x30 V))).
Proof.
  intros Hd Hm Hdl Hsz cp. pose proof (zlen_nonneg F). pose proof (zlen_nonneg V).
  replace (d + (4 + zlen F)) with (d + zlen (seq_header t 0 ++ F)) by (rewrite zlen_app, zlen_seq_header; lia).
  rewrite (app_assoc (seq_header t 0)). rewrite (wrap_small 64 (cp - (d + (4 + (zlen F + 4))))) by lia.
  rewrite (header_again m d dl) by (rewrite ?zlen_app, ?zlen_seq_header; done || lia).
  obind. rewrite <- (app_assoc (seq_header t 0)).
  replace (cp - (d + (4 + (zlen F + 4)))) with (zlen V) by lia.
  pose proof (header_again m d (dl - 4) [] (seq_header t 0) (F ++ seq_header 48 (zlen V) ++ V) t
    (u64 (cp - (d + 4)))) as Hh.
  rewrite app_nil_l, zlen_nil, Z.add_0_r, !zlen_app, !zlen_seq_header in Hh.
  rewrite Hh by first [done|lia|rewrite wrap_small by lia; lia].
  obind. rewrite wrap_small by lia. do 2 f_equal. unfold long_frame.
  replace (cp - (d + 4)) with (zlen (F ++ seq_header 48 (zlen V) ++ V))
    by (rewrite !zlen_app, zlen_seq_header; lia). done.
Qed.

Lemma snmp_pdu_build_builds p ovs :
  command p ∈ pdu_commands -> fields_ok p -> Forall vbind_ok ovs -> variables p = map var_of ovs ->
  zlen (pdu_ber long_frame p ovs) <= 0xFFFF ->
  Builds (fun m d dl => snmp_pdu_build p m d dl) (pdu_ber long_frame p ovs).
Proof.
  intros Hc Hp Ho Hvs Hsz. apply chain_builds. intros m d dl Hd Hdl Hm.
  unfold snmp_pdu_build. rewrite (command_u8 p Hc), Hvs. change (Z.lor ASN_SEQUENCE ASN_CONSTRUCTOR) with 0x30.
  unfold pdu_ber in *. set (t := command p). set (F := fields_ber p) in *. set (V := varbinds_ber long_frame ovs) in *.
  rewrite !zlen_long_frame, zlen_app, zlen_long_frame in Hsz.
  pose proof (zlen_nonneg F). pose proof (zlen_nonneg V).
  set (bs := long_frame t (F ++ long_frame 0x30 V)).
  assert (Hbs : zlen bs = 8 + zlen F + zlen V)
    by (subst bs; rewrite zlen_long_frame, zlen_app, zlen_long_frame; lia).
  apply (bseq_step m d dl Hd Hdl Hm [] (seq_header t 0) _ (fun m d dl => asn_build_sequence m d dl t 0)); [by apply seq_step_builds| | |];
    [change (zlen []) with 0; lia|rewrite zlen_seq_header; change (zlen []) with 0; lia|].
  intros Hf1. apply (bseq_step m d dl Hd Hdl Hm _ F _ (build_fields p)); [by apply build_fields_builds|done|
    rewrite app_nil_l, zlen_seq_header; lia|].
  intros Hf2. apply (bseq_step m d dl Hd Hdl Hm _ (seq_header 0x30 0) _
    (fun m d dl => asn_build_sequence m d dl 0x30 0)); [by apply seq_step_builds|done|
    rewrite zlen_app, app_nil_l, !zlen_seq_header; lia|].
  intros Hf3. apply (bseq_step m d dl Hd Hdl Hm _ V _ (build_varbinds (map var_of ovs))); [by apply build_varbinds_builds|done|
    rewrite !zlen_app, !zlen_seq_header, zlen_nil; lia|].
  intros Hf4. rewrite app_nil_l, <- !app_assoc in *. rewrite !zlen_app, !zlen_seq_header in *.
  rewrite zlen_nil, Z.sub_0_r, Z.add_0_r.
  rewrite (two_headers_again m d dl t F V) by (rewrite ?zlen_app, ?zlen_seq_header; done || lia).
  fold bs. replace (4 + (zlen F + (4 + zlen V))) with (zlen bs) by lia. apply bpost_done. lia.
Qed.

(** A frame around one chain. *)
Lemma framed_builds t f bs k :
  Builds f bs -> zlen bs <= 0xFFFF ->
  (forall m d dl, k m d dl = bseq (asn_build_sequence m d dl t 0) (fun m cp dl1 =>
     bseq (f m cp dl1) (fun m cp' dl2 =>
       '(m, _, _) ← asn_build_sequence m d dl t (u64 (cp' - cp)); Some (m, dl2, Ptr cp')))) ->
  Builds k (long_frame t bs).
Proof.
  intros Hf Hsz Hk. apply chain_builds. intros m d dl Hd Hdl Hm. rewrite Hk. pose proof (zlen_nonneg bs).
  pose proof (zlen_long_frame t bs) as Hz.
  apply (bseq_step m d dl Hd Hdl Hm [] (seq_header t 0) _ (fun m d dl => asn_build_sequence m d dl t 0));
    [by apply seq_step_builds|change (zlen []) with 0; lia|rewrite zlen_seq_header; change (zlen []) with 0; lia|].
  intros Hf1. apply (bseq_step m d dl Hd Hdl Hm _ bs _ f); [done|done|rewrite app_nil_l, zlen_seq_header; lia|].
  intros Hf2. rewrite app_nil_l, zlen_app, zlen_seq_header in *. rewrite zlen_nil, Z.sub_0_r, Z.add_0_r.
  pose proof (header_again m d dl [] (seq_header t 0) bs t (u64 (d + (4 + zlen bs) - (d + 4)))) as Hh.
  rewrite app_nil_l, zlen_nil, Z.add_0_r, zlen_app, zlen_seq_header in Hh.
  rewrite Hh by first [done|lia|rewrite wrap_small by lia; lia]. obind. rewrite wrap_small by lia.
  replace (d + (4 + zlen bs) - (d + 4)) with (zlen bs) by lia. fold (long_frame t bs).
  replace (4 + zlen bs) with (zlen (long_frame t bs)) by lia. apply bpost_done. lia.
Qed.

Lemma bseq_assoc e k1 k2 :
  bseq (bseq e k1) k2 = bseq e (fun m cp dl => bseq (k1 m cp dl) k2).
Proof. unfold bseq. by destruct e as [[[m dl] [|p]]|]. Qed.

Lemma bseq_ext e k1 k2 : (forall m cp dl, k1 m cp dl = k2 m cp dl) -> bseq e k1 = bseq e k2.
Proof. intros H. unfold bseq. destruct e as [[[m dl] [|p]]|]; simpl; auto. Qed.

(** [pdu_ok]: what [_snmp_build] has made sure of, and the application. *)
Definition pdu_ok (p : pdu) (ovs : list vbind) : Prop :=
  command p ∈ pdu_commands /\ fields_ok p /\ Forall vbind_ok ovs /\ variables p = map var_of ovs /\
  bytes (community p) /\ community_len p = zlen (community p).

Lemma build_message_builds p ovs :
  pdu_ok p ovs -> zlen (message_ber long_frame p ovs) <= 0xFFFF ->
  forall m dl, 0 <= dl < 2 ^ 64 -> dl <= zlen m ->
    bpost m 0 dl (message_ber long_frame p ovs) (build_message p m dl).
Proof.
  intros (Hc & Hp & Ho & Hvs & _ & Hcl) Hsz m dl Hdl Hm.
  unfold message_ber in *. rewrite zlen_long_frame, !zlen_app in Hsz.
  pose proof (int_ber_bound (version p)). pose proof (zlen_nonneg (tlv ASN_OCTET_STR (community p))).
  pose proof (zlen_nonneg (pdu_ber long_frame p ovs)).
  assert (Hcm : zlen (community p) <= 0xFFFF).
  { rewrite zlen_tlv in *. pose proof (zlen_nonneg (ber_length (zlen (community p)))). lia. }
  assert (Hb : Builds (fun m d dl =>
      bseq (asn_build_int m d dl ASN_INTEGER (version p) sizeof_long) (fun m cp dl =>
      bseq (asn_build_string m cp dl ASN_OCTET_STR (Some (community p)) (community_len p)) (snmp_pdu_build p)))
    (int_ber (version p) ++ tlv ASN_OCTET_STR (community p) ++ pdu_ber long_frame p ovs)).
  { apply (Builds_bseq _ _ _ _ (asn_build_int_builds _ _)).
    apply (Builds_bseq _ _ _ _ (asn_build_string_builds _ _ _ (eq_sym Hcl) ltac:(lia))).
    apply snmp_pdu_build_builds; done || lia. }
  epose proof (framed_builds 0x30 _ _ _ Hb) as HK. rewrite !zlen_app in HK.
  specialize (HK ltac:(lia) (fun m d dl => eq_refl) m 0 dl ltac:(lia) Hdl ltac:(lia)).
  refine (eq_rect _ (bpost m 0 dl _) HK _ _). apply bseq_ext. intros m1 cp1 dl1.
  rewrite bseq_assoc. apply bseq_ext. intros m2 cp2 dl2. by rewrite bseq_assoc.
Qed.

(** * Backwards

    The builder of the header of the list of variables may fail unnoticed, so
    what a message looks like is stated for an allocator that serves its
    requests; that nothing is touched outside the buffer holds for any. *)
Section backwards.
Context {A : Allocator}.

Definition wpost (s : rstate) (bs : list Z) (res : rres) : Prop :=
  exists s' ok, res = Some (s', ok) /\ rwf s' /\
    (grows (offset s + zlen bs + 8192) -> ok = true /\ written s' = bs ++ written s).

(** A chain that is to write [bs] has come to [s1] with [pre] written. *)
Definition wmid (s : rstate) (bs pre : list Z) (s1 : rstate) : Prop :=
  rwf s1 /\ (grows (offset s + zlen bs + 8192) -> written s1 = pre ++ written s).

Section chain.
Context (s : rstate) (bs : list Z) (Hs : rwf s).
Abbreviation served := (grows (offset s + zlen bs + 8192)).

Lemma wmid_start : wmid s bs [] s.
Proof. done. Qed.

Lemma wmid_offset pre s1 : wmid s bs pre s1 -> served -> offset s1 = offset s + zlen pre.
Proof. intros [Hs1 Hw] HG. rewrite <- !zlen_written, Hw, zlen_app by done. lia. Qed.

(** What one builder does to a chain, noticed or not. *)
Lemma wmid_step pre b b0 s1 e :
  wmid s bs pre s1 -> rpost true s1 b e -> (served -> b = b0) -> zlen b0 + zlen pre <= zlen bs ->
  exists s2 ok, e = Some (s2, ok) /\ wmid s bs (b0 ++ pre) s2 /\ (served -> ok = true).
Proof.
  intros Hm (s2 & ok & -> & Hs2 & _ & _ & Hok) Hb Hsz. exists s2, ok. split; [done|].
  assert (Hgood : served -> ok = true /\ written s2 = (b0 ++ pre) ++ written s).
  { intros HG. pose proof (wmid_offset pre s1 Hm HG) as Ho. destruct Hm as [_ Hw]. rewrite (Hb HG) in *. destruct ok.
    - split; [done|]. by rewrite Hok, Hw, app_assoc.
    - destruct Hok as (_ & Hng & _). exfalso. apply Hng; [done|]. eapply grows_mono; [|exact HG]. lia. }
  split_and!; [split; [done|intros HG; by apply Hgood]|intros HG; by apply Hgood].
Qed.

Lemma wseq_step pre b b0 s1 e k :
  wmid s bs pre s1 -> rpost true s1 b e -> (served -> b = b0) -> zlen b0 + zlen pre <= zlen bs ->
  (forall s2, wmid s bs (b0 ++ pre) s2 -> wpost s bs (k s2)) -> wpost s bs (rseq e k).
Proof.
  intros Hm He Hb Hsz Hk. destruct (wmid_step pre b b0 s1 e Hm He Hb Hsz) as (s2 & ok & -> & Hm2 & Hok).
  unfold rseq. obind. destruct ok; [by apply Hk|]. destruct Hm2 as [Hs2 _].
  exists s2, false. split_and!; [done|done|]. intros HG. by apply Hok in HG.
Qed.

Lemma wseq_last pre b b0 s1 e :
  wmid s bs pre s1 -> rpost true s1 b e -> (served -> b = b0) -> bs = b0 ++ pre -> wpost s bs e.
Proof.
  intros Hm He Hb Hbs. destruct (wmid_step pre b b0 s1 e Hm He Hb) as (s2 & ok & -> & [Hs2 Hw] & Hok).
  { rewrite Hbs, zlen_app. lia. }
  exists s2, ok. split_and!; [done|done|]. intros HG. rewrite Hbs at 1. auto.
Qed.

(** The header of a frame: the length is what was added since the start. *)
Lemma header_len pre s1 t c : wmid s bs (c ++ pre) s1 -> zlen (c ++ pre) < 2 ^ 62 ->
  served -> t :: ber_length (u64 (offset s1 - (offset s + zlen pre))) = t :: ber_length (zlen c).
Proof.
  intros Hm Hz HG. rewrite (wmid_offset _ _ Hm HG). rewrite zlen_app in *.
  pose proof (zlen_nonneg c). pose proof (zlen_nonneg pre). rewrite wrap_small by lia. do 2 f_equal. lia.
Qed.

Lemma rbuild_list_step l : forall pre s1 k,
  Forall vbind_ok l -> wmid s bs pre s1 -> zlen (varbinds_ber tlv (reverse l)) + zlen pre <= zlen bs ->
  (forall s2, wmid s bs (varbinds_ber tlv (reverse l) ++ pre) s2 -> wpost s bs (k s2)) ->
  wpost s bs (rseq (rbuild_list (rbuild_var true) (map var_of l) s1) k).
Proof.
  induction l as [|[o v] l IH]; intros pre s1 k Hok Hm Hsz Hk.
  - unfold rseq. simpl. by apply Hk.
  - apply Forall_cons_1 in Hok as [[Ho [Hv _]] Hok]. rewrite reverse_cons, varbinds_ber_app in *.
    assert (Hone : varbinds_ber tlv [(o, v)] = tlv 0x30 (binding o v)) by apply app_nil_r.
    rewrite Hone in *. rewrite zlen_app in Hsz. pose proof (zlen_nonneg (varbinds_ber tlv (reverse l))).
    cbn [map rbuild_list]. rewrite rseq_flatten.
    apply (wseq_step pre (tlv 0x30 (binding o v)) (tlv 0x30 (binding o v)) s1); [exact Hm| |done|lia|].
    { apply (rbuild_var_op_rbuilds o v Ho Hv). apply Hm. }
    intros s2 Hm2. apply (IH _ _ _ Hok Hm2); [rewrite zlen_app; lia|].
    intros s3 Hm3. apply Hk. by rewrite <- app_assoc.
Qed.
End chain.

Section pdu.
Context (s : rstate) (bs : list Z) (Hs : rwf s).

Lemma rint_step x pre s1 k :
  wmid s bs pre s1 -> zlen (int_ber x) + zlen pre <= zlen bs ->
  (forall s2, wmid s bs (int_ber x ++ pre) s2 -> wpost s bs (k s2)) ->
  wpost s bs (rseq (asn_realloc_rbuild_int true ASN_INTEGER x sizeof_long s1) k).
Proof.
  intros Hm Hsz Hk. apply (wseq_step s bs Hs pre (int_ber x) (int_ber x) s1); [done| |done|done|done].
  apply (asn_realloc_rbuild_int_rbuilds ASN_INTEGER x). apply Hm.
Qed.

Lemma rbuild_fields_step p pre s1 k :
  fields_ok p -> wmid s bs pre s1 -> zlen (fields_ber p) + zlen pre <= zlen bs ->
  (forall s2, wmid s bs (fields_ber p ++ pre) s2 -> wpost s bs (k s2)) ->
  wpost s bs (rseq (rbuild_fields p s1) k).
Proof.
  intros Hp Hm Hsz Hk. unfold rbuild_fields, fields_ber, fields_ok in *.
  destruct (Z.eqb_spec (command p) SNMP_MSG_TRAP) as [Hc|Hc]; cbn [negb].
  - destruct (Hp Hc) as ([Hw Hl] & He & _ & Ha & Ht). unfold MAX_OID_LEN in Hl. unfold rbuild_trap_fields.
    rewrite !zlen_app in Hsz. set (T := tlv ASN_TIMETICKS _) in *. set (I := tlv ASN_IPADDRESS _) in *.
    set (O := tlv ASN_OBJECT_ID _) in *. pose proof (zlen_nonneg T). pose proof (zlen_nonneg I).
    pose proof (zlen_nonneg O). pose proof (zlen_nonneg (int_ber (trap_type p))).
    pose proof (zlen_nonneg (int_ber (specific_type p))). rewrite rseq_flatten.
    apply (wseq_step s bs Hs pre T T s1); [done| |done|lia|].
    { apply (asn_realloc_rbuild_unsigned_int_rbuilds ASN_TIMETICKS (time p)); [apply Ht|apply Hm]. }
    intros s2 Hm2. rewrite rseq_flatten. apply (rint_step _ (T ++ pre)); [done|rewrite zlen_app; lia|].
    intros s3 Hm3. rewrite rseq_flatten. eapply rint_step; [exact Hm3|rewrite !zlen_app; lia|].
    intros s4 Hm4. rewrite rseq_flatten.
    eapply (wseq_step s bs Hs _ I I s4); [exact Hm4| |done|rewrite !zlen_app; lia|].
    { apply (asn_realloc_rbuild_string_rbuilds ASN_IPADDRESS (agent_addr p) 4); [done|lia|apply Hm4]. }
    intros s5 Hm5. eapply (wseq_step s bs Hs _ O O s5); [exact Hm5| |done|rewrite !zlen_app; lia|].
    { rewrite He. apply (asn_realloc_rbuild_objid_rbuilds ASN_OBJECT_ID (enterprise p)); [done|lia|apply Hm5]. }
    intros s6 Hm6. apply Hk. by rewrite <- !app_assoc.
  - unfold rbuild_request_fields. rewrite !zlen_app in Hsz. pose proof (zlen_nonneg (int_ber (reqid p))).
    pose proof (zlen_nonneg (int_ber (errstat p))). pose proof (zlen_nonneg (int_ber (errindex p))).
    rewrite rseq_flatten. eapply rint_step; [exact Hm|lia|].
    intros s2 Hm2. rewrite rseq_flatten. eapply rint_step; [exact Hm2|rewrite !zlen_app; lia|].
    intros s3 Hm3. eapply rint_step; [exact Hm3|rewrite !zlen_app; lia|].
    intros s4 Hm4. apply Hk. by rewrite <- !app_assoc.
Qed.

(** The header of a frame in front of its contents [c]. *)
Lemma rheader_step t c s1 :
  wmid s bs c s1 -> zlen c <= 0x7fffffff ->
  rpost true s1 (t :: ber_length (u64 (offset s1 - offset s)))
    (asn_realloc_rbuild_sequence true t (u64 (offset s1 - offset s)) s1) /\
  (grows (offset s + zlen bs + 8192) ->
   t :: ber_length (u64 (offset s1 - offset s)) = t :: ber_length (zlen c)) /\
  zlen (t :: ber_length (zlen c)) + zlen c = zlen (tlv t c).
Proof.
  intros Hm Hc. split_and!.
  - apply (asn_realloc_rbuild_sequence_rbuilds t); [apply wrap_range; lia|apply Hm].
  - intros HG. pose proof (header_len s bs Hs [] s1 t c) as Hl. rewrite app_nil_r, zlen_nil, Z.add_0_r in Hl.
    apply Hl; [done|lia|done].
  - rewrite zlen_tlv, zlen_cons. lia.
Qed.

Lemma rbuild_pdu_step p ovs k :
  command p ∈ pdu_commands -> fields_ok p -> Forall vbind_ok ovs -> variables p = map var_of ovs ->
  zlen (pdu_ber tlv p ovs) <= zlen bs -> zlen bs <= 0x7fffffff ->
  (forall s2, wmid s bs (pdu_ber tlv p ovs) s2 -> wpost s bs (k s2)) ->
  wpost s bs (rseq (snmp_pdu_realloc_rbuild p s) k).
Proof.
  intros Hc Hp Ho Hvs Hsz Hlim Hk. unfold snmp_pdu_realloc_rbuild.
  rewrite rbuild_varbinds_list, Hvs, rseq_flatten, (command_u8 p Hc). change (Z.lor ASN_SEQUENCE ASN_CONSTRUCTOR) with 0x30.
  change (reverse (map var_of ovs)) with (reverse (var_of <$> ovs)). rewrite <- fmap_reverse.
  change (var_of <$> reverse ovs) with (map var_of (reverse ovs)).
  unfold pdu_ber in *. set (F := fields_ber p) in *. set (V := varbinds_ber tlv ovs) in *.
  pose proof (zlen_nonneg F). pose proof (zlen_nonneg V).
  pose proof (zlen_tlv (command p) (F ++ tlv 0x30 V)) as Hz1. pose proof (zlen_tlv 0x30 V) as Hz2.
  rewrite zlen_app in Hz1. pose proof (zlen_nonneg (ber_length (zlen V))).
  pose proof (zlen_nonneg (ber_length (zlen F + zlen (tlv 0x30 V)))).
  apply (rbuild_list_step s bs Hs (reverse ovs) [] s); [by apply Forall_reverse|by apply wmid_start| |].
  { rewrite reverse_involutive. fold V. change (zlen []) with 0. lia. }
  rewrite reverse_involutive, app_nil_r. fold V. intros s1 Hm1.
  destruct (rheader_step 0x30 V s1 Hm1 ltac:(lia)) as (He & Hb & Hl).
  destruct (wmid_step s bs Hs _ _ _ s1 _ Hm1 He Hb ltac:(lia)) as (s2 & ok & -> & Hm2 & _). obind.
  rewrite rseq_flatten. apply (rbuild_fields_step p (tlv 0x30 V) s2); [done|exact Hm2|fold F; lia|].
  fold F. intros s3 Hm3.
  destruct (rheader_step (command p) (F ++ tlv 0x30 V) s3 Hm3) as (He3 & Hb3 & Hl3); [rewrite zlen_app; lia|].
  eapply (wseq_step s bs Hs _ _ _ s3); [exact Hm3|exact He3|exact Hb3|lia|]. exact Hk.
Qed.
End pdu.

(** The whole message: memory is safe whatever the allocator does, and the
    encoding is right when it serves the requests. *)
Lemma rbuild_message_post p ovs s :
  pdu_ok p ovs -> rwf s -> zlen (message_ber tlv p ovs) <= 0x7fffffff ->
  wpost s (message_ber tlv p ovs) (rbuild_message p s).
Proof.
  intros (Hc & Hp & Ho & Hvs & _ & Hcl) Hs Hsz. unfold rbuild_message. rewrite Hcl.
  change (Z.lor ASN_SEQUENCE ASN_CONSTRUCTOR) with 0x30. set (bs := message_ber tlv p ovs) in *.
  set (P := pdu_ber tlv p ovs). set (C := tlv ASN_OCTET_STR (community p)). set (V := int_ber (version p)).
  pose proof (zlen_nonneg P). pose proof (zlen_nonneg C). pose proof (int_ber_bound (version p)). fold V in H1.
  assert (Hbs : zlen bs = 1 + zlen (ber_length (zlen (V ++ C ++ P))) + (zlen V + (zlen C + zlen P)))
    by (subst bs; unfold message_ber; rewrite zlen_tlv, !zlen_app; done).
  pose proof (zlen_nonneg (ber_length (zlen (V ++ C ++ P)))).
  assert (Hcm : zlen (community p) < 2 ^ 63).
  { subst C. rewrite zlen_tlv in *. pose proof (zlen_nonneg (ber_length (zlen (community p)))). lia. }
  apply (rbuild_pdu_step s bs Hs p ovs); [done..|fold P; lia|done|]. fold P. intros s1 Hm1.
  apply (wseq_step s bs Hs P C C s1); [done| |done|lia|].
  { apply (asn_realloc_rbuild_string_rbuilds ASN_OCTET_STR (community p)); [done|done|apply Hm1]. }
  intros s2 Hm2. apply (rint_step s bs Hs (version p) (C ++ P) s2); [done|rewrite zlen_app; fold V; lia|].
  fold V. intros s3 Hm3.
  destruct (rheader_step s bs Hs 0x30 (V ++ C ++ P) s3 Hm3) as (He3 & Hb3 & Hl3); [rewrite !zlen_app; lia|].
  eapply (wseq_last s bs Hs _ _ _ s3); [exact Hm3|exact He3|exact Hb3|done].
Qed.

(** ** What is written when the allocator fails

    Every builder but one is looked at, so either the message is refused or all
    its parts are there, but for the header of the list of variables. *)

(** A chain ends in [P], if it is not refused. *)
Definition ends (P : rstate -> Prop) (res : rres) : Prop :=
  exists s' ok, res = Some (s', ok) /\ rwf s' /\ ((ok : bool) = true -> P s').

Lemma ends_seq P s b e k : rpost true s b e -> (forall s1, rwf s1 -> written s1 = b ++ written s -> ends P (k s1)) -> ends P (rseq e k).
Proof.
  intros (s1 & ok & -> & Hs1 & _ & _ & Hok) Hk. unfold rseq. obind. destruct ok; [by apply Hk|]. by exists s1, false.
Qed.

Lemma ends_last (P : rstate -> Prop) s b e : rpost true s b e -> (forall s1, rwf s1 -> written s1 = b ++ written s -> P s1) -> ends P e.
Proof. intros H HP. rewrite <- (rseq_ret e). eapply ends_seq; [exact H|]. intros s1 Hs1 Hw. exists s1, true. auto. Qed.

Lemma ends_int P x s k : rwf s -> (forall s1, rwf s1 -> written s1 = int_ber x ++ written s -> ends P (k s1)) ->
  ends P (rseq (asn_realloc_rbuild_int true ASN_INTEGER x sizeof_long s) k).
Proof. intros Hs. apply ends_seq. by apply (asn_realloc_rbuild_int_rbuilds ASN_INTEGER x). Qed.

Lemma ends_list P l : forall s k, Forall vbind_ok l -> rwf s ->
  (forall s1, rwf s1 -> written s1 = varbinds_ber tlv (reverse l) ++ written s -> ends P (k s1)) ->
  ends P (rseq (rbuild_list (rbuild_var true) (map var_of l) s) k).
Proof.
  induction l as [|[o v] l IH]; intros s k Hok Hs Hk; [by apply Hk|].
  apply Forall_cons_1 in Hok as [[Ho [Hv _]] Hok]. cbn [map rbuild_list]. rewrite rseq_flatten.
  eapply ends_seq; [by apply (rbuild_var_op_rbuilds o v Ho Hv)|]. intros s1 Hs1 Hw1. apply IH; [done|done|].
  intros s2 Hs2 Hw2. apply Hk; [done|]. rewrite Hw2, Hw1, reverse_cons, varbinds_ber_app, <- app_assoc. f_equal.
  change (varbinds_ber tlv [(o, v)]) with (tlv 0x30 (binding o v) ++ []). by rewrite app_nil_r.
Qed.

Lemma ends_fields P p s k : fields_ok p -> rwf s ->
  (forall s1, rwf s1 -> written s1 = fields_ber p ++ written s -> ends P (k s1)) -> ends P (rseq (rbuild_fields p s) k).
Proof.
  intros Hp Hs Hk. unfold rbuild_fields, fields_ber, fields_ok in *.
  destruct (Z.eqb_spec (command p) SNMP_MSG_TRAP) as [Hc|Hc]; cbn [negb].
  - destruct (Hp Hc) as ([Hw Hl] & He & _ & Ha & Ht). unfold MAX_OID_LEN in Hl. unfold rbuild_trap_fields. rewrite rseq_flatten.
    eapply ends_seq; [apply (asn_realloc_rbuild_unsigned_int_rbuilds ASN_TIMETICKS (time p)); [apply Ht|done]|]. intros s1 Hs1 H1.
    rewrite rseq_flatten. apply ends_int; [done|]. intros s2 Hs2 H2. rewrite rseq_flatten. apply ends_int; [done|]. intros s3 Hs3 H3.
    rewrite rseq_flatten. eapply ends_seq; [apply (asn_realloc_rbuild_string_rbuilds ASN_IPADDRESS (agent_addr p) 4); [done|lia|done]|]. intros s4 Hs4 H4.
    eapply ends_seq; [rewrite He; apply (asn_realloc_rbuild_objid_rbuilds ASN_OBJECT_ID (enterprise p)); [done|lia|done]|]. intros s5 Hs5 H5.
    apply Hk; [done|]. by rewrite H5, H4, H3, H2, H1, <- !app_assoc.
  - unfold rbuild_request_fields. rewrite rseq_flatten. apply ends_int; [done|]. intros s1 Hs1 H1.
    rewrite rseq_flatten. apply ends_int; [done|]. intros s2 Hs2 H2. apply ends_int; [done|]. intros s3 Hs3 H3.
    apply Hk; [done|]. by rewrite H3, H2, H1, <- !app_assoc.
Qed.

(** The length of what was written since the start. *)
Lemma written_length s s1 c : rwf s -> offset s = 0 -> rwf s1 -> written s1 = c -> u64 (offset s1 - offset s) = zlen c.
Proof.
  intros Hs Ho Hs1 Hw. rewrite <- Hw, zlen_written, Ho by done. destruct Hs1 as (_ & ? & ?). rewrite Z.sub_0_r. apply wrap_small. lia.
Qed.

(** What stands before the list of variables: its header, or what was written of
    it before the allocator failed. *)
Definition list_header (ovs : list vbind) (h : list Z) : Prop :=
  h = 0x30 :: ber_length (zlen (varbinds_ber tlv ovs)) \/
  exists s1 s2, written s1 = varbinds_ber tlv ovs /\ written s2 = h ++ varbinds_ber tlv ovs /\
    asn_realloc_rbuild_sequence true 0x30 (zlen (varbinds_ber tlv ovs)) s1 = Some (s2, false).

(** The message with [h] in the place of that header. *)
Definition message_with (p : pdu) (ovs : list vbind) (h : list Z) : list Z :=
  tlv 0x30 (int_ber (version p) ++ tlv ASN_OCTET_STR (community p) ++
            tlv (command p) (fields_ber p ++ h ++ varbinds_ber tlv ovs)).

Lemma message_with_header p ovs : message_with p ovs (0x30 :: ber_length (zlen (varbinds_ber tlv ovs))) = message_ber tlv p ovs.
Proof. reflexivity. Qed.

(** A header in front of what was written since the start. *)
Lemma ends_header s s1 t c : rwf s -> offset s = 0 -> rwf s1 -> written s1 = c ->
  rpost true s1 (t :: ber_length (zlen c)) (asn_realloc_rbuild_sequence true t (u64 (offset s1 - offset s)) s1).
Proof.
  intros Hs Ho Hs1 Hw. rewrite (written_length s s1 c) by done.
  apply (asn_realloc_rbuild_sequence_rbuilds t); [|done]. rewrite <- Hw, zlen_written by done. destruct Hs1 as (_ & ? & ?). lia.
Qed.

Lemma rbuild_pdu_ends P p ovs s k :
  command p ∈ pdu_commands -> fields_ok p -> Forall vbind_ok ovs -> variables p = map var_of ovs -> rwf s -> offset s = 0 ->
  (forall s1 h, rwf s1 -> list_header ovs h -> written s1 = tlv (command p) (fields_ber p ++ h ++ varbinds_ber tlv ovs) -> ends P (k s1)) ->
  ends P (rseq (snmp_pdu_realloc_rbuild p s) k).
Proof.
  intros Hc Hp Ho Hvs Hs Hz Hk. unfold snmp_pdu_realloc_rbuild.
  assert (Hw0 : written s = []) by (apply length_zero_iff_nil; pose proof (zlen_written s Hs); unfold zlen in *; lia).
  rewrite rbuild_varbinds_list, Hvs, rseq_flatten, (command_u8 p Hc). change (Z.lor ASN_SEQUENCE ASN_CONSTRUCTOR) with 0x30.
  change (reverse (map var_of ovs)) with (reverse (var_of <$> ovs)). rewrite <- fmap_reverse.
  change (var_of <$> reverse ovs) with (map var_of (reverse ovs)). apply ends_list; [by apply Forall_reverse|done|].
  rewrite reverse_involutive, Hw0, app_nil_r. set (V := varbinds_ber tlv ovs). intros s1 Hs1 Hw1.
  destruct (ends_header s s1 0x30 V Hs Hz Hs1 Hw1) as (s2 & ok & He & Hs2 & _ & _ & Hok).
  assert (exists h, list_header ovs h /\ written s2 = h ++ V) as (h & Hh & Hw2).
  { destruct ok; [eexists; split; [by left|by rewrite Hok, Hw1]|]. destruct Hok as (_ & _ & h & Hw2). rewrite Hw1 in Hw2.
    exists h. split; [|done]. right. exists s1, s2. fold V. by rewrite <- (written_length s s1 V). }
  rewrite He. obind. rewrite rseq_flatten. apply ends_fields; [done|done|]. intros s3 Hs3 Hw3. rewrite Hw2 in Hw3.
  eapply ends_seq; [by apply (ends_header s s3 _ (fields_ber p ++ h ++ V))|]. intros s4 Hs4 Hw4.
  apply (Hk s4 h); [done|done|]. rewrite Hw4, Hw3. reflexivity.
Qed.

Lemma community_fits p ovs n : zlen (message_ber tlv p ovs) <= n -> zlen (community p) < n + 1.
Proof.
  unfold message_ber. rewrite zlen_tlv, !zlen_app, (zlen_tlv ASN_OCTET_STR). pose proof (zlen_nonneg (int_ber (version p))).
  pose proof (zlen_nonneg (pdu_ber tlv p ovs)). pose proof (zlen_nonneg (ber_length (zlen (community p)))).
  match goal with |- context [1 + zlen (ber_length ?x) + _] => pose proof (zlen_nonneg (ber_length x)) end. lia.
Qed.

(** A message that is not refused has all its parts. *)
Lemma rbuild_message_ends p ovs s : pdu_ok p ovs -> rwf s -> offset s = 0 -> zlen (community p) < 2 ^ 63 ->
  ends (fun s' => exists h, list_header ovs h /\ written s' = message_with p ovs h) (rbuild_message p s).
Proof.
  intros (Hc & Hp & Ho & Hvs & _ & Hcl) Hs Hz Hcm. unfold rbuild_message. rewrite Hcl.
  change (Z.lor ASN_SEQUENCE ASN_CONSTRUCTOR) with 0x30.
  apply (rbuild_pdu_ends _ p ovs); [done..|]. intros s1 h Hs1 Hh Hw1.
  eapply ends_seq; [by apply (asn_realloc_rbuild_string_rbuilds ASN_OCTET_STR (community p))|]. intros s2 Hs2 Hw2.
  apply ends_int; [done|]. intros s3 Hs3 Hw3. rewrite Hw2, Hw1 in Hw3.
  eapply ends_last; [by apply (ends_header s s3 0x30 _ Hs Hz Hs3 Hw3)|]. intros s4 Hs4 Hw4. exists h. split; [done|].
  rewrite Hw4, Hw3. reflexivity.
Qed.
End backwards.
