(* ===== verification/PduParseProps.v ===== *)
(** The parser of PDUs on what the builders send: every binding and every field
    arrives. *)
From Stdlib Require Import ZArith Lia.
From S2P Require Import Prelude Oid Asn1Defs SnmpDefs Ber Asn1Parse Asn1ParseProps Asn1ParseWide Asn1Build.
From S2P Require Import Asn1BuildProps Asn1RBuild Asn1RBuildProps SnmpVar SnmpVarProps Codec Pdu Message PduSpec.

Lemma take_patch_front (n : nat) m bs : n = length bs -> zlen bs <= zlen m -> take n (patch m 0 bs) = bs.
Proof.
  intros -> Hm. unfold patch. change (take (Z.to_nat 0) m) with (@nil Z). rewrite app_nil_l.
  apply take_app_length.
Qed.

Lemma zlen_patch_front m bs : zlen bs <= zlen m -> zlen (patch m 0 bs) = zlen m.
Proof. intros. by apply zlen_patch. Qed.

Lemma patch_front_all m bs : zlen bs = zlen m -> patch m 0 bs = bs.
Proof.
  intros Hz. unfold patch. change (take (Z.to_nat 0) m) with (@nil Z). rewrite app_nil_l.
  rewrite drop_ge by (unfold zlen in *; lia). apply app_nil_r.
Qed.

Lemma peek_n_front m bs n : n = zlen bs -> zlen bs <= zlen m -> peek_n (patch m 0 bs) 0 n = Some bs.
Proof. intros -> Hm. apply holds_peek_n. apply patch_holds; unfold zlen in *; lia. Qed.

Lemma zlen_oid_image o : zlen (oid_image o) = 8 * zlen o.
Proof. unfold zlen. rewrite oid_image_length. lia. Qed.

Lemma read_u64_total p off : 0 <= off -> off + 8 <= zlen p -> is_Some (read_u64 p off).
Proof.
  intros Ho Hz. unfold read_u64, zlen in *. destruct (peek_n_total p off 8) as (bs & -> & _); [lia..|]. by eexists.
Qed.

Lemma oid_array_length p : length (oid_array p) = (length p / 8)%nat.
Proof.
  unfold oid_array. generalize (length p / 8)%nat as n. intros n. revert p.
  induction n as [|n IH]; intros p; [done|]. simpl. by rewrite IH.
Qed.

Section parse.
Context {A : Allocator}.

(** ** Memory *)

Lemma malloc_total L n : grows L -> 0 <= n < L -> exists b, malloc n = Some b /\ zlen b = n.
Proof.
  intros HG Hn. destruct (HG [] n ltac:(change (zlen []) with 0; lia)) as [b Hb].
  exists b. split; [exact Hb|]. apply (realloc_size _ _ _ Hb).
Qed.

Lemma malloc_size n b : malloc n = Some b -> zlen b = n.
Proof. intros Hb. apply (realloc_size _ _ _ Hb). Qed.

(** A fresh variable: its two arrays are there, their contents are anything. *)
Lemma fresh_variable_total vb :
  zlen vb = sizeof_variable_list ->
  exists t len name_loc buf, fresh_variable vb = Some (mkvariable [] MAX_OID_LEN t [] len, name_loc, buf) /\
    zlen name_loc = MAX_OID_LEN /\ zlen buf = sizeof_buf.
Proof.
  unfold sizeof_variable_list, fresh_variable, offset_type, offset_val_len, offset_name_loc, sizeof_name_loc,
    offset_buf, sizeof_buf. intros Hz. unfold zlen in *.
  destruct (peek_in_range vb 24) as [t ->]; [lia|]. obind.
  destruct (read_u64_total vb 40) as [len ->]; [lia|unfold zlen; lia|]. obind.
  destruct (peek_n_total vb 48 1024) as (nl & -> & Hnl); [lia..|]. obind.
  destruct (peek_n_total vb 1072 40) as (buf & -> & Hbuf); [lia..|]. obind.
  exists t, len, (oid_array nl), buf. split_and!; [done| |done].
  rewrite oid_array_length. replace (length nl) with (128 * 8)%nat by lia. by rewrite Nat.div_mul.
Qed.

Lemma snmp_set_var_objid_spec vp name_loc objid n o :
  zlen name_loc = MAX_OID_LEN -> 0 <= n <= MAX_OID_LEN -> peek_n objid 0 n = Some o -> zlen o = n ->
  snmp_set_var_objid vp name_loc objid n =
  Some (Some (mkvariable (patch name_loc 0 o) n (vp_type vp) (vp_val vp) (vp_val_len vp))).
Proof.
  unfold MAX_OID_LEN. intros Hl Hn Ho Hz. unfold snmp_set_var_objid, sizeof_oid, sizeof_name_loc.
  rewrite wrap_small by lia. rewrite (proj2 (Z.leb_le _ _)) by lia. obind. rewrite Ho. obind.
  by rewrite poke_n_zlen by lia.
Qed.

(** ** Values *)

(** The place of a value on the wire, with the facts the parsers ask for. *)
Lemma value_tlv_at m p t c :
  holds m p (tlv t c) -> bytes c -> zlen c <= 0x8000 -> tlv_at m p t c MAX_PACKET_LENGTH.
Proof.
  intros Hh Hb Hc. apply tlv_at_intro; try done; [lia|]. unfold MAX_PACKET_LENGTH.
  pose proof (zlen_tlv_bound t c 0x8000 ltac:(lia)). lia.
Qed.

Lemma value_opaque_at m p t c :
  holds m p (opaque_tlv t c) -> is_byte t -> bytes c -> zlen c <= 9 -> opaque_at m p t c MAX_PACKET_LENGTH.
Proof.
  intros Hh Ht Hb Hc. apply opaque_at_intro; try done. destruct (zlen_opaque t c Hc) as [_ ->].
  unfold MAX_PACKET_LENGTH. pose proof (zlen_nonneg c). lia.
Qed.

Lemma in_buf_spec {T} (s : pout T) p image len vp objid buf :
  zlen (image (out s)) <= zlen buf ->
  in_buf (Some (s, Ptr p)) image len vp objid buf =
  Some (set_value (type s) (patch buf 0 (image (out s))) len vp, objid, Parsed).
Proof. intros Hz. unfold in_buf. obind. by rewrite poke_n_zlen. Qed.

(** What the [switch] leaves behind for a value [w]. *)
Definition value_stored (w : value) (vp : variable) (res : option (variable * list Z * outcome)) : Prop :=
  exists val objid, res = Some (set_value (vtype w) val (vlen w) vp, objid, Parsed) /\
    zlen objid = MAX_OID_LEN /\ take (length (vimage w)) val = vimage w.

Lemma in_buf_stored {T} (s : pout T) p image len vp objid buf w :
  zlen objid = MAX_OID_LEN -> zlen buf = sizeof_buf -> type s = vtype w -> image (out s) = vimage w ->
  len = vlen w -> vlen w <= 40 -> value_stored w vp (in_buf (Some (s, Ptr p)) image len vp objid buf).
Proof.
  unfold sizeof_buf, vlen. intros Ho Hb Ht Hi -> Hl. rewrite in_buf_spec by (rewrite Hi; lia).
  rewrite Ht, Hi. eexists _, objid. split_and!; [done|done|]. apply take_patch_front; [done|lia].
Qed.

Lemma read_long_total buf : zlen buf = sizeof_buf -> is_Some (read_long buf).
Proof.
  unfold sizeof_buf. intros Hb. unfold read_long.
  destruct (read_u64_total buf 0) as [x ->]; [lia|lia|]. by eexists.
Qed.

Lemma read_counter64_total buf : zlen buf = sizeof_buf -> is_Some (read_counter64 buf).
Proof.
  unfold sizeof_buf. intros Hb. unfold read_counter64.
  destruct (read_u64_total buf 0) as [x ->]; [lia|lia|]. obind.
  destruct (read_u64_total buf 8) as [y ->]; [lia|lia|]. by eexists.
Qed.

Lemma read_float_total buf : zlen buf = sizeof_buf -> is_Some (read_float buf).
Proof.
  unfold sizeof_buf, zlen. intros Hb. unfold read_float.
  destruct (peek_n_total buf 0 4) as (bs & -> & _); [lia..|]. by eexists.
Qed.

Section value.
Context (m : list Z) (p : Z) (vp : variable) (objid buf : list Z).
Context (Hobjid : zlen objid = MAX_OID_LEN) (Hbuf : zlen buf = sizeof_buf).

Lemma parse_value_int x :
  vp_type vp = ASN_INTEGER -> holds m p (int_ber x) ->
  value_stored (received (VInt x)) vp (parse_value m p vp objid buf).
Proof.
  intros Ht Hh. unfold parse_value. rewrite Ht. eval_types. pose proof (int_ber_bound x).
  destruct (read_long_total buf Hbuf) as [x0 ->]. obind.
  rewrite (int_ber_holds_parse m p _ x) by (cbn [datalength]; unfold MAX_PACKET_LENGTH; done || lia).
  by apply in_buf_stored.
Qed.

Lemma parse_value_uns t x :
  t ∈ [ASN_GAUGE; ASN_COUNTER; ASN_TIMETICKS; ASN_UINTEGER] -> vp_type vp = t -> u64_ok x ->
  holds m p (tlv t (ber_int (x mod 2 ^ 32))) ->
  value_stored (received (VUns t x)) vp (parse_value m p vp objid buf).
Proof.
  intros Ht Hvt Hx Hh. unfold parse_value. rewrite Hvt. pose proof (Z.mod_pos_bound x (2 ^ 32) ltac:(lia)) as Hr.
  assert (Hsel : (t =? ASN_INTEGER) = false /\ is_one_of t [ASN_COUNTER; ASN_GAUGE; ASN_TIMETICKS; ASN_UINTEGER] = true)
    by by pick_type Ht.
  destruct Hsel as [-> ->]. cbv iota.
  destruct (read_u64_total buf 0) as [x0 ->]; [lia|unfold sizeof_buf in Hbuf; lia|]. obind.
  pose proof (ber_int_size (x mod 2 ^ 32) 8 ltac:(lia) ltac:(unfold fits; lia)) as Hz.
  rewrite (parse_built_uint m p _ t (x mod 2 ^ 32)); try done.
  - by apply in_buf_stored.
  - cbn [datalength]. unfold MAX_PACKET_LENGTH. pose proof (zlen_tlv_bound t (ber_int (x mod 2 ^ 32)) 8 ltac:(lia)). lia.
Qed.

Lemma c64_value_split64 c : c64_value (split64 (c64_value c)) = c64_value c.
Proof.
  rewrite c64_value_ok by apply split64_ok. rewrite cval_split64. apply Z.mod_small, c64_value_range.
Qed.

Lemma vber_c64_split t c : vber (VC64 t c) = vber (VC64 t (split64 (c64_value c))).
Proof. cbn [vber]. by rewrite c64_value_split64. Qed.

Lemma parse_value_c64 t c :
  t ∈ [ASN_OPAQUE_COUNTER64; ASN_OPAQUE_U64; ASN_COUNTER64] -> vp_type vp = t ->
  vok (VC64 t c) -> holds m p (vber (VC64 t c)) ->
  value_stored (received (VC64 t c)) vp (parse_value m p vp objid buf).
Proof.
  intros Ht Hvt Hv Hh. pose proof (vber_bound _ Hv) as Hb. rewrite vber_c64_split in Hh, Hb.
  unfold parse_value. rewrite Hvt.
  assert (Hsel : (t =? ASN_INTEGER) = false /\
    is_one_of t [ASN_COUNTER; ASN_GAUGE; ASN_TIMETICKS; ASN_UINTEGER] = false /\
    is_one_of t [ASN_OPAQUE_COUNTER64; ASN_OPAQUE_U64; ASN_COUNTER64] = true) by by pick_type Ht.
  destruct Hsel as (-> & -> & ->). cbv iota.
  destruct (read_counter64_total buf Hbuf) as [c0 ->]. obind.
  rewrite (parse_built_counter64 m p _ t (split64 (c64_value c))); try done.
  - by apply in_buf_stored.
  - apply split64_ok.
  - cbn [datalength]. unfold MAX_PACKET_LENGTH. lia.
Qed.

Lemma parse_value_i64 c :
  vp_type vp = ASN_OPAQUE_I64 -> c64_ok c -> holds m p (vber (VI64 c)) ->
  value_stored (VI64 c) vp (parse_value m p vp objid buf).
Proof.
  intros Ht Hc Hh. pose proof (vber_bound (VI64 c) Hc) as Hb. unfold parse_value. rewrite Ht. eval_types.
  destruct (read_counter64_total buf Hbuf) as [c0 ->]. obind.
  rewrite (parse_built_int64 m p _ c) by (cbn [datalength]; unfold MAX_PACKET_LENGTH; done || lia).
  by apply in_buf_stored.
Qed.

Lemma parse_value_float x :
  vp_type vp = ASN_OPAQUE_FLOAT -> 0 <= x < 2 ^ 32 -> holds m p (vber (VFloat x)) ->
  value_stored (VFloat x) vp (parse_value m p vp objid buf).
Proof.
  intros Ht Hx Hh. unfold parse_value. rewrite Ht. eval_types.
  destruct (read_float_total buf Hbuf) as [x0 ->]. obind.
  rewrite (asn_parse_float_opaque m p _ (be_bytes 4 x)).
  - rewrite be_value_be_bytes, Z.mod_small by done. by apply in_buf_stored.
  - apply value_opaque_at; [done|by_decide|apply be_bytes_byte|by rewrite zlen_be_bytes].
  - by rewrite zlen_be_bytes.
Qed.

Lemma parse_value_double x :
  vp_type vp = ASN_OPAQUE_DOUBLE -> u64_ok x -> holds m p (vber (VDouble x)) ->
  value_stored (VDouble x) vp (parse_value m p vp objid buf).
Proof.
  intros Ht Hx Hh. unfold parse_value, read_double. rewrite Ht. eval_types.
  destruct (read_u64_total buf 0) as [x0 ->]; [lia|unfold sizeof_buf in Hbuf; lia|]. obind.
  rewrite (asn_parse_double_opaque m p _ (be_bytes 8 x)).
  - rewrite be_value_be_bytes, Z.mod_small by done. by apply in_buf_stored.
  - apply value_opaque_at; [done|by_decide|apply be_bytes_byte|by rewrite zlen_be_bytes].
  - by rewrite zlen_be_bytes.
Qed.

(** Strings: in [buf] when they are shorter, otherwise in an object of their own. *)
Lemma parse_value_str L t bs :
  grows L -> 0x8000 < L -> vsend (VStr t bs) -> vp_type vp = t -> vp_val_len vp = zlen bs ->
  holds m p (tlv t bs) -> value_stored (VStr t bs) vp (parse_value m p vp objid buf).
Proof.
  intros HG HL [(Ht & Hb & Hz & _) Hip] Hvt Hvl Hh. unfold parse_value. rewrite Hvt, Hvl.
  assert (Hstore : value_stored (VStr t bs) vp
    (match (if zlen bs <? sizeof_buf then Some buf else malloc (zlen bs)) with
     | None => Some (vp, objid, Failed)
     | Some str => in_string (asn_parse_string m p (mkpout MAX_PACKET_LENGTH t (str, zlen bs))) vp objid
     end)).
  { assert (exists str, (if zlen bs <? sizeof_buf then Some buf else malloc (zlen bs)) = Some str /\ zlen bs <= zlen str)
      as (str & -> & Hstr).
    { destruct (Z.ltb_spec (zlen bs) sizeof_buf); [exists buf; split; [done|lia]|].
      destruct (malloc_total L (zlen bs) HG) as (b & -> & ?); [pose proof (zlen_nonneg bs); lia|].
      exists b. split; [done|lia]. }
    rewrite (asn_parse_string_tlv m p _ t bs str (zlen bs)); 
      try done; [|pick_type Ht; auto|by apply value_tlv_at].
    rewrite Z.ltb_irrefl. unfold in_string. obind. cbn [out fst snd type].
    eexists _, objid. split_and!; [done|done|]. by apply take_patch_front. }
  destruct (Z.eqb_spec t ASN_IPADDRESS) as [->|Hne].
  - specialize (Hip eq_refl). rewrite Hip in *. eval_types. exact Hstore.
  - cbn [andb]. pick_type Ht; try done; eval_types; exact Hstore.
Qed.

Lemma parse_value_bits L bs :
  grows L -> 0x8000 < L -> vok (VBits bs) -> vp_type vp = ASN_BIT_STR -> vp_val_len vp = zlen bs ->
  holds m p (tlv ASN_BIT_STR bs) -> value_stored (VBits bs) vp (parse_value m p vp objid buf).
Proof.
  intros HG HL (Hb & Hz) Ht Hvl Hh. unfold parse_value. rewrite Ht, Hvl. eval_types. cbn [andb].
  destruct (malloc_total L (zlen bs) HG) as (str & -> & Hstr); [lia|].
  rewrite (asn_parse_bitstring_tlv m p _ bs str (zlen bs)); try done; [|apply value_tlv_at; done || lia|lia|lia].
  unfold in_string. obind. cbn [out fst snd type].
  eexists _, objid. split_and!; [done|done|]. apply take_patch_front; [done|cbn [vimage]; lia].
Qed.

Lemma parse_value_oid L o :
  grows L -> 0x8000 < L -> name_ok o -> vp_type vp = ASN_OBJECT_ID ->
  holds m p (tlv ASN_OBJECT_ID (ber_oid o)) -> value_stored (VOid o) vp (parse_value m p vp objid buf).
Proof.
  intros HG HL Ho Ht Hh. unfold parse_value. rewrite Ht. eval_types. cbn [andb].
  pose proof (ber_oid_bound o Ho). destruct Ho as [Hw Hl]. unfold MAX_OID_LEN in *. pose proof (zlen_nonneg o).
  rewrite (asn_parse_objid_tlv m p _ o objid 128); try done; [|apply value_tlv_at; [done|apply ber_oid_bytes|lia]|lia|lia].
  obind. cbn [out fst snd type]. unfold sizeof_oid. rewrite wrap_small by lia.
  destruct (malloc_total L (zlen o * 8) HG) as (b & -> & Hb); [lia|].
  assert (Hi : peek_n (oid_image (patch objid 0 o)) 0 (zlen o * 8) = Some (oid_image o)).
  { replace (zlen o * 8) with (zlen (oid_image o)) by (rewrite zlen_oid_image; lia). apply holds_peek_n.
    unfold patch. change (take (Z.to_nat 0) objid) with (@nil Z). unfold oid_image. rewrite app_nil_l, bind_app.
    by eexists [], _. }
  rewrite Hi. obind. rewrite poke_n_zlen by (rewrite ?zlen_oid_image; lia). obind.
  replace (zlen o * 8) with (vlen (VOid o)) by (unfold vlen; cbn [vimage]; rewrite zlen_oid_image; lia).
  eexists _, _. split_and!; [reflexivity|rewrite zlen_patch_front; unfold MAX_OID_LEN; lia|].
  apply take_patch_front; [done|]. cbn [vimage]. rewrite zlen_oid_image. lia.
Qed.

(** The value of a binding, whatever its type. *)
Lemma parse_value_built L v :
  grows L -> 0x8000 < L -> vsend v -> vp_type vp = vtype v -> vp_val vp = [] ->
  vp_val_len vp = zlen (vcontents v) -> holds m p (vber v) ->
  value_stored (received v) vp (parse_value m p vp objid buf).
Proof.
  intros HG HL Hs Ht Hval Hvl Hh. pose proof Hs as [Hv _].
  destruct v as [x|t x|t c|t bs|o|t|bs|x|x|c]; cbn [vok vtype vcontents received] in *.
  - by apply parse_value_int.
  - destruct Hv. by apply (parse_value_uns t x).
  - apply (parse_value_c64 t c); [apply Hv|done..].
  - by apply (parse_value_str L).
  - by apply (parse_value_oid L).
  - assert (Hvp : vp = set_value t [] 0 vp) by (destruct vp; cbn in *; by subst).
    unfold parse_value. rewrite Ht. eexists [], objid. split_and!; [|done|done].
    cbn [vtype vlen vimage]. change (vlen (VNull t)) with 0. rewrite <- Hvp.
    by pick_type Hv; eval_types.
  - by apply (parse_value_bits L).
  - by apply parse_value_float.
  - by apply parse_value_double.
  - by apply parse_value_i64.
Qed.
End value.

(** ** Bindings *)

Section frames.
Context (fr : Z -> list Z -> list Z) (lim : Z) {F : Framing fr lim}.
Context (L : Z) (HG : grows L) (HL : 0x8000 < L).

Lemma snmp_parse_var_op_built m d dl o v objid t len :
  name_ok o -> vok v -> 0x9000 <= lim -> holds m d (varbind_ber fr (o, v)) ->
  zlen (varbind_ber fr (o, v)) <= dl < 2 ^ 31 -> zlen objid = MAX_OID_LEN ->
  exists val, holds m val (vber v) /\
    snmp_parse_var_op m d (mkvar objid MAX_OID_LEN t len NULL dl) =
    Some (mkvar (patch objid 0 o) (zlen o) (vtype v) (zlen (vcontents v)) (Ptr val)
                (dl - zlen (varbind_ber fr (o, v))),
          Ptr (d + zlen (varbind_ber fr (o, v)))).
Proof.
  intros Ho Hv Hlim Hh Hdl Hobj. unfold varbind_ber in *. cbn [fst snd] in *.
  pose proof (binding_bound o v Ho Hv) as Hb. pose proof (@frame_size fr lim F 0x30 (binding o v) ltac:(lia)) as Hfs.
  destruct (@frame_at fr lim F m d 0x30 (binding o v) dl Hh ltac:(lia) ltac:(lia)) as (Htag & Hplc & Hc).
  set (n := zlen (fr 0x30 (binding o v))) in *. set (q := d + n - zlen (binding o v)) in *.
  exists (q + zlen (tlv ASN_OBJECT_ID (ber_oid o))). split; [by apply holds_app in Hc as [_ Hc]|].
  destruct Ho as [Hw Hl]. unfold MAX_OID_LEN in *. pose proof (@frame_lim fr lim F).
  rewrite (parse_var_op_binding m d o v _ q); try done.
  - cbn [var_name listlength]. replace (q - d + zlen (binding o v)) with n by lia.
    replace (q + zlen (binding o v)) with (d + n) by lia. done.
  - split_and!; [done|exact Hplc|lia|lia].
  - lia.
  - cbn [listlength]. lia.
  - cbn [var_name var_name_len]. lia.
  - cbn [var_name]. lia.
Qed.

Lemma varbind_loop_built m ovs : forall fuel vars st d,
  Forall vbind_ok ovs -> holds m d (varbinds_ber fr ovs) -> ps_length st = zlen (varbinds_ber fr ovs) ->
  (length ovs <= fuel)%nat -> zlen (varbinds_ber fr ovs) < 2 ^ 31 -> zlen (ps_objid st) = MAX_OID_LEN ->
  0x9000 <= lim -> variables (ps_pdu st) = vars ->
  exists st' vps, varbind_loop fuel m vars 0 st d = Some (st', 0) /\
    Forall2 carries vps (map received_bind ovs) /\
    ps_pdu st' = set_variables (vars ++ vps) (ps_pdu st) /\ ps_statistics st' = ps_statistics st.
Proof.
  induction ovs as [|[o v] ovs IH]; intros fuel vars st d Hok Hh Hlen Hfuel Hsz Hobj Hlim Hvars.
  - change (varbinds_ber fr []) with (@nil Z) in *. exists st, []. rewrite app_nil_r.
    split_and!; [|constructor|rewrite <- Hvars; by destruct st as [[] ? ? ?]|done].
    destruct fuel; cbn [varbind_loop]; rewrite Hlen; reflexivity.
  - apply Forall_cons_1 in Hok as [[Ho [Hv Hs]] Hok]. cbn [fst snd] in *. destruct fuel as [|fuel]; [simpl in Hfuel; lia|].
    rewrite varbinds_ber_cons in *. rewrite zlen_app in *. apply holds_app in Hh as [Hh1 Hh2]. fold (zlen (varbind_ber fr (o, v))) in Hh2.
    set (n := zlen (varbind_ber fr (o, v))) in *. pose proof (zlen_nonneg (varbinds_ber fr ovs)).
    assert (Hn : 7 <= n) by (subst n; unfold varbind_ber; pose proof (binding_bound o v Ho Hv);
      pose proof (@frame_size fr lim F 0x30 (binding o v) ltac:(cbn [fst snd]; lia)); cbn [fst snd]; lia).
    cbn [varbind_loop]. rewrite Hlen, swrap_small, (proj2 (Z.ltb_lt 0 _)) by lia. cbn [negb].
    destruct (malloc_total L sizeof_variable_list HG) as (vb & -> & Hvb); [unfold sizeof_variable_list; lia|].
    destruct (fresh_variable_total vb Hvb) as (t & len & nl & buf & -> & Hnl & Hbuf). obind.
    destruct (snmp_parse_var_op_built m d (n + zlen (varbinds_ber fr ovs)) o v (ps_objid st) t len Ho Hv Hlim Hh1)
      as (val & Hval & Hpv); [fold n; lia|done|].
    cbn [vp_type vp_val_len]. rewrite Hpv. obind. cbn [var_name var_name_len var_val_type var_val_len var_val listlength
      ps_objid upd_objid upd_length vp_name_length]. fold n.
    pose proof Ho as [_ Hol]. pose proof (zlen_nonneg o).
    rewrite (snmp_set_var_objid_spec _ nl _ (zlen o) o Hnl ltac:(lia)); [|apply peek_n_front; [done|lia]|done].
    obind. cbn [vp_type vp_val vp_val_len].
    set (vp := mkvariable _ _ _ _ _). set (objid := patch _ _ _).
    assert (Hobjid : zlen objid = MAX_OID_LEN) by (subst objid; rewrite zlen_patch_front; lia).
    destruct (parse_value_built m val vp objid buf Hobjid Hbuf L v HG HL (conj Hv Hs) eq_refl eq_refl eq_refl Hval)
      as (w & objid2 & -> & Hobjid2 & Hw). obind.
    set (vp' := set_value _ _ _ _).
    destruct (IH fuel (vars ++ [vp']) (upd_pdu (set_variables (vars ++ [vp'])) (upd_objid objid2
       (upd_objid objid (upd_length (n + zlen (varbinds_ber fr ovs) - n) st)))) (d + n)) as (st' & vps & Hloop & Hc & Hp & Hst);
      try done; [cbn [ps_length upd_pdu upd_objid upd_length]; lia|simpl in Hfuel; lia|lia|].
    exists st', (vp' :: vps). split_and!; [exact Hloop| |by rewrite Hp, <- app_assoc|done].
    cbn [map]. constructor; [|done]. subst vp' vp. split_and!; try done. cbn. apply take_patch_front; [done|lia].
Qed.
End frames.

(** ** Fields *)

(** Two stretches that end in the same state, up to arithmetic. *)
Ltac stretch_eq :=
  do 3 f_equal;
  [unfold upd_length, upd_pdu, upd_objid; cbn [ps_pdu ps_objid ps_length ps_statistics]; f_equal; lia|lia].

Definition int_received (x : Z) : Z := CHECK_OVERFLOW_S (CHECK_OVERFLOW_S x).

Lemma field_next {T} (parse : pout T -> option (pout T * ptr)) x0 store st s q :
  parse (mkpout (ps_length st) 0 x0) = Some (s, Ptr q) ->
  field parse x0 store st = Some (Next (upd_length (datalength s) (store (out s) st), q)).
Proof. intros H. unfold field. by rewrite H. Qed.

Lemma int_field_built m get set st d x :
  holds m d (int_ber x) -> zlen (int_ber x) <= ps_length st < 2 ^ 64 ->
  int_field m get set st d =
  Some (Next (upd_length (ps_length st - zlen (int_ber x)) (upd_pdu (set (int_received x)) st), d + zlen (int_ber x))).
Proof. intros Hh Hl. 
  unfold int_field.
  by rewrite (field_next _ _ _ _ _ _ (int_ber_holds_parse m d (mkpout (ps_length st) 0 (get (ps_pdu st))) x Hh Hl)).
Qed.

(** The fields of a request, as they arrive. *)
Definition request_arrived (p p0 : pdu) : pdu :=
  set_errindex (int_received (errindex p)) (set_errstat (int_received (errstat p))
    (set_reqid (int_received (reqid p)) p0)).

Definition trap_arrived (p p0 : pdu) : pdu :=
  set_time (time p mod 2 ^ 32) (set_specific_type (int_received (specific_type p))
    (set_trap_type (int_received (trap_type p)) (set_agent_addr (agent_addr p)
      (set_enterprise (enterprise p) (set_enterprise_length (enterprise_length p) p0))))).

(** What a stretch that succeeds on [bs] at [d] does. *)
Definition goes_on (st : pstate) (d : Z) (bs : list Z) (p' : pdu) (res : stretch) : Prop :=
  exists objid, zlen objid = MAX_OID_LEN /\
    res = Some (Next (mkpstate p' objid (ps_length st - zlen bs) (ps_statistics st), d + zlen bs)).

Lemma request_fields_built m st d p :
  let bs := int_ber (reqid p) ++ int_ber (errstat p) ++ int_ber (errindex p) in
  holds m d bs -> zlen bs <= ps_length st < 2 ^ 64 -> zlen (ps_objid st) = MAX_OID_LEN ->
  goes_on st d bs (request_arrived p (ps_pdu st)) (request_fields m st d).
Proof.
  intros bs Hh Hl Ho. subst bs. rewrite !zlen_app in Hl. apply holds_app in Hh as [H1 Hh].
  apply holds_app in Hh as [H2 H3]. fold (zlen (int_ber (reqid p))) in *. fold (zlen (int_ber (errstat p))) in *.
  pose proof (int_ber_bound (reqid p)). pose proof (int_ber_bound (errstat p)). pose proof (int_ber_bound (errindex p)).
  unfold request_fields. rewrite (int_field_built _ _ _ _ _ (reqid p)) by (done || lia). unfold then_at. obind.
  rewrite (int_field_built _ _ _ _ _ (errstat p)) by (done || (cbn [ps_length upd_length upd_pdu]; lia)). obind.
  rewrite (int_field_built _ _ _ _ _ (errindex p)) by (done || (cbn [ps_length upd_length upd_pdu]; lia)).
  exists (ps_objid st). split; [done|]. rewrite !zlen_app. destruct st as [p0 o n g].
  cbn [upd_length upd_pdu ps_pdu ps_objid ps_length ps_statistics] in *. unfold request_arrived.
  stretch_eq.
Qed.

Lemma trap_fields_built L m st d p :
  grows L -> 0x8000 < L -> fields_ok p -> command p = SNMP_MSG_TRAP -> zlen (agent_addr (ps_pdu st)) = 4 ->
  holds m d (fields_ber p) -> zlen (fields_ber p) <= ps_length st < 2 ^ 64 -> zlen (ps_objid st) = MAX_OID_LEN ->
  goes_on st d (fields_ber p) (trap_arrived p (ps_pdu st)) (trap_fields m st d).
Proof.
  intros HG HL Hf Hc Ha0 Hh Hl Hobj. destruct (Hf Hc) as (Ho & He & Hab & Ha & Ht).
  unfold fields_ber in *. rewrite Hc in *. change (SNMP_MSG_TRAP =? SNMP_MSG_TRAP) with true in *. cbv iota in *.
  set (O := tlv ASN_OBJECT_ID _) in *. set (I := tlv ASN_IPADDRESS _) in *. set (T := tlv ASN_TIMETICKS _) in *.
  rewrite !zlen_app in Hl. apply holds_app in Hh as [H1 Hh]. apply holds_app in Hh as [H2 Hh].
  apply holds_app in Hh as [H3 Hh]. apply holds_app in Hh as [H4 H5].
  fold (zlen O) (zlen I) (zlen (int_ber (trap_type p))) (zlen (int_ber (specific_type p))) in *.
  pose proof (zlen_nonneg O). pose proof (zlen_nonneg I). pose proof (zlen_nonneg T).
  pose proof (int_ber_bound (trap_type p)). pose proof (int_ber_bound (specific_type p)).
  pose proof (ber_oid_bound _ Ho). pose proof Ho as [Hw Hol]. unfold MAX_OID_LEN in *. pose proof (zlen_nonneg (enterprise p)).
  pose proof (Z.mod_pos_bound (time p) (2 ^ 32) ltac:(lia)) as Htm.
  unfold trap_fields, then_at.
  erewrite field_next; [|apply (asn_parse_objid_tlv m d _ (enterprise p) (ps_objid st) 128);
    [done|apply tlv_at_intro; [exact H1|apply ber_oid_bytes|lia|cbn [datalength]; fold O; lia]|done|lia|lia]].
  obind. cbn [datalength out fst snd]. fold O. unfold copy_enterprise.
  cbn [enterprise_length set_enterprise_length ps_pdu ps_objid upd_objid upd_pdu upd_length]. unfold sizeof_oid.
  destruct (malloc_total L (u64 (zlen (enterprise p) * 8)) HG) as (b & -> & _); [rewrite wrap_small; lia|].
  rewrite peek_n_front by (done || lia). obind.
  erewrite field_next; [|apply (asn_parse_string_tlv m _ _ ASN_IPADDRESS (agent_addr p) (agent_addr (ps_pdu st)) 4);
    [auto|apply tlv_at_intro; [exact H2|done|lia|cbn [datalength ps_length upd_length upd_pdu upd_objid]; fold I; lia]|done|lia]].
  obind. cbn [datalength out fst snd]. fold I. rewrite Ha. change (4 <? 4) with false. cbv iota.
  rewrite (patch_front_all (agent_addr (ps_pdu st)) (agent_addr p)) by lia.
  rewrite (int_field_built _ _ _ _ _ (trap_type p)) by (done || (cbn [ps_length upd_length upd_pdu upd_objid]; lia)). obind.
  rewrite (int_field_built _ _ _ _ _ (specific_type p)) by (done || (cbn [ps_length upd_length upd_pdu upd_objid]; lia)). obind.
  erewrite field_next; [|apply (parse_built_uint m _ _ ASN_TIMETICKS (time p mod 2 ^ 32));
    [by_decide|done|exact H5|cbn [datalength ps_length upd_length upd_pdu upd_objid]; fold T; lia]].
  fold T. exists (patch (ps_objid st) 0 (enterprise p)). split; [rewrite zlen_patch_front by lia; done|].
  rewrite !zlen_app. destruct st as [p0 o n g]. unfold trap_arrived. rewrite He.
  cbn [upd_length upd_pdu upd_objid ps_pdu ps_objid ps_length ps_statistics datalength out] in *.
  stretch_eq.
Qed.

(** ** The PDU *)

(** The PDU [p] as it arrives in the structure [p0]. *)
Definition arrived (p p0 : pdu) : pdu :=
  let p1 := set_flags (Z.land (flags p0) (Z.lnot UCD_MSG_FLAG_RESPONSE_PDU)) (set_command (command p) p0) in
  if command p =? SNMP_MSG_TRAP then trap_arrived p p1
  else if is_one_of (command p) [SNMP_MSG_RESPONSE; SNMP_MSG_REPORT]
  then request_arrived p (set_flags (Z.lor (flags p1) UCD_MSG_FLAG_RESPONSE_PDU) p1)
  else request_arrived p p1.

Lemma command_fields_built L m st d p :
  grows L -> 0x8000 < L -> command p ∈ pdu_commands -> fields_ok p -> command (ps_pdu st) = command p ->
  zlen (agent_addr (ps_pdu st)) = 4 -> holds m d (fields_ber p) ->
  zlen (fields_ber p) <= ps_length st < 2 ^ 64 -> zlen (ps_objid st) = MAX_OID_LEN ->
  goes_on st d (fields_ber p)
    (if command p =? SNMP_MSG_TRAP then trap_arrived p (ps_pdu st)
     else if is_one_of (command p) [SNMP_MSG_RESPONSE; SNMP_MSG_REPORT]
     then request_arrived p (set_flags (Z.lor (flags (ps_pdu st)) UCD_MSG_FLAG_RESPONSE_PDU) (ps_pdu st))
     else request_arrived p (ps_pdu st))
    (command_fields m st d).
Proof.
  intros HG HL Hc Hf Hcp Ha Hh Hl Ho. unfold command_fields. rewrite Hcp.
  destruct (Z.eqb_spec (command p) SNMP_MSG_TRAP) as [Ht|Hnt]; [by apply (trap_fields_built L)|].
  assert (Hfb : fields_ber p = int_ber (reqid p) ++ int_ber (errstat p) ++ int_ber (errindex p))
    by (unfold fields_ber; by rewrite (proj2 (Z.eqb_neq _ _)) by done).
  rewrite Hfb in *. destruct (is_one_of (command p) [SNMP_MSG_RESPONSE; SNMP_MSG_REPORT]) eqn:Hr.
  - by apply (request_fields_built m (upd_pdu (fun p => set_flags (Z.lor (flags p) UCD_MSG_FLAG_RESPONSE_PDU) p) st)).
  - assert (is_one_of (command p) [SNMP_MSG_GET; SNMP_MSG_GETNEXT; SNMP_MSG_GETBULK; SNMP_MSG_SET; SNMP_MSG_TRAP2;
              SNMP_MSG_INFORM] = true) as ->; [|by apply request_fields_built].
    revert Hnt Hr. clear -Hc. unfold pdu_commands in Hc. by pick_type Hc.
Qed.

Lemma frame_header fr lim {F : Framing fr lim} m d t c dl ty :
  holds m d (fr t c) -> zlen c <= lim -> zlen (fr t c) <= dl < 2 ^ 64 ->
  IS_EXTENSION_ID t = false -> t <> ASN_OPAQUE ->
  asn_parse_header m (Ptr d) (mkpout dl ty tt) =
  Some (mkpout (zlen c) t tt, Ptr (d + zlen (fr t c) - zlen c)).
Proof.
  intros Hh Hc Hdl Ht Ho. destruct (@frame_at fr lim F m d t c dl Hh Hc Hdl) as (Hp & Hl & _).
  pose proof (@frame_lim fr lim F). pose proof (zlen_nonneg c).
  unfold asn_parse_header. rewrite Hp. obind. rewrite Ht. unfold set_type, set_datalength. cbn [type datalength out].
  rewrite Hl. rewrite (proj2 (Z.eqb_neq t ASN_OPAQUE)) by done. unfold and_byte_is. obind.
  by rewrite s32_len, wrap_small by lia.
Qed.

Lemma command_tag p : command p ∈ pdu_commands -> IS_EXTENSION_ID (command p) = false /\ command p <> ASN_OPAQUE.
Proof. intros Hc. unfold pdu_commands in Hc. by pick_type Hc. Qed.

Lemma varbinds_length fr lim {F : Framing fr lim} ovs :
  Forall vbind_ok ovs -> Z.of_nat (length ovs) <= zlen (varbinds_ber fr ovs).
Proof.
  induction 1 as [|[o v] ovs [Ho [Hv _]] _ IH]; [done|]. rewrite varbinds_ber_cons, zlen_app.
  pose proof (frame_contains fr lim 0x30 (binding o v)). pose proof (binding_bound o v Ho Hv).
  unfold varbind_ber at 1. cbn [fst snd length] in *. lia.
Qed.

(** The list of bindings, from its header on. *)
Lemma varbinds_built fr lim {F : Framing fr lim} L m st d ovs :
  grows L -> 0x8000 < L -> 0x9000 <= lim -> Forall vbind_ok ovs ->
  holds m d (fr 0x30 (varbinds_ber fr ovs)) -> zlen (varbinds_ber fr ovs) <= lim ->
  zlen (fr 0x30 (varbinds_ber fr ovs)) <= ps_length st < 2 ^ 64 ->
  zlen (ps_objid st) = MAX_OID_LEN -> variables (ps_pdu st) = [] ->
  exists n q st' vps,
    field (fun s => asn_parse_sequence m (Ptr d) s 0x30) tt (fun _ st => st) st = Some (Next (upd_length n st, q)) /\
    varbind_loop (Z.to_nat n) m [] 0 (upd_length n st) q = Some (st', 0) /\
    Forall2 carries vps (map received_bind ovs) /\
    ps_pdu st' = set_variables vps (ps_pdu st) /\ ps_statistics st' = ps_statistics st.
Proof.
  intros HG HL Hlim Hok Hh Hsz Hl Hobj Hv. set (V := varbinds_ber fr ovs) in *.
  pose proof (zlen_nonneg V). pose proof (@frame_lim fr lim F).
  destruct (@frame_at fr lim F m d 0x30 V _ Hh Hsz Hl) as (Hpk & Hplc & HhV).
  pose proof (varbinds_length fr lim ovs Hok) as Hn. fold V in Hn.
  destruct (varbind_loop_built fr lim L HG HL m ovs (Z.to_nat (zlen V)) [] (upd_length (zlen V) st)
    (d + zlen (fr 0x30 V) - zlen V) Hok HhV eq_refl ltac:(lia) ltac:(fold V; lia) Hobj Hlim Hv)
    as (st' & vps & Hloop & Hcar & Hp & Hst).
  exists (zlen V), (d + zlen (fr 0x30 V) - zlen V), st', vps. split; [|done].
  by erewrite field_next; [|apply (seq_at_header m _ (zlen V)); split_and!; [exact Hpk|exact Hplc|lia|lia]].
Qed.

Lemma snmp_pdu_parse_built fr lim {F : Framing fr lim} L m st d p ovs :
  grows L -> 0x8000 < L -> 0x9000 <= lim ->
  command p ∈ pdu_commands -> fields_ok p -> Forall vbind_ok ovs ->
  holds m d (pdu_ber fr p ovs) -> zlen (pdu_ber fr p ovs) <= ps_length st < 2 ^ 31 ->
  zlen (fields_ber p ++ fr 0x30 (varbinds_ber fr ovs)) <= lim ->
  zlen (ps_objid st) = MAX_OID_LEN -> zlen (agent_addr (ps_pdu st)) = 4 -> variables (ps_pdu st) = [] ->
  exists st' vps, snmp_pdu_parse m st d = Some (st', 0) /\
    Forall2 carries vps (map received_bind ovs) /\
    ps_pdu st' = set_variables vps (arrived p (ps_pdu st)) /\ ps_statistics st' = ps_statistics st.
Proof.
  intros HG HL Hlim Hc Hf Hok Hh Hl Hsz Hobj Ha Hv. destruct (command_tag p Hc) as [Htag Hop].
  unfold pdu_ber in *. set (V := varbinds_ber fr ovs) in *. set (B := fields_ber p ++ fr 0x30 V) in *.
  pose proof (zlen_nonneg (fields_ber p)). pose proof (zlen_nonneg V). pose proof (@frame_lim fr lim F).
  assert (HB : zlen B = zlen (fields_ber p) + zlen (fr 0x30 V)) by apply zlen_app.
  pose proof (frame_contains fr lim 0x30 V) as HzV.
  pose proof (@frame_size fr lim F (command p) B ltac:(lia)) as Hfs.
  unfold snmp_pdu_parse. rewrite (frame_header fr lim m d (command p) B) by (done || lia). obind.
  destruct (@frame_at fr lim F m d (command p) B (ps_length st) Hh ltac:(lia) ltac:(lia)) as (_ & _ & HhB).
  set (d1 := d + zlen (fr (command p) B) - zlen B) in *. cbn [datalength type].
  apply holds_app in HhB as [HhF HhV]. fold (zlen (fields_ber p)) in HhV.
  set (st1 := upd_pdu _ _).
  destruct (command_fields_built L m st1 d1 p HG HL Hc Hf eq_refl Ha HhF) as (objid & Hobj' & Hcf);
    [subst st1; cbn [ps_length upd_pdu upd_length]; lia|done|].
  unfold then_at. rewrite Hcf. obind.
  set (st2 := mkpstate _ _ _ _).
  destruct (varbinds_built fr lim L m st2 (d1 + zlen (fields_ber p)) ovs HG HL Hlim Hok HhV)
    as (n & q & st' & vps & Hfield & Hloop & Hcar & Hp & Hst);
    [fold V; lia|subst st2 st1; cbn [ps_length upd_pdu upd_length]; fold V; lia|done|
     subst st2 st1; cbn [ps_pdu]; by repeat case_match|].
  change (Z.lor ASN_SEQUENCE ASN_CONSTRUCTOR) with 0x30. rewrite Hfield. obind. exists st', vps. by split_and!.
Qed.
End parse.
