(* ===== verification/MessageProps.v ===== *)
(** Whole messages: what [snmp_build] puts on the wire is what [snmp_parse]
    delivers, in both encodings. *)
From Stdlib Require Import ZArith Lia.
From S2P Require Import Prelude Oid Asn1Defs SnmpDefs Ber Asn1Parse Asn1ParseProps Asn1ParseWide Asn1Build.
From S2P Require Import Asn1BuildProps Asn1RBuild Asn1RBuildProps SnmpVar SnmpVarProps Codec Pdu Message PduSpec PduBuildProps PduParseProps.

(** The octets a successful [snmp_build] leaves for the transport: the front of
    the buffer, or its end when the encoding is reverse. *)
Definition wire (g : globals) (s : rstate) : list Z :=
  if ds_reverse_encode g then written s else take (Z.to_nat (pkt_len s)) (pkt s).

(** The frames of the encoding in use. *)
Definition framing (g : globals) : Z -> list Z -> list Z := if ds_reverse_encode g then tlv else long_frame.
Definition frame_limit (g : globals) : Z := if ds_reverse_encode g then 0x7fffffff else 0xFFFF.

#[export] Instance framing_ok g : Framing (framing g) (frame_limit g).
Proof. unfold framing, frame_limit. destruct (ds_reverse_encode g); apply _. Qed.

(** The fields and bindings of [p] are those of [q], up to the ranges of the
    wire format. *)
Definition delivered (p : pdu) (ovs : list vbind) (q : pdu) : Prop :=
  version q = version p /\ community q = community p /\ community_len q = zlen (community p) /\
  command q = command p /\
  (if command p =? SNMP_MSG_TRAP then
     enterprise q = enterprise p /\ agent_addr q = agent_addr p /\
     trap_type q = int_received (trap_type p) /\ specific_type q = int_received (specific_type p) /\
     time q = time p mod 2 ^ 32
   else
     reqid q = int_received (reqid p) /\ errstat q = int_received (errstat p) /\
     errindex q = int_received (errindex p)) /\
  Forall2 carries (variables q) (map received_bind ovs).

(** A community the receiver can take: its buffer has 256 bytes, and the last
    one is for the terminating null. *)
Definition community_ok (p : pdu) : Prop := zlen (community p) < COMMUNITY_MAX_LEN.

(** A receiver ready for a message of that version. *)
Definition receiver_ok (loc : locals) (sess : session) (q : pdu) (p : pdu) : Prop :=
  (s_version sess = SNMP_DEFAULT_VERSION \/ s_version sess = version p) /\ authenticator sess = None /\
  zlen (l_community loc) = COMMUNITY_MAX_LEN /\ zlen (l_objid loc) = MAX_OID_LEN /\
  zlen (agent_addr q) = 4 /\ variables q = [].

Definition community_version (p : pdu) : Prop := version p = SNMP_VERSION_1 \/ version p = SNMP_VERSION_2c.

(** * Receiving *)

Lemma flag_set x f : f <> 0 -> Z.land (Z.lor x f) f <> 0.
Proof. intros Hf. rewrite Z.land_lor_distr_l, Z.land_diag. by intros [_ H]%Z.lor_eq_0_iff. Qed.

Lemma holds_patch_below m p bs q cs :
  holds m p bs -> p + zlen bs <= q -> q + zlen cs <= zlen m -> holds (patch m q cs) p bs.
Proof.
  unfold zlen. intros (pre & post & -> & ->) Hq Hl. rewrite !length_app in Hl. unfold patch.
  exists pre, (take (Z.to_nat q - length pre - length bs) post ++ cs ++
    drop (Z.to_nat q + length cs) (pre ++ bs ++ post)). split; [|done].
  rewrite !take_app, !(take_ge pre), !(take_ge bs) by lia. by rewrite <- !app_assoc.
Qed.

Section receive.
Context {A : Allocator} (fr : Z -> list Z -> list Z) (lim : Z) {F : Framing fr lim}.
Context (m : list Z) (d : Z) (p : pdu) (ovs : list vbind).
Context (Hver : community_version p) (Hcom : community_ok p) (Hcb : bytes (community p)).
Context (Hh : holds m d (message_ber fr p ovs)).
Context (Hsz : zlen (message_ber fr p ovs) <= lim).
Abbreviation len := (zlen (message_ber fr p ovs)).

Lemma version_received : int_received (version p) = version p.
Proof. destruct Hver as [-> | ->]; reflexivity. Qed.

(** The three parts of a message and where they are. *)
Lemma message_parts :
  exists q, let q2 := q + zlen (int_ber (version p)) in
    let q3 := q2 + zlen (tlv ASN_OCTET_STR (community p)) in
    let n := zlen (int_ber (version p) ++ tlv ASN_OCTET_STR (community p) ++ pdu_ber fr p ovs) in
    (forall ty, asn_parse_sequence m (Ptr d) (mkpout len ty tt) 0x30 = Some (mkpout n 0x30 tt, Ptr q)) /\
    holds m q (int_ber (version p)) /\ holds m q2 (tlv ASN_OCTET_STR (community p)) /\
    holds m q3 (pdu_ber fr p ovs) /\ n <= lim.
Proof.
  unfold message_ber in *. set (B := int_ber _ ++ _) in *. pose proof (frame_contains fr lim 0x30 B) as HB.
  pose proof (@frame_lim fr lim F). pose proof (zlen_nonneg B).
  destruct (@frame_at fr lim F m d 0x30 B (zlen (fr 0x30 B)) Hh ltac:(lia) ltac:(lia)) as (Ht & Hl & HhB).
  exists (d + zlen (fr 0x30 B) - zlen B). apply holds_app in HhB as [H1 HhB]. apply holds_app in HhB as [H2 H3].
  split_and!; try done; [|lia]. intros ty. apply seq_at_header. split_and!; done || lia.
Qed.

Lemma snmp_parse_version_built : snmp_parse_version m d len = Some (version p).
Proof.
  destruct message_parts as (q & Hseq & Hv & _ & _ & Hn). unfold snmp_parse_version.
  change (Z.lor ASN_SEQUENCE ASN_CONSTRUCTOR) with 0x30. rewrite Hseq. obind. cbn [datalength type].
  rewrite !zlen_app in *. pose proof (zlen_nonneg (tlv ASN_OCTET_STR (community p))).
  pose proof (zlen_nonneg (pdu_ber fr p ovs)). pose proof (int_ber_bound (version p)). pose proof (@frame_lim fr lim F).
  rewrite (int_ber_holds_parse m q _ (version p)) by (done || (cbn [datalength]; lia)). obind. cbn [type out].
  change (negb (ASN_INTEGER =? ASN_INTEGER)) with false. cbv iota.
  fold (int_received (version p)). rewrite version_received. by destruct Hver as [-> | ->].
Qed.

Lemma snmp_comstr_parse_built psid v0 ver :
  zlen psid = COMMUNITY_MAX_LEN ->
  exists psid' q, snmp_comstr_parse m d len psid COMMUNITY_MAX_LEN v0 ver =
    Some (zlen (pdu_ber fr p ovs), psid', zlen (community p), version p, Ptr q) /\
    peek_n psid' 0 (zlen (community p)) = Some (community p) /\ holds m q (pdu_ber fr p ovs).
Proof.
  unfold COMMUNITY_MAX_LEN, community_ok in *. intros Hps.
  destruct message_parts as (q & Hseq & Hv & Hc & Hp & Hn). unfold snmp_comstr_parse.
  change (Z.lor ASN_SEQUENCE ASN_CONSTRUCTOR) with 0x30. rewrite Hseq. obind. cbn [datalength type].
  set (V := int_ber (version p)) in *. set (C := tlv ASN_OCTET_STR (community p)) in *. set (P := pdu_ber fr p ovs) in *.
  rewrite !zlen_app in *. pose proof (zlen_nonneg C). pose proof (zlen_nonneg P). pose proof (zlen_nonneg (community p)).
  pose proof (int_ber_bound (version p)). fold V in H2. pose proof (@frame_lim fr lim F).
  rewrite (int_ber_holds_parse m q _ (version p)) by (done || (cbn [datalength]; fold V; lia)). obind.
  cbn [datalength type out]. fold V. fold (int_received (version p)). rewrite version_received.
  rewrite (asn_parse_string_tlv m _ _ ASN_OCTET_STR (community p) psid 256); try done; [|auto| |unfold COMMUNITY_MAX_LEN in *; lia].
  2: { apply tlv_at_intro; [exact Hc|done|unfold COMMUNITY_MAX_LEN in *; lia|cbn [datalength]; fold C; lia]. }
  obind. cbn [datalength out]. fold C. unfold COMMUNITY_MAX_LEN in *. rewrite (proj2 (Z.ltb_lt _ 256)) by lia.
  rewrite Z.min_l by lia. set (ps := patch psid 0 (community p ++ [0])).
  assert (Hz : zlen ps = 256) by (subst ps; rewrite zlen_patch_front; [done|rewrite zlen_app; change (zlen [0]) with 1; lia]).
  rewrite poke_patch by (unfold zlen in *; lia). obind.
  replace (zlen V + (zlen C + zlen P) - zlen V - zlen C) with (zlen P) by lia.
  eexists _, _. split; [reflexivity|]. split; [|done].
  apply holds_peek_n, holds_patch_below; [|lia|change (zlen [0]) with 1; lia].
  pose proof (patch_holds psid 0 (community p ++ [0]) ltac:(lia)) as Hph.
  apply holds_app in Hph as [Hph _]; [done|]. rewrite length_app. unfold zlen in *. simpl. lia.
Qed.

(** What the version and the community leave in the structure before the PDU is
    parsed. *)
Definition community_arrived (p0 : pdu) : pdu :=
  let model := if version p =? SNMP_VERSION_1 then SNMP_SEC_MODEL_SNMPv1 else SNMP_SEC_MODEL_SNMPv2c in
  set_community (community p) (set_community_len (zlen (community p))
    (set_securityModel model (set_securityLevel SNMP_SEC_LEVEL_NOAUTH (set_version (version p) p0)))).

Lemma store_community_built L psid p0 :
  grows L -> COMMUNITY_MAX_LEN <= L -> peek_n psid 0 (zlen (community p)) = Some (community p) ->
  store_community psid (zlen (community p)) p0 =
  Some (Some (set_community (community p) (set_community_len (zlen (community p)) p0))).
Proof.
  intros HG HL Hpk. unfold store_community, community_ok in *. unfold COMMUNITY_MAX_LEN in *.
  pose proof (zlen_nonneg (community p)). destruct (Z.eqb_spec (zlen (community p)) 0) as [Hz|_].
  - rewrite Hz. unfold zlen in Hz. by destruct (community p).
  - destruct (malloc_total L (zlen (community p)) HG) as (b & -> & _); [lia|]. by rewrite Hpk.
Qed.

Context (Hc : command p ∈ pdu_commands) (Hf : fields_ok p) (Ho : Forall vbind_ok ovs).

Lemma message_pdu_size : zlen (pdu_ber fr p ovs) <= len /\
  zlen (fields_ber p ++ fr 0x30 (varbinds_ber fr ovs)) <= len.
Proof.
  unfold message_ber. set (B := int_ber _ ++ _). pose proof (frame_contains fr lim 0x30 B) as HB.
  assert (HzB : zlen B = zlen (int_ber (version p)) + zlen (tlv ASN_OCTET_STR (community p)) + zlen (pdu_ber fr p ovs))
    by (subst B; rewrite !zlen_app; lia).
  pose proof (int_ber_bound (version p)). pose proof (zlen_nonneg (tlv ASN_OCTET_STR (community p))).
  unfold pdu_ber in *. pose proof (frame_contains fr lim (command p) (fields_ber p ++ fr 0x30 (varbinds_ber fr ovs))).
  lia.
Qed.

Lemma parse_community_message_built L loc st :
  grows L -> 0x8000 < L -> 0x9000 <= lim -> len < 2 ^ 31 ->
  receiver_ok loc (ms_session st) (ms_pdu st) p ->
  exists st' vps, parse_community_message loc m st d len = Some (st', 0) /\
    Forall2 carries vps (map received_bind ovs) /\
    ms_pdu st' = set_variables vps (arrived p (community_arrived (ms_pdu st))) /\
    ms_session st' = ms_session st /\ ms_globals st' = ms_globals st.
Proof.
  intros HG HL Hlim Hlen (Hsv & Hau & Hps & Hobj & Haa & Hvs). destruct st as [sess p0 g]. cbn [ms_session ms_pdu] in *.
  unfold parse_community_message.
  destruct (snmp_comstr_parse_built (l_community loc) (version p0) (l_ver loc) Hps) as (psid & q & Hcs & Hpk & Hp).
  cbn [ms_pdu]. rewrite Hcs. obind. unfold on_pdu, on_session. cbn [ms_session ms_pdu ms_globals].
  assert (negb (version p =? s_version sess) && negb (s_version sess =? SNMP_DEFAULT_VERSION) = false) as ->.
  { destruct Hsv as [-> | ->]; rewrite Z.eqb_refl; [apply andb_false_r|done]. }
  rewrite (store_community_built L) by (done || (unfold COMMUNITY_MAX_LEN; lia)). obind. cbn [ms_session ms_pdu ms_globals].
  rewrite Hau. unfold parse_pdu. cbn [ms_session ms_pdu ms_globals].
  pose proof message_pdu_size as [Hz1 Hz2].
  destruct (snmp_pdu_parse_built fr lim L m (mkpstate (community_arrived p0) (l_objid loc) (zlen (pdu_ber fr p ovs)) (statistics g)) q p ovs
    HG HL Hlim Hc Hf Ho Hp) as (ps & vps & Hpp & Hcar & Hpd & Hst);
    [cbn [ps_length]; lia|lia|done|done|done|].
  unfold community_arrived in Hpp. rewrite Hpp. obind. eexists _, vps. split; [reflexivity|].
  split_and!; [done|exact Hpd|done|]. rewrite Hst. by destruct g.
Qed.

Lemma arrived_delivered q vps :
  Forall2 carries vps (map received_bind ovs) ->
  delivered p ovs (set_variables vps (arrived p (community_arrived q))).
Proof.
  intros Hv. unfold delivered, arrived, trap_arrived, request_arrived, community_arrived.
  destruct (command p =? SNMP_MSG_TRAP); [done|].
  by destruct (is_one_of (command p) [SNMP_MSG_RESPONSE; SNMP_MSG_REPORT]).
Qed.

Lemma snmp_parse_built L v3 loc st :
  grows L -> 0x8000 < L -> 0x9000 <= lim -> len < 2 ^ 31 ->
  receiver_ok loc (ms_session st) (ms_pdu st) p ->
  exists st', snmp_parse v3 loc m st d len = Some (st', 0) /\ delivered p ovs (ms_pdu st') /\
    ms_session st' = clear_errno (ms_session st) /\ statistics (ms_globals st') = statistics (ms_globals st) /\
    (command p = SNMP_MSG_RESPONSE -> Z.land (flags (ms_pdu st')) UCD_MSG_FLAG_RESPONSE_PDU <> 0).
Proof.
  intros HG HL Hlim Hlen Hr. unfold snmp_parse, _snmp_parse. destruct st as [sess p0 g].
  unfold snmp_get_next_transid. destruct (next_id (ds_16bit_ids g) (Transid g)) as [id transid] eqn:Hid.
  unfold on_session, on_pdu. cbn [ms_session ms_pdu ms_globals] in *. rewrite Hid.
  assert ((if negb (s_version (clear_errno sess) =? SNMP_DEFAULT_VERSION) then Some (s_version (clear_errno sess))
           else snmp_parse_version m d len) = Some (version p)) as ->.
  { destruct Hr as (Hsv & _). cbn [s_version clear_errno].
    destruct Hsv as [-> | ->]; [apply snmp_parse_version_built|].
    rewrite snmp_parse_version_built. by destruct Hver as [-> | ->]. }
  obind. assert (is_one_of (version p) [SNMP_VERSION_1; SNMP_VERSION_2c] = true) as ->
    by (by destruct Hver as [-> | ->]).
  cbn [ms_session ms_pdu ms_globals].
  destruct (parse_community_message_built L loc
    (mkmstate (clear_errno sess) (set_version (version p) (set_transid transid p0)) (set_Transid id g)))
    as (st' & vps & Hpc & Hcar & Hp & Hs & Hg); [done..| |].
  { exact Hr. }
  rewrite Hpc. obind. change (0 =? 0) with true. cbv iota. exists st'. split; [done|].
  rewrite Hp, Hs, Hg. split_and!; [by apply arrived_delivered|done|done|]. intros Hcr. unfold arrived. rewrite Hcr.
  by apply flag_set.
Qed.
End receive.

(** * Sending *)

Section send.
Context {A : Allocator} (v3 : session -> pdu -> rstate -> option (rstate * session * pdu * Z)).

(** The PDU [snmp_build] encodes: the one of the caller with the defaults of its
    command and the community of the session filled in, or the error that is
    reported instead. *)
Definition prepared (sess : session) (p : pdu) : option (pdu * option Z) :=
  let '(p, e) := check_command p in
  match e with
  | Some e => Some (p, Some e)
  | None =>
    if negb (is_one_of (version p) [SNMP_VERSION_1; SNMP_VERSION_2c]) then Some (p, Some SNMPERR_BAD_VERSION)
    else fill_community sess p
  end.

Lemma _snmp_build_prepared g sess p s :
  version p <> SNMP_VERSION_3 ->
  _snmp_build v3 g sess p s =
  ('(p', e) ← prepared (clear_errno sess) p;
   match e with
   | Some e => Some (s, set_snmp_errno e (clear_errno sess), p', -1)
   | None =>
     if ds_reverse_encode g then
       '(s', ok) ← rbuild_message p' s; Some (s', clear_errno sess, p', if (ok : bool) then 0 else -1)
     else
       '(m, len, d) ← build_message p' (pkt s) (pkt_len s);
       match d with
       | NULL => Some (mkrstate m len (offset s), clear_errno sess, p', -1)
       | Ptr cp => Some (mkrstate m cp (offset s), clear_errno sess, p', 0)
       end
   end).
Proof.
  intros Hv. unfold _snmp_build, prepared. rewrite (proj2 (Z.eqb_neq _ _) Hv).
  destruct (check_command p) as [p1 [e|]]; [done|].
  by destruct (negb (is_one_of (version p1) [SNMP_VERSION_1; SNMP_VERSION_2c])).
Qed.

(** Room for the message: the buffer of the caller when the encoding is forward,
    what the allocator gives when it is reverse. *)
Definition has_room (g : globals) (s : rstate) (n : Z) : Prop :=
  if ds_reverse_encode g then rwf s /\ offset s = 0 /\ grows (n + 8192)
  else n <= pkt_len s < 2 ^ 64 /\ pkt_len s <= zlen (pkt s).

Lemma snmp_build_built g sess p p' s ovs :
  version p <> SNMP_VERSION_3 -> prepared (clear_errno sess) p = Some (p', None) -> pdu_ok p' ovs ->
  zlen (message_ber (framing g) p' ovs) <= frame_limit g ->
  has_room g s (zlen (message_ber (framing g) p' ovs)) ->
  exists s', snmp_build v3 g sess p s = Some (s', clear_errno sess, p', g, 0) /\
    wire g s' = message_ber (framing g) p' ovs.
Proof.
  intros Hv Hp Hok. unfold snmp_build, wire, framing, frame_limit, has_room. rewrite (_snmp_build_prepared g sess p s Hv), Hp. obind.
  destruct (ds_reverse_encode g); intros Hsz Hr.
  - destruct Hr as (Hw & Ho & HG). set (bs := message_ber tlv p' ovs) in *.
    destruct (rbuild_message_post p' ovs s Hok Hw Hsz) as (s' & ok & -> & Hw' & Hg). obind.
    destruct (Hg ltac:(by rewrite Ho)) as [-> Hwr]. exists s'. split; [done|]. rewrite Hwr.
    assert (written s = []) as ->; [|apply app_nil_r].
    apply length_zero_iff_nil. pose proof (zlen_written s Hw). unfold zlen in *. lia.
  - destruct Hr as (Hlen & Hm). set (bs := message_ber long_frame p' ovs) in *. pose proof (zlen_nonneg bs).
    pose proof (build_message_builds p' ovs Hok Hsz (pkt s) (pkt_len s) ltac:(lia) Hm) as Hb.
    unfold bpost in Hb. rewrite decide_True in Hb by (fold bs; lia). rewrite Hb. obind.
    eexists. split; [reflexivity|]. cbn [pkt_len pkt]. fold bs. unfold patch, zlen in *.
    change (take (Z.to_nat 0) (pkt s)) with (@nil Z). by rewrite app_nil_l, take_app_le, take_ge by lia.
Qed.
End send.

(** * The protocol versions *)

(** The types of PDU each version has, as RFC 1157 and RFC 3416 list them; a
    report is never sent by [snmp_build]. *)
Definition protocol : list (Z * Z) :=
  ((SNMP_VERSION_1,.) <$> [SNMP_MSG_GET; SNMP_MSG_GETNEXT; SNMP_MSG_RESPONSE; SNMP_MSG_SET; SNMP_MSG_TRAP]) ++
  ((SNMP_VERSION_2c,.) <$> [SNMP_MSG_GET; SNMP_MSG_GETNEXT; SNMP_MSG_RESPONSE; SNMP_MSG_SET; SNMP_MSG_GETBULK;
                            SNMP_MSG_INFORM; SNMP_MSG_TRAP2]).

Definition sendable (p : pdu) : Prop :=
  (version p, command p) ∈ protocol /\
  (command p = SNMP_MSG_GETBULK -> 0 <= errstat p /\ 0 <= errindex p).

#[export] Instance sendable_dec p : Decision (sendable p).
Proof. unfold sendable. apply _. Defined.

Section protocol.
Context {A : Allocator}.

Lemma check_command_version p : version (check_command p).1 = version p.
Proof. unfold check_command, default_errs. by repeat case_match. Qed.

Lemma prepared_version sess p p' :
  prepared sess p = Some (p', None) -> version p' = version p /\ community_version p.
Proof.
  unfold prepared. pose proof (check_command_version p) as Hv. destruct (check_command p) as [p1 [e|]]; [done|].
  cbn [fst] in Hv. rewrite Hv. destruct (is_one_of (version p) _) eqn:Hone; [|done]. cbn [negb]. intros Hf.
  assert (version p' = version p1) as ->.
  { unfold fill_community in Hf. repeat (case_match; simplify_option_eq); done. }
  split; [done|]. unfold is_one_of in Hone. cbn [existsb] in Hone. unfold community_version. lia.
Qed.

(** The refusals of [check_command] and of the test of the version, together. *)
Lemma not_sendable_refused sess p :
  version p <> SNMP_VERSION_3 -> ~ sendable p ->
  exists p' e, prepared sess p = Some (p', Some e) /\ e <> 0.
Proof.
  intros Hv Hns. unfold prepared.
  destruct (check_command p) as [p1 [e|]] eqn:Hcc.
  { exists p1, e. split; [done|]. unfold check_command in Hcc. repeat case_match; simplify_eq; done. }
  pose proof (check_command_version p) as Hv1. rewrite Hcc in Hv1. cbn [fst] in Hv1. rewrite Hv1.
  destruct (is_one_of (version p) _) eqn:Hone; [|by exists p1, SNMPERR_BAD_VERSION]. exfalso. apply Hns.
  unfold sendable, protocol. rewrite elem_of_app, !list_elem_of_fmap.
  assert (Hver : version p = SNMP_VERSION_1 \/ version p = SNMP_VERSION_2c).
  { unfold is_one_of in Hone. cbn [existsb] in Hone. lia. }
  revert Hcc. unfold check_command, is_one_of. cbn [existsb].
  repeat match goal with |- context [command p =? ?k] => destruct (Z.eqb_spec (command p) k) as [->|?] end;
    cbn [orb]; destruct Hver as [-> | ->]; cbn; intros Hcc; simplify_eq;
    repeat (match type of Hcc with context [if ?b then _ else _] => destruct b eqn:? end; simplify_eq);
    (split; [|intros; first [done|lia]]); (left; eexists; split; [done|by_decide]) || (right; eexists; split; [done|by_decide]).
Qed.

Definition same_message (p p' : pdu) : Prop :=
  version p' = version p /\ command p' = command p /\ variables p' = variables p /\
  community p' = community p /\ community_len p' = community_len p.

Lemma check_command_sendable p :
  sendable p -> (command p = SNMP_MSG_TRAP -> enterprise_length p <> 0) ->
  exists p', check_command p = (p', None) /\ same_message p p'.
Proof.
  intros [Hp Hb] He. unfold protocol in Hp. rewrite elem_of_app, !list_elem_of_fmap in Hp.
  assert (Hd : same_message p (default_errs p)) by (unfold default_errs; by repeat case_match).
  unfold check_command, is_one_of. cbn [existsb].
  destruct Hp as [(c & [= Hv Hcp] & Hc) | (c & [= Hv Hcp] & Hc)]; rewrite Hv, Hcp; revert Hcp; pick_type Hc; intros Hcp;
    cbn -[default_errs]; try (eexists; split; [reflexivity|done]).
  - unfold SNMP_DEFAULT_ENTERPRISE_LENGTH. destruct (Z.eqb_spec (enterprise_length p) 0) as [E|_]; [by apply He in E|].
    eexists; split; [reflexivity|]. by case_match.
  - destruct Hb as [Hb1 Hb2]; [done|].
    rewrite (proj2 (Z.ltb_ge _ _) Hb1), (proj2 (Z.ltb_ge _ _) Hb2). by eexists.
Qed.

Lemma sendable_prepared sess p :
  sendable p -> (command p = SNMP_MSG_TRAP -> enterprise_length p <> 0) -> community_len p <> 0 ->
  exists p', prepared sess p = Some (p', None) /\ same_message p p'.
Proof.
  intros Hs He Hc. destruct (check_command_sendable p Hs He) as (p' & Hcc & Hsame). unfold prepared. rewrite Hcc.
  exists p'. split; [|done]. destruct Hsame as (Hv & _ & _ & _ & Hcl). rewrite Hv.
  assert (is_one_of (version p) [SNMP_VERSION_1; SNMP_VERSION_2c] = true) as ->.
  { destruct Hs as [Hp _]. unfold protocol in Hp. rewrite elem_of_app, !list_elem_of_fmap in Hp.
    by destruct Hp as [(c & [= -> _] & _) | (c & [= -> _] & _)]. }
  cbn [negb]. unfold fill_community. by rewrite (proj2 (Z.eqb_neq _ _)) by (by rewrite Hcl).
Qed.
End protocol.

(** * Theorems *)

Section theorems.
Context {A : Allocator}.
Context (v3_build : session -> pdu -> rstate -> option (rstate * session * pdu * Z)).

(** C1: a message [snmp_build] sends is the message [snmp_parse] delivers: in
    either encoding, for every PDU of SNMPv1 or SNMPv2c whose message the
    encoding can frame, the bytes handed to the transport are parsed into the
    same version, community, command, fields and variable bindings, up to the
    32-bit ranges of the wire format. *)
Theorem message_roundtrip (v3_parse : list Z -> mstate -> Z -> Z -> option (mstate * Z)) L g sess p p' s ovs loc st :
  version p <> SNMP_VERSION_3 -> prepared (clear_errno sess) p = Some (p', None) ->
  pdu_ok p' ovs -> community_ok p' -> zlen (message_ber (framing g) p' ovs) <= frame_limit g ->
  has_room g s (zlen (message_ber (framing g) p' ovs)) ->
  grows L -> 0x8000 < L -> receiver_ok loc (ms_session st) (ms_pdu st) p' ->
  exists s', snmp_build v3_build g sess p s = Some (s', clear_errno sess, p', g, 0) /\
    forall m d, holds m d (wire g s') ->
    exists st', snmp_parse v3_parse loc m st d (zlen (wire g s')) = Some (st', 0) /\
      delivered p' ovs (ms_pdu st').
Proof.
  intros Hv Hp Hok Hcom Hsz Hroom HG HL Hr.
  destruct (snmp_build_built v3_build g sess p p' s ovs Hv Hp Hok Hsz Hroom) as (s' & Hb & Hw).
  exists s'. split; [done|]. rewrite Hw. intros m d Hh. apply prepared_version in Hp as [Hv' Hcv].
  destruct Hok as (Hc & Hf & Ho & _ & Hcb & _). unfold community_version in Hcv. rewrite <- Hv' in Hcv.
  assert (Hlim : 0x9000 <= frame_limit g <= 0x7fffffff) by (unfold frame_limit; destruct (ds_reverse_encode g); lia).
  destruct (snmp_parse_built (framing g) (frame_limit g) m d p' ovs Hcv Hcom Hcb Hh Hsz Hc Hf Ho L v3_parse loc st)
    as (st' & Hps & Hdel & _); [done|lia|lia|lia|done|]. by exists st'.
Qed.

(** C33: [snmp_build] encodes, for a PDU of SNMPv1 or SNMPv2c it has accepted and
    whose message the encoding can frame, and it never leaves its buffer.  When
    there is room -- of the caller's for the forward encoding, of the allocator's
    for the reverse one -- it succeeds and the packet is the encoding of the
    message.  A failure is reported as [SNMPERR_BAD_ASN1_BUILD].  The forward
    encoding fails when there is no room.  The reverse one, whose allocator may
    refuse at any time, does not always: it looks at the result of every builder
    but that of the header of the list of variables, so a packet it does not
    refuse is the encoding of the message up to that header, which is missing, or
    there in part, when its builder has failed ([list_header]). *)
Theorem snmp_build_encodes g sess p p' s ovs :
  version p <> SNMP_VERSION_3 -> prepared (clear_errno sess) p = Some (p', None) ->
  pdu_ok p' ovs -> zlen (message_ber (framing g) p' ovs) <= frame_limit g ->
  (if ds_reverse_encode g then rwf s /\ offset s = 0 else 0 <= pkt_len s < 2 ^ 64 /\ pkt_len s <= zlen (pkt s)) ->
  exists s' sess' g' rc, snmp_build v3_build g sess p s = Some (s', sess', p', g', rc) /\
    (rc = 0 /\ sess' = clear_errno sess /\ g' = g \/
     rc = -1 /\ s_snmp_errno sess' = SNMPERR_BAD_ASN1_BUILD /\ snmp_errno g' = SNMPERR_BAD_ASN1_BUILD) /\
    (has_room g s (zlen (message_ber (framing g) p' ovs)) -> rc = 0 /\ wire g s' = message_ber (framing g) p' ovs) /\
    (if ds_reverse_encode g then rc = 0 -> exists h, list_header ovs h /\ wire g s' = message_with p' ovs h
     else pkt_len s < zlen (message_ber (framing g) p' ovs) -> rc = -1).
Proof.
  intros Hv Hp Hok Hsz Hs.
  assert (Hroom : has_room g s (zlen (message_ber (framing g) p' ovs)) -> exists s', snmp_build v3_build g sess p s =
    Some (s', clear_errno sess, p', g, 0) /\ wire g s' = message_ber (framing g) p' ovs)
    by (intros; by apply snmp_build_built).
  revert Hsz Hroom. unfold snmp_build, framing, frame_limit, has_room.
  rewrite (_snmp_build_prepared v3_build g sess p s Hv), Hp. obind.
  destruct (ds_reverse_encode g) eqn:Hre; intros Hsz Hroom.
  - destruct Hs as [Hw Ho]. destruct (rbuild_message_post p' ovs s Hok Hw Hsz) as (s' & ok & Hb & _). rewrite Hb in *. obind.
    assert (Hcm : zlen (community p') < 2 ^ 63) by (pose proof (community_fits p' ovs _ Hsz); lia).
    destruct (rbuild_message_ends p' ovs s Hok Hw Ho Hcm) as (s0 & ok0 & Hb0 & _ & He). rewrite Hb in Hb0. injection Hb0 as <- <-.
    destruct ok; cbn in *; do 4 eexists; (split; [reflexivity|]); (split; [tauto|]); (split; [|intros Hrc; first [done|unfold wire; rewrite Hre; by apply He]]).
    all: intros Hr; destruct (Hroom Hr) as (s'' & [= <-] & Hwr); done.
  - destruct Hs as [Hl Hm]. set (bs := message_ber long_frame p' ovs) in *.
    pose proof (build_message_builds p' ovs Hok Hsz (pkt s) (pkt_len s) Hl Hm) as Hb. fold bs in Hb. unfold bpost in Hb.
    destruct (decide (zlen bs <= pkt_len s)) as [Hle|Hgt].
    + rewrite Hb in *. obind. cbn in *. do 4 eexists. split; [reflexivity|]. split; [tauto|]. split; [|lia].
      intros Hr. destruct (Hroom Hr) as (s'' & [= <-] & Hwr). done.
    + destruct Hb as (m' & dl' & -> & _). obind. cbn -[message_ber zlen]. do 4 eexists. split; [reflexivity|]. split; [tauto|]. split; [intros [? _]; lia|done].
Qed.

(** no message of SNMPv1 or SNMPv2c leaves [snmp_build] with a PDU its
    protocol version does not have: it is refused with an error code and the
    packet untouched; every other PDU with a community (and, for a trap, an
    enterprise) is accepted as it is. *)
Theorem snmp_build_protocol g sess p s :
  version p <> SNMP_VERSION_3 ->
  (~ sendable p ->
   exists p' e, e <> 0 /\
     snmp_build v3_build g sess p s = Some (s, set_snmp_errno e (clear_errno sess), p', SET_SNMP_ERROR e g, -1)) /\
  (sendable p -> (command p = SNMP_MSG_TRAP -> enterprise_length p <> 0) -> community_len p <> 0 ->
   exists p', prepared (clear_errno sess) p = Some (p', None) /\ same_message p p').
Proof.
  intros Hv. split; [|by apply sendable_prepared]. intros Hns.
  destruct (not_sendable_refused (clear_errno sess) p Hv Hns) as (p' & e & Hp & He). exists p', e. split; [done|].
  unfold snmp_build. rewrite (_snmp_build_prepared v3_build g sess p s Hv), Hp. obind.
  change (-1 =? 0) with false. cbv iota. cbn [s_snmp_errno set_snmp_errno]. by rewrite (proj2 (Z.eqb_neq _ _) He).
Qed.
End theorems.

(** * Concrete instances *)

#[local] Existing Instance big_heap.

Lemma big_heap_grows L : L <= 2 ^ 63 -> grows L.
Proof.
  intros HL b n Hn. unfold realloc, big_heap.
  rewrite (proj2 (Z.leb_le _ _)), (proj2 (Z.ltb_lt _ _)) by lia. by eexists.
Qed.

#[local] Definition no_v3_build (sess : session) (p : pdu) (s : rstate) : option (rstate * session * pdu * Z) :=
  Some (s, sess, p, -1).
#[local] Definition no_v3_parse (m : list Z) (st : mstate) (d len : Z) : option (mstate * Z) := Some (st, -1).

Definition blank_pdu : pdu := mkpdu 0 0 0 0 0 0 0 0 0 0 0 [] [] 0 [] 0 0 0 [0; 0; 0; 0].
Definition sample_globals (reverse : bool) : globals := mkglobals 7 7 7 7 (replicate 40 0) 0 false reverse.
Definition sample_session : session := mksession SNMP_VERSION_2c [112; 117; 98] 3 0 0 None.

(** A bulk request of SNMPv2c, with the community of the session. *)
Definition sample_bindings : list vbind :=
  [([1; 3; 6; 1; 2; 1; 1; 3; 0], VNull ASN_NULL); ([1; 3; 6; 1; 2; 1; 1; 5; 0], VStr ASN_OCTET_STR [104; 105]);
   ([1; 3; 6; 1; 4; 1; 8072; 300000], VInt (-129))].
Definition sample_pdu : pdu :=
  set_variables (map var_of sample_bindings)
    (set_errindex 10 (set_reqid 1234567 (set_command SNMP_MSG_GETBULK (set_version SNMP_VERSION_2c blank_pdu)))).
(** The same as [snmp_build] sends it. *)
Definition sample_sent : pdu := set_community [112; 117; 98] (set_community_len 3 sample_pdu).

Lemma sample_ok : pdu_ok sample_sent sample_bindings.
Proof. unfold pdu_ok. split_and!; by_decide. Qed.

Definition sample_locals : locals := mklocals (replicate 256 0) (replicate 128 0) 0.
Definition sample_state : mstate := mkmstate sample_session blank_pdu (sample_globals false).

Lemma message_roundtrip_witness :
  (exists s', snmp_build no_v3_build (sample_globals false) sample_session sample_pdu (mkrstate (replicate 200 0) 200 0) =
     Some (s', clear_errno sample_session, sample_sent, sample_globals false, 0) /\
   forall m d, holds m d (wire (sample_globals false) s') ->
   exists st', snmp_parse no_v3_parse sample_locals m sample_state d (zlen (wire (sample_globals false) s')) = Some (st', 0) /\
     delivered sample_sent sample_bindings (ms_pdu st')) /\
  exists s', snmp_build no_v3_build (sample_globals true) sample_session sample_pdu (mkrstate [] 0 0) =
     Some (s', clear_errno sample_session, sample_sent, sample_globals true, 0) /\
   forall m d, holds m d (wire (sample_globals true) s') ->
   exists st', snmp_parse no_v3_parse sample_locals m sample_state d (zlen (wire (sample_globals true) s')) = Some (st', 0) /\
     delivered sample_sent sample_bindings (ms_pdu st').
Proof.
  split; (apply (message_roundtrip no_v3_build no_v3_parse (2 ^ 62)); [done|reflexivity|exact sample_ok|by_decide|by_decide| | | |]);
    try (unfold has_room; cbn; split_and!; (by_decide || (apply big_heap_grows; by_decide))); try (apply big_heap_grows; by_decide);
    try by_decide; (unfold receiver_ok; split_and!; [by right|done..]).
Defined.

Lemma snmp_build_encodes_witness :
  exists s' sess' g' rc,
    snmp_build no_v3_build (sample_globals false) sample_session sample_pdu (mkrstate (replicate 20 0) 20 0) =
      Some (s', sess', sample_sent, g', rc) /\
    (rc = 0 /\ sess' = clear_errno sample_session /\ g' = sample_globals false \/
     rc = -1 /\ s_snmp_errno sess' = SNMPERR_BAD_ASN1_BUILD /\ snmp_errno g' = SNMPERR_BAD_ASN1_BUILD) /\
    (has_room (sample_globals false) (mkrstate (replicate 20 0) 20 0)
       (zlen (message_ber (framing (sample_globals false)) sample_sent sample_bindings)) ->
     rc = 0 /\ wire (sample_globals false) s' = message_ber (framing (sample_globals false)) sample_sent sample_bindings) /\
    (20 < zlen (message_ber (framing (sample_globals false)) sample_sent sample_bindings) -> rc = -1).
Proof.
  apply (snmp_build_encodes no_v3_build (sample_globals false) sample_session sample_pdu sample_sent
           (mkrstate (replicate 20 0) 20 0) sample_bindings); [done|reflexivity|exact sample_ok|by_decide|by_decide].
Defined.

Lemma snmp_build_protocol_witness :
  ~ sendable (set_version SNMP_VERSION_1 sample_pdu) /\
  (exists p' e, e <> 0 /\
    snmp_build no_v3_build (sample_globals false) sample_session (set_version SNMP_VERSION_1 sample_pdu) (mkrstate [] 0 0) =
    Some (mkrstate [] 0 0, set_snmp_errno e (clear_errno sample_session), p', SET_SNMP_ERROR e (sample_globals false), -1)) /\
  exists p', prepared (clear_errno sample_session) sample_sent = Some (p', None) /\ same_message sample_sent p'.
Proof.
  split; [by_decide|]. split.
  - apply (snmp_build_protocol no_v3_build); [done|by_decide].
  - apply (snmp_build_protocol no_v3_build (sample_globals false) _ _ (mkrstate [] 0 0)); [done|by_decide|done|done].
Defined.
