(* ===== verification/PduSafety.v ===== *)
(** The parsers of PDUs and messages on arbitrary packets: whatever the bytes,
    whatever the allocator does, they stop with a result code, stay inside the
    packet and their own objects, and what they hand over on success is well
    typed.

    The values of the bindings are parsed as if the packet had no end
    ([MAX_PACKET_LENGTH]); what makes this safe is that [snmp_parse_var_op] has
    parsed the same header before, against the real end. *)
From Stdlib Require Import ZArith Lia.
From S2P Require Import Prelude Oid Asn1Defs SnmpDefs Ber Asn1Parse Asn1ParseProps Asn1ParseWide Asn1Build Asn1RBuild.
From S2P Require Import Asn1BuildProps SnmpVar SnmpVarProps Codec Pdu Message PduSpec PduParseProps MessageProps.

#[local] Arguments parse_length_checked : simpl never.
#[local] Arguments and_byte_is : simpl never.
#[local] Arguments and_nonzero : simpl never.
#[local] Arguments Z.land : simpl never.

(** * Headers that were accepted *)

(** A length that is right for some end is right for a later one. *)
Lemma parse_length_checked_mono m bufp data dlen dlen' n p :
  dlen <= dlen' -> parse_length_checked m bufp data dlen = Some (Some (n, p)) ->
  parse_length_checked m bufp data dlen' = Some (Some (n, p)).
Proof.
  intros Hle H. unfold parse_length_checked in *. destruct (asn_parse_length m (Ptr bufp) 0) as [[l q]|]; [|done].
  simpl in *. destruct (_asn_parse_length_check q data l dlen) eqn:Hc; [done|].
  assert (_asn_parse_length_check q data l dlen' = false) as ->; [|done].
  unfold _asn_parse_length_check in *. destruct q; [done|]. bool_prop. lia.
Qed.

(** [asn_parse_header] has accepted, against the end [data + dl], a header of
    type [t] at [data] with [n] bytes of contents: a plain one, or one of the
    types that are wrapped in an [ASN_OPAQUE]. *)
Inductive accepted (m : list Z) (data dl : Z) : Z -> Z -> Prop :=
| accepted_plain t n p :
  peek m data = Some t -> parse_length_checked m (data + 1) data dl = Some (Some (n, p)) ->
  accepted m data dl t n
| accepted_wrapped t k p n q :
  peek m data = Some ASN_OPAQUE -> parse_length_checked m (data + 1) data dl = Some (Some (k, p)) ->
  peek m p = Some ASN_OPAQUE_TAG1 -> peek m (p + 1) = Some t -> is_opaque_special t = true ->
  parse_length_checked m (p + 2) data dl = Some (Some (n, q)) -> accepted m data dl t n.

Lemma and_byte_is_true g m p t : and_byte_is g m p t = Some true -> g = true /\ peek m p = Some t.
Proof. unfold and_byte_is. destruct g; [|done]. intros H. run_inv. bool_prop. by subst. Qed.

Lemma and_byte_is_at g m p t : peek m p = Some t -> and_byte_is g m p t = Some g.
Proof. intros H. unfold and_byte_is. destruct g; [|done]. rewrite H. simpl. by rewrite Z.eqb_refl. Qed.

Lemma asn_parse_header_accepted m data dl ty s q :
  bytes m -> asn_parse_header m (Ptr data) (mkpout dl ty tt) = Some (s, Ptr q) ->
  accepted m data dl (type s) (datalength s) /\
  data + 1 < q <= data + 29 /\ 0 <= datalength s <= 0x7fffffff /\ q + datalength s <= data + dl.
Proof.
  intros Hm H. unfold asn_parse_header in H. run_inv;
    try match goal with Hs : and_byte_is _ _ _ _ = Some true |- _ => apply and_byte_is_true in Hs as [Ho Ht] end;
    match goal with Hl : parse_length_checked _ (data + 1) _ _ = Some (Some _) |- _ =>
      pose proof Hl as Hb; apply parse_length_checked_inv in Hb; [|done|lia] end;
    try match goal with Hl : parse_length_checked _ (_ + 2) _ _ = Some (Some _) |- _ =>
      pose proof Hl as Hb2; apply parse_length_checked_inv in Hb2; [|done|lia] end;
    cbn [datalength type set_datalength set_type] in *; rewrite s32_len by lia; rewrite wrap_small by lia; (split; [|lia]).
  all: first [by eapply accepted_plain | bool_prop; subst; by eapply accepted_wrapped].
Qed.

(** * Values *)

Lemma poke_n_length m p bs m' : poke_n m p bs = Some m' -> length m' = length m.
Proof. unfold poke_n. destruct (_ && _) eqn:E; [|done]. intros [= <-]. bool_prop. apply length_patch; lia. Qed.

Lemma poke_length m p v m' : poke m p v = Some m' -> length m' = length m.
Proof. unfold poke. destruct (_ && _); [|done]. intros [= <-]. apply length_insert. Qed.

(** A parser returns; if it returns a place, [P] holds of what it stored. *)
Definition ends {T} (P : pout T -> Prop) (res : option (pout T * ptr)) : Prop :=
  exists s q, res = Some (s, q) /\ (q = NULL \/ P s).

Lemma ends_intro {T} (P : pout T -> Prop) res :
  is_Some res -> (forall s q, res = Some (s, Ptr q) -> P s) -> ends P res.
Proof. intros [[s q] ->] HP. exists s, q. split; [done|]. destruct q; [by left|right; by eapply HP]. Qed.

(** One step of a parser where the header has been accepted. *)
Ltac value_step :=
  match goal with
  | H : peek ?m ?p = Some _ |- is_Some (peek ?m ?p ≫= _) => rewrite H; simpl
  | H : parse_length_checked ?m ?b ?d ?l = Some _ |- context [parse_length_checked ?m ?b ?d ?l] => rewrite H; simpl
  | |- is_Some (and_byte_is (_ && _) _ _ _ ≫= _) => progress (eval_types; cbn [andb])
  | |- is_Some (and_byte_is false _ _ _ ≫= _) => unfold and_byte_is at 1; simpl
  | _ => safe_step
  end.

(** An identifier that was parsed is inside its object. *)
Lemma objid_loop_length fuel m bufp oidp len objid n r :
  objid_loop fuel m bufp oidp len objid n = Some (Next r) -> length r.1.2 = length objid.
Proof.
  revert bufp oidp len objid n. induction fuel as [|fuel IH]; intros bufp oidp len objid n H; simpl in H; run_inv; try done.
  all: match goal with Ho : objid_loop _ _ _ _ _ _ _ = Some _ |- _ => apply IH in Ho as -> end; by eapply poke_length.
Qed.

Lemma objid_empty_length n o o' : objid_empty n o = Some o' -> length o' = length o.
Proof.
  unfold objid_empty. intros H. run_inv; [|done].
  repeat match goal with Hp : poke _ _ _ = Some _ |- _ => apply poke_length in Hp end. congruence.
Qed.

Lemma objid_first_two_length o o' : objid_first_two o = Some o' -> length o' = length o.
Proof.
  unfold objid_first_two. intros H. run_inv;
  repeat match goal with Hp : poke _ _ _ = Some _ |- _ => apply poke_length in Hp end; congruence.
Qed.

(** What a parser of identifiers leaves on success. *)
Definition oid_stored (objid : list Z) (n : Z) (s : pout (list Z * Z)) : Prop :=
  type s = ASN_OBJECT_ID /\ zlen (out s).1 = zlen objid /\ 1 <= (out s).2 <= n.

Lemma asn_parse_objid_stored m data dl ty objid n s q :
  bytes m -> 1 <= n < 2 ^ 31 ->
  asn_parse_objid m data (mkpout dl ty (objid, n)) = Some (s, Ptr q) -> oid_stored objid n s.
Proof.
  intros Hm Hn H. unfold asn_parse_objid in H. simpl in H. run_inv. use_checked. bool_prop. subst.
  match goal with Ho : objid_loop _ _ _ _ _ _ _ = Some _ |- _ =>
    pose proof (objid_loop_length _ _ _ _ _ _ _ _ Ho); rewrite (wrap_small 64) in Ho by lia;
    apply objid_loop_inv in Ho as (_ & _ & ?); [|lia|lia] end.
  match goal with Ho : objid_empty _ _ = Some _ |- _ => apply objid_empty_length in Ho end.
  match goal with Ho : objid_first_two _ = Some _ |- _ => apply objid_first_two_length in Ho end.
  unfold oid_stored, zlen. cbn in *. split_and!; [done|congruence| |];
    rewrite (swrap_small 32), wrap_small; lia.
Qed.

Section value.
Context (m : list Z) (data dl t n : Z).
Context (Hr : readable m data dl) (Hdl : dl <= MAX_PACKET_LENGTH) (Ha : accepted m data dl t n).

(** The facts of an accepted header, against the end the value parsers use. *)
Ltac enter_accepted :=
  destruct Hr as (Hm & ? & ? & ?);
  destruct Ha as [t' n' p Hpk Hp1 | t' k p n' q Hpk Hp1 Htag Hpt Hsp Hp2];
  pose proof Hp1 as Hb; apply parse_length_checked_inv in Hb as (? & ? & ?); [|done|lia| |done|lia];
  apply (parse_length_checked_mono _ _ _ _ MAX_PACKET_LENGTH _ _ Hdl) in Hp1;
  [|pose proof Hp2 as Hb2; apply parse_length_checked_inv in Hb2 as (? & ? & ?); [|done|lia];
    apply (parse_length_checked_mono _ _ _ _ MAX_PACKET_LENGTH _ _ Hdl) in Hp2].

Lemma value_int_ends ty x :
  t = ASN_INTEGER -> ends (fun s => type s = ASN_INTEGER) (asn_parse_int m data (mkpout MAX_PACKET_LENGTH ty x) sizeof_long).
Proof.
  intros Ht. apply ends_intro.
  - enter_accepted; [|by subst]. unfold asn_parse_int. repeat value_step.
  - intros s q' H. unfold asn_parse_int in H. run_inv. bool_prop. done.
Qed.

Definition uint_types : list Z := [ASN_COUNTER; ASN_GAUGE; ASN_TIMETICKS; ASN_UINTEGER].

Lemma value_uint_ends ty x :
  t ∈ uint_types ->
  ends (fun s => type s ∈ uint_types) (asn_parse_unsigned_int m data (mkpout MAX_PACKET_LENGTH ty x) sizeof_long).
Proof.
  intros Ht. apply ends_intro.
  - enter_accepted; [|unfold uint_types in Ht; by pick_type Ht]. unfold asn_parse_unsigned_int. repeat value_step.
  - intros s q' H. unfold asn_parse_unsigned_int in H. run_inv; bool_prop; unfold uint_types; rewrite !elem_of_cons; tauto.
Qed.

Definition c64_types : list Z := [ASN_OPAQUE_COUNTER64; ASN_OPAQUE_U64; ASN_COUNTER64].

Lemma value_uint64_ends ty c :
  t ∈ c64_types ->
  ends (fun s => type s ∈ c64_types)
    (asn_parse_unsigned_int64 m data (mkpout MAX_PACKET_LENGTH ty c) sizeof_counter64).
Proof.
  intros Ht. unfold c64_types in *. apply ends_intro.
  - enter_accepted; pick_type Ht; unfold asn_parse_unsigned_int64; repeat value_step.
  - intros s q' H. enter_accepted; pick_type Ht; unfold asn_parse_unsigned_int64 in H;
      rewrite Hpk in H; simpl in H; try done; rewrite Hp1 in H; simpl in H;
      try rewrite (and_byte_is_at _ _ _ _ Htag) in H; run_inv; try by_decide;
      exfalso; bool_prop; destruct_and?; subst;
      match goal with Hw : and_byte_is _ _ _ _ = Some _ |- _ => rewrite (and_byte_is_at _ _ _ _ Hpt) in Hw end;
      simplify_eq; bool_prop; rewrite s32_len in * by lia;
      unfold ASN_OPAQUE_COUNTER64_MX_BER_LEN, int64sizelimit in *; lia.
Qed.

Lemma value_int64_ends ty c :
  t = ASN_OPAQUE_I64 ->
  ends (fun s => type s = ASN_OPAQUE_I64)
    (asn_parse_signed_int64 m data (mkpout MAX_PACKET_LENGTH ty c) sizeof_counter64).
Proof.
  intros Ht. apply ends_intro.
  - enter_accepted; subst; unfold asn_parse_signed_int64; repeat value_step.
  - intros s q' H. unfold asn_parse_signed_int64 in H. run_inv; bool_prop; subst;
      match goal with Hw : and_byte_is _ _ _ _ = Some true |- _ => apply and_byte_is_true in Hw as [_ ?] end;
      by simplify_eq.
Qed.

Lemma value_float_ends ty x :
  t = ASN_OPAQUE_FLOAT ->
  ends (fun s => type s = ASN_OPAQUE_FLOAT) (asn_parse_float m data (mkpout MAX_PACKET_LENGTH ty x) sizeof_float).
Proof.
  intros Ht. apply ends_intro.
  - enter_accepted; subst; unfold asn_parse_float; repeat value_step.
  - intros s q' H. unfold asn_parse_float in H. run_inv; bool_prop; done.
Qed.

Lemma value_double_ends ty x :
  t = ASN_OPAQUE_DOUBLE ->
  ends (fun s => type s = ASN_OPAQUE_DOUBLE) (asn_parse_double m data (mkpout MAX_PACKET_LENGTH ty x) sizeof_double).
Proof.
  intros Ht. apply ends_intro.
  - enter_accepted; subst; unfold asn_parse_double; repeat value_step.
  - intros s q' H. unfold asn_parse_double in H. run_inv; bool_prop; done.
Qed.

Definition str_types : list Z := [ASN_IPADDRESS; ASN_OCTET_STR; ASN_OPAQUE; ASN_NSAP].

(** A string of [n] bytes in an object of that size. *)
Lemma value_string_ends ty str :
  t ∈ str_types -> n <= zlen str ->
  ends (fun s => type s = t /\ (out s).2 = n /\ zlen (out s).1 = zlen str)
    (asn_parse_string m data (mkpout MAX_PACKET_LENGTH ty (str, n))).
Proof.
  intros Ht Hn. unfold str_types, zlen in *. apply ends_intro.
  - enter_accepted; [|by pick_type Ht]. unfold asn_parse_string. repeat value_step.
    all: rewrite poke_n_patch by lia; simpl; repeat value_step.
  - intros s q' H. enter_accepted; [|by pick_type Ht]. unfold asn_parse_string in H.
    rewrite Hpk in H; simpl in H. rewrite Hp1 in H. run_inv; bool_prop; try lia.
    all: match goal with Hw : poke_n _ _ _ = Some _ |- _ => apply poke_n_length in Hw end; cbn; auto.
Qed.

Lemma value_bits_ends ty str :
  t = ASN_BIT_STR -> n <= zlen str ->
  ends (fun s => type s = ASN_BIT_STR /\ (out s).2 = n /\ 1 <= n /\ zlen (out s).1 = zlen str)
    (asn_parse_bitstring m data (mkpout MAX_PACKET_LENGTH ty (str, n))).
Proof.
  intros Ht Hn. unfold zlen in *. apply ends_intro.
  - enter_accepted; [|by subst]. unfold asn_parse_bitstring. repeat value_step.
    rewrite poke_n_patch by lia; simpl; repeat value_step.
  - intros s q' H. enter_accepted; [|by subst]. unfold asn_parse_bitstring in H.
    rewrite Hpk in H; simpl in H. run_inv. bool_prop.
    match goal with Hw : poke_n _ _ _ = Some _ |- _ => apply poke_n_length in Hw end.
    unfold _asn_bitstring_check in *. bool_prop. rewrite s32_len, wrap_small by lia. cbn. lia.
Qed.

Lemma value_objid_ends ty objid sz :
  t = ASN_OBJECT_ID -> 2 <= zlen objid < 2 ^ 31 -> 1 <= sz <= zlen objid ->
  ends (oid_stored objid sz) (asn_parse_objid m data (mkpout MAX_PACKET_LENGTH ty (objid, sz))).
Proof.
  intros Ht Ho Hk. unfold zlen in *. apply ends_intro; [|intros s q; apply asn_parse_objid_stored; [apply Hr|lia]].
  enter_accepted; [|by subst]. unfold asn_parse_objid. cbn [out]. repeat value_step.
  destruct (objid_empty_total n' objid) as (o1 & -> & Hl1); [lia|]. simpl. rewrite (wrap_small 64 (sz - 1)) by lia.
  match goal with |- is_Some (objid_loop ?f ?m ?b ?p ?l ?o ?n ≫= _) =>
    destruct (objid_loop_total f m b p l o n) as (f' & -> & Hl'); [lia..|]; simpl end.
  destruct f' as [r|[[[[q o2] l] objid'] j]]; [by eexists|].
  specialize (Hl' _ _ _ _ _ eq_refl). safe_step; [by eexists|].
  destruct (objid_first_two_total objid') as (o3 & -> & _); [lia|]. by eexists.
Qed.
End value.

(** * A binding *)

(** [readable] only looks at where the announced data ends. *)
Lemma readable_sub m d dl d' dl' :
  readable m d dl -> d <= d' -> 0 <= dl' -> d' + dl' <= d + dl -> readable m d' dl'.
Proof. intros (Hm & ? & ? & ?) ? ? ?. split; [done|]. lia. Qed.

Lemma asn_parse_sequence_ends m d dl ty ty' :
  readable m d dl ->
  exists s q, asn_parse_sequence m (Ptr d) (mkpout dl ty tt) ty' = Some (s, q) /\
    forall q', q = Ptr q' -> d + 1 < q' /\ 0 <= datalength s <= 0x7fffffff /\ q' + datalength s <= d + dl.
Proof.
  intros Hr. unfold asn_parse_sequence.
  destruct (asn_parse_header_safe (mkpout dl ty tt) Hr) as [[s [|q]] Hh]; rewrite Hh; obind.
  - eexists _, _. split; [done|]. done.
  - destruct (negb _); [eexists _, _; split; done|]. eexists _, _. split; [done|]. intros q' [= <-].
    apply asn_parse_header_accepted in Hh as (_ & ? & ? & ?); [|apply Hr]. lia.
Qed.

(** What [snmp_parse_var_op] hands over. *)
Definition binding_parsed (m : list Z) (d dl : Z) (v : var_op) (q : Z) : Prop :=
  d < q /\ 0 <= listlength v /\ q + listlength v = d + dl /\
  zlen (var_name v) = MAX_OID_LEN /\ 1 <= var_name_len v <= MAX_OID_LEN /\
  0 <= var_val_len v <= MAX_PACKET_LENGTH /\
  exists val dl', var_val v = Ptr val /\ readable m val dl' /\ dl' <= MAX_PACKET_LENGTH /\
    accepted m val dl' (var_val_type v) (var_val_len v).

Lemma snmp_parse_var_op_safe m d v :
  readable m d (listlength v) -> listlength v < 2 ^ 31 ->
  zlen (var_name v) = MAX_OID_LEN -> var_name_len v = MAX_OID_LEN ->
  exists v' q, snmp_parse_var_op m d v = Some (v', q) /\
    forall q', q = Ptr q' -> binding_parsed m d (listlength v) v' q'.
Proof.
  intros Hr Hl Hn Hnl. pose proof Hr as (Hm & Hd & Hl0 & Hlen). unfold snmp_parse_var_op, MAX_OID_LEN in *.
  destruct (asn_parse_sequence_ends m d (listlength v) 0 (Z.lor ASN_SEQUENCE ASN_CONSTRUCTOR) Hr) as (s & q & -> & Hq).
  obind. destruct q as [|q]; [by eexists _, _|]. specialize (Hq q eq_refl).
  assert (Hr1 : readable m q (datalength s)) by (eapply readable_sub; [exact Hr|lia..]).
  destruct (asn_parse_objid_safe m q (mkpout (datalength s) (type s) (var_name v, var_name_len v)) Hr1) as [[s1 q1] Ho].
  { unfold oidbuf_ok, zlen in *. cbn. lia. }
  rewrite Ho. obind. destruct q1 as [|q1]; [by eexists _, _|].
  pose proof Ho as Hf. apply asn_parse_objid_framed in Hf as (? & ? & ?); [|done|cbn [datalength]; lia]. cbn [datalength] in *.
  apply asn_parse_objid_stored in Ho as (_ & Hz & Hk); [|done|lia].
  destruct (negb _); [by eexists _, _|].
  assert (Hr2 : readable m q1 (datalength s1)) by (eapply readable_sub; [exact Hr1|lia..]).
  destruct (asn_parse_header_safe (mkpout (datalength s1) (var_val_type v) tt) Hr2) as [[s2 q2] Hh].
  cbn [var_val_type]. rewrite Hh. obind. destruct q2 as [|q2]; [by eexists _, _|].
  apply asn_parse_header_accepted in Hh as (Ha & ? & ? & ?); [|done].
  eexists _, _. split; [reflexivity|]. intros q' [= <-]. unfold binding_parsed. cbn.
  rewrite (swrap_small 32), wrap_small by lia. unfold MAX_OID_LEN, MAX_PACKET_LENGTH in *.
  split_and!; try lia. exists q1, (datalength s1). split_and!; done || lia.
Qed.

(** * Well typed variables *)

Definition int_types : list Z := ASN_INTEGER :: uint_types.
Definition null_types : list Z := [SNMP_NOSUCHOBJECT; SNMP_NOSUCHINSTANCE; SNMP_ENDOFMIBVIEW; ASN_NULL].

(** The value of [vp] is one of its type: the object is as large as the code
    that reads a value of that type takes it to be. *)
Definition value_typed (vp : variable) : Prop :=
  let t := vp_type vp in let len := vp_val_len vp in let size := zlen (vp_val vp) in
  t ∈ int_types /\ len = sizeof_long /\ sizeof_long <= size \/
  t ∈ ASN_OPAQUE_I64 :: c64_types /\ len = sizeof_counter64 /\ sizeof_counter64 <= size \/
  t = ASN_OPAQUE_FLOAT /\ len = sizeof_float /\ sizeof_float <= size \/
  t = ASN_OPAQUE_DOUBLE /\ len = sizeof_double /\ sizeof_double <= size \/
  t ∈ str_types /\ 0 <= len <= size /\ (t = ASN_IPADDRESS -> len = 4) \/
  t = ASN_OBJECT_ID /\ len mod sizeof_oid = 0 /\ sizeof_oid <= len <= sizeof_oid * MAX_OID_LEN /\ len <= size \/
  t = ASN_BIT_STR /\ 1 <= len <= size \/
  t ∈ null_types.

Definition name_stored (vp : variable) : Prop :=
  1 <= vp_name_length vp <= MAX_OID_LEN /\ vp_name_length vp <= zlen (vp_name vp).

Definition var_typed (vp : variable) : Prop := name_stored vp /\ value_typed vp.

Section safety.
Context {A : Allocator}.

(** The outcome of the [switch]: no access outside an object, the name of the
    variable as it was, and a well typed value when it goes on. *)
Definition switch_ok (vp : variable) (res : option (variable * list Z * outcome)) : Prop :=
  exists vp' objid o, res = Some (vp', objid, o) /\
    vp_name vp' = vp_name vp /\ vp_name_length vp' = vp_name_length vp /\
    (o <> Failed -> zlen objid = MAX_OID_LEN) /\ (o = Parsed -> value_typed vp').

Lemma switch_failed vp objid : switch_ok vp (Some (vp, objid, Failed)).
Proof. by exists vp, objid, Failed. Qed.

Lemma in_buf_ok {T} (P : pout T -> Prop) parse image len vp objid buf :
  ends P parse -> (forall x, zlen (image x) = len) -> len <= zlen buf -> zlen objid = MAX_OID_LEN ->
  (forall s val, P s -> zlen val = zlen buf -> value_typed (set_value (type s) val len vp)) ->
  switch_ok vp (in_buf parse image len vp objid buf).
Proof.
  intros (s & q & -> & HP) Hi Hl Ho Hv. unfold in_buf. obind. rewrite poke_n_zlen by (rewrite ?Hi; lia). obind.
  eexists _, _, _. split; [reflexivity|]. split_and!; [done..|]. destruct q as [|q]; [done|]. intros _.
  destruct HP as [|HP]; [done|]. apply Hv; [done|]. apply zlen_patch_front. by rewrite Hi.
Qed.

Lemma in_string_ok (P : pout (list Z * Z) -> Prop) parse vp objid :
  ends P parse -> zlen objid = MAX_OID_LEN ->
  (forall s, P s -> value_typed (set_value (type s) (out s).1 (out s).2 vp)) ->
  switch_ok vp (in_string parse vp objid).
Proof.
  intros (s & q & -> & HP) Ho Hv. unfold in_string. obind.
  eexists _, _, _. split; [reflexivity|]. split_and!; [done..|]. destruct q as [|q]; [done|]. intros _.
  destruct HP as [|HP]; [done|]. by apply Hv.
Qed.

Section value.
Context (m : list Z) (p dl : Z) (vp : variable) (objid buf : list Z).
Context (Hr : readable m p dl) (Hdl : dl <= MAX_PACKET_LENGTH) (Ha : accepted m p dl (vp_type vp) (vp_val_len vp)).
Context (Hobjid : zlen objid = MAX_OID_LEN) (Hbuf : zlen buf = sizeof_buf) (Hlen : 0 <= vp_val_len vp).

Lemma parse_value_objid_ok :
  vp_type vp = ASN_OBJECT_ID -> switch_ok vp (parse_value m p vp objid buf).
Proof.
  intros Ht. unfold parse_value. rewrite Ht. eval_types. cbn [andb]. unfold MAX_OID_LEN in *.
  destruct (value_objid_ends m p dl _ _ Hr Hdl Ha ASN_OBJECT_ID objid 128) as (s & q & -> & HP); [done|lia..|].
  obind. destruct (out s) as [objid' n] eqn:Eo. destruct q as [|q].
  { by eexists _, _, Failed. }
  destruct HP as [|(Hty & Hz & Hn)]; [done|]. rewrite Eo in *. cbn [fst snd] in *. unfold sizeof_oid.
  rewrite wrap_small by lia. destruct (malloc (n * 8)) as [b|] eqn:Hb; [|by eexists _, _, Failed].
  apply malloc_size in Hb. destruct (peek_n_total (oid_image objid') 0 (n * 8)) as (src & -> & Hsrc); [lia..| |].
  { rewrite oid_image_length. unfold zlen in *. lia. }
  obind. rewrite poke_n_zlen by (unfold zlen in *; lia). obind. eexists _, _, Parsed. split; [reflexivity|].
  split_and!; [done|done|unfold MAX_OID_LEN; lia|]. intros _. unfold value_typed. cbn. rewrite Hty.
  rewrite zlen_patch_front by (unfold zlen in *; lia). unfold sizeof_oid, MAX_OID_LEN. rewrite Hb, Z.mod_mul by lia.
  do 5 right. left. lia.
Qed.

(** The values kept in [vp->buf]. *)
Lemma buf_typed t val len :
  zlen val = zlen buf ->
  t ∈ int_types /\ len = sizeof_long \/ t ∈ ASN_OPAQUE_I64 :: c64_types /\ len = sizeof_counter64 \/
  t = ASN_OPAQUE_FLOAT /\ len = sizeof_float \/ t = ASN_OPAQUE_DOUBLE /\ len = sizeof_double ->
  value_typed (set_value t val len vp).
Proof.
  intros Hz Ht. unfold value_typed. cbn -[int_types c64_types]. rewrite Hz, Hbuf.
  unfold sizeof_long, sizeof_counter64, sizeof_float, sizeof_double, sizeof_buf in *.
  destruct Ht as [[? ->]|[[? ->]|[[? ->]|[? ->]]]]; [left|right; left|do 2 right; left|do 3 right; left]; split_and!; done || lia.
Qed.

Ltac buf_case L :=
  eapply in_buf_ok;
  [ eapply L; (eassumption || by_decide)
  | by intros; rewrite ?zlen_app, ?zlen_le_bytes
  | by rewrite Hbuf
  | done
  | intros s val Hty Hz; apply buf_typed; [done|] ].

Lemma parse_value_buf_ok :
  vp_type vp ∈ int_types ++ ASN_OPAQUE_FLOAT :: ASN_OPAQUE_DOUBLE :: ASN_OPAQUE_I64 :: c64_types ->
  switch_ok vp (parse_value m p vp objid buf).
Proof.
  intros Ht. unfold int_types, uint_types, c64_types in Ht. simpl app in Ht.
  destruct (read_long_total buf Hbuf) as [x Hx]. destruct (read_counter64_total buf Hbuf) as [c Hc].
  destruct (read_float_total buf Hbuf) as [f Hf]. destruct (read_u64_total buf 0) as [u Hu]; [lia|unfold sizeof_buf in *; lia|].
  remember (vp_type vp) as t eqn:Et. unfold parse_value. rewrite <- Et.
  pick_type Ht; eval_types; unfold read_double; rewrite ?Hx, ?Hc, ?Hf, ?Hu; obind.
  1: buf_case value_int_ends; left; split; [rewrite Hty; by_decide|done].
  1-4: buf_case value_uint_ends; left; split; [by apply elem_of_cons; right|done].
  1: buf_case value_float_ends; do 2 right; by left.
  1: buf_case value_double_ends; by do 3 right.
  1: buf_case value_int64_ends; right; left; split; [rewrite Hty; by_decide|done].
  all: unfold counter64_image; buf_case value_uint64_ends; right; left; split; [by apply elem_of_cons; right|done].
Qed.

Lemma str_typed t val len :
  t ∈ str_types -> 0 <= len <= zlen val -> (t = ASN_IPADDRESS -> len = 4) -> value_typed (set_value t val len vp).
Proof. intros. unfold value_typed. do 4 right. left. done. Qed.

Lemma parse_value_str_ok :
  vp_type vp ∈ str_types -> switch_ok vp (parse_value m p vp objid buf).
Proof.
  intros Ht. assert (Hip : vp_type vp = ASN_IPADDRESS -> vp_val_len vp <> 4 ->
    switch_ok vp (parse_value m p vp objid buf)).
  { intros Ht' Hn. unfold parse_value. rewrite Ht'. eval_types. rewrite (proj2 (Z.eqb_neq _ _) Hn).
    apply switch_failed. }
  assert (Hstr : (vp_type vp = ASN_IPADDRESS -> vp_val_len vp = 4) -> forall str, vp_val_len vp <= zlen str ->
    switch_ok vp (in_string (asn_parse_string m p (mkpout MAX_PACKET_LENGTH (vp_type vp) (str, vp_val_len vp))) vp objid)).
  { intros Hl str Hstr. eapply in_string_ok; [by eapply value_string_ends|done|].
    intros s (Hty & Hn & Hz). rewrite Hty, Hn. apply str_typed; [done|lia|done]. }
  assert (Hgo : (vp_type vp = ASN_IPADDRESS -> vp_val_len vp = 4) ->
    switch_ok vp match (if vp_val_len vp <? sizeof_buf then Some buf else malloc (vp_val_len vp)) with
    | None => Some (vp, objid, Failed)
    | Some str => in_string (asn_parse_string m p (mkpout MAX_PACKET_LENGTH (vp_type vp) (str, vp_val_len vp))) vp objid
    end).
  { intros Hl. destruct (Z.ltb_spec (vp_val_len vp) sizeof_buf); [apply Hstr; [done|lia]|].
    destruct (malloc (vp_val_len vp)) as [str|] eqn:Hm; [|apply switch_failed].
    apply malloc_size in Hm. apply Hstr; [done|lia]. }
  destruct (decide (vp_type vp = ASN_IPADDRESS /\ vp_val_len vp <> 4)) as [[]|Hn]; [by apply Hip|].
  assert (Hl : vp_type vp = ASN_IPADDRESS -> vp_val_len vp = 4) by lia.
  specialize (Hgo Hl). revert Hgo. unfold parse_value. clear -Ht Hl. unfold str_types in Ht.
  remember (vp_type vp) as t. pick_type Ht; eval_types; cbn [andb]; try done. by rewrite (Hl eq_refl).
Qed.

Lemma parse_value_ok : switch_ok vp (parse_value m p vp objid buf).
Proof.
  destruct (decide (vp_type vp ∈ int_types ++ ASN_OPAQUE_FLOAT :: ASN_OPAQUE_DOUBLE :: ASN_OPAQUE_I64 :: c64_types)) as [|Hb];
    [by apply parse_value_buf_ok|].
  destruct (decide (vp_type vp ∈ str_types)) as [|Hs]; [by apply parse_value_str_ok|].
  destruct (decide (vp_type vp = ASN_OBJECT_ID)) as [|Ho]; [by apply parse_value_objid_ok|].
  destruct (decide (vp_type vp ∈ null_types)) as [Hn|Hn].
  { assert (Hv : value_typed vp) by (unfold value_typed; tauto). clear -Hn Hv Hobjid.
    assert (switch_ok vp (Some (vp, objid, Parsed))) as Hok by (by exists vp, objid, Parsed).
    unfold parse_value, null_types in *. remember (vp_type vp) as t. by pick_type Hn. }
  assert (Hne : forall k, k ∈ ASN_OBJECT_ID :: null_types ++ str_types ++ int_types ++ ASN_OPAQUE_FLOAT ::
    ASN_OPAQUE_DOUBLE :: ASN_OPAQUE_I64 :: c64_types -> (vp_type vp =? k) = false).
  { intros k Hk. apply Z.eqb_neq. intros <-. rewrite elem_of_cons, !elem_of_app in *. tauto. }
  unfold parse_value, is_one_of. cbn [existsb].
  repeat match goal with |- context [vp_type vp =? ?k] => rewrite (Hne k) by by_decide end. cbn [orb andb].
  destruct (Z.eqb_spec (vp_type vp) ASN_BIT_STR) as [Hbit|]; [|by exists vp, objid, BadType].
  destruct (malloc (vp_val_len vp)) as [str|] eqn:Hm; [|apply switch_failed]. apply malloc_size in Hm.
  eapply in_string_ok; [eapply value_bits_ends; try eassumption; lia|done|].
  intros s (Hty & Hl & H1 & Hz). rewrite Hty, Hl. unfold value_typed. do 6 right. left. cbn. split; [done|]. lia.
Qed.
End value.

(** * The PDU *)

(** A result code, and well typed variables when it is 0. *)
Definition parse_post (res : option (pstate * Z)) : Prop :=
  exists st rc, res = Some (st, rc) /\ (rc = 0 \/ rc = -1) /\
    (rc = 0 -> Forall var_typed (variables (ps_pdu st))).

Lemma parse_post_fails st : parse_post (Some (st, -1)).
Proof. exists st, (-1). split_and!; [done|by right|done]. Qed.

Lemma varbind_loop_safe m fuel : forall vars badtype st d,
  readable m d (ps_length st) -> ps_length st < 2 ^ 31 -> ps_length st <= Z.of_nat fuel ->
  zlen (ps_objid st) = MAX_OID_LEN -> badtype = 0 \/ badtype = -1 ->
  variables (ps_pdu st) = vars -> (badtype = 0 -> Forall var_typed vars) ->
  parse_post (varbind_loop fuel m vars badtype st d).
Proof.
  induction fuel as [|fuel IH]; intros vars badtype st d Hr Hl Hf Ho Hb Hv Hok;
    pose proof Hr as (_ & _ & ? & _); cbn [varbind_loop]; rewrite (swrap_small 32) by lia;
    (destruct (Z.ltb_spec 0 (ps_length st)); cbn [negb];
     [|exists st, badtype; split_and!; [done|done|intros ?; rewrite Hv; auto]]); [lia|].
  destruct (malloc sizeof_variable_list) as [vb|] eqn:Hvb; [|apply parse_post_fails]. apply malloc_size in Hvb.
  destruct (fresh_variable_total vb Hvb) as (t0 & len0 & name_loc & buf & -> & Hnl & Hbuf). obind.
  cbn [vp_type vp_val_len].
  destruct (snmp_parse_var_op_safe m d (mkvar (ps_objid st) MAX_OID_LEN t0 len0 NULL (ps_length st)) Hr Hl Ho eq_refl)
    as (v & q & -> & Hq). obind.
  destruct q as [|q]; [apply parse_post_fails|].
  destruct (Hq q eq_refl) as (Hdq & Hll & Hsum & Hvn & Hvl & Hvv & val & dl' & Hval & Hr' & Hdl' & Hacc).
  cbn [listlength] in *. cbn [vp_name_length ps_objid upd_objid upd_length].
  destruct (peek_n_total (var_name v) 0 (var_name_len v)) as (o & Hpk & Hoz); [unfold zlen in *; lia..|].
  unfold MAX_OID_LEN in *.
  rewrite (snmp_set_var_objid_spec _ name_loc (var_name v) (var_name_len v) o) by (done || unfold MAX_OID_LEN; lia). obind.
  rewrite Hval. cbn [vp_type vp_val vp_val_len]. set (vp := mkvariable _ _ _ _ _).
  destruct (parse_value_ok m val dl' vp (var_name v) buf Hr' Hdl' Hacc Hvn Hbuf ltac:(cbn; lia))
    as (vp' & objid & out & -> & Hn1 & Hn2 & Hobj & Htyped). obind.
  assert (Hname : name_stored vp').
  { unfold name_stored, MAX_OID_LEN. rewrite Hn1, Hn2. subst vp. cbn. rewrite zlen_patch_front by (unfold zlen in *; lia). lia. }
  assert (Hr2 : readable m q (listlength v)) by (eapply readable_sub; [exact Hr|lia..]).
  destruct out; [|apply parse_post_fails|].
  - apply IH; cbn; try done; try lia; [by apply Hobj|].
    intros Hz. apply Forall_app. split; [by apply Hok|]. constructor; [|done]. split; [done|by apply Htyped].
  - apply IH; cbn; try done; try lia; by apply Hobj.
Qed.

(** ** The fields *)

(** The state of the parser between two fields. *)
Definition ready (m : list Z) (st : pstate) (d : Z) : Prop :=
  readable m d (ps_length st) /\ ps_length st < 2 ^ 31 /\ zlen (ps_objid st) = MAX_OID_LEN /\
  zlen (agent_addr (ps_pdu st)) = 4 /\ variables (ps_pdu st) = [].

Definition stretch_ok (m : list Z) (res : stretch) : Prop :=
  exists f, res = Some f /\ match f with Return (_, rc) => rc = -1 | Next (st, d) => ready m st d end.

Lemma then_at_ok m e k :
  stretch_ok m e -> (forall st d, ready m st d -> stretch_ok m (k st d)) -> stretch_ok m (then_at e k).
Proof.
  intros (f & -> & Hf) Hk. unfold then_at. obind. destruct f as [[st rc]|[st d]]; [|by apply Hk].
  exists (Return (st, rc)). by split.
Qed.

(** A field whose parser stays inside the packet and whose place in the state is
    not one of those the rest depends on. *)
Lemma field_ok {T} m (parse : pout T -> option (pout T * ptr)) x0 store st d :
  ready m st d -> is_Some (parse (mkpout (ps_length st) 0 x0)) ->
  (forall s q, parse (mkpout (ps_length st) 0 x0) = Some (s, Ptr q) ->
     framed d (mkpout (ps_length st) 0 x0) s q /\ ps_length (store (out s) st) = ps_length st /\
     zlen (ps_objid (store (out s) st)) = MAX_OID_LEN /\ zlen (agent_addr (ps_pdu (store (out s) st))) = 4 /\
     variables (ps_pdu (store (out s) st)) = []) ->
  stretch_ok m (field parse x0 store st).
Proof.
  intros (Hr & Hl & Ho & Ha & Hv) [[s q] Hp] Hs. unfold field. rewrite Hp. obind.
  destruct q as [|q]; [by eexists|]. eexists. split; [reflexivity|]. pose proof Hr as (_ & _ & ? & _).
  destruct (Hs s q Hp) as ((? & ? & Hd) & Hps & Hobj & Hag & Hvs). cbn [datalength] in *.
  unfold ready. cbn. split_and!; try done; [|lia]. eapply readable_sub; [exact Hr|lia..].
Qed.

Lemma int_field_ok m get set st d :
  (forall x p, agent_addr (set x p) = agent_addr p /\ variables (set x p) = variables p) ->
  ready m st d -> stretch_ok m (int_field m get set st d).
Proof.
  intros Hset Hst. pose proof Hst as (Hr & Hl & Ho & Ha & Hv). apply (field_ok m _ _ _ st d); [done|by apply asn_parse_int_safe|].
  intros s q H. split; [eapply asn_parse_int_framed; [apply Hr| |exact H]; destruct Hr as (_ & _ & ? & _); cbn; lia|].
  cbn. by rewrite !(proj1 (Hset _ _)), !(proj2 (Hset _ _)).
Qed.

Lemma request_fields_ok m st d : ready m st d -> stretch_ok m (request_fields m st d).
Proof.
  intros H. unfold request_fields. repeat (apply then_at_ok; [by apply int_field_ok|]; clear st d H; intros st d H).
  by apply int_field_ok.
Qed.

(** The identifier of a trap, and its copy. *)
Lemma enterprise_ok m st d k :
  ready m st d -> (forall st d, ready m st d -> stretch_ok m (k st d)) ->
  stretch_ok m (then_at (field (asn_parse_objid m d) (ps_objid st, MAX_OID_LEN)
    (fun o st => upd_objid o.1 (upd_pdu (set_enterprise_length o.2) st)) st)
    (fun st d => then_at (copy_enterprise st d) k)).
Proof.
  intros (Hr & Hl & Ho & Ha & Hv) Hk. pose proof Hr as (Hm & _ & ? & _). unfold MAX_OID_LEN in *.
  destruct (asn_parse_objid_safe m d (mkpout (ps_length st) 0 (ps_objid st, 128)) Hr) as [[s q] Hp].
  { unfold oidbuf_ok, zlen in *. cbn. lia. }
  unfold then_at at 1, field. rewrite Hp. obind. destruct q as [|q]; [by eexists|].
  pose proof Hp as Hf. apply asn_parse_objid_framed in Hf as (? & ? & Hd); [|done|cbn; lia].
  apply asn_parse_objid_stored in Hp as (_ & Hz & Hn); [|done|lia]. cbn [datalength] in *.
  apply then_at_ok; [|exact Hk]. unfold copy_enterprise. cbn.
  destruct (malloc _); [|by eexists].
  destruct (peek_n_total (out s).1 0 (out s).2) as (e & -> & _); [unfold zlen in *; lia..|]. obind.
  eexists. split; [reflexivity|]. unfold ready, MAX_OID_LEN. cbn. split_and!; try done; try lia.
  eapply readable_sub; [exact Hr|lia..].
Qed.

Lemma trap_fields_ok m st d : ready m st d -> stretch_ok m (trap_fields m st d).
Proof.
  intros H. unfold trap_fields. apply enterprise_ok; [done|]. clear st d H. intros st d H.
  apply then_at_ok.
  { pose proof H as (Hr & Hl & Ho & Ha & Hv). apply (field_ok m _ _ _ st d); [done| |].
    - apply asn_parse_string_safe; [done|]. unfold str_ok, zlen in *. cbn. lia.
    - intros s q Hp. split; [eapply asn_parse_string_framed; [apply Hr| |exact Hp]; destruct Hr as (_ & _ & ? & _); cbn; lia|].
      cbn. split_and!; try done. unfold asn_parse_string in Hp. cbn [out] in Hp. unfold zlen in *. run_inv;
        repeat match goal with Hw : poke_n _ _ _ = Some _ |- _ => apply poke_n_length in Hw
        | Hw : poke _ _ _ = Some _ |- _ => apply poke_length in Hw end; cbn; congruence. }
  clear st d H. intros st d H. apply then_at_ok; [by apply int_field_ok|]. clear st d H. intros st d H.
  apply then_at_ok; [by apply int_field_ok|]. clear st d H. intros st d H.
  pose proof H as (Hr & Hl & Ho & Ha & Hv). apply (field_ok m _ _ _ st d); [done|by apply asn_parse_unsigned_int_safe|].
  intros s q Hp. split; [eapply asn_parse_unsigned_int_framed; [apply Hr| |exact Hp]; destruct Hr as (_ & _ & ? & _); cbn; lia|].
  done.
Qed.

Lemma command_fields_ok m st d : ready m st d -> stretch_ok m (command_fields m st d).
Proof.
  intros H. unfold command_fields. destruct (_ =? _); [by apply trap_fields_ok|].
  destruct (is_one_of _ _); [by apply request_fields_ok|].
  destruct (is_one_of _ _); [by apply request_fields_ok|]. by eexists.
Qed.

(** The whole PDU. *)
Lemma snmp_pdu_parse_post m st d : ready m st d -> parse_post (snmp_pdu_parse m st d).
Proof.
  intros (Hr & Hl & Ho & Ha & Hv). pose proof Hr as (Hm & _ & ? & _). unfold snmp_pdu_parse.
  destruct (asn_parse_header_safe (mkpout (ps_length st) 0 tt) Hr) as [[s [|q]] Hh]; rewrite Hh; obind;
    [apply parse_post_fails|].
  apply asn_parse_header_accepted in Hh as (_ & ? & ? & ?); [|done].
  assert (Hc : ready m (upd_pdu (fun p => set_flags (Z.land (flags p) (Z.lnot UCD_MSG_FLAG_RESPONSE_PDU))
    (set_command (type s) p)) (upd_length (datalength s) st)) q).
  { unfold ready. cbn. split_and!; try done; [|lia]. eapply readable_sub; [exact Hr|lia..]. }
  apply command_fields_ok in Hc.
  match goal with |- context [then_at ?e ?k] => assert (Hs : stretch_ok m (then_at e k)) end.
  { apply then_at_ok; [exact Hc|]. clear. intros st d H. pose proof H as (Hr & Hl & Ho & Ha & Hv).
    destruct (asn_parse_sequence_ends m d (ps_length st) 0 (Z.lor ASN_SEQUENCE ASN_CONSTRUCTOR) Hr) as (s & q & Hq & Hs).
    unfold field. rewrite Hq. obind. destruct q as [|q]; [by eexists|]. eexists. split; [reflexivity|].
    destruct (Hs q eq_refl) as (? & ? & ?). unfold ready. cbn. split_and!; try done; [|lia].
    eapply readable_sub; [exact Hr|lia..]. }
  destruct Hs as (f & -> & Hf). obind. destruct f as [[st' rc]|[st' d']].
  - rewrite Hf. apply parse_post_fails.
  - destruct Hf as (Hr' & Hl' & Ho' & _ & Hv'). pose proof Hr' as (_ & _ & ? & _).
    apply varbind_loop_safe; try done; [lia|by left].
Qed.

(** * The message *)

Lemma snmp_parse_version_safe m d len : readable m d len -> is_Some (snmp_parse_version m d len).
Proof.
  intros Hr. unfold snmp_parse_version.
  destruct (asn_parse_sequence_ends m d len 0 (Z.lor ASN_SEQUENCE ASN_CONSTRUCTOR) Hr) as (s & q & -> & Hq). obind.
  destruct q as [|q]; [done|]. destruct (Hq q eq_refl) as (? & ? & ?).
  assert (Hr1 : readable m q (datalength s)) by (eapply readable_sub; [exact Hr|lia..]).
  destruct (asn_parse_int_safe (mkpout (datalength s) (type s) SNMPERR_BAD_VERSION) sizeof_long Hr1) as [[s1 [|q1]] ->];
    obind; [done|]. by destruct (negb _).
Qed.

Lemma snmp_comstr_parse_safe m d len psid v0 ver :
  readable m d len -> len < 2 ^ 31 -> zlen psid = COMMUNITY_MAX_LEN ->
  exists len' psid' slen version q, snmp_comstr_parse m d len psid COMMUNITY_MAX_LEN v0 ver = Some (len', psid', slen, version, q) /\
    forall q', q = Ptr q' -> readable m q' len' /\ len' <= len /\ 0 <= slen <= zlen psid'.
Proof.
  unfold COMMUNITY_MAX_LEN. intros Hr Hl Hps. pose proof Hr as (Hm & _ & ? & _). unfold snmp_comstr_parse.
  destruct (asn_parse_sequence_ends m d len 0 (Z.lor ASN_SEQUENCE ASN_CONSTRUCTOR) Hr) as (s & q & -> & Hq). obind.
  destruct q as [|q]; [by do 5 eexists|]. destruct (Hq q eq_refl) as (? & ? & ?).
  assert (Hr1 : readable m q (datalength s)) by (eapply readable_sub; [exact Hr|lia..]).
  destruct (asn_parse_int_safe (mkpout (datalength s) (type s) ver) sizeof_long Hr1) as [[s1 [|q1]] Hi1]; rewrite Hi1; obind;
    [by do 5 eexists|].
  apply asn_parse_int_framed in Hi1 as (? & ? & ?); [|done|cbn; lia]. cbn [datalength] in *.
  assert (Hr2 : readable m q1 (datalength s1)) by (eapply readable_sub; [exact Hr1|lia..]).
  destruct (asn_parse_string_safe (mkpout (datalength s1) (type s1) (psid, 256)) Hr2) as [[s2 q2] Hi2].
  { unfold str_ok, zlen in *. cbn. lia. }
  rewrite Hi2. obind. destruct (out s2) as [psid' slen] eqn:Eo. destruct q2 as [|q2]; [by do 5 eexists|].
  pose proof Hi2 as Hf. apply asn_parse_string_framed in Hf as (? & ? & ?); [|done|cbn; lia]. cbn [datalength] in *.
  assert (Hz : zlen psid' = 256 /\ 0 <= slen <= 256).
  { unfold asn_parse_string in Hi2. cbn [out] in Hi2. unfold zlen in *. run_inv; use_checked; bool_prop;
      repeat match goal with Hw : poke_n _ _ _ = Some _ |- _ => apply poke_n_length in Hw
      | Hw : poke _ _ _ = Some _ |- _ => apply poke_length in Hw end; cbn in *; simplify_eq; lia. }
  destruct Hz as [Hz Hs]. rewrite poke_in_range by (unfold zlen in *; lia). obind. do 5 eexists. split; [reflexivity|].
  intros q' [= <-]. split; [eapply readable_sub; [exact Hr2|lia..]|]. unfold zlen in *. rewrite length_insert. lia.
Qed.

(** An authenticator of the application leaves [data] and [*length] inside the
    packet. *)
Definition auth_inside (auth : list Z -> Z -> Z -> list Z -> Z -> Z * ptr) : Prop :=
  forall m data length c n len' p, auth m data length c n = (len', Ptr p) ->
    data <= p /\ 0 <= len' /\ p + len' <= data + length.

(** The memory of the receiver. *)
Definition receiver_memory (loc : locals) (st : mstate) : Prop :=
  zlen (l_community loc) = COMMUNITY_MAX_LEN /\ zlen (l_objid loc) = MAX_OID_LEN /\
  zlen (agent_addr (ms_pdu st)) = 4 /\ variables (ms_pdu st) = [] /\
  (forall auth, authenticator (ms_session st) = Some auth -> auth_inside auth).

(** The same for a whole message. *)
Definition message_post (res : option (mstate * Z)) : Prop :=
  exists st rc, res = Some (st, rc) /\ (rc = 0 \/ rc = -1) /\
    (rc = 0 -> Forall var_typed (variables (ms_pdu st))).

Lemma message_post_fails st : message_post (Some (st, -1)).
Proof. exists st, (-1). split_and!; [done|by right|done]. Qed.

Lemma parse_pdu_post loc m st d len :
  readable m d len -> len < 2 ^ 31 -> zlen (l_objid loc) = MAX_OID_LEN ->
  zlen (agent_addr (ms_pdu st)) = 4 -> variables (ms_pdu st) = [] -> message_post (parse_pdu loc m st d len).
Proof.
  intros Hr Hl Ho Ha Hv. unfold parse_pdu.
  destruct (snmp_pdu_parse_post m (mkpstate (ms_pdu st) (l_objid loc) len (statistics (ms_globals st))) d)
    as (ps & rc & -> & Hrc & Hty); [done|]. obind.
  eexists _, _. split; [reflexivity|]. split; [done|]. destruct (rc <? 0); exact Hty.
Qed.

Lemma parse_community_message_post loc m st d len :
  readable m d len -> len < 2 ^ 31 -> receiver_memory loc st -> message_post (parse_community_message loc m st d len).
Proof.
  intros Hr Hl (Hc & Ho & Ha & Hv & Hau). unfold parse_community_message.
  destruct (snmp_comstr_parse_safe m d len (l_community loc) (version (ms_pdu st)) (l_ver loc) Hr Hl Hc)
    as (len1 & psid & slen & ver & q & -> & Hq). obind.
  destruct q as [|q]; [apply message_post_fails|]. destruct (Hq q eq_refl) as (Hr1 & Hl1 & Hs).
  cbn [ms_session on_pdu]. destruct (_ && _); [apply message_post_fails|]. unfold store_community.
  assert (Hgo : forall p, agent_addr p = agent_addr (ms_pdu st) -> variables p = variables (ms_pdu st) ->
    message_post (match authenticator (ms_session st) with
      | None => parse_pdu loc m (mkmstate (ms_session st) p (ms_globals st)) q len1
      | Some auth => match auth m q len1 psid slen with
        | (_, NULL) => Some (on_session (set_snmp_errno SNMPERR_AUTHENTICATION_FAILURE) (mkmstate (ms_session st) p (ms_globals st)), -1)
        | (length, Ptr data) => parse_pdu loc m (mkmstate (ms_session st) p (ms_globals st)) data length
        end end)).
  { intros p Hpa Hpv. destruct (authenticator (ms_session st)) as [auth|] eqn:Eau.
    - destruct (auth m q len1 psid slen) as [len2 [|q2]] eqn:Ea; [apply message_post_fails|].
      apply (Hau auth eq_refl) in Ea as (? & ? & ?). pose proof Hr1 as (_ & _ & ? & _).
      apply parse_pdu_post; cbn; rewrite ?Hpa, ?Hpv; try done; [|lia]. eapply readable_sub; [exact Hr1|lia..].
    - apply parse_pdu_post; cbn; rewrite ?Hpa, ?Hpv; try done. lia. }
  unfold on_pdu. cbn [ms_session ms_pdu ms_globals].
  destruct (slen =? 0); [obind; by apply Hgo|]. destruct (malloc slen); [|obind; apply message_post_fails].
  destruct (peek_n_total psid 0 slen) as (c & -> & _); [unfold zlen in *; lia..|]. obind. by apply Hgo.
Qed.
End safety.

(** * Theorems *)

(** The version [_snmp_parse] goes by: that of the session, or of the packet. *)
Definition packet_version (sess : session) (m : list Z) (d len : Z) : option Z :=
  if s_version sess =? SNMP_DEFAULT_VERSION then snmp_parse_version m d len else Some (s_version sess).

Section theorems.
Context {A : Allocator} (v3_parse : list Z -> mstate -> Z -> Z -> option (mstate * Z)).

Lemma snmp_parse_post loc m st d len :
  readable m d len -> len < 2 ^ 31 -> receiver_memory loc st ->
  packet_version (ms_session st) m d len <> Some SNMP_VERSION_3 ->
  message_post (snmp_parse v3_parse loc m st d len).
Proof.
  intros Hr Hl Hmem Hv3. assert (Hmsg : message_post (_snmp_parse v3_parse loc m st d len)).
  { destruct st as [sess p g]. unfold _snmp_parse, snmp_get_next_transid, on_session, on_pdu, packet_version in *.
    cbn [ms_session ms_pdu ms_globals] in *. destruct (next_id _ _) as [id transid]. cbn [ms_session ms_pdu ms_globals].
    cbn [s_version clear_errno].
    assert (Hver : exists v, (if negb (s_version sess =? SNMP_DEFAULT_VERSION) then Some (s_version sess)
      else snmp_parse_version m d len) = Some v /\ v <> SNMP_VERSION_3).
    { destruct (s_version sess =? SNMP_DEFAULT_VERSION); cbn [negb]; [|eexists; split; [reflexivity|congruence]].
      destruct (snmp_parse_version_safe m d len Hr) as [v Hv]. rewrite Hv in *. exists v. split; [done|congruence]. }
    destruct Hver as (v & -> & Hv). obind. destruct (is_one_of v _).
    - apply parse_community_message_post; [done|done|exact Hmem].
    - rewrite (proj2 (Z.eqb_neq _ _) Hv). destruct (v =? SNMPERR_BAD_VERSION); [apply message_post_fails|].
      destruct ((v <? 0) || (2147483647 <? v)); apply message_post_fails. }
  destruct Hmsg as (st' & rc & Hp & Hrc & Hty). unfold snmp_parse. rewrite Hp. obind.
  destruct Hrc as [-> | ->]; [|apply message_post_fails]. exists st', 0. split_and!; [done|by left|done].
Qed.

(** C2: whatever bytes a packet of SNMPv1 or SNMPv2c holds and whatever the
    allocator refuses, [snmp_parse] stops with 0 or -1; it has read nothing
    outside the packet and the 32 bytes behind it ([parse_overread] is why they
    are needed), and written nothing outside its own objects. *)
Theorem snmp_parse_memory_safe loc m st d len :
  readable m d len -> len < 2 ^ 31 -> receiver_memory loc st ->
  packet_version (ms_session st) m d len <> Some SNMP_VERSION_3 ->
  exists st' rc, snmp_parse v3_parse loc m st d len = Some (st', rc) /\ (rc = 0 \/ rc = -1).
Proof.
  intros Hr Hl Hm Hv. destruct (snmp_parse_post loc m st d len Hr Hl Hm Hv) as (st' & rc & Hp & Hrc & _).
  by exists st', rc.
Qed.

(** C8: every variable [snmp_parse] delivers is well typed: its name has 1 to
    128 components and its value an object of the size its type is read with,
    4 bytes for an address, whole components for an identifier. *)
Theorem received_variables_typed loc m st d len st' :
  readable m d len -> len < 2 ^ 31 -> receiver_memory loc st ->
  packet_version (ms_session st) m d len <> Some SNMP_VERSION_3 ->
  snmp_parse v3_parse loc m st d len = Some (st', 0) -> Forall var_typed (variables (ms_pdu st')).
Proof.
  intros Hr Hl Hm Hv Hp. destruct (snmp_parse_post loc m st d len Hr Hl Hm Hv) as (st1 & rc & Hp1 & _ & Hty).
  rewrite Hp in Hp1. simplify_eq. by apply Hty.
Qed.
End theorems.

(** * Concrete instances *)

#[local] Existing Instance big_heap.

#[local] Definition no_v3 (m : list Z) (st : mstate) (d len : Z) : option (mstate * Z) := Some (st, -1).

Lemma sample_memory : receiver_memory sample_locals sample_state.
Proof. unfold receiver_memory. split_and!; done. Qed.

(** A packet of nothing but sequence headers. *)
Lemma snmp_parse_memory_safe_witness :
  exists st' rc, snmp_parse no_v3 sample_locals (replicate 60 0x30) sample_state 0 28 = Some (st', rc) /\
    (rc = 0 \/ rc = -1).
Proof. apply snmp_parse_memory_safe; [by_decide|by_decide|exact sample_memory|by_decide]. Defined.

Definition sample_packet : list Z := message_ber tlv sample_sent sample_bindings.

Lemma received_variables_typed_witness :
  exists st', snmp_parse no_v3 sample_locals (sample_packet ++ replicate 32 0) sample_state 0 (zlen sample_packet) = Some (st', 0) /\
    Forall var_typed (variables (ms_pdu st')).
Proof.
  eexists. split; [vm_compute; reflexivity|].
  eapply (received_variables_typed no_v3 sample_locals (sample_packet ++ replicate 32 0) sample_state 0 (zlen sample_packet));
    [by_decide|by_decide|exact sample_memory|by_decide|vm_compute; reflexivity].
Defined.
