(* ===== verification/Timeval.v ===== *)
(** Points in time and intervals, [struct timeval]: seconds and microseconds, the
    comparison of [timercmp] and the arithmetic of [library/tools.h].  A value is
    normalized when the microseconds are less than a second. *)
From Stdlib Require Import ZArith Lia.
From stdpp Require Import base.
From S2P Require Import Prelude.

Record timeval : Type := mktimeval { tv_sec : Z; tv_usec : Z }.

#[export] Instance timeval_eq_dec : EqDecision timeval.
Proof. solve_decision. Defined.

(** [timercmp(a, b, <)] *)
Definition timercmp_lt (a b : timeval) : bool :=
  if tv_sec a =? tv_sec b then tv_usec a <? tv_usec b else tv_sec a <? tv_sec b.

(** [timerisset] *)
Definition timerisset (a : timeval) : bool := negb (tv_sec a =? 0) || negb (tv_usec a =? 0).

(** [timerclear] *)
Definition zero_time : timeval := mktimeval 0 0.

(** A [long] expression of the code: undefined when it overflows. *)
Definition long (x : Z) : option Z := if (- 2 ^ 63 <=? x) && (x <? 2 ^ 63) then Some x else None.

Definition NETSNMP_TIMERADD (a b : timeval) : option timeval :=
  sec ← long (tv_sec a + tv_sec b);
  usec ← long (tv_usec a + tv_usec b);
  if 1000000 <=? usec then
    sec ← long (sec + 1);
    Some (mktimeval sec (usec - 1000000))
  else Some (mktimeval sec usec).

Definition NETSNMP_TIMERSUB (a b : timeval) : option timeval :=
  sec ← long (tv_sec a - tv_sec b);
  sec ← long (sec - 1);
  usec ← long (tv_usec a - tv_usec b);
  usec ← long (usec + 1000000);
  if 1000000 <=? usec then
    sec ← long (sec + 1);
    Some (mktimeval sec (usec - 1000000))
  else Some (mktimeval sec usec).

(** * Microseconds *)

Definition normalized (a : timeval) : Prop := 0 <= tv_usec a < 1000000.

(** What a clock and the intervals of the code stay below; [2 ^ 61] seconds are 73
    milliards of years. *)
Definition sane (a : timeval) : Prop := normalized a /\ 0 <= tv_sec a < 2 ^ 61.

Definition micros (a : timeval) : Z := 1000000 * tv_sec a + tv_usec a.

#[export] Instance normalized_dec a : Decision (normalized a).
Proof. unfold normalized. apply _. Defined.

#[export] Instance sane_dec a : Decision (sane a).
Proof. unfold sane. apply _. Defined.

Lemma long_small x : - 2 ^ 63 <= x < 2 ^ 63 -> long x = Some x.
Proof. intros H. unfold long. by rewrite (proj2 (Z.leb_le _ _)), (proj2 (Z.ltb_lt _ _)) by lia. Qed.

Lemma timercmp_lt_spec a b : normalized a -> normalized b -> timercmp_lt a b = (micros a <? micros b).
Proof.
  unfold normalized, micros, timercmp_lt. intros Ha Hb.
  destruct (Z.eqb_spec (tv_sec a) (tv_sec b)); [destruct (Z.ltb_spec (tv_usec a) (tv_usec b))|destruct (Z.ltb_spec (tv_sec a) (tv_sec b))];
    symmetry; first [apply Z.ltb_lt; lia|apply Z.ltb_ge; lia].
Qed.

Lemma micros_inj a b : normalized a -> normalized b -> micros a = micros b -> a = b.
Proof. unfold normalized, micros. destruct a, b; cbn. intros. f_equal; lia. Qed.

Lemma timerisset_spec a : normalized a -> 0 <= tv_sec a -> timerisset a = (0 <? micros a).
Proof.
  unfold normalized, micros, timerisset. intros Hu Hs. destruct (Z.eqb_spec (tv_sec a) 0), (Z.eqb_spec (tv_usec a) 0); cbn;
    symmetry; first [apply Z.ltb_lt; lia|apply Z.ltb_ge; lia].
Qed.

(** The macros add and subtract. *)
Lemma timeradd_spec a b : sane a -> sane b ->
  exists c, NETSNMP_TIMERADD a b = Some c /\ normalized c /\ 0 <= tv_sec c < 2 ^ 63 /\ micros c = micros a + micros b.
Proof.
  unfold sane, normalized, micros, NETSNMP_TIMERADD. intros [] [].
  rewrite long_small by lia. cbn [mbind option_bind]. rewrite long_small by lia. cbn [mbind option_bind].
  destruct (Z.leb_spec 1000000 (tv_usec a + tv_usec b)).
  - rewrite long_small by lia. cbn [mbind option_bind]. eexists. split; [done|]. cbn. lia.
  - eexists. split; [done|]. cbn. lia.
Qed.

Lemma timersub_spec a b : normalized a -> 0 <= tv_sec a < 2 ^ 63 -> sane b -> micros b <= micros a ->
  exists c, NETSNMP_TIMERSUB a b = Some c /\ normalized c /\ 0 <= tv_sec c < 2 ^ 63 /\ micros c = micros a - micros b.
Proof.
  unfold sane, normalized, micros, NETSNMP_TIMERSUB. intros ? ? [] ?.
  rewrite long_small by lia. cbn [mbind option_bind]. rewrite long_small by lia. cbn [mbind option_bind].
  rewrite long_small by lia. cbn [mbind option_bind]. rewrite long_small by lia. cbn [mbind option_bind].
  destruct (Z.leb_spec 1000000 (tv_usec a - tv_usec b + 1000000)).
  - rewrite long_small by lia. cbn [mbind option_bind]. eexists. split; [done|]. cbn. lia.
  - eexists. split; [done|]. cbn. lia.
Qed.
