(* ===== verification/Session.v ===== *)
(** Sessions: sending, the list of pending requests, retransmission and
    time-outs, and the processing of received packets ([_sess_async_send],
    [snmp_resend_request], [snmp_sess_timeout], [_sess_process_packet] of
    [snmplib/snmp_api.c]).

    A node of the list of requests is a request with its address; the list hangs
    on [requests], and [requestsEnd] is the address of its last node, as the
    code keeps it.  The world outside (the application's callbacks, the
    transport, the clock, the allocation of nodes) is the class [Environment].
    A callback may do anything but call back into the session it is called from
    or change the PDU it is told about.
    What only SNMPv3 uses (engine identifiers, security state) is left out of
    the structures; its branches are parameters. *)
From Stdlib Require Import ZArith Lia.
From S2P Require Import Prelude Oid Asn1Defs SnmpDefs Asn1Parse Asn1Build Asn1RBuild SnmpVar Pdu Message Timeval Ber.

Definition UCD_MSG_FLAG_PDU_TIMEOUT : Z := 0x1000.
Definition UCD_MSG_FLAG_TUNNELED : Z := 0x4000.
Definition NETSNMP_TRANSPORT_FLAG_STREAM : Z := 0x01.
Definition NETSNMP_TRANSPORT_FLAG_TUNNELED : Z := 0x04.
Definition NETSNMP_TRANSPORT_FLAG_EMPTY_PKT : Z := 0x10.
Definition SNMP_FLAGS_DONT_PROBE : Z := 0x100.
Definition AGENTX_MSG_CLEANUPSET : Z := 11.
Definition AGENTX_MSG_RESPONSE : Z := 18.
Definition NETSNMP_CALLBACK_OP_TIMED_OUT : Z := 2.
Definition NETSNMP_CALLBACK_OP_DISCONNECT : Z := 5.

Definition SNMPERR_TOO_LONG : Z := -5.
Definition SNMPERR_BAD_SENDTO : Z := -12.
Definition SNMPERR_BAD_CONTEXT : Z := -17.
Definition SNMPERR_ASN_PARSE_ERR : Z := -29.
Definition SNMPERR_UNKNOWN_SEC_MODEL : Z := -30.
Definition SNMPERR_INVALID_MSG : Z := -31.
Definition SNMPERR_UNKNOWN_ENG_ID : Z := -32.
Definition SNMPERR_UNKNOWN_USER_NAME : Z := -33.
Definition SNMPERR_UNSUPPORTED_SEC_LEVEL : Z := -34.
Definition SNMPERR_NOT_IN_TIME_WINDOW : Z := -36.
Definition SNMPERR_DECRYPTION_ERR : Z := -37.
Definition SNMPERR_UNKNOWN_REPORT : Z := -41.
Definition SNMPERR_NULL_PDU : Z := -59.

(** * Time *)

(** [tv.tv_usec += timeout; tv.tv_sec += tv.tv_usec / 1000000L;
    tv.tv_usec %= 1000000L;] on [long]s. *)
Definition add_timeout (tv : timeval) (timeout : Z) : timeval :=
  let usec := s64 (tv_usec tv + timeout) in
  mktimeval (s64 (tv_sec tv + Z.quot usec 1000000)) (Z.rem usec 1000000).

(** * State *)

(** [netsnmp_session]; [base] has the fields the message layer uses.  A function
    pointer is a number, [None] the null one. *)
Record nsession : Type := mknsession {
  base : session;
  s_retries : Z;             (* int *)
  s_timeout : Z;             (* long *)
  s_flags : Z;               (* u_long *)
  s_callback : option Z;
  s_callback_magic : Z;
  securityEngineIDLen : Z;   (* size_t *)
  sndMsgMaxSize : Z          (* size_t *)
}.

Definition on_base (f : session -> session) (s : nsession) : nsession :=
  mknsession (f (base s)) (s_retries s) (s_timeout s) (s_flags s) (s_callback s) (s_callback_magic s)
             (securityEngineIDLen s) (sndMsgMaxSize s).

(** [netsnmp_request_list] *)
Record request : Type := mkrequest {
  request_id : Z;            (* long *)
  message_id : Z;            (* long *)
  rp_callback : option Z;
  cb_data : Z;
  rp_retries : Z;            (* int *)
  rp_timeout : Z;            (* u_long *)
  timeM : timeval;
  expireM : timeval;
  rp_pdu : pdu
}.

Definition set_rp_retries (x : Z) (r : request) : request :=
  mkrequest (request_id r) (message_id r) (rp_callback r) (cb_data r) x (rp_timeout r) (timeM r) (expireM r) (rp_pdu r).
Definition set_rp_pdu (x : pdu) (r : request) : request :=
  mkrequest (request_id r) (message_id r) (rp_callback r) (cb_data r) (rp_retries r) (rp_timeout r) (timeM r) (expireM r) x.
Definition set_rp_msgid (x : Z) (r : request) : request :=
  mkrequest (request_id r) x (rp_callback r) (cb_data r) (rp_retries r) (rp_timeout r) (timeM r) (expireM r)
            (set_msgid x (rp_pdu r)).
Definition set_rp_times (now : timeval) (r : request) : request :=
  mkrequest (request_id r) (message_id r) (rp_callback r) (cb_data r) (rp_retries r) (rp_timeout r) now
            (add_timeout now (rp_timeout r)) (rp_pdu r).

Abbreviation node := (nat * request)%type.

Record transport_t : Type := mktransport {
  sock : Z;
  t_flags : Z;
  msgMaxSize : Z             (* size_t *)
}.

(** A call of an application's callback. *)
Record call : Type := mkcall {
  c_callback : Z;
  c_op : Z;
  c_reqid : Z;               (* int *)
  c_pdu : option pdu;
  c_magic : Z
}.

(** The world: [run_callback] gives the result of the callback;
    [transport_send] that of [netsnmp_transport_send] and [errno];
    [new_request] the address [calloc] gives a node, where the addresses of the
    live nodes are known; [new_pdu] the structure [snmp_create_sess_pdu] (or the
    hook instead of it) makes; [pdu_timeout] is what the security model of the
    PDU does, [stop_waiting] the assignment to the [waiting] flag of an
    application's [struct synch_state]. *)
Class Environment (W : Type) : Type := {
  run_callback : call -> W -> Z * W;
  transport_send : list Z -> W -> Z * Z * W;
  monotonic_clock : W -> timeval * W;
  new_request : list nat -> W -> option nat * W;
  new_pdu : W -> option pdu * W;
  pdu_timeout : pdu -> W -> W;
  stop_waiting : Z -> W -> W;
  new_request_fresh live w a w' : new_request live w = (Some a, w') -> a ∉ live
}.

(** [struct snmp_internal_session]; the hooks are null unless an agent or a
    subagent has set them. *)
Record internal (W : Type) : Type := mkinternal {
  requests : list node;
  requestsEnd : option nat;
  hook_pre : option (session -> W -> Z * W);
  hook_parse : option (session -> pdu -> list Z -> Z -> Z -> session * pdu * Z);
  hook_post : option (session -> pdu -> Z -> Z);
  hook_build : option (session -> pdu -> list Z -> Z -> option (list Z * Z * session * pdu * Z));
  hook_realloc_build : option (session -> pdu -> rstate -> option (rstate * session * pdu * Z));
  check_packet : option (list Z -> Z -> Z);
  packet : list Z;           (* u_char *; [] for NULL *)
  packet_len : Z;            (* size_t *)
  packet_size : Z            (* size_t *)
}.
#[global] Arguments mkinternal {W}.
#[global] Arguments requests {W}.
#[global] Arguments requestsEnd {W}.
#[global] Arguments hook_pre {W}.
#[global] Arguments hook_parse {W}.
#[global] Arguments hook_post {W}.
#[global] Arguments hook_build {W}.
#[global] Arguments hook_realloc_build {W}.
#[global] Arguments check_packet {W}.
#[global] Arguments packet {W}.
#[global] Arguments packet_len {W}.
#[global] Arguments packet_size {W}.

Definition set_queue {W} (l : list node) (e : option nat) (i : internal W) : internal W :=
  mkinternal l e (hook_pre i) (hook_parse i) (hook_post i) (hook_build i) (hook_realloc_build i)
             (check_packet i) (packet i) (packet_len i) (packet_size i).
Definition set_packet {W} (b : list Z) (len size : Z) (i : internal W) : internal W :=
  mkinternal (requests i) (requestsEnd i) (hook_pre i) (hook_parse i) (hook_post i) (hook_build i)
             (hook_realloc_build i) (check_packet i) b len size.

(** A [struct session_list] (the session and its internals live as long as it
    does; the transport is null while it is being closed), the static variables
    of the library and the world, with the calls made so far. *)
Record machine (W : Type) : Type := mkmachine {
  sp : nsession;
  isp : internal W;
  transport : option transport_t;
  glob : globals;
  world : W;
  calls : list call
}.
#[global] Arguments mkmachine {W}.
#[global] Arguments sp {W}.
#[global] Arguments isp {W}.
#[global] Arguments transport {W}.
#[global] Arguments glob {W}.
#[global] Arguments world {W}.
#[global] Arguments calls {W}.

Section machine.
Context {A : Allocator} {W : Type} {E : Environment W}.
Abbreviation state := (machine W).

Definition on_sp (f : nsession -> nsession) (st : state) : state :=
  mkmachine (f (sp st)) (isp st) (transport st) (glob st) (world st) (calls st).
Definition on_isp (f : internal W -> internal W) (st : state) : state :=
  mkmachine (sp st) (f (isp st)) (transport st) (glob st) (world st) (calls st).
Definition on_glob (f : globals -> globals) (st : state) : state :=
  mkmachine (sp st) (isp st) (transport st) (f (glob st)) (world st) (calls st).
Definition set_world (w : W) (st : state) : state :=
  mkmachine (sp st) (isp st) (transport st) (glob st) w (calls st).
Definition set_transport (t : option transport_t) (st : state) : state :=
  mkmachine (sp st) (isp st) t (glob st) (world st) (calls st).

(** [sp->s_snmp_errno = e] *)
Definition sess_error (e : Z) : state -> state := on_sp (on_base (set_snmp_errno e)).

(** [sp->s_snmp_errno = e; sp->s_errno = errno] *)
Definition sess_errno (e errno : Z) : state -> state :=
  on_sp (on_base (fun s => mksession (s_version s) (s_community s) (s_community_len s) e errno (authenticator s))).

Definition invoke (c : call) (st : state) : state * Z :=
  let '(r, w) := run_callback c (world st) in
  (mkmachine (sp st) (isp st) (transport st) (glob st) w (calls st ++ [c]), r).

Definition send (pkt : list Z) (st : state) : state * Z * Z :=
  let '(r, errno, w) := transport_send pkt (world st) in (set_world w st, r, errno).

Definition clock (st : state) : state * timeval :=
  let '(t, w) := monotonic_clock (world st) in (set_world w st, t).

(** * Sending *)

Context (v3_build : session -> pdu -> rstate -> option (rstate * session * pdu * Z)).

(** What [_sess_async_send] and [snmp_resend_request] do to build the message in
    a buffer of 2048 bytes: the result, and the packet as an object, its start
    in it and its length. *)
Definition build_packet (p : pdu) (pktbuf : list Z) (st : state)
  : option (state * pdu * Z * (list Z * Z * Z)) :=
  let sess := base (sp st) in
  match hook_realloc_build (isp st), hook_build (isp st) with
  | Some hook, _ =>
    '(s, sess, p, result) ← hook sess p (mkrstate pktbuf 2048 0);
    Some (on_sp (on_base (fun _ => sess)) st, p, result, (pkt s, 0, offset s))
  | None, Some hook =>
    '(m, len, sess, p, result) ← hook sess p pktbuf 2048;
    Some (on_sp (on_base (fun _ => sess)) st, p, result, (m, 0, len))
  | None, None =>
    '(s, sess, p, g, result) ← snmp_build v3_build (glob st) sess p (mkrstate pktbuf 2048 0);
    let st := on_glob (fun _ => g) (on_sp (on_base (fun _ => sess)) st) in
    if ds_reverse_encode (glob st)
    then Some (st, p, result, (pkt s, pkt_len s - offset s, offset s))
    else Some (st, p, result, (pkt s, 0, pkt_len s))
  end.

(** [if (isp->requestsEnd) ... else ...]: the node [rp] goes into the list. *)
Fixpoint insert_after (e : nat) (rp : node) (l : list node) : option (list node) :=
  match l with
  | [] => None
  | x :: l => if bool_decide (x.1 = e) then Some (x :: rp :: l) else l ← insert_after e rp l; Some (x :: l)
  end.

Definition add_request (rp : node) (i : internal W) : option (internal W) :=
  match requestsEnd i with
  | Some e => l ← insert_after e rp (requests i); Some (set_queue l (Some rp.1) i)
  | None => Some (set_queue (rp :: requests i) (Some rp.1) i)
  end.

(** [switch (pdu->command)]: do we expect a response? *)
Definition expect_flags (p : pdu) : pdu :=
  if is_one_of (command p) [SNMP_MSG_RESPONSE; SNMP_MSG_TRAP; SNMP_MSG_TRAP2; SNMP_MSG_REPORT;
                            AGENTX_MSG_CLEANUPSET; AGENTX_MSG_RESPONSE]
  then set_flags (Z.land (flags p) (Z.lnot UCD_MSG_FLAG_EXPECT_RESPONSE)) p
  else set_flags (Z.lor (flags p) UCD_MSG_FLAG_EXPECT_RESPONSE) p.


(** The version the message is sent with, or [None] for [SNMPERR_BAD_VERSION]. *)
Definition agree_version (sv pv : Z) : option Z :=
  if pv =? SNMP_DEFAULT_VERSION then (if sv =? SNMP_DEFAULT_VERSION then None else Some sv)
  else if sv =? SNMP_DEFAULT_VERSION then Some pv
  else if negb (pv =? sv) then None else Some pv.

(** The last part of [_sess_async_send]: the request that waits for the
    response. *)
Definition wait_for_response (p : pdu) (callback : option Z) (cbdata : Z) (st : state)
  : option (state * pdu * Z) :=
  let '(a, w) := new_request (map fst (requests (isp st))) (world st) in
  let st := set_world w st in
  match a with
  | None => Some (sess_error SNMPERR_GENERR st, p, 0)
  | Some a =>
    let '(st, tv) := clock st in
    let timeout := if has_flag (flags p) UCD_MSG_FLAG_PDU_TIMEOUT then u64 (time p * 1000000)
                   else u64 (s_timeout (sp st)) in
    let rp := mkrequest (reqid p) (msgid p) callback cbdata 0 timeout tv (add_timeout tv timeout) p in
    i ← add_request (a, rp) (isp st);
    Some (on_isp (fun _ => i) st, p, s32 (reqid p))
  end.

(** [v3_probe] is [snmpv3_engineID_probe].  The [pdu] in the result is as the
    function leaves the structure of its caller. *)
Context (v3_probe : state -> state * Z).

Definition _sess_async_send (st : state) (p : option pdu) (callback : option Z) (cbdata : Z)
  : option (state * option pdu * Z) :=
  match transport st, p with
  | None, _ => Some (st, p, 0)
  | Some _, None => Some (sess_error SNMPERR_NULL_PDU st, None, 0)
  | Some tr, Some p =>
    let st := on_sp (on_base clear_errno) st in
    match agree_version (s_version (base (sp st))) (version p) with
    | None => Some (sess_error SNMPERR_BAD_VERSION st, Some p, 0)
    | Some v =>
      let p := expect_flags (set_version v p) in
      let probe := (version p =? SNMP_VERSION_3) && has_flag (flags p) UCD_MSG_FLAG_EXPECT_RESPONSE &&
                   (securityEngineIDLen (sp st) =? 0) && negb (has_flag (s_flags (sp st)) SNMP_FLAGS_DONT_PROBE) in
      let '(st, rc) := if probe then v3_probe st else (st, 1) in
      if rc =? 0 then Some (st, Some p, 0)
      else
        match malloc 2048 with
        | None => Some (sess_error SNMPERR_MALLOC st, Some p, 0)
        | Some pktbuf =>
          '(st, p, result, (m, start, length)) ← build_packet p pktbuf st;
          if result <? 0 then Some (st, Some p, 0)
          else if (version p =? SNMP_VERSION_3) && negb (sndMsgMaxSize (sp st) =? 0) && (sndMsgMaxSize (sp st) <? length)
          then Some (sess_error SNMPERR_TOO_LONG st, Some p, 0)
          else if negb (msgMaxSize tr =? 0) && (msgMaxSize tr <? length)
          then Some (sess_error SNMPERR_TOO_LONG st, Some p, 0)
          else
            pkt ← peek_n m start length;
            let '(st, result, errno) := send pkt st in
            if result <? 0 then Some (sess_errno SNMPERR_BAD_SENDTO errno st, Some p, 0)
            else if has_flag (flags p) UCD_MSG_FLAG_EXPECT_RESPONSE then
              '(st, p, rc) ← wait_for_response p callback cbdata st; Some (st, Some p, rc)
            else Some (st, Some p, s32 (reqid p))
        end
    end
  end.

Definition snmp_sess_async_send (st : state) (p : option pdu) (callback : option Z) (cbdata : Z)
  : option (state * option pdu * Z) :=
  '(st, p, rc) ← _sess_async_send st p callback cbdata;
  if rc =? 0 then Some (on_glob (SET_SNMP_ERROR (s_snmp_errno (base (sp st)))) st, p, rc)
  else Some (st, p, rc).

(** * Time-outs *)

(** The request as the function leaves it. *)
Definition snmp_resend_request (st : state) (rp : request) (incr_retries : bool)
  : option (state * request * Z) :=
  match transport st with
  | None => Some (st, rp, 0)
  | Some _ =>
    match malloc 2048 with
    | None => Some (st, rp, 0)
    | Some pktbuf =>
      let rp := if incr_retries then set_rp_retries (s32 (rp_retries rp + 1)) rp else rp in
      let '(g, id) := snmp_get_next_msgid (glob st) in
      let st := on_glob (fun _ => g) st in
      let rp := set_rp_msgid id rp in
      '(st, p, result, (m, start, length)) ← build_packet (rp_pdu rp) pktbuf st;
      let rp := set_rp_pdu p rp in
      if result <? 0 then Some (st, rp, -1)
      else
        pkt ← peek_n m start length;
        let '(st, result, errno) := send pkt st in
        if result <? 0 then Some (sess_errno SNMPERR_BAD_SENDTO errno st, rp, -1)
        else let '(st, now) := clock st in Some (st, set_rp_times now rp, 0)
    end
  end.

(** The callback that is told about [rp]: its own, or that of the session. *)
Definition request_callback (st : state) (rp : request) : option Z * Z :=
  match rp_callback rp with
  | Some c => (Some c, cb_data rp)
  | None => (s_callback (sp st), s_callback_magic (sp st))
  end.

(** [if (callback) callback(op, sp, pdu->reqid, pdu, magic);] with its result, 1
    when there is no callback. *)
Definition call_back (op : Z) (p : pdu) (rp : request) (st : state) : state * Z :=
  match request_callback st rp with
  | (Some c, magic) => invoke (mkcall c op (s32 (reqid p)) (Some p) magic) st
  | (None, _) => (st, 1)
  end.

(** [if (isp->requestsEnd == rp) isp->requestsEnd = orp;] *)
Definition drop_end (a : nat) (orp : list node) (e : option nat) : option nat :=
  if bool_decide (e = Some a) then fst <$> list.last orp else e.

(** The [for] loop of [snmp_sess_timeout]: [seen] are the nodes that were kept,
    the last of them is [orp]; [e] is [isp->requestsEnd]. *)
Fixpoint timeout_loop (now : timeval) (seen todo : list node) (e : option nat) (st : state) : option state :=
  match todo with
  | [] => Some (on_isp (set_queue seen e) st)
  | (a, rp) :: todo =>
    if timercmp_lt (expireM rp) now then
      let st := set_world (pdu_timeout (rp_pdu rp) (world st)) st in
      if s_retries (sp st) <=? rp_retries rp then
        let '(st, _) := call_back NETSNMP_CALLBACK_OP_TIMED_OUT (rp_pdu rp) rp st in
        timeout_loop now seen todo (drop_end a seen e) st
      else
        '(st, rp, rc) ← snmp_resend_request st rp true;
        if negb (rc =? 0) then Some (on_isp (set_queue (seen ++ (a, rp) :: todo) e) st)
        else timeout_loop now (seen ++ [(a, rp)]) todo e st
    else timeout_loop now (seen ++ [(a, rp)]) todo e st
  end.

Definition snmp_sess_timeout (st : state) : option state :=
  let '(st, now) := clock st in
  timeout_loop now [] (requests (isp st)) (requestsEnd (isp st)) st.

(** * Receiving *)

Definition memcmp_name (stats name : list Z) : bool := bool_decide (take (length stats) name = stats).

(** [snmpv3_get_report_type]; the name of a variable that was parsed has
    [name_length] components at least. *)
Definition snmpv3_get_report_type (p : pdu) : option Z :=
  match variables p with
  | [] => Some SNMPERR_UNKNOWN_REPORT
  | vp :: _ =>
    if vp_name_length vp =? 9 + 2 then
      n ← peek (vp_name vp) 9;
      Some (if memcmp_name [1; 3; 6; 1; 6; 3; 11; 2; 1] (vp_name vp) then
              if n =? 1 then SNMPERR_UNKNOWN_SEC_MODEL else if n =? 2 then SNMPERR_INVALID_MSG
              else if n =? 3 then SNMPERR_BAD_VERSION else SNMPERR_UNKNOWN_REPORT
            else if memcmp_name [1; 3; 6; 1; 6; 3; 15; 1; 1] (vp_name vp) then
              if n =? 1 then SNMPERR_UNSUPPORTED_SEC_LEVEL else if n =? 2 then SNMPERR_NOT_IN_TIME_WINDOW
              else if n =? 3 then SNMPERR_UNKNOWN_USER_NAME else if n =? 4 then SNMPERR_UNKNOWN_ENG_ID
              else if n =? 5 then SNMPERR_AUTHENTICATION_FAILURE else if n =? 6 then SNMPERR_DECRYPTION_ERR
              else SNMPERR_UNKNOWN_REPORT
            else SNMPERR_UNKNOWN_REPORT)
    else if vp_name_length vp =? 8 + 2 then
      n ← peek (vp_name vp) 8;
      Some (if memcmp_name [1; 3; 6; 1; 6; 3; 12; 1] (vp_name vp)
            then if (n =? 4) || (n =? 5) then SNMPERR_BAD_CONTEXT else SNMPERR_UNKNOWN_REPORT
            else SNMPERR_UNKNOWN_REPORT)
    else Some SNMPERR_UNKNOWN_REPORT
  end.

(** [snmpv3_verify_msg] and the branch of SNMPv3 in [_snmp_parse]. *)
Context (v3_verify : request -> pdu -> bool).
Context (v3_parse : list Z -> mstate -> Z -> Z -> option (mstate * Z)).

(** What becomes of the request whose callback has accepted the response: it is
    sent again, or it is done ([magic->waiting] is cleared for a report). *)
Definition response_accepted (st : state) (rp : request) (p : pdu) (magic : Z)
  : option (state * option request) :=
  if command p =? SNMP_MSG_REPORT then
    retry ← (if s_snmp_errno (base (sp st)) =? SNMPERR_NOT_IN_TIME_WINDOW then Some true
             else t ← snmpv3_get_report_type p; Some (t =? SNMPERR_NOT_IN_TIME_WINDOW));
    if (retry : bool) && (rp_retries rp <=? s_retries (sp st)) then
      '(st, rp, _) ← snmp_resend_request st rp true; Some (st, Some rp)
    else Some (if magic =? 0 then st else set_world (stop_waiting magic (world st)) st, None)
  else Some (st, None).

(** The [for] loop over the requests; [handled] is the local variable. *)
Fixpoint response_loop (p : pdu) (seen todo : list node) (e : option nat) (handled : bool) (st : state)
  : option (state * bool) :=
  match todo with
  | [] => Some (on_isp (set_queue seen e) st, handled)
  | (a, rp) :: todo =>
    let skip := response_loop p (seen ++ [(a, rp)]) todo e handled st in
    if (version p =? SNMP_VERSION_3) && negb (message_id rp =? msgid p) then skip
    else if (version p =? SNMP_VERSION_3) && negb (v3_verify rp p)
    then Some (on_isp (set_queue (seen ++ (a, rp) :: todo) e) st, handled)
    else if negb (version p =? SNMP_VERSION_3) && negb (request_id rp =? reqid p) then skip
    else
      let magic := (request_callback st rp).2 in
      let '(st, r) := call_back NETSNMP_CALLBACK_OP_RECEIVED_MESSAGE p rp st in
      if r =? 1 then
        '(st, rp) ← response_accepted st rp p magic;
        match rp with
        | Some rp => Some (on_isp (set_queue (seen ++ (a, rp) :: todo) e) st, true)
        | None => Some (on_isp (set_queue (seen ++ todo) (drop_end a seen e)) st, true)
        end
      else response_loop p (seen ++ [(a, rp)]) todo e true st
  end.

(** [loc] is what the local arrays hold on entry. *)
Definition _sess_process_packet (loc : locals) (tr : transport_t) (m : list Z) (pos length : Z) (st : state)
  : option (state * Z) :=
  let '(st, go) := match hook_pre (isp st) with
                   | Some hook => let '(r, w) := hook (base (sp st)) (world st) in (set_world w st, negb (r =? 0))
                   | None => (st, true)
                   end in
  if negb go then Some (st, -1)
  else
    let '(p, w) := new_pdu (world st) in
    let st := set_world w st in
    match p with
    | None => Some (st, -1)
    | Some p =>
      let p := if has_flag (t_flags tr) NETSNMP_TRANSPORT_FLAG_TUNNELED
               then set_flags (Z.lor (flags p) UCD_MSG_FLAG_TUNNELED) p else p in
      '(sess, p, g, ret) ← match hook_parse (isp st) with
                           | Some hook => let '(sess, p, ret) := hook (base (sp st)) p m pos length in
                                          Some (sess, p, glob st, ret)
                           | None => '(ms, ret) ← snmp_parse v3_parse loc m (mkmstate (base (sp st)) p (glob st)) pos length;
                                     Some (ms_session ms, ms_pdu ms, ms_globals ms, ret)
                           end;
      let st := on_glob (fun _ => g) (on_sp (on_base (fun _ => sess)) st) in
      let ret := match hook_post (isp st) with
                 | Some hook => if hook sess p ret =? 0 then SNMPERR_ASN_PARSE_ERR else ret
                 | None => ret
                 end in
      if negb (ret =? 0) then Some (st, -1)
      else
        '(st, handled) ←
          (if has_flag (flags p) UCD_MSG_FLAG_RESPONSE_PDU
           then response_loop p [] (requests (isp st)) (requestsEnd (isp st)) false st
           else match s_callback (sp st) with
                | Some c => Some ((invoke (mkcall c NETSNMP_CALLBACK_OP_RECEIVED_MESSAGE (s32 (reqid p)) (Some p)
                                                  (s_callback_magic (sp st))) st).1, true)
                | None => Some (st, false)
                end);
        Some (if (handled : bool) then st else on_glob (count STAT_SNMPUNKNOWNPDUHANDLERS) st, 0)
    end.
End machine.

(** Reading a session's transport: [_sess_read] and [snmp_sess_read2] of
    [snmplib/snmp_api.c].  A datagram is a packet; a stream is collected in
    [isp->packet] and cut into packets with [asn_check_packet].

    The addresses a transport reports ([opaque]) are left to the world.  A
    listening stream transport, which accepts connections as new sessions, is a
    parameter, and so is the test of the descriptor set. *)

Definition NETSNMP_TRANSPORT_FLAG_LISTEN : Z := 0x02.
Definition MAXIMUM_PACKET_SIZE : Z := 0x7fffffff.
Definition SNMPERR_BAD_RECVFROM : Z := -25.

(** What [netsnmp_transport_recv] gives: its result, the bytes it has stored,
    [errno], and the flags it leaves in the transport. *)
Record recv : Type := mkrecv { r_length : Z; r_data : list Z; r_errno : Z; r_flags : Z }.

(** [f_recv] is told the room in the buffer, and stores no more than that;
    [f_close] closes the transport. *)
Class Reader (W : Type) : Type := {
  transport_recv : transport_t -> Z -> W -> recv * W;
  transport_close : transport_t -> W -> transport_t * W;
  recv_fits tr room w r w' : transport_recv tr room w = (r, w') ->
    r_length r <= room /\ (0 <= r_length r -> zlen (r_data r) = r_length r)
}.

Section read.
Context {A : Allocator} {W : Type} {E : Environment W} {R : Reader W}.
Context (v3_build : session -> pdu -> rstate -> option (rstate * session * pdu * Z)).
Context (v3_verify : request -> pdu -> bool).
Context (v3_parse : list Z -> mstate -> Z -> Z -> option (mstate * Z)).
Context (accept_session : machine W -> machine W * Z).
Abbreviation state := (machine W).

Definition set_packet_len (n : Z) (i : internal W) : internal W := set_packet (packet i) n (packet_size i) i.

(** Where the data of a stream goes: the buffer, the place in it and the room
    behind that; [None] when it cannot be allocated.  The null pointer is the
    empty object. *)
Definition stream_buffer (i : internal W) : option (internal W * list Z * Z * Z) :=
  let rxbuf_len := 65536 in
  match packet i with
  | [] => b ← malloc rxbuf_len; Some (set_packet b 0 rxbuf_len i, b, 0, rxbuf_len)
  | _ =>
    if packet_size i <? u64 (packet_len i + rxbuf_len) then
      let size := u64 (packet_len i + rxbuf_len) in
      b ← realloc (packet i) size; Some (set_packet b (packet_len i) size i, b, packet_len i, rxbuf_len)
    else Some (i, packet i, packet_len i, u64 (packet_size i - packet_len i))
  end.

(** The application is told that the connection is gone. *)
Definition tell_disconnect (st : state) : state :=
  match s_callback (sp st) with
  | Some c => (invoke (mkcall c NETSNMP_CALLBACK_OP_DISCONNECT 0 None (s_callback_magic (sp st))) st).1
  | None => st
  end.

Definition close (tr : transport_t) (st : state) : state :=
  let '(tr, w) := transport_close tr (world st) in set_transport (Some tr) (set_world w st).

(** How the loop over the packets of a stream ends: the buffer holds no whole
    packet any more, but some were processed; it holds none from the start; or
    what it holds is no packet. *)
Inductive drained : Type :=
| Drained (st : state) (pptr : Z) (rc : Z)
| Waiting (st : state)
| Broken (st : state).

(** [junk] is the local variable of [asn_check_packet], [pptr] an offset in
    [isp->packet]. *)
Definition packet_size_at (i : internal W) (pptr junk : Z) : option Z :=
  let rest := drop (Z.to_nat pptr) (packet i) in
  n ← match check_packet i with
      | Some check => Some (check rest (packet_len i))
      | None => asn_check_packet rest (packet_len i) junk
      end;
  Some (u64 n).

Fixpoint drain (fuel : nat) (loc : locals) (tr : transport_t) (junk : Z) (st : state) (pptr rc : Z) : option drained :=
  match fuel with
  | O => None
  | S fuel =>
    if packet_len (isp st) <=? 0 then Some (Drained st pptr rc)
    else
      pdulen ← packet_size_at (isp st) pptr junk;
      if MAX_PACKET_LENGTH <? pdulen then Some (Broken (close tr (tell_disconnect st)))
      else if (packet_len (isp st) <? pdulen) || (pdulen =? 0) then
        if negb (pptr =? 0) then Some (Drained st pptr rc) else Some (Waiting st)
      else
        '(st, rc) ← _sess_process_packet v3_build v3_verify v3_parse loc tr (packet (isp st)) pptr pdulen st;
        let e := s_snmp_errno (base (sp st)) in
        let st := if negb (rc =? 0) && negb (e =? 0) then on_glob (SET_SNMP_ERROR e) st else st in
        drain fuel loc tr junk (on_isp (fun i => set_packet_len (u64 (packet_len i - pdulen)) i) st) (pptr + pdulen) rc
  end.

(** What is left of a packet moves to the start of the buffer. *)
Definition keep_rest (tr : transport_t) (st : state) (pptr rc : Z) : option (state * Z) :=
  let i := isp st in
  if MAXIMUM_PACKET_SIZE <=? packet_len i then Some (close tr st, -1)
  else if packet_len i =? 0 then Some (on_isp (set_packet [] 0 0) st, rc)
  else
    bs ← peek_n (packet i) pptr (packet_len i);
    b ← poke_n (packet i) 0 bs;
    let i := match realloc b (packet_len i) with
             | None => set_packet b (packet_len i) (packet_size i) i
             | Some b' => set_packet b' (packet_len i) (packet_len i) i
             end in
    Some (on_isp (fun _ => i) st, rc).

(** The data of a stream has come. *)
Definition read_stream (loc : locals) (tr : transport_t) (junk : Z) (st : state) : option (state * Z) :=
  d ← drain (S (Z.to_nat (packet_len (isp st)))) loc tr junk st 0 0;
  match d with
  | Drained st pptr rc => keep_rest tr st pptr rc
  | Waiting st => Some (st, 0)
  | Broken st => Some (st, -1)
  end.

(** [ready] says if the socket is in the set of descriptors. *)
Definition _sess_read (loc : locals) (junk : Z) (ready : bool) (st : state) : option (state * Z) :=
  match transport st with
  | None => Some (st, 0)
  | Some tr =>
    if sock tr <? 0 then Some (st, 0)
    else if negb ready then Some (st, 0)
    else
      let st := on_sp (on_base clear_errno) st in
      if has_flag (t_flags tr) NETSNMP_TRANSPORT_FLAG_LISTEN then Some (accept_session st)
      else
        let stream := has_flag (t_flags tr) NETSNMP_TRANSPORT_FLAG_STREAM in
        match (if stream then stream_buffer (isp st)
               else b ← malloc 65536; Some (isp st, b, 0, 65536)) with
        | None => Some (st, 0)
        | Some (i, rxbuf, start, room) =>
          let '(r, w) := transport_recv tr room (world st) in
          let tr := mktransport (sock tr) (r_flags r) (msgMaxSize tr) in
          let st := set_transport (Some tr) (set_world w (on_isp (fun _ => i) st)) in
          let length := r_length r in
          let stream := has_flag (t_flags tr) NETSNMP_TRANSPORT_FLAG_STREAM in
          if (length =? -1) && negb stream then Some (sess_errno SNMPERR_BAD_RECVFROM (r_errno r) st, -1)
          else if (length =? 0) && has_flag (t_flags tr) NETSNMP_TRANSPORT_FLAG_EMPTY_PKT then
            let tr := mktransport (sock tr) (Z.land (t_flags tr) (Z.lnot NETSNMP_TRANSPORT_FLAG_EMPTY_PKT)) (msgMaxSize tr) in
            Some (set_transport (Some tr) st, 0)
          else if (length <=? 0) && stream then
            let st := close tr (tell_disconnect st) in
            Some (on_isp (fun i => set_packet [] (packet_len i) (packet_size i) i) st, -1)
          else
            rxbuf ← poke_n rxbuf start (r_data r);
            if stream then
              let st := on_isp (fun i => set_packet rxbuf (u64 (packet_len i + length)) (packet_size i) i) st in
              read_stream loc tr junk st
            else _sess_process_packet v3_build v3_verify v3_parse loc tr rxbuf 0 length st
        end
  end.

Definition snmp_sess_read2 (loc : locals) (junk : Z) (ready : bool) (st : state) : option (state * Z) :=
  '(st, rc) ← _sess_read loc junk ready st;
  let e := s_snmp_errno (base (sp st)) in
  Some (if negb (rc =? 0) && negb (e =? 0) then on_glob (SET_SNMP_ERROR e) st else st, rc).
End read.
