(* ===== verification/SessionQueue.v ===== *)
(** The list of pending requests: its invariant, and how every operation changes
    it.  [requestsEnd] is always the last node, so a new request goes to the end;
    the operations only drop nodes or count their retries up. *)
From Stdlib Require Import ZArith Lia.
From S2P Require Import Prelude Oid Asn1Defs SnmpDefs Asn1Parse Asn1Build Asn1RBuild SnmpVar Pdu Message Timeval.
From S2P Require Import Session.

(** * The invariant *)

Definition addresses (l : list node) : list nat := map fst l.

(** The nodes have addresses of their own, and [requestsEnd] is the last one. *)
Definition list_ok (l : list node) (e : option nat) : Prop :=
  NoDup (addresses l) /\ e = fst <$> list.last l.

Definition queue_ok {W} (i : internal W) : Prop := list_ok (requests i) (requestsEnd i).

Lemma addresses_app l1 l2 : addresses (l1 ++ l2) = addresses l1 ++ addresses l2.
Proof. apply map_app. Qed.


Lemma insert_after_snoc l x rp :
  NoDup (addresses (l ++ [x])) -> insert_after x.1 rp (l ++ [x]) = Some (l ++ [x; rp]).
Proof.
  induction l as [|y l IH]; intros Hnd; cbn.
  - by rewrite bool_decide_eq_true_2.
  - cbn in Hnd. apply list.NoDup_cons in Hnd as [Hy Hnd]. rewrite bool_decide_eq_false_2.
    + by rewrite IH.
    + intros Hyx. apply Hy. rewrite Hyx, addresses_app. apply elem_of_app. right. by apply list_elem_of_here.
Qed.

(** A new request goes to the end. *)
Lemma add_request_end {W} (i : internal W) rp :
  queue_ok i -> rp.1 ∉ addresses (requests i) ->
  add_request rp i = Some (set_queue (requests i ++ [rp]) (Some rp.1) i).
Proof.
  intros [Hnd He] Hf. unfold add_request. rewrite He. destruct (requests i) as [|x l _] using rev_ind; [done|].
  rewrite last_snoc. cbn. rewrite insert_after_snoc by done. cbn. by rewrite <- app_assoc.
Qed.

Lemma list_ok_snoc l e rp : list_ok l e -> rp.1 ∉ addresses l -> list_ok (l ++ [rp]) (Some rp.1).
Proof.
  intros [Hnd _] Hf. split; [|by rewrite last_snoc]. rewrite addresses_app. apply list.NoDup_app.
  split_and!; [done| |apply NoDup_singleton]. intros x Hx Hx'. apply list_elem_of_singleton in Hx' as ->. done.
Qed.

(** Taking a node out. *)
Lemma drop_end_ok l1 a r l2 e : list_ok (l1 ++ (a, r) :: l2) e -> list_ok (l1 ++ l2) (drop_end a l1 e).
Proof.
  intros [Hnd He]. split.
  - rewrite addresses_app in *. cbn in Hnd. apply list.NoDup_app in Hnd as (H1 & H2 & H3).
    apply list.NoDup_cons in H3 as [_ H3]. apply list.NoDup_app. split_and!; [done| |done].
    intros x Hx Hx'. apply (H2 x Hx). by right.
  - unfold drop_end. rewrite He. destruct l2 as [|y l2 _] using rev_ind.
    + rewrite last_snoc, app_nil_r. cbn. by rewrite bool_decide_eq_true_2.
    + rewrite app_comm_cons, !app_assoc, !last_snoc. cbn. rewrite bool_decide_eq_false_2; [done|].
      intros [= Hy]. rewrite addresses_app in Hnd. cbn in Hnd. apply list.NoDup_app in Hnd as (_ & _ & Hnd).
      apply list.NoDup_cons in Hnd as [Hnd _]. apply Hnd. rewrite <- Hy, addresses_app. apply elem_of_app. right.
      by apply list_elem_of_here.
Qed.

(** Replacing a request in its node. *)
Lemma list_ok_replace l1 a r r' l2 e : list_ok (l1 ++ (a, r) :: l2) e -> list_ok (l1 ++ (a, r') :: l2) e.
Proof.
  intros [Hnd He]. split; [by rewrite addresses_app in *|]. rewrite He.
  destruct l2 as [|y l2 _] using rev_ind; [by rewrite !last_snoc|]. by rewrite !app_comm_cons, !app_assoc, !last_snoc.
Qed.

(** * What the steps keep *)

(** The calls that tell the application about [r]: by its own callback, or by
    that of the session ([cb]). *)
Definition told (cb : option Z * Z) (op : Z) (p : pdu) (r : request) : list call :=
  match (match rp_callback r with Some c => (Some c, cb_data r) | None => cb end) with
  | (Some c, magic) => [mkcall c op (s32 (reqid p)) (Some p) magic]
  | (None, _) => []
  end.

Section frames.
Context {A : Allocator} {W : Type} {E : Environment W}.
Context (v3_build : session -> pdu -> rstate -> option (rstate * session * pdu * Z)).
Abbreviation state := (machine W).

(** Nothing but the base of the session, the static variables, the world and the
    calls made has changed. *)
Definition same_session (st st' : state) : Prop :=
  isp st' = isp st /\ transport st' = transport st /\ exists b, sp st' = on_base (fun _ => b) (sp st).

#[global] Instance same_session_po : PreOrder same_session.
Proof.
  split; [intros st; split_and!; [done..|]; exists (base (sp st)); by destruct (sp st)|].
  intros x y z (H1 & H2 & b & H3) (H4 & H5 & b' & H6). split_and!; [congruence..|]. exists b'. by rewrite H6, H3.
Qed.

Lemma same_session_fields st st' :
  same_session st st' -> s_retries (sp st') = s_retries (sp st) /\ s_callback (sp st') = s_callback (sp st) /\
    s_callback_magic (sp st') = s_callback_magic (sp st).
Proof. intros (_ & _ & b & ->). done. Qed.

Lemma same_session_set st b g w cs :
  same_session st (mkmachine (on_base (fun _ => b) (sp st)) (isp st) (transport st) g w cs).
Proof. split_and!; [done..|]. by exists b. Qed.

Lemma same_session_sp st g w cs : same_session st (mkmachine (sp st) (isp st) (transport st) g w cs).
Proof. split_and!; [done..|]. exists (base (sp st)). by destruct (sp st). Qed.

Hint Resolve same_session_set same_session_sp : core.

(** The same, with the calls that were made. *)
Definition moved (st st' : state) (cs : list call) : Prop :=
  same_session st st' /\ calls st' = calls st ++ cs.

Lemma moved_refl st : moved st st [].
Proof. split; [done|]. by rewrite app_nil_r. Qed.

Lemma moved_trans st1 st2 st3 cs cs' : moved st1 st2 cs -> moved st2 st3 cs' -> moved st1 st3 (cs ++ cs').
Proof. intros [H1 H2] [H3 H4]. split; [by etrans|]. by rewrite H4, H2, <- app_assoc. Qed.

Lemma moved_glob st b g w : moved st (mkmachine (on_base (fun _ => b) (sp st)) (isp st) (transport st) g w (calls st)) [].
Proof. split; [apply same_session_set|]. by rewrite app_nil_r. Qed.

Lemma moved_world st g w : moved st (mkmachine (sp st) (isp st) (transport st) g w (calls st)) [].
Proof. split; [apply same_session_sp|]. by rewrite app_nil_r. Qed.

Lemma moved_base f st : moved st (on_sp (on_base f) st) [].
Proof. split; [|by rewrite app_nil_r]. split_and!; [done..|]. by eexists. Qed.

Lemma invoke_moved c st : moved st (invoke c st).1 [c].
Proof. unfold invoke. destruct (run_callback c (world st)) as [r w]. split; [|done]. apply same_session_sp. Qed.

Lemma send_moved pkt st st' r e : send pkt st = (st', r, e) -> moved st st' [].
Proof. unfold send. destruct (transport_send pkt (world st)) as [[? ?] w]. intros [= <- _ _]. apply moved_world. Qed.

Lemma clock_moved st st' t : clock st = (st', t) -> moved st st' [].
Proof. unfold clock. destruct (monotonic_clock (world st)) as [? w]. intros [= <- _]. apply moved_world. Qed.

Lemma build_packet_moved p b st st' p' res pk :
  build_packet v3_build p b st = Some (st', p', res, pk) -> moved st st' [].
Proof.
  unfold build_packet. intros H. run_inv; (split; [|by rewrite app_nil_r]); split_and!; try done; by eexists.
Qed.

(** The callback of the session, where a request has none of its own. *)
Definition default_callback (st : state) : option Z * Z := (s_callback (sp st), s_callback_magic (sp st)).

Lemma same_session_callback st st' : same_session st st' -> default_callback st' = default_callback st.
Proof. intros H. apply same_session_fields in H as (_ & H1 & H2). unfold default_callback. by rewrite H1, H2. Qed.

Lemma call_back_moved op p rp st st' r :
  call_back op p rp st = (st', r) -> moved st st' (told (default_callback st) op p rp).
Proof.
  unfold call_back, told, default_callback, request_callback.
  destruct (rp_callback rp) as [c|]; [|destruct (s_callback (sp st)) as [c|]];
    [intros H; replace st' with (invoke (mkcall c op (s32 (reqid p)) (Some p) (cb_data rp)) st).1 by (by rewrite H)
    |intros H; replace st' with (invoke (mkcall c op (s32 (reqid p)) (Some p) (s_callback_magic (sp st))) st).1 by (by rewrite H)
    |intros [= -> _]]; apply invoke_moved || apply moved_refl.
Qed.

(** ** A request that was sent again *)

(** The identity of a request, which no operation changes. *)
Definition same_request (r r' : request) : Prop :=
  request_id r' = request_id r /\ rp_callback r' = rp_callback r /\ cb_data r' = cb_data r /\
  rp_timeout r' = rp_timeout r.

Definition resent (r r' : request) : Prop :=
  same_request r r' /\ rp_retries r' = s32 (rp_retries r + 1).

(** The session can send: its transport is there, and so is memory for a packet. *)
Definition can_send (st : state) : bool :=
  match transport st, malloc 2048 with Some _, Some _ => true | _, _ => false end.

Lemma can_send_same st st' : same_session st st' -> can_send st' = can_send st.
Proof. unfold can_send. by intros (_ & -> & _). Qed.

(** What a second sending does to a request. *)
Definition again (can : bool) (r r' : request) : Prop := if can then resent r r' else r' = r.

Lemma snmp_resend_request_spec st rp st' rp' rc :
  snmp_resend_request v3_build st rp true = Some (st', rp', rc) ->
  moved st st' [] /\ (rc <> 0 -> can_send st = true) /\ again (can_send st) rp rp'.
Proof.
  unfold snmp_resend_request, can_send, again. intros H.
  destruct (transport st) eqn:Ht; [|run_inv; split_and!; [apply moved_refl|done..]].
  destruct (malloc 2048) as [b|]; [|run_inv; split_and!; [apply moved_refl|done..]].
  destruct (snmp_get_next_msgid (glob st)) as [g id].
  apply bind_Some in H as ([[[st1 p1] res] [[m start] len]] & Hb & H).
  apply build_packet_moved in Hb. pose proof (moved_trans _ _ _ _ _ (moved_world st g (world st)) Hb) as H1.
  destruct (res <? 0); [by simplify_eq|].
  apply bind_Some in H as (pkt & _ & H). destruct (send pkt st1) as [[st2 r2] er] eqn:Hsend.
  apply send_moved in Hsend. pose proof (moved_trans _ _ _ _ _ H1 Hsend) as H2. destruct (r2 <? 0).
  { simplify_eq. split_and!; [|done..]. eapply (moved_trans _ _ _ [] []); [done|apply moved_base]. }
  destruct (clock st2) as [st3 now] eqn:Hck. apply clock_moved in Hck. simplify_eq.
  split_and!; [by eapply (moved_trans _ _ _ [] [])|done..].
Qed.
End frames.

(** * Time-outs *)

(** What a call of [snmp_sess_timeout] at [now] does to the list, for a session
    that retries [R] times and tells [cb] where a request has no callback of its
    own; [can] says if it can send.  The loop stops early when the sending of a
    request fails. *)
Section timed.
Context (now : timeval) (R : Z) (cb : option Z * Z) (can : bool).

Definition expired (r : request) : bool := timercmp_lt (expireM r) now.

Inductive timed : list node -> list node -> list call -> Prop :=
| timed_nil : timed [] [] []
| timed_later a r l l' cs : expired r = false -> timed l l' cs -> timed ((a, r) :: l) ((a, r) :: l') cs
| timed_out a r l l' cs : expired r = true -> R <= rp_retries r -> timed l l' cs ->
    timed ((a, r) :: l) l' (told cb NETSNMP_CALLBACK_OP_TIMED_OUT (rp_pdu r) r ++ cs)
| timed_again a r r' l l' cs : expired r = true -> rp_retries r < R -> again can r r' -> timed l l' cs ->
    timed ((a, r) :: l) ((a, r') :: l') cs
| timed_stop a r r' l : expired r = true -> rp_retries r < R -> can = true -> resent r r' ->
    timed ((a, r) :: l) ((a, r') :: l) [].
End timed.

Section timeouts.
Context {A : Allocator} {W : Type} {E : Environment W}.
Context (v3_build : session -> pdu -> rstate -> option (rstate * session * pdu * Z)).
Abbreviation state := (machine W).

(** A loop over the requests that started in [st] and ends in [st'], after the
    nodes [seen], with [l'] for the nodes it was still to visit. *)
Definition loop_ends (st st' : state) (seen l' : list node) (cs : list call) : Prop :=
  exists st1 e', moved st st1 cs /\ list_ok (seen ++ l') e' /\ st' = on_isp (set_queue (seen ++ l') e') st1.

Lemma loop_ends_here st st' seen l' e cs :
  moved st st' cs -> list_ok (seen ++ l') e -> loop_ends st (on_isp (set_queue (seen ++ l') e) st') seen l' cs.
Proof. intros. by exists st', e. Qed.

Lemma loop_ends_after st1 st2 st3 seen l' cs cs' :
  moved st1 st2 cs -> loop_ends st2 st3 seen l' cs' -> loop_ends st1 st3 seen l' (cs ++ cs').
Proof. intros H (st & e & Hm & Hl). exists st, e. split; [by eapply moved_trans|done]. Qed.

Lemma loop_ends_snoc st st' seen x l' cs :
  loop_ends st st' (seen ++ [x]) l' cs -> loop_ends st st' seen (x :: l') cs.
Proof. unfold loop_ends. by rewrite <- app_assoc. Qed.

Lemma timeout_loop_timed now todo : forall seen e st st',
  timeout_loop v3_build now seen todo e st = Some st' -> list_ok (seen ++ todo) e ->
  exists l' cs, loop_ends st st' seen l' cs /\
    timed now (s_retries (sp st)) (default_callback st) (can_send st) todo l' cs.
Proof.
  induction todo as [|[a rp] todo IH]; intros seen e st st' H Hok; cbn [timeout_loop] in H.
  - simplify_eq. exists [], []. split; [|constructor]. exists st, e. rewrite app_nil_r in *.
    split_and!; [apply moved_refl|done|done].
  - destruct (timercmp_lt (expireM rp) now) eqn:Hex.
    2: { destruct (IH (seen ++ [(a, rp)]) e st st') as (l' & cs & Hl & Ht); [done|by rewrite <- app_assoc|].
      exists ((a, rp) :: l'), cs. split; [by apply loop_ends_snoc|by constructor]. }
    set (st0 := set_world _ st) in *. assert (Hm0 : moved st st0 []) by apply moved_world.
    assert (Hst : forall st1 cs, moved st st1 cs -> s_retries (sp st1) = s_retries (sp st) /\
      default_callback st1 = default_callback st /\ can_send st1 = can_send st).
    { intros st1 cs [Hs _]. split_and!; [apply (same_session_fields _ _ Hs)|by apply same_session_callback|by apply can_send_same]. }
    destruct (Z.leb_spec (s_retries (sp st0)) (rp_retries rp)) as [Hle|Hgt].
    + destruct (call_back _ _ _ st0) as [st1 r1] eqn:Hcb. apply call_back_moved in Hcb.
      pose proof (moved_trans _ _ _ _ _ Hm0 Hcb) as Hm1. destruct (Hst _ _ Hm1) as (H1 & H2 & H3).
      destruct (IH seen (drop_end a seen e) st1 st') as (l' & cs & Hl & Ht); [done|by eapply drop_end_ok|].
      rewrite H1, H2, H3 in Ht. eexists l', _. split; [by eapply loop_ends_after|]. by apply timed_out.
    + apply bind_Some in H as ([[st1 rp'] rc] & Hre & H).
      apply snmp_resend_request_spec in Hre as (Hm & Hrc & Hrp). pose proof (moved_trans _ _ _ _ _ Hm0 Hm) as Hm1.
      destruct (Hst _ _ Hm1) as (H1 & H2 & H3). replace (can_send st0) with (can_send st) in * by done.
      destruct (Z.eqb_spec rc 0) as [Hz|Hz]; cbn [negb] in H.
      * destruct (IH (seen ++ [(a, rp')]) e st1 st') as (l' & cs & Hl & Ht);
          [done|rewrite <- app_assoc; by eapply list_ok_replace|]. rewrite H1, H2, H3 in Ht.
        exists ((a, rp') :: l'), cs. split; [|by eapply timed_again]. by eapply (loop_ends_after _ _ _ _ _ []), loop_ends_snoc.
      * specialize (Hrc Hz). rewrite Hrc in *. simplify_eq. exists ((a, rp') :: todo), [].
        split; [|by apply timed_stop]. apply loop_ends_here; [done|by eapply list_ok_replace].
Qed.

(** The whole call: [now] is what the clock says. *)
Lemma snmp_sess_timeout_timed st st' :
  snmp_sess_timeout v3_build st = Some st' -> queue_ok (isp st) ->
  exists l' cs, loop_ends st st' [] l' cs /\
    timed (clock st).2 (s_retries (sp st)) (default_callback st) (can_send st) (requests (isp st)) l' cs.
Proof.
  unfold snmp_sess_timeout. intros H Hq. destruct (clock st) as [st1 now] eqn:Hck. apply clock_moved in Hck as Hm.
  destruct Hm as [Hs Hc]. rewrite (proj1 Hs) in H.
  destruct (timeout_loop_timed now (requests (isp st)) [] (requestsEnd (isp st)) st1 st' H Hq) as (l' & cs & Hl & Ht).
  exists l', cs. split; [eapply (loop_ends_after _ _ _ _ _ []); [by split|done]|].
  rewrite (proj1 (same_session_fields _ _ Hs)), (same_session_callback _ _ Hs), (can_send_same _ _ Hs) in Ht. done.
Qed.
End timeouts.

(** * Responses *)

(** What a response does to the list: requests it does not match, and those whose
    callback does not take it, stay; the first that takes it leaves, unless it is
    a report that asks for another try. *)
Section responded.
Context (p : pdu) (R : Z) (cb : option Z * Z) (can : bool) (verify : request -> pdu -> bool).
Abbreviation telling := (told cb NETSNMP_CALLBACK_OP_RECEIVED_MESSAGE p).

Definition matches (r : request) : bool :=
  if version p =? SNMP_VERSION_3 then message_id r =? msgid p else request_id r =? reqid p.

Inductive responded : list node -> list node -> list call -> Prop :=
| responded_nil : responded [] [] []
| responded_other a r l l' cs : matches r = false -> responded l l' cs -> responded ((a, r) :: l) ((a, r) :: l') cs
| responded_forged a r l : version p = SNMP_VERSION_3 -> matches r = true -> verify r p = false ->
    responded ((a, r) :: l) ((a, r) :: l) []
| responded_refused a r l l' cs : matches r = true -> telling r <> [] -> responded l l' cs ->
    responded ((a, r) :: l) ((a, r) :: l') (telling r ++ cs)
| responded_retry a r r' l : matches r = true -> command p = SNMP_MSG_REPORT -> rp_retries r <= R -> again can r r' ->
    responded ((a, r) :: l) ((a, r') :: l) (telling r)
| responded_taken a r l : matches r = true -> responded ((a, r) :: l) l (telling r).
End responded.

Section responses.
Context {A : Allocator} {W : Type} {E : Environment W}.
Context (v3_build : session -> pdu -> rstate -> option (rstate * session * pdu * Z)).
Context (v3_verify : request -> pdu -> bool).
Abbreviation state := (machine W).

Lemma call_back_none op p rp (st st' : state) r :
  call_back op p rp st = (st', r) -> told (default_callback st) op p rp = [] -> r = 1.
Proof.
  unfold call_back, told, default_callback, request_callback.
  by destruct (rp_callback rp) as [c|]; [|destruct (s_callback (sp st)) as [c|]]; [| |intros [= _ <-]].
Qed.

Lemma response_accepted_spec (st : state) rp p magic st' o :
  response_accepted v3_build st rp p magic = Some (st', o) ->
  moved st st' [] /\
  match o with
  | None => True
  | Some rp' => command p = SNMP_MSG_REPORT /\ rp_retries rp <= s_retries (sp st) /\ again (can_send st) rp rp'
  end.
Proof.
  unfold response_accepted. destruct (Z.eqb_spec (command p) SNMP_MSG_REPORT); [|intros [= <- <-]; split; [apply moved_refl|done]].
  intros H. apply bind_Some in H as (retry & _ & H).
  destruct (retry && (rp_retries rp <=? s_retries (sp st))) eqn:Hr.
  - apply bind_Some in H as ([[st1 rp1] rc] & Hre & [= <- <-]). apply snmp_resend_request_spec in Hre as (Hm & _ & Ha).
    apply andb_prop in Hr as [_ Hr]. split; [done|]. split_and!; [done|lia|done].
  - simplify_eq. split; [|done]. destruct (magic =? 0); [apply moved_refl|apply moved_world].
Qed.

Lemma response_loop_responded p todo : forall seen e handled (st : state) st' h,
  response_loop v3_build v3_verify p seen todo e handled st = Some (st', h) -> list_ok (seen ++ todo) e ->
  exists l' cs, loop_ends st st' seen l' cs /\
    responded p (s_retries (sp st)) (default_callback st) (can_send st) v3_verify todo l' cs.
Proof.
  induction todo as [|[a rp] todo IH]; intros seen e handled st st' h H Hok; cbn [response_loop] in H; cbv zeta in H.
  - simplify_eq. exists [], []. split; [|constructor]. exists st, e. rewrite app_nil_r in *.
    split_and!; [apply moved_refl|done|done].
  - assert (Hskip : forall hd, response_loop v3_build v3_verify p (seen ++ [(a, rp)]) todo e hd st = Some (st', h) ->
      matches p rp = false -> exists l' cs, loop_ends st st' seen l' cs /\
        responded p (s_retries (sp st)) (default_callback st) (can_send st) v3_verify ((a, rp) :: todo) l' cs).
    { intros hd Hl Hma. destruct (IH _ _ _ _ _ _ Hl) as (l' & cs & Hle & Hre); [by rewrite <- app_assoc|].
      exists ((a, rp) :: l'), cs. split; [by apply loop_ends_snoc|by constructor]. }
    assert (Hma : matches p rp = negb ((version p =? SNMP_VERSION_3) && negb (message_id rp =? msgid p)) &&
                                 negb (negb (version p =? SNMP_VERSION_3) && negb (request_id rp =? reqid p))).
    { unfold matches. destruct (version p =? SNMP_VERSION_3); cbn; rewrite ?andb_true_r; by rewrite negb_involutive. }
    destruct (_ && negb (message_id rp =? msgid p)); [by eapply Hskip|].
    destruct ((version p =? SNMP_VERSION_3) && negb (v3_verify rp p)) eqn:H2.
    { simplify_eq. apply andb_prop in H2 as [Hv Hf]. exists ((a, rp) :: todo), []. split; [by apply loop_ends_here; [apply moved_refl|]|].
      destruct (matches p rp) eqn:Hm; [apply responded_forged; [lia|done|by destruct (v3_verify rp p)]|].
      exfalso. by rewrite Hv in Hma. }
    destruct (_ && negb (request_id rp =? reqid p)); [by eapply Hskip|]. clear Hskip. cbn in Hma.
    destruct (call_back _ p rp st) as [st1 r] eqn:Hcb. pose proof (call_back_moved _ _ _ _ _ _ Hcb) as Hm.
    pose proof Hm as [Hs _]. pose proof (same_session_fields _ _ Hs) as (Hr & _).
    destruct (Z.eqb_spec r 1) as [H1|H1].
    + apply bind_Some in H as ([st2 o] & Ha & H). apply response_accepted_spec in Ha as [Hm2 Ho].
      pose proof (moved_trans _ _ _ _ _ Hm Hm2) as Hm3. rewrite app_nil_r in Hm3. destruct o as [rp'|]; simplify_eq.
      * exists ((a, rp') :: todo), (told (default_callback st) NETSNMP_CALLBACK_OP_RECEIVED_MESSAGE p rp).
        rewrite Hr, (can_send_same _ _ Hs) in Ho. destruct Ho as (Hc & Hle & Hag).
        split; [apply loop_ends_here; [done|by eapply list_ok_replace]|by apply responded_retry].
      * exists todo, (told (default_callback st) NETSNMP_CALLBACK_OP_RECEIVED_MESSAGE p rp).
        split; [apply loop_ends_here; [done|by eapply drop_end_ok]|by apply responded_taken].
    + destruct (IH _ _ _ _ _ _ H) as (l' & cs & Hle & Hre); [by rewrite <- app_assoc|].
      rewrite Hr, (can_send_same _ _ Hs), (same_session_callback _ _ Hs) in Hre.
      eexists ((a, rp) :: l'), _. split; [by eapply loop_ends_after, loop_ends_snoc|]. apply responded_refused; [done| |done].
      intros Ht. by apply H1, (call_back_none _ _ _ _ _ _ Hcb).
Qed.
End responses.
