(* ===== verification/SessionProps.v ===== *)
(** Sessions over time: every operation keeps the list of requests in order, and
    every request is answered or reported as timed out. *)
From Stdlib Require Import ZArith Lia.
From S2P Require Import Prelude Oid Asn1Defs SnmpDefs Asn1Parse Asn1Build Asn1RBuild SnmpVar Pdu Message Ber Codec.
From S2P Require Import PduSpec MessageProps Timeval Session SessionQueue.

(** * How long a request may stay *)

(** The number of time-outs a request has left, the last one included. *)
Definition cost (R : Z) (r : request) : nat := S (Z.to_nat (R - rp_retries r)).
#[global] Arguments cost : simpl never.

(** The number left to the requests up to that at [a]: as the loop stops when a
    request cannot be sent, the requests before it may have to go first. *)
Fixpoint budget (R : Z) (a : nat) (l : list node) : nat :=
  match l with
  | [] => 0
  | x :: l => (cost R x.2 + if bool_decide (x.1 = a) then 0 else budget R a l)%nat
  end.

(** The counter of retries starts at 0 and never passes [R + 1]. *)
Definition count_ok (R : Z) (r : request) : Prop := 0 <= rp_retries r <= Z.max 0 (R + 1).

Definition counts_ok (R : Z) (l : list node) : Prop := Forall (fun n => count_ok R n.2) l.

Lemma same_request_refl r : same_request r r.
Proof. done. Qed.

Lemma same_request_trans r1 r2 r3 : same_request r1 r2 -> same_request r2 r3 -> same_request r1 r3.
Proof. intros (H1 & H2 & H3 & H4) (H5 & H6 & H7 & H8). split_and!; congruence. Qed.

Lemma again_spec can R r r' :
  R < 2 ^ 31 - 1 -> count_ok R r -> rp_retries r <= R -> again can r r' ->
  same_request r r' /\ count_ok R r' /\ (cost R r' <= cost R r)%nat /\
  (can = true -> rp_retries r < R -> (cost R r' < cost R r)%nat).
Proof.
  unfold again, cost, count_ok. intros HR Hc Hle Ha. destruct can; [|subst; split_and!; done || lia].
  destruct Ha as [Hs Hr]. rewrite Hr. rewrite s32_small by lia. split_and!; [done|lia..].
Qed.

(** [a] has been kept, with a budget that is not larger (smaller if [strict]). *)
Definition kept (R : Z) (a : nat) (r : request) (l l' : list node) (strict : Prop) : Prop :=
  exists r', (a, r') ∈ l' /\ same_request r r' /\ (budget R a l' <= budget R a l)%nat /\
    (strict -> (budget R a l' < budget R a l)%nat).

Section lists.
Context (R : Z) (HR : R < 2 ^ 31 - 1).

Lemma kept_cons a r x x' l l' strict :
  x.1 <> a -> x'.1 = x.1 -> (cost R x'.2 <= cost R x.2)%nat -> kept R a r l l' strict -> kept R a r (x :: l) (x' :: l') strict.
Proof.
  intros Hx Hx' Hc (r' & Hin & Hs & Hb & Hst). exists r'. cbn. rewrite Hx'. rewrite bool_decide_eq_false_2 by done.
  split_and!; [by right|done|lia|intros H; specialize (Hst H); lia].
Qed.

Lemma kept_here a r r' l l' (strict : Prop) :
  same_request r r' -> (cost R r' <= cost R r)%nat -> (strict -> (cost R r' < cost R r)%nat) ->
  kept R a r ((a, r) :: l) ((a, r') :: l') strict.
Proof.
  intros Hs Hc Hst. exists r'. cbn. rewrite bool_decide_eq_true_2 by done.
  split_and!; [by left|done|lia|intros H; specialize (Hst H); lia].
Qed.

Lemma kept_head a r l l' (strict : Prop) : ~ strict -> kept R a r ((a, r) :: l) ((a, r) :: l') strict.
Proof. intros Hst. apply kept_here; [done|lia|tauto]. Qed.

Lemma kept_skip a r x l l' strict : x.1 <> a -> kept R a r l l' strict -> kept R a r (x :: l) (x :: l') strict.
Proof. intros Hx Hk. by apply kept_cons; [..|lia|]. Qed.

Lemma kept_drop a r x l l' strict : x.1 <> a -> kept R a r l l' strict -> kept R a r (x :: l) l' strict.
Proof.
  intros Hx (r' & Hin & Hs & Hb & Hst). exists r'. cbn. rewrite bool_decide_eq_false_2 by done.
  split_and!; [done..|lia|intros H; specialize (Hst H); lia].
Qed.

Lemma kept_same a r l (strict : Prop) : (a, r) ∈ l -> ~ strict -> kept R a r l l strict.
Proof. intros Hin Hst. by exists r. Qed.

Lemma budget_snoc a l x : a ∈ addresses l -> budget R a (l ++ [x]) = budget R a l.
Proof.
  induction l as [|y l IH]; [by intros H%elem_of_nil|]. intros H. cbn. destruct (decide (y.1 = a)) as [Hy|Hy].
  - by rewrite bool_decide_eq_true_2.
  - rewrite bool_decide_eq_false_2, IH; [done| |done]. cbn in H. apply elem_of_cons in H as [H|H]; [by subst|done].
Qed.

Lemma elem_address a r l : (a, r) ∈ l -> a ∈ addresses l.
Proof. intros H. apply list_elem_of_fmap. by exists (a, r). Qed.

(** ** Time-outs *)

Lemma timed_addresses now cb can l l' cs : timed now R cb can l l' cs -> addresses l' ⊆ addresses l.
Proof.
  induction 1; cbn; [done|..]; try done; try (by apply list_subseteq_skip). by apply list_subseteq_cons.
Qed.

Lemma timed_counts now cb can l l' cs : timed now R cb can l l' cs -> counts_ok R l -> counts_ok R l'.
Proof.
  unfold counts_ok. induction 1 as [|a r l l' cs He Ht IH|a r l l' cs He Hr Ht IH|a r r' l l' cs He Hr Ha Ht IH|a r r' l He Hr Hc Ha];
    intros Hok; try done; apply list.Forall_cons in Hok as [Hr0 Hok]; try apply list.Forall_cons.
  - split; auto.
  - auto.
  - split; [|auto]. by apply (again_spec can R r r' HR Hr0); [lia|].
  - split; [|auto]. by apply (again_spec true R r r' HR Hr0); [lia|].
Qed.

Lemma timed_kept now cb can l l' cs a r :
  timed now R cb can l l' cs -> counts_ok R l -> NoDup (addresses l) -> (a, r) ∈ l ->
  kept R a r l l' (can = true /\ expired now r = true) \/
  R <= rp_retries r /\ (a ∉ addresses l') /\ told cb NETSNMP_CALLBACK_OP_TIMED_OUT (rp_pdu r) r ⊆ cs.
Proof.
  unfold counts_ok.
  induction 1 as [|b s l l' cs He Ht IH|b s l l' cs He Hr Ht IH|b s s' l l' cs He Hr Ha Ht IH|b s s' l He Hr Hc Ha];
    intros Hok Hnd Hin; [by apply elem_of_nil in Hin|..];
    apply list.Forall_cons in Hok as [Hs Hok]; cbn in Hnd; apply list.NoDup_cons in Hnd as [Hb Hnd];
    apply elem_of_cons in Hin as [[= -> ->]|Hin].
  all: try assert (Hba : b <> a) by (intros ->; by apply Hb, (elem_address _ r)).
  - left. apply kept_head. intros [_ H]. congruence.
  - destruct (IH Hok Hnd Hin) as [Hk|(? & ? & ?)]; [left|right; split_and!; [done|by apply not_elem_of_cons|done]]. by apply kept_skip.
  - right. split_and!; [done| |by apply list_subseteq_app_l]. apply timed_addresses in Ht. auto.
  - destruct (IH Hok Hnd Hin) as [Hk|(? & ? & ?)]; [left; by apply kept_drop|right].
    split_and!; [done..|by apply list_subseteq_app_r].
  - left. destruct (again_spec can R s s' HR Hs) as (H1 & _ & H2 & H3); [lia|done|]. apply kept_here; [done..|]. intros [Hc _]. by apply H3.
  - destruct (again_spec can R s s' HR Hs) as (_ & _ & H2 & _); [lia|done|].
    destruct (IH Hok Hnd Hin) as [Hk|(? & ? & ?)]; [left|right; split_and!; [done|by apply not_elem_of_cons|done]]. by apply kept_cons.
  - left. destruct (again_spec true R s s' HR Hs) as (H1 & _ & H2 & H3); [lia|done|]. apply kept_here; [done..|]. intros _. by apply H3.
  - left. destruct (again_spec true R s s' HR Hs) as (_ & _ & H2 & H3); [lia|done|].
    exists r. cbn. rewrite bool_decide_eq_false_2 by done. specialize (H3 eq_refl Hr).
    split_and!; [by right|done|lia|lia].
Qed.

(** ** Responses *)

Lemma responded_counts p cb can verify l l' cs :
  responded p R cb can verify l l' cs -> counts_ok R l -> counts_ok R l'.
Proof.
  unfold counts_ok. induction 1; intros Hok; try done; apply list.Forall_cons in Hok as [Hr0 Hok]; try apply list.Forall_cons; auto.
  split; [|done]. by apply (again_spec can R r r' HR).
Qed.

Lemma responded_kept p cb can verify l l' cs a r :
  responded p R cb can verify l l' cs -> counts_ok R l -> NoDup (addresses l) -> (a, r) ∈ l ->
  kept R a r l l' False \/ matches p r = true /\ (a ∉ addresses l') /\ told cb NETSNMP_CALLBACK_OP_RECEIVED_MESSAGE p r ⊆ cs.
Proof.
  unfold counts_ok.
  induction 1 as [|b s l l' cs Hm Ht IH|b s l Hv Hm Hf|b s l l' cs Hm Hn Ht IH|b s s' l Hm Hc Hle Ha|b s l Hm];
    intros Hok Hnd Hin; [by apply elem_of_nil in Hin|..];
    apply list.Forall_cons in Hok as [Hs Hok]; cbn in Hnd; apply list.NoDup_cons in Hnd as [Hb Hnd];
    apply elem_of_cons in Hin as [[= -> ->]|Hin].
  all: try assert (Hba : b <> a) by (intros ->; by apply Hb, (elem_address _ r)).
  - left. apply kept_head. tauto.
  - destruct (IH Hok Hnd Hin) as [Hk|(? & ? & ?)]; [left|right; split_and!; [done|by apply not_elem_of_cons|done]]. by apply kept_skip.
  - left. apply kept_head. tauto.
  - left. apply kept_same; [by right|tauto].
  - left. apply kept_head. tauto.
  - destruct (IH Hok Hnd Hin) as [Hk|(? & ? & ?)]; [left; by apply kept_skip|right]. split_and!; [done|by apply not_elem_of_cons|by apply list_subseteq_app_r].
  - left. destruct (again_spec can R s s' HR Hs) as (H1 & _ & H2 & H3); [done..|]. by apply kept_here.
  - left. destruct (again_spec can R s s' HR Hs) as (_ & _ & H2 & _); [done..|].
    apply kept_cons; [done..|]. apply kept_same; [done|tauto].
  - by right.
  - left. apply kept_drop; [done|]. apply kept_same; [done|tauto].
Qed.
End lists.

(** * The operations *)

Section operations.
Context {A : Allocator} {W : Type} {E : Environment W}.
Context (v3_build : session -> pdu -> rstate -> option (rstate * session * pdu * Z)).
Context (v3_probe : machine W -> machine W * Z).
Context (v3_verify : request -> pdu -> bool).
Context (v3_parse : list Z -> mstate -> Z -> Z -> option (mstate * Z)).
Abbreviation state := (machine W).

(** What an application does with a session. *)
Inductive event : Type :=
| Send (p : option pdu) (callback : option Z) (cbdata : Z)
| Receive (loc : locals) (tr : transport_t) (m : list Z) (pos length : Z)
| Timeout.

Definition perform (ev : event) (st : state) : option state :=
  match ev with
  | Send p callback cbdata => '(st, _, _) ← snmp_sess_async_send v3_build v3_probe st p callback cbdata; Some st
  | Receive loc tr m pos length =>
    '(st, _) ← _sess_process_packet v3_build v3_verify v3_parse loc tr m pos length st; Some st
  | Timeout => snmp_sess_timeout v3_build st
  end.

(** The event sends no SNMPv3 message, which may start a probe of its own. *)
Definition quiet (ev : event) (st : state) : Prop :=
  match ev with
  | Send (Some p) _ _ => agree_version (s_version (base (sp st))) (version p) <> Some SNMP_VERSION_3
  | _ => True
  end.

(** The effect of an event on the list of requests, with the callbacks made. *)
Inductive effect (st : state) : event -> list node -> list call -> Prop :=
| effect_none ev : ev <> Timeout -> effect st ev (requests (isp st)) []
| effect_sent p callback cbdata a rp : a ∉ addresses (requests (isp st)) -> rp_retries rp = 0 ->
    effect st (Send p callback cbdata) (requests (isp st) ++ [(a, rp)]) []
| effect_request loc tr m pos len c : effect st (Receive loc tr m pos len) (requests (isp st)) [c]
| effect_response loc tr m pos len p l' cs :
    responded p (s_retries (sp st)) (default_callback st) (can_send st) v3_verify (requests (isp st)) l' cs ->
    effect st (Receive loc tr m pos len) l' cs
| effect_timeout l' cs :
    timed (clock st).2 (s_retries (sp st)) (default_callback st) (can_send st) (requests (isp st)) l' cs ->
    effect st Timeout l' cs.

(** ** Lemmas *)

Lemma ends_same (st st' : state) cs :
  moved st st' cs -> queue_ok (isp st) -> loop_ends st st' [] (requests (isp st)) cs.
Proof.
  intros Hm Hq. exists st', (requestsEnd (isp st)). split_and!; [done..|]. destruct Hm as [(Hi & _) _]. rewrite <- Hi.
  destruct st' as [? [] ? ? ? ?]. done.
Qed.

Lemma loop_ends_glob f (st st' : state) l' cs : loop_ends st st' [] l' cs -> loop_ends st (on_glob f st') [] l' cs.
Proof.
  intros (st1 & e & Hm & Hl & ->). exists (on_glob f st1), e. split_and!; [|done..].
  rewrite <- (app_nil_r cs). eapply moved_trans; [done|apply moved_world].
Qed.

Lemma wait_for_response_ends p callback cbdata (st st0 : state) st' p' rc :
  wait_for_response p callback cbdata st = Some (st', p', rc) -> moved st0 st [] -> queue_ok (isp st0) ->
  exists l', loop_ends st0 st' [] l' [] /\ effect st0 (Send (Some p) callback cbdata) l' [].
Proof.
  unfold wait_for_response. intros H Hm Hq. pose proof Hm as [(Hi & _) _].
  destruct (new_request (map fst (requests (isp st))) (world st)) as [o w] eqn:Hnew.
  pose proof (moved_trans _ _ _ [] [] Hm (moved_world st (glob st) w)) as Hm1.
  destruct o as [a|].
  - apply new_request_fresh in Hnew. destruct (clock (set_world w st)) as [st1 tv] eqn:Hck. apply clock_moved in Hck.
    pose proof (moved_trans _ _ _ [] [] Hm1 Hck) as Hm2. pose proof Hm2 as [(Hi1 & _) _].
    rewrite Hi in Hnew. rewrite Hi1 in H.
    set (rp := mkrequest _ _ _ _ _ _ _ _ _) in H.
    rewrite add_request_end in H; [|done|exact Hnew]. cbn [fst] in H. simplify_option_eq.
    exists (requests (isp st0) ++ [(a, rp)]). split; [|by apply effect_sent]. exists st1, (Some a). split_and!; [done| |].
    + by apply (list_ok_snoc _ _ (a, rp) Hq).
    + unfold on_isp. by rewrite Hi1.
  - simplify_eq. exists (requests (isp st0)). split; [|by apply effect_none]. apply ends_same; [|done].
    eapply (moved_trans _ _ _ [] []); [exact Hm1|apply moved_base].
Qed.
Lemma async_send_ends p callback cbdata (st : state) st' p' rc :
  _sess_async_send v3_build v3_probe st p callback cbdata = Some (st', p', rc) ->
  quiet (Send p callback cbdata) st -> queue_ok (isp st) ->
  exists l', loop_ends st st' [] l' [] /\ effect st (Send p callback cbdata) l' [].
Proof.
  unfold _sess_async_send. intros H Hqt Hq.
  assert (Hend : forall st1, moved st st1 [] -> exists l', loop_ends st st1 [] l' [] /\ effect st (Send p callback cbdata) l' []).
  { intros st1 Hm. exists (requests (isp st)). split; [by apply ends_same|by apply effect_none]. }
  assert (Herr : forall st1 f, moved st st1 [] -> moved st (on_sp (on_base f) st1) [])
    by (intros; eapply (moved_trans _ _ _ [] []); [done|apply moved_base]).
  destruct (transport st) as [tr|]; [|simplify_eq; apply Hend, moved_refl].
  destruct p as [p|]; [|simplify_eq; apply Hend, Herr, moved_refl]. cbn [quiet] in Hqt.
  set (st1 := on_sp (on_base clear_errno) st) in *. assert (Hm1 : moved st st1 []) by apply Herr, moved_refl.
  replace (s_version (base (sp st1))) with (s_version (base (sp st))) in H by done.
  destruct (agree_version _ _) as [v|]; [|simplify_eq; by apply Hend, Herr].
  set (p1 := expect_flags (set_version v p)) in *.
  assert (version p1 <> SNMP_VERSION_3) as Hv.
  { subst p1. unfold expect_flags. destruct (is_one_of _ _); cbn; congruence. }
  rewrite (proj2 (Z.eqb_neq _ _) Hv) in H. cbn [andb] in H. change (1 =? 0) with false in H.
  destruct (malloc 2048) as [pktbuf|]; [|simplify_eq; by apply Hend, Herr].
  apply bind_Some in H as ([[[st2 p2] result] [[m start] length]] & Hb & H). apply build_packet_moved in Hb.
  pose proof (moved_trans _ _ _ [] [] Hm1 Hb) as Hm2. destruct (result <? 0); [simplify_eq; by apply Hend|].
  destruct (_ && _); [simplify_eq; by apply Hend, Herr|]. destruct (_ && _); [simplify_eq; by apply Hend, Herr|].
  apply bind_Some in H as (pkt & _ & H). destruct (send pkt st2) as [[st3 r] errno] eqn:Hs. apply send_moved in Hs.
  pose proof (moved_trans _ _ _ [] [] Hm2 Hs) as Hm3. destruct (r <? 0); [simplify_eq; by apply Hend, Herr|].
  destruct (has_flag _ _); [|simplify_eq; by apply Hend].
  apply bind_Some in H as ([[st4 p4] rc4] & Hw & [= <- <- <-]).
  destruct (wait_for_response_ends _ _ _ _ _ _ _ _ Hw Hm3 Hq) as (l' & Hl & He). exists l'. split; [done|].
  inversion He; subst; by constructor.
Qed.

Lemma process_packet_ends loc tr m pos len (st : state) st' rc :
  _sess_process_packet v3_build v3_verify v3_parse loc tr m pos len st = Some (st', rc) -> queue_ok (isp st) ->
  exists l' cs, loop_ends st st' [] l' cs /\ effect st (Receive loc tr m pos len) l' cs.
Proof.
  unfold _sess_process_packet. intros H Hq.
  assert (Hend : forall st1, moved st st1 [] ->
    exists l' cs, loop_ends st st1 [] l' cs /\ effect st (Receive loc tr m pos len) l' cs).
  { intros st1 Hm. exists (requests (isp st)), []. split; [by apply ends_same|by apply effect_none]. }
  destruct (match hook_pre _ with Some _ => _ | None => _ end) as [st1 go] eqn:Hpre.
  assert (Hm1 : moved st st1 []).
  { destruct (hook_pre (isp st)) as [hook|]; [destruct (hook _ _)|]; simplify_eq; apply moved_world || apply moved_refl. }
  clear Hpre. destruct go; cbn [negb] in H; [|simplify_eq; by apply Hend].
  destruct (new_pdu (world st1)) as [p w]. pose proof (moved_trans _ _ _ [] [] Hm1 (moved_world st1 (glob st1) w)) as Hm2.
  destruct p as [p|]; [|simplify_eq; by apply Hend].
  apply bind_Some in H as ([[[sess p1] g] ret] & _ & H).
  set (st2 := set_world w st1) in *. set (st3 := on_glob (fun _ => g) _) in *.
  assert (Hm3 : moved st st3 []) by exact (moved_trans _ _ _ [] [] Hm2 (moved_glob _ sess g w)).
  destruct (negb _); [simplify_eq; by apply Hend|].
  apply bind_Some in H as ([st4 handled] & Hr & [= <- <-]).
  assert (Hg : exists l' cs, loop_ends st st4 [] l' cs /\ effect st (Receive loc tr m pos len) l' cs).
  { pose proof Hm3 as [Hs _]. pose proof Hs as (Hi & _). destruct (has_flag _ _).
    - rewrite Hi in Hr. destruct (response_loop_responded _ _ _ _ _ _ _ _ _ _ Hr Hq) as (l' & cs & Hl & He).
      rewrite (proj1 (same_session_fields _ _ Hs)), (same_session_callback _ _ Hs), (can_send_same _ _ Hs) in He.
      exists l', cs. split; [by eapply (loop_ends_after _ _ _ _ _ []); [done|]|by eapply effect_response].
    - destruct (s_callback _) as [c|]; simplify_eq; [|by apply Hend]. eexists _, _. split; [|by apply effect_request].
      apply ends_same; [|done]. eapply (moved_trans _ _ _ []); [done|apply invoke_moved]. }
  destruct handled; [done|]. destruct Hg as (l' & cs & Hl & He). exists l', cs. split; [by apply loop_ends_glob|done].
Qed.

Lemma perform_ends ev (st : state) st' :
  perform ev st = Some st' -> quiet ev st -> queue_ok (isp st) ->
  exists l' cs, loop_ends st st' [] l' cs /\ effect st ev l' cs.
Proof.
  destruct ev as [p callback cbdata|loc tr m pos len|]; cbn [perform]; intros H Hqt Hq.
  - apply bind_Some in H as ([[st1 p1] rc] & H & [= <-]). unfold snmp_sess_async_send in H.
    apply bind_Some in H as ([[st2 p2] rc2] & H & Hrc). eapply async_send_ends in H as (l' & Hl & He); [|done..].
    exists l', []. split; [|done]. destruct (rc2 =? 0); simplify_eq; [by apply loop_ends_glob|done].
  - apply bind_Some in H as ([st1 rc] & H & [= <-]). by eapply process_packet_ends.
  - destruct (snmp_sess_timeout_timed _ _ _ H Hq) as (l' & cs & Hl & Ht). exists l', cs. split; [done|by constructor].
Qed.

(** ** The invariant *)

(** The list of requests is in order, its end is known, and no counter of retries
    passes the limit of the session by more than one. *)
Definition session_ok (st : state) : Prop :=
  queue_ok (isp st) /\ counts_ok (s_retries (sp st)) (requests (isp st)) /\ s_retries (sp st) < 2 ^ 31 - 1.

Lemma effect_counts (st : state) ev l' cs :
  effect st ev l' cs -> session_ok st -> counts_ok (s_retries (sp st)) l'.
Proof.
  intros He (_ & Hc & HR). inversion He; subst; try done.
  - apply Forall_app. split; [done|]. apply Forall_singleton. unfold count_ok. cbn [snd]. lia.
  - by eapply responded_counts.
  - by eapply timed_counts.
Qed.

Lemma perform_ok ev (st : state) st' :
  perform ev st = Some st' -> quiet ev st -> session_ok st -> session_ok st' /\ s_retries (sp st') = s_retries (sp st).
Proof.
  intros Hp Hqt Hok. destruct (perform_ends ev st st' Hp Hqt (proj1 Hok)) as (l' & cs & (st1 & e & Hm & Hl & ->) & He).
  destruct Hm as [Hs _]. apply same_session_fields in Hs as (Hr & _). cbn. rewrite Hr. split; [|done].
  split_and!; cbn; rewrite ?Hr; [done|by eapply effect_counts|apply Hok].
Qed.

(** The states a session can get into: it is opened without requests, and the
    application sends, receives and looks for time-outs in any order. *)
Inductive reachable : state -> Prop :=
| reach_open st : requests (isp st) = [] -> requestsEnd (isp st) = None -> s_retries (sp st) < 2 ^ 31 - 1 ->
    reachable st
| reach_step ev st st' : reachable st -> quiet ev st -> perform ev st = Some st' -> reachable st'.

(** ** One event, seen from a request *)

(** The request at [a] leaves: it has timed out, or a response it matches has
    come; in both cases its callback has been told. *)
Definition ends (ev : event) (st : state) (a : nat) (r : request) (l' : list node) (cs : list call) : Prop :=
  (a ∉ addresses l') /\
  (ev = Timeout /\ s_retries (sp st) <= rp_retries r /\
    told (default_callback st) NETSNMP_CALLBACK_OP_TIMED_OUT (rp_pdu r) r ⊆ cs \/
  exists p, (exists loc tr m pos len, ev = Receive loc tr m pos len) /\ matches p r = true /\
    told (default_callback st) NETSNMP_CALLBACK_OP_RECEIVED_MESSAGE p r ⊆ cs).

(** This call of [snmp_sess_timeout] finds the request at [a] expired. *)
Definition overdue (ev : event) (st : state) (a : nat) : Prop :=
  ev = Timeout /\ can_send st = true /\ forall r, (a, r) ∈ requests (isp st) -> expired (clock st).2 r = true.

Lemma effect_kept (st : state) ev l' cs a r :
  effect st ev l' cs -> session_ok st -> (a, r) ∈ requests (isp st) ->
  kept (s_retries (sp st)) a r (requests (isp st)) l' (overdue ev st a) \/ ends ev st a r l' cs.
Proof.
  intros He ((Hnd & _) & Hc & HR) Hin.
  inversion He as [|p callback cbdata b rp Hf H0|loc tr m pos len c|loc tr m pos len p l2 cs2 Hre|l2 cs2 Ht]; subst.
  - left. apply kept_same; [done|]. unfold overdue. tauto.
  - left. exists r. rewrite budget_snoc by (by eapply elem_address). split_and!; [apply elem_of_app; by left|done|done|].
    by intros [? _].
  - left. apply kept_same; [done|]. by intros [? _].
  - destruct (responded_kept _ HR _ _ _ _ _ _ _ a r Hre Hc Hnd Hin) as [(r' & Hin' & Hs & Hb & _)|(Hma & Ha & Ht)].
    + left. exists r'. split_and!; [done..|]. by intros [? _].
    + right. split; [done|]. right. exists p. split_and!; [by repeat eexists|done|done].
  - destruct (timed_kept _ HR _ _ _ _ _ _ a r Ht Hc Hnd Hin) as [(r' & Hin' & Hs & Hb & Hst)|(Hle & Ha & Hto)].
    + left. exists r'. split_and!; [done..|]. intros (_ & Hcan & Hex). apply Hst. split; [done|]. by apply Hex.
    + right. split; [done|]. left. by split_and!.
Qed.

(** * Runs *)

(** A session that is used for ever. *)
Context (σ : nat -> state) (ev : nat -> event).

Definition execution : Prop := forall i, quiet (ev i) (σ i) /\ perform (ev i) (σ i) = Some (σ (S i)).

(** The request at [a] is not forgotten: again and again, the application looks
    for time-outs while it is expired and the session can send. *)
Definition looked_after (a : nat) : Prop :=
  forall i, exists j, (i <= j)%nat /\ (a ∈ addresses (requests (isp (σ j))) -> overdue (ev j) (σ j) a).

(** The request [r0] at [a] ends in the step from [σ i]. *)
Definition done_at (a : nat) (r0 : request) (i : nat) : Prop :=
  exists r cs, (a, r) ∈ requests (isp (σ i)) /\ same_request r0 r /\
    calls (σ (S i)) = calls (σ i) ++ cs /\ ends (ev i) (σ i) a r (requests (isp (σ (S i)))) cs.

Lemma execution_ok i : execution -> session_ok (σ 0%nat) ->
  session_ok (σ i) /\ s_retries (sp (σ i)) = s_retries (sp (σ 0%nat)).
Proof.
  intros Hex H0. induction i as [|i [IH Hr]]; [done|]. destruct (Hex i) as [Hq Hp].
  destruct (perform_ok _ _ _ Hp Hq IH) as [Hok HR]. split; [done|congruence].
Qed.

(** One step: the request is still there, or it ends. *)
Lemma execution_step i a r0 r :
  execution -> session_ok (σ 0%nat) -> (a, r) ∈ requests (isp (σ i)) -> same_request r0 r ->
  (exists r', (a, r') ∈ requests (isp (σ (S i))) /\ same_request r0 r' /\
    let left k := budget (s_retries (sp (σ 0%nat))) a (requests (isp (σ k))) in
    (left (S i) <= left i)%nat /\ (overdue (ev i) (σ i) a -> (left (S i) < left i)%nat)) \/ done_at a r0 i.
Proof.
  intros Hex H0 Hin Hs. destruct (execution_ok i Hex H0) as [Hok Hr]. destruct (Hex i) as [Hq Hp].
  destruct (perform_ends _ _ _ Hp Hq (proj1 Hok)) as (l' & cs & (st1 & e & [_ Hm] & Hl & Hst) & He).
  rewrite <- Hr. unfold done_at. rewrite Hst. cbn.
  destruct (effect_kept _ _ _ _ a r He Hok Hin) as [(r' & H1 & H2 & H3 & H4)|Hend]; [left|right].
  - exists r'. split_and!; [done|by eapply same_request_trans|done|done].
  - exists r, cs. by split_and!.
Qed.

(** Many steps: from [i] to [k] it has ended, or it is still there. *)
Lemma execution_steps i a r0 r n :
  execution -> session_ok (σ 0%nat) -> (a, r) ∈ requests (isp (σ i)) -> same_request r0 r ->
  (exists j, done_at a r0 j) \/
  exists r', (a, r') ∈ requests (isp (σ (n + i)%nat)) /\ same_request r0 r' /\
    (budget (s_retries (sp (σ 0%nat))) a (requests (isp (σ (n + i)%nat))) <=
     budget (s_retries (sp (σ 0%nat))) a (requests (isp (σ i))))%nat.
Proof.
  intros Hex H0 Hin Hs. induction n as [|n [IH|(r' & H1 & H2 & H3)]]; [right; by exists r|by left|].
  destruct (execution_step _ a r0 r' Hex H0 H1 H2) as [(r2 & H4 & H5 & H6 & _)|Hd]; [right|left; by eexists].
  exists r2. split_and!; [done|done|cbn in *; lia].
Qed.

(** C9: a request does not wait for ever.  Whatever the application sends and
    whatever packets come, if again and again it looks for time-outs at a moment
    when the request is expired and the session can send it -- it has a transport
    and the memory for a packet --, the request leaves the list: it was sent as
    often as the session allows and its callback was told that it has timed out,
    or its callback was told about a response that matches it. *)
Theorem every_request_ends a r :
  execution -> session_ok (σ 0%nat) -> (a, r) ∈ requests (isp (σ 0%nat)) -> looked_after a -> exists i, done_at a r i.
Proof.
  intros Hex H0 Hin Hfair. pose proof (same_request_refl r) as Hs. revert Hin Hs.
  generalize 0%nat at 1 as i. generalize r at 1 3 as r1. intros r1 i.
  remember (budget (s_retries (sp (σ 0%nat))) a (requests (isp (σ i)))) as n eqn:Hn.
  revert i r1 Hn. induction n as [n IH] using lt_wf_ind. intros i r1 Hn Hin Hs.
  destruct (Hfair i) as (j & Hij & Hov). replace j with ((j - i) + i)%nat in Hov by lia.
  destruct (execution_steps i a r r1 (j - i) Hex H0 Hin Hs) as [Hd|(r2 & H1 & H2 & H3)]; [done|].
  destruct (execution_step _ a r r2 Hex H0 H1 H2) as [(r3 & H4 & H5 & _ & H6)|Hd]; [|by eexists].
  specialize (H6 (Hov (elem_address _ _ _ H1))). rewrite Hn in IH. eapply (IH _ (Nat.lt_le_trans _ _ _ H6 H3) _ r3 eq_refl H4 H5).
Qed.

(** C32: the list of requests stays in order: in every state a session can get
    into, its nodes are distinct, [requestsEnd] is the last of them (so that a
    new request is appended, never lost), and no request has been retried more
    than once beyond the limit of the session. *)
Theorem requests_invariant st : reachable st -> session_ok st.
Proof.
  induction 1 as [st Hl He HR|ev0 st st' _ IH Hq Hp]; [|by apply (perform_ok _ _ _ Hp Hq IH)].
  unfold session_ok, queue_ok, list_ok, counts_ok. rewrite Hl, He. split_and!; [constructor|done|done|done].
Qed.
End operations.

(** * A concrete session *)

#[local] Existing Instance big_heap.

(** The world is a clock that advances ten seconds each time it is read. *)
#[local] Program Instance sample_world : Environment Z := {|
  run_callback c w := (1, w);
  transport_send pkt w := (zlen pkt, 0, w);
  monotonic_clock w := (mktimeval w 0, w + 10);
  new_request live w := (Some (S (foldr Nat.max 0%nat live)), w);
  new_pdu w := (Some blank_pdu, w);
  pdu_timeout p w := w;
  stop_waiting magic w := w
|}.
Next Obligation.
  intros live w a w' [= <- _] Hin. enough (forall x, x ∈ live -> (x <= foldr Nat.max 0 live)%nat) as Hle
    by (specialize (Hle _ Hin); lia).
  clear. induction live as [|y l IH]; intros x Hx; [by apply elem_of_nil in Hx|].
  apply elem_of_cons in Hx as [->|Hx]; cbn; [lia|]. specialize (IH _ Hx). lia.
Qed.

Definition no_build (sess : session) (p : pdu) (s : rstate) : option (rstate * session * pdu * Z) :=
  Some (s, sess, p, -1).
Definition no_probe (st : machine Z) : machine Z * Z := (st, 0).
Definition no_verify (r : request) (p : pdu) : bool := false.
Definition no_parse (m : list Z) (st : mstate) (d len : Z) : option (mstate * Z) := Some (st, -1).

(** One request waits since the time 0, in a session that retries once. *)
Definition sample_nsession : nsession := mknsession sample_session 1 5000000 0 (Some 7) 0 0 0.
Definition sample_internal (l : list node) (e : option nat) : internal Z :=
  mkinternal l e None None None None None None [] 0 0.
Definition sample_transport : transport_t := mktransport 3 0 0.
Definition sample_request : request :=
  mkrequest 1234567 0 None 0 0 5000000 (mktimeval 0 0) (mktimeval 5 0) sample_sent.
Definition sample_machine (l : list node) (e : option nat) : machine Z :=
  mkmachine sample_nsession (sample_internal l e) (Some sample_transport) (sample_globals false) 10 [].
Definition sample_waiting : machine Z := sample_machine [(4%nat, sample_request)] (Some 4%nat).

Abbreviation sample_perform := (perform no_build no_probe no_verify no_parse).

Definition sample_run (i : nat) : machine Z :=
  Nat.iter i (fun st => default st (sample_perform Timeout st)) sample_waiting.

Lemma timeout_of_empty (st : machine Z) :
  requests (isp st) = [] -> exists st', sample_perform Timeout st = Some st' /\ requests (isp st') = [].
Proof. intros Hl. cbn. rewrite Hl. by eexists. Qed.

Lemma sample_run_next i : sample_run (S i) = default (sample_run i) (sample_perform Timeout (sample_run i)).
Proof. done. Qed.

Lemma sample_run_empty i : requests (isp (sample_run (2 + i))) = [].
Proof.
  induction i as [|i IH]; [by vm_compute|]. change (2 + S i)%nat with (S (2 + i)). rewrite sample_run_next.
  destruct (timeout_of_empty _ IH) as (st' & Hp & Hl). by rewrite Hp.
Qed.

Lemma sample_execution : execution no_build no_probe no_verify no_parse sample_run (fun _ => Timeout).
Proof.
  intros i. split; [done|]. rewrite sample_run_next. destruct i as [|[|i]]; [by vm_compute|by vm_compute|].
  destruct (timeout_of_empty _ (sample_run_empty i)) as (st' & Hp & _). change (S (S i)) with (2 + i)%nat. by rewrite Hp.
Qed.

Lemma sample_waiting_ok : session_ok sample_waiting.
Proof.
  unfold session_ok, queue_ok, list_ok, counts_ok. split_and!; [by_decide|done| |done].
  apply Forall_singleton. by vm_compute.
Qed.

Lemma sample_looked_after : looked_after sample_run (fun _ => Timeout) 4.
Proof.
  intros i. exists i. split; [lia|]. unfold overdue. destruct i as [|[|i]].
  - intros _. split_and!; [done|done|]. intros r [= ->]%list_elem_of_singleton. done.
  - intros _. split_and!; [done|done|]. intros r Hr. vm_compute in Hr. apply list_elem_of_singleton in Hr. by simplify_eq.
  - change (S (S i)) with (2 + i)%nat. rewrite (sample_run_empty i). by intros ?%elem_of_nil.
Qed.

Lemma every_request_ends_witness :
  exists i, done_at sample_run (fun _ => Timeout) 4 sample_request i.
Proof.
  apply (every_request_ends no_build no_probe no_verify no_parse sample_run (fun _ => Timeout)).
  - exact sample_execution.
  - exact sample_waiting_ok.
  - apply list_elem_of_here.
  - exact sample_looked_after.
Defined.

(** A session that is opened sends a request and looks for time-outs. *)
Definition sample_opened : machine Z := sample_machine [] None.
Definition sample_asked : machine Z :=
  default sample_opened (sample_perform (Send (Some sample_pdu) None 0) sample_opened).
Definition sample_later : machine Z := default sample_asked (sample_perform Timeout sample_asked).

Lemma sample_asks : sample_perform (Send (Some sample_pdu) None 0) sample_opened = Some sample_asked.
Proof. vm_compute. reflexivity. Qed.

Lemma sample_waits : sample_perform Timeout sample_asked = Some sample_later.
Proof. vm_compute. reflexivity. Qed.

Lemma sample_quiet : quiet (Send (Some sample_pdu) None 0) sample_opened.
Proof. by vm_compute. Qed.

Lemma sample_one_left : length (requests (isp sample_later)) = 1%nat.
Proof. vm_compute. reflexivity. Qed.

Lemma requests_invariant_witness : length (requests (isp sample_later)) = 1%nat /\ session_ok sample_later.
Proof.
  split; [exact sample_one_left|]. apply (requests_invariant no_build no_probe no_verify no_parse).
  apply (reach_step _ _ _ _ Timeout sample_asked); [|exact I|exact sample_waits].
  apply (reach_step _ _ _ _ (Send (Some sample_pdu) None 0) sample_opened); [|exact sample_quiet|exact sample_asks].
  apply reach_open; reflexivity.
Defined.
