(* ===== verification/SessionWire.v ===== *)
(** What a session sends and what it delivers: the message that goes to the
    transport, the request that waits for its answer, the response that reaches
    its callback, and the memory safety of every operation of a session. *)
From Stdlib Require Import ZArith Lia.
From S2P Require Import Prelude Oid Asn1Defs SnmpDefs Ber Asn1Parse Asn1ParseProps Asn1Build Asn1RBuild.
From S2P Require Import Asn1RBuildProps SnmpVar Codec Pdu Message PduSpec PduBuildProps PduParseProps MessageProps PduSafety Timeval Session.
From S2P Require Import SessionQueue SessionProps.

(** * Accepted PDUs stay accepted *)

(** The fields of a session that do not change while it is used. *)
Definition same_account (s s' : session) : Prop :=
  s_version s' = s_version s /\ s_community s' = s_community s /\ s_community_len s' = s_community_len s /\
  authenticator s' = authenticator s.

#[export] Instance same_account_po : PreOrder same_account.
Proof. split; [done|]. intros x y z (?&?&?&?) (?&?&?&?). split_and!; congruence. Qed.

Section prepared.
Context {A : Allocator}.

(** Fields [check_command] and [fill_community] neither read nor write. *)
Lemma check_command_msgid x p :
  check_command (set_msgid x p) = (set_msgid x (check_command p).1, (check_command p).2).
Proof. destruct p. unfold check_command, default_errs. cbn -[malloc Z.eqb].
  repeat case_match; done || (cbn in *; congruence). Qed.

Lemma check_command_community n c p :
  check_command (set_community_len n (set_community c p)) =
  (set_community_len n (set_community c (check_command p).1), (check_command p).2).
Proof. destruct p. unfold check_command, default_errs. cbn -[malloc Z.eqb].
  repeat case_match; done || (cbn in *; congruence). Qed.

Lemma default_errs_same p : command (default_errs p) = command p /\ version (default_errs p) = version p.
Proof. unfold default_errs. by repeat case_match. Qed.

Lemma default_errs_idem p : default_errs (default_errs p) = default_errs p.
Proof. destruct p. unfold default_errs. cbn. repeat case_match; done || (cbn in *; congruence). Qed.

Lemma check_command_again p p1 :
  command p <> SNMP_MSG_TRAP -> check_command p = (p1, None) -> command p1 = command p /\ check_command p1 = (p1, None).
Proof.
  intros Ht. unfold check_command. rewrite (proj2 (Z.eqb_neq _ _) Ht). destruct (default_errs_same p) as [Hc Hv].
  destruct (is_one_of (command p) [SNMP_MSG_RESPONSE; _; _; _]) eqn:H1.
  { intros [= <-]. by rewrite Hc, H1, default_errs_idem. }
  destruct (is_one_of (command p) [SNMP_MSG_TRAP2; _]) eqn:H2.
  { destruct (version p =? SNMP_VERSION_1) eqn:H3; [done|]. intros [= <-]. by rewrite Hc, H1, H2, Hv, H3, default_errs_idem. }
  destruct (command p =? SNMP_MSG_GETBULK) eqn:H3; [|done].
  repeat (case_match; [done|]). intros [= <-]. by repeat case_match.
Qed.

(** A PDU that needs nothing filled in. *)
Definition settled (b : session) (p : pdu) : Prop := prepared b p = Some (p, None).

Lemma settled_msgid b p x : settled b p -> settled b (set_msgid x p).
Proof.
  unfold settled, prepared. rewrite check_command_msgid. destruct (check_command p) as [p1 [e|]]; [done|]. cbn [fst snd].
  replace (version (set_msgid x p1)) with (version p1) by done. destruct (negb _); [done|].
  unfold fill_community. cbn [command community_len community set_msgid]. intros H.
  repeat (case_match; simplify_option_eq); done.
Qed.

Lemma prepared_account b b' p : same_account b b' -> prepared b' p = prepared b p.
Proof. intros (_ & H1 & H2 & _). unfold prepared, fill_community. by rewrite H1, H2. Qed.

Lemma settled_account b b' p : same_account b b' -> settled b p -> settled b' p.
Proof. intros H. unfold settled. by rewrite (prepared_account b b' p H). Qed.

Lemma fill_community_again b p p' :
  check_command p = (p, None) -> fill_community b p = Some (p', None) ->
  version p' = version p /\ check_command p' = (p', None) /\ fill_community b p' = Some (p', None).
Proof.
  intros Hc. unfold fill_community.
  assert (Hn : forall n c, check_command (set_community_len n (set_community c p)) = (set_community_len n (set_community c p), None))
    by (intros; by rewrite check_command_community, Hc).
  destruct ((community_len p =? 0) && negb (command p =? SNMP_MSG_RESPONSE)) eqn:H1.
  2: { intros [= <-]. by rewrite H1. }
  apply andb_prop in H1 as [Hl Hr]. destruct (Z.eqb_spec (s_community_len b) 0) as [Hz|Hz].
  - intros [= <-]. split_and!; [done|apply Hn|]. cbn. by rewrite Hz, Hr.
  - intros H. assert (exists c, p' = set_community_len (s_community_len b) (set_community c p)) as [c ->].
    { repeat (case_match; simplify_option_eq); by eexists. }
    split_and!; [done|apply Hn|]. cbn. by rewrite (proj2 (Z.eqb_neq _ _) Hz).
Qed.

Lemma prepared_settled b p p' :
  command p <> SNMP_MSG_TRAP -> prepared b p = Some (p', None) -> settled b p'.
Proof.
  intros Ht. unfold settled, prepared. destruct (check_command p) as [p1 [e|]] eqn:Hc; [done|].
  apply check_command_again in Hc as [_ Hc]; [|done]. destruct (negb _) eqn:Hv; [done|]. intros Hf.
  apply fill_community_again in Hf as (Hv' & -> & ->); [|done]. by rewrite Hv', Hv.
Qed.
End prepared.

(** * The packet *)

Section packet.
Context {A : Allocator} {W : Type} {E : Environment W}.
Context (v3_build : session -> pdu -> rstate -> option (rstate * session * pdu * Z)).
Abbreviation state := (machine W).

(** No agent or subagent has set a hook. *)
Definition hookless (i : internal W) : Prop :=
  hook_pre i = None /\ hook_parse i = None /\ hook_post i = None /\ hook_build i = None /\ hook_realloc_build i = None.

(** The message can be framed, whichever encoding is chosen. *)
Definition fits (p : pdu) (ovs : list vbind) : Prop := forall g, zlen (message_ber (framing g) p ovs) <= frame_limit g.

(** Room for it in a packet of 2048 bytes, or in what that can grow to. *)
Definition packet_room (g : globals) (n : Z) : Prop :=
  if ds_reverse_encode g then grows (n + 8192) else n <= 2048.

Lemma peek_packet s : rwf s -> peek_n (pkt s) (pkt_len s - offset s) (offset s) = Some (written s).
Proof.
  intros Hw. pose proof (zlen_written s Hw) as Hz. destruct Hw as (Hl & Ho & _). rewrite <- Hz at 2.
  apply holds_peek_n. exists (take (Z.to_nat (pkt_len s - offset s)) (pkt s)), [].
  rewrite app_nil_r. unfold written. rewrite take_drop. split; [done|]. unfold zlen in *. rewrite length_take. lia.
Qed.

(** Decides the tests of result codes, and that of the encoding by [H]. *)
Ltac eval_codes H :=
  change (0 =? 0) with true; change (-1 =? 0) with false; cbv iota; obind;
  cbn [glob on_glob on_sp ds_reverse_encode SET_SNMP_ERROR]; rewrite ?H; cbn [pkt pkt_len offset].

(** [build_packet] for a PDU that [snmp_build] accepts: it fails, or leaves a
    packet, which is the encoding of the message when there is room. *)
Lemma build_packet_spec (st : state) p p' ovs pktbuf :
  hookless (isp st) -> zlen pktbuf = 2048 -> version p <> SNMP_VERSION_3 ->
  prepared (base (sp st)) p = Some (p', None) -> pdu_ok p' ovs -> fits p' ovs ->
  exists st' result m start length, build_packet v3_build p pktbuf st = Some (st', p', result, (m, start, length)) /\
    same_account (base (sp st)) (base (sp st')) /\ ds_reverse_encode (glob st') = ds_reverse_encode (glob st) /\
    (result = -1 \/ result = 0 /\ is_Some (peek_n m start length)) /\
    (packet_room (glob st) (zlen (message_ber (framing (glob st)) p' ovs)) ->
     result = 0 /\ peek_n m start length = Some (message_ber (framing (glob st)) p' ovs) /\
     length = zlen (message_ber (framing (glob st)) p' ovs) /\
     st' = on_sp (on_base clear_errno) st).
Proof.
  intros (_ & _ & _ & Hh1 & Hh2) Hbuf Hv Hp Hok Hfit. unfold build_packet, packet_room. rewrite Hh1, Hh2.
  specialize (Hfit (glob st)). unfold framing, frame_limit in *. unfold snmp_build.
  rewrite (_snmp_build_prepared v3_build) by done.
  rewrite (prepared_account (base (sp st)) (clear_errno (base (sp st))) p) by done. rewrite Hp. obind.
  destruct (ds_reverse_encode (glob st)) eqn:Hre.
  - set (s0 := mkrstate pktbuf 2048 0). assert (Hw0 : rwf s0) by (unfold rwf; cbn; lia).
    destruct (rbuild_message_post p' ovs s0 Hok Hw0 Hfit) as (s' & ok & Hb & Hw & Hg). rewrite Hb. obind.
    assert (Hwr : written s0 = []).
    { apply length_zero_iff_nil. pose proof (zlen_written s0 Hw0). unfold zlen in *. cbn in *. lia. }
    rewrite Hwr, app_nil_r in Hg. destruct ok; cbv iota; cbn [s_snmp_errno clear_errno]; eval_codes Hre.
    + do 5 eexists. split; [reflexivity|]. split_and!; [done|done| |].
      * right. rewrite peek_packet by done. by eexists.
      * intros HG. destruct (Hg HG) as [_ Hm]. rewrite peek_packet, <- Hm by done. by rewrite zlen_written.
    + do 5 eexists; (split; [reflexivity|]); (split_and!; [done|done|by left|]);
        intros HG; by destruct (Hg HG).
  - set (bs := message_ber long_frame p' ovs) in *. pose proof (zlen_nonneg bs). cbn [pkt pkt_len].
    pose proof (build_message_builds p' ovs Hok Hfit pktbuf 2048 ltac:(lia) ltac:(lia)) as Hb. fold bs in Hb. unfold bpost in Hb.
    destruct (decide (zlen bs <= 2048)) as [Hle|Hgt].
    + rewrite Hb. obind. eval_codes Hre. do 5 eexists. split; [reflexivity|]. rewrite Z.add_0_l.
      assert (Hpk : peek_n (patch pktbuf 0 bs) 0 (zlen bs) = Some bs) by (apply holds_peek_n, patch_holds; unfold zlen in *; lia).
      split_and!; [done|done|right; by rewrite Hpk|]. done.
    + destruct Hb as (m' & dl' & -> & _). obind. cbn [s_snmp_errno clear_errno]. eval_codes Hre. do 5 eexists. split; [reflexivity|].
      split_and!; [done|done|by left|lia].
Qed.

(** * Sending *)

Context (v3_probe : state -> state * Z).

(** The request that waits for the answer to [p], sent at [now]. *)
Definition waiting_request (st : state) (p : pdu) (callback : option Z) (cbdata : Z) (now : timeval) : request :=
  let timeout := if has_flag (flags p) UCD_MSG_FLAG_PDU_TIMEOUT then u64 (time p * 1000000)
                 else u64 (s_timeout (sp st)) in
  mkrequest (reqid p) (msgid p) callback cbdata 0 timeout now (add_timeout now timeout) p.

(** The outcome of handing [m] to the transport. *)
Definition sent (st : state) (m : list Z) (p : pdu) (callback : option Z) (cbdata : Z) (st' : state) (rc : Z) : Prop :=
  let '(r, errno, w1) := transport_send m (world st) in
  let same := requests (isp st') = requests (isp st) in
  if r <? 0 then
    rc = 0 /\ same /\ s_snmp_errno (base (sp st')) = SNMPERR_BAD_SENDTO /\ s_errno (base (sp st')) = errno
  else if has_flag (flags p) UCD_MSG_FLAG_EXPECT_RESPONSE then
    match new_request (addresses (requests (isp st))) w1 with
    | (None, _) => rc = 0 /\ same /\ s_snmp_errno (base (sp st')) = SNMPERR_GENERR
    | (Some a, w2) =>
      rc = s32 (reqid p) /\
      requests (isp st') = requests (isp st) ++ [(a, waiting_request st p callback cbdata (monotonic_clock w2).1)]
    end
  else rc = s32 (reqid p) /\ same.

Lemma expect_flags_version v p : version (expect_flags (set_version v p)) = v.
Proof. unfold expect_flags. by case_match. Qed.

Lemma async_send_sent (st : state) tr p v p' ovs callback cbdata :
  let m := message_ber (framing (glob st)) p' ovs in
  transport st = Some tr -> hookless (isp st) -> agree_version (s_version (base (sp st))) (version p) = Some v ->
  v <> SNMP_VERSION_3 -> prepared (base (sp st)) (expect_flags (set_version v p)) = Some (p', None) ->
  pdu_ok p' ovs -> fits p' ovs -> packet_room (glob st) (zlen m) -> is_Some (malloc 2048) ->
  msgMaxSize tr = 0 \/ zlen m <= msgMaxSize tr -> queue_ok (isp st) ->
  exists st' rc, _sess_async_send v3_build v3_probe st (Some p) callback cbdata = Some (st', Some p', rc) /\
    calls st' = calls st /\ sent st m p' callback cbdata st' rc.
Proof.
  intros m Ht Hh Hv Hv3 Hp Hok Hfit Hroom [buf Hbuf] Hmax Hq. unfold _sess_async_send. rewrite Ht.
  set (st1 := on_sp (on_base clear_errno) st). change (s_version (base (sp st1))) with (s_version (base (sp st))).
  rewrite Hv. set (p1 := expect_flags _) in *. assert (Hp1 : version p1 = v) by apply expect_flags_version.
  rewrite Hp1, (proj2 (Z.eqb_neq _ _) Hv3). cbn [andb]. change (1 =? 0) with false. cbv iota. rewrite Hbuf.
  assert (Hp' : prepared (base (sp st1)) p1 = Some (p', None)) by (by rewrite (prepared_account (base (sp st)))).
  destruct (build_packet_spec st1 p1 p' ovs buf) as (st2 & res & mm & start & len & Hb & _ & _ & _ & Hpk);
    [exact Hh|by apply malloc_size in Hbuf|by rewrite Hp1|done..|].
  change (glob st1) with (glob st) in Hpk. destruct (Hpk Hroom) as (-> & Hpeek & Hlen & ->). fold m in Hpeek, Hlen.
  rewrite Hb. obind. change (0 <? 0) with false. cbv iota. apply prepared_version in Hp' as [Hv' _].
  rewrite Hv', Hp1, (proj2 (Z.eqb_neq _ _) Hv3). cbn [andb].
  assert (negb (msgMaxSize tr =? 0) && (msgMaxSize tr <? len) = false) as -> by lia. rewrite Hpeek. obind.
  unfold send, sent, waiting_request. change (world (on_sp (on_base clear_errno) st1)) with (world st).
  destruct (transport_send m (world st)) as [[r errno] w1]. destruct (r <? 0).
  { do 2 eexists. split; [reflexivity|]. by split_and!. }
  destruct (has_flag (flags p') UCD_MSG_FLAG_EXPECT_RESPONSE); [|do 2 eexists; split; [reflexivity|]; by split_and!].
  unfold wait_for_response. cbn [isp on_sp set_world world st1]. fold (addresses (requests (isp st))).
  destruct (new_request _ w1) as [[a|] w2] eqn:Hnew.
  - unfold clock. cbn [world set_world]. destruct (monotonic_clock w2) as [now w3]. obind. cbn [isp on_sp set_world sp st1].
    rewrite add_request_end; [|done|cbn [fst]; by eapply new_request_fresh].
    obind. do 2 eexists. split; [reflexivity|]. by split_and!.
  - obind. do 2 eexists. split; [reflexivity|]. by split_and!.
Qed.

(** C30: sending a request: the session hands the encoding of the message, in
    the version and with the defaults the two sides agree on, to the transport;
    when that accepts it and an answer is expected, the request goes to the end
    of the list with its time-out, and the result is its identifier; when the
    transport or the allocator refuses, the result is 0, the error is recorded
    and no request is left behind. *)
Theorem snmp_sess_async_send_sends (st : state) tr p v p' ovs callback cbdata :
  let m := message_ber (framing (glob st)) p' ovs in
  transport st = Some tr -> hookless (isp st) -> agree_version (s_version (base (sp st))) (version p) = Some v ->
  v <> SNMP_VERSION_3 -> prepared (base (sp st)) (expect_flags (set_version v p)) = Some (p', None) ->
  pdu_ok p' ovs -> fits p' ovs -> packet_room (glob st) (zlen m) -> is_Some (malloc 2048) ->
  msgMaxSize tr = 0 \/ zlen m <= msgMaxSize tr -> queue_ok (isp st) ->
  exists st' rc, snmp_sess_async_send v3_build v3_probe st (Some p) callback cbdata = Some (st', Some p', rc) /\
    calls st' = calls st /\ sent st m p' callback cbdata st' rc.
Proof.
  intros m Ht Hh Hv Hv3 Hp Hok Hfit Hroom Hmal Hmax Hq. unfold snmp_sess_async_send.
  destruct (async_send_sent st tr p v p' ovs callback cbdata Ht Hh Hv Hv3 Hp Hok Hfit Hroom Hmal Hmax Hq)
    as (st' & rc & -> & Hc & Hs). obind.
  destruct (rc =? 0); do 2 eexists; (split; [reflexivity|]); (split; [exact Hc|]); exact Hs.
Qed.

(** * Receiving a response *)

Context (v3_verify : request -> pdu -> bool).
Context (v3_parse : list Z -> mstate -> Z -> Z -> option (mstate * Z)).

(** The requests that wait for the response with that identifier. *)
Fixpoint matching (id : Z) (l : list node) : list request :=
  match l with
  | [] => []
  | (_, r) :: l => if request_id r =? id then r :: matching id l else matching id l
  end.

(** What callbacks called one after the other return. *)
Fixpoint results (w : W) (cs : list call) : list Z :=
  match cs with
  | [] => []
  | c :: cs => let '(x, w) := run_callback c w in x :: results w cs
  end.

(** These requests are told, and each one's callback keeps it pending: it returns
    something else than 1. *)
Definition declined (tell : request -> list call) (w : W) (rs : list request) : Prop :=
  Forall (fun r => tell r <> []) rs /\ Forall (fun x => x <> 1) (results w (flat_map tell rs)).

(** A response with the identifier [id] is offered to the requests [todo] in their
    order, each of which is told by [tell], until one takes it: its callback
    returns 1, or it has none.  That one leaves the list; [l] is the list
    afterwards and [cs] are the calls. *)
Definition offered (tell : request -> list call) (id : Z) (w : W) (todo l : list node) (cs : list call) : Prop :=
  (exists l1 a r l2, todo = l1 ++ (a, r) :: l2 /\ l = l1 ++ l2 /\ request_id r = id /\ declined tell w (matching id l1) /\
     cs = flat_map tell (matching id l1) ++ tell r /\
     results w cs = results w (flat_map tell (matching id l1)) ++ match tell r with [] => [] | _ => [1] end) \/
  (l = todo /\ declined tell w (matching id todo) /\ cs = flat_map tell (matching id todo)).

Lemma offered_none tell id w : offered tell id w [] [] [].
Proof. right. split; [done|]. split; [split; constructor|done]. Qed.

Lemma offered_skip tell id w a r todo l cs : request_id r <> id -> offered tell id w todo l cs ->
  offered tell id w ((a, r) :: todo) ((a, r) :: l) cs.
Proof.
  intros Hn%Z.eqb_neq [(l1 & a' & r' & l2 & -> & -> & H)|(-> & H)].
  - left. exists ((a, r) :: l1), a', r', l2. cbn. rewrite Hn. auto.
  - right. cbn. rewrite Hn. auto.
Qed.

Lemma offered_kept tell id w a r c x w' todo l cs : request_id r = id -> tell r = [c] -> run_callback c w = (x, w') -> x <> 1 ->
  offered tell id w' todo l cs -> offered tell id w ((a, r) :: todo) ((a, r) :: l) (c :: cs).
Proof.
  intros Hid Ht Hc Hx H. pose proof (proj2 (Z.eqb_eq _ _) Hid) as He.
  assert (Hd : forall rs, declined tell w' rs -> declined tell w (r :: rs)).
  { intros rs [H1 H2]. split; [constructor; [by rewrite Ht|done]|]. cbn. rewrite Ht. cbn. rewrite Hc. by constructor. }
  destruct H as [(l1 & a' & r' & l2 & -> & -> & Hr & Hdl & Hcs & Hres)|(-> & Hdl & ->)].
  - left. exists ((a, r) :: l1), a', r', l2. cbn. rewrite He. cbn. rewrite Ht. cbn. rewrite Hc. split_and!; auto.
    + by rewrite Hcs.
    + by rewrite Hres.
  - right. cbn. rewrite He. cbn. rewrite Ht. auto.
Qed.

Lemma call_back_told p rp (st st' : state) x : call_back NETSNMP_CALLBACK_OP_RECEIVED_MESSAGE p rp st = (st', x) ->
  match told (default_callback st) NETSNMP_CALLBACK_OP_RECEIVED_MESSAGE p rp with
  | [] => x = 1 /\ st' = st
  | c :: cs => cs = [] /\ run_callback c (world st) = (x, world st')
  end.
Proof.
  unfold call_back, told, default_callback, request_callback, invoke.
  destruct (rp_callback rp) as [c|]; [|destruct (s_callback (sp st)) as [c|]]; [destruct (run_callback _ _) as [y w] eqn:Hrun..|];
    intros [= <- <-]; auto.
Qed.

Lemma response_loop_offers p todo : forall seen e h (st : state),
  version p <> SNMP_VERSION_3 -> command p <> SNMP_MSG_REPORT ->
  exists st1 e' h' l cs,
    response_loop v3_build v3_verify p seen todo e h st = Some (on_isp (set_queue (seen ++ l) e') st1, h') /\
    moved st st1 cs /\
    offered (told (default_callback st) NETSNMP_CALLBACK_OP_RECEIVED_MESSAGE p) (reqid p) (world st) todo l cs /\
    (matching (reqid p) todo = [] -> st1 = st /\ h' = h).
Proof.
  induction todo as [|[a r] todo IH]; intros seen e h st Hv Hc; cbn [response_loop].
  - exists st, e, h, [], []. rewrite app_nil_r. split_and!; [done|apply moved_refl|apply offered_none|done].
  - cbv zeta. rewrite (proj2 (Z.eqb_neq _ _) Hv). cbn [andb negb matching].
    destruct (Z.eqb_spec (request_id r) (reqid p)) as [Hid|Hid]; cbn [negb].
    + destruct (call_back _ p r st) as [st1 x] eqn:Hcb. pose proof (call_back_told _ _ _ _ _ Hcb) as Ht.
      apply call_back_moved in Hcb. set (tell := told _ _ _) in *. destruct (Z.eqb_spec x 1) as [->|Hx].
      * unfold response_accepted. rewrite (proj2 (Z.eqb_neq _ _) Hc). obind. exists st1, (drop_end a seen e), true, todo, (tell r).
        split_and!; [done|done| |done]. left. exists [], a, r, todo. cbn. split_and!; try done.
        destruct (tell r) as [|c cs]; [done|]. destruct Ht as [-> Ht]. cbn. by rewrite Ht.
      * destruct (IH (seen ++ [(a, r)]) e true st1 Hv Hc) as (st2 & e' & h' & l & cs & -> & Hm & Ho & _).
        destruct (tell r) as [|c cs0] eqn:Htr; [by destruct Ht|]. destruct Ht as [-> Ht].
        exists st2, e', h', ((a, r) :: l), (c :: cs). rewrite <- app_assoc. split_and!; [done|by apply (moved_trans _ _ _ [c] cs Hcb)| |done].
        eapply offered_kept; try done. rewrite (same_session_callback _ _ (proj1 Hcb)) in Ho. exact Ho.
    + destruct (IH (seen ++ [(a, r)]) e h st Hv Hc) as (st1 & e' & h' & l & cs & -> & Hm & Ho & Hn).
      exists st1, e', h', ((a, r) :: l), cs. rewrite <- app_assoc. split_and!; [done|done|by apply offered_skip|done].
Qed.

(** C11: a response that arrives reaches the request it answers.  A message
    [snmp_build] can send is processed without error, and offered to the requests
    that wait with its identifier, in their order: each one's callback is called,
    once, with the fields and the bindings that were sent, until one takes it by
    returning 1.  That request leaves the list; those whose callback returned
    something else stay pending, as does every request if none takes it.  When no
    request has the identifier nothing is called, the list stays and the packet
    is counted.  The session has no hooks. *)
Theorem response_delivered fr lim {F : Framing fr lim} L loc tr (st : state) m d p ovs q0 w :
  holds m d (message_ber fr p ovs) -> zlen (message_ber fr p ovs) <= lim -> 0x9000 <= lim -> zlen (message_ber fr p ovs) < 2 ^ 31 ->
  community_version p -> community_ok p -> pdu_ok p ovs -> command p = SNMP_MSG_RESPONSE ->
  grows L -> 0x8000 < L -> hookless (isp st) ->
  new_pdu (world st) = (Some q0, w) -> receiver_ok loc (base (sp st)) q0 p ->
  exists st' q cs, _sess_process_packet v3_build v3_verify v3_parse loc tr m d (zlen (message_ber fr p ovs)) st = Some (st', 0) /\
    delivered p ovs q /\ calls st' = calls st ++ cs /\
    offered (told (default_callback st) NETSNMP_CALLBACK_OP_RECEIVED_MESSAGE q) (int_received (reqid p)) w
      (requests (isp st)) (requests (isp st')) cs /\
    (matching (int_received (reqid p)) (requests (isp st)) = [] ->
     statistics (glob st') = snmp_increment_statistic STAT_SNMPUNKNOWNPDUHANDLERS (statistics (glob st))).
Proof.
  intros Hh Hsz Hlim Hlen Hcv Hcom Hok Hcmd HG HL (Hpre & Hparse & Hpost & _) Hnew Hr. unfold _sess_process_packet.
  rewrite Hpre. cbn [negb]. rewrite Hnew. set (q1 := if has_flag _ _ then _ else _). cbn [isp set_world]. rewrite Hparse.
  set (ms := mkmstate (base (sp (set_world w st))) q1 (glob (set_world w st))).
  assert (Hr1 : receiver_ok loc (ms_session ms) (ms_pdu ms) p) by (subst ms q1; by case_match).
  destruct Hok as (Hc & Hf & Ho & _ & Hcb & _).
  destruct (snmp_parse_built fr lim m d p ovs Hcv Hcom Hcb Hh Hsz Hc Hf Ho L v3_parse loc ms HG HL Hlim Hlen Hr1)
    as (ms' & -> & Hdel & Hs & Hg & Hfl). obind.
  set (st1 := on_glob (fun _ => ms_globals ms') _). change (hook_post (isp st1)) with (hook_post (isp st)). rewrite Hpost.
  change (negb (0 =? 0)) with false. cbv iota.
  pose proof Hdel as (Hv & _ & _ & Hcq & Hfs & _). rewrite Hcmd in Hfs. destruct Hfs as [Hid _].
  unfold has_flag. rewrite (proj2 (Z.eqb_neq _ 0) (Hfl Hcmd)). cbn [negb].
  destruct (response_loop_offers (ms_pdu ms') (requests (isp st1)) [] (requestsEnd (isp st1)) false st1)
    as (st2 & e & h & l & cs & Hl & [_ Hcalls] & Hoff & Hn).
  { rewrite Hv. by destruct Hcv as [-> | ->]. }
  { by rewrite Hcq, Hcmd. }
  rewrite Hl, Hid in *. obind. change (isp st1) with (isp st) in *.
  exists (if h then on_isp (set_queue ([] ++ l) e) st2 else on_glob (count STAT_SNMPUNKNOWNPDUHANDLERS) (on_isp (set_queue ([] ++ l) e) st2)), (ms_pdu ms'), cs.
  split_and!; [done|exact Hdel|by destruct h| |].
  - destruct h; exact Hoff.
  - intros Hm. destruct (Hn Hm) as [-> ->]. cbn. by rewrite Hg.
Qed.
End packet.

(** * A concrete session *)

#[local] Existing Instance big_heap.
#[local] Existing Instance sample_world.

(** The bulk request as it is sent: an answer is expected. *)
Definition sample_asking : pdu := set_flags UCD_MSG_FLAG_EXPECT_RESPONSE sample_sent.

Lemma sample_asking_fits : fits sample_asking sample_bindings.
Proof. intros g. unfold framing, frame_limit. destruct (ds_reverse_encode g); by_decide. Qed.

Lemma snmp_sess_async_send_sends_witness :
  exists st' rc, snmp_sess_async_send no_build no_probe sample_opened (Some sample_pdu) (Some 9) 0 = Some (st', Some sample_asking, rc) /\
    calls st' = calls sample_opened /\
    sent sample_opened (message_ber (framing (sample_globals false)) sample_asking sample_bindings) sample_asking (Some 9) 0 st' rc.
Proof.
  apply (snmp_sess_async_send_sends no_build no_probe sample_opened sample_transport sample_pdu SNMP_VERSION_2c).
  - reflexivity.
  - unfold hookless. split_and!; reflexivity.
  - reflexivity.
  - discriminate.
  - reflexivity.
  - exact sample_ok.
  - exact sample_asking_fits.
  - change (zlen (message_ber long_frame sample_asking sample_bindings) <= 2048). by_decide.
  - eexists. reflexivity.
  - left. reflexivity.
  - split; [apply NoDup_nil_2|reflexivity].
Defined.

(** The answer to it. *)
Definition sample_reply : pdu := set_errindex 0 (set_command SNMP_MSG_RESPONSE sample_sent).

Lemma sample_reply_ok : pdu_ok sample_reply sample_bindings.
Proof. unfold pdu_ok. split_and!; by_decide. Qed.

Lemma response_delivered_witness :
  exists st' q, _sess_process_packet no_build no_verify no_parse sample_locals sample_transport
      (message_ber tlv sample_reply sample_bindings) 0 (zlen (message_ber tlv sample_reply sample_bindings)) sample_waiting = Some (st', 0) /\
    delivered sample_reply sample_bindings q /\
    requests (isp st') = [] /\
    calls st' = [mkcall 7 NETSNMP_CALLBACK_OP_RECEIVED_MESSAGE (s32 (reqid q)) (Some q) 0].
Proof.
  edestruct (response_delivered no_build no_verify no_parse tlv 0x7fffffff (2 ^ 62) sample_locals sample_transport sample_waiting
           (message_ber tlv sample_reply sample_bindings) 0 sample_reply sample_bindings blank_pdu 10) as (st' & q & cs & Hp & Hd & Hc & Ho & _).
  - exists [], []. by rewrite app_nil_r.
  - by_decide.
  - by_decide.
  - by_decide.
  - by right.
  - by_decide.
  - exact sample_reply_ok.
  - reflexivity.
  - apply big_heap_grows. by_decide.
  - by_decide.
  - unfold hookless. split_and!; reflexivity.
  - reflexivity.
  - unfold receiver_ok. split_and!; [by right|reflexivity..].
  - exists st', q. split; [exact Hp|]. split; [exact Hd|].
    destruct Ho as [([|n l1] & a & r & l2 & Hl & Hl' & _ & _ & Hcs & _)|(_ & [_ Hx] & _)].
    + injection Hl as <- <- <-. rewrite Hl', Hc, Hcs. by split.
    + by destruct l1.
    + change (Forall (fun x => x <> 1) [1]) in Hx. clear - Hx. exact (False_ind _ (proj1 (proj1 (list.Forall_cons _ _ _) Hx) eq_refl)).
Defined.
