(* ===== verification/SessionSafety.v ===== *)
(** Memory safety of a session: whatever is sent, whatever arrives and whenever
    time-outs are looked for, no operation leaves the objects it works on, and
    the requests that wait can always be sent again. *)
From Stdlib Require Import ZArith Lia.
From S2P Require Import Prelude Oid Asn1Defs SnmpDefs Ber Asn1Parse Asn1ParseProps Asn1Build Asn1RBuild.
From S2P Require Import Asn1RBuildProps SnmpVar Codec Pdu Message PduSpec PduBuildProps PduParseProps MessageProps PduSafety Timeval Session.
From S2P Require Import SessionQueue SessionProps SessionWire.

Section safety.
Context {A : Allocator} {W : Type} {E : Environment W}.
Context (v3_build : session -> pdu -> rstate -> option (rstate * session * pdu * Z)).
Context (v3_probe : machine W -> machine W * Z).
Context (v3_verify : request -> pdu -> bool).
Context (v3_parse : list Z -> mstate -> Z -> Z -> option (mstate * Z)).
Abbreviation state := (machine W).

(** The PDU of a request that waits: it needs nothing filled in, and its message
    can be framed. *)
Definition resendable (b : session) (p : pdu) : Prop :=
  settled b p /\ version p <> SNMP_VERSION_3 /\ exists ovs, pdu_ok p ovs /\ fits p ovs.

Definition loaded (b : session) (l : list node) : Prop := Forall (fun n => resendable b (rp_pdu n.2)) l.

Lemma resendable_msgid b p x : resendable b p -> resendable b (set_msgid x p).
Proof. intros (Hs & Hv & ovs & Hok & Hf). split_and!; [by apply settled_msgid|done|]. exists ovs. split; [exact Hok|exact Hf]. Qed.

Lemma resendable_account b b' p : same_account b b' -> resendable b p -> resendable b' p.
Proof. intros Hb (Hs & H). split; [by eapply settled_account|done]. Qed.

Lemma loaded_account b b' l : same_account b b' -> loaded b l -> loaded b' l.
Proof. intros Hb. apply Forall_impl. intros n. by apply resendable_account. Qed.

(** The list of requests and the account of the session have not changed. *)
Definition at_rest (st st' : state) : Prop := isp st' = isp st /\ same_account (base (sp st)) (base (sp st')).

#[local] Instance at_rest_po : PreOrder at_rest.
Proof. split; [done|]. intros x y z [H1 H2] [H3 H4]. split; [congruence|by etrans]. Qed.

Lemma moved_isp (st st' : state) cs : moved st st' cs -> isp st' = isp st.
Proof. by intros [(H & _) _]. Qed.

Lemma invoke_rest c (st : state) : at_rest st (invoke c st).1.
Proof. unfold invoke. by destruct (run_callback c (world st)). Qed.

Lemma call_back_rest op p rp (st : state) : at_rest st (call_back op p rp st).1.
Proof. unfold call_back. destruct (request_callback st rp) as [[c|] magic]; [apply invoke_rest|done]. Qed.

(** A request can be sent again. *)
Lemma resend_safe (st : state) rp :
  hookless (isp st) -> resendable (base (sp st)) (rp_pdu rp) ->
  exists st' rp' rc, snmp_resend_request v3_build st rp true = Some (st', rp', rc) /\ at_rest st st' /\
    resendable (base (sp st)) (rp_pdu rp').
Proof.
  intros Hh Hr. unfold snmp_resend_request. destruct (transport st); [|by do 3 eexists].
  destruct (malloc 2048) as [buf|] eqn:Hbuf; [|by do 3 eexists]. apply malloc_size in Hbuf.
  unfold snmp_get_next_msgid. destruct (next_id _ _) as [id msgid]. set (st0 := on_glob _ st).
  apply (resendable_msgid _ _ msgid) in Hr. pose proof Hr as (Hs & Hv & ovs & Hok & Hf).
  destruct (build_packet_spec v3_build st0 (set_msgid msgid (rp_pdu rp)) _ ovs buf Hh Hbuf Hv Hs Hok Hf)
    as (st1 & res & m & start & len & Hb & Hacc & _ & Hres & _).
  pose proof (moved_isp _ _ _ (build_packet_moved _ _ _ _ _ _ _ _ Hb)) as Hi.
  cbn [rp_pdu set_rp_msgid set_rp_retries]. rewrite Hb. obind.
  assert (Hrest : at_rest st st1) by done.
  destruct Hres as [-> | [-> [pkt Hpk]]]; [change (-1 <? 0) with true|change (0 <? 0) with false]; cbv iota.
  { do 3 eexists. split; [reflexivity|]. by split. }
  rewrite Hpk. obind. unfold send. destruct (transport_send pkt (world st1)) as [[r errno] w]. destruct (r <? 0).
  { do 3 eexists. split; [reflexivity|]. split; [|exact Hr]. etrans; [exact Hrest|done]. }
  unfold clock. destruct (monotonic_clock _) as [now w']. do 3 eexists. split; [reflexivity|].
  split; [|exact Hr]. etrans; [exact Hrest|done].
Qed.

(** What an operation on the requests gives: a state, with the same hooks and
    account, whose requests can be sent again. *)
Definition ends_loaded (st : state) (o : option state) : Prop :=
  exists st', o = Some st' /\ hookless (isp st') /\ same_account (base (sp st)) (base (sp st')) /\
    loaded (base (sp st')) (requests (isp st')).

Lemma ends_loaded_queue (st st1 : state) l e :
  hookless (isp st) -> at_rest st st1 -> loaded (base (sp st)) l -> ends_loaded st (Some (on_isp (set_queue l e) st1)).
Proof.
  intros Hh [Hi Ha] Hl. eexists. split; [reflexivity|]. cbn. rewrite Hi. split_and!; [exact Hh|done|].
  by eapply loaded_account.
Qed.

Lemma ends_loaded_rest (st st1 : state) o : at_rest st st1 -> ends_loaded st1 o -> ends_loaded st o.
Proof. intros [_ Ha] (st' & Ho & Hh & Ha' & Hl). exists st'. split_and!; [done|done|by etrans|done]. Qed.

Lemma at_rest_loaded (st st' : state) l : at_rest st st' -> loaded (base (sp st)) l -> loaded (base (sp st')) l.
Proof. intros [_ Ha]. by apply loaded_account. Qed.

Lemma loaded_app b l1 l2 : loaded b (l1 ++ l2) <-> loaded b l1 /\ loaded b l2.
Proof. unfold loaded. by rewrite Forall_app. Qed.

Lemma loaded_cons b a r l : loaded b ((a, r) :: l) <-> resendable b (rp_pdu r) /\ loaded b l.
Proof. unfold loaded. by rewrite list.Forall_cons. Qed.

Lemma loaded_snoc b a r l : loaded b (l ++ [(a, r)]) <-> loaded b l /\ resendable b (rp_pdu r).
Proof. rewrite loaded_app, loaded_cons. assert (loaded b []) by apply list.Forall_nil_2. tauto. Qed.

Lemma timeout_loop_safe now todo : forall seen e (st : state),
  hookless (isp st) -> loaded (base (sp st)) seen -> loaded (base (sp st)) todo ->
  ends_loaded st (timeout_loop v3_build now seen todo e st).
Proof.
  induction todo as [|[a rp] todo IH]; intros seen e st Hh Hs Ht; cbn [timeout_loop]; [by apply ends_loaded_queue|].
  apply loaded_cons in Ht as [Hr Ht]. destruct (timercmp_lt _ now); [|apply IH; [done|by apply loaded_snoc|done]].
  set (st0 := set_world _ st). assert (H0 : at_rest st st0) by done. destruct (s_retries (sp st0) <=? rp_retries rp).
  - pose proof (call_back_rest NETSNMP_CALLBACK_OP_TIMED_OUT (rp_pdu rp) rp st0) as H1.
    destruct (call_back _ _ rp st0) as [st1 x]. cbn [fst] in H1. pose proof (transitivity H0 H1) as H2.
    eapply ends_loaded_rest; [exact H2|]. apply IH; [by rewrite (proj1 H2)|by eapply at_rest_loaded..].
  - destruct (resend_safe st0 rp Hh Hr) as (st1 & rp' & rc & -> & H1 & Hr'). obind. destruct (negb (rc =? 0)).
    + apply ends_loaded_queue; [done|exact H1|]. apply loaded_app. split; [done|]. by apply loaded_cons.
    + eapply ends_loaded_rest; [exact H1|]. apply IH; [by rewrite (proj1 H1)| |by eapply at_rest_loaded].
      eapply at_rest_loaded; [exact H1|]. by apply loaded_snoc.
Qed.

Lemma snmp_sess_timeout_safe (st : state) :
  hookless (isp st) -> loaded (base (sp st)) (requests (isp st)) -> ends_loaded st (snmp_sess_timeout v3_build st).
Proof.
  intros Hh Hl. unfold snmp_sess_timeout, clock. destruct (monotonic_clock (world st)) as [now w].
  apply (ends_loaded_rest _ (set_world w st)); [done|]. apply timeout_loop_safe; [done|apply list.Forall_nil_2|done].
Qed.

(** ** Responses *)

Lemma snmpv3_get_report_type_safe p : Forall var_typed (variables p) -> is_Some (snmpv3_get_report_type p).
Proof.
  intros Hv. unfold snmpv3_get_report_type. destruct (variables p) as [|vp vps]; [by eexists|].
  apply list.Forall_cons in Hv as [((Hn & Hl) & _) _].
  destruct (Z.eqb_spec (vp_name_length vp) (9 + 2)) as [H|_];
    [|destruct (Z.eqb_spec (vp_name_length vp) (8 + 2)) as [H|_]; [|by eexists]].
  - destruct (peek_in_range (vp_name vp) 9) as [n ->]; [unfold zlen in *; lia|]. obind. by eexists.
  - destruct (peek_in_range (vp_name vp) 8) as [n ->]; [unfold zlen in *; lia|]. obind. by eexists.
Qed.

Lemma response_accepted_safe (st : state) rp p magic :
  hookless (isp st) -> resendable (base (sp st)) (rp_pdu rp) -> Forall var_typed (variables p) ->
  exists st' o, response_accepted v3_build st rp p magic = Some (st', o) /\ at_rest st st' /\
    from_option (fun rp' => resendable (base (sp st)) (rp_pdu rp')) True o.
Proof.
  intros Hh Hr Hv. unfold response_accepted. destruct (_ =? SNMP_MSG_REPORT); [|by do 2 eexists].
  assert (exists b : bool, (if s_snmp_errno (base (sp st)) =? SNMPERR_NOT_IN_TIME_WINDOW then Some true
    else t ← snmpv3_get_report_type p; Some (t =? SNMPERR_NOT_IN_TIME_WINDOW)) = Some b) as [retry ->].
  { case_match; [by eexists|]. destruct (snmpv3_get_report_type_safe p Hv) as [t ->]. obind. by eexists. }
  obind. destruct (_ && _).
  - destruct (resend_safe st rp Hh Hr) as (st1 & rp' & rc & -> & H1 & Hr'). obind. by do 2 eexists.
  - do 2 eexists. split; [reflexivity|]. split; [by case_match|done].
Qed.

Lemma response_loop_safe p todo : forall seen e h (st : state),
  hookless (isp st) -> loaded (base (sp st)) seen -> loaded (base (sp st)) todo -> Forall var_typed (variables p) ->
  ends_loaded st (fst <$> response_loop v3_build v3_verify p seen todo e h st).
Proof.
  induction todo as [|[a rp] todo IH]; intros seen e h st Hh Hs Ht Hv; cbn [response_loop]; [by apply ends_loaded_queue|].
  cbv zeta. pose proof Ht as Ht0. apply loaded_cons in Ht as [Hr Ht].
  assert (Hskip : forall h, ends_loaded st (fst <$> response_loop v3_build v3_verify p (seen ++ [(a, rp)]) todo e h st))
    by (intros h'; apply IH; [done|by apply loaded_snoc|done|done]).
  destruct (_ && negb (message_id rp =? msgid p)); [done|]. destruct (_ && negb (v3_verify rp p)).
  { apply ends_loaded_queue; [done|done|]. by apply loaded_app. }
  destruct (_ && _); [done|].
  pose proof (call_back_rest NETSNMP_CALLBACK_OP_RECEIVED_MESSAGE p rp st) as H1.
  destruct (call_back _ p rp st) as [st1 x]. cbn [fst] in H1. eapply ends_loaded_rest; [exact H1|].
  assert (Hh1 : hookless (isp st1)) by (by rewrite (proj1 H1)).
  pose proof (resendable_account _ _ _ (proj2 H1) Hr) as Hr1. apply (at_rest_loaded _ _ _ H1) in Hs, Ht.
  destruct (x =? 1); [|apply IH; [done|by apply loaded_snoc|done|done]].
  destruct (response_accepted_safe st1 rp p (request_callback st rp).2 Hh1 Hr1 Hv) as (st2 & o & -> & H2 & Ho). obind.
  destruct o as [rp'|]; (apply ends_loaded_queue; [done|exact H2|]); apply loaded_app; (split; [done|]); [|done].
  by apply loaded_cons.
Qed.

(** ** Sending *)

(** The PDU an application may send: the version the two sides agree on is not
    that of SNMPv3, and if the PDU is accepted then it is well formed. *)
Definition may_send (b : session) (p : pdu) : Prop :=
  forall v, agree_version (s_version b) (version p) = Some v ->
  v <> SNMP_VERSION_3 /\ exists p' o, prepared b (expect_flags (set_version v p)) = Some (p', o) /\
    (o = None -> exists ovs, pdu_ok p' ovs /\ fits p' ovs).

Lemma rest_loaded (st st' : state) :
  hookless (isp st) -> loaded (base (sp st)) (requests (isp st)) -> at_rest st st' -> ends_loaded st (Some st').
Proof.
  intros Hh Hl H. exists st'. destruct H as [Hi Ha]. rewrite Hi. split_and!; [done..|]. by eapply loaded_account.
Qed.

(** A PDU that [snmp_build] refuses. *)
Lemma build_packet_refused (st : state) p p' e buf :
  hookless (isp st) -> version p <> SNMP_VERSION_3 -> prepared (base (sp st)) p = Some (p', Some e) ->
  exists st' pk, build_packet v3_build p buf st = Some (st', p', -1, pk) /\ at_rest st st'.
Proof.
  intros (_ & _ & _ & Hh1 & Hh2) Hv Hp. unfold build_packet, snmp_build. rewrite Hh1, Hh2.
  rewrite (_snmp_build_prepared v3_build) by done.
  rewrite (prepared_account (base (sp st)) (clear_errno (base (sp st))) p) by done. rewrite Hp. obind.
  change (-1 =? 0) with false. cbv iota zeta. obind.
  set (b := if _ =? 0 then _ else _). assert (Hb : same_account (base (sp st)) b) by (subst b; by case_match).
  cbn [glob on_glob]. destruct (ds_reverse_encode _); do 2 eexists; (split; [reflexivity|by split]).
Qed.

Lemma wait_for_response_safe p callback cbdata (st0 st : state) :
  hookless (isp st0) -> loaded (base (sp st0)) (requests (isp st0)) -> queue_ok (isp st0) -> at_rest st0 st ->
  resendable (base (sp st0)) p ->
  exists st' rc, wait_for_response p callback cbdata st = Some (st', p, rc) /\ ends_loaded st0 (Some st').
Proof.
  intros Hh Hl Hq H0 Hr. unfold wait_for_response. pose proof H0 as [Hi _].
  destruct (new_request _ (world st)) as [[a|] w] eqn:Hnew.
  - unfold clock. destruct (monotonic_clock _) as [now w']. cbn [isp set_world] in *. rewrite Hi in *.
    set (rp := mkrequest _ _ _ _ _ _ _ _ _).
    rewrite add_request_end; [|done|by eapply new_request_fresh]. obind. do 2 eexists. split; [reflexivity|].
    pose proof (ends_loaded_queue st0 st (requests (isp st0) ++ [(a, rp)]) (Some a) Hh H0) as Hend.
    destruct Hend as (st' & [= <-] & H1 & H2 & H3); [by apply loaded_snoc|].
    eexists. split; [reflexivity|]. cbn in *. rewrite Hi in H1. by split_and!.
  - do 2 eexists. split; [reflexivity|]. by apply rest_loaded; [| |etrans; [exact H0|]].
Qed.

Lemma flag_cleared x f : Z.land (Z.land x (Z.lnot f)) f = 0.
Proof. rewrite <- Z.land_assoc, (Z.land_comm (Z.lnot f)), Z.land_lnot_diag. apply Z.land_0_r. Qed.

(** No answer is expected to a trap. *)
Lemma prepared_trap b p p' :
  command p = SNMP_MSG_TRAP -> prepared b p = Some (p', None) -> has_flag (flags p') UCD_MSG_FLAG_EXPECT_RESPONSE = false.
Proof.
  intros Hc. unfold prepared. destruct (check_command p) as [p1 [e|]] eqn:Hcc; [done|].
  assert (Hf : has_flag (flags p1) UCD_MSG_FLAG_EXPECT_RESPONSE = false).
  { revert Hcc. unfold check_command. rewrite Hc. change (is_one_of SNMP_MSG_TRAP _) with false. cbv iota.
    change (SNMP_MSG_TRAP =? SNMP_MSG_GETBULK) with false. change (SNMP_MSG_TRAP =? SNMP_MSG_TRAP) with true. cbv iota.
    intros Hcc. repeat case_match; simplify_eq; unfold has_flag; cbn -[Z.land Z.lnot]; by rewrite flag_cleared. }
  destruct (negb _); [done|]. unfold fill_community. intros H.
  assert (flags p' = flags p1) as -> by (repeat (case_match; simplify_option_eq); done). done.
Qed.

Lemma prepared_resendable b p p' :
  version p <> SNMP_VERSION_3 -> prepared b p = Some (p', None) ->
  has_flag (flags p') UCD_MSG_FLAG_EXPECT_RESPONSE = true -> (exists ovs, pdu_ok p' ovs /\ fits p' ovs) -> resendable b p'.
Proof.
  intros Hv Hp Hf Hok. split_and!; [|by rewrite (proj1 (prepared_version _ _ _ Hp))|done].
  eapply prepared_settled; [|exact Hp]. intros Hc. by rewrite (prepared_trap _ _ _ Hc Hp) in Hf.
Qed.

Lemma async_send_safe (st : state) o callback cbdata :
  hookless (isp st) -> loaded (base (sp st)) (requests (isp st)) -> queue_ok (isp st) ->
  from_option (may_send (base (sp st))) True o ->
  exists st' o' rc, _sess_async_send v3_build v3_probe st o callback cbdata = Some (st', o', rc) /\ ends_loaded st (Some st').
Proof.
  intros Hh Hl Hq Hs. unfold _sess_async_send.
  assert (Hend : forall (st' : state) (o' : option pdu) (rc : Z), at_rest st st' ->
    exists st2 o2 rc2, Some (st', o', rc) = Some (st2, o2, rc2) /\ ends_loaded st (Some st2)).
  { intros st' o' rc H. do 3 eexists. split; [reflexivity|]. by apply rest_loaded. }
  assert (Hset : forall st1 f, at_rest st st1 -> (forall b, same_account b (f b)) -> at_rest st (on_sp (on_base f) st1)).
  { intros st1 f [H1 H2] Hf. split; [exact H1|]. etrans; [exact H2|]. apply Hf. }
  destruct (transport st) as [tr|]; [|by apply Hend]. destruct o as [p|]; [|by apply Hend]. cbn [from_option] in Hs.
  set (st1 := on_sp (on_base clear_errno) st). assert (H1 : at_rest st st1) by by apply Hset.
  change (s_version (base (sp st1))) with (s_version (base (sp st))).
  destruct (agree_version _ _) as [v|] eqn:Hv; [|by apply Hend, Hset]. destruct (Hs v Hv) as (Hv3 & p' & e & Hp & Hok).
  set (p1 := expect_flags (set_version v p)) in *. assert (Hp1 : version p1 = v) by apply expect_flags_version.
  rewrite Hp1, (proj2 (Z.eqb_neq _ _) Hv3). cbn [andb]. change (1 =? 0) with false. cbv iota.
  destruct (malloc 2048) as [buf|] eqn:Hbuf; [|by apply Hend, Hset]. apply malloc_size in Hbuf.
  assert (Hp' : prepared (base (sp st1)) p1 = Some (p', e)) by (by rewrite (prepared_account (base (sp st)))).
  destruct e as [e|].
  { destruct (build_packet_refused st1 p1 p' e buf) as (st2 & [[m start] len] & -> & H2); [done|by rewrite Hp1|done|].
    obind. change (-1 <? 0) with true. cbv iota. apply Hend. by etrans. }
  destruct (Hok eq_refl) as (ovs & Hpok & Hfit).
  destruct (build_packet_spec v3_build st1 p1 p' ovs buf) as (st2 & res & m & start & len & Hb & Hacc & _ & Hres & _);
    [exact Hh|done|by rewrite Hp1|done..|].
  assert (H2 : at_rest st st2).
  { etrans; [exact H1|]. split; [|done]. apply (moved_isp _ _ _ (build_packet_moved _ _ _ _ _ _ _ _ Hb)). }
  rewrite Hb. obind. destruct Hres as [-> | [-> [pkt Hpk]]]; [by apply Hend|]. change (0 <? 0) with false. cbv iota.
  destruct (_ && (sndMsgMaxSize _ <? len)); [by apply Hend, Hset|]. destruct (_ && _); [by apply Hend, Hset|].
  rewrite Hpk. obind. unfold send. destruct (transport_send pkt (world st2)) as [[r errno] w].
  assert (H3 : at_rest st (set_world w st2)) by (etrans; [exact H2|done]).
  destruct (r <? 0); [by apply Hend, Hset|].
  destruct (has_flag (flags p') _) eqn:Hf; [|by apply Hend].
  assert (Hr : resendable (base (sp st)) p').
  { eapply prepared_resendable; [|exact Hp|done|by exists ovs]. by rewrite Hp1. }
  destruct (wait_for_response_safe p' callback cbdata st _ Hh Hl Hq H3 Hr) as (st3 & rc & -> & He). obind.
  by do 3 eexists.
Qed.
(** ** Receiving *)

Lemma parse_pdu_session loc m st d len st' rc :
  parse_pdu loc m st d len = Some (st', rc) -> ms_session st' = ms_session st.
Proof. unfold parse_pdu. intros H. run_inv; by case_match. Qed.

Lemma parse_community_account loc m st d len st' rc :
  parse_community_message loc m st d len = Some (st', rc) -> same_account (ms_session st) (ms_session st').
Proof.
  unfold parse_community_message. intros H. run_inv; try done.
  all: match goal with Hp : parse_pdu _ _ _ _ _ = _ |- _ => apply parse_pdu_session in Hp; by rewrite Hp end.
Qed.

Lemma snmp_parse_account loc m st d len st' rc :
  packet_version (ms_session st) m d len <> Some SNMP_VERSION_3 ->
  snmp_parse v3_parse loc m st d len = Some (st', rc) -> same_account (ms_session st) (ms_session st').
Proof.
  intros Hv H. unfold snmp_parse in H. apply bind_Some in H as ([st1 rc1] & H & Hrc).
  assert (H1 : same_account (ms_session st) (ms_session st1)).
  { unfold _snmp_parse in H. destruct (snmp_get_next_transid _) as [g id]. cbv zeta in H.
    apply bind_Some in H as (v & Hver & H). cbn [ms_session on_session on_pdu s_version clear_errno] in *.
    assert (v <> SNMP_VERSION_3) as Hv3.
    { intros ->. apply Hv. unfold packet_version. by destruct (s_version (ms_session st) =? SNMP_DEFAULT_VERSION). }
    destruct (is_one_of v _); [by apply parse_community_account in H|].
    rewrite (proj2 (Z.eqb_neq _ _) Hv3) in H. run_inv; try done; by case_match. }
  etrans; [exact H1|]. destruct (rc1 =? 0); simplify_eq; [done|]. cbn. by case_match.
Qed.

(** A packet of SNMPv1 or SNMPv2c has come, with the 32 bytes behind it that the
    parser may read, and the memory to parse it into. *)
Definition may_receive (st : state) (loc : locals) (m : list Z) (pos len : Z) : Prop :=
  readable m pos len /\ len < 2 ^ 31 /\ packet_version (base (sp st)) m pos len <> Some SNMP_VERSION_3 /\
  forall q w, new_pdu (world st) = (Some q, w) -> receiver_memory loc (mkmstate (base (sp st)) q (glob st)).

Lemma process_packet_safe (st : state) loc tr m pos len :
  hookless (isp st) -> loaded (base (sp st)) (requests (isp st)) -> may_receive st loc m pos len ->
  exists st' rc, _sess_process_packet v3_build v3_verify v3_parse loc tr m pos len st = Some (st', rc) /\
    ends_loaded st (Some st').
Proof.
  intros Hh Hl (Hr & Hlen & Hv & Hm). pose proof Hh as (Hpre & Hparse & Hpost & _). unfold _sess_process_packet.
  rewrite Hpre. cbn [negb]. destruct (new_pdu (world st)) as [[p|] w] eqn:Hnew.
  2: { do 2 eexists. split; [reflexivity|]. by apply rest_loaded. }
  set (st0 := set_world w st). set (q := if has_flag _ _ then _ else _). cbn [isp set_world st0]. rewrite Hparse.
  set (ms := mkmstate (base (sp st0)) q (glob st0)).
  assert (Hmem : receiver_memory loc ms) by (destruct (Hm p w eq_refl) as (?&?&?&?&?); subst ms q; case_match; by split_and!).
  destruct (snmp_parse_post v3_parse loc m ms pos len Hr Hlen Hmem Hv) as (ms' & rc & Hp & Hrc & Hty).
  pose proof (snmp_parse_account loc m ms pos len ms' rc Hv Hp) as Hacc. rewrite Hp. obind.
  set (st1 := on_glob (fun _ => ms_globals ms') _). assert (H1 : at_rest st st1) by (split; [done|exact Hacc]).
  change (hook_post (isp st1)) with (hook_post (isp st)). rewrite Hpost.
  destruct (Z.eqb_spec rc 0) as [->|Hn]; cbn [negb].
  2: { do 2 eexists. split; [reflexivity|]. by apply rest_loaded. }
  assert (Hcont : forall o, ends_loaded st (fst <$> o) -> exists st' rc, ('(st, handled) ← o;
    Some (if (handled : bool) then st else on_glob (count STAT_SNMPUNKNOWNPDUHANDLERS) st, 0)) = Some (st', rc) /\
    ends_loaded st (Some st')).
  { intros o (st2 & Ho & Hh2 & Ha2 & Hl2). destruct o as [[st3 h]|]; [|done]. injection Ho as ->. obind.
    do 2 eexists. split; [reflexivity|]. by destruct h; eexists. }
  destruct (has_flag (flags (ms_pdu ms')) _).
  - apply Hcont. eapply ends_loaded_rest; [exact H1|].
    apply response_loop_safe; [exact Hh|apply list.Forall_nil_2|by eapply at_rest_loaded|by apply Hty].
  - destruct (s_callback _) as [c|]; apply (Hcont (Some _)); apply rest_loaded; try done.
    etrans; [exact H1|apply invoke_rest].
Qed.

(** * Theorem *)

(** A session that works: its requests are in order and can be sent again. *)
Definition sound (st : state) : Prop :=
  session_ok st /\ hookless (isp st) /\ loaded (base (sp st)) (requests (isp st)).

Definition may (ev : event) (st : state) : Prop :=
  match ev with
  | Send o _ _ => from_option (may_send (base (sp st))) True o
  | Receive loc _ m pos len => may_receive st loc m pos len
  | Timeout => True
  end.

Abbreviation perform := (perform v3_build v3_probe v3_verify v3_parse).

Lemma may_quiet ev st : may ev st -> quiet ev st.
Proof. destruct ev as [[p|] c d| |]; cbn; try done. intros H Hv. by destruct (H _ Hv). Qed.

(** C10: the operations of a session without hooks that speaks SNMPv1 or SNMPv2c
    return, stay inside its memory and leave the session ready for the next one:
    sending whatever well-formed PDU, looking for time-outs at any time, and
    processing whatever bytes a packet holds that is not SNMPv3, whatever the
    allocator, the transport, the clock and the callbacks answer.  A packet has 32
    bytes behind it that may be read ([may_receive]): the parsers do look behind
    the end of a packet, so a buffer that ends with the packet is read out of
    bounds.  Reading packets from the transport ([_sess_read]) is not among these
    operations. *)
Theorem session_safe ev (st : state) : sound st -> may ev st -> exists st', perform ev st = Some st' /\ sound st'.
Proof.
  intros (Hok & Hh & Hl) Hmay. pose proof (may_quiet ev st Hmay) as Hq.
  assert (exists st', perform ev st = Some st' /\ ends_loaded st (Some st')) as (st' & Hp & st2 & [= <-] & Hh' & _ & Hl').
  { destruct ev as [o callback cbdata|loc tr m pos len|]; cbn [SessionProps.perform].
    - destruct (async_send_safe st o callback cbdata Hh Hl (proj1 Hok) Hmay) as (st' & o' & rc & Hs & He).
      unfold snmp_sess_async_send. rewrite Hs. obind. destruct (rc =? 0); obind; [|by eexists].
      eexists. split; [reflexivity|]. destruct He as (st2 & [= <-] & ?). by eexists.
    - destruct (process_packet_safe st loc tr m pos len Hh Hl Hmay) as (st' & rc & -> & He). obind. by eexists.
    - destruct (snmp_sess_timeout_safe st Hh Hl) as (st' & Hp & He). exists st'. split; [exact Hp|by exists st']. }
  exists st'. split; [done|]. split_and!; [by apply (perform_ok _ _ _ _ _ _ _ Hp Hq Hok)|done|done].
Qed.
End safety.

(** * A concrete session *)

#[local] Existing Instance big_heap.
#[local] Existing Instance sample_world.

(** The packet with the answer, and the memory behind it. *)
Definition sample_answer : list Z := message_ber tlv sample_reply sample_bindings ++ replicate 32 0.

Lemma sample_sent_fits : fits sample_sent sample_bindings.
Proof. exact sample_asking_fits. Qed.

Lemma sample_sound : sound sample_waiting.
Proof.
  split; [exact sample_waiting_ok|]. split; [done|]. apply list.Forall_singleton. split; [by vm_compute|].
  split; [done|]. exists sample_bindings. split; [exact sample_ok|exact sample_sent_fits].
Qed.

Lemma sample_may_receive : may_receive sample_waiting sample_locals sample_answer 0 (zlen sample_answer - 32).
Proof.
  split; [by_decide|]. split; [by_decide|]. split; [done|]. intros q w [= <- <-]. by split_and!.
Qed.

Lemma session_safe_witness :
  exists st', perform no_build no_probe no_verify no_parse
    (Receive sample_locals sample_transport sample_answer 0 (zlen sample_answer - 32)) sample_waiting = Some st' /\ sound st'.
Proof. apply (session_safe no_build no_probe no_verify no_parse); [exact sample_sound|exact sample_may_receive]. Defined.
