(* ===== verification/SessionStream.v ===== *)
(** Streams: whichever way the bytes come, [_sess_read] processes the messages
    they make up, one by one and in order, and keeps what is unfinished. *)
From Stdlib Require Import ZArith Lia.
From S2P Require Import Prelude Oid Asn1Defs SnmpDefs Ber Asn1Parse Asn1ParseProps Asn1ParseWide Asn1Build.
From S2P Require Import Asn1BuildProps Asn1RBuild Asn1RBuildProps SnmpVar Codec Pdu Message PduParseProps MessageProps Timeval Session.
From S2P Require Import SessionQueue SessionProps SessionWire.

(** A message on a stream, and the start of one. *)
Definition message (pkt : list Z) : Prop := exists c, pkt = tlv 0x30 c /\ zlen pkt < 2 ^ 31.

Definition unfinished (bs : list Z) : Prop :=
  exists c k, zlen (tlv 0x30 c) < 2 ^ 31 /\ (k < length (tlv 0x30 c))%nat /\ bs = take k (tlv 0x30 c).

Section stream.
Context {A : Allocator} {W : Type} {E : Environment W} {R : Reader W}.
Context (v3_build : session -> pdu -> rstate -> option (rstate * session * pdu * Z)).
Context (v3_verify : request -> pdu -> bool).
Context (v3_parse : list Z -> mstate -> Z -> Z -> option (mstate * Z)).
Context (accept_session : machine W -> machine W * Z).
Context (loc : locals) (junk : Z).
Abbreviation state := (machine W).
Abbreviation process := (_sess_process_packet v3_build v3_verify v3_parse loc).

(** Only the buffer of the session, its transport, its error codes, the static
    variables and the world have changed. *)
Definition only_read (st st' : state) : Prop :=
  calls st' = calls st /\ (exists b n s, isp st' = set_packet b n s (isp st)) /\
  exists b, sp st' = on_base (fun _ => b) (sp st) /\ same_account (base (sp st)) b.

#[local] Instance only_read_po : PreOrder only_read.
Proof.
  split.
  - intros st. split; [done|]. split; [exists (packet (isp st)), (packet_len (isp st)), (packet_size (isp st)); by destruct (isp st)|].
    exists (base (sp st)). split; [by destruct (sp st)|done].
  - intros x y z (H1 & (b1 & n1 & s1 & H2) & c1 & H3 & H4) (H5 & (b2 & n2 & s2 & H6) & c2 & H7 & H8). split; [congruence|].
    split; [exists b2, n2, s2; by rewrite H6, H2|]. exists c2. rewrite H7, H3. split; [done|]. rewrite H3 in H8. by etrans.
Qed.

(** The packets [pkts] have been processed, in this order, and nothing else was
    done but reading. *)
Inductive handled : state -> list (list Z) -> state -> Prop :=
| handled_nil st st' : only_read st st' -> handled st [] st'
| handled_cons st st1 tr m pos pkt st2 rc pkts st' :
    only_read st st1 -> peek_n m pos (zlen pkt) = Some pkt -> process tr m pos (zlen pkt) st1 = Some (st2, rc) ->
    handled st2 pkts st' -> handled st (pkt :: pkts) st'.

Lemma handled_read st1 st2 pkts st3 : only_read st1 st2 -> handled st2 pkts st3 -> handled st1 pkts st3.
Proof.
  intros H1 H2. inversion H2; subst; [apply handled_nil; by etrans|].
  eapply handled_cons; [by etrans|done..].
Qed.

Lemma handled_then st1 pkts st2 st3 : handled st1 pkts st2 -> only_read st2 st3 -> handled st1 pkts st3.
Proof.
  induction 1 as [st st' H|st st1 tr m pos pkt st2 rc pkts st' H H2 H3 H4 IH]; intros Hr; [apply handled_nil; by etrans|].
  eapply handled_cons; [done..|]. by apply IH.
Qed.

(** Processing a packet leaves the buffer alone. *)
Lemma process_buffer tr m pos len (st : state) st' rc :
  process tr m pos len st = Some (st', rc) -> queue_ok (isp st) ->
  queue_ok (isp st') /\ transport st' = transport st /\ check_packet (isp st') = check_packet (isp st) /\
  packet (isp st') = packet (isp st) /\ packet_len (isp st') = packet_len (isp st) /\ packet_size (isp st') = packet_size (isp st).
Proof.
  intros H Hq. destruct (process_packet_ends _ _ _ _ _ _ _ _ _ _ _ H Hq) as (l' & cs & (st1 & e & [(Hi & Ht & _) _] & Hl & ->) & _).
  cbn. rewrite Hi. by split_and!.
Qed.

(** What processing a packet may rely on; reading does not disturb it. *)
Context (keeps : state -> Prop) (keeps_read : forall st st', only_read st st' -> keeps st -> keeps st').

Definition takes (pkt : list Z) : Prop := forall tr m pos st,
  keeps st -> peek_n m pos (zlen pkt) = Some pkt -> exists st' rc, process tr m pos (zlen pkt) st = Some (st', rc) /\ keeps st'.

Definition usable (st : state) : Prop := keeps st /\ queue_ok (isp st) /\ check_packet (isp st) = None.

Lemma packet_size_spec (i : internal W) pptr bs c :
  check_packet i = None -> holds (packet i) pptr bs -> 0 <= pptr -> zlen (tlv 0x30 c) < 2 ^ 31 -> packet_len i < 2 ^ 31 ->
  packet_len i = zlen bs -> take (length bs) (tlv 0x30 c) `prefix_of` bs ->
  packet_size_at i pptr junk = Some (if packet_len i <? 1 + zlen (ber_length (zlen c)) then 0 else zlen (tlv 0x30 c)).
Proof.
  intros Hc Hh Hp Hsz Hlen Hl Hpre. unfold packet_size_at. rewrite Hc. pose proof (zlen_nonneg bs). pose proof (zlen_nonneg (tlv 0x30 c)).
  rewrite (asn_check_packet_holds _ _ c) ; [|done|lia|].
  - obind. rewrite wrap_small; [done|]. case_match; lia.
  - destruct Hh as (pre & post & Hm & ->). destruct Hpre as [more Hm']. exists [], (more ++ post). split; [|done].
    rewrite Hm, Nat2Z.id, drop_app_length. cbn [app]. rewrite Hl. unfold zlen. rewrite Nat2Z.id. rewrite Hm' at 1. by rewrite <- app_assoc.
Qed.

(** The state after the turn of the loop that has processed a packet of [n]
    octets with the result [rc]. *)
Definition turned (n rc : Z) (st : state) : state :=
  let e := s_snmp_errno (base (sp st)) in
  on_isp (fun i => set_packet_len (u64 (packet_len i - n)) i)
    (if negb (rc =? 0) && negb (e =? 0) then on_glob (SET_SNMP_ERROR e) st else st).

Lemma turned_read n rc (st : state) : only_read st (turned n rc st).
Proof.
  unfold turned. split; [by case_match|]. split; [eexists _, _, _; by case_match|].
  exists (base (sp st)). split; [|done]. destruct st as [[] ? ? ? ? ?]. by case_match.
Qed.

Lemma turned_isp n rc (st : state) : isp (turned n rc st) = set_packet_len (u64 (packet_len (isp st) - n)) (isp st).
Proof. unfold turned. by case_match. Qed.

Lemma turned_transport n rc (st : state) : transport (turned n rc st) = transport st.
Proof. unfold turned. by case_match. Qed.

(** One turn of the loop, with a whole message at [pptr]. *)
Lemma drain_turn fuel tr (st : state) pptr rc c more :
  usable st -> takes (tlv 0x30 c) -> 0 <= pptr -> holds (packet (isp st)) pptr (tlv 0x30 c ++ more) ->
  packet_len (isp st) = zlen (tlv 0x30 c ++ more) -> packet_len (isp st) < 2 ^ 31 ->
  exists st1 rc1, process tr (packet (isp st)) pptr (zlen (tlv 0x30 c)) st = Some (st1, rc1) /\
    drain v3_build v3_verify v3_parse (S fuel) loc tr junk st pptr rc =
      drain v3_build v3_verify v3_parse fuel loc tr junk (turned (zlen (tlv 0x30 c)) rc1 st1) (pptr + zlen (tlv 0x30 c)) rc1 /\
    usable (turned (zlen (tlv 0x30 c)) rc1 st1) /\ transport st1 = transport st /\
    packet (isp st1) = packet (isp st) /\ packet_len (isp st1) = packet_len (isp st) /\ packet_size (isp st1) = packet_size (isp st).
Proof.
  intros (Hk & Hq & Hc) Ht Hp Hh Hl Hlen. pose proof Hh as [Hpkt _]%holds_app. set (pkt := tlv 0x30 c) in *.
  destruct (Ht tr (packet (isp st)) pptr st Hk (holds_peek_n _ _ _ Hpkt)) as (st1 & rc1 & Hpr & Hk1).
  destruct (process_buffer _ _ _ _ _ _ _ Hpr Hq) as (Hq1 & Htr & Hc1 & Hb1 & Hl1 & Hs1).
  assert (Hu1 : usable (turned (zlen pkt) rc1 st1)).
  { split_and!; [by eapply keeps_read; [apply turned_read|]|by rewrite turned_isp|rewrite turned_isp; cbn; congruence]. }
  exists st1, rc1. split; [done|]. split; [|by split].
  pose proof (zlen_tlv 0x30 c) as Hz. fold pkt in Hz. pose proof (zlen_nonneg more). pose proof (zlen_nonneg c).
  pose proof (zlen_nonneg (ber_length (zlen c))). rewrite zlen_app in Hl.
  cbn [drain]. rewrite (proj2 (Z.leb_gt _ _)) by lia.
  rewrite (packet_size_spec (isp st) pptr (pkt ++ more) c); try done; [|subst pkt; lia|by rewrite zlen_app|].
  2: { rewrite take_ge by (rewrite length_app; subst pkt; lia). by exists more. }
  obind. fold pkt. rewrite (proj2 (Z.ltb_ge (packet_len (isp st)) _)) by lia. unfold MAX_PACKET_LENGTH.
  rewrite (proj2 (Z.ltb_ge _ _)) by lia. rewrite (proj2 (Z.ltb_ge _ _)), (proj2 (Z.eqb_neq _ _)) by lia. cbn [orb].
  rewrite Hpr. obind. done.
Qed.

(** The loop over the packets. *)
Lemma drain_handled tr rest : unfinished rest -> forall msgs fuel (st : state) pptr rc,
  usable st -> Forall message msgs -> Forall takes msgs -> 0 <= pptr ->
  holds (packet (isp st)) pptr (concat msgs ++ rest) -> packet_len (isp st) = zlen (concat msgs ++ rest) ->
  packet_len (isp st) < 2 ^ 31 -> (length (concat msgs ++ rest) < fuel)%nat ->
  exists st' rc', handled st msgs st' /\ usable st' /\ transport st' = transport st /\
    packet (isp st') = packet (isp st) /\ packet_len (isp st') = zlen rest /\ packet_size (isp st') = packet_size (isp st) /\
    drain v3_build v3_verify v3_parse fuel loc tr junk st pptr rc =
      Some (if (pptr + zlen (concat msgs) =? 0) && (0 <? zlen rest) then Waiting st' else Drained st' (pptr + zlen (concat msgs)) rc').
Proof.
  intros (c & k & Hsz & Hk & Hrest). induction msgs as [|pkt msgs IH]; intros fuel st pptr rc Hu Hm Ht Hp Hh Hl Hlen Hf.
  - cbn [concat app] in *. exists st, rc. split_and!; try done; [by apply handled_nil|]. destruct fuel as [|fuel]; [lia|].
    change (zlen []) with 0. rewrite Z.add_0_r. cbn [drain]. pose proof (zlen_nonneg rest). destruct (Z.leb_spec (packet_len (isp st)) 0) as [Hz|Hz].
    { rewrite (proj2 (Z.ltb_ge _ _)) by lia. by rewrite andb_false_r. }
    rewrite (packet_size_spec (isp st) pptr rest c); try done.
    2: apply Hu.
    2: { subst rest. by rewrite length_take, <- firstn_firstn, firstn_all. }
    obind. rewrite (proj2 (Z.ltb_lt 0 (zlen rest))), andb_true_r by lia.
    assert (Hlt : packet_len (isp st) < zlen (tlv 0x30 c)) by (rewrite Hl; subst rest; unfold zlen; rewrite length_take; lia).
    destruct (_ <? 1 + _) eqn:Hd.
    + change (MAX_PACKET_LENGTH <? 0) with false. change (0 =? 0) with true. rewrite orb_true_r. cbv iota.
      by destruct (pptr =? 0).
    + rewrite (proj2 (Z.ltb_lt _ _) Hlt). unfold MAX_PACKET_LENGTH. rewrite (proj2 (Z.ltb_ge _ _)) by lia. cbn [orb].
      by destruct (pptr =? 0).
  - apply list.Forall_cons in Hm as [(c' & -> & Hsz') Hm]. apply list.Forall_cons in Ht as [Ht1 Ht].
    destruct fuel as [|fuel]; [lia|]. cbn [concat] in *. rewrite <- app_assoc in *.
    destruct (drain_turn fuel tr st pptr rc c' (concat msgs ++ rest) Hu Ht1 Hp Hh Hl Hlen)
      as (st1 & rc1 & Hpr & Hd & Hu1 & Htr & Hb & Hl1 & Hs). set (n := zlen (tlv 0x30 c')) in *.
    pose proof (holds_app _ _ _ _ Hh) as [Hpkt Hmore]. fold (zlen (tlv 0x30 c')) in Hmore. fold n in Hmore.
    pose proof (zlen_nonneg (concat msgs ++ rest)). pose proof (zlen_nonneg (tlv 0x30 c')). fold n in H0.
    pose proof (zlen_tlv 0x30 c') as Hz. fold n in Hz. pose proof (zlen_nonneg c'). pose proof (zlen_nonneg (ber_length (zlen c'))).
    rewrite zlen_app in Hl. fold n in Hl.
    destruct (IH fuel (turned n rc1 st1) (pptr + n) rc1) as (st' & rc' & G1 & G2 & G3 & G4 & G5 & G6 & G7); try done; [lia|..].
    { rewrite turned_isp. cbn. by rewrite Hb. }
    { rewrite turned_isp. cbn. rewrite Hl1, Hl, wrap_small; lia. }
    { rewrite turned_isp. cbn. rewrite Hl1, Hl, wrap_small; lia. }
    { rewrite length_app in Hf. unfold zlen in *. lia. }
    exists st', rc'. rewrite turned_isp in *. rewrite turned_transport in *. cbn in G4, G6. split_and!; try congruence; try done.
    + eapply handled_cons; [reflexivity|by apply holds_peek_n|exact Hpr|]. eapply handled_read; [apply turned_read|done].
    + rewrite Hd, G7. unfold n. by rewrite zlen_app, Z.add_assoc.
Qed.

(** ** The buffer *)

(** The buffer of the session holds [bs]; the null pointer holds nothing. *)
Definition buffered (i : internal W) (bs : list Z) : Prop :=
  if decide (packet i = []) then bs = []
  else packet_len i = zlen bs /\ holds (packet i) 0 bs /\ zlen (packet i) = packet_size i /\ packet_size i < 2 ^ 63.

Lemma stream_buffer_spec L (i : internal W) bs :
  grows L -> 2 ^ 32 <= L -> buffered i bs -> zlen bs < 2 ^ 31 ->
  exists b n, stream_buffer i = Some (set_packet b (zlen bs) n i, b, zlen bs, n - zlen bs) /\
    holds b 0 bs /\ zlen b = n /\ n < 2 ^ 63 /\ zlen bs + 65536 <= n.
Proof.
  intros HG HL Hb Hlen. unfold buffered, stream_buffer in *. pose proof (zlen_nonneg bs). destruct (packet i) as [|x m] eqn:Hp; cbn [decide] in Hb.
  - rewrite decide_True in Hb by done. subst bs. destruct (malloc_total L 65536 HG) as (b & -> & Hz); [lia|]. obind.
    exists b, 65536. split_and!; [done|by exists [], b|done|lia|done].
  - rewrite decide_False in Hb by done. destruct Hb as (Hl & Hh & Hs & Hs63). set (p := x :: m) in *.
    pose proof (holds_range _ _ _ Hh) as Hr. fold (zlen bs) (zlen p) in Hr. rewrite Hl.
    rewrite (wrap_small 64 (zlen bs + 65536)) by lia. destruct (Z.ltb_spec (packet_size i) (zlen bs + 65536)) as [Hlt|Hge].
    + destruct (HG p (zlen bs + 65536)) as [b Hb]; [lia|]. rewrite Hb. obind.
      pose proof (realloc_size _ _ _ Hb) as [Hz ?]. pose proof (realloc_keeps _ _ _ Hb ltac:(lia)) as Hk.
      exists b, (zlen bs + 65536). split_and!; [do 3 f_equal; lia| |done|lia|lia].
      destruct Hh as (pre & post & Hm & Hpre). destruct pre; [|done]. cbn [app] in Hm.
      exists [], (post ++ drop (length p) b). split; [|done]. cbn [app]. rewrite app_assoc, <- Hm. rewrite <- Hk at 1. by rewrite take_drop.
    + exists p, (packet_size i). split_and!; [|done|done|lia|lia].
      rewrite wrap_small by lia. do 4 f_equal. rewrite <- Hl. subst p. rewrite <- Hp. by destruct i.
Qed.

Lemma keep_rest_spec tr (st : state) pptr rc rest :
  unfinished rest -> packet_len (isp st) = zlen rest -> holds (packet (isp st)) pptr rest ->
  zlen (packet (isp st)) = packet_size (isp st) -> packet_size (isp st) < 2 ^ 63 ->
  exists b n s, keep_rest tr st pptr rc = Some (on_isp (set_packet b n s) st, rc) /\
    buffered (set_packet b n s (isp st)) rest.
Proof.
  intros (c & k & Hsz & Hk & Hrest) Hl Hh Hs Hs63. unfold keep_rest. pose proof (zlen_nonneg rest).
  assert (Hlt : zlen rest < zlen (tlv 0x30 c)) by (subst rest; unfold zlen; rewrite length_take; lia).
  unfold MAXIMUM_PACKET_SIZE. rewrite (proj2 (Z.leb_gt _ _)) by lia. rewrite Hl.
  destruct (Z.eqb_spec (zlen rest) 0) as [Hz|Hz].
  { exists [], 0, 0. split; [done|]. unfold buffered. cbn. unfold zlen in Hz. by destruct rest. }
  pose proof (holds_range _ _ _ Hh) as Hr. fold (zlen rest) (zlen (packet (isp st))) in Hr.
  pose proof (holds_peek_n _ _ _ Hh) as Hpk. fold (zlen rest) in Hpk. rewrite Hpk. obind. rewrite poke_n_patch by (unfold zlen in *; lia). obind.
  set (b := patch (packet (isp st)) 0 rest). assert (Hhb : holds b 0 rest) by (apply patch_holds; unfold zlen in *; lia).
  assert (Hzb : zlen b = zlen (packet (isp st))) by (apply zlen_patch_front; unfold zlen in *; lia).
  assert (Hne : forall m, holds m 0 rest -> m <> []).
  { intros m Hm ->. apply holds_range in Hm. unfold zlen in *. cbn in Hm. lia. }
  destruct (realloc b (zlen rest)) as [b'|] eqn:Hre; do 3 eexists; (split; [reflexivity|]); unfold buffered; cbn [packet packet_len packet_size set_packet].
  - pose proof (realloc_size _ _ _ Hre) as [Hz' _]. apply realloc_shrinks in Hre; [|lia].
    assert (b' = rest) as ->.
    { rewrite Hre. subst b. unfold patch, zlen. rewrite Nat2Z.id. change (take (Z.to_nat 0) (packet (isp st))) with (@nil Z).
      cbn [app]. apply take_app_length. }
    rewrite decide_False by (apply Hne; by exists [], []; rewrite app_nil_r).
    split_and!; [done|exists [], []; by rewrite app_nil_r|done|lia].
  - rewrite decide_False by by apply Hne. split_and!; [done|done|lia|lia].
Qed.

Lemma holds_join m p bs cs : holds m p bs -> holds m (p + zlen bs) cs -> holds m p (bs ++ cs).
Proof.
  intros (pre & post & -> & ->) (pre' & post' & Hm & Hp). exists pre, post'. split; [|done].
  assert (Hl : length pre' = length (pre ++ bs)) by (rewrite length_app; unfold zlen in *; lia).
  rewrite app_assoc in Hm. apply app_inj_1 in Hm as [<- ->]; [|done]. by rewrite <- !app_assoc.
Qed.

Lemma only_read_usable (st st' : state) : only_read st st' -> usable st -> usable st'.
Proof.
  intros H (Hk & Hq & Hc). pose proof H as (_ & (b & n & s & Hi) & _). unfold usable, queue_ok. rewrite Hi. cbn.
  split_and!; [by eapply keeps_read|done|done].
Qed.

Lemma only_read_buffer b n s (st : state) : only_read st (on_isp (set_packet b n s) st).
Proof. split; [done|]. split; [by do 3 eexists|]. exists (base (sp st)). split; [by destruct st as [[]]|done]. Qed.

(** The data has arrived in the buffer. *)
Lemma read_stream_handled tr (st : state) msgs rest :
  usable st -> Forall message msgs -> Forall takes msgs -> unfinished rest ->
  holds (packet (isp st)) 0 (concat msgs ++ rest) -> packet_len (isp st) = zlen (concat msgs ++ rest) ->
  packet_len (isp st) < 2 ^ 31 -> zlen (packet (isp st)) = packet_size (isp st) -> packet_size (isp st) < 2 ^ 63 ->
  packet (isp st) <> [] ->
  exists st' rc, read_stream v3_build v3_verify v3_parse loc tr junk st = Some (st', rc) /\
    handled st msgs st' /\ usable st' /\ transport st' = transport st /\ buffered (isp st') rest.
Proof.
  intros Hu Hm Ht Hr Hh Hl Hlen Hs Hs63 Hne. unfold read_stream.
  destruct (drain_handled tr rest Hr msgs (S (Z.to_nat (packet_len (isp st)))) st 0 0 Hu Hm Ht ltac:(lia) Hh Hl Hlen)
    as (st1 & rc & G1 & G2 & G3 & G4 & G5 & G6 & ->); [unfold zlen in *; lia|]. obind. rewrite Z.add_0_l.
  pose proof (holds_app _ _ _ _ Hh) as [_ Hh1]. fold (zlen (concat msgs)) in Hh1. rewrite Z.add_0_l, <- G4 in Hh1.
  destruct ((zlen (concat msgs) =? 0) && (0 <? zlen rest)) eqn:Hw.
  - exists st1, 0. split_and!; try done. apply andb_prop in Hw as [Hz _]. unfold buffered.
    rewrite decide_False by congruence. replace (zlen (concat msgs)) with 0 in Hh1 by lia. split_and!; [done|done|congruence|congruence].
  - destruct (keep_rest_spec tr st1 (zlen (concat msgs)) rc rest) as (b & n & s & -> & Hb); [done..|congruence|congruence|].
    do 2 eexists. split; [reflexivity|]. pose proof (only_read_buffer b n s st1) as Ho.
    split_and!; [by eapply handled_then|by eapply only_read_usable|done|exact Hb].
Qed.

(** C31: a stream is cut into its messages, whichever way the bytes come.  When
    [bs] is what the last reads have left over and [chunk] is what arrives now,
    the read processes exactly the messages the two complete, one by one and in
    the order of the stream, and keeps what is still unfinished for the next
    read. *)
Theorem stream_read_handles L (st : state) tr bs chunk e w msgs rest :
  grows L -> 2 ^ 32 <= L -> transport st = Some tr -> 0 <= sock tr ->
  has_flag (t_flags tr) NETSNMP_TRANSPORT_FLAG_STREAM = true -> has_flag (t_flags tr) NETSNMP_TRANSPORT_FLAG_LISTEN = false ->
  usable st -> buffered (isp st) bs ->
  (forall room, 65536 <= room -> transport_recv tr room (world st) = (mkrecv (zlen chunk) chunk e (t_flags tr), w)) ->
  0 < zlen chunk -> bs ++ chunk = concat msgs ++ rest -> zlen (bs ++ chunk) < 2 ^ 31 ->
  Forall message msgs -> Forall takes msgs -> unfinished rest ->
  exists st' rc, _sess_read v3_build v3_verify v3_parse accept_session loc junk true st = Some (st', rc) /\
    handled st msgs st' /\ usable st' /\ transport st' = Some tr /\ buffered (isp st') rest.
Proof.
  intros HG HL Htr Hsock Hst Hli Hu Hb Hrecv Hpos Heq Hlen Hm Ht Hr. unfold _sess_read. rewrite Htr.
  rewrite (proj2 (Z.ltb_ge _ _) Hsock). cbn [negb]. rewrite Hli, Hst. set (st1 := on_sp (on_base clear_errno) st).
  rewrite zlen_app in Hlen. pose proof (zlen_nonneg bs).
  destruct (stream_buffer_spec L (isp st1) bs HG HL Hb ltac:(lia)) as (b & n & -> & Hh & Hz & Hn & Hroom).
  change (world st1) with (world st). pose proof (Hrecv (n - zlen bs) ltac:(lia)) as Hrv. rewrite Hrv.
  pose proof (recv_fits _ _ _ _ _ Hrv) as [Hfit _]. cbn [r_length r_data r_errno r_flags] in *. cbn [t_flags sock msgMaxSize].
  rewrite Hst. replace (mktransport (sock tr) (t_flags tr) (msgMaxSize tr)) with tr by (by destruct tr).
  cbn [negb]. rewrite andb_false_r, (proj2 (Z.eqb_neq (zlen chunk) 0)), (proj2 (Z.leb_gt _ _)) by lia. cbn [andb].
  rewrite poke_n_patch by (unfold zlen in *; lia). obind. set (b' := patch b (zlen bs) chunk).
  set (st2 := on_isp _ _).
  assert (Hzb : zlen b' = n) by (subst b'; rewrite zlen_patch; unfold zlen in *; lia).
  assert (Hi : isp st2 = set_packet b' (zlen (bs ++ chunk)) n (isp st)).
  { subst st2. cbn. rewrite zlen_app, wrap_small by (pose proof (zlen_nonneg chunk); lia). done. }
  assert (Hh' : holds b' 0 (bs ++ chunk)).
  { apply holds_join; [apply holds_patch_below; done || lia|apply patch_holds; unfold zlen in *; lia]. }
  assert (Hrd : only_read st st2).
  { split; [done|]. split; [do 3 eexists; exact Hi|]. exists (clear_errno (base (sp st))). done. }
  assert (Hb' : packet (isp st2) = b' /\ packet_len (isp st2) = zlen (bs ++ chunk) /\ packet_size (isp st2) = n) by (by rewrite Hi).
  destruct Hb' as (B1 & B2 & B3).
  destruct (read_stream_handled tr st2 msgs rest) as (st' & rc & Hread & G1 & G2 & G3 & G4);
    rewrite ?B1, ?B2, ?B3, ?zlen_app in *; try done; try lia.
  - by eapply only_read_usable.
  - by rewrite <- Heq.
  - by rewrite <- zlen_app, Heq, zlen_app.
  - intros ->. unfold zlen in *. cbn in Hzb. lia.
  - exists st', rc. split; [exact Hread|]. split_and!; [by eapply handled_read|done|by rewrite G3|done].
Qed.
End stream.

(** * A concrete stream *)

#[local] Existing Instance big_heap.
#[local] Existing Instance sample_world.

(** Three messages; the first has come in part, the last is still to come. *)
Definition sample_first : list Z := tlv 0x30 [1; 2; 3; 4; 5].
Definition sample_second : list Z := tlv 0x30 [6].
Definition sample_third : list Z := tlv 0x30 (replicate 300 7).
Definition sample_chunk : list Z := drop 3 sample_first ++ sample_second ++ take 2 sample_third.

#[local] Program Instance sample_reader : Reader Z := {|
  transport_recv tr room w :=
    (if zlen sample_chunk <=? room then mkrecv (zlen sample_chunk) sample_chunk 0 (t_flags tr)
     else mkrecv (Z.min room (-1)) [] 0 (t_flags tr), w);
  transport_close tr w := (mktransport (-1) (t_flags tr) (msgMaxSize tr), w)
|}.
Next Obligation.
  intros tr room w r w' [= <- _]. destruct (Z.leb_spec (zlen sample_chunk) room); cbn [r_length r_data]; (split; [lia|intros; done || lia]).
Qed.

(** A session of a subagent, say, that parses its packets with a hook: it numbers
    a PDU with the size of its packet. *)
Definition sample_hook (sess : session) (p : pdu) (m : list Z) (pos len : Z) : session * pdu * Z := (sess, set_reqid len p, 0).
Definition sample_stream : machine Z :=
  mkmachine sample_nsession (mkinternal [] None None (Some sample_hook) None None None None (take 3 sample_first) 3 3)
            (Some (mktransport 3 NETSNMP_TRANSPORT_FLAG_STREAM 0)) (sample_globals false) 10 [].

Definition sample_hooks (st : machine Z) : Prop :=
  hook_pre (isp st) = None /\ hook_parse (isp st) = Some sample_hook /\ hook_post (isp st) = None.

Lemma sample_hooks_read (st st' : machine Z) : only_read st st' -> sample_hooks st -> sample_hooks st'.
Proof. intros (_ & (b & n & s & Hi) & _). unfold sample_hooks. by rewrite Hi. Qed.

Lemma sample_hooks_take pkt : takes no_build no_verify no_parse sample_locals sample_hooks pkt.
Proof.
  intros tr m pos st (H1 & H2 & H3) _. unfold _sess_process_packet. rewrite H1. cbn [negb]. cbn [new_pdu sample_world].
  cbn [isp set_world]. rewrite H2. unfold sample_hook. obind. cbn [isp on_glob on_sp set_world]. rewrite H3. cbn [negb Z.eqb].
  assert (Hf : forall q : pdu, flags q = 0 \/ flags q = UCD_MSG_FLAG_TUNNELED -> has_flag (flags q) UCD_MSG_FLAG_RESPONSE_PDU = false)
    by (intros q [-> | ->]; done).
  rewrite Hf by (case_match; [by right|by left]). cbn [sp on_glob on_sp set_world].
  destruct (s_callback _); do 2 eexists; (split; [reflexivity|]); by split_and!.
Qed.

Lemma stream_read_handles_witness :
  exists st' rc, _sess_read no_build no_verify no_parse no_probe sample_locals 0 true sample_stream = Some (st', rc) /\
    handled no_build no_verify no_parse sample_locals sample_stream [sample_first; sample_second] st' /\
    usable sample_hooks st' /\ transport st' = Some (mktransport 3 NETSNMP_TRANSPORT_FLAG_STREAM 0) /\
    buffered (isp st') (take 2 sample_third).
Proof.
  apply (stream_read_handles no_build no_verify no_parse no_probe sample_locals 0 sample_hooks sample_hooks_read (2 ^ 62) sample_stream
    (mktransport 3 NETSNMP_TRANSPORT_FLAG_STREAM 0) (take 3 sample_first) sample_chunk 0 10).
  - apply big_heap_grows. by_decide.
  - by_decide.
  - reflexivity.
  - by_decide.
  - reflexivity.
  - reflexivity.
  - unfold usable, queue_ok, list_ok, sample_hooks. split_and!; reflexivity || apply NoDup_nil_2.
  - unfold buffered. cbn. split_and!; [reflexivity|exists [], []; split; reflexivity|reflexivity|by_decide].
  - intros room Hroom. cbn [transport_recv sample_reader]. rewrite (proj2 (Z.leb_le _ room)); [reflexivity|].
    change (zlen sample_chunk) with 9. lia.
  - by_decide.
  - reflexivity.
  - by_decide.
  - apply list.Forall_cons. split; [|apply list.Forall_singleton]; (eexists; split; [reflexivity|by_decide]).
  - apply list.Forall_cons. split; [|apply list.Forall_singleton]; apply sample_hooks_take.
  - exists (replicate 300 7), 2%nat. split; [by_decide|]. split; [by_decide|reflexivity].
Defined.
