(* ===== verification/Decimal.v ===== *)
(** Decimal representations of integers, as [printf] writes them and as the digit
    loops of the program read them. *)
From Stdlib Require Import ZArith Lia.
From stdpp Require Import list.
From S2P Require Import Prelude.

Definition digit (c : Z) : Prop := 48 <= c <= 57.

Definition read_digit (v c : Z) : Z := v * 10 + (c - 48).

(** The decimal representation of [n]: digits, none of them superfluous. *)
Definition decimal (ds : list Z) (n : Z) : Prop :=
  Forall digit ds /\ ds <> [] /\ fold_left read_digit ds 0 = n /\ (head ds = Some 48 -> ds = [48]).

Lemma decimal_digit n : 0 <= n < 10 -> decimal [48 + n] n.
Proof.
  intros Hn. split_and!; [apply list.Forall_singleton; unfold digit; lia|done|unfold read_digit; cbn; lia|]. cbn. by intros [= ->].
Qed.

Lemma decimal_snoc ds m r : decimal ds m -> 0 < m -> 0 <= r < 10 -> decimal (ds ++ [48 + r]) (m * 10 + r).
Proof.
  intros (Hd & Hne & Hv & Hz) Hm Hr. split_and!.
  - apply Forall_app. split; [done|]. apply list.Forall_singleton. unfold digit. lia.
  - by destruct ds.
  - rewrite fold_left_app, Hv. unfold read_digit. cbn. lia.
  - destruct ds as [|d ds]; [done|]. cbn in *. intros Hhd. specialize (Hz Hhd). injection Hz as -> ->.
    unfold read_digit in Hv. cbn in Hv. lia.
Qed.

Lemma decimal_head ds n : decimal ds n -> exists d rest, ds = d :: rest /\ digit d.
Proof. intros (Hd & Hne & _). destruct Hd as [|d rest Hd]; [done|]. by exists d, rest. Qed.

(** [%d] and [%u] of [printf]. *)
Fixpoint dec_loop (fuel : nat) (n : Z) : list Z :=
  match fuel with
  | O => []
  | S fuel => if n <? 10 then [48 + n] else dec_loop fuel (n / 10) ++ [48 + n mod 10]
  end.

Definition dec (n : Z) : list Z := dec_loop (S (S (Z.to_nat (Z.log2 n)))) n.
Definition zdec (n : Z) : list Z := if n <? 0 then 45 :: dec (- n) else dec n.

Lemma dec_loop_decimal k n : 0 <= n < 2 ^ Z.of_nat k -> decimal (dec_loop (S k) n) n.
Proof.
  revert n. induction k as [|k IH]; intros n Hn; cbn [dec_loop].
  - destruct (Z.ltb_spec n 10); [apply decimal_digit|]; cbn in Hn; lia.
  - destruct (Z.ltb_spec n 10); [apply decimal_digit; lia|].
    pose proof (Z.div_mod n 10 ltac:(lia)). pose proof (Z.mod_pos_bound n 10 ltac:(lia)). pose proof (Z.div_str_pos n 10 ltac:(lia)).
    assert (Hd : decimal (dec_loop (S k) (n / 10)) (n / 10)); [|by apply (decimal_snoc _ _ (n mod 10)) in Hd; [replace (n / 10 * 10 + n mod 10) with n in Hd by lia| |]].
    apply IH. split; [apply Z.div_pos; lia|]. rewrite Nat2Z.inj_succ, Z.pow_succ_r in Hn by lia. apply Z.div_lt_upper_bound; lia.
Qed.

Lemma log2_fuel n : 0 <= n -> 0 <= n < 2 ^ Z.of_nat (S (Z.to_nat (Z.log2 n))).
Proof.
  intros Hn. split; [done|]. rewrite Nat2Z.inj_succ, Z2Nat.id by apply Z.log2_nonneg.
  destruct (Z.eq_dec n 0) as [->|]; [done|]. apply Z.log2_spec. lia.
Qed.

Lemma dec_decimal n : 0 <= n -> decimal (dec n) n.
Proof. intros Hn. by apply dec_loop_decimal, log2_fuel. Qed.

(** How many digits there are. *)
Lemma length_dec_loop k : forall n t, 0 <= n < 2 ^ Z.of_nat k -> 10 ^ Z.of_nat t <= n < 10 ^ (Z.of_nat t + 1) \/ (t = O /\ n < 10) ->
  length (dec_loop (S k) n) = S t.
Proof.
  induction k as [|k IH]; intros n t Hn Ht; cbn [dec_loop].
  - cbn in Hn. rewrite (proj2 (Z.ltb_lt _ _)) by lia. destruct t as [|t]; [done|]. destruct Ht as [[Ht _]|[? _]]; [|done].
    pose proof (Z.pow_pos_nonneg 10 (Z.of_nat (S t)) ltac:(lia) ltac:(lia)). lia.
  - destruct t as [|t]; [rewrite (proj2 (Z.ltb_lt _ _)); [done|cbn in Ht; lia]|].
    destruct Ht as [Ht|[? _]]; [|done]. rewrite Nat2Z.inj_succ, Z.pow_succ_r, Z.add_1_r, Z.pow_succ_r in Ht by lia.
    pose proof (Z.pow_pos_nonneg 10 (Z.of_nat t) ltac:(lia) ltac:(lia)). rewrite (proj2 (Z.ltb_ge _ _)) by lia.
    change (length (dec_loop (S k) (n / 10) ++ [48 + n mod 10]) = S (S t)). rewrite length_app, (IH (n / 10) t); [cbn; lia| |left; rewrite Z.add_1_r; split; [apply Z.div_le_lower_bound; lia|apply Z.div_lt_upper_bound; lia]].
    split; [apply Z.div_pos; lia|]. rewrite Nat2Z.inj_succ, Z.pow_succ_r in Hn by lia. apply Z.div_lt_upper_bound; lia.
Qed.

Lemma length_dec n t : 0 <= n -> 10 ^ Z.of_nat t <= n < 10 ^ (Z.of_nat t + 1) \/ (t = O /\ n < 10) -> length (dec n) = S t.
Proof. intros Hn. by apply length_dec_loop, log2_fuel. Qed.

Example dec_ex : (dec 0, dec 10, zdec (-905)) = ([48], [49; 48], [45; 57; 48; 53]).
Proof. reflexivity. Qed.
