(* ===== verification/Int64.v ===== *)
(** 64-bit integers as pairs of 32-bit halves: [snmplib/int64.c].  The fields of
    a [struct counter64] are [u_long]s; the functions keep 32 bits in each. *)
From Stdlib Require Import ZArith Lia.
From S2P Require Import Prelude Asn1Defs Ber Asn1ParseWide.

Definition I64CHARSZ : Z := 21.

(** ** Arithmetic *)

Definition divBy10 (u64_ : counter64) : counter64 * Z :=
  let ulT := Z.land (Z.shiftr (high u64_) 16) 0xffff in
  let ulQ := ulT / 10 in
  let ulR := ulT mod 10 in
  let h := u64 (Z.shiftl ulQ 16) in
  let ulT := Z.land (high u64_) 0xffff in
  let ulT := u64 (ulT + u64 (Z.shiftl ulR 16)) in
  let ulQ := ulT / 10 in
  let ulR := ulT mod 10 in
  let h := Z.lor h ulQ in
  let ulT := u64 (Z.land (Z.shiftr (low u64_) 16) 0xffff + u64 (Z.shiftl ulR 16)) in
  let ulQ := ulT / 10 in
  let ulR := ulT mod 10 in
  let l := u64 (Z.shiftl ulQ 16) in
  let ulT := Z.land (low u64_) 0xffff in
  let ulT := u64 (ulT + u64 (Z.shiftl ulR 16)) in
  let ulQ := ulT / 10 in
  let ulR := ulT mod 10 in
  let l := Z.lor l ulQ in
  (Counter64 h l, u32 ulR).

Definition multBy10 (u64_ : counter64) : counter64 :=
  let ulT := Z.land (low u64_) 0xffff in
  let ulP := u64 (ulT * 10) in
  let ulK := Z.shiftr ulP 16 in
  let l := Z.land ulP 0xffff in
  let ulT := Z.land (Z.shiftr (low u64_) 16) 0xffff in
  let ulP := u64 (ulT * 10 + ulK) in
  let ulK := Z.shiftr ulP 16 in
  let l := Z.lor (u64 (Z.shiftl (Z.land ulP 0xffff) 16)) l in
  let ulT := Z.land (high u64_) 0xffff in
  let ulP := u64 (ulT * 10 + ulK) in
  let ulK := Z.shiftr ulP 16 in
  let h := Z.land ulP 0xffff in
  let ulT := Z.land (Z.shiftr (high u64_) 16) 0xffff in
  let ulP := u64 (ulT * 10 + ulK) in
  let h := Z.lor (u64 (Z.shiftl (Z.land ulP 0xffff) 16)) h in
  Counter64 h l.

(** The argument is an [unsigned int]. *)
Definition incrByU32 (pu64 : counter64) (n : Z) : counter64 :=
  let tmp := u32 (low pu64) in
  let l := u32 (tmp + n) in
  if l <? tmp then Counter64 (u32 (high pu64 + 1)) l else Counter64 (high pu64) l.

Definition incrByU16 (pu64 : counter64) (u16 : Z) : counter64 := incrByU32 pu64 u16.

Definition u64Subtract (pu64one pu64two : counter64) : counter64 :=
  let carry := if low pu64one <? low pu64two then 1 else 0 in
  Counter64 (u32 (high pu64one - high pu64two - carry)) (u32 (low pu64one - low pu64two)).

(** [*pu64out] after the call. *)
Definition u64Incr (pu64out pu64one : counter64) : counter64 :=
  incrByU32 (Counter64 (u32 (high pu64out + high pu64one)) (low pu64out)) (u32 (low pu64one)).

Definition u64UpdateCounter (pu64out pu64one pu64two : counter64) : counter64 :=
  u64Incr pu64out (u64Subtract pu64one pu64two).

Definition u64Copy (pu64two : counter64) : counter64 := pu64two.

Definition zeroU64 : counter64 := Counter64 0 0.

Definition isZeroU64 (pu64 : counter64) : bool := (low pu64 =? 0) && (high pu64 =? 0).

(** ** Counters that may have wrapped *)

(** [*new_val] after the call, and the result. *)
Definition netsnmp_c64_check_for_32bit_wrap (old_val new_val : option counter64) (adjust : bool)
  : option counter64 * Z :=
  match old_val, new_val with
  | Some o, Some n =>
    if (low o <=? low n) && (high n =? high o) then (Some n, 0)
    else if high n =? high o then (Some (if adjust then Counter64 (u32 (high n + 1)) (low n) else n), 32)
    else if high n =? u32 (high o + 1) then (Some n, 64)
    else (Some n, -2)
  | _, _ => (new_val, -1)
  end.

(** [*prev_val], [*new_val] and [*need_wrap_check] (which may be null) after the
    call, and the result; the objects are not null, as the code takes for
    granted.  The assertion only logs. *)
Definition netsnmp_c64_check32_and_update (prev_val new_val old_prev_val : counter64) (need_wrap_check : option Z)
  : counter64 * counter64 * option Z * Z :=
  let '(new_val, rc) :=
    if match need_wrap_check with None => true | Some x => negb (0 =? x) end
    then let '(n, rc) := netsnmp_c64_check_for_32bit_wrap (Some old_prev_val) (Some new_val) true in (default new_val n, rc)
    else (new_val, 0) in
  if rc <? 0 then (prev_val, new_val, need_wrap_check, -1)
  else
    let prev_val := u64UpdateCounter prev_val new_val old_prev_val in
    if 32 =? rc then (prev_val, Counter64 0 (low new_val), need_wrap_check, 0)
    else if 64 =? rc then
      if negb (low prev_val =? low new_val) || negb (high prev_val =? high new_val)
      then (prev_val, new_val, need_wrap_check, -2)
      else (prev_val, new_val, (fun _ => 0) <$> need_wrap_check, 0)
    else (prev_val, new_val, need_wrap_check, 0).

(** ** Text *)

(** The characters in [aRes] before the terminating null, from the place [j]
    is at when the loop ends; [None] if it does not end in time. *)
Fixpoint print_loop (turns : nat) (u64a : counter64) (chars : list Z) : option (list Z) :=
  match turns with
  | O => None
  | S turns =>
    let '(u64b, u) := divBy10 u64a in
    let chars := u8 (48 + u) :: chars in
    if isZeroU64 u64b then Some chars else print_loop turns u64b chars
  end.

(** [buf] after the call, with the string put at [pos]. *)
Definition printU64 (buf : list Z) (pos : Z) (pu64 : counter64) : option (list Z) :=
  chars ← print_loop (Z.to_nat I64CHARSZ) pu64 []; poke_n buf pos (chars ++ [0]).

Definition complement (c : counter64) : counter64 :=
  incrByU32 (Counter64 (u32 (Z.lnot (high c))) (u32 (Z.lnot (low c)))) 1.

Definition printI64 (buf : list Z) (pu64 : counter64) : option (list Z) :=
  if negb (Z.land (high pu64) 0x80000000 =? 0)
  then buf ← poke buf 0 45; printU64 buf 1 (complement pu64)
  else printU64 buf 0 pu64.

(** [isdigit] in the C locale. *)
Definition isdigit (c : Z) : bool := (48 <=? c) && (c <=? 57).

(** The [while] loop: [str] are the cells from the pointer on. *)
Fixpoint read_loop (str : list Z) (i64 : counter64) (ok : Z) : option (counter64 * Z) :=
  match str with
  | [] => None
  | c :: str =>
    if negb (c =? 0) && isdigit c then read_loop str (incrByU16 (multBy10 i64) (c - 48)) 1 else Some (i64, ok)
  end.

Definition read64 (str : list Z) : option (counter64 * Z) :=
  c ← peek str 0;
  if c =? 45 then
    '(i64, ok) ← read_loop (drop 1 str) zeroU64 0; Some (complement i64, ok)
  else read_loop str zeroU64 0.

Example print_read : printU64 (replicate 22 9) 0 (Counter64 0x12345678 0x9abcdef0) =
  Some ([49; 51; 49; 49; 55; 54; 56; 52; 54; 55; 52; 54; 51; 55; 57; 48; 51; 50; 48; 0] ++ [9; 9]).
Proof. reflexivity. Qed.
