(* ===== verification/Int64Props.v ===== *)
(** The 64-bit arithmetic is arithmetic modulo [2 ^ 64], what is printed is read
    back, and counters of 32 bits are extended over their wraps. *)
From Stdlib Require Import ZArith Lia.
From S2P Require Import Prelude Decimal Asn1Defs Ber Asn1ParseWide Asn1BuildProps Int64.

(** ** Halves and quarters *)

Lemma low16 x : Z.land x 0xffff = x mod 65536.
Proof. apply (land_ones_mod x 16). lia. Qed.

Lemma quarter x : 0 <= x < 2 ^ 32 -> 0 <= x / 65536 < 65536.
Proof. intros. split; [apply Z.div_pos; lia|apply Z.div_lt_upper_bound; lia]. Qed.

Lemma high16 x : 0 <= x < 2 ^ 32 -> Z.land (Z.shiftr x 16) 0xffff = x / 65536.
Proof. intros H. rewrite low16, Z.shiftr_div_pow2 by lia. change (2 ^ 16) with 65536. by apply Z.mod_small, quarter. Qed.

Lemma join16 a b : 0 <= a < 65536 -> 0 <= b < 65536 -> Z.lor (u64 (Z.shiftl a 16)) b = a * 65536 + b.
Proof.
  intros Ha Hb. rewrite Z.shiftl_mul_pow2 by lia. change (2 ^ 16) with 65536.
  rewrite wrap_small by lia. by apply (lor_disjoint a b 16).
Qed.

Lemma split64_join h l : 0 <= h < 2 ^ 32 -> 0 <= l < 2 ^ 32 -> Counter64 h l = split64 (h * 2 ^ 32 + l).
Proof. intros Hh Hl. symmetry. by apply (split64_cval (Counter64 h l)). Qed.

Lemma cval_range c : c64_ok c -> 0 <= cval c < 2 ^ 64.
Proof. intros [Hh Hl]. unfold cval. lia. Qed.

Lemma split64_eq x y : x mod 2 ^ 64 = y mod 2 ^ 64 -> split64 x = split64 y.
Proof. intros H. by rewrite <- split64_mod, H, split64_mod. Qed.

(** A step of the long division: [r] is what the digits above have left. *)
Lemma div_step a r : 0 <= a < 65536 -> 0 <= r < 10 ->
  let t := u64 (a + u64 (Z.shiftl r 16)) in
  exists q r', t / 10 = q /\ t mod 10 = r' /\ r * 65536 + a = 10 * q + r' /\ 0 <= q < 65536 /\ 0 <= r' < 10.
Proof.
  intros Ha Hr t. assert (Ht : t = r * 65536 + a).
  { subst t. rewrite Z.shiftl_mul_pow2 by lia. change (2 ^ 16) with 65536. rewrite !wrap_small by (rewrite ?wrap_small; lia). lia. }
  exists (t / 10), (t mod 10). rewrite Ht. pose proof (Z.div_mod (r * 65536 + a) 10). pose proof (Z.mod_pos_bound (r * 65536 + a) 10).
  split_and!; lia.
Qed.

Lemma divBy10_spec c : c64_ok c -> divBy10 c = (split64 (cval c / 10), cval c mod 10).
Proof.
  intros [Hh Hl]. unfold divBy10. rewrite !(high16 (high c)), !(high16 (low c)), !low16 by done.
  pose proof (Z.mod_pos_bound (high c) 65536 ltac:(lia)). pose proof (Z.mod_pos_bound (low c) 65536 ltac:(lia)).
  set (a3 := high c / 65536). set (a2 := high c mod 65536). set (a1 := low c / 65536). set (a0 := low c mod 65536).
  assert (Ha3 : 0 <= a3 < 65536) by by apply quarter. assert (Ha1 : 0 <= a1 < 65536) by by apply quarter.
  pose proof (Z.div_mod a3 10 ltac:(lia)) as H3. pose proof (Z.mod_pos_bound a3 10 ltac:(lia)) as Hr3.
  set (q3 := a3 / 10) in *. set (r3 := a3 mod 10) in *.
  destruct (div_step a2 r3) as (q2 & r2 & -> & -> & H2 & Hq2 & Hr2); [done..|].
  destruct (div_step a1 r2) as (q1 & r1 & -> & -> & H1 & Hq1 & Hr1); [done..|].
  destruct (div_step a0 r1) as (q0 & r0 & -> & -> & H0' & Hq0 & Hr0); [done..|].
  rewrite !join16 by lia. rewrite wrap_small by lia.
  assert (Hc : cval c = 10 * ((q3 * 65536 + q2) * 2 ^ 32 + (q1 * 65536 + q0)) + r0).
  { unfold cval. pose proof (Z.div_mod (high c) 65536 ltac:(lia)). pose proof (Z.div_mod (low c) 65536 ltac:(lia)).
    fold a3 a2 in H4. fold a1 a0 in H5. lia. }
  rewrite split64_join by lia. f_equal.
  - f_equal. apply (Z.div_unique _ _ _ r0); [lia|done].
  - apply (Z.mod_unique _ _ ((q3 * 65536 + q2) * 2 ^ 32 + (q1 * 65536 + q0))); [lia|done].
Qed.

(** A step of the long multiplication. *)
Lemma mul_step a k : 0 <= a < 65536 -> 0 <= k < 10 ->
  let p := u64 (a * 10 + k) in
  exists d k', Z.land p 0xffff = d /\ Z.shiftr p 16 = k' /\ a * 10 + k = k' * 65536 + d /\ 0 <= d < 65536 /\ 0 <= k' < 10.
Proof.
  intros Ha Hk p. assert (Hp : p = a * 10 + k) by (subst p; rewrite wrap_small; lia). rewrite Hp.
  exists ((a * 10 + k) mod 65536), ((a * 10 + k) / 65536). rewrite low16, Z.shiftr_div_pow2 by lia.
  pose proof (Z.div_mod (a * 10 + k) 65536). pose proof (Z.mod_pos_bound (a * 10 + k) 65536). split_and!; done || lia.
Qed.

Lemma multBy10_spec c : c64_ok c -> multBy10 c = split64 (cval c * 10).
Proof.
  intros [Hh Hl]. unfold multBy10. rewrite !(high16 (high c)), !(high16 (low c)), !(low16 (high c)), !(low16 (low c)) by done.
  pose proof (Z.mod_pos_bound (high c) 65536 ltac:(lia)). pose proof (Z.mod_pos_bound (low c) 65536 ltac:(lia)).
  set (a3 := high c / 65536). set (a2 := high c mod 65536). set (a1 := low c / 65536). set (a0 := low c mod 65536).
  assert (Ha3 : 0 <= a3 < 65536) by by apply quarter. assert (Ha1 : 0 <= a1 < 65536) by by apply quarter.
  rewrite <- (Z.add_0_r (a0 * 10)).
  destruct (mul_step a0 0) as (d0 & k0 & -> & -> & H0' & Hd0 & Hk0); [done..|].
  destruct (mul_step a1 k0) as (d1 & k1 & -> & -> & H1 & Hd1 & Hk1); [done..|].
  destruct (mul_step a2 k1) as (d2 & k2 & -> & -> & H2 & Hd2 & Hk2); [done..|].
  destruct (mul_step a3 k2) as (d3 & k3 & -> & _ & H3 & Hd3 & Hk3); [done..|].
  rewrite !join16 by lia. rewrite split64_join by lia. apply split64_eq.
  assert (Hc : cval c * 10 = (d3 * 65536 + d2) * 2 ^ 32 + (d1 * 65536 + d0) + k3 * 2 ^ 64).
  { unfold cval. pose proof (Z.div_mod (high c) 65536 ltac:(lia)). pose proof (Z.div_mod (low c) 65536 ltac:(lia)).
    fold a3 a2 in H4. fold a1 a0 in H5. lia. }
  by rewrite Hc, Z.mod_add by lia.
Qed.

Lemma incrByU32_spec c n : c64_ok c -> 0 <= n < 2 ^ 32 -> incrByU32 c n = split64 (cval c + n).
Proof.
  intros [Hh Hl] Hn. unfold incrByU32, cval. rewrite (wrap_small 32 (low c)) by done.
  destruct (Z.lt_ge_cases (low c + n) (2 ^ 32)) as [Hlt|Hge].
  - rewrite (wrap_small 32 (low c + n)) by lia. rewrite (proj2 (Z.ltb_ge _ _)) by lia. rewrite split64_join by lia. f_equal. lia.
  - assert (Hw : u32 (low c + n) = low c + n - 2 ^ 32) by (symmetry; apply (Z.mod_unique _ _ 1); lia).
    rewrite Hw, (proj2 (Z.ltb_lt _ _)) by lia. pose proof (wrap_range 32 (high c + 1) ltac:(lia)). rewrite split64_join by lia.
    apply split64_eq. unfold wrap in *. pose proof (Z.div_mod (high c + 1) (2 ^ 32) ltac:(lia)).
    replace (high c * 2 ^ 32 + low c + n) with ((high c + 1) mod 2 ^ 32 * 2 ^ 32 + (low c + n - 2 ^ 32) + (high c + 1) / 2 ^ 32 * 2 ^ 64) by lia.
    by rewrite Z.mod_add by lia.
Qed.

(** ** Arithmetic on values *)

Lemma join_mod h l : 0 <= l < 2 ^ 32 -> Counter64 (u32 h) l = split64 (h * 2 ^ 32 + l).
Proof.
  intros Hl. pose proof (wrap_range 32 h ltac:(lia)). rewrite split64_join by lia. apply split64_eq. unfold wrap.
  pose proof (Z.div_mod h (2 ^ 32) ltac:(lia)).
  replace (h * 2 ^ 32 + l) with (h mod 2 ^ 32 * 2 ^ 32 + l + h / 2 ^ 32 * 2 ^ 64) by lia. by rewrite Z.mod_add by lia.
Qed.

Lemma multBy10_split v : multBy10 (split64 v) = split64 (v * 10).
Proof.
  rewrite multBy10_spec by apply split64_ok. rewrite cval_split64. apply split64_eq. by rewrite Zmult_mod_idemp_l.
Qed.

Lemma incrByU32_split v n : 0 <= n < 2 ^ 32 -> incrByU32 (split64 v) n = split64 (v + n).
Proof.
  intros Hn. rewrite incrByU32_spec by (done || apply split64_ok). rewrite cval_split64. apply split64_eq. by rewrite Zplus_mod_idemp_l.
Qed.

Lemma u64Subtract_spec a b : c64_ok a -> c64_ok b -> u64Subtract a b = split64 (cval a - cval b).
Proof.
  intros [Hah Hal] [Hbh Hbl]. unfold u64Subtract, cval. destruct (Z.ltb_spec (low a) (low b)) as [Hlt|Hge].
  - assert (u32 (low a - low b) = low a - low b + 2 ^ 32) as -> by (symmetry; apply (Z.mod_unique _ _ (-1)); lia).
    rewrite join_mod by lia. f_equal. lia.
  - rewrite (wrap_small 32 (low a - low b)) by lia. rewrite join_mod by lia. f_equal. lia.
Qed.

Lemma u64Incr_spec o a : c64_ok o -> c64_ok a -> u64Incr o a = split64 (cval o + cval a).
Proof.
  intros [Hoh Hol] [Hah Hal]. unfold u64Incr. rewrite join_mod, (wrap_small 32 (low a)), incrByU32_split by done. f_equal. unfold cval. lia.
Qed.

Lemma u64UpdateCounter_spec o a b : c64_ok o -> c64_ok a -> c64_ok b -> u64UpdateCounter o a b = split64 (cval o + (cval a - cval b)).
Proof.
  intros Ho Ha Hb. unfold u64UpdateCounter. rewrite u64Subtract_spec, u64Incr_spec by (done || apply split64_ok).
  rewrite cval_split64. apply split64_eq. by rewrite Zplus_mod_idemp_r.
Qed.

Lemma complement_split v : complement (split64 v) = split64 (- v).
Proof.
  unfold complement. destruct (split64_ok v) as [Hh Hl].
  assert (Hn : forall x, 0 <= x < 2 ^ 32 -> u32 (Z.lnot x) = 2 ^ 32 - 1 - x).
  { intros x Hx. symmetry. unfold Z.lnot. apply (Z.mod_unique _ _ (-1)); lia. }
  rewrite !Hn by done. rewrite split64_join by lia. rewrite incrByU32_split by lia. apply split64_eq.
  pose proof (cval_split64 v) as Hc. unfold cval in Hc.
  replace ((2 ^ 32 - 1 - high (split64 v)) * 2 ^ 32 + (2 ^ 32 - 1 - low (split64 v)) + 1) with (- (v mod 2 ^ 64) + 1 * 2 ^ 64) by lia.
  rewrite Z.mod_add by lia. rewrite <- (Z.sub_0_l (v mod _)), Zminus_mod_idemp_r. done.
Qed.

Lemma isZeroU64_spec c : c64_ok c -> isZeroU64 c = (cval c =? 0).
Proof. intros [Hh Hl]. unfold isZeroU64, cval.
  destruct (Z.eqb_spec (low c) 0), (Z.eqb_spec (high c) 0), (Z.eqb_spec (high c * 2 ^ 32 + low c) 0); done || lia.
Qed.

(** C40: the arithmetic on pairs of halves is arithmetic on 64-bit integers:
    division and multiplication by ten, increments, sums, differences and the
    update of a counter have, for halves of 32 bits, the value modulo [2 ^ 64]
    of the operation they stand for, in halves of 32 bits again. *)
Theorem int64_arithmetic a b o n :
  c64_ok a -> c64_ok b -> c64_ok o -> 0 <= n < 2 ^ 32 ->
  divBy10 a = (split64 (cval a / 10), cval a mod 10) /\
  multBy10 a = split64 (cval a * 10) /\ incrByU32 a n = split64 (cval a + n) /\
  u64Subtract a b = split64 (cval a - cval b) /\ u64Incr o a = split64 (cval o + cval a) /\
  u64UpdateCounter o a b = split64 (cval o + (cval a - cval b)) /\
  complement a = split64 (- cval a) /\ isZeroU64 a = (cval a =? 0).
Proof.
  intros Ha Hb Ho Hn. split_and!;
    [by apply divBy10_spec|by apply multBy10_spec|by apply incrByU32_spec|by apply u64Subtract_spec|
     by apply u64Incr_spec|by apply u64UpdateCounter_spec| |by apply isZeroU64_spec].
  rewrite <- (split64_cval a Ha) at 1. apply complement_split.
Qed.

(** ** Text *)

Lemma print_loop_spec e t : forall n chars, 0 <= n < 2 ^ 64 -> n < 10 ^ (Z.of_nat t + 1) ->
  exists ds, print_loop (S t + e) (split64 n) chars = Some (ds ++ chars) /\ decimal ds n /\ (length ds <= S t)%nat.
Proof.
  induction t as [|t IH]; intros n chars Hn Ht; cbn [print_loop Nat.add]; rewrite divBy10_spec by apply split64_ok;
    rewrite cval_split64, (Z.mod_small n) by done; rewrite isZeroU64_spec by apply split64_ok;
    pose proof (Z.div_mod n 10 ltac:(lia)) as Hdm; pose proof (Z.mod_pos_bound n 10 ltac:(lia));
    (assert (Hq : 0 <= n / 10 < 2 ^ 64) by (split; [apply Z.div_pos; lia|apply Z.div_lt_upper_bound; lia]));
    rewrite cval_split64, (Z.mod_small (n / 10)) by done; rewrite wrap_small by lia;
    destruct (Z.eqb_spec (n / 10) 0) as [Hz|Hz].
  1,3: exists [48 + n mod 10]; split_and!; [done| |cbn; lia]; rewrite Z.mod_small by lia; apply decimal_digit; lia.
  - cbn in Ht. lia.
  - destruct (IH (n / 10) (48 + n mod 10 :: chars)) as (ds & Hpr & Hd & Hl); [done| |].
    { apply Z.div_lt_upper_bound; [lia|]. replace (Z.of_nat (S t) + 1) with (Z.succ (Z.of_nat t + 1)) in Ht by lia.
      rewrite Z.pow_succ_r in Ht; lia. }
    cbn [print_loop Nat.add] in Hpr. rewrite Hpr. exists (ds ++ [48 + n mod 10]).
    split_and!; [by rewrite <- app_assoc| |rewrite length_app; cbn; lia].
    replace n with (n / 10 * 10 + n mod 10) at 2 by lia. apply decimal_snoc; [done|lia|done].
Qed.

Lemma printU64_spec buf pos c :
  c64_ok c -> 0 <= pos -> pos + 21 <= zlen buf ->
  exists ds, printU64 buf pos c = Some (patch buf pos (ds ++ [0])) /\ decimal ds (cval c) /\ (length ds <= 20)%nat.
Proof.
  intros Hc Hp Hb. pose proof (cval_range c Hc). unfold printU64.
  destruct (print_loop_spec 1 19 (cval c) []) as (ds & Hpr & Hd & Hl); [done|change (10 ^ (Z.of_nat 19 + 1)) with 100000000000000000000; lia|]. rewrite split64_cval in Hpr by done.
  change (Z.to_nat I64CHARSZ) with (20 + 1)%nat. rewrite Hpr. obind. exists ds. rewrite app_nil_r. split_and!; [|done|done].
  apply poke_n_patch; [done|]. rewrite length_app. unfold zlen in *. cbn. lia.
Qed.

Lemma read_loop_spec ds rest : Forall digit ds -> forall v ok,
  read_loop (ds ++ 0 :: rest) (split64 v) ok = Some (split64 (fold_left read_digit ds v), if decide (ds = []) then ok else 1).
Proof.
  induction 1 as [|d ds Hd _ IH]; intros v ok; [done|]. cbn [read_loop app fold_left]. unfold digit in Hd.
  assert (negb (d =? 0) && isdigit d = true) as -> by (unfold isdigit; lia). unfold incrByU16.
  rewrite multBy10_split, incrByU32_split by lia. rewrite IH. by destruct (decide (ds = [])).
Qed.

(** A number is read where it is. *)
Lemma read_loop_at ds n m p : decimal ds n -> holds m p (ds ++ [0]) ->
  read_loop (drop (Z.to_nat p) m) zeroU64 0 = Some (split64 n, 1).
Proof.
  intros (Hd & Hne & Hv & _) (pre & rest & -> & ->). change zeroU64 with (split64 0).
  rewrite Nat2Z.id, drop_app_length, <- app_assoc. cbn [app]. rewrite read_loop_spec, Hv by done. by rewrite decide_False by done.
Qed.

Lemma printU64_reads buf pos c :
  c64_ok c -> 0 <= pos -> pos + 21 <= zlen buf ->
  exists ds b, printU64 buf pos c = Some b /\ b = patch buf pos (ds ++ [0]) /\ holds b pos (ds ++ [0]) /\ decimal ds (cval c) /\
    read_loop (drop (Z.to_nat pos) b) zeroU64 0 = Some (c, 1).
Proof.
  intros Hc Hp Hb. destruct (printU64_spec buf pos c) as (ds & -> & Hd & Hl); [done..|].
  assert (Hh : holds (patch buf pos (ds ++ [0])) pos (ds ++ [0])).
  { apply patch_holds; [done|]. rewrite length_app. unfold zlen in *. cbn. lia. }
  exists ds, (patch buf pos (ds ++ [0])). split_and!; [done..|]. rewrite (read_loop_at ds (cval c)) by done. by rewrite split64_cval.
Qed.

(** [c64_signed c] is the value of [c] as a signed integer. *)
Definition c64_signed (c : counter64) : Z := s64 (cval c).

Lemma sign_bit c : c64_ok c -> negb (Z.land (high c) 0x80000000 =? 0) = (c64_signed c <? 0).
Proof.
  intros Hc. pose proof (cval_range c Hc). rewrite <- (split64_cval c Hc) at 1. rewrite high_msb by done. unfold c64_signed.
  destruct (Z.leb_spec (2 ^ 63) (cval c)); symmetry.
  - apply Z.ltb_lt. rewrite <- (swrap_wrap 64) by lia. replace (s64 (u64 (cval c))) with (cval c - 2 ^ 64); [lia|].
    rewrite wrap_small by done. unfold swrap. replace (cval c + 2 ^ (64 - 1)) with (cval c - 2 ^ 63 + 1 * 2 ^ 64) by lia.
    rewrite Z.mod_add, Z.mod_small by lia. lia.
  - apply Z.ltb_ge. rewrite swrap_small by lia. lia.
Qed.

Lemma c64_signed_positive c : c64_ok c -> 0 <= c64_signed c -> c64_signed c = cval c.
Proof.
  intros Hc. pose proof (cval_range c Hc). unfold c64_signed, swrap. destruct (Z.lt_ge_cases (cval c) (2 ^ 63)).
  - rewrite Z.mod_small by lia. lia.
  - replace (cval c + 2 ^ (64 - 1)) with (cval c - 2 ^ 63 + 1 * 2 ^ 64) by lia. rewrite Z.mod_add, Z.mod_small by lia. lia.
Qed.

Lemma complement_involutive c : c64_ok c -> complement (complement c) = c.
Proof. intros Hc. rewrite <- (split64_cval c Hc), !complement_split. f_equal. lia. Qed.

Lemma complement_negative c : c64_ok c -> c64_signed c < 0 -> cval (complement c) = - c64_signed c.
Proof.
  intros Hc. pose proof (cval_range c Hc). unfold c64_signed, swrap.
  pose proof (Z.mod_pos_bound (cval c + 2 ^ (64 - 1)) (2 ^ 64) ltac:(lia)). pose proof (Z.div_mod (cval c + 2 ^ (64 - 1)) (2 ^ 64) ltac:(lia)) as Hm.
  intros Hneg. rewrite <- (split64_cval c Hc) at 1. rewrite complement_split, cval_split64.
  symmetry. apply (Z.mod_unique _ _ (- ((cval c + 2 ^ (64 - 1)) / 2 ^ 64))); lia.
Qed.

(** What is printed is read back: in any buffer of [I64CHARSZ + 1] cells
    [printU64] writes the decimal representation of a counter and nothing behind
    its end, [printI64] that of the counter as a signed integer, with a sign if it
    is negative, and [read64] reads the counter from either. *)
Theorem int64_print_read c buf :
  c64_ok c -> I64CHARSZ + 1 <= zlen buf ->
  (exists ds b, printU64 buf 0 c = Some b /\ b = patch buf 0 (ds ++ [0]) /\ decimal ds (cval c) /\ read64 b = Some (c, 1)) /\
  (exists ds b, printI64 buf c = Some b /\ decimal ds (Z.abs (c64_signed c)) /\
     b = patch buf 0 ((if c64_signed c <? 0 then [45] else []) ++ ds ++ [0]) /\ read64 b = Some (c, 1)).
Proof.
  intros Hc Hb. change I64CHARSZ with 21 in Hb.
  assert (Hu : exists ds b, printU64 buf 0 c = Some b /\ b = patch buf 0 (ds ++ [0]) /\ decimal ds (cval c) /\ read64 b = Some (c, 1)).
  { destruct (printU64_reads buf 0 c) as (ds & b & Hpr & Hpt & Hh & Hd & Hr); [done|lia..|]. exists ds, b. split_and!; [done..|].
    destruct (decimal_head _ _ Hd) as (d & rest & -> & Hdig). unfold read64. rewrite (holds_peek _ _ _ _ Hh). obind.
    rewrite (proj2 (Z.eqb_neq d 45)) by (unfold digit in Hdig; lia). done. }
  split; [done|]. unfold printI64. rewrite sign_bit by done. destruct (Z.ltb_spec (c64_signed c) 0) as [Hneg|Hpos].
  - rewrite poke_zlen by lia. obind. set (b0 := patch buf 0 [45]).
    assert (Hc' : c64_ok (complement c)) by (rewrite <- (split64_cval c Hc), complement_split; apply split64_ok).
    assert (Hz : zlen b0 = zlen buf) by (unfold b0, zlen; rewrite length_patch; [done|lia|unfold zlen in Hb; cbn; lia]).
    destruct (printU64_reads b0 1 (complement c)) as (ds & b & Hpr & Hpt & Hh & Hd & Hr); [done|lia..|].
    exists ds, b. rewrite complement_negative in Hd by done. split_and!; [done|by rewrite Z.abs_neq by lia| |].
    + rewrite Hpt. unfold b0. by rewrite (patch_patch buf 0 1 [45]) by (done || (unfold zlen in Hb; cbn; lia)).
    + unfold read64. replace (peek b 0) with (Some 45) by (rewrite Hpt; reflexivity). obind. rewrite Z.eqb_refl.
      change (drop 1 b) with (drop (Z.to_nat 1) b). rewrite Hr. obind. by rewrite complement_involutive.
  - destruct Hu as (ds & b & ? & ? & Hd & ?). exists ds, b. by rewrite Z.abs_eq, c64_signed_positive by done.
Qed.

Lemma int64_arithmetic_witness :
  u64Subtract (Counter64 5 0) (Counter64 1 1) = split64 (5 * 2 ^ 32 - (2 ^ 32 + 1)) /\ complement (Counter64 5 0) = split64 (- (5 * 2 ^ 32)).
Proof.
  destruct (int64_arithmetic (Counter64 5 0) (Counter64 1 1) (Counter64 0 0) 0) as (_ & _ & _ & H1 & _ & _ & H2 & _);
    [split; cbn; lia..|lia|]. split; [exact H1|exact H2].
Defined.

Lemma int64_print_read_witness :
  exists ds b, printI64 (repeat 7 22) (Counter64 0xffffffff 0xffffffd6) = Some b /\ read64 b = Some (Counter64 0xffffffff 0xffffffd6, 1) /\
    b = 45 :: 52 :: 50 :: 0 :: repeat 7 18 /\ ds = [52; 50].
Proof.
  destruct (int64_print_read (Counter64 0xffffffff 0xffffffd6) (repeat 7 22)) as (_ & ds & b & H1 & _ & _ & H2);
    [split; cbn; lia|by vm_compute|]. exists [52; 50], b. split; [exact H1|]. split; [exact H2|].
  split; [|reflexivity]. vm_compute in H1. by injection H1 as <-.
Defined.

(** ** Counters of 32 bits *)

(** A sample of a counter of 32 bits whose true value is [t]. *)
Definition sample32 (t : Z) : counter64 := Counter64 0 (u32 t).

(** The use the comment of the code suggests: each new sample updates the current
    value, and becomes the previous one if the update succeeds. *)
Fixpoint poll (current prev : counter64) (need_wrap_check : option Z) (samples : list Z) : option (counter64 * counter64) :=
  match samples with
  | [] => Some (current, prev)
  | t :: samples =>
    let '(current, new, need_wrap_check, rc) := netsnmp_c64_check32_and_update current (sample32 t) prev need_wrap_check in
    if rc =? 0 then poll current new need_wrap_check samples else None
  end.

(** Successive values less than a wrap apart. *)
Fixpoint within_wrap (t : Z) (ts : list Z) : Prop :=
  match ts with [] => True | t' :: ts => t <= t' < t + 2 ^ 32 /\ within_wrap t' ts end.

Lemma sample32_ok t : c64_ok (sample32 t).
Proof. pose proof (wrap_range 32 t ltac:(lia)). split; cbn; lia. Qed.

(** One sample: whether or not it wrapped, the value moves on by the true
    difference, and the high half put in for the wrap is taken out again. *)
Lemma check32_step current t t' b : c64_ok current -> t <= t' < t + 2 ^ 32 -> b <> 0 ->
  netsnmp_c64_check32_and_update current (sample32 t') (sample32 t) (Some b) =
    (split64 (cval current + (t' - t)), sample32 t', Some b, 0).
Proof.
  intros Hc Ht Hb. unfold netsnmp_c64_check32_and_update. rewrite (proj2 (Z.eqb_neq 0 b)) by lia. cbn [negb].
  unfold netsnmp_c64_check_for_32bit_wrap. cbn [high low sample32]. rewrite andb_true_r, Z.eqb_refl.
  pose proof (Z.div_mod t (2 ^ 32) ltac:(lia)). pose proof (Z.div_mod t' (2 ^ 32) ltac:(lia)).
  pose proof (Z.mod_pos_bound t (2 ^ 32) ltac:(lia)). pose proof (Z.mod_pos_bound t' (2 ^ 32) ltac:(lia)). unfold wrap.
  destruct (Z.leb_spec (t mod 2 ^ 32) (t' mod 2 ^ 32)); cbn [default negb Z.ltb].
  - rewrite u64UpdateCounter_spec by (done || split; cbn; lia). do 4 f_equal. unfold cval. cbn [high low sample32 id].
    assert (t / 2 ^ 32 = t' / 2 ^ 32) by nia. unfold wrap. lia.
  - rewrite u64UpdateCounter_spec by (done || split; cbn; lia). do 4 f_equal. unfold cval. cbn [high low sample32 id].
    assert (t' / 2 ^ 32 = t / 2 ^ 32 + 1) by nia. change ((0 + 1) mod 2 ^ 32) with 1. unfold wrap. lia.
Qed.

Lemma last_of_cons {A} (ts : list A) t t' : List.last (t' :: ts) t = List.last ts t'.
Proof. revert t t'. induction ts as [|a ts IH]; intros; [done|]. change (List.last (a :: ts) t = List.last (a :: ts) t'). by rewrite !IH. Qed.

(** a counter of 32 bits that is sampled before it can wrap twice is tracked
    in 64 bits: after any number of samples of which each is less than [2 ^ 32]
    above the one before, the current value has moved on by exactly what the
    true counter has, modulo [2 ^ 64]; every call succeeds, and the sample kept
    for the next one is the sample itself. *)
Theorem counter32_extended ts : forall current t b,
  c64_ok current -> b <> 0 -> within_wrap t ts ->
  poll current (sample32 t) (Some b) ts =
    Some (split64 (cval current + (List.last ts t - t)), sample32 (List.last ts t)).
Proof.
  induction ts as [|t' ts IH]; intros current t b Hc Hb Ht; cbn [poll].
  - cbn [List.last]. rewrite Z.sub_diag, Z.add_0_r. by rewrite split64_cval.
  - destruct Ht as [Hd Ht]. rewrite check32_step by done. rewrite Z.eqb_refl. rewrite IH by (done || apply split64_ok).
    rewrite !last_of_cons. do 2 f_equal. rewrite cval_split64. apply split64_eq.
    rewrite Zplus_mod_idemp_l. f_equal. lia.
Qed.

Lemma counter32_extended_witness :
  poll (Counter64 0 7) (sample32 0xfffffff0) (Some 1) [0x100000010; 0x1fffffff0; 0x200000000] = Some (Counter64 1 23, sample32 0).
Proof.
  rewrite (counter32_extended [0x100000010; 0x1fffffff0; 0x200000000]); [reflexivity|split; cbn; lia|done|cbn; lia].
Defined.
