(* ===== verification/Container.v ===== *)
(** Containers, [snmplib/container.c] and [library/container.h]: the comparisons
    entries are kept by, the interface of an implementation, and the chains of
    containers that index the same entries.

    An entry is a pointer; the code asks its users not to change the key of an
    entry, so a comparison is a function of the entries.  Whether memory is to be
    had for an insertion is an argument ([mem]). *)
From Stdlib Require Import ZArith Lia.
From stdpp Require Import sets sorting.
From S2P Require Import Prelude StateMonad Oid.

Definition CONTAINER_KEY_ALLOW_DUPLICATES : Z := 1.
Definition CONTAINER_KEY_UNSORTED : Z := 2.

(** An [int] expression of the code: undefined when it overflows. *)
Definition int (x : Z) : option Z := if (- 2 ^ 31 <=? x) && (x <? 2 ^ 31) then Some x else None.

Lemma int_small x : 0 <= x < 2 ^ 31 -> int x = Some x.
Proof. intros H. unfold int. by rewrite (proj2 (Z.leb_le _ _)), (proj2 (Z.ltb_lt _ _)) by lia. Qed.

(** * Comparisons

    [netsnmp_container_compare]: less than, equal to or greater than zero. *)
Class Comparison {E : Type} (cmp : E -> E -> Z) : Prop := {
  cmp_opp a b : Z.sgn (cmp b a) = - Z.sgn (cmp a b);
  cmp_trans a b c : cmp a b <= 0 -> cmp b c <= 0 -> cmp a c <= 0
}.

Section comparison.
Context {E : Type} {cmp : E -> E -> Z} `{!Comparison cmp}.

Lemma cmp_refl a : cmp a a = 0.
Proof. pose proof (cmp_opp a a). lia. Qed.

Lemma cmp_eq_sym a b : cmp a b = 0 -> cmp b a = 0.
Proof. pose proof (cmp_opp a b). lia. Qed.

Lemma cmp_le_ge a b : cmp a b <= 0 <-> 0 <= cmp b a.
Proof. pose proof (cmp_opp a b). lia. Qed.

Lemma cmp_lt_gt a b : cmp a b < 0 <-> 0 < cmp b a.
Proof. pose proof (cmp_opp a b). lia. Qed.

Lemma cmp_lt_le_trans a b c : cmp a b < 0 -> cmp b c <= 0 -> cmp a c < 0.
Proof.
  intros H1 H2. destruct (Z.lt_ge_cases (cmp a c) 0) as [|H]; [done|].
  apply cmp_le_ge in H. pose proof (cmp_trans b c a H2 H). apply cmp_lt_gt in H1. lia.
Qed.

Lemma cmp_le_lt_trans a b c : cmp a b <= 0 -> cmp b c < 0 -> cmp a c < 0.
Proof.
  intros H1 H2. destruct (Z.lt_ge_cases (cmp a c) 0) as [|H]; [done|].
  apply cmp_le_ge in H. pose proof (cmp_trans c a b H H1). apply cmp_lt_gt in H2. lia.
Qed.

(** Equal entries compare alike. *)
Lemma cmp_eq_l a b c : cmp a b = 0 -> Z.sgn (cmp a c) = Z.sgn (cmp b c).
Proof.
  intros H. pose proof (cmp_eq_sym _ _ H) as H'. pose proof (cmp_opp a c). pose proof (cmp_opp b c).
  assert (cmp a c <= 0 -> cmp b c <= 0) by (intros; apply (cmp_trans b a); lia).
  assert (cmp b c <= 0 -> cmp a c <= 0) by (intros; apply (cmp_trans a b); lia).
  assert (cmp c a <= 0 -> cmp c b <= 0) by (intros; apply (cmp_trans c a); lia).
  assert (cmp c b <= 0 -> cmp c a <= 0) by (intros; apply (cmp_trans c b); lia).
  lia.
Qed.

Lemma cmp_eq_r a b c : cmp a b = 0 -> Z.sgn (cmp c a) = Z.sgn (cmp c b).
Proof. intros H. pose proof (cmp_eq_l _ _ c H). pose proof (cmp_opp a c). pose proof (cmp_opp b c). lia. Qed.

(** Ascending. *)
Definition sorted (l : list E) : Prop := StronglySorted (fun a b => cmp a b <= 0) l.

(** No two entries with equal keys. *)
Definition distinct (l : list E) : Prop := forall i j x y, l !! i = Some x -> l !! j = Some y -> cmp x y = 0 -> i = j.

Lemma sorted_lookup l : sorted l <-> forall i j x y, (i < j)%nat -> l !! i = Some x -> l !! j = Some y -> cmp x y <= 0.
Proof.
  split.
  - induction 1 as [|a l Hl IH Ha]; intros i j x y Hij Hi Hj; [done|]. destruct j as [|j]; [lia|]. destruct i as [|i]; cbn in Hi, Hj.
    + injection Hi as <-. by eapply Forall_lookup_1 in Ha.
    + eapply (IH i j); [lia|done|done].
  - induction l as [|a l IH]; intros H; [constructor|]. constructor.
    + apply IH. intros i j x y Hij Hi Hj. apply (H (S i) (S j)); [lia|done|done].
    + apply list.Forall_forall. intros y Hy. apply list_elem_of_lookup in Hy as [j Hj]. apply (H 0%nat (S j)); [lia|done|done].
Qed.

Lemma sorted_le l i j x y : sorted l -> (i <= j)%nat -> l !! i = Some x -> l !! j = Some y -> cmp x y <= 0.
Proof.
  intros Hs Hij Hi Hj. destruct (decide (i = j)) as [->|]; [|by apply (proj1 (sorted_lookup l) Hs i j); [lia|..]].
  rewrite Hi in Hj. injection Hj as ->. rewrite cmp_refl. lia.
Qed.

(** No entry has the key of [k]. *)
Definition unmatched (k : E) (l : list E) : Prop := Forall (fun x => cmp x k <> 0) l.

#[export] Instance unmatched_perm k : Proper ((≡ₚ) ==> iff) (unmatched k).
Proof. intros l l' Hl. unfold unmatched. by rewrite Hl. Qed.

Lemma distinct_perm l l' : l ≡ₚ l' -> distinct l -> distinct l'.
Proof.
  intros Hl Hd i j x y Hi Hj Hxy. symmetry in Hl. apply Permutation_inj in Hl as (_ & f & Hinj & Hf).
  apply Hinj. apply (Hd _ _ x y); rewrite <- ?Hf; done.
Qed.

Lemma distinct_nil : distinct [].
Proof. intros i j x y Hi. by rewrite lookup_nil in Hi. Qed.

Lemma distinct_cons e l : unmatched e l -> distinct l -> distinct (e :: l).
Proof.
  intros Hno Hd [|i] [|j] x y Hi Hj Hxy; cbn in Hi, Hj; simplify_eq; [done|..].
  - unfold unmatched in Hno. pose proof (list.Forall_lookup_1 _ _ _ _ Hno Hj : cmp y x <> 0). pose proof (cmp_opp y x). lia.
  - unfold unmatched in Hno. by pose proof (list.Forall_lookup_1 _ _ _ _ Hno Hi).
  - f_equal. by eapply Hd.
Qed.

Lemma distinct_tail e l : distinct (e :: l) -> distinct l.
Proof. intros Hd i j x y Hi Hj Hxy. by pose proof (Hd (S i) (S j) x y Hi Hj Hxy) as [= ->]. Qed.
End comparison.
Arguments sorted {E} cmp l. Arguments distinct {E} cmp l. Arguments unmatched {E} cmp k l.

(** [netsnmp_index] *)
Record netsnmp_index : Type := mkindex { len : Z; oids : list Z }.

Definition netsnmp_compare_netsnmp_index (lhs rhs : netsnmp_index) : option Z :=
  snmp_oid_compare (oids lhs) (len lhs) (oids rhs) (len rhs).

Definition netsnmp_ncompare_netsnmp_index (lhs rhs : netsnmp_index) : option Z :=
  snmp_oid_ncompare (oids lhs) (len lhs) (oids rhs) (len rhs) (len rhs).

Definition netsnmp_compare_mem (lhs : list Z) (lhs_len : Z) (rhs : list Z) (rhs_len : Z) : option Z :=
  let min := s32 (if lhs_len <? rhs_len then lhs_len else rhs_len) in
  rc ← memcmp lhs rhs (u64 min);
  if (rc =? 0) && negb (lhs_len =? rhs_len) then Some (if lhs_len <? rhs_len then -1 else 1) else Some rc.

(** [netsnmp_compare_long], [_ulong], [_int32] and [_uint32]: on the value of the
    first member. *)
Definition compare_index (lhs rhs : Z) : Z := if lhs <? rhs then -1 else if rhs <? lhs then 1 else 0.
Definition netsnmp_compare_long : Z -> Z -> Z := compare_index.
Definition netsnmp_compare_ulong : Z -> Z -> Z := compare_index.
Definition netsnmp_compare_int32 : Z -> Z -> Z := compare_index.
Definition netsnmp_compare_uint32 : Z -> Z -> Z := compare_index.

#[export] Instance compare_index_ok : Comparison compare_index.
Proof.
  split; unfold compare_index.
  - intros a b. destruct (Z.ltb_spec a b), (Z.ltb_spec b a); cbn; lia.
  - intros a b c. destruct (Z.ltb_spec a b), (Z.ltb_spec b a), (Z.ltb_spec b c), (Z.ltb_spec c b), (Z.ltb_spec a c), (Z.ltb_spec c a); lia.
Qed.

(** Indexes the comparison can read. *)
Definition index_ok (x : netsnmp_index) : Prop := oid_ok (oids x) (len x).

#[export] Instance index_ok_dec x : Decision (index_ok x).
Proof. unfold index_ok. apply _. Defined.

Definition indexes : Type := { x | index_ok x }.

Definition compare_indexes (x y : indexes) : Z := default 0 (netsnmp_compare_netsnmp_index (`x) (`y)).

Lemma compare_indexes_spec (x y : indexes) :
  netsnmp_compare_netsnmp_index (`x) (`y) = Some (compare_indexes x y) /\
  compare_indexes x y = lex_sign (oid_of (oids (`x)) (len (`x))) (oid_of (oids (`y)) (len (`y))).
Proof.
  destruct x as [x Hx], y as [y Hy]. unfold compare_indexes, netsnmp_compare_netsnmp_index. cbn. by rewrite snmp_oid_compare_spec.
Qed.

#[export] Instance compare_indexes_ok : Comparison compare_indexes.
Proof.
  split; intros *; rewrite !(proj2 (compare_indexes_spec _ _)); [|apply oo_trans]. rewrite (oo_opp (cmp := lex_sign)). lia.
Qed.

(** Memory of the length announced. *)
Definition mem_ok (m : list Z) (len : Z) : Prop := 0 <= len < 2 ^ 31 /\ Z.of_nat (length m) = len.

Lemma netsnmp_compare_mem_spec a la b lb : mem_ok a la -> mem_ok b lb -> netsnmp_compare_mem a la b lb = Some (lex_sign a b).
Proof.
  intros [Ha Ea] [Hb Eb]. unfold netsnmp_compare_mem, memcmp.
  assert (Em : (if la <? lb then la else lb) = Z.min la lb) by (destruct (Z.ltb_spec la lb); lia). rewrite Em.
  rewrite s32_small, wrap_small by lia. rewrite !peek_n_take by lia. obind.
  replace (Z.to_nat (Z.min la lb)) with (Nat.min (length a) (length b)) by lia. rewrite (lex_sign_split a b). cbv zeta. case_decide as H.
  - rewrite H, lex_sign_refl. cbn [Z.eqb andb]. rewrite Ea, Eb. destruct (Z.eqb_spec la lb) as [->|Hne]; cbn; [by rewrite Z.sub_diag|].
    destruct (Z.ltb_spec la lb); f_equal; lia.
  - destruct (Z.eqb_spec (lex_sign (take (Nat.min (length a) (length b)) a) (take (Nat.min (length a) (length b)) b)) 0) as [E|]; [|done].
    by apply lex_sign_eq in E.
Qed.

(** * The interface of an implementation

    The functions of [netsnmp_container] an implementation sets.  [c_for_each] and
    [c_clear] give the entries the function is called with, in order; that of
    [c_clear] may be null. *)
Class ContainerOps (E S : Type) : Type := {
  c_insert : bool -> E -> M S Z;
  c_remove : E -> M S Z;
  c_find : E -> M S (option E);
  c_find_next : option E -> M S (option E);
  c_size : M S Z;
  c_for_each : M S (list E);
  c_clear : bool -> M S (list E)
}.

(** [y] comes after the key [k]; every entry comes after no key. *)
Definition beyond {E} (cmp : E -> E -> Z) (k : option E) (y : E) : Prop :=
  match k with Some k => 0 < cmp y k | None => True end.

(** The least entry behind the key. *)
Definition is_next {E} (cmp : E -> E -> Z) (key : option E) (l : list E) (r : option E) : Prop :=
  match r with
  | Some x => x ∈ l /\ beyond cmp key x /\ forall y, y ∈ l -> beyond cmp key y -> cmp x y <= 0
  | None => forall y, y ∈ l -> ~ beyond cmp key y
  end.

Lemma is_next_perm {E} (cmp : E -> E -> Z) key l l' r : l ≡ₚ l' -> is_next cmp key l r -> is_next cmp key l' r.
Proof. intros Hl. destruct r; unfold is_next; setoid_rewrite Hl; done. Qed.

(** What the users of a container rely on.  [entries] are the entries it has;
    [unique] tells whether it refuses an entry with a key it has, [ordered] whether
    it keeps_entries them in the order of their keys. *)
Class ContainerLaws {E S : Type} (O : ContainerOps E S) (cmp : E -> E -> Z) : Type := {
  cl_cmp :: Comparison cmp;
  invariant : S -> Prop;
  entries : S -> list E;
  unique : S -> bool;
  ordered : S -> bool;
  alike s s' := invariant s' /\ unique s' = unique s /\ ordered s' = ordered s;
  cl_insert mem e s : invariant s -> Z.of_nat (length (entries s)) < 2 ^ 30 ->
    runs (c_insert mem e) (fun rc s' => alike s s' /\
      (rc = 0 /\ entries s' ≡ₚ e :: entries s /\ (unique s = true -> unmatched cmp e (entries s)) \/
       rc <> 0 /\ entries s' ≡ₚ entries s /\ (mem = false \/ unique s = true /\ ~ unmatched cmp e (entries s)))) s;
  cl_remove k s : invariant s ->
    runs (c_remove k) (fun rc s' => alike s s' /\
      ((exists x, cmp x k = 0 /\ entries s ≡ₚ x :: entries s' /\ rc = 0) \/
       unmatched cmp k (entries s) /\ entries s' ≡ₚ entries s /\ (rc <> 0 \/ entries s = []))) s;
  cl_find k s : invariant s ->
    runs (c_find k) (fun r s' => alike s s' /\ entries s' ≡ₚ entries s /\
      match r with Some x => x ∈ entries s /\ cmp x k = 0 | None => unmatched cmp k (entries s) end) s;
  cl_find_next k s : invariant s ->
    runs (c_find_next k) (fun r s' => alike s s' /\ entries s' ≡ₚ entries s /\
      (forall x, r = Some x -> x ∈ entries s) /\
      (ordered s = true -> (unique s = true -> distinct cmp (entries s)) -> is_next cmp k (entries s) r)) s;
  cl_size s : invariant s -> runs c_size (fun n s' => s' = s /\ n = Z.of_nat (length (entries s))) s;
  cl_for_each s : invariant s ->
    runs c_for_each (fun l s' => alike s s' /\ entries s' ≡ₚ entries s /\ l ≡ₚ entries s /\ (ordered s = true -> sorted cmp l)) s;
  cl_clear f s : invariant s ->
    runs (c_clear f) (fun l s' => alike s s' /\ entries s' = [] /\ l ≡ₚ (if f then entries s else [])) s
}.

(** What a chain relies on: entries are put in and taken out.  Lists that are sorted
    promise this, but not that an exact search is exact. *)
Class StoreLaws {E S : Type} (O : ContainerOps E S) (cmp : E -> E -> Z) : Type := {
  st_cmp :: Comparison cmp;
  st_invariant : S -> Prop;
  st_entries : S -> list E;
  st_unique : S -> bool;
  st_insert mem e s : st_invariant s -> Z.of_nat (length (st_entries s)) < 2 ^ 30 ->
    runs (c_insert mem e) (fun rc s' => (st_invariant s' /\ st_unique s' = st_unique s) /\
      (rc = 0 /\ st_entries s' ≡ₚ e :: st_entries s /\ (st_unique s = true -> unmatched cmp e (st_entries s)) \/
       rc <> 0 /\ st_entries s' ≡ₚ st_entries s /\ (mem = false \/ st_unique s = true /\ ~ unmatched cmp e (st_entries s)))) s;
  st_remove k s : st_invariant s ->
    runs (c_remove k) (fun rc s' => (st_invariant s' /\ st_unique s' = st_unique s) /\
      ((exists x, cmp x k = 0 /\ st_entries s ≡ₚ x :: st_entries s' /\ rc = 0) \/
       unmatched cmp k (st_entries s) /\ st_entries s' ≡ₚ st_entries s /\ (rc <> 0 \/ st_entries s = []))) s
}.

#[refine] Instance container_store {E S} (O : ContainerOps E S) (cmp : E -> E -> Z) (L : ContainerLaws O cmp) : StoreLaws O cmp := {
  st_invariant := invariant; st_entries := entries; st_unique := unique
}.
Proof.
  - intros mem e s Hi Hl. run_by (by apply (@cl_insert _ _ _ _ L)) as rc s' [(H1 & H2 & _) H]. by split.
  - intros k s Hi. run_by (by apply (@cl_remove _ _ _ _ L)) as rc s' [(H1 & H2 & _) H]. by split.
Defined.

(** * Chains of containers

    A [netsnmp_container] of a chain: the implementation with its state, whether
    there is memory the next time it asks, and the filter, if one is set.  A chain is
    the list of its containers from the first one; the functions below get to its
    ends by [prev] and [next] whatever container they are given. *)
Record container (E : Type) : Type := mkcontainer {
  c_type : Type;
  c_ops : ContainerOps E c_type;
  c_state : c_type;
  c_memory : bool;
  insert_filter : option (E -> Z)
}.
Arguments mkcontainer {E}. Arguments c_type {E}. Arguments c_ops {E}. Arguments c_state {E}. Arguments c_memory {E}. Arguments insert_filter {E}.

Section chain.
Context {E : Type}.
Implicit Types (c : container E) (k : E).

Definition set_state c (s : c_type c) : container E := mkcontainer (c_type c) (c_ops c) s (c_memory c) (insert_filter c).

(** [x->insert_filter && x->insert_filter(x, k) == 1] *)
Definition filtered k c : bool := match insert_filter c with Some f => f k =? 1 | None => false end.

(** [x->insert(x, k)] *)
Definition insert_one k c : option (Z * container E) := '(rc, s) ← @c_insert _ _ (c_ops c) (c_memory c) k (c_state c); Some (rc, set_state c s).
Definition remove_one k c : option (Z * container E) := '(rc, s) ← @c_remove _ _ (c_ops c) k (c_state c); Some (rc, set_state c s).

Fixpoint CONTAINER_INSERT_HELPER (cs : list (container E)) k : option (Z * list (container E)) :=
  match cs with
  | [] => Some (0, [])
  | x :: next =>
    if filtered k x then '(rc, next) ← CONTAINER_INSERT_HELPER next k; Some (rc, x :: next)
    else
      '(rc, x) ← insert_one k x;
      if negb (rc =? 0) then Some (rc, x :: next)
      else
        '(rc, next) ← CONTAINER_INSERT_HELPER next k;
        if negb (rc =? 0) then '(_, x) ← remove_one k x; Some (rc, x :: next)
        else Some (rc, x :: next)
  end.

Definition CONTAINER_INSERT (cs : list (container E)) k : option (Z * list (container E)) := CONTAINER_INSERT_HELPER cs k.

(** From the last container to the first. *)
Fixpoint CONTAINER_REMOVE (cs : list (container E)) k : option (Z * list (container E)) :=
  match cs with
  | [] => Some (0, [])
  | x :: next =>
    '(rc, next) ← CONTAINER_REMOVE next k;
    '(rc2, x) ← remove_one k x;
    Some (if negb (rc2 =? 0) && negb (bool_decide (is_Some (insert_filter x))) then rc2 else rc, x :: next)
  end.

Definition clear_one (f : bool) c : option (list E * container E) := '(l, s) ← @c_clear _ _ (c_ops c) f (c_state c); Some (l, set_state c s).

(** [f] is called for the entries of the first container only. *)
Definition CONTAINER_CLEAR (cs : list (container E)) (f : bool) : option (list E * list (container E)) :=
  match cs with
  | [] => None
  | x :: next =>
    next ← mapM (fun c => snd <$> clear_one false c) next;
    '(l, x) ← clear_one f x; Some (l, x :: next)
  end.

(** [None] is the null pointer. *)
Definition netsnmp_container_add_index (primary : list (container E)) (new_index : option (container E)) : list (container E) :=
  match new_index with Some c => match primary with [] => [] | _ => primary ++ [c] end | None => primary end.
End chain.

(** * Sequences of operations

    What a container answers, and the answers the entries it holds allow. *)
Inductive operation (E : Type) : Type :=
| Insert (mem : bool) (e : E) | Remove (k : E) | Find (k : E) | FindNext (k : option E) | Size | ForEach | Clear (f : bool).
Arguments Insert {E}. Arguments Remove {E}. Arguments Find {E}. Arguments FindNext {E}. Arguments Size {E}. Arguments ForEach {E}. Arguments Clear {E}.

Inductive answer (E : Type) : Type := Code (rc : Z) | Entry (o : option E) | Entries (l : list E).
Arguments Code {E}. Arguments Entry {E}. Arguments Entries {E}.

Definition perform_op {E S} (O : ContainerOps E S) (op : operation E) : M S (answer E) :=
  match op with
  | Insert mem e => rc ← c_insert mem e; mret (Code rc)
  | Remove k => rc ← c_remove k; mret (Code rc)
  | Find k => x ← c_find k; mret (Entry x)
  | FindNext k => x ← c_find_next k; mret (Entry x)
  | Size => n ← c_size; mret (Code n)
  | ForEach => l ← c_for_each; mret (Entries l)
  | Clear f => l ← c_clear f; mret (Entries l)
  end.

Fixpoint perform_all {E S} (O : ContainerOps E S) (ops : list (operation E)) : M S (list (answer E)) :=
  match ops with
  | [] => mret []
  | op :: ops => a ← perform_op O op; l ← perform_all O ops; mret (a :: l)
  end.

(** The specification: a multiset of entries, [l] before and [l'] after the
    operation; [u] and [o] tell whether keys are unique and entries ordered. *)
Definition answers {E} (cmp : E -> E -> Z) (u o : bool) (op : operation E) (l : list E) (a : answer E) (l' : list E) : Prop :=
  match op, a with
  | Insert mem e, Code rc =>
    rc = 0 /\ l' ≡ₚ e :: l /\ (u = true -> unmatched cmp e l) \/ rc <> 0 /\ l' ≡ₚ l /\ (mem = false \/ u = true /\ ~ unmatched cmp e l)
  | Remove k, Code rc =>
    (exists x, cmp x k = 0 /\ l ≡ₚ x :: l' /\ rc = 0) \/ unmatched cmp k l /\ l' ≡ₚ l /\ (rc <> 0 \/ l = [])
  | Find k, Entry r => l' ≡ₚ l /\ match r with Some x => x ∈ l /\ cmp x k = 0 | None => unmatched cmp k l end
  | FindNext k, Entry r => l' ≡ₚ l /\ (forall x, r = Some x -> x ∈ l) /\ (o = true -> is_next cmp k l r)
  | Size, Code n => l' = l /\ n = Z.of_nat (length l)
  | ForEach, Entries r => l' ≡ₚ l /\ r ≡ₚ l /\ (o = true -> sorted cmp r)
  | Clear f, Entries r => l' = [] /\ r ≡ₚ (if f then l else [])
  | _, _ => False
  end.

Fixpoint all_answers {E} (cmp : E -> E -> Z) (u o : bool) (ops : list (operation E)) (l : list E) (rs : list (answer E)) (l' : list E) : Prop :=
  match ops, rs with
  | [], [] => l' = l
  | op :: ops, a :: rs => exists l1, answers cmp u o op l a l1 /\ all_answers cmp u o ops l1 rs l'
  | _, _ => False
  end.

(** How many entries the operations may add. *)
Fixpoint insertions {E} (ops : list (operation E)) : nat :=
  match ops with [] => 0 | Insert _ _ :: ops => S (insertions ops) | _ :: ops => insertions ops end.

Section refinement.
Context {E S : Type} {O : ContainerOps E S} {cmp : E -> E -> Z} (L : ContainerLaws O cmp).

Lemma perform_runs op s : invariant s -> (unique s = true -> distinct cmp (entries s)) -> Z.of_nat (length (entries s)) < 2 ^ 30 ->
  runs (perform_op O op) (fun a s' => alike s s' /\ answers cmp (unique s) (ordered s) op (entries s) a (entries s')) s.
Proof.
  intros Hi Hd Hl. destruct op; cbn; run.
  - run_by (by apply cl_insert) as rc s' [Ha H]. run. by split.
  - run_by (by apply cl_remove) as rc s' [Ha H]. run. by split.
  - run_by (by apply cl_find) as r s' [Ha H]. run. by split.
  - run_by (by apply cl_find_next) as r s' (Ha & Hp & Hin & H). run. split; [done|]. split_and!; [done|done|auto].
  - run_by (by apply cl_size) as n s' [-> ->]. run. by split.
  - run_by (by apply cl_for_each) as l s' [Ha H]. run. by split.
  - run_by (by apply cl_clear) as l s' [Ha H]. run. by split.
Qed.

Lemma answers_length u o op l a l' : answers cmp u o op l a l' -> (length l' <= length l + insertions [op])%nat.
Proof.
  destruct op, a; cbn; try done.
  - intros [(_ & -> & _)|(_ & -> & _)]; cbn; lia.
  - intros [(x & _ & -> & _)|(_ & -> & _)]; cbn; lia.
  - intros [-> _]. lia.
  - intros [-> _]. lia.
  - intros [-> _]. lia.
  - intros [-> _]. lia.
  - intros [-> _]. cbn. lia.
Qed.

(** A multiset that refuses equal keys has none. *)
Lemma answers_distinct o op l a l' : answers cmp true o op l a l' -> distinct cmp l -> distinct cmp l'.
Proof.
  pose proof (cl_cmp (ContainerLaws := L)) as Hc. intros Ha Hd. destruct op, a; cbn in Ha; try done.
  - destruct Ha as [(_ & Hp & Hno)|(_ & Hp & _)]; eapply distinct_perm; [by symmetry| |by symmetry|done]. apply distinct_cons; auto.
  - destruct Ha as [(x & _ & Hp & _)|(_ & Hp & _)]; [|eapply distinct_perm; [by symmetry|done]]. eapply distinct_tail, distinct_perm; [exact Hp|done].
  - destruct Ha as [Hp _]. eapply distinct_perm; [by symmetry|done].
  - destruct Ha as [Hp _]. eapply distinct_perm; [by symmetry|done].
  - by destruct Ha as [-> _].
  - destruct Ha as [Hp _]. eapply distinct_perm; [by symmetry|done].
  - destruct Ha as [-> _]. apply distinct_nil.
Qed.

Lemma perform_all_runs ops : forall s, invariant s -> (unique s = true -> distinct cmp (entries s)) -> Z.of_nat (length (entries s) + insertions ops) < 2 ^ 30 ->
  runs (perform_all O ops) (fun rs s' => alike s s' /\ all_answers cmp (unique s) (ordered s) ops (entries s) rs (entries s')) s.
Proof.
  induction ops as [|op ops IH]; intros s Hi Hd Hl; cbn; run; [done|].
  run_by (apply perform_runs; [done|done|lia]) as a s1 [(Hi1 & Hu1 & Ho1) Ha]. run.
  pose proof (answers_length _ _ _ _ _ _ Ha) as Hlen. assert (Hins : insertions (op :: ops) = (insertions [op] + insertions ops)%nat) by by destruct op.
  assert (Hd1 : unique s1 = true -> distinct cmp (entries s1)).
  { rewrite Hu1. intros Hu. rewrite Hu in Ha. eapply answers_distinct; [exact Ha|by apply Hd]. }
  run_by (apply IH; [done|done|lia]) as rs s2 [(Hi2 & Hu2 & Ho2) Hr]. run. split; [split_and!; congruence|].
  exists (entries s1). split; [done|]. by rewrite <- Hu1, <- Ho1.
Qed.
End refinement.
