(* ===== verification/QSort.v ===== *)
(** The sort of [snmplib/container_binary_array.c], [array_qsort], and its
    correctness: it ends, stays inside its segment, permutes it and leaves it in
    order, for every comparison that is a total preorder. *)
From Stdlib Require Import ZArith Lia.
From stdpp Require Import sets sorting relations.
From S2P Require Import Prelude Container.

(** ** The code

    The array is a list of pointers, null ones being [None]; reading outside of it,
    or comparing a null pointer, is undefined. *)
Section code.
Context {E : Type} (cmp : E -> E -> Z).

(** [data[i]] *)
Definition data_cell (data : list (option E)) (i : Z) : option (option E) := if 0 <=? i then data !! Z.to_nat i else None.
Definition entry (data : list (option E)) (i : Z) : option E := mjoin (data_cell data i).

Definition swap (data : list (option E)) (i j : Z) : option (list (option E)) :=
  x ← data_cell data i; y ← data_cell data j; Some (<[Z.to_nat j := x]> (<[Z.to_nat i := y]> data)).

(** [while (i < last && f(data[i], mid) < 0) ++i;] *)
Fixpoint scan_up (fuel : nat) (data : list (option E)) (last : Z) (mid : E) (i : Z) : option Z :=
  if i <? last then
    x ← entry data i;
    if cmp x mid <? 0 then match fuel with O => None | S fuel => scan_up fuel data last mid (i + 1) end else Some i
  else Some i.

(** [while (j > first && f(mid, data[j]) < 0) --j;] *)
Fixpoint scan_down (fuel : nat) (data : list (option E)) (first : Z) (mid : E) (j : Z) : option Z :=
  if first <? j then
    x ← entry data j;
    if cmp mid x <? 0 then match fuel with O => None | S fuel => scan_down fuel data first mid (j - 1) end else Some j
  else Some j.

(** [do { ... } while (i <= j);] *)
Fixpoint partition (fuel : nat) (data : list (option E)) (first last : Z) (mid : E) (i j : Z) : option (list (option E) * Z * Z) :=
  match fuel with
  | O => None
  | S fuel =>
    i ← scan_up (Z.to_nat (last - i)) data last mid i;
    j ← scan_down (Z.to_nat (j - first)) data first mid j;
    if i <? j then
      data ← swap data i j;
      if i + 1 <=? j - 1 then partition fuel data first last mid (i + 1) (j - 1) else Some (data, i + 1, j - 1)
    else if i =? j then Some (data, i + 1, j - 1)
    else Some (data, i, j)
  end.

(** [first] and [last] are [int]s, and so is their sum. *)
Fixpoint array_qsort (fuel : nat) (data : list (option E)) (first last : Z) : option (list (option E)) :=
  match fuel with
  | O => None
  | S fuel =>
    m ← int (first + last);
    mid ← entry data (Z.quot m 2);
    '(data, i, j) ← partition (S (Z.to_nat (last - first))) data first last mid first last;
    data ← (if first <? j then array_qsort fuel data first j else Some data);
    if i <? last then array_qsort fuel data i last else Some data
  end.
End code.

(** ** Exchanges inside a segment *)

Section shuffle.
Context {E : Type}.
Implicit Types data : list (option E).

(** [data'] is [data] after exchanges of cells from [a] to [b]. *)
Definition exchange (a b : Z) data data' : Prop := exists i j, a <= i <= b /\ a <= j <= b /\ swap data i j = Some data'.
Abbreviation shuffle a b := (rtc (exchange a b)).

Lemma data_cell_lookup data i : 0 <= i -> data_cell data i = data !! Z.to_nat i.
Proof. intros. unfold data_cell. by rewrite (proj2 (Z.leb_le _ _)). Qed.

Lemma swap_cells data i j data' : swap data i j = Some data' ->
  length data' = length data /\ data_cell data' i = data_cell data j /\ data_cell data' j = data_cell data i /\
  forall k, k <> i -> k <> j -> data_cell data' k = data_cell data k.
Proof.
  unfold swap. destruct (data_cell data i) as [x|] eqn:Hi; [|done]. obind. destruct (data_cell data j) as [y|] eqn:Hj; [|done]. obind. intros [= <-].
  unfold data_cell in Hi, Hj |- *. destruct (Z.leb_spec 0 i), (Z.leb_spec 0 j); try done.
  pose proof (lookup_lt_Some _ _ _ Hi). pose proof (lookup_lt_Some _ _ _ Hj). split_and!.
  - by rewrite !length_insert.
  - destruct (decide (i = j)) as [->|Hne]; [rewrite list_lookup_insert_eq by (rewrite length_insert; lia); congruence|].
    rewrite list_lookup_insert_ne by lia. by rewrite list_lookup_insert_eq by lia.
  - by rewrite list_lookup_insert_eq by (rewrite length_insert; lia).
  - intros k Hki Hkj. destruct (Z.leb_spec 0 k); [|done]. by rewrite !list_lookup_insert_ne by lia.
Qed.

Lemma swap_total data i j : is_Some (data_cell data i) -> is_Some (data_cell data j) -> exists data', swap data i j = Some data'.
Proof. intros [x Hx] [y Hy]. unfold swap. rewrite Hx. obind. rewrite Hy. obind. eauto. Qed.

Lemma insert_Permutation {A} (l : list A) i j x y : l !! i = Some x -> l !! j = Some y -> <[j := x]> (<[i := y]> l) ≡ₚ l.
Proof.
  intros Hi Hj. apply Permutation_inj. rewrite !length_insert. split; [done|].
  exists (fun k => if decide (k = i) then j else if decide (k = j) then i else k). split.
  - intros a b. repeat case_decide; congruence.
  - intros k. pose proof (lookup_lt_Some _ _ _ Hi). pose proof (lookup_lt_Some _ _ _ Hj).
    case_decide as E1; [subst k|case_decide as E2; [subst k|]].
    + destruct (decide (i = j)) as [->|]; [rewrite list_lookup_insert_eq by (rewrite length_insert; lia); congruence|].
      rewrite list_lookup_insert_ne by congruence. rewrite list_lookup_insert_eq by lia. done.
    + rewrite list_lookup_insert_eq by (rewrite length_insert; lia). done.
    + by rewrite !list_lookup_insert_ne by congruence.
Qed.

Lemma swap_Permutation data i j data' : swap data i j = Some data' -> data' ≡ₚ data.
Proof.
  unfold swap. destruct (data_cell data i) as [x|] eqn:Hi; [|done]. obind. destruct (data_cell data j) as [y|] eqn:Hj; [|done]. obind. intros [= <-].
  unfold data_cell in Hi, Hj. destruct (Z.leb_spec 0 i), (Z.leb_spec 0 j); try done. by apply insert_Permutation.
Qed.

Lemma shuffle_Permutation a b data data' : shuffle a b data data' -> data' ≡ₚ data.
Proof. induction 1 as [|d d' d'' (i & j & _ & _ & Hs) _ IH]; [done|]. rewrite IH. by eapply swap_Permutation. Qed.

Lemma shuffle_length a b data data' : shuffle a b data data' -> length data' = length data.
Proof. intros H. by rewrite (shuffle_Permutation _ _ _ _ H). Qed.

(** Outside of the segment nothing has changed. *)
Lemma shuffle_outside a b data data' k : shuffle a b data data' -> k < a \/ b < k -> data_cell data' k = data_cell data k.
Proof.
  induction 1 as [|d d' d'' (i & j & Hi & Hj & Hs) _ IH]; [done|]. intros Hk. rewrite IH by done.
  apply swap_cells in Hs as (_ & _ & _ & Hs). apply Hs; lia.
Qed.

(** A cell of the segment has come from one of the segment. *)
Lemma shuffle_from a b data data' k : shuffle a b data data' -> a <= k <= b -> exists k', a <= k' <= b /\ data_cell data' k = data_cell data k'.
Proof.
  intros H. revert k. induction H as [|d d' d'' (i & j & Hi & Hj & Hs) _ IH]; intros k Hk; [eauto|].
  destruct (IH k Hk) as (k' & Hk' & ->). apply swap_cells in Hs as (_ & H1 & H2 & H3).
  destruct (decide (k' = i)) as [->|]; [by exists j|]. destruct (decide (k' = j)) as [->|]; [by exists i|].
  exists k'. split; [done|by apply H3].
Qed.

Lemma shuffle_wider a b a' b' data data' : a' <= a -> b <= b' -> shuffle a b data data' -> shuffle a' b' data data'.
Proof. intros Ha Hb. apply rtc_subrel. intros d d' (i & j & Hi & Hj & Hs). exists i, j. split_and!; done || lia. Qed.

(** The segment from [a] to [b] is inside the array and has no null pointers. *)
Definition no_nulls (a b : Z) data : Prop := forall k, a <= k <= b -> exists x, data_cell data k = Some (Some x).

(** All entries from [a] to [b] satisfy [P]. *)
Definition everywhere (P : E -> Prop) (a b : Z) data : Prop := forall k x, a <= k <= b -> entry data k = Some x -> P x.

Lemma entry_filled a b data k : no_nulls a b data -> a <= k <= b -> exists x, entry data k = Some x /\ data_cell data k = Some (Some x).
Proof. intros H Hk. destruct (H k Hk) as [x Hx]. exists x. unfold entry. by rewrite Hx. Qed.

Lemma shuffle_filled a b data data' : shuffle a b data data' -> no_nulls a b data -> no_nulls a b data'.
Proof. intros Hs H k Hk. destruct (shuffle_from _ _ _ _ _ Hs Hk) as (k' & Hk' & ->). by apply H. Qed.

Lemma shuffle_everywhere P a b data data' : shuffle a b data data' -> everywhere P a b data -> everywhere P a b data'.
Proof. unfold everywhere, entry. intros Hs H k x Hk. destruct (shuffle_from _ _ _ _ _ Hs Hk) as (k' & Hk' & ->). by apply H. Qed.

Lemma shuffle_everywhere_outside P a b c d data data' : shuffle a b data data' -> d < a \/ b < c -> everywhere P c d data -> everywhere P c d data'.
Proof.
  unfold everywhere, entry. intros Hs Hd H k x Hk. rewrite (shuffle_outside _ _ _ _ k Hs) by lia. by apply H.
Qed.

Lemma everywhere_app P a b c data : everywhere P a b data -> everywhere P (b + 1) c data -> everywhere P a c data.
Proof. intros H1 H2 k x Hk. destruct (Z.le_gt_cases k b); [apply H1; lia|apply H2; lia]. Qed.

Lemma everywhere_one (P : E -> Prop) a data x : entry data a = Some x -> P x -> everywhere P a a data.
Proof. intros Hx HP k y Hk Hy. replace k with a in Hy by lia. congruence. Qed.

Lemma everywhere_sub P a b a' b' data : a <= a' -> b' <= b -> everywhere P a b data -> everywhere P a' b' data.
Proof. intros Ha Hb H k x Hk. apply H. lia. Qed.
End shuffle.
Abbreviation shuffle a b := (rtc (exchange a b)).

(** ** The sort *)

Section sort.
Context {E : Type} (cmp : E -> E -> Z) `{!Comparison cmp}.
Implicit Types data : list (option E).

Abbreviation below mid := (fun x => cmp x mid <= 0).
Abbreviation above mid := (fun x => 0 <= cmp x mid).

Lemma everywhere_none P a b data : b < a -> everywhere P a b data.
Proof. intros H k x Hk. lia. Qed.

(** A scan stops at an entry on the other side of [mid], if there is one. *)
Lemma scan_up_runs data first last mid s y : no_nulls first last data -> s <= last -> entry data s = Some y -> 0 <= cmp y mid ->
  forall fuel i, fuel = Z.to_nat (last - i) -> first <= i <= s -> exists i' x, scan_up cmp fuel data last mid i = Some i' /\ i <= i' <= s /\
    entry data i' = Some x /\ 0 <= cmp x mid /\ everywhere (below mid) i (i' - 1) data.
Proof.
  intros Hf Hs Hy Hys. induction fuel as [|fuel IH]; intros i Hfu Hi; cbn [scan_up].
  { rewrite (proj2 (Z.ltb_ge i last)) by lia. exists i, y. replace s with i in * by lia.
    split_and!; try done; try lia. apply everywhere_none. lia. }
  rewrite (proj2 (Z.ltb_lt i last)) by lia. destruct (entry_filled _ _ _ i Hf) as (x & Hx & _); [lia|]. rewrite Hx. obind.
  destruct (Z.ltb_spec (cmp x mid) 0) as [Hc|Hc].
  - assert (i <> s) by (intros ->; rewrite Hy in Hx; injection Hx as ->; lia).
    destruct (IH (i + 1)) as (i' & x' & -> & ? & ? & ? & He); [lia..|]. exists i', x'. split_and!; try done; try lia.
    eapply everywhere_app with (b := i); [|done]. eapply everywhere_one; [done|lia].
  - exists i, x. split_and!; try done; try lia. apply everywhere_none. lia.
Qed.

Lemma scan_down_runs data first last mid s y : no_nulls first last data -> first <= s -> entry data s = Some y -> cmp y mid <= 0 ->
  forall fuel j, fuel = Z.to_nat (j - first) -> s <= j <= last -> exists j' x, scan_down cmp fuel data first mid j = Some j' /\ s <= j' <= j /\
    entry data j' = Some x /\ cmp x mid <= 0 /\ everywhere (above mid) (j' + 1) j data.
Proof.
  intros Hf Hs Hy Hys. induction fuel as [|fuel IH]; intros j Hfu Hj; cbn [scan_down].
  { rewrite (proj2 (Z.ltb_ge first j)) by lia. exists j, y. replace s with j in * by lia.
    split_and!; try done; try lia. apply everywhere_none. lia. }
  rewrite (proj2 (Z.ltb_lt first j)) by lia. destruct (entry_filled _ _ _ j Hf) as (x & Hx & _); [lia|]. rewrite Hx. obind.
  pose proof (cmp_opp mid x). destruct (Z.ltb_spec (cmp mid x) 0) as [Hc|Hc].
  - assert (j <> s) by (intros ->; rewrite Hy in Hx; injection Hx as ->; lia).
    destruct (IH (j - 1)) as (j' & x' & -> & ? & ? & ? & He); [lia..|]. exists j', x'. split_and!; try done; try lia.
    eapply everywhere_app with (b := j - 1); [done|]. replace (j - 1 + 1) with j by lia. eapply everywhere_one; [done|lia].
  - exists j, x. split_and!; try done; try lia. apply everywhere_none. lia.
Qed.

(** What the loop has done when it looks for the next two entries to exchange: it
    has gone on from both ends, and there are entries that stop its scans. *)
Record halfway (first last : Z) (mid : E) (i j : Z) data : Prop := mkhalfway {
  hw_filled : no_nulls first last data;
  hw_range : first <= i <= j /\ j <= last;
  hw_below : everywhere (below mid) first (i - 1) data;
  hw_above : everywhere (above mid) (j + 1) last data;
  hw_stops : exists up x down y, i <= up <= last /\ entry data up = Some x /\ 0 <= cmp x mid /\
    first <= down <= j /\ entry data down = Some y /\ cmp y mid <= 0 /\ (up <= down \/ first < i /\ j < last)
}.

(** Its outcome: the segment in two parts. *)
Record parted (first last : Z) (mid : E) (i j : Z) data : Prop := mkparted {
  pt_range : first < i /\ j < last /\ j < i /\ first - 1 <= j /\ i <= last + 1;
  pt_below : everywhere (below mid) first (i - 1) data;
  pt_above : everywhere (above mid) (j + 1) last data
}.

(** One exchange. *)
Lemma swap_halfway first last mid i j data x y : no_nulls first last data -> first <= i -> i < j -> j <= last ->
  everywhere (below mid) first (i - 1) data -> everywhere (above mid) (j + 1) last data ->
  entry data i = Some x -> 0 <= cmp x mid -> entry data j = Some y -> cmp y mid <= 0 ->
  exists data', swap data i j = Some data' /\ shuffle first last data data' /\ no_nulls first last data' /\
    everywhere (below mid) first i data' /\ everywhere (above mid) j last data' /\ entry data' i = Some y /\ entry data' j = Some x.
Proof.
  intros Hf Hi Hij Hj Hb Ha Hx Hx' Hy Hy'.
  destruct (swap_total data i j) as [data' Hs]; [destruct (Hf i); [lia|eauto]|destruct (Hf j); [lia|eauto]|].
  assert (Hsh : shuffle first last data data') by (apply rtc_once; exists i, j; split_and!; done || lia).
  pose proof (swap_cells _ _ _ _ Hs) as (_ & H1 & H2 & H3).
  assert (Ei : entry data' i = Some y) by (unfold entry; by rewrite H1). assert (Ej : entry data' j = Some x) by (unfold entry; by rewrite H2).
  exists data'. split_and!; try done.
  - by eapply shuffle_filled.
  - apply everywhere_app with (b := i - 1).
    + intros k z Hk. unfold entry. rewrite H3 by lia. by apply Hb.
    + replace (i - 1 + 1) with i by lia. by eapply everywhere_one.
  - apply everywhere_app with (b := j); [by eapply everywhere_one|].
    intros k z Hk. unfold entry. rewrite H3 by lia. by apply Ha.
Qed.

Lemma partition_runs first last mid : forall fuel i j data, halfway first last mid i j data -> (Z.to_nat (j - i) < fuel)%nat ->
  exists data' i' j', partition cmp fuel data first last mid i j = Some (data', i', j') /\ shuffle first last data data' /\
    parted first last mid i' j' data'.
Proof.
  induction fuel as [|fuel IH]; intros i j data H Hfu; [lia|]. cbn [partition].
  destruct H as [Hf Hr Hb Ha (up & xu & down & yd & Hup & Exu & Hxu & Hdn & Eyd & Hyd & Hord)].
  destruct (scan_up_runs data first last mid up xu Hf ltac:(lia) Exu Hxu _ i eq_refl) as (i1 & x & Hs1 & Hi1 & Ex & Hx & Hb1); [lia|].
  destruct (scan_down_runs data first last mid down yd Hf ltac:(lia) Eyd Hyd _ j eq_refl) as (j1 & y & Hs2 & Hj1 & Ey & Hy & Ha1); [lia|].
  rewrite Hs1. obind. rewrite Hs2. obind.
  assert (Hb' : everywhere (below mid) first (i1 - 1) data) by (apply everywhere_app with (b := i - 1); [done|by replace (i - 1 + 1) with i by lia]).
  assert (Ha' : everywhere (above mid) (j1 + 1) last data) by (by apply everywhere_app with (b := j)).
  destruct (Z.ltb_spec i1 j1) as [Hlt|Hge].
  - destruct (swap_halfway first last mid i1 j1 data x y) as (data' & -> & Hsh & Hf' & Hb2 & Ha2 & Ei & Ej); [done|lia..|done|done|done|done|done|done|]. obind.
    destruct (Z.leb_spec (i1 + 1) (j1 - 1)).
    + destruct (IH (i1 + 1) (j1 - 1) data') as (data2 & i2 & j2 & -> & Hsh2 & Hp); [|lia|].
      * constructor; [done|lia|by replace (i1 + 1 - 1) with i1 by lia|by replace (j1 - 1 + 1) with j1 by lia|].
        exists j1, x, i1, y. split_and!; done || lia.
      * exists data2, i2, j2. split_and!; [done|by etrans|done].
    + exists data', (i1 + 1), (j1 - 1). split_and!; [done|done|]. constructor; [lia|by replace (i1 + 1 - 1) with i1 by lia|by replace (j1 - 1 + 1) with j1 by lia].
  - destruct (Z.eqb_spec i1 j1) as [Heq|Hne].
    + subst j1. exists data, (i1 + 1), (i1 - 1). split_and!; [done|apply rtc_refl|]. constructor; [lia| |].
      * replace (i1 + 1 - 1) with i1 by lia. apply everywhere_app with (b := i1 - 1); [done|]. replace (i1 - 1 + 1) with i1 by lia. by eapply everywhere_one.
      * replace (i1 - 1 + 1) with i1 by lia. apply everywhere_app with (b := i1); [exact (everywhere_one _ _ _ x Ex Hx)|done].
    + exists data, i1, j1. split_and!; [done|apply rtc_refl|]. constructor; [lia|done|done].
Qed.

(** The segment from [a] to [b] is in order. *)
Definition ascending (a b : Z) data : Prop :=
  forall k l x y, a <= k -> k < l -> l <= b -> entry data k = Some x -> entry data l = Some y -> cmp x y <= 0.

Lemma ascending_outside a b c d data data' : shuffle a b data data' -> d < a \/ b < c -> ascending c d data -> ascending c d data'.
Proof.
  intros Hs Hd H k l x y Hk Hkl Hl. unfold entry. rewrite !(shuffle_outside _ _ _ _ _ Hs) by lia. by apply H.
Qed.

Lemma ascending_parted first last mid i j data : parted first last mid i j data -> ascending first j data -> ascending i last data -> ascending first last data.
Proof.
  intros [Hr Hb Ha] Hl Hu k l x y Hk Hkl Hll Hx Hy. destruct (Z.le_gt_cases l j); [by apply (Hl k l)|].
  destruct (Z.le_gt_cases i k); [by apply (Hu k l)|]. apply cmp_trans with mid; [apply (Hb k); [lia|done]|].
  apply cmp_le_ge. apply (Ha l); [lia|done].
Qed.

Theorem array_qsort_sorts fuel data first last : 0 <= first <= last -> last < 2 ^ 30 -> no_nulls first last data -> (Z.to_nat (last - first) < fuel)%nat ->
  exists data', array_qsort cmp fuel data first last = Some data' /\ shuffle first last data data' /\ ascending first last data'.
Proof.
  revert data first last. induction fuel as [|fuel IH]; intros data first last Hr Hl Hf Hfu; [lia|]. cbn [array_qsort].
  rewrite int_small by lia. obind. rewrite Z.quot_div_nonneg by lia. set (m := (first + last) / 2).
  assert (Hm : first <= m <= last) by (unfold m; split; [apply Z.div_le_lower_bound|apply Z.div_le_upper_bound]; lia).
  destruct (entry_filled _ _ _ m Hf Hm) as (mid & Emid & _). rewrite Emid. obind.
  destruct (partition_runs first last mid (S (Z.to_nat (last - first))) first last data) as (data1 & i & j & -> & Hs1 & Hp); [|lia|].
  { constructor; [done|lia|apply everywhere_none; lia|apply everywhere_none; lia|]. pose proof (cmp_refl (cmp := cmp) mid).
    exists m, mid, m, mid. split_and!; try done; try lia. }
  obind. pose proof (shuffle_filled _ _ _ _ Hs1 Hf) as Hf1. pose proof Hp as [Hrange Hb Ha].
  assert (H2 : exists data2, (if first <? j then array_qsort cmp fuel data1 first j else Some data1) = Some data2 /\
            shuffle first j data1 data2 /\ ascending first j data2).
  { destruct (Z.ltb_spec first j).
    - apply IH; [lia|lia| |lia]. intros k Hk. apply Hf1. lia.
    - exists data1. split_and!; [done|apply rtc_refl|]. intros k l ? ? ? ? ?. lia. }
  destruct H2 as (data2 & -> & Hs2 & H2). obind.
  assert (H3 : exists data3, (if i <? last then array_qsort cmp fuel data2 i last else Some data2) = Some data3 /\
            shuffle i last data2 data3 /\ ascending i last data3).
  { destruct (Z.ltb_spec i last).
    - apply IH; [lia|lia| |lia]. intros k Hk. apply (shuffle_wider first j first last) in Hs2; [|lia|lia]. eapply shuffle_filled in Hs2; [|done]. apply Hs2. lia.
    - exists data2. split_and!; [done|apply rtc_refl|]. intros k l ? ? ? ? ?. lia. }
  destruct H3 as (data3 & -> & Hs3 & H3). exists data3.
  apply (shuffle_wider first j first last) in Hs2 as Hs2'; [|lia|lia]. apply (shuffle_wider i last first last) in Hs3 as Hs3'; [|lia|lia].
  split_and!; [done|by etrans; [|etrans]|].
  apply (ascending_parted first last mid i j); [|apply (ascending_outside i last first j data2); [done|lia|done]|done]. constructor; [lia| |].
  - apply (shuffle_everywhere_outside _ i last _ _ data2); [done|lia|]. apply (shuffle_everywhere _ _ _ data1); [|done].
    apply (shuffle_wider first j); [lia|lia|done].
  - apply (shuffle_everywhere _ _ _ data2); [apply (shuffle_wider i last); [lia|lia|done]|].
    by apply (shuffle_everywhere_outside _ first j _ _ data1); [|lia|].
Qed.
End sort.
