(* ===== verification/BinArray.v ===== *)
(** The sorted array, [snmplib/container_binary_array.c]: entries are put at the
    end, the array is sorted when it is next asked, and searched by halving.

    A [binary_array] has the members of [binary_array_table] and those of its
    [netsnmp_container] the operations use.  [mem] tells whether [realloc] and
    [malloc] find memory. *)
From Stdlib Require Import ZArith Lia.
From stdpp Require Import sets sorting.
From S2P Require Import Prelude StateMonad Container QSort.

Record binary_array (E : Type) : Type := mkba {
  max_size : Z;                (* size_t *)
  count : Z;                   (* size_t *)
  dirty : Z;                   (* int *)
  data : list (option E);
  flags : Z;                   (* u_int *)
  sync : Z                     (* u_long *)
}.
Arguments mkba {E}. Arguments max_size {E}. Arguments count {E}. Arguments dirty {E}. Arguments data {E}. Arguments flags {E}. Arguments sync {E}.

Section code.
Context {E : Type} (cmp : E -> E -> Z).
Abbreviation ba := (binary_array E).
Abbreviation m A := (M ba A).
Implicit Types t : ba.

Definition set_count (x : Z) t : ba := mkba (max_size t) x (dirty t) (data t) (flags t) (sync t).
Definition set_dirty (x : Z) t : ba := mkba (max_size t) (count t) x (data t) (flags t) (sync t).
Definition set_data (x : list (option E)) t : ba := mkba (max_size t) (count t) (dirty t) x (flags t) (sync t).
Definition set_max_size (x : Z) t : ba := mkba x (count t) (dirty t) (data t) (flags t) (sync t).
Definition set_ba_flags (x : Z) t : ba := mkba (max_size t) (count t) (dirty t) (data t) x (sync t).
Definition bump_sync t : ba := mkba (max_size t) (count t) (dirty t) (data t) (flags t) (u64 (sync t + 1)).

(** [c->flags & x] *)
Definition ba_flag (x : Z) t : bool := negb (Z.land (flags t) x =? 0).

Definition netsnmp_binary_array_initialize : ba := mkba 0 0 0 [] 0 0.

Definition Sort_Array : m Z :=
  t ← get;
  if ba_flag CONTAINER_KEY_UNSORTED t then mret 0
  else
    (if negb (dirty t =? 0) then
       (if 1 <? count t then
          d ← lift (array_qsort cmp (Z.to_nat (count t)) (data t) 0 (s32 (u64 (count t - 1)))); modify (set_data d)
        else skip) ;;
       modify (set_dirty 0) ;; modify bump_sync
     else skip) ;;
    mret 1.

(** [for (; pos < t->count; ++pos) if (c->compare(t->data[pos], val) == 0) break;] *)
Fixpoint linear_loop (fuel : nat) (t : ba) (val : E) (pos : Z) : option Z :=
  if pos <? count t then
    x ← entry (data t) pos;
    if cmp x val =? 0 then Some pos else match fuel with O => None | S fuel => linear_loop fuel t val (pos + 1) end
  else Some pos.

Definition linear_search (val : E) : m Z :=
  t ← get;
  if count t =? 0 then mret (-1)
  else if negb (ba_flag CONTAINER_KEY_UNSORTED t) then mret (-1)
  else
    pos ← lift (linear_loop (Z.to_nat (count t)) t val 0);
    if count t <=? pos then mret (-1) else mret (s32 pos).

(** The loop of [binary_search]: [first], [middle] and [result] at its end. *)
Fixpoint binary_search_loop (fuel : nat) (t : ba) (val : E) (len middle first result : Z) : option (Z * Z * Z) :=
  if 0 <? len then
    match fuel with
    | O => None
    | S fuel =>
      let half := Z.shiftr len 1 in
      let middle := first + half in
      x ← entry (data t) middle;
      let result := cmp x val in
      if result <? 0 then binary_search_loop fuel t val (len - half - 1) middle (middle + 1) result
      else if result =? 0 then Some (middle, middle, result)
      else binary_search_loop fuel t val half middle first result
    end
  else Some (first, middle, result).

Definition binary_search (val : E) (exact : bool) : m Z :=
  t ← get;
  if count t =? 0 then mret (-1)
  else if ba_flag CONTAINER_KEY_UNSORTED t then
    if negb exact then mret (-1) else linear_search val
  else
    (if negb (dirty t =? 0) then _ ← Sort_Array; skip else skip) ;;
    t ← get;
    '(first, middle, result) ← lift (binary_search_loop (Z.to_nat (count t)) t val (count t) 0 0 0);
    if count t <=? first then mret (-1)
    else
      result ← (if negb (first =? middle) then x ← lift (entry (data t) first); mret (cmp x val) else mret result);
      let first :=
        if result =? 0 then
          if negb exact then (let first := u64 (first + 1) in if first =? count t then u64 (-1) else first) else first
        else if exact then u64 (-1) else first in
      mret (s32 first).

Definition netsnmp_binary_array_options_set (set : bool) (flag : Z) : m Z :=
  let BA_FLAGS := Z.lor CONTAINER_KEY_ALLOW_DUPLICATES CONTAINER_KEY_UNSORTED in
  t ← get;
  if set then
    if Z.land flag BA_FLAGS =? flag then modify (set_ba_flags flag) ;; mret (s32 flag) else mret (-1)
  else mret (if Z.land (flags t) flag =? flag then 1 else 0).

Definition netsnmp_binary_array_count : m Z := gets count.

(** [while (result == 0) { if (++index == t->count) return NULL; ... }], none for
    the null pointer. *)
Fixpoint skip_duplicates (fuel : nat) (t : ba) (key : E) (index : Z) : option (option Z) :=
  x ← entry (data t) index;
  if cmp x key =? 0 then
    if index + 1 =? count t then Some None else match fuel with O => None | S fuel => skip_duplicates fuel t key (index + 1) end
  else Some (Some index).

Definition netsnmp_binary_array_get (key : option E) (exact : bool) : m (option E) :=
  t ← get;
  if count t =? 0 then mret None
  else
    (if negb (dirty t =? 0) then _ ← Sort_Array; skip else skip) ;;
    index ←
      match key with
      | None => mret (Some 0)
      | Some key =>
        index ← binary_search key exact;
        t ← get;
        if index =? -1 then mret None
        else if negb exact && ba_flag CONTAINER_KEY_ALLOW_DUPLICATES t then lift (skip_duplicates (Z.to_nat (count t)) t key index)
        else mret (Some index)
      end;
    match index with
    | None => mret None
    | Some index => t ← get; lift (data_cell (data t) index)
    end.

(** [memmove] of [n] pointers. *)
Definition move_cells (dst src n : Z) (d : list (option E)) : option (list (option E)) :=
  if (0 <=? dst) && (0 <=? src) && (0 <=? n) && (dst + n <=? Z.of_nat (length d)) && (src + n <=? Z.of_nat (length d))
  then Some (take (Z.to_nat dst) d ++ take (Z.to_nat n) (drop (Z.to_nat src) d) ++ drop (Z.to_nat (dst + n)) d)
  else None.

(** The result and what [*save] is set to, [save] telling whether it is asked for. *)
Definition netsnmp_binary_array_remove_at (index : Z) (save : bool) : m (Z * option E) :=
  t ← get;
  if count t =? 0 then mret (0, None)
  else
    saved ← (if save then lift (data_cell (data t) index) else mret None);
    let count := u64 (count t - 1) in
    modify (set_count count) ;;
    (if negb (index =? count) then
       d ← lift (move_cells index (index + 1) (u64 (count - index)) (data t)); modify (set_data d) ;; modify bump_sync
     else skip) ;;
    mret (0, saved).

Definition netsnmp_binary_array_remove (key : E) (save : bool) : m (Z * option E) :=
  t ← get;
  if count t =? 0 then mret (0, None)
  else
    (if negb (dirty t =? 0) then _ ← Sort_Array; skip else skip) ;;
    index ← binary_search key true;
    if index =? -1 then mret (-1, None) else netsnmp_binary_array_remove_at (u64 index) save.

(** The entries [fe] is called with, in order. *)
Definition all_entries (t : ba) : option (list E) := mapM (entry (data t)) (seqZ 0 (count t)).

Definition netsnmp_binary_array_for_each (sort : bool) : m (list E) :=
  t ← get;
  (if sort && negb (dirty t =? 0) then _ ← Sort_Array; skip else skip) ;;
  t ← get; lift (all_entries t).

Definition netsnmp_binary_array_clear (fe : bool) : m (list E) :=
  t ← get;
  l ← (if fe then lift (all_entries t) else mret []);
  modify (set_count 0) ;; modify (set_dirty 0) ;; modify bump_sync ;; mret l.

Definition netsnmp_binary_array_insert (mem : bool) (e : E) : m Z :=
  t ← get;
  let duplicates := ba_flag CONTAINER_KEY_ALLOW_DUPLICATES t in
  let was_dirty := if duplicates then 0 else dirty t in
  found ← (if duplicates then mret None else netsnmp_binary_array_get (Some e) true);
  match found with
  | Some _ => mret (-1)
  | None =>
    t ← get;
    let full := max_size t <=? count t in
    if full && negb mem then mret (-1)
    else
      (if full then
         let new_max := if 0 <? max_size t then u64 (2 * max_size t) else 10 in
         modify (set_data (data t ++ replicate (Z.to_nat (new_max - max_size t)) None)) ;; modify (set_max_size new_max)
       else skip) ;;
      t ← get;
      (if count t <? Z.of_nat (length (data t)) then modify (set_data (<[Z.to_nat (count t) := Some e]> (data t))) else lift None) ;;
      modify (set_count (u64 (count t + 1))) ;;
      modify (set_dirty 1) ;;
      (if was_dirty =? 0 then modify bump_sync else skip) ;;
      mret 0
  end.

(** ** Subsets: [ncmp] compares with a partial key *)

Fixpoint start_loop (ncmp : E -> E -> Z) (fuel : nat) (t : ba) (val : E) (len first : Z) : option Z :=
  if 0 <? len then
    match fuel with
    | O => None
    | S fuel =>
      let half := Z.shiftr len 1 in
      let middle := first + half in
      x ← entry (data t) middle;
      if ncmp x val <? 0 then start_loop ncmp fuel t val (len - half - 1) (middle + 1) else start_loop ncmp fuel t val half first
    end
  else Some first.

Definition binary_search_for_start (ncmp : E -> E -> Z) (val : E) : m Z :=
  t ← get;
  if count t =? 0 then mret (-1)
  else
    (if negb (dirty t =? 0) then _ ← Sort_Array; skip else skip) ;;
    t ← get;
    first ← lift (start_loop ncmp (Z.to_nat (count t)) t val (count t) 0);
    if count t <=? first then mret (-1)
    else x ← lift (entry (data t) first); if negb (ncmp x val =? 0) then mret (-1) else mret (s32 first).

(** [for (i = start + 1; i < t->count; ++i)]: [end] when it is left. *)
Fixpoint subset_end (ncmp : E -> E -> Z) (fuel : nat) (t : ba) (key : E) (i last : Z) : option Z :=
  if i <? count t then
    x ← entry (data t) i;
    if negb (0 =? ncmp x key) then Some last else match fuel with O => None | S fuel => subset_end ncmp fuel t key (i + 1) (last + 1) end
  else Some last.

(** The subset and its length; [None] is the null pointer. *)
Definition netsnmp_binary_array_get_subset (ncompare : option (E -> E -> Z)) (mem : bool) (key : E) : m (option (list (option E))) :=
  t ← get;
  match ncompare with
  | None => mret None
  | Some ncmp =>
    if count t =? 0 then mret None
    else
      (if negb (dirty t =? 0) then _ ← Sort_Array; skip else skip) ;;
      start ← binary_search_for_start ncmp key;
      if start =? -1 then mret None
      else
        t ← get;
        last ← lift (subset_end ncmp (Z.to_nat (count t)) t key (start + 1) start);
        let len := last - start + 1 in
        if mem then
          if (0 <=? start) && (start + len <=? Z.of_nat (length (data t)))
          then mret (Some (take (Z.to_nat len) (drop (Z.to_nat start) (data t)))) else lift None
        else mret None
  end.

(** [_ba_duplicate]: a container of its own with the same members. *)
Definition _ba_duplicate (mem : bool) (flag : Z) (t : ba) : option ba := if negb (flag =? 0) then None else if mem then Some t else None.

(** ** Iterators: [binary_array_iterator] *)
Record binary_array_iterator : Type := mkbaiter { it_sync : Z; it_pos : Z }.
Implicit Types it : binary_array_iterator.

Definition _ba_iterator_position it (pos : Z) : m (option E) :=
  t ← get;
  if negb (sync t =? it_sync it) then mret None
  else if 0 =? count t then mret None
  else if count t <=? pos then mret None
  else lift (data_cell (data t) pos).

Definition _ba_iterator_curr it : m (option E) := _ba_iterator_position it (it_pos it).
Definition _ba_iterator_first it : m (option E) := _ba_iterator_position it 0.

Definition _ba_iterator_next it : m (option E * binary_array_iterator) :=
  let it := mkbaiter (it_sync it) (u64 (it_pos it + 1)) in
  x ← _ba_iterator_position it (it_pos it); mret (x, it).

Definition _ba_iterator_last it : m (option E) := t ← get; _ba_iterator_position it (u64 (count t - 1)).

Definition _ba_iterator_remove it : m (Z * binary_array_iterator) :=
  '(rc, _) ← netsnmp_binary_array_remove_at (it_pos it) false;
  mret (rc, mkbaiter (u64 (it_sync it + 1)) (u64 (it_pos it - 1))).

Definition _ba_iterator_reset it : m (Z * binary_array_iterator) :=
  t ← get;
  (if negb (dirty t =? 0) then _ ← Sort_Array; skip else skip) ;;
  t ← get; mret (0, mkbaiter (sync t) 0).

(** [_ba_iterator_get] *)
Definition _ba_iterator_get : m binary_array_iterator := '(_, it) ← _ba_iterator_reset (mkbaiter 0 0); mret it.

(** The functions [netsnmp_container_get_binary_array] sets. *)
Definition binary_array_ops : ContainerOps E ba := {|
  c_insert := netsnmp_binary_array_insert;
  c_remove k := '(rc, _) ← netsnmp_binary_array_remove k false; mret rc;
  c_find k := netsnmp_binary_array_get (Some k) true;
  c_find_next k := netsnmp_binary_array_get k false;
  c_size := netsnmp_binary_array_count;
  c_for_each := netsnmp_binary_array_for_each true;
  c_clear := netsnmp_binary_array_clear
|}.
End code.
