(* ===== verification/BinArrayProps.v ===== *)
(** The sorted array holds a multiset of entries: the sort, the search, what each
    operation does to it, iterators and subsets. *)
From Stdlib Require Import ZArith Lia.
From stdpp Require Import sets sorting relations.
From S2P Require Import Prelude StateMonad Oid Container QSort BinArray.

Section array.
Context {E : Type} (cmp : E -> E -> Z) `{!Comparison cmp}.
Implicit Types (t : binary_array E) (l : list E).
Local Coercion Z.of_nat : nat >-> Z.

(** The array of [t] has the entries [l]; it is sorted unless it is marked. *)
Record stores t l : Prop := mkstores {
  st_data : exists rest, data t = (Some <$> l) ++ rest;
  st_count : count t = length l;
  st_max : max_size t = length (data t);
  st_bounds : count t <= 2 ^ 30 /\ max_size t <= 2 ^ 31;
  st_sorted : dirty t = 0 -> sorted cmp l
}.

Lemma entry_app l rest k : 0 <= k < length l -> entry ((Some <$> l) ++ rest) k = l !! Z.to_nat k.
Proof.
  intros Hk. unfold entry. rewrite data_cell_lookup by lia. rewrite lookup_app_l by (rewrite length_fmap; lia).
  rewrite list_lookup_fmap. by destruct (l !! Z.to_nat k).
Qed.

Lemma entry_stores t l k : stores t l -> 0 <= k < count t -> exists x, entry (data t) k = Some x /\ l !! Z.to_nat k = Some x.
Proof.
  intros [[rest Hd] Hc _ _ _] Hk. rewrite Hd, entry_app by lia. destruct (lookup_lt_is_Some_2 l (Z.to_nat k)) as [x Hx]; [lia|]. eauto.
Qed.

Lemma filled_app l rest : no_nulls 0 (length l - 1) ((Some <$> l) ++ rest).
Proof.
  intros k Hk. rewrite data_cell_lookup by lia. rewrite lookup_app_l by (rewrite length_fmap; lia). rewrite list_lookup_fmap.
  destruct (lookup_lt_is_Some_2 l (Z.to_nat k)) as [x ->]; [lia|]. by exists x.
Qed.

(** An array whose first cells have entries. *)
Lemma filled_split (d : list (option E)) n : no_nulls 0 (n - 1) d -> (0 <= n) -> exists l, n = length l /\ take (Z.to_nat n) d = Some <$> l.
Proof.
  intros Hf Hn. remember (Z.to_nat n) as k eqn:Hk. revert n d Hf Hn Hk. induction k as [|k IH]; intros n d Hf Hn Hk.
  - exists []. split; [cbn; lia|done].
  - destruct (Hf 0) as [x Hx]; [lia|]. destruct d as [|y d]; [done|]. injection Hx as ->.
    destruct (IH (n - 1) d) as (l & Hl & Ht); [|lia|lia|].
    + intros i Hi. destruct (Hf (i + 1)) as [z Hz]; [lia|]. exists z. rewrite data_cell_lookup in Hz |- * by lia.
      by replace (Z.to_nat (i + 1)) with (S (Z.to_nat i)) in Hz by lia.
    + exists (x :: l). split; [cbn; lia|]. cbn. by rewrite Ht.
Qed.

Lemma ascending_sorted l rest : ascending cmp 0 (length l - 1) ((Some <$> l) ++ rest) -> sorted cmp l.
Proof.
  intros H. apply sorted_lookup. intros i j x y Hij Hi Hj. pose proof (lookup_lt_Some _ _ _ Hj).
  apply (H i j); [lia..| |]; rewrite entry_app, Nat2Z.id by lia; done.
Qed.

(** Sorting the first [length l] cells. *)
Lemma qsort_entries l rest : (1 < length l)%nat -> length l <= 2 ^ 30 -> exists l', l' ≡ₚ l /\ sorted cmp l' /\
  array_qsort cmp (length l) ((Some <$> l) ++ rest) 0 (length l - 1) = Some ((Some <$> l') ++ rest).
Proof.
  intros Hl Hb. destruct (array_qsort_sorts cmp (length l) ((Some <$> l) ++ rest) 0 (length l - 1)) as (d & Hd & Hs & Ha); [lia|lia|apply filled_app|lia|].
  destruct (filled_split d (length l)) as (l' & Hl' & Ht); [by eapply shuffle_filled, filled_app|lia|]. rewrite Nat2Z.id in Ht.
  assert (Hlen : length l' = length l) by lia.
  assert (Er : drop (length l) d = rest).
  { apply list_eq. intros i. rewrite lookup_drop. pose proof (shuffle_outside _ _ _ _ (length l + i)%nat Hs ltac:(lia)) as Ho.
    rewrite !data_cell_lookup, Nat2Z.id in Ho by lia. rewrite Ho, lookup_app_r by (rewrite length_fmap; lia). rewrite length_fmap. f_equal. lia. }
  assert (Ed : d = (Some <$> l') ++ rest) by (by rewrite <- (take_drop (length l) d), Ht, Er).
  exists l'. split_and!; [| |by rewrite Hd, Ed].
  - apply shuffle_Permutation in Hs. rewrite Ed in Hs. apply Permutation_app_inv_r in Hs.
    apply Permutation_map_inv in Hs as (l3 & He & Hp). apply (inj (fmap Some)) in He. by subst l3.
  - apply (ascending_sorted l' rest). by rewrite <- Ed, Hlen.
Qed.

Abbreviation unsorted t := (ba_flag CONTAINER_KEY_UNSORTED t).
Abbreviation duplicates t := (ba_flag CONTAINER_KEY_ALLOW_DUPLICATES t).

(** What asking the array for something may do to it: it may get sorted. *)
Record tidied t l t' l' : Prop := mktidied {
  td_stores : stores t' l';
  td_perm : l' ≡ₚ l;
  td_flags : flags t' = flags t;
  td_clean : dirty t = 0 -> t' = t /\ l' = l
}.

(** A sorted array that is not marked. *)
Definition clean t : Prop := unsorted t = false -> dirty t = 0.

Lemma tidied_refl t l : stores t l -> tidied t l t l.
Proof. by constructor. Qed.

Lemma tidied_trans t l t' l' t'' l'' : tidied t l t' l' -> tidied t' l' t'' l'' -> tidied t l t'' l''.
Proof.
  intros [H1 H2 H3 H4] [H1' H2' H3' H4']. constructor; [done|by etrans|congruence|].
  intros Hd. destruct (H4 Hd) as [-> ->]. by apply H4'.
Qed.

Lemma tidied_flag t l t' l' x : tidied t l t' l' -> ba_flag x t' = ba_flag x t.
Proof. intros [_ _ Hf _]. unfold ba_flag. by rewrite Hf. Qed.

Lemma Sort_Array_runs t l : stores t l ->
  runs (Sort_Array cmp) (fun r t' => r = (if unsorted t then 0 else 1) /\ clean t' /\ exists l', tidied t l t' l') t.
Proof.
  intros Hst. pose proof Hst as [[rest Hd] Hc Hm Hb Hs]. unfold Sort_Array. run. destruct (unsorted t) eqn:Hu.
  { run. split; [done|]. split; [intros ?; congruence|]. exists l. by apply tidied_refl. }
  destruct (Z.eqb_spec (dirty t) 0) as [Hz|Hz]; cbn [negb].
  { run. split; [done|]. split; [by intros _|]. exists l. by apply tidied_refl. }
  run. destruct (Z.ltb_spec 1 (count t)) as [H1|H1].
  - run. rewrite wrap_small, s32_small by lia. rewrite Hd, Hc, Nat2Z.id. destruct (qsort_entries l rest) as (l' & Hp & Hsl & ->); [lia|lia|]. run.
    split; [done|]. split; [done|]. exists l'. constructor; [|done|done|done].
    constructor; cbn; [by exists rest|by rewrite Hc, Hp|by rewrite Hm, Hd, !length_app, !length_fmap, Hp|lia|done].
  - run. split; [done|]. split; [done|]. exists l. constructor; [|done|done|done].
    constructor; cbn; [by exists rest|done|done|done|]. intros _. apply sorted_lookup. intros i j x y Hij _ Hj. apply lookup_lt_Some in Hj. lia.
Qed.

(** [if (t->dirty) Sort_Array(c);] *)
Lemma tidy_runs t l (Q : unit -> binary_array E -> Prop) : stores t l ->
  (forall t' l', tidied t l t' l' -> stores t' l' -> clean t' -> Q tt t') ->
  runs (if negb (dirty t =? 0) then _ ← Sort_Array cmp; skip else skip) Q t.
Proof.
  intros Hst HQ. destruct (Z.eqb_spec (dirty t) 0) as [Hz|Hz]; cbn [negb].
  - run. apply (HQ t l); [by apply tidied_refl|done|by intros _].
  - run. run_by (by apply (Sort_Array_runs t l)) as r t' (_ & Hcl & l' & Ht). run. eapply HQ; [done|by destruct Ht|done].
Qed.

(** ** Searching *)

Lemma linear_loop_spec t l val : stores t l -> forall fuel pos, fuel = Z.to_nat (count t - pos) -> 0 <= pos <= count t ->
  (forall k x, (k < Z.to_nat pos)%nat -> l !! k = Some x -> cmp x val <> 0) ->
  exists r, linear_loop cmp fuel t val pos = Some r /\
    (r = count t /\ unmatched cmp val l \/ 0 <= r < count t /\ exists x, l !! Z.to_nat r = Some x /\ cmp x val = 0).
Proof.
  intros Hst. induction fuel as [|fuel IH]; intros pos Hfu Hp Hno; cbn [linear_loop].
  - rewrite (proj2 (Z.ltb_ge pos (count t))) by lia. exists pos. split; [done|]. left. split; [lia|].
    apply list.Forall_forall. intros x Hx. apply list_elem_of_lookup in Hx as [k Hk]. pose proof (lookup_lt_Some _ _ _ Hk). pose proof (st_count _ _ Hst).
    apply (Hno k); [lia|done].
  - rewrite (proj2 (Z.ltb_lt pos (count t))) by lia. destruct (entry_stores t l pos Hst) as (x & -> & Hx); [lia|]. obind.
    destruct (Z.eqb_spec (cmp x val) 0) as [Hc|Hc].
    + exists pos. split; [done|]. right. split; [lia|]. by exists x.
    + apply IH; [lia|lia|]. intros k y Hk Hy. destruct (decide (k = Z.to_nat pos)) as [->|]; [congruence|]. apply (Hno k); [lia|done].
Qed.

(** The part of a sorted array before, and the part after a key. *)
Definition before (val : E) l (n : Z) : Prop := forall k x, k < n -> 0 <= k -> l !! Z.to_nat k = Some x -> cmp x val < 0.
Definition behind (val : E) l (n : Z) : Prop := forall k x, n <= k -> 0 <= k -> l !! Z.to_nat k = Some x -> 0 < cmp x val.

Lemma search_loop_spec t l val : stores t l -> sorted cmp l -> forall fuel len middle first result,
  0 <= len -> 0 <= first -> first + len <= count t -> (Z.to_nat len <= fuel)%nat ->
  before val l first -> behind val l (first + len) ->
  (len = 0 -> middle = first -> forall x, l !! Z.to_nat first = Some x -> result = cmp x val) ->
  exists f m r, binary_search_loop cmp fuel t val len middle first result = Some (f, m, r) /\ 0 <= f <= count t /\
    (f = m -> forall x, l !! Z.to_nat f = Some x -> r = cmp x val) /\
    ((exists x, l !! Z.to_nat f = Some x /\ cmp x val = 0) \/ before val l f /\ behind val l f).
Proof.
  intros Hst Hso. induction fuel as [|fuel IH]; intros len middle first result Hlen Hfi Hsum Hfu Hb Ha Hr; cbn [binary_search_loop].
  { rewrite (proj2 (Z.ltb_ge 0 len)) by lia. exists first, middle, result. replace len with 0 in * by lia. rewrite Z.add_0_r in Ha.
    split_and!; [done|lia|lia|auto|by right]. }
  destruct (Z.ltb_spec 0 len) as [Hl|Hl].
  2:{ exists first, middle, result. replace len with 0 in * by lia. rewrite Z.add_0_r in Ha. split_and!; [done|lia|lia|auto|by right]. }
  cbv zeta. rewrite Z.shiftr_div_pow2 by lia. change (2 ^ 1) with 2. set (half := len / 2).
  assert (Hh : 0 <= half < len) by (unfold half; split; [apply Z.div_pos; lia|apply Z.div_lt; lia]).
  destruct (entry_stores t l (first + half) Hst) as (x & -> & Hx); [lia|]. obind.
  assert (Hlow : forall k y, k <= first + half -> 0 <= k -> l !! Z.to_nat k = Some y -> cmp y x <= 0).
  { intros k y Hk Hk0 Hy. eapply (sorted_le l (Z.to_nat k) (Z.to_nat (first + half))); [done|lia|done|done]. }
  assert (Hhigh : forall k y, first + half <= k -> l !! Z.to_nat k = Some y -> cmp x y <= 0).
  { intros k y Hk Hy. eapply (sorted_le l (Z.to_nat (first + half)) (Z.to_nat k)); [done|lia|done|done]. }
  destruct (Z.ltb_spec (cmp x val) 0) as [Hc|Hc]; [|destruct (Z.eqb_spec (cmp x val) 0) as [Hz|Hz]].
  - apply IH; try lia.
    + intros k y Hk Hk0 Hy. eapply cmp_le_lt_trans; [|exact Hc]. apply (Hlow k); [lia|done|done].
    + by replace (first + half + 1 + (len - half - 1)) with (first + len) by lia.
  - exists (first + half), (first + half), (cmp x val). split_and!; [done|lia|lia| |left; eauto]. intros _ y Hy. congruence.
  - apply IH; try lia; [done| |].
    + intros k y Hk Hk0 Hy. apply cmp_lt_gt. pose proof (Hhigh k y Hk Hy). apply cmp_lt_le_trans with x; [|done]. apply cmp_lt_gt. lia.
    + intros H0 Hm y Hy. rewrite Hm in Hx. congruence.
Qed.

Lemma before_or_unmatched val l n : before val l n -> behind val l n -> unmatched cmp val l.
Proof.
  intros Hb Ha. apply list.Forall_forall. intros x Hx. apply list_elem_of_lookup in Hx as [k Hk].
  destruct (Z.lt_ge_cases k n) as [H|H]; [pose proof (Hb k x)|pose proof (Ha k x)]; rewrite Nat2Z.id in *; lia || (specialize (H0 ltac:(lia) ltac:(lia) Hk); lia).
Qed.

Lemma count_zero t l : stores t l -> count t = 0 -> l = [].
Proof. intros H Hz. apply nil_length_inv. pose proof (st_count _ _ H). lia. Qed.

(** [if (first != middle) result = c->compare(t->data[first], val);] *)
Lemma last_compare_runs t l val f mi r x : stores t l -> 0 <= f < count t -> l !! Z.to_nat f = Some x ->
  (f = mi -> forall x, l !! Z.to_nat f = Some x -> r = cmp x val) ->
  runs (if negb (f =? mi) then x ← lift (entry (data t) f); mret (cmp x val) else mret r : M (binary_array E) Z) (fun r t' => r = cmp x val /\ t' = t) t.
Proof.
  intros Hst Hf Hx Hfm. destruct (Z.eqb_spec f mi) as [Heq|]; cbn [negb]; [run; split; [by apply Hfm|done]|].
  destruct (entry_stores t l f Hst Hf) as (y & -> & Hy). run. split; [congruence|done].
Qed.

(** An exact search gives a place the key is at. *)
Lemma binary_search_exact t l val : stores t l -> clean t ->
  runs (binary_search cmp val true) (fun r t' => t' = t /\
    (r = -1 /\ unmatched cmp val l \/ 0 <= r < count t /\ exists x, l !! Z.to_nat r = Some x /\ cmp x val = 0)) t.
Proof.
  intros Hst Hcl. pose proof (st_bounds _ _ Hst) as [Hb _]. pose proof (st_count _ _ Hst) as Hc. unfold binary_search. run.
  destruct (Z.eqb_spec (count t) 0) as [Hz|Hz]; [run; rewrite (count_zero _ _ Hst Hz); split; [done|]; left; split; [done|constructor]|].
  destruct (unsorted t) eqn:Hu.
  - cbn [negb]. unfold linear_search. run. rewrite (proj2 (Z.eqb_neq (count t) 0)) by done. rewrite Hu. cbn [negb]. run.
    destruct (linear_loop_spec t l val Hst (Z.to_nat (count t)) 0) as (r & Hr & Hres); [f_equal; lia|lia|intros k x Hk; lia|].
    eapply runs_lift; [exact Hr|]. destruct Hres as [[-> Hno]|(Hr' & x & Hx & Hxv)].
    + rewrite Z.leb_refl. run. split; [done|by left].
    + rewrite (proj2 (Z.leb_gt (count t) r)) by lia. run. rewrite s32_small by lia. split; [done|]. right. split; [done|]. by exists x.
  - rewrite Hcl, Z.eqb_refl by done. cbn [negb]. run.
    destruct (search_loop_spec t l val Hst (st_sorted _ _ Hst (Hcl Hu)) (Z.to_nat (count t)) (count t) 0 0 0) as (f & mi & r & -> & Hf & Hfm & Hres);
      [lia|lia|lia|lia|intros k x ?; lia| |lia|].
    { intros k x Hk Hk0 Hx. apply lookup_lt_Some in Hx. lia. }
    run. destruct (Z.leb_spec (count t) f) as [Hcf|Hcf].
    + run. split; [done|]. left. split; [done|]. destruct Hres as [(x & Hx & _)|[H1 H2]]; [apply lookup_lt_Some in Hx; lia|].
      by eapply before_or_unmatched.
    + destruct (entry_stores t l f Hst) as (x & Ex & Hx); [lia|].
      run. run_by (apply (last_compare_runs t l val f mi r x); [done|lia|done|done]) as r' t' [-> ->]. run. split; [done|].
      destruct (Z.eqb_spec (cmp x val) 0) as [Hcmp|Hcmp]; cbn [negb].
      * right. rewrite s32_small by lia. split; [lia|]. by exists x.
      * left. split; [done|]. destruct Hres as [(y & Hy & Hyv)|[H1 H2]]; [congruence|by eapply before_or_unmatched].
Qed.

(** What a search for the next entry finds: the first one behind the key, or the one
    behind an entry with the key. *)
Definition next_place (val : E) l (r : Z) : Prop :=
  before val l r /\ (exists x, l !! Z.to_nat r = Some x /\ 0 < cmp x val) \/
  0 < r /\ exists x, l !! Z.to_nat (r - 1) = Some x /\ cmp x val = 0.

Lemma binary_search_next t l val : stores t l -> unsorted t = false -> dirty t = 0 ->
  runs (binary_search cmp val false) (fun r t' => t' = t /\
    (r = -1 /\ (forall x, x ∈ l -> cmp x val <= 0) \/ 0 <= r < count t /\ next_place val l r)) t.
Proof.
  intros Hst Hu Hcl. pose proof (st_bounds _ _ Hst) as [Hb _]. pose proof (st_count _ _ Hst) as Hc. unfold binary_search. run.
  destruct (Z.eqb_spec (count t) 0) as [Hz|Hz]; [run; rewrite (count_zero _ _ Hst Hz); split; [done|]; left; split; [done|by intros x ?%not_elem_of_nil]|].
  rewrite Hu, Hcl, Z.eqb_refl. cbn [negb]. run. pose proof (st_sorted _ _ Hst Hcl) as Hso.
  destruct (search_loop_spec t l val Hst Hso (Z.to_nat (count t)) (count t) 0 0 0) as (f & mi & r & -> & Hf & Hfm & Hres);
    [lia|lia|lia|lia|intros k x ?; lia| |lia|].
  { intros k x Hk Hk0 Hx. apply lookup_lt_Some in Hx. lia. }
  run. destruct (Z.leb_spec (count t) f) as [Hcf|Hcf].
  - run. split; [done|]. left. split; [done|]. destruct Hres as [(x & Hx & _)|[H1 H2]]; [apply lookup_lt_Some in Hx; lia|].
    intros x Hx. apply list_elem_of_lookup in Hx as [k Hk]. pose proof (lookup_lt_Some _ _ _ Hk).
    specialize (H1 k x). rewrite Nat2Z.id in H1. specialize (H1 ltac:(lia) ltac:(lia) Hk). lia.
  - destruct (entry_stores t l f Hst) as (x & Ex & Hx); [lia|].
    run. run_by (apply (last_compare_runs t l val f mi r x); [done|lia|done|done]) as r' t' [-> ->]. run. split; [done|].
    destruct (Z.eqb_spec (cmp x val) 0) as [Hcmp|Hcmp]; cbn [negb].
    + rewrite wrap_small by lia. destruct (Z.eqb_spec (f + 1) (count t)) as [He|He].
      * left. split; [done|]. intros y Hy. apply list_elem_of_lookup in Hy as [k Hk]. pose proof (lookup_lt_Some _ _ _ Hk).
        apply cmp_trans with x; [|lia]. eapply (sorted_le l k (Z.to_nat f)); [done|lia|done|done].
      * right. rewrite s32_small by lia. split; [lia|]. right. split; [lia|]. exists x. by replace (f + 1 - 1) with f by lia.
    + right. rewrite s32_small by lia. split; [lia|]. left. destruct Hres as [(y & Hy & Hyv)|[H1 H2]]; [congruence|].
      split; [done|]. exists x. split; [done|]. apply (H2 f); [lia|lia|done].
Qed.

(** ** The operations *)

Lemma cell_stores t l k : stores t l -> 0 <= k < count t -> exists x, data_cell (data t) k = Some (Some x) /\ l !! Z.to_nat k = Some x.
Proof.
  intros [[rest Hd] Hc _ _ _] Hk. rewrite Hd, data_cell_lookup by lia. rewrite lookup_app_l by (rewrite length_fmap; lia). rewrite list_lookup_fmap.
  destruct (lookup_lt_is_Some_2 l (Z.to_nat k)) as [x Hx]; [lia|]. exists x. by rewrite Hx.
Qed.

Lemma get_exact_runs t l key : stores t l ->
  runs (netsnmp_binary_array_get cmp (Some key) true) (fun r t' => exists l', tidied t l t' l' /\
    match r with Some x => x ∈ l /\ cmp x key = 0 | None => unmatched cmp key l end) t.
Proof.
  intros Hst. unfold netsnmp_binary_array_get. run. destruct (Z.eqb_spec (count t) 0) as [Hz|Hz].
  { run. exists l. split; [by apply tidied_refl|]. rewrite (count_zero _ _ Hst Hz). constructor. }
  run. apply (tidy_runs t l); [done|]. intros t1 l1 Ht Hst1 Hcl. run.
  run_by (by apply (binary_search_exact t1 l1)) as r t2 [-> Hr]. run.
  destruct Hr as [[-> Hno]|(Hr & x & Hx & Hxk)].
  - rewrite Z.eqb_refl. run. exists l1. split; [done|]. by rewrite <- (td_perm _ _ _ _ Ht).
  - rewrite (proj2 (Z.eqb_neq r (-1))) by lia. cbn [negb andb]. run. destruct (cell_stores t1 l1 r Hst1 Hr) as (y & -> & Hy). run.
    exists l1. split; [done|]. assert (y = x) as -> by congruence. split; [|done]. rewrite <- (td_perm _ _ _ _ Ht). by eapply list_elem_of_lookup_2.
Qed.

(** The duplicates of a key are passed over. *)
Lemma skip_duplicates_spec t l key : stores t l -> forall fuel k, (Z.to_nat (count t - k - 1) <= fuel)%nat -> 0 <= k < count t ->
  exists r, skip_duplicates cmp fuel t key k = Some r /\
    match r with
    | None => forall i x, k <= i -> l !! Z.to_nat i = Some x -> cmp x key = 0
    | Some i => k <= i < count t /\ (exists x, l !! Z.to_nat i = Some x /\ cmp x key <> 0) /\ forall j x, k <= j < i -> l !! Z.to_nat j = Some x -> cmp x key = 0
    end.
Proof.
  intros Hst. pose proof (st_count _ _ Hst) as Hc. induction fuel as [|fuel IH]; intros k Hfu Hk; cbn [skip_duplicates].
  all: destruct (entry_stores t l k Hst Hk) as (x & -> & Hx); obind; destruct (Z.eqb_spec (cmp x key) 0) as [H0|H0].
  2,4: exists (Some k); split; [done|]; split; [lia|]; split; [eauto|lia].
  all: assert (Hend : k + 1 = count t -> forall i y, k <= i -> l !! Z.to_nat i = Some y -> cmp y key = 0)
    by (intros He i y Hi Hy; pose proof (lookup_lt_Some _ _ _ Hy); assert (i = k) by lia; subst i; congruence).
  - rewrite (proj2 (Z.eqb_eq (k + 1) (count t))) by lia. exists None. split; [done|]. apply Hend. lia.
  - destruct (Z.eqb_spec (k + 1) (count t)) as [He|He]; [exists None; split; [done|by apply Hend]|].
    destruct (IH (k + 1)) as (r & -> & Hr); [lia|lia|]. exists r. split; [done|].
    destruct r as [i|].
    + destruct Hr as (Hi & Hne & Heq). split; [lia|]. split; [done|]. intros j y Hj Hy. destruct (decide (j = k)) as [->|]; [congruence|]. apply (Heq j); [lia|done].
    + intros i y Hi Hy. destruct (decide (i = k)) as [->|]; [congruence|]. apply (Hr i); [lia|done].
Qed.

(** What is before that place is not behind the key, and what is not is not before it. *)
Lemma next_place_around key l r : sorted cmp l -> 0 <= r -> next_place key l r ->
  (forall k x, 0 <= k < r -> l !! Z.to_nat k = Some x -> cmp x key <= 0) /\ (forall k x, r <= k -> l !! Z.to_nat k = Some x -> 0 <= cmp x key).
Proof.
  intros Hso Hr [(Hb & x & Hx & Hxk)|(Hr1 & z & Hz & Hzk)]; split; intros k w Hk Hw.
  - pose proof (Hb k w ltac:(lia) ltac:(lia) Hw). lia.
  - pose proof (sorted_le l (Z.to_nat r) (Z.to_nat k) x w Hso ltac:(lia) Hx Hw) as Hxw. pose proof (cmp_opp w key). pose proof (cmp_opp x key).
    destruct (Z.le_gt_cases (cmp w key) 0) as [Hle|]; [|lia]. pose proof (cmp_trans x w key Hxw Hle). lia.
  - apply cmp_trans with z; [|lia]. eapply (sorted_le l (Z.to_nat k) (Z.to_nat (r - 1))); [done|lia|done|done].
  - assert (cmp z w <= 0) by (eapply (sorted_le l (Z.to_nat (r - 1)) (Z.to_nat k)); [done|lia|done|done]).
    pose proof (cmp_eq_l z key w Hzk). pose proof (cmp_opp key w). lia.
Qed.

(** Without equal keys it is behind the key. *)
Lemma next_place_beyond key l r y : sorted cmp l -> distinct cmp l -> 0 <= r -> l !! Z.to_nat r = Some y -> next_place key l r -> 0 < cmp y key.
Proof.
  intros Hso Hdi Hr Hy [(Hb & x & Hx & Hxk)|(Hr1 & z & Hz & Hzk)]; [congruence|].
  assert (Hzy : cmp z y <= 0) by (eapply (sorted_le l (Z.to_nat (r - 1)) (Z.to_nat r)); [done|lia|done|done]).
  assert (cmp z y <> 0) by (intros H0; pose proof (Hdi _ _ _ _ Hz Hy H0); lia).
  pose proof (cmp_eq_l z key y Hzk). pose proof (cmp_opp key y). lia.
Qed.

(** The place an inexact search has come to, after the duplicates. *)
Definition next_index (di : Prop) (key : option E) l (n : Z) (r : option Z) : Prop :=
  match r with
  | None => di -> forall y, y ∈ l -> ~ beyond cmp key y
  | Some k => 0 <= k < n /\ (di -> exists x, l !! Z.to_nat k = Some x /\ beyond cmp key x /\
      forall j y, 0 <= j < k -> l !! Z.to_nat j = Some y -> ~ beyond cmp key y)
  end.

Lemma next_index_runs t l key : stores t l -> unsorted t = false -> dirty t = 0 -> count t <> 0 ->
  runs (match key with
      | None => mret (Some 0)
      | Some key =>
        index ← binary_search cmp key false;
        t ← get;
        if index =? -1 then mret None
        else if negb false && ba_flag CONTAINER_KEY_ALLOW_DUPLICATES t then lift (skip_duplicates cmp (Z.to_nat (count t)) t key index)
        else mret (Some index)
      end) (fun r t' => t' = t /\ next_index (duplicates t = false -> distinct cmp l) key l (count t) r) t.
Proof.
  intros Hst Hu Hcl Hne. pose proof (st_sorted _ _ Hst Hcl) as Hso. pose proof (st_count _ _ Hst) as Hc. destruct key as [key|].
  2:{ run. split; [done|]. destruct (entry_stores t l 0 Hst) as (x & _ & Hx); [lia|]. split; [lia|]. intros _. exists x. split_and!; [done|done|lia]. }
  run. run_by (by apply (binary_search_next t l)) as r t2 [-> Hr]. run. destruct Hr as [[-> Hno]|(Hr & Hn)].
  - rewrite Z.eqb_refl. run. split; [done|]. intros _ y Hy Hb. specialize (Hno y Hy). cbn in Hb. lia.
  - rewrite (proj2 (Z.eqb_neq r (-1))) by lia. cbn [negb andb].
    destruct (next_place_around key l r Hso (proj1 Hr) Hn) as [Hlow Hhigh]. destruct (duplicates t).
    + destruct (skip_duplicates_spec t l key Hst (Z.to_nat (count t)) r) as (i & -> & Hi); [lia|lia|]. run. split; [done|].
      assert (Hskip : forall n, (forall j y, r <= j < n -> l !! Z.to_nat j = Some y -> cmp y key = 0) ->
        forall j y, 0 <= j < n -> l !! Z.to_nat j = Some y -> ~ 0 < cmp y key).
      { intros n Heq j y Hj Hy. destruct (Z.lt_ge_cases j r) as [H|H]; [specialize (Hlow j y ltac:(lia) Hy); lia|rewrite (Heq j y ltac:(lia) Hy); lia]. }
      destruct i as [i|].
      * destruct Hi as (Hir & (x & Hx & Hxne) & Heq). split; [lia|]. intros _. exists x. split; [done|]. split; [|by apply Hskip].
        pose proof (Hhigh i x ltac:(lia) Hx). cbn. lia.
      * intros _ y [j Hj]%list_elem_of_lookup. pose proof (lookup_lt_Some _ _ _ Hj). apply (Hskip (count t)) with (Z.of_nat j); [|lia|by rewrite Nat2Z.id].
        intros j' y' Hj' Hy'. apply (Hi j'); [lia|done].
    + run. split; [done|]. split; [done|]. intros Hdi. destruct (entry_stores t l r Hst Hr) as (y & _ & Hy). exists y. split; [done|].
      split; [eapply next_place_beyond; [exact Hso|by apply Hdi|exact (proj1 Hr)|exact Hy|exact Hn]|]. intros j z Hj Hz. specialize (Hlow j z Hj Hz). cbn. lia.
Qed.

Lemma get_next_runs t l key : stores t l ->
  runs (netsnmp_binary_array_get cmp key false) (fun r t' => exists l', tidied t l t' l' /\
    (forall x, r = Some x -> x ∈ l) /\ (unsorted t = false -> (duplicates t = false -> distinct cmp l) -> is_next cmp key l r)) t.
Proof.
  intros Hst. unfold netsnmp_binary_array_get. run. destruct (Z.eqb_spec (count t) 0) as [Hz|Hz].
  { run. exists l. split; [by apply tidied_refl|]. rewrite (count_zero _ _ Hst Hz). split; [done|]. by intros _ _ y ?%not_elem_of_nil. }
  run. apply (tidy_runs t l); [done|]. intros t1 l1 Ht Hst1 Hcl. pose proof (td_perm _ _ _ _ Ht) as Hp.
  pose proof (tidied_flag _ _ _ _ CONTAINER_KEY_UNSORTED Ht) as Hu1. pose proof (tidied_flag _ _ _ _ CONTAINER_KEY_ALLOW_DUPLICATES Ht) as Hd1.
  assert (Hin : forall k y, l1 !! k = Some y -> forall x, Some y = Some x -> x ∈ l).
  { intros k y Hy x [= ->]. rewrite <- Hp. by eapply list_elem_of_lookup_2. }
  pose proof (st_count _ _ Hst) as Hc. pose proof (st_count _ _ Hst1) as Hc1. rewrite Hp in Hc1.
  destruct (unsorted t1) eqn:Hu.
  - (* an array that is not sorted is only asked for its first entry *)
    destruct key as [key|]; run.
    + unfold binary_search. run. rewrite (proj2 (Z.eqb_neq (count t1) 0)), Hu by lia. cbn [negb]. run. rewrite Z.eqb_refl. run. exists l1. split; [done|]. split; [done|congruence].
    + destruct (cell_stores t1 l1 0 Hst1) as (y & -> & Hy); [lia|]. run. exists l1. split; [done|]. split; [by eapply Hin|congruence].
  - specialize (Hcl Hu). pose proof (st_sorted _ _ Hst1 Hcl) as Hso. run.
    eapply runs_mono; [apply (next_index_runs t1 l1 key); (done || lia)|]. cbv beta. intros r t2 [-> Hr]. destruct r as [k|].
    + destruct Hr as (Hk & Hr). run. destruct (cell_stores t1 l1 k Hst1 Hk) as (y & -> & Hy). run. exists l1. split; [done|]. split; [by eapply Hin|].
      intros _ Hdi. rewrite <- Hd1 in Hdi. apply (is_next_perm cmp key l1); [done|]. destruct Hr as (x & Hx & Hbx & Hlow); [intros Hdu; by eapply distinct_perm; [symmetry|apply Hdi]|].
      assert (y = x) as -> by congruence. split; [by eapply list_elem_of_lookup_2|]. split; [done|]. intros z Hz' Hbz. apply list_elem_of_lookup in Hz' as [j Hj].
      destruct (Z.lt_ge_cases j k) as [H|H].
      * exfalso. apply (Hlow j z); [lia|by rewrite Nat2Z.id|done].
      * eapply (sorted_le l1 (Z.to_nat k) j); [done|lia|done|done].
    + run. exists l1. split; [done|]. split; [done|]. intros _ Hdi. rewrite <- Hd1 in Hdi. apply (is_next_perm cmp key l1); [done|].
      exact (Hr (fun Hdu => distinct_perm l l1 (symmetry Hp) (Hdi Hdu))).
Qed.

Lemma sorted_delete l i : sorted cmp l -> sorted cmp (delete i l).
Proof.
  rewrite !sorted_lookup. intros H j k x y Hjk Hj Hk.
  assert (Hmap : forall n z, delete i l !! n = Some z -> l !! (if decide (n < i)%nat then n else S n) = Some z).
  { intros n z Hn. case_decide; [by rewrite list_lookup_delete_lt in Hn|rewrite list_lookup_delete_ge in Hn by lia; done]. }
  apply Hmap in Hj, Hk. eapply H; [|exact Hj|exact Hk]. repeat case_decide; lia.
Qed.

(** What taking out the entry at a place gives. *)
Lemma remove_at_runs t l index save : stores t l -> 0 <= index < count t ->
  runs (netsnmp_binary_array_remove_at index save) (fun r t' => exists x, l !! Z.to_nat index = Some x /\ r = (0, if save then Some x else None) /\
    stores t' (delete (Z.to_nat index) l) /\ flags t' = flags t /\ dirty t' = dirty t /\
    sync t' = (if index =? count t - 1 then sync t else u64 (sync t + 1))) t.
Proof.
  intros Hst Hi. pose proof Hst as [[rest Hd] Hc Hm Hb Hs]. unfold netsnmp_binary_array_remove_at. run.
  rewrite (proj2 (Z.eqb_neq (count t) 0)) by lia. destruct (cell_stores t l index Hst Hi) as (x & Hcell & Hx).
  assert (Hsave : runs (if save then lift (data_cell (data t) index) else mret None : M (binary_array E) (option E))
    (fun r t' => r = (if save then Some x else None) /\ t' = t) t) by (destruct save; run; [by eapply runs_lift|done]).
  run. eapply runs_mono; [exact Hsave|]. cbv beta. intros r t' [-> ->]. run. rewrite wrap_small by lia.
  pose proof (length_delete l (Z.to_nat index) ltac:(by eexists)) as Hlen.
  destruct (Z.eqb_spec index (count t - 1)) as [He|He].
  - cbn [negb]. run. exists x. split_and!; [done|done| |done|done|done]. constructor; cbn.
    + exists (Some x :: rest). rewrite Hd, delete_take_drop. rewrite <- (take_drop_middle l (Z.to_nat index) x Hx) at 1.
      rewrite drop_ge by lia. by rewrite app_nil_r, fmap_app, <- app_assoc.
    + lia.
    + by rewrite Hm, Hd.
    + lia.
    + intros H0. by apply sorted_delete, Hs.
  - cbn [negb]. rewrite wrap_small by lia.
    assert (Hlen' : length (data t) = (length l + length rest)%nat) by (by rewrite Hd, length_app, length_fmap).
    unfold move_cells. rewrite !(proj2 (Z.leb_le _ _)) by lia. cbn [andb]. run.
    exists x. split_and!; [done|done| |done|done|done]. constructor; cbn.
    + exists (drop (length l - 1) (data t)). rewrite delete_take_drop, fmap_app, <- app_assoc. rewrite Hd.
      rewrite take_app_le by (rewrite length_fmap; lia). rewrite <- fmap_take. f_equal.
      rewrite drop_app_le by (rewrite length_fmap; lia). replace (Z.to_nat (index + 1)) with (S (Z.to_nat index)) by lia.
      rewrite <- fmap_drop. rewrite take_app_length' by (rewrite length_fmap, length_drop; lia). f_equal. f_equal. lia.
    + lia.
    + rewrite !length_app, !length_take, !length_drop. lia.
    + lia.
    + intros H0. by apply sorted_delete, Hs.
Qed.

Lemma remove_runs t l key save : stores t l ->
  runs (netsnmp_binary_array_remove cmp key save) (fun r t' => flags t' = flags t /\ exists l', stores t' l' /\
    ((exists x, cmp x key = 0 /\ l ≡ₚ x :: l' /\ r = (0, if save then Some x else None)) \/
     unmatched cmp key l /\ l' ≡ₚ l /\ r = (match l with [] => 0 | _ => -1 end, None))) t.
Proof.
  intros Hst. unfold netsnmp_binary_array_remove. run. destruct (Z.eqb_spec (count t) 0) as [Hz|Hz].
  { run. split; [done|]. pose proof (count_zero _ _ Hst Hz) as ->. exists []. split; [done|]. right. split; [constructor|done]. }
  run. apply (tidy_runs t l); [done|]. intros t1 l1 Ht Hst1 Hcl. pose proof (td_perm _ _ _ _ Ht) as Hp. pose proof (td_flags _ _ _ _ Ht) as Hf.
  run. run_by (by apply (binary_search_exact t1 l1)) as r t2 [-> Hr]. destruct Hr as [[-> Hno]|(Hr & x & Hx & Hxk)].
  - rewrite Z.eqb_refl. run. split; [done|]. exists l1. split; [done|]. right. split_and!; [by rewrite <- Hp|done|].
    destruct l; [|done]. pose proof (st_count _ _ Hst). cbn in *. lia.
  - pose proof (st_bounds _ _ Hst1). rewrite (proj2 (Z.eqb_neq r (-1))), wrap_small by lia.
    run_by (by apply (remove_at_runs t1 l1 r save)) as r' t2 (y & Hy & -> & Hst2 & Hf2 & _). assert (y = x) as -> by congruence.
    split; [congruence|]. exists (delete (Z.to_nat r) l1). split; [done|]. left. exists x. split_and!; [done| |done].
    rewrite <- Hp. by apply delete_Permutation.
Qed.

Lemma all_entries_stores t l : stores t l -> all_entries t = Some l.
Proof.
  intros Hst. unfold all_entries. pose proof (st_count _ _ Hst) as Hc. apply mapM_Some. apply Forall2_same_length_lookup. split.
  - rewrite length_seqZ. lia.
  - intros i k x Hk Hx. apply lookup_seqZ in Hk as [-> Hi]. destruct (entry_stores t l (0 + i) Hst) as (y & -> & Hy); [lia|].
    rewrite Nat2Z.id in Hy || replace (Z.to_nat (0 + i)) with i in Hy by lia. congruence.
Qed.

Lemma for_each_runs t l sort : stores t l ->
  runs (netsnmp_binary_array_for_each cmp sort) (fun r t' => tidied t l t' r /\ (sort = true -> unsorted t = false -> sorted cmp r)) t.
Proof.
  intros Hst. unfold netsnmp_binary_array_for_each. run. destruct sort; cbn [andb].
  - apply (tidy_runs t l); [done|]. intros t1 l1 Ht Hst1 Hcl. run. rewrite (all_entries_stores t1 l1) by done. run. split; [done|].
    intros _ Hu. apply (st_sorted _ _ Hst1), Hcl. by rewrite (tidied_flag _ _ _ _ _ Ht).
  - run. rewrite (all_entries_stores t l) by done. run. split; [by apply tidied_refl|done].
Qed.

Lemma clear_runs t l fe : stores t l ->
  runs (netsnmp_binary_array_clear fe) (fun r t' => r = (if fe then l else []) /\ stores t' [] /\ flags t' = flags t) t.
Proof.
  intros Hst. unfold netsnmp_binary_array_clear. run.
  assert (Hl : runs (if fe then lift (all_entries t) else mret [] : M (binary_array E) (list E)) (fun r t' => r = (if fe then l else []) /\ t' = t) t).
  { destruct fe; run; [|done]. by rewrite (all_entries_stores t l). }
  run. eapply runs_mono; [exact Hl|]. cbv beta. intros r t' [-> ->]. run. split; [done|]. split; [|done].
  destruct Hst as [Hd Hc Hm Hb Hs]. constructor; cbn; [by exists (data t)|done|done|lia|constructor].
Qed.

(** Room for one more entry. *)
Lemma stores_grow t l mem : stores t l -> count t < 2 ^ 30 ->
  let full := max_size t <=? count t in
  full && negb mem = true \/
  full && negb mem = false /\
  runs (if full then
         let new_max := if 0 <? max_size t then u64 (2 * max_size t) else 10 in
         modify (set_data (data t ++ replicate (Z.to_nat (new_max - max_size t)) None)) ;; modify (set_max_size new_max)
       else skip) (fun _ t' => stores t' l /\ count t' = count t /\ flags t' = flags t /\ count t' < max_size t' /\ dirty t' = dirty t) t.
Proof.
  intros Hst Hlt full. pose proof Hst as [[rest Hd] Hc Hm Hb Hs]. destruct (full && negb mem) eqn:Hfm; [by left|]. right. split; [done|].
  subst full. destruct (Z.leb_spec (max_size t) (count t)) as [Hle|Hle]; [|run; by split_and!].
  assert (Hlen : count t <= max_size t) by (rewrite Hm, Hd, length_app, length_fmap; lia).
  run. set (new_max := if 0 <? max_size t then u64 (2 * max_size t) else 10).
  assert (Hn : count t < new_max <= 2 ^ 31) by (unfold new_max; destruct (Z.ltb_spec 0 (max_size t)); rewrite ?wrap_small by lia; lia).
  split_and!; [|done|done|cbn; lia|done]. constructor; cbn.
  - exists (rest ++ replicate (Z.to_nat (new_max - max_size t)) None). by rewrite Hd, <- app_assoc.
  - done.
  - rewrite length_app, length_replicate. lia.
  - lia.
  - done.
Qed.

Lemma insert_runs t l mem e : stores t l -> count t < 2 ^ 30 ->
  runs (netsnmp_binary_array_insert cmp mem e) (fun rc t' => flags t' = flags t /\ exists l', stores t' l' /\
    (rc = 0 /\ l' ≡ₚ e :: l /\ (duplicates t = false -> unmatched cmp e l) \/
     rc = -1 /\ l' ≡ₚ l /\ (mem = false \/ duplicates t = false /\ ~ unmatched cmp e l))) t.
Proof.
  intros Hst Hlt. unfold netsnmp_binary_array_insert. run.
  assert (Hfound : runs (if duplicates t then mret None else netsnmp_binary_array_get cmp (Some e) true) (fun r t' => exists l', tidied t l t' l' /\
    (if duplicates t then r = None else match r with Some x => x ∈ l /\ cmp x e = 0 | None => unmatched cmp e l end)) t).
  { destruct (duplicates t); [run; exists l; split; [by apply tidied_refl|done]|by apply get_exact_runs]. }
  run. eapply runs_mono; [exact Hfound|]. cbv beta. intros r t1 (l1 & Ht & Hr).
  pose proof (td_stores _ _ _ _ Ht) as Hst1. pose proof (td_perm _ _ _ _ Ht) as Hp. pose proof (td_flags _ _ _ _ Ht) as Hf.
  destruct r as [x|].
  { run. split; [done|]. exists l1. split; [done|]. right. split_and!; [done|done|]. right. destruct (duplicates t); [done|]. split; [done|].
    intros Hno. destruct Hr as [Hx Hxe]. unfold unmatched in Hno. rewrite list.Forall_forall in Hno. by apply (Hno x). }
  run. assert (Hlt1 : count t1 < 2 ^ 30) by (pose proof (st_count _ _ Hst); pose proof (st_count _ _ Hst1) as Hc1; rewrite Hp in Hc1; lia).
  destruct (stores_grow t1 l1 mem Hst1 Hlt1) as [Hno|[Hyes Hgrow]].
  { rewrite Hno. run. split; [done|]. exists l1. split; [done|]. right. split_and!; [done|done|]. left. by destruct mem; [rewrite andb_false_r in Hno|]. }
  rewrite Hyes. run. eapply runs_mono; [exact Hgrow|]. cbv beta. intros _ t2 (Hst2 & Hc2 & Hf2 & Hroom & _). run.
  pose proof Hst2 as [[rest Hd] Hc Hm Hb Hs]. rewrite (proj2 (Z.ltb_lt _ _)) by lia. run. cbn [count set_data]. rewrite wrap_small by lia.
  destruct rest as [|c rest]; [rewrite Hm, Hd, length_app, length_fmap in Hroom; cbn in Hroom; lia|].
  set (t3 := set_dirty 1 _). assert (Hst3 : stores t3 (l1 ++ [e])).
  { constructor; cbn.
    - exists rest. rewrite Hd, Hc, Nat2Z.id. rewrite insert_app_r_alt by (rewrite length_fmap; lia). rewrite length_fmap, Nat.sub_diag. cbn.
      by rewrite fmap_app, <- app_assoc.
    - rewrite length_app. cbn. lia.
    - by rewrite length_insert.
    - lia.
    - done. }
  assert (Hres : flags t3 = flags t /\ exists l', stores t3 l' /\ (0 = 0 /\ l' ≡ₚ e :: l /\ (duplicates t = false -> unmatched cmp e l) \/
    0 = -1 /\ l' ≡ₚ l /\ (mem = false \/ duplicates t = false /\ ~ unmatched cmp e l))).
  { split; [cbn; congruence|]. exists (l1 ++ [e]). split; [done|]. left. split; [done|]. split; [by rewrite Hp, Permutation_app_comm|].
    intros Hdu. by rewrite Hdu in Hr. }
  destruct (_ =? 0); run; [|exact Hres]. destruct Hres as (Hfl & l' & Hl' & Hcase). split; [exact Hfl|]. exists l'. split; [|exact Hcase].
  by destruct Hl'.
Qed.

(** ** The interface *)

(** The entries of the array. *)
Definition live t : list E := omap id (take (Z.to_nat (count t)) (data t)).

Lemma stores_live t l : stores t l -> live t = l.
Proof.
  intros [[rest Hd] Hc _ _ _]. unfold live. rewrite Hd, Hc, Nat2Z.id, take_app_length' by (by rewrite length_fmap).
  clear. induction l as [|x l IH]; [done|]. cbn. by rewrite IH.
Qed.

Lemma kind_kept t t' x : flags t' = flags t -> ba_flag x t' = ba_flag x t.
Proof. unfold ba_flag. by intros ->. Qed.

#[refine] Instance binary_array_laws : ContainerLaws (binary_array_ops cmp) cmp := {
  invariant t := exists l, stores t l;
  entries := live;
  unique t := negb (duplicates t);
  ordered t := negb (unsorted t)
}.
Proof.
  all: cbn.
  - intros mem e t [l Hst] Hlt. pose proof Hst as Hl%stores_live. rewrite Hl in *. pose proof (st_count _ _ Hst).
    run_by (apply (insert_runs t l); [done|lia]) as rc t' (Hf & l' & Hst' & Hcase). pose proof Hst' as ->%stores_live.
    rewrite !(kind_kept t t') by done. split_and!; [by exists l'|done|done|]. rewrite !negb_true_iff.
    destruct Hcase as [Hc|(-> & Hp & Hc)]; [by left|right; split; [done|]; by split].
  - intros k t [l Hst]. pose proof Hst as ->%stores_live. run.
    run_by (by apply (remove_runs t l)) as [rc x] t' (Hf & l' & Hst' & Hcase). run. pose proof Hst' as ->%stores_live.
    rewrite !(kind_kept t t') by done. split_and!; [by exists l'|done|done|].
    destruct Hcase as [(y & Hy & Hp & [= -> _])|(Hno & Hp & [= -> _])]; [left; by exists y|right]. split; [done|]. split; [done|]. destruct l; [by right|by left].
  - intros k t [l Hst]. pose proof Hst as ->%stores_live. run_by (by apply (get_exact_runs t l)) as r t' (l' & [Hst' Hp Hf _] & Hr).
    pose proof Hst' as ->%stores_live. by rewrite !(kind_kept t t') by done; split_and!; [exists l'|..].
  - intros k t [l Hst]. pose proof Hst as ->%stores_live. run_by (by apply (get_next_runs t l)) as r t' (l' & [Hst' Hp Hf _] & Hin & Hr).
    pose proof Hst' as ->%stores_live. rewrite !(kind_kept t t') by done. split_and!; [by exists l'|done..|]. intros Hu%negb_true_iff Hd. apply Hr; [done|].
    intros Hdu. apply Hd. by rewrite Hdu.
  - intros t [l Hst]. pose proof Hst as ->%stores_live. split; [done|]. apply (st_count _ _ Hst).
  - intros t [l Hst]. pose proof Hst as ->%stores_live. run_by (by apply (for_each_runs t l)) as r t' ([Hst' Hp Hf _] & Hr).
    pose proof Hst' as ->%stores_live. rewrite !(kind_kept t t') by done. split_and!; [by exists r|done|done|done|done|]. intros Hu%negb_true_iff. by apply Hr.
  - intros f t [l Hst]. pose proof Hst as ->%stores_live. run_by (by apply (clear_runs t l)) as r t' (-> & Hst' & Hf).
    pose proof Hst' as ->%stores_live. rewrite !(kind_kept t t') by done. by split_and!; [exists []|..].
Defined.
End array.

(** ** Iterators *)

Section iterators.
Context {E : Type} (cmp : E -> E -> Z) `{!Comparison cmp}.
Implicit Types (t : binary_array E) (l : list E) (it : binary_array_iterator).

(** [while (x) { ...; x = ITERATOR_NEXT(it); }] *)
Fixpoint walk_on (fuel : nat) it (x : option E) : M (binary_array E) (list E * binary_array_iterator) :=
  match x with
  | None => mret ([], it)
  | Some e =>
    match fuel with
    | O => lift None
    | S fuel => '(x, it) ← _ba_iterator_next it; '(l, it) ← walk_on fuel it x; mret (e :: l, it)
    end
  end.

(** [it = CONTAINER_ITERATOR(c); for (x = ITERATOR_FIRST(it); x; x = ITERATOR_NEXT(it))]: what it sees. *)
Definition walk_through (fuel : nat) : M (binary_array E) (list E * binary_array_iterator) :=
  it ← _ba_iterator_get cmp; x ← _ba_iterator_first it; walk_on fuel it x.

Lemma iterator_get_runs t l : stores cmp t l ->
  runs (_ba_iterator_get cmp) (fun it t' => exists l', tidied cmp t l t' l' /\ clean t' /\ it = mkbaiter (sync t') 0) t.
Proof.
  intros Hst. unfold _ba_iterator_get, _ba_iterator_reset. run. apply (tidy_runs cmp t l); [done|]. intros t' l' Ht _ Hcl. run. by exists l'.
Qed.

(** An iterator of the array as it is reads the place it is asked for. *)
Lemma iterator_position_runs t l it pos : stores cmp t l -> it_sync it = sync t -> 0 <= pos ->
  runs (_ba_iterator_position it pos) (fun r t' => t' = t /\ r = l !! Z.to_nat pos) t.
Proof.
  intros Hst Hs Hp. pose proof (st_count _ _ _ Hst) as Hc. unfold _ba_iterator_position. run. rewrite Hs, Z.eqb_refl. cbn [negb].
  destruct (Z.eqb_spec 0 (count t)) as [H0|H0]; [run; split; [done|]; by rewrite (count_zero _ _ _ Hst (eq_sym H0))|].
  destruct (Z.leb_spec (count t) pos) as [Hl|Hl]; [run; split; [done|]; symmetry; apply lookup_ge_None_2; lia|].
  destruct (cell_stores cmp t l pos Hst) as (x & -> & ->); [lia|]. by run.
Qed.

Lemma walk_on_runs t l : stores cmp t l -> forall fuel it, it_sync it = sync t -> 0 <= it_pos it -> Z.of_nat (length l) < it_pos it + Z.of_nat fuel ->
  it_pos it <= Z.of_nat (length l) ->
  runs (walk_on fuel it (l !! Z.to_nat (it_pos it))) (fun r t' => t' = t /\ r.1 = drop (Z.to_nat (it_pos it)) l /\ it_sync r.2 = sync t) t.
Proof.
  intros Hst. pose proof (st_count _ _ _ Hst) as Hc. pose proof (st_bounds _ _ _ Hst) as [Hb _].
  induction fuel as [|fuel IH]; intros it Hs Hp Hf Hle; [lia|]. cbn [walk_on].
  destruct (l !! Z.to_nat (it_pos it)) as [e|] eqn:He.
  - pose proof (lookup_lt_Some _ _ _ He). run. unfold _ba_iterator_next. rewrite wrap_small by lia. run.
    run_by (apply (iterator_position_runs t l); [done|done|cbn; lia]) as r t' [-> ->]. run. cbn [it_pos].
    run_by (apply (IH (mkbaiter (it_sync it) (it_pos it + 1))); cbn; done || lia) as [l' it'] t' (-> & Hl & Hs'). run. cbn in *.
    split_and!; [done| |done]. rewrite Hl, (drop_S _ _ _ He). do 2 f_equal. lia.
  - run. split_and!; [done| |done]. symmetry. apply drop_ge. by apply lookup_ge_None_1.
Qed.

Lemma walk_through_runs t l fuel : stores cmp t l -> (length l < fuel)%nat ->
  runs (walk_through fuel) (fun r t' => tidied cmp t l t' r.1 /\ (ba_flag CONTAINER_KEY_UNSORTED t = false -> sorted cmp r.1) /\ it_sync r.2 = sync t') t.
Proof.
  intros Hst Hf. unfold walk_through. run. run_by (by apply (iterator_get_runs t l)) as it t' (l' & Ht & Hcl & ->).
  pose proof (td_stores _ _ _ _ _ Ht) as Hst'. pose proof (Permutation_length (td_perm _ _ _ _ _ Ht)) as Hlen.
  run. run_by (apply (iterator_position_runs t' l'); [done|done|lia]) as r t2 [-> ->].
  run_by (apply (walk_on_runs t' l' Hst' fuel (mkbaiter (sync t') 0)); cbn; lia || done) as [r it] t2 (-> & Hr & Hs). cbn in *. rewrite drop_0 in Hr. subst r.
  split_and!; [done| |done]. intros Hu. apply (st_sorted _ _ _ Hst'), Hcl. by rewrite (tidied_flag _ _ _ _ _ _ Ht).
Qed.
End iterators.

(** ** Subsets *)

(** [ncmp] compares the first part of a key: it goes along with the order. *)
Class PartialComparison {E : Type} (cmp ncmp : E -> E -> Z) : Prop := {
  pc_le x y k : cmp x y <= 0 -> 0 <= ncmp x k -> 0 <= ncmp y k;
  pc_lt x y k : cmp x y <= 0 -> 0 < ncmp x k -> 0 < ncmp y k
}.

Section subsets.
Context {E : Type} (cmp ncmp : E -> E -> Z) `{!Comparison cmp, !PartialComparison cmp ncmp}.
Implicit Types (t : binary_array E) (l : list E).

Lemma start_loop_spec t l key : stores cmp t l -> sorted cmp l -> forall fuel len first,
  0 <= len -> 0 <= first -> first + len <= count t -> (Z.to_nat len <= fuel)%nat ->
  (forall k x, 0 <= k < first -> l !! Z.to_nat k = Some x -> ncmp x key < 0) ->
  (forall k x, first + len <= k -> l !! Z.to_nat k = Some x -> 0 <= ncmp x key) ->
  exists f, start_loop ncmp fuel t key len first = Some f /\ 0 <= f <= count t /\
    (forall k x, 0 <= k < f -> l !! Z.to_nat k = Some x -> ncmp x key < 0) /\ (forall k x, f <= k -> l !! Z.to_nat k = Some x -> 0 <= ncmp x key).
Proof.
  intros Hst Hso. induction fuel as [|fuel IH]; intros len first Hlen Hfi Hsum Hfu Hb Ha; cbn [start_loop].
  { rewrite (proj2 (Z.ltb_ge 0 len)) by lia. exists first. replace len with 0 in * by lia. rewrite Z.add_0_r in Ha. split_and!; done || lia. }
  destruct (Z.ltb_spec 0 len) as [Hl|Hl].
  2:{ exists first. replace len with 0 in * by lia. rewrite Z.add_0_r in Ha. split_and!; done || lia. }
  cbv zeta. rewrite Z.shiftr_div_pow2 by lia. change (2 ^ 1) with 2. set (half := len / 2).
  assert (Hh : 0 <= half < len) by (unfold half; split; [apply Z.div_pos; lia|apply Z.div_lt; lia]).
  destruct (entry_stores cmp t l (first + half) Hst) as (x & -> & Hx); [lia|]. obind.
  destruct (Z.ltb_spec (ncmp x key) 0) as [Hc|Hc]; apply IH; try lia; try done.
  - intros k y Hk Hy. assert (Hyx : cmp y x <= 0) by (eapply (sorted_le l (Z.to_nat k) (Z.to_nat (first + half))); [done|lia|done|done]).
    destruct (Z.lt_ge_cases (ncmp y key) 0) as [|Hge]; [done|]. pose proof (pc_le y x key Hyx Hge). lia.
  - by replace (first + half + 1 + (len - half - 1)) with (first + len) by lia.
  - intros k y Hk Hy. eapply pc_le; [|exact Hc]. eapply (sorted_le l (Z.to_nat (first + half)) (Z.to_nat k)); [done|lia|done|done].
Qed.

Lemma subset_end_spec t l key : stores cmp t l -> forall fuel i, (Z.to_nat (count t - i) <= fuel)%nat -> 0 < i <= count t ->
  exists e, subset_end ncmp fuel t key i (i - 1) = Some e /\ i - 1 <= e < count t /\
    (forall k x, i <= k <= e -> l !! Z.to_nat k = Some x -> ncmp x key = 0) /\
    (forall x, l !! Z.to_nat (e + 1) = Some x -> ncmp x key <> 0).
Proof.
  intros Hst. pose proof (st_count _ _ _ Hst) as Hc. induction fuel as [|fuel IH]; intros i Hfu Hi; cbn [subset_end].
  { rewrite (proj2 (Z.ltb_ge i (count t))) by lia. exists (i - 1). split_and!; [done|lia|lia|lia|]. intros x Hx%lookup_lt_Some. lia. }
  destruct (Z.ltb_spec i (count t)) as [Hl|Hl].
  2:{ exists (i - 1). split_and!; [done|lia|lia|lia|]. intros x Hx%lookup_lt_Some. lia. }
  destruct (entry_stores cmp t l i Hst) as (x & -> & Hx); [lia|]. obind. destruct (Z.eqb_spec 0 (ncmp x key)) as [H0|H0]; cbn [negb].
  - destruct (IH (i + 1)) as (e & He & Hr & Hin & Hout); [lia|lia|]. replace (i + 1 - 1) with (i - 1 + 1) in He by lia. rewrite He.
    exists e. split_and!; [done|lia|lia| |done]. intros k y Hk Hy. destruct (decide (k = i)) as [->|]; [congruence|]. apply (Hin k); [lia|done].
  - exists (i - 1). split_and!; [done|lia|lia|lia|]. replace (i - 1 + 1) with i by lia. intros y Hy. congruence.
Qed.

(** A stretch of a list whose entries, and no others, satisfy a property. *)
Lemma filter_stretch (P : E -> Prop) `{!forall x, Decision (P x)} l : forall a n,
  (forall k x, l !! k = Some x -> (P x <-> (a <= k < a + n)%nat)) -> (a + n <= length l)%nat -> filter P l = take n (drop a l).
Proof.
  induction l as [|x l IH]; intros a n HP Hl; [by rewrite drop_nil, take_nil|].
  assert (Hx : P x <-> (a <= 0 < a + n)%nat) by by apply (HP 0%nat). cbn in Hl. destruct a as [|a].
  - destruct n as [|n].
    + rewrite filter_cons_False by (rewrite Hx; lia). change (take 0 (drop 0 (x :: l))) with (@nil E). rewrite (IH 0%nat 0%nat); [done| |lia]. intros k y Hk. rewrite (HP (S k) y Hk). lia.
    + rewrite filter_cons_True by (rewrite Hx; lia). change (take (S n) (drop 0 (x :: l))) with (x :: take n l). f_equal. rewrite (IH 0%nat n); [by rewrite drop_0| |lia]. intros k y Hk. rewrite (HP (S k) y Hk). lia.
  - rewrite filter_cons_False by (rewrite Hx; lia). change (drop (S a) (x :: l)) with (drop a l). apply IH; [|lia]. intros k y Hk. rewrite (HP (S k) y Hk). lia.
Qed.

(** The entries whose keys begin with [key], in order; the null pointer if there are
    none. *)
Lemma get_subset_runs t l key : stores cmp t l -> ba_flag CONTAINER_KEY_UNSORTED t = false ->
  runs (netsnmp_binary_array_get_subset cmp (Some ncmp) true key) (fun r t' => exists l', tidied cmp t l t' l' /\ sorted cmp l' /\
    r = match filter (fun x => ncmp x key = 0) l' with [] => None | xs => Some (Some <$> xs) end) t.
Proof.
  intros Hst Hu. unfold netsnmp_binary_array_get_subset. run. destruct (Z.eqb_spec (count t) 0) as [Hz|Hz].
  { run. pose proof (count_zero _ _ _ Hst Hz) as ->. exists []. split_and!; [by apply tidied_refl|constructor|done]. }
  run. apply (tidy_runs cmp t l); [done|]. intros t1 l1 Ht Hst1 Hcl.
  rewrite <- (tidied_flag _ _ _ _ _ _ Ht) in Hu. specialize (Hcl Hu). pose proof (st_sorted _ _ _ Hst1 Hcl) as Hso.
  pose proof (st_count _ _ _ Hst1) as Hc. pose proof (st_bounds _ _ _ Hst1) as [Hb _].
  pose proof (st_count _ _ _ Hst) as Hc0. pose proof (Permutation_length (td_perm _ _ _ _ _ Ht)) as Hlen.
  run. unfold binary_search_for_start. run. rewrite (proj2 (Z.eqb_neq (count t1) 0)) by lia. rewrite Hcl, Z.eqb_refl. cbn [negb]. run.
  destruct (start_loop_spec t1 l1 key Hst1 Hso (Z.to_nat (count t1)) (count t1) 0) as (f & -> & Hf & Hlow & Hhigh);
    [lia|lia|lia|lia|lia| |]. { intros k x Hk Hx%lookup_lt_Some. lia. }
  assert (Hnone : (forall x, l1 !! Z.to_nat f = Some x -> ncmp x key <> 0) -> filter (fun x => ncmp x key = 0) l1 = []).
  { intros Hne. rewrite (filter_stretch _ l1 0 0); [done| |lia]. intros k x Hk. split; [|lia]. intros Hx0. exfalso.
    destruct (Z.lt_ge_cases (Z.of_nat k) f) as [Hkf|Hkf]; [pose proof (Hlow (Z.of_nat k) x ltac:(lia) ltac:(by rewrite Nat2Z.id)); lia|].
    destruct (lookup_lt_is_Some_2 l1 (Z.to_nat f)) as [y Hy]; [apply lookup_lt_Some in Hk; lia|].
    pose proof (Hhigh f y ltac:(lia) Hy) as Hge. specialize (Hne y Hy). assert (Hlt : 0 < ncmp y key) by lia. assert (Hyx : cmp y x <= 0) by (eapply (sorted_le l1 (Z.to_nat f) k); [done|lia|done|done]).
    pose proof (pc_lt y x key Hyx Hlt). lia. }
  run. destruct (Z.leb_spec (count t1) f) as [Hcf|Hcf].
  { run. rewrite Z.eqb_refl. run. exists l1. split_and!; [done|done|]. rewrite Hnone; [done|]. intros x Hx%lookup_lt_Some. lia. }
  destruct (entry_stores cmp t1 l1 f Hst1) as (x & -> & Hx); [lia|]. run. destruct (Z.eqb_spec (ncmp x key) 0) as [H0|H0]; cbn [negb].
  2:{ run. rewrite Z.eqb_refl. run. exists l1. split_and!; [done|done|]. rewrite Hnone; [done|]. intros y Hy. congruence. }
  run. rewrite s32_small by lia. rewrite (proj2 (Z.eqb_neq f (-1))) by lia. run.
  destruct (subset_end_spec t1 l1 key Hst1 (Z.to_nat (count t1)) (f + 1)) as (e & He & Her & Hin & Hout); [lia|lia|].
  replace (f + 1 - 1) with f in He by lia. rewrite He. run. rewrite (proj2 (Z.leb_le 0 f)) by lia. cbn [andb].
  pose proof Hst1 as [[rest Hd] _ Hm _ _]. assert (Hroom : f + (e - f + 1) <= Z.of_nat (length (data t1))) by (rewrite Hd, length_app, length_fmap; lia).
  rewrite (proj2 (Z.leb_le _ _)) by done. run. exists l1. split_and!; [done|done|].
  rewrite (filter_stretch _ l1 (Z.to_nat f) (Z.to_nat (e - f + 1))); [| |lia].
  - rewrite Hd. rewrite drop_app_le by (rewrite length_fmap; lia). rewrite take_app_le by (rewrite length_drop, length_fmap; lia).
    rewrite <- fmap_drop, <- fmap_take. destruct (take _ (drop _ l1)) eqn:Htk; [|done].
    apply (f_equal length) in Htk. rewrite length_take, length_drop in Htk. cbn in Htk. lia.
  - intros k y Hk. pose proof (lookup_lt_Some _ _ _ Hk). split.
    + intros Hy0. destruct (Z.lt_ge_cases (Z.of_nat k) f) as [Hkf|Hkf]; [pose proof (Hlow (Z.of_nat k) y ltac:(lia) ltac:(by rewrite Nat2Z.id)); lia|].
      destruct (Z.le_gt_cases (Z.of_nat k) e) as [Hke|Hke]; [lia|]. exfalso.
      destruct (lookup_lt_is_Some_2 l1 (Z.to_nat (e + 1))) as [z Hz']; [lia|]. pose proof (Hout z Hz') as Hzne. pose proof (Hhigh (e + 1) z ltac:(lia) Hz') as Hzge. assert (Hlt : 0 < ncmp z key) by lia.
      assert (Hzy : cmp z y <= 0) by (eapply (sorted_le l1 (Z.to_nat (e + 1)) k); [done|lia|done|done]).
      pose proof (pc_lt z y key Hzy Hlt). lia.
    + intros Hke. destruct (decide (Z.of_nat k = f)) as [Hkf|Hkf]; [assert (k = Z.to_nat f) by lia; subst k; congruence|].
      apply (Hin (Z.of_nat k)); [lia|by rewrite Nat2Z.id].
Qed.
End subsets.
