(* ===== verification/Ssll.v ===== *)
(** Containers as singly linked lists, [snmplib/container_list_ssll.c]: sorted by
    key, or in the order of insertion (fifo) or against it (lifo).

    The nodes belong to the container alone, so the list is the list of their data,
    and an iterator, which is refused once the list has changed, knows its node by its
    place.  [mem] tells whether [malloc] finds memory. *)
From Stdlib Require Import ZArith Lia.
From stdpp Require Import sets sorting.
From S2P Require Import Prelude StateMonad Container.

Record sl_container (E : Type) : Type := mksl {
  sl_count : Z;                (* size_t *)
  head : list E;               (* sl_node * *)
  sl_unsorted : Z;             (* int *)
  fifo : Z;                    (* int *)
  sl_sync : Z                  (* u_long *)
}.
Arguments mksl {E}. Arguments sl_count {E}. Arguments head {E}. Arguments sl_unsorted {E}. Arguments fifo {E}. Arguments sl_sync {E}.

Section code.
Context {E : Type} (cmp : E -> E -> Z).
Abbreviation sl := (sl_container E).
Abbreviation m A := (M sl A).
Implicit Types s : sl.

(** [netsnmp_container_get_ssll], [_usll] and [_singly_linked_list]. *)
Definition netsnmp_container_get_ssll : sl := mksl 0 [] 0 0 0.
Definition netsnmp_container_get_usll : sl := mksl 0 [] 1 0 0.
Definition netsnmp_container_get_singly_linked_list (fifo : Z) : sl := mksl 0 [] 1 fifo 0.
Definition netsnmp_container_get_fifo : sl := netsnmp_container_get_singly_linked_list 1.

Definition sl_update (count : Z) (head : list E) (sync : Z) s : sl := mksl count head (sl_unsorted s) (fifo s) sync.

(** The loop of [_get]: the list from [curr] on, and [rc]. *)
Fixpoint get_loop (unsorted : Z) (key : E) (curr : list E) (rc : Z) : list E * Z :=
  match curr with
  | [] => ([], rc)
  | x :: next =>
    let rc := cmp x key in
    if rc =? 0 then (curr, rc)
    else if (0 <? rc) && (0 =? unsorted) then (curr, rc)
    else get_loop unsorted key next rc
  end.

Definition _get (key : option E) (exact : bool) s : option E :=
  let curr :=
    match head s, key with
    | _ :: _, Some key =>
      let '(curr, rc) := get_loop (sl_unsorted s) key (head s) 0 in
      match curr with _ :: next => if negb exact && (rc =? 0) then next else curr | [] => [] end
    | l, _ => l
    end in
  match curr with x :: _ => Some x | [] => None end.

Definition _ssll_find (data : option E) : m (option E) := match data with None => mret None | Some _ => gets (_get data true) end.
Definition _ssll_find_next (data : option E) : m (option E) := gets (_get data false).

(** [for( ; curr; last = curr, curr = curr->next)], and the insertion where it stops. *)
Fixpoint insert_sorted (data : E) (curr : list E) : list E :=
  match curr with
  | [] => [data]
  | x :: next => if 0 <? cmp x data then data :: curr else x :: insert_sorted data next
  end.

Definition _ssll_insert (mem : bool) (data : E) : m Z :=
  if negb mem then mret (-1)
  else
    modify (fun s => sl_update (u64 (sl_count s + 1)) (head s) (u64 (sl_sync s + 1)) s) ;;
    s ← get;
    let l :=
      match head s with
      | [] => [data]
      | _ =>
        if 1 =? sl_unsorted s then (if 1 =? fifo s then head s ++ [data] else data :: head s)
        else insert_sorted data (head s)
      end in
    modify (sl_update (sl_count s) l (sl_sync s)) ;; mret 0.

(** The loop of [_ssll_remove] behind the first node: the list without the node it
    finds, if it finds one. *)
Fixpoint sl_remove_loop (unsorted : Z) (data : E) (curr : list E) : option (list E) :=
  match curr with
  | [] => None
  | x :: next =>
    let rc := cmp x data in
    if rc =? 0 then Some next
    else if (0 <? rc) && (0 =? unsorted) then None
    else l ← sl_remove_loop unsorted data next; Some (x :: l)
  end.

Definition _ssll_remove (data : option E) : m Z :=
  s ← get;
  match head s with
  | [] => mret (-1)
  | x :: next =>
    let rest :=
      match data with
      | None => Some next
      | Some data => if cmp x data =? 0 then Some next else l ← sl_remove_loop (sl_unsorted s) data next; Some (x :: l)
      end in
    match rest with
    | None => mret (-2)
    | Some l => modify (sl_update (u64 (sl_count s - 1)) l (u64 (sl_sync s + 1))) ;; mret 0
    end
  end.

Definition _ssll_size : m Z := gets sl_count.
Definition _ssll_for_each : m (list E) := gets head.

Definition _ssll_clear (f : bool) : m (list E) :=
  s ← get; modify (sl_update 0 [] (u64 (sl_sync s + 1))) ;; mret (if f then head s else []).

(** ** Iterators: [ssll_iterator]; a pointer to a node is its place in the list *)
Record ssll_iterator : Type := mkssllit { sit_sync : Z; sit_pos : option nat; sit_last : option nat }.
Implicit Types it : ssll_iterator.

(** What an iterator returns as [void *]: data, or a node. *)
Inductive pointer : Type := Data (e : E) | Node (place : nat).

Definition _ssll_it2cont it s : bool := sl_sync s =? sit_sync it.
Definition data_at (s : sl) (p : option nat) : option pointer := p ≫= fun i => Data <$> head s !! i.

(** The node behind a place, if there is one. *)
Definition node_behind (s : sl) (i : nat) : option nat := match head s !! S i with Some _ => Some (S i) | None => None end.

Definition _ssll_iterator_curr it s : option pointer := if _ssll_it2cont it s then data_at s (sit_pos it) else None.
Definition _ssll_iterator_first it s : option pointer := if _ssll_it2cont it s then data_at s (match head s with [] => None | _ => Some 0%nat end) else None.

Definition _ssll_iterator_next it s : option pointer * ssll_iterator :=
  match _ssll_it2cont it s, sit_pos it with
  | true, Some i => let pos := node_behind s i in (data_at s pos, mkssllit (sit_sync it) pos (sit_last it))
  | _, _ => (None, it)
  end.

Definition _ssll_iterator_last it s : option pointer * ssll_iterator :=
  if _ssll_it2cont it s then
    match sit_last it with
    | Some n => (Some (Node n), it)
    | None =>
      match head s with
      | [] => (None, it)
      | _ => let n := (length (head s) - 1)%nat in (data_at s (Some n), mkssllit (sit_sync it) (sit_pos it) (Some n))
      end
    end
  else (None, it).

Definition _ssll_iterator_reset it s : ssll_iterator := mkssllit (sl_sync s) (match head s with [] => None | _ => Some 0%nat end) None.
Definition _ssll_iterator_get s : ssll_iterator := _ssll_iterator_reset (mkssllit 0 None None) s.

(** The functions [netsnmp_container_get_ssll] sets. *)
Definition ssll_ops : ContainerOps E sl := {|
  c_insert := _ssll_insert;
  c_remove k := _ssll_remove (Some k);
  c_find k := _ssll_find (Some k);
  c_find_next := _ssll_find_next;
  c_size := _ssll_size;
  c_for_each := _ssll_for_each;
  c_clear := _ssll_clear
|}.
End code.

Section laws.
Context {E : Type} (cmp : E -> E -> Z) `{!Comparison cmp}.
Implicit Types (s : sl_container E) (l : list E).

(** The count is right, and a sorted list is in order. *)
Record well_formed s : Prop := mkwell_formed {
  wf_count : sl_count s = Z.of_nat (length (head s));
  wf_bound : sl_count s <= 2 ^ 30;
  wf_sorted : sl_unsorted s = 0 -> sorted cmp (head s);
  wf_flag : sl_unsorted s = 0 \/ sl_unsorted s = 1
}.

Lemma insert_sorted_spec e l : insert_sorted cmp e l ≡ₚ e :: l /\ (sorted cmp l -> sorted cmp (insert_sorted cmp e l)).
Proof.
  induction l as [|x l [Hp IH]]; cbn; [split; [done|]; by constructor|]. destruct (Z.ltb_spec 0 (cmp x e)) as [Hx|Hx].
  - split; [done|]. intros Hs. constructor; [done|]. inversion Hs as [|? ? Hl Ha]; subst.
    apply cmp_lt_gt in Hx. constructor; [lia|]. eapply list.Forall_impl; [exact Ha|]. intros y Hy. cbn in Hy. pose proof (cmp_lt_le_trans _ _ _ Hx Hy). lia.
  - split; [by rewrite Hp; constructor|]. intros Hs. inversion Hs as [|? ? Hl Ha]; subst. constructor; [by apply IH|].
    rewrite Hp. by constructor.
Qed.

Lemma sl_remove_loop_spec u k l : match sl_remove_loop cmp u k l with
  | Some l' => exists x, cmp x k = 0 /\ l ≡ₚ x :: l' /\ (sorted cmp l -> sorted cmp l') /\ l' ⊆ l
  | None => (u = 0 -> sorted cmp l) -> unmatched cmp k l
  end.
Proof.
  induction l as [|x l IH]; cbn; [constructor|]. destruct (Z.eqb_spec (cmp x k) 0) as [H0|H0].
  { exists x. split_and!; [done|done|by inversion 1|by apply list_subseteq_cons]. }
  destruct (Z.ltb_spec 0 (cmp x k)) as [Hx|Hx]; destruct (Z.eqb_spec 0 u) as [Hu|Hu]; cbn [andb].
  1:{ intros Hs. specialize (Hs (eq_sym Hu)). constructor; [done|]. inversion Hs as [|? ? Hl Ha]; subst.
      eapply list.Forall_impl; [exact Ha|]. cbn. intros y Hy Hyk. pose proof (cmp_eq_r _ _ x Hyk) as Hsg. lia. }
  all: destruct (sl_remove_loop cmp u k l) as [l'|]; obind.
  1,3,5: destruct IH as (y & Hy & Hp & Hs & Hsub); exists y; split_and!; [done|rewrite Hp; apply Permutation_swap| |intros z; rewrite !elem_of_cons; intros [->|Hz]; [by left|right; by apply Hsub]].
  4-6: intros Hs; constructor; [done|]; apply IH; intros Hu0; specialize (Hs Hu0); by inversion Hs.
  all: intros Hsx; inversion Hsx as [|? ? Hl Ha]; subst; constructor; [by apply Hs|]; rewrite list.Forall_forall in Ha |- *; intros z Hz; apply Ha; by apply Hsub.
Qed.

Lemma sl_insert_runs s mem e : well_formed s -> sl_count s < 2 ^ 30 ->
  runs (_ssll_insert cmp mem e) (fun rc s' => well_formed s' /\ sl_unsorted s' = sl_unsorted s /\
    (rc = 0 /\ head s' ≡ₚ e :: head s \/ rc = -1 /\ s' = s /\ mem = false)) s.
Proof.
  intros [Hc Hb Hs Hf] Hlt. unfold _ssll_insert. destruct mem; cbn [negb]; run; [|split_and!; auto; by constructor].
  match goal with |- context [sl_update (sl_count _) ?x (sl_sync _)] => set (l := x) end.
  assert (Hl : l ≡ₚ e :: head s /\ (sl_unsorted s = 0 -> sorted cmp l)).
  { unfold l. cbn. destruct (head s) as [|x h] eqn:Hh; [split; [done|]; by repeat constructor|].
    destruct (Z.eqb_spec 1 (sl_unsorted s)) as [Hu|Hu]; [|split; [apply insert_sorted_spec|]; intros; apply insert_sorted_spec; by apply Hs].
    split; [|lia]. destruct (1 =? fifo s); [|done]. by rewrite Permutation_app_comm. }
  destruct Hl as [Hp Ho]. split_and!; [|done|by left]. constructor; cbn; [|rewrite wrap_small by lia; lia|done|done].
  rewrite wrap_small, Hp by lia. cbn. lia.
Qed.

Lemma sl_remove_runs s k : well_formed s ->
  runs (_ssll_remove cmp (Some k)) (fun rc s' => well_formed s' /\ sl_unsorted s' = sl_unsorted s /\
    ((exists x, cmp x k = 0 /\ head s ≡ₚ x :: head s' /\ rc = 0) \/ unmatched cmp k (head s) /\ s' = s /\ rc <> 0)) s.
Proof.
  intros Hwf. pose proof Hwf as [Hc Hb Hs Hf]. unfold _ssll_remove. run. destruct (head s) as [|x l] eqn:Hh.
  { run. split_and!; [done|done|]. right. by split_and!; [constructor|..]. }
  pose proof (sl_remove_loop_spec (sl_unsorted s) k l) as Hloop.
  assert (Hgone : forall y l', cmp y k = 0 -> x :: l ≡ₚ y :: l' -> (sorted cmp (x :: l) -> sorted cmp l') ->
    runs (modify (sl_update (u64 (sl_count s - 1)) l' (u64 (sl_sync s + 1))) ;; mret 0) (fun rc s' => well_formed s' /\ sl_unsorted s' = sl_unsorted s /\
    ((exists z, cmp z k = 0 /\ x :: l ≡ₚ z :: head s' /\ rc = 0) \/ unmatched cmp k (x :: l) /\ s' = s /\ rc <> 0)) s).
  { intros y l' Hy Hp Hso. run. split_and!; [|done|left; by exists y]. pose proof (Permutation_length Hp) as Hlen. cbn in Hlen, Hc.
    constructor; cbn; [rewrite wrap_small by lia; lia|rewrite wrap_small by lia; lia|intros Hu; by apply Hso, Hs|done]. }
  destruct (Z.eqb_spec (cmp x k) 0) as [H0|H0]; [by apply (Hgone x); [| |inversion 1]|].
  destruct (sl_remove_loop cmp (sl_unsorted s) k l) as [l'|]; obind.
  - destruct Hloop as (y & Hy & Hp & Hso & Hsub). apply (Hgone y); [done|rewrite Hp; apply Permutation_swap|].
    intros Hsx. inversion Hsx as [|? ? Hl Ha]; subst. constructor; [by apply Hso|].
    rewrite list.Forall_forall in Ha |- *. intros z Hz. apply Ha. by apply Hsub.
  - run. split_and!; [done|done|]. right. split_and!; [|done|done]. constructor; [done|]. apply Hloop. intros Hu. specialize (Hs Hu). by inversion Hs.
Qed.

(** Where the loop of [_get] stops in a list that is not sorted, and in one that is. *)
Lemma get_loop_unsorted k l rc0 : match get_loop cmp 1 k l rc0 with
  | ([], _) => unmatched cmp k l
  | (x :: _, rc) => x ∈ l /\ cmp x k = 0
  end.
Proof.
  revert rc0. induction l as [|x l IH]; intros rc0; cbn; [constructor|]. destruct (Z.eqb_spec (cmp x k) 0) as [H0|H0]; [split; [by left|done]|].
  change (0 =? 1) with false. rewrite andb_false_r. specialize (IH (cmp x k)). destruct (get_loop cmp 1 k l (cmp x k)) as [[|y l'] rc].
  - by constructor.
  - destruct IH as [Hy Hk]. split; [by right|done].
Qed.

Lemma get_loop_sorted k l rc0 : exists l1 l2 rc, l = l1 ++ l2 /\ get_loop cmp 0 k l rc0 = (l2, rc) /\ Forall (fun x => cmp x k < 0) l1 /\
  match l2 with x :: _ => rc = cmp x k /\ 0 <= rc | [] => True end.
Proof.
  revert rc0. induction l as [|x l IH]; intros rc0; cbn; [by exists [], [], rc0|].
  destruct (Z.eqb_spec (cmp x k) 0) as [H0|H0]; [exists [], (x :: l), (cmp x k); split_and!; done || lia|].
  rewrite Z.eqb_refl, andb_true_r. destruct (Z.ltb_spec 0 (cmp x k)) as [Hx|Hx].
  - exists [], (x :: l), (cmp x k). split_and!; done || lia.
  - destruct (IH (cmp x k)) as (l1 & l2 & rc & -> & -> & Hl1 & Hl2). exists (x :: l1), l2, rc. split_and!; [done|done|constructor; [lia|done]|done].
Qed.

(** Every list takes entries in and out. *)
#[refine] Instance list_store_laws : StoreLaws (ssll_ops cmp) cmp := {
  st_invariant := well_formed;
  st_entries := head;
  st_unique _ := false
}.
Proof.
  all: cbn.
  - intros mem e s Hwf Hl. pose proof (wf_count _ Hwf). run_by (apply (sl_insert_runs s); [done|lia]) as rc s' (Hwf' & _ & H1).
    split; [done|]. destruct H1 as [[-> Hp]|(-> & -> & ->)]; [left|right]; by split_and!; [..|auto].
  - intros k s Hwf. run_by (by apply (sl_remove_runs s)) as rc s' (Hwf' & _ & H1).
    split; [done|]. destruct H1 as [Hx|(Hno & -> & Hrc)]; [by left|right]. by split_and!; [| |left].
Defined.

(** What the loop of [_get] stops at is a part of the list. *)
Lemma get_loop_in u k l : forall rc0 x, x ∈ (get_loop cmp u k l rc0).1 -> x ∈ l.
Proof.
  induction l as [|y l IH]; intros rc0 x; cbn [get_loop]; [done|]. destruct (_ =? 0); [done|]. destruct (_ && _); [done|].
  intros Hx. apply elem_of_cons. right. by eapply IH.
Qed.

Lemma get_in k exact s x : _get cmp k exact s = Some x -> x ∈ head s.
Proof.
  unfold _get. destruct (head s) as [|y l] eqn:Hh; [done|]. destruct k as [k|]; [|intros [= ->]; by left].
  pose proof (get_loop_in (sl_unsorted s) k (y :: l) 0 x) as Hin. destruct (get_loop cmp _ k (y :: l) 0) as [[|z l'] rc]; cbn in Hin; [done|].
  destruct (_ && _); [destruct l'; [done|]|]; intros [= ->]; apply Hin; [right|]; by left.
Qed.

(** A list that is not sorted is a container. *)
#[refine] Instance unsorted_list_laws : ContainerLaws (ssll_ops cmp) cmp := {
  invariant s := well_formed s /\ sl_unsorted s = 1;
  entries := head;
  unique _ := false;
  ordered _ := false
}.
Proof.
  all: cbn.
  - intros mem e s [Hwf Hu] Hl. pose proof (wf_count _ Hwf). run_by (apply (sl_insert_runs s); [done|lia]) as rc s' (Hwf' & Hu' & H1).
    split_and!; [done|by rewrite Hu'|done|done|]. destruct H1 as [[-> Hp]|(-> & -> & ->)]; [left|right]; by split_and!; [..|auto].
  - intros k s [Hwf Hu]. run_by (by apply (sl_remove_runs s)) as rc s' (Hwf' & Hu' & H1).
    split_and!; [done|by rewrite Hu'|done|done|]. destruct H1 as [Hx|(Hno & -> & Hrc)]; [by left|right]. by split_and!; [| |left].
  - intros k s [Hwf Hu]. split_and!; [done|done|done|done|done|]. unfold _get. destruct (head s) as [|x l] eqn:Hh; [constructor|]. rewrite Hu.
    pose proof (get_loop_unsorted k (x :: l) 0) as Hg. destruct (get_loop cmp 1 k (x :: l) 0) as [[|y l'] rc]; [done|]. cbn [negb andb]. exact Hg.
  - intros k s [Hwf Hu]. split_and!; try done. intros x. apply get_in.
  - intros s [Hwf Hu]. split; [done|]. apply (wf_count _ Hwf).
  - intros s [Hwf Hu]. by split_and!.
  - intros f s [Hwf Hu]. pose proof Hwf as [Hc Hb Hs Hf]. split_and!; try done; try by destruct f. constructor; cbn; [done|lia|constructor|done].
Defined.
End laws.
