(* ===== verification/ContainerProps.v ===== *)
(** The properties of containers: the sort, both implementations as refinements of a
    multiset, chains of containers, iterators. *)
From Stdlib Require Import ZArith Lia.
From stdpp Require Import sets sorting relations.
From S2P Require Import Prelude StateMonad Oid Container QSort BinArray BinArrayProps Ssll.

(** ** Chains *)

(** What a container of a chain holds. *)
Record shelf (E : Type) : Type := mkshelf { sh_cmp : E -> E -> Z; sh_unique : bool; sh_entries : list E }.
Arguments mkshelf {E}. Arguments sh_cmp {E}. Arguments sh_unique {E}. Arguments sh_entries {E}.

Section chain.
Context {E : Type}.
Implicit Types (c : container E) (sh : shelf E) (k : E) (l : list E).

Definition with_entries l sh : shelf E := mkshelf (sh_cmp sh) (sh_unique sh) l.

Definition keeps_entries c sh : Prop :=
  exists L : StoreLaws (c_ops c) (sh_cmp sh),
    @st_invariant _ _ _ _ L (c_state c) /\ @st_unique _ _ _ _ L (c_state c) = sh_unique sh /\ @st_entries _ _ _ _ L (c_state c) ≡ₚ sh_entries sh.

Lemma keeps_cmp c sh : keeps_entries c sh -> Comparison (sh_cmp sh).
Proof. intros [L _]. exact (@st_cmp _ _ _ _ L). Qed.

Lemma keeps_perm c sh l : keeps_entries c (with_entries l sh) -> l ≡ₚ sh_entries sh -> keeps_entries c sh.
Proof. intros (L & Hi & Hu & He) Hl. exists L. split_and!; [done|done|]. etrans; [exact He|done]. Qed.

(** Nothing but the state of the container has changed. *)
Definition same_node c c' : Prop := insert_filter c' = insert_filter c /\ c_memory c' = c_memory c.

Lemma insert_one_keeps k c sh : keeps_entries c sh -> Z.of_nat (length (sh_entries sh)) < 2 ^ 30 ->
  exists rc c', insert_one k c = Some (rc, c') /\ same_node c c' /\
    (rc = 0 /\ keeps_entries c' (with_entries (k :: sh_entries sh) sh) /\ (sh_unique sh = true -> unmatched (sh_cmp sh) k (sh_entries sh)) \/
     rc <> 0 /\ keeps_entries c' sh /\ (c_memory c = false \/ sh_unique sh = true /\ ~ unmatched (sh_cmp sh) k (sh_entries sh))).
Proof.
  intros (L & Hi & Hu & He) Hl. pose proof (Permutation_length He) as Hlen.
  destruct (runs_Some _ _ _ (@st_insert _ _ _ _ L (c_memory c) k (c_state c) Hi ltac:(lia))) as (rc & s' & Hrun & (Hi' & Hu') & Hcase).
  exists rc, (set_state c s'). unfold insert_one. rewrite Hrun. obind. split; [done|]. split; [done|].
  rewrite Hu in Hcase. setoid_rewrite He in Hcase. destruct Hcase as [(-> & Hp & Hno)|(Hrc & Hp & Hwhy)].
  - left. split; [done|]. split; [|done]. exists L. cbn. split_and!; [done|congruence|done].
  - right. split; [done|]. split; [|done]. exists L. cbn. split_and!; [done|congruence|done].
Qed.

Lemma remove_one_keeps k c sh : keeps_entries c sh ->
  exists rc c' l, remove_one k c = Some (rc, c') /\ same_node c c' /\ keeps_entries c' (with_entries l sh) /\
    ((exists x, sh_cmp sh x k = 0 /\ sh_entries sh ≡ₚ x :: l /\ rc = 0) \/
     unmatched (sh_cmp sh) k (sh_entries sh) /\ l ≡ₚ sh_entries sh /\ (rc <> 0 \/ sh_entries sh = [])).
Proof.
  intros (L & Hi & Hu & He). destruct (runs_Some _ _ _ (@st_remove _ _ _ _ L k (c_state c) Hi)) as (rc & s' & Hrun & (Hi' & Hu') & Hcase).
  exists rc, (set_state c s'), (@st_entries _ _ _ _ L s'). unfold remove_one. rewrite Hrun. obind. split; [done|]. split; [done|]. split.
  - exists L. cbn. split_and!; [done|congruence|done].
  - destruct Hcase as [(x & Hx & Hp & ->)|(Hno & Hp & Hrc)].
    + left. exists x. split_and!; [done|by rewrite <- He|done].
    + right. split; [by rewrite <- He|]. split; [by rewrite Hp|]. destruct Hrc as [|Hnil]; [by left|right]. apply Permutation_nil_r. by rewrite <- He, Hnil.
Qed.

(** What a failed insertion leaves: the entries there were where keys are unique, and
    where no entry has the key of [k]; otherwise one with that key may be exchanged for
    [k], since the code takes out some entry with the key. *)
Definition restored k sh l : Prop :=
  (exists x, sh_cmp sh x k = 0 /\ x :: l ≡ₚ k :: sh_entries sh) /\
  (sh_unique sh = true \/ unmatched (sh_cmp sh) k (sh_entries sh) -> l ≡ₚ sh_entries sh).

Lemma restored_same k sh `{!Comparison (sh_cmp sh)} : restored k sh (sh_entries sh).
Proof. split; [|done]. exists k. split; [apply cmp_refl|done]. Qed.

Lemma unmatched_only k sh x l `{!Comparison (sh_cmp sh)} : unmatched (sh_cmp sh) k (sh_entries sh) -> sh_cmp sh x k = 0 -> x :: l ≡ₚ k :: sh_entries sh -> l ≡ₚ sh_entries sh.
Proof.
  intros Hno Hx Hp. assert (x ∈ k :: sh_entries sh) as [->|Hin]%elem_of_cons by (rewrite <- Hp; by left).
  - by apply Permutation_cons_inv in Hp.
  - unfold unmatched in Hno. rewrite list.Forall_forall in Hno. by apply Hno in Hin.
Qed.

(** The containers after an insertion that succeeds. *)
Definition inserted k c sh : shelf E := if filtered k c then sh else with_entries (k :: sh_entries sh) sh.

(** Why one fails. *)
Definition refuses k c sh : Prop :=
  filtered k c = false /\ (c_memory c = false \/ sh_unique sh = true /\ ~ unmatched (sh_cmp sh) k (sh_entries sh)).

Lemma all_restored k cs shs : Forall2 keeps_entries cs shs -> Forall2 (fun c' sh => exists l, keeps_entries c' (with_entries l sh) /\ restored k sh l) cs shs.
Proof.
  apply Forall2_impl. intros c sh Hk. exists (sh_entries sh). pose proof (keeps_cmp _ _ Hk). split; [by destruct sh|by apply restored_same].
Qed.

Lemma insert_helper k : forall cs shs, Forall2 keeps_entries cs shs -> Forall (fun sh => Z.of_nat (length (sh_entries sh)) < 2 ^ 30) shs ->
  exists rc cs', CONTAINER_INSERT_HELPER cs k = Some (rc, cs') /\ Forall2 same_node cs cs' /\
    (rc = 0 /\ Forall2 keeps_entries cs' (zip_with (inserted k) cs shs) /\
       Forall2 (fun c sh => filtered k c = false -> sh_unique sh = true -> unmatched (sh_cmp sh) k (sh_entries sh)) cs shs \/
     rc <> 0 /\ Forall2 (fun c' sh => exists l, keeps_entries c' (with_entries l sh) /\ restored k sh l) cs' shs /\
       exists i c sh, cs !! i = Some c /\ shs !! i = Some sh /\ refuses k c sh).
Proof.
  induction cs as [|c cs IH]; intros shs Hks Hl; inversion Hks as [|? sh ? shs' Hk Hks']; subst; cbn [CONTAINER_INSERT_HELPER].
  { exists 0, []. split_and!; [done|constructor|]. left. split_and!; [done|constructor|constructor]. }
  apply list.Forall_cons in Hl as [Hl Hl']. destruct (IH shs' Hks' Hl') as (rc & cs' & Hrun & Hsame & Hcase). pose proof (keeps_cmp _ _ Hk) as Hcmp.
  destruct (filtered k c) eqn:Hf.
  { rewrite Hrun. obind. exists rc, (c :: cs'). split; [done|]. split; [by constructor|]. destruct Hcase as [(-> & Hk' & Hno)|(Hrc & Hk' & i & c1 & sh1 & Hi & Hsh & Hr)].
    - left. split; [done|]. cbn [zip_with]. split; [constructor; [unfold inserted; by rewrite Hf|done]|]. constructor; [congruence|done].
    - right. split; [done|]. split; [|by exists (S i), c1, sh1]. constructor; [|done]. exists (sh_entries sh). split; [by destruct sh|by apply restored_same]. }
  destruct (insert_one_keeps k c sh Hk Hl) as (rc1 & c' & -> & Hs1 & Hcase1). obind. destruct Hcase1 as [(-> & Hk1 & Hno1)|(Hrc1 & Hk1 & Hwhy)].
  - rewrite Z.eqb_refl. cbn [negb]. rewrite Hrun. obind. destruct Hcase as [(-> & Hk' & Hno)|(Hrc & Hk' & i & c1 & sh1 & Hi & Hsh & Hr)].
    + rewrite Z.eqb_refl. cbn [negb]. exists 0, (c' :: cs'). split; [done|]. split; [by constructor|]. left. split; [done|]. cbn [zip_with].
      split; [constructor; [unfold inserted; by rewrite Hf|done]|]. by constructor.
    + rewrite (proj2 (Z.eqb_neq rc 0)) by done. cbn [negb].
      destruct (remove_one_keeps k c' _ Hk1) as (rc2 & c2 & l & -> & Hs2 & Hk2 & Hgone). obind.
      exists rc, (c2 :: cs'). split; [done|]. split; [constructor; [|done]; destruct Hs1, Hs2; split; congruence|].
      right. split; [done|]. split; [|by exists (S i), c1, sh1]. constructor; [|done]. exists l. split; [exact Hk2|].
      destruct Hgone as [(x & Hx & Hp & _)|(Hno & _)]; [|inversion Hno as [|? ? Hkk]; by destruct Hkk; apply cmp_refl].
      cbn in Hx, Hp. split; [by exists x|]. intros Hu. refine (unmatched_only k sh x l _ Hx (Permutation_sym Hp)). destruct Hu as [Hu|Hu]; [exact (Hno1 Hu)|exact Hu].
  - rewrite (proj2 (Z.eqb_neq rc1 0)) by done. cbn [negb]. exists rc1, (c' :: cs). split; [done|].
    split; [constructor; [done|]; clear; induction cs; constructor; done|]. right. split; [done|]. split; [|by exists 0%nat, c, sh].
    constructor; [|by apply all_restored]. exists (sh_entries sh). split; [by destruct sh|by apply restored_same].
Qed.
End chain.

(** ** Indexes: [netsnmp_compare_netsnmp_index] and its partial form *)

Lemma lex_sign_take n a b : lex_sign a b <= 0 -> lex_sign (take n a) (take n b) <= 0.
Proof.
  revert a b. induction n as [|n IH]; intros [|x a] [|y b]; cbn; try lia. destruct (x =? y); [apply IH|done].
Qed.

Definition ncompare_indexes (x y : indexes) : Z := default 0 (netsnmp_ncompare_netsnmp_index (`x) (`y)).

Lemma ncompare_indexes_spec (x y : indexes) :
  netsnmp_ncompare_netsnmp_index (`x) (`y) = Some (ncompare_indexes x y) /\
  ncompare_indexes x y = lex_sign (take (Z.to_nat (len (`y))) (oid_of (oids (`x)) (len (`x)))) (oid_of (oids (`y)) (len (`y))).
Proof.
  destruct x as [x Hx], y as [y Hy]. unfold ncompare_indexes, netsnmp_ncompare_netsnmp_index. cbn.
  pose proof Hx as (Hx1 & _). pose proof Hy as (Hy1 & _). rewrite snmp_oid_ncompare_spec by (done || lia). cbn. split; [done|].
  unfold oid_of. rewrite take_take, Z.min_id. do 2 f_equal. lia.
Qed.

#[export] Instance ncompare_indexes_ok : PartialComparison compare_indexes ncompare_indexes.
Proof.
  split; intros x y k; rewrite (proj2 (compare_indexes_spec x y)), !(proj2 (ncompare_indexes_spec _ _)); intros Hxy%(lex_sign_take (Z.to_nat (len (`k)))) Hx.
  - pose proof (lex_sign_opp (take (Z.to_nat (len (`k))) (oid_of (oids (`x)) (len (`x)))) (oid_of (oids (`k)) (len (`k)))) as Ho.
    pose proof (lex_sign_opp (take (Z.to_nat (len (`k))) (oid_of (oids (`y)) (len (`y)))) (oid_of (oids (`k)) (len (`k)))) as Ho'.
    enough (lex_sign (oid_of (oids (`k)) (len (`k))) (take (Z.to_nat (len (`k))) (oid_of (oids (`y)) (len (`y)))) <= 0) by lia.
    eapply lex_sign_trans; [|exact Hxy]. lia.
  - set (a := take _ (oid_of (oids (`x)) _)) in *. set (b := take _ (oid_of (oids (`y)) _)) in *. set (c := oid_of (oids (`k)) _) in *.
    destruct (Z.lt_ge_cases 0 (lex_sign b c)) as [|Hb]; [done|]. pose proof (lex_sign_trans a b c Hxy Hb). lia.
Qed.

(** ** The properties *)

(** C26: the sort of the array ends, without leaving its segment, with the entries in
    ascending order: [array_qsort] sorts any array of entries for any comparison that
    is a total preorder. *)
Theorem array_qsort_correct {E : Type} (cmp : E -> E -> Z) `{!Comparison cmp} (l : list E) (rest : list (option E)) :
  (1 < length l)%nat -> Z.of_nat (length l) <= 2 ^ 30 ->
  exists l', array_qsort cmp (length l) ((Some <$> l) ++ rest) 0 (Z.of_nat (length l) - 1) = Some ((Some <$> l') ++ rest) /\
    l' ≡ₚ l /\ sorted cmp l'.
Proof. intros H1 H2. destruct (qsort_entries cmp l rest H1 H2) as (l' & Hp & Hs & Hq). by exists l'. Qed.

Lemma array_qsort_correct_witness : exists l', array_qsort compare_index 7 [Some 5; Some 3; Some 9; Some 3; Some 1; Some 9; Some 2; None] 0 6 = Some ((Some <$> l') ++ [None]) /\
  l' = [1; 2; 3; 3; 5; 9; 9].
Proof.
  destruct (array_qsort_correct compare_index [5; 3; 9; 3; 1; 9; 2] [None] ltac:(cbn; lia) ltac:(cbn; lia)) as (l' & Hq & _).
  exists l'. split; [exact Hq|]. assert (Hc : array_qsort compare_index 7 [Some 5; Some 3; Some 9; Some 3; Some 1; Some 9; Some 2; None] 0 6 =
    Some ((Some <$> [1; 2; 3; 3; 5; 9; 9]) ++ [None])) by (vm_compute; reflexivity).
  change (Some <$> [5; 3; 9; 3; 1; 9; 2]) with [Some 5; Some 3; Some 9; Some 3; Some 1; Some 9; Some 2] in Hq. cbn [app length] in Hq.
  change (Z.of_nat 7 - 1) with 6 in Hq. rewrite Hc in Hq. apply (inj Some), app_inv_tail, (inj (fmap Some)) in Hq. done.
Defined.

(** C25: a sorted array refines the multiset of its entries: whatever is asked of a new
    container, with any combination of its flags, it returns, and the answers are
    those of a multiset that refuses equal keys and lists its entries in order as its
    flags say; the entry after a key is, in an array that is kept sorted, one with the
    next highest key, also when there are several with the same key.  At the end it has
    exactly the entries of the multiset. *)
Theorem binary_array_refines {E : Type} (cmp : E -> E -> Z) `{!Comparison cmp} (flag : Z) (ops : list (operation E)) :
  Z.of_nat (insertions ops) < 2 ^ 30 ->
  let t := set_ba_flags flag netsnmp_binary_array_initialize in
  runs (perform_all (binary_array_ops cmp) ops) (fun rs t' => stores cmp t' (live t') /\
    all_answers cmp (Z.land flag CONTAINER_KEY_ALLOW_DUPLICATES =? 0) (Z.land flag CONTAINER_KEY_UNSORTED =? 0) ops [] rs (live t')) t.
Proof.
  intros Hn t. assert (Hst : stores cmp t []) by (constructor; cbn; [by exists []|done|done|lia|constructor]).
  eapply runs_mono; [apply (perform_all_runs (binary_array_laws cmp) ops t); [by exists []|intros _; apply distinct_nil|exact Hn]|]. cbv beta. intros rs t' [([l Hl] & _) Ha].
  cbn in Ha. unfold ba_flag in Ha. rewrite !negb_involutive in Ha. pose proof Hl as E1%stores_live. split; [by rewrite E1|exact Ha].
Qed.

Lemma binary_array_refines_witness : exists t', perform_all (binary_array_ops compare_index)
    [Insert true 5; Insert true 3; Insert true 5; FindNext (Some 3); Remove 5; ForEach] (set_ba_flags 0 netsnmp_binary_array_initialize) =
  Some ([Code 0; Code 0; Code (-1); Entry (Some 5); Code 0; Entries [3]], t') /\ live t' = [3] /\ stores compare_index t' [3].
Proof.
  destruct (runs_Some _ _ _ (binary_array_refines compare_index 0 [Insert true 5; Insert true 3; Insert true 5; FindNext (Some 3); Remove 5; ForEach] ltac:(cbn; lia)))
    as (rs & t' & Hrun & Hst & _).
  assert (Hc : (fun x => (x.1, live x.2)) <$> perform_all (binary_array_ops compare_index)
    [Insert true 5; Insert true 3; Insert true 5; FindNext (Some 3); Remove 5; ForEach] (set_ba_flags 0 netsnmp_binary_array_initialize) =
    Some ([Code 0; Code 0; Code (-1); Entry (Some 5); Code 0; Entries [3]], [3])) by (vm_compute; reflexivity).
  rewrite Hrun in Hc. cbn in Hc. injection Hc as -> Hl. exists t'. rewrite Hl in Hst. done.
Defined.

(** a lifo or a fifo list refines a multiset that accepts every entry; whatever is
    asked of it, it returns. *)
Theorem unsorted_list_refines {E : Type} (cmp : E -> E -> Z) `{!Comparison cmp} (fifo : Z) (ops : list (operation E)) :
  Z.of_nat (insertions ops) < 2 ^ 30 ->
  runs (perform_all (ssll_ops cmp) ops) (fun rs s' => well_formed cmp s' /\ all_answers cmp false false ops [] rs (head s'))
    (netsnmp_container_get_singly_linked_list fifo).
Proof.
  intros Hn. assert (Hwf : well_formed cmp (netsnmp_container_get_singly_linked_list fifo : sl_container E)) by (constructor; cbn; [done|lia|done|by right]).
  eapply runs_mono; [apply (perform_all_runs (unsorted_list_laws cmp) ops); [by split|done|exact Hn]|]. cbv beta. intros rs s' [([Hl _] & _) Ha]. by split.
Qed.

Lemma unsorted_list_refines_witness : exists s', perform_all (ssll_ops compare_index) [Insert true 5; Insert true 3; Find 4; Find 3; Remove 5; Size]
    netsnmp_container_get_fifo = Some ([Code 0; Code 0; Entry None; Entry (Some 3); Code 0; Code 1], s') /\ well_formed compare_index s' /\ head s' = [3].
Proof.
  destruct (runs_Some _ _ _ (unsorted_list_refines compare_index 1 [Insert true 5; Insert true 3; Find 4; Find 3; Remove 5; Size] ltac:(cbn; lia))) as (rs & s' & Hrun & Hwf & _).
  assert (Hc : (fun x => (x.1, head x.2)) <$> perform_all (ssll_ops compare_index) [Insert true 5; Insert true 3; Find 4; Find 3; Remove 5; Size]
    netsnmp_container_get_fifo = Some ([Code 0; Code 0; Entry None; Entry (Some 3); Code 0; Code 1], [3])) by (vm_compute; reflexivity).
  unfold netsnmp_container_get_fifo in *. rewrite Hrun in Hc. cbn in Hc. injection Hc as -> Hl. by exists s'.
Defined.

(** looking up a key in a sorted list gives the first entry that is not below it,
    whether it has that key or not: an exact search finds entries that are not
    there. *)
Theorem sorted_list_find {E : Type} (cmp : E -> E -> Z) `{!Comparison cmp} (k : E) (s : sl_container E) : well_formed cmp s -> sl_unsorted s = 0 ->
  match _get cmp (Some k) true s with
  | Some x => x ∈ head s /\ 0 <= cmp x k /\ (forall y, y ∈ head s -> 0 <= cmp y k -> cmp x y <= 0)
  | None => Forall (fun y => cmp y k < 0) (head s)
  end.
Proof.
  intros Hwf Hu. pose proof (wf_sorted _ _ Hwf Hu) as Hso. unfold _get. rewrite Hu. destruct (head s) as [|x l] eqn:Hh; [constructor|].
  destruct (get_loop_sorted cmp k (x :: l) 0) as (l1 & l2 & rc & El & Eg & Hlow & Hx). rewrite Eg, El. destruct l2 as [|y l2]; [by rewrite app_nil_r|].
  destruct Hx as [-> Hy]. cbn [negb andb]. split; [apply elem_of_app; right; by left|]. split; [done|]. intros z [Hz|Hz]%elem_of_app Hzk.
  - rewrite list.Forall_forall in Hlow. specialize (Hlow z Hz). lia.
  - rewrite El in Hso. apply list_elem_of_lookup in Hz as [i Hi]. eapply (sorted_le (l1 ++ y :: l2) (length l1) (length l1 + i)); [done|lia| |].
    + by rewrite lookup_app_r, Nat.sub_diag by lia.
    + rewrite lookup_app_r by lia. by replace (length l1 + i - length l1)%nat with i by lia.
Qed.

Definition sorted_demo : sl_container Z := mksl 2 [3; 7] 0 0 2.

Lemma sorted_list_find_witness : _get compare_index (Some 5) true sorted_demo = Some 7 /\ 0 <= compare_index 7 5.
Proof.
  assert (Hwf : well_formed compare_index sorted_demo) by (constructor; cbn; [done|lia|intros _; repeat constructor; by_decide|by left]).
  pose proof (sorted_list_find compare_index 5 sorted_demo Hwf eq_refl) as H. assert (E1 : _get compare_index (Some 5) true sorted_demo = Some 7) by reflexivity.
  rewrite E1 in H. split; [exact E1|]. apply H.
Defined.

(** C27: an entry is put into all containers of a chain, but those that filter it out,
    or some container refuses it, for want of memory or because it refuses equal keys
    and has the key; then no container has one entry more or less than it had.
    Containers that refuse equal keys, and those that had no entry with the key, have
    exactly the entries they had; in the others, since the code takes the new entry out
    by its key, an entry with that key may have been exchanged for it. *)
Theorem insertion_all_or_nothing {E : Type} (k : E) (cs : list (container E)) (shs : list (shelf E)) :
  Forall2 keeps_entries cs shs -> Forall (fun sh => Z.of_nat (length (sh_entries sh)) < 2 ^ 30) shs ->
  exists rc cs', CONTAINER_INSERT cs k = Some (rc, cs') /\ Forall2 same_node cs cs' /\
    (rc = 0 /\ Forall2 keeps_entries cs' (zip_with (inserted k) cs shs) /\
       Forall2 (fun c sh => filtered k c = false -> sh_unique sh = true -> unmatched (sh_cmp sh) k (sh_entries sh)) cs shs \/
     rc <> 0 /\ Forall2 (fun c' sh => exists l, keeps_entries c' (with_entries l sh) /\ restored k sh l) cs' shs /\
       exists i c sh, cs !! i = Some c /\ shs !! i = Some sh /\ refuses k c sh).
Proof. apply insert_helper. Qed.

(** Two indexes of the same pairs. *)
Definition compare_first (x y : Z * Z) : Z := compare_index x.1 y.1.
Definition compare_second (x y : Z * Z) : Z := compare_index x.2 y.2.

#[local] Instance compare_first_ok : Comparison compare_first.
Proof. split; intros *; [apply (cmp_opp (cmp := compare_index))|apply (cmp_trans (cmp := compare_index))]. Qed.
#[local] Instance compare_second_ok : Comparison compare_second.
Proof. split; intros *; [apply (cmp_opp (cmp := compare_index))|apply (cmp_trans (cmp := compare_index))]. Qed.

Definition pairs_array (l : list (Z * Z)) : binary_array (Z * Z) := mkba 10 (Z.of_nat (length l)) 1 ((Some <$> l) ++ replicate (10 - length l) None) 0 0.
Definition two_indexes : list (container (Z * Z)) :=
  [mkcontainer _ (binary_array_ops compare_first) (pairs_array [(1, 10); (2, 20)]) true None;
   mkcontainer _ (binary_array_ops compare_second) (pairs_array [(1, 10); (2, 20)]) true None].
Definition two_shelves : list (shelf (Z * Z)) := [mkshelf compare_first true [(1, 10); (2, 20)]; mkshelf compare_second true [(1, 10); (2, 20)]].

Lemma insertion_all_or_nothing_witness : Forall2 keeps_entries two_indexes two_shelves /\
  exists rc cs', CONTAINER_INSERT two_indexes (3, 20) = Some (rc, cs') /\ rc <> 0 /\ Forall2 keeps_entries cs' two_shelves.
Proof.
  assert (Hk : Forall2 keeps_entries two_indexes two_shelves).
  { repeat constructor; [exists (container_store _ _ (binary_array_laws compare_first))|exists (container_store _ _ (binary_array_laws compare_second))].
    all: cbn [c_state two_indexes sh_entries sh_unique]; split_and!; [|done|done]; exists [(1, 10); (2, 20)].
    all: constructor; cbn; [by eexists|done|done|lia|done]. }
  split; [exact Hk|]. destruct (insertion_all_or_nothing (3, 20) two_indexes two_shelves Hk ltac:(repeat constructor)) as (rc & cs' & Hrun & _ & Hcase).
  assert (Hc : fst <$> CONTAINER_INSERT two_indexes (3, 20) = Some (-1)) by (vm_compute; reflexivity).
  rewrite Hrun in Hc. injection Hc as ->. exists (-1), cs'. split; [done|]. split; [done|]. destruct Hcase as [(? & _)|(_ & Hr & _)]; [done|].
  assert (Hu : Forall (fun sh => sh_unique sh = true) two_shelves) by (repeat constructor). clear -Hr Hu. revert Hu.
  induction Hr as [|c sh cs shs (l & Hl & _ & Hsame) _ IH]; [constructor|]. intros [H1 H2]%list.Forall_cons.
  constructor; [|by apply IH]. eapply keeps_perm; [exact Hl|apply Hsame; by left].
Defined.

(** The exchange: the list accepts a second entry with the key 1, the array refuses it,
    and the list is left with the new entry instead of the old one. *)
Definition held_entries (c : container (Z * Z)) : list (Z * Z) :=
  match @c_for_each _ _ (c_ops c) (c_state c) with Some (l, _) => l | None => [] end.
Definition fifo_and_array : list (container (Z * Z)) :=
  [mkcontainer _ (ssll_ops compare_first) (mksl 1 [(1, 10)] 1 1 0) true None;
   mkcontainer _ (binary_array_ops compare_first) (pairs_array [(1, 10)]) true None].

Example exchanged_ex : match CONTAINER_INSERT fifo_and_array (1, 20) with
  | Some (rc, cs) => rc = -1 /\ map held_entries cs = [[(1, 20)]; [(1, 10)]]
  | None => False
  end.
Proof. vm_compute. done. Qed.

(** an iterator of a sorted array goes through all its entries, each once and in
    the order of their keys, and ends. *)
Theorem iterator_sees_all {E : Type} (cmp : E -> E -> Z) `{!Comparison cmp} (t : binary_array E) (l : list E) (fuel : nat) :
  stores cmp t l -> (length l < fuel)%nat ->
  runs (walk_through cmp fuel) (fun r t' => r.1 ≡ₚ l /\ (ba_flag CONTAINER_KEY_UNSORTED t = false -> sorted cmp r.1) /\
    stores cmp t' r.1 /\ it_sync r.2 = sync t') t.
Proof.
  intros Hst Hf. eapply runs_mono; [by apply (walk_through_runs cmp t l)|]. cbv beta. intros r t' ([H1 H2 _ _] & Hs & Hsync). done.
Qed.

Lemma pairs_array_stores : stores compare_first (pairs_array [(2, 20); (1, 10)]) [(2, 20); (1, 10)].
Proof. constructor; cbn; [by eexists|done|done|lia|done]. Qed.

Lemma iterator_sees_all_witness : exists it t', walk_through compare_first 3 (pairs_array [(2, 20); (1, 10)]) = Some ([(1, 10); (2, 20)], it, t') /\
  stores compare_first t' [(1, 10); (2, 20)].
Proof.
  destruct (runs_Some _ _ _ (iterator_sees_all compare_first _ _ 3 pairs_array_stores ltac:(cbn; lia))) as ([l it] & t' & Hrun & _ & _ & Hst & _).
  assert (Hc : (fun x => x.1.1) <$> walk_through compare_first 3 (pairs_array [(2, 20); (1, 10)]) = Some [(1, 10); (2, 20)]) by (vm_compute; reflexivity).
  rewrite Hrun in Hc. injection Hc as ->. by exists it, t'.
Defined.

(** Taking out the last entry through an iterator leaves the iterator behind: it counts
    a change the container does not count, and from then on sees nothing. *)
Example iterator_lost_after_last :
  (it ← _ba_iterator_get compare_index; '(_, it) ← _ba_iterator_next it; '(_, it) ← _ba_iterator_remove it; _ba_iterator_first it)
    (mkba 10 2 0 (Some 1 :: Some 2 :: replicate 8 None) 0 5) = Some (None, mkba 10 1 0 (Some 1 :: Some 2 :: replicate 8 None) 0 5).
Proof. vm_compute. reflexivity. Qed.

(** Asking twice for the last entry of a list gives a node the second time. *)
Example last_twice : let s := mksl 2 [3; 7] 0 0 2 in let '(p, it) := _ssll_iterator_last (_ssll_iterator_get s) s in
  p = Some (Data 7) /\ fst (_ssll_iterator_last it s) = Some (Node 1).
Proof. done. Qed.

(** the entries of an array of indexes that begin with a given index: the subset is
    exactly these entries, in order, and the null pointer if there are none. *)
Theorem get_subset_exact (t : binary_array indexes) (l : list indexes) (key : indexes) :
  stores compare_indexes t l -> ba_flag CONTAINER_KEY_UNSORTED t = false ->
  runs (netsnmp_binary_array_get_subset compare_indexes (Some ncompare_indexes) true key)
    (fun r t' => exists l', stores compare_indexes t' l' /\ l' ≡ₚ l /\ sorted compare_indexes l' /\
      r = match filter (fun x => ncompare_indexes x key = 0) l' with [] => None | xs => Some (Some <$> xs) end /\
      forall x, ncompare_indexes x key = 0 <-> oid_of (oids (`key)) (len (`key)) `prefix_of` oid_of (oids (`x)) (len (`x))) t.
Proof.
  intros Hst Hu. eapply runs_mono; [by apply (get_subset_runs compare_indexes ncompare_indexes t l key)|]. cbv beta.
  intros r t' (l' & [H1 H2 _ _] & Hs & ->). exists l'. split_and!; [done|done|done|done|]. intros x.
  rewrite (proj2 (ncompare_indexes_spec x key)), lex_sign_eq. pose proof (oid_of_length (oids (`key)) (len (`key)) (proj2_sig key)) as Hlen.
  split.
  - intros <-. apply prefix_take.
  - intros [y ->]. rewrite take_app_length'; [done|lia].
Qed.

Definition index3 (a b c : Z) (H : index_ok (mkindex 3 [a; b; c])) : indexes := exist index_ok (mkindex 3 [a; b; c]) H.
Definition demo_indexes : list indexes := [index3 1 2 3 ltac:(by_decide); index3 1 5 1 ltac:(by_decide); index3 1 2 1 ltac:(by_decide)].
Definition demo_key : indexes := exist index_ok (mkindex 2 [1; 2]) ltac:(by_decide).

Definition names (xs : list (option indexes)) : list (option (list Z)) := map (option_map (fun x : indexes => oids (`x))) xs.

Lemma get_subset_exact_witness : exists xs t', netsnmp_binary_array_get_subset compare_indexes (Some ncompare_indexes) true demo_key
    (mkba 3 3 1 (Some <$> demo_indexes) 0 0) = Some (Some xs, t') /\ names xs = [Some [1; 2; 1]; Some [1; 2; 3]].
Proof.
  assert (Hst : stores compare_indexes (mkba 3 3 1 (Some <$> demo_indexes) 0 0) demo_indexes) by (constructor; cbn; [by exists []|done|done|lia|done]).
  destruct (runs_Some _ _ _ (get_subset_exact _ _ demo_key Hst eq_refl)) as (r & t' & Hrun & _).
  assert (Hc : (fun x => option_map names x.1) <$> netsnmp_binary_array_get_subset compare_indexes (Some ncompare_indexes) true demo_key
    (mkba 3 3 1 (Some <$> demo_indexes) 0 0) = Some (Some [Some [1; 2; 1]; Some [1; 2; 3]])) by (vm_compute; reflexivity).
  rewrite Hrun in Hc. injection Hc as Hc. destruct r as [xs|]; [|done]. exists xs, t'. split; [done|]. by injection Hc.
Defined.
