(* ===== verification/Registry.v ===== *)
(** The registry of the agent, [agent/agent_registry.c]: the subtrees a context has
    been given, the search for the one that holds a name, and the caches of that
    search.  A subtree is an object on the heap; the subtrees of a context are
    chained by [next] in the order of the ranges they cover.  Context names are C
    strings, given by their characters; the null pointer stands for the empty one.
    Allocations succeed. *)
From Stdlib Require Import ZArith Lia.
From stdpp Require Import gmap.
From S2P Require Import Prelude Chains Asn1Defs Oid.

Definition SUBTREE_DEFAULT_CACHE_SIZE : Z := 8.
Definition SUBTREE_MAX_CACHE_SIZE : Z := 32.

(** [netsnmp_subtree], without the label, the variables themselves, the session
    and what only the sub-agent protocol uses. *)
Record subtree : Type := mksubtree {
  name_a : list Z;
  namelen : Z;               (* u_char *)
  start_a : list Z;
  start_len : Z;             (* u_char *)
  end_a : option (list Z);
  end_len : Z;               (* u_char *)
  has_variables : bool;      (* variables != NULL *)
  variables_len : Z;         (* int *)
  priority : Z;              (* u_char *)
  st_next : option Z;
  st_prev : option Z;
  children : option Z;
  st_reginfo : option Z;
  st_cacheid : Z;            (* int *)
  global_cacheid : Z;        (* int *)
  oid_off : Z                (* size_t *)
}.

Definition set_st_cacheid (x : Z) (t : subtree) : subtree :=
  mksubtree (name_a t) (namelen t) (start_a t) (start_len t) (end_a t) (end_len t) (has_variables t) (variables_len t)
    (priority t) (st_next t) (st_prev t) (children t) (st_reginfo t) x (global_cacheid t) (oid_off t).
Definition set_st_next (x : option Z) (t : subtree) : subtree :=
  mksubtree (name_a t) (namelen t) (start_a t) (start_len t) (end_a t) (end_len t) (has_variables t) (variables_len t)
    (priority t) x (st_prev t) (children t) (st_reginfo t) (st_cacheid t) (global_cacheid t) (oid_off t).
Definition set_st_prev (x : option Z) (t : subtree) : subtree :=
  mksubtree (name_a t) (namelen t) (start_a t) (start_len t) (end_a t) (end_len t) (has_variables t) (variables_len t)
    (priority t) (st_next t) x (children t) (st_reginfo t) (st_cacheid t) (global_cacheid t) (oid_off t).
Definition set_children (x : option Z) (t : subtree) : subtree :=
  mksubtree (name_a t) (namelen t) (start_a t) (start_len t) (end_a t) (end_len t) (has_variables t) (variables_len t)
    (priority t) (st_next t) (st_prev t) x (st_reginfo t) (st_cacheid t) (global_cacheid t) (oid_off t).
Definition set_oid_off (x : Z) (t : subtree) : subtree :=
  mksubtree (name_a t) (namelen t) (start_a t) (start_len t) (end_a t) (end_len t) (has_variables t) (variables_len t)
    (priority t) (st_next t) (st_prev t) (children t) (st_reginfo t) (st_cacheid t) (global_cacheid t) x.

(** [lookup_cache] *)
Record lookup_cache : Type := mkcache { lc_next : option Z; lc_previous : option Z }.

(** [lookup_cache_context]; the member [next] is the list it is in. *)
Record lookup_cache_context : Type := mkccache {
  lc_context : list Z;
  thecachecount : Z;         (* int *)
  currentpos : Z;            (* int *)
  cache : list lookup_cache  (* [SUBTREE_MAX_CACHE_SIZE] *)
}.

(** The static variables, and the subtrees on the heap. *)
Record registry : Type := mkregistry {
  subtrees : gmap Z subtree;
  context_subtrees : list (list Z * option Z);   (* context_name, first_subtree *)
  thecontextcache : list lookup_cache_context;
  lookup_cache_size : Z      (* int *)
}.

Definition set_subtrees (x : gmap Z subtree) (r : registry) : registry :=
  mkregistry x (context_subtrees r) (thecontextcache r) (lookup_cache_size r).
Definition set_caches (x : list lookup_cache_context) (r : registry) : registry :=
  mkregistry (subtrees r) (context_subtrees r) x (lookup_cache_size r).

Definition netsnmp_set_lookup_cache_size (newsize : Z) (r : registry) : registry :=
  mkregistry (subtrees r) (context_subtrees r) (thecontextcache r)
    (if newsize <? 0 then SUBTREE_DEFAULT_CACHE_SIZE
     else if newsize <? SUBTREE_MAX_CACHE_SIZE then newsize else SUBTREE_MAX_CACHE_SIZE).

Definition netsnmp_subtree_find_first (r : registry) (context_name : list Z) : option Z :=
  match list_find (fun p => p.1 = context_name) (context_subtrees r) with
  | Some (_, (_, first)) => first
  | None => None
  end.

(** ** The lookup cache *)

(** The cache of a context, made if the context has subtrees: its place in the
    list. *)
Definition get_context_lookup_cache (r : registry) (context : list Z) : registry * option nat :=
  match list_find (fun c => lc_context c = context) (thecontextcache r) with
  | Some (i, _) => (r, Some i)
  | None =>
    match netsnmp_subtree_find_first r context with
    | Some _ =>
      (set_caches (mkccache context 0 0 (replicate (Z.to_nat SUBTREE_MAX_CACHE_SIZE) (mkcache None None)) :: thecontextcache r) r, Some 0%nat)
    | None => (r, None)
    end
  end.

Definition lookup_cache_add (r : registry) (context : list Z) (next previous : Z) : option registry :=
  match get_context_lookup_cache r context with
  | (r, None) => Some r
  | (r, Some i) =>
    c ← thecontextcache r !! i;
    let count := if thecachecount c <? lookup_cache_size r then thecachecount c + 1 else thecachecount c in
    if (0 <=? currentpos c) && (currentpos c <? SUBTREE_MAX_CACHE_SIZE) then
      let pos := currentpos c + 1 in
      Some (set_caches (<[i := mkccache (lc_context c) count (if lookup_cache_size r <=? pos then 0 else pos)
                                 (<[Z.to_nat (currentpos c) := mkcache (Some next) (Some previous)]> (cache c))]> (thecontextcache r)) r)
    else None
  end.

(** [lookup_cache_replace], on the entry [k] of the cache [i]. *)
Definition lookup_cache_replace (r : registry) (i k : nat) (next previous : Z) : option registry :=
  c ← thecontextcache r !! i;
  _ ← cache c !! k;
  Some (set_caches (<[i := mkccache (lc_context c) (thecachecount c) (currentpos c)
                             (<[k := mkcache (Some next) (Some previous)]> (cache c))]> (thecontextcache r)) r).

(** The loop of [lookup_cache_find]: [turns] entries are left, [k] is the next. *)
Fixpoint cache_loop (r : registry) (c : lookup_cache_context) (name : list Z) (name_len : Z) (turns k : nat)
    (found : option (nat * Z)) : option (option (nat * Z)) :=
  match turns with
  | O => Some found
  | S turns =>
    e ← cache c !! k;
    previous ← lc_previous e;
    t ← subtrees r !! previous;
    cmp ← snmp_oid_compare name name_len (start_a t) (start_len t);
    cache_loop r c name name_len turns (S k) (if 0 <=? cmp then Some (k, cmp) else found)
  end.

(** The entry found, as the cache and the place in it, and [*retcmp] if it is set. *)
Definition lookup_cache_find (r : registry) (context : list Z) (name : list Z) (name_len : Z)
  : option (registry * option (nat * nat * Z)) :=
  match get_context_lookup_cache r context with
  | (r, None) => Some (r, None)
  | (r, Some i) =>
    c ← thecontextcache r !! i;
    found ← cache_loop r c name name_len (Z.to_nat (Z.min (thecachecount c) (lookup_cache_size r))) 0 None;
    Some (r, match found with Some (k, cmp) => Some (i, k, cmp) | None => None end)
  end.

Definition invalidate_lookup_cache (r : registry) (context : list Z) : option registry :=
  match get_context_lookup_cache r context with
  | (r, None) => Some r
  | (r, Some i) =>
    c ← thecontextcache r !! i;
    Some (set_caches (<[i := mkccache (lc_context c) 0 0 (cache c)]> (thecontextcache r)) r)
  end.

Definition clear_lookup_cache (r : registry) : registry := set_caches [] r.

(** ** The search *)

(** The loop of [netsnmp_subtree_find_prev] with the comparison it saves: gives
    [previous], and [myptr] where it stopped ([None] at the end of the list). *)
Fixpoint find_prev_loop (fuel : nat) (r : registry) (name : list Z) (len : Z) (myptr previous : option Z) (ll_off : Z)
  : option (option Z * option Z) :=
  match fuel, myptr with
  | _, None => Some (previous, None)
  | O, _ => None
  | S fuel, Some p =>
    t ← subtrees r !! p;
    if negb (ll_off =? 0) && negb (oid_off t =? 0) && (ll_off <? oid_off t)
    then find_prev_loop fuel r name len (st_next t) (Some p) ll_off
    else
      '(cmp, ll_off) ← netsnmp_oid_compare_ll name len (start_a t) (start_len t);
      if cmp <? 0 then Some (previous, Some p) else find_prev_loop fuel r name len (st_next t) (Some p) ll_off
  end.

(** A chain cannot be longer than there are subtrees. *)
Definition chain_fuel (r : registry) : nat := S (size (subtrees r)).

Definition netsnmp_subtree_find_prev (r : registry) (name : list Z) (len : Z) (sub : option Z) (context_name : list Z)
  : option (registry * option Z) :=
  '(r, lookup_cache, cmp, myptr, previous) ←
    match sub with
    | Some s => Some (r, None, 1, Some s, None)
    | None =>
      if lookup_cache_size r =? 0 then Some (r, None, 1, netsnmp_subtree_find_first r context_name, None)
      else
        '(r, found) ← lookup_cache_find r context_name name len;
        match found with
        | Some (i, k, cmp) =>
          c ← thecontextcache r !! i; e ← cache c !! k;
          Some (r, Some (i, k), cmp,
                match lc_next e with Some n => Some n | None => netsnmp_subtree_find_first r context_name end, lc_previous e)
        | None => Some (r, None, 1, netsnmp_subtree_find_first r context_name, None)
        end
    end;
  '(result, stop) ← find_prev_loop (chain_fuel r) r name len myptr previous 0;
  match stop, result with
  | Some myptr, Some previous =>
    if negb (lookup_cache_size r =? 0) && negb (cmp =? 0) then
      r ← match lookup_cache with
          | Some (i, k) => lookup_cache_replace r i k myptr previous
          | None => lookup_cache_add r context_name myptr previous
          end;
      Some (r, result)
    else Some (r, result)
  | _, _ => Some (r, result)
  end.

Definition netsnmp_subtree_find (r : registry) (name : list Z) (len : Z) (sub : option Z) (context_name : list Z)
  : option (registry * option Z) :=
  '(r, myptr) ← netsnmp_subtree_find_prev r name len sub context_name;
  match myptr with
  | None => Some (r, None)
  | Some p =>
    t ← subtrees r !! p;
    match end_a t with
    | None => Some (r, None)
    | Some e =>
      cmp ← snmp_oid_compare name len e (end_len t);
      Some (r, if cmp <? 0 then Some p else None)
    end
  end.

(** The [while] loop of [netsnmp_subtree_find_next]. *)
Fixpoint with_variables (fuel : nat) (r : registry) (myptr : option Z) : option (option Z) :=
  match fuel, myptr with
  | _, None => Some None
  | O, _ => None
  | S fuel, Some p =>
    t ← subtrees r !! p;
    if negb (has_variables t) || (variables_len t =? 0) then with_variables fuel r (st_next t) else Some (Some p)
  end.

Definition netsnmp_subtree_find_next (r : registry) (name : list Z) (len : Z) (sub : option Z) (context_name : list Z)
  : option (registry * option Z) :=
  '(r, myptr) ← netsnmp_subtree_find_prev r name len sub context_name;
  match myptr, sub with
  | Some p, _ => t ← subtrees r !! p; n ← with_variables (chain_fuel r) r (st_next t); Some (r, n)
  | None, Some s =>
    t ← subtrees r !! s;
    cmp ← snmp_oid_compare name len (start_a t) (start_len t);
    Some (r, if cmp <? 0 then Some s else None)
  | None, None => Some (r, None)
  end.

(** ** Linking and unlinking *)

Definition update (p : Z) (f : subtree -> subtree) (r : registry) : option registry :=
  t ← subtrees r !! p; Some (set_subtrees (<[p := f t]> (subtrees r)) r).

Definition compare_offset (r : registry) (a b : Z) : option Z :=
  t ← subtrees r !! a; u ← subtrees r !! b;
  '(_, off) ← netsnmp_oid_compare_ll (start_a t) (start_len t) (start_a u) (start_len u); Some off.

Definition netsnmp_subtree_change_next (r : registry) (ptr : Z) (thenext : option Z) : option registry :=
  r ← update ptr (set_st_next thenext) r;
  match thenext with
  | Some n => off ← compare_offset r ptr n; update n (set_oid_off off) r
  | None => Some r
  end.

Definition netsnmp_subtree_change_prev (r : registry) (ptr : Z) (theprev : option Z) : option registry :=
  r ← update ptr (set_st_prev theprev) r;
  match theprev with
  | Some q => off ← compare_offset r q ptr; update ptr (set_oid_off off) r
  | None => Some r
  end.

(** [context_subtrees] with the first subtree of the context replaced, or with a
    new context in front ([add_subtree]). *)
Definition netsnmp_subtree_replace_first (r : registry) (new_tree : option Z) (context_name : list Z) : registry :=
  mkregistry (subtrees r)
    match list_find (fun p => p.1 = context_name) (context_subtrees r) with
    | Some (i, _) => <[i := (context_name, new_tree)]> (context_subtrees r)
    | None => (context_name, new_tree) :: context_subtrees r
    end (thecontextcache r) (lookup_cache_size r).

(** [for (ptr = ...; ptr; ptr = ptr->children) ...]: the pointers it goes through. *)
Definition child_list (fuel : nat) (r : registry) (p : option Z) : option (list Z) :=
  walk (fun q => children <$> subtrees r !! q) fuel p.

Fixpoint on_each (f : registry -> Z -> option registry) (r : registry) (ps : list Z) : option registry :=
  match ps with
  | [] => Some r
  | p :: ps => r ← f r p; on_each f r ps
  end.

Definition netsnmp_subtree_unload (r : registry) (sub prev : option Z) (context : list Z) : option registry :=
  match sub, prev with
  | None, _ => Some r
  | Some s, Some q =>
    t ← subtrees r !! s; r ← update q (set_children (children t)) r; invalidate_lookup_cache r context
  | Some s, None =>
    t ← subtrees r !! s;
    let new_next := match children t with None => st_next t | Some c => Some c end in
    let new_prev := match children t with None => st_prev t | Some c => Some c end in
    before ← child_list (chain_fuel r) r (st_prev t);
    r ← on_each (fun r p => netsnmp_subtree_change_next r p new_next) r before;
    after ← child_list (chain_fuel r) r (st_next t);
    r ← on_each (fun r p => netsnmp_subtree_change_prev r p new_prev) r after;
    let r := match st_prev t with None => netsnmp_subtree_replace_first r new_next context | Some _ => r end in
    invalidate_lookup_cache r context
  end.

(** The contexts whose first subtree is [tree] get the next one. *)
Definition netsnmp_remove_subtree (r : registry) (tree : Z) : option registry :=
  t ← subtrees r !! tree;
  r ← match st_prev t with
      | None =>
        match list_find (fun p => p.2 = Some tree) (context_subtrees r) with
        | Some (i, (c, _)) => Some (mkregistry (subtrees r) (<[i := (c, st_next t)]> (context_subtrees r)) (thecontextcache r) (lookup_cache_size r))
        | None => Some r
        end
      | Some q => update q (set_st_next (st_next t)) r
      end;
  match st_next t with
  | Some n => update n (set_st_prev (st_prev t)) r
  | None => Some r
  end.
