(* ===== verification/RegistryProps.v ===== *)
(** The search of the registry finds the subtree whose range holds the name,
    whatever its caches hold: the comparisons saved with [oid_off] and the entries
    of the lookup cache never change the answer. *)
From Stdlib Require Import ZArith Lia.
From stdpp Require Import gmap.
From S2P Require Import Prelude Chains Asn1Defs Oid Registry.

(** The name above [p] and [m] agree further than [n] and [p]: then [n] is on the
    same side of [m] as of [p]. *)
Lemma lex_sign_skip n : forall p m, 0 <= lex_sign n p -> (lcp n p < lcp p m)%nat -> lex_sign n m = 1 /\ lcp n m = lcp n p.
Proof.
  induction n as [|x n IH]; intros [|y p] [|z m]; simpl; try lia.
  destruct (Z.eqb_spec y z) as [->|]; [|destruct (x =? y); lia].
  destruct (Z.eqb_spec x z) as [->|Hxz].
  - intros H1 H2. destruct (IH p m) as [-> ->]; [done|lia|done].
  - destruct (Z.ltb_spec x z); [lia|done].
Qed.

Section chains.
Context (S : gmap Z subtree).

Definition start_of (t : subtree) : list Z := oid_of (start_a t) (start_len t).

(** [p] starts the chain of the subtrees [ps]. *)
Definition chain_from (p : option Z) (ps : list Z) : Prop := chain (fun q => st_next <$> S !! q) p ps.

Lemma chain_from_cons p q ps : chain_from p (q :: ps) <-> p = Some q /\ exists t, S !! q = Some t /\ chain_from (st_next t) ps.
Proof.
  unfold chain_from. cbn. destruct (S !! q) as [t|]; cbn; split.
  - intros [-> (n & [= <-] & Hc)]. eauto.
  - intros [-> (t' & [= <-] & Hc)]. eauto.
  - by intros [_ (n & [=] & _)].
  - by intros [_ (t' & [=] & _)].
Qed.

(** A subtree after [prev] in a chain: its names are identifiers, it starts after
    [prev] ends, and [oid_off], if it is set, tells where it differs from [prev]. *)
Definition follows (prev : option Z) (t : subtree) : Prop :=
  oid_ok (start_a t) (start_len t) /\
  match prev with
  | None => True
  | Some q => exists u e, S !! q = Some u /\ end_a u = Some e /\
                lex_sign (start_of u) (oid_of e (end_len u)) < 0 /\
                lex_sign (oid_of e (end_len u)) (start_of t) <= 0 /\
                (oid_off t = 0 \/ oid_off t = Z.of_nat (lcp (start_of u) (start_of t)) + 1)
  end.

Fixpoint ordered (prev : option Z) (ps : list Z) : Prop :=
  match ps with
  | [] => True
  | q :: ps => (exists t, S !! q = Some t /\ follows prev t /\ forall e, end_a t = Some e -> oid_ok e (end_len t)) /\ ordered (Some q) ps
  end.

(** The last subtree of the chain that does not start after the name. *)
Fixpoint last_not_after (name : list Z) (prev : option Z) (ps : list Z) : option Z :=
  match ps with
  | [] => prev
  | q :: ps =>
    match S !! q with
    | Some t => if lex_sign name (start_of t) <? 0 then prev else last_not_after name (Some q) ps
    | None => None
    end
  end.

(** What [ll_off] knows: where the name differs from the subtree [prev]. *)
Definition off_of (name : list Z) (prev : option Z) (ll_off : Z) : Prop :=
  ll_off = 0 \/
  exists q t, prev = Some q /\ S !! q = Some t /\ 0 <= lex_sign name (start_of t) /\
              ll_off = Z.of_nat (lcp name (start_of t)) + 1.

(** The loop gives the last subtree not after the name; it stops at the one behind
    it, if there is one. *)
Lemma find_prev_loop_spec r name len ps : subtrees r = S -> oid_ok name len -> forall fuel p prev ll_off,
  chain_from p ps -> ordered prev ps -> off_of (oid_of name len) prev ll_off -> (length ps < fuel)%nat ->
  exists stop, find_prev_loop fuel r name len p prev ll_off = Some (last_not_after (oid_of name len) prev ps, stop) /\
    forall s, stop = Some s -> s ∈ ps /\
      (forall q, last_not_after (oid_of name len) prev ps = Some q -> prev = Some q /\ p = Some s \/ exists t, S !! q = Some t /\ st_next t = Some s /\ q ∈ ps).
Proof.
  intros Hr Hn. induction ps as [|q ps IH]; intros [|fuel] p prev ll_off Hc Ho Hl Hf; [cbn in Hf; lia| |cbn in Hf; lia|].
  - cbn in Hc. subst p. exists None. done.
  - apply chain_from_cons in Hc as [-> (t & Ht & Hc)]. cbn in Ho. destruct Ho as [(t' & Ht' & [Hok Hfol] & _) Ho]. simplify_eq.
    cbn [find_prev_loop last_not_after]. rewrite Hr, Ht. obind.
    assert (Hgo : forall ll, off_of (oid_of name len) (Some q) ll -> exists stop,
      find_prev_loop fuel r name len (st_next t) (Some q) ll = Some (last_not_after (oid_of name len) (Some q) ps, stop) /\
      forall s, stop = Some s -> s ∈ q :: ps /\ (forall q', last_not_after (oid_of name len) (Some q) ps = Some q' ->
        prev = Some q' /\ Some q = Some s \/ exists t, S !! q' = Some t /\ st_next t = Some s /\ q' ∈ q :: ps)).
    { intros ll Hll. destruct (IH fuel (st_next t) (Some q) ll) as (stop & Heq & Hs); [done..|cbn in Hf; lia|].
      exists stop. split; [done|]. intros s ->. destruct (Hs s eq_refl) as [Hin Hq]. split; [by right|]. intros q' Hq'.
      right. destruct (Hq q' Hq') as [[[= ->] Hn']|(u & Hu & Hu' & Hin')].
      - exists t. split_and!; [done|done|by left].
      - exists u. split_and!; [done|done|by right]. }
    destruct (negb (ll_off =? 0) && negb (oid_off t =? 0) && (ll_off <? oid_off t)) eqn:Hskip.
    + bool_prop. destruct Hskip as [[Hz Hz'] Hlt]. destruct Hl as [?|(q' & u & -> & Hu & Hge & ->)]; [lia|].
      destruct Hfol as (u' & e & Hu' & _ & _ & _ & [?|Hoff]); [lia|]. simplify_eq.
      destruct (lex_sign_skip (oid_of name len) (start_of u') (start_of t)) as [Hs Hlc]; [done|lia|].
      rewrite Hs. cbn. apply Hgo. right. exists q, t. split_and!; [done|done|lia|lia].
    + rewrite netsnmp_oid_compare_ll_spec by done. obind. fold (start_of t).
      destruct (Z.ltb_spec (lex_sign (oid_of name len) (start_of t)) 0) as [Hlt|Hge].
      * exists (Some q). split; [done|]. intros s [= <-]. split; [by left|]. intros q' ->. left. done.
      * apply Hgo. right. exists q, t. done.
Qed.

Lemma chain_from_app pre q suf p : chain_from p (pre ++ q :: suf) -> exists t, S !! q = Some t /\ chain_from (st_next t) suf.
Proof. intros (r & _ & Hc)%linked_app. by apply chain_from_cons in Hc as [_ Hc]. Qed.

Lemma chain_ordered_app prev pre q suf : ordered prev (pre ++ q :: suf) ->
  exists t, S !! q = Some t /\ oid_ok (start_a t) (start_len t) /\ (forall e, end_a t = Some e -> oid_ok e (end_len t)) /\ ordered (Some q) suf.
Proof.
  revert prev. induction pre as [|x pre IH]; intros prev; cbn.
  - intros [(t & Ht & [Hok _] & He) Ho]. by exists t.
  - intros [_ Ho]. by eapply IH.
Qed.

(** Later subtrees start later. *)
Lemma ordered_le pre : forall x tx q tq suf, ordered (Some x) (pre ++ q :: suf) -> S !! x = Some tx -> S !! q = Some tq ->
  lex_sign (start_of tx) (start_of tq) <= 0.
Proof.
  induction pre as [|y pre IH]; intros x tx q tq suf; cbn.
  - intros [(t & Ht & [_ (u & e & Hu & _ & H1 & H2 & _)] & _) _] Hx Hq. simplify_eq. eapply lex_sign_trans; [|exact H2]. lia.
  - intros [(t & Ht & [_ (u & e & Hu & _ & H1 & H2 & _)] & _) Ho] Hx Hq. simplify_eq.
    eapply lex_sign_trans; [|by eapply IH]. eapply lex_sign_trans; [|exact H2]. lia.
Qed.

Lemma lex_sign_ge a b : 0 <= lex_sign a b -> lex_sign b a <= 0.
Proof. rewrite lex_sign_opp. lia. Qed.

Lemma lex_sign_le a b : lex_sign b a <= 0 -> 0 <= lex_sign a b.
Proof. rewrite lex_sign_opp. lia. Qed.

(** The search may start at any subtree the name is not before. *)
Lemma last_not_after_skip name pre q tq suf : forall prev, ordered prev (pre ++ q :: suf) -> S !! q = Some tq ->
  0 <= lex_sign name (start_of tq) -> last_not_after name prev (pre ++ q :: suf) = last_not_after name (Some q) suf.
Proof.
  induction pre as [|x pre IH]; intros prev Ho Hq Hge; cbn.
  - rewrite Hq. by rewrite (proj2 (Z.ltb_ge _ _)) by lia.
  - destruct Ho as [(t & Ht & _) Ho]. rewrite Ht. rewrite (proj2 (Z.ltb_ge _ _)); [by apply IH|].
    apply lex_sign_le. eapply lex_sign_trans; [by eapply ordered_le|]. by apply lex_sign_ge.
Qed.

Lemma last_not_after_in name ps : forall prev q, last_not_after name prev ps = Some q ->
  prev = Some q \/ q ∈ ps /\ exists t, S !! q = Some t /\ 0 <= lex_sign name (start_of t).
Proof.
  induction ps as [|x ps IH]; intros prev q; cbn; [by left|]. destruct (S !! x) as [t|] eqn:Ht; [|done].
  destruct (Z.ltb_spec (lex_sign name (start_of t)) 0); [by left|]. intros Hq.
  destruct (IH _ _ Hq) as [[= ->]|[Hin Hex]]; right; [split; [by left|by exists t]|split; [by right|done]].
Qed.

(** The range of the subtree holds the name. *)
Definition holds_name (q : Z) (name : list Z) : Prop :=
  exists t e, S !! q = Some t /\ end_a t = Some e /\ 0 <= lex_sign name (start_of t) /\ lex_sign name (oid_of e (end_len t)) < 0.

Lemma last_not_after_holds name ps q : ordered None ps -> q ∈ ps -> holds_name q name -> last_not_after name None ps = Some q.
Proof.
  intros Ho Hin (t & e & Ht & He & Hge & Hlt). apply list_elem_of_split in Hin as (pre & suf & ->).
  rewrite (last_not_after_skip name pre q t suf) by done. destruct (chain_ordered_app _ _ _ _ Ho) as (t' & Ht' & _ & _ & Hs).
  destruct suf as [|n suf]; [done|]. cbn in *. destruct Hs as [(tn & Hn & [_ (u & e' & Hu & He' & _ & Hle & _)] & _) _]. simplify_eq.
  rewrite Hn. rewrite (proj2 (Z.ltb_lt _ _)); [done|].
  destruct (Z.lt_ge_cases (lex_sign name (start_of tn)) 0) as [|Hbad]; [done|].
  apply lex_sign_ge in Hbad. pose proof (lex_sign_trans _ _ _ Hle Hbad) as Hx. rewrite lex_sign_opp in Hx. lia.
Qed.
End chains.

(** ** The caches *)

Definition context_chain (r : registry) (context : list Z) (ps : list Z) : Prop :=
  chain_from (subtrees r) (netsnmp_subtree_find_first r context) ps /\ ordered (subtrees r) None ps.

(** An entry: a subtree of the context and the one behind it. *)
Definition entry_ok (S : gmap Z subtree) (ps : list Z) (e : lookup_cache) : Prop :=
  exists q n t, e = mkcache (Some n) (Some q) /\ q ∈ ps /\ S !! q = Some t /\ st_next t = Some n.

Record cache_ok (r : registry) (c : lookup_cache_context) : Prop := mkcache_ok {
  co_length : length (cache c) = Z.to_nat SUBTREE_MAX_CACHE_SIZE;
  co_pos : 0 <= currentpos c < SUBTREE_MAX_CACHE_SIZE;
  co_count : 0 <= thecachecount c <= SUBTREE_MAX_CACHE_SIZE;
  co_filling : thecachecount c < lookup_cache_size r -> currentpos c = thecachecount c;
  co_entries : exists ps, context_chain r (lc_context c) ps /\
    forall k e, (k < Z.to_nat (thecachecount c))%nat -> cache c !! k = Some e -> entry_ok (subtrees r) ps e
}.

(** A registry the search can rely on: the chains of its contexts are in order, with
    their [oid_off] right or unset, and the entries of its caches are neighbours of
    the chain of their context.  The search keeps it so; not everything else does:
    [netsnmp_remove_subtree] leaves the [oid_off] of the subtree behind the removed
    one, and a cache that is made larger goes on filling from the wrong place
    ([co_filling]). *)
Record registry_ok (r : registry) : Prop := mkregistry_ok {
  ro_size : 0 <= lookup_cache_size r <= SUBTREE_MAX_CACHE_SIZE;
  ro_chains : forall context, exists ps, context_chain r context ps;
  ro_caches : Forall (cache_ok r) (thecontextcache r)
}.

(** The registries that differ in their caches only. *)
Definition same_registry (r r' : registry) : Prop := exists cs, r' = set_caches cs r.

#[export] Instance same_registry_preorder : PreOrder same_registry.
Proof.
  split; [intros []; eexists; reflexivity|]. intros x y z [cs ->] [cs' ->]. by exists cs'.
Qed.

Lemma context_chain_inj r context ps ps' : context_chain r context ps -> context_chain r context ps' -> ps = ps'.
Proof. intros [H _] [H' _]. by eapply chain_inj. Qed.

Lemma cache_ok_set r cs c : cache_ok (set_caches cs r) c <-> cache_ok r c.
Proof. split; intros []; by constructor. Qed.

Lemma registry_ok_set r cs : registry_ok r -> Forall (cache_ok r) cs -> registry_ok (set_caches cs r).
Proof. intros [H1 H2 H3] Hcs. constructor; [done|done|]. eapply list.Forall_impl; [exact Hcs|]. intros c. by rewrite cache_ok_set. Qed.

Lemma get_context_lookup_cache_ok r context r' oi :
  registry_ok r -> get_context_lookup_cache r context = (r', oi) ->
  registry_ok r' /\ same_registry r r' /\ forall i, oi = Some i -> exists c, thecontextcache r' !! i = Some c /\ lc_context c = context.
Proof.
  intros Hr. unfold get_context_lookup_cache. destruct (list_find _ (thecontextcache r)) as [[i c]|] eqn:Hf.
  - intros [= <- <-]. split_and!; [done|done|]. intros j [= <-]. apply list_find_Some in Hf as (Hi & Hc & _). by exists c.
  - destruct (netsnmp_subtree_find_first r context) eqn:Hff.
    + intros [= <- <-]. split_and!.
      * apply registry_ok_set; [done|]. constructor; [|apply Hr]. destruct (ro_chains r Hr context) as [ps Hps].
        constructor; [done|unfold SUBTREE_MAX_CACHE_SIZE; cbn; lia..|]. exists ps. split; [done|]. cbn. lia.
      * by eexists.
      * intros i [= <-]. by eexists.
    + intros [= <- <-]. split_and!; [done|done|]. done.
Qed.

Lemma cache_entry r i c k :
  registry_ok r -> thecontextcache r !! i = Some c -> (k < Z.to_nat (thecachecount c))%nat ->
  exists ps q n t, context_chain r (lc_context c) ps /\ cache c !! k = Some (mkcache (Some n) (Some q)) /\
    q ∈ ps /\ subtrees r !! q = Some t /\ st_next t = Some n.
Proof.
  intros Hr Hc Hk. assert (Hco : cache_ok r c) by (eapply list.Forall_lookup_1; [apply Hr|done]).
  destruct (co_entries r c Hco) as (ps & Hps & He). destruct (lookup_lt_is_Some_2 (cache c) k) as [e Hke].
  { rewrite (co_length r c Hco). pose proof (co_count r c Hco). lia. }
  destruct (He k e Hk Hke) as (q & n & t & -> & Hq & Ht & Hn). by exists ps, q, n, t.
Qed.

Lemma chain_start S p ps q : chain_from S p ps -> ordered S None ps -> q ∈ ps ->
  exists pre suf t, ps = pre ++ q :: suf /\ S !! q = Some t /\ oid_ok (start_a t) (start_len t) /\
    (forall e, end_a t = Some e -> oid_ok e (end_len t)) /\ chain_from S (st_next t) suf /\ ordered S (Some q) suf.
Proof.
  intros Hc Ho Hin. apply list_elem_of_split in Hin as (pre & suf & ->).
  destruct (chain_from_app _ _ _ _ _ Hc) as (t & Ht & Hs). destruct (chain_ordered_app _ _ _ _ _ Ho) as (t' & Ht' & Hok & He & Ho').
  simplify_eq. by exists pre, suf, t.
Qed.

Lemma cache_loop_ok r i c name len turns : forall k found,
  registry_ok r -> thecontextcache r !! i = Some c -> oid_ok name len -> (k + turns <= Z.to_nat (thecachecount c))%nat ->
  exists res, cache_loop r c name len turns k found = Some res /\
    (res = found \/ exists k' q t n, res = Some (k', lex_sign (oid_of name len) (start_of t)) /\ (k' < Z.to_nat (thecachecount c))%nat /\
       cache c !! k' = Some (mkcache (Some n) (Some q)) /\ subtrees r !! q = Some t /\ 0 <= lex_sign (oid_of name len) (start_of t)).
Proof.
  induction turns as [|turns IH]; intros k found Hr Hc Hn Hk; [exists found; by split; [|left]|].
  cbn [cache_loop]. destruct (cache_entry r i c k) as (ps & q & n & t & [Hps Hor] & Hck & Hq & Ht & _); [done..|lia|]. rewrite Hck. obind. cbn [lc_previous]. obind.
  rewrite Ht. obind. destruct (chain_start _ _ _ _ Hps Hor Hq) as (pre & suf & t' & _ & Ht' & Hok & _). simplify_eq.
  rewrite snmp_oid_compare_spec by done. obind. fold (start_of t).
  edestruct (IH (Datatypes.S k)) as (res & -> & Hres); [done..|lia|]. exists res. split; [done|].
  destruct Hres as [->|]; [|by right]. destruct (Z.leb_spec 0 (lex_sign (oid_of name len) (start_of t))) as [Hge|]; [|by left].
  right. exists k, q, t, n. split_and!; [done|lia|done|done|done]. Unshelve.
Qed.

(** Writing a valid entry. *)
Lemma cache_update_ok r c k q t n ps count pos :
  registry_ok r -> cache_ok r c -> context_chain r (lc_context c) ps -> q ∈ ps -> subtrees r !! q = Some t -> st_next t = Some n ->
  (k < Z.to_nat SUBTREE_MAX_CACHE_SIZE)%nat -> 0 <= pos < SUBTREE_MAX_CACHE_SIZE -> 0 <= count <= SUBTREE_MAX_CACHE_SIZE ->
  (count < lookup_cache_size r -> pos = count) -> (count <= thecachecount c \/ count = Z.of_nat k + 1 /\ Z.of_nat k = thecachecount c) ->
  cache_ok r (mkccache (lc_context c) count pos (<[k := mkcache (Some n) (Some q)]> (cache c))).
Proof.
  intros Hr Hc Hps Hq Ht Hn Hk Hpos Hcount Hfill Hle. destruct (co_entries r c Hc) as (ps' & Hps' & He).
  rewrite (context_chain_inj _ _ _ _ Hps' Hps) in He. constructor; cbn; [rewrite length_insert; apply Hc|done|done|done|].
  exists ps. split; [done|]. intros j e Hj. destruct (decide (j = k)) as [->|Hne].
  - rewrite list_lookup_insert_eq by (rewrite (co_length r c Hc); lia). intros [= <-]. by exists q, n, t.
  - rewrite list_lookup_insert_ne by done. apply He. lia.
Qed.

Lemma replace_ok r i c k q t n ps :
  registry_ok r -> thecontextcache r !! i = Some c -> context_chain r (lc_context c) ps -> q ∈ ps -> subtrees r !! q = Some t ->
  st_next t = Some n -> (k < Z.to_nat (thecachecount c))%nat ->
  exists r', lookup_cache_replace r i k n q = Some r' /\ registry_ok r' /\ same_registry r r'.
Proof.
  intros Hr Hi Hps Hq Ht Hn Hk. assert (Hco : cache_ok r c) by (eapply list.Forall_lookup_1; [apply Hr|done]).
  pose proof (co_count r c Hco). pose proof (co_pos r c Hco). unfold lookup_cache_replace. rewrite Hi. obind.
  destruct (cache_entry r i c k) as (? & ? & ? & ? & _ & -> & _); [done..|]. obind. eexists. split_and!; [done| |by eexists].
  apply registry_ok_set; [done|]. apply Forall_insert; [apply Hr|]. apply (cache_update_ok r c k q t n ps); try done; [lia|apply Hco|by left].
Qed.

Lemma add_ok r context q t n ps :
  registry_ok r -> 0 < lookup_cache_size r -> context_chain r context ps -> q ∈ ps -> subtrees r !! q = Some t -> st_next t = Some n ->
  exists r', lookup_cache_add r context n q = Some r' /\ registry_ok r' /\ same_registry r r'.
Proof.
  intros Hr Hsz Hps Hq Ht Hn. unfold lookup_cache_add. destruct (get_context_lookup_cache r context) as [r1 oi] eqn:Hg.
  destruct (get_context_lookup_cache_ok r context r1 oi) as (Hr1 & [cs ->] & Hi); [done..|]. destruct oi as [i|].
  2:{ exists (set_caches cs r). split_and!; [done|done|by eexists]. }
  destruct (Hi i eq_refl) as (c & Hci & <-). rewrite Hci. obind.
  assert (Hco : cache_ok (set_caches cs r) c) by (eapply list.Forall_lookup_1; [apply Hr1|done]).
  pose proof (co_pos _ c Hco) as Hpos. pose proof (co_count _ c Hco) as Hcount. pose proof (co_filling _ c Hco) as Hfill.
  pose proof (ro_size _ Hr1) as Hsize. cbn [lookup_cache_size set_caches] in *.
  rewrite (proj2 (Z.leb_le 0 _)), (proj2 (Z.ltb_lt _ SUBTREE_MAX_CACHE_SIZE)) by lia. cbn [andb]. eexists. split_and!; [done| |by eexists].
  apply (registry_ok_set (set_caches cs r)); [done|]. apply Forall_insert; [apply Hr1|].
  apply (cache_update_ok _ c (Z.to_nat (currentpos c)) q t n ps); try done; cbn [lookup_cache_size set_caches].
  - lia.
  - destruct (Z.leb_spec (lookup_cache_size r) (currentpos c + 1)); lia.
  - destruct (Z.ltb_spec (thecachecount c) (lookup_cache_size r)); lia.
  - destruct (Z.ltb_spec (thecachecount c) (lookup_cache_size r)) as [Hlt|]; [|lia]. intros Hlt'. rewrite (Hfill Hlt) in *.
    by rewrite (proj2 (Z.leb_gt _ _)) by lia.
  - destruct (Z.ltb_spec (thecachecount c) (lookup_cache_size r)) as [Hlt|]; [|by left]. right. rewrite (Hfill Hlt). lia.
Qed.

(** Where the search starts: at the front of the chain, or behind a subtree of the
    cache that the name is not before. *)
Definition search_start (r : registry) (name : list Z) (ps : list Z) (myptr previous : option Z) : Prop :=
  (previous = None /\ chain_from (subtrees r) myptr ps) \/
  exists pre q suf t n, ps = pre ++ q :: suf /\ previous = Some q /\ myptr = Some n /\ subtrees r !! q = Some t /\ st_next t = Some n /\
    0 <= lex_sign name (start_of t).

Lemma search_loop r name len context ps myptr previous :
  context_chain r context ps -> oid_ok name len -> search_start r (oid_of name len) ps myptr previous ->
  exists stop, find_prev_loop (chain_fuel r) r name len myptr previous 0 =
      Some (last_not_after (subtrees r) (oid_of name len) None ps, stop) /\
    forall s q, stop = Some s -> last_not_after (subtrees r) (oid_of name len) None ps = Some q ->
      q ∈ ps /\ exists t, subtrees r !! q = Some t /\ st_next t = Some s.
Proof.
  intros [Hc Ho] Hn [[-> Hm]|(pre & q & suf & t & n & -> & -> & -> & Ht & Hnext & Hge)].
  - destruct (find_prev_loop_spec (subtrees r) r name len ps eq_refl Hn (chain_fuel r) myptr None 0) as (stop & -> & Hs); [done|done|by left| |].
    { apply chain_length in Hm. unfold chain_fuel. lia. }
    exists stop. split; [done|]. intros s q -> Hq. destruct (Hs s eq_refl) as [_ H]. destruct (H q Hq) as [[? _]|(t & ? & ? & ?)]; [done|]. split; [done|by exists t].
  - destruct (chain_from_app _ _ _ _ _ Hc) as (t' & Ht' & Hsuf). destruct (chain_ordered_app _ _ _ _ _ Ho) as (t'' & Ht'' & _ & _ & Hos). simplify_eq.
    rewrite (last_not_after_skip _ _ pre q t suf) by done. rewrite Hnext in Hsuf.
    destruct (find_prev_loop_spec (subtrees r) r name len suf eq_refl Hn (chain_fuel r) (Some n) (Some q) 0) as (stop & -> & Hs); [done|done|by left| |].
    { apply chain_length in Hsuf. unfold chain_fuel. lia. }
    exists stop. split; [done|]. intros s q' -> Hq'. destruct (Hs s eq_refl) as [_ H]. destruct (H q' Hq') as [[[= ->] [= ->]]|(u & ? & ? & ?)].
    + split; [rewrite elem_of_app, elem_of_cons; auto|by exists t].
    + split; [rewrite elem_of_app, elem_of_cons; auto|by exists u].
Qed.

Lemma search_first r context ps name : context_chain r context ps -> search_start r name ps (netsnmp_subtree_find_first r context) None.
Proof. intros [Hc _]. by left. Qed.

(** A pointer to a subtree of a chain that has one behind it. *)
Lemma search_behind r context ps name q t n :
  context_chain r context ps -> q ∈ ps -> subtrees r !! q = Some t -> st_next t = Some n -> 0 <= lex_sign name (start_of t) ->
  search_start r name ps (Some n) (Some q).
Proof.
  intros [Hc Ho] Hq Ht Hn Hge. right. apply list_elem_of_split in Hq as (pre & suf & ->). by exists pre, q, suf, t, n.
Qed.

(** The result of [netsnmp_subtree_find_prev] does not depend on the caches. *)
Lemma netsnmp_subtree_find_prev_spec r name len context ps :
  registry_ok r -> context_chain r context ps -> oid_ok name len ->
  exists r', netsnmp_subtree_find_prev r name len None context = Some (r', last_not_after (subtrees r) (oid_of name len) None ps) /\
    registry_ok r' /\ same_registry r r'.
Proof.
  intros Hr Hps Hn. unfold netsnmp_subtree_find_prev.
  set (o := last_not_after (subtrees r) (oid_of name len) None ps).
  destruct (Z.eqb_spec (lookup_cache_size r) 0) as [Hz|Hz].
  { obind. destruct (search_loop r name len context ps (netsnmp_subtree_find_first r context) None) as (stop & Hloop & _); [done..|by eapply search_first|].
    rewrite Hloop. obind. cbn [negb andb]. exists r. split; [|by split]. fold o. rewrite Hz. by destruct stop, o. }
  pose proof (ro_size r Hr) as Hsize.
  unfold lookup_cache_find. destruct (get_context_lookup_cache r context) as [r1 oi] eqn:Hg.
  destruct (get_context_lookup_cache_ok r context r1 oi) as (Hr1 & [cs Hcs] & Hi); [done..|].
  assert (Hps1 : context_chain r1 context ps) by by rewrite Hcs.
  assert (Hadd : forall stop q, stop = Some q -> (forall s q, stop = Some s -> o = Some q -> q ∈ ps /\ exists t, subtrees r1 !! q = Some t /\ st_next t = Some s) ->
    forall p, o = Some p -> exists r', lookup_cache_add r1 context q p = Some r' /\ registry_ok r' /\ same_registry r1 r').
  { intros stop q -> Hst p Hp. destruct (Hst q p eq_refl Hp) as (Hin & t & Ht & Hnx).
    apply (add_ok r1 context p t q ps); try done. rewrite Hcs. cbn. lia. }
  assert (Hplain : exists r', ('(result, stop) ← find_prev_loop (chain_fuel r1) r1 name len (netsnmp_subtree_find_first r1 context) None 0;
      match stop, result with
      | Some myptr, Some previous =>
        if negb (lookup_cache_size r1 =? 0) && negb (1 =? 0) then r ← lookup_cache_add r1 context myptr previous; Some (r, result)
        else Some (r1, result)
      | _, _ => Some (r1, result)
      end) = Some (r', o) /\ registry_ok r' /\ same_registry r r').
  { destruct (search_loop r1 name len context ps (netsnmp_subtree_find_first r1 context) None) as (stop & -> & Hst); [done..|by eapply search_first|].
    obind. replace (subtrees r1) with (subtrees r) in * by by rewrite Hcs. fold o in Hst |- *.
    assert (Hrefl : same_registry r r1) by by exists cs.
    destruct stop as [s|]; [|by exists r1]. destruct o as [p|] eqn:Ho; [|by exists r1].
    destruct (negb (lookup_cache_size r1 =? 0) && negb (1 =? 0)); [|by exists r1].
    destruct (Hadd (Some s) s eq_refl Hst p) as (r' & -> & ? & ?); [done|]. obind. exists r'. split_and!; [done|done|by etransitivity]. }
  destruct oi as [i|]; [|obind; exact Hplain]. destruct (Hi i eq_refl) as (c & Hci & Hctx). rewrite Hci. obind.
  assert (Hco : cache_ok r1 c) by (eapply list.Forall_lookup_1; [apply Hr1|done]).
  destruct (cache_loop_ok r1 i c name len (Z.to_nat (Z.min (thecachecount c) (lookup_cache_size r1))) 0 None) as (found & -> & Hfound); [done..|lia|].
  obind. destruct Hfound as [->|(k & q & t & n & -> & Hk & Hck & Ht & Hge)]; [obind; exact Hplain|].
  rewrite Hci. obind. rewrite Hck. obind. cbn [lc_next lc_previous].
  destruct (cache_entry r1 i c k) as (ps' & q' & n' & t' & Hps' & Hck' & Hq & Ht' & Hnx); [done..|]. rewrite Hck in Hck'. injection Hck' as <- <-.
  rewrite Ht in Ht'. injection Ht' as <-. rewrite Hctx in Hps'. rewrite (context_chain_inj _ _ _ _ Hps' Hps1) in Hq.
  destruct (search_loop r1 name len context ps (Some n) (Some q)) as (stop & -> & Hst); [done..|by eapply search_behind|].
  obind. replace (subtrees r1) with (subtrees r) in * by by rewrite Hcs. fold o in Hst |- *.
  assert (Hrefl : same_registry r r1) by by exists cs.
  destruct stop as [s|]; [|by exists r1]. destruct o as [p|] eqn:Ho; [|by exists r1].
  destruct (negb (lookup_cache_size r1 =? 0) && negb (lex_sign (oid_of name len) (start_of t) =? 0)); [|by exists r1].
  destruct (Hst s p eq_refl eq_refl) as (Hin & u & Hu & Hnu).
  destruct (replace_ok r1 i c k p u s ps) as (r' & -> & ? & ?); [done|done|by rewrite Hctx|done|by rewrite Hcs|done|done|].
  obind. exists r'. split_and!; [done|done|by etransitivity].
Qed.

(** The search from a subtree [s] of the chain looks at [s] and those behind it. *)
Lemma ordered_first S prev q ps : ordered S prev (q :: ps) -> ordered S None (q :: ps).
Proof. intros [(t & Ht & [Hok _] & He) Ho]. split; [|done]. exists t. by split_and!. Qed.

Lemma ordered_suffix S prev pre q suf : ordered S prev (pre ++ q :: suf) -> ordered S None (q :: suf).
Proof.
  revert prev. induction pre as [|x pre IH]; intros prev; [apply ordered_first|]. intros [_ Ho]. by eapply IH.
Qed.

Lemma chain_from_suffix S p pre q suf : chain_from S p (pre ++ q :: suf) -> chain_from S (Some q) (q :: suf).
Proof.
  intros Hc. destruct (chain_from_app _ _ _ _ _ Hc) as (t & Ht & Hs). apply chain_from_cons. split; [done|]. by exists t.
Qed.

Lemma netsnmp_subtree_find_prev_from r name len context pre s suf :
  registry_ok r -> context_chain r context (pre ++ s :: suf) -> oid_ok name len ->
  exists r', netsnmp_subtree_find_prev r name len (Some s) context = Some (r', last_not_after (subtrees r) (oid_of name len) None (s :: suf)) /\
    registry_ok r' /\ same_registry r r'.
Proof.
  intros Hr Hps Hn. unfold netsnmp_subtree_find_prev. obind. pose proof Hps as [Hc Ho].
  apply chain_from_suffix in Hc as Hc'. apply ordered_suffix in Ho as Ho'. apply chain_length in Hc as Hlen. rewrite length_app in Hlen.
  destruct (find_prev_loop_spec (subtrees r) r name len (s :: suf) eq_refl Hn (chain_fuel r) (Some s) None 0) as (stop & -> & Hs);
    [done|done|by left|unfold chain_fuel; lia|].
  obind. set (o := last_not_after _ _ _ _) in *. destruct stop as [x|]; [|by exists r]. destruct o as [q|] eqn:Hq; [|by exists r].
  destruct (Z.eqb_spec (lookup_cache_size r) 0) as [|Hz]; [by exists r|]. cbn [negb andb].
  destruct (Hs x eq_refl) as [_ H]. destruct (H q eq_refl) as [[? _]|(t & Ht & Hnx & Hin)]; [done|].
  pose proof (ro_size r Hr). destruct (add_ok r context q t x (pre ++ s :: suf)) as (r' & -> & ? & ?); try done; [lia|apply elem_of_app; by right|].
  obind. by exists r'.
Qed.

(** What the end of [netsnmp_subtree_find] makes of it. *)
Lemma find_in_range S name len p ps (last := last_not_after S (oid_of name len) None ps) :
  chain_from S p ps -> ordered S None ps -> oid_ok name len ->
  exists res, match last with
    | None => Some None
    | Some p =>
      t ← S !! p;
      match end_a t with
      | None => Some None
      | Some e => cmp ← snmp_oid_compare name len e (end_len t); Some (if cmp <? 0 then Some p else None)
      end
    end = Some res /\ forall q, res = Some q <-> q ∈ ps /\ holds_name S q (oid_of name len).
Proof.
  intros Hc Ho Hn. destruct last as [q0|] eqn:Hlast; subst last.
  - destruct (last_not_after_in _ _ _ _ _ Hlast) as [?|(Hin & t & Ht & Hge)]; [done|]. rewrite Ht. obind.
    destruct (chain_start _ _ _ _ Hc Ho Hin) as (_ & _ & t' & _ & Ht' & _ & He & _). rewrite Ht in Ht'. injection Ht' as <-.
    assert (Huniq : forall q, q ∈ ps -> holds_name S q (oid_of name len) -> q = q0).
    { intros q Hq Hh. pose proof (last_not_after_holds _ _ _ _ Ho Hq Hh). congruence. }
    destruct (end_a t) as [e|] eqn:Hend.
    + specialize (He e eq_refl). rewrite snmp_oid_compare_spec by done. obind. eexists. split; [done|].
      intros q. destruct (Z.ltb_spec (lex_sign (oid_of name len) (oid_of e (end_len t))) 0) as [Hlt|Hge'].
      * split; [intros [= <-]; split; [done|by exists t, e]|]. intros [Hq Hh]. f_equal. symmetry. by apply Huniq.
      * split; [done|]. intros [Hq Hh]. rewrite (Huniq q Hq Hh) in Hh. destruct Hh as (t' & e' & ? & ? & _ & ?). simplify_eq. lia.
    + eexists. split; [done|]. intros q. split; [done|]. intros [Hq Hh]. rewrite (Huniq q Hq Hh) in Hh.
      destruct Hh as (t' & e' & ? & ? & _). simplify_eq.
  - eexists. split; [done|]. intros q. split; [done|]. intros [Hq Hh].
    pose proof (last_not_after_holds _ _ _ _ Ho Hq Hh). congruence.
Qed.

(** The subtrees a search from [sub] looks at, of those of the context. *)
Definition searched (sub : option Z) (ps tail : list Z) : Prop :=
  match sub with None => tail = ps | Some s => exists pre suf, ps = pre ++ s :: suf /\ tail = s :: suf end.

Lemma subtree_find_spec r name len sub context ps tail :
  registry_ok r -> context_chain r context ps -> searched sub ps tail -> oid_ok name len ->
  exists r' res, netsnmp_subtree_find r name len sub context = Some (r', res) /\
    registry_ok r' /\ same_registry r r' /\
    forall q, res = Some q <-> q ∈ tail /\ holds_name (subtrees r) q (oid_of name len).
Proof.
  intros Hr Hps Hsub Hn. unfold netsnmp_subtree_find. pose proof Hps as [Hc Ho].
  assert (exists r' p, netsnmp_subtree_find_prev r name len sub context = Some (r', last_not_after (subtrees r) (oid_of name len) None tail) /\
    registry_ok r' /\ same_registry r r' /\ chain_from (subtrees r) p tail /\ ordered (subtrees r) None tail) as (r' & p & -> & Hr' & [cs ->] & Hct & Hot).
  { destruct sub as [s|]; cbn in Hsub.
    - destruct Hsub as (pre & suf & -> & ->). destruct (netsnmp_subtree_find_prev_from r name len context pre s suf) as (r' & ? & ? & ?); [done..|].
      exists r', (Some s). split_and!; [done..|by eapply chain_from_suffix|by eapply ordered_suffix].
    - subst tail. destruct (netsnmp_subtree_find_prev_spec r name len context ps) as (r' & ? & ? & ?); [done..|].
      by exists r', (netsnmp_subtree_find_first r context). }
  destruct (find_in_range (subtrees r) name len p tail) as (res & Hres & Hq); [done..|]. exists (set_caches cs r), res.
  split_and!; [|done|by exists cs|exact Hq]. obind. cbn [subtrees set_caches].
  destruct (last_not_after _ _ _ _) as [q0|]; [|by injection Hres as <-]. destruct (subtrees r !! q0) as [t|]; [|done]. cbn in Hres |- *.
  destruct (end_a t) as [e|]; [|by injection Hres as <-]. destruct (snmp_oid_compare _ _ _ _) as [cmp|]; [|done]. by injection Hres as <-.
Qed.

(** C37: the search finds the subtree whose range holds the name.  In a registry
    whose chains are in order, whose saved comparisons [oid_off] are right or
    unset and whose lookup caches hold neighbours of their contexts
    ([registry_ok]), [netsnmp_subtree_find] answers with the one subtree that holds
    the name, of those of the context, or of those from the given subtree on, and
    with NULL exactly when there is none; it leaves the subtrees alone and the
    caches fit for the next search.  The condition is needed: after
    [netsnmp_remove_subtree], which leaves an [oid_off] as it was, the search can
    be wrong ([remove_subtree_stale_offset]). *)
Theorem subtree_find_holds r name len sub context ps tail :
  registry_ok r -> context_chain r context ps -> searched sub ps tail -> oid_ok name len ->
  exists r' res, netsnmp_subtree_find r name len sub context = Some (r', res) /\
    registry_ok r' /\ same_registry r r' /\
    forall q, res = Some q <-> q ∈ tail /\ holds_name (subtrees r) q (oid_of name len).
Proof. apply subtree_find_spec. Qed.

(** ** Unlinking *)

(** Subtrees from 1.1 to 1.4, at 1.5.1 and at 1.5.2, as
    [netsnmp_subtree_change_next] links them. *)
Definition three : registry :=
  let tree start e next prev off :=
    mksubtree start (Z.of_nat (length start)) start (Z.of_nat (length start)) (Some e) (Z.of_nat (length e)) true 1 127 next prev None (Some 1) (-1) 0 off in
  mkregistry (<[10 := tree [1; 1] [1; 4] (Some 20) None 0]>
             (<[20 := tree [1; 5; 1] [1; 5; 2] (Some 30) (Some 10) 2]> {[ 30 := tree [1; 5; 2] [1; 5; 3] None (Some 20) 3 ]}))
    [([], Some 10)] [] 0.

(** [netsnmp_subtree_unload] of the one in the middle keeps the search right;
    [netsnmp_remove_subtree] leaves [oid_off] of the last one as it was, and the
    search for 1.3 then skips the comparison that should stop it: it finds the
    subtree at 1.5.2. *)
Lemma remove_subtree_stale_offset :
  (snd <$> netsnmp_subtree_find three [1; 3] 2 None []) = Some (Some 10) /\
  (r ← netsnmp_subtree_unload three (Some 20) None []; snd <$> netsnmp_subtree_find r [1; 3] 2 None []) = Some (Some 10) /\
  (r ← netsnmp_remove_subtree three 20; snd <$> netsnmp_subtree_find r [1; 3] 2 None []) = Some (Some 30).
Proof. by vm_compute. Qed.

Lemma three_ok : registry_ok three /\ context_chain three [] [10; 20; 30].
Proof.
  assert (Hc : context_chain three [] [10; 20; 30]).
  { assert (Hend : forall t e, end_a t = Some e -> oid_ok e (end_len t) -> forall e', end_a t = Some e' -> oid_ok e' (end_len t)) by congruence.
    split; cbn [chain_from ordered].
    - do 3 (split; [reflexivity|]; eexists; split; [reflexivity|]). reflexivity.
    - split_and!; [..|done]; (eexists; split; [reflexivity|]; split; [split; [by_decide|]|eapply Hend; [reflexivity|by_decide]]); [done|..];
      (eexists _, _; split; [reflexivity|]; split; [reflexivity|]; vm_compute; intuition congruence). }
  split; [|done]. constructor; [done| |constructor]. intros context. destruct (decide (context = [])) as [->|Hne]; [eauto|].
  exists []. split; [|done]. cbn. unfold netsnmp_subtree_find_first. cbn. by rewrite decide_False by done.
Qed.

Lemma subtree_find_holds_witness : exists r' res, netsnmp_subtree_find three [1; 5; 1; 7] 4 None [] = Some (r', res) /\ res = Some 20.
Proof.
  destruct three_ok as [Hr Hc]. destruct (subtree_find_holds three [1; 5; 1; 7] 4 None [] [10; 20; 30] [10; 20; 30]) as (r' & res & H & _ & _ & Hres).
  - exact Hr.
  - exact Hc.
  - reflexivity.
  - by_decide.
  - exists r', res. split; [exact H|]. apply Hres. split; [by_decide|]. eexists _, _. by vm_compute.
Defined.

(** ** What a request writes into the registry *)

(** Two registries that differ in the caches and in the places their subtrees have
    in the cache of a request. *)
Record same_trees (r r' : registry) : Prop := mksame {
  sa_contexts : context_subtrees r' = context_subtrees r;
  sa_size : lookup_cache_size r' = lookup_cache_size r;
  sa_trees : set_st_cacheid 0 <$> subtrees r' = set_st_cacheid 0 <$> subtrees r
}.

#[export] Instance same_trees_equivalence : Equivalence same_trees.
Proof.
  split; [done|intros x y [? ? ?]; by constructor|]. intros x y z [? ? ?] [? ? ?]. constructor; by etransitivity.
Qed.

Lemma same_registry_trees r r' : same_registry r r' -> same_trees r r'.
Proof. by intros [cs ->]. Qed.

Lemma same_subtree r r' q t : same_trees r r' -> subtrees r !! q = Some t ->
  exists t', subtrees r' !! q = Some t' /\ set_st_cacheid 0 t' = set_st_cacheid 0 t.
Proof.
  intros [_ _ Hs] Hq. assert (H : set_st_cacheid 0 <$> subtrees r' !! q = Some (set_st_cacheid 0 t)) by by rewrite <- lookup_fmap, Hs, lookup_fmap, Hq.
  destruct (subtrees r' !! q) as [t'|]; [|done]. apply (inj Some) in H. eauto.
Qed.

Lemma same_chain r r' p ps : same_trees r r' -> chain_from (subtrees r) p ps -> chain_from (subtrees r') p ps.
Proof.
  intros Hs. revert p. induction ps as [|q ps IH]; intros p Hc; [done|]. apply chain_from_cons in Hc as [-> (t & Ht & Hc)].
  apply chain_from_cons. split; [done|]. destruct (same_subtree _ _ _ _ Hs Ht) as (t' & Ht' & He). exists t'. split; [done|].
  apply (f_equal st_next) in He. cbn in He. rewrite He. by apply IH.
Qed.

Lemma same_holds r r' q name : same_trees r r' -> holds_name (subtrees r) q name -> holds_name (subtrees r') q name.
Proof.
  intros Hs (t & e & Ht & He & H1 & H2). destruct (same_subtree _ _ _ _ Hs Ht) as (t' & Ht' & Heq). exists t', e.
  split; [done|]. destruct t, t'. cbn in *. simplify_eq. done.
Qed.

Lemma same_ordered r r' ps : same_trees r r' -> forall prev, ordered (subtrees r) prev ps -> ordered (subtrees r') prev ps.
Proof.
  intros Hs. induction ps as [|q ps IH]; intros prev; cbn; [done|]. intros [(t & Ht & [Hok Hf] & He) Ho]. split; [|by apply IH].
  destruct (same_subtree _ _ _ _ Hs Ht) as (t' & Ht' & Heq). exists t'. split; [done|]. destruct t, t'. cbn in *. simplify_eq.
  split; [|done]. split; [done|]. destruct prev as [x|]; [|done]. destruct Hf as (u & e & Hu & Hend & H1 & H2 & H3).
  destruct (same_subtree _ _ _ _ Hs Hu) as (u' & Hu' & Heu). exists u', e. split; [done|]. destruct u, u'. cbn in *. by simplify_eq.
Qed.

Lemma same_find_first r r' context : same_trees r r' -> netsnmp_subtree_find_first r' context = netsnmp_subtree_find_first r context.
Proof. intros [H _ _]. unfold netsnmp_subtree_find_first. by rewrite H. Qed.

Lemma same_context_chain r r' context ps : same_trees r r' -> context_chain r context ps -> context_chain r' context ps.
Proof. intros Hs [Hc Ho]. split; [rewrite (same_find_first r r') by done; by eapply same_chain|by eapply same_ordered]. Qed.

Lemma registry_ok_same r r' : same_trees r r' -> thecontextcache r' = thecontextcache r -> registry_ok r -> registry_ok r'.
Proof.
  intros Hs Hcc [H1 H2 H3]. constructor.
  - by rewrite (sa_size _ _ Hs).
  - intros context. destruct (H2 context) as [ps Hps]. exists ps. by eapply same_context_chain.
  - rewrite Hcc. eapply list.Forall_impl; [exact H3|]. intros c [C1 C2 C3 C4 (ps & Hps & He)]. constructor; try done.
    + by rewrite (sa_size _ _ Hs).
    + exists ps. split; [by eapply same_context_chain|]. intros k e Hk Hke. destruct (He k e Hk Hke) as (q & n & t & -> & Hq & Ht & Hn).
      destruct (same_subtree _ _ _ _ Hs Ht) as (t' & Ht' & Heq). exists q, n, t'. split_and!; try done.
      apply (f_equal st_next) in Heq. cbn in Heq. by rewrite Heq.
Qed.

(** Writing [cacheid]. *)
Lemma same_set_cacheid r q t c : subtrees r !! q = Some t -> same_trees r (set_subtrees (<[q := set_st_cacheid c t]> (subtrees r)) r).
Proof.
  intros Ht. constructor; try done. cbn. rewrite fmap_insert. apply insert_id. by rewrite lookup_fmap, Ht.
Qed.
