(* ===== verification/LList.v ===== *)
(** Singly linked lists of heap objects, as [snmplib/vacm.c] keeps them: a global
    head pointer, entries chained by their [next] member, insertion before the
    first entry that stops the search, unlinking of the first match, and a scan
    pointer that walks the chain.

    A list is the sequence of its entries, each with its address.  A pointer to
    an entry is the address; following a pointer to an entry that is no longer
    in the chain is undefined behaviour ([None]). *)
From Stdlib Require Import ZArith Lia.
From stdpp Require Import sets.
From S2P Require Import Prelude.

Abbreviation chain E := (list (Z * E)).

Section operations.
Context {E : Type}.

(** [while (lp) { if (stop) break; op = lp; lp = lp->next; }
    vp->next = lp; if (op) op->next = vp; else *head = vp;] *)
Fixpoint insert_before (stop : E -> option bool) (vp : Z * E) (head : chain E) : option (chain E) :=
  match head with
  | [] => Some [vp]
  | lp :: next =>
    b ← stop lp.2;
    if (b : bool) then Some (vp :: head)
    else next' ← insert_before stop vp next; Some (lp :: next')
  end.

(** [for (vp = head; vp; vp = vp->next) { if (match) break; lastvp = vp; }
    if (!vp || !lastvp) return; lastvp->next = vp->next;]
    [lastvp] tells whether there is a previous entry. *)
Fixpoint unlink_loop (matches : E -> option bool) (lastvp : bool) (head : chain E) : option (chain E) :=
  match head with
  | [] => Some []
  | vp :: next =>
    b ← matches vp.2;
    if (b : bool) then if lastvp then Some next else Some head
    else next' ← unlink_loop matches true next; Some (vp :: next')
  end.

(** [if (head && match) { vp = head; head = head->next; } else { loop }] *)
Definition unlink (matches : E -> option bool) (head : chain E) : option (chain E) :=
  match head with
  | [] => unlink_loop matches false head
  | vp :: next =>
    b ← matches vp.2;
    if (b : bool) then Some next else unlink_loop matches false head
  end.

(** [while ((vp = head)) { head = vp->next; free(vp); }] *)
Fixpoint clear (head : chain E) : chain E :=
  match head with
  | [] => []
  | _ :: next => clear next
  end.

(** [for (vp = head; vp; vp = vp->next) if (match) return vp; return NULL;] *)
Fixpoint find_first (matches : E -> option bool) (head : chain E) : option (option (Z * E)) :=
  match head with
  | [] => Some None
  | vp :: next =>
    b ← matches vp.2; if (b : bool) then Some (Some vp) else find_first matches next
  end.

(** The address of the first entry. *)
Definition front (head : chain E) : option Z := fst <$> head !! 0%nat.

(** [p->next], for a pointer [p] into the chain. *)
Fixpoint follow (p : Z) (head : chain E) : option (option Z) :=
  match head with
  | [] => None
  | vp :: next => if vp.1 =? p then Some (front next) else follow p next
  end.

(** [returnval = scanPtr; if (scanPtr) scanPtr = scanPtr->next; return returnval;]
    gives the new scan pointer and the result. *)
Definition scan_next (scanPtr : option Z) (head : chain E) : option (option Z * option Z) :=
  match scanPtr with
  | None => Some (None, None)
  | Some p => next ← follow p head; Some (next, Some p)
  end.

(** [n] calls in a row: the pointers returned, and the scan pointer at the end. *)
Fixpoint scan_n (n : nat) (scanPtr : option Z) (head : chain E) : option (list (option Z) * option Z) :=
  match n with
  | O => Some ([], scanPtr)
  | S k =>
    '(scanPtr, r) ← scan_next scanPtr head;
    '(rs, scanPtr) ← scan_n k scanPtr head;
    Some (r :: rs, scanPtr)
  end.
End operations.

(** * Ordered insertion

    [KeyOrder key cmp]: [cmp] compares the keys of entries as a total preorder
    would; [stop] is the test "the entry comes after the new one". *)
Class KeyOrder {K : Type} (cmp : K -> K -> Z) : Prop := {
  ko_refl a : cmp a a = 0;
  ko_opp a b : cmp b a = - cmp a b;
  ko_trans a b c : cmp a b <= 0 -> cmp b c <= 0 -> cmp a c <= 0
}.

Section ordered.
Context {E K : Type} (key : E -> K) (cmp : K -> K -> Z).

(** Ascending, equal keys in the order of their insertion. *)
Definition ordered (l : chain E) : Prop :=
  forall i j x y, (i < j)%nat -> l !! i = Some x -> l !! j = Some y -> cmp (key x.2) (key y.2) <= 0.

Definition after (vp : Z * E) (x : E) : bool := 0 <? cmp (key x) (key vp.2).

(** Where the search of [insert_before] ends. *)
Lemma insert_before_spec stop vp l :
  (forall x, x ∈ l -> stop x.2 = Some (after vp x.2)) ->
  exists l1 l2, l = l1 ++ l2 /\ insert_before stop vp l = Some (l1 ++ vp :: l2) /\
    (forall x, x ∈ l1 -> cmp (key x.2) (key vp.2) <= 0) /\
    (forall x, l2 !! 0%nat = Some x -> 0 < cmp (key x.2) (key vp.2)).
Proof.
  intros Hs. induction l as [|lp l IH]; [exists [], []; split_and!; try done; set_solver|].
  simpl. rewrite Hs by set_solver. simpl. unfold after at 1.
  destruct (Z.ltb_spec 0 (cmp (key lp.2) (key vp.2))).
  - exists [], (lp :: l). split_and!; [done|done|set_solver|]. intros x [= <-]. done.
  - destruct IH as (l1 & l2 & -> & -> & H1 & H2); [set_solver|].
    exists (lp :: l1), l2. split_and!; [done|done| |done].
    intros x [->|Hx]%elem_of_cons; auto.
Qed.

Lemma ordered_app l1 l2 :
  ordered (l1 ++ l2) <->
  ordered l1 /\ ordered l2 /\ (forall x y, x ∈ l1 -> y ∈ l2 -> cmp (key x.2) (key y.2) <= 0).
Proof.
  split.
  - intros H. split_and!.
    + intros i j x y Hij Hi Hj. eapply H; eauto using lookup_app_l_Some.
    + intros i j x y Hij Hi Hj. apply (H (length l1 + i)%nat (length l1 + j)%nat); [lia| |];
        rewrite lookup_app_r by lia; by rewrite Nat.add_comm, Nat.add_sub.
    + intros x y [i Hi]%list_elem_of_lookup [j Hj]%list_elem_of_lookup.
      apply (H i (length l1 + j)%nat); [apply lookup_lt_Some in Hi; lia|by apply lookup_app_l_Some|].
      rewrite lookup_app_r by lia. by rewrite Nat.add_comm, Nat.add_sub.
  - intros (H1 & H2 & H12) i j x y Hij Hi Hj.
    apply lookup_app_Some in Hi as [Hi|[? Hi]], Hj as [Hj|[? Hj]]; eauto.
    + apply H12; by eapply list_elem_of_lookup_2.
    + apply lookup_lt_Some in Hj. lia.
    + eapply (H2 (i - length l1)%nat (j - length l1)%nat); eauto. lia.
Qed.

Lemma ordered_cons x l : ordered (x :: l) <-> (forall y, y ∈ l -> cmp (key x.2) (key y.2) <= 0) /\ ordered l.
Proof.
  change (x :: l) with ([x] ++ l). rewrite ordered_app. split.
  - intros (_ & H & H1). split; [|done]. intros. apply H1; set_solver.
  - intros (H & H1). split_and!; [|done|].
    + intros i j y z Hij Hi Hj. apply lookup_lt_Some in Hi, Hj. simpl in *. lia.
    + intros y z ->%list_elem_of_singleton. auto.
Qed.

#[export] Instance ordered_dec l : Decision (ordered l).
Proof.
  induction l as [|x l IH]; [left; intros i j y z _ Hi; done|].
  destruct (decide (Forall (fun y => cmp (key x.2) (key y.2) <= 0) l)) as [H|H].
  - destruct IH as [IH|IH]; [left|right]; rewrite ordered_cons; [split; [|done]|tauto].
    intros y Hy. eapply Forall_forall in H; [exact H|by apply list_elem_of_In].
  - right. rewrite ordered_cons. intros [C _]. apply H, Forall_forall. intros y Hy. apply C. by apply list_elem_of_In.
Defined.

Context {O : KeyOrder cmp}.

(** Insertion keeps the order and adds exactly the new entry. *)
Lemma insert_before_ordered stop vp l :
  (forall x, x ∈ l -> stop x.2 = Some (after vp x.2)) -> ordered l ->
  exists l1 l2, l = l1 ++ l2 /\ insert_before stop vp l = Some (l1 ++ vp :: l2) /\ ordered (l1 ++ vp :: l2).
Proof.
  intros Hs Ho. destruct (insert_before_spec stop vp l Hs) as (l1 & l2 & -> & -> & H1 & H2).
  exists l1, l2. split_and!; [done|done|].
  apply ordered_app in Ho as (O1 & O2 & O12). apply ordered_app. split_and!; [done| |].
  - apply ordered_cons. split; [|done]. intros y Hy. destruct l2 as [|z l2]; [set_solver|].
    specialize (H2 z eq_refl). pose proof (ko_opp (key z.2) (key vp.2)).
    apply elem_of_cons in Hy as [->|Hy]; [lia|].
    eapply ko_trans; [|eapply (proj1 (proj1 (ordered_cons z l2) O2)); done]. lia.
  - intros x y Hx [->|Hy]%elem_of_cons; auto.
Qed.
End ordered.

(** * Unlinking *)

Section unlinking.
Context {E : Type} (matches : E -> option bool).

Lemma unlink_loop_none last l :
  (forall x, x ∈ l -> matches x.2 = Some false) -> unlink_loop matches last l = Some l.
Proof.
  revert last. induction l as [|x l IH]; intros last H; [done|]. simpl. rewrite H by set_solver. simpl.
  rewrite IH by set_solver. done.
Qed.

(** [unlink] removes the first match and leaves the rest alone. *)
Lemma unlink_first l1 vp l2 :
  (forall x, x ∈ l1 -> matches x.2 = Some false) -> matches vp.2 = Some true ->
  unlink matches (l1 ++ vp :: l2) = Some (l1 ++ l2).
Proof.
  intros H1 Hv. destruct l1 as [|x l1]; simpl; [by rewrite Hv|].
  rewrite H1 by set_solver. simpl.
  assert (L : unlink_loop matches true (l1 ++ vp :: l2) = Some (l1 ++ l2)).
  { assert (H : forall x, x ∈ l1 -> matches x.2 = Some false) by set_solver. clear H1 x.
    induction l1 as [|x l1 IH]; simpl; [by rewrite Hv|].
    rewrite H by set_solver. simpl. rewrite IH by set_solver. done. }
  by rewrite L.
Qed.

Lemma unlink_absent l :
  (forall x, x ∈ l -> matches x.2 = Some false) -> unlink matches l = Some l.
Proof.
  intros H. destruct l as [|x l]; [done|]. unfold unlink. rewrite H by set_solver.
  by apply unlink_loop_none.
Qed.

Lemma find_first_spec l r :
  find_first matches l = Some r ->
  match r with
  | Some vp => exists l1 l2, l = l1 ++ vp :: l2 /\ matches vp.2 = Some true /\
                 forall x, x ∈ l1 -> matches x.2 = Some false
  | None => forall x, x ∈ l -> matches x.2 = Some false
  end.
Proof.
  induction l as [|x l IH]; simpl; [intros [= <-]; set_solver|].
  destruct (matches x.2) as [[|]|] eqn:M; simpl; [intros [= <-]| |done].
  - exists [], l. split_and!; [done|done|set_solver].
  - intros H. specialize (IH H). destruct r as [vp|].
    + destruct IH as (l1 & l2 & -> & Hv & H1). exists (x :: l1), l2. split_and!; [done|done|].
      intros y [->|Hy]%elem_of_cons; auto.
    + intros y [->|Hy]%elem_of_cons; auto.
Qed.

Lemma find_first_total l :
  (forall x, x ∈ l -> is_Some (matches x.2)) -> is_Some (find_first matches l).
Proof.
  induction l as [|x l IH]; intros H; [by eexists|]. simpl.
  destruct (H x) as [b ->]; [set_solver|]. simpl. destruct b; [by eexists|]. apply IH. set_solver.
Qed.
End unlinking.

Lemma clear_nil {E} (l : chain E) : clear l = [].
Proof. by induction l. Qed.

(** * Scanning *)

Section scanning.
Context {E : Type}.

Lemma follow_app (l1 l2 : chain E) p e :
  p ∉ l1.*1 -> follow p (l1 ++ (p, e) :: l2) = Some (front l2).
Proof.
  induction l1 as [|x l1 IH]; simpl; intros Hp; [by rewrite Z.eqb_refl|].
  apply not_elem_of_cons in Hp as [Hx Hp]. rewrite (proj2 (Z.eqb_neq _ _)) by done. auto.
Qed.

Lemma follow_dangling (l : chain E) p : p ∉ l.*1 -> follow p l = None.
Proof.
  induction l as [|x l IH]; simpl; intros Hp; [done|].
  apply not_elem_of_cons in Hp as [Hx Hp]. rewrite (proj2 (Z.eqb_neq _ _)) by done. auto.
Qed.

Lemma scan_n_end n (l : chain E) : scan_n n None l = Some (replicate n None, None).
Proof. induction n as [|n IH]; [done|]. simpl. by rewrite IH. Qed.

Lemma scan_n_app (l1 l2 : chain E) k :
  NoDup (l1 ++ l2).*1 ->
  scan_n (length l2 + k) (front l2) (l1 ++ l2) = Some ((Some <$> l2.*1) ++ replicate k None, None).
Proof.
  revert l1. induction l2 as [|[p e] l2 IH]; intros l1 Hn; [apply scan_n_end|].
  simpl. rewrite follow_app.
  - cbn [mbind option_bind]. specialize (IH (l1 ++ [(p, e)])). rewrite <- app_assoc in IH. simpl in IH.
    rewrite IH by done. done.
  - rewrite fmap_app in Hn. simpl in Hn. apply list.NoDup_app in Hn as (_ & Hd & _).
    intros Hp. apply (Hd _ Hp). set_solver.
Qed.

(** A scan returns every entry once, in the order of the chain, and then [NULL]. *)
Lemma scan_all (l : chain E) k :
  NoDup l.*1 -> scan_n (length l + k) (front l) l = Some ((Some <$> l.*1) ++ replicate k None, None).
Proof. apply (scan_n_app []). Qed.
End scanning.
