(* ===== verification/Vacm.v ===== *)
(** The tables of the View-based Access Control Model, [snmplib/vacm.c]: views
    ([netsnmp_view_*], [vacm_*View*]), groups ([vacm_*Group*]) and access rights
    ([vacm_*Access*]).

    A [const char *] argument is the list of its characters (none of them zero);
    an array member of a structure is the list of its cells.  The results of the
    two [calloc] calls of a [create] function, the new entry and its [reserved]
    copy (used by the MIB module and not modelled further), are arguments: an
    address or [None] for [NULL].  [None] as a result is an access outside an
    object or through a dangling pointer.  Debugging output is left out. *)
From Stdlib Require Import ZArith Lia.
From S2P Require Import Prelude Asn1Defs Oid LList.

Definition VACM_SUCCESS : Z := 0.
Definition VACM_NOSECNAME : Z := 1.
Definition VACM_NOGROUP : Z := 2.
Definition VACM_NOACCESS : Z := 3.
Definition VACM_NOVIEW : Z := 4.
Definition VACM_NOTINVIEW : Z := 5.
Definition VACM_NOSUCHCONTEXT : Z := 6.
Definition VACM_SUBTREE_UNKNOWN : Z := 7.

Definition VACM_MAX_STRING : Z := 32.
Definition VACMSTRINGLEN : Z := 34.
Definition VACM_MAX_VIEWS : Z := 8.
Definition CONTEXT_MATCH_EXACT : Z := 1.
Definition CONTEXT_MATCH_PREFIX : Z := 2.
Definition VACM_MODE_FIND : Z := 0.
Definition VACM_MODE_IGNORE_MASK : Z := 1.
Definition VACM_MODE_CHECK_SUBTREE : Z := 2.
Definition SNMP_SEC_MODEL_ANY : Z := 0.
Definition SNMP_VIEW_INCLUDED : Z := 1.
Definition SNMP_VIEW_EXCLUDED : Z := 2.

(** * Data *)

Record vacm_groupEntry : Type := mkgroup {
  g_securityModel : Z;
  g_securityName : list Z;
  g_groupName : list Z;
  g_storageType : Z;
  g_status : Z;
  g_bitMask : Z
}.

Record vacm_accessEntry : Type := mkaccess {
  a_groupName : list Z;
  a_contextPrefix : list Z;
  a_securityModel : Z;
  a_securityLevel : Z;
  a_contextMatch : Z;
  a_views : list (list Z);
  a_storageType : Z;
  a_status : Z;
  a_bitMask : Z
}.

Record vacm_viewEntry : Type := mkview {
  viewName : list Z;
  viewSubtree : list Z;
  viewSubtreeLen : Z;
  viewMask : list Z;
  viewMaskLen : Z;
  viewType : Z;
  viewStorageType : Z;
  viewStatus : Z;
  view_bitMask : Z
}.

(** The static variables of [vacm.c]. *)
Record vacm : Type := mkvacm {
  viewList : chain vacm_viewEntry; viewScanPtr : option Z;
  accessList : chain vacm_accessEntry; accessScanPtr : option Z;
  groupList : chain vacm_groupEntry; groupScanPtr : option Z
}.

(** A zeroed array of [n] cells. *)
Definition zeros (n : Z) : list Z := replicate (Z.to_nat n) 0.

(** * Strings *)

Definition strlen (s : list Z) : Z := Z.of_nat (length s).

(** [glen = (int) strlen(s); if (glen < 0 || glen > VACM_MAX_STRING)] *)
Definition bad_name (s : list Z) : bool :=
  let glen := s32 (strlen s) in (glen <? 0) || (VACM_MAX_STRING <? glen).

(** [buf[0] = glen; strcpy(buf + 1, s);] into an array of [VACMSTRINGLEN]
    characters. *)
Definition prefixed (s : list Z) : option (list Z) :=
  buf ← poke (zeros VACMSTRINGLEN) 0 (strlen s); poke_n buf 1 (s ++ [0]).

(** [strcmp] of an array from cell [p] on with a string, up to the sign. *)
Fixpoint strcmp_loop (a b : list Z) : option Z :=
  match a, b with
  | x :: a, y :: b =>
    if x =? y then if x =? 0 then Some 0 else strcmp_loop a b
    else if x <? y then Some (-1) else Some 1
  | _, _ => None
  end.

Definition strcmp (a : list Z) (p : Z) (s : list Z) : option Z :=
  strcmp_loop (drop (Z.to_nat p) a) (s ++ [0]).

(** A plain [char] is signed. *)
Definition char_at (a : list Z) (p : Z) : option Z := c ← peek a p; Some (swrap 8 c).

(** [c && t], the second operand evaluated only when the first holds. *)
Definition and_then (c : bool) (t : option bool) : option bool := if c then t else Some false.

(** * Views *)

Definition VIEW_MASK (viewPtr : vacm_viewEntry) (idx mask : Z) : option Z :=
  if viewMaskLen viewPtr <=? idx then Some mask
  else b ← peek (viewMask viewPtr) idx; Some (Z.land b mask).

(** The loop over the components of a view subtree, [n] turns of which are left;
    [ignore] is [mode == VACM_MODE_IGNORE_MASK].  The result is [found]. *)
Fixpoint mask_loop (n : nat) (ignore : bool) (vp : vacm_viewEntry) (o : list Z) (oidpos mask maskpos : Z)
  : option bool :=
  match n with
  | O => Some true
  | S k =>
    care ← (if ignore then Some true else v ← VIEW_MASK vp maskpos mask; Some (negb (v =? 0)));
    found ← (if (care : bool) then
               x ← peek o oidpos; y ← peek (viewSubtree vp) (oidpos + 1); Some (x =? y)
             else Some true);
    if (found : bool) then
      if mask =? 1 then mask_loop k ignore vp o (oidpos + 1) 0x80 (maskpos + 1)
      else mask_loop k ignore vp o (oidpos + 1) (Z.shiftr mask 1) maskpos
    else Some false
  end.

(** "longer than the previous or equal and lexicographically greater" *)
Definition better_view (vp : vacm_viewEntry) (best : option (Z * vacm_viewEntry)) : option bool :=
  match best with
  | None => Some true
  | Some (_, b) =>
    if viewSubtreeLen b <? viewSubtreeLen vp then Some true
    else if viewSubtreeLen vp =? viewSubtreeLen b then
      c ← snmp_oid_compare (drop 1 (viewSubtree vp)) (u64 (viewSubtreeLen vp - 1))
                           (drop 1 (viewSubtree b)) (u64 (viewSubtreeLen b - 1));
      Some (0 <? c)
    else Some false
  end.

(** [!memcmp(view, vp->viewName, glen + 1)] *)
Definition same_name (view : list Z) (glen : Z) (vp : vacm_viewEntry) : option bool :=
  c ← memcmp view (viewName vp) (glen + 1); Some (c =? 0).

Fixpoint view_get_loop (view : list Z) (glen : Z) (o : list Z) (olen mode : Z)
    (vpret : option (Z * vacm_viewEntry)) (count : Z) (l : chain vacm_viewEntry)
  : option (option (Z * vacm_viewEntry) * Z) :=
  match l with
  | [] => Some (vpret, count)
  | vp :: next =>
    same ← same_name view glen vp.2;
    found ← and_then (same && (u64 (viewSubtreeLen vp.2 - 1) <=? olen))
              (mask_loop (Z.to_nat (u64 (viewSubtreeLen vp.2 - 1))) (mode =? VACM_MODE_IGNORE_MASK)
                         vp.2 o 0 0x80 0);
    if (found : bool) then
      take ← (if mode =? VACM_MODE_CHECK_SUBTREE then Some true else better_view vp.2 vpret);
      view_get_loop view glen o olen mode (if (take : bool) then Some vp else vpret) (count + 1) next
    else view_get_loop view glen o olen mode vpret count next
  end.

Definition netsnmp_view_get (head : chain vacm_viewEntry) (name o : list Z) (olen mode : Z)
  : option (option (Z * vacm_viewEntry)) :=
  if bad_name name then Some None
  else
    view ← prefixed name;
    '(vpret, count) ← view_get_loop view (strlen name) o olen mode None 0 head;
    if (mode =? VACM_MODE_CHECK_SUBTREE) && (1 <? count) then Some None else Some vpret.

(** The loop of [netsnmp_view_subtree_check]; [Return] leaves the function. *)
Fixpoint subtree_check_loop (view : list Z) (glen : Z) (o : list Z) (olen : Z)
    (vpShorter vpLonger : option (Z * vacm_viewEntry)) (l : chain vacm_viewEntry)
  : option (flow Z (option (Z * vacm_viewEntry) * option (Z * vacm_viewEntry))) :=
  match l with
  | [] => Some (Next (vpShorter, vpLonger))
  | vp :: next =>
    same ← same_name view glen vp.2;
    if (same : bool) then
      if u64 (viewSubtreeLen vp.2 - 1) <=? olen then
        found ← mask_loop (Z.to_nat (u64 (viewSubtreeLen vp.2 - 1))) false vp.2 o 0 0x80 0;
        if (found : bool) then
          take ← better_view vp.2 vpShorter;
          subtree_check_loop view glen o olen (if (take : bool) then Some vp else vpShorter) vpLonger next
        else subtree_check_loop view glen o olen vpShorter vpLonger next
      else
        found ← mask_loop (Z.to_nat olen) false vp.2 o 0 0x80 0;
        if (found : bool) then
          match vpLonger with
          | Some (_, v) =>
            if negb (viewType v =? viewType vp.2) then Some (Return VACM_SUBTREE_UNKNOWN)
            else subtree_check_loop view glen o olen vpShorter vpLonger next
          | None => subtree_check_loop view glen o olen vpShorter (Some vp) next
          end
        else subtree_check_loop view glen o olen vpShorter vpLonger next
    else subtree_check_loop view glen o olen vpShorter vpLonger next
  end.

(** What is decided after the loop. *)
Definition subtree_verdict (vpShorter vpLonger : option (Z * vacm_viewEntry)) : Z :=
  let inconsistent :=
    match vpLonger, vpShorter with
    | Some (_, l), None => negb (viewType l =? SNMP_VIEW_EXCLUDED)
    | Some (_, l), Some (_, s) => negb (viewType l =? viewType s)
    | None, _ => false
    end in
  if inconsistent then VACM_SUBTREE_UNKNOWN
  else match vpShorter with
       | Some (_, s) => if negb (viewType s =? SNMP_VIEW_EXCLUDED) then VACM_SUCCESS else VACM_NOTINVIEW
       | None => VACM_NOTINVIEW
       end.

Definition netsnmp_view_subtree_check (head : chain vacm_viewEntry) (name o : list Z) (olen : Z)
  : option Z :=
  if bad_name name then Some VACM_NOTINVIEW
  else
    view ← prefixed name;
    f ← subtree_check_loop view (strlen name) o olen None None head;
    match f with
    | Return r => Some r
    | Next (vpShorter, vpLonger) => Some (subtree_verdict vpShorter vpLonger)
    end.

(** The entry [netsnmp_view_create] fills in; the other members are zero. *)
Definition new_view (name o : list Z) (olen : Z) : option vacm_viewEntry :=
  vn ← prefixed name;
  sub ← poke (zeros MAX_OID_LEN) 0 olen;
  src ← peek_n o 0 olen;
  sub ← poke_n sub 1 src;
  Some (mkview vn sub (u64 (olen + 1)) (zeros VACMSTRINGLEN) 0 0 0 0 0).

(** The condition under which its search stops at [lp]. *)
Definition view_stop (glen : Z) (vp lp : vacm_viewEntry) : option bool :=
  cmp ← memcmp (viewName lp) (viewName vp) (glen + 1);
  cmp2 ← snmp_oid_compare (viewSubtree lp) (viewSubtreeLen lp) (viewSubtree vp) (viewSubtreeLen vp);
  Some (((cmp =? 0) && (0 <? cmp2)) || (0 <? cmp)).

Definition netsnmp_view_create (c1 c2 : option Z) (head : chain vacm_viewEntry) (name o : list Z) (olen : Z)
  : option (chain vacm_viewEntry * option Z) :=
  if bad_name name then Some (head, None)
  else match c1, c2 with
       | Some a, Some _ =>
         vp ← new_view name o olen;
         head ← insert_before (view_stop (strlen name) vp) (a, vp) head;
         Some (head, Some a)
       | _, _ => Some (head, None)
       end.

(** The test of [netsnmp_view_destroy]. *)
Definition view_is (name o : list Z) (olen : Z) (vp : vacm_viewEntry) : option bool :=
  c ← strcmp (viewName vp) 1 name;
  if c =? 0 then
    if viewSubtreeLen vp =? olen then
      c ← memcmp (oid_image (viewSubtree vp)) (oid_image o) (u64 (olen * sizeof_oid)); Some (c =? 0)
    else Some false
  else Some false.

Definition netsnmp_view_destroy (head : chain vacm_viewEntry) (name o : list Z) (olen : Z)
  : option (chain vacm_viewEntry) :=
  unlink (view_is name o olen) head.

Definition netsnmp_view_clear (head : chain vacm_viewEntry) : chain vacm_viewEntry := clear head.

(** * Groups *)

(** The test of [vacm_getGroupEntry]. *)
Definition group_matches (model : Z) (secname : list Z) (glen : Z) (vp : vacm_groupEntry) : option bool :=
  if (model =? g_securityModel vp) || (g_securityModel vp =? SNMP_SEC_MODEL_ANY) then
    c ← memcmp (g_securityName vp) secname (glen + 1); Some (c =? 0)
  else Some false.

Definition vacm_getGroupEntry (st : vacm) (securityModel : Z) (securityName : list Z)
  : option (option (Z * vacm_groupEntry)) :=
  if bad_name securityName then Some None
  else
    secname ← prefixed securityName;
    find_first (group_matches securityModel secname (strlen securityName)) (groupList st).

Definition group_stop (glen model : Z) (gp lg : vacm_groupEntry) : option bool :=
  if model <? g_securityModel lg then Some true
  else if g_securityModel lg =? model then
    c ← memcmp (g_securityName lg) (g_securityName gp) (glen + 1); Some (0 <? c)
  else Some false.

Definition vacm_createGroupEntry (c1 c2 : option Z) (st : vacm) (securityModel : Z) (securityName : list Z)
  : option (vacm * option Z) :=
  if bad_name securityName then Some (st, None)
  else match c1, c2 with
       | Some a, Some _ =>
         sn ← prefixed securityName;
         let gp := mkgroup securityModel sn (zeros VACMSTRINGLEN) 0 0 0 in
         l ← insert_before (group_stop (strlen securityName) securityModel gp) (a, gp) (groupList st);
         Some (mkvacm (viewList st) (viewScanPtr st) (accessList st) (accessScanPtr st) l (groupScanPtr st), Some a)
       | _, _ => Some (st, None)
       end.

Definition group_is (model : Z) (name : list Z) (vp : vacm_groupEntry) : option bool :=
  if g_securityModel vp =? model then c ← strcmp (g_securityName vp) 1 name; Some (c =? 0)
  else Some false.

Definition vacm_destroyGroupEntry (st : vacm) (securityModel : Z) (securityName : list Z) : option vacm :=
  l ← unlink (group_is securityModel securityName) (groupList st);
  Some (mkvacm (viewList st) (viewScanPtr st) (accessList st) (accessScanPtr st) l (groupScanPtr st)).

Definition vacm_destroyAllGroupEntries (st : vacm) : vacm :=
  mkvacm (viewList st) (viewScanPtr st) (accessList st) (accessScanPtr st) (clear (groupList st)) (groupScanPtr st).

Definition vacm_scanGroupInit (st : vacm) : vacm :=
  mkvacm (viewList st) (viewScanPtr st) (accessList st) (accessScanPtr st) (groupList st) (front (groupList st)).

Definition vacm_scanGroupNext (st : vacm) : option (vacm * option Z) :=
  '(p, r) ← scan_next (groupScanPtr st) (groupList st);
  Some (mkvacm (viewList st) (viewScanPtr st) (accessList st) (accessScanPtr st) (groupList st) p, r).

(** * Access rights *)

Definition _vacm_choose_best (current : option (Z * vacm_accessEntry)) (candidate : Z * vacm_accessEntry)
  : option (option (Z * vacm_accessEntry)) :=
  match current with
  | None => Some (Some candidate)
  | Some cur =>
    let c := cur.2 in let d := candidate.2 in
    cc ← char_at (a_contextPrefix c) 0;
    dc ← char_at (a_contextPrefix d) 0;
    if (a_securityModel c =? SNMP_SEC_MODEL_ANY) && negb (a_securityModel d =? SNMP_SEC_MODEL_ANY)
       || (a_contextMatch c =? CONTEXT_MATCH_PREFIX) && (a_contextMatch d =? CONTEXT_MATCH_EXACT)
       || (a_contextMatch c =? CONTEXT_MATCH_PREFIX) && (cc <? dc)
       || (a_securityLevel c <? a_securityLevel d)
    then Some (Some candidate) else Some (Some cur)
  end.

(** The test of [vacm_getAccessEntry]. *)
Definition access_matches (group context : list Z) (glen clen securityModel securityLevel : Z)
    (vp : vacm_accessEntry) : option bool :=
  if ((securityModel =? a_securityModel vp) || (a_securityModel vp =? SNMP_SEC_MODEL_ANY))
     && (a_securityLevel vp <=? securityLevel) then
    c ← memcmp (a_groupName vp) group (glen + 1);
    if c =? 0 then
      n ← char_at (a_contextPrefix vp) 0;
      exact ← and_then ((a_contextMatch vp =? CONTEXT_MATCH_EXACT) && (clen =? n))
                (c ← memcmp (a_contextPrefix vp) context (clen + 1); Some (c =? 0));
      if (exact : bool) then Some true
      else and_then ((a_contextMatch vp =? CONTEXT_MATCH_PREFIX) && (n <=? clen))
             (c ← memcmp (drop 1 (a_contextPrefix vp)) (drop 1 context) (u64 n); Some (c =? 0))
    else Some false
  else Some false.

Fixpoint access_loop (matches : vacm_accessEntry -> option bool) (best : option (Z * vacm_accessEntry))
    (l : chain vacm_accessEntry) : option (option (Z * vacm_accessEntry)) :=
  match l with
  | [] => Some best
  | vp :: next =>
    b ← matches vp.2;
    if (b : bool) then best ← _vacm_choose_best best vp; access_loop matches best next
    else access_loop matches best next
  end.

Definition vacm_getAccessEntry (st : vacm) (groupName contextPrefix : list Z) (securityModel securityLevel : Z)
  : option (option (Z * vacm_accessEntry)) :=
  if bad_name groupName then Some None
  else if bad_name contextPrefix then Some None
  else
    group ← prefixed groupName;
    context ← prefixed contextPrefix;
    access_loop (access_matches group context (strlen groupName) (strlen contextPrefix)
                                securityModel securityLevel) None (accessList st).

Definition access_stop (glen clen model level : Z) (vp lp : vacm_accessEntry) : option bool :=
  cmp ← memcmp (a_groupName lp) (a_groupName vp) (glen + 1);
  if 0 <? cmp then Some true
  else if cmp <? 0 then Some false
  else
    cmp ← memcmp (a_contextPrefix lp) (a_contextPrefix vp) (clen + 1);
    if 0 <? cmp then Some true
    else if cmp <? 0 then Some false
    else if model <? a_securityModel lp then Some true
    else if a_securityModel lp <? model then Some false
    else if level <? a_securityLevel lp then Some true
    else Some false.

Definition vacm_createAccessEntry (c1 c2 : option Z) (st : vacm) (groupName contextPrefix : list Z)
    (securityModel securityLevel : Z) : option (vacm * option Z) :=
  if bad_name groupName then Some (st, None)
  else if bad_name contextPrefix then Some (st, None)
  else match c1, c2 with
       | Some a, Some _ =>
         gn ← prefixed groupName;
         cp ← prefixed contextPrefix;
         let vp := mkaccess gn cp securityModel securityLevel 0
                     (replicate (Z.to_nat VACM_MAX_VIEWS) (zeros VACMSTRINGLEN)) 0 0 0 in
         l ← insert_before (access_stop (strlen groupName) (strlen contextPrefix) securityModel securityLevel vp)
                           (a, vp) (accessList st);
         Some (mkvacm (viewList st) (viewScanPtr st) l (accessScanPtr st) (groupList st) (groupScanPtr st), Some a)
       | _, _ => Some (st, None)
       end.

(** [_vacm_parse_config_access_common], once the fields of the line are read: the
    entry that would be used for them, or else a new one, is given the fields. *)
Definition _vacm_parse_config_access_common (c1 c2 : option Z) (st : vacm)
    (status storageType securityModel securityLevel contextMatch : Z) (groupName contextPrefix : list Z) : option (vacm * option Z) :=
  r ← vacm_getAccessEntry st groupName contextPrefix securityModel securityLevel;
  '(st, aptr) ← match r with
                | Some vp => Some (st, Some vp.1)
                | None => vacm_createAccessEntry c1 c2 st groupName contextPrefix securityModel securityLevel
                end;
  match aptr with
  | None => Some (st, None)
  | Some a =>
    let store (vp : Z * vacm_accessEntry) :=
      if vp.1 =? a
      then (a, mkaccess (a_groupName vp.2) (a_contextPrefix vp.2) securityModel securityLevel contextMatch (a_views vp.2)
                        storageType status (a_bitMask vp.2))
      else vp in
    Some (mkvacm (viewList st) (viewScanPtr st) (map store (accessList st)) (accessScanPtr st) (groupList st) (groupScanPtr st), Some a)
  end.

Definition access_is (groupName contextPrefix : list Z) (model level : Z) (vp : vacm_accessEntry) : option bool :=
  if (a_securityModel vp =? model) && (a_securityLevel vp =? level) then
    c ← strcmp (a_groupName vp) 1 groupName;
    if c =? 0 then c ← strcmp (a_contextPrefix vp) 1 contextPrefix; Some (c =? 0) else Some false
  else Some false.

Definition vacm_destroyAccessEntry (st : vacm) (groupName contextPrefix : list Z) (securityModel securityLevel : Z)
  : option vacm :=
  l ← unlink (access_is groupName contextPrefix securityModel securityLevel) (accessList st);
  Some (mkvacm (viewList st) (viewScanPtr st) l (accessScanPtr st) (groupList st) (groupScanPtr st)).

Definition vacm_destroyAllAccessEntries (st : vacm) : vacm :=
  mkvacm (viewList st) (viewScanPtr st) (clear (accessList st)) (accessScanPtr st) (groupList st) (groupScanPtr st).

Definition vacm_scanAccessInit (st : vacm) : vacm :=
  mkvacm (viewList st) (viewScanPtr st) (accessList st) (front (accessList st)) (groupList st) (groupScanPtr st).

Definition vacm_scanAccessNext (st : vacm) : option (vacm * option Z) :=
  '(p, r) ← scan_next (accessScanPtr st) (accessList st);
  Some (mkvacm (viewList st) (viewScanPtr st) (accessList st) p (groupList st) (groupScanPtr st), r).

(** * The global view list *)

Definition vacm_scanViewInit (st : vacm) : vacm :=
  mkvacm (viewList st) (front (viewList st)) (accessList st) (accessScanPtr st) (groupList st) (groupScanPtr st).

Definition vacm_scanViewNext (st : vacm) : option (vacm * option Z) :=
  '(p, r) ← scan_next (viewScanPtr st) (viewList st);
  Some (mkvacm (viewList st) p (accessList st) (accessScanPtr st) (groupList st) (groupScanPtr st), r).

Definition vacm_getViewEntry (st : vacm) (name o : list Z) (olen mode : Z) : option (option (Z * vacm_viewEntry)) :=
  netsnmp_view_get (viewList st) name o olen mode.

Definition vacm_checkSubtree (st : vacm) (name o : list Z) (olen : Z) : option Z :=
  netsnmp_view_subtree_check (viewList st) name o olen.

Definition vacm_createViewEntry (c1 c2 : option Z) (st : vacm) (name o : list Z) (olen : Z)
  : option (vacm * option Z) :=
  '(l, r) ← netsnmp_view_create c1 c2 (viewList st) name o olen;
  Some (mkvacm l (viewScanPtr st) (accessList st) (accessScanPtr st) (groupList st) (groupScanPtr st), r).

Definition vacm_destroyViewEntry (st : vacm) (name o : list Z) (olen : Z) : option vacm :=
  l ← netsnmp_view_destroy (viewList st) name o olen;
  Some (mkvacm l (viewScanPtr st) (accessList st) (accessScanPtr st) (groupList st) (groupScanPtr st)).

Definition vacm_destroyAllViewEntries (st : vacm) : vacm :=
  mkvacm (netsnmp_view_clear (viewList st)) (viewScanPtr st) (accessList st) (accessScanPtr st)
         (groupList st) (groupScanPtr st).

Definition vacm_is_configured (st : vacm) : Z :=
  match accessList st, groupList st with
  | [], [] => 0
  | _, _ => 1
  end.
