(* ===== verification/VacmView.v ===== *)
(** What the access-control tables of [Vacm] do: the state they keep, in what
    order, and which entry a search returns.  Views: which names a view includes,
    proved of [netsnmp_view_get] and [netsnmp_view_subtree_check] against the
    definition of RFC 3415. *)
From Stdlib Require Import ZArith Lia.
From stdpp Require Import sets.
From S2P Require Import Prelude Asn1Defs Oid LList Vacm.

(** * Orders on keys *)

#[export] Instance lex_sign_key : KeyOrder lex_sign.
Proof.
  split; [apply lex_sign_refl|intros; apply lex_sign_opp|apply lex_sign_trans].
Qed.

Definition Z_cmp (a b : Z) : Z := Z.sgn (a - b).

#[export] Instance Z_cmp_key : KeyOrder Z_cmp.
Proof. unfold Z_cmp. split; intros; lia. Qed.

Definition prod_cmp {K L} (c1 : K -> K -> Z) (c2 : L -> L -> Z) (a b : K * L) : Z :=
  if c1 a.1 b.1 =? 0 then c2 a.2 b.2 else c1 a.1 b.1.

#[export] Instance prod_cmp_key {K L} (c1 : K -> K -> Z) (c2 : L -> L -> Z) :
  KeyOrder c1 -> KeyOrder c2 -> KeyOrder (prod_cmp c1 c2).
Proof.
  intros H1 H2. unfold prod_cmp. split.
  - intros a. by rewrite !ko_refl.
  - intros a b. rewrite (ko_opp a.1 b.1), (ko_opp a.2 b.2).
    destruct (Z.eqb_spec (c1 a.1 b.1) 0), (Z.eqb_spec (- c1 a.1 b.1) 0); lia.
  - intros a b c. pose proof (ko_trans (cmp := c1) a.1 b.1 c.1). pose proof (ko_trans (cmp := c1) b.1 c.1 a.1).
    pose proof (ko_trans (cmp := c1) c.1 a.1 b.1). pose proof (ko_trans (cmp := c2) a.2 b.2 c.2).
    pose proof (ko_opp (cmp := c1) a.1 b.1). pose proof (ko_opp (cmp := c1) b.1 c.1).
    pose proof (ko_opp (cmp := c1) a.1 c.1).
    destruct (Z.eqb_spec (c1 a.1 b.1) 0), (Z.eqb_spec (c1 b.1 c.1) 0), (Z.eqb_spec (c1 a.1 c.1) 0); lia.
Qed.

(** * Names *)

(** A name the tables accept. *)
Definition vname (s : list Z) : Prop := strlen s <= VACM_MAX_STRING /\ Forall (fun c => 0 < c < 256) s.

#[export] Instance vname_dec s : Decision (vname s).
Proof. unfold vname. apply _. Defined.

(** The array a name is kept in: its length, the name, zeros. *)
Definition name_array (s : list Z) : list Z := strlen s :: s ++ replicate (33 - length s) 0.

(** The name kept in an array. *)
Definition name_of (a : list Z) : list Z := take (Z.to_nat (default 0 (peek a 0))) (drop 1 a).

Definition name_key (a : list Z) : list Z := strlen (name_of a) :: name_of a.

Lemma name_of_array s : name_of (name_array s) = s.
Proof.
  unfold name_of, name_array, strlen. change (peek (?x :: _) 0) with (Some x). simpl.
  rewrite Nat2Z.id, drop_0. apply take_app_length.
Qed.

Lemma length_name_array s : strlen s <= VACM_MAX_STRING -> length (name_array s) = 34%nat.
Proof.
  unfold name_array, strlen, VACM_MAX_STRING. intros. simpl. rewrite length_app, length_replicate. lia.
Qed.

Lemma bad_name_ok s : vname s -> bad_name s = false.
Proof.
  intros [H _]. unfold bad_name, strlen, VACM_MAX_STRING in *. rewrite swrap_small by lia.
  apply orb_false_iff. split; apply Z.ltb_ge; lia.
Qed.

Lemma length_zeros n : 0 <= n -> Z.of_nat (length (zeros n)) = n.
Proof. intros. unfold zeros. rewrite length_replicate. lia. Qed.

(** Storing [n] in the first cell of a zeroed array and [c] behind it. *)
Lemma store_counted size x c :
  0 < size -> 1 + Z.of_nat (length c) <= size ->
  (a ← poke (zeros size) 0 x; poke_n a 1 c) =
  Some (x :: c ++ replicate (Z.to_nat size - 1 - length c) 0).
Proof.
  intros H0 Hc. pose proof (length_zeros size ltac:(lia)) as Hz.
  rewrite poke_patch by lia. obind. rewrite poke_n_patch; [|lia|].
  - rewrite (patch_patch _ 0 1 [_]) by (simpl; lia). unfold patch, zeros. simpl. do 3 f_equal.
    rewrite drop_replicate. f_equal. lia.
  - rewrite length_patch by (simpl; lia). lia.
Qed.

Lemma prefixed_spec s : vname s -> prefixed s = Some (name_array s).
Proof.
  intros [H _]. unfold prefixed, VACM_MAX_STRING, VACMSTRINGLEN, strlen in *.
  rewrite store_counted by (rewrite ?length_app; simpl; lia). unfold name_array, strlen.
  rewrite <- app_assoc. do 3 f_equal. rewrite length_app. simpl.
  by replace (33 - length s)%nat with (S (Z.to_nat 34 - 1 - (length s + 1))) by lia.
Qed.

(** [memcmp] over the length and the characters of one of two names is a
    comparison of the names, shorter ones first. *)
Lemma memcmp_names s t n :
  vname s -> vname t -> n = strlen s \/ n = strlen t ->
  memcmp (name_array s) (name_array t) (n + 1) = Some (lex_sign (strlen s :: s) (strlen t :: t)).
Proof.
  intros [Hs _] [Ht _] Hn. pose proof (length_name_array s Hs). pose proof (length_name_array t Ht).
  unfold strlen, VACM_MAX_STRING in *.
  unfold memcmp. rewrite !peek_n_take by lia. obind. f_equal. unfold name_array, strlen.
  replace (Z.to_nat (n + 1)) with (S (Z.to_nat n)) by lia. simpl.
  destruct (Z.eqb_spec (Z.of_nat (length s)) (Z.of_nat (length t))) as [E|E]; [|done].
  rewrite !take_app_length' by lia. done.
Qed.

Lemma memcmp_same s t n :
  vname s -> vname t -> n = strlen s \/ n = strlen t ->
  (c ← memcmp (name_array s) (name_array t) (n + 1); Some (c =? 0)) = Some (bool_decide (s = t)).
Proof.
  intros Hs Ht Hn. rewrite memcmp_names by done. obind. f_equal.
  pose proof (lex_sign_eq (strlen s :: s) (strlen t :: t)) as E.
  case_bool_decide as D; [subst; apply Z.eqb_eq, E; done|].
  apply Z.eqb_neq. intros C. apply D. apply E in C. by injection C.
Qed.

(** [strcmp] on a kept name. *)
Lemma strcmp_names s t :
  vname s -> Forall (fun c => 0 < c < 256) t -> exists c, strcmp (name_array s) 1 t = Some c /\ (c = 0 <-> s = t).
Proof.
  intros [Hs Fs] Ft. unfold strcmp, name_array, strlen, VACM_MAX_STRING in *. simpl. rewrite drop_0.
  replace (33 - length s)%nat with (S (32 - length s)) by lia. simpl. clear Hs. generalize (replicate (32 - length s) 0).
  intros pad. revert t Ft. induction Fs as [|x s Hx Fs IH]; intros t Ft; destruct Ft as [|y t Hy Ft]; simpl.
  - by exists 0.
  - rewrite (proj2 (Z.eqb_neq _ _)), (proj2 (Z.ltb_lt _ _)) by lia. eexists. split; [done|]. split; [lia|done].
  - rewrite (proj2 (Z.eqb_neq _ _)), (proj2 (Z.ltb_ge _ _)) by lia. eexists. split; [done|]. split; [lia|done].
  - destruct (Z.eqb_spec x y) as [<-|Hne].
    + rewrite (proj2 (Z.eqb_neq _ _)) by lia. destruct (IH t Ft) as (c & -> & Hc). exists c. split; [done|].
      rewrite Hc. split; [by intros ->|by intros [= ->]].
    + destruct (x <? y); (eexists; split; [done|]; split; [lia|congruence]).
Qed.

Lemma strcmp_same s t :
  vname s -> Forall (fun c => 0 < c < 256) t ->
  (c ← strcmp (name_array s) 1 t; Some (c =? 0)) = Some (bool_decide (s = t)).
Proof.
  intros Hs Ht. destruct (strcmp_names s t Hs Ht) as (c & -> & Hc). obind. f_equal.
  case_bool_decide; [by apply Z.eqb_eq, Hc|]. apply Z.eqb_neq. tauto.
Qed.

(** An array of a structure that keeps a name. *)
Definition keeps_name (a : list Z) : Prop := a = name_array (name_of a) /\ vname (name_of a).

#[export] Instance keeps_name_dec a : Decision (keeps_name a).
Proof. unfold keeps_name. apply _. Defined.

Lemma keeps_name_array s : vname s -> keeps_name (name_array s).
Proof. unfold keeps_name. rewrite name_of_array. done. Qed.

Lemma memcmp_kept a b n :
  keeps_name a -> keeps_name b -> n = strlen (name_of a) \/ n = strlen (name_of b) ->
  memcmp a b (n + 1) = Some (lex_sign (name_key a) (name_key b)).
Proof. intros [Ea Na] [Eb Nb] Hn. rewrite Ea, Eb at 1. by apply memcmp_names. Qed.

Lemma memcmp_kept_same a s n :
  keeps_name a -> vname s -> n = strlen (name_of a) \/ n = strlen s ->
  (c ← memcmp a (name_array s) (n + 1); Some (c =? 0)) = Some (bool_decide (name_of a = s)).
Proof. intros [Ea Na] Hs Hn. rewrite Ea at 1. by apply memcmp_same. Qed.

(** * Families of view subtrees *)

Definition vsub (e : vacm_viewEntry) : list Z := oid_of (drop 1 (viewSubtree e)) (viewSubtreeLen e - 1).

(** What the entries of a view list satisfy. *)
Definition view_wf (e : vacm_viewEntry) : Prop :=
  keeps_name (viewName e) /\ 1 <= viewSubtreeLen e <= MAX_OID_LEN /\
  Z.of_nat (length (viewSubtree e)) = MAX_OID_LEN /\ peek (viewSubtree e) 0 = Some (viewSubtreeLen e - 1) /\
  Forall (fun x => 0 <= x < 2 ^ 64) (viewSubtree e) /\
  0 <= viewMaskLen e <= Z.of_nat (length (viewMask e)).

#[export] Instance view_wf_dec e : Decision (view_wf e).
Proof. unfold view_wf. apply _. Defined.

Definition views_wf (l : chain vacm_viewEntry) : Prop := Forall (fun x => view_wf x.2) l.

#[export] Instance views_wf_dec l : Decision (views_wf l).
Proof. unfold views_wf. apply _. Defined.

(** The bit of the family mask that belongs to component [i], most significant
    bit first; a mask shorter than the subtree is extended with ones. *)
Definition mask_bit (e : vacm_viewEntry) (i : nat) : bool :=
  if viewMaskLen e <=? Z.of_nat i / 8 then true
  else Z.testbit (default 0 (peek (viewMask e) (Z.of_nat i / 8))) (7 - Z.of_nat i mod 8).

(** RFC 3415: a name belongs to a family of view subtrees if it has at least as
    many components as the subtree, and they agree wherever the mask is one. *)
Definition covers (ignore : bool) (e : vacm_viewEntry) (o : list Z) : Prop :=
  (length (vsub e) <= length o)%nat /\
  forall i x y, (ignore || mask_bit e i) = true -> vsub e !! i = Some x -> o !! i = Some y -> x = y.

(** The entry belongs to the view [name] and covers [o]. *)
Definition in_family (ignore : bool) (name o : list Z) (e : vacm_viewEntry) : Prop :=
  name_of (viewName e) = name /\ covers ignore e o.

(** Longer subtrees first, then lexicographically greater ones. *)
Definition family_key (e : vacm_viewEntry) : list Z := Z.of_nat (length (vsub e)) :: vsub e.
Definition preferred (a b : vacm_viewEntry) : Z := lex_sign (family_key a) (family_key b).

(** ** The mask loop *)

(** Component-wise agreement from position [i] on, up to the shorter list. *)
Fixpoint agree (ignore : bool) (e : vacm_viewEntry) (i : nat) (sub o : list Z) : bool :=
  match sub, o with
  | x :: sub, y :: o =>
    (negb (ignore || mask_bit e i) || (y =? x)) && agree ignore e (S i) sub o
  | _, _ => true
  end.

Lemma agree_spec ignore e i sub o :
  agree ignore e i sub o = true <->
  forall k x y, (ignore || mask_bit e (i + k)) = true -> sub !! k = Some x -> o !! k = Some y -> x = y.
Proof.
  revert i o. induction sub as [|x sub IH]; intros i o; [by split|].
  destruct o as [|y o]; [by split|]. simpl. rewrite andb_true_iff, IH, orb_true_iff, Z.eqb_eq. split.
  - intros [H0 H] [|k] x' y' Hm; simpl.
    + intros [= <-] [= <-]. rewrite Nat.add_0_r in Hm. rewrite Hm in H0. destruct H0; [done|lia].
    + apply H. by rewrite Nat.add_succ_comm.
  - intros H. split.
    + destruct (ignore || mask_bit e i) eqn:E; [right|by left].
      symmetry. apply (H 0%nat); [by rewrite Nat.add_0_r|done|done].
    + intros k x' y' Hm Hx Hy. apply (H (S k)); [by rewrite Nat.add_succ_r|done|done].
Qed.

Definition mask_at (i : nat) : Z := 2 ^ (7 - Z.of_nat i mod 8).

Lemma mask_step i :
  (if mask_at i =? 1 then (0x80, Z.of_nat i / 8 + 1) else (Z.shiftr (mask_at i) 1, Z.of_nat i / 8)) =
  (mask_at (S i), Z.of_nat (S i) / 8).
Proof.
  unfold mask_at. pose proof (Z.div_mod (Z.of_nat i) 8 ltac:(lia)) as E.
  pose proof (Z.mod_pos_bound (Z.of_nat i) 8 ltac:(lia)) as B.
  set (q := Z.of_nat i / 8) in *. set (r := Z.of_nat i mod 8) in *.
  replace (Z.of_nat (S i)) with (q * 8 + (r + 1)) by lia. destruct (decide (r = 7)) as [->|Hr].
  - change (2 ^ (7 - 7) =? 1) with true. cbv iota.
    replace (q * 8 + (7 + 1)) with ((q + 1) * 8) by lia. rewrite Z.div_mul, Z.mod_mul by lia. done.
  - rewrite (Z.add_comm (q * 8)), Z.div_add, Z.mod_add by lia.
    rewrite (Z.div_small (r + 1)), (Z.mod_small (r + 1)) by lia.
    rewrite (proj2 (Z.eqb_neq _ _)).
    + rewrite Z.shiftr_div_pow2 by lia. rewrite <- Z.pow_sub_r by lia. apply f_equal2; [f_equal; lia|lia].
    + pose proof (Z.pow_gt_1 2 (7 - r) ltac:(lia)). lia.
Qed.

Lemma view_mask_spec e i :
  0 <= viewMaskLen e <= Z.of_nat (length (viewMask e)) ->
  exists v, VIEW_MASK e (Z.of_nat i / 8) (mask_at i) = Some v /\ negb (v =? 0) = mask_bit e i.
Proof.
  intros Hm. unfold VIEW_MASK, mask_bit, mask_at. pose proof (Z.mod_pos_bound (Z.of_nat i) 8 ltac:(lia)).
  destruct (Z.leb_spec (viewMaskLen e) (Z.of_nat i / 8)) as [|Hi].
  - eexists. split; [done|]. apply negb_true_iff, Z.eqb_neq. pose proof (pow2_pos (7 - Z.of_nat i mod 8)). lia.
  - destruct (peek_in_range (viewMask e) (Z.of_nat i / 8)) as [b Hb]; [split; [apply Z.div_pos|]; lia|].
    rewrite Hb. eexists. split; [done|]. simpl. set (k := 7 - Z.of_nat i mod 8) in *.
    assert (E : Z.land b (2 ^ k) = if Z.testbit b k then 2 ^ k else 0).
    { apply Z.bits_inj'. intros n Hn. rewrite Z.land_spec, Z.pow2_bits_eqb by lia.
      destruct (Z.eqb_spec k n) as [<-|]; [rewrite andb_true_r|rewrite andb_false_r];
        destruct (Z.testbit b k); rewrite ?Z.pow2_bits_eqb, ?Z.bits_0, ?Z.eqb_refl by lia; try done.
      symmetry. by apply Z.eqb_neq. }
    rewrite E. destruct (Z.testbit b k); [|done]. apply negb_true_iff, Z.eqb_neq.
    pose proof (pow2_pos k). lia.
Qed.

Lemma peek_of_nat m i : peek m (Z.of_nat i) = m !! i.
Proof. unfold peek. by rewrite (proj2 (Z.leb_le _ _)), Nat2Z.id by lia. Qed.

Lemma mask_loop_spec ignore e o n i :
  0 <= viewMaskLen e <= Z.of_nat (length (viewMask e)) ->
  (i + n <= length o)%nat -> (i + n < length (viewSubtree e))%nat ->
  mask_loop n ignore e o (Z.of_nat i) (mask_at i) (Z.of_nat i / 8) =
  Some (agree ignore e i (take n (drop (S i) (viewSubtree e))) (drop i o)).
Proof.
  intros Hm. revert i. induction n as [|n IH]; intros i Ho Hs; [done|]. cbn [mask_loop].
  destruct (view_mask_spec e i Hm) as (v & Hv & Hb).
  replace (if ignore then Some true else _) with (Some (ignore || mask_bit e i))
    by (rewrite Hv; obind; rewrite Hb; by destruct ignore). obind.
  destruct (lookup_lt_is_Some_2 o i) as [y Hy]; [lia|].
  destruct (lookup_lt_is_Some_2 (viewSubtree e) (S i)) as [x Hx]; [lia|].
  replace (Z.of_nat i + 1) with (Z.of_nat (S i)) by lia.
  rewrite !peek_of_nat, Hy, Hx. rewrite (drop_S _ _ _ Hx), (drop_S _ _ _ Hy). cbn [take agree].
  pose proof (mask_step i) as Hst. specialize (IH (S i) ltac:(lia) ltac:(lia)).
  destruct (ignore || mask_bit e i); simpl; [destruct (y =? x); simpl; [|done]|];
    (destruct (mask_at i =? 1); injection Hst as E1 E2; rewrite ?E1, ?E2, <- ?E1, <- ?E2 in *; exact IH).
Qed.

(** * [netsnmp_view_get] *)

Lemma agree_take ignore e i k a b : agree ignore e i (take k a) b = agree ignore e i a (take k b).
Proof.
  revert i k b. induction a as [|x a IH]; intros i k b; [by rewrite take_nil|].
  destruct b as [|y b]; [rewrite take_nil; by destruct (take k (x :: a))|].
  destruct k as [|k]; [done|]. simpl. by rewrite IH.
Qed.

Lemma vsub_length e : view_wf e -> Z.of_nat (length (vsub e)) = viewSubtreeLen e - 1.
Proof.
  intros (_ & H1 & H2 & _). unfold vsub, oid_of, MAX_OID_LEN in *.
  rewrite length_take, length_drop. lia.
Qed.

(** The first cell of the array is the length of the rest. *)
Lemma kept_subtree_cons e :
  view_wf e -> oid_of (viewSubtree e) (viewSubtreeLen e) = viewSubtreeLen e - 1 :: vsub e.
Proof.
  intros (_ & H1 & H2 & H3 & _). unfold vsub, oid_of, MAX_OID_LEN in *.
  destruct (viewSubtree e) as [|x l]; [done|]. change (peek (x :: l) 0) with (Some x) in H3.
  injection H3 as ->. cbn [drop]. rewrite drop_0.
  replace (Z.to_nat (viewSubtreeLen e)) with (S (Z.to_nat (viewSubtreeLen e - 1))) by lia. done.
Qed.

Lemma subtree_len e : view_wf e -> u64 (viewSubtreeLen e - 1) = Z.of_nat (length (vsub e)).
Proof.
  intros He. rewrite vsub_length by done. destruct He as (_ & H & _). unfold MAX_OID_LEN in H.
  apply wrap_small. lia.
Qed.

Lemma vsub_ok e : view_wf e -> oid_ok (drop 1 (viewSubtree e)) (viewSubtreeLen e - 1).
Proof.
  intros (_ & H1 & H2 & _ & H3 & _). unfold oid_ok, MAX_OID_LEN in *. rewrite length_drop.
  split_and!; [lia|lia|lia|by apply Forall_drop].
Qed.

(** The boolean test behind [in_family]. *)
Definition fam (ignore : bool) (name o : list Z) (e : vacm_viewEntry) : bool :=
  bool_decide (name = name_of (viewName e)) && (Z.of_nat (length (vsub e)) <=? Z.of_nat (length o))
  && agree ignore e 0 (vsub e) o.

Lemma fam_spec ignore name o e : fam ignore name o e = true <-> in_family ignore name o e.
Proof.
  unfold fam, in_family, covers. rewrite !andb_true_iff, bool_decide_eq_true, Z.leb_le, agree_spec.
  split; [intros [[-> H] H2]|intros (<- & H & H2)]; split_and!; try done; lia.
Qed.

Definition better (x : vacm_viewEntry) (best : option (Z * vacm_viewEntry)) : bool :=
  match best with None => true | Some b => 0 <? preferred x b.2 end.

Definition pick_step (ignore : bool) (name o : list Z) (best : option (Z * vacm_viewEntry))
    (x : Z * vacm_viewEntry) : option (Z * vacm_viewEntry) :=
  if fam ignore name o x.2 && better x.2 best then Some x else best.

(** The most preferred entry of the family, the first one of several. *)
Definition pick (ignore : bool) (name o : list Z) (l : chain vacm_viewEntry) : option (Z * vacm_viewEntry) :=
  foldl (pick_step ignore name o) None l.

Definition best_wf (b : option (Z * vacm_viewEntry)) : Prop := forall x, b = Some x -> view_wf x.2.

Lemma pick_step_wf ignore name o best x : best_wf best -> view_wf x.2 -> best_wf (pick_step ignore name o best x).
Proof. unfold pick_step, best_wf. case_match; [|done]. intros _ Hx y [= <-]. done. Qed.

Lemma better_view_spec vp best :
  view_wf vp -> best_wf best -> better_view vp best = Some (better vp best).
Proof.
  intros Hv Hb. destruct best as [[a b]|]; [|done]. specialize (Hb _ eq_refl). simpl in Hb.
  unfold better_view, better, preferred, family_key. simpl.
  rewrite !subtree_len by done. rewrite !vsub_length by done.
  destruct (Z.eqb_spec (viewSubtreeLen vp) (viewSubtreeLen b)) as [E|E].
  - rewrite (proj2 (Z.ltb_ge _ _)), (proj2 (Z.eqb_eq _ _)) by lia.
    rewrite snmp_oid_compare_spec by (apply vsub_ok; done). done.
  - rewrite (proj2 (Z.eqb_neq (viewSubtreeLen vp - 1) _)) by lia.
    destruct (Z.ltb_spec (viewSubtreeLen b) (viewSubtreeLen vp)), (Z.ltb_spec (viewSubtreeLen vp - 1) (viewSubtreeLen b - 1));
      try lia; done.
Qed.

Lemma same_name_spec name e :
  vname name -> view_wf e ->
  same_name (name_array name) (strlen name) e = Some (bool_decide (name = name_of (viewName e))).
Proof.
  intros Hn ((E & Hk) & _). unfold same_name. rewrite E at 1. apply memcmp_same; auto.
Qed.

(** The two uses of the mask loop: over the whole subtree of a shorter entry,
    and over the whole name when the entry is longer. *)
Lemma mask_loop_match ignore e o olen n :
  view_wf e -> oid_ok o olen -> 0 <= n -> n = Z.min olen (viewSubtreeLen e - 1) ->
  mask_loop (Z.to_nat n) ignore e o 0 0x80 0 = Some (agree ignore e 0 (vsub e) (oid_of o olen)).
Proof.
  intros He (Ho & _) Hn ->. pose proof (vsub_length e He) as Hl.
  destruct He as (_ & H1 & H2 & _ & _ & Hm).
  unfold MAX_OID_LEN in *.
  pose proof (mask_loop_spec ignore e o (Z.to_nat (olen `min` (viewSubtreeLen e - 1))) 0 Hm
                ltac:(lia) ltac:(lia)) as E.
  change (mask_at 0) with 0x80 in E. change (Z.of_nat 0 / 8) with 0 in E. change (Z.of_nat 0) with 0 in E.
  rewrite E, drop_0, agree_take. f_equal. unfold vsub, oid_of. rewrite agree_take, take_take. do 2 f_equal. lia.
Qed.

Lemma found_spec ignore name o olen e :
  vname name -> view_wf e -> oid_ok o olen ->
  (same ← same_name (name_array name) (strlen name) e;
   and_then (same && (u64 (viewSubtreeLen e - 1) <=? olen))
     (mask_loop (Z.to_nat (u64 (viewSubtreeLen e - 1))) ignore e o 0 0x80 0)) =
  Some (fam ignore name (oid_of o olen) e).
Proof.
  intros Hn He Ho. rewrite same_name_spec by done. obind. unfold fam.
  rewrite subtree_len, (oid_of_length o olen), vsub_length by done.
  destruct (bool_decide _); [|done]. cbn [andb].
  destruct (Z.leb_spec (viewSubtreeLen e - 1) olen); [|done]. cbn [andb and_then].
  pose proof He as (_ & H1 & _). apply mask_loop_match; [done|done|lia|lia].
Qed.

Lemma view_get_loop_spec name o olen mode best count l :
  vname name -> oid_ok o olen -> views_wf l -> best_wf best -> mode <> VACM_MODE_CHECK_SUBTREE ->
  exists count', view_get_loop (name_array name) (strlen name) o olen mode best count l =
    Some (foldl (pick_step (mode =? VACM_MODE_IGNORE_MASK) name (oid_of o olen)) best l, count').
Proof.
  intros Hn Ho Hl Hb Hm. revert best count Hb. induction Hl as [|x l Hx Hl IH]; intros best count Hb; [by eexists|].
  simpl. pose proof (found_spec (mode =? VACM_MODE_IGNORE_MASK) name o olen x.2 Hn Hx Ho) as Hf.
  destruct (same_name _ _ x.2) as [same|]; [|done]. simpl in Hf |- *. rewrite Hf. simpl.
  assert (Hs : best_wf (pick_step (mode =? VACM_MODE_IGNORE_MASK) name (oid_of o olen) best x))
    by (apply pick_step_wf; done).
  unfold pick_step at 2. unfold pick_step in Hs. destruct (fam _ _ _ _); simpl in *; [|by apply IH].
  rewrite (proj2 (Z.eqb_neq mode _)) by done. rewrite better_view_spec by done. simpl. apply IH.
  by destruct (better x.2 best).
Qed.

Lemma netsnmp_view_get_pick name o olen mode l :
  vname name -> oid_ok o olen -> views_wf l -> mode <> VACM_MODE_CHECK_SUBTREE ->
  netsnmp_view_get l name o olen mode = Some (pick (mode =? VACM_MODE_IGNORE_MASK) name (oid_of o olen) l).
Proof.
  intros Hn Ho Hl Hm. unfold netsnmp_view_get. rewrite bad_name_ok, prefixed_spec by done. simpl.
  destruct (view_get_loop_spec name o olen mode None 0 l) as [c ->]; [done..|].
  simpl. by rewrite (proj2 (Z.eqb_neq mode _)) by done.
Qed.

(** ** What [pick] picks *)

Lemma preferred_opp a b : preferred b a = - preferred a b.
Proof. apply lex_sign_opp. Qed.

Lemma preferred_trans a b c : preferred a b <= 0 -> preferred b c <= 0 -> preferred a c <= 0.
Proof. apply lex_sign_trans. Qed.

Lemma pick_spec ignore name o l :
  match pick ignore name o l with
  | None => forall x, x ∈ l -> ~ in_family ignore name o x.2
  | Some vp => exists i, l !! i = Some vp /\ in_family ignore name o vp.2 /\
      forall j x, l !! j = Some x -> in_family ignore name o x.2 ->
        preferred x.2 vp.2 <= 0 /\ ((j < i)%nat -> preferred x.2 vp.2 < 0)
  end.
Proof.
  unfold pick. induction l as [|x l IH] using rev_ind; [set_solver|].
  rewrite foldl_app. simpl. set (b := foldl _ None l) in *. unfold pick_step at 1.
  destruct (fam ignore name o x.2) eqn:F; simpl.
  - apply fam_spec in F. destruct b as [vp|].
    + destruct IH as (i & Hi & Hf & IH). simpl. destruct (Z.ltb_spec 0 (preferred x.2 vp.2)) as [Hp|Hp].
      * exists (length l). split_and!; [by rewrite lookup_app_r, Nat.sub_diag by lia|done|].
        intros j y Hj Hy. pose proof (preferred_opp x.2 vp.2). apply lookup_app_Some in Hj as [Hj|[? Hj]].
        -- destruct (IH j y Hj Hy) as [Hle _]. pose proof (preferred_trans y.2 vp.2 x.2 Hle ltac:(lia)).
           pose proof (preferred_opp y.2 x.2). pose proof (preferred_trans x.2 y.2 vp.2). lia.
        -- apply list_lookup_singleton_Some in Hj as [? <-]. unfold preferred. rewrite lex_sign_refl. lia.
      * exists i. split_and!; [by apply lookup_app_l_Some|done|]. apply lookup_lt_Some in Hi.
        intros j y Hj Hy. apply lookup_app_Some in Hj as [Hj|[? Hj]]; [by apply (IH j)|].
        apply list_lookup_singleton_Some in Hj as [? <-]. split; [done|lia].
    + exists (length l). split_and!; [by rewrite lookup_app_r, Nat.sub_diag by lia|done|].
      intros j y Hj Hy. apply lookup_app_Some in Hj as [Hj|[? Hj]].
      * destruct (IH y); [by eapply list_elem_of_lookup_2|done].
      * apply list_lookup_singleton_Some in Hj as [? <-]. unfold preferred. rewrite lex_sign_refl. lia.
  - assert (Hx : ~ in_family ignore name o x.2) by (rewrite <- fam_spec; by rewrite F).
    destruct b as [vp|].
    + destruct IH as (i & Hi & Hf & IH). exists i. split_and!; [by apply lookup_app_l_Some|done|].
      intros j y Hj Hy. apply lookup_app_Some in Hj as [Hj|[? Hj]]; [by apply (IH j)|].
      by apply list_lookup_singleton_Some in Hj as [? <-].
    + intros y [Hy| ->%list_elem_of_singleton]%elem_of_app; [by apply IH|done].
Qed.

(** * [netsnmp_view_subtree_check] *)

(** The entry belongs to the view and its family reaches below [o]: the subtree
    is longer than [o] and agrees with it. *)
Definition below (name o : list Z) (e : vacm_viewEntry) : Prop :=
  name_of (viewName e) = name /\ (length o < length (vsub e))%nat /\ agree false e 0 (vsub e) o = true.

(** What the loop of the check establishes about the entries it has seen. *)
Definition longer_types (name o : list Z) (l : chain vacm_viewEntry)
    (old new : option (Z * vacm_viewEntry)) : Prop :=
  (forall v, old = Some v -> new = Some v) /\
  (forall x, x ∈ l -> below name o x.2 -> exists v, new = Some v /\ viewType v.2 = viewType x.2) /\
  (forall v, new = Some v -> old = Some v \/ (v ∈ l /\ below name o v.2)).

(** What is known when the rest [l] of the list was searched from [sh] and [lo]. *)
Definition check_post (name o : list Z) (l : chain vacm_viewEntry) (sh lo : option (Z * vacm_viewEntry))
    (res : option (flow Z (option (Z * vacm_viewEntry) * option (Z * vacm_viewEntry)))) : Prop :=
  (exists x, x ∈ l /\ below name o x.2) /\ res = Some (Return VACM_SUBTREE_UNKNOWN) \/
  exists lo', res = Some (Next (foldl (pick_step false name o) sh l, lo')) /\ longer_types name o l lo lo'.

Lemma check_post_skip name o x l sh sh' lo res :
  ~ below name o x.2 -> pick_step false name o sh x = sh' ->
  check_post name o l sh' lo res -> check_post name o (x :: l) sh lo res.
Proof.
  intros Hx Hs [[(y & ? & ?) E]|(lo' & E & H1 & H2 & H3)].
  { left. split; [exists y; split; [by right|done]|done]. }
  right. exists lo'. split; [simpl; by rewrite Hs|]. split_and!; [done| |].
  - intros y [->|Hy]%elem_of_cons Hb; [done|auto].
  - intros v Hv. destruct (H3 v Hv) as [|[? ?]]; [by left|right; split; [by right|done]].
Qed.

Lemma check_post_longer name o x l sh lo v res :
  below name o x.2 -> pick_step false name o sh x = sh ->
  lo = Some v /\ viewType v.2 = viewType x.2 \/ lo = None /\ v = x ->
  check_post name o l sh (Some v) res -> check_post name o (x :: l) sh lo res.
Proof.
  intros Hb Hs Hv [[(y & ? & ?) E]|(lo' & E & H1 & H2 & H3)].
  { left. split; [exists y; split; [by right|done]|done]. }
  right. exists lo'. split; [simpl; by rewrite Hs|]. split_and!.
  - intros w ->. destruct Hv as [[[= ->] _]|[? _]]; [by apply H1|done].
  - intros y [->|Hy]%elem_of_cons Hby; [|auto]. exists v. split; [by apply H1|].
    destruct Hv as [[_ ?]|[_ ->]]; done.
  - intros w Hw. destruct (H3 w Hw) as [[= <-]|[? ?]].
    + destruct Hv as [[? _]|[_ ->]]; [by left|right; split; [by left|done]].
    + right. split; [by right|done].
Qed.

Lemma subtree_check_loop_spec name o olen sh lo l :
  vname name -> oid_ok o olen -> views_wf l -> best_wf sh ->
  check_post name (oid_of o olen) l sh lo
    (subtree_check_loop (name_array name) (strlen name) o olen sh lo l).
Proof.
  intros Hn Ho Hl. revert sh lo. induction Hl as [|x l Hx Hl IH]; intros sh lo Hs.
  { right. exists lo. split; [done|]. split_and!; [done|set_solver|auto]. }
  cbn [subtree_check_loop]. rewrite same_name_spec by done. obind.
  pose proof (oid_of_length o olen Ho) as Hlen. pose proof Hx as (_ & Hx1 & _).
  pose proof (pick_step_wf false name (oid_of o olen) sh x Hs Hx) as Hw.
  assert (Hf : pick_step false name (oid_of o olen) sh x =
    if fam false name (oid_of o olen) x.2 && better x.2 sh then Some x else sh) by done.
  unfold fam in Hf. pose proof (vsub_length x.2 Hx) as Hv.
  case_bool_decide as Dn; cbv iota.
  2: { eapply check_post_skip; [intros (? & _); congruence|exact Hf|by apply IH]. }
  rewrite subtree_len by done. rewrite Hlen in Hf.
  destruct (Z.leb_spec (Z.of_nat (length (vsub x.2))) olen) as [Hle|Hgt];
    rewrite (mask_loop_match false _ o olen) by (done || lia); obind;
    destruct (agree false x.2 0 (vsub x.2) (oid_of o olen)) eqn:A; simpl in Hf; rewrite Hf in Hw.
  - rewrite better_view_spec by done. obind.
    eapply check_post_skip; [intros (_ & ? & _); lia|exact Hf|by apply IH].
  - eapply check_post_skip; [intros (_ & ? & _); lia|exact Hf|by apply IH].
  - assert (Hb : below name (oid_of o olen) x.2) by (split_and!; [done|lia|done]).
    destruct lo as [[a v]|].
    + destruct (Z.eqb_spec (viewType v) (viewType x.2)) as [T|T]; simpl.
      * eapply check_post_longer; [done|done|by left|by apply IH].
      * left. split; [exists x; split; [by left|done]|done].
    + eapply check_post_longer; [done|done|by right|by apply IH].
  - eapply check_post_skip; [intros (_ & _ & ?); congruence|exact Hf|by apply IH].
Qed.

(** ** From a subtree to the names in it *)

Lemma in_family_prefix name o o' e :
  o `prefix_of` o' -> (length (vsub e) <= length o)%nat ->
  in_family false name o e <-> in_family false name o' e.
Proof.
  intros [k ->] Hl. unfold in_family, covers. rewrite length_app.
  assert (Hi : forall i x, vsub e !! i = Some x -> (o ++ k) !! i = o !! i).
  { intros i x Hx. apply lookup_app_l. apply lookup_lt_Some in Hx. lia. }
  split; intros (Hn & _ & H); (split; [done|]; split; [lia|]); intros i x y Hm Hx Hy.
  - rewrite (Hi _ _ Hx) in Hy. eauto.
  - eapply H; [done|done|]. by rewrite (Hi _ _ Hx).
Qed.

Lemma in_family_below name o o' e :
  o `prefix_of` o' -> (length o < length (vsub e))%nat -> in_family false name o' e -> below name o e.
Proof.
  intros [k ->] Hl (Hn & _ & H). split_and!; [done|done|]. apply agree_spec. intros i x y Hm Hx Hy.
  eapply (H i); [done|done|]. by apply lookup_app_l_Some.
Qed.

(** The entry that decides about a name below [o] is the one that decides about
    [o], or a longer one. *)
Lemma pick_below name o o' l :
  o `prefix_of` o' ->
  match pick false name o' l with
  | None => pick false name o l = None
  | Some vp => vp ∈ l /\ (below name o vp.2 \/ pick false name o l = Some vp)
  end.
Proof.
  intros Hp. pose proof (pick_spec false name o' l) as H'. pose proof (pick_spec false name o l) as H.
  assert (Hup : forall x, in_family false name o x -> in_family false name o' x).
  { intros x Hx. pose proof Hx as (_ & Hl & _). by apply (in_family_prefix _ _ _ _ Hp Hl). }
  destruct (pick false name o' l) as [vp'|].
  - destruct H' as (i' & Hi' & Hf' & H'). split; [by eapply list_elem_of_lookup_2|].
    destruct (decide (length o < length (vsub vp'.2))%nat) as [Hl|Hl];
      [left; by eapply in_family_below|right].
    apply (in_family_prefix name o o') in Hf'; [|done|lia].
    destruct (pick false name o l) as [vp|].
    + destruct H as (i & Hi & Hf & H). destruct (H i' vp' Hi' Hf') as [A1 A2].
      destruct (H' i vp Hi (Hup _ Hf)) as [B1 B2].
      pose proof (preferred_opp vp.2 vp'.2). assert (i = i') as <- by lia. congruence.
    + destruct (H vp'); [by eapply list_elem_of_lookup_2|done].
  - destruct (pick false name o l) as [vp|]; [|done].
    destruct H as (i & Hi & Hf & _). destruct (H' vp); [by eapply list_elem_of_lookup_2|auto].
Qed.

(** * Properties *)

(** [vp] is the answer for a view [name] and the identifier [o]: an entry of the
    family that no other entry of the family is preferred to. *)
Definition best_match (ignore : bool) (name o : list Z) (l : chain vacm_viewEntry)
    (r : option (Z * vacm_viewEntry)) : Prop :=
  match r with
  | None => forall x, x ∈ l -> ~ in_family ignore name o x.2
  | Some vp => vp ∈ l /\ in_family ignore name o vp.2 /\
      forall x, x ∈ l -> in_family ignore name o x.2 -> preferred x.2 vp.2 <= 0
  end.

(** C29: [netsnmp_view_get] implements the rule of RFC 3415: among the entries of
    the view whose family of subtrees (subtree and mask) contains the name it
    returns the longest one, and of several such the lexicographically greatest;
    it returns [NULL] exactly when no family contains the name. *)
Theorem view_get_best l name o olen mode :
  views_wf l -> vname name -> oid_ok o olen -> mode <> VACM_MODE_CHECK_SUBTREE ->
  exists r, netsnmp_view_get l name o olen mode = Some r /\
    best_match (mode =? VACM_MODE_IGNORE_MASK) name (oid_of o olen) l r.
Proof.
  intros Hl Hn Ho Hm. rewrite netsnmp_view_get_pick by done. eexists. split; [done|].
  pose proof (pick_spec (mode =? VACM_MODE_IGNORE_MASK) name (oid_of o olen) l) as H. unfold best_match.
  destruct (pick _ _ _ _) as [vp|]; [|done]. destruct H as (i & Hi & Hf & H).
  split_and!; [by eapply list_elem_of_lookup_2|done|].
  intros x [j Hj]%list_elem_of_lookup Hx. by apply (H j).
Qed.

(** A view permits a name when the entry that decides about it is not an
    excluded one. *)
Definition in_view (l : chain vacm_viewEntry) (name o : list Z) (olen : Z) : option bool :=
  r ← netsnmp_view_get l name o olen VACM_MODE_FIND;
  Some match r with Some (_, e) => negb (viewType e =? SNMP_VIEW_EXCLUDED) | None => false end.

Lemma subtree_check_spec l name o olen :
  views_wf l -> vname name -> oid_ok o olen ->
  exists r, netsnmp_view_subtree_check l name o olen = Some r /\
    (r = VACM_SUCCESS \/ r = VACM_NOTINVIEW \/
     r = VACM_SUBTREE_UNKNOWN /\ exists x, x ∈ l /\ below name (oid_of o olen) x.2) /\
    forall o' olen', oid_ok o' olen' -> oid_of o olen `prefix_of` oid_of o' olen' ->
      (r = VACM_SUCCESS -> in_view l name o' olen' = Some true) /\
      (r = VACM_NOTINVIEW -> in_view l name o' olen' = Some false).
Proof.
  intros Hl Hn Ho. unfold netsnmp_view_subtree_check. rewrite bad_name_ok, prefixed_spec by done. obind.
  destruct (subtree_check_loop_spec name o olen None None l) as [[Hb ->]|(lo & -> & _ & H2 & H3)]; [done..| |]; obind.
  { eexists. split; [done|]. split; [auto|]. intros o' olen' _ _. split; discriminate. }
  fold (pick false name (oid_of o olen) l). eexists. split; [done|]. split.
  - unfold subtree_verdict. destruct (pick _ _ _ _) as [[? s]|], lo as [[a v]|]; repeat case_match; auto;
      right; right; (split; [done|]); destruct (H3 _ eq_refl) as [|[? ?]]; try done; eauto.
  - intros o' olen' Ho' Hp. unfold in_view. rewrite netsnmp_view_get_pick by done.
    change (VACM_MODE_FIND =? VACM_MODE_IGNORE_MASK) with false. obind.
    pose proof (pick_below name _ _ l Hp) as H. unfold subtree_verdict.
    destruct (pick false name (oid_of o' olen') l) as [[b vp]|].
    + destruct H as [Hin [Hb|Es]].
      * destruct (H2 (b, vp) Hin Hb) as ([a v] & -> & Ev). simpl in Ev.
        destruct (pick false name (oid_of o olen) l) as [[? s]|]; rewrite Ev in *;
          repeat case_match; bool_prop; split; intros; (done || f_equal); bool_prop; congruence || done.
      * rewrite Es. repeat case_match; bool_prop; split; intros; (done || f_equal); bool_prop; congruence || done.
    + rewrite H. destruct lo as [[a v]|]; repeat case_match; split; done.
Qed.

(** the answer about a whole subtree is right for every name in it:
    [VACM_SUCCESS] means that [netsnmp_view_get] permits each of them,
    [VACM_NOTINVIEW] that it permits none, and [VACM_SUBTREE_UNKNOWN] is only
    returned when the view has an entry inside the subtree. *)
Theorem subtree_check_sound l name o olen :
  views_wf l -> vname name -> oid_ok o olen ->
  exists r, netsnmp_view_subtree_check l name o olen = Some r /\
    (r = VACM_SUCCESS \/ r = VACM_NOTINVIEW \/
     r = VACM_SUBTREE_UNKNOWN /\ exists x, x ∈ l /\ below name (oid_of o olen) x.2) /\
    forall o' olen', oid_ok o' olen' -> oid_of o olen `prefix_of` oid_of o' olen' ->
      (r = VACM_SUCCESS -> in_view l name o' olen' = Some true) /\
      (r = VACM_NOTINVIEW -> in_view l name o' olen' = Some false).
Proof. apply subtree_check_spec. Qed.

(** * Witnesses *)

(** The subtree 1.3.6 with the mask [101], and the excluded 1.3.6.9 in it. *)
Definition demo_views : chain vacm_viewEntry :=
  [(100, mkview (name_array [97]) (3 :: [1; 3; 6] ++ replicate 124 0) 4 (0xA0 :: replicate 33 0) 1
           SNMP_VIEW_INCLUDED 3 1 0);
   (200, mkview (name_array [97]) (4 :: [1; 3; 6; 9] ++ replicate 123 0) 5 (zeros 34) 0 SNMP_VIEW_EXCLUDED 3 1 0)].

Lemma view_get_best_witness :
  exists r, netsnmp_view_get demo_views [97] [1; 7; 6; 2] 4 VACM_MODE_FIND = Some r /\
    best_match (VACM_MODE_FIND =? VACM_MODE_IGNORE_MASK) [97] (oid_of [1; 7; 6; 2] 4) demo_views r.
Proof. apply view_get_best; by_decide. Defined.

Lemma subtree_check_sound_witness : in_view demo_views [97] [1; 3; 6; 1; 5] 5 = Some true.
Proof.
  destruct (subtree_check_sound demo_views [97] [1; 3; 6; 1] 4) as (r & E & _ & H); [by_decide..|].
  apply (H [1; 3; 6; 1; 5] 5); [by_decide..|].
  assert (C : netsnmp_view_subtree_check demo_views [97] [1; 3; 6; 1] 4 = Some VACM_SUCCESS) by (vm_compute; reflexivity).
  congruence.
Defined.
