(* ===== verification/VacmTables.v ===== *)
(** The tables as stateful objects: every operation keeps each list well formed
    and in order, what is created is found and what is destroyed is gone. *)
From Stdlib Require Import ZArith Lia.
From stdpp Require Import sets.
From S2P Require Import Prelude Asn1Defs Oid LList Vacm VacmView.

(** * Tables in general *)

(** The interface of an ordered table: what an entry satisfies, its key and the
    order of keys. *)
Class Table (E K : Type) : Type := {
  t_wf : E -> Prop;
  t_key : E -> K;
  t_cmp : K -> K -> Z;
  t_order :: KeyOrder t_cmp
}.

Section table.
Context {E K : Type} {T : Table E K}.

Definition chain_ok (l : chain E) : Prop :=
  Forall (fun x => t_wf x.2) l /\ ordered t_key t_cmp l /\ NoDup l.*1.

#[export] Instance chain_ok_dec l : (forall e, Decision (t_wf e)) -> Decision (chain_ok l).
Proof. intros. unfold chain_ok. apply _. Defined.

(** [stop] is the test of an insertion of [vp]. *)
Definition stops (stop : E -> option bool) (vp : E) : Prop :=
  forall x, t_wf x -> stop x = Some (0 <? t_cmp (t_key x) (t_key vp)).

Lemma chain_ok_nil : chain_ok [].
Proof. split_and!; [done| |constructor]. intros i j x y _ Hi. done. Qed.

Lemma chain_ok_insert stop a vp l :
  chain_ok l -> t_wf vp -> a ∉ l.*1 -> stops stop vp ->
  exists l1 l2, l = l1 ++ l2 /\ insert_before stop (a, vp) l = Some (l1 ++ (a, vp) :: l2) /\
    chain_ok (l1 ++ (a, vp) :: l2).
Proof.
  intros (Hw & Ho & Hd) Hv Ha Hs.
  destruct (insert_before_ordered t_key t_cmp stop (a, vp) l) as (l1 & l2 & -> & E1 & E2); [|done|].
  { intros x Hx. apply Hs. eapply Forall_forall in Hw; [exact Hw|by apply list_elem_of_In]. }
  exists l1, l2. split_and!; [done|done|]. split_and!; [|done|].
  - apply Forall_app in Hw as [? ?]. apply Forall_app. split; [done|by constructor].
  - rewrite fmap_app in *. simpl. rewrite <- Permutation_middle. by apply list.NoDup_cons.
Qed.

Lemma unlink_loop_sub (matches : E -> option bool) last l l' :
  unlink_loop matches last l = Some l' -> l' = l \/ exists l1 x l2, l = l1 ++ x :: l2 /\ l' = l1 ++ l2.
Proof.
  revert last l'. induction l as [|x l IH]; intros last l'; simpl; [intros [= <-]; by left|].
  destruct (matches x.2) as [[|]|]; simpl; [|..|done].
  - destruct last; intros [= <-]; [right; by exists [], x, l|by left].
  - destruct (unlink_loop matches true l) as [m|] eqn:U; [|done]. intros [= <-].
    destruct (IH true m U) as [->|(l1 & y & l2 & -> & ->)]; [by left|right]. by exists (x :: l1), y, l2.
Qed.

Lemma unlink_sub (matches : E -> option bool) l l' :
  unlink matches l = Some l' -> l' = l \/ exists l1 x l2, l = l1 ++ x :: l2 /\ l' = l1 ++ l2.
Proof.
  destruct l as [|x l]; [apply unlink_loop_sub|]. unfold unlink.
  destruct (matches x.2) as [[|]|]; obind; [|apply unlink_loop_sub|done].
  intros [= <-]. right. by exists [], x, l.
Qed.

Lemma chain_ok_delete l1 x l2 : chain_ok (l1 ++ x :: l2) -> chain_ok (l1 ++ l2).
Proof.
  intros (Hw & Ho & Hd). split_and!.
  - apply Forall_app in Hw as [? [_ ?]%Forall_cons_1]. by apply Forall_app.
  - apply ordered_app in Ho as (H1 & H2 & H3). apply ordered_app.
    apply ordered_cons in H2 as [_ H2]. split_and!; [done|done|set_solver].
  - rewrite fmap_app in *. simpl in Hd. rewrite <- Permutation_middle in Hd. by apply list.NoDup_cons in Hd as [_ ?].
Qed.

Lemma unlink_total matches l :
  chain_ok l -> (forall x, t_wf x -> is_Some (matches x)) -> is_Some (unlink matches l).
Proof.
  intros (Hw & _) Hm. assert (L : forall last, is_Some (unlink_loop matches last l)).
  { induction Hw as [|x l Hx Hw IH]; intros last; simpl; [by eexists|].
    destruct (Hm x.2 Hx) as [[|] ->]; simpl; [destruct last; by eexists|].
    destruct (IH true) as [m ->]. by eexists. }
  destruct Hw as [|x l Hx Hw]; [apply L|]. unfold unlink.
  destruct (Hm x.2 Hx) as [[|] ->]; obind; [by eexists|apply L].
Qed.

Lemma chain_ok_unlink matches l :
  chain_ok l -> (forall x, t_wf x -> is_Some (matches x)) ->
  exists l', unlink matches l = Some l' /\ chain_ok l'.
Proof.
  intros Hl Hm. destruct (unlink_total matches l Hl Hm) as [l' U]. exists l'. split; [done|].
  destruct (unlink_sub _ _ _ U) as [->|(l1 & x & l2 & -> & ->)]; [done|by eapply chain_ok_delete].
Qed.

(** A caller fills in the members that are not part of the key. *)
Lemma chain_ok_update l1 a e e' l2 :
  chain_ok (l1 ++ (a, e) :: l2) -> t_wf e' -> t_key e' = t_key e -> chain_ok (l1 ++ (a, e') :: l2).
Proof.
  intros (Hw & Ho & Hd) He Hk. split_and!.
  - apply Forall_app in Hw as [? [_ ?]%Forall_cons_1]. apply Forall_app. split; [done|by constructor].
  - apply ordered_app in Ho as (H1 & [H2 H2']%ordered_cons & H3). apply ordered_app. split_and!; [done| |].
    + apply ordered_cons. split; [|done]. intros y Hy. simpl. rewrite Hk. by apply (H2 y).
    + intros x y Hx [->|Hy]%elem_of_cons; [|apply H3; set_solver].
      simpl. rewrite Hk. apply (H3 x (a, e)); set_solver.
  - rewrite fmap_app in *. done.
Qed.

(** An entry created where no equal one exists is the one a search for it finds. *)
Lemma unlink_inserted matches stop a vp l :
  chain_ok l -> t_wf vp -> a ∉ l.*1 -> stops stop vp -> matches vp = Some true ->
  (forall x, x ∈ l -> matches x.2 = Some false) ->
  exists l', insert_before stop (a, vp) l = Some l' /\ unlink matches l' = Some l.
Proof.
  intros Hl Hv Ha Hs Hm Hf. destruct (chain_ok_insert stop a vp l) as (l1 & l2 & -> & -> & _); [done..|].
  eexists. split; [done|]. apply (unlink_first matches l1 (a, vp) l2); [set_solver|done].
Qed.
End table.

(** * The three tables *)

Definition view_key (e : vacm_viewEntry) : list Z * list Z :=
  (name_key (viewName e), oid_of (viewSubtree e) (viewSubtreeLen e)).

#[export] Instance view_table : Table vacm_viewEntry (list Z * list Z) :=
  {| t_wf := view_wf; t_key := view_key; t_cmp := prod_cmp lex_sign lex_sign |}.

(** An array that holds a C string. *)
Definition cstr_ok (a : list Z) : Prop :=
  Forall is_byte a /\ 0 ∈ a /\ Z.of_nat (length a) = VACMSTRINGLEN.

#[export] Instance cstr_ok_dec a : Decision (cstr_ok a).
Proof. unfold cstr_ok, is_byte. apply _. Defined.

Definition group_wf (e : vacm_groupEntry) : Prop := keeps_name (g_securityName e) /\ cstr_ok (g_groupName e).

#[export] Instance group_wf_dec e : Decision (group_wf e).
Proof. unfold group_wf. apply _. Defined.

Definition group_key (e : vacm_groupEntry) : Z * list Z := (g_securityModel e, name_key (g_securityName e)).

#[export] Instance group_table : Table vacm_groupEntry (Z * list Z) :=
  {| t_wf := group_wf; t_key := group_key; t_cmp := prod_cmp Z_cmp lex_sign |}.

Definition access_key (e : vacm_accessEntry) : list Z * (list Z * (Z * Z)) :=
  (name_key (a_groupName e), (name_key (a_contextPrefix e), (a_securityModel e, a_securityLevel e))).

Definition access_wf (e : vacm_accessEntry) : Prop :=
  keeps_name (a_groupName e) /\ keeps_name (a_contextPrefix e) /\
  Z.of_nat (length (a_views e)) = VACM_MAX_VIEWS /\ Forall cstr_ok (a_views e).

#[export] Instance access_wf_dec e : Decision (access_wf e).
Proof. unfold access_wf. apply _. Defined.

#[export] Instance access_table : Table vacm_accessEntry (list Z * (list Z * (Z * Z))) :=
  {| t_wf := access_wf; t_key := access_key;
     t_cmp := prod_cmp lex_sign (prod_cmp lex_sign (prod_cmp Z_cmp Z_cmp)) |}.

(** ** Views *)

Lemma view_stop_spec vp :
  view_wf vp -> stops (view_stop (strlen (name_of (viewName vp))) vp) vp.
Proof.
  intros Hv x Hx. cbn in Hx. unfold view_stop.
  pose proof Hv as ((Ev & Nv) & V1 & V2 & _ & V3 & _). pose proof Hx as ((Ex & Nx) & X1 & X2 & _ & X3 & _).
  unfold MAX_OID_LEN in *. rewrite Ex at 1. rewrite Ev at 1. rewrite memcmp_names by auto. obind.
  rewrite snmp_oid_compare_spec by (split_and!; (done || lia)). obind. f_equal.
  cbn [t_cmp t_key view_table]. unfold prod_cmp, view_key, name_key. cbn [fst snd].
  destruct (Z.eqb_spec (lex_sign (strlen (name_of (viewName x)) :: name_of (viewName x))
                                 (strlen (name_of (viewName vp)) :: name_of (viewName vp))) 0) as [->|]; [|done].
  cbn [andb]. by rewrite orb_false_r.
Qed.

(** The entry of a new view. *)
Definition fresh_view (name o : list Z) : vacm_viewEntry :=
  mkview (name_array name) (Z.of_nat (length o) :: o ++ replicate (127 - length o) 0)
    (Z.of_nat (length o) + 1) (zeros VACMSTRINGLEN) 0 0 0 0 0.

Lemma new_view_spec name o olen :
  vname name -> oid_ok o olen -> olen < MAX_OID_LEN -> new_view name o olen = Some (fresh_view name (oid_of o olen)).
Proof.
  intros Hn Ho Hl. pose proof (oid_of_length o olen Ho) as E. destruct Ho as (Ho & _). unfold MAX_OID_LEN in *.
  unfold new_view. rewrite prefixed_spec by done. obind. rewrite peek_n_take by lia. fold (oid_of o olen).
  pose proof (store_counted 128 olen (oid_of o olen) ltac:(lia) ltac:(lia)) as S. unfold MAX_OID_LEN.
  destruct (poke (zeros 128) 0 olen) as [arr|]; [|done]. obind. cbn [mbind option_bind] in S. rewrite S. obind.
  unfold fresh_view. rewrite E, wrap_small by lia. reflexivity.
Qed.

Lemma fresh_view_sub name o : vsub (fresh_view name o) = o.
Proof.
  unfold vsub, fresh_view, oid_of. cbn [viewSubtree viewSubtreeLen drop]. rewrite drop_0.
  apply take_app_length'. lia.
Qed.

Lemma fresh_view_wf name o :
  vname name -> Z.of_nat (length o) < MAX_OID_LEN -> Forall (fun x => 0 <= x < 2 ^ 64) o ->
  view_wf (fresh_view name o).
Proof.
  intros Hn Hl Ho. unfold MAX_OID_LEN in *. unfold view_wf, fresh_view, MAX_OID_LEN.
  cbn [viewName viewSubtree viewSubtreeLen viewMask viewMaskLen]. split_and!.
  - by apply keeps_name_array.
  - lia.
  - lia.
  - simpl. rewrite length_app, length_replicate. lia.
  - change (peek (?x :: _) 0) with (Some x). f_equal. lia.
  - constructor; [lia|]. apply Forall_app. split; [done|]. apply Forall_replicate. lia.
  - lia.
  - rewrite length_zeros; unfold VACMSTRINGLEN; lia.
Qed.

Lemma view_is_spec name o olen e :
  Forall (fun c => 0 < c < 256) name -> oid_ok o olen -> view_wf e ->
  view_is name o olen e =
  Some (bool_decide (name_of (viewName e) = name /\ oid_of (viewSubtree e) (viewSubtreeLen e) = oid_of o olen)).
Proof.
  intros Hn Ho He. pose proof He as ((E & Nv) & V1 & V2 & _ & V3 & _). unfold MAX_OID_LEN in *.
  assert (Hv : oid_ok (viewSubtree e) (viewSubtreeLen e)) by (split_and!; (done || lia)).
  unfold view_is. destruct (strcmp_names (name_of (viewName e)) name Nv Hn) as (c & Hc & Hiff).
  rewrite E at 1. rewrite Hc. obind.
  destruct (Z.eqb_spec c 0) as [->|Hne]; [|rewrite bool_decide_false; [done|tauto]].
  destruct (Z.eqb_spec (viewSubtreeLen e) olen) as [El|Hne].
  2: { rewrite bool_decide_false; [done|]. intros [_ Eo]. apply Hne.
       rewrite <- (oid_of_length _ _ Hv), <- (oid_of_length _ _ Ho). by rewrite Eo. }
  subst olen. pose proof (netsnmp_oid_is_subtree_spec _ _ _ _ Hv Ho) as S. unfold netsnmp_oid_is_subtree in S.
  rewrite Z.ltb_irrefl in S. unfold sizeof_oid in *.
  destruct (memcmp _ _ _) as [d|]; [|done]. obind. cbn [mbind option_bind] in S. f_equal.
  apply Bool.eq_iff_eq_true. rewrite bool_decide_eq_true. destruct (d =? 0); simpl in S.
  - split; [intros _|done]. split; [tauto|]. case_decide as Hp; [|done].
    apply prefix_length_eq; [done|]. pose proof (oid_of_length _ _ Hv). pose proof (oid_of_length _ _ Ho). lia.
  - split; [done|]. intros [_ Eo]. rewrite Eo, decide_True in S; done.
Qed.

(** ** Groups *)

Lemma group_stop_spec gp :
  keeps_name (g_securityName gp) ->
  stops (group_stop (strlen (name_of (g_securityName gp))) (g_securityModel gp) gp) gp.
Proof.
  intros [Eg Ng] x [[Ex Nx] _]. unfold group_stop. rewrite Ex at 1. rewrite Eg at 1.
  rewrite memcmp_names by auto. obind. cbn [t_cmp t_key group_table]. unfold prod_cmp, group_key, Z_cmp, name_key.
  cbn [fst snd].
  destruct (Z.ltb_spec (g_securityModel gp) (g_securityModel x)).
  { by rewrite Z.sgn_pos by lia. }
  destruct (Z.eqb_spec (g_securityModel x) (g_securityModel gp)) as [E|E].
  - by replace (g_securityModel x - g_securityModel gp) with 0 by lia.
  - by rewrite Z.sgn_neg by lia.
Qed.

Lemma group_is_spec model name e :
  Forall (fun c => 0 < c < 256) name -> keeps_name (g_securityName e) ->
  group_is model name e = Some (bool_decide (g_securityModel e = model /\ name_of (g_securityName e) = name)).
Proof.
  intros Hn [E Ne]. unfold group_is. destruct (Z.eqb_spec (g_securityModel e) model).
  - rewrite E at 1. rewrite strcmp_same by done. f_equal. apply bool_decide_ext. tauto.
  - rewrite bool_decide_false; [done|tauto].
Qed.

(** The entry maps the security name under the model of the message or any. *)
Definition group_applies (model : Z) (name : list Z) (e : vacm_groupEntry) : Prop :=
  (g_securityModel e = model \/ g_securityModel e = SNMP_SEC_MODEL_ANY) /\ name_of (g_securityName e) = name.

#[export] Instance group_applies_dec model name e : Decision (group_applies model name e).
Proof. unfold group_applies. apply _. Defined.

Lemma group_matches_spec model name e :
  vname name -> keeps_name (g_securityName e) ->
  group_matches model (name_array name) (strlen name) e = Some (bool_decide (group_applies model name e)).
Proof.
  intros Hn [E Ne]. unfold group_matches, group_applies.
  destruct ((model =? g_securityModel e) || (g_securityModel e =? SNMP_SEC_MODEL_ANY)) eqn:M; bool_prop.
  - rewrite E at 1. rewrite memcmp_same by auto. f_equal. apply bool_decide_ext. split; [|tauto]. intros ->.
    split; [|done]. destruct M; auto.
  - rewrite bool_decide_false; [done|]. intros [[?|?] _]; lia.
Qed.

(** ** Access rights *)

(** [Some b = Some (x <? y)] for a constant [b]. *)
Ltac ltb_const := f_equal; symmetry; first [apply Z.ltb_lt; lia | apply Z.ltb_ge; lia].

Lemma access_stop_spec vp :
  access_wf vp ->
  stops (access_stop (strlen (name_of (a_groupName vp))) (strlen (name_of (a_contextPrefix vp)))
                     (a_securityModel vp) (a_securityLevel vp) vp) vp.
Proof.
  intros [[Eg Ng] [[Ec Nc] _]] x [[Exg Nxg] [[Exc Nxc] _]]. unfold access_stop.
  pose proof (memcmp_kept _ _ _ (conj Exg Nxg) (conj Eg Ng) (or_intror eq_refl)) as ->. obind.
  pose proof (memcmp_kept _ _ _ (conj Exc Nxc) (conj Ec Nc) (or_intror eq_refl)) as ->. obind.
  cbn [t_cmp t_key access_table]. unfold prod_cmp, access_key, Z_cmp, name_key. cbn [fst snd].
  set (c1 := lex_sign (strlen (name_of (a_groupName x)) :: _) _).
  set (c2 := lex_sign (strlen (name_of (a_contextPrefix x)) :: _) _).
  set (m := a_securityModel x). set (n := a_securityLevel x).
  clearbody c1 c2 m n.
  destruct (Z.ltb_spec 0 c1), (Z.ltb_spec c1 0), (Z.eqb_spec c1 0); try lia; try ltb_const.
  destruct (Z.ltb_spec 0 c2), (Z.ltb_spec c2 0), (Z.eqb_spec c2 0); try lia; try ltb_const.
  destruct (Z.ltb_spec (a_securityModel vp) m), (Z.ltb_spec m (a_securityModel vp)),
    (Z.eqb_spec (Z.sgn (m - a_securityModel vp)) 0); try lia; try ltb_const.
  destruct (Z.ltb_spec (a_securityLevel vp) n); ltb_const.
Qed.

Lemma access_is_spec gname context model level e :
  Forall (fun c => 0 < c < 256) gname -> Forall (fun c => 0 < c < 256) context -> access_wf e ->
  access_is gname context model level e =
  Some (bool_decide (a_securityModel e = model /\ a_securityLevel e = level /\
                     name_of (a_groupName e) = gname /\ name_of (a_contextPrefix e) = context)).
Proof.
  intros Hg Hc [[Eg Ng] [[Ec Nc] _]]. unfold access_is.
  destruct (Z.eqb_spec (a_securityModel e) model), (Z.eqb_spec (a_securityLevel e) level); cbn [andb];
    try (rewrite bool_decide_false; [done|tauto]).
  destruct (strcmp_names (name_of (a_groupName e)) gname Ng Hg) as (c & Hcmp & Hiff).
  rewrite Eg at 1. rewrite Hcmp. obind. destruct (Z.eqb_spec c 0).
  - rewrite Ec at 1. rewrite strcmp_same by done. f_equal. apply bool_decide_ext. tauto.
  - rewrite bool_decide_false; [done|tauto].
Qed.

(** The entry grants access to a message of the group, in the context, with the
    security model and at least the security level it asks for. *)
Definition access_applies (gname context : list Z) (model level : Z) (e : vacm_accessEntry) : Prop :=
  (a_securityModel e = model \/ a_securityModel e = SNMP_SEC_MODEL_ANY) /\ a_securityLevel e <= level /\
  name_of (a_groupName e) = gname /\
  (a_contextMatch e = CONTEXT_MATCH_EXACT /\ name_of (a_contextPrefix e) = context \/
   a_contextMatch e = CONTEXT_MATCH_PREFIX /\ name_of (a_contextPrefix e) `prefix_of` context).

#[export] Instance access_applies_dec gname context model level e :
  Decision (access_applies gname context model level e).
Proof. unfold access_applies. apply _. Defined.

Lemma char_at_name s : vname s -> char_at (name_array s) 0 = Some (strlen s).
Proof.
  intros [H _]. unfold char_at, name_array, VACM_MAX_STRING, strlen in *. change (peek (?x :: _) 0) with (Some x).
  obind. by rewrite swrap_small by lia.
Qed.

(** [memcmp(vp->contextPrefix + 1, context + 1, vp->contextPrefix[0]) == 0] *)
Lemma memcmp_prefix s t :
  vname s -> vname t -> strlen s <= strlen t ->
  (c ← memcmp (drop 1 (name_array s)) (drop 1 (name_array t)) (u64 (strlen s)); Some (c =? 0)) =
  Some (bool_decide (s `prefix_of` t)).
Proof.
  intros [Hs _] [Ht _] Hl. pose proof (length_name_array s Hs). pose proof (length_name_array t Ht).
  unfold strlen, VACM_MAX_STRING in *. unfold memcmp. rewrite wrap_small by lia.
  rewrite !peek_n_take by (rewrite length_drop; lia). obind. f_equal. unfold name_array. cbn [drop]. rewrite !drop_0.
  rewrite Nat2Z.id, take_app_length, take_app_le by lia.
  apply Bool.eq_iff_eq_true. rewrite Z.eqb_eq, lex_sign_eq, bool_decide_eq_true. split.
  - intros E. exists (drop (length s) t). by rewrite E at 1; rewrite take_drop.
  - intros [k ->]. by rewrite take_app_length.
Qed.

(** The test of the context. *)
Lemma context_test_spec kind p context :
  vname p -> vname context ->
  (exact ← and_then ((kind =? CONTEXT_MATCH_EXACT) && (strlen context =? strlen p)) (Some (bool_decide (p = context)));
   if (exact : bool) then Some true
   else and_then ((kind =? CONTEXT_MATCH_PREFIX) && (strlen p <=? strlen context))
          (c ← memcmp (drop 1 (name_array p)) (drop 1 (name_array context)) (u64 (strlen p)); Some (c =? 0))) =
  Some (bool_decide (kind = CONTEXT_MATCH_EXACT /\ p = context \/ kind = CONTEXT_MATCH_PREFIX /\ p `prefix_of` context)).
Proof.
  intros Hp Hc. destruct (Z.eqb_spec kind CONTEXT_MATCH_EXACT) as [->|Me]; cbn [andb and_then].
  - change (CONTEXT_MATCH_EXACT =? CONTEXT_MATCH_PREFIX) with false. cbn [andb and_then].
    destruct (Z.eqb_spec (strlen context) (strlen p)) as [L|L]; cbn [and_then]; obind.
    + case_bool_decide; f_equal; symmetry; [apply bool_decide_true|apply bool_decide_false]; [tauto|].
      intros [[_ ?]|[? _]]; done.
    + rewrite bool_decide_false; [done|]. intros [[_ ?]|[? _]]; (done || congruence).
  - obind. destruct (Z.eqb_spec kind CONTEXT_MATCH_PREFIX) as [->|Mp]; cbn [andb and_then].
    2: { rewrite bool_decide_false; [done|]. tauto. }
    destruct (Z.leb_spec (strlen p) (strlen context)); cbn [and_then].
    + rewrite memcmp_prefix by done. f_equal. apply bool_decide_ext. split; [tauto|]. intros [[? _]|[_ ?]]; done.
    + rewrite bool_decide_false; [done|]. intros [[? _]|[_ Hpre]]; [done|].
      apply prefix_length in Hpre. unfold strlen in *. lia.
Qed.

Lemma access_test_spec g p gname context model level e :
  a_groupName e = name_array g -> a_contextPrefix e = name_array p ->
  vname g -> vname p -> vname gname -> vname context ->
  access_matches (name_array gname) (name_array context) (strlen gname) (strlen context) model level e =
  Some (bool_decide ((a_securityModel e = model \/ a_securityModel e = SNMP_SEC_MODEL_ANY) /\
    a_securityLevel e <= level /\ g = gname /\
    (a_contextMatch e = CONTEXT_MATCH_EXACT /\ p = context \/ a_contextMatch e = CONTEXT_MATCH_PREFIX /\ p `prefix_of` context))).
Proof.
  intros Eg Ec Ng Np Hg Hc. unfold access_matches.
  destruct (((model =? a_securityModel e) || (a_securityModel e =? SNMP_SEC_MODEL_ANY)) && (a_securityLevel e <=? level)) eqn:M;
    bool_prop; [|rewrite bool_decide_false; [done|lia]].
  assert (Hm : a_securityModel e = model \/ a_securityModel e = SNMP_SEC_MODEL_ANY) by (destruct M as [[?|?] _]; auto).
  destruct M as [_ Hl]. rewrite Eg, memcmp_names by auto. obind. pose proof (lex_sign_eq (strlen g :: g) (strlen gname :: gname)) as G.
  destruct (Z.eqb_spec (lex_sign (strlen g :: g) (strlen gname :: gname)) 0) as [Z0|Z0].
  2: { rewrite bool_decide_false; [done|]. intros (_ & _ & -> & _). apply Z0, G. done. }
  apply G in Z0. injection Z0 as _ ->. rewrite Ec, char_at_name by done. obind. rewrite memcmp_same by auto.
  rewrite (context_test_spec (a_contextMatch e)) by done.
  f_equal. apply bool_decide_ext. tauto.
Qed.

Lemma access_matches_spec gname context model level e :
  vname gname -> vname context -> access_wf e ->
  access_matches (name_array gname) (name_array context) (strlen gname) (strlen context) model level e =
  Some (bool_decide (access_applies gname context model level e)).
Proof.
  intros Hg Hc [[Eg Ng] [[Ec Nc] _]]. rewrite (access_test_spec _ _ _ _ _ _ _ Eg Ec) by done. done.
Qed.
