(* ===== verification/VacmState.v ===== *)
(** The state of [vacm.c] as a transition system: from the empty tables on, no
    sequence of its steps leaves the well-formed states or touches memory it
    should not, and the searches, scans and deletions do what they promise; where
    operations go wrong outside these steps. *)
From Stdlib Require Import ZArith Lia.
From stdpp Require Import sets.
From S2P Require Import Prelude Asn1Defs Oid LList Vacm VacmView VacmTables.

(** * The invariant *)

Definition vacm_ok (st : vacm) : Prop :=
  chain_ok (viewList st) /\ chain_ok (accessList st) /\ chain_ok (groupList st).

#[export] Instance vacm_ok_dec st : Decision (vacm_ok st).
Proof.
  unfold vacm_ok. apply and_dec; [|apply and_dec]; apply chain_ok_dec; intros e;
    [apply view_wf_dec|apply access_wf_dec|apply group_wf_dec].
Defined.

Definition vacm_init : vacm := mkvacm [] None [] None [] None.

(** A [const char *] argument: characters that are not zero, fewer than [INT_MAX]. *)
Definition cstring (s : list Z) : Prop := Forall (fun c => 0 < c < 256) s /\ strlen s < 2 ^ 31.

#[export] Instance cstring_dec s : Decision (cstring s).
Proof. unfold cstring. apply _. Defined.

Lemma cstring_vname s : cstring s -> bad_name s = false -> vname s.
Proof.
  intros [Hf Hl] Hb. split; [|done]. unfold bad_name, strlen in *. rewrite swrap_small in Hb by lia.
  apply orb_false_iff in Hb as [_ Hb%Z.ltb_ge]. done.
Qed.

(** [calloc] gives [NULL] or the address of an object that is not in use. *)
Definition fresh {E} (c : option Z) (l : chain E) : Prop := forall a, c = Some a -> a ∉ l.*1.

(** The scan pointer is [NULL] or leads to an entry of the table. *)
Definition scan_valid {E} (p : option Z) (l : chain E) : Prop := forall a, p = Some a -> a ∈ l.*1.

(** What a caller may do with the tables.  The [fill] steps are the stores of a
    caller through the pointer to an entry: any member but those of the key (the
    stores of [_vacm_parse_config_access_common] may change the key of the entry
    they find, see [config_access_rekeys], and are a step only where they do not).
    A view is created for a subtree that fits into its entry, and a scan goes on
    while its pointer leads to an entry; [vacm_invariant] says what happens
    otherwise. *)
Inductive vacm_step (st : vacm) : option vacm -> Prop :=
| step_create_view c1 c2 name o olen :
    fresh c1 (viewList st) -> cstring name -> oid_ok o olen -> olen < MAX_OID_LEN ->
    vacm_step st (fst <$> vacm_createViewEntry c1 c2 st name o olen)
| step_destroy_view name o olen :
    cstring name -> oid_ok o olen -> vacm_step st (vacm_destroyViewEntry st name o olen)
| step_clear_views : vacm_step st (Some (vacm_destroyAllViewEntries st))
| step_fill_view l1 a e e' l2 :
    viewList st = l1 ++ (a, e) :: l2 -> view_wf e' -> view_key e' = view_key e ->
    vacm_step st (Some (mkvacm (l1 ++ (a, e') :: l2) (viewScanPtr st) (accessList st) (accessScanPtr st)
                               (groupList st) (groupScanPtr st)))
| step_create_group c1 c2 model name :
    fresh c1 (groupList st) -> cstring name ->
    vacm_step st (fst <$> vacm_createGroupEntry c1 c2 st model name)
| step_destroy_group model name : cstring name -> vacm_step st (vacm_destroyGroupEntry st model name)
| step_clear_groups : vacm_step st (Some (vacm_destroyAllGroupEntries st))
| step_fill_group l1 a e e' l2 :
    groupList st = l1 ++ (a, e) :: l2 -> group_wf e' -> group_key e' = group_key e ->
    vacm_step st (Some (mkvacm (viewList st) (viewScanPtr st) (accessList st) (accessScanPtr st)
                               (l1 ++ (a, e') :: l2) (groupScanPtr st)))
| step_create_access c1 c2 gname context model level :
    fresh c1 (accessList st) -> cstring gname -> cstring context ->
    vacm_step st (fst <$> vacm_createAccessEntry c1 c2 st gname context model level)
| step_destroy_access gname context model level :
    cstring gname -> cstring context -> vacm_step st (vacm_destroyAccessEntry st gname context model level)
| step_clear_access : vacm_step st (Some (vacm_destroyAllAccessEntries st))
| step_fill_access l1 a e e' l2 :
    accessList st = l1 ++ (a, e) :: l2 -> access_wf e' -> access_key e' = access_key e ->
    vacm_step st (Some (mkvacm (viewList st) (viewScanPtr st) (l1 ++ (a, e') :: l2) (accessScanPtr st)
                               (groupList st) (groupScanPtr st)))
| step_scan_views : vacm_step st (Some (vacm_scanViewInit st))
| step_scan_groups : vacm_step st (Some (vacm_scanGroupInit st))
| step_scan_access : vacm_step st (Some (vacm_scanAccessInit st))
| step_next_view : scan_valid (viewScanPtr st) (viewList st) -> vacm_step st (fst <$> vacm_scanViewNext st)
| step_next_group : scan_valid (groupScanPtr st) (groupList st) -> vacm_step st (fst <$> vacm_scanGroupNext st)
| step_next_access : scan_valid (accessScanPtr st) (accessList st) -> vacm_step st (fst <$> vacm_scanAccessNext st).

Inductive reachable : vacm -> Prop :=
| reach_init : reachable vacm_init
| reach_step st st' : reachable st -> vacm_step st (Some st') -> reachable st'.

(** ** Each operation *)

Lemma netsnmp_view_create_spec a c2 l name o olen :
  chain_ok l -> vname name -> oid_ok o olen -> olen < MAX_OID_LEN -> a ∉ l.*1 ->
  exists l1 l2, l = l1 ++ l2 /\
    netsnmp_view_create (Some a) (Some c2) l name o olen =
      Some (l1 ++ (a, fresh_view name (oid_of o olen)) :: l2, Some a) /\
    chain_ok (l1 ++ (a, fresh_view name (oid_of o olen)) :: l2).
Proof.
  intros Hl Hn Ho Hm Ha. pose proof (oid_of_length o olen Ho) as Hlen.
  assert (Hw : view_wf (fresh_view name (oid_of o olen))).
  { apply fresh_view_wf; [done|lia|]. apply Forall_take. apply Ho. }
  pose proof (view_stop_spec _ Hw) as Hs. cbn [viewName fresh_view] in Hs. rewrite name_of_array in Hs.
  destruct (chain_ok_insert _ a _ l Hl Hw Ha Hs) as (l1 & l2 & -> & E & Hok).
  exists l1, l2. split_and!; [done| |done].
  unfold netsnmp_view_create. rewrite bad_name_ok, new_view_spec by done. obind. rewrite E. done.
Qed.

Lemma create_view_ok c1 c2 l name o olen :
  chain_ok l -> fresh c1 l -> cstring name -> oid_ok o olen -> olen < MAX_OID_LEN ->
  exists l' r, netsnmp_view_create c1 c2 l name o olen = Some (l', r) /\ chain_ok l'.
Proof.
  intros Hl Hf Hn Ho Hm. destruct (bad_name name) eqn:B.
  { exists l, None. unfold netsnmp_view_create. by rewrite B. }
  destruct c1 as [a|], c2 as [b|]; try (exists l, None; unfold netsnmp_view_create; by rewrite B).
  destruct (netsnmp_view_create_spec a b l name o olen) as (l1 & l2 & _ & E & Hok);
    [done|by apply cstring_vname|done|done|by apply Hf|]. eauto.
Qed.

Definition fresh_group (model : Z) (name : list Z) : vacm_groupEntry :=
  mkgroup model (name_array name) (zeros VACMSTRINGLEN) 0 0 0.

Lemma zeros_cstr : cstr_ok (zeros VACMSTRINGLEN).
Proof. by_decide. Qed.

Lemma create_group_ok c1 c2 st model name :
  chain_ok (groupList st) -> fresh c1 (groupList st) -> cstring name ->
  exists l r, vacm_createGroupEntry c1 c2 st model name =
    Some (mkvacm (viewList st) (viewScanPtr st) (accessList st) (accessScanPtr st) l (groupScanPtr st), r) /\
    chain_ok l /\
    forall a, c1 = Some a -> c2 <> None -> vname name ->
      r = Some a /\ exists l1 l2, groupList st = l1 ++ l2 /\ l = l1 ++ (a, fresh_group model name) :: l2.
Proof.
  intros Hl Hf Hn. unfold vacm_createGroupEntry. destruct (bad_name name) eqn:B.
  { exists (groupList st), None. split_and!; [by destruct st|done|]. intros a _ _ Hv. by rewrite bad_name_ok in B. }
  pose proof (cstring_vname name Hn B) as Hv.
  destruct c1 as [a|]; [|exists (groupList st), None; split_and!; [by destruct st|done|done]].
  destruct c2 as [b|]; [|exists (groupList st), None; split_and!; [by destruct st|done|done]].
  rewrite prefixed_spec by done. obind. fold (fresh_group model name).
  assert (Hw : group_wf (fresh_group model name)).
  { split; [by apply keeps_name_array|apply zeros_cstr]. }
  pose proof (group_stop_spec _ (proj1 Hw)) as Hs. cbn [g_securityName g_securityModel fresh_group] in Hs.
  rewrite name_of_array in Hs.
  destruct (chain_ok_insert _ a _ (groupList st) Hl Hw ltac:(by apply Hf) Hs) as (l1 & l2 & E1 & E & Hok).
  rewrite E. obind. eexists _, _. split_and!; [done|done|]. intros a' [= <-] _ _. eauto.
Qed.

Definition fresh_access (gname context : list Z) (model level : Z) : vacm_accessEntry :=
  mkaccess (name_array gname) (name_array context) model level 0
    (replicate (Z.to_nat VACM_MAX_VIEWS) (zeros VACMSTRINGLEN)) 0 0 0.

Lemma fresh_access_wf gname context model level :
  vname gname -> vname context -> access_wf (fresh_access gname context model level).
Proof.
  intros Hg Hc. split_and!; [by apply keeps_name_array|by apply keeps_name_array|done|].
  apply Forall_replicate. apply zeros_cstr.
Qed.

Lemma create_access_ok c1 c2 st gname context model level :
  chain_ok (accessList st) -> fresh c1 (accessList st) -> cstring gname -> cstring context ->
  exists l r, vacm_createAccessEntry c1 c2 st gname context model level =
    Some (mkvacm (viewList st) (viewScanPtr st) l (accessScanPtr st) (groupList st) (groupScanPtr st), r) /\
    chain_ok l /\
    forall a, c1 = Some a -> c2 <> None -> vname gname -> vname context ->
      r = Some a /\ exists l1 l2, accessList st = l1 ++ l2 /\ l = l1 ++ (a, fresh_access gname context model level) :: l2.
Proof.
  intros Hl Hf Hg Hc. unfold vacm_createAccessEntry.
  destruct (bad_name gname) eqn:Bg.
  { exists (accessList st), None. split_and!; [by destruct st|done|]. intros a _ _ Hv. by rewrite bad_name_ok in Bg. }
  destruct (bad_name context) eqn:Bc.
  { exists (accessList st), None. split_and!; [by destruct st|done|]. intros a _ _ _ Hv. by rewrite bad_name_ok in Bc. }
  pose proof (cstring_vname _ Hg Bg) as Vg. pose proof (cstring_vname _ Hc Bc) as Vc.
  destruct c1 as [a|]; [|exists (accessList st), None; split_and!; [by destruct st|done|done]].
  destruct c2 as [b|]; [|exists (accessList st), None; split_and!; [by destruct st|done|done]].
  rewrite !prefixed_spec by done. obind. fold (fresh_access gname context model level).
  pose proof (fresh_access_wf gname context model level Vg Vc) as Hw.
  pose proof (access_stop_spec _ Hw) as Hs. cbn [a_groupName a_contextPrefix a_securityModel a_securityLevel fresh_access] in Hs.
  rewrite !name_of_array in Hs.
  destruct (chain_ok_insert _ a _ (accessList st) Hl Hw ltac:(by apply Hf) Hs) as (l1 & l2 & E1 & E & Hok).
  rewrite E. obind. eexists _, _. split_and!; [done|done|]. intros a' [= <-] _ _ _. eauto.
Qed.

Lemma destroy_view_ok st name o olen :
  chain_ok (viewList st) -> cstring name -> oid_ok o olen ->
  exists l, netsnmp_view_destroy (viewList st) name o olen = Some l /\ chain_ok l.
Proof.
  intros Hl [Hn _] Ho. apply chain_ok_unlink; [done|]. intros x Hx. rewrite view_is_spec by done. by eexists.
Qed.

(** ** The transition system *)

(** A scan goes on exactly when its pointer leads to an entry. *)
Lemma scan_next_valid {E} p (l : chain E) : (scan_next p l = None <-> ~ scan_valid p l) /\ (scan_valid p l -> is_Some (scan_next p l)).
Proof.
  assert (Hs : scan_valid p l -> is_Some (scan_next p l)).
  { intros Hv. destruct p as [a|]; [|by eexists]. specialize (Hv a eq_refl). cbn.
    assert (is_Some (follow a l)) as [x ->]; [|by eexists]. clear -Hv. induction l as [|y l IH]; [by apply not_elem_of_nil in Hv|].
    cbn in *. destruct (Z.eqb_spec y.1 a); [by eexists|]. apply elem_of_cons in Hv as [->|Hv]; [done|by apply IH]. }
  split; [|done]. split; [intros Hn Hv; destruct (Hs Hv) as [x Hx]; congruence|].
  intros Hn. destruct p as [a|]; [|destruct Hn; by intros]. cbn. rewrite follow_dangling; [done|]. intros Ha. apply Hn. by intros ? [= <-].
Qed.

Lemma vacm_step_ok st out : vacm_ok st -> vacm_step st out -> exists st', out = Some st' /\ vacm_ok st'.
Proof.
  intros (Hv & Ha & Hg) Hs. destruct Hs.
  - destruct (create_view_ok c1 c2 (viewList st) name o olen) as (l & r & E & Hl); [done..|].
    unfold vacm_createViewEntry. rewrite E. simpl. eexists. split; [done|]. by split_and!.
  - destruct (destroy_view_ok st name o olen) as (l & E & Hl); [done..|].
    unfold vacm_destroyViewEntry. rewrite E. simpl. eexists. split; [done|]. by split_and!.
  - eexists. split; [done|]. unfold vacm_destroyAllViewEntries, netsnmp_view_clear. rewrite clear_nil.
    split_and!; [apply chain_ok_nil|done|done].
  - eexists. split; [done|]. rewrite H in Hv. split_and!; [by eapply chain_ok_update|done|done].
  - destruct (create_group_ok c1 c2 st model name) as (l & r & -> & Hl & _); [done..|].
    simpl. eexists. split; [done|]. by split_and!.
  - unfold vacm_destroyGroupEntry. destruct (chain_ok_unlink (group_is model name) (groupList st)) as (l & -> & Hl); [done| |].
    + intros x [Hx _]. destruct H as [H _]. rewrite group_is_spec by done. by eexists.
    + simpl. eexists. split; [done|]. by split_and!.
  - eexists. split; [done|]. unfold vacm_destroyAllGroupEntries. rewrite clear_nil.
    split_and!; [done|done|apply chain_ok_nil].
  - eexists. split; [done|]. rewrite H in Hg. split_and!; [done|done|by eapply chain_ok_update].
  - destruct (create_access_ok c1 c2 st gname context model level) as (l & r & -> & Hl & _); [done..|].
    simpl. eexists. split; [done|]. by split_and!.
  - unfold vacm_destroyAccessEntry.
    destruct (chain_ok_unlink (access_is gname context model level) (accessList st)) as (l & -> & Hl); [done| |].
    + intros x Hx. destruct H as [H _], H0 as [H0 _]. rewrite access_is_spec by done. by eexists.
    + simpl. eexists. split; [done|]. by split_and!.
  - eexists. split; [done|]. unfold vacm_destroyAllAccessEntries. rewrite clear_nil.
    split_and!; [done|apply chain_ok_nil|done].
  - eexists. split; [done|]. rewrite H in Ha. split_and!; [done|by eapply chain_ok_update|done].
  - eexists. split; [done|]. by split_and!.
  - eexists. split; [done|]. by split_and!.
  - eexists. split; [done|]. by split_and!.
  - unfold vacm_scanViewNext. destruct (proj2 (scan_next_valid (viewScanPtr st) (viewList st)) ltac:(done)) as [[p r] ->].
    eexists. split; [done|]. by split_and!.
  - unfold vacm_scanGroupNext. destruct (proj2 (scan_next_valid (groupScanPtr st) (groupList st)) ltac:(done)) as [[p r] ->].
    eexists. split; [done|]. by split_and!.
  - unfold vacm_scanAccessNext. destruct (proj2 (scan_next_valid (accessScanPtr st) (accessList st)) ltac:(done)) as [[p r] ->].
    eexists. split; [done|]. by split_and!.
Qed.

Lemma reachable_ok st : reachable st -> vacm_ok st.
Proof.
  induction 1 as [|st st' _ IH Hs]; [split_and!; apply chain_ok_nil|].
  destruct (vacm_step_ok st _ IH Hs) as (st'' & [= <-] & H). done.
Qed.

Lemma chain_ok_wf {E K} {T : Table E K} (l : chain E) x : chain_ok l -> x ∈ l -> t_wf x.2.
Proof. intros (H & _) Hx. eapply Forall_forall in H; [exact H|by apply list_elem_of_In]. Qed.

(** ** Searches *)

Lemma getGroup_spec st model name :
  vacm_ok st -> vname name ->
  exists r, vacm_getGroupEntry st model name = Some r /\
    match r with
    | Some vp => exists l1 l2, groupList st = l1 ++ vp :: l2 /\ group_applies model name vp.2 /\
                   forall x, x ∈ l1 -> ~ group_applies model name x.2
    | None => forall x, x ∈ groupList st -> ~ group_applies model name x.2
    end.
Proof.
  intros (_ & _ & Hg) Hn. unfold vacm_getGroupEntry. rewrite bad_name_ok, prefixed_spec by done. obind.
  assert (Hm : forall x, x ∈ groupList st ->
    group_matches model (name_array name) (strlen name) x.2 = Some (bool_decide (group_applies model name x.2))).
  { intros x Hx. apply group_matches_spec; [done|]. apply (chain_ok_wf (E := vacm_groupEntry) _ _ Hg Hx). }
  destruct (find_first_total (group_matches model (name_array name) (strlen name)) (groupList st)) as [r Hr].
  { intros x Hx. rewrite (Hm x Hx). by eexists. }
  exists r. split; [done|]. apply find_first_spec in Hr. destruct r as [vp|].
  - destruct Hr as (l1 & l2 & E & Hv & H1). exists l1, l2. split_and!; [done| |].
    + rewrite Hm in Hv by (rewrite E; set_solver). injection Hv as Hv. by apply bool_decide_eq_true in Hv.
    + intros x Hx Ha. specialize (H1 x Hx). rewrite Hm in H1 by (rewrite E; set_solver). injection H1 as H1.
      by apply bool_decide_eq_false in H1.
  - intros x Hx Ha. specialize (Hr x Hx). rewrite Hm in Hr by done. injection Hr as Hr.
    by apply bool_decide_eq_false in Hr.
Qed.

Lemma choose_best_cases cur vp :
  (forall c, cur = Some c -> access_wf c.2) -> access_wf vp.2 ->
  exists r, _vacm_choose_best cur vp = Some (Some r) /\ (r = vp \/ cur = Some r).
Proof.
  intros Hc (_ & [Ed Nd] & _). destruct cur as [c|]; [|by eexists; split; [|left]].
  destruct (Hc c eq_refl) as (_ & [Ec Nc] & _). unfold _vacm_choose_best.
  rewrite Ed, Ec, !char_at_name by done. obind. case_match; eexists; split; auto.
Qed.

Lemma access_loop_spec (P : vacm_accessEntry -> Prop) `{!forall e, Decision (P e)} matches best l :
  (forall x, x ∈ l -> access_wf x.2 /\ matches x.2 = Some (bool_decide (P x.2))) ->
  (forall c, best = Some c -> access_wf c.2) ->
  exists r, access_loop matches best l = Some r /\
    match r with
    | Some v => best = Some v \/ (v ∈ l /\ P v.2)
    | None => best = None /\ forall x, x ∈ l -> ~ P x.2
    end.
Proof.
  revert best. induction l as [|x l IH]; intros best Hl Hb.
  { exists best. split; [done|]. destruct best; [by left|]. split; [done|set_solver]. }
  simpl. destruct (Hl x) as [Hw ->]; [by left|]. obind. case_bool_decide as HP; cbv iota.
  - destruct (choose_best_cases best x Hb Hw) as (b & -> & Hcase). obind.
    destruct (IH (Some b)) as (r & -> & Hr); [intros y Hy; apply Hl; by right| |].
    { intros c [= <-]. destruct Hcase as [->|E]; [done|by apply Hb]. }
    exists r. split; [done|]. destruct r as [v|]; [|by destruct Hr].
    destruct Hr as [[= <-]|[? ?]]; [|right; split; [by right|done]].
    destruct Hcase as [->|E]; [right; split; [by left|done]|by left].
  - destruct (IH best) as (r & -> & Hr); [intros y Hy; apply Hl; by right|done|]. exists r. split; [done|].
    destruct r as [v|]; [destruct Hr as [?|[? ?]]; [by left|right; split; [by right|done]]|].
    destruct Hr as [-> Hr]. split; [done|]. intros y [->|Hy]%elem_of_cons; auto.
Qed.

Lemma getAccess_spec st gname context model level :
  vacm_ok st -> vname gname -> vname context ->
  exists r, vacm_getAccessEntry st gname context model level = Some r /\
    match r with
    | Some vp => vp ∈ accessList st /\ access_applies gname context model level vp.2
    | None => forall x, x ∈ accessList st -> ~ access_applies gname context model level x.2
    end.
Proof.
  intros (_ & Ha & _) Hg Hc. unfold vacm_getAccessEntry. rewrite !bad_name_ok, !prefixed_spec by done. obind.
  destruct (access_loop_spec (access_applies gname context model level)
    (access_matches (name_array gname) (name_array context) (strlen gname) (strlen context) model level)
    None (accessList st)) as (r & -> & Hr); [|done|].
  - intros x Hx. pose proof (chain_ok_wf (E := vacm_accessEntry) _ _ Ha Hx) as Hw. split; [done|].
    by apply access_matches_spec.
  - exists r. split; [done|]. destruct r as [v|]; [by destruct Hr|tauto].
Qed.

(** [netsnmp_view_create] copies a subtree of [MAX_OID_LEN] components or
    more past the end of the member it copies it to. *)
Lemma view_create_overflow a b l name o olen :
  vname name -> oid_ok o olen -> MAX_OID_LEN <= olen ->
  netsnmp_view_create (Some a) (Some b) l name o olen = None.
Proof.
  intros Hn Ho Hm. pose proof Ho as (Hl & _). unfold MAX_OID_LEN in *.
  unfold netsnmp_view_create, new_view. rewrite bad_name_ok, prefixed_spec by done. obind.
  unfold MAX_OID_LEN. rewrite poke_patch by (rewrite length_zeros; lia). obind. rewrite peek_n_take by lia. obind.
  unfold poke_n. rewrite (proj2 (Z.leb_gt _ (Z.of_nat (length (patch _ _ _))))); [by rewrite andb_false_r|].
  rewrite length_patch; rewrite ?length_zeros, ?length_take; simpl; lia.
Qed.

Lemma view_create_bounds c1 c2 st name o olen : chain_ok (viewList st) -> fresh c1 (viewList st) -> cstring name -> oid_ok o olen ->
  vacm_createViewEntry c1 c2 st name o olen = None <-> is_Some c1 /\ is_Some c2 /\ bad_name name = false /\ MAX_OID_LEN <= olen.
Proof.
  intros Hl Hf Hn Ho. unfold vacm_createViewEntry. destruct (Z.le_gt_cases MAX_OID_LEN olen) as [Hm|Hm].
  - destruct (bad_name name) eqn:B; [unfold netsnmp_view_create; rewrite B; split; [done|by intros (_ & _ & ? & _)]|].
    destruct c1 as [a|]; [|unfold netsnmp_view_create; rewrite B; split; [done|by intros ([? ?] & _)]].
    destruct c2 as [b|]; [|unfold netsnmp_view_create; rewrite B; split; [done|by intros (_ & [? ?] & _)]].
    rewrite view_create_overflow by (try done; by apply cstring_vname). split; [|done]. intros _. split_and!; [by eexists..|done|done].
  - destruct (create_view_ok c1 c2 (viewList st) name o olen) as (l & r & -> & _); [done..|]. split; [done|]. intros (_ & _ & _ & ?). lia.
Qed.

(** * Properties *)

(** C38: from the empty tables on, every list stays well formed, sorted by its index
    and without sharing, and no operation reads or writes outside its objects,
    through any sequence of the steps of [vacm_step]: creating, destroying
    and clearing entries of the three tables, storing to any member of an entry but
    its key, and scanning.  Where the steps have a condition the code has no guard:
    creating a view writes out of bounds exactly when memory is there and a valid
    name comes with a subtree of [MAX_OID_LEN] components or more, and going on with
    a scan follows a freed pointer exactly when the entry it had reached is gone. *)
Theorem vacm_invariant st :
  reachable st -> vacm_ok st /\
    (forall out, vacm_step st out -> exists st', out = Some st' /\ vacm_ok st') /\
    (forall c1 c2 name o olen, fresh c1 (viewList st) -> cstring name -> oid_ok o olen ->
       vacm_createViewEntry c1 c2 st name o olen = None <-> is_Some c1 /\ is_Some c2 /\ bad_name name = false /\ MAX_OID_LEN <= olen) /\
    (vacm_scanViewNext st = None <-> ~ scan_valid (viewScanPtr st) (viewList st)) /\
    (vacm_scanGroupNext st = None <-> ~ scan_valid (groupScanPtr st) (groupList st)) /\
    (vacm_scanAccessNext st = None <-> ~ scan_valid (accessScanPtr st) (accessList st)).
Proof.
  intros H%reachable_ok. split_and!; [done|by intros out; apply vacm_step_ok|intros; by apply view_create_bounds; [apply H|..]|..];
    unfold vacm_scanViewNext, vacm_scanGroupNext, vacm_scanAccessNext; rewrite <- (proj1 (scan_next_valid _ _)); by destruct (scan_next _ _) as [[? ?]|].
Qed.

(** A view entry that was created is found again: whatever the other entries
    are, the exact search for its view and subtree returns an entry of that view
    with that subtree. *)
Theorem view_create_lookup st a b name o olen :
  vacm_ok st -> a ∉ (viewList st).*1 -> vname name -> oid_ok o olen -> olen < MAX_OID_LEN ->
  exists st' vp, vacm_createViewEntry (Some a) (Some b) st name o olen = Some (st', Some a) /\
    vacm_getViewEntry st' name o olen VACM_MODE_IGNORE_MASK = Some (Some vp) /\
    name_of (viewName vp.2) = name /\ vsub vp.2 = oid_of o olen.
Proof.
  intros (Hv & _) Ha Hn Ho Hm. unfold vacm_createViewEntry, vacm_getViewEntry.
  destruct (netsnmp_view_create_spec a b (viewList st) name o olen) as (l1 & l2 & _ & -> & Hok); [done..|]. obind.
  set (l := l1 ++ _ :: l2) in *.
  exists (mkvacm l (viewScanPtr st) (accessList st) (accessScanPtr st) (groupList st) (groupScanPtr st)).
  cbn [viewList].
  rewrite netsnmp_view_get_pick; [|done|done|apply Hok|done].
  change (VACM_MODE_IGNORE_MASK =? VACM_MODE_IGNORE_MASK) with true.
  pose proof (pick_spec true name (oid_of o olen) l) as P.
  assert (Hnew : in_family true name (oid_of o olen) (fresh_view name (oid_of o olen))).
  { split; [apply name_of_array|]. split; rewrite fresh_view_sub; [done|]. intros. congruence. }
  assert (Hin : (a, fresh_view name (oid_of o olen)) ∈ l) by (unfold l; set_solver).
  destruct (pick true name (oid_of o olen) l) as [vp|]; [|by destruct (P _ Hin)].
  destruct P as (i & Hi & (Hname & Hle & Hag) & P). exists vp. split_and!; [done|done|done|].
  apply list_elem_of_lookup in Hin as [j Hj]. destruct (P j _ Hj Hnew) as [Hp _].
  unfold preferred, family_key in Hp. cbn [snd] in Hp. rewrite fresh_view_sub in Hp. simpl in Hp.
  apply list_eq_same_length with (length (oid_of o olen)); [done| |].
  - revert Hp. destruct (Z.eqb_spec (Z.of_nat (length (oid_of o olen))) (Z.of_nat (length (vsub vp.2)))); [lia|].
    destruct (Z.ltb_spec (Z.of_nat (length (oid_of o olen))) (Z.of_nat (length (vsub vp.2)))); lia.
  - intros k x y _ Hx Hy. by apply (Hag k).
Qed.

(** Destroying what was just created restores the list: [netsnmp_view_destroy]
    is given the subtree as the entry keeps it, preceded by its length. *)
Theorem view_create_destroy st a b name o olen :
  vacm_ok st -> a ∉ (viewList st).*1 -> vname name -> oid_ok o olen -> olen < MAX_OID_LEN ->
  (forall x, x ∈ viewList st -> ~ (name_of (viewName x.2) = name /\ vsub x.2 = oid_of o olen)) ->
  exists st', vacm_createViewEntry (Some a) (Some b) st name o olen = Some (st', Some a) /\
    vacm_destroyViewEntry st' name (olen :: oid_of o olen) (olen + 1) = Some st.
Proof.
  intros (Hv & _) Ha Hn Ho Hm Hno. unfold vacm_createViewEntry, vacm_destroyViewEntry, netsnmp_view_destroy.
  destruct (netsnmp_view_create_spec a b (viewList st) name o olen) as (l1 & l2 & E & -> & Hok); [done..|]. obind.
  eexists. split; [done|]. cbn [viewList]. pose proof (oid_of_length o olen Ho) as Hlen.
  unfold MAX_OID_LEN in *.
  assert (Ho' : oid_ok (olen :: oid_of o olen) (olen + 1)).
  { destruct Ho as (? & ? & ?). split_and!; simpl; [lia|lia|lia|]. constructor; [lia|by apply Forall_take]. }
  assert (Hwf : forall x, x ∈ l1 ++ (a, fresh_view name (oid_of o olen)) :: l2 -> view_wf x.2)
    by (intros x Hx; apply (chain_ok_wf (E := vacm_viewEntry) _ _ Hok Hx)).
  assert (Hfull : oid_of (olen :: oid_of o olen) (olen + 1) = olen :: oid_of o olen).
  { apply firstn_all2. simpl. lia. }
  rewrite unlink_first; [by obind; rewrite <- E; destruct st| |].
  - intros x Hx. rewrite view_is_spec by (try apply Hn; try done; apply Hwf; set_solver).
    f_equal. apply bool_decide_eq_false. intros [E1 E2]. apply (Hno x); [rewrite E; set_solver|].
    split; [done|]. rewrite Hfull, kept_subtree_cons in E2 by (apply Hwf; set_solver). by injection E2.
  - rewrite view_is_spec by (try apply Hn; try done; apply Hwf; set_solver).
    f_equal. apply bool_decide_eq_true. split; [apply name_of_array|].
    rewrite Hfull, (kept_subtree_cons _) by (apply Hwf; set_solver). cbn [snd]. rewrite fresh_view_sub.
    cbn. by rewrite Z.add_simpl_r, Hlen.
Qed.

(** [vacm_getGroupEntry] returns [NULL] exactly when no entry maps the
    security name under the model or under any model, and otherwise such an
    entry; of several it is the one with the smallest model number, so that a
    wildcard entry takes precedence over a specific one. *)
Theorem group_lookup st model name :
  vacm_ok st -> vname name ->
  exists r, vacm_getGroupEntry st model name = Some r /\
    match r with
    | Some vp => vp ∈ groupList st /\ group_applies model name vp.2 /\
        forall x, x ∈ groupList st -> group_applies model name x.2 -> g_securityModel vp.2 <= g_securityModel x.2
    | None => forall x, x ∈ groupList st -> ~ group_applies model name x.2
    end.
Proof.
  intros Hok Hn. destruct (getGroup_spec st model name Hok Hn) as (r & E & H). exists r. split; [done|].
  destruct r as [vp|]; [|done]. destruct H as (l1 & l2 & El & Ha & H1). rewrite El. split_and!; [set_solver|done|].
  intros x [Hx|[->|Hx]%elem_of_cons]%elem_of_app Hax; [by destruct (H1 x Hx)|done|].
  destruct Hok as (_ & _ & _ & Ho & _). rewrite El in Ho. apply ordered_app in Ho as (_ & Ho & _).
  apply ordered_cons in Ho as [Ho _]. specialize (Ho x Hx). cbn [t_cmp t_key group_table] in Ho.
  unfold prod_cmp, group_key, Z_cmp in Ho. cbn [fst snd] in Ho.
  destruct (Z.eqb_spec (Z.sgn (g_securityModel vp.2 - g_securityModel x.2)) 0); lia.
Qed.

(** [vacm_getAccessEntry] never returns an entry that does not apply: the
    group, the security model (or any), the context (exactly or as a prefix) and
    a security level not above that of the message; and it returns [NULL] only
    when no entry applies. *)
Theorem access_lookup st gname context model level :
  vacm_ok st -> vname gname -> vname context ->
  exists r, vacm_getAccessEntry st gname context model level = Some r /\
    match r with
    | Some vp => vp ∈ accessList st /\ access_applies gname context model level vp.2
    | None => forall x, x ∈ accessList st -> ~ access_applies gname context model level x.2
    end.
Proof. apply getAccess_spec. Qed.

(** Destroying the group or access entry just created restores the table it
    was created in, when that had no entry with the same index. *)
Theorem group_access_create_destroy st a b model name gname context level :
  vacm_ok st -> a ∉ (groupList st).*1 -> a ∉ (accessList st).*1 ->
  vname name -> vname gname -> vname context ->
  (forall x, x ∈ groupList st -> ~ (g_securityModel x.2 = model /\ name_of (g_securityName x.2) = name)) ->
  (forall x, x ∈ accessList st -> ~ (a_securityModel x.2 = model /\ a_securityLevel x.2 = level /\
     name_of (a_groupName x.2) = gname /\ name_of (a_contextPrefix x.2) = context)) ->
  (exists st', vacm_createGroupEntry (Some a) (Some b) st model name = Some (st', Some a) /\
     vacm_destroyGroupEntry st' model name = Some st) /\
  (exists st', vacm_createAccessEntry (Some a) (Some b) st gname context model level = Some (st', Some a) /\
     vacm_destroyAccessEntry st' gname context model level = Some st).
Proof.
  intros (_ & Ha & Hg) Fg Fa Hn Hgn Hc Ng Na. pose proof Hn as [Bn Cn]. pose proof Hgn as [Bg Cg].
  pose proof Hc as [Bc Cc]. unfold VACM_MAX_STRING in *. split.
  - destruct (create_group_ok (Some a) (Some b) st model name) as (l & r & E & Hl & H);
      [done|by intros ? [= <-]|split; [done|lia]|].
    destruct (H a) as (-> & l1 & l2 & El & ->); [done..|]. eexists. split; [done|].
    unfold vacm_destroyGroupEntry. cbn [groupList]. rewrite unlink_first.
    + obind. rewrite <- El. by destruct st.
    + intros x Hx. assert (x ∈ groupList st) as Hin by (rewrite El; set_solver).
      rewrite group_is_spec by (done || apply (chain_ok_wf (E := vacm_groupEntry) _ _ Hg Hin)).
      f_equal. apply bool_decide_eq_false. by apply Ng.
    + rewrite group_is_spec by (done || by apply keeps_name_array). f_equal. apply bool_decide_eq_true.
      split; [done|apply name_of_array].
  - destruct (create_access_ok (Some a) (Some b) st gname context model level) as (l & r & E & Hl & H);
      [done|by intros ? [= <-]|split; [done|lia]|split; [done|lia]|].
    destruct (H a) as (-> & l1 & l2 & El & ->); [done..|]. eexists. split; [done|].
    unfold vacm_destroyAccessEntry. cbn [accessList]. rewrite unlink_first.
    + obind. rewrite <- El. by destruct st.
    + intros x Hx. assert (x ∈ accessList st) as Hin by (rewrite El; set_solver).
      rewrite access_is_spec by (done || apply (chain_ok_wf (E := vacm_accessEntry) _ _ Ha Hin)).
      f_equal. apply bool_decide_eq_false. by apply Na.
    + rewrite access_is_spec by (done || by apply fresh_access_wf). f_equal. apply bool_decide_eq_true.
      split_and!; [done|done|apply name_of_array|apply name_of_array].
Qed.

(** ** Scans *)

(** [n] calls of a scan function in a row, with their results. *)
Fixpoint scan_calls (next : vacm -> option (vacm * option Z)) (n : nat) (st : vacm)
  : option (list (option Z) * vacm) :=
  match n with
  | O => Some ([], st)
  | S k => '(st, r) ← next st; '(rs, st) ← scan_calls next k st; Some (r :: rs, st)
  end.

(** The scan pointer is the only part of the state a scan changes. *)
Lemma scan_calls_spec {E} (next : vacm -> option (vacm * option Z)) (l : chain E) (f : option Z -> vacm) n p rs q :
  (forall p, next (f p) = '(p', r) ← scan_next p l; Some (f p', r)) ->
  scan_n n p l = Some (rs, q) -> scan_calls next n (f p) = Some (rs, f q).
Proof.
  intros Hn. revert p rs. induction n as [|n IH]; intros p rs; simpl; [by intros [= <- ->]|].
  rewrite Hn. destruct (scan_next p l) as [[p' r]|]; [|done]. simpl.
  destruct (scan_n n p' l) as [[rs' q']|] eqn:E'; [|done]. simpl. intros [= <- ->].
  by rewrite (IH p' rs' E').
Qed.

(** A scan returns each entry of a table once, in the order of the table, and
    [NULL] from then on. *)
Theorem scan_complete st k :
  vacm_ok st ->
  (exists st', scan_calls vacm_scanViewNext (length (viewList st) + k) (vacm_scanViewInit st) =
     Some ((Some <$> (viewList st).*1) ++ replicate k None, st')) /\
  (exists st', scan_calls vacm_scanGroupNext (length (groupList st) + k) (vacm_scanGroupInit st) =
     Some ((Some <$> (groupList st).*1) ++ replicate k None, st')) /\
  (exists st', scan_calls vacm_scanAccessNext (length (accessList st) + k) (vacm_scanAccessInit st) =
     Some ((Some <$> (accessList st).*1) ++ replicate k None, st')).
Proof.
  intros ((_ & _ & Hv) & (_ & _ & Ha) & (_ & _ & Hg)).
  split_and!; eexists.
  - apply (scan_calls_spec vacm_scanViewNext (viewList st)
      (fun p => mkvacm (viewList st) p (accessList st) (accessScanPtr st) (groupList st) (groupScanPtr st)));
      [done|by apply scan_all].
  - apply (scan_calls_spec vacm_scanGroupNext (groupList st)
      (fun p => mkvacm (viewList st) (viewScanPtr st) (accessList st) (accessScanPtr st) (groupList st) p));
      [done|by apply scan_all].
  - apply (scan_calls_spec vacm_scanAccessNext (accessList st)
      (fun p => mkvacm (viewList st) (viewScanPtr st) (accessList st) p (groupList st) (groupScanPtr st)));
      [done|by apply scan_all].
Qed.

(** ** What the code does not guard against *)

(** Destroying the view entry a scan has reached leaves the scan pointer
    dangling: the next call of [vacm_scanViewNext] follows a freed pointer. *)
Theorem scan_dangling st a e l name o olen st' :
  vacm_ok st -> viewList st = (a, e) :: l -> view_is name o olen e = Some true ->
  vacm_destroyViewEntry (vacm_scanViewInit st) name o olen = Some st' -> vacm_scanViewNext st' = None.
Proof.
  intros ((_ & _ & Hd) & _) El Hm. unfold vacm_destroyViewEntry, netsnmp_view_destroy, vacm_scanViewInit.
  cbn [viewList]. rewrite El. unfold unlink. cbn [snd]. rewrite Hm. obind. intros [= <-].
  unfold vacm_scanViewNext. cbn. rewrite follow_dangling; [done|].
  rewrite El in Hd. by apply list.NoDup_cons in Hd as [? _].
Qed.

(** The choice among several access entries does not follow the order of RFC
    3415 that the comments of [_vacm_choose_best] quote: an entry for a longer
    context prefix replaces one for a shorter prefix even when only the latter
    is for the security model of the message. *)
Theorem access_choice_ignores_model st a1 e1 a2 e2 gname context model level :
  vacm_ok st -> vname gname -> vname context -> accessList st = [(a1, e1); (a2, e2)] ->
  access_applies gname context model level e1 -> access_applies gname context model level e2 ->
  a_contextMatch e1 = CONTEXT_MATCH_PREFIX ->
  strlen (name_of (a_contextPrefix e1)) < strlen (name_of (a_contextPrefix e2)) ->
  vacm_getAccessEntry st gname context model level = Some (Some (a2, e2)).
Proof.
  intros (_ & Ha & _) Hg Hc El H1 H2 Hm Hlt. unfold vacm_getAccessEntry.
  rewrite !bad_name_ok, !prefixed_spec by done. obind. rewrite El in *.
  pose proof (chain_ok_wf (E := vacm_accessEntry) _ (a1, e1) Ha ltac:(set_solver)) as W1.
  pose proof (chain_ok_wf (E := vacm_accessEntry) _ (a2, e2) Ha ltac:(set_solver)) as W2.
  cbn [snd] in *.
  assert (B : _vacm_choose_best (Some (a1, e1)) (a2, e2) = Some (Some (a2, e2))).
  { unfold _vacm_choose_best. cbn [snd]. destruct W1 as (_ & [E1 N1] & _), W2 as (_ & [E2 N2] & _).
    rewrite E1, E2, !char_at_name by done. obind. rewrite Hm, Z.eqb_refl, (proj2 (Z.ltb_lt _ _) Hlt).
    cbn [andb]. by rewrite !orb_true_r. }
  assert (M1 : access_matches (name_array gname) (name_array context) (strlen gname) (strlen context) model level e1 = Some true)
    by (rewrite access_matches_spec, bool_decide_true; done).
  assert (M2 : access_matches (name_array gname) (name_array context) (strlen gname) (strlen context) model level e2 = Some true)
    by (rewrite access_matches_spec, bool_decide_true; done).
  cbn [access_loop snd]. rewrite M1. obind. change (_vacm_choose_best None ?x) with (Some (Some x)). obind.
  rewrite M2. obind. by rewrite B.
Qed.

(** * Witnesses *)

(** Two views of the same name, a group and two access entries. *)
Definition demo : vacm :=
  let v1 := mkview (name_array [97]) (3 :: [1; 3; 6] ++ replicate 124 0) 4 (0xA0 :: replicate 33 0) 1 SNMP_VIEW_INCLUDED 3 1 0 in
  let v2 := mkview (name_array [97]) (4 :: [1; 3; 6; 9] ++ replicate 123 0) 5 (zeros 34) 0 SNMP_VIEW_EXCLUDED 3 1 0 in
  let g := mkgroup 3 (name_array [117]) ([103] ++ replicate 33 0) 3 1 0 in
  let views := replicate 8 ([97] ++ replicate 33 0) in
  let a1 := mkaccess (name_array [103]) (name_array []) 3 1 CONTEXT_MATCH_PREFIX views 3 1 0 in
  let a2 := mkaccess (name_array [103]) (name_array [120]) 0 1 CONTEXT_MATCH_PREFIX views 3 1 0 in
  mkvacm [(100, v1); (200, v2)] None [(300, a1); (400, a2)] None [(500, g)] None.

Lemma vacm_invariant_witness : exists st, fst <$> vacm_createViewEntry (Some 7) (Some 8) vacm_init [97] [1; 3] 2 = Some st /\ vacm_ok st.
Proof.
  destruct (fst <$> vacm_createViewEntry (Some 7) (Some 8) vacm_init [97] [1; 3] 2) as [st|] eqn:E; [|vm_compute in E; discriminate E].
  exists st. split; [reflexivity|]. apply (vacm_invariant st). apply (reach_step vacm_init); [constructor|]. rewrite <- E.
  apply step_create_view; [intros a _; apply not_elem_of_nil|by_decide..].
Defined.

Lemma view_create_lookup_witness :
  exists st' vp, vacm_createViewEntry (Some 7) (Some 8) demo [97] [1; 3] 2 = Some (st', Some 7) /\
    vacm_getViewEntry st' [97] [1; 3] 2 VACM_MODE_IGNORE_MASK = Some (Some vp) /\
    name_of (viewName vp.2) = [97] /\ vsub vp.2 = oid_of [1; 3] 2.
Proof. apply view_create_lookup; by_decide. Defined.

Lemma view_create_destroy_witness :
  exists st', vacm_createViewEntry (Some 7) (Some 8) demo [97] [1; 3] 2 = Some (st', Some 7) /\
    vacm_destroyViewEntry st' [97] (2 :: oid_of [1; 3] 2) (2 + 1) = Some demo.
Proof.
  apply view_create_destroy; [by_decide..|].
  intros x Hx. repeat (apply elem_of_cons in Hx as [->|Hx]; [by_decide|]). by apply not_elem_of_nil in Hx.
Defined.

Lemma group_lookup_witness :
  exists r, vacm_getGroupEntry demo 3 [117] = Some r /\
    match r with
    | Some vp => vp ∈ groupList demo /\ group_applies 3 [117] vp.2 /\
        forall x, x ∈ groupList demo -> group_applies 3 [117] x.2 -> g_securityModel vp.2 <= g_securityModel x.2
    | None => forall x, x ∈ groupList demo -> ~ group_applies 3 [117] x.2
    end.
Proof. apply group_lookup; by_decide. Defined.

Lemma access_lookup_witness :
  exists r, vacm_getAccessEntry demo [103] [120] 3 2 = Some r /\
    match r with
    | Some vp => vp ∈ accessList demo /\ access_applies [103] [120] 3 2 vp.2
    | None => forall x, x ∈ accessList demo -> ~ access_applies [103] [120] 3 2 x.2
    end.
Proof. apply access_lookup; by_decide. Defined.

Lemma group_access_create_destroy_witness :
  exists st', vacm_createGroupEntry (Some 7) (Some 8) demo 1 [118] = Some (st', Some 7) /\
    vacm_destroyGroupEntry st' 1 [118] = Some demo.
Proof.
  apply (group_access_create_destroy demo 7 8 1 [118] [103] [] 2); [by_decide..| |];
    intros x Hx; repeat (apply elem_of_cons in Hx as [->|Hx]; [by_decide|]); by apply not_elem_of_nil in Hx.
Defined.

Lemma scan_complete_witness :
  exists st', scan_calls vacm_scanViewNext (length (viewList demo) + 1) (vacm_scanViewInit demo) =
     Some ((Some <$> (viewList demo).*1) ++ replicate 1 None, st').
Proof. apply (scan_complete demo 1). by_decide. Defined.

Lemma scan_dangling_witness :
  match vacm_destroyViewEntry (vacm_scanViewInit demo) [97] [3; 1; 3; 6] 4 with
  | Some st' => vacm_scanViewNext st' = None
  | None => False
  end.
Proof.
  destruct (vacm_destroyViewEntry (vacm_scanViewInit demo) [97] [3; 1; 3; 6] 4) as [st'|] eqn:D.
  - eapply (scan_dangling demo _ _ _ [97] [3; 1; 3; 6] 4); [by_decide|reflexivity|vm_compute; reflexivity|exact D].
  - vm_compute in D. discriminate D.
Defined.

(** Two access entries of a group, for any model and for SNMPv1; the line of an
    entry for model 3 finds the first and takes its place: it is gone, and the
    table is no longer sorted. *)
Definition two_access : vacm :=
  let entry model := mkaccess (name_array [103]) (name_array []) model 1 CONTEXT_MATCH_PREFIX (replicate 8 ([97] ++ replicate 33 0)) 3 1 0 in
  mkvacm [] None [(300, entry 0); (400, entry 1)] None [] None.

Example config_access_rekeys : vacm_ok two_access /\
  (rekeyed ← _vacm_parse_config_access_common (Some 7) (Some 8) two_access 1 3 3 2 CONTEXT_MATCH_PREFIX [103] [];
   Some (rekeyed.2, (fun x => (x.1, a_securityModel x.2)) <$> accessList rekeyed.1, bool_decide (vacm_ok rekeyed.1))) =
  Some (Some 300, [(300, 3); (400, 1)], false).
Proof. split; [by_decide|]. vm_compute. reflexivity. Qed.

Lemma view_create_overflow_witness :
  netsnmp_view_create (Some 7) (Some 8) [] [97] (replicate 128 1) 128 = None.
Proof. apply view_create_overflow; by_decide. Defined.

Lemma access_choice_ignores_model_witness :
  exists e, vacm_getAccessEntry demo [103] [120] 3 2 = Some (Some (400, e)) /\ a_securityModel e = SNMP_SEC_MODEL_ANY.
Proof.
  eexists. split; [eapply (access_choice_ignores_model demo); [by_decide..|reflexivity|by_decide|by_decide|reflexivity|by_decide]|reflexivity].
Defined.
