(* ===== verification/AccessControl.v ===== *)
(** The access decision of the agent, [agent/mibgroup/mibII/vacm_conf.c]:
    [vacm_in_view], [vacm_check_view] and [vacm_check_view_contents].

    What other components contribute is a parameter: the mapping of a community
    and a source address to a security name ([netsnmp_udp_getSecName] and its
    two variants), the registry of security modules ([find_sec_mod]), the
    registry of contexts ([netsnmp_subtree_find_first]) and [strdup], which may
    fail.  The result is the return code, the message as the function leaves it
    and the statistics it increments. *)
From Stdlib Require Import ZArith Lia.
From stdpp Require Import sets.
From S2P Require Import Prelude Asn1Defs SnmpDefs Oid LList Vacm VacmView VacmTables VacmState.

Definition VACM_VIEW_READ : Z := 0.
Definition VACM_VIEW_WRITE : Z := 1.
Definition VACM_VIEW_NOTIFY : Z := 2.
Definition VACM_CHECK_VIEW_CONTENTS_NO_FLAGS : Z := 0.
Definition VACM_CHECK_VIEW_CONTENTS_DNE_CONTEXT_OK : Z := 1.
Definition CONTEXTNAMEINDEXLEN : Z := 32.
Definition STAT_SNMPINBADCOMMUNITYNAMES : Z := 12.
Definition STAT_SNMPINBADCOMMUNITYUSES : Z := 13.

(** [pdu->tDomain]: the domains the function compares with, or another one. *)
Inductive domain : Set :=
| netsnmpUDPDomain | netsnmp_snmpTCPDomain | netsnmp_UDPIPv6Domain | netsnmp_TCPIPv6Domain
| netsnmp_UnixDomain | other_domain.

(** The members of [netsnmp_pdu] the decision depends on; [contextName] is the
    object it points to, not necessarily terminated. *)
Record netsnmp_pdu : Type := mkpdu {
  version : Z;
  command : Z;
  tDomain : domain;
  community : option (list Z);
  securityModel : Z;
  securityLevel : Z;
  securityName : option (list Z);
  contextName : option (list Z);
  contextNameLen : Z
}.

(** The C string at the start of an array. *)
Fixpoint c_string (a : list Z) : option (list Z) :=
  match a with
  | [] => None
  | c :: a => if c =? 0 then Some [] else s ← c_string a; Some (c :: s)
  end.

Section decision.
(** Result, [*sn] and [*contextName] of the mapping functions. *)
Context (netsnmp_udp_getSecName netsnmp_udp6_getSecName netsnmp_unix_getSecName :
           netsnmp_pdu -> Z * option (list Z) * list Z).
Context (find_sec_mod : Z -> bool) (netsnmp_subtree_find_first : list Z -> bool).
Context (strdup : list Z -> option (list Z)).

Definition community_based (p : netsnmp_pdu) : bool :=
  (version p =? SNMP_VERSION_1) || (version p =? SNMP_VERSION_2c).

(** [if (!getSecName(..., &sn, &contextName)) sn = NULL;
    SNMP_FREE(pdu->contextName); pdu->contextName = strdup(contextName);
    pdu->contextNameLen = strlen(contextName);] *)
Definition map_community (getSecName : netsnmp_pdu -> Z * option (list Z) * list Z) (p : netsnmp_pdu)
  : option (list Z) * netsnmp_pdu :=
  let '(ok, sn, context) := getSecName p in
  let sn := if ok =? 0 then None else sn in
  (sn, mkpdu (version p) (command p) (tDomain p) (community p) (securityModel p) (securityLevel p)
             (securityName p) (strdup context) (strlen context)).

(** [sn] and the message after the first part of the function. *)
Definition security_name (p : netsnmp_pdu) : option (list Z) * netsnmp_pdu :=
  if community_based p then
    match tDomain p with
    | netsnmpUDPDomain | netsnmp_snmpTCPDomain => map_community netsnmp_udp_getSecName p
    | netsnmp_UDPIPv6Domain | netsnmp_TCPIPv6Domain => map_community netsnmp_udp6_getSecName p
    | netsnmp_UnixDomain => map_community netsnmp_unix_getSecName p
    | other_domain => (None, p)
    end
  else if find_sec_mod (securityModel p) then (securityName p, p)
  else (None, p).

(** [contextNameIndex] as a string: the first [contextNameLen] characters, up
    to a zero among them; empty for a null pointer. *)
Definition context_index (p : netsnmp_pdu) : option (list Z) :=
  match contextName p with
  | Some c => bs ← peek_n c 0 (contextNameLen p); c_string (bs ++ [0])
  | None => Some []
  end.

Definition vacm_check_view_contents (st : vacm) (pdu : netsnmp_pdu) (name : option (list Z)) (namelen : Z)
    (check_subtree : bool) (viewtype flags : Z) : option (Z * netsnmp_pdu * list Z) :=
  let '(sn, pdu) := security_name pdu in
  match sn with
  | None => Some (VACM_NOSECNAME, pdu, [STAT_SNMPINBADCOMMUNITYNAMES])
  | Some sn =>
    if CONTEXTNAMEINDEXLEN <? contextNameLen pdu then Some (VACM_NOSUCHCONTEXT, pdu, [])
    else
      context ← context_index pdu;
      if (Z.land flags VACM_CHECK_VIEW_CONTENTS_DNE_CONTEXT_OK =? 0)
         && negb (netsnmp_subtree_find_first context)
      then Some (VACM_NOSUCHCONTEXT, pdu, [])
      else
        gp ← vacm_getGroupEntry st (securityModel pdu) sn;
        match gp with
        | None => Some (VACM_NOGROUP, pdu, [])
        | Some (_, gp) =>
          gn ← c_string (g_groupName gp);
          ap ← vacm_getAccessEntry st gn context (securityModel pdu) (securityLevel pdu);
          match ap, name with
          | None, _ => Some (VACM_NOACCESS, pdu, [])
          | Some _, None => Some (VACM_SUCCESS, pdu, [])
          | Some (_, ap), Some name =>
            if (viewtype <? 0) || (VACM_MAX_VIEWS <=? viewtype) then Some (VACM_NOACCESS, pdu, [])
            else
              v ← a_views ap !! Z.to_nat viewtype;
              vn ← c_string v;
              if check_subtree then r ← vacm_checkSubtree st vn name namelen; Some (r, pdu, [])
              else
                vp ← vacm_getViewEntry st vn name namelen VACM_MODE_FIND;
                match vp with
                | None => Some (VACM_NOVIEW, pdu, [])
                | Some (_, vp) =>
                  if viewType vp =? SNMP_VIEW_EXCLUDED then
                    Some (VACM_NOTINVIEW, pdu,
                          if community_based pdu then [STAT_SNMPINBADCOMMUNITYUSES] else [])
                  else Some (VACM_SUCCESS, pdu, [])
                end
          end
        end
  end.

Definition vacm_check_view (st : vacm) (pdu : netsnmp_pdu) (name : option (list Z)) (namelen : Z)
    (check_subtree : bool) (viewtype : Z) : option (Z * netsnmp_pdu * list Z) :=
  vacm_check_view_contents st pdu name namelen check_subtree viewtype VACM_CHECK_VIEW_CONTENTS_NO_FLAGS.

(** The [switch] of [vacm_in_view]; an unknown message is treated as a read. *)
Definition command_view (command : Z) : Z :=
  if (command =? SNMP_MSG_GET) || (command =? SNMP_MSG_GETNEXT) || (command =? SNMP_MSG_GETBULK)
  then VACM_VIEW_READ
  else if command =? SNMP_MSG_SET then VACM_VIEW_WRITE
  else if (command =? SNMP_MSG_TRAP) || (command =? SNMP_MSG_TRAP2) || (command =? SNMP_MSG_INFORM)
  then VACM_VIEW_NOTIFY
  else VACM_VIEW_READ.

Definition vacm_in_view (st : vacm) (pdu : netsnmp_pdu) (name : option (list Z)) (namelen : Z)
    (check_subtree : bool) : option (Z * netsnmp_pdu * list Z) :=
  vacm_check_view st pdu name namelen check_subtree (command_view (command pdu)).

(** * Correctness *)

(** The strings the other components hand over are C strings, and the message
    has as many characters of the context name as it says. *)
Definition message_ok (p : netsnmp_pdu) : Prop :=
  let '(sn, p) := security_name p in
  (forall s, sn = Some s -> cstring s) /\ 0 <= contextNameLen p /\
  (forall c, contextName p = Some c -> contextNameLen p <= Z.of_nat (length c) /\ Forall is_byte c).

(** Who asks: the security name, the group it is mapped to, the access entry
    that applies and the view that goes with the kind of access. *)
Definition authorised (st : vacm) (p : netsnmp_pdu) (viewtype : Z) (vn : list Z) : Prop :=
  exists sn p' g gn context a v,
    security_name p = (Some sn, p') /\ context_index p' = Some context /\
    g ∈ groupList st /\ group_applies (securityModel p') sn g.2 /\ c_string (g_groupName g.2) = Some gn /\
    a ∈ accessList st /\ access_applies gn context (securityModel p') (securityLevel p') a.2 /\
    0 <= viewtype < VACM_MAX_VIEWS /\ a_views a.2 !! Z.to_nat viewtype = Some v /\ c_string v = Some vn.

Lemma c_string_spec a s : Forall is_byte a -> c_string a = Some s -> Forall (fun c => 0 < c < 256) s.
Proof.
  intros Ha. revert s. induction Ha as [|c a Hc Ha IH]; intros s; simpl; [done|].
  destruct (Z.eqb_spec c 0); [intros [= <-]; constructor|].
  destruct (c_string a) as [s'|]; [|done]. intros [= <-]. constructor; [unfold is_byte in Hc; lia|auto].
Qed.

Lemma c_string_length a s : c_string a = Some s -> strlen s < Z.of_nat (length a).
Proof.
  revert s. induction a as [|c a IH]; intros s; simpl; [done|].
  destruct (c =? 0); [intros [= <-]; unfold strlen; simpl; lia|].
  destruct (c_string a) as [s'|]; [|done]. intros [= <-]. specialize (IH s' eq_refl). unfold strlen in *. simpl. lia.
Qed.

Lemma c_string_total a : 0 ∈ a -> is_Some (c_string a).
Proof.
  induction a as [|c a IH]; intros H; [by apply not_elem_of_nil in H|]. simpl.
  destruct (Z.eqb_spec c 0) as [|Hc]; [by eexists|].
  apply elem_of_cons in H as [|H]; [done|]. destruct (IH H) as [s ->]. by eexists.
Qed.
Lemma cstr_string a s : cstr_ok a -> c_string a = Some s -> cstring s.
Proof.
  intros (Hb & _ & Hl) Hs. split; [by eapply c_string_spec|]. apply c_string_length in Hs.
  unfold VACMSTRINGLEN in Hl. lia.
Qed.

(** What the function does once it knows the view. *)
Definition view_decision (st : vacm) (p : netsnmp_pdu) (vn name : list Z) (namelen : Z) (check_subtree : bool)
  : option (Z * netsnmp_pdu * list Z) :=
  if check_subtree then r ← vacm_checkSubtree st vn name namelen; Some (r, p, [])
  else
    vp ← vacm_getViewEntry st vn name namelen VACM_MODE_FIND;
    Some match vp with
         | None => (VACM_NOVIEW, p, [])
         | Some (_, vp) =>
           if viewType vp =? SNMP_VIEW_EXCLUDED
           then (VACM_NOTINVIEW, p, if community_based p then [STAT_SNMPINBADCOMMUNITYUSES] else [])
           else (VACM_SUCCESS, p, [])
         end.

Lemma context_index_ok p :
  0 <= contextNameLen p -> contextNameLen p <= CONTEXTNAMEINDEXLEN ->
  (forall c, contextName p = Some c -> contextNameLen p <= Z.of_nat (length c) /\ Forall is_byte c) ->
  exists context, context_index p = Some context /\ vname context.
Proof.
  intros H0 Hl Hc. unfold context_index, CONTEXTNAMEINDEXLEN in *.
  destruct (contextName p) as [c|]; [|exists []; split; [done|by_decide]].
  destruct (Hc c eq_refl) as [Hlen Hb]. rewrite peek_n_take by lia. obind.
  set (bs := take _ c). assert (Hbs : Forall is_byte (bs ++ [0])).
  { apply Forall_app. split; [by apply Forall_take|].
    constructor; [unfold is_byte; lia|constructor]. }
  destruct (c_string_total (bs ++ [0])) as [s Hs]; [set_solver|]. exists s. split; [done|].
  split; [|by eapply c_string_spec]. apply c_string_length in Hs. rewrite length_app in Hs.
  unfold bs in Hs. rewrite length_take in Hs. simpl in Hs. unfold VACM_MAX_STRING. lia.
Qed.

Lemma getGroup_cases st model sn :
  vacm_ok st -> cstring sn ->
  vacm_getGroupEntry st model sn = Some None \/
  exists g, vacm_getGroupEntry st model sn = Some (Some g) /\ g ∈ groupList st /\ group_applies model sn g.2.
Proof.
  intros Hst Hs. destruct (bad_name sn) eqn:B; [left; unfold vacm_getGroupEntry; by rewrite B|].
  destruct (getGroup_spec st model sn Hst (cstring_vname _ Hs B)) as ([g|] & -> & H); [right|by left].
  destruct H as (l1 & l2 & E & H & _). exists g. split_and!; [done|rewrite E; set_solver|done].
Qed.

Lemma getAccess_cases st gn context model level :
  vacm_ok st -> cstring gn -> vname context ->
  vacm_getAccessEntry st gn context model level = Some None \/
  exists a, vacm_getAccessEntry st gn context model level = Some (Some a) /\ a ∈ accessList st /\
    access_applies gn context model level a.2.
Proof.
  intros Hst Hs Hc. destruct (bad_name gn) eqn:B; [left; unfold vacm_getAccessEntry; by rewrite B|].
  destruct (getAccess_spec st gn context model level Hst (cstring_vname _ Hs B) Hc) as ([a|] & -> & H);
    [right; by exists a|by left].
Qed.

(** The part of the decision that does not depend on the name: a refusal, or
    the view to look into. *)
Definition authorise (st : vacm) (pdu : netsnmp_pdu) (viewtype flags : Z)
  : option ((Z * netsnmp_pdu * list Z) + (list Z * netsnmp_pdu)) :=
  let '(sn, pdu) := security_name pdu in
  match sn with
  | None => Some (inl (VACM_NOSECNAME, pdu, [STAT_SNMPINBADCOMMUNITYNAMES]))
  | Some sn =>
    if CONTEXTNAMEINDEXLEN <? contextNameLen pdu then Some (inl (VACM_NOSUCHCONTEXT, pdu, []))
    else
      context ← context_index pdu;
      if (Z.land flags VACM_CHECK_VIEW_CONTENTS_DNE_CONTEXT_OK =? 0)
         && negb (netsnmp_subtree_find_first context)
      then Some (inl (VACM_NOSUCHCONTEXT, pdu, []))
      else
        gp ← vacm_getGroupEntry st (securityModel pdu) sn;
        match gp with
        | None => Some (inl (VACM_NOGROUP, pdu, []))
        | Some (_, gp) =>
          gn ← c_string (g_groupName gp);
          ap ← vacm_getAccessEntry st gn context (securityModel pdu) (securityLevel pdu);
          match ap with
          | None => Some (inl (VACM_NOACCESS, pdu, []))
          | Some (_, ap) =>
            if (viewtype <? 0) || (VACM_MAX_VIEWS <=? viewtype) then Some (inl (VACM_NOACCESS, pdu, []))
            else v ← a_views ap !! Z.to_nat viewtype; vn ← c_string v; Some (inr (vn, pdu))
          end
        end
  end.

Lemma check_view_authorise st p name namelen cs viewtype flags :
  vacm_check_view_contents st p (Some name) namelen cs viewtype flags =
  r ← authorise st p viewtype flags;
  match r with
  | inl refusal => Some refusal
  | inr (vn, p) => view_decision st p vn name namelen cs
  end.
Proof.
  unfold vacm_check_view_contents, authorise, view_decision.
  destruct (security_name p) as [[sn|] p']; [|done]. case_match; [done|].
  destruct (context_index p') as [context|]; [|done]. obind. case_match; [done|].
  destruct (vacm_getGroupEntry _ _ _) as [[[? g]|]|]; [|done..]. obind.
  destruct (c_string (g_groupName g)) as [gn|]; [|done]. obind.
  destruct (vacm_getAccessEntry _ _ _ _ _) as [[[? a]|]|]; [|done..]. obind. case_match; [done|].
  destruct (a_views a !! _) as [v|]; [|done]. obind. destruct (c_string v) as [vn|]; [|done]. obind.
  destruct cs; [done|]. destruct (vacm_getViewEntry _ _ _ _ _) as [[[? vp]|]|]; [|done..]. obind.
  by destruct (viewType vp =? SNMP_VIEW_EXCLUDED).
Qed.

Ltac refuse := left; eexists _, _, _; split; [|reflexivity]; discriminate.

Lemma authorise_cases st p viewtype flags :
  vacm_ok st -> message_ok p ->
  (exists code p' stats, code <> VACM_SUCCESS /\ authorise st p viewtype flags = Some (inl (code, p', stats))) \/
  (exists vn p', authorised st p viewtype vn /\ cstring vn /\ authorise st p viewtype flags = Some (inr (vn, p'))).
Proof.
  intros Hst Hm. unfold message_ok in Hm. unfold authorise, authorised.
  destruct (security_name p) as [[sn|] p'] eqn:Esn; [|refuse].
  destruct Hm as (Hsn & H0 & Hctx). specialize (Hsn sn eq_refl).
  destruct (Z.ltb_spec CONTEXTNAMEINDEXLEN (contextNameLen p')) as [|Hl]; [refuse|].
  destruct (context_index_ok p' H0 Hl Hctx) as (context & Ec & Hc). rewrite Ec. obind.
  case_match; [refuse|].
  destruct (getGroup_cases st (securityModel p') sn Hst Hsn) as [->|([ga g] & -> & Hgin & Hga)]; obind;
    [refuse|].
  pose proof (chain_ok_wf (E := vacm_groupEntry) _ _ (proj2 (proj2 Hst)) Hgin) as [_ Wg]. cbn [snd] in *.
  destruct (c_string_total (g_groupName g)) as [gn Egn]; [apply Wg|]. rewrite Egn. obind.
  destruct (getAccess_cases st gn context (securityModel p') (securityLevel p') Hst (cstr_string _ _ Wg Egn) Hc)
    as [->|([aa a] & -> & Hain & Haa)]; obind; [refuse|].
  pose proof (chain_ok_wf (E := vacm_accessEntry) _ _ (proj1 (proj2 Hst)) Hain) as (_ & _ & Wl & Wv). cbn [snd] in *.
  destruct ((viewtype <? 0) || (VACM_MAX_VIEWS <=? viewtype)) eqn:Bv; [refuse|]. bool_prop.
  destruct (lookup_lt_is_Some_2 (a_views a) (Z.to_nat viewtype)) as [v Ev]; [lia|]. rewrite Ev. obind.
  assert (Wvv : cstr_ok v) by (by eapply Forall_lookup_1).
  destruct (c_string_total v) as [vn Evn]; [apply Wvv|]. rewrite Evn. obind.
  right. exists vn, p'. split_and!; [|by eapply cstr_string|done].
  exists sn, p', (ga, g), gn, context, (aa, a), v. split_and!; done || lia.
Qed.

(** C24: access to a name is granted only to a requester with a security name
    that a group entry maps to a group, for which an access entry applies in
    the context with the security model and at least the security level it
    demands, and only if the view of that entry for the kind of access permits
    the name.  Every other outcome is a refusal, and there is always an
    outcome: no state of the tables and no message makes the decision go
    wrong. *)
Theorem access_granted_only_if_authorised st p name namelen viewtype flags :
  vacm_ok st -> message_ok p -> oid_ok name namelen ->
  exists code p' stats,
    vacm_check_view_contents st p (Some name) namelen false viewtype flags = Some (code, p', stats) /\
    (code = VACM_SUCCESS -> exists vn, authorised st p viewtype vn /\ in_view (viewList st) vn name namelen = Some true).
Proof.
  intros Hst Hm Ho. rewrite check_view_authorise.
  destruct (authorise_cases st p viewtype flags Hst Hm) as [(code & p' & stats & Hc & ->)|(vn & p' & Ha & Hv & ->)]; obind.
  { by eexists _, _, _. }
  unfold view_decision, vacm_getViewEntry. destruct (bad_name vn) eqn:B.
  { unfold netsnmp_view_get. rewrite B. obind. by eexists _, _, _. }
  pose proof (cstring_vname _ Hv B) as Vn. assert (Wl : views_wf (viewList st)) by apply Hst.
  destruct (netsnmp_view_get (viewList st) vn name namelen VACM_MODE_FIND) as [r|] eqn:G;
    [|by rewrite netsnmp_view_get_pick in G by done].
  obind. destruct r as [[? vp]|]; [|by eexists _, _, _].
  destruct (viewType vp =? SNMP_VIEW_EXCLUDED) eqn:T; [by eexists _, _, _|].
  eexists _, _, _. split; [done|]. intros _. exists vn. split; [done|]. unfold in_view. rewrite G. obind. by rewrite T.
Qed.

(** C28: a decision about a whole subtree is a decision about every name in it:
    when the check of a subtree succeeds, the check of each name below it
    succeeds, and when it answers [VACM_NOTINVIEW], none does. *)
Theorem subtree_decision_covers_names st p name namelen viewtype flags name' namelen' code p' stats :
  vacm_ok st -> message_ok p -> oid_ok name namelen -> oid_ok name' namelen' ->
  oid_of name namelen `prefix_of` oid_of name' namelen' ->
  vacm_check_view_contents st p (Some name) namelen true viewtype flags = Some (code, p', stats) ->
  exists code', (exists stats', vacm_check_view_contents st p (Some name') namelen' false viewtype flags =
                   Some (code', p', stats')) /\
    (code = VACM_SUCCESS -> code' = VACM_SUCCESS) /\ (code = VACM_NOTINVIEW -> code' <> VACM_SUCCESS).
Proof.
  intros Hst Hm Ho Ho' Hp. rewrite !check_view_authorise.
  destruct (authorise_cases st p viewtype flags Hst Hm) as [(c & q & s & Hc & ->)|(vn & q & Ha & Hv & ->)]; obind.
  { intros [= <- <- <-]. exists c. split; [eauto|]. done. }
  unfold view_decision, vacm_checkSubtree, vacm_getViewEntry. assert (Wl : views_wf (viewList st)) by apply Hst.
  destruct (bad_name vn) eqn:B.
  { unfold netsnmp_view_subtree_check, netsnmp_view_get. rewrite B. obind. intros [= <- <- <-].
    exists VACM_NOVIEW. split; [eauto|]. done. }
  pose proof (cstring_vname _ Hv B) as Vn.
  destruct (subtree_check_spec (viewList st) vn name namelen Wl Vn Ho) as (r & -> & _ & H). obind. intros [= <- <- <-].
  destruct (H name' namelen' Ho' Hp) as [H1 H2]. unfold in_view in H1, H2. revert H1 H2.
  rewrite netsnmp_view_get_pick by done. obind.
  destruct (pick _ vn _ (viewList st)) as [[? vp]|]; [destruct (viewType vp =? SNMP_VIEW_EXCLUDED)|];
    intros H1 H2; eexists; (split; [eauto|]); split; intros E; try done; specialize (H1 E) || specialize (H2 E); done.
Qed.
End decision.

(** * Witnesses *)

(** A message of the user "u" with security model 3 in the context "x". *)
Definition demo_pdu : netsnmp_pdu :=
  mkpdu SNMP_VERSION_3 SNMP_MSG_GET netsnmpUDPDomain None 3 2 (Some [117]) (Some [120; 0]) 1.

Definition no_community (p : netsnmp_pdu) : Z * option (list Z) * list Z := (0, None, []).
Definition only_usm (model : Z) : bool := model =? 3.
Definition every_context (context : list Z) : bool := true.
Definition copy (s : list Z) : option (list Z) := Some (s ++ [0]).

Lemma demo_pdu_ok : message_ok no_community no_community no_community only_usm copy demo_pdu.
Proof. simpl. split_and!; [intros s [= <-]; by_decide|by_decide|intros c [= <-]; by_decide]. Qed.

Lemma access_granted_only_if_authorised_witness :
  exists code p' stats,
    vacm_check_view_contents no_community no_community no_community only_usm every_context copy
      demo demo_pdu (Some [1; 3; 6; 1]) 4 false VACM_VIEW_READ 0 = Some (code, p', stats) /\
    (code = VACM_SUCCESS -> exists vn,
       authorised no_community no_community no_community only_usm copy demo demo_pdu VACM_VIEW_READ vn /\
       in_view (viewList demo) vn [1; 3; 6; 1] 4 = Some true).
Proof. apply access_granted_only_if_authorised; [by_decide|apply demo_pdu_ok|by_decide]. Defined.

Lemma subtree_decision_covers_names_witness :
  exists code', (exists stats',
    vacm_check_view_contents no_community no_community no_community only_usm every_context copy
      demo demo_pdu (Some [1; 3; 6; 1; 5]) 5 false VACM_VIEW_READ 0 = Some (code', demo_pdu, stats')) /\
    code' = VACM_SUCCESS.
Proof.
  destruct (subtree_decision_covers_names no_community no_community no_community only_usm every_context copy
    demo demo_pdu [1; 3; 6; 1] 4 VACM_VIEW_READ 0 [1; 3; 6; 1; 5] 5 VACM_SUCCESS demo_pdu []) as (c & Hs & H & _);
    [by_decide|apply demo_pdu_ok|by_decide|by_decide|by_decide|vm_compute; reflexivity|].
  exists c. split; [exact Hs|]. by apply H.
Defined.
