(* ===== verification/AgentDefs.v ===== *)
(** The data of the agent's request processing, [agent/snmp_agent.c] and
    [agent/agent_handler.c], in the monad of [StateMonad].

    A request that came in is a [netsnmp_agent_session]; its variables are objects
    on a heap of their own, chained by [next_variable], because the requests of
    the handlers point into that chain.  The place of a [netsnmp_request_info] in
    the array [requests] stands for its address.  Allocations succeed. *)
From Stdlib Require Import ZArith Lia.
From stdpp Require Import gmap.
From S2P Require Import Prelude StateMonad Chains Asn1Defs SnmpDefs Oid SnmpVar Pdu Registry.

Definition MODE_SET_BEGIN : Z := -1.
Definition MODE_SET_RESERVE1 : Z := 0.
Definition MODE_SET_RESERVE2 : Z := 1.
Definition MODE_SET_ACTION : Z := 2.
Definition MODE_SET_COMMIT : Z := 3.
Definition MODE_SET_FREE : Z := 4.
Definition MODE_SET_UNDO : Z := 5.
Definition FINISHED_SUCCESS : Z := 9.
Definition FINISHED_FAILURE : Z := 10.
Definition SNMP_ERR_NOERROR : Z := 0.
Definition SNMP_ERR_TOOBIG : Z := 1.
Definition SNMP_ERR_NOSUCHNAME : Z := 2.
Definition SNMP_ERR_BADVALUE : Z := 3.
Definition SNMP_ERR_GENERR : Z := 5.
Definition SNMP_ERR_NOACCESS : Z := 6.
Definition SNMP_ERR_WRONGTYPE : Z := 7.
Definition SNMP_ERR_WRONGLENGTH : Z := 8.
Definition SNMP_ERR_WRONGENCODING : Z := 9.
Definition SNMP_ERR_WRONGVALUE : Z := 10.
Definition SNMP_ERR_NOCREATION : Z := 11.
Definition SNMP_ERR_INCONSISTENTVALUE : Z := 12.
Definition SNMP_ERR_RESOURCEUNAVAILABLE : Z := 13.
Definition SNMP_ERR_COMMITFAILED : Z := 14.
Definition SNMP_ERR_UNDOFAILED : Z := 15.
Definition SNMP_ERR_AUTHORIZATIONERROR : Z := 16.
Definition SNMP_ERR_NOTWRITABLE : Z := 17.
Definition SNMP_ERR_INCONSISTENTNAME : Z := 18.
Definition STAT_SNMPOUTPKTS : Z := 10.
Definition STAT_SNMPINTOTALREQVARS : Z := 21.
Definition STAT_SNMPINTOTALSETVARS : Z := 22.
Definition STAT_SNMPINGETREQUESTS : Z := 23.
Definition STAT_SNMPINGETNEXTS : Z := 24.
Definition STAT_SNMPINSETREQUESTS : Z := 25.
Definition STAT_SNMPINGETRESPONSES : Z := 26.
Definition STAT_SNMPINTRAPS : Z := 27.
Definition STAT_SNMPOUTTOOBIGS : Z := 28.
Definition STAT_SNMPOUTNOSUCHNAMES : Z := 29.
Definition STAT_SNMPOUTBADVALUES : Z := 30.
Definition STAT_SNMPOUTGENERRS : Z := 32.
Definition STAT_SNMPOUTGETRESPONSES : Z := 36.
Definition STAT_SNMPUNKNOWNCONTEXTS : Z := 42.
Definition ASN_PRIV_INCL_RANGE : Z := Eval compute in Z.lor ASN_PRIVATE 2.
Definition ASN_PRIV_RETRY : Z := Eval compute in Z.lor ASN_PRIVATE 7.
Definition UCD_MSG_FLAG_ALWAYS_IN_VIEW : Z := 0x800.
Definition UCD_MSG_FLAG_ONE_PASS_ONLY : Z := 0x2000.
Definition HANDLER_CAN_GETANDGETNEXT : Z := 0x01.
Definition HANDLER_CAN_SET : Z := 0x02.
Definition CACHE_GROW_SIZE : Z := 16.
Definition INT_MAX : Z := 2147483647.

(** A variable on the heap. *)
Record vnode : Type := mkvnode { vn_var : variable; next_variable : option Z }.

Definition set_vn_var (x : variable) (n : vnode) : vnode := mkvnode x (next_variable n).
Definition set_next_variable (x : option Z) (n : vnode) : vnode := mkvnode (vn_var n) x.

Definition set_vp_type (x : Z) (v : variable) : variable := mkvariable (vp_name v) (vp_name_length v) x (vp_val v) (vp_val_len v).

(** [snmp_set_var_objid]; [objid] has [name_length] components. *)
Definition set_var_objid (objid : list Z) (name_length : Z) (v : variable) : variable :=
  mkvariable (take (Z.to_nat name_length) objid) name_length (vp_type v) (vp_val v) (vp_val_len v).

(** [snmp_set_var_typed_value(v, type, NULL, 0)] *)
Definition snmp_set_var_no_value (type : Z) (v : variable) : variable :=
  mkvariable (vp_name v) (vp_name_length v) type [] 0.

(** A variable of [calloc]. *)
Definition zero_variable : variable := mkvariable [] 0 0 [] 0.

(** [netsnmp_request_info] *)
Record request_info : Type := mkrequest {
  requestvb : option Z;
  range_end : option (list Z);    (* with range_end_len *)
  delegated : Z;                  (* int *)
  processed : Z;                  (* int *)
  inclusive : Z;                  (* int *)
  rq_status : Z;                  (* int *)
  rq_index : Z;                   (* int *)
  rq_repeat : Z;                  (* int *)
  orig_repeat : Z;                (* int *)
  requestvb_start : option Z;
  rq_next : option Z;             (* place in requests *)
  rq_prev : option Z;
  rq_subtree : option Z
}.

Definition set_requestvb (x : option Z) (q : request_info) : request_info :=
  mkrequest x (range_end q) (delegated q) (processed q) (inclusive q) (rq_status q) (rq_index q) (rq_repeat q)
    (orig_repeat q) (requestvb_start q) (rq_next q) (rq_prev q) (rq_subtree q).
Definition set_range_end (x : option (list Z)) (q : request_info) : request_info :=
  mkrequest (requestvb q) x (delegated q) (processed q) (inclusive q) (rq_status q) (rq_index q) (rq_repeat q)
    (orig_repeat q) (requestvb_start q) (rq_next q) (rq_prev q) (rq_subtree q).
Definition set_delegated (x : Z) (q : request_info) : request_info :=
  mkrequest (requestvb q) (range_end q) x (processed q) (inclusive q) (rq_status q) (rq_index q) (rq_repeat q)
    (orig_repeat q) (requestvb_start q) (rq_next q) (rq_prev q) (rq_subtree q).
Definition set_processed (x : Z) (q : request_info) : request_info :=
  mkrequest (requestvb q) (range_end q) (delegated q) x (inclusive q) (rq_status q) (rq_index q) (rq_repeat q)
    (orig_repeat q) (requestvb_start q) (rq_next q) (rq_prev q) (rq_subtree q).
Definition set_inclusive (x : Z) (q : request_info) : request_info :=
  mkrequest (requestvb q) (range_end q) (delegated q) (processed q) x (rq_status q) (rq_index q) (rq_repeat q)
    (orig_repeat q) (requestvb_start q) (rq_next q) (rq_prev q) (rq_subtree q).
Definition set_rq_status (x : Z) (q : request_info) : request_info :=
  mkrequest (requestvb q) (range_end q) (delegated q) (processed q) (inclusive q) x (rq_index q) (rq_repeat q)
    (orig_repeat q) (requestvb_start q) (rq_next q) (rq_prev q) (rq_subtree q).
Definition set_rq_index (x : Z) (q : request_info) : request_info :=
  mkrequest (requestvb q) (range_end q) (delegated q) (processed q) (inclusive q) (rq_status q) x
    (rq_repeat q) (orig_repeat q) (requestvb_start q) (rq_next q) (rq_prev q) (rq_subtree q).
Definition set_rq_repeat (x : Z) (q : request_info) : request_info :=
  mkrequest (requestvb q) (range_end q) (delegated q) (processed q) (inclusive q) (rq_status q) (rq_index q) x
    (orig_repeat q) (requestvb_start q) (rq_next q) (rq_prev q) (rq_subtree q).
Definition set_orig_repeat (x : Z) (q : request_info) : request_info :=
  mkrequest (requestvb q) (range_end q) (delegated q) (processed q) (inclusive q) (rq_status q) (rq_index q)
    (rq_repeat q) x (requestvb_start q) (rq_next q) (rq_prev q) (rq_subtree q).
Definition set_requestvb_start (x : option Z) (q : request_info) : request_info :=
  mkrequest (requestvb q) (range_end q) (delegated q) (processed q) (inclusive q) (rq_status q) (rq_index q)
    (rq_repeat q) (orig_repeat q) x (rq_next q) (rq_prev q) (rq_subtree q).
Definition set_rq_next (x : option Z) (q : request_info) : request_info :=
  mkrequest (requestvb q) (range_end q) (delegated q) (processed q) (inclusive q) (rq_status q) (rq_index q)
    (rq_repeat q) (orig_repeat q) (requestvb_start q) x (rq_prev q) (rq_subtree q).
Definition set_rq_prev (x : option Z) (q : request_info) : request_info :=
  mkrequest (requestvb q) (range_end q) (delegated q) (processed q) (inclusive q) (rq_status q) (rq_index q)
    (rq_repeat q) (orig_repeat q) (requestvb_start q) (rq_next q) x (rq_subtree q).
Definition set_rq_subtree (x : option Z) (q : request_info) : request_info :=
  mkrequest (requestvb q) (range_end q) (delegated q) (processed q) (inclusive q) (rq_status q) (rq_index q)
    (rq_repeat q) (orig_repeat q) (requestvb_start q) (rq_next q) (rq_prev q) x.

(** [netsnmp_tree_cache] *)
Record tree_cache : Type := mktc {
  tc_subtree : option Z;
  requests_begin : option Z;
  requests_end : option Z
}.

(** [netsnmp_agent_session] *)
Record agent_session : Type := mkasp {
  self : Z;                       (* the address of the object *)
  mode : Z;                       (* int *)
  a_session : Z;                  (* session *)
  a_pdu : pdu;                    (* pdu, without its variables *)
  a_first : option Z;             (* pdu->variables *)
  a_vars : gmap Z vnode;          (* the variables on the heap *)
  orig_pdu : pdu;
  a_status : Z;                   (* int; status *)
  a_index : Z;                    (* int; index *)
  oldmode : Z;                    (* int *)
  a_next : option Z;              (* next *)
  reqinfo_mode : Z;               (* int; reqinfo->mode *)
  requests : list request_info;   (* vbcount of them when allocated *)
  treecache : option (list tree_cache); (* [treecache_len] *)
  treecache_len : Z;              (* int *)
  treecache_num : Z;              (* int *)
  bulkcache : list (option Z);
  cache_store : list (Z * Z);     (* globalid, cacheid *)
  vbcount : Z                     (* int *)
}.

Definition set_mode (x : Z) (a : agent_session) : agent_session :=
  mkasp (self a) x (a_session a) (a_pdu a) (a_first a) (a_vars a) (orig_pdu a) (a_status a) (a_index a)
    (oldmode a) (a_next a) (reqinfo_mode a) (requests a) (treecache a) (treecache_len a) (treecache_num a)
    (bulkcache a) (cache_store a) (vbcount a).
Definition set_a_pdu (x : pdu) (a : agent_session) : agent_session :=
  mkasp (self a) (mode a) (a_session a) x (a_first a) (a_vars a) (orig_pdu a) (a_status a) (a_index a)
    (oldmode a) (a_next a) (reqinfo_mode a) (requests a) (treecache a) (treecache_len a) (treecache_num a)
    (bulkcache a) (cache_store a) (vbcount a).
Definition set_a_first (x : option Z) (a : agent_session) : agent_session :=
  mkasp (self a) (mode a) (a_session a) (a_pdu a) x (a_vars a) (orig_pdu a) (a_status a) (a_index a)
    (oldmode a) (a_next a) (reqinfo_mode a) (requests a) (treecache a) (treecache_len a) (treecache_num a)
    (bulkcache a) (cache_store a) (vbcount a).
Definition set_a_vars (x : gmap Z vnode) (a : agent_session) : agent_session :=
  mkasp (self a) (mode a) (a_session a) (a_pdu a) (a_first a) x (orig_pdu a) (a_status a) (a_index a)
    (oldmode a) (a_next a) (reqinfo_mode a) (requests a) (treecache a) (treecache_len a) (treecache_num a)
    (bulkcache a) (cache_store a) (vbcount a).
Definition set_a_status (x : Z) (a : agent_session) : agent_session :=
  mkasp (self a) (mode a) (a_session a) (a_pdu a) (a_first a) (a_vars a) (orig_pdu a) x (a_index a)
    (oldmode a) (a_next a) (reqinfo_mode a) (requests a) (treecache a) (treecache_len a) (treecache_num a)
    (bulkcache a) (cache_store a) (vbcount a).
Definition set_a_index (x : Z) (a : agent_session) : agent_session :=
  mkasp (self a) (mode a) (a_session a) (a_pdu a) (a_first a) (a_vars a) (orig_pdu a) (a_status a) x
    (oldmode a) (a_next a) (reqinfo_mode a) (requests a) (treecache a) (treecache_len a) (treecache_num a)
    (bulkcache a) (cache_store a) (vbcount a).
Definition set_oldmode (x : Z) (a : agent_session) : agent_session :=
  mkasp (self a) (mode a) (a_session a) (a_pdu a) (a_first a) (a_vars a) (orig_pdu a) (a_status a) (a_index a)
    x (a_next a) (reqinfo_mode a) (requests a) (treecache a) (treecache_len a) (treecache_num a) (bulkcache a)
    (cache_store a) (vbcount a).
Definition set_a_next (x : option Z) (a : agent_session) : agent_session :=
  mkasp (self a) (mode a) (a_session a) (a_pdu a) (a_first a) (a_vars a) (orig_pdu a) (a_status a) (a_index a)
    (oldmode a) x (reqinfo_mode a) (requests a) (treecache a) (treecache_len a) (treecache_num a)
    (bulkcache a) (cache_store a) (vbcount a).
Definition set_reqinfo_mode (x : Z) (a : agent_session) : agent_session :=
  mkasp (self a) (mode a) (a_session a) (a_pdu a) (a_first a) (a_vars a) (orig_pdu a) (a_status a) (a_index a)
    (oldmode a) (a_next a) x (requests a) (treecache a) (treecache_len a) (treecache_num a) (bulkcache a)
    (cache_store a) (vbcount a).
Definition set_requests (x : list request_info) (a : agent_session) : agent_session :=
  mkasp (self a) (mode a) (a_session a) (a_pdu a) (a_first a) (a_vars a) (orig_pdu a) (a_status a) (a_index a)
    (oldmode a) (a_next a) (reqinfo_mode a) x (treecache a) (treecache_len a) (treecache_num a) (bulkcache a)
    (cache_store a) (vbcount a).
Definition set_treecache (x : option (list tree_cache)) (a : agent_session) : agent_session :=
  mkasp (self a) (mode a) (a_session a) (a_pdu a) (a_first a) (a_vars a) (orig_pdu a) (a_status a) (a_index a)
    (oldmode a) (a_next a) (reqinfo_mode a) (requests a) x (treecache_len a) (treecache_num a) (bulkcache a)
    (cache_store a) (vbcount a).
Definition set_treecache_len (x : Z) (a : agent_session) : agent_session :=
  mkasp (self a) (mode a) (a_session a) (a_pdu a) (a_first a) (a_vars a) (orig_pdu a) (a_status a) (a_index a)
    (oldmode a) (a_next a) (reqinfo_mode a) (requests a) (treecache a) x (treecache_num a) (bulkcache a)
    (cache_store a) (vbcount a).
Definition set_treecache_num (x : Z) (a : agent_session) : agent_session :=
  mkasp (self a) (mode a) (a_session a) (a_pdu a) (a_first a) (a_vars a) (orig_pdu a) (a_status a) (a_index a)
    (oldmode a) (a_next a) (reqinfo_mode a) (requests a) (treecache a) (treecache_len a) x (bulkcache a)
    (cache_store a) (vbcount a).
Definition set_bulkcache (x : list (option Z)) (a : agent_session) : agent_session :=
  mkasp (self a) (mode a) (a_session a) (a_pdu a) (a_first a) (a_vars a) (orig_pdu a) (a_status a) (a_index a)
    (oldmode a) (a_next a) (reqinfo_mode a) (requests a) (treecache a) (treecache_len a) (treecache_num a) x
    (cache_store a) (vbcount a).
Definition set_cache_store (x : list (Z * Z)) (a : agent_session) : agent_session :=
  mkasp (self a) (mode a) (a_session a) (a_pdu a) (a_first a) (a_vars a) (orig_pdu a) (a_status a) (a_index a)
    (oldmode a) (a_next a) (reqinfo_mode a) (requests a) (treecache a) (treecache_len a) (treecache_num a)
    (bulkcache a) x (vbcount a).
Definition set_vbcount (x : Z) (a : agent_session) : agent_session :=
  mkasp (self a) (mode a) (a_session a) (a_pdu a) (a_first a) (a_vars a) (orig_pdu a) (a_status a) (a_index a)
    (oldmode a) (a_next a) (reqinfo_mode a) (requests a) (treecache a) (treecache_len a) (treecache_num a)
    (bulkcache a) (cache_store a) x.

(** A request of [calloc]. *)
Definition zero_request : request_info := mkrequest None None 0 0 0 0 0 0 0 None None None None.

(** [agent_set_cache] *)
Record agent_set_cache : Type := mksetcache {
  sc_transID : Z;
  sc_sess : Z;
  sc_treecache : option (list tree_cache);
  sc_treecache_len : Z;
  sc_treecache_num : Z;
  sc_vbcount : Z;
  sc_requests : list request_info;
  sc_saved_vars : option Z;      (* the list, on the heap [sc_vars] *)
  sc_vars : gmap Z vnode
}.

(** What was done, in order: the handlers of a subtree were called in a mode and
    gave a status, and statuses to their requests; a response was handed to the
    transport, a request object was freed, a trap was sent. *)
Inductive event : Type :=
| Called (asp : Z) (mode : Z) (subtree : Z) (status : Z) (statuses : list Z)
| Answered (asp : Z) (response : pdu)
| Freed (asp : Z)
| Trapped (trap : Z).

(** An element of a chain of handlers; of the helpers of [agent/helpers] the one
    that turns GETBULK into GETNEXT is modelled, other functions are numbers. *)
Inductive access_method : Type := bulk_to_next_helper | Method (f : Z).

Record mib_handler : Type := mkhandler {
  h_access_method : option access_method;
  h_auto_next : bool             (* flags & MIB_HANDLER_AUTO_NEXT *)
}.

(** [netsnmp_handler_registration] *)
Record handler_registration : Type := mkreginfo {
  r_handler : list mib_handler;
  r_modes : Z
}.

(** What a handler makes of one of its requests. *)
Record reply : Type := mkreply {
  rp_delegated : Z;
  rp_processed : Z;
  rp_status : Z;
  rp_var : variable              (* the variable of the request *)
}.

(** [struct view_parameters]: the PDU, the name (none for a null pointer) and
    [check_subtree]. *)
Record view_parameters : Type := mkview { view_pdu : pdu; view_name : option (list Z); view_check_subtree : bool }.

(** The world: the registered handlers, the function of a handler (it sees its
    requests with their variables and answers for each, by its place in the
    array), the access control behind the callbacks, sending, the settings and
    whether the agent is to go on. *)
Class AgentEnv (W : Type) := {
  registration : Z -> handler_registration;
  run_method : Z -> Z -> list (Z * request_info * variable) -> W -> (Z -> reply) * Z * W;
  acm_check : view_parameters -> Z;
  acm_check_initial : view_parameters -> Z;
  snmp_send : Z -> pdu -> W -> Z * Z * W;
  max_getbulk_repeats : Z;
  max_getbulk_responses : Z;
  context_name : pdu -> list Z;
  netsnmp_running : W -> bool
}.

(** The state of the handling of one request: its object and the static data. *)
Record astate (W : Type) : Type := mkastate {
  asp : agent_session;
  areg : registry;
  Sets : list agent_set_cache;
  counters : list Z;         (* statistics[NETSNMP_STAT_MAX_STATS] *)
  aworld : W;
  trace : list event         (* the last one first *)
}.
Arguments mkastate {W}. Arguments asp {W}. Arguments areg {W}. Arguments Sets {W}. Arguments counters {W}. Arguments aworld {W}. Arguments trace {W}.

Definition on_asp {W} (f : agent_session -> agent_session) (s : astate W) : astate W :=
  mkastate (f (asp s)) (areg s) (Sets s) (counters s) (aworld s) (trace s).
Definition set_areg {W} (x : registry) (s : astate W) : astate W := mkastate (asp s) x (Sets s) (counters s) (aworld s) (trace s).
Definition set_Sets {W} (x : list agent_set_cache) (s : astate W) : astate W := mkastate (asp s) (areg s) x (counters s) (aworld s) (trace s).
Definition set_counters {W} (x : list Z) (s : astate W) : astate W := mkastate (asp s) (areg s) (Sets s) x (aworld s) (trace s).
Definition set_aworld {W} (x : W) (s : astate W) : astate W := mkastate (asp s) (areg s) (Sets s) (counters s) x (trace s).
Definition log {W} (e : event) (s : astate W) : astate W := mkastate (asp s) (areg s) (Sets s) (counters s) (aworld s) (e :: trace s).

(** [snmp_increment_statistic] and [snmp_increment_statistic_by] *)
Definition count_statistic {W} (which : Z) : M (astate W) unit :=
  modify (fun s => set_counters (snmp_increment_statistic which (counters s)) s).
Definition snmp_increment_statistic_by {W} (which count : Z) : M (astate W) unit :=
  modify (fun s => set_counters (if (0 <=? which) && (which <? Z.of_nat (length (counters s)))
                                 then alter (fun x => u32 (x + count)) (Z.to_nat which) (counters s) else counters s) s).

(** ** Chains *)

(** [a[i]], if the array has it. *)
Definition cell {A} (a : list A) (i : Z) : option A := if 0 <=? i then a !! Z.to_nat i else None.

(** The variables from [p] on; a chain has no more than there are. *)
Definition variables_from (vars : gmap Z vnode) (p : option Z) : option (list Z) :=
  walk (fun p => next_variable <$> vars !! p) (S (size vars)) p.

(** The requests from [p] on. *)
Definition requests_from (reqs : list request_info) (p : option Z) : option (list Z) :=
  walk (fun i => rq_next <$> cell reqs i) (S (length reqs)) p.

Section access.
Context {W : Type}.

Definition upd (f : agent_session -> agent_session) : M (astate W) unit := modify (on_asp f).

Definition get_request (i : Z) : M (astate W) request_info := s ← get; lift (cell (requests (asp s)) i).
Definition upd_request (i : Z) (f : request_info -> request_info) : M (astate W) unit :=
  q ← get_request i; upd (fun a => set_requests (<[Z.to_nat i := f q]> (requests a)) a).

Definition get_var (p : option Z) : M (astate W) variable := p ← lift p; s ← get; n ← lift (a_vars (asp s) !! p); mret (vn_var n).
Definition upd_node (p : option Z) (f : vnode -> vnode) : M (astate W) unit :=
  p ← lift p; s ← get; n ← lift (a_vars (asp s) !! p); upd (fun a => set_a_vars (<[p := f n]> (a_vars a)) a).
Definition upd_var (p : option Z) (f : variable -> variable) : M (astate W) unit :=
  upd_node p (fun n => set_vn_var (f (vn_var n)) n).
Definition next_of (p : option Z) : M (astate W) (option Z) := p ← lift p; s ← get; n ← lift (a_vars (asp s) !! p); mret (next_variable n).

(** [asp->treecache[i]] *)
Definition get_slot (i : Z) : M (astate W) tree_cache :=
  s ← get; tc ← lift (treecache (asp s)); lift (cell tc i).

(** The requests of a slot of the cache. *)
Definition slot_requests (i : Z) : M (astate W) (list Z) :=
  tc ← get_slot i; s ← get; lift (requests_from (requests (asp s)) (requests_begin tc)).

(** [for (i = 0; i <= asp->treecache_num; i++)] *)
Definition slots (a : agent_session) : list Z := seqZ 0 (treecache_num a + 1).

Definition pdu_variables : M (astate W) (list Z) := s ← get; lift (variables_from (a_vars (asp s)) (a_first (asp s))).
End access.

(** Steps through a computation as far as it is straight. *)
Ltac run1 :=
  lazymatch goal with
  | |- runs (_ ≫= _) _ _ => apply runs_bind
  | |- runs (mret _) _ _ => apply runs_ret
  | |- runs get _ _ => apply runs_get
  | |- runs (gets _) _ _ => apply runs_gets
  | |- runs (modify _) _ _ => apply runs_modify
  | |- runs (upd _) _ _ => apply runs_modify
  | |- runs (count_statistic _) _ _ => apply runs_modify
  | |- runs skip _ _ => apply runs_ret
  | |- runs (lift (Some _)) _ _ => eapply runs_lift; [reflexivity|]
  end.
Ltac run := cbv beta zeta match; repeat (run1; cbv beta zeta match).
