(* ===== verification/AgentRequest.v ===== *)
(** The handling of one request by the agent: the cache of subtrees, the calls of
    the handlers, access control on names and results, the loops of GETNEXT and
    GETBULK and the phases of a SET ([agent/snmp_agent.c],
    [agent/agent_handler.c], [agent/helpers/bulk_to_next.c], [in_a_view] and its
    relatives of [agent/agent_registry.c]). *)
From Stdlib Require Import ZArith Lia.
From stdpp Require Import gmap.
From S2P Require Import Prelude StateMonad Chains Asn1Defs SnmpDefs Oid SnmpVar Pdu Vacm Registry AgentDefs.

Definition is_get_mode (m : Z) : bool := (m =? SNMP_MSG_GET) || (m =? SNMP_MSG_GETNEXT) || (m =? SNMP_MSG_GETBULK).
Definition is_set_mode (m : Z) : bool := (MODE_SET_RESERVE1 <=? m) && (m <=? MODE_SET_UNDO).
Definition is_next_mode (m : Z) : bool := (m =? SNMP_MSG_GETNEXT) || (m =? SNMP_MSG_GETBULK).
Definition MODE_IS_SET (x : Z) : bool := (x <? 128) || (x =? -1) || (x =? SNMP_MSG_SET).

Definition is_exception (t : Z) : bool := (t =? SNMP_NOSUCHOBJECT) || (t =? SNMP_NOSUCHINSTANCE) || (t =? SNMP_ENDOFMIBVIEW).

(** Not yet answered. *)
Definition unanswered (t : Z) : bool := (t =? ASN_NULL) || (t =? ASN_PRIV_RETRY).

Section agent.
Context {W : Type} `{Env : AgentEnv W}.
Abbreviation m A := (M (astate W) A).

(** ** Access control *)

(** The [switch] on the version of the three functions. *)
Definition version_known (p : pdu) : bool :=
  (version p =? SNMP_VERSION_1) || (version p =? SNMP_VERSION_2c) || (version p =? SNMP_VERSION_3).

Definition always_in_view (p : pdu) : bool := negb (Z.land (flags p) UCD_MSG_FLAG_ALWAYS_IN_VIEW =? 0).

Definition in_a_view (name : list Z) (namelen : Z) (p : pdu) (type : Z) : Z :=
  if always_in_view p then VACM_SUCCESS
  else if (version p =? SNMP_VERSION_1) && (type =? ASN_COUNTER64) then VACM_NOTINVIEW
  else if version_known p then acm_check (mkview p (Some (take (Z.to_nat namelen) name)) false)
  else VACM_NOSECNAME.

Definition check_access (p : pdu) : Z :=
  if always_in_view p then 0
  else if version_known p then acm_check_initial (mkview p None false)
  else 1.

Definition netsnmp_acm_check_subtree (p : pdu) (name : list Z) (namelen : Z) : Z :=
  if always_in_view p then 0
  else if version_known p then acm_check (mkview p (Some (take (Z.to_nat namelen) name)) true)
  else 1.

(** ** Errors of requests *)

(** The modes that take exceptions are those of reading. *)
Definition _request_set_error (i mode error_value : Z) : m Z :=
  upd_request i (fun q => set_delegated 0 (set_processed 1 q)) ;;
  (if is_exception error_value then
     if is_get_mode mode then q ← get_request i; upd_var (requestvb q) (set_vp_type error_value)
     else if mode =? MODE_SET_RESERVE1 then upd_request i (set_rq_status SNMP_ERR_NOCREATION)
     else upd_request i (set_rq_status SNMP_ERR_NOSUCHNAME)
   else upd_request i (set_rq_status (if error_value <? 0 then SNMP_ERR_GENERR else error_value))) ;;
  mret 0.

Definition netsnmp_set_request_error (i error_value : Z) : m Z :=
  s ← get; _ ← _request_set_error i (reqinfo_mode (asp s)) error_value; mret error_value.

(** ** Handlers *)

(** The requests of the handler, with their variables. *)
Fixpoint with_vars (rs : list Z) : m (list (Z * request_info * variable)) :=
  match rs with
  | [] => mret []
  | i :: rs => q ← get_request i; v ← get_var (requestvb q); l ← with_vars rs; mret ((i, q, v) :: l)
  end.

Definition call_method (f : Z) (rs : list Z) : m Z :=
  s ← get; args ← with_vars rs;
  let '(replies, ret, w) := run_method f (reqinfo_mode (asp s)) args (aworld s) in
  modify (set_aworld w) ;;
  for_each (fun i =>
    let r := replies i in
    upd_request i (fun q => set_rq_status (rp_status r) (set_processed (rp_processed r) (set_delegated (rp_delegated r) q))) ;;
    q ← get_request i; upd_var (requestvb q) (fun _ => rp_var r)) rs ;;
  mret ret.

Definition netsnmp_bulk_to_next_fix_requests (rs : list Z) : m unit :=
  for_each (fun i =>
    q ← get_request i;
    if 0 <? rq_repeat q then
      v ← get_var (requestvb q);
      if unanswered (vp_type v) then skip
      else
        let range_end := default [] (range_end q) in
        cmp ← lift (snmp_oid_compare (vp_name v) (vp_name_length v) range_end (Z.of_nat (length range_end)));
        next ← next_of (requestvb q);
        match next with
        | Some _ =>
          if cmp <? 0 then
            upd_request i (fun q => set_rq_repeat (rq_repeat q - 1) q) ;;
            upd_var next (set_var_objid (vp_name v) (vp_name_length v)) ;;
            upd_request i (set_requestvb next) ;;
            upd_var next (set_vp_type ASN_PRIV_RETRY) ;;
            upd_request i (fun q => if 2 =? inclusive q then set_inclusive 0 q else q)
          else skip
        | None => skip
        end
    else skip) rs.

(** [netsnmp_call_handler] on a chain; [netsnmp_bulk_to_next_helper] calls the rest
    of it in the mode GETNEXT and then keeps the caller from doing so. *)
Fixpoint netsnmp_call_handler (hs : list mib_handler) (rs : list Z) : m Z :=
  match hs with
  | [] => mret SNMP_ERR_GENERR
  | h :: next =>
    match h_access_method h with
    | None => mret (match next with [] => SNMP_ERR_NOERROR | _ => SNMP_ERR_GENERR end)
    | Some method =>
      '(ret, override) ←
        match method with
        | Method f => ret ← call_method f rs; mret (ret, false)
        | bulk_to_next_helper =>
          mode ← gets (fun s => reqinfo_mode (asp s));
          if mode =? SNMP_MSG_GETBULK then
            upd (set_reqinfo_mode SNMP_MSG_GETNEXT) ;;
            ret ← netsnmp_call_handler next rs;
            upd (set_reqinfo_mode SNMP_MSG_GETBULK) ;;
            netsnmp_bulk_to_next_fix_requests rs ;;
            mret (ret, true)
          else mret (SNMP_ERR_NOERROR, false)
        end;
      if negb (h_auto_next h) || override then mret ret
      else match next with [] => mret ret | _ => netsnmp_call_handler next rs end
    end
  end.

Definition netsnmp_call_handlers (reginfo : handler_registration) (rs : list Z) : m Z :=
  match rs, r_handler reginfo with
  | [], _ | _, [] => mret SNMP_ERR_GENERR
  | _, _ =>
    mode ← gets (fun s => reqinfo_mode (asp s));
    let call := for_each (fun i => upd_request i (set_processed 0)) rs ;; netsnmp_call_handler (r_handler reginfo) rs in
    if is_get_mode mode then
      if Z.land (r_modes reginfo) HANDLER_CAN_GETANDGETNEXT =? 0 then mret SNMP_ERR_NOERROR else call
    else if is_set_mode mode then
      if Z.land (r_modes reginfo) HANDLER_CAN_SET =? 0
      then for_each (fun i => _ ← netsnmp_set_request_error i SNMP_ERR_NOTWRITABLE; skip) rs ;; mret SNMP_ERR_NOERROR
      else call
    else mret SNMP_ERR_GENERR
  end.

(** ** Status *)

Definition netsnmp_check_requests_status (rs : list Z) (look_for_specific : Z) : m Z :=
  for_each (fun i =>
    q ← get_request i; a ← gets asp;
    if negb (rq_status q =? SNMP_ERR_NOERROR) && ((look_for_specific =? 0) || (rq_status q =? look_for_specific))
       && (negb (look_for_specific =? 0) || (a_index a =? 0) || (rq_index q <? a_index a))
    then upd (fun a => set_a_status (rq_status q) (set_a_index (rq_index q) a))
    else skip) rs ;;
  gets (fun s => a_status (asp s)).

Definition netsnmp_check_all_requests_status (look_for_specific : Z) : m Z :=
  s ← get;
  for_each (fun i => rs ← slot_requests i; _ ← netsnmp_check_requests_status rs look_for_specific; skip) (slots (asp s)) ;;
  gets (fun s => a_status (asp s)).

(** The loops of [netsnmp_check_for_delegated]. *)
Fixpoint any_delegated (rs : list Z) : m bool :=
  match rs with
  | [] => mret false
  | i :: rs => q ← get_request i; if negb (delegated q =? 0) then mret true else any_delegated rs
  end.

Fixpoint any_slot_delegated (ks : list Z) : m bool :=
  match ks with
  | [] => mret false
  | k :: ks => rs ← slot_requests k; d ← any_delegated rs; if (d : bool) then mret true else any_slot_delegated ks
  end.

Definition netsnmp_check_for_delegated : m bool :=
  s ← get;
  match treecache (asp s) with
  | None => mret false
  | Some _ => any_slot_delegated (slots (asp s))
  end.

(** The status a pass through the handlers looks for. *)
Definition specific_error (mode : Z) : Z :=
  if mode =? MODE_SET_COMMIT then SNMP_ERR_COMMITFAILED
  else if mode =? MODE_SET_UNDO then SNMP_ERR_UNDOFAILED
  else 0.

(** For the trace. *)
Fixpoint statuses_of (rs : list Z) : m (list Z) :=
  match rs with
  | [] => mret []
  | i :: rs => q ← get_request i; l ← statuses_of rs; mret (rq_status q :: l)
  end.

(** The loop of [handle_var_requests]. *)
Fixpoint var_requests_loop (ks : list Z) (final_status : Z) : m Z :=
  match ks with
  | [] => mret final_status
  | k :: ks =>
    tc ← get_slot k; s ← get;
    tp ← lift (tc_subtree tc); t ← lift (subtrees (areg s) !! tp);
    rs ← slot_requests k;
    status ← match st_reginfo t with
             | Some g => netsnmp_call_handlers (registration g) rs
             | None => mret SNMP_ERR_GENERR
             end;
    rs ← slot_requests k;
    statuses ← statuses_of rs;
    modify (log (Called (self (asp s)) (reqinfo_mode (asp s)) tp status statuses)) ;;
    retstatus ← netsnmp_check_requests_status rs (specific_error (mode (asp s)));
    let status := if retstatus =? SNMP_ERR_NOERROR then status else retstatus in
    var_requests_loop ks (if (final_status =? SNMP_ERR_NOERROR) && negb (status =? SNMP_ERR_NOERROR) then status else final_status)
  end.

Definition handle_var_requests : m Z :=
  upd (fun a => set_reqinfo_mode (mode a) a) ;;
  s ← get; var_requests_loop (slots (asp s)) SNMP_ERR_NOERROR.

(** ** Access control on results *)

(** [for (k = j, vbc = vb, vb2 = vb->next_variable; k > -2 && vbc && vb2; ...)]: the
    contents move up the chain, [turns] times at most. *)
Fixpoint move_up (turns : nat) (vbc vb2 : option Z) : m unit :=
  match turns, vbc, vb2 with
  | S turns, Some _, Some _ =>
    v ← get_var vb2; upd_node vbc (fun _ => mkvnode v vb2) ;;
    next ← next_of vb2; move_up turns vb2 next
  | _, _, _ => skip
  end.

(** The loop over the variables of the request [i], with [turns] = [j + 1]; counts
    the errors. *)
Fixpoint acm_loop (turns : nat) (i type : Z) (vb : option Z) (earliest : bool) (ret : Z) : m Z :=
  match turns, vb with
  | S j, Some _ =>
    v ← get_var vb; s ← get;
    '(earliest, ret) ←
      (if unanswered (vp_type v) || (in_a_view (vp_name v) (vp_name_length v) (a_pdu (asp s)) (vp_type v) =? VACM_SUCCESS)
       then mret (earliest, ret)
       else
         q ← get_request i;
         earliest ←
           (if rq_repeat q <? orig_repeat q then
              upd_request i (fun q => set_rq_repeat (rq_repeat q + 1) q) ;;
              (if earliest then skip else upd_request i (set_requestvb vb)) ;;
              next ← next_of vb;
              (match next with
               | Some _ => n ← get_var next; if unanswered (vp_type n) then skip else move_up (S (S j)) vb next
               | None => skip
               end) ;;
              mret true
            else mret earliest);
         upd_var vb (snmp_set_var_no_value type) ;;
         mret (earliest, ret + 1));
    next ← next_of vb; acm_loop j i type next earliest ret
  | _, _ => mret ret
  end.

Fixpoint acm_requests (rs : list Z) (type ret : Z) : m Z :=
  match rs with
  | [] => mret ret
  | i :: rs =>
    q ← get_request i;
    ret ← acm_loop (Z.to_nat (rq_repeat q + 1)) i type (requestvb_start q) false ret;
    acm_requests rs type ret
  end.

Fixpoint acm_slots (ks : list Z) (type ret : Z) : m Z :=
  match ks with
  | [] => mret ret
  | k :: ks => rs ← slot_requests k; ret ← acm_requests rs type ret; acm_slots ks type ret
  end.

Definition check_acm (type : Z) : m Z := s ← get; acm_slots (slots (asp s)) type 0.

(** ** The cache of subtrees *)

Definition netsnmp_get_local_cachid (cache_store : list (Z * Z)) (globalid : Z) : Z :=
  match list_find (fun c => c.1 = globalid) cache_store with Some (_, (_, cacheid)) => cacheid | None => -1 end.

Definition set_slot (k : Z) (tc : tree_cache) : m unit :=
  s ← get; l ← lift (treecache (asp s));
  if (0 <=? k) && (k <? Z.of_nat (length l)) then upd (set_treecache (Some (<[Z.to_nat k := tc]> l))) else lift None.

(** The slot at [mallocslot], for the subtree [tp] and its first request. *)
Definition mallocslot (cacheid tp i : Z) : m unit :=
  s ← get;
  (if treecache_len (asp s) <=? treecache_num (asp s) then
     let len := treecache_len (asp s) + CACHE_GROW_SIZE in
     let l := default [] (treecache (asp s)) ++ replicate (Z.to_nat CACHE_GROW_SIZE) (mktc None None None) in
     if (0 <=? cacheid) && (cacheid + CACHE_GROW_SIZE <=? Z.of_nat (length l)) then
       upd (fun a => set_treecache_len len (set_treecache (Some
         (take (Z.to_nat cacheid) l ++ replicate (Z.to_nat CACHE_GROW_SIZE) (mktc None None None) ++ drop (Z.to_nat (cacheid + CACHE_GROW_SIZE)) l)) a))
     else lift None
   else skip) ;;
  tc ← get_slot cacheid;
  set_slot cacheid (mktc (Some tp) (Some i) (requests_end tc)) ;;
  s ← get; t ← lift (subtrees (areg s) !! tp);
  modify (set_areg (set_subtrees (<[tp := set_st_cacheid cacheid t]> (subtrees (areg s))) (areg s))).

(** [++(asp->treecache_num)] *)
Definition next_slot : m Z := upd (fun a => set_treecache_num (treecache_num a + 1) a) ;; gets (fun s => treecache_num (asp s)).

(** Place them in a cache: the slot for a request [i] of the subtree [tp]. *)
Definition cache_slot (tp i : Z) : m Z :=
  s ← get; t ← lift (subtrees (areg s) !! tp);
  if negb (global_cacheid t =? 0) then
    let cacheid := netsnmp_get_local_cachid (cache_store (asp s)) (global_cacheid t) in
    if negb (cacheid =? -1) then mret cacheid
    else
      cacheid ← next_slot;
      upd (fun a => set_cache_store ((global_cacheid t, cacheid) :: cache_store a) a) ;;
      mallocslot cacheid tp i ;; mret cacheid
  else
    hit ← (if (-1 <? st_cacheid t) && (st_cacheid t <=? treecache_num (asp s))
           then tc ← get_slot (st_cacheid t); mret (bool_decide (tc_subtree tc = Some tp)) else mret false);
    if (hit : bool) then mret (st_cacheid t)
    else cacheid ← next_slot; mallocslot cacheid tp i ;; mret cacheid.

(** The access control's view of the range of a subtree. *)
Definition subtree_view (t : subtree) : m Z :=
  s ← get;
  prefix_len ← lift (netsnmp_oid_find_prefix (Some (start_a t)) (start_len t) (end_a t) (end_len t));
  mret (if prefix_len <? 1 then VACM_NOTINVIEW else netsnmp_acm_check_subtree (a_pdu (asp s)) (start_a t) prefix_len).

(** [while (result == VACM_NOTINVIEW)]: the subtree to ask, from [tp] on. *)
Fixpoint visible_subtree (fuel : nat) (tp : option Z) : m (option Z) :=
  match fuel, tp with
  | _, None => mret None
  | O, _ => lift None
  | S fuel, Some p =>
    s ← get; t ← lift (subtrees (areg s) !! p);
    result ← subtree_view t;
    if result =? VACM_NOTINVIEW then visible_subtree fuel (st_next t) else mret (Some p)
  end.

(** The request [i] becomes the last one of the slot. *)
Definition link_request (cacheid i : Z) : m unit :=
  tc ← get_slot cacheid;
  (match requests_end tc with Some e => upd_request e (set_rq_next (Some i)) | None => skip end) ;;
  upd_request i (fun q => set_rq_prev (requests_end tc) (set_rq_next None q)) ;;
  tc ← get_slot cacheid;
  set_slot cacheid (mktc (tc_subtree tc) (requests_begin tc) (Some i)).

(** What the request is filled with before its place is looked for, and after. *)
Definition fill_request (i vbcount varbind_ptr tp : Z) : m unit :=
  s ← get;
  upd_request i (fun q => set_rq_subtree (Some tp) (set_rq_status 0 (set_processed 0 (set_delegated 0 (set_rq_index vbcount q))))) ;;
  (if MODE_IS_SET (command (a_pdu (asp s))) then skip
   else
     v ← get_var (Some varbind_ptr);
     (if vp_type v =? ASN_PRIV_INCL_RANGE then upd_request i (set_inclusive 1) else skip) ;;
     upd_var (Some varbind_ptr) (set_vp_type ASN_NULL)).

Definition attach_request (cacheid i varbind_ptr tp : Z) : m unit :=
  s ← get; t ← lift (subtrees (areg s) !! tp);
  upd_request i (set_range_end (if is_next_mode (command (a_pdu (asp s))) then take (Z.to_nat (end_len t)) <$> end_a t else None)) ;;
  link_request cacheid i ;;
  upd_request i (fun q => set_requestvb (Some varbind_ptr) (set_requestvb_start (Some varbind_ptr) q)).

(** The part of [netsnmp_add_varbind_to_cache] for the subtree [tp]. *)
Definition add_request (vbcount varbind_ptr tp : Z) : m Z :=
  let i := vbcount - 1 in
  (if i <? 0 then lift None else skip) ;;
  fill_request i vbcount varbind_ptr tp ;;
  cacheid ← cache_slot tp i;
  attach_request cacheid i varbind_ptr tp ;;
  mret i.

Definition netsnmp_add_varbind_to_cache (vbcount varbind_ptr : Z) (tp : option Z) : m (option Z) :=
  s ← get;
  let command := command (a_pdu (asp s)) in
  tp ← (if is_next_mode command then visible_subtree (chain_fuel (areg s)) tp else mret tp);
  match tp with
  | None =>
    (if is_next_mode command then upd_var (Some varbind_ptr) (set_vp_type SNMP_ENDOFMIBVIEW)
     else if (command =? SNMP_MSG_SET) || (command =? SNMP_MSG_GET) then upd_var (Some varbind_ptr) (set_vp_type SNMP_NOSUCHOBJECT)
     else skip) ;;
    mret None
  | Some tp => i ← add_request vbcount varbind_ptr tp; mret (Some i)
  end.

(** The variables of a GETBULK are repeated; a new one goes behind [vbptr]. *)
Definition fresh_var (vars : gmap Z vnode) : Z := map_fold (fun k _ x => Z.max (k + 1) x) 0 vars.

Definition set_bulkcache_at (k : Z) (p : Z) : m unit :=
  s ← get;
  if (0 <=? k) && (k <? Z.of_nat (length (bulkcache (asp s))))
  then upd (fun a => set_bulkcache (<[Z.to_nat k := Some p]> (bulkcache a)) a) else lift None.

Fixpoint add_repeats (turns : nat) (vbptr bulkcount : Z) : m (Z * Z) :=
  match turns with
  | O => mret (vbptr, bulkcount)
  | S turns =>
    s ← get;
    let new := fresh_var (a_vars (asp s)) in
    upd (fun a => set_a_vars (<[new := mkvnode (set_vp_type ASN_NULL zero_variable) None]> (a_vars a)) a) ;;
    upd_node (Some vbptr) (set_next_variable (Some new)) ;;
    set_bulkcache_at bulkcount new ;;
    add_repeats turns new (bulkcount + 1)
  end.

(** [*prevNext = p]: the link before the current variable. *)
Definition set_link (prevNext p : option Z) : m unit :=
  match prevNext with
  | None => upd (set_a_first p)
  | Some _ => upd_node prevNext (set_next_variable p)
  end.

(** What [netsnmp_create_subtree_cache] does with the variable [p], the one with the
    number [vbcount]; [n] non-repeaters are left. *)
Definition cache_variable (vbcount p n : Z) : m Z :=
  v ← get_var (Some p); s ← get;
  let q := a_pdu (asp s) in
  '(r, tp) ← lift (netsnmp_subtree_find (areg s) (vp_name v) (vp_name_length v) None (context_name q));
  modify (set_areg r) ;;
  let checked := (command q =? SNMP_MSG_GET) || (command q =? SNMP_MSG_SET) in
  let view := if checked then in_a_view (vp_name v) (vp_name_length v) q (vp_type v) else VACM_SUCCESS in
  if (command q =? SNMP_MSG_SET) && negb (view =? VACM_SUCCESS) then
    upd (set_a_index vbcount) ;; mret SNMP_ERR_NOACCESS
  else
    (if view =? VACM_SUCCESS then
       request ← netsnmp_add_varbind_to_cache vbcount p tp;
       match request with
       | Some i =>
         if command q =? SNMP_MSG_GETBULK then
           let r := if n <=? 0 then errindex q - 1 else 0 in upd_request i (fun rq => set_rq_repeat r (set_orig_repeat r rq))
         else skip
       | None => skip
       end
     else upd_var (Some p) (snmp_set_var_no_value SNMP_NOSUCHOBJECT)) ;;
    mret SNMP_ERR_NOERROR.

(** The [for] loop of [netsnmp_create_subtree_cache], over the variables as they
    were. *)
Fixpoint create_cache_loop (vbs : list Z) (vbcount bulkcount n : Z) (prevNext : option Z) : m Z :=
  match vbs with
  | [] => mret SNMP_ERR_NOERROR
  | p :: vbs =>
    vbsave ← next_of (Some p); s ← get;
    let q := a_pdu (asp s) in
    let bulk := command q =? SNMP_MSG_GETBULK in
    if bulk && (n <=? 0) && (errindex q <=? 0) then
      set_link prevNext vbsave ;;
      upd (fun a => set_vbcount (AgentDefs.vbcount a - 1) (set_a_vars (delete p (a_vars a)) a)) ;;
      create_cache_loop vbs vbcount bulkcount n prevNext
    else
      bulkcount ←
        (if bulk && (n <=? 0) then
           set_bulkcache_at bulkcount p ;;
           '(last, bulkcount) ← add_repeats (Z.to_nat (errindex q - 1)) p (bulkcount + 1);
           upd_node (Some last) (set_next_variable vbsave) ;; mret bulkcount
         else mret bulkcount);
      let vbcount := vbcount + 1 in
      status ← cache_variable vbcount p n;
      if negb (status =? SNMP_ERR_NOERROR) then mret status
      else create_cache_loop vbs vbcount bulkcount (if bulk && (0 <? n) then n - 1 else n) (Some p)
  end.

(** The limit on the repetitions of a GETBULK with [r] repeaters. *)
Definition bulk_limit (r : Z) : Z :=
  let maxresponses := if max_getbulk_responses =? 0 then 100 else max_getbulk_responses in
  let most := INT_MAX / 8 in
  let maxresponses := if (maxresponses <? 0) || (most <? maxresponses) then most else maxresponses in
  if (max_getbulk_repeats <=? 0) || (maxresponses / r <? max_getbulk_repeats) then maxresponses / r else max_getbulk_repeats.

(** The preparation of a GETBULK, which gives the number of non-repeaters. *)
Definition getbulk_prep : m Z :=
  vbs ← pdu_variables;
  let count := Z.of_nat (length vbs) in
  upd (fun a => set_a_pdu (set_errindex (Z.max 0 (errindex (a_pdu a))) (set_errstat (Z.max 0 (errstat (a_pdu a))) (a_pdu a))) a) ;;
  s ← get;
  let n := if errstat (a_pdu (asp s)) <? count then errstat (a_pdu (asp s)) else count in
  let r := count - n in
  (if r <=? 0 then upd (set_bulkcache [])
   else
     upd (fun a => if bulk_limit r <? errindex (a_pdu a) then set_a_pdu (set_errindex (bulk_limit r) (a_pdu a)) a else a) ;;
     s ← get;
     upd (set_bulkcache (replicate (Z.to_nat (n + errindex (a_pdu (asp s)) * r)) None))) ;;
  mret n.

Definition netsnmp_create_subtree_cache : m Z :=
  s ← get;
  (match treecache (asp s) with
   | None =>
     if treecache_len (asp s) =? 0 then
       let len := Z.max (1 + vbcount (asp s) / 4) 16 in
       upd (fun a => set_treecache_len len (set_treecache (Some (replicate (Z.to_nat len) (mktc None None None))) a))
     else skip
   | Some _ => skip
   end) ;;
  upd (set_treecache_num (-1)) ;;
  n ← (if command (a_pdu (asp s)) =? SNMP_MSG_GETBULK then getbulk_prep else mret 0);
  vbs ← pdu_variables;
  create_cache_loop vbs 0 0 n None.

(** The loop of [netsnmp_reassign_requests]. *)
Definition netsnmp_reassign_requests : m unit :=
  upd (fun a => set_treecache (Some (replicate (Z.to_nat (treecache_len a)) (mktc None None None))) a) ;;
  upd (set_treecache_num (-1)) ;; upd (set_cache_store []) ;;
  s ← get;
  for_each (fun i =>
    q ← get_request i;
    match requestvb q with
    | None => skip
    | Some p =>
      v ← get_var (Some p);
      tp ← lift (rq_subtree q); s ← get; t ← lift (subtrees (areg s) !! tp);
      if vp_type v =? ASN_NULL then _ ← netsnmp_add_varbind_to_cache (rq_index q) p (st_next t); skip
      else if vp_type v =? ASN_PRIV_RETRY then
        upd_var (Some p) (set_vp_type ASN_NULL) ;;
        _ ← netsnmp_add_varbind_to_cache (rq_index q) p (Some tp); skip
      else skip
    end) (seqZ 0 (vbcount (asp s))).

(** ** The loop of GETNEXT and GETBULK *)

(** The body of [check_getnext_results] for the request [i]: whether it counts. *)
Definition check_getnext_result (special : bool) (i : Z) : m bool :=
  q ← get_request i;
  v ← get_var (requestvb q);
  let retry := if inclusive q =? 0 then true
               else (vp_type v =? ASN_NULL) || (vp_type v =? SNMP_NOSUCHINSTANCE) || (vp_type v =? SNMP_NOSUCHOBJECT) in
  (if special && retry then upd_var (requestvb q) (snmp_set_var_no_value ASN_PRIV_RETRY) else skip) ;;
  let range_end := default [] (range_end q) in
  cmp ← lift (snmp_oid_compare (vp_name v) (vp_name_length v) range_end (Z.of_nat (length range_end)));
  (if 0 <=? cmp then
     upd_request i (set_inclusive 2) ;;
     upd_var (requestvb q) (fun v => snmp_set_var_no_value ASN_NULL (set_var_objid range_end (Z.of_nat (length range_end)) v))
   else skip) ;;
  v ← get_var (requestvb q);
  (if vp_type v =? SNMP_ENDOFMIBVIEW then
     upd_var (requestvb q) (set_vp_type ASN_NULL) ;; upd_request i (set_inclusive 1)
   else skip) ;;
  v ← get_var (requestvb q); q ← get_request i; s ← get;
  mret (unanswered (vp_type v) || (reqinfo_mode (asp s) =? SNMP_MSG_GETBULK) && (0 <? rq_repeat q)).

Fixpoint getnext_results (special : bool) (rs : list Z) (count : Z) : m Z :=
  match rs with
  | [] => mret count
  | i :: rs => c ← check_getnext_result special i; getnext_results special rs (if (c : bool) then count + 1 else count)
  end.

Fixpoint getnext_slots (special : bool) (ks : list Z) (count : Z) : m Z :=
  match ks with
  | [] => mret count
  | k :: ks => rs ← slot_requests k; count ← getnext_results special rs count; getnext_slots special ks count
  end.

Definition check_getnext_results : m Z :=
  s ← get;
  let special := mode (asp s) =? SNMP_MSG_GET in
  (if special then upd (fun a => set_mode (oldmode a) a) else skip) ;;
  getnext_slots special (slots (asp s)) 0.

(** [fuel] bounds the number of passes. *)
Fixpoint handle_getnext_loop (fuel : nat) : m Z :=
  s ← get;
  if negb (netsnmp_running (aworld s)) then mret SNMP_ERR_GENERR
  else
    d ← netsnmp_check_for_delegated;
    if (d : bool) then mret SNMP_ERR_NOERROR
    else
      _ ← check_acm ASN_PRIV_RETRY;
      count ← check_getnext_results;
      if count =? 0 then
        s ← get; mret (if netsnmp_running (aworld s) then SNMP_ERR_NOERROR else SNMP_ERR_GENERR)
      else
        netsnmp_reassign_requests ;;
        status ← handle_var_requests;
        if negb (status =? SNMP_ERR_NOERROR) then mret status
        else match fuel with O => lift None | S fuel => handle_getnext_loop fuel end.

(** ** The phases of a SET *)

Definition one_pass (a : agent_session) : bool := has_flag (flags (a_pdu a)) UCD_MSG_FLAG_ONE_PASS_ONLY.

(** The first [switch] of [handle_set]; the statistic apart. *)
Definition next_set_mode (mode status : Z) : Z :=
  let failed := negb (status =? SNMP_ERR_NOERROR) in
  if mode =? MODE_SET_BEGIN then MODE_SET_RESERVE1
  else if mode =? MODE_SET_RESERVE1 then if failed then MODE_SET_FREE else MODE_SET_RESERVE2
  else if mode =? MODE_SET_RESERVE2 then if failed then MODE_SET_FREE else MODE_SET_ACTION
  else if mode =? MODE_SET_ACTION then if failed then MODE_SET_UNDO else MODE_SET_COMMIT
  else if mode =? MODE_SET_COMMIT then if failed then FINISHED_FAILURE else FINISHED_SUCCESS
  else if mode =? MODE_SET_UNDO then FINISHED_FAILURE
  else if mode =? MODE_SET_FREE then FINISHED_FAILURE
  else mode.

Definition finished (mode : Z) : bool := (mode =? FINISHED_SUCCESS) || (mode =? FINISHED_FAILURE).

(** The pass through the handlers in [handle_set]. *)
Definition set_pass : m Z :=
  s ← get;
  (if finished (mode (asp s)) then skip
   else
     status ← handle_var_requests;
     s ← get;
     if negb (status =? SNMP_ERR_NOERROR) && (a_status (asp s) =? SNMP_ERR_NOERROR)
        || (status =? SNMP_ERR_COMMITFAILED) || (status =? SNMP_ERR_UNDOFAILED)
     then upd (set_a_status status) else skip) ;;
  gets (fun s => a_status (asp s)).

Definition handle_set : m Z :=
  s ← get;
  (if one_pass (asp s) then skip
   else
     (if mode (asp s) =? MODE_SET_BEGIN then
        count_statistic STAT_SNMPINSETREQUESTS ;; upd (set_a_status SNMP_ERR_NOERROR)
      else skip) ;;
     upd (set_mode (next_set_mode (mode (asp s)) (a_status (asp s))))) ;;
  set_pass.

(** A SET has at most five phases and the end. *)
Fixpoint set_loop (fuel : nat) : m Z :=
  s ← get;
  if finished (mode (asp s)) then mret (a_status (asp s))
  else
    match fuel with
    | O => lift None
    | S fuel =>
      _ ← handle_set;
      d ← netsnmp_check_for_delegated;
      if (d : bool) then mret SNMP_ERR_NOERROR
      else s ← get; if one_pass (asp s) then mret (a_status (asp s)) else set_loop fuel
    end.

Definition handle_set_loop : m Z := set_loop 6.

(** ** The state a sub-agent keeps between the phases *)

Definition save_set_cache : m unit :=
  s ← get;
  let a := asp s in
  modify (fun s => set_Sets (mksetcache (transid (a_pdu a)) (a_session a) (treecache a) (treecache_len a) (treecache_num a)
                                        (vbcount a) (requests a) (a_first a) (a_vars a) :: Sets s) s) ;;
  upd (fun a => set_requests [] (set_a_first None (set_treecache None a))).

Definition get_set_cache : m Z :=
  s ← get;
  match list_find (fun c => sc_sess c = a_session (asp s) /\ sc_transID c = transid (a_pdu (asp s))) (Sets s) with
  | None => mret SNMP_ERR_GENERR
  | Some (k, c) =>
    modify (fun s => set_Sets (delete k (Sets s)) s) ;;
    upd (fun a => set_treecache_num (sc_treecache_num c) (set_treecache_len (sc_treecache_len c) (set_treecache (sc_treecache c) a))) ;;
    (match sc_saved_vars c with
     | Some _ => upd (fun a => set_vbcount (sc_vbcount c) (set_a_vars (sc_vars c) (set_a_first (sc_saved_vars c) a)))
     | None => skip
     end) ;;
    upd (set_requests (sc_requests c)) ;;
    (match sc_requests c with [] => lift None | _ => skip end) ;;
    mret SNMP_ERR_NOERROR
  end.

(** ** The whole of a request *)

(** [snmp_replace_var_types] *)
Definition snmp_replace_var_types (old_type new_type : Z) : m unit :=
  vbs ← pdu_variables;
  for_each (fun p => v ← get_var (Some p); if vp_type v =? old_type then upd_var (Some p) (snmp_set_var_no_value new_type) else skip) vbs.

(** The loop over the variables at the start of [handle_pdu]; gives [inclusives]. *)
Fixpoint clear_values (vbs : list Z) (inclusives : Z) : m Z :=
  match vbs with
  | [] => mret inclusives
  | p :: vbs =>
    v ← get_var (Some p);
    if vp_type v =? ASN_PRIV_INCL_RANGE then clear_values vbs (inclusives + 1)
    else upd_var (Some p) (snmp_set_var_no_value ASN_NULL) ;; clear_values vbs inclusives
  end.

Definition resumed_set (command : Z) : bool := (MODE_SET_RESERVE2 <=? command) && (command <=? MODE_SET_UNDO).

(** The first [switch]: the status, and [inclusives]. *)
Definition prepare_pdu : m (Z * Z) :=
  s ← get;
  let c := command (a_pdu (asp s)) in
  if resumed_set c then status ← get_set_cache; mret (status, 0)
  else
    vbs ← pdu_variables;
    inclusives ← (if is_get_mode c then clear_values vbs 0 else mret 0);
    upd (set_vbcount (Z.of_nat (length vbs))) ;;
    (match vbs with [] => skip | _ => upd (set_requests (replicate (length vbs) zero_request)) end) ;;
    status ← netsnmp_create_subtree_cache; mret (status, inclusives).

(** [fuel] bounds the passes of GETNEXT. *)
Definition handle_pdu (fuel : nat) : m Z :=
  '(status, inclusives) ← prepare_pdu;
  if negb (status =? SNMP_ERR_NOERROR) then mret status
  else
    upd (fun a => set_mode (command (a_pdu a)) a) ;;
    s ← get;
    let c := mode (asp s) in
    if c =? SNMP_MSG_GET then
      count_statistic STAT_SNMPINGETREQUESTS ;;
      _ ← check_acm SNMP_NOSUCHOBJECT;
      status ← handle_var_requests;
      (if status =? SNMP_ERR_NOERROR then snmp_replace_var_types ASN_NULL SNMP_NOSUCHINSTANCE else skip) ;;
      mret status
    else if is_next_mode c then
      (if c =? SNMP_MSG_GETNEXT then count_statistic STAT_SNMPINGETNEXTS else skip) ;;
      (if negb (inclusives =? 0) then upd (fun a => set_mode SNMP_MSG_GET (set_oldmode (mode a) a)) else skip) ;;
      status ← handle_var_requests;
      if negb (status =? SNMP_ERR_NOERROR) && (inclusives =? 0) then mret status
      else
        (if negb (status =? SNMP_ERR_NOERROR) then upd (set_a_status SNMP_ERR_NOERROR) else skip) ;;
        handle_getnext_loop fuel
    else if c =? SNMP_MSG_SET then
      denied ← check_acm SNMP_NOSUCHOBJECT;
      if negb (denied =? 0) then mret SNMP_ERR_NOTWRITABLE
      else upd (set_mode MODE_SET_BEGIN) ;; handle_set_loop
    else if (MODE_SET_BEGIN <=? c) && (c <=? MODE_SET_UNDO) then
      upd (fun a => set_a_pdu (set_flags (Z.lor (flags (a_pdu a)) UCD_MSG_FLAG_ONE_PASS_ONLY) (a_pdu a)) a) ;;
      handle_set_loop
    else if c =? SNMP_MSG_RESPONSE then count_statistic STAT_SNMPINGETRESPONSES ;; mret SNMP_ERR_NOERROR
    else if (c =? SNMP_MSG_TRAP) || (c =? SNMP_MSG_TRAP2) then count_statistic STAT_SNMPINTRAPS ;; mret SNMP_ERR_NOERROR
    else count_statistic STAT_SNMPINASNPARSEERRS ;; mret SNMPERR_GENERR.

(** ** The response *)

(** The [endOfMibView] entries of the column [col]: [prev] is the entry before,
    none at the start, with the entries [js] to go. *)
Fixpoint fix_column (col repeats : Z) (js : list Z) (prev : option variable) : m unit :=
  match js with
  | [] => skip
  | j :: js =>
    s ← get;
    curr ← lift (bulkcache (asp s) !! Z.to_nat (col * repeats + j));
    c ← get_var curr;
    (if (vp_name_length c =? 0) || (vp_type c =? SNMP_ENDOFMIBVIEW) then
       let prev := match prev with None => variables (orig_pdu (asp s)) !! Z.to_nat col | Some p => Some p end in
       match prev with
       | Some p => upd_var curr (fun c => snmp_set_var_no_value SNMP_ENDOFMIBVIEW (set_var_objid (vp_name p) (vp_name_length p) c))
       | None => skip
       end
     else skip) ;;
    c ← get_var curr; fix_column col repeats js (Some c)
  end.

(** Links the entry [k] of the bulk cache to the entry [l]. *)
Definition link_entries (k l : Z) : m unit :=
  s ← get; x ← lift (bulkcache (asp s) !! Z.to_nat k); y ← lift (bulkcache (asp s) !! Z.to_nat l);
  upd_node x (set_next_variable y).

(** [for (j = 1, prev = ...; j < r; ...)]: [all_eoMib] and [prev] at the end. *)
Fixpoint row_ends (turns : nat) (prev : option Z) : m (bool * option Z) :=
  match turns with
  | O => mret (true, prev)
  | S turns =>
    v ← get_var prev;
    if negb (vp_type v =? SNMP_ENDOFMIBVIEW) then mret (false, prev)
    else next ← next_of prev; row_ends turns next
  end.

Definition free_from (p : option Z) : m unit :=
  s ← get; ids ← lift (variables_from (a_vars (asp s)) p);
  upd (fun a => set_a_vars (foldr delete (a_vars a) ids) a).

Fixpoint truncate_rows (rows : list Z) (r : Z) : m unit :=
  match rows with
  | [] => skip
  | i :: rows =>
    s ← get; first ← lift (bulkcache (asp s) !! Z.to_nat i); v ← get_var first;
    if vp_type v =? SNMP_ENDOFMIBVIEW then
      '(all_eoMib, prev) ← row_ends (Z.to_nat (r - 1)) first;
      if (all_eoMib : bool) then next ← next_of prev; free_from next ;; upd_node prev (set_next_variable None)
      else truncate_rows rows r
    else truncate_rows rows r
  end.

Definition _reorder_getbulk : m unit :=
  s ← get;
  let a := asp s in
  let repeats := errindex (a_pdu a) in
  let n := if errstat (a_pdu a) <? vbcount a then errstat (a_pdu a) else vbcount a in
  let r := Z.max 0 (vbcount a - n) in
  if (vbcount a =? 0) || (r =? 0) then skip
  else
    for_each (fun i => fix_column i repeats (seqZ 0 repeats) None) (seqZ 0 r) ;;
    for_each (fun i => for_each (fun j => link_entries (i * repeats + j) ((i + 1) * repeats + j)) (seqZ 0 repeats)) (seqZ 0 (r - 1)) ;;
    for_each (fun j => link_entries ((r - 1) * repeats + j) (j + 1)) (seqZ 0 (repeats - 1)) ;;
    truncate_rows (seqZ 0 repeats) r.

Definition _fix_endofmibview : m unit :=
  s ← get;
  if vbcount (asp s) =? 0 then skip
  else
    vbs ← pdu_variables;
    for_each (fun '(p, ovb) =>
      v ← get_var (Some p);
      if vp_type v =? SNMP_ENDOFMIBVIEW then upd_var (Some p) (set_var_objid (vp_name ovb) (vp_name_length ovb)) else skip)
      (zip vbs (variables (orig_pdu (asp s)))).

(** The error status an SNMPv1 manager is told for a SET. *)
Definition v1_set_error (e : Z) : option Z :=
  if is_one_of e [SNMP_ERR_WRONGVALUE; SNMP_ERR_WRONGENCODING; SNMP_ERR_WRONGTYPE; SNMP_ERR_WRONGLENGTH; SNMP_ERR_INCONSISTENTVALUE]
  then Some SNMP_ERR_BADVALUE
  else if is_one_of e [SNMP_ERR_NOACCESS; SNMP_ERR_NOTWRITABLE; SNMP_ERR_NOCREATION; SNMP_ERR_INCONSISTENTNAME; SNMP_ERR_AUTHORIZATIONERROR]
  then Some SNMP_ERR_NOSUCHNAME
  else if is_one_of e [SNMP_ERR_RESOURCEUNAVAILABLE; SNMP_ERR_COMMITFAILED; SNMP_ERR_UNDOFAILED] then Some SNMP_ERR_GENERR
  else None.

(** The values an SNMPv1 manager does not know become an error: the loop over the
    variables, [i] being the index of the next one. *)
Fixpoint v1_values (vbs : list Z) (i status : Z) : m Z :=
  match vbs with
  | [] => mret status
  | p :: vbs =>
    v ← get_var (Some p);
    if is_exception (vp_type v) || (vp_type v =? ASN_COUNTER64)
    then upd (fun a => set_a_index i (set_a_status SNMP_ERR_NOSUCHNAME a)) ;; v1_values vbs (i + 1) SNMP_ERR_NOSUCHNAME
    else v1_values vbs (i + 1) status
  end.

(** The counter of a status. *)
Definition error_statistic (status : Z) : option Z :=
  match (if status =? SNMP_ERR_BADVALUE then Some SNMP_ERR_BADVALUE
         else if status =? SNMP_ERR_NOSUCHNAME then Some SNMP_ERR_NOSUCHNAME
         else if status =? SNMP_ERR_GENERR then Some SNMP_ERR_GENERR else v1_set_error status) with
  | Some e => Some (if e =? SNMP_ERR_BADVALUE then STAT_SNMPOUTBADVALUES
                    else if e =? SNMP_ERR_NOSUCHNAME then STAT_SNMPOUTNOSUCHNAMES else STAT_SNMPOUTGENERRS)
  | None => if status =? SNMP_ERR_TOOBIG then Some STAT_SNMPOUTTOOBIGS else None
  end.

(** The variables as a list, for sending. *)
Fixpoint collect_vars (vbs : list Z) : m (list variable) :=
  match vbs with
  | [] => mret []
  | p :: vbs => v ← get_var (Some p); l ← collect_vars vbs; mret (v :: l)
  end.

(** [netsnmp_wrap_up_request] on the object: up to the response, which it gives. *)
Definition wrap_up_response (status : Z) : m pdu :=
  upd (fun a => if negb (status =? 0) && (a_status a =? 0) then set_a_status status a else a) ;;
  s ← get;
  let c := command (a_pdu (asp s)) in
  (if (MODE_SET_BEGIN <=? c) && (c <=? MODE_SET_ACTION) then save_set_cache
   else if c =? SNMP_MSG_GETNEXT then _fix_endofmibview
   else if c =? SNMP_MSG_GETBULK then _reorder_getbulk
   else skip) ;;
  s ← get;
  let v1 := version (a_pdu (asp s)) =? SNMP_VERSION_1 in
  status ←
    (if (c =? SNMP_MSG_SET) && v1 then
       match v1_set_error (a_status (asp s)) with
       | Some e => upd (set_a_status e) ;; mret e
       | None => mret status
       end
     else mret status);
  status ← (if negb (c =? SNMP_MSG_SET) && v1 then vbs ← pdu_variables; v1_values vbs 1 status else mret status);
  (match error_statistic status with Some e => count_statistic e | None => skip end) ;;
  s ← get;
  response ←
    (if status =? SNMP_ERR_NOERROR then
       vbs ← pdu_variables;
       snmp_increment_statistic_by (if c =? SNMP_MSG_SET then STAT_SNMPINTOTALSETVARS else STAT_SNMPINTOTALREQVARS) (Z.of_nat (length vbs)) ;;
       l ← collect_vars vbs;
       mret (set_variables l (a_pdu (asp s)))
     else mret (orig_pdu (asp s)));
  s ← get;
  mret (set_command SNMP_MSG_RESPONSE (set_errstat (a_status (asp s)) (set_errindex (a_index (asp s)) response))).

(** ... and the sending. *)
Definition netsnmp_wrap_up_request (status : Z) : m unit :=
  response ← wrap_up_response status;
  s ← get;
  let '(_, _, w) := snmp_send (a_session (asp s)) response (aworld s) in
  modify (fun s => set_aworld w (log (Answered (self (asp s)) response) s)) ;;
  count_statistic STAT_SNMPOUTPKTS ;; count_statistic STAT_SNMPOUTGETRESPONSES.
End agent.
