(* ===== verification/AgentQueue.v ===== *)
(** The requests the agent is working on ([agent/snmp_agent.c]): requests whose
    handlers have delegated their work wait in one list, requests that came while
    a SET is being processed wait in another one, in order.  Both lists are chained
    by the same member [next] of the request objects, which are on the heap and
    are freed when the response is out. *)
From Stdlib Require Import ZArith Lia.
From stdpp Require Import gmap.
From S2P Require Import Prelude StateMonad Chains Asn1Defs SnmpDefs Oid SnmpVar Pdu Vacm Registry AgentDefs AgentRequest.

Definition SNMPERR_USM_AUTHENTICATIONFAILURE : Z := -46.
Definition SNMP_TRAP_AUTHFAIL : Z := 4.

(** The static variables, the heap and the world.  [agent_session_list] is always
    empty: nothing is ever put on it. *)
Record amachine (W : Type) : Type := mkamachine {
  asps : gmap Z agent_session;
  agent_delegated_list : option Z;
  netsnmp_agent_queued_list : option Z;
  netsnmp_processing_set : option Z;
  m_reg : registry;
  m_Sets : list agent_set_cache;
  m_counters : list Z;
  m_world : W;
  m_trace : list event
}.
Arguments mkamachine {W}. Arguments asps {W}. Arguments agent_delegated_list {W}. Arguments netsnmp_agent_queued_list {W}.
Arguments netsnmp_processing_set {W}. Arguments m_reg {W}. Arguments m_Sets {W}. Arguments m_counters {W}. Arguments m_world {W}.
Arguments m_trace {W}.

Section setters.
Context {W : Type}.
Implicit Types s : amachine W.
Definition set_asps (x : gmap Z agent_session) s : amachine W :=
  mkamachine x (agent_delegated_list s) (netsnmp_agent_queued_list s) (netsnmp_processing_set s) (m_reg s) (m_Sets s) (m_counters s) (m_world s) (m_trace s).
Definition set_delegated_list (x : option Z) s : amachine W :=
  mkamachine (asps s) x (netsnmp_agent_queued_list s) (netsnmp_processing_set s) (m_reg s) (m_Sets s) (m_counters s) (m_world s) (m_trace s).
Definition set_queued_list (x : option Z) s : amachine W :=
  mkamachine (asps s) (agent_delegated_list s) x (netsnmp_processing_set s) (m_reg s) (m_Sets s) (m_counters s) (m_world s) (m_trace s).
Definition set_processing_set (x : option Z) s : amachine W :=
  mkamachine (asps s) (agent_delegated_list s) (netsnmp_agent_queued_list s) x (m_reg s) (m_Sets s) (m_counters s) (m_world s) (m_trace s).
Definition m_log (e : event) s : amachine W :=
  mkamachine (asps s) (agent_delegated_list s) (netsnmp_agent_queued_list s) (netsnmp_processing_set s) (m_reg s) (m_Sets s) (m_counters s) (m_world s) (e :: m_trace s).
Definition m_count (which : Z) s : amachine W :=
  mkamachine (asps s) (agent_delegated_list s) (netsnmp_agent_queued_list s) (netsnmp_processing_set s) (m_reg s) (m_Sets s) (snmp_increment_statistic which (m_counters s)) (m_world s) (m_trace s).
(** The part of the machine the handling of the request [a] works on, and back. *)
Definition focus (a : agent_session) s : astate W := mkastate a (m_reg s) (m_Sets s) (m_counters s) (m_world s) (m_trace s).
Definition unfocus (p : Z) s (t : astate W) : amachine W :=
  mkamachine (<[p := asp t]> (asps s)) (agent_delegated_list s) (netsnmp_agent_queued_list s) (netsnmp_processing_set s)
    (areg t) (Sets t) (counters t) (aworld t) (trace t).
End setters.

Section agent.
Context {W : Type} `{Env : AgentEnv W}.
Abbreviation q A := (M (amachine W) A).

(** An operation of [AgentRequest] on the object at [p]. *)
Definition on_request {A} (p : Z) (k : M (astate W) A) : q A :=
  fun s => a ← asps s !! p; match k (focus a s) with Some (x, t) => Some (x, unfocus p s t) | None => None end.

Definition asp_at (p : Z) : q agent_session := s ← get; lift (asps s !! p).
Definition upd_asp (p : Z) (f : agent_session -> agent_session) : q unit :=
  a ← asp_at p; modify (fun s => set_asps (<[p := f a]> (asps s)) s).

(** The objects of a list. *)
Definition list_from (s : amachine W) (p : option Z) : option (list Z) :=
  walk (fun p => a_next <$> asps s !! p) (S (size (asps s))) p.

Definition netsnmp_check_delegated_chain_for (p : Z) : q bool :=
  s ← get; l ← lift (list_from s (agent_delegated_list s)); mret (bool_decide (p ∈ l)).

Definition netsnmp_check_for_delegated_and_add (p : Z) : q bool :=
  d ← on_request p netsnmp_check_for_delegated;
  if (d : bool) then
    c ← netsnmp_check_delegated_chain_for p;
    (if (c : bool) then skip
     else s ← get; upd_asp p (set_a_next (agent_delegated_list s)) ;; modify (set_delegated_list (Some p))) ;;
    mret true
  else mret false.

(** The loop of [netsnmp_remove_from_delegated], from [curr] on. *)
Fixpoint remove_loop (l : list Z) (p : Z) (prev : option Z) : q unit :=
  match l with
  | [] => skip
  | curr :: l =>
    if negb (curr =? p) then remove_loop l p (Some curr)
    else
      a ← asp_at p;
      match prev with
      | Some r => upd_asp r (set_a_next (a_next a))
      | None => modify (set_delegated_list (a_next a))
      end
  end.

Definition netsnmp_remove_from_delegated (p : Z) : q unit :=
  s ← get; l ← lift (list_from s (agent_delegated_list s)); remove_loop l p None.

(** [free_agent_snmp_session] *)
Definition free_agent_snmp_session (p : Z) : q unit :=
  _ ← asp_at p; netsnmp_remove_from_delegated p ;; modify (fun s => m_log (Freed p) (set_asps (delete p (asps s)) s)).

Definition netsnmp_remove_and_free_agent_snmp_session (p : Z) : q unit := free_agent_snmp_session p.

(** The loop of [netsnmp_add_queued]: it looks at the element [p] next; [fuel]
    bounds the elements it looks at. *)
Fixpoint queue_loop (fuel : nat) (p : Z) (curr : option Z) : q unit :=
  match fuel, curr with
  | _, None => skip
  | O, _ => lift None
  | S fuel, Some c =>
    if c =? p then skip
    else
      a ← asp_at c;
      (match a_next a with None => upd_asp c (set_a_next (Some p)) | Some _ => skip end) ;;
      a ← asp_at c; queue_loop fuel p (a_next a)
  end.

Definition netsnmp_add_queued (p : Z) : q unit :=
  s ← get;
  match netsnmp_agent_queued_list s with
  | None => modify (set_queued_list (Some p))
  | Some h => queue_loop (S (S (size (asps s)))) p (Some h)
  end.

(** [netsnmp_wrap_up_request] *)
Definition wrap_up (p status : Z) : q unit :=
  s ← get;
  (if bool_decide (netsnmp_processing_set s = Some p) then modify (set_processing_set None) else skip) ;;
  on_request p (netsnmp_wrap_up_request status) ;;
  netsnmp_remove_and_free_agent_snmp_session p.

(** [fuel] bounds the passes of GETNEXT. *)
Definition netsnmp_handle_request (fuel : nat) (p : Z) : q unit :=
  c ← netsnmp_check_delegated_chain_for p;
  s ← get; a ← asp_at p;
  let is_set := command (a_pdu a) =? SNMP_MSG_SET in
  queued ←
    (if negb (c : bool) && negb (bool_decide (netsnmp_processing_set s = Some p)) then
       match netsnmp_processing_set s with
       | Some _ => netsnmp_add_queued p ;; mret true
       | None =>
         if is_set then
           modify (set_processing_set (Some p)) ;;
           match agent_delegated_list s with
           | Some _ => netsnmp_add_queued p ;; mret true
           | None => mret false
           end
         else mret false
       end
     else mret false);
  if (queued : bool) then skip
  else
    status ← on_request p (handle_pdu fuel);
    d ← netsnmp_check_for_delegated_and_add p;
    if (d : bool) then upd_asp p (set_a_status status) else wrap_up p status.

Definition netsnmp_check_transaction_id (transaction_id : Z) : q bool :=
  s ← get; l ← lift (list_from s (agent_delegated_list s));
  (fix go (l : list Z) : q bool :=
     match l with
     | [] => mret false
     | r :: l => a ← asp_at r; if transid (a_pdu a) =? transaction_id then mret true else go l
     end) l.

Definition check_delayed_request (fuel : nat) (p : Z) : q unit :=
  a ← asp_at p;
  let finish := d ← on_request p netsnmp_check_for_delegated; if (d : bool) then skip else wrap_up p SNMP_ERR_NOERROR in
  let settop :=
    if one_pass a then finish
    else
      _ ← on_request p handle_set_loop;
      a ← asp_at p;
      if negb (finished (mode a)) then
        d ← netsnmp_check_for_delegated_and_add p;
        if (d : bool) && (a_status a =? 0) then upd_asp p (set_a_status SNMP_ERR_NOERROR) else skip
      else finish in
  if is_next_mode (mode a) then
    _ ← on_request p (netsnmp_check_all_requests_status 0);
    _ ← on_request p (handle_getnext_loop fuel);
    d ← on_request p netsnmp_check_for_delegated;
    (if (d : bool) then
       t ← netsnmp_check_transaction_id (transid (a_pdu a));
       if (t : bool) then skip
       else
         c ← netsnmp_check_delegated_chain_for p;
         if (c : bool) then skip
         else s ← get; upd_asp p (set_a_next (agent_delegated_list s)) ;; modify (set_delegated_list (Some p))
     else skip) ;;
    finish
  else if mode a =? MODE_SET_COMMIT then _ ← on_request p (netsnmp_check_all_requests_status SNMP_ERR_COMMITFAILED); settop
  else if mode a =? MODE_SET_UNDO then _ ← on_request p (netsnmp_check_all_requests_status SNMP_ERR_UNDOFAILED); settop
  else if (MODE_SET_BEGIN <=? mode a) && (mode a <=? MODE_SET_FREE) then settop
  else finish.

(** The first loop of [netsnmp_check_outstanding_agent_requests]; [turns] bounds
    its turns. *)
Fixpoint outstanding_loop (fuel turns : nat) (curr prev_asp : option Z) : q unit :=
  match turns, curr with
  | _, None => skip
  | O, _ => lift None
  | S turns, Some p =>
    a ← asp_at p;
    let next_asp := a_next a in
    d ← on_request p netsnmp_check_for_delegated;
    if (d : bool) then outstanding_loop fuel turns next_asp (Some p)
    else
      (match prev_asp with
       | Some r => upd_asp r (set_a_next next_asp)
       | None => modify (set_delegated_list next_asp)
       end) ;;
      upd_asp p (set_a_next None) ;;
      _ ← on_request p (netsnmp_check_all_requests_status 0);
      check_delayed_request fuel p ;;
      s ← get;
      outstanding_loop fuel turns next_asp
        (match prev_asp with
         | None => if bool_decide (agent_delegated_list s = Some p) then Some p else None
         | Some _ => prev_asp
         end)
  end.

(** The second loop. *)
Fixpoint queued_loop (fuel turns : nat) : q unit :=
  s ← get;
  match netsnmp_agent_queued_list s with
  | None => skip
  | Some p =>
    match turns with
    | O => lift None
    | S turns =>
      a ← asp_at p;
      if (command (a_pdu a) =? SNMP_MSG_SET) && bool_decide (agent_delegated_list s <> None)
      then modify (set_processing_set (Some p))
      else
        modify (set_queued_list (a_next a)) ;;
        netsnmp_handle_request fuel p ;;
        s ← get;
        match netsnmp_processing_set s with
        | Some _ => skip
        | None => queued_loop fuel turns
        end
    end
  end.

Definition netsnmp_check_outstanding_agent_requests (fuel : nat) : q unit :=
  s ← get;
  outstanding_loop fuel (S (size (asps s))) (agent_delegated_list s) None ;;
  s ← get;
  if bool_decide (netsnmp_processing_set s <> None) && bool_decide (agent_delegated_list s <> None) then skip
  else queued_loop fuel (S (size (asps s))).

(** The variables of a PDU as objects. *)
Fixpoint load_vars (vs : list variable) (k : Z) : gmap Z vnode :=
  match vs with
  | [] => ∅
  | v :: vs => <[k := mkvnode v (match vs with [] => None | _ => Some (k + 1) end)]> (load_vars vs (k + 1))
  end.

(** [init_agent_snmp_session]; [p] is the address [calloc] gives. *)
Definition init_agent_snmp_session (p session : Z) (pd : pdu) : agent_session :=
  mkasp p MODE_SET_RESERVE1 session (set_variables [] pd) (match variables pd with [] => None | _ => Some 0 end) (load_vars (variables pd) 0) pd
        SNMP_ERR_NOERROR 0 0 None 0 [] None 0 (-1) [] [] 0.

(** [handle_snmp_packet]; [p] is the address of the new object if one is made. *)
Definition handle_snmp_packet (fuel : nat) (p op session s_snmp_errno : Z) (pd : pdu) (magic : option Z) : q Z :=
  if negb (op =? NETSNMP_CALLBACK_OP_RECEIVED_MESSAGE) then mret 1
  else if is_one_of (command pd) [SNMP_MSG_TRAP; SNMP_MSG_INFORM; SNMP_MSG_TRAP2] then
    modify (m_count STAT_SNMPUNKNOWNPDUHANDLERS) ;; mret 1
  else if (version pd =? SNMP_VERSION_3) && (s_snmp_errno =? SNMPERR_USM_AUTHENTICATIONFAILURE) then
    modify (m_log (Trapped SNMP_TRAP_AUTHFAIL)) ;; mret 1
  else
    p ← match magic with
        | None => modify (fun s => set_asps (<[p := init_agent_snmp_session p session pd]> (asps s)) s) ;; mret p
        | Some p => mret p
        end;
    a ← asp_at p;
    let access_ret := check_access (a_pdu a) in
    if access_ret =? 0 then netsnmp_handle_request fuel p ;; mret 1
    else if access_ret =? VACM_NOSUCHCONTEXT then
      modify (m_count STAT_SNMPUNKNOWNCONTEXTS) ;; netsnmp_remove_and_free_agent_snmp_session p ;; mret 0
    else
      modify (m_log (Trapped SNMP_TRAP_AUTHFAIL)) ;;
      if negb (version (a_pdu a) =? SNMP_VERSION_1) && negb (version (a_pdu a) =? SNMP_VERSION_2c) then
        on_request p
          (s ← get; vbs ← pdu_variables; l ← collect_vars vbs;
           let response := set_variables l (set_command SNMP_MSG_RESPONSE (set_errstat SNMP_ERR_AUTHORIZATIONERROR (a_pdu (asp s)))) in
           count_statistic STAT_SNMPOUTPKTS ;;
           let '(_, _, w) := snmp_send (a_session (asp s)) response (aworld s) in
           modify (fun s => set_aworld w (log (Answered (self (asp s)) response) s))) ;;
        netsnmp_remove_and_free_agent_snmp_session p ;; mret 1
      else netsnmp_remove_and_free_agent_snmp_session p ;; mret 0.
End agent.
