(* ===== verification/AgentPasses.v ===== *)
(** What the handling of a request leaves alone, and what keeps it from going out
    of bounds: the cache of subtrees and the chains of requests are well formed,
    names are identifiers, and nothing a handler does changes that.  The calls of
    handlers return, whatever the handlers answer, and change only what is the
    handlers' to change.  A pass of a request through the handlers of all its
    subtrees, [handle_var_requests], calls each once, in order, and its status
    tells whether one of them reported an error. *)
From Stdlib Require Import ZArith Lia.
From stdpp Require Import gmap.
From S2P Require Import Prelude StateMonad Chains Asn1Defs SnmpDefs Oid SnmpVar Pdu Vacm Registry AgentDefs.
From S2P Require Import AgentRequest.

Definition var_ok (v : variable) : Prop := oid_ok (vp_name v) (vp_name_length v).

#[export] Instance var_ok_dec v : Decision (var_ok v).
Proof. unfold var_ok. apply _. Defined.

Definition zero_oid_ok : oid_ok [] 0.
Proof. by_decide. Qed.
#[export] Hint Resolve zero_oid_ok : snmp.

Lemma oid_ok_take o len : oid_ok o len -> oid_ok (take (Z.to_nat len) o) len.
Proof. intros (H1 & H2 & H3). split_and!; [lia|rewrite length_take; lia|done|by apply list.Forall_take]. Qed.

Lemma var_ok_set_objid o len v : oid_ok o len -> var_ok (set_var_objid o len v).
Proof. apply oid_ok_take. Qed.
#[export] Hint Resolve var_ok_set_objid : snmp.

Lemma cell_lookup {A} (l : list A) i x : cell l i = Some x -> 0 <= i /\ l !! Z.to_nat i = Some x.
Proof. unfold cell. destruct (Z.leb_spec 0 i); [auto|done]. Qed.

Lemma cell_in {A} (l : list A) i : 0 <= i < Z.of_nat (length l) -> exists x, cell l i = Some x.
Proof. intros H. unfold cell. rewrite (proj2 (Z.leb_le _ _)) by lia. apply lookup_lt_is_Some_2. lia. Qed.

Lemma cell_range {A} (l : list A) i x : cell l i = Some x -> 0 <= i < Z.of_nat (length l).
Proof. intros [Hi Hl]%cell_lookup. apply lookup_lt_Some in Hl. lia. Qed.

Lemma cell_fmap {A B} (f : A -> B) (l : list A) i : cell (f <$> l) i = f <$> cell l i.
Proof. unfold cell. destruct (0 <=? i); [apply list_lookup_fmap|done]. Qed.

Lemma cell_insert {A} (l : list A) i x j : 0 <= i < Z.of_nat (length l) ->
  cell (<[Z.to_nat i := x]> l) j = if decide (j = i) then Some x else cell l j.
Proof.
  intros Hi. unfold cell. case_decide as Hj.
  - subst j. rewrite (proj2 (Z.leb_le _ _)) by lia. apply list_lookup_insert_eq. lia.
  - destruct (Z.leb_spec 0 j); [|done]. apply list_lookup_insert_ne. lia.
Qed.

(** ** The parts that stay *)

(** Of a request: all but what handlers change. *)
Definition fixed (q : request_info) : request_info :=
  mkrequest ((fun _ => 0) <$> requestvb q) (range_end q) 0 0 0 0 (rq_index q) 0 (orig_repeat q) (requestvb_start q)
    (rq_next q) (rq_prev q) (rq_subtree q).

(** Of a variable: its place in the list. *)
Definition bare (n : vnode) : vnode := set_vn_var zero_variable n.

Definition skeleton (a : agent_session) : agent_session := set_a_vars (bare <$> a_vars a) (set_requests (fixed <$> requests a) a).

(** A slot of the cache of subtrees, with the requests [rs]. *)
Definition slot_wf (a : agent_session) (r : registry) (k : Z) (rs : list Z) : Prop :=
  exists l tc tp t, treecache a = Some l /\ cell l k = Some tc /\ tc_subtree tc = Some tp /\ subtrees r !! tp = Some t /\
    chain (fun i => rq_next <$> cell (requests a) i) (requests_begin tc) rs /\
    Forall (fun i => exists q p, cell (requests a) i = Some q /\ requestvb q = Some p) rs.

Definition slots_wf (a : agent_session) (r : registry) : Prop := forall k, k ∈ slots a -> exists rs, slot_wf a r k rs.

(** Names are identifiers, links and requests lead to variables. *)
Record contents_ok (a : agent_session) : Prop := mkcontents {
  co_vars : forall p n, a_vars a !! p = Some n -> var_ok (vn_var n) /\ forall p', next_variable n = Some p' -> is_Some (a_vars a !! p');
  co_requests : forall i q, cell (requests a) i = Some q ->
    (forall p, requestvb q = Some p -> is_Some (a_vars a !! p)) /\ (forall e, range_end q = Some e -> oid_ok e (Z.of_nat (length e)))
}.

Lemma skeleton_cell a a' i q : skeleton a' = skeleton a -> cell (requests a) i = Some q ->
  exists q', cell (requests a') i = Some q' /\ fixed q' = fixed q.
Proof.
  intros Hs Hq. assert (H : fixed <$> requests a' = fixed <$> requests a) by by injection Hs.
  assert (Hc : fixed <$> cell (requests a') i = Some (fixed q)) by by rewrite <- cell_fmap, H, cell_fmap, Hq.
  destruct (cell (requests a') i) as [q'|]; [|done]. apply (inj Some) in Hc. eauto.
Qed.

Lemma skeleton_var a a' p n : skeleton a' = skeleton a -> a_vars a !! p = Some n ->
  exists n', a_vars a' !! p = Some n' /\ next_variable n' = next_variable n.
Proof.
  intros Hs Hn. assert (H : bare <$> a_vars a' = bare <$> a_vars a) by by injection Hs.
  assert (Hc : bare <$> a_vars a' !! p = Some (bare n)) by by rewrite <- lookup_fmap, H, lookup_fmap, Hn.
  destruct (a_vars a' !! p) as [n'|]; [|done]. exists n'. split; [done|]. by injection Hc.
Qed.

Lemma skeleton_links a a' : skeleton a' = skeleton a ->
  forall i, rq_next <$> cell (requests a') i = rq_next <$> cell (requests a) i.
Proof.
  intros Hs i. assert (H : fixed <$> requests a' = fixed <$> requests a) by by injection Hs.
  assert (Hc : fixed <$> cell (requests a') i = fixed <$> cell (requests a) i) by by rewrite <- !cell_fmap, H.
  apply (f_equal (fmap rq_next)) in Hc. by destruct (cell (requests a') i), (cell (requests a) i).
Qed.

Lemma fixed_requestvb q q' p : fixed q' = fixed q -> requestvb q = Some p -> exists p', requestvb q' = Some p'.
Proof. intros H Hp. injection H as Hv. rewrite Hp in Hv. destruct (requestvb q'); [eauto|done]. Qed.

Lemma slot_wf_skeleton a a' r k rs : skeleton a' = skeleton a -> slot_wf a r k rs -> slot_wf a' r k rs.
Proof.
  intros Hs (l & tc & tp & t & Hl & Hk & Htp & Ht & Hc & Hrs). exists l, tc, tp, t. split_and!; try done.
  - rewrite <- Hl. by injection Hs.
  - eapply linked_ext; [|exact Hc]. intros i _. by apply skeleton_links.
  - eapply list.Forall_impl; [exact Hrs|]. intros i (q & p & Hq & Hp).
    destruct (skeleton_cell _ _ _ _ Hs Hq) as (q' & Hq' & Hf). destruct (fixed_requestvb _ _ _ Hf Hp) as (p' & Hp'). eauto.
Qed.

Lemma skeleton_slots a a' : skeleton a' = skeleton a -> slots a' = slots a.
Proof. intros Hs. unfold slots. assert (H : treecache_num a' = treecache_num a) by by injection Hs. by rewrite H. Qed.

Lemma slots_wf_skeleton a a' r : skeleton a' = skeleton a -> slots_wf a r -> slots_wf a' r.
Proof.
  intros Hs H k. rewrite (skeleton_slots _ _ Hs). intros Hk. destruct (H k Hk) as (rs & Hrs). exists rs. by eapply slot_wf_skeleton.
Qed.

(** The requests keep their variables, and the variables of no request are as they
    were. *)
Definition others_kept (a0 a : agent_session) : Prop :=
  (forall i, requestvb <$> cell (requests a) i = requestvb <$> cell (requests a0) i) /\
  (forall p, (forall i q, cell (requests a0) i = Some q -> requestvb q <> Some p) -> a_vars a !! p = a_vars a0 !! p).

Lemma others_kept_refl a : others_kept a a.
Proof. done. Qed.

Lemma others_kept_trans a0 a1 a2 : others_kept a0 a1 -> others_kept a1 a2 -> others_kept a0 a2.
Proof.
  intros [H1 H2] [H3 H4]. split; [intros i; by rewrite H3|]. intros p Hp. rewrite H4; [by apply H2|]. intros i q Hq Hv.
  specialize (H1 i). rewrite Hq in H1. destruct (cell (requests a0) i) as [q0|] eqn:Hq0; [|done]. apply (inj Some) in H1. apply (Hp i q0 Hq0). by rewrite <- H1.
Qed.

Section frames.
Context {W : Type}.
Implicit Types s : astate W.

(** [s] is [s0] after handlers and the like: what they do not change is as it was,
    and the contents are in order. *)
Record keeps (s0 s : astate W) : Prop := mkkeeps {
  ke_skeleton : skeleton (asp s) = skeleton (asp s0);
  ke_areg : areg s = areg s0;
  ke_Sets : Sets s = Sets s0;
  ke_counters : counters s = counters s0;
  ke_trace : trace s = trace s0;
  ke_contents : contents_ok (asp s);
  ke_others : reqinfo_mode (asp s0) <> SNMP_MSG_GETBULK -> others_kept (asp s0) (asp s)
}.

Lemma keeps_refl s : contents_ok (asp s) -> keeps s s.
Proof. by constructor. Qed.

Lemma keeps_trans s0 s1 s2 : keeps s0 s1 -> keeps s1 s2 -> keeps s0 s2.
Proof.
  intros [H1 ? ? ? ? ? Ho] [? ? ? ? ? ? Ho']. constructor; [by etransitivity..|done|].
  intros Hm. eapply others_kept_trans; [by apply Ho|]. apply Ho'. by rewrite (f_equal reqinfo_mode H1 : reqinfo_mode (asp s1) = reqinfo_mode (asp s0)).
Qed.

Definition good s : Prop := slots_wf (asp s) (areg s) /\ contents_ok (asp s).

Lemma good_keeps s0 s : good s0 -> keeps s0 s -> good s.
Proof. intros [Hs _] Hk. split; [|by apply Hk]. rewrite (ke_areg _ _ Hk). eapply slots_wf_skeleton; [by apply Hk|done]. Qed.

(** A request with a variable. *)
Definition served s (i : Z) : Prop := exists q p, cell (requests (asp s)) i = Some q /\ requestvb q = Some p.

Lemma served_keeps s0 s i : keeps s0 s -> served s0 i -> served s i.
Proof.
  intros Hk (q & p & Hq & Hp). destruct (skeleton_cell _ _ _ _ (ke_skeleton _ _ Hk) Hq) as (q' & Hq' & Hf).
  destruct (fixed_requestvb _ _ _ Hf Hp) as (p' & Hp'). by exists q', p'.
Qed.

Lemma served_back s0 s i : keeps s0 s -> served s i -> served s0 i.
Proof.
  intros Hk (q & p & Hq & Hp). destruct (skeleton_cell _ _ _ _ (eq_sym (ke_skeleton _ _ Hk)) Hq) as (q' & Hq' & Hf).
  destruct (fixed_requestvb _ _ _ Hf Hp) as (p' & Hp'). by exists q', p'.
Qed.

(** ** Accesses *)

Lemma runs_get_request i q (Q : request_info -> astate W -> Prop) s :
  cell (requests (asp s)) i = Some q -> Q q s -> runs (get_request i) Q s.
Proof. intros Hq HQ. unfold get_request. run. eapply runs_lift; eauto. Qed.

Lemma runs_upd_request i f q (Q : unit -> astate W -> Prop) s :
  cell (requests (asp s)) i = Some q ->
  Q tt (on_asp (fun a => set_requests (<[Z.to_nat i := f q]> (requests a)) a) s) -> runs (upd_request i f) Q s.
Proof. intros Hq HQ. unfold upd_request. run. eapply runs_get_request; [done|]. run. done. Qed.

Lemma runs_get_var p n (Q : variable -> astate W -> Prop) s :
  a_vars (asp s) !! p = Some n -> Q (vn_var n) s -> runs (get_var (Some p)) Q s.
Proof. intros Hn HQ. unfold get_var. run. eapply runs_lift; [done|]. run. done. Qed.

Lemma runs_next_of p n (Q : option Z -> astate W -> Prop) s :
  a_vars (asp s) !! p = Some n -> Q (next_variable n) s -> runs (next_of (Some p)) Q s.
Proof. intros Hn HQ. unfold next_of. run. eapply runs_lift; [done|]. run. done. Qed.

Lemma runs_upd_node p f n (Q : unit -> astate W -> Prop) s :
  a_vars (asp s) !! p = Some n ->
  Q tt (on_asp (fun a => set_a_vars (<[p := f n]> (a_vars a)) a) s) -> runs (upd_node (Some p) f) Q s.
Proof. intros Hn HQ. unfold upd_node. run. eapply runs_lift; [done|]. run. done. Qed.
End frames.

(** Handlers leave names in order. *)
Class HandlersOk (W : Type) {E : AgentEnv W} : Prop := handlers_names : forall f mode args w replies ret w',
  run_method f mode args w = (replies, ret, w') -> Forall (fun x => var_ok x.2) args -> Forall (fun x => var_ok (rp_var (replies x.1.1))) args.

Section handlers.
Context {W : Type} `{Env : AgentEnv W}.
Implicit Types s : astate W.

Lemma insert_fixed (l : list request_info) (i : nat) q q' : l !! i = Some q -> fixed q' = fixed q -> fixed <$> <[i := q']> l = fixed <$> l.
Proof. intros Hq Hf. rewrite list_fmap_insert, Hf. apply list_insert_id. by rewrite list_lookup_fmap, Hq. Qed.

Lemma insert_bare (h : gmap Z vnode) p n n' : h !! p = Some n -> bare n' = bare n -> bare <$> <[p := n']> h = bare <$> h.
Proof. intros Hn Hf. rewrite fmap_insert, Hf. apply insert_id. by rewrite lookup_fmap, Hn. Qed.

Lemma upd_request_keeps s0 s i f :
  keeps s0 s -> served s0 i ->
  (forall q v, cell (requests (asp s)) i = Some q -> requestvb q = Some v -> fixed (f q) = fixed q /\
     (requestvb (f q) = requestvb q \/
      reqinfo_mode (asp s0) = SNMP_MSG_GETBULK /\ forall p, requestvb (f q) = Some p -> is_Some (a_vars (asp s) !! p))) ->
  runs (upd_request i f) (fun _ => keeps s0) s.
Proof.
  intros Hk Hi Hf. destruct (served_keeps _ _ _ Hk Hi) as (q & p & Hq & Hp). destruct (Hf q p Hq Hp) as [Hfix Hvb].
  eapply runs_upd_request; [done|]. pose proof (cell_range _ _ _ Hq) as Hr.
  destruct Hk as [H1 H2 H3 H4 H5 [Hv Hrq] Ho]. constructor; cbn; try done.
  - rewrite <- H1. unfold skeleton. cbn. by rewrite (insert_fixed _ _ q) by (apply cell_lookup in Hq; tauto).
  - constructor; [exact Hv|]. cbn. intros j q' Hj. rewrite cell_insert in Hj by done. case_decide as Hij; [|by apply (Hrq j)].
    apply (inj Some) in Hj as <-. destruct (Hrq i q Hq) as [Hq1 Hq2]. split.
    + intros p' Hp'. destruct Hvb as [Hsame|[_ H]]; [apply Hq1; by rewrite <- Hsame|by apply H].
    + intros e He. apply Hq2. rewrite <- He. exact (f_equal range_end (eq_sym Hfix)).
  - intros Hm. destruct Hvb as [Hsame|[? _]]; [|done]. apply (others_kept_trans _ (asp s)); [by apply Ho|]. split; [|done].
    intros j. cbn. rewrite cell_insert by done. case_decide as Hij; [|done]. subst. rewrite Hq. cbn. by rewrite Hsame.
Qed.

(** The frequent case: the field is none of those that stay. *)
Lemma upd_request_plain s0 s i f :
  keeps s0 s -> served s0 i -> (forall q, fixed (f q) = fixed q) -> (forall q, requestvb (f q) = requestvb q) ->
  runs (upd_request i f) (fun _ => keeps s0) s.
Proof. intros Hk Hi Hf Hv. apply upd_request_keeps; [done..|]. intros q v _ _. split; [done|by left]. Qed.

Lemma upd_var_keeps s0 s p f :
  keeps s0 s -> is_Some (a_vars (asp s) !! p) ->
  (reqinfo_mode (asp s0) <> SNMP_MSG_GETBULK -> exists i q, cell (requests (asp s)) i = Some q /\ requestvb q = Some p) ->
  (forall n, a_vars (asp s) !! p = Some n -> var_ok (vn_var n) -> var_ok (f (vn_var n))) ->
  runs (upd_var (Some p) f) (fun _ => keeps s0) s.
Proof.
  intros Hk [n Hn] Hown Hf. unfold upd_var. eapply runs_upd_node; [done|].
  destruct Hk as [H1 H2 H3 H4 H5 [Hv Hrq] Ho]. constructor; cbn; try done.
  - rewrite <- H1. unfold skeleton. cbn. by rewrite (insert_bare _ _ n).
  - assert (Hsome : forall p', is_Some (a_vars (asp s) !! p') -> is_Some (<[p:=set_vn_var (f (vn_var n)) n]> (a_vars (asp s)) !! p')).
    { intros p' Hp'. destruct (decide (p' = p)) as [->|]; [rewrite lookup_insert_eq; eauto|by rewrite lookup_insert_ne]. }
    constructor; cbn.
    + intros p' n'. destruct (decide (p' = p)) as [->|Hne]; [rewrite lookup_insert_eq; intros [= <-]|rewrite lookup_insert_ne by done; intros Hn'].
      * destruct (Hv p n Hn) as [H H']. split; [by apply Hf|]. cbn. intros p' Hp'. apply Hsome. by apply H'.
      * destruct (Hv p' n' Hn') as [H H']. split; [done|]. intros p'' Hp''. apply Hsome. by apply H'.
    + intros i q Hq. destruct (Hrq i q Hq) as [H H']. split; [|done]. intros p' Hp'. apply Hsome. by apply H.
  - intros Hm. apply (others_kept_trans _ (asp s)); [by apply Ho|]. split; [done|]. intros p' Hp'. cbn.
    destruct (Hown Hm) as (i & q & Hq & Hqp). rewrite lookup_insert_ne; [done|]. intros <-. by apply (Hp' i q).
Qed.

Lemma var_forth s0 s p : keeps s0 s -> is_Some (a_vars (asp s0) !! p) -> is_Some (a_vars (asp s) !! p).
Proof. intros Hk [n Hn]. destruct (skeleton_var _ _ _ _ (ke_skeleton _ _ Hk) Hn) as (n' & Hn' & _). eauto. Qed.

Lemma var_back s0 s p : keeps s0 s -> is_Some (a_vars (asp s) !! p) -> is_Some (a_vars (asp s0) !! p).
Proof. intros Hk [n Hn]. destruct (skeleton_var _ _ _ _ (eq_sym (ke_skeleton _ _ Hk)) Hn) as (n' & Hn' & _). eauto. Qed.

(** The variable of a request. *)
Lemma served_var s0 s i : keeps s0 s -> served s0 i ->
  exists q p n, cell (requests (asp s)) i = Some q /\ requestvb q = Some p /\ a_vars (asp s) !! p = Some n /\ var_ok (vn_var n) /\
    (forall p', next_variable n = Some p' -> is_Some (a_vars (asp s) !! p')) /\
    oid_ok (default [] (range_end q)) (Z.of_nat (length (default [] (range_end q)))).
Proof.
  intros Hk Hi. destruct (served_keeps _ _ _ Hk Hi) as (q & p & Hq & Hp). pose proof (ke_contents _ _ Hk) as [Hv Hr].
  destruct (Hr i q Hq) as [H He]. destruct (H p Hp) as [n Hn]. destruct (Hv p n Hn) as [H1 H2]. exists q, p, n. split_and!; try done.
  destruct (range_end q) as [e|]; [by apply He|apply zero_oid_ok].
Qed.

Lemma request_set_error_keeps s0 s i mode e :
  keeps s0 s -> served s0 i -> runs (_request_set_error i mode e) (fun _ => keeps s0) s.
Proof.
  intros Hk Hi. unfold _request_set_error. run. run_by (by apply upd_request_plain). intros _ s1 H1. run.
  assert (H : runs (if is_exception e then
     if is_get_mode mode then q ← get_request i; upd_var (requestvb q) (set_vp_type e)
     else if mode =? MODE_SET_RESERVE1 then upd_request i (set_rq_status SNMP_ERR_NOCREATION)
     else upd_request i (set_rq_status SNMP_ERR_NOSUCHNAME)
   else upd_request i (set_rq_status (if e <? 0 then SNMP_ERR_GENERR else e))) (fun _ => keeps s0) s1).
  { destruct (is_exception e); [|by apply upd_request_plain]. destruct (is_get_mode mode).
    - destruct (served_var _ _ _ H1 Hi) as (q & p & n & Hq & Hp & Hn & _). run. eapply runs_get_request; [done|]. rewrite Hp.
      apply upd_var_keeps; [done|eauto|eauto|done].
    - destruct (mode =? MODE_SET_RESERVE1); by apply upd_request_plain. }
  run_by (exact H). intros _ s2 H2. run. done.
Qed.

Lemma set_request_error_keeps s0 s i e : keeps s0 s -> served s0 i -> runs (netsnmp_set_request_error i e) (fun _ => keeps s0) s.
Proof.
  intros Hk Hi. unfold netsnmp_set_request_error. run. run_by (by apply request_set_error_keeps). intros _ s1 H1. run. done.
Qed.

Lemma with_vars_runs s0 s rs : keeps s0 s -> Forall (served s0) rs ->
  runs (with_vars rs) (fun args s' => s' = s /\ args.*1.*1 = rs /\ Forall (fun x => var_ok x.2) args) s.
Proof.
  intros Hk. induction 1 as [|i rs Hi _ IH]; [by run|]. cbn [with_vars].
  destruct (served_var _ _ _ Hk Hi) as (q & p & n & Hq & Hp & Hn & Hok & _).
  run. eapply runs_get_request; [done|]. rewrite Hp. run. eapply runs_get_var; [done|]. run.
  run_by (exact IH). intros args s' (-> & <- & Hargs). run. by split_and!; [| |constructor].
Qed.

Lemma for_each_keeps {A} s0 s (f : A -> M (astate W) unit) xs :
  keeps s0 s -> (forall x s', x ∈ xs -> keeps s0 s' -> runs (f x) (fun _ => keeps s0) s') -> runs (for_each f xs) (fun _ => keeps s0) s.
Proof. apply runs_for_each. Qed.

Lemma keeps_world s0 s w : keeps s0 s -> keeps s0 (set_aworld w s).
Proof. intros []. by constructor. Qed.

Context `{HOk : !HandlersOk W}.

Lemma call_method_keeps s0 s f rs : keeps s0 s -> Forall (served s0) rs -> runs (call_method f rs) (fun _ => keeps s0) s.
Proof.
  intros Hk Hrs. unfold call_method. run. run_by (by apply (with_vars_runs s0)). intros args s' (-> & Hargs & Hok).
  destruct (run_method f (reqinfo_mode (asp s)) args (aworld s)) as [[replies ret] w'] eqn:Hrun.
  pose proof (handlers_names _ _ _ _ _ _ _ Hrun Hok) as Hnames.
  run. apply (runs_mono _ (fun _ => keeps s0)); [|intros _ s1 H1; run; exact H1]. apply for_each_keeps; [by apply keeps_world|].
  intros i s1 Hin H1. assert (Hi : served s0 i) by (rewrite list.Forall_forall in Hrs; by apply Hrs).
  run. run_by (by apply upd_request_plain). intros _ s2 H2. run.
  destruct (served_var _ _ _ H2 Hi) as (q & p & n & Hq & Hp & Hn & _). eapply runs_get_request; [done|]. rewrite Hp.
  apply upd_var_keeps; [done|eauto|eauto|]. intros _ _ _. rewrite <- Hargs in Hin. apply list_elem_of_fmap in Hin as (y & -> & Hy).
  apply list_elem_of_fmap in Hy as (x & -> & Hx). rewrite list.Forall_forall in Hnames. by apply Hnames.
Qed.

Lemma fix_requests_keeps s0 s rs : keeps s0 s -> reqinfo_mode (asp s0) = SNMP_MSG_GETBULK -> Forall (served s0) rs -> runs (netsnmp_bulk_to_next_fix_requests rs) (fun _ => keeps s0) s.
Proof.
  intros Hk Hbulk Hrs. apply for_each_keeps; [done|]. intros i s1 Hin H1.
  assert (Hi : served s0 i) by (rewrite list.Forall_forall in Hrs; by apply Hrs).
  destruct (served_var _ _ _ H1 Hi) as (q & p & n & Hq & Hp & Hn & Hok & Hnext & Hend).
  run. eapply runs_get_request; [done|]. destruct (0 <? rq_repeat q); [|by run]. rewrite Hp. run.
  eapply runs_get_var; [done|]. destruct (unanswered _); [by run|]. run.
  eapply runs_lift; [by apply snmp_oid_compare_spec|]. run. eapply runs_next_of; [done|].
  destruct (next_variable n) as [p'|] eqn:Hp'; [|by run]. destruct (_ <? 0); [|by run].
  assert (Hp0 : is_Some (a_vars (asp s0) !! p')) by (eapply var_back; eauto).
  run. run_by (by apply upd_request_plain). intros _ s2 H2.
  run. run_by (apply upd_var_keeps; [done|by eauto using var_forth|done|intros ???; apply var_ok_set_objid, Hok]) as _ s3 H3.
  run. run_by (apply upd_request_keeps; [done..|]; intros q' v _ Hv; split; [unfold fixed; by rewrite Hv|right; split; [done|]; cbn; intros ? [= <-]; by eauto using var_forth]) as _ s4 H4.
  run. run_by (apply upd_var_keeps; [done|by eauto using var_forth|done|done]) as _ s5 H5.
  apply upd_request_plain; [done..|intros q'; by destruct (2 =? inclusive q')|intros q'; by destruct (2 =? inclusive q')].
Qed.

(** A call in another mode, inside one in the mode GETBULK. *)
Lemma keeps_in_bulk s0 s k : keeps (on_asp (set_reqinfo_mode k) s0) s -> keeps (on_asp (set_reqinfo_mode SNMP_MSG_GETBULK) s0) (on_asp (set_reqinfo_mode SNMP_MSG_GETBULK) s).
Proof.
  intros [H1 H2 H3 H4 H5 [H6 H7] _]. constructor; try done.
  change (set_reqinfo_mode SNMP_MSG_GETBULK (skeleton (asp s)) = set_reqinfo_mode SNMP_MSG_GETBULK (skeleton (asp s0))). rewrite H1. done.
Qed.

Lemma keeps_reqinfo_mode s0 s : keeps s0 s -> reqinfo_mode (asp s) = reqinfo_mode (asp s0).
Proof. intros H. exact (f_equal reqinfo_mode (ke_skeleton _ _ H)). Qed.

Lemma on_same_mode s : on_asp (set_reqinfo_mode (reqinfo_mode (asp s))) s = s.
Proof. by destruct s as [[] ? ? ? ? ?]. Qed.

Lemma call_handler_keeps hs rs : forall s0 s, keeps s0 s -> Forall (served s0) rs -> runs (netsnmp_call_handler hs rs) (fun _ => keeps s0) s.
Proof.
  induction hs as [|h hs IH]; intros s0 s Hk Hrs; [by run|]. cbn [netsnmp_call_handler].
  destruct (h_access_method h) as [method|]; [|by run]. run.
  apply (runs_mono _ (fun _ => keeps s0)).
  - destruct method as [|f]; [|run; run_by (by apply call_method_keeps) as ret s1 H1; by run].
    run. destruct (Z.eqb_spec (reqinfo_mode (asp s)) SNMP_MSG_GETBULK) as [Hm|]; [|by run]. run.
    set (s' := on_asp (set_reqinfo_mode SNMP_MSG_GETNEXT) s).
    run_by (apply (IH s' s'); [apply keeps_refl; by destruct Hk as [? ? ? ? ? []]|eapply list.Forall_impl; [exact Hrs|intros i; exact (served_keeps _ _ i Hk)]]) as ret s1 H1.
    run. apply (runs_mono _ (fun _ => keeps s0)); [|intros _ s2 H2; by run].
    apply fix_requests_keeps; [|by rewrite <- Hm, (keeps_reqinfo_mode _ _ Hk)|exact Hrs].
    apply keeps_in_bulk in H1. rewrite <- Hm in H1 at 1. rewrite on_same_mode in H1. by eapply keeps_trans.
  - intros [ret override] s1 H1. destruct (negb (h_auto_next h) || override); [by run|]. destruct hs; [by run|]. by apply IH.
Qed.

Lemma call_handlers_keeps s0 s g rs : keeps s0 s -> Forall (served s0) rs -> runs (netsnmp_call_handlers g rs) (fun _ => keeps s0) s.
Proof.
  intros Hk Hrs. assert (Hin : forall i, i ∈ rs -> served s0 i) by by apply list.Forall_forall.
  assert (Hcall : runs (for_each (fun i => upd_request i (set_processed 0)) rs ;; netsnmp_call_handler (r_handler g) rs) (fun _ => keeps s0) s).
  { run. run_by (apply for_each_keeps; [done|]; intros; apply (upd_request_plain s0); auto) as _ s1 H1. by apply call_handler_keeps. }
  unfold netsnmp_call_handlers. destruct rs as [|i rs]; [by run|]. destruct (r_handler g) as [|h hs]; [by run|].
  run. destruct (is_get_mode _); [case_match; [by run|exact Hcall]|]. destruct (is_set_mode _); [|by run].
  case_match; [|exact Hcall]. run. apply (runs_mono _ (fun _ => keeps s0)); [apply for_each_keeps; [exact Hk|]|intros _ s1 H1; by run].
  intros j s1 Hj H1. run. run_by (apply (set_request_error_keeps s0); auto) as _ s2 H2. by run.
Qed.
End handlers.

(** [netsnmp_check_requests_status] on the pair of status and index. *)
Definition look_at (specific : Z) (si : Z * Z) (q : request_info) : Z * Z :=
  if negb (rq_status q =? SNMP_ERR_NOERROR) && ((specific =? 0) || (rq_status q =? specific))
     && (negb (specific =? 0) || (si.2 =? 0) || (rq_index q <? si.2))
  then (rq_status q, rq_index q) else si.

Section status.
Context {W : Type} `{Env : AgentEnv W}.
Implicit Types s : astate W.

Definition status_index s : Z * Z := (a_status (asp s), a_index (asp s)).

Definition set_status_index (si : Z * Z) s : astate W := on_asp (fun a => set_a_status si.1 (set_a_index si.2 a)) s.

Definition requests_at s (rs : list Z) (qs : list request_info) : Prop := Forall2 (fun i q => cell (requests (asp s)) i = Some q) rs qs.

Lemma check_requests_status_runs rs specific qs s :
  requests_at s rs qs ->
  runs (netsnmp_check_requests_status rs specific)
    (fun st s' => let si := fold_left (look_at specific) qs (status_index s) in st = si.1 /\ s' = set_status_index si s) s.
Proof.
  intros Hq. unfold netsnmp_check_requests_status. run.
  apply (runs_mono _ (fun _ s' => s' = set_status_index (fold_left (look_at specific) qs (status_index s)) s));
    [|intros _ s' ->; by run].
  revert s qs Hq. induction rs as [|i rs IH]; intros s qs Hq; inversion Hq as [|? q ? qs' Hi Hqs]; subst; cbn [for_each fold_left].
  - run. by destruct s as [[] ? ? ? ? ?].
  - run. eapply runs_get_request; [done|]. run. unfold look_at at 2. cbn [status_index fst snd].
    destruct (negb (rq_status q =? SNMP_ERR_NOERROR) && _ && _).
    + run. exact (IH (set_status_index (rq_status q, rq_index q) s) qs' Hqs).
    + run. by apply IH.
Qed.
End status.

(** ** What the statuses say *)

(** A status that a pass looking for [specific] takes for an error. *)
Definition reports (specific status : Z) : bool := negb (status =? SNMP_ERR_NOERROR) && ((specific =? 0) || (status =? specific)).

Lemma existsb_false {A B} (f : A -> bool) (g : B -> A) qs : existsb f (g <$> qs) = false <-> Forall (fun q => f (g q) = false) qs.
Proof.
  induction qs as [|q qs IH]; cbn; [split; [constructor|done]|]. rewrite orb_false_iff, list.Forall_cons, IH. done.
Qed.

Definition status_ok (si : Z * Z) : Prop := si.2 = 0 \/ si.1 <> SNMP_ERR_NOERROR.

Lemma fold_look_at specific qs : forall si, status_ok si ->
  let si' := fold_left (look_at specific) qs si in
  status_ok si' /\ (si'.1 = 0 <-> si.1 = 0 /\ Forall (fun q => reports specific (rq_status q) = false) qs).
Proof.
  induction qs as [|q qs IH]; intros si Hsi; cbn.
  - split; [done|]. split; [by split; [|constructor]|tauto].
  - assert (Hq : status_ok (look_at specific si q) /\ ((look_at specific si q).1 = 0 <-> si.1 = 0 /\ reports specific (rq_status q) = false)).
    { unfold look_at, reports, status_ok, SNMP_ERR_NOERROR in *. destruct si as [st ix]; cbn in *.
      destruct (Z.eqb_spec (rq_status q) 0), (Z.eqb_spec specific 0), (Z.eqb_spec (rq_status q) specific), (Z.eqb_spec ix 0), (Z.ltb_spec (rq_index q) ix);
        cbn; intuition (lia || discriminate). }
    destruct Hq as [H1 H2]. destruct (IH _ H1) as [H3 H4]. split; [done|]. rewrite H4, H2, list.Forall_cons. tauto.
Qed.

(** ** Passes *)

Definition strip (a : agent_session) : agent_session := set_reqinfo_mode 0 (set_a_index 0 (set_a_status 0 a)).

Section passes.
Context {W : Type} `{Env : AgentEnv W}.
Implicit Types s : astate W.

(** Like [keeps], but for the status, the index and the mode the handlers see. *)
Record passes s0 s : Prop := mkpasses {
  pa_skeleton : skeleton (strip (asp s)) = skeleton (strip (asp s0));
  pa_areg : areg s = areg s0;
  pa_Sets : Sets s = Sets s0;
  pa_counters : counters s = counters s0;
  pa_contents : contents_ok (asp s)
}.

Lemma passes_trans s0 s1 s2 : passes s0 s1 -> passes s1 s2 -> passes s0 s2.
Proof. intros [] []. constructor; [by etransitivity..|done]. Qed.

Lemma keeps_passes s0 s : keeps s0 s -> passes s0 s.
Proof.
  intros []. constructor; try done.
  change (strip (skeleton (asp s)) = strip (skeleton (asp s0))). by f_equal.
Qed.

Lemma keeps_status_index s0 s : keeps s0 s -> status_index s = status_index s0.
Proof.
  intros H. unfold status_index. by rewrite (f_equal a_status (ke_skeleton _ _ H) : a_status (asp s) = a_status (asp s0)),
    (f_equal a_index (ke_skeleton _ _ H) : a_index (asp s) = a_index (asp s0)).
Qed.

Lemma passes_refl s : contents_ok (asp s) -> passes s s.
Proof. by constructor. Qed.

Lemma passes_slot s0 s k rs : passes s0 s -> slot_wf (asp s0) (areg s0) k rs -> slot_wf (asp s) (areg s) k rs.
Proof. intros [H1 -> _ _ _] H. change (slot_wf (strip (asp s)) (areg s0) k rs). eapply slot_wf_skeleton; [exact H1|exact H]. Qed.

Lemma passes_slot_back s0 s k rs : passes s0 s -> slot_wf (asp s) (areg s) k rs -> slot_wf (asp s0) (areg s0) k rs.
Proof. intros [H1 -> _ _ _] H. change (slot_wf (strip (asp s0)) (areg s0) k rs). eapply slot_wf_skeleton; [symmetry; exact H1|exact H]. Qed.

Lemma passes_slots s0 s : passes s0 s -> slots (asp s) = slots (asp s0).
Proof. intros [H _ _ _ _]. apply skeleton_slots in H. exact H. Qed.

Lemma good_passes s0 s : good s0 -> passes s0 s -> good s.
Proof.
  intros [Hs _] Hp. split; [|apply Hp]. intros k. rewrite (passes_slots _ _ Hp). intros Hk.
  destruct (Hs k Hk) as [rs Hrs]. exists rs. by eapply passes_slot.
Qed.

Lemma passes_self s0 s : passes s0 s -> self (asp s) = self (asp s0).
Proof. intros [H _ _ _ _]. exact (f_equal self H). Qed.

Lemma passes_mode s0 s : passes s0 s -> mode (asp s) = mode (asp s0).
Proof. intros [H _ _ _ _]. exact (f_equal mode H). Qed.

(** A chain of requests is no longer than the array. *)
Lemma requests_from_chain (reqs : list request_info) p rs :
  chain (fun i => rq_next <$> cell reqs i) p rs -> requests_from reqs p = Some rs.
Proof.
  intros Hc. apply walk_chain; [done|]. assert (Hsub : rs ⊆+ seqZ 0 (Z.of_nat (length reqs))).
  { apply NoDup_submseteq; [by eapply chain_NoDup|]. intros i Hi. destruct (chain_member _ _ _ _ Hc Hi) as [n Hn].
    destruct (cell reqs i) as [q|] eqn:Hq; [|done]. apply cell_range in Hq. apply elem_of_seqZ. lia. }
  apply submseteq_length in Hsub. rewrite length_seqZ in Hsub. lia.
Qed.

Lemma runs_slot_requests k rs (Q : list Z -> astate W -> Prop) s :
  slot_wf (asp s) (areg s) k rs -> Q rs s -> runs (slot_requests k) Q s.
Proof.
  intros (l & tc & tp & t & Hl & Hk & _ & _ & Hc & _) HQ. unfold slot_requests, get_slot. run.
  eapply runs_lift; [done|]. run. eapply runs_lift; [done|]. run. eapply runs_lift; [exact (requests_from_chain _ _ _ Hc)|done].
Qed.

Lemma slot_served s k rs : slot_wf (asp s) (areg s) k rs -> Forall (served s) rs.
Proof. intros (l & tc & tp & t & _ & _ & _ & _ & _ & H). exact H. Qed.

Lemma served_requests s rs : Forall (served s) rs -> exists qs, requests_at s rs qs.
Proof. intros H. induction H as [|i rs (q & p & Hq & _) _ [qs IH]]; [exists []; constructor|]. exists (q :: qs). by constructor. Qed.

Lemma runs_statuses_of rs qs (Q : list Z -> astate W -> Prop) s : requests_at s rs qs -> Q (rq_status <$> qs) s -> runs (statuses_of rs) Q s.
Proof.
  intros H. revert Q. induction H as [|i q rs qs Hi _ IH]; intros Q HQ; [by run|]. cbn [statuses_of]. run.
  eapply runs_get_request; [done|]. run. apply IH. run. done.
Qed.

Context `{HOk : !HandlersOk W}.

(** The call of the handlers of the slot [k]. *)
Definition called (a : agent_session) (r : registry) (m k : Z) (e : event) : Prop :=
  exists tp st sts rs, e = Called (self a) m tp st sts /\ slot_wf a r k rs /\ length sts = length rs /\
    (exists l tc, treecache a = Some l /\ cell l k = Some tc /\ tc_subtree tc = Some tp).

(** A request of it has an error; and: or the handlers have. *)
Definition marked (specific : Z) (e : event) : bool := match e with Called _ _ _ _ sts => existsb (reports specific) sts | _ => false end.
Definition fails (specific : Z) (e : event) : bool :=
  match e with Called _ _ _ st sts => negb (st =? SNMP_ERR_NOERROR) || existsb (reports specific) sts | _ => false end.

Lemma called_passes s0 s m k e : passes s0 s -> called (asp s) (areg s) m k e -> called (asp s0) (areg s0) m k e.
Proof.
  intros Hp (tp & st & sts & rs & -> & Hrs & Hlen & l & tc & Hl & Htc). exists tp, st, sts, rs. split_and!; [|by eapply passes_slot_back|done|].
  - by rewrite (passes_self _ _ Hp).
  - exists l, tc. split; [|done]. rewrite <- Hl. symmetry. exact (f_equal treecache (pa_skeleton _ _ Hp)).
Qed.

Lemma var_requests_loop_runs ks : forall fin s,
  good s -> status_ok (status_index s) -> (forall k, k ∈ ks -> k ∈ slots (asp s)) ->
  runs (var_requests_loop ks fin) (fun st s' => passes s s' /\ reqinfo_mode (asp s') = reqinfo_mode (asp s) /\ status_ok (status_index s') /\
    (reqinfo_mode (asp s) <> SNMP_MSG_GETBULK -> others_kept (asp s) (asp s')) /\
    exists evs, trace s' = rev evs ++ trace s /\ Forall2 (called (asp s) (areg s) (reqinfo_mode (asp s))) ks evs /\
      (a_status (asp s') = 0 <-> a_status (asp s) = 0 /\ Forall (fun e => marked (specific_error (mode (asp s))) e = false) evs) /\
      (fin <> 0 -> st <> 0) /\
      (a_status (asp s) = 0 -> (st = 0 <-> fin = 0 /\ Forall (fun e => fails (specific_error (mode (asp s))) e = false) evs))) s.
Proof.
  induction ks as [|k ks IH]; intros fin s Hg Hst Hks.
  - cbn [var_requests_loop]. run. split_and!; [apply passes_refl, Hg|done|done|done|]. exists []. split_and!; [done|constructor| | |]; intuition constructor.
  - cbn [var_requests_loop]. destruct Hg as [Hs Hc]. destruct (Hs k) as [rs Hrs]; [by apply Hks; left|].
    pose proof Hrs as (l & tc & tp & t & Hl & Hk & Htp & Ht & _).
    unfold get_slot. run. eapply runs_lift; [done|]. run. eapply runs_lift; [done|]. run. eapply runs_lift; [done|]. run. eapply runs_lift; [done|].
    run. eapply runs_slot_requests; [done|]. run.
    apply (runs_mono _ (fun _ => keeps s)).
    { destruct (st_reginfo t) as [g|]; [|run; by apply keeps_refl]. apply call_handlers_keeps; [by apply keeps_refl|by eapply slot_served]. }
    intros ret s1 H1. run. pose proof (keeps_passes _ _ H1) as P1.
    eapply runs_slot_requests; [by eapply passes_slot|]. run.
    destruct (served_requests s1 rs) as [qs Hqs]; [eapply slot_served; by eapply passes_slot|].
    eapply runs_statuses_of; [done|]. run.
    run_by (apply check_requests_status_runs; exact Hqs) as retst s2 [-> ->].
    set (ev := Called _ _ _ _ _).
    change (status_index (log ev s1)) with (status_index s1). rewrite (keeps_status_index _ _ H1).
    set (si := fold_left _ _ _). set (sp := specific_error (mode (asp s))) in *.
    destruct (fold_look_at sp qs (status_index s)) as [Hok Hzero]; [done|]. fold si in Hok, Hzero.
    set (s2 := set_status_index si (log ev s1)).
    assert (P2 : passes s s2) by (destruct P1 as [? ? ? ? P1c]; constructor; [done..|by destruct P1c]).
    assert (E1 : mode (asp s2) = mode (asp s)) by by apply passes_mode.
    assert (E2 : reqinfo_mode (asp s2) = reqinfo_mode (asp s)) by exact (keeps_reqinfo_mode _ _ H1).
    eapply runs_mono; [apply IH; [by apply (good_passes s)|by destruct si|]|].
    { intros k0 Hk0. rewrite (passes_slots _ _ P2). apply Hks. by right. }
    cbv beta. rewrite E1, E2. fold sp. intros st s3 (P3 & E3 & Hok3 & Ho3 & evs & Htr & Hcalls & Hz & Hfin & Hst3).
    split_and!; [by eapply passes_trans|done|done| |].
    { intros Hm. apply (others_kept_trans _ (asp s1)); [by apply H1|]. exact (Ho3 Hm). }
    exists (ev :: evs). split_and!.
    + rewrite Htr. cbn. rewrite (ke_trace _ _ H1), <- app_assoc. done.
    + constructor; [|eapply list.Forall2_impl; [exact Hcalls|intros; by eapply called_passes]].
      exists tp, ret, (rq_status <$> qs), rs. split_and!; [done|done| |by eauto].
      rewrite length_fmap. symmetry. by eapply Forall2_length.
    + rewrite Hz, list.Forall_cons. change (a_status (asp s2)) with si.1. rewrite Hzero. cbn [marked ev]. rewrite existsb_false. tauto.
    + intros Hf. apply Hfin. unfold SNMP_ERR_NOERROR. by rewrite (proj2 (Z.eqb_neq fin 0)).
    + intros Hs0. rewrite list.Forall_cons. cbn [fails ev]. rewrite orb_false_iff, negb_false_iff, existsb_false, Z.eqb_eq.
      change (a_status (asp s2)) with si.1 in Hst3. unfold SNMP_ERR_NOERROR in *.
      destruct (Z.eqb_spec si.1 0) as [Hsi|Hsi].
      * rewrite (Hst3 Hsi). assert (Hq : Forall (fun q => reports sp (rq_status q) = false) qs) by by apply Hzero.
        destruct (Z.eqb_spec fin 0), (Z.eqb_spec ret 0); cbn; intuition lia.
      * assert (Hq : ~ Forall (fun q => reports sp (rq_status q) = false) qs) by (intros Hq; apply Hsi, Hzero; done).
        rewrite (proj2 (Z.eqb_neq si.1 0)) in Hfin by done. destruct (Z.eqb_spec fin 0); cbn in Hfin; intuition.
Qed.

Lemma handle_var_requests_runs s :
  good s -> status_ok (status_index s) ->
  runs handle_var_requests (fun st s' => passes s s' /\ reqinfo_mode (asp s') = mode (asp s) /\ status_ok (status_index s') /\
    (mode (asp s) <> SNMP_MSG_GETBULK -> others_kept (asp s) (asp s')) /\
    exists evs, trace s' = rev evs ++ trace s /\ Forall2 (called (asp s) (areg s) (mode (asp s))) (slots (asp s)) evs /\
      (a_status (asp s') = 0 <-> a_status (asp s) = 0 /\ Forall (fun e => marked (specific_error (mode (asp s))) e = false) evs) /\
      (a_status (asp s) = 0 -> (st = 0 <-> Forall (fun e => fails (specific_error (mode (asp s))) e = false) evs))) s.
Proof.
  intros [Hs Hc] Hst. unfold handle_var_requests. run.
  set (s1 := on_asp _ s). assert (P1 : passes s s1) by (constructor; [done..|by destruct Hc]).
  eapply runs_mono; [apply (var_requests_loop_runs _ _ s1); [by apply (good_passes s)|done|done]|cbv beta].
  intros st s2 (P2 & E2 & Hok & Ho & evs & Htr & Hcalls & Hz & _ & Hst2). split_and!; [by eapply passes_trans|done|done|exact Ho|].
  exists evs. split_and!; [done|eapply list.Forall2_impl; [exact Hcalls|intros; by eapply called_passes]|done|].
  intros H0. rewrite (Hst2 H0). tauto.
Qed.
End passes.
