(* ===== verification/AgentSet.v ===== *)
(** The phases of a SET: a request that is to change something is reserved with all
    its handlers, carried out by all, and then committed by all or undone by all. *)
From Stdlib Require Import ZArith Lia.
From stdpp Require Import gmap.
From S2P Require Import Prelude StateMonad Chains Asn1Defs SnmpDefs Oid SnmpVar Pdu Vacm Registry AgentDefs.
From S2P Require Import AgentRequest AgentPasses.

(** The next phase, after no error or after one. *)
Definition next_phase (m : Z) (ok : bool) : Z := next_set_mode m (if ok then SNMP_ERR_NOERROR else SNMP_ERR_GENERR).

Lemma next_phase_status m st : next_set_mode m st = next_phase m (st =? SNMP_ERR_NOERROR).
Proof. unfold next_phase, next_set_mode. by destruct (st =? SNMP_ERR_NOERROR). Qed.

(** A pass in the phase [m] failed. *)
Definition pass_failed (m : Z) (evs : list event) : bool := existsb (fails (specific_error m)) evs.

#[global] Arguments pass_failed : simpl never.

Lemma pass_failed_false m evs : pass_failed m evs = false <-> Forall (fun e => fails (specific_error m) e = false) evs.
Proof. unfold pass_failed. rewrite <- (existsb_false _ id evs), list_fmap_id. done. Qed.

(** [phases calls m ok ps m' ok']: from the phase [m] the passes [ps] lead to [m'];
    [ok] and [ok'] tell whether there was no error so far. *)
Inductive phases (calls : Z -> list event -> Prop) : Z -> bool -> list (Z * list event) -> Z -> bool -> Prop :=
| phases_nil m ok : phases calls m ok [] m ok
| phases_end m ok n : n = next_phase m ok -> finished n = true -> phases calls m ok [] n ok
| phases_cons m ok n evs ps m' ok' :
    n = next_phase m ok -> finished n = false -> calls n evs ->
    phases calls n (ok && negb (pass_failed n evs)) ps m' ok' -> phases calls m ok ((n, evs) :: ps) m' ok'.

(** The courses a SET can take: [failed k] tells whether the pass [k] failed. *)
Definition failed_at (ps : list (Z * list event)) (k : nat) : bool :=
  match ps !! k with Some p => pass_failed p.1 p.2 | None => false end.

Definition course (failed : nat -> bool) : list Z :=
  MODE_SET_RESERVE1 ::
  if failed 0%nat then [MODE_SET_FREE]
  else MODE_SET_RESERVE2 ::
    if failed 1%nat then [MODE_SET_FREE]
    else MODE_SET_ACTION :: if failed 2%nat then [MODE_SET_UNDO] else [MODE_SET_COMMIT].

Lemma phases_next calls m ok ps m' ok' : phases calls m ok ps m' ok' ->
  let n := next_phase m ok in
  if finished n then ps = [] /\ ok' = ok /\ (m' = m \/ m' = n)
  else ps = [] /\ m' = m /\ ok' = ok \/
    exists evs ps', ps = (n, evs) :: ps' /\ calls n evs /\ phases calls n (ok && negb (pass_failed n evs)) ps' m' ok'.
Proof.
  intros Hp. inversion Hp as [|? ? n Hn Hf|? ? n evs ps' ? ? Hn Hf Hc Hps]; subst; cbn.
  - destruct (finished _); [tauto|by left].
  - by rewrite Hf; tauto.
  - rewrite Hf. right. eauto.
Qed.

Definition set_course (ps : list (Z * list event)) (m' : Z) (ok' : bool) : Prop :=
  ok' = forallb (fun p => negb (pass_failed p.1 p.2)) ps /\ ps.*1 `prefix_of` course (failed_at ps) /\
  (finished m' = true -> ps.*1 = course (failed_at ps)).

(** Goes one phase further. *)
Ltac next_pass H :=
  lazymatch type of H with
  | phases _ ?m ?b _ _ _ =>
    let n := eval vm_compute in (next_phase m b) in let f := eval vm_compute in (finished n) in
    apply phases_next in H; change (next_phase m b) with n in H; cbv zeta in H; change (finished n) with f in H; cbv iota in H;
    lazymatch f with
    | true => destruct H as (-> & -> & [-> | ->])
    | false => destruct H as [(-> & -> & ->)|(? & ? & -> & ? & H)]
    end
  end.

(** The passes are all there. *)
Ltac course_leaf :=
  split; [repeat (apply list.Forall_cons; split; [done|]); apply list.Forall_nil; done|];
  unfold set_course, course, failed_at; cbn;
  repeat match goal with F : pass_failed _ _ = _ |- _ => rewrite F; clear F end; cbn; rewrite ?andb_false_r, ?andb_true_r;
  split_and!; [done|by eexists|done].

Lemma phases_course calls ps m' ok' : phases calls MODE_SET_BEGIN true ps m' ok' -> Forall (fun p => calls p.1 p.2) ps /\ set_course ps m' ok'.
Proof.
  intros H. next_pass H; [split; [constructor|split_and!; [done|apply prefix_nil|done]]|].
  destruct (pass_failed _ _) eqn:F0 in H; cbn in H; (next_pass H; [course_leaf|]).
  { cbn in H. next_pass H; course_leaf. }
  destruct (pass_failed _ _) eqn:F1 in H; cbn in H; (next_pass H; [course_leaf|]).
  { cbn in H. next_pass H; course_leaf. }
  destruct (pass_failed _ _) eqn:F2 in H; cbn in H; (next_pass H; [course_leaf|]).
  { cbn in H. next_pass H; course_leaf. }
  destruct (pass_failed _ _) eqn:F3 in H; cbn in H; next_pass H; course_leaf.
Qed.

(** The passes that are left at most. *)
Definition rank (m : Z) : nat :=
  if m =? MODE_SET_BEGIN then 5 else if m =? MODE_SET_RESERVE1 then 4 else if m =? MODE_SET_RESERVE2 then 3
  else if m =? MODE_SET_ACTION then 2 else if finished m then 0 else 1.

Definition set_mode_ok (m : Z) : Prop := MODE_SET_BEGIN <= m <= MODE_SET_UNDO.

Lemma next_phase_rank m ok : set_mode_ok m -> (rank (next_phase m ok) < rank m)%nat /\ (finished (next_phase m ok) = false -> set_mode_ok (next_phase m ok) /\ next_phase m ok <> MODE_SET_BEGIN).
Proof.
  intros [H1 H2]. unfold MODE_SET_BEGIN, MODE_SET_UNDO in *.
  assert (Hm : m = -1 \/ m = 0 \/ m = 1 \/ m = 2 \/ m = 3 \/ m = 4 \/ m = 5) by lia.
  unfold set_mode_ok. destruct Hm as [->|[->|[->|[->|[->|[->| ->]]]]]]; destruct ok; vm_compute; intuition (congruence || lia).
Qed.
Section set.
Context {W : Type} `{Env : AgentEnv W}.
Implicit Types s : astate W.

(** Like [passes], but for the mode and the counters. *)
Record phased s0 s : Prop := mksettled {
  se_skeleton : skeleton (strip (set_mode 0 (asp s))) = skeleton (strip (set_mode 0 (asp s0)));
  se_areg : areg s = areg s0;
  se_Sets : Sets s = Sets s0;
  se_contents : contents_ok (asp s)
}.

Lemma phased_trans s0 s1 s2 : phased s0 s1 -> phased s1 s2 -> phased s0 s2.
Proof. intros [] []. constructor; [by etransitivity..|done]. Qed.

Lemma phased_refl s : contents_ok (asp s) -> phased s s.
Proof. by constructor. Qed.

Lemma passes_phased s0 s : passes s0 s -> phased s0 s.
Proof.
  intros [H1 ? ? ? ?]. constructor; try done.
  change (set_mode 0 (skeleton (strip (asp s))) = set_mode 0 (skeleton (strip (asp s0)))). by rewrite H1.
Qed.

(** Seen without the mode, it is a pass. *)
Lemma phased_passes s0 s : phased s0 s -> passes (set_counters [] (on_asp (set_mode 0) s0)) (set_counters [] (on_asp (set_mode 0) s)).
Proof. intros [H1 ? ? H4]. constructor; try done. by destruct H4. Qed.

Lemma phased_slots s0 s : phased s0 s -> slots (asp s) = slots (asp s0).
Proof. intros H. exact (passes_slots _ _ (phased_passes _ _ H)). Qed.

Lemma good_phased s0 s : good s0 -> phased s0 s -> good s.
Proof.
  intros Hg H. pose proof (phased_passes _ _ H) as Hp. apply good_passes in Hp; [|by destruct Hg as [? []]].
  destruct Hp as [H1 H2]. split; [exact H1|apply H].
Qed.

Lemma called_phased s0 s m k e : phased s0 s -> called (asp s) (areg s) m k e -> called (asp s0) (areg s0) m k e.
Proof. intros H. exact (called_passes _ _ m k e (phased_passes _ _ H)). Qed.

Lemma phased_one_pass s0 s : phased s0 s -> one_pass (asp s) = one_pass (asp s0).
Proof. intros [H _ _ _]. exact (f_equal one_pass H). Qed.

(** All slots were asked. *)
Definition asked s (m : Z) (evs : list event) : Prop := Forall2 (called (asp s) (areg s) m) (slots (asp s)) evs.

Lemma asked_phased s0 s m evs : phased s0 s -> asked s m evs -> asked s0 m evs.
Proof.
  intros H Ha. unfold asked in *. rewrite (phased_slots _ _ H) in Ha. eapply list.Forall2_impl; [exact Ha|]. intros. by eapply called_phased.
Qed.

Lemma phases_impl (P Q : Z -> list event -> Prop) m ok ps m' ok' : (forall n evs, P n evs -> Q n evs) -> phases P m ok ps m' ok' -> phases Q m ok ps m' ok'.
Proof. intros HPQ. induction 1; [constructor|by apply phases_end|]. econstructor; eauto. Qed.

(** [netsnmp_check_for_delegated] looks only: at the requests in the slots. *)
Definition waits s (i : Z) : bool := match cell (requests (asp s)) i with Some q => negb (delegated q =? 0) | None => false end.

Lemma any_delegated_runs s rs : Forall (served s) rs -> runs (any_delegated rs) (fun d s' => s' = s /\ d = existsb (waits s) rs) s.
Proof.
  induction 1 as [|i rs (q & p & Hq & _) _ IH]; [by run|]. cbn [any_delegated existsb]. run. eapply runs_get_request; [done|].
  unfold waits at 1. rewrite Hq. destruct (negb _); [by run|exact IH].
Qed.

Lemma any_slot_delegated_runs s ks rss : Forall2 (slot_wf (asp s) (areg s)) ks rss ->
  runs (any_slot_delegated ks) (fun d s' => s' = s /\ d = existsb (existsb (waits s)) rss) s.
Proof.
  induction 1 as [|k rs ks rss Hrs _ IH]; [by run|]. cbn [any_slot_delegated existsb].
  run. eapply runs_slot_requests; [done|]. run. run_by (apply any_delegated_runs; by eapply slot_served) as d s' [-> ->].
  destruct (existsb _ rs); [by run|exact IH].
Qed.

Lemma slot_lists s : good s -> exists rss, Forall2 (slot_wf (asp s) (areg s)) (slots (asp s)) rss.
Proof.
  intros [Hs _]. unfold slots_wf in Hs. induction (slots (asp s)) as [|k ks IH]; [exists []; constructor|].
  destruct (Hs k) as [rs Hrs]; [by left|]. destruct IH as [rss Hrss]; [intros k' Hk'; apply Hs; by right|]. exists (rs :: rss). by constructor.
Qed.

Definition is_delegated s : option bool := fst <$> netsnmp_check_for_delegated s.

Lemma check_for_delegated_value s rss : Forall2 (slot_wf (asp s) (areg s)) (slots (asp s)) rss ->
  netsnmp_check_for_delegated s = Some (match treecache (asp s) with None => false | Some _ => existsb (existsb (waits s)) rss end, s).
Proof.
  intros Hrss. assert (H : runs netsnmp_check_for_delegated
    (fun d s' => s' = s /\ d = match treecache (asp s) with None => false | Some _ => existsb (existsb (waits s)) rss end) s).
  { unfold netsnmp_check_for_delegated. run. destruct (treecache (asp s)); [|by run]. by apply any_slot_delegated_runs. }
  by apply runs_Some in H as (d & s' & -> & -> & ->).
Qed.

Lemma check_for_delegated_runs s : good s -> runs netsnmp_check_for_delegated (fun d s' => s' = s /\ is_delegated s = Some d) s.
Proof.
  intros Hg. destruct (slot_lists s Hg) as [rss Hrss]. pose proof (check_for_delegated_value s rss Hrss) as H.
  unfold runs, is_delegated. by rewrite H.
Qed.

Lemma delegated_same s s' : good s -> phased s s' -> requests (asp s') = requests (asp s) -> is_delegated s' = is_delegated s.
Proof.
  intros Hg Hs Hr. destruct (slot_lists s Hg) as [rss Hrss]. unfold is_delegated. rewrite (check_for_delegated_value s rss Hrss).
  rewrite (check_for_delegated_value s' rss).
  - cbn. assert (Ht : treecache (asp s') = treecache (asp s)) by exact (f_equal treecache (se_skeleton _ _ Hs)).
    rewrite Ht. unfold waits. by rewrite Hr.
  - rewrite (phased_slots _ _ Hs). eapply list.Forall2_impl; [exact Hrss|]. intros k rs. exact (passes_slot _ _ k rs (phased_passes _ _ Hs)).
Qed.

Context `{HOk : !HandlersOk W}.

Definition no_error s : bool := a_status (asp s) =? SNMP_ERR_NOERROR.

(** What a call of [handle_set] comes to: the phase [n] was gone through, or it is
    the end. *)
Definition phase_done s (n : Z) s' : Prop :=
  phased s s' /\ status_ok (status_index s') /\ mode (asp s') = n /\
  if finished n then trace s' = trace s /\ no_error s' = no_error s /\ requests (asp s') = requests (asp s)
  else exists evs, trace s' = rev evs ++ trace s /\ asked s n evs /\ no_error s' = no_error s && negb (pass_failed n evs).

Lemma handle_set_pass s n :
  good s -> status_ok (status_index s) -> mode (asp s) = n ->
  runs set_pass (fun _ => phase_done s n) s.
Proof.
  intros Hg Hst <-. unfold set_pass. run. unfold phase_done. destruct (finished (mode (asp s))) eqn:Hf; [run; split_and!; [apply phased_refl, Hg|done..]|].
  run. run_by (by apply handle_var_requests_runs) as st s2 (P2 & _ & Hok2 & _ & evs & Ht2 & Hc2 & Hz2 & Hst2).
  pose proof (passes_phased _ _ P2) as S2. pose proof (passes_mode _ _ P2) as Hm2.
  assert (Hns : no_error s = true -> (st = 0 <-> pass_failed (mode (asp s)) evs = false)).
  { unfold no_error, SNMP_ERR_NOERROR. rewrite Z.eqb_eq, pass_failed_false. exact Hst2. }
  assert (Hn2 : no_error s2 = true -> no_error s = true).
  { unfold no_error, SNMP_ERR_NOERROR. rewrite !Z.eqb_eq. tauto. }
  assert (Hn2' : pass_failed (mode (asp s)) evs = false -> no_error s = true -> no_error s2 = true).
  { unfold no_error, SNMP_ERR_NOERROR. rewrite !Z.eqb_eq, pass_failed_false, Hz2. intros Hall ?. split; [done|].
    eapply list.Forall_impl; [exact Hall|]. intros [] He; try done. cbn in *. by apply orb_false_iff in He as [_ ->]. }
  run. set (c := (negb (st =? SNMP_ERR_NOERROR) && _) || _ || _). destruct c eqn:Hc.
  - assert (Hst0 : st <> 0).
    { unfold SNMP_ERR_NOERROR, SNMP_ERR_COMMITFAILED, SNMP_ERR_UNDOFAILED in *. subst c. bool_prop. intros ->. intuition lia. }
    run. set (s3 := on_asp (set_a_status st) s2).
    assert (S3 : phased s s3) by (destruct S2 as [? ? ? []]; by constructor).
    assert (Hn3 : no_error s3 = false) by by apply Z.eqb_neq.
    split_and!; [done|by right|done|]. exists evs. split_and!; [done|done|]. rewrite Hn3.
    destruct (no_error s) eqn:Hs1; [|done]. destruct (pass_failed _ evs) eqn:Hs2; [done|]. exfalso. by apply Hst0, Hns.
  - run. split_and!; [done..|]. exists evs. split_and!; [done|done|].
    destruct (no_error s2) eqn:Hn.
    + rewrite Hn2 in * by done. assert (Hz : st = 0).
      { unfold no_error, SNMP_ERR_NOERROR in *. subst c. apply orb_false_iff in Hc as [Hc _]. apply orb_false_iff in Hc as [Hc _].
        rewrite Hn, andb_true_r in Hc. by apply negb_false_iff, Z.eqb_eq in Hc. }
      apply Hns in Hz; [|done]. by rewrite Hz.
    + destruct (no_error s) eqn:Hs1; [|done]. destruct (pass_failed _ evs) eqn:Hs2; [done|]. by specialize (Hn2' eq_refl eq_refl).
Qed.

(** One call of [handle_set]. *)
Lemma handle_set_runs s :
  good s -> status_ok (status_index s) -> set_mode_ok (mode (asp s)) -> one_pass (asp s) = false ->
  (mode (asp s) = MODE_SET_BEGIN -> no_error s = true) ->
  runs handle_set (fun _ => phase_done s (next_phase (mode (asp s)) (no_error s))) s.
Proof.
  intros Hg Hst Hm H1 Hb. unfold handle_set. run. rewrite H1.
  set (n := next_phase (mode (asp s)) (no_error s)).
  assert (Hgo : forall s1, phased s s1 -> status_index s1 = status_index s -> trace s1 = trace s -> mode (asp s1) = n -> requests (asp s1) = requests (asp s) ->
    runs set_pass (fun _ => phase_done s n) s1).
  { intros s1 S1 Hi Ht Hm1 Hrq. assert (Hn : no_error s1 = no_error s) by exact (f_equal (fun si => si.1 =? SNMP_ERR_NOERROR) Hi).
    eapply runs_mono; [apply handle_set_pass; [by eapply good_phased|by rewrite Hi|done]|].
    intros _ s2 (S2 & Hok & Hm2 & Hend). split_and!; [by eapply phased_trans|done|done|].
    destruct (finished n); [by rewrite <- Ht, <- Hn, <- Hrq|]. destruct Hend as (evs & Ht2 & Ha & Hn2). exists evs.
    split_and!; [by rewrite Ht2, Ht|by eapply asked_phased|by rewrite Hn2, Hn]. }
  assert (Hnext : n = next_set_mode (mode (asp s)) (a_status (asp s))) by by rewrite next_phase_status.
  destruct (Z.eqb_spec (mode (asp s)) MODE_SET_BEGIN) as [Hbm|Hbm].
  - run. apply Hgo; cbn; try done.
    + constructor; try done. by destruct Hg as [_ []].
    + specialize (Hb Hbm). apply Z.eqb_eq in Hb. unfold status_index. cbn. by rewrite Hb.
  - run. apply Hgo; cbn; try done. constructor; try done. by destruct Hg as [_ []].
Qed.

(** The loop: phases until the end, or until a handler has delegated its work. *)
Definition loop_done s (r : Z) s' : Prop :=
  phased s s' /\ status_ok (status_index s') /\
  exists ps, phases (asked s) (mode (asp s)) (no_error s) ps (mode (asp s')) (no_error s') /\
    trace s' = rev (concat (snd <$> ps)) ++ trace s /\
    (finished (mode (asp s')) = true /\ r = a_status (asp s') \/
     finished (mode (asp s')) = false /\ ps <> [] /\ is_delegated s' = Some true /\ r = SNMP_ERR_NOERROR).

Lemma set_loop_runs fuel : forall s,
  good s -> status_ok (status_index s) -> finished (mode (asp s)) = true \/ set_mode_ok (mode (asp s)) -> one_pass (asp s) = false ->
  (mode (asp s) = MODE_SET_BEGIN -> no_error s = true) -> is_delegated s = Some false -> (rank (mode (asp s)) <= fuel)%nat ->
  runs (set_loop fuel) (loop_done s) s.
Proof.
  induction fuel as [|fuel IH]; intros s Hg Hst Hm H1 Hb Hd Hf.
  all: cbn [set_loop]; run; destruct (finished (mode (asp s))) eqn:Hfin.
  1,3: run; split_and!; [by apply phased_refl, Hg|done|]; exists []; split_and!; [constructor|done|by left].
  all: destruct Hm as [?|Hm]; [done|]; destruct (next_phase_rank (mode (asp s)) (no_error s) Hm) as [Hr Hn]; try lia.
  run. run_by (by apply handle_set_runs) as st s1 (S1 & Hok1 & Hm1 & Hdone).
  pose proof (good_phased _ _ Hg S1) as G1. run. run_by (by apply check_for_delegated_runs) as d s2 [-> Hd1].
  destruct (finished (next_phase (mode (asp s)) (no_error s))) eqn:Hnf.
  - destruct Hdone as (Ht1 & Hn1 & Hr1). rewrite (delegated_same s s1) in Hd1 by done. simplify_eq. run.
    rewrite (phased_one_pass _ _ S1), H1. destruct fuel as [|fuel]; cbn [set_loop]; run; rewrite Hm1, Hnf; run.
    all: split_and!; [done..|]; exists []; split_and!; [rewrite Hm1, Hn1; by apply phases_end|done|left; by rewrite Hm1].
  - destruct Hdone as (evs & Ht1 & Ha1 & Hn1). destruct (Hn eq_refl) as [Hm2 Hnb].
    assert (Hcons : forall ps m ok, phases (asked s) (next_phase (mode (asp s)) (no_error s)) (no_error s1) ps m ok ->
      phases (asked s) (mode (asp s)) (no_error s) ((next_phase (mode (asp s)) (no_error s), evs) :: ps) m ok).
    { intros ps m ok Hps. eapply phases_cons; [done..|]. by rewrite <- Hn1. }
    destruct d.
    + run. split_and!; [done..|]. exists [(next_phase (mode (asp s)) (no_error s), evs)]. split_and!.
      * apply Hcons. rewrite Hm1. constructor.
      * cbn. by rewrite app_nil_r.
      * right. by rewrite Hm1.
    + run. rewrite (phased_one_pass _ _ S1), H1. eapply runs_mono; [apply IH; try done|].
      * rewrite Hm1. by right.
      * by rewrite (phased_one_pass _ _ S1).
      * by rewrite Hm1.
      * rewrite Hm1. lia.
      * intros r s2 (S2 & Hok2 & ps & Hps & Ht2 & Hend). split_and!; [by eapply phased_trans|done|].
        exists ((next_phase (mode (asp s)) (no_error s), evs) :: ps). split_and!.
        -- apply Hcons. rewrite <- Hm1. eapply phases_impl; [|exact Hps]. intros n evs'. by apply asked_phased.
        -- rewrite Ht2, Ht1. cbn. by rewrite rev_app_distr, <- app_assoc.
        -- destruct Hend as [?|(? & ? & ? & ?)]; [by left|by right].
Qed.
End set.
