(* ===== verification/AgentCache.v ===== *)
(** The cache of subtrees: each variable of a request gets a place with the subtree
    that holds its name; the slots of the cache are the subtrees, each with its
    requests. *)
From Stdlib Require Import ZArith Lia.
From stdpp Require Import gmap.
From S2P Require Import Prelude StateMonad Chains Asn1Defs SnmpDefs Oid SnmpVar Pdu Vacm Registry RegistryProps.
From S2P Require Import AgentDefs AgentRequest AgentPasses AgentSet.

(** ** The table of slots *)

Definition empty_slot : tree_cache := mktc None None None.

(** A subtree with its requests. *)
Definition slot_of (x : Z * list Z) : tree_cache := mktc (Some x.1) (head x.2) (list.last x.2).

Definition table (xs : list (Z * list Z)) (len : Z) : list tree_cache :=
  (slot_of <$> xs) ++ replicate (Z.to_nat len - length xs) empty_slot.

Lemma cell_app_l {A} (l k : list A) i : 0 <= i < Z.of_nat (length l) -> cell (l ++ k) i = cell l i.
Proof. intros H. unfold cell. rewrite (proj2 (Z.leb_le _ _)) by lia. apply lookup_app_l. lia. Qed.

Lemma table_cell xs len k : 0 <= k < Z.of_nat (length xs) -> cell (table xs len) k = slot_of <$> cell xs k.
Proof. intros H. unfold table. rewrite cell_app_l by (rewrite length_fmap; lia). apply cell_fmap. Qed.

Lemma table_length xs len : Z.of_nat (length xs) <= len -> Z.of_nat (length (table xs len)) = len.
Proof. intros H. unfold table. rewrite length_app, length_fmap, length_replicate. lia. Qed.

Lemma table_insert xs len k x : 0 <= k < Z.of_nat (length xs) -> <[Z.to_nat k := slot_of x]> (table xs len) = table (<[Z.to_nat k := x]> xs) len.
Proof.
  intros H. unfold table. rewrite insert_app_l by (rewrite length_fmap; lia). rewrite list_fmap_insert, length_insert. done.
Qed.

(** The first slot that is not used. *)
Lemma table_next xs len tc : Z.of_nat (length xs) < len ->
  <[length xs := tc]> (table xs len) = (slot_of <$> xs) ++ tc :: replicate (Z.to_nat len - S (length xs)) empty_slot.
Proof.
  intros H. unfold table. rewrite insert_app_r_alt by (rewrite length_fmap; lia). rewrite length_fmap, Nat.sub_diag.
  replace (Z.to_nat len - length xs)%nat with (S (Z.to_nat len - S (length xs))) by lia. done.
Qed.

Lemma table_snoc xs len x : Z.of_nat (length xs) < len ->
  (slot_of <$> xs) ++ slot_of x :: replicate (Z.to_nat len - S (length xs)) empty_slot = table (xs ++ [x]) len.
Proof.
  intros H. unfold table. rewrite fmap_app, <- app_assoc, length_app. cbn. do 3 f_equal. lia.
Qed.

(** Growing a full table. *)
Lemma table_grow xs len : Z.of_nat (length xs) = len ->
  let l := table xs len ++ replicate (Z.to_nat CACHE_GROW_SIZE) empty_slot in
  take (Z.to_nat len) l ++ replicate (Z.to_nat CACHE_GROW_SIZE) empty_slot ++ drop (Z.to_nat (len + CACHE_GROW_SIZE)) l = table xs (len + CACHE_GROW_SIZE) /\
  Z.of_nat (length l) = len + CACHE_GROW_SIZE.
Proof.
  intros Hl. replace (table xs len) with (slot_of <$> xs).
  2:{ unfold table. replace (Z.to_nat len - length xs)%nat with 0%nat by lia. by rewrite app_nil_r. }
  intros l. assert (Hlen : Z.of_nat (length l) = len + CACHE_GROW_SIZE).
  { unfold l. rewrite length_app, length_fmap, length_replicate. unfold CACHE_GROW_SIZE. lia. }
  split; [|exact Hlen]. rewrite drop_ge by lia. rewrite app_nil_r. unfold l.
  rewrite take_app_le by (rewrite length_fmap; lia). rewrite take_ge by (rewrite length_fmap; lia).
  unfold table. do 2 f_equal. unfold CACHE_GROW_SIZE. lia.
Qed.

(** ** The cache *)

(** The chain of requests of a slot. *)
Definition slot_chain (reqs : list request_info) (rs : list Z) : Prop :=
  rs <> [] /\ chain (fun i => rq_next <$> cell reqs i) (head rs) rs.

(** The cache of the request object holds the slots [xs]. *)
Record cached (a : agent_session) (xs : list (Z * list Z)) : Prop := mkcached {
  ca_table : treecache a = Some (table xs (treecache_len a));
  ca_len : Z.of_nat (length xs) <= treecache_len a;
  ca_num : treecache_num a = Z.of_nat (length xs) - 1;
  ca_chains : Forall (fun x => slot_chain (requests a) x.2) xs;
  ca_nodup : NoDup (concat xs.*2);
  ca_store : Forall (fun c => 0 <= c.2 < Z.of_nat (length xs)) (cache_store a)
}.

(** The subtree [tp'] is marked to be merged with [t]. *)
Definition shares (r : registry) (t : subtree) (tp' : Z) : Prop :=
  global_cacheid t <> 0 /\ exists t', subtrees r !! tp' = Some t' /\ global_cacheid t' = global_cacheid t.

(** The slots can be found: one of a subtree that is not marked by the [cacheid] of the
    subtree, the others by what they are marked with, in the [cache_store]. *)
Record mapped (r : registry) (store : list (Z * Z)) (xs : list (Z * list Z)) : Prop := mkmapped {
  mp_slot : forall k tp rs, cell xs k = Some (tp, rs) -> exists t, subtrees r !! tp = Some t /\
    (if global_cacheid t =? 0 then st_cacheid t = k else netsnmp_get_local_cachid store (global_cacheid t) = k);
  mp_store : forall g, netsnmp_get_local_cachid store g <> -1 -> g <> 0 /\ exists tp rs t,
    cell xs (netsnmp_get_local_cachid store g) = Some (tp, rs) /\ subtrees r !! tp = Some t /\ global_cacheid t = g
}.

(** [i] joins the slot of the subtree [tp], or gets one; that of the subtrees that are
    marked as it is, if it is marked. *)
Definition placed (r : registry) (t : subtree) (tp i : Z) (xs xs' : list (Z * list Z)) : Prop :=
  (exists k tp' rs, cell xs k = Some (tp', rs) /\ (tp' = tp \/ shares r t tp') /\ xs' = <[Z.to_nat k := (tp', rs ++ [i])]> xs) \/
  xs' = xs ++ [(tp, [i])].

Abbreviation next_in reqs i := (rq_next <$> cell reqs i).

Lemma in_slots (xs : list (Z * list Z)) x j : x ∈ xs -> j ∈ x.2 -> j ∈ concat xs.*2.
Proof. intros Hx Hj. apply list_elem_of_In, in_concat. exists x.2. split; apply list_elem_of_In; [|done]. apply list_elem_of_fmap. eauto. Qed.

(** No element is in two of the lists. *)
Lemma NoDup_concat_lookup {A} (ls : list (list A)) : forall i j l1 l2 x,
  NoDup (concat ls) -> ls !! i = Some l1 -> ls !! j = Some l2 -> x ∈ l1 -> x ∈ l2 -> i = j.
Proof.
  induction ls as [|l ls IH]; intros i j l1 l2 x Hnd Hi Hj H1 H2; [done|]. cbn in Hnd. apply list.NoDup_app in Hnd as (_ & Hd & Hnd).
  assert (Hin : forall n l', ls !! n = Some l' -> x ∈ l' -> x ∈ concat ls).
  { intros n l' Hn Hx. apply list_elem_of_In, in_concat. exists l'. split; apply list_elem_of_In; [by eapply list_elem_of_lookup_2|done]. }
  destruct i as [|i], j as [|j]; cbn in *; simplify_eq; [done|..].
  - exfalso. apply (Hd x H1). by eapply Hin.
  - exfalso. apply (Hd x H2). by eapply Hin.
  - f_equal. by eapply IH.
Qed.

(** Only the subtrees of the slots matter. *)
Lemma mapped_keys (r r' : registry) store xs xs' : (forall k, fst <$> cell xs' k = fst <$> cell xs k) -> subtrees r' = subtrees r ->
  mapped r store xs -> mapped r' store xs'.
Proof.
  intros He Hr [H1 H2]. constructor; rewrite ?Hr.
  - intros k tp rs Hk. specialize (He k). rewrite Hk in He. destruct (cell xs k) as [[tp' rs']|] eqn:Hx; [|done].
    apply (inj Some) in He. cbn in He. subst tp'. by eapply H1.
  - intros g Hg. destruct (H2 g Hg) as (Hg0 & tp & rs & t & Hk & Ht & Htg). split; [done|]. specialize (He (netsnmp_get_local_cachid store g)). rewrite Hk in He.
    destruct (cell xs' _) as [[tp' rs']|]; [|done]. apply (inj Some) in He. cbn in He. subst tp'. by exists tp, rs', t.
Qed.

(** Each subtree has one slot, and so have the ones that are marked alike. *)
Lemma mapped_inj r store xs k k' tp tp' rs rs' t : mapped r store xs -> cell xs k = Some (tp, rs) -> cell xs k' = Some (tp', rs') ->
  subtrees r !! tp = Some t -> tp' = tp \/ shares r t tp' -> k = k'.
Proof.
  intros Hm Hk Hk' Ht [->|(Hg & t' & Ht' & He)].
  - destruct (mp_slot _ _ _ Hm _ _ _ Hk) as (t1 & Ht1 & E1), (mp_slot _ _ _ Hm _ _ _ Hk') as (t2 & Ht2 & E2). simplify_eq.
    destruct (_ =? _); congruence.
  - destruct (mp_slot _ _ _ Hm _ _ _ Hk) as (t1 & Ht1 & E1), (mp_slot _ _ _ Hm _ _ _ Hk') as (t2 & Ht2 & E2). simplify_eq.
    rewrite He in E2. rewrite (proj2 (Z.eqb_neq _ _)) in E1, E2 by done. congruence.
Qed.

Lemma get_local_cachid_cons g c store g' : netsnmp_get_local_cachid ((g, c) :: store) g' = if g =? g' then c else netsnmp_get_local_cachid store g'.
Proof.
  unfold netsnmp_get_local_cachid. cbn. destruct (Z.eqb_spec g g') as [->|Hne]; [by rewrite decide_True|].
  rewrite decide_False by done. by destruct (list_find _ store) as [[? []]|].
Qed.

Lemma cell_snoc {A} (xs : list A) x k y : cell (xs ++ [x]) k = Some y -> cell xs k = Some y \/ k = Z.of_nat (length xs) /\ y = x.
Proof.
  intros [H0 Hk]%cell_lookup. apply lookup_app_Some in Hk as [Hk|[Hl Hk]].
  - left. unfold cell. by rewrite (proj2 (Z.leb_le _ _)).
  - apply list_lookup_singleton_Some in Hk as [Hk ->]. right. split; [lia|done].
Qed.

Lemma cell_app {A} (xs ys : list A) k y : cell xs k = Some y -> cell (xs ++ ys) k = Some y.
Proof. intros [H0 Hk]%cell_lookup. unfold cell. rewrite (proj2 (Z.leb_le _ _)) by done. by apply lookup_app_l_Some. Qed.

Lemma cell_end {A} (xs : list A) x : cell (xs ++ [x]) (Z.of_nat (length xs)) = Some x.
Proof. unfold cell. rewrite (proj2 (Z.leb_le _ _)), Nat2Z.id by lia. by apply list_lookup_middle. Qed.

Lemma slot_chain_ext reqs reqs' rs : (forall j, j ∈ rs -> next_in reqs' j = next_in reqs j) -> slot_chain reqs rs -> slot_chain reqs' rs.
Proof. intros He [H1 H2]. split; [done|]. eapply linked_ext; [exact He|exact H2]. Qed.

(** A request joins a slot: behind the last one. *)
Lemma slot_chain_snoc reqs reqs' rs e i :
  slot_chain reqs rs -> i ∉ rs -> list.last rs = Some e -> (forall j, j <> e -> j <> i -> next_in reqs' j = next_in reqs j) ->
  next_in reqs' e = Some (Some i) -> next_in reqs' i = Some None -> slot_chain reqs' (rs ++ [i]).
Proof.
  intros [Hne Hc] Hi He Hj Hn1 Hn2. apply last_Some in He as [ls ->]. pose proof (chain_NoDup _ _ _ Hc) as Hnd.
  split; [by destruct ls|]. rewrite <- app_assoc. apply linked_app. replace (head (ls ++ [e] ++ [i])) with (head (ls ++ [e])) by by destruct ls.
  apply linked_app in Hc as (r & Hc & [-> _]). exists (Some e). split.
  - eapply linked_ext; [|exact Hc]. intros j Hin. apply list.NoDup_app in Hnd as (_ & Hd & _). apply Hj; intros ->; [apply (Hd _ Hin); by left|].
    apply Hi, elem_of_app. by left.
  - cbn. split; [done|]. exists (Some i). split; [done|]. split; [done|]. by exists None.
Qed.

Lemma placed_perm r t tp i xs xs' : placed r t tp i xs xs' -> concat xs'.*2 ≡ₚ i :: concat xs.*2.
Proof.
  intros [(k & tp' & rs & Hk & _ & ->)| ->].
  - apply cell_lookup in Hk as [H0 Hk]. apply list_elem_of_split_length in Hk as (l1 & l2 & -> & Hl). rewrite Hl.
    rewrite insert_app_r_alt, Nat.sub_diag by done. cbn. rewrite !fmap_app, !concat_app. cbn. rewrite <- app_assoc. cbn. solve_Permutation.
  - rewrite fmap_app, concat_app. cbn. solve_Permutation.
Qed.

(** The chains after a request has found its place, in a slot or in a new one. *)
Lemma chains_join (xs : list (Z * list Z)) reqs reqs' k tp' rs e i :
  Forall (fun x => slot_chain reqs x.2) xs -> NoDup (concat xs.*2) -> i ∉ concat xs.*2 -> cell xs k = Some (tp', rs) -> list.last rs = Some e ->
  (forall j, j <> e -> j <> i -> next_in reqs' j = next_in reqs j) -> next_in reqs' e = Some (Some i) -> next_in reqs' i = Some None ->
  Forall (fun x => slot_chain reqs' x.2) (<[Z.to_nat k := (tp', rs ++ [i])]> xs).
Proof.
  intros Hc Hnd Hi Hk He Hj Hn1 Hn2. apply cell_lookup in Hk as [_ Hk]. pose proof (list_elem_of_lookup_2 _ _ _ Hk) as Hin.
  assert (Hee : e ∈ rs) by (apply last_Some in He as [ls ->]; set_solver).
  apply list.Forall_lookup. intros k' x Hx. destruct (decide (k' = Z.to_nat k)) as [->|Hne].
  - rewrite list_lookup_insert_eq in Hx by by eapply lookup_lt_Some. injection Hx as <-. cbn.
    apply (slot_chain_snoc reqs _ _ e); try done.
    + exact (list.Forall_lookup_1 _ _ _ _ Hc Hk).
    + intros H. apply Hi. by apply (in_slots _ _ _ Hin).
  - rewrite list_lookup_insert_ne in Hx by done. pose proof (list_elem_of_lookup_2 _ _ _ Hx) as Hxin.
    eapply slot_chain_ext; [|exact (list.Forall_lookup_1 _ _ _ _ Hc Hx)]. intros j Hjx. apply Hj.
    + intros ->. assert (H1 : xs.*2 !! k' = Some x.2) by by rewrite list_lookup_fmap, Hx.
      assert (H2 : xs.*2 !! Z.to_nat k = Some rs) by by rewrite list_lookup_fmap, Hk.
      exact (Hne (NoDup_concat_lookup _ _ _ _ _ _ Hnd H1 H2 Hjx Hee)).
    + intros ->. apply Hi. by apply (in_slots _ _ _ Hxin).
Qed.

Lemma chains_new (xs : list (Z * list Z)) reqs reqs' tp i :
  Forall (fun x => slot_chain reqs x.2) xs -> i ∉ concat xs.*2 ->
  (forall j, j <> i -> next_in reqs' j = next_in reqs j) -> next_in reqs' i = Some None ->
  Forall (fun x => slot_chain reqs' x.2) (xs ++ [(tp, [i])]).
Proof.
  intros Hc Hi Hj Hn. apply list.Forall_app. split.
  - apply list.Forall_forall. intros x Hx. eapply slot_chain_ext; [|by eapply list.Forall_forall in Hc]. intros j Hjx. apply Hj.
    intros ->. apply Hi. by eapply in_slots.
  - constructor; [|constructor]. split; [done|]. cbn. split; [done|]. by exists None.
Qed.

Section cache.
Context {W : Type} `{Env : AgentEnv W}.
Implicit Types s : astate W.

Definition set_table (l : list tree_cache) (len num : Z) (store : list (Z * Z)) (a : agent_session) : agent_session :=
  set_treecache (Some l) (set_treecache_len len (set_treecache_num num (set_cache_store store a))).

Definition write_cacheid (tp : Z) (t : subtree) (c : Z) (r : registry) : registry :=
  set_subtrees (<[tp := set_st_cacheid c t]> (subtrees r)) r.

(** The state with a new slot for the request [i]: its end is not set yet. *)
Definition new_slot s xs tp t i len store : astate W :=
  set_areg (write_cacheid tp t (Z.of_nat (length xs)) (areg s))
    (on_asp (set_table ((slot_of <$> xs) ++ mktc (Some tp) (Some i) None :: replicate (Z.to_nat len - S (length xs)) empty_slot)
               len (Z.of_nat (length xs)) store) s).

Lemma runs_get_slot l k tc (Q : tree_cache -> astate W -> Prop) s :
  treecache (asp s) = Some l -> cell l k = Some tc -> Q tc s -> runs (get_slot k) Q s.
Proof. intros Hl Hk HQ. unfold get_slot. run. eapply runs_lift; [done|]. run. eapply runs_lift; [done|]. done. Qed.

Lemma runs_set_slot l k tc (Q : unit -> astate W -> Prop) s :
  treecache (asp s) = Some l -> 0 <= k < Z.of_nat (length l) ->
  Q tt (on_asp (set_treecache (Some (<[Z.to_nat k := tc]> l))) s) -> runs (set_slot k tc) Q s.
Proof.
  intros Hl Hk HQ. unfold set_slot. run. eapply runs_lift; [done|].
  rewrite (proj2 (Z.leb_le _ _)), (proj2 (Z.ltb_lt _ _)) by lia. cbn [andb]. run. done.
Qed.

Lemma mallocslot_runs s xs tp t i store :
  cached (asp s) xs -> subtrees (areg s) !! tp = Some t ->
  runs (mallocslot (Z.of_nat (length xs)) tp i)
    (fun _ s' => exists len, Z.of_nat (length xs) < len /\ s' = new_slot s xs tp t i len store)
    (on_asp (fun a => set_cache_store store (set_treecache_num (Z.of_nat (length xs)) a)) s).
Proof.
  intros [Ht Hl Hn Hc Hd Hs] Htp. unfold mallocslot. run.
  set (s0 := on_asp _ s). set (n := Z.of_nat (length xs)) in *.
  assert (Hmid : forall s1 len, Z.of_nat (length xs) < len -> areg s1 = areg s ->
    s1 = on_asp (set_table (table xs len) len n store) s ->
    runs (tc ← get_slot n; set_slot n (mktc (Some tp) (Some i) (requests_end tc)) ;;
          s ← get; t ← lift (subtrees (areg s) !! tp);
          modify (set_areg (set_subtrees (<[tp := set_st_cacheid n t]> (subtrees (areg s))) (areg s))))
      (fun _ s' => exists len, Z.of_nat (length xs) < len /\ s' = new_slot s xs tp t i len store) s1).
  { intros s1 len Hlen Hreg ->. run. eapply runs_get_slot; [done| |].
    - unfold table. unfold cell. rewrite (proj2 (Z.leb_le _ _)) by lia. rewrite lookup_app_r by (rewrite length_fmap; lia).
      rewrite length_fmap. rewrite lookup_replicate_2 by lia. done.
    - run. eapply runs_set_slot; [done|rewrite table_length; lia|]. run. eapply runs_lift; [exact Htp|]. run.
      exists len. split; [done|]. unfold n. rewrite Nat2Z.id, table_next by done. done. }
  apply (runs_mono _ (fun _ s1 => exists len, Z.of_nat (length xs) < len /\ s1 = on_asp (set_table (table xs len) len n store) s)).
  - change (treecache_num (asp s0)) with n. change (treecache (asp s0)) with (treecache (asp s)).
    change (treecache_len (asp s0)) with (treecache_len (asp s)). rewrite Ht. cbn [default id]. fold empty_slot.
    destruct (Z.leb_spec (treecache_len (asp s)) n) as [Hfull|Hroom].
    + destruct (table_grow xs n eq_refl) as [H1 H2]. assert (Hn' : treecache_len (asp s) = n) by lia. rewrite Hn'. cbv zeta in H1, H2.
      rewrite H2, H1. rewrite (proj2 (Z.leb_le _ _)), (proj2 (Z.leb_le _ _)) by lia. cbn [andb]. run.
      exists (n + CACHE_GROW_SIZE). split; [unfold CACHE_GROW_SIZE; lia|done].
    + run. exists (treecache_len (asp s)). split; [lia|]. unfold s0, on_asp, set_table. cbn. rewrite <- Ht. by destruct s as [[]].
  - intros _ s1 (len & Hlen & ->). by apply (Hmid _ len).
Qed.

(** A new slot can be found, if there was none for its subtree. *)
Lemma mapped_new (r : registry) (store : list (Z * Z)) xs tp (t : subtree) i (n := Z.of_nat (length xs)) : mapped r store xs -> subtrees r !! tp = Some t ->
  (if global_cacheid t =? 0 then forall k rs, cell xs k <> Some (tp, rs) else netsnmp_get_local_cachid store (global_cacheid t) = -1) ->
  mapped (write_cacheid tp t n r) (if global_cacheid t =? 0 then store else (global_cacheid t, n) :: store) (xs ++ [(tp, [i])]).
Proof.
  intros Hm Ht Hnew. set (store' := if global_cacheid t =? 0 then store else _ :: store).
  assert (Hnone : forall k rs, cell xs k <> Some (tp, rs)).
  { intros k rs Hk. destruct (mp_slot _ _ _ Hm _ _ _ Hk) as (t' & Ht' & E). simplify_eq. apply cell_range in Hk as Hr.
    destruct (_ =? 0); [by eapply Hnew|lia]. }
  assert (Hget : forall g, netsnmp_get_local_cachid store' g = if negb (global_cacheid t =? 0) && (global_cacheid t =? g) then n else netsnmp_get_local_cachid store g).
  { intros g. unfold store'. destruct (_ =? 0); [done|]. apply get_local_cachid_cons. }
  assert (Htree : forall q u, subtrees r !! q = Some u -> exists u', subtrees (write_cacheid tp t n r) !! q = Some u' /\
    global_cacheid u' = global_cacheid u /\ st_cacheid u' = if decide (q = tp) then n else st_cacheid u).
  { intros q u Hu. cbn. destruct (decide (q = tp)) as [->|Hne]; [rewrite lookup_insert_eq|rewrite lookup_insert_ne by done]; simplify_eq; eauto. }
  constructor.
  - intros k q rs [Hk|[-> [= -> ->]]]%cell_snoc.
    + destruct (mp_slot _ _ _ Hm _ _ _ Hk) as (u & Hu & E). destruct (Htree _ _ Hu) as (u' & Hu' & Eg & Ec). exists u'. split; [done|].
      assert (q <> tp) as Hne by (intros ->; by eapply Hnone). rewrite Eg, Ec, decide_False by done. destruct (global_cacheid u =? 0) eqn:Hz; [done|].
      rewrite Hget. destruct (negb _ && _) eqn:Hb; [|done]. apply andb_true_iff in Hb as [Ht0 Hb]. apply negb_true_iff in Ht0. apply Z.eqb_eq in Hb.
      rewrite Ht0 in Hnew. rewrite <- Hb in E. apply cell_range in Hk. lia.
    + destruct (Htree _ _ Ht) as (t' & Ht' & Eg & Ec). exists t'. split; [done|]. rewrite Eg, Ec, decide_True, Hget, Z.eqb_refl by done. by destruct (_ =? 0).
  - intros g. rewrite Hget. destruct (negb _ && _) eqn:Hb.
    + intros _. apply andb_true_iff in Hb as [Hz Hg]. apply negb_true_iff, Z.eqb_neq in Hz. apply Z.eqb_eq in Hg as <-. split; [done|].
      destruct (Htree _ _ Ht) as (t' & Ht' & Eg & _). exists tp, [i], t'. split_and!; [apply cell_end|done..].
    + intros Hg. destruct (mp_store _ _ _ Hm _ Hg) as (Hg0 & q & rs & u & Hk & Hu & Eg). split; [done|].
      destruct (Htree _ _ Hu) as (u' & Hu' & Eg' & _). exists q, rs, u'. split_and!; [by apply cell_app|done|congruence].
Qed.

(** The slot for a request: one there is, or a new one. *)
Lemma cache_slot_runs s xs tp t i :
  cached (asp s) xs -> mapped (areg s) (cache_store (asp s)) xs -> subtrees (areg s) !! tp = Some t ->
  runs (cache_slot tp i)
    (fun c s' =>
       (exists tp' rs, cell xs c = Some (tp', rs) /\ (tp' = tp \/ shares (areg s) t tp') /\ s' = s) \/
       (exists len store, c = Z.of_nat (length xs) /\ c < len /\ Forall (fun x => 0 <= x.2 <= c) store /\
          mapped (write_cacheid tp t c (areg s)) store (xs ++ [(tp, [i])]) /\ s' = new_slot s xs tp t i len store)) s.
Proof.
  intros Hca Hm Htp. pose proof Hca as [Ht Hl Hn Hc Hd Hs]. unfold cache_slot. run. eapply runs_lift; [done|]. run.
  assert (Hnum : treecache_num (asp s) + 1 = Z.of_nat (length xs)) by lia.
  assert (Hst : Forall (fun x => 0 <= x.2 <= Z.of_nat (length xs)) (cache_store (asp s))) by (eapply list.Forall_impl; [exact Hs|]; cbn; lia).
  set (fresh := fun c s' => exists len store, c = Z.of_nat (length xs) /\ c < len /\ Forall (fun x => 0 <= x.2 <= c) store /\
          mapped (write_cacheid tp t c (areg s)) store (xs ++ [(tp, [i])]) /\ s' = new_slot s xs tp t i len store).
  assert (Hbump : forall store, cache_store (asp s) = store -> on_asp (fun a => set_treecache_num (treecache_num a + 1) a) s =
    on_asp (fun a => set_cache_store store (set_treecache_num (Z.of_nat (length xs)) a)) s).
  { intros store <-. unfold on_asp. f_equal. rewrite Hnum. by destruct (asp s). }
  pose proof (mapped_new _ _ _ _ _ i Hm Htp) as Hmn.
  destruct (Z.eqb_spec (global_cacheid t) 0) as [Hg|Hg]; cbn [negb].
  - assert (Hnew : (forall k rs, cell xs k <> Some (tp, rs)) -> runs (cacheid ← next_slot; mallocslot cacheid tp i ;; mret cacheid) fresh s).
    { intros Hnone. unfold next_slot. run. cbn [on_asp asp set_treecache_num treecache_num]. rewrite Hnum, (Hbump _ eq_refl).
      run_by (exact (mallocslot_runs s xs tp t i _ Hca Htp)) as _ s' (len & Hlen & ->). run. exists len, (cache_store (asp s)). split_and!; [done..| |done].
      by apply Hmn. }
    assert (Hat : forall k rs, cell xs k = Some (tp, rs) -> st_cacheid t = k).
    { intros k rs Hk. destruct (mp_slot _ _ _ Hm _ _ _ Hk) as (t' & Ht' & E). simplify_eq. by rewrite (proj2 (Z.eqb_eq _ _)) in E. }
    destruct ((-1 <? st_cacheid t) && (st_cacheid t <=? treecache_num (asp s))) eqn:Hin.
    + bool_prop. destruct (cell_in xs (st_cacheid t)) as [[tp' rs] Hcell]; [lia|].
      run. eapply runs_get_slot; [done|rewrite table_cell by lia; by rewrite Hcell|]. run. cbn [slot_of tc_subtree fst].
      case_bool_decide as Hhit.
      * run. left. exists tp', rs. injection Hhit as ->. split_and!; [done|by left|done].
      * eapply runs_mono; [apply Hnew|intros c s' H'; by right]. intros k rs' Hk. pose proof (Hat _ _ Hk) as <-. rewrite Hcell in Hk. by simplify_eq.
    + apply runs_ret. cbv beta iota. eapply runs_mono; [apply Hnew|intros c s' H'; by right].
      intros k rs' Hk. pose proof (Hat _ _ Hk) as <-. apply cell_range in Hk. apply andb_false_iff in Hin as [Hin|Hin]; [apply Z.ltb_ge in Hin|apply Z.leb_gt in Hin]; lia.
  - destruct (Z.eqb_spec (netsnmp_get_local_cachid (cache_store (asp s)) (global_cacheid t)) (-1)) as [Hmiss|Hhit]; cbn [negb].
    + unfold next_slot. run. cbn [on_asp asp set_treecache_num treecache_num]. rewrite Hnum, (Hbump _ eq_refl).
      eapply runs_mono; [exact (mallocslot_runs s xs tp t i ((global_cacheid t, Z.of_nat (length xs)) :: cache_store (asp s)) Hca Htp)|].
      intros _ s' (len & Hlen & ->). run. right. eexists len, _. split_and!; [done|done| |by apply Hmn|done]. constructor; [cbn; lia|done].
    + run. left. destruct (mp_store _ _ _ Hm _ Hhit) as (_ & tp' & rs & t' & Hk & Ht' & E). exists tp', rs. split_and!; [done| |done].
      right. split; [done|]. by exists t'.
Qed.

(** ** Linking *)

(** Without its links. *)
Definition unlinked (q : request_info) : request_info := set_rq_prev None (set_rq_next None q).

Definition relinked (reqs reqs' : list request_info) : Prop := unlinked <$> reqs' = unlinked <$> reqs.

Lemma insert_unlinked reqs i q q' : cell reqs i = Some q -> unlinked q' = unlinked q -> relinked reqs (<[Z.to_nat i := q']> reqs).
Proof.
  intros [_ Hq]%cell_lookup Hu. unfold relinked. rewrite list_fmap_insert, Hu. apply list_insert_id. by rewrite list_lookup_fmap, Hq.
Qed.

Lemma relinked_trans reqs reqs' reqs'' : relinked reqs reqs' -> relinked reqs' reqs'' -> relinked reqs reqs''.
Proof. unfold relinked. congruence. Qed.

Lemma relinked_cell reqs reqs' i q : relinked reqs reqs' -> cell reqs i = Some q -> exists q', cell reqs' i = Some q' /\ unlinked q' = unlinked q.
Proof.
  intros H Hq. assert (Hc : unlinked <$> cell reqs' i = Some (unlinked q)) by by rewrite <- cell_fmap, H, cell_fmap, Hq.
  destruct (cell reqs' i) as [q'|]; [|done]. apply (inj Some) in Hc. eauto.
Qed.

Definition linked_in s xs' len s' : Prop :=
  exists reqs', relinked (requests (asp s)) reqs' /\ Forall (fun x => slot_chain reqs' x.2) xs' /\
    s' = on_asp (fun a => set_treecache (Some (table xs' len)) (set_requests reqs' a)) s.

Lemma link_old_runs s xs len c tp' rs i q :
  treecache (asp s) = Some (table xs len) -> Z.of_nat (length xs) <= len ->
  Forall (fun x => slot_chain (requests (asp s)) x.2) xs -> NoDup (concat xs.*2) -> i ∉ concat xs.*2 ->
  cell xs c = Some (tp', rs) -> cell (requests (asp s)) i = Some q ->
  runs (link_request c i) (fun _ => linked_in s (<[Z.to_nat c := (tp', rs ++ [i])]> xs) len) s.
Proof.
  intros Ht Hlen Hc Hnd Hi Hk Hq. pose proof (cell_range _ _ _ Hk) as Hr. pose proof Hk as [_ Hk']%cell_lookup.
  pose proof (list.Forall_lookup_1 _ _ _ _ Hc Hk') as [Hne Hch]. cbn in Hne, Hch. destruct (list.last rs) as [e|] eqn:He; [|by apply last_None in He].
  assert (Hes : exists qe, cell (requests (asp s)) e = Some qe).
  { destruct (chain_member _ _ _ e Hch) as [n Hn]; [apply last_Some in He as [ls ->]; apply elem_of_app; right; by left|]. destruct (cell _ e); [eauto|done]. }
  destruct Hes as [qe Hqe]. assert (Hei : e <> i).
  { intros ->. apply Hi. eapply in_slots; [by eapply list_elem_of_lookup_2|]. apply last_Some in He as [ls He]. cbn. rewrite He. apply elem_of_app. right. by left. }
  assert (Hslot : cell (table xs len) c = Some (mktc (Some tp') (head rs) (Some e))).
  { rewrite table_cell, Hk by done. unfold slot_of. cbn. by rewrite He. }
  unfold link_request. run. eapply runs_get_slot; [done..|]. cbn [requests_end]. run.
  eapply runs_upd_request; [done|]. set (reqs1 := <[Z.to_nat e := set_rq_next (Some i) qe]> (requests (asp s))).
  assert (Hq1 : cell reqs1 i = Some q) by (unfold reqs1; rewrite cell_insert by (by eapply cell_range); by rewrite decide_False).
  run. eapply runs_upd_request; [exact Hq1|]. set (reqs2 := <[Z.to_nat i := set_rq_prev (Some e) (set_rq_next None q)]> reqs1).
  run. eapply runs_get_slot; [exact Ht|exact Hslot|]. run. eapply runs_set_slot; [exact Ht|rewrite table_length; lia|].
  exists reqs2. split_and!.
  - apply (relinked_trans _ reqs1); [by apply (insert_unlinked _ e qe)|by apply (insert_unlinked reqs1 i q)].
  - assert (Hcell : forall j, cell reqs2 j = if decide (j = i) then Some (set_rq_prev (Some e) (set_rq_next None q)) else
      if decide (j = e) then Some (set_rq_next (Some i) qe) else cell (requests (asp s)) j).
    { intros j. unfold reqs2. rewrite cell_insert by (by eapply cell_range). case_decide; [done|]. unfold reqs1. by rewrite cell_insert by (by eapply cell_range). }
    apply (chains_join xs (requests (asp s)) _ c tp' rs e i); try done.
    + intros j H1 H2. by rewrite Hcell, !decide_False.
    + by rewrite Hcell, decide_False, decide_True.
    + by rewrite Hcell, decide_True.
  - cbn [tc_subtree requests_begin]. replace (mktc (Some tp') (head rs) (Some i)) with (slot_of (tp', rs ++ [i])).
    2:{ unfold slot_of. cbn. rewrite last_snoc. by destruct rs. }
    rewrite table_insert by done. done.
Qed.

Lemma link_new_runs s xs len tp i q :
  treecache (asp s) = Some ((slot_of <$> xs) ++ mktc (Some tp) (Some i) None :: replicate (Z.to_nat len - S (length xs)) empty_slot) ->
  Z.of_nat (length xs) < len -> Forall (fun x => slot_chain (requests (asp s)) x.2) xs -> i ∉ concat xs.*2 ->
  cell (requests (asp s)) i = Some q ->
  runs (link_request (Z.of_nat (length xs)) i) (fun _ => linked_in s (xs ++ [(tp, [i])]) len) s.
Proof.
  intros Ht Hlen Hc Hi Hq. set (l := _ ++ _ :: _) in Ht.
  assert (Hll : Z.of_nat (length l) = len) by (unfold l; rewrite length_app, length_fmap; cbn; rewrite length_replicate; lia).
  assert (Hslot : cell l (Z.of_nat (length xs)) = Some (mktc (Some tp) (Some i) None)).
  { unfold cell, l. rewrite (proj2 (Z.leb_le _ _)) by lia. rewrite Nat2Z.id. apply list_lookup_middle. by rewrite length_fmap. }
  unfold link_request. run. eapply runs_get_slot; [exact Ht|exact Hslot|]. cbn [requests_end]. run.
  eapply runs_upd_request; [done|]. set (reqs1 := <[Z.to_nat i := set_rq_prev None (set_rq_next None q)]> (requests (asp s))).
  run. eapply runs_get_slot; [exact Ht|exact Hslot|]. run. eapply runs_set_slot; [exact Ht|lia|].
  exists reqs1. split_and!.
  - by apply (insert_unlinked _ i q).
  - assert (Hcell : forall j, cell reqs1 j = if decide (j = i) then Some (set_rq_prev None (set_rq_next None q)) else cell (requests (asp s)) j).
    { intros j. unfold reqs1. by rewrite cell_insert by (by eapply cell_range). }
    apply (chains_new xs (requests (asp s))); try done.
    + intros j Hj. by rewrite Hcell, decide_False.
    + by rewrite Hcell, decide_True.
  - cbn [tc_subtree requests_begin]. rewrite <- table_snoc by done. change (mktc (Some tp) (Some i) (Some i)) with (slot_of (tp, [i])).
    rewrite Nat2Z.id. unfold l. rewrite insert_app_r_alt by (rewrite length_fmap; lia). rewrite length_fmap, Nat.sub_diag. done.
Qed.

(** ** Adding a request *)

Lemma cached_ext a a' xs : cached a xs -> treecache a' = treecache a -> treecache_len a' = treecache_len a -> treecache_num a' = treecache_num a ->
  cache_store a' = cache_store a -> (forall j, next_in (requests a') j = next_in (requests a) j) -> cached a' xs.
Proof.
  intros [H1 H2 H3 H4 H5 H6] E1 E2 E3 E4 E5. constructor; rewrite ?E1, ?E2, ?E3, ?E4; try done.
  eapply list.Forall_impl; [exact H4|]. intros x. apply slot_chain_ext. intros j _. apply E5.
Qed.

(** The request as it is then, its links apart. *)
Definition filled (tp p index incl : Z) (rend : option (list Z)) (q : request_info) : request_info :=
  mkrequest (Some p) rend 0 0 incl 0 index (rq_repeat q) (orig_repeat q) (Some p) None None (Some tp).

(** The rest of the object. *)
Definition outer (a : agent_session) : agent_session :=
  set_table [] 0 0 [] (set_requests [] (set_a_vars ∅ a)).

Record added (tp p i : Z) s xs xs' s' : Prop := mkadded {
  ad_cached : cached (asp s') xs';
  ad_mapped : mapped (areg s') (cache_store (asp s')) xs';
  ad_placed : exists t, subtrees (areg s) !! tp = Some t /\ placed (areg s) t tp i xs xs';
  ad_trees : same_trees (areg s) (areg s');
  ad_caches : thecontextcache (areg s') = thecontextcache (areg s);
  ad_request : exists q q' t, cell (requests (asp s)) i = Some q /\ cell (requests (asp s')) i = Some q' /\ subtrees (areg s) !! tp = Some t /\
    exists incl, (incl = inclusive q \/ incl = 1) /\
      unlinked q' = filled tp p (i + 1) incl (if is_next_mode (command (a_pdu (asp s))) then take (Z.to_nat (end_len t)) <$> end_a t else None) q;
  ad_requests : forall j, j <> i -> unlinked <$> cell (requests (asp s')) j = unlinked <$> cell (requests (asp s)) j;
  ad_length : length (requests (asp s')) = length (requests (asp s));
  ad_vars : a_vars (asp s') = if MODE_IS_SET (command (a_pdu (asp s))) then a_vars (asp s)
                              else alter (fun n => set_vn_var (set_vp_type ASN_NULL (vn_var n)) n) p (a_vars (asp s));
  ad_outer : outer (asp s') = outer (asp s);
  ad_rest : Sets s' = Sets s /\ counters s' = counters s /\ aworld s' = aworld s /\ trace s' = trace s
}.

Lemma fill_request_runs s i p tp q n xs :
  cached (asp s) xs -> cell (requests (asp s)) i = Some q -> a_vars (asp s) !! p = Some n ->
  runs (fill_request i (i + 1) p tp) (fun _ s' => exists incl, (incl = inclusive q \/ incl = 1) /\
    s' = on_asp (fun a => set_a_vars (if MODE_IS_SET (command (a_pdu (asp s))) then a_vars a
                                      else alter (fun n => set_vn_var (set_vp_type ASN_NULL (vn_var n)) n) p (a_vars a))
           (set_requests (<[Z.to_nat i := set_inclusive incl (set_rq_subtree (Some tp) (set_rq_status 0 (set_processed 0 (set_delegated 0 (set_rq_index (i + 1) q)))))]> (requests a)) a)) s) s.
Proof.
  intros Hca Hq Hn. unfold fill_request. run. eapply runs_upd_request; [done|].
  set (q1 := set_rq_subtree _ _). set (s1 := on_asp _ s).
  assert (Hq1 : cell (requests (asp s1)) i = Some q1) by (cbn; rewrite cell_insert by (by eapply cell_range); by rewrite decide_True).
  assert (E0 : set_inclusive (inclusive q) q1 = q1) by by destruct q.
  destruct (MODE_IS_SET _) eqn:Hset.
  - run. exists (inclusive q). split; [by left|]. rewrite E0. done.
  - run. eapply runs_get_var; [exact Hn|].
    assert (Hv : forall incl s2, s2 = on_asp (fun a => set_requests (<[Z.to_nat i := set_inclusive incl q1]> (requests a)) a) s ->
      runs (upd_var (Some p) (set_vp_type ASN_NULL)) (fun _ s' => 
        s' = on_asp (fun a => set_a_vars (alter (fun n => set_vn_var (set_vp_type ASN_NULL (vn_var n)) n) p (a_vars a))
             (set_requests (<[Z.to_nat i := set_inclusive incl q1]> (requests a)) a)) s) s2).
    { intros incl s2 ->. unfold upd_var. eapply runs_upd_node; [exact Hn|]. unfold on_asp. cbn. do 2 f_equal.
      apply map_eq. intros x. destruct (decide (x = p)) as [->|Hne]; [rewrite lookup_insert_eq, lookup_alter_eq, Hn; done|by rewrite lookup_insert_ne, lookup_alter_ne]. }
    destruct (vp_type (vn_var n) =? ASN_PRIV_INCL_RANGE).
    + run. eapply runs_upd_request; [exact Hq1|]. eapply runs_mono; [apply (Hv 1)|intros _ s' ->; exists 1; split; [by right|done]].
      unfold on_asp. cbn. by rewrite list_insert_insert_eq.
    + run. eapply runs_mono; [apply (Hv (inclusive q))|intros _ s' ->; exists (inclusive q); split; [by left|done]].
      unfold s1. by rewrite E0.
Qed.

Lemma next_in_insert reqs i q q' j : cell reqs i = Some q -> rq_next q' = rq_next q -> next_in (<[Z.to_nat i := q']> reqs) j = next_in reqs j.
Proof. intros Hq Hn. rewrite cell_insert by (by eapply cell_range). case_decide as Hj; [|done]. subst. rewrite Hq. cbn. by rewrite Hn. Qed.

(** Attaching the request, when the slot is there. *)
Lemma attach_request_runs s xs' len c i p tp t q :
  subtrees (areg s) !! tp = Some t -> cell (requests (asp s)) i = Some q ->
  (forall reqs q1, length reqs = length (requests (asp s)) -> cell reqs i = Some q1 -> (forall j, next_in reqs j = next_in (requests (asp s)) j) ->
     runs (link_request c i) (fun _ => linked_in (on_asp (set_requests reqs) s) xs' len) (on_asp (set_requests reqs) s)) ->
  runs (attach_request c i p tp) (fun _ s' => exists reqs' q',
    Forall (fun x => slot_chain reqs' x.2) xs' /\ length reqs' = length (requests (asp s)) /\
    (forall j, j <> i -> unlinked <$> cell reqs' j = unlinked <$> cell (requests (asp s)) j) /\
    cell reqs' i = Some q' /\
    unlinked q' = set_requestvb (Some p) (set_requestvb_start (Some p)
      (set_range_end (if is_next_mode (command (a_pdu (asp s))) then take (Z.to_nat (end_len t)) <$> end_a t else None) (unlinked q))) /\
    s' = on_asp (fun a => set_treecache (Some (table xs' len)) (set_requests reqs' a)) s) s.
Proof.
  intros Ht Hq Hlink. unfold attach_request. run. eapply runs_lift; [done|]. run. eapply runs_upd_request; [done|].
  set (rend := if is_next_mode _ then _ else _). set (reqs1 := <[Z.to_nat i := set_range_end rend q]> (requests (asp s))).
  pose proof (cell_range _ _ _ Hq) as Hr.
  assert (Hq1 : cell reqs1 i = Some (set_range_end rend q)) by (unfold reqs1; rewrite cell_insert by done; by rewrite decide_True).
  run. run_by (apply (Hlink reqs1 (set_range_end rend q)); [by apply length_insert|done|intros j; eapply next_in_insert; [eassumption|reflexivity]]) as _ s2 (reqs2 & Hre & Hch & ->).
  change (requests (asp (on_asp (set_requests reqs1) s))) with reqs1 in Hre.
  destruct (relinked_cell _ _ _ _ Hre Hq1) as (q2 & Hq2 & Hu). eapply runs_upd_request; [exact Hq2|].
  set (q3 := set_requestvb (Some p) (set_requestvb_start (Some p) q2)). exists (<[Z.to_nat i := q3]> reqs2), q3.
  assert (Hlen2 : length reqs2 = length (requests (asp s))).
  { apply (f_equal length) in Hre. rewrite !length_fmap in Hre. rewrite Hre. apply length_insert. }
  split_and!; [|by rewrite length_insert| | | |done].
  - eapply list.Forall_impl; [exact Hch|]. intros x. apply slot_chain_ext. intros j _. eapply next_in_insert; [eassumption|reflexivity].
  - intros j Hj. rewrite cell_insert by (by eapply cell_range). rewrite decide_False by done. rewrite <- cell_fmap, Hre, cell_fmap.
    unfold reqs1. rewrite cell_insert by done. by rewrite decide_False.
  - rewrite cell_insert by (by eapply cell_range). by rewrite decide_True.
  - exact (f_equal (fun x => set_requestvb (Some p) (set_requestvb_start (Some p) x)) Hu).
Qed.

(** The state [s2] has a slot for a request of [tp], with the slots [xs'] to be. *)
Record with_slot s1 (tp : Z) (t : subtree) (xs' : list (Z * list Z)) (len : Z) s2 : Prop := mkws {
  ws_tree : exists t2, subtrees (areg s2) !! tp = Some t2 /\ set_st_cacheid 0 t2 = set_st_cacheid 0 t;
  ws_trees : same_trees (areg s1) (areg s2);
  ws_caches : thecontextcache (areg s2) = thecontextcache (areg s1);
  ws_asp : exists l num store, asp s2 = set_table l len num store (asp s1);
  ws_len : Z.of_nat (length xs') <= len;
  ws_num : treecache_num (asp s2) = Z.of_nat (length xs') - 1;
  ws_store : Forall (fun c => 0 <= c.2 < Z.of_nat (length xs')) (cache_store (asp s2));
  ws_mapped : mapped (areg s2) (cache_store (asp s2)) xs';
  ws_rest : Sets s2 = Sets s1 /\ counters s2 = counters s1 /\ aworld s2 = aworld s1 /\ trace s2 = trace s1
}.

Definition links_into s2 (xs' : list (Z * list Z)) (len c i : Z) : Prop := forall reqs q1,
  length reqs = length (requests (asp s2)) -> cell reqs i = Some q1 -> (forall j, next_in reqs j = next_in (requests (asp s2)) j) ->
  runs (link_request c i) (fun _ => linked_in (on_asp (set_requests reqs) s2) xs' len) (on_asp (set_requests reqs) s2).

(** The state after the request was filled. *)
Definition after_fill (i p tp incl : Z) (q : request_info) s : astate W :=
  on_asp (fun a => set_a_vars (if MODE_IS_SET (command (a_pdu (asp s))) then a_vars a
                               else alter (fun n => set_vn_var (set_vp_type ASN_NULL (vn_var n)) n) p (a_vars a))
           (set_requests (<[Z.to_nat i := set_inclusive incl (set_rq_subtree (Some tp) (set_rq_status 0 (set_processed 0 (set_delegated 0 (set_rq_index (i + 1) q)))))]> (requests a)) a)) s.

Lemma attach_added s xs i p tp t q incl xs' len c s2 :
  NoDup (concat xs.*2) -> i ∉ concat xs.*2 -> cell (requests (asp s)) i = Some q -> subtrees (areg s) !! tp = Some t ->
  (incl = inclusive q \/ incl = 1) -> placed (areg s) t tp i xs xs' ->
  with_slot (after_fill i p tp incl q s) tp t xs' len s2 -> links_into s2 xs' len c i ->
  runs (attach_request c i p tp ;; mret i) (fun r s' => r = i /\ exists xs', added tp p i s xs xs' s') s2.
Proof.
  intros Hnd Hni Hq Ht Hincl Hp [(t2 & Ht2 & He) Hs Hcc (l & num & store & Ea) El En Est Em (E1 & E2 & E3 & E4)] Hlink.
  assert (He1 : end_a t2 = end_a t) by exact (f_equal end_a He). assert (He2 : end_len t2 = end_len t) by exact (f_equal end_len He).
  set (q1 := set_inclusive incl (set_rq_subtree (Some tp) (set_rq_status 0 (set_processed 0 (set_delegated 0 (set_rq_index (i + 1) q)))))).
  assert (Er : requests (asp s2) = <[Z.to_nat i := q1]> (requests (asp s))) by by rewrite Ea.
  assert (Hq1 : cell (requests (asp s2)) i = Some q1) by (rewrite Er, cell_insert by (by eapply cell_range); by rewrite decide_True).
  run. run_by (apply (attach_request_runs s2 xs' len c i p tp t2 q1); [done|exact Hq1|exact Hlink]) as _ s3 (reqs' & q' & Hch & Hlen & Hoth & Hq' & Hu & ->).
  run. split; [done|]. exists xs'. constructor; cbn; try done.
  - constructor; cbn; try done; [by rewrite Ea|by rewrite Ea|]. rewrite (placed_perm _ _ _ _ _ _ Hp). by constructor.
  - by exists t.
  - exists q, q', t. split_and!; [done..|]. exists incl. split; [done|]. rewrite Hu, He1, He2, Ea. done.
  - intros j Hj. rewrite Hoth, Er by done. rewrite cell_insert by (by eapply cell_range). by rewrite decide_False.
  - rewrite Hlen, Er. apply length_insert.
  - by rewrite Ea.
  - change (outer (asp s2) = outer (asp s)). by rewrite Ea.
Qed.

Lemma add_request_runs s xs i p tp t q n :
  0 <= i -> cached (asp s) xs -> mapped (areg s) (cache_store (asp s)) xs -> i ∉ concat xs.*2 -> cell (requests (asp s)) i = Some q -> a_vars (asp s) !! p = Some n ->
  subtrees (areg s) !! tp = Some t -> runs (add_request (i + 1) p tp) (fun r s' => r = i /\ exists xs', added tp p i s xs xs' s') s.
Proof.
  intros Hi Hca Hm Hni Hq Hn Ht. unfold add_request. replace (i + 1 - 1) with i by lia. rewrite (proj2 (Z.ltb_ge _ _)) by lia. run.
  run_by (by eapply fill_request_runs) as _ s1 (incl & Hincl & E1). fold (after_fill i p tp incl q s) in E1. subst s1. set (s1 := after_fill i p tp incl q s).
  assert (Hca1 : cached (asp s1) xs).
  { eapply cached_ext; [exact Hca|done..|]. intros j. cbn. eapply next_in_insert; [eassumption|reflexivity]. }
  pose proof (ca_nodup _ _ Hca) as Hnd. pose proof Hca1 as [Tt Tl Tn Tc Td Ts].
  run. run_by (by apply (cache_slot_runs s1 xs tp t i)) as c s2 [(tp' & rs & Hk & Htp' & ->)|(len & store & -> & Hlen & Hst & Hmn & ->)].
  - apply (attach_added s xs i p tp t q incl (<[Z.to_nat c := (tp', rs ++ [i])]> xs) (treecache_len (asp s1))); try done.
    + left. by exists c, tp', rs.
    + constructor; try done; rewrite ?length_insert; try done; [by exists t| |].
      2:{ eapply mapped_keys; [|done|exact Hm]. intros k. pose proof (cell_range _ _ _ Hk). rewrite cell_insert by done. case_decide as Hkc; [subst; by rewrite Hk|done]. }
      fold s1. exists (table xs (treecache_len (asp s1))), (treecache_num (asp s1)), (cache_store (asp s1)).
      revert Tt. generalize (asp s1) as a. intros a Ta. unfold set_table. rewrite <- Ta. by destruct a.
    + intros reqs q1 Hl Hq1 Hnx. apply (link_old_runs _ xs _ c tp' rs i q1); try done.
      eapply list.Forall_impl; [exact Tc|]. intros x. apply slot_chain_ext. intros j _. apply Hnx.
  - apply (attach_added s xs i p tp t q incl (xs ++ [(tp, [i])]) len); try done.
    + by right.
    + constructor; cbn; try done; rewrite ?length_app; cbn; try lia.
      * eexists. split; [apply lookup_insert_eq|done].
      * by apply same_set_cacheid.
      * eauto.
      * eapply list.Forall_impl; [exact Hst|]. cbn. lia.
    + intros reqs q1 Hl Hq1 Hnx. apply (link_new_runs _ xs _ tp i q1); try done.
      eapply list.Forall_impl; [exact Tc|]. intros x. apply slot_chain_ext. intros j _. apply Hnx.
Qed.
End cache.
