(* ===== verification/AgentPrepare.v ===== *)
(** The preparation of a GET or a SET: every name the requester may not see is
    answered or refused here, and of the others each gets its place with the
    subtree that holds it. *)
From Stdlib Require Import ZArith Lia.
From stdpp Require Import gmap.
From S2P Require Import Prelude StateMonad Chains Asn1Defs SnmpDefs Oid SnmpVar Pdu Vacm Registry RegistryProps.
From S2P Require Import AgentDefs AgentRequest AgentPasses AgentSet AgentCache.

Section prepare.
Context {W : Type} `{Env : AgentEnv W}.
Implicit Types s : astate W.

Definition in_view (p : pdu) (v : variable) : Prop := in_a_view (vp_name v) (vp_name_length v) p (vp_type v) = VACM_SUCCESS.

Definition set_type (t : Z) (n : vnode) : vnode := set_vn_var (set_vp_type t (vn_var n)) n.

(** A variable that is given to a handler: of a SET it is as it was. *)
Definition given (c : Z) (n : vnode) : vnode := if MODE_IS_SET c then n else set_type ASN_NULL n.

(** A variable that is answered at once. *)
Definition no_such_object (n n' : vnode) : Prop :=
  vp_type (vn_var n') = SNMP_NOSUCHOBJECT /\ vp_name (vn_var n') = vp_name (vn_var n) /\ vp_name_length (vn_var n') = vp_name_length (vn_var n) /\
  next_variable n' = next_variable n.

(** [tp] is a subtree of the context of the request, and holds the name. *)
Definition held (r : registry) (q : pdu) (v : variable) (tp : Z) : Prop :=
  exists ps, context_chain r (context_name q) ps /\ tp ∈ ps /\ holds_name (subtrees r) tp (oid_of (vp_name v) (vp_name_length v)).

Lemma held_same r r' q v tp : same_trees r r' -> held r q v tp -> held r' q v tp.
Proof. intros Hs (ps & Hc & Hin & Hh). exists ps. split_and!; [by eapply same_context_chain|done|by eapply same_holds]. Qed.

(** No handler gets the name: the requester must not see it, or nothing holds it. *)
Definition refused (r : registry) (q : pdu) (v : variable) : Prop := ~ in_view q v \/ forall tp, ~ held r q v tp.

(** [tp] holds the name, and its place is with the subtree [tp']: itself, or one that
    is marked with the same [global_cacheid]. *)
Definition serves (r : registry) (q : pdu) (tp' tp : Z) (v : variable) : Prop :=
  held r q v tp /\
  (tp' = tp \/ exists t, subtrees r !! tp = Some t /\ shares r t tp').

(** Subtrees that are to be merged have one slot. *)
Definition separate (r : registry) (xs : list (Z * list Z)) : Prop := forall k k' x x' t,
  cell xs k = Some x -> cell xs k' = Some x' -> subtrees r !! x.1 = Some t -> x'.1 = x.1 \/ shares r t x'.1 -> k = k'.

Lemma shares_same r r' t t' tp : same_trees r r' -> global_cacheid t' = global_cacheid t -> shares r t tp -> shares r' t' tp.
Proof.
  intros Hs He (Hg & u & Hu & E). split; [congruence|]. destruct (same_subtree _ _ _ _ Hs Hu) as (u' & Hu' & Eu). exists u'. split; [done|].
  rewrite He, <- E. exact (f_equal global_cacheid Eu).
Qed.

Lemma mapped_separate r r' store xs : mapped r store xs -> same_trees r' r -> separate r' xs.
Proof.
  intros Hm Hs k k' [tp rs] [tp' rs'] t Hk Hk' Ht Hor. destruct (same_subtree _ _ _ _ Hs Ht) as (u & Hu & E).
  eapply mapped_inj; [exact Hm|exact Hk|exact Hk'|exact Hu|]. destruct Hor as [?|Hsh]; [by left|right].
  eapply shares_same; [exact Hs| |exact Hsh]. exact (f_equal global_cacheid E).
Qed.

(** What became of the request [i]: it is in the slot [x]. *)
Definition request_ready s0 (vbs : list Z) s (x : Z * list Z) (i : Z) : Prop :=
  exists p n q incl tp, cell vbs i = Some p /\ a_vars (asp s0) !! p = Some n /\ cell (requests (asp s)) i = Some q /\
    unlinked q = filled tp p (i + 1) incl None zero_request /\ in_view (a_pdu (asp s0)) (vn_var n) /\
    a_vars (asp s) !! p = Some (given (command (a_pdu (asp s0))) n) /\ serves (areg s0) (a_pdu (asp s0)) x.1 tp (vn_var n).

(** The first [j] variables [vbs] are done. *)
Record prepared s0 (vbs : list Z) (j : Z) (xs : list (Z * list Z)) s : Prop := mkprepared {
  pr_cached : cached (asp s) xs;
  pr_mapped : mapped (areg s) (cache_store (asp s)) xs;
  pr_registry : registry_ok (areg s);
  pr_trees : same_trees (areg s0) (areg s);
  pr_outer : outer (asp s) = outer (asp s0);
  pr_rest : Sets s = Sets s0 /\ counters s = counters s0 /\ aworld s = aworld s0 /\ trace s = trace s0;
  pr_length : length (requests (asp s)) = length vbs;
  pr_new : forall i, 0 <= i < Z.of_nat (length vbs) -> i ∉ concat xs.*2 -> unlinked <$> cell (requests (asp s)) i = Some zero_request;
  pr_trees_of : forall x, x ∈ xs -> is_Some (subtrees (areg s0) !! x.1);
  pr_slots : forall x i, x ∈ xs -> i ∈ x.2 -> 0 <= i < j /\ request_ready s0 vbs s x i;
  pr_others : forall i p n, 0 <= i < j -> cell vbs i = Some p -> a_vars (asp s0) !! p = Some n -> i ∉ concat xs.*2 ->
    exists n', a_vars (asp s) !! p = Some n' /\ no_such_object n n' /\ refused (areg s0) (a_pdu (asp s0)) (vn_var n);
  pr_vars : forall p, p ∉ take (Z.to_nat j) vbs -> a_vars (asp s) !! p = a_vars (asp s0) !! p
}.

Lemma prepared_areg s0 vbs j xs s r : prepared s0 vbs j xs s -> registry_ok r -> same_registry (areg s) r -> prepared s0 vbs j xs (set_areg r s).
Proof.
  intros [] Hr Hs. pose proof (same_registry_trees _ _ Hs). constructor; try done; cbn; [|by etransitivity].
  destruct Hs as [cs ->]. by eapply mapped_keys; [..|done].
Qed.

Lemma take_next (vbs : list Z) j p : cell vbs j = Some p -> take (Z.to_nat (j + 1)) vbs = take (Z.to_nat j) vbs ++ [p].
Proof. intros [Hj Hp]%cell_lookup. replace (Z.to_nat (j + 1)) with (S (Z.to_nat j)) by lia. by apply take_S_r. Qed.

Lemma cell_take (vbs : list Z) j i p : cell vbs i = Some p -> i < j -> p ∈ take (Z.to_nat j) vbs.
Proof. intros [Hi Hp]%cell_lookup Hj. apply list_elem_of_lookup. exists (Z.to_nat i). rewrite lookup_take_lt by lia. done. Qed.

Lemma cell_not_take (vbs : list Z) j p : NoDup vbs -> cell vbs j = Some p -> p ∉ take (Z.to_nat j) vbs.
Proof.
  intros Hnd [Hj Hp]%cell_lookup Hin. apply list_elem_of_lookup in Hin as [k Hk]. apply lookup_take_Some in Hk as [Hk Hlt].
  pose proof (NoDup_lookup _ _ _ _ Hnd Hk Hp). lia.
Qed.

Lemma not_take_next (vbs : list Z) j p p' : cell vbs j = Some p -> p' ∉ take (Z.to_nat (j + 1)) vbs -> p' <> p /\ p' ∉ take (Z.to_nat j) vbs.
Proof. intros Hj. rewrite (take_next _ _ _ Hj), elem_of_app, list_elem_of_singleton. tauto. Qed.

Lemma placed_elem r t tp i xs xs' x' : placed r t tp i xs xs' -> x' ∈ xs' ->
  x' ∈ xs \/ x'.2 = [i] /\ x'.1 = tp \/ exists x, x ∈ xs /\ x'.1 = x.1 /\ x'.2 = x.2 ++ [i] /\ (x'.1 = tp \/ shares r t x'.1).
Proof.
  intros [(k & tp' & rs & Hk & Hg & ->)| ->] Hx.
  - apply cell_lookup in Hk as [_ Hk]. apply list_elem_of_lookup in Hx as [k' Hx]. apply list_lookup_insert_Some in Hx as [(<- & <- & _)|[_ Hx]].
    + right. right. exists (tp', rs). split_and!; [by eapply list_elem_of_lookup_2|done..].
    + left. by eapply list_elem_of_lookup_2.
  - apply elem_of_app in Hx as [?|Hx]; [by left|]. apply list_elem_of_singleton in Hx as ->. right. by left.
Qed.

(** A variable that gets no place. *)
Lemma prepared_other s0 vbs j xs s p n f :
  NoDup vbs -> prepared s0 vbs j xs s -> cell vbs j = Some p -> a_vars (asp s0) !! p = Some n -> no_such_object n (set_vn_var (f (vn_var n)) n) ->
  refused (areg s0) (a_pdu (asp s0)) (vn_var n) ->
  runs (upd_var (Some p) f) (fun _ => prepared s0 vbs (j + 1) xs) s.
Proof.
  intros Hnd Hp Hj Hn Hf Href. pose proof (cell_range _ _ _ Hj) as Hjr. pose proof (cell_not_take _ _ _ Hnd Hj) as Hnt.
  assert (Hns : a_vars (asp s) !! p = Some n) by (rewrite (pr_vars _ _ _ _ _ Hp) by done; done).
  unfold upd_var. eapply runs_upd_node; [done|]. destruct Hp as [H1 Hm H2 H3 H4 H5 H6 H7 H8 H9 H10 H11]. constructor; cbn; try done.
  - eapply cached_ext; [exact H1|done..].
  - intros x i Hx Hi. destruct (H9 x i Hx Hi) as (Hij & p' & n' & q & incl & tp & A1 & A2 & A3 & A4 & A5 & A6 & A7). split; [lia|].
    exists p', n', q, incl, tp. split_and!; try done. cbn. rewrite lookup_insert_ne; [done|]. intros ->. apply Hnt. eapply cell_take; [exact A1|lia].
  - intros i p' n' Hi Hpi Hn' Hni. destruct (decide (i = j)) as [->|Hne].
    + simplify_eq. rewrite lookup_insert_eq. eauto.
    + destruct (H10 i p' n') as (n'' & Hn'' & Hno & Hr); [lia|done..|]. exists n''. split_and!; [|done..]. rewrite lookup_insert_ne; [done|].
      intros ->. apply Hnt. eapply cell_take; [done|lia].
  - intros p' Hp'. apply (not_take_next _ _ _ _ Hj) in Hp' as [Hne Hp']. rewrite lookup_insert_ne by done. by apply H11.
Qed.

Lemma prepared_fresh s0 vbs j xs s : prepared s0 vbs j xs s -> j ∉ concat xs.*2.
Proof.
  intros Hp Hin. apply list_elem_of_In, in_concat in Hin as (l & Hl & Hin). apply list_elem_of_In, list_elem_of_fmap in Hl as (x & -> & Hx).
  apply list_elem_of_In in Hin. destruct (pr_slots _ _ _ _ _ Hp x j Hx Hin). lia.
Qed.

(** A variable that gets one. *)
Lemma prepared_added s0 vbs j xs s p n tp xs' s' :
  NoDup vbs -> prepared s0 vbs j xs s -> cell vbs j = Some p -> a_vars (asp s0) !! p = Some n ->
  is_next_mode (command (a_pdu (asp s0))) = false -> in_view (a_pdu (asp s0)) (vn_var n) ->
  held (areg s0) (a_pdu (asp s0)) (vn_var n) tp ->
  added tp p j s xs xs' s' -> prepared s0 vbs (j + 1) xs' s'.
Proof.
  intros Hnd Hp Hj Hn Hmode Hview Hholds Ha. pose proof (cell_range _ _ _ Hj) as Hjr. pose proof (cell_not_take _ _ _ Hnd Hj) as Hnt.
  pose proof (pr_outer _ _ _ _ _ Hp) as Hout. assert (Hcmd : command (a_pdu (asp s)) = command (a_pdu (asp s0))) by exact (f_equal (fun a => command (a_pdu a)) Hout).
  pose proof (prepared_fresh _ _ _ _ _ Hp) as Hnj.
  destruct Ha as [A1 Am (t & Ht & Hpl) A3 A4 A5 A6 A7 A8 A9 A10]. rewrite Hcmd in A5, A8.
  destruct Hp as [H1 Hm H2 H3 H4 H5 H6 H7 H8 H9 H10 H11].
  assert (Hv : forall p', p' <> p -> a_vars (asp s') !! p' = a_vars (asp s) !! p').
  { intros p' Hne. rewrite A8. destruct (MODE_IS_SET _); [done|]. by rewrite lookup_alter_ne. }
  constructor.
  - exact A1.
  - exact Am.
  - eapply registry_ok_same; [exact A3|exact A4|exact H2].
  - by etransitivity.
  - by etransitivity.
  - destruct A10 as (-> & -> & -> & ->). done.
  - by rewrite A7.
  - intros i Hi Hni. rewrite (placed_perm _ _ _ _ _ _ Hpl) in Hni. apply not_elem_of_cons in Hni as [Hne Hni]. rewrite A6 by done. by apply H7.
  - intros x Hx. destruct (placed_elem _ _ _ _ _ _ _ Hpl Hx) as [Hx'|[[_ ->]|(x' & Hx' & -> & _)]]; [by apply H8| |by apply H8].
    destruct Hholds as (ps & _ & _ & t' & e & Ht' & _). eauto.
  - assert (Hkeep : forall x i, x ∈ xs -> i ∈ x.2 -> 0 <= i < j + 1 /\ request_ready s0 vbs s' x i).
    { intros x i Hx Hi. destruct (H9 x i Hx Hi) as (Hij & p' & n' & q & incl & tp' & B1 & B2 & B3 & B4 & B5 & B6 & B7). split; [lia|].
      specialize (A6 i). rewrite B3 in A6. cbn in A6. destruct (cell (requests (asp s')) i) as [q'|] eqn:Hq'; [|specialize (A6 ltac:(lia)); done].
      exists p', n', q', incl, tp'. split_and!; try done; [rewrite <- B4; apply (inj Some), A6; lia|].
      rewrite Hv; [done|]. intros ->. apply Hnt. eapply cell_take; [exact B1|lia]. }
    assert (Hready : forall x, x.1 = tp \/ shares (areg s) t x.1 -> request_ready s0 vbs s' x j).
    { intros x Hx. destruct A5 as (q & q' & t' & Hq & Hq' & Ht' & incl & _ & Hu). rewrite Hmode in Hu.
      exists p, n, q', incl, tp. split_and!; try done.
      - rewrite Hu. specialize (H7 j ltac:(lia) Hnj). rewrite Hq in H7. apply (inj Some) in H7. unfold filled. f_equal.
        + exact (f_equal rq_repeat H7).
        + exact (f_equal orig_repeat H7).
      - rewrite A8. unfold given. destruct (MODE_IS_SET _); [by rewrite H11|]. rewrite lookup_alter_eq, H11, Hn by done. done.
      - split; [done|]. destruct Hx as [?|Hg]; [by left|]. right. symmetry in H3. destruct (same_subtree _ _ _ _ H3 Ht) as (t0 & Ht0 & He). exists t0. split; [done|].
        eapply shares_same; [exact H3| |exact Hg]. exact (f_equal global_cacheid He). }
    intros x i Hx Hi. destruct (placed_elem _ _ _ _ _ _ _ Hpl Hx) as [Hx'|[[E1 E2]|(x' & Hx' & E1 & E2 & Hg)]].
    + by apply Hkeep.
    + rewrite E1 in Hi. apply list_elem_of_singleton in Hi as ->. split; [lia|]. apply Hready. by left.
    + rewrite E2 in Hi. apply elem_of_app in Hi as [Hi|Hi].
      * destruct (Hkeep x' i Hx' Hi) as [? H]. split; [done|]. unfold request_ready in *. by rewrite E1.
      * apply list_elem_of_singleton in Hi as ->. split; [lia|]. by apply Hready.
  - intros i p' n' Hi Hpi Hn' Hni. rewrite (placed_perm _ _ _ _ _ _ Hpl) in Hni. destruct (decide (i = j)) as [->|Hne]; [exfalso; apply Hni; by left|].
    destruct (H10 i p' n') as (n'' & Hn'' & Hno & Hr); [lia|done..|intros Hin; apply Hni; by right|]. exists n''. split_and!; [|done..]. rewrite Hv; [done|].
    intros ->. apply Hnt. eapply cell_take; [done|lia].
  - intros p' Hp'. apply (not_take_next _ _ _ _ Hj) in Hp' as [Hne Hp']. rewrite Hv by done. by apply H11.
Qed.

(** The name of the variable [i] is one the requester may touch. *)
Definition visible s0 (vbs : list Z) (i : Z) : Prop :=
  forall p n, cell vbs i = Some p -> a_vars (asp s0) !! p = Some n -> in_view (a_pdu (asp s0)) (vn_var n).

(** What the loop comes to: it has gone through the variables, or it has stopped
    at one that must not be set. *)
Definition loop_result s0 (vbs : list Z) (j st : Z) s' : Prop :=
  st = SNMP_ERR_NOERROR /\ (exists xs, prepared s0 vbs (Z.of_nat (length vbs)) xs s') /\
    (command (a_pdu (asp s0)) = SNMP_MSG_SET -> forall i, j <= i -> visible s0 vbs i) \/
  st = SNMP_ERR_NOACCESS /\ command (a_pdu (asp s0)) = SNMP_MSG_SET /\
    exists i xs s, j <= i < Z.of_nat (length vbs) /\ (forall k, j <= k < i -> visible s0 vbs k) /\ ~ visible s0 vbs i /\
      prepared s0 vbs i xs s /\ s' = on_asp (set_a_index (i + 1)) s.

(** One variable. *)
Lemma cache_variable_runs s0 vbs j xs s p n k :
  NoDup vbs -> var_ok (vn_var n) -> command (a_pdu (asp s0)) = SNMP_MSG_GET \/ command (a_pdu (asp s0)) = SNMP_MSG_SET ->
  prepared s0 vbs j xs s -> cell vbs j = Some p -> a_vars (asp s0) !! p = Some n ->
  runs (cache_variable (j + 1) p k) (fun st s' =>
    st = SNMP_ERR_NOERROR /\ (exists xs', prepared s0 vbs (j + 1) xs' s') /\ (command (a_pdu (asp s0)) = SNMP_MSG_SET -> in_view (a_pdu (asp s0)) (vn_var n)) \/
    st = SNMP_ERR_NOACCESS /\ command (a_pdu (asp s0)) = SNMP_MSG_SET /\ ~ in_view (a_pdu (asp s0)) (vn_var n) /\
      exists s1, prepared s0 vbs j xs s1 /\ s' = on_asp (set_a_index (j + 1)) s1) s.
Proof.
  intros Hnd Hvok Hc Hp Hj Hn. pose proof (cell_not_take _ _ _ Hnd Hj) as Hnt.
  assert (Hns : a_vars (asp s) !! p = Some n) by (rewrite (pr_vars _ _ _ _ _ Hp) by done; done).
  assert (Hpdu : a_pdu (asp s) = a_pdu (asp s0)) by exact (f_equal a_pdu (pr_outer _ _ _ _ _ Hp)).
  unfold cache_variable. run. eapply runs_get_var; [exact Hns|]. run. rewrite Hpdu.
  destruct (ro_chains _ (pr_registry _ _ _ _ _ Hp) (context_name (a_pdu (asp s0)))) as [ps Hps].
  destruct (subtree_find_spec (areg s) (vp_name (vn_var n)) (vp_name_length (vn_var n)) None _ ps ps (pr_registry _ _ _ _ _ Hp) Hps eq_refl Hvok)
    as (r & tp & Hfind & Hrok & Hsame & Hres).
  eapply runs_lift; [exact Hfind|]. run. clear Hfind.
  assert (Hp1 : prepared s0 vbs j xs (set_areg r s)) by (by apply prepared_areg).
  set (s1 := set_areg r s) in *. pose proof (cell_range _ _ _ Hj) as Hjr.
  assert (Hchk : (command (a_pdu (asp s0)) =? SNMP_MSG_GET) || (command (a_pdu (asp s0)) =? SNMP_MSG_SET) = true) by by destruct Hc as [-> | ->].
  assert (Hnext : is_next_mode (command (a_pdu (asp s0))) = false) by by destruct Hc as [-> | ->].
  rewrite Hchk. unfold in_view. set (view := in_a_view _ _ _ _).
  destruct (Z.eqb_spec view VACM_SUCCESS) as [Hv|Hv]; cbn [negb].
  - rewrite andb_false_r. unfold netsnmp_add_varbind_to_cache. run. change (a_pdu (asp s1)) with (a_pdu (asp s)). rewrite Hpdu, Hnext. run.
    destruct tp as [tp|].
    + destruct (proj1 (Hres tp) eq_refl) as [Hin Hh].
      assert (Hh0 : held (areg s0) (a_pdu (asp s0)) (vn_var n) tp).
      { eapply held_same; [symmetry; apply (pr_trees _ _ _ _ _ Hp)|]. by exists ps. }
      destruct (same_holds _ _ _ _ (same_registry_trees _ _ Hsame) Hh) as (t & e & Ht & _).
      destruct (cell_in (requests (asp s1)) j) as [q Hq]; [rewrite (pr_length _ _ _ _ _ Hp1); lia|].
      pose proof (prepared_fresh _ _ _ _ _ Hp1) as Hni.
      run. run_by (eapply (add_request_runs s1 xs j p tp t q n); [lia|apply Hp1|apply Hp1|done|done|exact Hns|exact Ht]) as i s2 [-> [xs' Ha]].
      run. assert (Hp2 : prepared s0 vbs (j + 1) xs' s2) by (eapply prepared_added; eassumption).
      replace (command (a_pdu (asp s0)) =? SNMP_MSG_GETBULK) with false by by destruct Hc as [-> | ->].
      run. left. split_and!; [done|by exists xs'|done].
    + assert (Href : refused (areg s0) (a_pdu (asp s0)) (vn_var n)).
      { right. intros tp Hh. apply (held_same _ _ _ _ _ (pr_trees _ _ _ _ _ Hp)) in Hh as (ps' & Hps' & Hin & Hh).
        rewrite (context_chain_inj _ _ _ _ Hps' Hps) in Hin. by specialize (proj2 (Hres tp) (conj Hin Hh)). }
      rewrite orb_comm in Hchk. rewrite Hchk. run. run_by (by apply (prepared_other s0 vbs j xs s1 p n)) as _ s2 Hp2.
      run. left. split_and!; [done|by exists xs|done].
  - rewrite andb_true_r. destruct (Z.eqb_spec (command (a_pdu (asp s0))) SNMP_MSG_SET) as [Hset|Hset].
    + run. right. split_and!; [done..|]. by exists s1.
    + run. run_by (by apply (prepared_other s0 vbs j xs s1 p n); [..|left]) as _ s2 Hp2. run. left. split_and!; [done|by exists xs|done].
Qed.

Lemma create_cache_loop_runs s0 vbs : NoDup vbs -> contents_ok (asp s0) ->
  command (a_pdu (asp s0)) = SNMP_MSG_GET \/ command (a_pdu (asp s0)) = SNMP_MSG_SET ->
  (forall p, p ∈ vbs -> is_Some (a_vars (asp s0) !! p)) ->
  forall rest done xs s prev bulkcount n, vbs = done ++ rest -> prepared s0 vbs (Z.of_nat (length done)) xs s ->
  runs (create_cache_loop rest (Z.of_nat (length done)) bulkcount n prev) (loop_result s0 vbs (Z.of_nat (length done))) s.
Proof.
  intros Hnd Hok Hc Hvbs. induction rest as [|p rest IH]; intros done xs s prev bulkcount n0 Heq Hp.
  - cbn [create_cache_loop]. run. rewrite app_nil_r in Heq. subst done. left. split; [reflexivity|]. split; [by exists xs|].
    intros _ i Hi p n [_ Hpi]%cell_lookup. apply lookup_lt_Some in Hpi. lia.
  - cbn [create_cache_loop]. set (j := Z.of_nat (length done)) in *.
    assert (Hj : cell vbs j = Some p).
    { unfold cell, j. rewrite (proj2 (Z.leb_le _ _)), Nat2Z.id, Heq by lia. by apply list_lookup_middle. }
    destruct (Hvbs p) as [n Hn]; [rewrite Heq; apply elem_of_app; right; by left|].
    pose proof (cell_not_take _ _ _ Hnd Hj) as Hnt.
    assert (Hns : a_vars (asp s) !! p = Some n) by (rewrite (pr_vars _ _ _ _ _ Hp) by done; done).
    assert (Hpdu : a_pdu (asp s) = a_pdu (asp s0)) by exact (f_equal a_pdu (pr_outer _ _ _ _ _ Hp)).
    run. eapply runs_next_of; [exact Hns|]. run. rewrite Hpdu.
    replace (command (a_pdu (asp s0)) =? SNMP_MSG_GETBULK) with false by by destruct Hc as [-> | ->].
    cbn [andb]. run. destruct (co_vars _ Hok p n Hn) as [Hvok _].
    assert (Hvis : visible s0 vbs j <-> in_view (a_pdu (asp s0)) (vn_var n)).
    { split; [intros H; by eapply H|]. intros HP p' n' Hp' Hn'. by simplify_eq. }
    run_by (by apply (cache_variable_runs s0 vbs j xs s p n)) as st s1 [(-> & [xs1 Hp1] & Hv)|(-> & Hset & Hv & s2 & Hp2 & ->)].
    + change (negb (SNMP_ERR_NOERROR =? SNMP_ERR_NOERROR)) with false. cbv match.
      assert (Hj1 : Z.of_nat (length (done ++ [p])) = j + 1) by (rewrite length_app; cbn; lia).
      eapply runs_mono; [rewrite <- Hj1 in Hp1 |- *; eapply (IH (done ++ [p]) xs1); [by rewrite <- app_assoc|exact Hp1]|].
      rewrite Hj1. intros st s2 [(-> & Hx & Hall)|(-> & Hset & i & xs2 & s3 & Hi & Hk & Hr)].
      * left. split_and!; [done|done|]. intros Hset i Hi. destruct (decide (i = j)) as [->|]; [by apply Hvis, Hv|]. apply Hall; [done|lia].
      * right. split_and!; [done|done|]. exists i, xs2, s3. split_and!; [lia|lia| |apply Hr..]. intros k Hkr.
        destruct (decide (k = j)) as [->|]; [by apply Hvis, Hv|]. apply Hk. lia.
    + run. right. split_and!; [done|done|]. pose proof (cell_range _ _ _ Hj). exists j, xs, s2. split_and!; [lia|lia|lia|by rewrite Hvis|done|done].
Qed.

(** ** The whole preparation *)

(** What no step changes of a variable: its name and its place in the list. *)
Definition names_of (n : vnode) : list Z * Z * option Z := (vp_name (vn_var n), vp_name_length (vn_var n), next_variable n).

Definition names_kept (vars vars' : gmap Z vnode) : Prop := names_of <$> vars' = names_of <$> vars.

Lemma names_kept_lookup vars vars' p n : names_kept vars vars' -> vars !! p = Some n -> exists n', vars' !! p = Some n' /\ names_of n' = names_of n.
Proof.
  intros H Hn. assert (Hc : names_of <$> vars' !! p = Some (names_of n)) by by rewrite <- lookup_fmap, H, lookup_fmap, Hn.
  destruct (vars' !! p) as [n'|]; [|done]. apply (inj Some) in Hc. eauto.
Qed.

Lemma names_kept_sym vars vars' : names_kept vars vars' -> names_kept vars' vars.
Proof. by symmetry. Qed.

Lemma names_kept_insert vars p n n' : vars !! p = Some n -> names_of n' = names_of n -> names_kept vars (<[p := n']> vars).
Proof. intros Hn He. unfold names_kept. rewrite fmap_insert, He. apply insert_id. by rewrite lookup_fmap, Hn. Qed.

Lemma names_kept_chain vars vars' p ps : names_kept vars vars' -> chain (fun p => next_variable <$> vars !! p) p ps -> chain (fun p => next_variable <$> vars' !! p) p ps.
Proof.
  intros H. apply linked_ext. intros x _. assert (Hx : names_of <$> vars' !! x = names_of <$> vars !! x) by by rewrite <- !lookup_fmap, H.
  apply (f_equal (fmap snd)) in Hx. by destruct (vars' !! x), (vars !! x).
Qed.

(** The variables of the request are the objects [vbs]. *)
Definition has_variables (a : agent_session) (vbs : list Z) : Prop := chain (fun p => next_variable <$> a_vars a !! p) (a_first a) vbs.

Lemma runs_pdu_variables vbs (Q : list Z -> astate W -> Prop) s : has_variables (asp s) vbs -> Q vbs s -> runs pdu_variables Q s.
Proof. intros Hv HQ. unfold pdu_variables. run. eapply runs_lift; [by apply walk_map|done]. Qed.

Lemma has_variables_in a vbs p : has_variables a vbs -> p ∈ vbs -> is_Some (a_vars a !! p).
Proof. intros Hv Hp. destruct (chain_member _ _ _ _ Hv Hp) as [n Hn]. by destruct (a_vars a !! p). Qed.

(** The values of the variables are gone. *)
Definition cleared (vbs : list Z) (vars : gmap Z vnode) : Prop :=
  forall p n, p ∈ vbs -> vars !! p = Some n -> vp_type (vn_var n) = ASN_NULL \/ vp_type (vn_var n) = ASN_PRIV_INCL_RANGE.

Lemma clear_values_runs vbs : forall k s, (forall p, p ∈ vbs -> is_Some (a_vars (asp s) !! p)) ->
  runs (clear_values vbs k) (fun _ s' => exists vars', names_kept (a_vars (asp s)) vars' /\ cleared vbs vars' /\
    (forall p, p ∉ vbs -> vars' !! p = a_vars (asp s) !! p) /\ s' = on_asp (set_a_vars vars') s) s.
Proof.
  induction vbs as [|p vbs IH]; intros k s Hin; cbn [clear_values].
  - run. exists (a_vars (asp s)). split_and!; [done|by intros ?? ?%not_elem_of_nil|done|]. by destruct s as [[] ? ? ? ? ?].
  - destruct (Hin p) as [n Hn]; [by left|].
    assert (Hstep : forall k n', names_of n' = names_of n -> vp_type (vn_var n') = ASN_NULL \/ vp_type (vn_var n') = ASN_PRIV_INCL_RANGE ->
      runs (clear_values vbs k) (fun _ s' => exists vars', names_kept (a_vars (asp s)) vars' /\ cleared (p :: vbs) vars' /\
        (forall p', p' ∉ p :: vbs -> vars' !! p' = a_vars (asp s) !! p') /\ s' = on_asp (set_a_vars vars') s)
        (on_asp (fun a => set_a_vars (<[p := n']> (a_vars a)) a) s)).
    { intros k' n' Hn' Ht. set (s1 := on_asp _ s).
      assert (Hk : names_kept (a_vars (asp s)) (a_vars (asp s1))) by by apply (names_kept_insert _ _ n).
      eapply runs_mono; [apply (IH k' s1)|].
      - intros p' Hp'. destruct (Hin p') as [n0 Hn0]; [by right|]. destruct (names_kept_lookup _ _ _ _ Hk Hn0) as (n1 & Hn1 & _). eauto.
      - intros _ s2 (vars' & Hk' & Hc & Ho & ->). exists vars'. split_and!; [unfold names_kept in *; by rewrite Hk'| | |done].
        + intros p' n2 Hp' Hn2. destruct (decide (p' ∈ vbs)) as [Hv|Hv]; [by eapply Hc|]. apply elem_of_cons in Hp' as [->|?]; [|done].
          rewrite Ho in Hn2 by done. cbn in Hn2. rewrite lookup_insert_eq in Hn2. by injection Hn2 as <-.
        + intros p' [Hne Hp']%not_elem_of_cons. rewrite Ho by done. cbn. by rewrite lookup_insert_ne. }
    run. eapply runs_get_var; [exact Hn|]. destruct (Z.eqb_spec (vp_type (vn_var n)) ASN_PRIV_INCL_RANGE) as [Ht|Ht].
    + specialize (Hstep (k + 1) n eq_refl (or_intror Ht)).
      assert (E : on_asp (fun a => set_a_vars (<[p := n]> (a_vars a)) a) s = s) by (unfold on_asp; rewrite insert_id by done; by destruct s as [[] ? ? ? ? ?]).
      by rewrite E in Hstep.
    + run. unfold upd_var. eapply runs_upd_node; [exact Hn|]. by apply Hstep; [|left].
Qed.

(** The variables of a request that has just come in. *)
Record arrived s (vbs : list Z) : Prop := mkarrived {
  ar_treecache : treecache (asp s) = None;
  ar_treecache_len : treecache_len (asp s) = 0;
  ar_store : cache_store (asp s) = [];
  ar_requests : requests (asp s) = [];
  ar_registry : registry_ok (areg s);
  ar_variables : has_variables (asp s) vbs;
  ar_contents : contents_ok (asp s)
}.

(** The state the loop starts in, for the variables [vars']. *)
Definition before_loop s (vbs : list Z) (vars' : gmap Z vnode) : astate W :=
  on_asp (fun a => set_requests (replicate (length vbs) zero_request) (set_vbcount (Z.of_nat (length vbs)) (set_a_vars vars' a))) s.

Lemma arrived_loop s vbs vars' : arrived s vbs -> names_kept (a_vars (asp s)) vars' ->
  NoDup vbs /\ contents_ok (asp (before_loop s vbs vars')) /\ has_variables (asp (before_loop s vbs vars')) vbs.
Proof.
  intros [_ _ _ _ _ Hv [Hc _]] Hk. split_and!.
  - by eapply chain_NoDup.
  - constructor; cbn.
    + intros p n Hn. destruct (names_kept_lookup _ _ _ _ (names_kept_sym _ _ Hk) Hn) as (n0 & Hn0 & He). destruct (Hc p n0 Hn0) as [H1 H2].
      injection He as E1 E2 E3. split; [unfold var_ok; by rewrite <- E1, <- E2|]. intros p' Hp'. rewrite <- E3 in Hp'.
      destruct (H2 p' Hp') as [n1 Hn1]. destruct (names_kept_lookup _ _ _ _ Hk Hn1) as (n2 & Hn2 & _). eauto.
    + intros i q Hq. apply cell_lookup in Hq as [_ Hq]. apply lookup_replicate in Hq as [-> _]. done.
  - by eapply names_kept_chain.
Qed.

Lemma prepared_start s vbs vars' len : arrived s vbs -> 0 <= len ->
  prepared (before_loop s vbs vars') vbs 0 [] (on_asp (fun a => set_treecache_num (-1) (set_treecache_len len (set_treecache (Some (replicate (Z.to_nat len) empty_slot)) a)))
    (before_loop s vbs vars')).
Proof.
  intros [_ _ Hst _ Hr _ _] Hlen. constructor; cbn; try done.
  - constructor; cbn; rewrite ?Hst; try done; try apply NoDup_nil_2. unfold table. cbn. by rewrite Nat.sub_0_r.
  - rewrite Hst. constructor; [|done]. intros k tp rs Hk. apply cell_lookup in Hk as [_ Hk]. by rewrite lookup_nil in Hk.
  - by rewrite length_replicate.
  - intros i Hi _. unfold cell. rewrite (proj2 (Z.leb_le _ _)) by lia. by rewrite lookup_replicate_2 by lia.
  - intros x Hx. by apply not_elem_of_nil in Hx.
  - intros x i Hx. by apply not_elem_of_nil in Hx.
  - intros i p n Hi. lia.
Qed.

Lemma prepare_pdu_runs s vbs :
  arrived s vbs -> command (a_pdu (asp s)) = SNMP_MSG_GET \/ command (a_pdu (asp s)) = SNMP_MSG_SET ->
  runs prepare_pdu (fun r s' => exists vars', names_kept (a_vars (asp s)) vars' /\
    (command (a_pdu (asp s)) = SNMP_MSG_SET -> vars' = a_vars (asp s)) /\
    (command (a_pdu (asp s)) = SNMP_MSG_GET -> cleared vbs vars') /\ loop_result (before_loop s vbs vars') vbs 0 r.1 s') s.
Proof.
  intros Ha Hc. unfold prepare_pdu. run.
  replace (resumed_set (command (a_pdu (asp s)))) with false by by destruct Hc as [-> | ->].
  run. eapply runs_pdu_variables; [apply Ha|]. run.
  apply (runs_mono _ (fun _ s1 => exists vars', names_kept (a_vars (asp s)) vars' /\
    (command (a_pdu (asp s)) = SNMP_MSG_SET -> vars' = a_vars (asp s)) /\
    (command (a_pdu (asp s)) = SNMP_MSG_GET -> cleared vbs vars') /\ s1 = on_asp (set_a_vars vars') s)).
  { destruct Hc as [Hc|Hc]; rewrite Hc.
    - eapply runs_mono; [apply clear_values_runs; intros p Hp; eapply has_variables_in; [apply Ha|exact Hp]|].
      intros _ s1 (vars' & Hk & Hcl & _ & ->). by exists vars'.
    - run. exists (a_vars (asp s)). split_and!; [done|done|done|]. by destruct s as [[] ? ? ? ? ?]. }
  intros k s1 (vars' & Hk & Hset & Hget & ->). run. destruct (arrived_loop s vbs vars' Ha Hk) as (Hnd & Hok & Hvs).
  set (s0 := before_loop s vbs vars') in *.
  apply (runs_mono _ (fun _ s1 => s1 = s0)).
  { destruct vbs as [|p vbs]; run; [|done]. unfold s0, before_loop. cbn. rewrite <- (ar_requests _ _ Ha). by destruct s as [[] ? ? ? ? ?]. }
  intros _ s1 ->. run. unfold netsnmp_create_subtree_cache. run.
  change (treecache (asp s0)) with (treecache (asp s)). change (treecache_len (asp s0)) with (treecache_len (asp s)).
  rewrite (ar_treecache _ _ Ha), (ar_treecache_len _ _ Ha). run.
  set (len := Z.max _ 16). fold empty_slot.
  change (0 =? 0) with true. cbv match. run. cbn [on_asp asp a_pdu set_treecache_num set_treecache_len set_treecache].
  change (a_pdu (asp s0)) with (a_pdu (asp s)).
  replace (command (a_pdu (asp s)) =? SNMP_MSG_GETBULK) with false by by destruct Hc as [-> | ->].
  run. eapply runs_pdu_variables; [exact Hvs|].
  eapply runs_mono; [apply (create_cache_loop_runs s0 vbs Hnd Hok) with (done := []) (xs := []); [exact Hc| |done|by apply (prepared_start s vbs vars' len Ha); lia]|].
  - intros p Hp. eapply has_variables_in; [exact Hvs|exact Hp].
  - intros st s2 Hres. run. by exists vars'.
Qed.
End prepare.
