(* ===== verification/AgentProps.v ===== *)
(** Requests to read and to write, from the message to their status: what handlers
    get to see, what becomes of the rest, and what the agent promises of them. *)
From Stdlib Require Import ZArith Lia.
From stdpp Require Import gmap.
From S2P Require Import Prelude StateMonad Chains Asn1Defs SnmpDefs Oid SnmpVar Pdu Vacm Registry RegistryProps.
From S2P Require Import AgentDefs AgentRequest AgentPasses AgentSet AgentCache AgentPrepare.

Section getset.
Context {W : Type} `{Env : AgentEnv W}.
Implicit Types s : astate W.

(** ** The state after the preparation *)

Lemma given_names c n : names_of (given c n) = names_of n.
Proof. unfold given. by destruct (MODE_IS_SET c). Qed.

Lemma no_such_object_names n n' : no_such_object n n' -> names_of n' = names_of n.
Proof. intros (_ & H1 & H2 & H3). unfold names_of. by rewrite H1, H2, H3. Qed.

(** What became of a variable: it was given to a handler, or answered. *)
Lemma prepared_var s0 vbs xs s p n : prepared s0 vbs (Z.of_nat (length vbs)) xs s -> a_vars (asp s0) !! p = Some n ->
  exists n', a_vars (asp s) !! p = Some n' /\ names_of n' = names_of n.
Proof.
  intros Hp Hn. destruct (decide (p ∈ vbs)) as [Hin|Hin].
  - apply list_elem_of_lookup in Hin as [k Hk]. pose proof (lookup_lt_Some _ _ _ Hk) as Hlt.
    assert (Hc : cell vbs (Z.of_nat k) = Some p) by (unfold cell; rewrite (proj2 (Z.leb_le _ _)), Nat2Z.id by lia; done).
    destruct (decide (Z.of_nat k ∈ concat xs.*2)) as [Hs|Hs].
    + apply list_elem_of_In, in_concat in Hs as (l & Hl & Hi). apply list_elem_of_In, list_elem_of_fmap in Hl as (x & -> & Hx). apply list_elem_of_In in Hi.
      destruct (pr_slots _ _ _ _ _ Hp x _ Hx Hi) as (_ & p' & n' & q & incl & tp & B1 & B2 & _ & _ & _ & B6 & _).
      simplify_eq. eexists. split; [exact B6|apply given_names].
    + destruct (pr_others _ _ _ _ _ Hp (Z.of_nat k) p n) as (n' & Hn' & Hno & _); [lia|done..|]. exists n'. split; [done|by apply no_such_object_names].
  - exists n. split; [|done]. rewrite (pr_vars _ _ _ _ _ Hp); [done|]. by rewrite Nat2Z.id, firstn_all.
Qed.

Lemma prepared_dom s0 vbs j xs s p : prepared s0 vbs j xs s -> is_Some (a_vars (asp s) !! p) ->
  j = Z.of_nat (length vbs) -> (forall p, p ∈ vbs -> is_Some (a_vars (asp s0) !! p)) -> is_Some (a_vars (asp s0) !! p).
Proof.
  intros Hp Hs -> Hv. destruct (decide (p ∈ vbs)) as [Hin|Hin]; [by apply Hv|].
  rewrite (pr_vars _ _ _ _ _ Hp) in Hs; [done|]. by rewrite Nat2Z.id, firstn_all.
Qed.

Lemma prepared_contents s0 vbs xs s : contents_ok (asp s0) -> (forall p, p ∈ vbs -> is_Some (a_vars (asp s0) !! p)) ->
  prepared s0 vbs (Z.of_nat (length vbs)) xs s -> contents_ok (asp s).
Proof.
  intros [Hc _] Hvbs Hp. constructor.
  - intros p n Hn. destruct (prepared_dom _ _ _ _ _ p Hp ltac:(eauto) eq_refl Hvbs) as [n0 Hn0].
    destruct (prepared_var _ _ _ _ _ _ Hp Hn0) as (n' & Hn' & He). assert (n' = n) as -> by congruence. injection He as E1 E2 E3.
    destruct (Hc p n0 Hn0) as [H1 H2]. split; [unfold var_ok; by rewrite E1, E2|]. intros p' Hp'. rewrite E3 in Hp'.
    destruct (H2 p' Hp') as [n1 Hn1]. destruct (prepared_var _ _ _ _ _ _ Hp Hn1) as (n2 & Hn2 & _). eauto.
  - intros i q Hq. pose proof (cell_range _ _ _ Hq) as Hr. rewrite (pr_length _ _ _ _ _ Hp) in Hr.
    destruct (decide (i ∈ concat xs.*2)) as [Hs|Hs].
    + apply list_elem_of_In, in_concat in Hs as (l & Hl & Hi). apply list_elem_of_In, list_elem_of_fmap in Hl as (x & -> & Hx). apply list_elem_of_In in Hi.
      destruct (pr_slots _ _ _ _ _ Hp x _ Hx Hi) as (_ & p' & n' & q' & incl & tp & B1 & B2 & B3 & B4 & _ & B6 & _). simplify_eq.
      split; [|intros e He; apply (f_equal range_end) in B4; cbn in B4; congruence].
      intros p Hqp. apply (f_equal requestvb) in B4. cbn in B4. rewrite B4 in Hqp. injection Hqp as <-. eauto.
    + pose proof (pr_new _ _ _ _ _ Hp i Hr Hs) as Hz. rewrite Hq in Hz. apply (inj Some) in Hz.
      split; intros x Hx; [apply (f_equal requestvb) in Hz|apply (f_equal range_end) in Hz]; cbn in Hz; congruence.
Qed.

(** The slots, with their requests. *)
Lemma prepared_slots s0 vbs j xs s : prepared s0 vbs j xs s -> slots (asp s) = seqZ 0 (Z.of_nat (length xs)).
Proof. intros Hp. unfold slots. rewrite (ca_num _ _ (pr_cached _ _ _ _ _ Hp)). f_equal. lia. Qed.

Lemma prepared_slot_wf s0 vbs j xs s k x : prepared s0 vbs j xs s -> cell xs k = Some x -> slot_wf (asp s) (areg s) k x.2.
Proof.
  intros Hp Hk. pose proof (pr_cached _ _ _ _ _ Hp) as [Ht Hl _ Hc _ _]. pose proof (cell_range _ _ _ Hk) as Hr.
  apply cell_lookup in Hk as [H0 Hk']. pose proof (list_elem_of_lookup_2 _ _ _ Hk') as Hx.
  destruct (pr_trees_of _ _ _ _ _ Hp x Hx) as [t0 Ht0]. destruct (same_subtree _ _ _ _ (pr_trees _ _ _ _ _ Hp) Ht0) as (t & Htr & _).
  destruct (list.Forall_lookup_1 _ _ _ _ Hc Hk') as [_ Hch].
  exists (table xs (treecache_len (asp s))), (slot_of x), x.1, t. split_and!; try done.
  - rewrite table_cell by done. unfold cell. rewrite (proj2 (Z.leb_le _ _)) by done. by rewrite Hk'.
  - apply list.Forall_forall. intros i Hi. destruct (pr_slots _ _ _ _ _ Hp x i Hx Hi) as (_ & p & n & q & incl & tp & _ & _ & Hq & Hu & _).
    exists q, p. split; [done|]. apply (f_equal requestvb) in Hu. exact Hu.
Qed.

Lemma prepared_good s0 vbs xs s : contents_ok (asp s0) -> (forall p, p ∈ vbs -> is_Some (a_vars (asp s0) !! p)) ->
  prepared s0 vbs (Z.of_nat (length vbs)) xs s -> good s.
Proof.
  intros Hc Hv Hp. split; [|by eapply prepared_contents]. intros k. rewrite (prepared_slots _ _ _ _ _ Hp). intros Hk. apply elem_of_seqZ in Hk.
  destruct (cell_in xs k) as [x Hx]; [lia|]. exists x.2. by eapply prepared_slot_wf.
Qed.

(** ** Access control on what there is before the handlers are called *)

(** The variable of the request [i] is not answered yet, or it is in view. *)
Definition passed_by s (i : Z) : Prop := exists q p n, cell (requests (asp s)) i = Some q /\ rq_repeat q = 0 /\
  requestvb_start q = Some p /\ a_vars (asp s) !! p = Some n /\ (unanswered (vp_type (vn_var n)) = true \/ in_view (a_pdu (asp s)) (vn_var n)).

Lemma acm_requests_passes rs t s : Forall (passed_by s) rs -> forall ret, runs (acm_requests rs t ret) (fun r s' => r = ret /\ s' = s) s.
Proof.
  induction 1 as [|i rs (q & p & n & Hq & Hr & Hp & Hn & Hok) _ IH]; intros ret; [by run|]. cbn [acm_requests].
  run. eapply runs_get_request; [done|]. rewrite Hr, Hp. change (Z.to_nat (0 + 1)) with 1%nat. cbn [acm_loop].
  run. eapply runs_get_var; [done|]. run.
  replace (unanswered _ || _) with true.
  2:{ symmetry. apply orb_true_iff. destruct Hok as [?|Hv]; [by left|right; by apply Z.eqb_eq]. }
  run. eapply runs_next_of; [done|]. run. apply IH.
Qed.

Lemma check_acm_passes s t : good s -> (forall k rs, k ∈ slots (asp s) -> slot_wf (asp s) (areg s) k rs -> Forall (passed_by s) rs) ->
  runs (check_acm t) (fun r s' => r = 0 /\ s' = s) s.
Proof.
  intros [Hg _] Hp. unfold check_acm. run. generalize 0 as ret. assert (Hin : forall k, k ∈ slots (asp s) -> k ∈ slots (asp s)) by done.
  revert Hin. generalize (slots (asp s)) at 1 3 as ks. induction ks as [|k ks IH]; intros Hin ret; [by run|]. cbn [acm_slots].
  destruct (Hg k) as [rs Hrs]; [apply Hin; by left|]. run. eapply runs_slot_requests; [done|]. run.
  run_by (apply acm_requests_passes; eapply Hp; [apply Hin; by left|done]) as r s' [-> ->]. apply IH. intros k' Hk'. apply Hin. by right.
Qed.

Lemma slot_wf_inj a r k rs rs' : slot_wf a r k rs -> slot_wf a r k rs' -> rs = rs'.
Proof. intros (l & tc & tp & t & Hl & Hk & _ & _ & Hc & _) (l' & tc' & tp' & t' & Hl' & Hk' & _ & _ & Hc' & _). simplify_eq. by eapply chain_inj. Qed.

(** The requests of a slot, by the table. *)
Lemma prepared_slot s0 vbs j xs s k rs : prepared s0 vbs j xs s -> k ∈ slots (asp s) -> slot_wf (asp s) (areg s) k rs ->
  exists x, cell xs k = Some x /\ x ∈ xs /\ x.2 = rs.
Proof.
  intros Hp. rewrite (prepared_slots _ _ _ _ _ Hp). intros Hk Hrs. apply elem_of_seqZ in Hk. destruct (cell_in xs k) as [x Hx]; [lia|].
  exists x. split_and!; [done|apply cell_lookup in Hx as [_ Hx]; by eapply list_elem_of_lookup_2|].
  eapply slot_wf_inj; [by eapply prepared_slot_wf|done].
Qed.

Lemma prepared_acm s0 vbs xs s s' t : prepared s0 vbs (Z.of_nat (length vbs)) xs s -> good s' ->
  command (a_pdu (asp s0)) = SNMP_MSG_GET \/ command (a_pdu (asp s0)) = SNMP_MSG_SET ->
  asp s' = set_mode (mode (asp s')) (asp s) -> areg s' = areg s ->
  runs (check_acm t) (fun r s'' => r = 0 /\ s'' = s') s'.
Proof.
  intros Hp Hg Hc Ha Hr. assert (Hreq : requests (asp s') = requests (asp s)) by by rewrite Ha.
  apply check_acm_passes; [done|]. intros k rs. rewrite Ha, Hr. intros Hk Hrs.
  destruct (prepared_slot _ _ _ _ _ k rs Hp Hk Hrs) as (x & Hx & Hin & <-). apply list.Forall_forall. intros i Hi.
  destruct (pr_slots _ _ _ _ _ Hp x i Hin Hi) as (_ & p & n & q & incl & tp & B1 & B2 & B3 & B4 & B5 & B6 & _).
  exists q, p, (given (command (a_pdu (asp s0))) n). rewrite Ha. split_and!; [exact B3| | |exact B6|].
  - exact (f_equal rq_repeat B4).
  - exact (f_equal requestvb_start B4).
  - change (a_pdu (set_mode _ (asp s))) with (a_pdu (asp s)). rewrite (f_equal a_pdu (pr_outer _ _ _ _ _ Hp) : a_pdu (asp s) = a_pdu (asp s0)).
    destruct Hc as [-> | ->]; [by left|by right].
Qed.

(** ** Calls, by the table *)

(** The handlers of the slot [x] were called in the mode [m]. *)
Definition slot_called (who m : Z) (x : Z * list Z) (e : event) : Prop :=
  exists ret sts, e = Called who m x.1 ret sts /\ length sts = length x.2.

Lemma prepared_called s0 vbs j xs s m evs : prepared s0 vbs j xs s -> asked s m evs -> Forall2 (slot_called (self (asp s0)) m) xs evs.
Proof.
  intros Hp Ha. unfold asked in Ha. pose proof (prepared_slots _ _ _ _ _ Hp) as Hs.
  assert (Hlen : length xs = length evs) by (apply Forall2_length in Ha; rewrite Hs, length_seqZ in Ha; lia).
  apply Forall2_same_length_lookup_2; [done|]. intros k x e Hx He. pose proof (lookup_lt_Some _ _ _ Hx) as Hlt.
  assert (Hk : slots (asp s) !! k = Some (Z.of_nat k)) by (rewrite Hs, lookup_seqZ; lia).
  destruct (Forall2_lookup_lr _ _ _ _ _ _ Ha Hk He) as (tp & st & sts & rs & -> & Hrs & Hl & l & tc & Htc & Hcell & Htp).
  assert (Hxc : cell xs (Z.of_nat k) = Some x) by (unfold cell; by rewrite (proj2 (Z.leb_le _ _)), Nat2Z.id by lia).
  destruct (prepared_slot _ _ _ _ _ _ rs Hp (list_elem_of_lookup_2 _ _ _ Hk) Hrs) as (x' & Hx' & _ & <-). simplify_eq.
  rewrite (ca_table _ _ (pr_cached _ _ _ _ _ Hp)) in Htc. injection Htc as <-. rewrite table_cell, Hxc in Hcell by lia. injection Hcell as <-.
  injection Htp as <-. exists st, sts. split; [|done]. f_equal. exact (f_equal self (pr_outer _ _ _ _ _ Hp)).
Qed.


(** ** Which handlers get which names *)

(** A variable as a handler gets it: the value of one that is read is gone. *)
Definition shown s (n : vnode) : variable := vn_var (given (command (a_pdu (asp s))) n).

(** There is one slot for each subtree that is asked, or for the ones that are marked
    to be merged, and it has requests.  Each name the requester may touch, and that a
    subtree of the context holds, is with the slot of the subtree; the others are with
    none. *)
Definition placement s (vbs : list Z) (xs : list (Z * list Z)) : Prop :=
  separate (areg s) xs /\ Forall (fun x => x.2 <> []) xs /\ NoDup (concat xs.*2) /\ forall i p n, cell vbs i = Some p -> a_vars (asp s) !! p = Some n ->
    (i ∈ concat xs.*2 -> in_view (a_pdu (asp s)) (shown s n) /\
       exists x tp, x ∈ xs /\ i ∈ x.2 /\ serves (areg s) (a_pdu (asp s)) x.1 tp (shown s n)) /\
    (i ∉ concat xs.*2 -> refused (areg s) (a_pdu (asp s)) (shown s n)).

(** The variables, prepared for the loop. *)
Definition readied s (vbs : list Z) (vars' : gmap Z vnode) : Prop :=
  names_kept (a_vars (asp s)) vars' /\ (command (a_pdu (asp s)) = SNMP_MSG_SET -> vars' = a_vars (asp s)) /\
  (command (a_pdu (asp s)) = SNMP_MSG_GET -> cleared vbs vars').

Lemma held_names r q v v' tp : vp_name v' = vp_name v -> vp_name_length v' = vp_name_length v -> held r q v tp -> held r q v' tp.
Proof. unfold held. by intros -> ->. Qed.

Lemma in_view_null q v v' : vp_name v' = vp_name v -> vp_name_length v' = vp_name_length v -> vp_type v' = ASN_NULL ->
  vp_type v = ASN_NULL \/ vp_type v = ASN_PRIV_INCL_RANGE -> in_view q v <-> in_view q v'.
Proof.
  intros E1 E2 E3 Ht. unfold in_view, in_a_view. rewrite E1, E2, E3.
  destruct Ht as [-> | ->]; [done|]. by change (ASN_PRIV_INCL_RANGE =? ASN_COUNTER64) with (ASN_NULL =? ASN_COUNTER64).
Qed.

Lemma readied_shown s vbs vars' p n : command (a_pdu (asp s)) = SNMP_MSG_GET \/ command (a_pdu (asp s)) = SNMP_MSG_SET ->
  readied s vbs vars' -> p ∈ vbs -> a_vars (asp s) !! p = Some n ->
  exists n', vars' !! p = Some n' /\ names_of n' = names_of n /\ (forall q, in_view q (vn_var n') <-> in_view q (shown s n)) /\
    (forall r q tp, held r q (vn_var n') tp <-> held r q (shown s n) tp).
Proof.
  intros Hc (Hk & Hset & Hget) Hin Hn. destruct (names_kept_lookup _ _ _ _ Hk Hn) as (n' & Hn' & He). exists n'. split; [done|]. split; [done|].
  injection He as E1 E2 E3. unfold shown, given. destruct Hc as [Hc|Hc]; rewrite Hc.
  - change (MODE_IS_SET SNMP_MSG_GET) with false. cbv match. cbn. split.
    + intros q. apply in_view_null; [done..|]. by eapply Hget.
    + intros r q tp. by split; apply held_names.
  - change (MODE_IS_SET SNMP_MSG_SET) with true. cbv match. rewrite (Hset Hc), Hn in Hn'. by injection Hn' as ->.
Qed.

Lemma prepared_placement s vbs vars' xs s1 : command (a_pdu (asp s)) = SNMP_MSG_GET \/ command (a_pdu (asp s)) = SNMP_MSG_SET ->
  readied s vbs vars' -> prepared (before_loop s vbs vars') vbs (Z.of_nat (length vbs)) xs s1 -> placement s vbs xs.
Proof.
  intros Hc Hr Hp. split; [eapply mapped_separate; [apply (pr_mapped _ _ _ _ _ Hp)|apply (pr_trees _ _ _ _ _ Hp)]|].
  split; [eapply list.Forall_impl; [apply (ca_chains _ _ (pr_cached _ _ _ _ _ Hp))|]; by intros x []|].
  split; [apply (ca_nodup _ _ (pr_cached _ _ _ _ _ Hp))|]. intros i p n Hi Hn.
  pose proof (cell_range _ _ _ Hi) as Hir. pose proof Hi as [_ Hil]%cell_lookup.
  destruct (readied_shown s vbs vars' p n Hc Hr (list_elem_of_lookup_2 _ _ _ Hil) Hn) as (n' & Hn' & _ & Hv & Hh). split.
  - intros Hin. apply list_elem_of_In, in_concat in Hin as (l & Hl & Hin). apply list_elem_of_In, list_elem_of_fmap in Hl as (x & -> & Hx). apply list_elem_of_In in Hin.
    destruct (pr_slots _ _ _ _ _ Hp x i Hx Hin) as (_ & p' & n2 & q & incl & tp & B1 & B2 & _ & _ & B5 & _ & B7 & B8).
    cbn in B2, B5, B7, B8. simplify_eq. split; [by apply Hv|]. exists x, tp. split_and!; [done|done|split; [by apply Hh|done]].
  - intros Hni. destruct (pr_others _ _ _ _ _ Hp i p n' Hir Hi Hn' Hni) as (_ & _ & _ & [Hr'|Hr']); [left|right].
    + intros H. apply Hr'. by apply Hv.
    + intros tp H. apply (Hr' tp). by apply Hh.
Qed.

(** ** Values that no handler gave *)






End getset.

Section props.
Context {W : Type} `{Env : AgentEnv W} `{HOk : !HandlersOk W}.
Implicit Types s : astate W.

(** A request that has come in and was not looked at: no error yet. *)
Definition fresh s (vbs : list Z) : Prop := arrived s vbs /\ a_status (asp s) = 0 /\ a_index (asp s) = 0.


Lemma arrived_vars s vbs vars' p : arrived s vbs -> readied s vbs vars' -> p ∈ vbs -> is_Some (vars' !! p).
Proof.
  intros Ha (Hk & _) Hin. destruct (has_variables_in _ _ _ (ar_variables _ _ Ha) Hin) as [n Hn].
  destruct (names_kept_lookup _ _ _ _ Hk Hn) as (n' & Hn' & _). eauto.
Qed.

Lemma prepared_loop_good s vbs vars' xs s1 : arrived s vbs -> readied s vbs vars' ->
  prepared (before_loop s vbs vars') vbs (Z.of_nat (length vbs)) xs s1 -> good s1.
Proof.
  intros Ha Hr Hp. apply (prepared_good (before_loop s vbs vars') vbs xs); [|intros p Hin; exact (arrived_vars s vbs vars' p Ha Hr Hin)|exact Hp].
  apply arrived_loop; [done|apply Hr].
Qed.




(** No request waits before its handler was called. *)
Lemma prepared_not_delegated s0 vbs xs s s' : prepared s0 vbs (Z.of_nat (length vbs)) xs s -> good s' ->
  asp s' = set_mode (mode (asp s')) (asp s) -> areg s' = areg s -> is_delegated s' = Some false.
Proof.
  intros Hp Hg Ha Hr. destruct (slot_lists s' Hg) as [rss Hrss]. unfold is_delegated. rewrite (check_for_delegated_value s' rss Hrss).
  cbn. destruct (treecache (asp s')); [|done]. f_equal. apply Bool.not_true_iff_false. intros (rs & Hrs & (i & Hi & Hw)%existsb_exists)%existsb_exists.
  apply list_elem_of_In, list_elem_of_lookup in Hrs as [k Hk]. apply list_elem_of_In in Hi.
  destruct (Forall2_lookup_r _ _ _ _ _ Hrss Hk) as (k' & Hk' & Hwf). rewrite Ha, Hr in Hwf. rewrite Ha in Hk'.
  destruct (prepared_slot _ _ _ _ _ k' rs Hp (list_elem_of_lookup_2 _ _ _ Hk') Hwf) as (x & _ & Hx & <-).
  destruct (pr_slots _ _ _ _ _ Hp x i Hx Hi) as (_ & p & n & q & incl & tp & _ & _ & B3 & B4 & _).
  unfold waits in Hw. rewrite Ha in Hw. change (requests (set_mode _ _)) with (requests (asp s)) in Hw. rewrite B3 in Hw.
  by rewrite (f_equal delegated B4 : delegated q = 0) in Hw.
Qed.

(** C3: a SET is all or nothing: a request that names something its sender may
    not write is refused with noAccess and the index of the first such name, before
    any handler was called.  Otherwise the handlers of all its subtrees go through
    the phases together, and a failure of any of them sends all of them to the same
    end: freed after a failure to reserve, undone after a failed action, committed
    only when the actions of all succeeded.  The answer says noError exactly when no
    pass failed, unless a handler has delegated its work: then the phases up to
    that point were those of the course. *)
Theorem set_request_all_or_nothing s vbs fuel :
  fresh s vbs -> command (a_pdu (asp s)) = SNMP_MSG_SET -> one_pass (asp s) = false ->
  runs (handle_pdu fuel) (fun st s' =>
    (exists i, 0 <= i < Z.of_nat (length vbs) /\ (forall k, 0 <= k < i -> visible s vbs k) /\ ~ visible s vbs i /\
       st = SNMP_ERR_NOACCESS /\ a_index (asp s') = i + 1 /\ trace s' = trace s /\ aworld s' = aworld s) \/
    (forall i, 0 <= i -> visible s vbs i) /\ exists xs ps, placement s vbs xs /\
       trace s' = rev (concat (snd <$> ps)) ++ trace s /\
       Forall (fun p => Forall2 (slot_called (self (asp s)) p.1) xs p.2) ps /\
       (ps.*1 = course (failed_at ps) /\ st = a_status (asp s') /\ (st = 0 <-> Forall (fun p => pass_failed p.1 p.2 = false) ps) \/
        ps.*1 `prefix_of` course (failed_at ps) /\ ps <> [] /\ is_delegated s' = Some true /\ st = 0)) s.
Proof.
  intros (Ha & Hst & Hix) Hc H1. unfold handle_pdu. run.
  run_by (apply (prepare_pdu_runs s vbs Ha); by right) as [st inc] s1 (vars' & Hk & Hset & Hcl & Hres).
  rewrite (Hset Hc) in *. clear Hset. assert (Hr : readied s vbs (a_vars (asp s))) by done.
  set (s0 := before_loop s vbs (a_vars (asp s))) in *.
  destruct Hres as [(E & [xs Hp] & Hv)|(E & _ & i & xs & s2 & Hi & Hk1 & Hk2 & Hp & ->)]; cbn in E; subst st.
  2:{ run. left. destruct (pr_rest _ _ _ _ _ Hp) as (_ & _ & Hw & Ht). exists i. split_and!; [lia|lia|exact Hk1|exact Hk2|reflexivity|reflexivity|exact Ht|exact Hw]. }
  pose proof (prepared_loop_good _ _ _ _ _ Ha Hr Hp) as Hg.
  assert (Hcmd : command (a_pdu (asp s1)) = SNMP_MSG_SET) by (rewrite (f_equal a_pdu (pr_outer _ _ _ _ _ Hp) : a_pdu (asp s1) = a_pdu (asp s0)); exact Hc).
  rewrite Z.eqb_refl. cbn [negb]. run. cbn [on_asp asp mode set_mode]. rewrite Hcmd.
  change (SNMP_MSG_SET =? SNMP_MSG_GET) with false. change (is_next_mode SNMP_MSG_SET) with false. change (SNMP_MSG_SET =? SNMP_MSG_SET) with true. run.
  set (s2 := on_asp _ s1). assert (G2 : good s2) by by destruct Hg as [? []].
  run_by (eapply (prepared_acm s0 vbs xs s1 s2 SNMP_NOSUCHOBJECT Hp G2); [by right|done|done]) as r s3 [-> ->].
  change (negb (0 =? 0)) with false. run. set (s3 := on_asp (set_mode MODE_SET_BEGIN) s2). assert (G3 : good s3) by by destruct Hg as [? []].
  assert (I3 : status_index s3 = (0, 0)).
  { unfold s3, status_index. cbn. f_equal; [exact (eq_trans (f_equal a_status (pr_outer _ _ _ _ _ Hp)) Hst)|exact (eq_trans (f_equal a_index (pr_outer _ _ _ _ _ Hp)) Hix)]. }
  assert (N3 : no_error s3 = true) by exact (f_equal (fun si => si.1 =? SNMP_ERR_NOERROR) I3).
  unfold handle_set_loop. run_by (apply set_loop_runs; [exact G3|rewrite I3; by left|right; split; vm_compute; discriminate|exact (eq_trans (f_equal one_pass (pr_outer _ _ _ _ _ Hp)) H1)|done|
    by apply (prepared_not_delegated s0 vbs xs s1)|change (mode (asp s3)) with MODE_SET_BEGIN; vm_compute; lia]) as st s4 (P4 & _ & ps & Hps & Htr & Hend).
  rewrite N3 in Hps. change (mode (asp s3)) with MODE_SET_BEGIN in Hps. apply phases_course in Hps as (Hcalls & Hok & Hpre & Hfin).
  right. split; [by intros; apply Hv|]. exists xs, ps. split_and!.
  - by eapply prepared_placement; [right| |].
  - destruct (pr_rest _ _ _ _ _ Hp) as (_ & _ & _ & Ht1). rewrite Htr. exact (f_equal (app _) Ht1).
  - eapply list.Forall_impl; [exact Hcalls|]. intros p Hcall. by eapply (prepared_called s0).
  - destruct Hend as [[Hf ->]|(_ & Hne & Hd & ->)]; [left|by right]. split_and!; [by apply Hfin|done|].
    rewrite <- Z.eqb_eq. change (no_error s4 = true <-> Forall (fun p => pass_failed p.1 p.2 = false) ps).
    rewrite Hok, forallb_forall, list.Forall_forall. split; intros H p Hin; apply list_elem_of_In in Hin; specialize (H p Hin); by destruct (pass_failed _ _).
Qed.

Lemma phases_rank calls m ok ps m' ok' : phases calls m ok ps m' ok' -> set_mode_ok m ->
  (rank m' + length ps <= rank m)%nat /\ (finished m' = true \/ set_mode_ok m').
Proof.
  induction 1 as [m ok|m ok n Hn Hf|m ok n evs ps m' ok' Hn Hf _ _ IH]; intros Hm; cbn [length].
  - split; [lia|by right].
  - destruct (next_phase_rank m ok Hm) as [Hr _]. rewrite <- Hn in Hr. split; [lia|by left].
  - destruct (next_phase_rank m ok Hm) as [Hr Ho]. rewrite <- Hn in Hr, Ho. destruct (IH (proj1 (Ho Hf))) as [IH1 IH2]. split; [lia|done].
Qed.

(** the phases of a SET end: wherever the loop is taken up, for the first time or
    after handlers had delegated their work, it comes to the end of the phases, or
    it stops because a handler delegates again, at least one phase further; a SET
    goes through at most five phases, so the rounds of the loop suffice. *)
Theorem set_loop_ends s :
  good s -> status_ok (status_index s) -> set_mode_ok (mode (asp s)) -> one_pass (asp s) = false ->
  (mode (asp s) = MODE_SET_BEGIN -> no_error s = true) -> is_delegated s = Some false ->
  runs handle_set_loop (fun r s' =>
    finished (mode (asp s')) = true /\ r = a_status (asp s') \/
    is_delegated s' = Some true /\ r = SNMP_ERR_NOERROR /\ set_mode_ok (mode (asp s')) /\ (rank (mode (asp s')) < rank (mode (asp s)))%nat) s.
Proof.
  intros Hg Hst Hm H1 Hb Hd. unfold handle_set_loop.
  run_by (apply set_loop_runs; [done..|by right|done|done|done|unfold rank; repeat case_match; lia]) as r s' (_ & _ & ps & Hps & _ & Hend).
  destruct (phases_rank _ _ _ _ _ _ Hps Hm) as [Hr Hm']. destruct Hend as [?|(Hf & Hne & Hd' & ->)]; [by left|right].
  split_and!; [done|done|destruct Hm' as [?|?]; [congruence|done]|]. destruct ps; [done|]. cbn in Hr. lia.
Qed.
End props.

(** ** An agent with three subtrees and one handler *)

(** It answers every request, and refuses an action on what is under 1.5. *)
Definition demo_method (mode : Z) (args : list (Z * request_info * variable)) (w : unit) : (Z -> reply) * Z * unit :=
  (fun i => match list_find (fun x => x.1.1 = i) args with
            | Some (_, x) => mkreply 0 1 (if (mode =? MODE_SET_ACTION) && bool_decide (vp_name x.2 !! 1%nat = Some 5) then SNMP_ERR_WRONGVALUE else 0)
                               (if mode =? SNMP_MSG_GET then set_vp_type ASN_INTEGER x.2 else x.2)
            | None => mkreply 0 0 0 zero_variable
            end, 0, w).

(** Nobody may see what is under 1.2. *)
#[local] Instance demo_env : AgentEnv unit := {
  registration _ := mkreginfo [mkhandler (Some (Method 1)) false] 3;
  run_method _ := demo_method;
  acm_check v := match view_name v with Some (1 :: 2 :: _) => VACM_NOTINVIEW | _ => VACM_SUCCESS end;
  acm_check_initial _ := 0;
  snmp_send _ _ w := (0, 0, w);
  max_getbulk_repeats := 0;
  max_getbulk_responses := 0;
  context_name _ := [];
  netsnmp_running _ := true
}.

#[local] Instance demo_handlers : HandlersOk unit.
Proof.
  intros f mode args w replies ret w' H Hok. injection H as <- _ _. apply list.Forall_forall. intros x _.
  destruct (list_find _ args) as [[k y]|] eqn:Hf; [|by_decide]. apply list_find_Some in Hf as (Hk & _ & _).
  pose proof (list.Forall_lookup_1 _ _ _ _ Hok Hk). cbn. by destruct (mode =? SNMP_MSG_GET).
Qed.

Definition demo_pdu (c : Z) : pdu := mkpdu SNMP_VERSION_2c c 7 0 0 0 0 0 0 0 0 [] [] 0 [] 0 0 0 [0; 0; 0; 0].

Definition demo_var (name : list Z) : variable := mkvariable name (Z.of_nat (length name)) ASN_INTEGER [1; 0; 0; 0; 0; 0; 0; 0] 8.

(** A request for the two names. *)
Definition demo_state (c : Z) (name1 name2 : list Z) : astate unit :=
  mkastate (mkasp 100 0 1 (demo_pdu c) (Some 0) (<[0 := mkvnode (demo_var name1) (Some 1)]> {[1 := mkvnode (demo_var name2) None]})
              (demo_pdu c) 0 0 0 None 0 [] None 0 (-1) [] [] 0)
    three [] (replicate 50 0) tt [].

Lemma demo_fresh c name1 name2 : var_ok (demo_var name1) -> var_ok (demo_var name2) -> fresh (demo_state c name1 name2) [0; 1].
Proof.
  intros H1 H2. split; [|done]. constructor; try done.
  - apply three_ok.
  - by repeat (split; [done|]; eexists; split; [reflexivity|]).
  - constructor; [|intros i q [_ Hq]%cell_lookup; cbn in Hq; by rewrite lookup_nil in Hq]. cbn. intros p n. rewrite lookup_insert_Some, lookup_singleton_Some.
    intros [[<- <-]|[_ [<- <-]]]; [|done]. split; [done|]. intros p' [= <-]. by eexists.
Qed.


Lemma set_request_all_or_nothing_witness : exists st s', handle_pdu 0 (demo_state SNMP_MSG_SET [1; 3] [1; 5; 1; 7]) = Some (st, s') /\
  st = SNMP_ERR_WRONGVALUE /\ exists xs ps, placement (demo_state SNMP_MSG_SET [1; 3] [1; 5; 1; 7]) [0; 1] xs /\
    ps.*1 = course (failed_at ps) /\ length (concat (snd <$> ps)) = 8%nat.
Proof.
  destruct (runs_Some _ _ _ (set_request_all_or_nothing (demo_state SNMP_MSG_SET [1; 3] [1; 5; 1; 7]) [0; 1] 0
    ltac:(apply demo_fresh; by_decide) eq_refl eq_refl)) as (st & s' & Hrun & H).
  assert (Hc : (fun x => (x.1, length (trace x.2))) <$> handle_pdu 0 (demo_state SNMP_MSG_SET [1; 3] [1; 5; 1; 7]) = Some (SNMP_ERR_WRONGVALUE, 8%nat)) by (vm_compute; reflexivity).
  rewrite Hrun in Hc. injection Hc as Hst Hlen. cbn in Hst, Hlen. exists st, s'. split; [done|]. split; [done|].
  destruct H as [(i & _ & _ & _ & E & _)|(_ & xs & ps & Hpl & Htr & _ & [(Hcourse & _)|(_ & _ & _ & E)])]; [by rewrite Hst in E| |by rewrite Hst in E].
  exists xs, ps. split_and!; [done|done|]. rewrite Htr, length_app, length_rev in Hlen. cbn in Hlen. lia.
Defined.

(** A SET that has been prepared, and has come to its actions. *)
Definition demo_ready : astate unit :=
  match prepare_pdu (demo_state SNMP_MSG_SET [1; 3] [1; 5; 1; 7]) with
  | Some (_, s) => on_asp (set_mode MODE_SET_ACTION) s
  | None => demo_state SNMP_MSG_SET [] []
  end.

Lemma demo_ready_good : good demo_ready.
Proof.
  set (s := demo_state SNMP_MSG_SET [1; 3] [1; 5; 1; 7]).
  assert (Hf : fresh s [0; 1]) by (apply demo_fresh; by_decide). destruct Hf as [Ha _].
  destruct (runs_Some _ _ _ (prepare_pdu_runs s [0; 1] Ha ltac:(by right))) as (r & s1 & Hrun & vars' & Hk & Hs & Hg & Hres).
  unfold demo_ready. fold s. rewrite Hrun.
  assert (Hc : (fun x => x.1.1) <$> prepare_pdu s = Some SNMP_ERR_NOERROR) by (vm_compute; reflexivity).
  rewrite Hrun in Hc. cbn in Hc. injection Hc as Hc. rewrite Hc in Hres.
  destruct Hres as [(_ & [xs Hp] & _)|(E & _)]; [|done].
  pose proof (prepared_loop_good s [0; 1] vars' xs s1 Ha (conj Hk (conj Hs Hg)) Hp) as [H1 []]. by split.
Qed.

Lemma set_loop_ends_witness : slots (asp demo_ready) = [0; 1] /\
  exists r s', handle_set_loop demo_ready = Some (r, s') /\ finished (mode (asp s')) = true.
Proof.
  split; [vm_compute; reflexivity|].
  destruct (runs_Some _ _ _ (set_loop_ends demo_ready demo_ready_good ltac:(by left) ltac:(split; vm_compute; discriminate) ltac:(vm_compute; reflexivity)
    ltac:(vm_compute; discriminate) ltac:(vm_compute; reflexivity))) as (r & s' & Hrun & H). exists r, s'. split; [done|].
  destruct H as [[? _]|(Hd & _)]; [done|].
  assert (Hc : (fun x => is_delegated x.2) <$> handle_set_loop demo_ready = Some (Some false)) by (vm_compute; reflexivity).
  rewrite Hrun in Hc. cbn in Hc. congruence.
Defined.

(** A SET of a name that nothing holds: no handler, no error, and the binding is
    noSuchObject. *)
Example set_of_nothing : (fun x => (x.1, trace x.2, (fun n => vp_type (vn_var n)) <$> a_vars (asp x.2) !! 0)) <$>
  handle_pdu 0 (demo_state SNMP_MSG_SET [1; 4; 1] [1; 4; 2]) = Some (0, [], Some SNMP_NOSUCHOBJECT).
Proof. vm_compute. reflexivity. Qed.
