(* ===== verification/AgentBulk.v ===== *)
(** The response to a GETBULK: the handlers fill the repetitions column by column,
    [_reorder_getbulk] makes rows of them, gives the columns that have ended their
    names, and cuts off what comes behind the end. *)
From Stdlib Require Import ZArith Lia.
From stdpp Require Import gmap.
From S2P Require Import Prelude StateMonad Chains Asn1Defs SnmpDefs Oid SnmpVar Pdu Vacm Registry AgentDefs.
From S2P Require Import AgentRequest AgentPasses AgentSet AgentCache AgentPrepare AgentProps.

(** ** Columns and rows *)

#[export] Instance variable_inhabited : Inhabited variable := populate zero_variable.

(** The place of the [t]-th entry, counted by rows, in a list of [r] columns of
    [R] entries. *)
Definition place (r R t : nat) : nat := (t mod r) * R + t / r.

(** The entries by rows. *)
Definition by_rows {A} `{Inhabited A} (r R : nat) (l : list A) : list A := (fun t => l !!! place r R t) <$> seq 0 (r * R).

Definition is_end (v : variable) : bool := vp_type v =? SNMP_ENDOFMIBVIEW.

(** A column with its end: entries that were not filled, or have ended, repeat the
    name before. *)
Definition end_of (prev : option variable) (v : variable) : variable :=
  match prev with
  | Some p => if (vp_name_length v =? 0) || is_end v
              then snmp_set_var_no_value SNMP_ENDOFMIBVIEW (set_var_objid (vp_name p) (vp_name_length p) v) else v
  | None => v
  end.

Fixpoint fill_end (prev : option variable) (vs : list variable) : list variable :=
  match vs with
  | [] => []
  | v :: vs => let v' := end_of prev v in v' :: fill_end (Some v') vs
  end.

(** All columns; [orig] are the variables of the request. *)
Definition filled_columns (orig : list variable) (r R : nat) (vals : list variable) : list variable :=
  seq 0 r ≫= fun i => fill_end (orig !! i) (take R (drop (i * R) vals)).

(** The row [j] has ended in all columns but the last one; and: in the first. *)
Definition row_ended (r R : nat) (vals : list variable) (j : nat) : Prop :=
  Forall (fun i => is_end (vals !!! (i * R + j)%nat) = true) (seq 0 (Nat.max 1 (r - 1))).

#[export] Instance row_ended_dec r R vals j : Decision (row_ended r R vals j).
Proof. unfold row_ended. apply _. Defined.

(** The rows that stay. *)
Definition rows_kept (r R : nat) (vals : list variable) : nat :=
  match list_find (row_ended r R vals) (seq 0 R) with Some (_, j) => S j | None => R end.

Lemma length_fill_end vs : forall prev, length (fill_end prev vs) = length vs.
Proof. induction vs as [|v vs IH]; intros prev; cbn; [done|]. by rewrite IH. Qed.

Lemma place_lt r R t : (t < r * R)%nat -> (place r R t < r * R)%nat.
Proof.
  intros H. unfold place. assert (r <> 0)%nat by lia. pose proof (Nat.mod_upper_bound t r ltac:(done)) as H1.
  pose proof (Nat.Div0.div_lt_upper_bound t r R H) as H2. nia.
Qed.

Lemma place_next r R t : r <> 0%nat -> 
  (t mod r + 1 < r /\ place r R (S t) = (t mod r + 1) * R + t / r \/ t mod r + 1 = r /\ place r R (S t) = t / r + 1)%nat.
Proof.
  intros Hr. unfold place. pose proof (Nat.mod_upper_bound t r Hr). pose proof (Nat.div_mod_eq t r) as Hd.
  destruct (decide (t mod r + 1 < r)%nat) as [Hlt|Hge]; [left|right; assert (t mod r + 1 = r)%nat by lia].
  - assert (E1 : (S t / r = t / r)%nat) by (symmetry; apply (Nat.div_unique _ _ _ (t mod r + 1)); lia).
    assert (E2 : (S t mod r = t mod r + 1)%nat) by (symmetry; apply (Nat.mod_unique _ _ (t / r)); lia). by rewrite E1, E2.
  - assert (E1 : (S t / r = t / r + 1)%nat) by (symmetry; apply (Nat.div_unique _ _ _ 0); nia).
    assert (E2 : (S t mod r = 0)%nat) by (symmetry; apply (Nat.mod_unique _ _ (t / r + 1)); nia). rewrite E1, E2. lia.
Qed.

Lemma length_by_rows {A} `{Inhabited A} r R (l : list A) : length (by_rows r R l) = (r * R)%nat.
Proof. unfold by_rows. by rewrite length_fmap, length_seq. Qed.

Lemma by_rows_lookup {A} `{Inhabited A} r R (l : list A) t : (t < r * R)%nat -> by_rows r R l !! t = Some (l !!! place r R t).
Proof. intros Ht. unfold by_rows. rewrite list_lookup_fmap, lookup_seq_lt by done. done. Qed.

(** The entry [i], [j] of the columns. *)
Lemma place_rows r R i j : (i < r)%nat -> place r R (j * r + i) = (i * R + j)%nat.
Proof.
  intros Hi. unfold place. rewrite (Nat.add_comm (j * r)), Nat.Div0.mod_add, Nat.div_add, Nat.mod_small, Nat.div_small by lia. lia.
Qed.

(** ** Variables on the heap *)

Definition holds_vars (h : gmap Z vnode) (ps : list Z) (vs : list variable) : Prop := Forall2 (fun p v => vn_var <$> h !! p = Some v) ps vs.

Definition same_links (h h' : gmap Z vnode) : Prop := forall p, next_variable <$> h' !! p = next_variable <$> h !! p.

Lemma same_links_trans h h1 h2 : same_links h h1 -> same_links h1 h2 -> same_links h h2.
Proof. intros H1 H2 p. by rewrite H2. Qed.

Lemma same_links_insert h p n n' : h !! p = Some n -> next_variable n' = next_variable n -> same_links h (<[p := n']> h).
Proof.
  intros Hn He p'. destruct (decide (p' = p)) as [->|]; [rewrite lookup_insert_eq, Hn; cbn; by rewrite He|by rewrite lookup_insert_ne].
Qed.

Lemma holds_vars_others h h' ps vs : (forall p, p ∈ ps -> h' !! p = h !! p) -> holds_vars h ps vs -> holds_vars h' ps vs.
Proof.
  intros He H. induction H as [|p v ps vs Hp _ IH]; [constructor|]. constructor; [rewrite He by (by left); done|].
  apply IH. intros p' Hp'. apply He. by right.
Qed.

(** Loops. *)
Lemma for_each_fmap {S A B} (g : A -> B) (f : B -> M S unit) xs s : for_each f (g <$> xs) s = for_each (fun x => f (g x)) xs s.
Proof.
  revert s. induction xs as [|x xs IH]; intros s; [done|]. cbn. unfold mbind, M_bind. destruct (f (g x) s) as [[[] s']|]; [apply IH|done].
Qed.

Lemma for_each_app {S A} (f : A -> M S unit) xs ys s : for_each f (xs ++ ys) s = (for_each f xs ;; for_each f ys) s.
Proof.
  revert s. induction xs as [|x xs IH]; intros s; [done|]. cbn. unfold mbind, M_bind. destruct (f x s) as [[[] s']|]; [apply IH|done].
Qed.

Lemma for_each_nested {S A B} (f : A -> B -> M S unit) xs ys s :
  for_each (fun x => for_each (f x) ys) xs s = for_each (fun p => f p.1 p.2) (xs ≫= fun x => pair x <$> ys) s.
Proof.
  revert s. induction xs as [|x xs IH]; intros s; [done|]. cbn. rewrite for_each_app. unfold mbind, M_bind.
  rewrite for_each_fmap. cbn. destruct (for_each (f x) ys s) as [[[] s']|]; [apply IH|done].
Qed.

Section bulk.
Context {W : Type} `{Env : AgentEnv W}.
Implicit Types s : astate W.

Definition with_vars_of s (h : gmap Z vnode) : astate W := on_asp (set_a_vars h) s.

(** [h'] differs from [h] in the contents of [ps] only. *)
Definition only_at (ps : list Z) (h h' : gmap Z vnode) : Prop := same_links h h' /\ forall p, p ∉ ps -> h' !! p = h !! p.

Lemma only_at_refl ps h : only_at ps h h.
Proof. done. Qed.

Lemma fix_column_runs col repeats js : forall ps vs prev s,
  Forall2 (fun j p => bulkcache (asp s) !! Z.to_nat (col * repeats + j) = Some (Some p)) js ps -> NoDup ps -> holds_vars (a_vars (asp s)) ps vs ->
  runs (fix_column col repeats js prev) (fun _ s' => exists h', s' = with_vars_of s h' /\ only_at ps (a_vars (asp s)) h' /\
    holds_vars h' ps (fill_end (match prev with None => variables (orig_pdu (asp s)) !! Z.to_nat col | Some p => Some p end) vs)) s.
Proof.
  induction js as [|j js IH]; intros ps vs prev s Hjs Hnd Hvs; cbn [fix_column].
  - inversion Hjs; subst. inversion Hvs; subst. run. exists (a_vars (asp s)). split_and!; [by destruct s as [[] ? ? ? ? ?]|done|constructor].
  - inversion Hjs as [|? p ? ps' Hj Hjs']; subst. inversion Hvs as [|? v ? vs' Hv Hvs']; subst. apply list.NoDup_cons in Hnd as [Hp Hnd].
    apply fmap_Some in Hv as (n & Hn & ->). set (pe := match prev with None => _ | Some p => Some p end).
    assert (Hstep : runs (if (vp_name_length (vn_var n) =? 0) || (vp_type (vn_var n) =? SNMP_ENDOFMIBVIEW) then
        match pe with
        | Some x => upd_var (Some p) (fun c => snmp_set_var_no_value SNMP_ENDOFMIBVIEW (set_var_objid (vp_name x) (vp_name_length x) c))
        | None => skip
        end else skip) (fun _ s1 => s1 = with_vars_of s (<[p := set_vn_var (end_of pe (vn_var n)) n]> (a_vars (asp s)))) s).
    { assert (Hid : set_vn_var (vn_var n) n = n) by by destruct n.
      assert (Hskip : runs skip (fun _ s1 => s1 = with_vars_of s (<[p := n]> (a_vars (asp s)))) s).
      { run. rewrite insert_id by done. by destruct s as [[] ? ? ? ? ?]. }
      unfold end_of, is_end. destruct pe as [x|]; destruct ((vp_name_length (vn_var n) =? 0) || (vp_type (vn_var n) =? SNMP_ENDOFMIBVIEW)); rewrite ?Hid; try exact Hskip.
      unfold upd_var. by eapply runs_upd_node. }
    set (n' := set_vn_var (end_of pe (vn_var n)) n) in *. set (s1 := with_vars_of s (<[p := n']> (a_vars (asp s)))) in *.
    run. eapply runs_lift; [exact Hj|]. run. eapply runs_get_var; [exact Hn|]. fold pe. run.
    run_by (exact Hstep) as _ s1' ->. run. eapply runs_get_var; [cbn; apply lookup_insert_eq|].
    assert (Hne : forall p', p' ∈ ps' -> p' <> p) by (intros p' Hp' ->; done).
    eapply runs_mono; [apply (IH ps' vs'); [exact Hjs'|exact Hnd|]|].
    + eapply holds_vars_others; [|exact Hvs']. intros p' Hp'. cbn. by rewrite lookup_insert_ne by (intros <-; by apply (Hne p)).
    + cbv beta. intros _ s2 (h' & -> & [Hl Ho] & Hvs2). exists h'. split; [done|]. split.
      * split; [eapply same_links_trans; [by apply (same_links_insert _ p n n')|exact Hl]|]. intros p' [Hne' Hp']%not_elem_of_cons.
        rewrite Ho by done. cbn. by rewrite lookup_insert_ne.
      * cbn [fill_end]. constructor; [|exact Hvs2]. rewrite Ho by done. cbn. rewrite lookup_insert_eq. done.
Qed.

(** The array of the entries: [r] columns of [R] objects. *)
Record bulk_cells s (r R : nat) (cells : list Z) : Prop := mkcells {
  bc_length : length cells = (r * R)%nat;
  bc_nodup : NoDup cells;
  bc_cache : forall k p, cells !! k = Some p -> bulkcache (asp s) !! k = Some (Some p)
}.

Definition requested s : list variable := variables (orig_pdu (asp s)).

Lemma fix_one_column s r R cells vals i :
  bulk_cells s r R cells -> (i < r)%nat -> length vals = (r * R)%nat ->
  holds_vars (a_vars (asp s)) cells (filled_columns (requested s) i R vals ++ drop (i * R) vals) ->
  runs (fix_column (Z.of_nat i) (Z.of_nat R) (seqZ 0 (Z.of_nat R)) None) (fun _ s' => exists h', s' = with_vars_of s h' /\
    only_at cells (a_vars (asp s)) h' /\ holds_vars h' cells (filled_columns (requested s) (S i) R vals ++ drop (S i * R) vals)) s.
Proof.
  intros [Hlen Hnd Hc] Hi Hvl Hh. assert (HiR : (i * R + R <= r * R)%nat) by nia.
  set (col := take R (drop (i * R) cells)). set (pre := take (i * R) cells). set (suf := drop (S i * R) cells).
  assert (Hcells : cells = pre ++ col ++ suf).
  { unfold pre, col, suf. rewrite <- (take_drop (i * R) cells) at 1. f_equal. rewrite <- (take_drop R (drop (i * R) cells)) at 1. f_equal. rewrite drop_drop. f_equal. lia. }
  assert (Hvals : drop (i * R) vals = take R (drop (i * R) vals) ++ drop (S i * R) vals).
  { rewrite <- (take_drop R (drop (i * R) vals)) at 1. f_equal. rewrite drop_drop. f_equal. lia. }
  rewrite Hvals in Hh. assert (Hh' := Hh). rewrite Hcells in Hh'.
  pose proof (list.Forall2_length _ _ _ Hh) as Hl. rewrite !length_app, length_take, !length_drop, Hlen, Hvl in Hl.
  apply list.Forall2_app_inv in Hh' as [Hpre Hh']; [|unfold pre; rewrite length_take; lia].
  apply list.Forall2_app_inv in Hh' as [Hcol Hsuf]; [|unfold col; rewrite !length_take, !length_drop; lia].
  rewrite Hcells in Hnd. apply list.NoDup_app in Hnd as (_ & Hd1 & Hnd). apply list.NoDup_app in Hnd as (Hndc & Hd2 & _).
  eapply runs_mono; [apply (fix_column_runs _ _ _ col (take R (drop (i * R) vals))); [|exact Hndc|exact Hcol]|].
  - apply Forall2_same_length_lookup_2; [unfold col; rewrite length_seqZ, length_take, length_drop; lia|].
    intros k j p Hj Hp. apply lookup_seqZ in Hj as [-> Hk]. apply Hc. replace (Z.to_nat _) with (i * R + k)%nat by lia.
    unfold col in Hp. apply lookup_take_Some in Hp as [Hp _]. by rewrite lookup_drop in Hp.
  - cbv beta. rewrite Nat2Z.id. intros _ s' (h' & -> & [Hlk Ho] & Hcol'). exists h'. split_and!; [done|split; [done|]|].
    + intros p Hp. apply Ho. intros Hin. apply Hp. rewrite Hcells. apply elem_of_app. right. apply elem_of_app. by left.
    + assert (Hf : filled_columns (requested s) (S i) R vals = filled_columns (requested s) i R vals ++ fill_end (requested s !! i) (take R (drop (i * R) vals))).
      { unfold filled_columns. rewrite seq_S, bind_app. cbn. by rewrite app_nil_r. }
      rewrite Hf, <- app_assoc, Hcells. apply Forall2_app; [|apply Forall2_app].
      * eapply holds_vars_others; [|exact Hpre]. intros p Hp. apply Ho. intros Hin. apply (Hd1 p Hp). apply elem_of_app. by left.
      * exact Hcol'.
      * eapply holds_vars_others; [|exact Hsuf]. intros p Hp. apply Ho. intros Hin. by apply (Hd2 p Hin).
Qed.

Lemma fix_columns_runs r R cells vals m : forall i s, (i + m = r)%nat ->
  bulk_cells s r R cells -> length vals = (r * R)%nat -> holds_vars (a_vars (asp s)) cells (filled_columns (requested s) i R vals ++ drop (i * R) vals) ->
  runs (for_each (fun i => fix_column i (Z.of_nat R) (seqZ 0 (Z.of_nat R)) None) (Z.of_nat <$> seq i m))
    (fun _ s' => exists h', s' = with_vars_of s h' /\ only_at cells (a_vars (asp s)) h' /\ holds_vars h' cells (filled_columns (requested s) r R vals)) s.
Proof.
  induction m as [|m IH]; intros i s Him Hc Hvl Hh; cbn [seq fmap list_fmap for_each].
  - run. exists (a_vars (asp s)). split_and!; [by destruct s as [[] ? ? ? ? ?]|done|]. replace i with r in Hh by lia.
    rewrite drop_ge, app_nil_r in Hh by lia. done.
  - run. run_by (apply (fix_one_column s r R cells vals i); [done|lia|done|done]) as _ s1 (h1 & -> & [Hl1 Ho1] & Hh1).
    eapply runs_mono; [apply (IH (S i) (with_vars_of s h1)); [lia|by destruct Hc|done|exact Hh1]|].
    cbv beta. intros _ s2 (h2 & -> & [Hl2 Ho2] & Hh2). exists h2. split_and!; [done|split|exact Hh2].
    + by eapply same_links_trans.
    + intros p Hp. rewrite Ho2 by done. by apply Ho1.
Qed.

(** ** Linking *)

(** The entries [key x] were linked to the entries [val x]. *)
Record relinked_at {A} (cells : list Z) (key val : A -> Z) (xs : list A) (h h' : gmap Z vnode) : Prop := mkrelinked {
  rl_vals : forall p, vn_var <$> h' !! p = vn_var <$> h !! p;
  rl_next : forall x a b, x ∈ xs -> cell cells (key x) = Some a -> cell cells (val x) = Some b -> next_variable <$> h' !! a = Some (Some b);
  rl_others : forall p, (forall x, x ∈ xs -> cell cells (key x) <> Some p) -> h' !! p = h !! p
}.

Lemma link_entries_runs s r R cells k l a b n :
  bulk_cells s r R cells -> cell cells k = Some a -> cell cells l = Some b -> a_vars (asp s) !! a = Some n ->
  runs (link_entries k l) (fun _ s' => s' = with_vars_of s (<[a := set_next_variable (Some b) n]> (a_vars (asp s)))) s.
Proof.
  intros [_ _ Hc] [Hk Ha]%cell_lookup [Hl Hb]%cell_lookup Hn. unfold link_entries. run. eapply runs_lift; [by apply Hc|].
  run. eapply runs_lift; [by apply Hc|]. by eapply runs_upd_node.
Qed.

Lemma link_loop_runs {A} r R cells (key val : A -> Z) xs : forall s,
  bulk_cells s r R cells -> (forall p, p ∈ cells -> is_Some (a_vars (asp s) !! p)) ->
  (forall x, x ∈ xs -> 0 <= key x < Z.of_nat (length cells) /\ 0 <= val x < Z.of_nat (length cells)) ->
  (forall x y, x ∈ xs -> y ∈ xs -> key x = key y -> val x = val y) ->
  runs (for_each (fun x => link_entries (key x) (val x)) xs)
    (fun _ s' => exists h', s' = with_vars_of s h' /\ relinked_at cells key val xs (a_vars (asp s)) h') s.
Proof.
  induction xs as [|x xs IH]; intros s Hc Hin Hr Hinj; cbn [for_each].
  - run. exists (a_vars (asp s)). split; [by destruct s as [[] ? ? ? ? ?]|]. constructor; [done|intros x a b Hx; by apply not_elem_of_nil in Hx|done].
  - destruct (Hr x) as [Hk Hl]; [by left|]. destruct (cell_in cells _ Hk) as [a Ha]. destruct (cell_in cells _ Hl) as [b Hb].
    assert (Hac : a ∈ cells) by (apply cell_lookup in Ha as [_ Ha]; by eapply list_elem_of_lookup_2). destruct (Hin a Hac) as [n Hn].
    run. run_by (by eapply link_entries_runs) as _ s1 ->. set (s1 := with_vars_of s _).
    eapply runs_mono; [apply (IH s1); [by destruct Hc| |intros y Hy; apply Hr; by right|intros y z Hy Hz; apply Hinj; by right]|].
    { intros p Hp. cbn. destruct (decide (p = a)) as [->|]; [rewrite lookup_insert_eq; eauto|rewrite lookup_insert_ne by done; by apply Hin]. }
    cbv beta. intros _ s2 (h' & -> & [Hv Hn' Ho]). exists h'. split; [done|]. constructor.
    + intros p. rewrite Hv. cbn. destruct (decide (p = a)) as [->|]; [by rewrite lookup_insert_eq, Hn|by rewrite lookup_insert_ne].
    + intros y a' b' Hy Ha' Hb'. destruct (decide (key y ∈ key <$> xs)) as [(z & Hzk & Hz)%list_elem_of_fmap|Hno].
      * apply (Hn' z a' b' Hz); [by rewrite <- Hzk|]. rewrite (Hinj z y); [done|by right|done|done].
      * apply elem_of_cons in Hy as [->|Hy]; [|by exfalso; apply Hno, list_elem_of_fmap; exists y]. simplify_eq. rewrite Ho.
        -- cbn. by rewrite lookup_insert_eq.
        -- intros z Hz Hza. apply Hno, list_elem_of_fmap. exists z. split; [|done]. pose proof Ha as [? Ha2]%cell_lookup. pose proof Hza as [? Hz2]%cell_lookup.
           pose proof (NoDup_lookup _ _ _ _ (bc_nodup _ _ _ _ Hc) Ha2 Hz2). lia.
    + intros p Hp. rewrite Ho; [|intros y Hy; apply Hp; by right]. cbn. rewrite lookup_insert_ne; [done|]. intros <-. by apply (Hp x); [left|].
Qed.

(** The entries are linked by rows. *)
Definition rows_linked (r R : nat) (cells : list Z) (h : gmap Z vnode) : Prop := forall t a b,
  (S t < r * R)%nat -> cells !! place r R t = Some a -> cells !! place r R (S t) = Some b -> next_variable <$> h !! a = Some (Some b).

Lemma cell_of_nat {A} (l : list A) (k : nat) : cell l (Z.of_nat k) = l !! k.
Proof. unfold cell. by rewrite (proj2 (Z.leb_le _ _)), Nat2Z.id by lia. Qed.

Lemma in_pairs {A B} (x : A) (y : B) (xs : list A) (ys : list B) : x ∈ xs -> y ∈ ys -> (x, y) ∈ (xs ≫= fun x => pair x <$> ys).
Proof. intros Hx Hy. apply list_elem_of_bind. exists x. split; [|done]. apply list_elem_of_fmap. by exists y. Qed.

Lemma of_pairs {A B} (p : A * B) (xs : list A) (ys : list B) : p ∈ (xs ≫= fun x => pair x <$> ys) -> p.1 ∈ xs /\ p.2 ∈ ys.
Proof. intros H. apply list_elem_of_bind in H as (x & Hp & Hx). by apply list_elem_of_fmap in Hp as (y & -> & Hy). Qed.

Lemma link_rows_runs s r R cells :
  (0 < r)%nat -> (0 < R)%nat -> bulk_cells s r R cells -> (forall p, p ∈ cells -> is_Some (a_vars (asp s) !! p)) ->
  runs (for_each (fun i => for_each (fun j => link_entries (i * Z.of_nat R + j) ((i + 1) * Z.of_nat R + j)) (seqZ 0 (Z.of_nat R))) (seqZ 0 (Z.of_nat r - 1)) ;;
        for_each (fun j => link_entries ((Z.of_nat r - 1) * Z.of_nat R + j) (j + 1)) (seqZ 0 (Z.of_nat R - 1)))
    (fun _ s' => exists h', s' = with_vars_of s h' /\ rows_linked r R cells h' /\
       (forall p, vn_var <$> h' !! p = vn_var <$> a_vars (asp s) !! p) /\
       (forall p, p ∉ cells -> h' !! p = a_vars (asp s) !! p) /\
       (forall a, cells !! (r * R - 1)%nat = Some a -> h' !! a = a_vars (asp s) !! a)) s.
Proof.
  intros Hr HR Hc Hin. pose proof (bc_length _ _ _ _ Hc) as Hlen.
  set (xs := seqZ 0 (Z.of_nat r - 1) ≫= fun i => pair i <$> seqZ 0 (Z.of_nat R)).
  set (key := fun p : Z * Z => p.1 * Z.of_nat R + p.2). set (val := fun p : Z * Z => (p.1 + 1) * Z.of_nat R + p.2).
  assert (Hxs : forall p, p ∈ xs -> 0 <= p.1 < Z.of_nat r - 1 /\ 0 <= p.2 < Z.of_nat R).
  { intros p Hp. apply of_pairs in Hp as [H1 H2]. apply elem_of_seqZ in H1, H2. lia. }
  apply runs_bind. eapply runs_mono.
  { unfold runs. rewrite for_each_nested. fold xs. apply (link_loop_runs r R cells key val xs s Hc Hin); unfold key, val.
    - intros p Hp. apply Hxs in Hp. rewrite Hlen. nia.
    - intros p q Hp Hq. apply Hxs in Hp, Hq. intros He. assert (p.1 = q.1) by nia. nia. }
  cbv beta. intros _ s1 (h1 & -> & [V1 N1 O1]).
  set (key' := fun j : Z => (Z.of_nat r - 1) * Z.of_nat R + j). set (val' := fun j => j + 1).
  eapply runs_mono; [apply (link_loop_runs r R cells key' val' (seqZ 0 (Z.of_nat R - 1)) (with_vars_of s h1)); unfold key', val'|].
  - by destruct Hc.
  - intros p Hp. cbn. specialize (V1 p). destruct (Hin p Hp) as [n Hn]. rewrite Hn in V1. destruct (h1 !! p); [eauto|done].
  - intros j Hj%elem_of_seqZ. rewrite Hlen. nia.
  - intros j j' _ _ He. lia.
  - cbv beta. intros _ s2 (h2 & -> & [V2 N2 O2]). cbn in V2, O2. exists h2. split_and!; [done| |by intros p; rewrite V2| |].
    + intros t a b Ht Ha Hb. destruct (place_next r R t ltac:(lia)) as [[Hm E]|[Hm E]]; rewrite E in Hb; unfold place in Ha.
      * pose proof (Nat.Div0.div_lt_upper_bound t r R ltac:(lia)). rewrite O2.
        -- apply (N1 (Z.of_nat (t mod r), Z.of_nat (t / r)) a b); [apply in_pairs; apply elem_of_seqZ; lia| |]; unfold key, val; cbn [fst snd].
           { replace (Z.of_nat (t mod r) * Z.of_nat R + Z.of_nat (t / r)) with (Z.of_nat ((t mod r) * R + t / r)) by lia. by rewrite cell_of_nat. }
           replace ((Z.of_nat (t mod r) + 1) * Z.of_nat R + Z.of_nat (t / r)) with (Z.of_nat ((t mod r + 1) * R + t / r)) by lia. by rewrite cell_of_nat.
        -- intros j Hj%elem_of_seqZ Hja. unfold key' in Hja. apply cell_lookup in Hja as [_ Hja].
           pose proof (NoDup_lookup _ _ _ _ (bc_nodup _ _ _ _ Hc) Ha Hja). nia.
      * pose proof (Nat.div_mod_eq t r). assert (t / r + 1 < R)%nat by nia.
        apply (N2 (Z.of_nat (t / r)) a b); [apply elem_of_seqZ; lia| |]; unfold key', val'.
        -- replace ((Z.of_nat r - 1) * Z.of_nat R + Z.of_nat (t / r)) with (Z.of_nat ((t mod r) * R + t / r)) by nia. by rewrite cell_of_nat.
        -- replace (Z.of_nat (t / r) + 1) with (Z.of_nat (t / r + 1)) by lia. by rewrite cell_of_nat.
    + intros p Hp. rewrite O2, O1; [done| |]; intros x _ [_ Hx]%cell_lookup; apply Hp; by eapply list_elem_of_lookup_2.
    + intros a Ha. rewrite O2, O1; [done| |].
      * intros x Hx%Hxs Hxa. apply cell_lookup in Hxa as [_ Hxa]. pose proof (NoDup_lookup _ _ _ _ (bc_nodup _ _ _ _ Hc) Ha Hxa). unfold key in *. nia.
      * intros x Hx%elem_of_seqZ Hxa. apply cell_lookup in Hxa as [_ Hxa]. pose proof (NoDup_lookup _ _ _ _ (bc_nodup _ _ _ _ Hc) Ha Hxa). unfold key' in *. nia.
Qed.

(** ** The list by rows *)

Definition links (h : gmap Z vnode) (p : Z) : option (option Z) := next_variable <$> h !! p.

Lemma by_rows_cells r R (cells : list Z) t : length cells = (r * R)%nat -> (t < r * R)%nat -> by_rows r R cells !! t = cells !! place r R t.
Proof.
  intros Hl Ht. rewrite by_rows_lookup by done. symmetry. apply list_lookup_lookup_total_lt. rewrite Hl. by apply place_lt.
Qed.

Lemma by_rows_chain r R (cells : list Z) first nons h h' :
  (0 < r)%nat -> (0 < R)%nat -> length cells = (r * R)%nat -> chain (links h) first (nons ++ cells) -> same_links h h' ->
  forall h'', rows_linked r R cells h'' -> (forall p, p ∉ cells -> h'' !! p = h' !! p) ->
    (forall a, cells !! (r * R - 1)%nat = Some a -> h'' !! a = h' !! a) -> chain (links h'') first (nons ++ by_rows r R cells).
Proof.
  intros Hr HR Hlen Hc Hl h'' Hrows Ho Hlast. pose proof (chain_NoDup _ _ _ Hc) as Hnd. apply list.NoDup_app in Hnd as (_ & Hd & _).
  assert (HrR : (0 < r * R)%nat) by nia. assert (Hout : forall p, p ∉ cells -> links h'' p = links h p) by (intros p Hp; unfold links; rewrite Ho by done; apply Hl).
  apply linked_app in Hc as (q & Hn & Hcells). destruct cells as [|c cells']; [cbn in Hlen; lia|]. set (cells := c :: cells') in *.
  apply linked_app. exists q. split.
  { eapply linked_ext; [|exact Hn]. intros p Hp. apply Hout. by apply Hd. }
  assert (H0 : by_rows r R cells !! 0%nat = Some c).
  { rewrite by_rows_cells by done. unfold place. rewrite Nat.Div0.mod_0_l, Nat.Div0.div_0_l. done. }
  assert (Hlast' : exists a, cells !! (r * R - 1)%nat = Some a /\ links h a = Some None).
  { assert (Hin : is_Some (cells !! (r * R - 1)%nat)) by (apply lookup_lt_is_Some_2; lia). destruct Hin as [a Ha]. exists a. split; [done|].
    destruct (exists_last (l := cells) ltac:(done)) as (l & x & Hl'). rewrite Hl' in Ha, Hcells, Hlen. rewrite length_app in Hlen. cbn in Hlen.
    replace (r * R - 1)%nat with (length l) in Ha by lia. rewrite list_lookup_middle in Ha by done. injection Ha as <-.
    apply linked_app in Hcells as (q' & _ & [_ (n & Hn' & Hnone)]). cbn in Hnone. congruence. }
  destruct Hlast' as (a & Ha & Hla). assert (q = Some c) as -> by by destruct Hcells.
  replace (Some c) with (match head (by_rows r R cells) with Some x => Some x | None => None end).
  2:{ rewrite head_lookup, H0. done. }
  apply linked_steps. intros t x Hx. pose proof (lookup_lt_Some _ _ _ Hx) as Ht. rewrite length_by_rows in Ht. rewrite by_rows_cells in Hx by done.
  destruct (decide (S t < r * R)%nat) as [Hlt|Hge].
  - rewrite by_rows_cells by done. destruct (lookup_lt_is_Some_2 cells (place r R (S t))) as [y Hy]; [rewrite Hlen; by apply place_lt|].
    rewrite Hy. by eapply Hrows.
  - rewrite (proj2 (lookup_ge_None _ _)) by (rewrite length_by_rows; lia).
    assert (Hp : place r R t = (r * R - 1)%nat).
    { unfold place. assert (t / r = R - 1)%nat as -> by (symmetry; apply (Nat.div_unique _ _ _ (r - 1)); nia).
      assert (t mod r = r - 1)%nat as -> by (symmetry; apply (Nat.mod_unique _ _ (R - 1)); nia). nia. }
    rewrite Hp, Ha in Hx. injection Hx as <-. unfold links. rewrite Hlast by done. unfold same_links in Hl. rewrite Hl. exact Hla.
Qed.

(** ** Cutting off *)

Lemma row_ends_runs ps : forall p q vs s, linked (links (a_vars (asp s))) (Some p) (p :: ps) q -> holds_vars (a_vars (asp s)) (p :: ps) vs ->
  runs (row_ends (length ps) (Some p)) (fun x s' => s' = s /\
    if forallb is_end (take (length ps) vs) then x = (true, list.last (p :: ps)) else x.1 = false) s.
Proof.
  induction ps as [|p' ps IH]; intros p q vs s Hl Hv; inversion Hv as [|? v ? vs' Hp Hv']; subst; cbn [row_ends length take forallb].
  - run. done.
  - apply fmap_Some in Hp as (n & Hn & ->). destruct Hl as [_ (m & Hm & Hl)]. unfold links in Hm. rewrite Hn in Hm. injection Hm as <-.
    assert (Hnx : next_variable n = Some p') by by destruct Hl. rewrite Hnx in Hl.
    run. eapply runs_get_var; [exact Hn|]. unfold is_end at 1. destruct (vp_type (vn_var n) =? SNMP_ENDOFMIBVIEW) eqn:E; cbn [negb andb]; [|by run].
    run. eapply runs_next_of; [exact Hn|]. rewrite Hnx. eapply runs_mono; [by eapply IH|]. intros x s' [-> H]. split; [done|].
    destruct (forallb _ _); [|done]. rewrite H. done.
Qed.

(** What stays of the list: the objects [ps], which are linked and as they were. *)
Definition kept_list s (ps : list Z) s' : Prop :=
  exists h', s' = with_vars_of s h' /\ has_variables (asp s') ps /\ forall p, p ∈ ps -> vn_var <$> h' !! p = vn_var <$> a_vars (asp s) !! p.

Lemma foldr_delete_lookup (ids : list Z) (h : gmap Z vnode) p : p ∉ ids -> foldr delete h ids !! p = h !! p.
Proof.
  induction ids as [|i ids IH]; intros Hp; [done|]. apply not_elem_of_cons in Hp as [Hne Hp]. cbn. rewrite lookup_delete_ne by done. by apply IH.
Qed.

Lemma cut_runs s xs x ys n : has_variables (asp s) (xs ++ x :: ys) -> a_vars (asp s) !! x = Some n ->
  runs (free_from (next_variable n) ;; upd_node (Some x) (set_next_variable None)) (fun _ => kept_list s (xs ++ [x])) s.
Proof.
  intros Hv Hn. unfold has_variables in Hv. pose proof (chain_NoDup _ _ _ Hv) as Hnd.
  change (xs ++ x :: ys) with (xs ++ [x] ++ ys) in Hv, Hnd. rewrite app_assoc in Hv, Hnd. pose proof Hv as Hall. apply linked_app in Hv as (q & Hpre & Hys).
  assert (Hq : q = next_variable n).
  { apply linked_app in Hpre as (q' & _ & [_ (m & Hm & Hq)]). rewrite Hn in Hm. injection Hm as <-. done. }
  subst q. unfold free_from. run. eapply runs_lift; [by apply walk_map|]. run. set (h1 := foldr delete (a_vars (asp s)) ys).
  apply list.NoDup_app in Hnd as (Hnd1 & Hd & _).
  assert (Hkeep : forall p, p ∈ xs ++ [x] -> h1 !! p = a_vars (asp s) !! p) by (intros p Hp; apply foldr_delete_lookup; by apply Hd).
  assert (Hx : x ∈ xs ++ [x]) by (apply elem_of_app; right; by left).
  eapply runs_upd_node; [cbn; rewrite Hkeep by done; exact Hn|]. exists (<[x := set_next_variable None n]> h1). split_and!; [done| |].
  - unfold has_variables. cbn. eapply (linked_snoc (fun p => next_variable <$> h1 !! p)); [|exact Hnd1| |].
    + eapply linked_ext; [|exact Hpre]. intros p Hp. cbn. by rewrite Hkeep.
    + intros z Hz. by rewrite lookup_insert_ne.
    + by rewrite lookup_insert_eq.
  - intros p Hp. destruct (decide (p = x)) as [->|]; [by rewrite lookup_insert_eq, Hn|]. rewrite lookup_insert_ne by done. by rewrite Hkeep.
Qed.

(** The row [j]. *)
Definition row {A} `{Inhabited A} (r R : nat) (l : list A) (j : nat) : list A := (fun i => l !!! (i * R + j)%nat) <$> seq 0 r.

Lemma by_rows_row {A} `{Inhabited A} r R (l : list A) j : (0 < r)%nat -> (j < R)%nat ->
  by_rows r R l = take (j * r) (by_rows r R l) ++ row r R l j ++ drop (S j * r) (by_rows r R l).
Proof.
  intros Hr Hj. assert (Hle : (j * r + r <= r * R)%nat) by nia.
  rewrite <- (take_drop (j * r) (by_rows r R l)) at 1. f_equal. rewrite <- (take_drop r (drop (j * r) _)) at 1. f_equal.
  - apply list_eq. intros i. destruct (decide (i < r)%nat) as [Hi|Hi].
    + rewrite lookup_take_lt, lookup_drop, by_rows_lookup by lia. unfold row. rewrite list_lookup_fmap, lookup_seq_lt by done. cbn. by rewrite place_rows.
    + rewrite !(proj2 (lookup_ge_None _ _)); [done| |]; [unfold row; rewrite length_fmap, length_seq|rewrite length_take]; lia.
  - rewrite drop_drop. f_equal. lia.
Qed.

Lemma take_rows {A} `{Inhabited A} r R (l : list A) j : (0 < r)%nat -> (j < R)%nat ->
  take (S j * r) (by_rows r R l) = take (j * r) (by_rows r R l) ++ row r R l j.
Proof.
  intros Hr Hj. assert (Hle : (j * r + r <= r * R)%nat) by nia. rewrite (by_rows_row r R l j Hr Hj) at 1. rewrite app_assoc. apply take_app_length'.
  rewrite length_app, length_take, length_by_rows. unfold row. rewrite length_fmap, length_seq. lia.
Qed.

Lemma row_ended_spec r R vals j : (0 < r)%nat ->
  row_ended r R vals j <-> is_end (vals !!! j) = true /\ forallb is_end (take (r - 1) (row r R vals j)) = true.
Proof.
  intros Hr. unfold row_ended, row. rewrite <- fmap_take, forallb_forall.
  assert (Ht : take (r - 1) (seq 0 r) = seq 0 (r - 1)).
  { apply list_eq. intros i. destruct (decide (i < r - 1)%nat); [rewrite lookup_take_lt, !lookup_seq_lt by lia; done|].
    rewrite !(proj2 (lookup_ge_None _ _)); [done|rewrite length_seq; lia|rewrite length_take, length_seq; lia]. }
  rewrite Ht, list.Forall_forall. split.
  - intros H. split; [apply (H 0%nat), elem_of_seq; lia|]. intros x Hx. apply list_elem_of_In, list_elem_of_fmap in Hx as (i & -> & Hi).
    apply H. apply elem_of_seq in Hi. apply elem_of_seq. lia.
  - intros [H0 H] i Hi. apply elem_of_seq in Hi. destruct (decide (i = 0)%nat) as [->|]; [exact H0|]. apply H, list_elem_of_In, list_elem_of_fmap.
    exists i. split; [done|]. apply elem_of_seq. lia.
Qed.

Lemma holds_vars_lookup h ps vs k p v : holds_vars h ps vs -> ps !! k = Some p -> vs !! k = Some v -> vn_var <$> h !! p = Some v.
Proof. intros H Hp Hv. exact (Forall2_lookup_lr _ _ _ _ _ _ H Hp Hv). Qed.

Lemma row_holds h r R cells vals j : length cells = (r * R)%nat -> holds_vars h cells vals -> (j < R)%nat -> holds_vars h (row r R cells j) (row r R vals j).
Proof.
  intros Hl Hv Hj. pose proof (list.Forall2_length _ _ _ Hv) as Hlv. unfold row. apply Forall2_same_length_lookup_2; [by rewrite !length_fmap|].
  intros i p v Hp Hx. rewrite list_lookup_fmap in Hp; rewrite list_lookup_fmap in Hx. destruct (decide (i < r)%nat) as [Hi|Hi].
  - rewrite lookup_seq_lt in Hp, Hx by done. cbn in Hp, Hx. simplify_eq. assert (i * R + j < r * R)%nat by nia.
    eapply (holds_vars_lookup _ _ _ (i * R + j)); [exact Hv| |]; apply list_lookup_lookup_total_lt; lia.
  - rewrite (proj2 (lookup_ge_None (seq 0 r) _)) in Hp by (rewrite length_seq; lia). done.
Qed.

(** The search for the first row that has ended. *)
Lemma find_first_row (P : nat -> Prop) `{!forall n, Decision (P n)} j m :
  match list_find P (seq j (S m)) with Some x => Some x.2 | None => None end =
  if decide (P j) then Some j else match list_find P (seq (S j) m) with Some x => Some x.2 | None => None end.
Proof. cbn [seq list_find]. case_decide; [done|]. by destruct (list_find P (seq (S j) m)) as [[? ?]|]. Qed.

Lemma truncate_rows_runs s r R cells vals nons m : forall j, (0 < r)%nat -> (j + m = R)%nat ->
  bulk_cells s r R cells -> has_variables (asp s) (nons ++ by_rows r R cells) -> holds_vars (a_vars (asp s)) cells vals ->
  runs (truncate_rows (Z.of_nat <$> seq j m) (Z.of_nat r))
    (fun _ => kept_list s (nons ++ take (match match list_find (row_ended r R vals) (seq j m) with Some x => Some x.2 | None => None end with Some k => S k | None => R end * r)
       (by_rows r R cells))) s.
Proof.
  induction m as [|m IH]; intros j Hr Hj Hc Hv Hh.
  - cbn. run. exists (a_vars (asp s)). rewrite take_ge by (rewrite length_by_rows; lia). split_and!; [by destruct s as [[] ? ? ? ? ?]|done|done].
  - rewrite find_first_row. cbn [seq fmap list_fmap truncate_rows]. pose proof Hc as [Hlen Hnd Hcache]. assert (HjR : (j < R)%nat) by lia.
    pose proof (by_rows_row r R cells j Hr HjR) as Hsplit. pose proof (row_holds _ _ _ _ _ _ Hlen Hh HjR) as Hrow.
    assert (Hlr : forall A (HA : Inhabited A) (l : list A), length (row r R l j) = r) by (intros; unfold row; by rewrite length_fmap, length_seq).
    destruct (row r R cells j) as [|p ps] eqn:Hps; [specialize (Hlr _ _ cells); rewrite Hps in Hlr; cbn in Hlr; lia|].
    assert (Hlps : length ps = (r - 1)%nat) by (specialize (Hlr _ _ cells); rewrite Hps in Hlr; cbn in Hlr; lia).
    assert (Hp : cells !! j = Some p).
    { unfold row in Hps. destruct r as [|r]; [lia|]. cbn in Hps. injection Hps as <- _. apply list_lookup_lookup_total_lt. rewrite Hlen. nia. }
    inversion Hrow as [|? v ? vs' Hpv Hrow' Ev1 Ev2]. pose proof Hpv as (n & Hn & Hnv)%fmap_Some.
    assert (Hv0 : v = vals !!! j).
    { destruct r as [|r]; [lia|]. unfold row in Ev2. cbn in Ev2. by injection Ev2. }
    run. eapply runs_lift; [rewrite Nat2Z.id; by apply Hcache|]. run. eapply runs_get_var; [exact Hn|]. rewrite <- Hnv, Hv0.
    pose proof (row_ended_spec r R vals j Hr) as Hspec. fold (is_end (vals !!! j)).
    destruct (is_end (vals !!! j)) eqn:E1; [|rewrite decide_False by (intros [? _]%Hspec; done); apply IH; [done|lia|done..]].
    replace (Z.to_nat (Z.of_nat r - 1)) with (length ps) by lia.
    pose proof Hv as Hv'. unfold has_variables in Hv'. rewrite Hsplit in Hv'. apply linked_app in Hv' as (q0 & _ & Hv'). apply linked_app in Hv' as (q1 & _ & Hv').
    apply linked_app in Hv' as (q2 & Hv' & _). assert (q1 = Some p) as -> by by destruct Hv'.
    run. run_by (apply (row_ends_runs ps p q2 (row r R vals j)); [exact Hv'|exact Hrow]) as [all prev] s1 [-> Hends].
    rewrite Hlps in Hends. destruct (forallb is_end _) eqn:E2; cycle 1.
    { cbn in Hends. subst all. rewrite decide_False by (intros [_ ?]%Hspec; done). apply IH; [done|lia|done..]. }
    injection Hends as -> ->. rewrite decide_True by by apply Hspec.
    destruct (list.last (p :: ps)) as [w|] eqn:Hlast; [|by apply last_None in Hlast]. apply last_Some in Hlast as [ls Hls].
    destruct (has_variables_in _ _ w Hv) as [nx Hnx]; [rewrite Hsplit, Hls, !elem_of_app, list_elem_of_singleton; tauto|].
    run. eapply runs_next_of; [exact Hnx|].
    rewrite (take_rows r R cells j Hr HjR), Hps, Hls. rewrite !app_assoc.
    rewrite Hsplit, Hls in Hv. apply (cut_runs s _ w (drop (S j * r) (by_rows r R cells)) nx); [|exact Hnx].
    rewrite <- !app_assoc in Hv. rewrite <- !app_assoc. exact Hv.
Qed.

(** ** The whole *)

(** A GETBULK of [r] columns with [R] entries each, behind the variables that are
    not repeated. *)
Record bulk_ready s (r R : nat) (nons cells : list Z) (vals : list variable) : Prop := mkready {
  br_cells : bulk_cells s r R cells;
  br_columns : (0 < r)%nat;
  br_rows : (0 < R)%nat;
  br_repeats : errindex (a_pdu (asp s)) = Z.of_nat R;
  br_repeaters : 0 <= errstat (a_pdu (asp s)) /\ vbcount (asp s) - errstat (a_pdu (asp s)) = Z.of_nat r;
  br_list : has_variables (asp s) (nons ++ cells);
  br_vals : holds_vars (a_vars (asp s)) cells vals;
  br_requested : length (requested s) = (length nons + r)%nat
}.

Lemma runs_join (a b c : M (astate W) unit) (Q : unit -> astate W -> Prop) s : runs (a ;; b) (fun _ s => runs c Q s) s -> runs (a ;; (b ;; c)) Q s.
Proof. unfold runs, mbind, M_bind. by destruct (a s) as [[? s']|]; [destruct (b s') as [[? s'']|]|]. Qed.

Lemma seqZ_seq n : seqZ 0 (Z.of_nat n) = Z.of_nat <$> seq 0 n.
Proof. unfold seqZ. rewrite Nat2Z.id. apply list_fmap_ext. intros _ i _. lia. Qed.

Lemma by_rows_holds h h' r R cells vals k : length cells = (r * R)%nat -> holds_vars h cells vals ->
  (forall p, p ∈ take k (by_rows r R cells) -> vn_var <$> h' !! p = vn_var <$> h !! p) ->
  holds_vars h' (take k (by_rows r R cells)) (take k (by_rows r R vals)).
Proof.
  intros Hl Hh He. pose proof (list.Forall2_length _ _ _ Hh) as Hlv.
  apply Forall2_same_length_lookup_2; [by rewrite !length_take, !length_by_rows|]. intros t p v Hp Hv.
  rewrite He by (by eapply list_elem_of_lookup_2). apply lookup_take_Some in Hp as [Hp _]. apply lookup_take_Some in Hv as [Hv _].
  pose proof (lookup_lt_Some _ _ _ Hp) as Ht. rewrite length_by_rows in Ht. rewrite by_rows_lookup in Hp by done. rewrite by_rows_lookup in Hv by done.
  pose proof (place_lt r R t Ht). simplify_eq. eapply (holds_vars_lookup _ _ _ (place r R t)); [exact Hh| |]; apply list_lookup_lookup_total_lt; lia.
Qed.

Lemma reorder_runs s r R nons cells vals : bulk_ready s r R nons cells vals ->
  runs _reorder_getbulk (fun _ s' => exists h' k, k = (rows_kept r R (filled_columns (requested s) r R vals) * r)%nat /\ s' = with_vars_of s h' /\
    has_variables (asp s') (nons ++ take k (by_rows r R cells)) /\
    holds_vars h' (take k (by_rows r R cells)) (take k (by_rows r R (filled_columns (requested s) r R vals))) /\
    (forall p, p ∈ nons -> vn_var <$> h' !! p = vn_var <$> a_vars (asp s) !! p)) s.
Proof.
  intros [Hc Hr HR Hrep [He Hrs] Hv Hh _]. pose proof Hc as [Hlen Hnd _]. pose proof (list.Forall2_length _ _ _ Hh) as Hlv.
  unfold _reorder_getbulk. run. rewrite (proj2 (Z.ltb_lt _ _)), Hrep by lia. replace (Z.max 0 _) with (Z.of_nat r) by lia.
  rewrite (proj2 (Z.eqb_neq (vbcount (asp s)) 0)), (proj2 (Z.eqb_neq (Z.of_nat r) 0)) by lia. cbn [orb]. set (new := filled_columns (requested s) r R vals).
  apply runs_bind. rewrite (seqZ_seq r). run_by (apply (fix_columns_runs r R cells vals r 0 s); [lia|done|lia|exact Hh]) as _ s1 (h1 & -> & [Hl1 Ho1] & Hh1). fold new in Hh1.
  assert (Hc1 : bulk_cells (with_vars_of s h1) r R cells) by by destruct Hc.
  assert (Hin1 : forall p, p ∈ cells -> is_Some (h1 !! p)).
  { intros p Hp. apply list_elem_of_lookup in Hp as [k Hk]. destruct (Forall2_lookup_l _ _ _ _ _ Hh1 Hk) as (v & _ & Hx). by destruct (h1 !! p). }
  apply runs_join.
  run_by (exact (link_rows_runs (with_vars_of s h1) r R cells Hr HR Hc1 Hin1)) as _ s2 (h2 & -> & Hrows & Hv2 & Ho2 & Hlast). cbn in Hv2, Ho2, Hlast.
  assert (Hh2 : holds_vars h2 cells new) by (eapply list.Forall2_impl; [exact Hh1|]; intros p v; by rewrite Hv2).
  assert (Hlist : has_variables (asp (with_vars_of s h2)) (nons ++ by_rows r R cells)) by (by apply (by_rows_chain r R cells _ nons (a_vars (asp s)) h1)).
  eapply runs_mono; [rewrite seqZ_seq; apply (truncate_rows_runs (with_vars_of s h2) r R cells new nons R 0); [done|done|by destruct Hc|exact Hlist|exact Hh2]|].
  cbv beta. intros _ s3 (h3 & -> & Hlist3 & Hv3). cbn in Hv3. eexists h3, _. split_and!; [reflexivity|done| | |].
  - unfold rows_kept. destruct (list_find _ _) as [[? ?]|]; exact Hlist3.
  - apply (by_rows_holds h2); [done|done|]. intros p Hp. apply Hv3, elem_of_app. right. unfold rows_kept in Hp. by destruct (list_find _ _) as [[? ?]|].
  - intros p Hp. rewrite Hv3, Hv2 by (apply elem_of_app; by left). apply (f_equal (fmap vn_var)). apply Ho1. intros Hin.
    pose proof (chain_NoDup _ _ _ Hv) as Hnd'. apply list.NoDup_app in Hnd' as (_ & Hd & _). by apply (Hd p).
Qed.
End bulk.

(** ** The rows of RFC 3416

    Each column that has ended is named on with its last name, or, if it has no
    entry, with its own name in the request; the rows end with the first one that has
    ended in all columns. *)
Definition own_columns (orig : list variable) (n r R : nat) (vals : list variable) : list variable :=
  seq 0 r ≫= fun i => fill_end (orig !! (n + i)%nat) (take R (drop (i * R) vals)).

Definition row_over (r R : nat) (vals : list variable) (j : nat) : Prop := Forall (fun i => is_end (vals !!! (i * R + j)%nat) = true) (seq 0 r).

#[export] Instance row_over_dec r R vals j : Decision (row_over r R vals j).
Proof. unfold row_over. apply _. Defined.

Definition rows_due (r R : nat) (vals : list variable) : nat :=
  match list_find (row_over r R vals) (seq 0 R) with Some (_, j) => S j | None => R end.

(** The column [i] begins with a value. *)
Definition has_value (R : nat) (vals : list variable) (i : nat) : Prop :=
  match drop (i * R) vals with v :: _ => (vp_name_length v =? 0) || is_end v = false | [] => True end.

#[export] Instance has_value_dec R vals i : Decision (has_value R vals i).
Proof. unfold has_value. destruct (drop _ _); apply _. Defined.

(** A row that has ended in all columns but the last one has ended there, too. *)
Definition ends_together (r R : nat) (vals : list variable) : Prop := forall j, (j < R)%nat -> row_ended r R vals j -> row_over r R vals j.

(** The entries of the column [i]. *)
Definition column (R : nat) (vals : list variable) (i : nat) : list variable := take R (drop (i * R) vals).

(** The name before does not matter to a column that begins with a value. *)
Lemma fill_end_value prev prev' v vs : (vp_name_length v =? 0) || is_end v = false -> fill_end prev (v :: vs) = fill_end prev' (v :: vs).
Proof. intros H. cbn. unfold end_of. destruct prev, prev'; by rewrite ?H. Qed.

Lemma is_end_no_value v : is_end (snmp_set_var_no_value SNMP_ENDOFMIBVIEW v) = true.
Proof. done. Qed.

(** It never matters to where a column has ended. *)
Lemma fill_end_ends vs : forall p q, Forall2 (fun a b => is_end a = is_end b) (fill_end (Some p) vs) (fill_end (Some q) vs).
Proof.
  induction vs as [|v vs IH]; intros p q; cbn [fill_end]; constructor; [|apply IH]. unfold end_of. destruct (_ || _); [|done]. by rewrite !is_end_no_value.
Qed.

Lemma concat_columns (f : nat -> list variable) r R : (forall i, (i < r)%nat -> length (f i) = R) ->
  length (seq 0 r ≫= f) = (r * R)%nat /\ forall i, (i < r)%nat -> column R (seq 0 r ≫= f) i = f i.
Proof.
  intros Hf. induction r as [|r IH]; [split; [done|lia]|]. destruct IH as [Hl Hc]; [intros i Hi; apply Hf; lia|].
  rewrite seq_S, bind_app. cbn [Nat.add list_bind mbind app]. rewrite app_nil_r. split; [rewrite length_app, Hl, Hf; lia|].
  intros i Hi. unfold column. destruct (decide (i = r)) as [->|Hne].
  - rewrite drop_app_length' by lia. apply take_ge. rewrite Hf; lia.
  - rewrite drop_app_le by (rewrite Hl; nia). rewrite take_app_le by (rewrite length_drop, Hl; nia). apply Hc. lia.
Qed.

Lemma column_length r R (vals : list variable) i : length vals = (r * R)%nat -> (i < r)%nat -> length (column R vals i) = R.
Proof. intros Hl Hi. unfold column. rewrite length_take, length_drop. nia. Qed.

Section rfc.
Context (orig : list variable) (n r R : nat) (vals : list variable).
Context (Hvals : length vals = (r * R)%nat) (Horig : length orig = (n + r)%nat).
Let own := own_columns orig n r R vals.
Let out := filled_columns orig r R vals.

Lemma own_column : length own = (r * R)%nat /\ forall i, (i < r)%nat -> column R own i = fill_end (orig !! (n + i)%nat) (column R vals i).
Proof. apply concat_columns. intros i Hi. rewrite length_fill_end. by apply (column_length r). Qed.

Lemma out_column : length out = (r * R)%nat /\ forall i, (i < r)%nat -> column R out i = fill_end (orig !! i) (column R vals i).
Proof. apply concat_columns. intros i Hi. rewrite length_fill_end. by apply (column_length r). Qed.

Lemma columns_agree i : (i < r)%nat -> n = 0%nat \/ has_value R vals i -> column R out i = column R own i.
Proof.
  intros Hi H. rewrite (proj2 out_column), (proj2 own_column) by done. destruct H as [->|H]; [done|].
  unfold has_value in H. unfold column. destruct (drop (i * R) vals) as [|v vs]; [by rewrite take_nil|]. destruct R; [done|]. cbn [take]. by apply fill_end_value.
Qed.

Lemma columns_end : Forall2 (fun a b => is_end a = is_end b) out own.
Proof.
  assert (H : forall i, (i < r)%nat -> Forall2 (fun a b => is_end a = is_end b) (fill_end (orig !! i) (column R vals i)) (fill_end (orig !! (n + i)%nat) (column R vals i))).
  { intros i Hi. destruct (lookup_lt_is_Some_2 orig i) as [x ->]; [lia|]. destruct (lookup_lt_is_Some_2 orig (n + i)) as [y ->]; [lia|]. apply fill_end_ends. }
  unfold out, own, filled_columns, own_columns. fold (column R vals). clear -H. induction r as [|k IH]; [constructor|].
  rewrite seq_S, !bind_app. cbn [Nat.add list_bind mbind app]. rewrite !app_nil_r. apply Forall2_app; [apply IH; intros i Hi; apply H; lia|apply H; lia].
Qed.

Lemma ends_at k : is_end (out !!! k) = is_end (own !!! k).
Proof.
  pose proof columns_end as H. rewrite !list_lookup_total_alt. destruct (out !! k) as [x|] eqn:Hx.
  - destruct (Forall2_lookup_l _ _ _ _ _ H Hx) as (y & -> & E). exact E.
  - apply lookup_ge_None in Hx. rewrite (lookup_ge_None_2 own) by (rewrite <- (list.Forall2_length _ _ _ H); done). done.
Qed.

Lemma rows_kept_own : rows_kept r R out = rows_kept r R own.
Proof.
  unfold rows_kept. assert (E : forall j, row_ended r R out j <-> row_ended r R own j).
  { intros j. unfold row_ended. apply list.Forall_iff. intros i. by rewrite ends_at. }
  by rewrite (list_find_ext _ _ (seq 0 R) E).
Qed.
End rfc.

Lemma list_find_ext_in {A} (P Q : A -> Prop) `{forall x, Decision (P x), forall x, Decision (Q x)} (l : list A) :
  (forall x, x ∈ l -> P x <-> Q x) -> list_find P l = list_find Q l.
Proof.
  induction l as [|x l IH]; intros Heq; cbn; [done|]. rewrite IH by (intros y Hy; apply Heq; by right). pose proof (Heq x (list_elem_of_here _ _)).
  destruct (decide (P x)), (decide (Q x)); by try tauto.
Qed.

(** The code keeps no row that is not due, and all of them if the columns end together. *)
Lemma rows_kept_due r R vals : (0 < r)%nat -> (rows_kept r R vals <= rows_due r R vals)%nat /\
  (r = 1%nat \/ ends_together r R vals -> rows_kept r R vals = rows_due r R vals).
Proof.
  intros Hr. assert (Hweak : forall j, row_over r R vals j -> row_ended r R vals j).
  { intros j H. unfold row_ended, row_over in *. rewrite list.Forall_forall in *. intros i Hi. apply H. apply elem_of_seq in Hi. apply elem_of_seq. lia. }
  assert (Hle : (rows_kept r R vals <= rows_due r R vals)%nat).
  { unfold rows_kept, rows_due. destruct (list_find (row_over r R vals) (seq 0 R)) as [[a j]|] eqn:H1.
    - apply list_find_Some in H1 as (Ha & Hj & _). destruct (list_find (row_ended r R vals) (seq 0 R)) as [[b j']|] eqn:H2.
      + apply list_find_Some in H2 as (Hb & _ & Hmin). apply lookup_seq in Ha as [-> Ha], Hb as [-> Hb].
        destruct (decide (a < b)%nat) as [Hlt|]; [|lia]. exfalso. apply (Hmin a a); [rewrite lookup_seq_lt by lia; done|lia|by apply Hweak].
      + exfalso. apply list_find_None in H2. rewrite list.Forall_forall in H2. apply (H2 j); [by eapply list_elem_of_lookup_2|by apply Hweak].
    - destruct (list_find (row_ended r R vals) (seq 0 R)) as [[b j']|] eqn:H2; [|done]. apply list_find_Some in H2 as (Hb & _). apply lookup_seq in Hb. lia. }
  split; [done|]. intros H. unfold rows_kept, rows_due. assert (Heq : forall j, j ∈ seq 0 R -> row_ended r R vals j <-> row_over r R vals j).
  { intros j Hj%elem_of_seq. split; [|apply Hweak]. destruct H as [->|H]; [done|]. apply H. lia. }
  by rewrite (list_find_ext_in _ _ _ Heq).
Qed.

(** C6: what is left of a GETBULK: [_reorder_getbulk] returns, and the list then holds
    the variables that are not repeated, as they were, and behind them the entries row
    by row, a part of the rows of RFC 3416, and ends there.  Two
    things differ from these rows.  A column that has no entry at all bears the name of
    another variable of the request, if there are any that are not repeated.  The rows
    end with the first one that has ended in all columns but the last one, which is not
    looked at unless it is the only one. *)
Theorem getbulk_rows {W : Type} (s : astate W) r R nons cells vals (own := own_columns (requested s) (length nons) r R vals) :
  bulk_ready s r R nons cells vals ->
  runs _reorder_getbulk (fun _ s' => exists h' k out, s' = with_vars_of s h' /\
    has_variables (asp s') (nons ++ take (k * r) (by_rows r R cells)) /\
    (forall p, p ∈ nons -> vn_var <$> h' !! p = vn_var <$> a_vars (asp s) !! p) /\
    holds_vars h' (take (k * r) (by_rows r R cells)) (take (k * r) (by_rows r R out)) /\
    length out = (r * R)%nat /\
    (forall i, (i < r)%nat -> column R out i = (if decide (nons = [] \/ has_value R vals i) then column R own i else fill_end (requested s !! i) (column R vals i))) /\
    k = rows_kept r R own /\ (k <= rows_due r R own)%nat /\ (r = 1%nat \/ ends_together r R own -> k = rows_due r R own)) s.
Proof.
  intros Hb. pose proof Hb as [[Hlen _ _] Hr _ _ _ _ Hh Hreq]. pose proof (list.Forall2_length _ _ _ Hh) as Hlv. rewrite Hlen in Hlv. symmetry in Hlv.
  destruct (rows_kept_due r R own Hr) as [Hle Heq].
  run_by (exact (reorder_runs s r R nons cells vals Hb)) as _ s' (h' & k & -> & -> & Hl & Hv & Hn).
  rewrite (rows_kept_own _ (length nons) _ _ _ Hlv Hreq) in Hl, Hv. exists h', (rows_kept r R own), (filled_columns (requested s) r R vals).
  split_and!; try done; [by apply out_column|]. intros i Hi. case_decide as H; [|by apply out_column].
  apply (columns_agree _ (length nons)); [done..|]. destruct H as [->|H]; [by left|by right].
Qed.

(** One variable and two columns of two entries: the first column has ended at once,
    the other one has values. *)
Section example.
Let v (name : list Z) (type : Z) : variable := mkvariable name (Z.of_nat (length name)) type [] 0.
Let p (vs : list variable) : pdu := mkpdu SNMP_VERSION_2c SNMP_MSG_GETBULK 7 1 2 0 0 0 0 0 0 vs [] 0 [] 0 0 0 [0; 0; 0; 0].
Let nons : list variable := [v [1; 3; 0] ASN_INTEGER].
Let entries : list variable := [v [1; 5; 9] SNMP_ENDOFMIBVIEW; zero_variable; v [1; 6; 1] ASN_INTEGER; v [1; 6; 2] ASN_INTEGER].

Definition demo_bulk : astate unit :=
  mkastate (mkasp 100 SNMP_MSG_GETBULK 1 (p []) (Some 0)
      (list_to_map (zip (seqZ 0 5) (zip_with mkvnode (nons ++ entries) [Some 1; Some 2; Some 3; Some 4; None])))
      (p [v [1; 3] ASN_NULL; v [1; 5; 9] ASN_NULL; v [1; 6] ASN_NULL]) 0 0 0 None 0 [] None 0 (-1) [Some 1; Some 2; Some 3; Some 4; None] [] 3)
    (mkregistry ∅ [] [] 0) [] [] tt [].

Lemma demo_bulk_ready : bulk_ready demo_bulk 2 2 [0] [1; 2; 3; 4] entries.
Proof.
  constructor; try done; try lia.
  - constructor; [done|by_decide|]. intros k q Hk. do 4 (destruct k as [|k]; [exact (f_equal Some Hk)|]). done.
  - by repeat (split; [reflexivity|]; eexists; split; [vm_compute; reflexivity|]).
  - repeat (constructor; [vm_compute; reflexivity|]). constructor.
Qed.
End example.

(** The end of the first column is named after the first variable of the request,
    which is not its own one; and the second value of the other column is lost. *)
Lemma getbulk_rows_witness : exists s', _reorder_getbulk demo_bulk = Some (tt, s') /\ has_variables (asp s') [0; 1; 3] /\
  (vp_name ∘ vn_var) <$> a_vars (asp s') !! 1 = Some [1; 3] /\ is_end <$> (vn_var <$> a_vars (asp s') !! 3) = Some false.
Proof.
  destruct (runs_Some _ _ _ (getbulk_rows demo_bulk 2 2 _ _ _ demo_bulk_ready)) as ([] & s' & Hrun & h' & k & out & -> & Hl & _ & Hh & Hlen & Hcol & Hk & _).
  vm_compute in Hk. subst k. exists (with_vars_of demo_bulk h'). split; [done|]. split; [exact Hl|].
  change (take (1 * 2) (by_rows 2 2 [1; 2; 3; 4])) with [1; 3] in Hh.
  destruct out as [|a [|b [|c [|d [|]]]]]; try discriminate Hlen. change (take (1 * 2) (by_rows 2 2 [a; b; c; d])) with [a; c] in Hh.
  pose proof (Hcol 0%nat ltac:(lia)) as H0. pose proof (Hcol 1%nat ltac:(lia)) as H1. vm_compute in H0, H1. injection H0 as -> _. injection H1 as -> _.
  inversion Hh as [|? ? ? ? Ha Hh']; subst. inversion Hh' as [|? ? ? ? Hc _]; subst. change (a_vars (asp (with_vars_of demo_bulk h'))) with h'. split.
  - destruct (h' !! 1) as [m|]; [|done]. injection Ha as Ha. cbn. by rewrite Ha.
  - by rewrite Hc.
Defined.
