(* ===== verification/AgentResponse.v ===== *)
(** The response to a request, and what an SNMPv1 manager gets to see of it. *)
From Stdlib Require Import ZArith Lia.
From stdpp Require Import gmap.
From S2P Require Import Prelude StateMonad Chains Asn1Defs SnmpDefs Oid SnmpVar Pdu Vacm Registry AgentDefs.
From S2P Require Import AgentRequest AgentPasses AgentSet AgentCache AgentPrepare AgentProps AgentBulk.

(** A value SNMPv1 has no type for. *)
Definition unknown_in_v1 (v : variable) : bool := is_exception (vp_type v) || (vp_type v =? ASN_COUNTER64).

(** The index of the last one, the variables being numbered from [i]. *)
Fixpoint last_unknown (i : Z) (vs : list variable) : option Z :=
  match vs with
  | [] => None
  | v :: vs => match last_unknown (i + 1) vs with
               | Some k => Some k
               | None => if unknown_in_v1 v then Some i else None
               end
  end.

Lemma last_unknown_None vs : forall i, last_unknown i vs = None <-> Forall (fun v => unknown_in_v1 v = false) vs.
Proof.
  induction vs as [|v vs IH]; intros i; cbn; [split; [constructor|done]|]. rewrite list.Forall_cons, <- (IH (i + 1)).
  destruct (last_unknown (i + 1) vs); [intuition done|]. destruct (unknown_in_v1 v); intuition done.
Qed.

(** The errors of SNMPv1. *)
Lemma v1_set_error_known e : 0 <= e <= SNMP_ERR_INCONSISTENTNAME ->
  match v1_set_error e with Some e' => 0 < e' <= SNMP_ERR_GENERR | None => 0 <= e <= SNMP_ERR_GENERR end.
Proof.
  intros He. unfold SNMP_ERR_INCONSISTENTNAME in He. assert (Hz : Z.to_nat e ∈ seq 0 19) by (apply elem_of_seq; lia).
  rewrite <- (Z2Nat.id e) by lia. revert Hz. generalize (Z.to_nat e) as k. intros k Hk. apply elem_of_seq in Hk.
  do 19 (destruct k as [|k]; [vm_compute; intuition discriminate|]). lia.
Qed.

Section response.
Context {W : Type}.
Implicit Types s : astate W.

Lemma holds_vars_step (h : gmap Z vnode) p ps vs : holds_vars h (p :: ps) vs -> exists n vs', vs = vn_var n :: vs' /\ h !! p = Some n /\ holds_vars h ps vs'.
Proof. intros H. inversion H as [|? v ? vs' Hp Hv]; subst. apply fmap_Some in Hp as (n & Hn & ->). eauto. Qed.

Lemma collect_vars_runs vbs s : forall vs, holds_vars (a_vars (asp s)) vbs vs -> runs (collect_vars vbs) (fun l s' => l = vs /\ s' = s) s.
Proof.
  induction vbs as [|p vbs IH]; intros vs Hv; cbn [collect_vars]; [inversion Hv; by run|].
  destruct (holds_vars_step _ _ _ _ Hv) as (n & vs' & -> & Hn & Hv'). run. eapply runs_get_var; [exact Hn|]. run.
  run_by (by apply IH) as l s' [-> ->]. by run.
Qed.

Lemma v1_values_runs vbs : forall vs i st s, holds_vars (a_vars (asp s)) vbs vs ->
  runs (v1_values vbs i st) (fun r s' => match last_unknown i vs with
    | Some k => r = SNMP_ERR_NOSUCHNAME /\ s' = on_asp (fun a => set_a_index k (set_a_status SNMP_ERR_NOSUCHNAME a)) s
    | None => r = st /\ s' = s
    end) s.
Proof.
  induction vbs as [|p vbs IH]; intros vs i st s Hv; cbn [v1_values]; [inversion Hv; by run|].
  destruct (holds_vars_step _ _ _ _ Hv) as (n & vs' & -> & Hn & Hv'). run. eapply runs_get_var; [exact Hn|]. cbn [last_unknown].
  fold (unknown_in_v1 (vn_var n)). destruct (unknown_in_v1 (vn_var n)).
  - run. eapply runs_mono; [by apply IH|]. intros r s' H. by destruct (last_unknown (i + 1) vs').
  - eapply runs_mono; [by apply IH|]. intros r s' H. by destruct (last_unknown (i + 1) vs').
Qed.

(** The end of [wrap_up_response]: the variables, or the request. *)
Definition response_end (c status : Z) : M (astate W) pdu :=
  (match error_statistic status with Some e => count_statistic e | None => skip end) ;;
  s ← get;
  response ←
    (if status =? SNMP_ERR_NOERROR then
       vbs ← pdu_variables;
       snmp_increment_statistic_by (if c =? SNMP_MSG_SET then STAT_SNMPINTOTALSETVARS else STAT_SNMPINTOTALREQVARS) (Z.of_nat (length vbs)) ;;
       l ← collect_vars vbs;
       mret (set_variables l (a_pdu (asp s)))
     else mret (orig_pdu (asp s)));
  s ← get;
  mret (set_command SNMP_MSG_RESPONSE (set_errstat (a_status (asp s)) (set_errindex (a_index (asp s)) response))).

Lemma response_end_runs c status s vbs vs : has_variables (asp s) vbs -> holds_vars (a_vars (asp s)) vbs vs ->
  runs (response_end c status) (fun p _ => command p = SNMP_MSG_RESPONSE /\ errstat p = a_status (asp s) /\ errindex p = a_index (asp s) /\
    variables p = if status =? SNMP_ERR_NOERROR then vs else requested s) s.
Proof.
  intros Hv Hh. unfold response_end. run.
  apply (runs_mono _ (fun _ s' => asp s' = asp s)); [by destruct (error_statistic status); run|]. intros _ s1 E1.
  run. destruct (status =? SNMP_ERR_NOERROR).
  - run. eapply runs_pdu_variables; [rewrite E1; exact Hv|]. run. unfold snmp_increment_statistic_by. run.
    run_by (apply (collect_vars_runs vbs _ vs); cbn; rewrite E1; exact Hh) as l s2 [-> ->]. run. cbn. by rewrite E1.
  - run. rewrite E1. done.
Qed.

(** What the naming of ends leaves of a variable. *)
Definition shape (n : vnode) : option Z * Z := (next_variable n, vp_type (vn_var n)).

Lemma fix_endofmibview_shape vbs vs s : has_variables (asp s) vbs -> holds_vars (a_vars (asp s)) vbs vs ->
  runs _fix_endofmibview (fun _ s' => exists h, s' = with_vars_of s h /\ (forall p, shape <$> h !! p = shape <$> a_vars (asp s) !! p) /\
    (Forall (fun v => unknown_in_v1 v = false) vs -> h = a_vars (asp s))) s.
Proof.
  intros Hv Hh. assert (Hself : s = with_vars_of s (a_vars (asp s))) by by destruct s as [[] ? ? ? ? ?].
  unfold _fix_endofmibview. run. destruct (vbcount (asp s) =? 0); [run; by exists (a_vars (asp s))|].
  run. eapply runs_pdu_variables; [exact Hv|]. apply runs_for_each; [by exists (a_vars (asp s))|].
  intros [p o] s' Hp%elem_of_zip_l (h & -> & Hs & Hid). destruct (has_variables_in _ _ p Hv Hp) as [n Hn].
  pose proof (Hs p) as Hsp. rewrite Hn in Hsp. apply fmap_Some in Hsp as (n' & Hn' & E). injection E as _ Ety.
  run. eapply runs_get_var; [exact Hn'|]. destruct (Z.eqb_spec (vp_type (vn_var n')) SNMP_ENDOFMIBVIEW) as [Hend|_]; [|run; by exists h].
  unfold upd_var. eapply runs_upd_node; [exact Hn'|]. eexists. split; [done|]. split.
  - intros p'. cbn. destruct (decide (p' = p)) as [->|]; [|by rewrite lookup_insert_ne].
    rewrite lookup_insert_eq, <- Hs. cbn in Hn'. by rewrite Hn'.
  - intros Hall. exfalso. destruct (list_elem_of_lookup_1 _ _ Hp) as [i Hi]. destruct (Forall2_lookup_l _ _ _ _ _ Hh Hi) as (v & Hvi & Hpv).
    pose proof (Forall_lookup_1 _ _ _ _ Hall Hvi) as Hu. cbv beta in Hpv. rewrite Hn in Hpv. injection Hpv as <-.
    unfold unknown_in_v1, is_exception in Hu. rewrite Ety, Hend in Hu. discriminate.
Qed.

Lemma last_unknown_types vs vs' : vp_type <$> vs' = vp_type <$> vs -> forall i, last_unknown i vs' = last_unknown i vs.
Proof.
  revert vs'. induction vs as [|v vs IH]; intros [|v' vs'] He i; try done. injection He as Ht He. cbn. rewrite (IH vs' He).
  unfold unknown_in_v1. by rewrite Ht.
Qed.

(** The values of a response, its ends named: whether SNMPv1 has them is the same. *)
Lemma fix_endofmibview_runs vbs vs s : has_variables (asp s) vbs -> holds_vars (a_vars (asp s)) vbs vs ->
  runs _fix_endofmibview (fun _ s' => exists h vs', s' = with_vars_of s h /\ has_variables (asp s') vbs /\ holds_vars h vbs vs' /\
    last_unknown 1 vs' = last_unknown 1 vs /\ (last_unknown 1 vs = None -> vs' = vs)) s.
Proof.
  intros Hv Hh. run_by (by apply (fix_endofmibview_shape vbs vs)) as _ s' (h & -> & Hs & Hid).
  assert (Hv' : has_variables (asp (with_vars_of s h)) vbs).
  { unfold has_variables in *. eapply linked_ext; [|exact Hv]. intros p _. pose proof (f_equal (fmap fst) (Hs p)) as E. cbn in *.
    by destruct (h !! p), (a_vars (asp s) !! p). }
  assert (Hvs : exists vs', holds_vars h vbs vs' /\ vp_type <$> vs' = vp_type <$> vs).
  { clear Hid Hv Hv'. induction Hh as [|p v vbs vs Hp _ (vs' & H1 & H2)]; [by exists []; split; [constructor|]|].
    apply fmap_Some in Hp as (n & Hn & ->). pose proof (Hs p) as Hsp. rewrite Hn in Hsp. apply fmap_Some in Hsp as (n' & Hn' & E). injection E as _ Ety.
    exists (vn_var n' :: vs'). split; [by constructor; [rewrite Hn'|]|]. cbn. by rewrite H2, Ety. }
  destruct Hvs as (vs' & Hh' & Ht). destruct (last_unknown 1 vs) as [i|] eqn:E.
  - exists h, vs'. split_and!; [done|done|done| |done]. by rewrite (last_unknown_types vs vs' Ht).
  - exists (a_vars (asp s)), vs. apply last_unknown_None in E as Ha. rewrite (Hid Ha) in Hv' |- *. by split_and!.
Qed.

(** What comes behind the naming of ends, for a GET or a GETNEXT. *)
Lemma v1_get_end c st s0 vbs vs : has_variables (asp s0) vbs -> holds_vars (a_vars (asp s0)) vbs vs ->
  runs pdu_variables (fun vbs s => runs (v1_values vbs 1 st) (fun status s => runs (response_end c status) (fun p _ =>
    command p = SNMP_MSG_RESPONSE /\
    match last_unknown 1 vs with
    | Some i => variables p = requested s0 /\ errstat p = SNMP_ERR_NOSUCHNAME /\ errindex p = i
    | None => variables p = (if st =? SNMP_ERR_NOERROR then vs else requested s0) /\
              errstat p = a_status (asp s0) /\ errindex p = a_index (asp s0)
    end) s) s) s0.
Proof.
  intros Hv Hh. eapply runs_pdu_variables; [exact Hv|]. run_by (by apply (v1_values_runs vbs vs)) as r s2 H.
  destruct (last_unknown 1 vs) as [i|]; destruct H as [-> ->].
  - set (s2 := on_asp _ s0). eapply runs_mono; [exact (response_end_runs c SNMP_ERR_NOSUCHNAME s2 vbs vs Hv Hh)|].
    intros p _ (H1 & H2 & H3 & H4). by rewrite H4.
  - eapply runs_mono; [exact (response_end_runs c st s0 vbs vs Hv Hh)|]. intros p _ (H1 & H2 & H3 & H4). done.
Qed.
End response.

(** The status a response has before it is put into the words of SNMPv1. *)
Definition status_of {W} (s : astate W) (status : Z) : Z := if a_status (asp s) =? 0 then status else a_status (asp s).

(** C7: what an SNMPv1 manager is told.  The response to its GET or GETNEXT never
    has a value of a type, or an exception, that SNMPv1 lacks: if the agent found
    one, the manager gets its request back with noSuchName and the index of the
    last of them; otherwise it gets the values, or its request if there is an
    error, with the status and the index as the handlers left them -- that status
    is passed on as it is, even one SNMPv1 does not have ([get_status_as_it_is]).
    The status of a SET is translated: the manager gets an error of SNMPv1, with
    the index unchanged, and its request back if there was one. *)
Theorem v1_response_plain {W : Type} (s : astate W) vbs vs status :
  has_variables (asp s) vbs -> holds_vars (a_vars (asp s)) vbs vs -> version (a_pdu (asp s)) = SNMP_VERSION_1 ->
  command (a_pdu (asp s)) ∈ [SNMP_MSG_GET; SNMP_MSG_GETNEXT; SNMP_MSG_SET] ->
  0 <= status <= SNMP_ERR_INCONSISTENTNAME -> 0 <= a_status (asp s) <= SNMP_ERR_INCONSISTENTNAME ->
  runs (wrap_up_response status) (fun p _ => command p = SNMP_MSG_RESPONSE /\
    if command (a_pdu (asp s)) =? SNMP_MSG_SET then
      0 <= errstat p <= SNMP_ERR_GENERR /\ errindex p = a_index (asp s) /\
      errstat p = default (status_of s status) (v1_set_error (status_of s status)) /\
      variables p = (if (status =? SNMP_ERR_NOERROR) && bool_decide (v1_set_error (status_of s status) = None) then vs else requested s)
    else
      match last_unknown 1 vs with
      | Some i => variables p = requested s /\ errstat p = SNMP_ERR_NOSUCHNAME /\ errindex p = i
      | None => variables p = (if status =? SNMP_ERR_NOERROR then vs else requested s) /\
                errstat p = status_of s status /\ errindex p = a_index (asp s)
      end) s.
Proof.
  intros Hv Hh Hver Hc Hst Has. unfold wrap_up_response. run.
  set (s1 := on_asp _ s). set (st1 := status_of s status).
  assert (E1 : asp s1 = set_a_status st1 (asp s)).
  { unfold s1, st1, status_of. cbn. destruct (Z.eqb_spec (a_status (asp s)) 0) as [E|E], (Z.eqb_spec status 0); cbn; rewrite ?andb_false_r; try done;
      destruct (asp s); cbn in *; by subst. }
  assert (Hst1 : 0 <= st1 <= SNMP_ERR_INCONSISTENTNAME) by (unfold st1, status_of; destruct (a_status (asp s) =? 0); assumption).
  assert (Ep : a_pdu (asp s1) = a_pdu (asp s)) by by rewrite E1.
  assert (Hv1 : has_variables (asp s1) vbs) by by rewrite E1. assert (Hh1 : holds_vars (a_vars (asp s1)) vbs vs) by by rewrite E1.
  assert (Er : requested s1 = requested s) by (unfold requested; by rewrite E1). assert (Ei : a_index (asp s1) = a_index (asp s)) by by rewrite E1.
  assert (Es : a_status (asp s1) = st1) by by rewrite E1.
  rewrite Ep. clearbody s1. rewrite !elem_of_cons in Hc. destruct Hc as [Hc|[Hc|[Hc|[]%not_elem_of_nil]]]; rewrite Hc.
  - change (_ && (SNMP_MSG_GET <=? MODE_SET_ACTION)) with false. change (SNMP_MSG_GET =? SNMP_MSG_GETNEXT) with false. change (SNMP_MSG_GET =? SNMP_MSG_GETBULK) with false.
    cbv match. run. rewrite Ep, Hver. change (SNMP_MSG_GET =? SNMP_MSG_SET) with false. change (SNMP_VERSION_1 =? SNMP_VERSION_1) with true. cbn [negb andb]. run.
    rewrite <- Er, <- Ei, <- Es. exact (v1_get_end SNMP_MSG_GET status s1 vbs vs Hv1 Hh1).
  - change (_ && (SNMP_MSG_GETNEXT <=? MODE_SET_ACTION)) with false. change (SNMP_MSG_GETNEXT =? SNMP_MSG_GETNEXT) with true.
    cbv match. run. run_by (by apply (fix_endofmibview_runs vbs vs)) as _ s2 (h & vs' & -> & Hv2 & Hh2 & Hl & Hvs).
    run. change (a_pdu (asp (with_vars_of s1 h))) with (a_pdu (asp s1)).
    rewrite Ep, Hver. change (SNMP_MSG_GETNEXT =? SNMP_MSG_SET) with false. change (SNMP_VERSION_1 =? SNMP_VERSION_1) with true. cbn [negb andb]. run.
    rewrite <- Er, <- Ei, <- Es. pose proof (v1_get_end SNMP_MSG_GETNEXT status _ vbs vs' Hv2 Hh2) as H. rewrite Hl in H.
    destruct (last_unknown 1 vs); [exact H|]. rewrite Hvs in H by done. exact H.
  - change (_ && (SNMP_MSG_SET <=? MODE_SET_ACTION)) with false. change (SNMP_MSG_SET =? SNMP_MSG_GETNEXT) with false. change (SNMP_MSG_SET =? SNMP_MSG_GETBULK) with false.
    cbv match. run. rewrite Ep, Hver. change (SNMP_MSG_SET =? SNMP_MSG_SET) with true. change (SNMP_VERSION_1 =? SNMP_VERSION_1) with true. cbn [negb andb].
    pose proof (v1_set_error_known st1 Hst1) as Hk. rewrite Es.
    destruct (v1_set_error st1) as [e|]; [apply runs_bind, runs_modify, runs_ret|apply runs_ret]; apply runs_bind, runs_ret.
    + set (s2 := on_asp _ s1). eapply runs_mono; [exact (response_end_runs SNMP_MSG_SET e s2 vbs vs Hv1 Hh1)|].
      intros p _ (H1 & H2 & H3 & H4). rewrite H2, H3, H4, <- Ei, <- Er, andb_comm. cbn.
      rewrite (proj2 (Z.eqb_neq e SNMP_ERR_NOERROR)) by (unfold SNMP_ERR_NOERROR; lia). split_and!; [done|lia|lia|done..].
    + eapply runs_mono; [exact (response_end_runs SNMP_MSG_SET status s1 vbs vs Hv1 Hh1)|].
      intros p _ (H1 & H2 & H3 & H4). by rewrite H2, H3, H4, Es, Ei, Er, andb_comm.
Qed.

(** A GET whose second value is a Counter64. *)
Definition demo_values : list variable := [mkvariable [1; 3; 0] 3 ASN_INTEGER [] 0; mkvariable [1; 3; 1] 3 ASN_COUNTER64 [] 0; mkvariable [1; 3; 2] 3 ASN_INTEGER [] 0].

Definition demo_v1 : astate unit :=
  mkastate (mkasp 100 SNMP_MSG_GET 1 (mkpdu SNMP_VERSION_1 SNMP_MSG_GET 7 0 0 0 0 0 0 0 0 [] [] 0 [] 0 0 0 [0; 0; 0; 0]) (Some 0)
      (list_to_map (zip (seqZ 0 3) (zip_with mkvnode demo_values [Some 1; Some 2; None])))
      (mkpdu SNMP_VERSION_1 SNMP_MSG_GET 7 0 0 0 0 0 0 0 0 [] [] 0 [] 0 0 0 [0; 0; 0; 0]) 0 0 0 None 0 [] None 0 (-1) [] [] 3)
    (mkregistry ∅ [] [] 0) [] [] tt [].

Lemma v1_response_plain_witness : exists p s', wrap_up_response 0 demo_v1 = Some (p, s') /\ errstat p = SNMP_ERR_NOSUCHNAME /\ errindex p = 2 /\ variables p = [].
Proof.
  assert (Hv : has_variables (asp demo_v1) [0; 1; 2]) by by repeat (split; [reflexivity|]; eexists; split; [vm_compute; reflexivity|]).
  assert (Hh : holds_vars (a_vars (asp demo_v1)) [0; 1; 2] demo_values) by (repeat (constructor; [vm_compute; reflexivity|]); constructor).
  destruct (runs_Some _ _ _ (v1_response_plain demo_v1 [0; 1; 2] demo_values 0 Hv Hh eq_refl ltac:(by_decide) ltac:(by_decide) ltac:(by_decide)))
    as (p & s' & Hrun & _ & H1 & H2 & H3). by exists p, s'.
Defined.

(** The same with values SNMPv1 has, and a handler that answers wrongType: the
    manager is told a status SNMPv1 does not have. *)
Definition demo_v1_get : astate unit := on_asp (set_a_vars (list_to_map (zip (seqZ 0 1) [mkvnode (mkvariable [1; 3; 0] 3 ASN_INTEGER [] 0) None]))) demo_v1.

Example get_status_as_it_is : errstat <$> (fst <$> wrap_up_response SNMP_ERR_WRONGTYPE demo_v1_get) = Some SNMP_ERR_WRONGTYPE /\ SNMP_ERR_GENERR < SNMP_ERR_WRONGTYPE.
Proof. split; [by vm_compute|by_decide]. Qed.
