(* ===== verification/AgentQueueProps.v ===== *)
(** A SET is carried out alone: what waits for it, and what it waits for. *)
From Stdlib Require Import ZArith Lia.
From stdpp Require Import gmap.
From S2P Require Import Prelude StateMonad Chains Asn1Defs SnmpDefs Oid SnmpVar Pdu Vacm Registry AgentDefs AgentRequest AgentQueue.

Section queue.
Context {W : Type}.
Implicit Types s : amachine W.

(** The objects of a list, chained by [next]. *)
Definition listed s (p : option Z) (l : list Z) : Prop := chain (fun p => a_next <$> asps s !! p) p l.

Lemma runs_asp_at p a (Q : agent_session -> amachine W -> Prop) s : asps s !! p = Some a -> Q a s -> runs (asp_at p) Q s.
Proof. intros Ha HQ. unfold asp_at. run. by eapply runs_lift. Qed.

Lemma runs_upd_asp p f a (Q : unit -> amachine W -> Prop) s : asps s !! p = Some a -> Q tt (set_asps (<[p := f a]> (asps s)) s) -> runs (upd_asp p f) Q s.
Proof. intros Ha HQ. unfold upd_asp. run. eapply runs_asp_at; [done|]. by run. Qed.

Lemma runs_list_from p l (Q : list Z -> amachine W -> Prop) s : listed s p l -> Q l s -> runs (lift (list_from s p)) Q s.
Proof. intros Hl HQ. eapply runs_lift; [by apply walk_map|done]. Qed.

(** Only the link of the object [c] was changed. *)
Definition linked_to (c : Z) (n : option Z) s : amachine W := set_asps (alter (set_a_next n) c (asps s)) s.

Lemma queue_loop_runs p a l : forall c fuel s, listed s (Some c) (c :: l) -> p ∉ c :: l -> asps s !! p = Some a -> (S (length l) < fuel)%nat ->
  runs (queue_loop fuel p (Some c)) (fun _ s' => exists e, list.last (c :: l) = Some e /\ s' = linked_to e (Some p) s) s.
Proof.
  induction l as [|d l IH]; intros c [|fuel] s Hl Hp Ha Hf; try (cbn in Hf; lia); cbn [queue_loop].
  all: apply not_elem_of_cons in Hp as [Hne Hp]; rewrite (proj2 (Z.eqb_neq c p)) by congruence.
  all: destruct Hl as [_ (n & Hn & Hl)]; apply fmap_Some in Hn as (b & Hb & ->); run; eapply runs_asp_at; [exact Hb|].
  - destruct (a_next b) as [?|] eqn:Hnx; [done|]. run. eapply runs_upd_asp; [exact Hb|]. run.
    eapply runs_asp_at; [cbn; apply lookup_insert_eq|]. cbn. destruct fuel as [|fuel]; [cbn in Hf; lia|]. cbn [queue_loop]. rewrite Z.eqb_refl. run.
    exists c. split; [done|]. unfold linked_to. f_equal. apply map_eq. intros x. destruct (decide (x = c)) as [->|].
    + by rewrite lookup_insert_eq, lookup_alter_eq, Hb.
    + by rewrite lookup_insert_ne, lookup_alter_ne.
  - assert (Hnx : a_next b = Some d) by by destruct Hl. rewrite Hnx in Hl |- *. run. eapply runs_asp_at; [exact Hb|]. rewrite Hnx.
    apply IH; [done|done|done|cbn in Hf |- *; lia].
Qed.

(** Putting [p] at the end of the queue. *)
Lemma add_queued_runs p a qs s :
  asps s !! p = Some a -> a_next a = None -> listed s (netsnmp_agent_queued_list s) qs -> p ∉ qs ->
  runs (netsnmp_add_queued p) (fun _ s' => listed s' (netsnmp_agent_queued_list s') (qs ++ [p]) /\
    s' = match list.last qs with None => set_queued_list (Some p) s | Some e => linked_to e (Some p) s end) s.
Proof.
  intros Ha Hn Hl Hp. unfold netsnmp_add_queued. run. destruct qs as [|c qs].
  - unfold listed in Hl. cbn in Hl. rewrite Hl. run. split; [|done]. split; [done|]. exists None. cbn. rewrite Ha. cbn. by rewrite Hn.
  - pose proof Hl as [Hh _]. rewrite Hh. eapply runs_mono; [apply (queue_loop_runs p a qs)|].
    + rewrite <- Hh. exact Hl.
    + done.
    + done.
    + pose proof (chain_length _ _ _ _ Hl). cbn in H. lia.
    + cbv beta. intros _ s' (e & He & ->). rewrite He. split; [|done].
      pose proof He as He'. apply last_Some in He as [ls He]. rewrite He in Hl, Hp |- *. unfold listed. cbn.
      assert (Hpe : p <> e) by (intros ->; apply Hp, elem_of_app; right; by left).
      apply linked_app. exists (Some p). split.
      * eapply (linked_snoc (fun p => a_next <$> asps s !! p)); [exact Hl|by eapply chain_NoDup| |].
        -- intros z Hz. by rewrite lookup_alter_ne.
        -- rewrite lookup_alter_eq. destruct (chain_member _ _ _ e Hl) as [n Hne]; [apply elem_of_app; right; by left|]. by destruct (asps s !! e).
      * split; [done|]. exists None. rewrite lookup_alter_ne by done. rewrite Ha. cbn. by rewrite Hn.
Qed.
End queue.

(** What came to nothing but a place in the queue: no handler was called, no
    answer sent, and the delegated requests are as they were. *)
Definition only_queued {W} (s s' : amachine W) : Prop :=
  m_trace s' = m_trace s /\ m_world s' = m_world s /\ m_reg s' = m_reg s /\ m_Sets s' = m_Sets s /\ m_counters s' = m_counters s /\
  agent_delegated_list s' = agent_delegated_list s /\ forall r, set_a_next None <$> asps s' !! r = set_a_next None <$> asps s !! r.

Lemma only_queued_link {W} (s : amachine W) e n : only_queued s (linked_to e n s).
Proof.
  split_and!; try done. intros r. unfold linked_to. cbn. destruct (decide (r = e)) as [->|]; [|by rewrite lookup_alter_ne].
  rewrite lookup_alter_eq. by destruct (asps s !! e).
Qed.

(** C5: a SET is carried out alone: while one is being processed, or waits to be,
    every other request that comes in waits in a queue; and a SET that comes in
    while requests are delegated waits as well, and holds up those after it.  A
    request that has to wait goes to the end of the queue, and nothing else is done
    for it: no handler is called and nothing is answered. *)
Theorem set_excludes_others {W : Type} `{Env : AgentEnv W} fuel p a ds qs (s : amachine W) :
  asps s !! p = Some a -> a_next a = None -> listed s (agent_delegated_list s) ds -> p ∉ ds ->
  listed s (netsnmp_agent_queued_list s) qs -> p ∉ qs ->
  (exists r, netsnmp_processing_set s = Some r /\ r <> p) \/
  netsnmp_processing_set s = None /\ command (a_pdu a) = SNMP_MSG_SET /\ ds <> [] ->
  runs (netsnmp_handle_request fuel p) (fun _ s' => listed s' (netsnmp_agent_queued_list s') (qs ++ [p]) /\ only_queued s s' /\
    netsnmp_processing_set s' = Some (default p (netsnmp_processing_set s))) s.
Proof.
  intros Ha Hn Hds Hpd Hqs Hpq Hw. unfold netsnmp_handle_request, netsnmp_check_delegated_chain_for. run.
  eapply runs_list_from; [done|]. run. rewrite bool_decide_false by done. eapply runs_asp_at; [done|]. cbn [negb andb].
  destruct Hw as [(r & Hset & Hr)|(Hset & Hcmd & Hne)]; rewrite Hset.
  - rewrite bool_decide_false by congruence. cbn [negb]. run.
    run_by (by apply (add_queued_runs p a qs)) as _ s' [Hq ->]. run. split_and!; [exact Hq| |by destruct (list.last qs)].
    destruct (list.last qs); [apply only_queued_link|done].
  - rewrite bool_decide_false by done. cbn [negb]. rewrite Hcmd, Z.eqb_refl. run.
    destruct (agent_delegated_list s) as [d|] eqn:Hd; [|destruct ds; [done|by destruct Hds]].
    set (s1 := set_processing_set (Some p) s). run.
    run_by (by apply (add_queued_runs p a qs s1)) as _ s' [Hq ->]. run. split_and!; [exact Hq| |by destruct (list.last qs)].
    destruct (list.last qs) as [e|]; [exact (only_queued_link s1 e (Some p))|done].
Qed.

#[local] Instance quiet_env : AgentEnv unit := {
  registration _ := mkreginfo [] 0;
  run_method _ _ _ w := (fun _ => mkreply 0 0 0 zero_variable, 0, w);
  acm_check _ := VACM_SUCCESS;
  acm_check_initial _ := 0;
  snmp_send _ _ w := (0, 0, w);
  max_getbulk_repeats := 0;
  max_getbulk_responses := 0;
  context_name _ := [];
  netsnmp_running _ := true
}.

Definition idle_session (c : Z) : agent_session :=
  let v := mkpdu SNMP_VERSION_2c c 7 0 0 0 0 0 0 0 0 [] [] 0 [] 0 0 0 [0; 0; 0; 0] in
  mkasp 100 0 1 v None ∅ v 0 0 0 None 0 [] None 0 (-1) [] [] 0.

(** A SET at 1 that is delegated, a GET at 3 that waits for it, and a GET at 2
    that has just come in. *)
Definition busy : amachine unit :=
  mkamachine (<[1 := idle_session SNMP_MSG_SET]> (<[3 := idle_session SNMP_MSG_GET]> {[2 := idle_session SNMP_MSG_GET]}))
    (Some 1) (Some 3) (Some 1) (mkregistry ∅ [] [] 0) [] (replicate 50 0) tt [].

Lemma set_excludes_others_witness : exists s', netsnmp_handle_request 0 2 busy = Some (tt, s') /\
  list_from s' (netsnmp_agent_queued_list s') = Some [3; 2] /\ only_queued busy s' /\ netsnmp_processing_set s' = Some 1.
Proof.
  destruct (runs_Some _ _ _ (set_excludes_others 0 2 (idle_session SNMP_MSG_GET) [1] [3] busy eq_refl eq_refl
    ltac:(repeat (split; [done|]; eexists; split; [reflexivity|]); done) ltac:(by_decide)
    ltac:(repeat (split; [done|]; eexists; split; [reflexivity|]); done) ltac:(by_decide)
    ltac:(left; by exists 1))) as ([] & s' & Hrun & Hl & Ho & Hp).
  exists s'. split_and!; [done|by apply walk_map|done|done].
Defined.
