(* ===== verification/Alarms.v ===== *)
(** Alarms, [snmplib/snmp_alarm.c]: functions of clients that are called after an
    interval, once or again and again.  The list [thealarms] is that of the nodes
    with their addresses; an address that is not in it is one the code must not
    follow.  A client's function is a program of calls of this interface. *)
From Stdlib Require Import ZArith Lia.
From stdpp Require Import base list.
From S2P Require Import Prelude StateMonad SnmpDefs Timeval.


Definition SA_REPEAT : Z := 0x01.
Definition SA_FIRED : Z := 0x10.

(** [struct snmp_alarm] *)
Record snmp_alarm : Type := mkalarm {
  t : timeval;
  flags : Z;
  clientreg : Z;
  t_lastM : timeval;
  t_nextM : timeval;
  clientarg : Z;
  thecallback : Z
}.

Definition set_t_lastM (x : timeval) (a : snmp_alarm) : snmp_alarm :=
  mkalarm (t a) (flags a) (clientreg a) x (t_nextM a) (clientarg a) (thecallback a).
Definition set_t_nextM (x : timeval) (a : snmp_alarm) : snmp_alarm :=
  mkalarm (t a) (flags a) (clientreg a) (t_lastM a) x (clientarg a) (thecallback a).
Definition set_alarm_flags (x : Z) (a : snmp_alarm) : snmp_alarm :=
  mkalarm (t a) x (clientreg a) (t_lastM a) (t_nextM a) (clientarg a) (thecallback a).

Definition repeats (a : snmp_alarm) : bool := has_flag (flags a) SA_REPEAT.
Definition fired (a : snmp_alarm) : bool := has_flag (flags a) SA_FIRED.

Abbreviation node := (Z * snmp_alarm)%type.

(** What is seen from outside: an alarm got a number, a function was called, the
    timer of the process was set. *)
Inductive event : Type :=
| Registered (clientreg : Z)
| Ran (clientreg clientarg : Z) (t_now : timeval)
| Timer (it_value : timeval).

(** The static variables, the world and the trace, last event first. *)
Record alarms (W : Type) : Type := mkalarms {
  thealarms : list node;
  start_alarms : bool;
  regnum : Z;
  world : W;
  trace : list event
}.
Arguments mkalarms {W}. Arguments thealarms {W}. Arguments start_alarms {W}. Arguments regnum {W}. Arguments world {W}. Arguments trace {W}.

(** A function of a client: calls of the interface, which may depend on what they
    return, and steps in the client's own world. *)
Inductive sa_call : Type :=
| CallRegister (when flags thecallback clientarg : Z)
| CallRegisterHr (t : timeval) (flags cb cd : Z)
| CallUnregister (clientreg : Z)
| CallUnregisterAll
| CallReset (clientreg : Z)
| CallSetAnAlarm
| CallRunAlarms.

Inductive client (W : Type) : Type :=
| Return
| Call (c : sa_call) (k : Z -> client W)
| World (f : W -> W) (k : W -> client W).
Arguments Return {W}. Arguments Call {W}. Arguments World {W}.

(** The monotonic clock, [malloc] with the addresses that are taken, the functions
    of the clients and the setting [NETSNMP_DS_LIB_ALARM_DONT_USE_SIG]. *)
Class AlarmEnv (W : Type) : Type := {
  netsnmp_get_monotonic_clock : W -> timeval * W;
  malloc : list Z -> W -> option Z * W;
  function : Z -> Z -> Z -> client W;
  dont_use_sig : W -> bool
}.

Section setters.
Context {W : Type}.
Implicit Types s : alarms W.
Definition set_thealarms (x : list node) s : alarms W := mkalarms x (start_alarms s) (regnum s) (world s) (trace s).
Definition set_start_alarms (x : bool) s : alarms W := mkalarms (thealarms s) x (regnum s) (world s) (trace s).
Definition set_regnum (x : Z) s : alarms W := mkalarms (thealarms s) (start_alarms s) x (world s) (trace s).
Definition set_world (x : W) s : alarms W := mkalarms (thealarms s) (start_alarms s) (regnum s) x (trace s).
Definition log (e : event) s : alarms W := mkalarms (thealarms s) (start_alarms s) (regnum s) (world s) (e :: trace s).
End setters.

(** * The list *)

(** The node at an address, and a change of it. *)
Fixpoint alarm_node_at (p : Z) (l : list node) : option snmp_alarm :=
  match l with
  | [] => None
  | (q, a) :: l => if p =? q then Some a else alarm_node_at p l
  end.

Fixpoint on_node (f : snmp_alarm -> snmp_alarm) (p : Z) (l : list node) : list node :=
  match l with
  | [] => []
  | (q, a) :: l => if p =? q then (q, f a) :: l else (q, a) :: on_node f p l
  end.

(** The loop of [snmp_alarm_unregister]. *)
Fixpoint unlink_alarm (id : Z) (l : list node) : list node :=
  match l with
  | [] => []
  | (q, a) :: l => if clientreg a =? id then l else (q, a) :: unlink_alarm id l
  end.

(** The loop of [sa_find_next]. *)
Fixpoint find_next (l : list node) (lowest : option node) : option node :=
  match l with
  | [] => lowest
  | (q, a) :: l =>
    let lower := match lowest with None => true | Some (_, b) => timercmp_lt (t_nextM a) (t_nextM b) end in
    find_next l (if negb (fired a) && lower then Some (q, a) else lowest)
  end.

(** The loop of [sa_find_specific]. *)
Fixpoint find_specific (id : Z) (l : list node) : option Z :=
  match l with
  | [] => None
  | (q, a) :: l => if clientreg a =? id then Some q else find_specific id l
  end.

(** * The functions *)

Section functions.
Context {W : Type} `{Env : AlarmEnv W}.
Abbreviation sa A := (M (alarms W) A).

Definition read_clock : sa timeval :=
  s ← get; let '(now, w) := netsnmp_get_monotonic_clock (world s) in modify (set_world w);; mret now.

Definition alarm_at (p : Z) : sa snmp_alarm := s ← get; lift (alarm_node_at p (thealarms s)).

(** [a->field = ...] *)
Definition update_alarm (p : Z) (f : snmp_alarm -> snmp_alarm) : sa unit :=
  _ ← alarm_at p; modify (fun s => set_thealarms (on_node f p (thealarms s)) s).

Definition snmp_alarm_unregister (id : Z) : sa unit := modify (fun s => set_thealarms (unlink_alarm id (thealarms s)) s).

Definition snmp_alarm_unregister_all : sa unit := modify (set_thealarms []).

Definition sa_find_next : sa (option Z) := gets (fun s => fst <$> find_next (thealarms s) None).

Definition sa_find_specific (id : Z) : sa (option Z) := gets (fun s => find_specific id (thealarms s)).

Definition sa_update_entry (p : Z) : sa unit :=
  a ← alarm_at p;
  if negb (timerisset (t_lastM a)) then
    now ← read_clock;
    update_alarm p (set_t_lastM now);;
    next ← lift (NETSNMP_TIMERADD now (t a));
    update_alarm p (set_t_nextM next)
  else if negb (timerisset (t_nextM a)) then
    if repeats a then
      if timerisset (t a) then
        next ← lift (NETSNMP_TIMERADD (t_lastM a) (t a));
        update_alarm p (set_t_nextM next)
      else snmp_alarm_unregister (clientreg a)
    else snmp_alarm_unregister (clientreg a)
  else skip.

(** The time of the next alarm and its number; zero if there is none. *)
Definition netsnmp_get_next_alarm_time (now : timeval) : sa (option timeval * Z) :=
  o ← sa_find_next;
  match o with
  | Some p =>
    a ← alarm_at p;
    mret (Some (if timercmp_lt now (t_nextM a) then t_nextM a else now), s32 (clientreg a))
  | None => mret (None, 0)
  end.

Definition get_next_alarm_delay_time : sa (option timeval * Z) :=
  t_now ← read_clock;
  r ← netsnmp_get_next_alarm_time t_now;
  match r with
  | (Some alarm_tm, res) =>
    if negb (res =? 0) then
      delta ← lift (NETSNMP_TIMERSUB alarm_tm t_now);
      mret (Some delta, res)
    else mret (None, res)
  | (None, res) => mret (None, res)
  end.

Definition set_an_alarm : sa unit :=
  r ← get_next_alarm_delay_time;
  s ← get;
  match r with
  | (Some delta, nextalarm) => when (negb (nextalarm =? 0) && negb (dont_use_sig (world s))) (modify (log (Timer delta)))
  | (None, _) => skip
  end.

Definition init_snmp_alarm : sa unit := modify (set_start_alarms false).

Definition init_alarm_post_config : sa Z := modify (set_start_alarms true);; set_an_alarm;; mret SNMPERR_SUCCESS.

Definition snmp_alarm_register_hr (t : timeval) (flags : Z) (cb cd : Z) : sa Z :=
  s ← get;
  let '(o, w) := malloc (fst <$> thealarms s) (world s) in
  modify (set_world w);;
  match o with
  | None => mret 0
  | Some p =>
    let id := regnum s in
    modify (fun s => set_thealarms (thealarms s ++ [(p, mkalarm t flags id zero_time zero_time cd cb)]) s);;
    modify (set_regnum (u32 (id + 1)));;
    modify (log (Registered id));;
    sa_update_entry p;;
    s ← get;
    when (start_alarms s) set_an_alarm;;
    a ← alarm_at p;
    mret (clientreg a)
  end.

Definition snmp_alarm_register (when_ flags : Z) (cb cd : Z) : sa Z :=
  let t := if 0 =? when_ then mktimeval 0 1 else mktimeval when_ 0 in
  snmp_alarm_register_hr t flags cb cd.

Definition snmp_alarm_reset (id : Z) : sa Z :=
  o ← sa_find_specific id;
  match o with
  | Some p =>
    t_now ← read_clock;
    update_alarm p (set_t_lastM t_now);;
    update_alarm p (set_t_nextM zero_time);;
    a ← alarm_at p;
    next ← lift (NETSNMP_TIMERADD t_now (t a));
    update_alarm p (set_t_nextM next);;
    mret 0
  | None => mret (-1)
  end.

(** A client's function; [run] is [run_alarms].  The result says that it has come
    to its end. *)
Definition call_alarm_api (run : sa bool) (c : sa_call) : sa (option Z) :=
  match c with
  | CallRegister when_ fl cb cd => id ← snmp_alarm_register when_ fl cb cd; mret (Some id)
  | CallRegisterHr t fl cb cd => id ← snmp_alarm_register_hr t fl cb cd; mret (Some id)
  | CallUnregister id => snmp_alarm_unregister id;; mret (Some 0)
  | CallUnregisterAll => snmp_alarm_unregister_all;; mret (Some 0)
  | CallReset id => rc ← snmp_alarm_reset id; mret (Some rc)
  | CallSetAnAlarm => set_an_alarm;; mret (Some 0)
  | CallRunAlarms => ended ← run; mret (if ended : bool then Some 0 else None)
  end.

Fixpoint execute (run : sa bool) (c : client W) : sa bool :=
  match c with
  | Return => mret true
  | Call o k => r ← call_alarm_api run o; match r with Some x => execute run (k x) | None => mret false end
  | World f k => s ← get; modify (set_world (f (world s)));; execute run (k (world s))
  end.

(** What [run_alarms] does with an alarm that is due. *)
Definition start_alarm (p : Z) (t_now : timeval) : sa (client W * Z) :=
  a ← alarm_at p;
  update_alarm p (fun a => set_alarm_flags (Z.lor (flags a) SA_FIRED) a);;
  modify (log (Ran (clientreg a) (clientarg a) t_now));;
  mret (function (thecallback a) (clientreg a) (clientarg a), clientreg a).

Definition end_alarm (id : Z) (t_now : timeval) : sa unit :=
  o ← sa_find_specific id;
  match o with
  | Some p =>
    update_alarm p (set_t_lastM t_now);;
    update_alarm p (set_t_nextM zero_time);;
    update_alarm p (fun a => set_alarm_flags (Z.land (flags a) (Z.lnot SA_FIRED)) a);;
    sa_update_entry p
  | None => skip
  end.

(** [turns] bounds the functions called, one inside the other or one after the
    other; [false] if they were not enough. *)
Fixpoint run_alarms (turns : nat) : sa bool :=
  match turns with
  | O => mret false
  | S turns =>
    o ← sa_find_next;
    match o with
    | None => mret true
    | Some p =>
      t_now ← read_clock;
      a ← alarm_at p;
      if timercmp_lt t_now (t_nextM a) then mret true
      else
        r ← start_alarm p t_now;
        ended ← execute (run_alarms turns) r.1;
        if ended : bool then end_alarm r.2 t_now;; run_alarms turns else mret false
    end
  end.

Definition alarm_handler (turns : nat) : sa bool := ended ← run_alarms turns; when ended set_an_alarm;; mret ended.
End functions.
