(* ===== verification/AlarmProps.v ===== *)
(** The list of alarms: what its searches and changes do, what each function of
    [Alarms] makes of it, and that the list stays in order whatever the clients'
    functions do. *)
From Stdlib Require Import ZArith Lia.
From stdpp Require Import base sets list sorting.
From S2P Require Import Prelude StateMonad SnmpDefs Timeval Alarms.

Implicit Types (l : list node) (a : snmp_alarm) (p id : Z).

Abbreviation addresses l := (fst <$> l).
Abbreviation ids l := ((fun n : node => clientreg n.2) <$> l).

(** * Searches and changes *)

Lemma node_at_elem p a l : alarm_node_at p l = Some a -> (p, a) ∈ l.
Proof.
  induction l as [|[q b] l IH]; cbn [alarm_node_at]; [done|]. destruct (Z.eqb_spec p q) as [->|].
  - intros [= ->]. by left.
  - intros H. right. by apply IH.
Qed.

Lemma node_at_app l1 p a l2 : p ∉ addresses l1 -> alarm_node_at p (l1 ++ (p, a) :: l2) = Some a.
Proof.
  induction l1 as [|[q b] l1 IH]; cbn [alarm_node_at app fmap list_fmap fst].
  - by rewrite Z.eqb_refl.
  - intros [Hq Hn]%not_elem_of_cons. by rewrite (proj2 (Z.eqb_neq _ _) Hq), IH.
Qed.

Lemma on_node_app f l1 p a l2 : p ∉ addresses l1 -> on_node f p (l1 ++ (p, a) :: l2) = l1 ++ (p, f a) :: l2.
Proof.
  induction l1 as [|[q b] l1 IH]; cbn [on_node app fmap list_fmap fst].
  - by rewrite Z.eqb_refl.
  - intros [Hq Hn]%not_elem_of_cons. by rewrite (proj2 (Z.eqb_neq _ _) Hq), IH.
Qed.

Lemma unlink_app id l1 p a l2 : id ∉ ids l1 -> clientreg a = id -> unlink_alarm id (l1 ++ (p, a) :: l2) = l1 ++ l2.
Proof.
  intros Hn Ha. induction l1 as [|[q b] l1 IH]; cbn [unlink_alarm app].
  - by rewrite (proj2 (Z.eqb_eq _ _) Ha).
  - apply not_elem_of_cons in Hn as [Hq Hn]. cbn in Hq. rewrite (proj2 (Z.eqb_neq (clientreg b) id)) by congruence. by rewrite IH.
Qed.

Lemma unlink_sublist id l : unlink_alarm id l `sublist_of` l.
Proof.
  induction l as [|[q a] l IH]; cbn [unlink_alarm]; [done|]. destruct (clientreg a =? id); [by apply sublist_cons|by apply sublist_skip].
Qed.

(** The nodes up to the first with a number. *)
Lemma find_specific_Some id p l : find_specific id l = Some p ->
  exists l1 a l2, l = l1 ++ (p, a) :: l2 /\ clientreg a = id /\ id ∉ ids l1.
Proof.
  induction l as [|[q b] l IH]; cbn [find_specific]; [done|]. destruct (Z.eqb_spec (clientreg b) id) as [Hb|Hb].
  - intros [= ->]. exists [], b, l. split; [done|]. split; [done|]. apply not_elem_of_nil.
  - intros (l1 & a & l2 & -> & Ha & Hn)%IH. exists ((q, b) :: l1), a, l2. split; [done|]. split; [done|].
    apply not_elem_of_cons. cbn. split; [congruence|done].
Qed.

Lemma find_specific_app id l1 p a l2 : id ∉ ids l1 -> clientreg a = id -> find_specific id (l1 ++ (p, a) :: l2) = Some p.
Proof.
  intros Hn Ha. induction l1 as [|[q b] l1 IH]; cbn [find_specific app].
  - by rewrite (proj2 (Z.eqb_eq _ _) Ha).
  - apply not_elem_of_cons in Hn as [Hq Hn]. cbn in Hq. rewrite (proj2 (Z.eqb_neq (clientreg b) id)) by congruence. by rewrite IH.
Qed.

Lemma find_specific_None id l : find_specific id l = None <-> id ∉ ids l.
Proof.
  induction l as [|[q b] l IH]; cbn [find_specific fmap list_fmap].
  - split; [intros _; apply not_elem_of_nil|done].
  - rewrite not_elem_of_cons, <- IH. cbn. destruct (Z.eqb_spec (clientreg b) id) as [Hb|Hb].
    + split; [done|]. by intros [[] _].
    + split; [intros H; split; [congruence|done]|by intros [_ H]].
Qed.

(** [a] comes before [b], and not after it. *)
Definition earlier a b : Prop := micros (t_nextM a) < micros (t_nextM b).
Definition no_later a b : Prop := micros (t_nextM a) <= micros (t_nextM b).

Definition timed (n : node) : Prop := normalized (t_nextM n.2).

(** The search for the next alarm finds the first of the earliest. *)
Definition first_of l1 (p : Z) a l2 : Prop :=
  fired a = false /\ Forall (fun n => fired n.2 = false -> earlier a n.2) l1 /\ Forall (fun n => fired n.2 = false -> no_later a n.2) l2.

Lemma find_next_from l : forall l0 p a l1, Forall timed (l0 ++ (p, a) :: l1 ++ l) -> first_of l0 p a l1 ->
  exists k1 q b k2, find_next l (Some (p, a)) = Some (q, b) /\ l0 ++ (p, a) :: l1 ++ l = k1 ++ (q, b) :: k2 /\ first_of k1 q b k2.
Proof.
  induction l as [|[q b] l IH]; intros l0 p a l1 Ht (Hf & H0 & H1); cbn [find_next].
  - exists l0, p, a, l1. by rewrite app_nil_r.
  - assert (timed (p, a) /\ timed (q, b)) as [Hp Hq] by (rewrite list.Forall_forall in Ht; split; apply Ht; set_solver).
    rewrite timercmp_lt_spec by done. destruct (fired b) eqn:Hfb; cbn [negb andb].
    + replace (l0 ++ (p, a) :: l1 ++ (q, b) :: l) with (l0 ++ (p, a) :: (l1 ++ [(q, b)]) ++ l) in * by (by rewrite <- (app_assoc l1)).
      apply IH; [done|]. split; [done|]. split; [done|]. apply Forall_app. split; [done|]. constructor; [cbn; congruence|done].
    + destruct (Z.ltb_spec (micros (t_nextM b)) (micros (t_nextM a))) as [Hlt|Hge].
      * replace (l0 ++ (p, a) :: l1 ++ (q, b) :: l) with ((l0 ++ (p, a) :: l1) ++ (q, b) :: [] ++ l) in * by (by rewrite <- (app_assoc l0)).
        apply IH; [done|]. split; [done|]. split; [|done]. unfold earlier, no_later in *. apply Forall_app. split.
        -- eapply list.Forall_impl; [exact H0|]. cbn. intros n Hn Hfn. specialize (Hn Hfn). lia.
        -- constructor; [done|]. eapply list.Forall_impl; [exact H1|]. cbn. intros n Hn Hfn. specialize (Hn Hfn). lia.
      * replace (l0 ++ (p, a) :: l1 ++ (q, b) :: l) with (l0 ++ (p, a) :: (l1 ++ [(q, b)]) ++ l) in * by (by rewrite <- (app_assoc l1)).
        apply IH; [done|]. split; [done|]. split; [done|]. apply Forall_app. split; [done|]. constructor; [intros _; exact Hge|done].
Qed.

Lemma find_next_spec l : Forall timed l ->
  match find_next l None with
  | None => Forall (fun n => fired n.2 = true) l
  | Some (p, a) => exists l1 l2, l = l1 ++ (p, a) :: l2 /\ first_of l1 p a l2
  end.
Proof.
  assert (forall l0 l, Forall timed (l0 ++ l) -> Forall (fun n : node => fired n.2 = true) l0 ->
    match find_next l None with
    | None => Forall (fun n => fired n.2 = true) (l0 ++ l)
    | Some (p, a) => exists l1 l2, l0 ++ l = l1 ++ (p, a) :: l2 /\ first_of l1 p a l2
    end) as Hgen; [|intros Ht; by apply (Hgen [])].
  clear l. intros l0 l. revert l0. induction l as [|[q b] l IH]; intros l0 Ht H0; cbn [find_next].
  - by rewrite app_nil_r.
  - destruct (fired b) eqn:Hfb; cbn [negb andb].
    + rewrite (cons_middle _ l0), app_assoc in *. apply IH; [done|]. apply Forall_app. split; [done|]. by constructor.
    + destruct (find_next_from l l0 q b []) as (k1 & r & c & k2 & -> & Heq & Hfirst); [done| |by eauto].
      split; [done|]. split; [|done]. eapply list.Forall_impl; [exact H0|]. cbn. congruence.
Qed.

(** * Steps of the functions *)


Section steps.
Context {W : Type} `{Env : AlarmEnv W}.
Implicit Types s : alarms W.

Lemma alarm_at_eq p a l1 l2 s : thealarms s = l1 ++ (p, a) :: l2 -> p ∉ addresses l1 -> alarm_at p s = Some (a, s).
Proof. intros Hl Hp. unfold alarm_at. erewrite bind_Some by done. unfold lift. by rewrite Hl, node_at_app. Qed.

Lemma update_alarm_eq f p a l1 l2 s : thealarms s = l1 ++ (p, a) :: l2 -> p ∉ addresses l1 ->
  update_alarm p f s = Some (tt, set_thealarms (l1 ++ (p, f a) :: l2) s).
Proof. intros Hl Hp. unfold update_alarm. erewrite bind_Some by (by eapply alarm_at_eq). unfold modify. by rewrite Hl, on_node_app. Qed.

Lemma clock_eq s : read_clock s = Some ((netsnmp_get_monotonic_clock (world s)).1, set_world (netsnmp_get_monotonic_clock (world s)).2 s).
Proof. unfold read_clock. erewrite bind_Some by done. by destruct (netsnmp_get_monotonic_clock (world s)). Qed.

Lemma find_next_eq s : sa_find_next s = Some (fst <$> find_next (thealarms s) None, s).
Proof. done. Qed.

Lemma unregister_eq p a l1 l2 s : thealarms s = l1 ++ (p, a) :: l2 -> clientreg a ∉ ids l1 ->
  snmp_alarm_unregister (clientreg a) s = Some (tt, set_thealarms (l1 ++ l2) s).
Proof. intros Hl Hn. unfold snmp_alarm_unregister, modify. by rewrite Hl, unlink_app. Qed.

(** * The functions *)

Definition time_add (x y : timeval) : timeval := default zero_time (NETSNMP_TIMERADD x y).

Lemma time_add_spec x y : sane x -> sane y ->
  NETSNMP_TIMERADD x y = Some (time_add x y) /\ normalized (time_add x y) /\ 0 <= tv_sec (time_add x y) < 2 ^ 63 /\ micros (time_add x y) = micros x + micros y.
Proof. intros Hx Hy. destruct (timeradd_spec x y Hx Hy) as (c & Hc & H). unfold time_add. by rewrite Hc. Qed.

(** An alarm as it is when its function has returned; gone unless it is to run again. *)
Definition rearmed (now : timeval) (n : node) : list node :=
  let '(p, a) := n in
  if repeats a && timerisset (t a) then
    [(p, mkalarm (t a) (Z.land (flags a) (Z.lnot SA_FIRED)) (clientreg a) now (time_add now (t a)) (clientarg a) (thecallback a))]
  else [].

Lemma repeats_unfired fl : has_flag (Z.land fl (Z.lnot SA_FIRED)) SA_REPEAT = has_flag fl SA_REPEAT.
Proof. unfold has_flag. by rewrite <- Z.land_assoc. Qed.

Lemma unfired_fired fl : has_flag fl SA_FIRED = false -> Z.land (Z.lor fl SA_FIRED) (Z.lnot SA_FIRED) = fl.
Proof.
  unfold has_flag. intros H%negb_false_iff%Z.eqb_eq. rewrite <- Z.ldiff_land. apply Z.bits_inj'. intros i Hi.
  apply (f_equal (fun x => Z.testbit x i)) in H. rewrite Z.land_spec, Z.bits_0 in H. rewrite Z.ldiff_spec, Z.lor_spec.
  by destruct (Z.testbit fl i), (Z.testbit SA_FIRED i).
Qed.

Lemma end_alarm_eq id now p a l1 l2 s : thealarms s = l1 ++ (p, a) :: l2 -> p ∉ addresses l1 -> clientreg a = id -> id ∉ ids l1 ->
  sane now -> timerisset now = true -> sane (t a) ->
  end_alarm id now s = Some (tt, set_thealarms (l1 ++ rearmed now (p, a) ++ l2) s).
Proof.
  intros Hl Hp Ha Hid Hnow Hset Ht. unfold end_alarm.
  step (unfold sa_find_specific, gets; rewrite Hl; erewrite find_specific_app by done; done).
  do 3 step (by eapply update_alarm_eq). unfold sa_update_entry. step (by eapply alarm_at_eq).
  cbn [t_lastM t_nextM t clientreg flags set_alarm_flags set_t_nextM set_t_lastM]. rewrite Hset. change (timerisset zero_time) with false. cbn [negb].
  unfold repeats at 1, rearmed, repeats. cbn [flags set_alarm_flags set_t_nextM set_t_lastM].
  rewrite repeats_unfired. subst id. destruct (has_flag (flags a) SA_REPEAT), (timerisset (t a)); cbn [andb];
    try by erewrite (unregister_eq _ (set_alarm_flags _ (set_t_nextM _ (set_t_lastM _ a)))) by done.
  destruct (time_add_spec now (t a)) as [Hadd _]; [done..|]. erewrite bind_lift by done. by erewrite update_alarm_eq by done.
Qed.

(** [snmp_alarm_reset] *)
Lemma reset_eq id p a l1 l2 s (now := (netsnmp_get_monotonic_clock (world s)).1) :
  thealarms s = l1 ++ (p, a) :: l2 -> p ∉ addresses l1 -> clientreg a = id -> id ∉ ids l1 -> sane now -> sane (t a) ->
  snmp_alarm_reset id s =
    Some (0, set_thealarms (l1 ++ (p, set_t_nextM (time_add now (t a)) (set_t_lastM now a)) :: l2) (set_world (netsnmp_get_monotonic_clock (world s)).2 s)).
Proof.
  intros Hl Hp Ha Hid Hnow Ht. unfold snmp_alarm_reset.
  step (unfold sa_find_specific, gets; rewrite Hl; erewrite find_specific_app by done; done).
  step (apply clock_eq). fold now. do 2 step (by eapply update_alarm_eq). step (by eapply alarm_at_eq). cbn [t set_t_nextM set_t_lastM].
  destruct (time_add_spec now (t a)) as [Hadd _]; [done..|]. erewrite bind_lift by done. cbv beta. by step (by eapply update_alarm_eq).
Qed.

(** The time until an alarm. *)
Definition delay (now : timeval) a : timeval :=
  default zero_time (NETSNMP_TIMERSUB (if timercmp_lt now (t_nextM a) then t_nextM a else now) now).

(** Times the code can calculate with. *)
Definition times_ok (n : node) : Prop :=
  sane (t n.2) /\ normalized (t_nextM n.2) /\ 0 <= tv_sec (t_nextM n.2) < 2 ^ 63.

Lemma times_timed l : Forall times_ok l -> Forall timed l.
Proof. intros H. eapply list.Forall_impl; [exact H|]. by intros n (_ & ? & _). Qed.

Lemma delay_spec now p a : sane now -> times_ok (p, a) ->
  NETSNMP_TIMERSUB (if timercmp_lt now (t_nextM a) then t_nextM a else now) now = Some (delay now a) /\
  normalized (delay now a) /\ micros (delay now a) = Z.max 0 (micros (t_nextM a) - micros now).
Proof.
  intros Hnow (_ & Hn & Hs). cbn in *. unfold delay. rewrite timercmp_lt_spec by (done || apply Hnow).
  destruct (Z.ltb_spec (micros now) (micros (t_nextM a))).
  - destruct (timersub_spec (t_nextM a) now) as (c & -> & Hc & _ & Hm); [done..|lia|]. cbn. split; [done|]. split; [done|]. lia.
  - destruct (timersub_spec now now) as (c & -> & Hc & _ & Hm); [apply Hnow|destruct Hnow; lia|done|lia|]. cbn. split; [done|]. split; [done|]. lia.
Qed.

(** What [get_next_alarm_delay_time] gives. *)
Definition next_delay (now : timeval) l : option timeval * Z :=
  match find_next l None with
  | Some (_, a) => let id := s32 (clientreg a) in if id =? 0 then (None, id) else (Some (delay now a), id)
  | None => (None, 0)
  end.

Lemma next_delay_eq s : NoDup (addresses (thealarms s)) -> Forall times_ok (thealarms s) -> (forall w, sane (netsnmp_get_monotonic_clock w).1) ->
  get_next_alarm_delay_time s =
    Some (next_delay (netsnmp_get_monotonic_clock (world s)).1 (thealarms s), set_world (netsnmp_get_monotonic_clock (world s)).2 s).
Proof.
  intros Hnd Ht Hck. unfold get_next_alarm_delay_time. step (apply clock_eq). set (now := (netsnmp_get_monotonic_clock (world s)).1).
  unfold netsnmp_get_next_alarm_time, next_delay. pose proof (find_next_spec _ (times_timed _ Ht)) as Hf.
  destruct (find_next (thealarms s) None) as [[p a]|] eqn:Hfn.
  - destruct Hf as (l1 & l2 & Hl & _). assert (p ∉ addresses l1) as Hp.
    { rewrite Hl, fmap_app in Hnd. apply list.NoDup_app in Hnd as (_ & Hd & _). intros Hin. apply (Hd _ Hin). by left. }
    assert (times_ok (p, a)) as Ha by (rewrite Hl in Ht; apply Forall_app in Ht as [_ Ht]; by inversion Ht).
    destruct (delay_spec now p a (Hck _) Ha) as (Hdelay & _).
    step (step (by apply find_next_eq); cbn [thealarms set_world]; rewrite Hfn; cbn [fmap option_fmap option_map fst]; cbv match; step (by eapply alarm_at_eq); done).
    destruct (s32 (clientreg a) =? 0); cbn [negb]; [done|]. by erewrite bind_lift by done.
  - by step (step (by apply find_next_eq); cbn [thealarms set_world]; rewrite Hfn; done).
Qed.

(** [set_an_alarm] *)
Lemma set_an_alarm_eq s (now := netsnmp_get_monotonic_clock (world s)) :
  NoDup (addresses (thealarms s)) -> Forall times_ok (thealarms s) -> (forall w, sane (netsnmp_get_monotonic_clock w).1) ->
  set_an_alarm s = Some (tt, match (next_delay now.1 (thealarms s)).1 with
                             | Some delta => if dont_use_sig now.2 then set_world now.2 s else log (Timer delta) (set_world now.2 s)
                             | None => set_world now.2 s
                             end).
Proof.
  intros Hnd Ht Hck. unfold set_an_alarm. step (by apply next_delay_eq). step done. fold now.
  unfold next_delay. destruct (find_next (thealarms s) None) as [[p a]|]; [|done].
  destruct (Z.eqb_spec (s32 (clientreg a)) 0) as [|Hid]; [done|]. cbn [fst]. rewrite (proj2 (Z.eqb_neq _ _) Hid). cbn [negb andb world set_world].
  by destruct (dont_use_sig now.2).
Qed.
End steps.

(** * The invariant *)

(** How many alarms have been registered. *)
Fixpoint registrations (tr : list event) : Z :=
  match tr with
  | [] => 0
  | Registered _ :: tr => registrations tr + 1
  | _ :: tr => registrations tr
  end.

Lemma registrations_nonneg tr : 0 <= registrations tr.
Proof. induction tr as [|[] tr IH]; cbn; lia. Qed.

(** An alarm whose function is not running has a time. *)
Definition scheduled (n : node) : Prop := fired n.2 = false -> timerisset (t_nextM n.2) = true.

Definition numbered (n : Z) (x : node) : Prop := 1 <= clientreg x.2 <= n.

(** As long as the numbers have not wrapped around, they identify the alarms. *)
Definition list_ok (n : Z) l : Prop :=
  NoDup (addresses l) /\ Forall times_ok l /\
  (n < 2 ^ 32 -> NoDup (ids l) /\ Forall scheduled l /\ Forall (numbered n) l).

Definition alarms_ok {W} (s : alarms W) : Prop :=
  list_ok (registrations (trace s)) (thealarms s) /\
  (registrations (trace s) < 2 ^ 32 -> regnum s = u32 (registrations (trace s) + 1)).

Lemma list_ok_sublist n l l' : l' `sublist_of` l -> list_ok n l -> list_ok n l'.
Proof.
  intros Hsub (Ha & Ht & Hn). split; [by eapply sublist_NoDup; [|by apply fmap_sublist]|].
  assert (forall P : node -> Prop, Forall P l -> Forall P l') as Hall.
  { intros P HP. rewrite list.Forall_forall in *. intros x Hx. apply HP. by eapply elem_of_sublist. }
  split; [by apply Hall|]. intros (Hi & Hs & Hr)%Hn.
  split; [by eapply sublist_NoDup; [|by apply fmap_sublist]|]. split; by apply Hall.
Qed.

Lemma alarm_list_ok_replace n l1 p a b l2 : list_ok n (l1 ++ (p, a) :: l2) -> times_ok (p, b) -> clientreg b = clientreg a ->
  (n < 2 ^ 32 -> scheduled (p, b)) -> list_ok n (l1 ++ (p, b) :: l2).
Proof.
  intros (Ha & Ht & Hn) Hb Hid Hs. rewrite fmap_app in Ha. apply Forall_app in Ht as [Ht1 [_ Ht2]%list.Forall_cons]. split.
  - by rewrite fmap_app.
  - split; [by apply Forall_app; split; [|constructor]|]. intros Hlt. destruct (Hn Hlt) as (Hi & [? [_ ?]%list.Forall_cons]%Forall_app & [? [? ?]%list.Forall_cons]%Forall_app).
    rewrite fmap_app, fmap_cons in *. cbn [snd] in *. rewrite Hid. split; [done|]. split; apply Forall_app; split; try constructor; auto.
    unfold numbered in *. cbn in *. by rewrite Hid.
Qed.

Lemma list_ok_add n l p a : 0 <= n -> list_ok n l -> p ∉ addresses l -> times_ok (p, a) -> (n + 1 < 2 ^ 32 -> clientreg a = n + 1 /\ scheduled (p, a)) ->
  list_ok (n + 1) (l ++ [(p, a)]).
Proof.
  intros H0 (Ha & Ht & Hn) Hp Hta Hnew. unfold list_ok. rewrite !fmap_app. cbn [fmap list_fmap fst snd].
  split; [apply list.NoDup_app; split; [done|]; split; [|apply NoDup_singleton]; by intros x Hx ->%list_elem_of_singleton|].
  split; [apply Forall_app; split; [done|by constructor]|].
intros Hlt. destruct (Hnew Hlt) as [Hid Hs]. destruct Hn as (Hi & Hsl & Hr); [lia|].
  split; [|split; [apply Forall_app; split; [done|by constructor]|apply Forall_app; split; [|constructor; [unfold numbered; cbn; lia|done]]]].
  - apply list.NoDup_app. split; [done|]. split; [|apply NoDup_singleton]. intros x Hx ->%list_elem_of_singleton.
    apply list_elem_of_fmap in Hx as (m & Hm & Hin). rewrite list.Forall_forall in Hr. specialize (Hr _ Hin). unfold numbered in Hr. cbn in Hm. lia.
  - eapply list.Forall_impl; [exact Hr|]. unfold numbered. intros m ?. lia.
Qed.

(** * What the library asks of the world and of its clients *)

Class AlarmEnvLaws (W : Type) `{Env : AlarmEnv W} : Prop := {
  clock_sane w : sane (netsnmp_get_monotonic_clock w).1 /\ timerisset (netsnmp_get_monotonic_clock w).1 = true;
  malloc_fresh taken w p w' : malloc taken w = (Some p, w') -> p ∉ taken
}.

(** The arguments of a registration: an [unsigned int], a normalized time. *)
Definition call_ok (c : sa_call) : Prop :=
  match c with
  | CallRegister when_ _ _ _ => 0 <= when_ < 2 ^ 32
  | CallRegisterHr t _ _ _ => sane t
  | _ => True
  end.

Fixpoint client_ok {W} (c : client W) : Prop :=
  match c with
  | Return => True
  | Call o k => call_ok o /\ forall x, client_ok (k x)
  | World f k => forall w, client_ok (k w)
  end.

(** A function that does not run alarms itself. *)
Fixpoint runs_no_alarms {W} (c : client W) : Prop :=
  match c with
  | Return => True
  | Call o k => o <> CallRunAlarms /\ forall x, runs_no_alarms (k x)
  | World f k => forall w, runs_no_alarms (k w)
  end.

Section invariant.
Context {W : Type} `{Env : AlarmEnv W} {Laws : AlarmEnvLaws W}.
Implicit Types s : alarms W.

Hypothesis functions_ok : forall fn id arg, client_ok (function fn id arg).

Abbreviation keeps m := (forall s, alarms_ok s -> runs m (fun _ => alarms_ok) s).

(** A node of the list is at its first occurrence. *)
Lemma first_address l1 p a l2 : NoDup (addresses (l1 ++ (p, a) :: l2)) -> p ∉ addresses l1.
Proof. rewrite fmap_app. intros (_ & Hd & _)%list.NoDup_app Hin. apply (Hd _ Hin). by left. Qed.

Lemma unregister_keeps id : keeps (snmp_alarm_unregister id).
Proof. intros s [Hl Hr]. apply runs_modify. split; [|done]. eapply list_ok_sublist; [apply unlink_sublist|done]. Qed.

Lemma unregister_all_keeps : keeps snmp_alarm_unregister_all.
Proof. intros s [Hl Hr]. apply runs_modify. split; [|done]. eapply list_ok_sublist; [apply sublist_nil_l|done]. Qed.

Lemma set_an_alarm_keeps : forall s, alarms_ok s ->
  runs set_an_alarm (fun _ s' => alarms_ok s' /\ thealarms s' = thealarms s /\ registrations (trace s') = registrations (trace s)) s.
Proof.
  intros s [(Ha & Ht & Hn) Hr]. unfold runs. rewrite set_an_alarm_eq by (done || intros w; apply clock_sane).
  destruct (next_delay _ _).1; [destruct (dont_use_sig _)|]; cbn; done.
Qed.

(** A time in the future is one. *)
Lemma future_scheduled now d : sane now -> timerisset now = true -> sane d -> timerisset (time_add now d) = true.
Proof.
  intros Hnow Hset Hd. destruct (time_add_spec now d Hnow Hd) as (_ & Hn & Hs & Hm).
  rewrite timerisset_spec in * by (done || lia || apply Hnow || (destruct Hnow; lia)). apply Z.ltb_lt in Hset. apply Z.ltb_lt.
  destruct Hd as [[] ?]. unfold micros in *. lia.
Qed.

Lemma future_times now a next : sane now -> sane (t a) -> t next = t a -> t_nextM next = time_add now (t a) -> forall p, times_ok (p, next).
Proof. intros Hnow Ht Hi Hn p. destruct (time_add_spec now (t a) Hnow Ht) as (_ & ? & ? & _). unfold times_ok. cbn. rewrite Hi, Hn. done. Qed.

Lemma reset_keeps id : keeps (snmp_alarm_reset id).
Proof.
  intros s [Hl Hr]. destruct (find_specific id (thealarms s)) as [p|] eqn:Hf.
  - apply find_specific_Some in Hf as (l1 & a & l2 & Heq & Hid & Hn). destruct (clock_sane (world s)) as [Hck Hset].
    rewrite Heq in Hl. pose proof Hl as (Ha & Ht & _). apply Forall_app in Ht as [_ [Hta _]%list.Forall_cons].
    unfold runs. erewrite reset_eq by (done || by eapply first_address || apply Hta). split; [|done].
    eapply alarm_list_ok_replace; [done|by eapply future_times; [| apply Hta|..]|done|]. intros _ _. apply future_scheduled; [done|done|apply Hta].
  - unfold runs, snmp_alarm_reset. by step (unfold sa_find_specific, gets; rewrite Hf; done).
Qed.
Lemma update_new_eq p a l s (now := netsnmp_get_monotonic_clock (world s)) :
  thealarms s = l ++ [(p, a)] -> p ∉ addresses l -> t_lastM a = zero_time -> sane (t a) ->
  sa_update_entry p s = Some (tt, set_thealarms (l ++ [(p, set_t_nextM (time_add now.1 (t a)) (set_t_lastM now.1 a))]) (set_world now.2 s)).
Proof.
  intros Hl Hp Hlast Ht. unfold sa_update_entry. step (by eapply alarm_at_eq). rewrite Hlast. change (negb (timerisset zero_time)) with true. cbv match.
  step (apply clock_eq). fold now. step (by eapply update_alarm_eq). cbn [t].
  destruct (time_add_spec now.1 (t a)) as [Hadd _]; [apply clock_sane|done|]. erewrite bind_lift by done. by erewrite update_alarm_eq by done.
Qed.

Lemma register_hr_keeps tv fl cb cd : sane tv -> keeps (snmp_alarm_register_hr tv fl cb cd).
Proof.
  intros Htv s [Hl Hr]. unfold snmp_alarm_register_hr. run. destruct (malloc _ _) as [[p|] w] eqn:Hm; run; [|done].
  apply malloc_fresh in Hm as Hp. set (s1 := log _ _). set (now := netsnmp_get_monotonic_clock (world s1)).
  set (a := mkalarm tv fl (regnum s) zero_time zero_time cd cb). set (b := set_t_nextM (time_add now.1 tv) (set_t_lastM now.1 a)).
  assert (runs (sa_update_entry p) (fun _ s' => alarms_ok s' /\ thealarms s' = thealarms s ++ [(p, b)]) s1) as Hup.
  { unfold runs. erewrite (update_new_eq p a) by done. split; [|done]. destruct (clock_sane (world s1)) as [Hnow Hset].
    pose proof (registrations_nonneg (trace s)) as H0. split; cbn [trace thealarms regnum set_thealarms set_world registrations s1 log set_regnum].
    - apply list_ok_add; [done|done|done|by apply (future_times now.1 a)|]. intros Hlt. cbn. split; [rewrite Hr by lia; unfold wrap; apply Z.mod_small; lia|].
      intros _. by apply future_scheduled.
    - intros Hlt. rewrite Hr by lia. unfold wrap at 2. rewrite (Z.mod_small (_ + 1)) by lia. done. }
  eapply runs_mono; [exact Hup|]. cbv beta. clear Hup. intros _ s2 [Hok Hth]. run.
  assert (runs (when (start_alarms s2) set_an_alarm) (fun _ s' => alarms_ok s' /\ thealarms s' = thealarms s2) s2) as Hset.
  { apply runs_when; intros _; [|done]. eapply runs_mono; [by apply set_an_alarm_keeps|]. cbv beta. by intros _ s3 (? & ? & _). }
  eapply runs_mono; [exact Hset|]. cbv beta. intros _ s3 [Hok3 Hth3]. apply runs_bind. unfold runs.
  by erewrite alarm_at_eq by (by rewrite ?Hth3, ?Hth).
Qed.

Lemma register_keeps when_ fl cb cd : 0 <= when_ < 2 ^ 32 -> keeps (snmp_alarm_register when_ fl cb cd).
Proof.
  intros Hw. apply register_hr_keeps. destruct (Z.eqb_spec 0 when_); unfold sane, normalized; cbn; lia.
Qed.

Lemma end_alarm_keeps id now : sane now -> timerisset now = true -> keeps (end_alarm id now).
Proof.
  intros Hnow Hset s [Hl Hr]. destruct (find_specific id (thealarms s)) as [p|] eqn:Hf.
  - apply find_specific_Some in Hf as (l1 & a & l2 & Heq & Hid & Hn). rewrite Heq in Hl. pose proof Hl as (Ha & Ht & _).
    apply Forall_app in Ht as [_ [(Hta & _) _]%list.Forall_cons]. unfold runs. erewrite end_alarm_eq by (done || by eapply first_address).
    split; [|done]. cbn [thealarms trace set_thealarms]. unfold rearmed. destruct (repeats a && timerisset (t a)); cbn [app].
    + eapply alarm_list_ok_replace; [done|apply (future_times now a); [done|exact Hta|done|done]|done|]. intros _ _. by apply future_scheduled.
    + eapply list_ok_sublist; [|done]. apply sublist_app; [done|by apply sublist_cons].
  - unfold runs, end_alarm. by step (unfold sa_find_specific, gets; rewrite Hf; done).
Qed.

Lemma fired_lor fl : has_flag (Z.lor fl SA_FIRED) SA_FIRED = true.
Proof. unfold has_flag. rewrite Z.land_lor_distr_l. apply negb_true_iff, Z.eqb_neq. intros H. by apply Z.lor_eq_0_iff in H as [_ ?]. Qed.

Lemma start_alarm_keeps p now a l1 l2 s : alarms_ok s -> thealarms s = l1 ++ (p, a) :: l2 ->
  runs (start_alarm p now) (fun r s' => alarms_ok s' /\ client_ok r.1) s.
Proof.
  intros [Hl Hr] Heq. rewrite Heq in Hl. assert (p ∉ addresses l1) as Hp by (eapply first_address, Hl).
  unfold start_alarm, runs. step (by eapply alarm_at_eq). step (by eapply update_alarm_eq). step done. split; [|apply functions_ok].
  split; [|done]. cbn. eapply alarm_list_ok_replace; [done| |done|].
  - destruct Hl as (_ & Ht & _). by apply Forall_app in Ht as [_ [? _]%list.Forall_cons].
  - intros _ Hf. unfold fired in Hf. cbn in Hf. by rewrite fired_lor in Hf.
Qed.

Lemma call_keeps run o s : keeps run -> call_ok o -> alarms_ok s ->
  runs (call_alarm_api run o) (fun r s' => alarms_ok s' /\ (o <> CallRunAlarms -> is_Some r)) s.
Proof.
  intros Hrun Ho Hs. destruct o as [w fl cb cd|tv fl cb cd|id| |id| |]; cbn [call_alarm_api call_ok] in *; apply runs_bind; eapply runs_mono;
    [by apply register_keeps| |by apply register_hr_keeps| |by apply unregister_keeps| |by apply unregister_all_keeps| |
     by apply reset_keeps| |by apply set_an_alarm_keeps| |by apply Hrun|]; cbv beta; intros r s' H; run; split; try done; by destruct H.
Qed.

(** Every call of a function returns, unless it runs alarms. *)
Lemma execute_keeps run c s : keeps run -> client_ok c -> alarms_ok s ->
  runs (execute run c) (fun ended s' => alarms_ok s' /\ (runs_no_alarms c -> ended = true)) s.
Proof.
  intros Hrun. revert s. induction c as [|o k IH|f k IH]; intros s Hc Hs; cbn [execute runs_no_alarms].
  - done.
  - destruct Hc as [Ho Hk]. apply runs_bind. eapply runs_mono; [by apply call_keeps|]. cbv beta. intros [x|] s' [Hs' Hr].
    + eapply runs_mono; [by apply IH|]. cbv beta. intros ended s2 [H2 He]. split; [done|]. intros [_ Hn]. by apply He.
    + run. split; [done|]. intros [Hn _]. by destruct (Hr Hn).
  - run. eapply runs_mono; [apply IH; [done|by destruct Hs]|]. cbv beta. intros ended s2 [H2 He]. split; [done|]. intros Hn. by apply He.
Qed.

Lemma run_alarms_keeps turns : keeps (run_alarms turns).
Proof.
  induction turns as [|turns IH]; intros s Hs; cbn [run_alarms]; [done|]. apply runs_bind. unfold runs at 1. rewrite find_next_eq.
  pose proof Hs as [(Ha & Ht & Hn) Hr]. pose proof (find_next_spec _ (times_timed _ Ht)) as Hf.
  destruct (find_next (thealarms s) None) as [[p a]|]; cbn; [|done]. destruct Hf as (l1 & l2 & Heq & _). rewrite Heq in Ha. apply first_address in Ha as Hp.
  apply runs_bind. unfold runs at 1. rewrite clock_eq. destruct (clock_sane (world s)) as [Hnow Hset]. set (now := netsnmp_get_monotonic_clock (world s)) in *.
  apply runs_bind. unfold runs at 1. erewrite alarm_at_eq by done. destruct (timercmp_lt now.1 (t_nextM a)); [done|].
  apply runs_bind. eapply runs_mono; [by eapply start_alarm_keeps|]. cbv beta. intros [c id] s1 [Hs1 Hc].
  apply runs_bind. eapply runs_mono; [by apply execute_keeps|]. cbv beta. intros [] s2 [Hs2 _]; [|done].
  apply runs_bind. eapply runs_mono; [by apply end_alarm_keeps|]. cbv beta. intros _ s3 Hs3. by apply IH.
Qed.
End invariant.
