(* ===== verification/AlarmRun.v ===== *)
(** A run of the alarms that are due, and the timer for the next one. *)
From Stdlib Require Import ZArith Lia.
From stdpp Require Import base sets list sorting.
From S2P Require Import Prelude StateMonad SnmpDefs Timeval Alarms AlarmProps.

Implicit Types (l : list node) (a : snmp_alarm) (p id : Z) (lo hi now : timeval).

(** * Specification *)

(** The alarms by their times, those with the same time in the order of the list. *)
Fixpoint insert_by_time (n : node) l : list node :=
  match l with
  | [] => [n]
  | m :: r => if micros (t_nextM n.2) <=? micros (t_nextM m.2) then n :: l else m :: insert_by_time n r
  end.

Definition by_time l : list node := foldr insert_by_time [] l.

Definition due lo (n : node) : bool := negb (fired n.2) && (micros (t_nextM n.2) <=? micros lo).

(** The list after the run; [at_] says when the alarm at an address was run. *)
Definition finished lo (at_ : Z -> timeval) (n : node) : list node := if due lo n then rearmed (at_ n.1) n else [n].

Definition ran (at_ : Z -> timeval) (n : node) : event := Ran (clientreg n.2) (clientarg n.2) (at_ n.1).

(** A function that leaves alarms alone, and the world in [P]. *)
Fixpoint quiet {W} (P : W -> Prop) (c : client W) : Prop :=
  match c with
  | Return => True
  | Call _ _ => False
  | World f k => forall w, P w -> P (f w) /\ quiet P (k w)
  end.

(** An alarm is due before the run or after it, and comes once in it. *)
Definition settled lo hi (n : node) : Prop :=
  (fired n.2 = false -> micros (t_nextM n.2) <= micros lo \/ micros hi < micros (t_nextM n.2)) /\
  (repeats n.2 = true -> timerisset (t n.2) = true -> micros hi < micros lo + micros (t n.2)).

(** * The order *)

Lemma insert_by_time_perm n l : insert_by_time n l ≡ₚ n :: l.
Proof. induction l as [|m l IH]; cbn; [done|]. destruct (_ <=? _); [done|]. rewrite IH. apply Permutation_swap. Qed.

Lemma by_time_perm l : by_time l ≡ₚ l.
Proof. induction l as [|n l IH]; cbn; [done|]. by rewrite insert_by_time_perm, IH. Qed.

Lemma by_time_sorted l : StronglySorted (fun n m => no_later n.2 m.2) (by_time l).
Proof.
  induction l as [|n l IHl]; [constructor|]. change (by_time (n :: l)) with (insert_by_time n (by_time l)).
  induction IHl as [|m r Hr IH Hm]; cbn; [repeat constructor|]. destruct (Z.leb_spec (micros (t_nextM n.2)) (micros (t_nextM m.2))) as [Hle|Hgt].
  - constructor; [by constructor|]. constructor; [done|]. eapply list.Forall_impl; [exact Hm|]. unfold no_later. intros k ?. lia.
  - constructor; [done|]. rewrite insert_by_time_perm. constructor; [unfold no_later; lia|done].
Qed.

(** The first of the earliest comes first. *)
Lemma by_time_first l1 n l2 :
  Forall (fun m => earlier n.2 m.2) l1 -> Forall (fun m => no_later n.2 m.2) l2 -> by_time (l1 ++ n :: l2) = n :: by_time (l1 ++ l2).
Proof.
  intros H1 H2. induction H1 as [|m l1 Hm H1 IH]; cbn.
  - rewrite <- by_time_perm in H2. change (foldr insert_by_time [] l2) with (by_time l2).
    destruct (by_time l2) as [|m r]; [done|]. apply list.Forall_cons in H2 as [H2 _]. unfold no_later in H2. cbn. by rewrite (proj2 (Z.leb_le _ _)).
  - unfold by_time in IH. rewrite IH. cbn. unfold earlier in Hm. by rewrite (proj2 (Z.leb_gt _ _)).
Qed.

Lemma due_first lo l1 p a l2 : first_of l1 p a l2 -> due lo (p, a) = true ->
  by_time (List.filter (due lo) (l1 ++ (p, a) :: l2)) = (p, a) :: by_time (List.filter (due lo) (l1 ++ l2)).
Proof.
  intros (Hf & H1 & H2) Hd. rewrite !List.filter_app. cbn [List.filter]. rewrite Hd. apply by_time_first;
    apply list.Forall_forall; intros n Hn%list_elem_of_In%List.filter_In; destruct Hn as [Hn Hnd];
    apply list_elem_of_In in Hn; rewrite list.Forall_forall in *; unfold due in Hnd; apply andb_true_iff in Hnd as [Hnf%negb_true_iff _]; auto.
Qed.

Lemma due_none lo l1 p a l2 : first_of l1 p a l2 -> due lo (p, a) = false -> forall n, n ∈ l1 ++ (p, a) :: l2 -> due lo n = false.
Proof.
  intros (Hf & H1 & H2) Hd n Hn. unfold due in *. cbn in *. rewrite Hf in Hd. cbn in Hd. apply Z.leb_gt in Hd.
  destruct (fired n.2) eqn:Hfn; [done|]. cbn. apply Z.leb_gt. rewrite list.Forall_forall in H1, H2. unfold earlier, no_later in *.
  apply elem_of_app in Hn as [Hn|[->|Hn]%elem_of_cons]; [|done|]; [specialize (H1 _ Hn Hfn)|specialize (H2 _ Hn Hfn)]; lia.
Qed.

Lemma finished_none lo at_ l : (forall n, n ∈ l -> due lo n = false) -> l ≫= finished lo at_ = l /\ List.filter (due lo) l = [].
Proof.
  induction l as [|n l IH]; intros Hd; [done|]. destruct IH as [IH1 IH2]; [intros; apply Hd; by right|].
  cbn [List.filter mbind list_bind]. unfold finished at 1. rewrite (Hd n) by (by left). cbn. by rewrite IH1.
Qed.

Lemma finished_ext lo f g l : (forall n, n ∈ l -> f n.1 = g n.1) -> l ≫= finished lo f = l ≫= finished lo g.
Proof.
  induction l as [|n l IH]; intros He; [done|]. cbn [mbind list_bind]. unfold finished at 1 3. rewrite (He n) by (by left).
  f_equal. apply IH. intros; apply He; by right.
Qed.

(** * The run *)

Section run.
Context {W : Type} `{Env : AlarmEnv W} {Laws : AlarmEnvLaws W}.
Implicit Types s : alarms W.

Lemma alarm_execute_quiet (P : W -> Prop) run c s : quiet P c -> P (world s) -> exists w, execute run c s = Some (true, set_world w s) /\ P w.
Proof.
  revert s. induction c as [|o k IH|f k IH]; intros s Hc Hs; cbn [execute].
  - exists (world s). split; [|done]. by destruct s.
  - done.
  - destruct (Hc _ Hs) as [Hf Hk]. step done. step done. destruct (IH (world s) (set_world (f (world s)) s)) as (w & Hw & HP); [done..|].
    exists w. by rewrite Hw.
Qed.

(** A turn of the loop with an alarm that is due. *)
Lemma turn_eq (P : W -> Prop) turns s l1 p a l2 (now := netsnmp_get_monotonic_clock (world s)) :
  thealarms s = l1 ++ (p, a) :: l2 -> p ∉ addresses l1 -> clientreg a ∉ ids l1 -> first_of l1 p a l2 -> Forall times_ok (thealarms s) ->
  find_next (thealarms s) None = Some (p, a) -> micros (t_nextM a) <= micros now.1 ->
  quiet P (function (thecallback a) (clientreg a) (clientarg a)) -> P now.2 ->
  exists w, P w /\ run_alarms (S turns) s =
    run_alarms turns (set_thealarms (l1 ++ rearmed now.1 (p, a) ++ l2) (set_world w (log (Ran (clientreg a) (clientarg a) now.1) s))).
Proof.
  intros Hl Hp Hid (Hf & _) Ht Hfn Hdue Hq HP. destruct (clock_sane (world s)) as [Hnow Hset]. fold now in Hnow, Hset.
  assert (times_ok (p, a)) as (Hta & Hna & _) by (rewrite Hl in Ht; apply Forall_app in Ht as [_ Ht]; by inversion Ht).
  cbn [run_alarms]. step (apply find_next_eq). rewrite Hfn. cbn [fmap option_fmap option_map fst]. step (apply clock_eq). fold now.
  step (by eapply alarm_at_eq). rewrite timercmp_lt_spec by (done || apply Hnow). rewrite (proj2 (Z.ltb_ge _ _)) by done.
  step (unfold start_alarm; step (by eapply alarm_at_eq); step (by eapply update_alarm_eq); step done; done). cbn [fst snd].
  set (b := set_alarm_flags _ a). destruct (alarm_execute_quiet P (run_alarms turns) _ (log (Ran (clientreg a) (clientarg a) now.1) (set_thealarms (l1 ++ (p, b) :: l2) (set_world now.2 s))) Hq)
    as (w & Hw & HPw); [done|]. step (exact Hw). exists w. split; [done|].
  step (by eapply (end_alarm_eq _ _ p b)). f_equal. unfold rearmed, b, repeats. cbn [flags set_alarm_flags t clientreg clientarg thecallback].
  replace (has_flag (Z.lor (flags a) SA_FIRED) SA_REPEAT) with (has_flag (flags a) SA_REPEAT)
    by (unfold has_flag; by rewrite Z.land_lor_distr_l, Z.lor_0_r).
  rewrite unfired_fired by done. replace (Z.land (flags a) (Z.lnot SA_FIRED)) with (flags a); [done|].
  rewrite <- Z.ldiff_land. unfold fired, has_flag in Hf. apply negb_false_iff, Z.eqb_eq in Hf. apply Z.bits_inj'. intros i Hi.
  apply (f_equal (fun x => Z.testbit x i)) in Hf. rewrite Z.land_spec, Z.bits_0 in Hf. rewrite Z.ldiff_spec.
  by destruct (Z.testbit (flags a) i), (Z.testbit SA_FIRED i).
Qed.
End run.

Section theorems.
Context {W : Type} `{Env : AlarmEnv W} {Laws : AlarmEnvLaws W}.
Implicit Types s : alarms W.

(** The clock stays between [lo] and [hi] while the world is in [P]. *)
Context (lo hi : timeval) (P : W -> Prop).
Hypothesis clock_stays : forall w, P w ->
  P (netsnmp_get_monotonic_clock w).2 /\ micros lo <= micros (netsnmp_get_monotonic_clock w).1 <= micros hi.

(** What the run asks of an alarm. *)
Definition runnable (n : node) : Prop :=
  times_ok n /\ settled lo hi n /\ quiet P (function (thecallback n.2) (clientreg n.2) (clientarg n.2)).

Lemma rearmed_runnable p a now : runnable (p, a) -> sane now -> timerisset now = true -> micros lo <= micros now ->
  Forall (fun n => runnable n /\ due lo n = false) (rearmed now (p, a)).
Proof.
  intros ((Ht & Hn & Hs) & (_ & Hi) & Hq) Hnow Hset Hlo. unfold rearmed. destruct (repeats a) eqn:Hr; [|done]. destruct (timerisset (t a)) eqn:Hta; [|done].
  constructor; [|done]. cbn in *. specialize (Hi Hr Hta). destruct (time_add_spec now (t a)) as (_ & Hna & Hsa & Hm); [done..|].
  assert (0 < micros (t a)) as Hpos by (rewrite timerisset_spec in Hta by (apply Ht || (destruct Ht; lia)); by apply Z.ltb_lt).
  split; [split; [by unfold times_ok; cbn|split; [|done]]|].
  - unfold settled, repeats. cbn. split; [intros _; right; lia|]. intros _ _. exact Hi.
  - unfold due. cbn. apply andb_false_iff. right. apply Z.leb_gt. lia.
Qed.

Lemma rearmed_sublist now n : ids (rearmed now n) `sublist_of` [clientreg n.2] /\ addresses (rearmed now n) `sublist_of` [n.1].
Proof. destruct n as [p a]. unfold rearmed. destruct (repeats a && timerisset (t a)); split; cbn; try done; apply sublist_nil_l. Qed.

(** The result of a run of the alarms of [s] that are due. *)
Definition ran_due s (r : option (bool * alarms W)) : Prop :=
  exists at_ s', r = Some (true, s') /\
    (forall n, n ∈ thealarms s -> due lo n = true -> micros lo <= micros (at_ n.1) <= micros hi) /\
    thealarms s' = thealarms s ≫= finished lo at_ /\
    trace s' = reverse (ran at_ <$> by_time (List.filter (due lo) (thealarms s))) ++ trace s /\
    regnum s' = regnum s /\ P (world s').

Lemma none_ran s w : (forall n, n ∈ thealarms s -> due lo n = false) -> P w -> ran_due s (Some (true, set_world w s)).
Proof.
  intros Hd HP. exists (fun _ => lo), (set_world w s). destruct (finished_none lo (fun _ => lo) (thealarms s) Hd) as [-> ->].
  split; [done|]. split; [|done]. intros n Hn Hdn. by rewrite Hd in Hdn.
Qed.

Lemma one_more_ran s s1 r l1 p a l2 now : thealarms s = l1 ++ (p, a) :: l2 -> NoDup (addresses (thealarms s)) ->
  first_of l1 p a l2 -> due lo (p, a) = true -> micros lo <= micros now <= micros hi ->
  Forall (fun n => due lo n = false) (rearmed now (p, a)) ->
  thealarms s1 = l1 ++ rearmed now (p, a) ++ l2 -> trace s1 = Ran (clientreg a) (clientarg a) now :: trace s -> regnum s1 = regnum s ->
  ran_due s1 r -> ran_due s r.
Proof.
  intros Hl Ha Hfirst Hd Hnow Hre Hl1 Ht1 Hr1 (at_ & s' & -> & Hat & Hth & Htr & Hreg & HP). rewrite list.Forall_forall in Hre.
  rewrite Hl, fmap_app, fmap_cons in Ha. apply list.NoDup_app in Ha as (_ & Hn1 & [Hn2 _]%list.NoDup_cons). cbn [fst] in *.
  set (at1 := fun q => if q =? p then now else at_ q).
  assert (forall n, n ∈ l1 ++ l2 -> at1 n.1 = at_ n.1) as Hat1.
  { intros n Hn. unfold at1. destruct (Z.eqb_spec n.1 p) as [<-|]; [|done]. apply elem_of_app in Hn as [Hn|Hn]; exfalso.
    - apply (Hn1 n.1); [by apply list_elem_of_fmap_2|by left].
    - apply Hn2. by apply list_elem_of_fmap_2. }
  assert (forall n, n ∈ l1 -> n ∈ l1 ++ l2) as Hin1 by (intros; apply elem_of_app; by left).
  assert (forall n, n ∈ l2 -> n ∈ l1 ++ l2) as Hin2 by (intros; apply elem_of_app; by right).
  assert (forall n, n ∈ l1 ++ l2 -> n ∈ l1 ++ rearmed now (p, a) ++ l2) as Hin by (intros n; rewrite !elem_of_app; tauto).
  exists at1, s'. split; [done|]. rewrite Hl1 in *. destruct (finished_none lo at_ _ Hre) as [Hfin Hfil]. split; [|split; [|split; [|by rewrite Hreg]]].
  - intros n Hn Hdn. rewrite Hl in Hn. apply elem_of_app in Hn as [Hn|[->|Hn]%elem_of_cons].
    + rewrite Hat1 by auto. apply Hat; auto.
    + unfold at1. cbn. by rewrite Z.eqb_refl.
    + rewrite Hat1 by auto. apply Hat; auto.
  - rewrite Hth, Hl, !bind_app, Hfin. cbn [mbind list_bind]. unfold finished at 4. rewrite Hd. cbn [fst]. unfold at1 at 2. rewrite Z.eqb_refl.
    by rewrite (finished_ext lo at1 at_ l1), (finished_ext lo at1 at_ l2) by auto.
  - rewrite Htr, Ht1, Hl, (due_first lo l1 p a l2 Hfirst Hd), !List.filter_app, Hfil. rewrite fmap_cons, reverse_cons, <- app_assoc. cbn [app].
    unfold ran at 3. cbn [fst snd]. unfold at1 at 2. rewrite Z.eqb_refl. do 2 f_equal. apply list_fmap_ext. intros i n Hn.
    unfold ran. rewrite Hat1; [done|]. apply list_elem_of_lookup_2 in Hn. rewrite by_time_perm, <- List.filter_app in Hn.
    apply list_elem_of_In, List.filter_In in Hn as [Hn _]. by apply list_elem_of_In.
Qed.

Lemma run_from turns : forall s, NoDup (addresses (thealarms s)) -> NoDup (ids (thealarms s)) -> Forall runnable (thealarms s) -> P (world s) ->
  (length (List.filter (due lo) (thealarms s)) < turns)%nat -> ran_due s (run_alarms turns s).
Proof.
  induction turns as [|turns IH]; intros s Ha Hi Hr HP Hlen; [lia|].
  assert (Forall times_ok (thealarms s)) as Ht by (eapply list.Forall_impl; [exact Hr|]; by intros n (? & _)).
  pose proof (find_next_spec _ (times_timed _ Ht)) as Hf. destruct (find_next (thealarms s) None) as [[p a]|] eqn:Hfn.
  2: { cbn [run_alarms]. step (apply find_next_eq). rewrite Hfn. cbn [fmap option_fmap option_map]. assert ((mret true : M (alarms W) bool) s = Some (true, set_world (world s) s)) as -> by (by destruct s).
       apply none_ran; [|done]. intros n Hn. rewrite list.Forall_forall in Hf. unfold due. by rewrite Hf. }
  destruct Hf as (l1 & l2 & Hl & Hfirst). assert (p ∉ addresses l1) as Hp by (rewrite Hl in Ha; by eapply first_address).
  set (now := netsnmp_get_monotonic_clock (world s)). destruct (clock_stays _ HP) as [HPn Hnow]. fold now in HPn, Hnow.
  assert (runnable (p, a)) as Hra by (rewrite Hl in Hr; apply Forall_app in Hr as [_ Hr]; by inversion Hr).
  pose proof Hra as ((Hta & Hna & _) & (Hsa & _) & Hq). destruct (clock_sane (world s)) as [Hck Hset]. fold now in Hck, Hset.
  pose proof Hfirst as (Hfa & _). specialize (Hsa Hfa). cbn in Hsa. destruct (Z.le_gt_cases (micros (t_nextM a)) (micros now.1)) as [Hle|Hgt].
  - assert (due lo (p, a) = true) as Hd by (unfold due; cbn; rewrite Hfa; apply Z.leb_le; lia).
    assert (clientreg a ∉ ids l1) as Hid.
    { rewrite Hl, fmap_app in Hi. apply list.NoDup_app in Hi as (_ & Hd' & _). intros Hin. apply (Hd' _ Hin). by left. }
    destruct (turn_eq P turns s l1 p a l2) as (w & HPw & ->); [done..|]. fold now. set (s1 := set_thealarms _ _).
    pose proof (rearmed_runnable p a now.1 Hra Hck Hset ltac:(lia)) as Hre. destruct (rearmed_sublist now.1 (p, a)) as [Hsub1 Hsub2].
    assert (Forall runnable (rearmed now.1 (p, a)) /\ Forall (fun n => due lo n = false) (rearmed now.1 (p, a))) as [Hre1 Hre2] by (by apply list.Forall_and).
    eapply (one_more_ran s s1); [done..|]. rewrite Hl in Ha, Hi, Hr, Hlen. apply IH; unfold s1; cbn [thealarms set_thealarms set_world world].
    + eapply sublist_NoDup; [exact Ha|]. rewrite !fmap_app, fmap_cons. apply sublist_app; [done|]. by apply (sublist_app _ [p]).
    + eapply sublist_NoDup; [exact Hi|]. rewrite !fmap_app, fmap_cons. apply sublist_app; [done|]. by apply (sublist_app _ [clientreg a]).
    + apply Forall_app in Hr as [Hr1 [_ Hr2]%list.Forall_cons]. apply Forall_app. split; [done|]. by apply Forall_app.
    + done.
    + rewrite List.filter_app in Hlen. rewrite !List.filter_app. cbn [List.filter] in Hlen. rewrite Hd in Hlen. rewrite list.Forall_forall in Hre2.
      rewrite (proj2 (finished_none lo (fun _ => lo) _ Hre2)). rewrite !length_app in *. cbn in *. lia.
  - cbn [run_alarms]. step (apply find_next_eq). rewrite Hfn. cbn [fmap option_fmap option_map fst]. step (apply clock_eq). fold now.
    step (by eapply alarm_at_eq). rewrite timercmp_lt_spec by (done || apply Hck). rewrite (proj2 (Z.ltb_lt _ _)) by done.
    apply none_ran; [|done]. rewrite Hl. apply (due_none lo l1 p a l2 Hfirst). unfold due. cbn. rewrite Hfa. cbn. apply Z.leb_gt. lia.
Qed.
End theorems.

(** * Properties *)

Section properties.
Context {W : Type} `{Env : AlarmEnv W} {Laws : AlarmEnvLaws W}.
Implicit Types s : alarms W.

(** C17: Whatever the functions of the clients do with the interface -- register, remove and
    reset alarms, their own included, or run alarms themselves --, no call follows an
    address that is not one of an alarm, and the list stays in order: its addresses
    are distinct and the times sane, and as long as fewer than 2^32 alarms have been
    registered the numbers identify the alarms and every alarm that is not running
    has a time.  Every call other than of [run_alarms] returns, so a function that
    makes no such call comes to its end; [run_alarms] itself goes on for as long as
    alarms are due, and is observed for [turns] functions. *)
Theorem alarms_invariant turns (c : client W) s :
  (forall fn id arg, client_ok (function fn id arg)) -> client_ok c -> alarms_ok s ->
  runs (execute (run_alarms turns) c) (fun ended s' => alarms_ok s' /\ (runs_no_alarms c -> ended = true)) s.
Proof. intros Hfn Hc Hs. apply execute_keeps; [|done|done]. intros s'. by apply run_alarms_keeps. Qed.

(** C16: Let the functions of the alarms leave alarms alone, and let the clock stay
    between [lo] and [hi] during the run, so that no alarm becomes due meanwhile and no
    alarm that repeats is due again ([settled]: its interval is longer than the run).
    Then a run ends, after as many turns as alarms are due and one more, and calls the
    functions of exactly the alarms that are due, each once, in the order of their
    times, those of the same time in the order they were registered; those that repeat
    are then due an interval after they were run, the others are gone, and the rest of
    the list is as it was.  Without these conditions a run need not end: an alarm that
    repeats each microsecond is always due ([endless_ex]). *)
Theorem alarms_in_order (lo hi : timeval) (P : W -> Prop) turns s :
  (forall w, P w -> P (netsnmp_get_monotonic_clock w).2 /\ micros lo <= micros (netsnmp_get_monotonic_clock w).1 <= micros hi) ->
  alarms_ok s -> registrations (trace s) < 2 ^ 32 -> P (world s) ->
  Forall (settled lo hi) (thealarms s) ->
  Forall (fun n => quiet P (function (thecallback n.2) (clientreg n.2) (clientarg n.2))) (thealarms s) ->
  (length (List.filter (due lo) (thealarms s)) < turns)%nat ->
  ran_due lo hi P s (run_alarms turns s).
Proof.
  intros Hck [(Ha & Ht & Hn) _] Hlt HP Hs Hq Hlen. destruct (Hn Hlt) as (Hi & _ & _). apply run_from; try done.
  unfold runnable. rewrite list.Forall_forall in *. auto.
Qed.

(** The timer of the process is set to the time that is left until the earliest alarm
    that is not running, to zero when that one is due already; without such an alarm, or
    when the application does not want signals, it is left alone. *)
Theorem timer_set_to_next s (now := netsnmp_get_monotonic_clock (world s)) :
  alarms_ok s -> registrations (trace s) < 2 ^ 31 ->
  exists s', set_an_alarm s = Some (tt, s') /\ thealarms s' = thealarms s /\ world s' = now.2 /\
    ((trace s' = trace s /\ (dont_use_sig now.2 = true \/ Forall (fun n => fired n.2 = true) (thealarms s))) \/
     (dont_use_sig now.2 = false /\ exists n delta, n ∈ thealarms s /\ fired n.2 = false /\
        (forall m, m ∈ thealarms s -> fired m.2 = false -> no_later n.2 m.2) /\
        trace s' = Timer delta :: trace s /\ normalized delta /\ micros delta = Z.max 0 (micros (t_nextM n.2) - micros now.1))).
Proof.
  intros [(Ha & Ht & Hn) _] Hlt. eexists. split; [by apply set_an_alarm_eq; [..|intros w; apply clock_sane]|]. fold now.
  pose proof (find_next_spec _ (times_timed _ Ht)) as Hf. unfold next_delay.
  destruct (find_next (thealarms s) None) as [[p a]|]; [|split; [done|]; split; [done|]; left; split; [done|by right]].
  destruct Hf as (l1 & l2 & Hl & Hfa & H1 & H2). assert ((p, a) ∈ thealarms s) as Hin by (rewrite Hl; apply elem_of_app; right; by left).
  destruct Hn as (_ & _ & Hr); [lia|]. rewrite list.Forall_forall in Hr, Ht. specialize (Hr _ Hin). unfold numbered in Hr. cbn in Hr.
  rewrite (proj2 (Z.eqb_neq (s32 (clientreg a)) 0)) by (unfold swrap; rewrite Z.mod_small; lia). cbn [fst].
  destruct (delay_spec now.1 p a) as (_ & Hnorm & Hm); [apply clock_sane|by apply Ht|].
  destruct (dont_use_sig now.2) eqn:Hsig; split; try done; split; try done; [left; auto|]. right. split; [done|].
  exists (p, a), (delay now.1 a). split; [done|]. split; [done|]. split; [|done]. rewrite list.Forall_forall in H1, H2. unfold earlier, no_later in *.
  intros m Hm' Hfm. rewrite Hl in Hm'. apply elem_of_app in Hm' as [Hm'|[->|Hm']%elem_of_cons]; [|done|by apply H2].
  specialize (H1 _ Hm' Hfm). cbn. lia.
Qed.
End properties.

(** * Concrete runs *)

(** A world whose clock advances a second each time it is read; function 1 takes its
    time, function 2 resets its alarm. *)
#[local] Instance sample_env : AlarmEnv Z := {
  netsnmp_get_monotonic_clock w := (mktimeval (1 + w mod 1000) 0, w + 1);
  malloc taken w := (Some (1 + foldr Z.max 0 taken), w);
  function fn id _ := if fn =? 1 then World (fun w => w + 3) (fun _ => Return) else if fn =? 2 then Call (CallReset id) (fun _ => Return) else Return;
  dont_use_sig _ := false
}.

#[local] Instance sample_laws : AlarmEnvLaws Z.
Proof.
  split.
  - intros w. cbn. pose proof (Z.mod_pos_bound w 1000). unfold sane, normalized, timerisset. cbn. split; [lia|].
    by rewrite (proj2 (Z.eqb_neq _ _)) by lia.
  - cbn. intros taken w p w' [= <- _] Hin. assert (forall x, x ∈ taken -> x <= foldr Z.max 0 taken) as Hmax.
    { clear Hin. induction taken as [|y taken IH]; [by intros ? ?%not_elem_of_nil|]. cbn. intros x [->|Hx]%elem_of_cons; [lia|].
      assert (x <= foldr Z.max 0 taken); [|lia]. by apply IH. }
    specialize (Hmax _ Hin). lia.
Qed.

Definition no_alarms (w : Z) : alarms Z := mkalarms [] true 1 w [].

(** Three alarms: every two thousand seconds, once, and in an hour and a half. *)
Definition three_alarms : alarms Z :=
  mkalarms [(1, mkalarm (mktimeval 2000 0) SA_REPEAT 1 (mktimeval 0 1) (mktimeval 0 500000) 7 1);
            (2, mkalarm (mktimeval 0 100000) 0 2 (mktimeval 0 1) (mktimeval 0 200000) 8 1);
            (3, mkalarm (mktimeval 5400 0) 0 3 (mktimeval 0 1) (mktimeval 5400 1) 9 0)]
           true 4 10 [Registered 3; Registered 2; Registered 1].

Lemma three_alarms_ok : alarms_ok three_alarms.
Proof.
  split; [|done]. split; [by apply (bool_decide_unpack _)|]. split; [by apply (bool_decide_unpack _); vm_compute|].
  intros _. split; [by apply (bool_decide_unpack _)|]. split; [repeat constructor; done|]. repeat constructor; unfold numbered; cbn; lia.
Qed.

Lemma sample_functions_ok fn id arg : client_ok (function (W := Z) fn id arg).
Proof. cbn. by repeat case_match. Qed.

Lemma alarms_in_order_witness : ran_due (mktimeval 1 0) (mktimeval 1000 0) (fun _ => True) three_alarms (run_alarms 5 three_alarms).
Proof.
  apply alarms_in_order; [|exact three_alarms_ok|reflexivity|done| | |vm_compute; lia].
  - intros w _. split; [done|]. cbn. pose proof (Z.mod_pos_bound w 1000). unfold micros. cbn. lia.
  - repeat constructor; cbn; unfold micros; cbn; try lia; intros H; vm_compute in H; discriminate H.
  - repeat constructor.
Defined.

Lemma alarms_invariant_witness :
  runs (execute (run_alarms 5) (Call (CallRegister 30 SA_REPEAT 2 0) (fun id => Call (CallReset id) (fun _ => Return))))
    (fun ended s' => alarms_ok s' /\ ended = true) three_alarms.
Proof.
  eapply runs_mono; [apply (alarms_invariant 5); [exact sample_functions_ok|split; [cbn; lia|done]|exact three_alarms_ok]|].
  cbv beta. intros ended s' [H He]. split; [exact H|]. apply He. done.
Defined.

Lemma timer_set_to_next_witness : exists s', set_an_alarm three_alarms = Some (tt, s') /\ thealarms s' = thealarms three_alarms.
Proof. destruct (timer_set_to_next three_alarms three_alarms_ok) as (s' & Hs & Hl & _); [reflexivity|]. exists s'. split; [exact Hs|exact Hl]. Defined.

(** The second alarm is earlier than the first. *)
Example order_ex : (trace <$> (snd <$> run_alarms 5 three_alarms)) =
  Some [Ran 1 7 (mktimeval 15 0); Ran 2 8 (mktimeval 11 0); Registered 3; Registered 2; Registered 1].
Proof. vm_compute. reflexivity. Qed.

(** An alarm that repeats each microsecond is due again whenever it has run. *)
Example endless_ex : forallb (fun turns => bool_decide (fst <$> run_alarms turns (set_thealarms
  [(1, mkalarm (mktimeval 0 1) SA_REPEAT 1 (mktimeval 0 1) (mktimeval 0 2) 7 0)] (no_alarms 10)) = Some false)) (seq 0 100) = true.
Proof. vm_compute. reflexivity. Qed.

(** The timer is set to zero, which turns it off, when an alarm is due. *)
Example disarmed_ex : (hd_error ∘ trace ∘ snd <$> set_an_alarm three_alarms) = Some (Some (Timer zero_time)).
Proof. vm_compute. reflexivity. Qed.

(** An alarm that comes once and resets itself is removed all the same. *)
Example reset_lost_ex :
  (thealarms ∘ snd <$> run_alarms 5 (set_thealarms [(2, mkalarm (mktimeval 60 0) 0 2 (mktimeval 0 1) (mktimeval 0 200000) 8 2)] (no_alarms 10))) = Some [].
Proof. vm_compute. reflexivity. Qed.

(** The number after the last one is 0, which says that the registration failed. *)
Example number_zero_ex : (fst <$> snmp_alarm_register 60 0 1 0 (set_regnum (u32 (2 ^ 32 - 1 + 1)) (no_alarms 10))) = Some 0.
Proof. vm_compute. reflexivity. Qed.
