(* ===== verification/Callback.v ===== *)
(** Callbacks, [snmplib/callback.c]: lists of functions, by the major and minor
    number of an event and ordered by priority, that are called when the event comes.
    The lists are chains of heap objects; functions may use the interface while a
    list is being worked on, which its lock is to find out.  A client's function is a
    program of calls of the interface. *)
From Stdlib Require Import ZArith Lia.
From stdpp Require Import gmap.
From S2P Require Import Prelude StateMonad Chains SnmpDefs.

Definition MAX_CALLBACK_IDS : Z := 2.
Definition MAX_CALLBACK_SUBIDS : Z := 16.
Definition NETSNMP_CALLBACK_DEFAULT_PRIORITY : Z := 0.

(** [struct snmp_gen_callback]; a null pointer is [None]. *)
Record snmp_gen_callback : Type := mkcallback {
  sc_callback : option Z;
  sc_client_arg : option Z;
  priority : Z;
  next : option Z
}.

Definition set_sc_callback (x : option Z) (n : snmp_gen_callback) : snmp_gen_callback := mkcallback x (sc_client_arg n) (priority n) (next n).
Definition set_sc_client_arg (x : option Z) (n : snmp_gen_callback) : snmp_gen_callback := mkcallback (sc_callback n) x (priority n) (next n).
Definition set_cb_next (x : option Z) (n : snmp_gen_callback) : snmp_gen_callback := mkcallback (sc_callback n) (sc_client_arg n) (priority n) x.

(** A list, by its numbers. *)
Abbreviation cell := (Z * Z)%type.

(** What [prevNext] points to: the head of a list or the link of a node. *)
Inductive place : Type :=
| Head (c : cell)
| Next (p : Z).

(** What is seen from outside: a function was called, an argument was freed, a lock
    was waited for in vain. *)
Inductive event : Type :=
| Called (fn : Z) (c : cell) (caller_arg client_arg : option Z)
| Freed (arg : Z)
| NotLocked (c : cell).

(** The heap, the static variables ([thecallbacks] and [_locks] by numbers; what is
    not in the map is null or zero), the world and the trace, last event first. *)
Record callbacks (W : Type) : Type := mkcallbacks {
  heap : gmap Z snmp_gen_callback;
  thecallbacks : gmap cell Z;
  locks : gmap cell Z;
  callback_need_init : bool;
  world : W;
  trace : list event
}.
Arguments mkcallbacks {W}. Arguments heap {W}. Arguments thecallbacks {W}. Arguments locks {W}. Arguments callback_need_init {W}.
Arguments world {W}. Arguments trace {W}.

Section setters.
Context {W : Type}.
Implicit Types s : callbacks W.
Definition set_heap (x : gmap Z snmp_gen_callback) s : callbacks W := mkcallbacks x (thecallbacks s) (locks s) (callback_need_init s) (world s) (trace s).
Definition set_thecallbacks (x : gmap cell Z) s : callbacks W := mkcallbacks (heap s) x (locks s) (callback_need_init s) (world s) (trace s).
Definition set_locks (x : gmap cell Z) s : callbacks W := mkcallbacks (heap s) (thecallbacks s) x (callback_need_init s) (world s) (trace s).
Definition set_need_init (x : bool) s : callbacks W := mkcallbacks (heap s) (thecallbacks s) (locks s) x (world s) (trace s).
Definition set_world (x : W) s : callbacks W := mkcallbacks (heap s) (thecallbacks s) (locks s) (callback_need_init s) x (trace s).
Definition log (e : event) s : callbacks W := mkcallbacks (heap s) (thecallbacks s) (locks s) (callback_need_init s) (world s) (e :: trace s).
End setters.

(** A function of a client. *)
Inductive cb_call : Type :=
| CallRegister (major minor : Z) (fn arg : option Z) (priority : Z)
| CallCallbacks (major minor : Z) (caller_arg : option Z)
| CallUnregister (major minor : Z) (target arg : option Z) (matchargs : bool)
| CallAvailable (major minor : Z)
| CallCount (major minor : Z)
| CallClearArg (ptr : option Z) (i j : Z)
| CallClear.

Inductive client (W : Type) : Type :=
| Return
| Call (c : cb_call) (k : Z -> client W)
| World (f : W -> W) (k : W -> client W).
Arguments Return {W}. Arguments Call {W}. Arguments World {W}.

(** Whether the assertions of the code are compiled in and end the program,
    [malloc] with the addresses that are taken, and the functions of the clients. *)
Class CallbackEnv (W : Type) : Type := {
  use_assert : bool;
  malloc : gset Z -> W -> option Z * W;
  function : Z -> cell -> option Z -> option Z -> client W
}.

Section functions.
Context {W : Type} `{Env : CallbackEnv W}.
Abbreviation cb A := (M (callbacks W) A).

(** * Computations that may end the program

    [None] as a result: an assertion has failed, or there were not enough turns. *)
Definition proceed {A B} (m : cb (option A)) (k : A -> cb (option B)) : cb (option B) :=
  r ← m; match r with Some x => k x | None => mret None end.
Notation "x <~ m ; k" := (proceed m (fun x => k)) (at level 20, m at level 100, k at level 200, only parsing).

(** * The heap *)

Definition callback_at (p : Z) : cb snmp_gen_callback := s ← get; lift (heap s !! p).

Definition update_callback (p : Z) (f : snmp_gen_callback -> snmp_gen_callback) : cb unit :=
  n ← callback_at p; modify (fun s => set_heap (<[p := f n]> (heap s)) s).

Definition free_callback (p : Z) : cb unit := _ ← callback_at p; modify (fun s => set_heap (delete p (heap s)) s).

(** An element of the arrays. *)
Definition in_range (c : cell) : bool := (0 <=? c.1) && (c.1 <? MAX_CALLBACK_IDS) && (0 <=? c.2) && (c.2 <? MAX_CALLBACK_SUBIDS).

Definition head_of (c : cell) : cb (option Z) := if in_range c then gets (fun s => thecallbacks s !! c) else lift None.

Definition write (x : place) (p : option Z) : cb unit :=
  match x with
  | Head c => if in_range c then modify (fun s => set_thecallbacks (partial_alter (fun _ => p) c (thecallbacks s)) s) else lift None
  | Next q => update_callback q (set_cb_next p)
  end.

Definition read (x : place) : cb (option Z) :=
  match x with
  | Head c => head_of c
  | Next q => n ← callback_at q; mret (next n)
  end.

(** * Locks *)

Definition lock_count (c : cell) (s : callbacks W) : Z := default 0 (locks s !! c).

Definition add_lock (c : cell) (d : Z) : cb unit :=
  if in_range c then modify (fun s => set_locks (<[c := lock_count c s + d]> (locks s)) s) else lift None.

(** The loop waits a tenth of a second; a single thread waits in vain. *)
Definition callback_lock (c : cell) : cb (option Z) :=
  if negb (in_range c) then lift None else
  s ← get;
  if 1 <=? lock_count c s then
    modify (log (NotLocked c));;
    mret (if use_assert then None else Some 1)
  else add_lock c 1;; mret (Some 0).

Definition callback_unlock (c : cell) : cb unit := add_lock c (-1).

(** * The interface *)

Definition init_callbacks : cb unit :=
  s ← get;
  if negb (callback_need_init s) then skip
  else modify (set_need_init false);; modify (set_thecallbacks ∅);; modify (set_locks ∅).

Definition maybe_init : cb unit := s ← get; when (callback_need_init s) init_callbacks.

(** [major >= MAX_CALLBACK_IDS || minor >= MAX_CALLBACK_SUBIDS] *)
Definition out_of_bounds (major minor : Z) : bool := (MAX_CALLBACK_IDS <=? major) || (MAX_CALLBACK_SUBIDS <=? minor).

(** The loop of [netsnmp_register_callback]: the place of the new node, and the node
    before which it comes. *)
Fixpoint register_loop (fuel : nat) (prio : Z) (scp : option Z) (prevNext : place) : cb (place * option Z) :=
  match fuel, scp with
  | _, None => mret (prevNext, None)
  | O, _ => lift None
  | S fuel, Some p =>
    n ← callback_at p;
    if prio <? priority n then mret (prevNext, Some p) else register_loop fuel prio (next n) (Next p)
  end.

Definition netsnmp_register_callback (major minor : Z) (new_callback arg : option Z) (prio : Z) : cb (option Z) :=
  let c := (major, minor) in
  if out_of_bounds major minor then mret (Some SNMPERR_GENERR) else
  maybe_init;;
  _ <~ callback_lock c;
  s ← get;
  let '(o, w) := malloc (dom (heap s)) (world s) in
  modify (set_world w);;
  match o with
  | None => callback_unlock c;; mret (Some SNMPERR_GENERR)
  | Some newscp =>
    modify (fun s => set_heap (<[newscp := mkcallback new_callback arg prio None]> (heap s)) s);;
    scp ← head_of c;
    s ← get;
    r ← register_loop (S (size (heap s))) prio scp (Head c);
    update_callback newscp (set_cb_next r.2);;
    write r.1 (Some newscp);;
    callback_unlock c;;
    mret (Some SNMPERR_SUCCESS)
  end.

Definition snmp_register_callback (major minor : Z) (new_callback arg : option Z) : cb (option Z) :=
  netsnmp_register_callback major minor new_callback arg NETSNMP_CALLBACK_DEFAULT_PRIORITY.

(** The loop of [snmp_call_callbacks]; [run] runs a function of a client. *)
Fixpoint call_loop (run : client W -> cb (option unit)) (turns : nat) (c : cell) (caller_arg : option Z) (scp : option Z) : cb (option unit) :=
  match turns, scp with
  | _, None => mret (Some tt)
  | O, _ => mret None
  | S turns, Some p =>
    n ← callback_at p;
    match sc_callback n with
    | None => call_loop run turns c caller_arg (next n)
    | Some fn =>
      modify (log (Called fn c caller_arg (sc_client_arg n)));;
      _ <~ run (function fn c caller_arg (sc_client_arg n));
      n ← callback_at p;
      call_loop run turns c caller_arg (next n)
    end
  end.

Definition call_callbacks (run : client W -> cb (option unit)) (turns : nat) (major minor : Z) (caller_arg : option Z) : cb (option Z) :=
  let c := (major, minor) in
  if out_of_bounds major minor then mret (Some SNMPERR_GENERR) else
  maybe_init;;
  _ <~ callback_lock c;
  scp ← head_of c;
  _ <~ call_loop run turns c caller_arg scp;
  callback_unlock c;;
  mret (Some SNMPERR_SUCCESS).

Definition snmp_count_callbacks (major minor : Z) : cb Z :=
  if out_of_bounds major minor then mret SNMPERR_GENERR else
  maybe_init;;
  scp ← head_of (major, minor);
  s ← get;
  l ← lift (walk (fun p => next <$> heap s !! p) (S (size (heap s))) scp);
  mret (s32 (Z.of_nat (length l))).

Definition snmp_callback_available (major minor : Z) : cb Z :=
  if out_of_bounds major minor then mret SNMPERR_GENERR else
  maybe_init;;
  scp ← head_of (major, minor);
  mret (match scp with Some _ => SNMPERR_SUCCESS | None => SNMPERR_GENERR end).

(** The loop of [snmp_unregister_callback]. *)
Fixpoint unregister_loop (fuel : nat) (c : cell) (target arg : option Z) (matchargs : bool) (scp : option Z) (prevNext : place) (count : Z) : cb Z :=
  match fuel, scp with
  | _, None => mret count
  | O, _ => lift None
  | S fuel, Some p =>
    n ← callback_at p;
    if bool_decide (sc_callback n = target) && (negb matchargs || bool_decide (sc_client_arg n = arg)) then
      s ← get;
      if 1 =? lock_count c s then
        write prevNext (next n);;
        free_callback p;;
        scp ← read prevNext;
        unregister_loop fuel c target arg matchargs scp prevNext (count + 1)
      else
        update_callback p (set_sc_callback None);;
        unregister_loop fuel c target arg matchargs (Some p) prevNext (count + 1)
    else unregister_loop fuel c target arg matchargs (next n) (Next p) count
  end.

(** The head of the list is read before the numbers are tested. *)
Definition snmp_unregister_callback (major minor : Z) (target arg : option Z) (matchargs : bool) : cb (option Z) :=
  let c := (major, minor) in
  scp ← head_of c;
  if out_of_bounds major minor then mret (Some SNMPERR_GENERR) else
  maybe_init;;
  _ <~ callback_lock c;
  s ← get;
  count ← unregister_loop (S (2 * size (heap s))) c target arg matchargs scp (Head c) 0;
  callback_unlock c;;
  mret (Some (s32 count)).

(** The loop of [netsnmp_callback_clear_client_arg] over one list. *)
Fixpoint clear_arg_loop (fuel : nat) (ptr : option Z) (scp : option Z) (rc : Z) : cb Z :=
  match fuel, scp with
  | _, None => mret rc
  | O, _ => lift None
  | S fuel, Some p =>
    n ← callback_at p;
    if bool_decide (is_Some (sc_callback n)) && bool_decide (is_Some (sc_client_arg n)) && bool_decide (sc_client_arg n = ptr) then
      update_callback p (set_sc_client_arg None);;
      clear_arg_loop fuel ptr (next n) (rc + 1)
    else clear_arg_loop fuel ptr (next n) rc
  end.

(** The lists from [i], [j] on. *)
Definition cells_from (i j : Z) : list cell :=
  if i <? MAX_CALLBACK_IDS then
    ((fun j => (i, j)) <$> seqZ j (MAX_CALLBACK_SUBIDS - j)) ++
    (i ← seqZ (i + 1) (MAX_CALLBACK_IDS - (i + 1)); (fun j => (i, j)) <$> seqZ 0 MAX_CALLBACK_SUBIDS)
  else [].

Fixpoint clear_arg_cells (ptr : option Z) (cells : list cell) (rc : Z) : cb Z :=
  match cells with
  | [] => mret rc
  | c :: cells =>
    scp ← head_of c;
    s ← get;
    rc ← clear_arg_loop (S (size (heap s))) ptr scp rc;
    clear_arg_cells ptr cells rc
  end.

Definition netsnmp_callback_clear_client_arg (ptr : option Z) (i j : Z) : cb Z :=
  rc ← clear_arg_cells ptr (cells_from i j) 0; mret (s32 rc).

(** The loop of [clear_callback] over one list. *)
Fixpoint clear_loop (fuel : nat) (c : cell) (scp : option Z) : cb unit :=
  match fuel, scp with
  | _, None => skip
  | O, _ => lift None
  | S fuel, Some p =>
    n ← callback_at p;
    write (Head c) (next n);;
    match sc_callback n, sc_client_arg n with
    | Some _, Some tmp_arg =>
      update_callback p (set_sc_client_arg None);;
      _ ← netsnmp_callback_clear_client_arg (Some tmp_arg) c.1 c.2;
      modify (log (Freed tmp_arg))
    | _, _ => skip
    end;;
    free_callback p;;
    scp ← head_of c;
    clear_loop fuel c scp
  end.

Fixpoint clear_cells (cells : list cell) : cb (option unit) :=
  match cells with
  | [] => mret (Some tt)
  | c :: cells =>
    _ <~ callback_lock c;
    scp ← head_of c;
    s ← get;
    clear_loop (S (size (heap s))) c scp;;
    callback_unlock c;;
    clear_cells cells
  end.

Definition clear_callback : cb (option unit) := maybe_init;; clear_cells (cells_from 0 0).

(** The head of a list, for its caller to walk. *)
Definition snmp_callback_list (major minor : Z) : cb (option Z) := maybe_init;; head_of (major, minor).

(** * Functions of clients

    [turns] bounds the functions one inside the other and the nodes of a list. *)
Definition run_call (calls : Z -> Z -> option Z -> cb (option Z)) (c : cb_call) : cb (option Z) :=
  match c with
  | CallRegister major minor fn arg prio => netsnmp_register_callback major minor fn arg prio
  | CallCallbacks major minor caller_arg => calls major minor caller_arg
  | CallUnregister major minor target arg matchargs => snmp_unregister_callback major minor target arg matchargs
  | CallAvailable major minor => rc ← snmp_callback_available major minor; mret (Some rc)
  | CallCount major minor => n ← snmp_count_callbacks major minor; mret (Some n)
  | CallClearArg ptr i j => rc ← netsnmp_callback_clear_client_arg ptr i j; mret (Some rc)
  | CallClear => _ <~ clear_callback; mret (Some 0)
  end.

Fixpoint execute (calls : Z -> Z -> option Z -> cb (option Z)) (c : client W) : cb (option unit) :=
  match c with
  | Return => mret (Some tt)
  | Call o k => x <~ run_call calls o; execute calls (k x)
  | World f k => s ← get; modify (set_world (f (world s)));; execute calls (k (world s))
  end.

Fixpoint snmp_call_callbacks (turns : nat) (major minor : Z) (caller_arg : option Z) : cb (option Z) :=
  match turns with
  | O => mret None
  | S turns => call_callbacks (execute (snmp_call_callbacks turns)) turns major minor caller_arg
  end.
End functions.
