(* ===== verification/CallbackOps.v ===== *)
(** The lists of callbacks as chains of the heap, what the loops do with them, and
    what the functions of the interface make of them. *)
From Stdlib Require Import ZArith Lia.
From stdpp Require Import gmap sorting functions.
From S2P Require Import Prelude StateMonad Chains SnmpDefs Callback.

Implicit Types (h : gmap Z snmp_gen_callback) (c : cell) (p q : Z) (ps : list Z) (L : cell -> list Z).

Abbreviation nxt h := (fun p => next <$> h !! p).

(** What a node says, apart from its link. *)
Abbreviation entry := (option Z * option Z * Z)%type.
Definition view (n : snmp_gen_callback) : entry := (sc_callback n, sc_client_arg n, priority n).
Definition entries h ps : list entry := omap (fun p => view <$> h !! p) ps.

(** The lists [L] are those of the state: every node is in one of them, once. *)
Record cb_ok {W} (L : cell -> list Z) (s : callbacks W) : Prop := {
  ok_chain c : in_range c = true -> chain (nxt (heap s)) (thecallbacks s !! c) (L c);
  ok_range c : in_range c = false -> L c = [];
  ok_disjoint c c' p : p ∈ L c -> p ∈ L c' -> c = c';
  ok_all p : p ∈ dom (heap s) -> exists c, p ∈ L c;
  ok_sorted c : StronglySorted (fun a b => a.2 <= b.2) (entries (heap s) (L c));
  ok_locks c : lock_count c s = 0 \/ lock_count c s = 1;
  ok_init : callback_need_init s = true -> thecallbacks s = ∅ /\ locks s = ∅
}.

(** * The heap *)

Section heap.
Context {W : Type} `{Env : CallbackEnv W}.
Implicit Types s : callbacks W.

Lemma callback_at_eq p n s : heap s !! p = Some n -> callback_at p s = Some (n, s).
Proof. intros Hp. unfold callback_at. erewrite bind_Some by done. unfold lift. by rewrite Hp. Qed.

Lemma update_callback_eq p f n s : heap s !! p = Some n -> update_callback p f s = Some (tt, set_heap (alter f p (heap s)) s).
Proof.
  intros Hp. unfold update_callback. erewrite bind_Some by (by apply callback_at_eq). unfold modify. do 3 f_equal. apply map_eq. intros q.
  destruct (decide (q = p)) as [->|]; [by rewrite lookup_insert_eq, lookup_alter_eq, Hp|by rewrite lookup_insert_ne, lookup_alter_ne].
Qed.

Lemma free_node_eq p n s : heap s !! p = Some n -> free_callback p s = Some (tt, set_heap (delete p (heap s)) s).
Proof. intros Hp. unfold free_callback. by erewrite bind_Some by (by apply callback_at_eq). Qed.

Lemma head_of_eq c s : in_range c = true -> head_of c s = Some (thecallbacks s !! c, s).
Proof. intros Hc. unfold head_of. by rewrite Hc. Qed.
End heap.

Lemma chain_lookup h r ps x : chain (nxt h) r ps -> x ∈ ps -> exists n, h !! x = Some n.
Proof. intros Hc Hx. destruct (chain_member _ _ _ _ Hc Hx) as [n Hn]. apply fmap_Some in Hn as (m & Hm & _). eauto. Qed.

Lemma chain_head nxt r ps : chain nxt r ps -> r = head ps.
Proof. destruct ps as [|x ps]; [done|]. by intros [-> _]. Qed.

Lemma entries_app h ps ps' : entries h (ps ++ ps') = entries h ps ++ entries h ps'.
Proof. apply omap_app. Qed.

Lemma entries_cons h p n ps : h !! p = Some n -> entries h (p :: ps) = view n :: entries h ps.
Proof. intros Hp. unfold entries. cbn. by rewrite Hp. Qed.

Lemma entries_ext h h' ps : (forall p, p ∈ ps -> view <$> h' !! p = view <$> h !! p) -> entries h' ps = entries h ps.
Proof.
  induction ps as [|p ps IH]; intros He; [done|]. unfold entries. cbn. rewrite (He p) by (by left).
  destruct (view <$> h !! p); [f_equal|]; apply IH; intros q Hq; apply He; by right.
Qed.

(** * Places *)

(** The place behind the nodes [ps] of a list. *)
Definition place_of c ps : place := match list.last ps with Some q => Next q | None => Head c end.

Section places.
Context {W : Type} `{Env : CallbackEnv W}.
Implicit Types s : callbacks W.

Definition relink c ps (v : option Z) s : callbacks W :=
  match list.last ps with
  | Some q => set_heap (alter (set_cb_next v) q (heap s)) s
  | None => set_thecallbacks (partial_alter (fun _ => v) c (thecallbacks s)) s
  end.

Lemma relink_heads c ps v s c' : c' <> c -> thecallbacks (relink c ps v s) !! c' = thecallbacks s !! c'.
Proof. intros Hc. unfold relink. destruct (list.last ps); [done|]. cbn. by rewrite lookup_partial_alter_ne. Qed.

Lemma relink_other c ps v s p : p ∉ ps -> heap (relink c ps v s) !! p = heap s !! p.
Proof.
  intros Hp. unfold relink. destruct (list.last ps) as [q|] eqn:Hq; [|done]. cbn. rewrite lookup_alter_ne; [done|].
  intros ->. apply Hp. apply last_Some in Hq as [l ->]. apply elem_of_app. right. by left.
Qed.

Lemma relink_view c ps v s p : view <$> heap (relink c ps v s) !! p = view <$> heap s !! p.
Proof.
  unfold relink. destruct (list.last ps) as [q|]; [|done]. cbn. destruct (decide (p = q)) as [->|]; [|by rewrite lookup_alter_ne].
  rewrite lookup_alter_eq. by destruct (heap s !! q).
Qed.

Lemma relink_rest c ps v s : locks (relink c ps v s) = locks s /\ callback_need_init (relink c ps v s) = callback_need_init s /\
  world (relink c ps v s) = world s /\ trace (relink c ps v s) = trace s /\ dom (heap (relink c ps v s)) = dom (heap s).
Proof. unfold relink. destruct (list.last ps); cbn; [|done]. by rewrite dom_alter_L. Qed.

Lemma write_place c ps v s : in_range c = true -> (forall q, q ∈ ps -> exists n, heap s !! q = Some n) ->
  write (place_of c ps) v s = Some (tt, relink c ps v s).
Proof.
  intros Hc Hps. unfold write, place_of, relink. destruct (list.last ps) as [q|] eqn:Hq; [|by rewrite Hc].
  apply last_Some in Hq as [l ->]. destruct (Hps q) as [n Hn]; [apply elem_of_app; right; by left|]. by eapply update_callback_eq.
Qed.

(** Behind [ps] there is [v] now. *)
Lemma relink_linked c ps v r s : linked (nxt (heap s)) (thecallbacks s !! c) ps r -> NoDup ps ->
  linked (nxt (heap (relink c ps v s))) (thecallbacks (relink c ps v s) !! c) ps v.
Proof.
  intros Hl Hnd. unfold relink. destruct (list.last ps) as [q|] eqn:Hq.
  - apply last_Some in Hq as [l ->]. cbn. eapply linked_snoc; [exact Hl|done| |].
    + intros z Hz. by rewrite lookup_alter_ne.
    + apply linked_app in Hl as (m & _ & _ & n & Hn & _). rewrite lookup_alter_eq. by destruct (heap s !! q).
  - apply last_None in Hq as ->. cbn. by rewrite lookup_partial_alter_eq.
Qed.

Lemma read_place c ps v s : in_range c = true -> linked (nxt (heap s)) (thecallbacks s !! c) ps v -> read (place_of c ps) s = Some (v, s).
Proof.
  intros Hc Hl. unfold read, place_of. destruct (list.last ps) as [q|] eqn:Hq.
  - apply last_Some in Hq as [l ->]. apply linked_app in Hl as (m & _ & _ & n & Hn & Hv). cbn in Hv. subst v.
    apply fmap_Some in Hn as (k & Hk & ->). by erewrite bind_Some by (by apply callback_at_eq).
  - apply last_None in Hq as ->. cbn in Hl. subst v. by apply head_of_eq.
Qed.

Lemma place_of_snoc c ps p : place_of c (ps ++ [p]) = Next p.
Proof. unfold place_of. by rewrite last_snoc. Qed.
End places.

(** * The invariant under a change of one list *)

Section change.
Context {W : Type}.
Implicit Types s : callbacks W.

(** Nodes of different lists are different, nodes of one list too. *)
Lemma ok_other L s c c' p : cb_ok L s -> p ∈ L c -> c' <> c -> p ∉ L c'.
Proof. intros Hs Hp Hc Hp'. apply Hc. by eapply ok_disjoint. Qed.

Lemma ok_in_range L s c p : cb_ok L s -> p ∈ L c -> in_range c = true.
Proof. intros Hs Hp. destruct (in_range c) eqn:Hc; [done|]. rewrite (ok_range _ _ Hs c Hc) in Hp. by apply not_elem_of_nil in Hp. Qed.

Lemma ok_node L s c p : cb_ok L s -> p ∈ L c -> exists n, heap s !! p = Some n.
Proof. intros Hs Hp. eapply chain_lookup; [|exact Hp]. eapply ok_chain; [done|]. by eapply ok_in_range. Qed.

Lemma ok_NoDup L s c : cb_ok L s -> NoDup (L c).
Proof.
  intros Hs. destruct (in_range c) eqn:Hc; [|by rewrite (ok_range _ _ Hs c Hc); constructor]. by eapply chain_NoDup, ok_chain.
Qed.

Lemma ok_length L s c : cb_ok L s -> (length (L c) <= size (heap s))%nat.
Proof.
  intros Hs. destruct (in_range c) eqn:Hc; [|rewrite (ok_range _ _ Hs c Hc); cbn; lia]. by eapply chain_length, ok_chain.
Qed.

Lemma ok_change L c ps s s' : cb_ok L s -> in_range c = true ->
  chain (nxt (heap s')) (thecallbacks s' !! c) ps ->
  (forall c', c' <> c -> thecallbacks s' !! c' = thecallbacks s !! c') ->
  (forall p, p ∉ L c -> p ∉ ps -> heap s' !! p = heap s !! p) ->
  (forall p, p ∈ ps -> p ∈ L c \/ p ∉ dom (heap s)) ->
  (forall p, p ∈ L c -> p ∉ ps -> heap s' !! p = None) ->
  StronglySorted (fun a b => a.2 <= b.2) (entries (heap s') ps) ->
  (forall c', lock_count c' s' = 0 \/ lock_count c' s' = 1) ->
  (callback_need_init s' = true -> thecallbacks s' = ∅ /\ locks s' = ∅) ->
  cb_ok (<[c := ps]> L) s' /\ forall c' p, c' <> c -> p ∈ L c' -> heap s' !! p = heap s !! p.
Proof.
  intros Hs Hc Hch Hheads Hout Hnew Hgone Hsort Hlocks Hinit.
  assert (forall c' p, c' <> c -> p ∈ L c' -> p ∉ ps) as Hps.
  { intros c' p Hne Hp Hin. destruct (Hnew _ Hin) as [Hin'|Hfresh]; [by eapply ok_other in Hp|].
    destruct (ok_node _ _ _ _ Hs Hp) as [n Hn]. by eapply Hfresh, elem_of_dom_2. }
  assert (forall c' p, c' <> c -> p ∈ L c' -> heap s' !! p = heap s !! p) as Hsame.
  { intros c' p Hne Hp. apply Hout; [|by eapply Hps]. eapply ok_other; [done|exact Hp|congruence]. }
  split; [split|].
  - intros c' Hc'. destruct (decide (c' = c)) as [->|Hne]; [by rewrite fn_lookup_insert|]. rewrite fn_lookup_insert_ne, Hheads by congruence.
    eapply linked_ext; [|by apply ok_chain]. intros p Hp. cbn. by rewrite (Hsame c').
  - intros c' Hc'. rewrite fn_lookup_insert_ne by congruence. by eapply ok_range.
  - intros c1 c2 p. destruct (decide (c1 = c)) as [->|H1], (decide (c2 = c)) as [->|H2]; rewrite ?fn_lookup_insert; rewrite ?fn_lookup_insert_ne by congruence;
      intros Hp1 Hp2; [done|exfalso; by apply (Hps c2 p)|exfalso; by apply (Hps c1 p)|by eapply ok_disjoint].
  - intros p Hp. destruct (decide (p ∈ ps)) as [Hin|Hin]; [exists c; by rewrite fn_lookup_insert|].
    apply elem_of_dom in Hp as [n Hn]. destruct (decide (p ∈ L c)) as [Hin'|Hin']; [by rewrite Hgone in Hn|].
    rewrite Hout in Hn by done. destruct (ok_all _ _ Hs p) as [c' Hp]; [by eapply elem_of_dom_2|]. exists c'. by rewrite fn_lookup_insert_ne by congruence.
  - intros c'. destruct (decide (c' = c)) as [->|Hne]; [by rewrite fn_lookup_insert|]. rewrite fn_lookup_insert_ne by congruence.
    rewrite (entries_ext (heap s)); [by eapply ok_sorted|]. intros p Hp. by rewrite (Hsame c').
  - done.
  - done.
  - intros c' p Hne Hp. by apply (Hsame c').
Qed.
End change.

(** * Registration *)

Fixpoint insert_entry (e : entry) (l : list entry) : list entry :=
  match l with
  | [] => [e]
  | x :: r => if e.2 <? x.2 then e :: l else x :: insert_entry e r
  end.

Section register.
Context {W : Type} `{Env : CallbackEnv W}.
Implicit Types s : callbacks W.

Lemma register_loop_eq prio c ps2 : forall ps1 fuel r s, chain (nxt (heap s)) r ps2 -> (length ps2 < fuel)%nat ->
  exists k1 k2, ps2 = k1 ++ k2 /\ register_loop fuel prio r (place_of c ps1) s = Some ((place_of c (ps1 ++ k1), head k2), s) /\
    forall e, e.2 = prio -> insert_entry e (entries (heap s) ps2) = entries (heap s) k1 ++ e :: entries (heap s) k2.
Proof.
  induction ps2 as [|p ps2 IH]; intros ps1 [|fuel] r s Hch Hf; cbn in Hf; try lia.
  - cbn in Hch. subst r. exists [], []. split; [done|]. split; [by rewrite app_nil_r|done].
  - destruct Hch as [-> (m & Hm & Hch)]. apply fmap_Some in Hm as (n & Hn & ->). cbn [register_loop]. erewrite bind_Some by (by apply callback_at_eq). cbv beta.
    destruct (Z.ltb_spec prio (priority n)) as [Hlt|Hge].
    + exists [], (p :: ps2). split; [done|]. split; [by rewrite app_nil_r|]. intros e He. rewrite (entries_cons _ _ n) by done. cbn.
      by rewrite (proj2 (Z.ltb_lt e.2 _)) by (unfold view; cbn; lia).
    + destruct (IH (ps1 ++ [p]) fuel (next n) s Hch) as (k1 & k2 & -> & Hrun & Hins); [lia|]. rewrite place_of_snoc in Hrun.
      exists (p :: k1), k2. split; [done|]. split; [rewrite Hrun; by rewrite <- app_assoc|]. intros e He. rewrite !(entries_cons _ _ n) by done. cbn.
      rewrite (proj2 (Z.ltb_ge e.2 _)) by (unfold view; cbn; lia). by rewrite Hins.
Qed.

Lemma insert_entry_perm e l : insert_entry e l ≡ₚ e :: l.
Proof. induction l as [|x l IH]; cbn; [done|]. destruct (_ <? _); [done|]. rewrite IH. apply Permutation_swap. Qed.

Lemma insert_entry_sorted e l : StronglySorted (fun a b => a.2 <= b.2) l -> StronglySorted (fun a b : entry => a.2 <= b.2) (insert_entry e l).
Proof.
  induction 1 as [|x l Hl IH Hx]; cbn; [repeat constructor|]. destruct (Z.ltb_spec e.2 x.2).
  - constructor; [by constructor|]. constructor; [lia|]. eapply list.Forall_impl; [exact Hx|]. cbn. intros; lia.
  - constructor; [done|]. rewrite insert_entry_perm. constructor; [lia|done].
Qed.
End register.


Section ops.
Context {W : Type} `{Env : CallbackEnv W}.
Implicit Types s : callbacks W.

Hypothesis malloc_fresh : forall taken w p w', malloc taken w = (Some p, w') -> p ∉ taken.

(** * Locks *)

Lemma proceed_Some {A B} (m : M (callbacks W) (option A)) (k : A -> M (callbacks W) (option B)) s x s' :
  m s = Some (Some x, s') -> proceed m k s = k x s'.
Proof. intros Hm. unfold proceed. by erewrite bind_Some by exact Hm. Qed.

Lemma proceed_None {A B} (m : M (callbacks W) (option A)) (k : A -> M (callbacks W) (option B)) s s' :
  m s = Some (None, s') -> proceed m k s = Some (None, s').
Proof. intros Hm. unfold proceed. by erewrite bind_Some by exact Hm. Qed.

Definition with_lock c (v : Z) s : callbacks W := set_locks (<[c := v]> (locks s)) s.

Lemma add_lock_eq c d s : in_range c = true -> add_lock c d s = Some (tt, with_lock c (lock_count c s + d) s).
Proof. intros Hc. unfold add_lock. by rewrite Hc. Qed.

Lemma callback_lock_free c s : in_range c = true -> lock_count c s = 0 -> callback_lock c s = Some (Some 0, with_lock c 1 s).
Proof.
  intros Hc Hl. unfold callback_lock. rewrite Hc. cbn [negb]. step done. rewrite Hl. cbv match. change (1 <=? 0) with false. cbv match.
  step (by apply add_lock_eq). by rewrite Hl.
Qed.

Lemma callback_lock_held c s : in_range c = true -> lock_count c s = 1 ->
  callback_lock c s = Some (if use_assert then None else Some 1, log (NotLocked c) s).
Proof. intros Hc Hl. unfold callback_lock. rewrite Hc. cbn [negb]. step done. rewrite Hl. change (1 <=? 1) with true. cbv match. by step done. Qed.

Lemma with_lock_count c v c' s : lock_count c' (with_lock c v s) = if decide (c' = c) then v else lock_count c' s.
Proof. unfold lock_count, with_lock. cbn. destruct (decide (c' = c)) as [->|]; [by rewrite lookup_insert_eq|by rewrite lookup_insert_ne]. Qed.

Lemma callback_unlock_eq c s : in_range c = true -> lock_count c s = 1 -> callback_unlock c s = Some (tt, with_lock c 0 s).
Proof. intros Hc Hl. unfold callback_unlock. rewrite add_lock_eq by done. by rewrite Hl. Qed.

(** * The invariant and the parts of the state *)

Lemma ok_same L s s' : cb_ok L s -> heap s' = heap s -> thecallbacks s' = thecallbacks s -> locks s' = locks s ->
  callback_need_init s' = callback_need_init s \/ callback_need_init s' = false -> cb_ok L s'.
Proof.
  intros [Hch Hra Hdi Hal Hso Hlo Hin] Hh Ht Hl Hi. split; rewrite ?Hh, ?Ht, ?Hl; try done.
  - intros c. unfold lock_count. rewrite Hl. apply Hlo.
  - intros Hn. apply Hin. destruct Hi; congruence.
Qed.

Lemma ok_with_lock L s c v : cb_ok L s -> callback_need_init s = false -> v = 0 \/ v = 1 -> cb_ok L (with_lock c v s).
Proof.
  intros [Hch Hra Hdi Hal Hso Hlo Hin] Hi Hv. split; try done.
  - intros c'. rewrite with_lock_count. by destruct (decide (c' = c)).
  - cbn. by rewrite Hi.
Qed.

Lemma maybe_init_eq L s : cb_ok L s -> maybe_init s = Some (tt, set_need_init false s).
Proof.
  intros Hs. unfold maybe_init. step done. destruct (callback_need_init s) eqn:Hi; cbn [when].
  - unfold init_callbacks. step done. rewrite Hi. cbn [negb]. step done. step done. unfold modify. destruct (ok_init _ _ Hs Hi) as [Ht Hl].
    destruct s. cbn in *. by subst.
  - destruct s. cbn in *. by subst.
Qed.

Lemma ok_maybe_init L s : cb_ok L s -> cb_ok L (set_need_init false s).
Proof. intros Hs. by eapply ok_same; [..|right]. Qed.

(** What is locked stays as it is, but for the arguments that are cleared. *)
Definition shape (n : snmp_gen_callback) : option Z * Z * option Z := (sc_callback n, priority n, next n).

(** The functions of a list that were called, last one first. *)
Definition calls c (tr : list event) : list Z :=
  omap (fun e => match e with Called fn c' _ _ => if decide (c' = c) then Some fn else None | _ => None end) tr.

Definition frame L s L' s' : Prop := forall c, lock_count c s' = lock_count c s /\
  (lock_count c s = 1 -> L' c = L c /\ (forall p, p ∈ L c -> shape <$> heap s' !! p = shape <$> heap s !! p) /\
    calls c (trace s') = calls c (trace s)).

Lemma frame_refl L s : frame L s L s.
Proof. done. Qed.

Lemma frame_trans L1 s1 L2 s2 L3 s3 : frame L1 s1 L2 s2 -> frame L2 s2 L3 s3 -> frame L1 s1 L3 s3.
Proof.
  intros H1 H2 c. destruct (H1 c) as [Hl1 Hc1], (H2 c) as [Hl2 Hc2]. split; [by rewrite Hl2|]. intros Hc.
  destruct (Hc1 Hc) as (HL1 & Hp1 & Ht1). destruct Hc2 as (HL2 & Hp2 & Ht2); [by rewrite Hl1|].
  split; [by rewrite HL2|]. split; [|by rewrite Ht2]. intros p Hp. rewrite Hp2 by (by rewrite HL1). by apply Hp1.
Qed.

(** Only the list [c] was changed, and no function called. *)
Definition only c L s L' s' : Prop :=
  (forall c', c' <> c -> L' c' = L c' /\ forall p, p ∈ L c' -> heap s' !! p = heap s !! p) /\ (forall c', lock_count c' s' = lock_count c' s) /\
  trace s' = trace s.

Lemma only_trans c L1 s1 L2 s2 L3 s3 : only c L1 s1 L2 s2 -> only c L2 s2 L3 s3 -> only c L1 s1 L3 s3.
Proof.
  intros (H1 & Hl1 & Ht1) (H2 & Hl2 & Ht2). split; [|split; [intros c'; by rewrite Hl2|by rewrite Ht2]]. intros c' Hne.
  destruct (H1 c' Hne) as [HL1 Hp1], (H2 c' Hne) as [HL2 Hp2]. split; [by rewrite HL2|]. intros p Hp. rewrite Hp2 by (by rewrite HL1). by apply Hp1.
Qed.

Lemma only_frame c L s L' s' : lock_count c s = 0 -> only c L s L' s' -> frame L s L' s'.
Proof.
  intros Hc (Ho & Hl & Ht) c'. split; [done|]. intros Hc'. destruct (decide (c' = c)) as [->|Hne]; [congruence|]. destruct (Ho c' Hne) as [HL Hp].
  split; [done|]. split; [|by rewrite Ht]. intros p Hin. by rewrite Hp.
Qed.

(** The contents of the lists. *)
Definition table L s c : list entry := entries (heap s) (L c).

Lemma only_table c L s L' s' c' : only c L s L' s' -> c' <> c -> table L' s' c' = table L s c'.
Proof. intros (Ho & _) Hne. destruct (Ho c' Hne) as [HL Hp]. unfold table. rewrite HL. apply entries_ext. intros p Hin. by rewrite Hp. Qed.

Lemma in_bounds c : in_range c = true -> out_of_bounds c.1 c.2 = false.
Proof.
  unfold in_range, out_of_bounds, MAX_CALLBACK_IDS, MAX_CALLBACK_SUBIDS. intros H. apply orb_false_iff. rewrite !Z.leb_gt.
  destruct (Z.ltb_spec c.1 2), (Z.ltb_spec c.2 16); try done; rewrite ?andb_false_r in H; done.
Qed.

(** * Registration *)

(** A new node behind [k1]. *)
Lemma link_in_ok L s c p n k1 k2 : cb_ok L s -> in_range c = true -> callback_need_init s = false -> L c = k1 ++ k2 -> p ∉ dom (heap s) ->
  StronglySorted (fun a b => a.2 <= b.2) (entries (heap s) k1 ++ view n :: entries (heap s) k2) ->
  let s' := relink c k1 (Some p) (set_heap (alter (set_cb_next (head k2)) p (<[p := n]> (heap s))) s) in
  cb_ok (<[c := k1 ++ p :: k2]> L) s' /\ entries (heap s') (k1 ++ p :: k2) = entries (heap s) k1 ++ view n :: entries (heap s) k2 /\
  only c L s (<[c := k1 ++ p :: k2]> L) s'.
Proof.
  intros Hs Hc Hi HL Hp Hsort s'. set (s1 := set_heap _ s) in *. pose proof (ok_NoDup _ _ c Hs) as Hnd. rewrite HL in Hnd.
  assert (forall q, q ∈ L c -> q <> p) as Hfresh by (intros q Hq ->; destruct (ok_node _ _ _ _ Hs Hq) as [m Hm]; by eapply Hp, elem_of_dom_2).
  assert (forall q, q <> p -> heap s1 !! q = heap s !! q) as Hq by (intros q Hne; cbn; by rewrite lookup_alter_ne, lookup_insert_ne by done).
  assert (heap s1 !! p = Some (set_cb_next (head k2) n)) as Hsp by (cbn; by rewrite lookup_alter_eq, lookup_insert_eq).
  pose proof (ok_chain _ _ Hs c Hc) as Hch. rewrite HL in Hch. apply linked_app in Hch as (r & H1 & H2).
  assert (r = head k2) as -> by (by eapply chain_head).
  assert (linked (nxt (heap s1)) (thecallbacks s1 !! c) k1 (head k2)) as H1'.
  { eapply linked_ext; [|exact H1]. intros q Hin. rewrite Hq; [done|]. apply Hfresh. rewrite HL. apply elem_of_app. by left. }
  assert (forall q, q ∉ k1 -> heap s' !! q = heap s1 !! q) as Hk1 by (intros q Hin; by apply relink_other).
  destruct (list.NoDup_app k1 k2) as [Hnd' _]. destruct (Hnd' Hnd) as (Hnd1 & Hd & _).
  assert (p ∉ k1) as Hpk1 by (intros Hin; apply (Hfresh p); [rewrite HL; apply elem_of_app; by left|done]).
  assert (entries (heap s') (k1 ++ p :: k2) = entries (heap s) k1 ++ view n :: entries (heap s) k2) as Hent.
  { assert (forall q, q ∈ L c -> view <$> heap s' !! q = view <$> heap s !! q) as Hv.
    { intros q Hin. unfold s'. rewrite relink_view, Hq; [done|by apply Hfresh]. }
    rewrite entries_app, (entries_cons _ _ (set_cb_next (head k2) n)) by (by rewrite Hk1). f_equal; [|f_equal];
      apply entries_ext; intros q Hin; apply Hv; rewrite HL; apply elem_of_app; auto. }
  assert (locks s' = locks s /\ callback_need_init s' = false /\ trace s' = trace s) as (Hl' & Hi' & Ht').
  { destruct (relink_rest c k1 (Some p) s1) as (Hl1 & Hi1 & _ & Ht1 & _). split; [exact Hl1|]. split; [etrans; [exact Hi1|exact Hi]|exact Ht1]. }
  assert (forall c', lock_count c' s' = lock_count c' s) as Hlc by (intros c'; unfold lock_count; by rewrite Hl').
  destruct (ok_change L c (k1 ++ p :: k2) s s') as [Hok Hrest]; try done.
  - apply linked_app. exists (Some p). split; [by eapply relink_linked|]. split; [done|]. exists (head k2). rewrite Hk1, Hsp by done. split; [done|].
    eapply linked_ext; [|exact H2]. intros q Hin. rewrite Hk1 by (intros Hin1; by apply (Hd q)). rewrite Hq; [done|]. apply Hfresh. rewrite HL. apply elem_of_app. by right.
  - intros c' Hne. unfold s'. by rewrite relink_heads.
  - intros q Hq1 Hq2. apply not_elem_of_app in Hq2 as [Hq2 [Hq3 _]%not_elem_of_cons]. by rewrite Hk1, Hq.
  - intros q [Hin|[->|Hin]%elem_of_cons]%elem_of_app; [left|by right|left]; rewrite HL; apply elem_of_app; auto.
  - intros q Hin Hnin. exfalso. apply Hnin. rewrite HL in Hin. apply elem_of_app in Hin as [Hin|Hin]; apply elem_of_app; [by left|right; by right].
  - by rewrite Hent.
  - intros c'. rewrite Hlc. by eapply ok_locks.
  - by rewrite Hi'.
  - split; [done|]. split; [done|]. split; [|done]. intros c' Hne. rewrite fn_lookup_insert_ne by congruence. split; [done|]. intros q Hin. by apply (Hrest c').
Qed.

(** Whatever is done to a list between taking its lock and giving it back. *)
Lemma locked_only c L s L' s' : lock_count c s = 0 -> only c L (with_lock c 1 (set_need_init false s)) L' s' -> only c L s L' (with_lock c 0 s').
Proof.
  intros Hc (Ho & Hl & Ht). split; [exact Ho|]. split; [|exact Ht]. intros c'. rewrite with_lock_count. specialize (Hl c'). rewrite with_lock_count in Hl.
  by destruct (decide (c' = c)) as [->|]; [|rewrite Hl].
Qed.

Lemma register_runs major minor fn arg prio L s (c := (major, minor)) :
  cb_ok L s -> in_range c = true -> lock_count c s = 0 ->
  runs (netsnmp_register_callback major minor fn arg prio) (fun r s' => exists L', cb_ok L' s' /\ only c L s L' s' /\
    ((r = Some SNMPERR_GENERR /\ table L' s' c = table L s c) \/
     (r = Some SNMPERR_SUCCESS /\ table L' s' c = insert_entry (fn, arg, prio) (table L s c)))) s.
Proof.
  intros Hs Hc Hl. unfold netsnmp_register_callback. pose proof (in_bounds c Hc) as Hb. cbn in Hb. rewrite Hb. cbv zeta. fold c. unfold runs. step (by eapply maybe_init_eq).
  erewrite proceed_Some by (by apply callback_lock_free). set (s1 := with_lock c 1 (set_need_init false s)).
  assert (cb_ok L s1) as Hs1 by (apply ok_with_lock; [by apply ok_maybe_init|done|by right]).
  assert (lock_count c s1 = 1) as Hl1 by (by unfold s1; rewrite with_lock_count, decide_True).
  step done. destruct (malloc _ _) as [[p|] w] eqn:Hm; cbv zeta.
  - apply malloc_fresh in Hm as Hp. step done. step done. step (by apply head_of_eq). step done. cbn [heap set_heap set_world thecallbacks s1 with_lock set_locks set_need_init].
    set (n := mkcallback fn arg prio None). set (h1 := <[p := n]> (heap s)). set (s2 := set_heap h1 (set_world w s1)). set (s3 := set_world w s1).
    assert (cb_ok L s3) as Hs3 by (by eapply ok_same; [..|left]). pose proof (ok_chain _ _ Hs3 c Hc) as Hch.
    assert (forall q, q ∈ L c -> heap s2 !! q = heap s !! q) as Hq.
    { intros q Hin. unfold s2, h1. cbn. rewrite lookup_insert_ne; [done|]. intros ->. destruct (ok_node _ _ _ _ Hs1 Hin) as [m Hm'].
      by eapply Hp, elem_of_dom_2. }
    assert (chain (nxt (heap s2)) (thecallbacks s !! c) (L c)) as Hch2 by (eapply linked_ext; [|exact Hch]; intros q Hin; cbn beta; by rewrite Hq).
    destruct (register_loop_eq prio c (L c) [] (S (size h1)) _ s2 Hch2) as (k1 & k2 & HL & Hloop & Hins); [apply chain_length in Hch2; cbn in Hch2; lia|].
    specialize (Hins (fn, arg, prio) eq_refl). rewrite HL, !(entries_ext (heap s) (heap s2)) in Hins
      by (intros q Hin; rewrite Hq; [done|]; rewrite HL; rewrite ?elem_of_app in *; tauto).
    step (exact Hloop). cbn [fst snd app]. step (eapply update_callback_eq, lookup_insert_eq).
    destruct (link_in_ok L s3 c p n k1 k2) as (Hok & Hent & Honly); [done..| |].
    { change (view n) with (fn, arg, prio). change (heap s3) with (heap s). rewrite <- Hins, <- HL. apply insert_entry_sorted. by eapply ok_sorted. }
    set (s4 := relink _ _ _ _) in *. assert (forall q, q ∈ k1 -> exists m, alter (set_cb_next (head k2)) p h1 !! q = Some m) as Hk1.
    { intros q Hin. destruct (ok_node L s c q Hs) as [m Hm']; [rewrite HL; apply elem_of_app; by left|]. destruct (decide (q = p)) as [->|Hne].
      - exfalso. by eapply Hp, elem_of_dom_2.
      - exists m. unfold h1. by rewrite lookup_alter_ne, lookup_insert_ne. }
    step (by apply write_place). fold s4.
    assert (lock_count c s4 = 1) as Hl4 by (destruct Honly as (_ & Hlk & _); by rewrite Hlk).
    assert (callback_need_init s4 = false) as Hi4 by (by destruct (relink_rest c k1 (Some p) (set_heap (alter (set_cb_next (head k2)) p (<[p := n]> (heap s3))) s3)) as (_ & ? & _)).
    step (by apply callback_unlock_eq). exists (<[c := k1 ++ p :: k2]> L). split; [apply ok_with_lock; auto|]. split; [by apply locked_only|].
    right. split; [done|]. unfold table. rewrite fn_lookup_insert, HL, Hins. exact Hent.
  - set (s3 := set_world w s1). assert (cb_ok L s3) as Hs3 by (by eapply ok_same; [..|left]).
    step (done). step (by apply callback_unlock_eq). exists L. split; [apply ok_with_lock; auto|]. split; [|by left].
    apply locked_only; [done|]. done.
Qed.
(** * Removal *)

Lemma unlink_ok L s c p n k1 k2 : cb_ok L s -> in_range c = true -> L c = k1 ++ p :: k2 -> heap s !! p = Some n ->
  let s1 := relink c k1 (next n) s in let s' := set_heap (delete p (heap s1)) s1 in
  write (place_of c k1) (next n) s = Some (tt, s1) /\ (exists m, heap s1 !! p = Some m) /\ read (place_of c k1) s' = Some (head k2, s') /\
  cb_ok (<[c := k1 ++ k2]> L) s' /\ (entries (heap s') k1 = entries (heap s) k1 /\ entries (heap s') k2 = entries (heap s) k2) /\ only c L s (<[c := k1 ++ k2]> L) s'.
Proof.
  intros Hs Hc HL Hn s1 s'. pose proof (ok_NoDup _ _ c Hs) as Hnd. rewrite HL in Hnd. apply list.NoDup_app in Hnd as (Hnd1 & Hd & [Hp2 Hnd2]%list.NoDup_cons).
  assert (p ∉ k1) as Hp1 by (intros Hin; apply (Hd p Hin); by left).
  pose proof (ok_chain _ _ Hs c Hc) as Hch. rewrite HL in Hch. apply linked_app in Hch as (r & H1 & [-> (m & Hm & H2)]).
  rewrite Hn in Hm. cbn in Hm. injection Hm as <-. pose proof (chain_head _ _ _ H2) as Hnx.
  assert (forall q, q ∉ k1 -> q <> p -> heap s' !! q = heap s !! q) as Hq.
  { intros q Hin Hne. cbn. rewrite lookup_delete_ne by done. by apply relink_other. }
  assert (linked (nxt (heap s')) (thecallbacks s' !! c) k1 (next n)) as H1'.
  { eapply (linked_ext (nxt (heap s1))); [|by eapply relink_linked]. intros q Hin. cbn. rewrite lookup_delete_ne; [done|]. by intros ->. }
  assert (chain (nxt (heap s')) (next n) k2) as H2'.
  { eapply linked_ext; [|exact H2]. intros q Hin. cbn beta. rewrite Hq; [done|intros Hin1; apply (Hd q Hin1); by right|by intros ->]. }
  assert (forall q, q ∈ k1 ++ k2 -> view <$> heap s' !! q = view <$> heap s !! q) as Hv.
  { intros q Hin. cbn. rewrite lookup_delete_ne by (intros ->; apply elem_of_app in Hin as [?|?]; done). apply relink_view. }
  assert (entries (heap s') k1 = entries (heap s) k1 /\ entries (heap s') k2 = entries (heap s) k2) as [He1 He2]
    by (split; apply entries_ext; intros q Hin; apply Hv, elem_of_app; auto).
  destruct (relink_rest c k1 (next n) s) as (Hl1 & Hi1 & _ & Ht1 & _). fold s1 in Hl1, Hi1, Ht1.
  assert (forall c', lock_count c' s' = lock_count c' s) as Hlc by (intros c'; unfold lock_count; cbn; by rewrite Hl1).
  split; [apply write_place; [done|]; intros q Hin; eapply ok_node; [done|]; rewrite HL; apply elem_of_app; by left|].
  split; [exists n; unfold s1; by rewrite relink_other|]. split; [rewrite <- Hnx; by eapply read_place|].
  destruct (ok_change L c (k1 ++ k2) s s') as [Hok Hrest]; try done.
  - apply linked_app. by exists (next n).
  - intros c' Hne. cbn. by apply relink_heads.
  - intros q Hq1 Hq2. apply not_elem_of_app in Hq2 as [Hq2 _]. apply Hq; [done|]. intros ->. apply Hq1. rewrite HL. apply elem_of_app. right. by left.
  - intros q Hin. left. rewrite HL. apply elem_of_app. apply elem_of_app in Hin as [?|?]; [by left|right; by right].
  - intros q Hin Hnin. rewrite HL in Hin. apply elem_of_app in Hin as [Hin|[->|Hin]%elem_of_cons]; [|apply lookup_delete_eq|]; exfalso; apply Hnin, elem_of_app; auto.
  - rewrite entries_app, He1, He2. pose proof (ok_sorted _ _ Hs c) as Hso. rewrite HL, entries_app, (entries_cons _ _ n) in Hso by done.
    apply StronglySorted_app in Hso as (Hab & Ha & [Hb _]%StronglySorted_inv). apply StronglySorted_app. split; [|done].
    intros x y Hx Hy. apply Hab; [done|by right].
  - intros c'. rewrite Hlc. by eapply ok_locks.
  - intros Hi. cbn in Hi. rewrite Hi1 in Hi. destruct (ok_init _ _ Hs Hi) as [Ht _]. exfalso. pose proof (ok_chain _ _ Hs c Hc) as Hch. rewrite Ht, lookup_empty, HL in Hch.
    by destruct k1; destruct Hch.
  - split; [done|]. split; [done|]. split; [|split; [done|exact Ht1]]. intros c' Hne. rewrite fn_lookup_insert_ne by congruence. split; [done|].
    intros q Hin. by apply (Hrest c').
Qed.

Definition matches (target arg : option Z) (matchargs : bool) (e : entry) : bool :=
  bool_decide (e.1.1 = target) && (negb matchargs || bool_decide (e.1.2 = arg)).

Lemma unregister_loop_runs c target arg ma ps2 : forall L ps1 fuel count s,
  cb_ok L s -> in_range c = true -> lock_count c s = 1 -> L c = ps1 ++ ps2 -> (length ps2 < fuel)%nat ->
  runs (unregister_loop fuel c target arg ma (head ps2) (place_of c ps1) count) (fun r s' => exists L', cb_ok L' s' /\ only c L s L' s' /\
    callback_need_init s' = callback_need_init s /\
    r = count + Z.of_nat (length (List.filter (matches target arg ma) (entries (heap s) ps2))) /\
    table L' s' c = entries (heap s) ps1 ++ List.filter (fun e => negb (matches target arg ma e)) (entries (heap s) ps2)) s.
Proof.
  induction ps2 as [|p ps2 IH]; intros L ps1 [|fuel] count s Hs Hc Hl HL Hf; cbn in Hf; try lia.
  - exists L. cbn. split; [done|]. split; [done|]. split; [done|]. split; [lia|]. unfold table. by rewrite HL, !app_nil_r.
  - cbn [unregister_loop list.head]. destruct (ok_node L s c p Hs) as [n Hn]; [rewrite HL; apply elem_of_app; right; by left|].
    rewrite (entries_cons _ _ n) by done. cbn [List.filter]. unfold runs. step (by apply callback_at_eq).
    change (bool_decide (sc_callback n = target) && (negb ma || bool_decide (sc_client_arg n = arg))) with (matches target arg ma (view n)).
    destruct (matches target arg ma (view n)); cbn [negb].
    + step done. rewrite Hl. change (1 =? 1) with true. cbv match. destruct (unlink_ok L s c p n ps1 ps2) as (Hw & (m & Hm) & Hr & Hok & (He1 & He2) & Honly); [done..|].
      set (s1 := relink c ps1 (next n) s) in *. set (s' := set_heap (delete p (heap s1)) s1) in *.
      step (exact Hw). step (by eapply free_node_eq). fold s'. step (exact Hr).
      assert (Hl' : lock_count c s' = 1) by (destruct Honly as (_ & Hlk & _); by rewrite Hlk).
      eapply runs_mono; [apply (IH (<[c := ps1 ++ ps2]> L) ps1); [done|done|done|by rewrite fn_lookup_insert|lia]|].
      cbv beta. intros r s2 (L' & Hok2 & Honly2 & Hi2 & -> & Htab).
      exists L'. split; [done|]. split; [by eapply only_trans|]. split; [rewrite Hi2; by destruct (relink_rest c ps1 (next n) s) as (_ & ? & _)|].
      rewrite He1, He2 in *. split; [cbn; lia|done].
    + rewrite <- (place_of_snoc c ps1 p). assert (next n = head ps2) as ->.
      { pose proof (ok_chain _ _ Hs c Hc) as Hch. rewrite HL in Hch. apply linked_app in Hch as (r & _ & [-> (m & Hm & H2)]).
        rewrite Hn in Hm. cbn in Hm. injection Hm as <-. by eapply chain_head. }
      eapply runs_mono; [apply (IH L (ps1 ++ [p])); [done|done|done|by rewrite <- app_assoc|lia]|].
      cbv beta. intros r s2 (L' & Hok2 & Honly2 & Hi2 & -> & Htab). exists L'. split; [done|]. split; [done|]. split; [done|]. split; [done|].
      rewrite Htab, entries_app, (entries_cons _ _ n) by done. cbn. by rewrite <- app_assoc.
Qed.

Lemma unregister_runs major minor target arg ma L s (c := (major, minor)) :
  cb_ok L s -> in_range c = true -> lock_count c s = 0 ->
  runs (snmp_unregister_callback major minor target arg ma) (fun r s' => exists L', cb_ok L' s' /\ only c L s L' s' /\
    r = Some (s32 (Z.of_nat (length (List.filter (matches target arg ma) (table L s c))))) /\
    table L' s' c = List.filter (fun e => negb (matches target arg ma e)) (table L s c)) s.
Proof.
  intros Hs Hc Hl. unfold snmp_unregister_callback, runs. pose proof (in_bounds c Hc) as Hb. cbn in Hb. rewrite Hb. cbv zeta. fold c.
  step (by apply head_of_eq). step (by eapply maybe_init_eq). erewrite proceed_Some by (by apply callback_lock_free).
  set (s1 := with_lock c 1 (set_need_init false s)). assert (cb_ok L s1) as Hs1 by (apply ok_with_lock; [by apply ok_maybe_init|done|by right]).
  assert (lock_count c s1 = 1) as Hl1 by (by unfold s1; rewrite with_lock_count, decide_True). step done.
  rewrite (chain_head _ _ _ (ok_chain _ _ Hs c Hc)). change (Head c) with (place_of c []). apply runs_bind.
  eapply runs_mono; [apply (unregister_loop_runs c target arg ma (L c) L []); [done..|]|].
  - pose proof (ok_length _ _ c Hs1). cbn in *. lia.
  - cbv beta. intros r s2 (L' & Hok & Honly & Hi & -> & Htab). unfold runs.
    assert (lock_count c s2 = 1) as Hl2 by (destruct Honly as (_ & Hlk & _); by rewrite Hlk).
    step (by apply callback_unlock_eq). exists L'. split; [apply ok_with_lock; auto|]. split; [by apply locked_only|]. split; [done|exact Htab].
Qed.

(** * Clearing an argument *)

Definition clear_entry (ptr : option Z) (e : entry) : entry :=
  if bool_decide (is_Some e.1.1) && bool_decide (is_Some e.1.2) && bool_decide (e.1.2 = ptr) then (e.1.1, None, e.2) else e.

Definition clear_node (ptr : option Z) (n : snmp_gen_callback) : snmp_gen_callback :=
  if bool_decide (is_Some (sc_callback n)) && bool_decide (is_Some (sc_client_arg n)) && bool_decide (sc_client_arg n = ptr)
  then set_sc_client_arg None n else n.

Definition clear_at (ptr : option Z) (ps : list Z) s : callbacks W := set_heap (foldl (fun h p => alter (clear_node ptr) p h) (heap s) ps) s.

Lemma clear_node_shape ptr n : shape (clear_node ptr n) = shape n.
Proof. unfold clear_node. by destruct (_ && _). Qed.

Lemma clear_node_view ptr n : view (clear_node ptr n) = clear_entry ptr (view n).
Proof. unfold clear_node, clear_entry. cbn. by destruct (_ && _). Qed.

Lemma clear_node_twice ptr n : clear_node ptr (clear_node ptr n) = clear_node ptr n.
Proof.
  unfold clear_node at 2. destruct (_ && _) eqn:He; [|done]. unfold clear_node at 2. rewrite He. unfold clear_node. cbn.
  by rewrite andb_false_r.
Qed.

Lemma clear_at_lookup ptr ps s p : heap (clear_at ptr ps s) !! p = (if decide (p ∈ ps) then clear_node ptr <$> heap s !! p else heap s !! p).
Proof.
  unfold clear_at. cbn. generalize (heap s). induction ps as [|q ps IH]; intros h; cbn [foldl].
  - by rewrite decide_False by apply not_elem_of_nil.
  - rewrite IH. destruct (decide (p = q)) as [->|Hne].
    + rewrite lookup_alter_eq. rewrite (decide_True (P := q ∈ q :: ps)) by (by left). destruct (decide (q ∈ ps)); [|done].
      destruct (h !! q) as [n|]; [|done]. cbn. by rewrite clear_node_twice.
    + rewrite lookup_alter_ne by done. destruct (decide (p ∈ ps)); [by rewrite decide_True by (by right)|].
      rewrite decide_False; [done|]. by intros [?|?]%elem_of_cons.
Qed.

Lemma clear_at_app ptr ps ps' s : clear_at ptr (ps ++ ps') s = clear_at ptr ps' (clear_at ptr ps s).
Proof. unfold clear_at. cbn. by rewrite foldl_app. Qed.

Lemma clear_at_shape ptr ps s p : shape <$> heap (clear_at ptr ps s) !! p = shape <$> heap s !! p.
Proof. rewrite clear_at_lookup. destruct (decide _); [|done]. destruct (heap s !! p); [|done]. cbn. by rewrite clear_node_shape. Qed.

Lemma shape_next h h' (r : option Z) ps (q : option Z) : (forall p, p ∈ ps -> shape <$> h' !! p = shape <$> h !! p) -> linked (nxt h) r ps q -> linked (nxt h') r ps q.
Proof.
  intros He. apply linked_ext. intros p Hp. cbn beta. specialize (He p Hp). destruct (h' !! p), (h !! p); cbn in *; try done. unfold shape in He. congruence.
Qed.

Lemma clear_arg_loop_eq ptr ps : forall fuel r rc s, chain (nxt (heap s)) r ps -> (length ps < fuel)%nat ->
  exists k, clear_arg_loop fuel ptr r rc s = Some (k, clear_at ptr ps s).
Proof.
  induction ps as [|p ps IH]; intros [|fuel] r rc s Hch Hf; cbn in Hf; try lia.
  - cbn in Hch. subst r. exists rc. by destruct s.
  - destruct Hch as [-> (m & Hm & Hch)]. apply fmap_Some in Hm as (n & Hn & ->). cbn [clear_arg_loop]. step (by apply callback_at_eq).
    change (p :: ps) with ([p] ++ ps). rewrite clear_at_app. destruct (_ && _) eqn:He.
    + step (by eapply update_callback_eq).
      assert (set_heap (alter (set_sc_client_arg None) p (heap s)) s = clear_at ptr [p] s) as ->.
      { unfold clear_at. cbn. f_equal. apply map_eq. intros q. destruct (decide (q = p)) as [->|]; [|by rewrite !lookup_alter_ne].
        rewrite !lookup_alter_eq, Hn. cbn. unfold clear_node. by rewrite He. }
      apply IH; [|lia]. eapply shape_next; [|exact Hch]. intros q _. apply clear_at_shape.
    + assert (clear_at ptr [p] s = s) as ->.
      { unfold clear_at. cbn. transitivity (set_heap (heap s) s); [|by destruct s]. f_equal. apply map_eq. intros q.
        destruct (decide (q = p)) as [->|]; [|by rewrite !lookup_alter_ne]. rewrite !lookup_alter_eq, Hn. cbn. unfold clear_node. by rewrite He. }
      apply IH; [done|lia].
Qed.

Lemma clear_arg_cells_eq ptr L cells : forall rc s,
  (forall c, c ∈ cells -> in_range c = true /\ chain (nxt (heap s)) (thecallbacks s !! c) (L c)) ->
  exists k, clear_arg_cells ptr cells rc s = Some (k, clear_at ptr (cells ≫= L) s).
Proof.
  induction cells as [|c cells IH]; intros rc s Hch; cbn [clear_arg_cells].
  - exists rc. by destruct s.
  - destruct (Hch c) as [Hc Hcc]; [by left|]. step (by apply head_of_eq). step done.
    destruct (clear_arg_loop_eq ptr (L c) (S (size (heap s))) (thecallbacks s !! c) rc s Hcc) as (k & Hk); [apply chain_length in Hcc; lia|].
    step (exact Hk). cbn [mbind list_bind]. rewrite clear_at_app. apply IH. intros c' Hc'. destruct (Hch c') as [Hr Hl]; [by right|]. split; [done|].
    eapply shape_next; [|exact Hl]. intros q _. apply clear_at_shape.
Qed.
End ops.
