(* ===== verification/CallbackClear.v ===== *)
(** The end of the callbacks: every node goes, and every argument a node refers to is
    freed, once. *)
From Stdlib Require Import ZArith Lia.
From stdpp Require Import gmap sorting functions.
From S2P Require Import Prelude StateMonad Chains SnmpDefs Callback CallbackOps.

Implicit Types (h : gmap Z snmp_gen_callback) (c : cell) (p a : Z) (L : cell -> list Z).

Section clear.
Context {W : Type} `{Env : CallbackEnv W}.
Implicit Types s : callbacks W.

(** * Changes of arguments *)

Lemma sorted_snd (l : list entry) : StronglySorted (fun x y : entry => x.2 <= y.2) l <-> StronglySorted Z.le (snd <$> l).
Proof.
  induction l as [|e l IH]; [split; constructor|]. rewrite fmap_cons, !StronglySorted_cons, IH, Forall_fmap. done.
Qed.

Lemma entries_snd h h' ps : (forall p, p ∈ ps -> shape <$> h' !! p = shape <$> h !! p) -> snd <$> entries h' ps = snd <$> entries h ps.
Proof.
  induction ps as [|p ps IH]; intros He; [done|]. pose proof (He p ltac:(by left)) as Hp. unfold entries. cbn.
  assert (snd <$> entries h' ps = snd <$> entries h ps) as IH' by (apply IH; intros q Hq; apply He; by right). unfold entries in IH'.
  destruct (h' !! p), (h !! p); cbn in *; try done. unfold shape in Hp. f_equal; [congruence|done].
Qed.

Lemma shape_dom h h' : (forall p, shape <$> h' !! p = shape <$> h !! p) -> dom h' = dom h.
Proof. intros He. apply set_eq. intros p. rewrite !elem_of_dom. specialize (He p). destruct (h' !! p), (h !! p); cbn in He; try done; by split. Qed.

Lemma ok_shape L s s' : cb_ok L s -> (forall p, shape <$> heap s' !! p = shape <$> heap s !! p) -> thecallbacks s' = thecallbacks s ->
  locks s' = locks s -> callback_need_init s' = callback_need_init s -> cb_ok L s'.
Proof.
  intros [Hch Hra Hdi Hal Hso Hlo Hin] He Ht Hl Hi. split; try done.
  - intros c Hc. rewrite Ht. eapply shape_next; [|by apply Hch]. intros p _. apply He.
  - intros p. rewrite (shape_dom _ _ He). apply Hal.
  - intros c. rewrite sorted_snd, (entries_snd (heap s)) by (intros p _; apply He). rewrite <- sorted_snd. apply Hso.
  - intros c. unfold lock_count. rewrite Hl. apply Hlo.
  - rewrite Ht, Hl, Hi. done.
Qed.

Lemma entries_clear ptr h h' ps : (forall p, p ∈ ps -> h' !! p = clear_node ptr <$> h !! p) -> entries h' ps = clear_entry ptr <$> entries h ps.
Proof.
  induction ps as [|p ps IH]; intros He; [done|]. unfold entries. cbn. rewrite (He p) by (by left). destruct (h !! p) as [n|]; cbn; [rewrite clear_node_view; f_equal|];
    apply IH; intros q Hq; apply He; by right.
Qed.

(** The arguments that are referred to. *)
Definition live L s a : Prop := exists c e, e ∈ table L s c /\ is_Some e.1.1 /\ e.1.2 = Some a.

Lemma clear_entry_live a e b : is_Some (clear_entry (Some a) e).1.1 /\ (clear_entry (Some a) e).1.2 = Some b <-> (is_Some e.1.1 /\ e.1.2 = Some b) /\ b <> a.
Proof.
  unfold clear_entry. destruct e as [[fn arg] prio]. cbn. destruct (_ && _) eqn:He; cbn.
  - apply andb_true_iff in He as [_ He%bool_decide_eq_true]. subst arg. split; [by intros []|]. intros [[_ [= ->]] []]. done.
  - split; [|by intros []]. intros [Hfn ->]. split; [done|]. intros ->. rewrite !bool_decide_eq_true_2 in He; done.
Qed.

(** After [a] has been cleared everywhere. *)
Lemma clear_live L s s' a : (forall c p, p ∈ L c -> heap s' !! p = clear_node (Some a) <$> heap s !! p) -> forall b, live L s' b <-> live L s b /\ b <> a.
Proof.
  intros He b. assert (forall c, table L s' c = clear_entry (Some a) <$> table L s c) as Ht by (intros c; by apply entries_clear, He). unfold live. split.
  - intros (c & e & Hin & Hlive). rewrite Ht in Hin. apply list_elem_of_fmap in Hin as (e0 & -> & Hin). apply clear_entry_live in Hlive as [Hlive Hne].
    split; [|done]. by exists c, e0.
  - intros [(c & e & Hin & Hlive) Hne]. exists c, (clear_entry (Some a) e). split; [rewrite Ht; by apply list_elem_of_fmap_2|]. by apply clear_entry_live.
Qed.

(** After the first node of a list has gone. *)
Lemma gone_live L s s' c p n ps : L c = p :: ps -> heap s !! p = Some n -> entries (heap s') ps = entries (heap s) ps ->
  (forall c', c' <> c -> table (<[c := ps]> L) s' c' = table L s c') ->
  forall b, live L s b <-> live (<[c := ps]> L) s' b \/ (is_Some (sc_callback n) /\ sc_client_arg n = Some b).
Proof.
  intros HL Hn He Ho b. assert (table L s c = view n :: table (<[c := ps]> L) s' c) as Ht.
  { unfold table. by rewrite fn_lookup_insert, He, HL, (entries_cons _ _ n). }
  unfold live. split.
  - intros (c' & e & Hin & Hlive). destruct (decide (c' = c)) as [->|Hne].
    + rewrite Ht in Hin. apply elem_of_cons in Hin as [->|Hin]; [by right|left; by exists c, e].
    + left. exists c', e. by rewrite Ho.
  - intros [(c' & e & Hin & Hlive)|Hlive].
    + exists c', e. split; [|done]. destruct (decide (c' = c)) as [->|Hne]; [rewrite Ht; by right|by rewrite Ho in Hin].
    + exists c, (view n). rewrite Ht. split; [by left|done].
Qed.

(** * A list *)

(** What was freed between two states. *)
Definition freed L s L' s' : Prop := exists F, trace s' = (Freed <$> F) ++ trace s /\ NoDup F /\ (forall a, a ∈ F -> live L s a) /\
  forall a, live L' s' a <-> live L s a /\ a ∉ F.

Lemma freed_none L s L' s' : trace s' = trace s -> (forall a, live L' s' a <-> live L s a) -> freed L s L' s'.
Proof.
  intros Ht Hl. exists []. split; [done|]. split; [constructor|]. split; [by intros a ?%not_elem_of_nil|]. intros a. rewrite Hl.
  split; [|by intros []]. intros H. split; [done|]. apply not_elem_of_nil.
Qed.

Lemma freed_one L s L' s' a : trace s' = Freed a :: trace s -> live L s a -> (forall b, live L' s' b <-> live L s b /\ b <> a) -> freed L s L' s'.
Proof.
  intros Ht Ha Hl. exists [a]. split; [done|]. split; [apply NoDup_singleton|]. split; [by intros b ->%list_elem_of_singleton|]. intros b.
  by rewrite Hl, list_elem_of_singleton.
Qed.

Lemma freed_trans L1 s1 L2 s2 L3 s3 : freed L1 s1 L2 s2 -> freed L2 s2 L3 s3 -> freed L1 s1 L3 s3.
Proof.
  intros (F & Ht & Hnd & Hin & Hl) (G & Ht' & Hnd' & Hin' & Hl'). exists (G ++ F). split; [by rewrite Ht', Ht, fmap_app, <- app_assoc|]. split; [|split].
  - apply list.NoDup_app. split; [done|]. split; [|done]. intros a Ha. apply Hin', Hl in Ha. by destruct Ha.
  - intros a [Ha|Ha]%elem_of_app; [|by apply Hin]. apply Hin', Hl in Ha. by destruct Ha.
  - intros a. rewrite Hl', Hl, elem_of_app. tauto.
Qed.

(** The parts of the state that clearing a list leaves alone. *)
Definition cleared c L s L' s' : Prop := cb_ok L' s' /\ L' c = [] /\ (forall c', c' <> c -> L' c' = L c') /\
  locks s' = locks s /\ callback_need_init s' = callback_need_init s /\ freed L s L' s'.

(** All lists before [c] are empty. *)
Definition first_list c L : Prop := forall c', c' ∉ cells_from c.1 c.2 -> L c' = [].

Lemma cells_from_in_range i j c : 0 <= i -> 0 <= j -> c ∈ cells_from i j -> in_range c = true.
Proof.
  unfold in_range, cells_from, MAX_CALLBACK_IDS, MAX_CALLBACK_SUBIDS. rewrite !andb_true_iff, !Z.leb_le, !Z.ltb_lt. intros Hi Hj Hin.
  destruct (Z.ltb_spec i 2); [|by apply not_elem_of_nil in Hin]. apply elem_of_app in Hin as [Hin|Hin].
  - apply list_elem_of_fmap in Hin as (k & -> & Hk). apply elem_of_seqZ in Hk. cbn. lia.
  - apply list_elem_of_bind in Hin as (k & Hk & Hin). apply list_elem_of_fmap in Hk as (m & -> & Hm). apply elem_of_seqZ in Hin, Hm. cbn. lia.
Qed.

Lemma in_range_nonneg c : in_range c = true -> 0 <= c.1 /\ 0 <= c.2.
Proof. unfold in_range. rewrite !andb_true_iff, !Z.leb_le. lia. Qed.

Lemma cells_in_range c : in_range c = true -> forall c', c' ∈ cells_from c.1 c.2 -> in_range c' = true.
Proof. intros [H1 H2]%in_range_nonneg c'. by apply cells_from_in_range. Qed.

Lemma own_cell c : in_range c = true -> c ∈ cells_from c.1 c.2.
Proof.
  destruct c as [i j]. unfold in_range, cells_from, MAX_CALLBACK_IDS, MAX_CALLBACK_SUBIDS. cbn. rewrite !andb_true_iff, !Z.leb_le, !Z.ltb_lt. intros H.
  rewrite (proj2 (Z.ltb_lt _ _)) by lia. apply elem_of_app. left. apply list_elem_of_fmap. exists j. split; [done|]. apply elem_of_seqZ. lia.
Qed.

(** A node with an argument. *)
Lemma clear_node_runs c L s p n a fn ps (s1 := relink c [] (next n) s) :
  cb_ok L s -> in_range c = true -> first_list c L -> L c = p :: ps -> heap s !! p = Some n -> sc_callback n = Some fn -> sc_client_arg n = Some a ->
  exists k h, (update_callback p (set_sc_client_arg None);; _ ← netsnmp_callback_clear_client_arg (Some a) c.1 c.2; modify (log (Freed a))) s1 =
    Some (k, log (Freed a) (set_heap h s1)) /\ is_Some (h !! p) /\
    forall q, q <> p -> h !! q = (if decide (q ∈ cells_from c.1 c.2 ≫= <[c := ps]> L) then clear_node (Some a) <$> heap s !! q else heap s !! q).
Proof.
  intros Hs Hc Hfirst HL Hn Hfn Ha. destruct (unlink_ok L s c p n [] ps) as (_ & _ & _ & Hok & _ & _); [done..|]. cbv zeta in Hok. cbn [app] in Hok.
  assert (heap s1 = heap s) as Hh by done. fold s1 in Hok.
  assert (forall q c', q ∈ (<[c := ps]> L) c' -> q <> p) as Hne.
  { intros q c' Hin ->. destruct (ok_node _ _ _ _ Hok Hin) as [m Hm]. cbn in Hm. by rewrite lookup_delete_eq in Hm. }
  step (by eapply update_callback_eq). set (s2 := set_heap _ s1).
  destruct (clear_arg_cells_eq (Some a) (<[c := ps]> L) (cells_from c.1 c.2) 0 s2) as (k & Hk).
  { intros c' Hin. split; [by eapply cells_in_range|]. eapply shape_next; [|eapply (ok_chain _ _ Hok), cells_in_range; done]. intros q Hq. cbn.
    rewrite lookup_alter_ne, lookup_delete_ne by (intros <-; by eapply Hne). done. }
  step (unfold netsnmp_callback_clear_client_arg; step (exact Hk); done). eexists _, _. split; [done|]. split.
  - pose proof (clear_at_shape (Some a) (cells_from c.1 c.2 ≫= <[c := ps]> L) s2 p) as Hsh. cbn [s2 heap set_heap] in Hsh. rewrite lookup_alter_eq, Hh, Hn in Hsh.
    unfold clear_at in Hsh. cbn in Hsh. unfold s2. cbn. destruct (foldl _ _ _ !! p); [by eexists|done].
  - intros q Hq. pose proof (clear_at_lookup (Some a) (cells_from c.1 c.2 ≫= <[c := ps]> L) s2 q) as Hl. unfold clear_at in Hl. cbn in Hl.
    cbn. rewrite Hl. rewrite lookup_alter_ne by done. done.
Qed.

(** One turn of the loop. *)
Lemma clear_turn c L s p ps : cb_ok L s -> in_range c = true -> first_list c L -> L c = p :: ps ->
  exists s', cb_ok (<[c := ps]> L) s' /\ locks s' = locks s /\ callback_need_init s' = callback_need_init s /\ freed L s (<[c := ps]> L) s' /\
    forall fuel, clear_loop (S fuel) c (Some p) s = clear_loop fuel c (head ps) s'.
Proof.
  intros Hs Hc Hfirst HL. destruct (ok_node L s c p Hs) as [n Hn]; [rewrite HL; by left|].
  destruct (unlink_ok L s c p n [] ps) as (Hw & (m & Hm) & Hr & Hok & (_ & Hent) & Honly); [done..|]. cbn [app] in *.
  change (place_of c []) with (Head c) in *. set (s1 := relink c [] (next n) s) in *. set (s0 := set_heap (delete p (heap s1)) s1) in *.
  assert (forall q, q <> p -> heap s0 !! q = heap s !! q) as H0 by (intros q Hq; cbn; by rewrite lookup_delete_ne).
  pose proof (gone_live L s s0 c p n ps HL Hn Hent (fun c' Hne => only_table _ _ _ _ _ c' Honly Hne)) as Hgone.
  destruct (sc_callback n) as [fn|] eqn:Hfn; [destruct (sc_client_arg n) as [a|] eqn:Ha|].
  - destruct (clear_node_runs c L s p n a fn ps) as (k & h & Hrun & [m' Hm'] & Hh); [done..|]. fold s1 in Hrun.
    set (s2 := set_heap (delete p h) (log (Freed a) s1)). set (L1 := <[c := ps]> L) in *.
    assert (forall c' q, q ∈ L1 c' -> q <> p /\ q ∈ cells_from c.1 c.2 ≫= L1) as Hin.
    { intros c' q Hq. split.
      - intros ->. destruct (ok_node _ _ _ _ Hok Hq) as [m0 Hm0]. cbn in Hm0. by rewrite lookup_delete_eq in Hm0.
      - apply list_elem_of_bind. exists c'. split; [done|]. destruct (decide (c' ∈ cells_from c.1 c.2)) as [|Hnin]; [done|exfalso].
        unfold L1 in Hq. destruct (decide (c' = c)) as [->|Hne].
        + by apply Hnin, own_cell.
        + rewrite fn_lookup_insert_ne, (Hfirst c' Hnin) in Hq by congruence. by apply not_elem_of_nil in Hq. }
    assert (forall c' q, q ∈ L1 c' -> heap s2 !! q = clear_node (Some a) <$> heap s0 !! q) as Hcl.
    { intros c' q Hq. destruct (Hin c' q Hq) as [Hne Hin']. cbn. rewrite lookup_delete_ne by done. rewrite Hh, decide_True by done.
      f_equal. symmetry. by apply H0. }
    assert (forall q, shape <$> heap s2 !! q = shape <$> heap s0 !! q) as Hsh.
    { intros q. destruct (decide (q = p)) as [->|Hne]; [cbn; by rewrite !lookup_delete_eq|]. rewrite (H0 q Hne). cbn. rewrite lookup_delete_ne, Hh by done.
      destruct (decide _); [|done]. destruct (heap s !! q); [|done]. cbn. by rewrite clear_node_shape. }
    exists s2. split; [by apply (ok_shape L1 s0)|]. split; [done|]. split; [done|]. split.
    + eapply (freed_one _ _ _ _ a); [done|by apply Hgone; right|]. intros b. rewrite (clear_live L1 s0 s2 a Hcl), Hgone.
      split; [tauto|]. intros [[?|[_ [= ->]]] ?]; done.
    + intros fuel. cbn [clear_loop]. step (exact (callback_at_eq p n s Hn)). step (exact Hw). rewrite Hfn, Ha. step (exact Hrun).
      step (by eapply (free_node_eq p m')). erewrite bind_Some by (by apply head_of_eq). cbn. f_equal. 
      destruct Hok as [Hch _ _ _ _ _ _]. specialize (Hch c Hc). unfold L1 in Hch. rewrite fn_lookup_insert in Hch. by eapply chain_head.
  - exists s0. split; [done|]. split; [done|]. split; [done|]. split; [apply freed_none; [done|]; intros b; rewrite Hgone; split; [by left|by intros [?|[_ [=]]]]|].
    intros fuel. cbn [clear_loop]. step (exact (callback_at_eq p n s Hn)). step (exact Hw). rewrite Hfn, Ha. step (done). step (by eapply (free_node_eq p m)). fold s0.
    step (exact Hr). done.
  - exists s0. split; [done|]. split; [done|]. split; [done|]. split; [apply freed_none; [done|]; intros b; rewrite Hgone; split; [by left|by intros [?|[[? [=]] _]]]|].
    intros fuel. cbn [clear_loop]. step (exact (callback_at_eq p n s Hn)). step (exact Hw). rewrite Hfn. step (done). step (by eapply (free_node_eq p m)). fold s0.
    step (exact Hr). done.
Qed.

Lemma clear_loop_runs c ps : forall L fuel s, cb_ok L s -> in_range c = true -> first_list c L -> L c = ps -> (length ps < fuel)%nat ->
  exists L' s', clear_loop fuel c (head ps) s = Some (tt, s') /\ cleared c L s L' s'.
Proof.
  induction ps as [|p ps IH]; intros L [|fuel] s Hs Hc Hfirst HL Hf; cbn in Hf; try lia.
  - exists L, s. split; [done|]. split; [done|]. split; [done|]. split; [done|]. split; [done|]. split; [done|]. by apply freed_none.
  - destruct (clear_turn c L s p ps) as (s1 & Hok & Hl & Hi & Hfr & Hrun); [done..|].
    destruct (IH (<[c := ps]> L) fuel s1) as (L' & s' & Hrun' & Hok' & He & Ho & Hl' & Hi' & Hfr'); [done|done| |by rewrite fn_lookup_insert|lia|].
    + intros c' Hc'. rewrite fn_lookup_insert_ne; [by apply Hfirst|]. intros <-. by apply Hc', own_cell.
    + exists L', s'. split; [by rewrite <- Hrun', <- Hrun|]. split; [done|]. split; [done|]. split; [|split; [congruence|split; [congruence|by eapply freed_trans]]].
      intros c' Hne. rewrite (Ho c' Hne). by rewrite fn_lookup_insert_ne.
Qed.

(** * All lists *)

(** The cells are all from the first one on. *)
Fixpoint in_order (cells : list cell) : bool :=
  match cells with
  | [] => true
  | c :: r => bool_decide (cells_from c.1 c.2 = cells) && in_range c && bool_decide (c ∉ r) && in_order r
  end.

Lemma all_in_order : in_order (cells_from 0 0) = true.
Proof. vm_compute. reflexivity. Qed.

Lemma freed_state L s s1 L' s' : heap s1 = heap s -> trace s1 = trace s -> freed L s1 L' s' -> freed L s L' s'.
Proof.
  intros Hh Ht (F & Htr & Hnd & Hin & Hl). exists F. assert (forall a, live L s1 a <-> live L s a) as He by (intros a; unfold live, table; by rewrite Hh).
  split; [by rewrite <- Ht|]. split; [done|]. split; [intros a Ha; by apply He, Hin|]. intros a. by rewrite <- He.
Qed.

Lemma clear_cells_runs cells : forall L s, in_order cells = true -> cb_ok L s -> callback_need_init s = false ->
  (forall c, c ∉ cells -> L c = []) -> use_assert = true \/ (forall c, c ∈ cells -> lock_count c s = 0) ->
  runs (clear_cells cells) (fun r s' => match r with
    | None => exists c, c ∈ cells /\ lock_count c s = 1
    | Some _ => exists L', cb_ok L' s' /\ (forall c, L' c = []) /\ (forall c, lock_count c s' = lock_count c s) /\ freed L s L' s' /\
                           (forall c, c ∈ cells -> lock_count c s = 0)
    end) s.
Proof.
  induction cells as [|c cells IH]; intros L s Hord Hs Hi Hout Hlk; cbn [clear_cells].
  - exists L. split; [done|]. split; [intros c; apply Hout, not_elem_of_nil|]. split; [done|]. split; [by apply freed_none|]. by intros c ?%not_elem_of_nil.
  - cbn [in_order] in Hord. apply andb_true_iff in Hord as [[[Hcells%bool_decide_eq_true Hc]%andb_true_iff Hnin%bool_decide_eq_true]%andb_true_iff Hord].
    unfold runs. destruct (ok_locks _ _ Hs c) as [Hl|Hl].
    2: { destruct Hlk as [Ha|Hlk]; [|rewrite Hlk in Hl by (by left); lia]. erewrite proceed_None by (rewrite callback_lock_held, Ha by done; done).
         exists c. split; [by left|done]. }
    erewrite proceed_Some by (by apply callback_lock_free). set (s1 := with_lock c 1 s).
    assert (cb_ok L s1) as Hs1 by (apply ok_with_lock; [done..|by right]). step (by apply head_of_eq). step done.
    pose proof (ok_chain _ _ Hs1 c Hc) as Hch. rewrite (chain_head _ _ _ Hch).
    destruct (clear_loop_runs c (L c) L (S (size (heap s1))) s1) as (L' & s2 & Hrun & Hok & He & Ho & Hl2 & Hi2 & Hfr); [done|done| |done|apply ok_length with (c := c) in Hs1; lia|].
    { intros c' Hc'. apply Hout. by rewrite Hcells in Hc'. }
    step (exact Hrun). assert (lock_count c s2 = 1) as Hlc by (unfold lock_count; rewrite Hl2; cbn; by rewrite lookup_insert_eq).
    step (by apply callback_unlock_eq).
    assert (forall c', lock_count c' (with_lock c 0 s2) = lock_count c' s) as Hsame.
    { intros c'. rewrite with_lock_count. destruct (decide (c' = c)) as [->|Hne]; [done|]. unfold lock_count. rewrite Hl2. cbn. by rewrite lookup_insert_ne. }
    eapply runs_mono; [apply (IH L')|].
    + done.
    + apply ok_with_lock; [done| |by left]. by rewrite Hi2.
    + cbn. by rewrite Hi2.
    + intros c' Hc'. destruct (decide (c' = c)) as [->|Hne]; [done|]. rewrite Ho by done. apply Hout. by intros [?|?]%elem_of_cons.
    + destruct Hlk as [|Hlk]; [by left|right]. intros c' Hc'. rewrite Hsame. apply Hlk. by right.
    + cbv beta. intros [u|] s3; [|intros (c' & Hin & Hc'); exists c'; rewrite Hsame in Hc'; split; [by right|done]].
      intros (L2 & Hok2 & He2 & Hlc2 & Hfr2 & Hfree). exists L2. split; [done|]. split; [done|]. split; [intros c'; by rewrite Hlc2|]. split.
      * apply (freed_state L s s1); [done|done|]. eapply freed_trans; [exact Hfr|]. by apply (freed_state L' s2 (with_lock c 0 s2)).
      * intros c' [->|Hin]%elem_of_cons; [done|]. rewrite <- Hsame. by apply Hfree.
Qed.

Lemma clear_callback_runs L s : cb_ok L s -> use_assert = true \/ (forall c, in_range c = true -> lock_count c s = 0) ->
  runs clear_callback (fun r s' => match r with
    | None => exists c, lock_count c s = 1
    | Some _ => exists L', cb_ok L' s' /\ (forall c, L' c = []) /\ (forall c, lock_count c s' = lock_count c s) /\ freed L s L' s' /\
                           (forall c, in_range c = true -> lock_count c s = 0)
    end) s.
Proof.
  intros Hs Hlk. unfold clear_callback, runs. step (by eapply maybe_init_eq).
  assert (forall c, in_range c = true -> c ∈ cells_from 0 0) as Hall.
  { intros [i j]. unfold in_range, MAX_CALLBACK_IDS, MAX_CALLBACK_SUBIDS. cbn. rewrite !andb_true_iff, !Z.leb_le, !Z.ltb_lt. intros H.
    assert (forallb (fun i => forallb (fun j => bool_decide ((i, j) ∈ cells_from 0 0)) (seqZ 0 16)) (seqZ 0 2) = true) as Hb by (vm_compute; reflexivity).
    rewrite forallb_forall in Hb. specialize (Hb i). rewrite <- list_elem_of_In, elem_of_seqZ in Hb. specialize (Hb ltac:(lia)).
    rewrite forallb_forall in Hb. specialize (Hb j). rewrite <- list_elem_of_In, elem_of_seqZ in Hb. specialize (Hb ltac:(lia)). by apply bool_decide_eq_true in Hb. }
  eapply runs_mono; [apply (clear_cells_runs _ L); [apply all_in_order|by apply ok_maybe_init|done| |]|].
  - intros c Hc. destruct (in_range c) eqn:Hr; [by apply Hall in Hr|by eapply ok_range].
  - destruct Hlk as [|Hlk]; [by left|right]. intros c Hc. apply Hlk. by apply (cells_in_range (0, 0)).
  - cbv beta. intros [u|] s'; [|by intros (c & _ & Hc); exists c]. intros (L' & Hok & He & Hl & Hf & Hfree). exists L'. split_and!; try done.
    intros c Hc. by apply Hfree, Hall.
Qed.
End clear.
