(* ===== verification/CallbackProps.v ===== *)
(** What the callbacks promise: they are kept by priority and called in that order;
    a list cannot be changed while its functions are called, unless the program is
    built without assertions; and the end frees what is to be freed. *)
From Stdlib Require Import ZArith Lia.
From stdpp Require Import gmap sorting functions.
From S2P Require Import Prelude StateMonad Chains SnmpDefs Callback CallbackOps CallbackClear.

Implicit Types (h : gmap Z snmp_gen_callback) (c : cell) (p a : Z) (L : cell -> list Z).

(** The functions of a list. *)
Definition functions (l : list entry) : list Z := omap (fun e => e.1.1) l.

Lemma functions_cons (e : entry) l : functions (e :: l) = match e.1.1 with Some fn => fn :: functions l | None => functions l end.
Proof. unfold functions. cbn. by destruct (e.1.1). Qed.

(** The numbers a client may pass: not negative, and those of a list where the code
    reads the array first. *)
Definition call_ok (o : cb_call) : Prop :=
  match o with
  | CallRegister major minor _ _ _ | CallCallbacks major minor _ | CallAvailable major minor | CallCount major minor => 0 <= major /\ 0 <= minor
  | CallUnregister major minor _ _ _ => in_range (major, minor) = true
  | CallClearArg _ i j => 0 <= i /\ 0 <= j
  | CallClear => True
  end.

Fixpoint client_ok {W} (k : client W) : Prop :=
  match k with
  | Return => True
  | Call o k => call_ok o /\ forall x, client_ok (k x)
  | World f k => forall w, client_ok (k w)
  end.

Class CallbackEnvLaws (W : Type) `{Env : CallbackEnv W} : Prop :=
  malloc_fresh : forall taken w p w', malloc taken w = (Some p, w') -> p ∉ taken.

(** When the program has not ended, the lists are in order, and locked ones as they were. *)
Definition safe {W A} L (s : callbacks W) (r : option A) (s' : callbacks W) : Prop :=
  match r with None => True | Some _ => exists L', cb_ok L' s' /\ frame L s L' s' end.

Section safety.
Context {W : Type} `{Env : CallbackEnv W} {Laws : CallbackEnvLaws W}.
Implicit Types s : callbacks W.

Hypothesis asserts : use_assert = true.

Lemma in_range_bounds major minor : 0 <= major -> 0 <= minor -> out_of_bounds major minor = false -> in_range (major, minor) = true.
Proof.
  unfold out_of_bounds, in_range. cbn. intros H1 H2 [H3%Z.leb_gt H4%Z.leb_gt]%orb_false_iff. rewrite !andb_true_iff, !Z.leb_le, !Z.ltb_lt. lia.
Qed.

Lemma safe_frame {A} L s L1 s1 (r : option A) s' : frame L s L1 s1 -> safe L1 s1 r s' -> safe L s r s'.
Proof. intros Hf. destruct r; [|done]. intros (L' & Hok & Hf'). exists L'. split; [done|]. by eapply frame_trans. Qed.

Lemma init_frame L s : frame L s L (set_need_init false s).
Proof. by intros c. Qed.

(** An operation on a list, when it finds the lock free. *)
Lemma locked_safe {B} (c : cell) (k : Z -> M (callbacks W) (option B)) (Q : option B -> callbacks W -> Prop) L s :
  cb_ok L s -> in_range c = true -> (forall s', Q None s') ->
  (lock_count c s = 0 -> runs (maybe_init;; proceed (callback_lock c) k) Q s) -> runs (maybe_init;; proceed (callback_lock c) k) Q s.
Proof.
  intros Hs Hc HQ Hfree. destruct (ok_locks _ _ Hs c) as [Hl|Hl]; [by apply Hfree|]. unfold runs. step (by eapply maybe_init_eq).
  erewrite proceed_None; [apply HQ|]. rewrite callback_lock_held by done. by rewrite asserts.
Qed.

Lemma register_safe major minor fn arg prio L s : cb_ok L s -> 0 <= major -> 0 <= minor ->
  runs (netsnmp_register_callback major minor fn arg prio) (safe L s) s.
Proof.
  intros Hs H1 H2. unfold netsnmp_register_callback. destruct (out_of_bounds major minor) eqn:Hb; [by exists L|]. apply in_range_bounds in Hb as Hc; [|done..].
  cbv zeta. eapply locked_safe; [done..|]. intros Hl. pose proof (register_runs malloc_fresh major minor fn arg prio L s Hs Hc Hl) as Hr.
  unfold netsnmp_register_callback in Hr. rewrite Hb in Hr. eapply runs_mono; [exact Hr|]. cbv beta. intros r s' (L' & Hok & Ho & _).
  destruct r; [|done]. exists L'. split; [done|]. by eapply only_frame.
Qed.

Lemma unregister_safe major minor target arg ma L s : cb_ok L s -> in_range (major, minor) = true ->
  runs (snmp_unregister_callback major minor target arg ma) (safe L s) s.
Proof.
  intros Hs Hc. destruct (ok_locks _ _ Hs (major, minor)) as [Hl|Hl].
  - eapply runs_mono; [by apply (unregister_runs major minor target arg ma L)|]. cbv beta. intros r s' (L' & Hok & Ho & -> & _).
    exists L'. split; [done|]. by eapply only_frame.
  - unfold snmp_unregister_callback, runs. pose proof (in_bounds _ Hc) as Hb. cbn in Hb. rewrite Hb. step (by apply head_of_eq).
    step (by eapply maybe_init_eq). erewrite proceed_None; [done|]. rewrite callback_lock_held by done. by rewrite asserts.
Qed.

Lemma available_safe major minor L s : cb_ok L s -> 0 <= major -> 0 <= minor ->
  runs (snmp_callback_available major minor) (fun r s' => safe L s (Some r) s' /\ (in_range (major, minor) = true -> (r = SNMPERR_SUCCESS <-> table L s (major, minor) <> []))) s.
Proof.
  intros Hs H1 H2. unfold snmp_callback_available, runs. destruct (out_of_bounds major minor) eqn:Hb.
  - split; [by exists L|]. intros Hc. apply in_bounds in Hc. cbn in Hc. congruence.
  - apply in_range_bounds in Hb as Hc; [|done..]. step (by eapply maybe_init_eq). step (by apply head_of_eq). cbn. split.
    + exists L. split; [by apply ok_maybe_init|done].
    + intros _. pose proof (ok_chain _ _ Hs _ Hc) as Hch. unfold table. destruct (L (major, minor)) as [|p ps] eqn:HL; cbn in Hch.
      * rewrite Hch. by split.
      * destruct (ok_node L s (major, minor) p Hs) as [n Hn]; [rewrite HL; by left|]. destruct Hch as [-> _]. by rewrite (entries_cons _ _ n).
Qed.

Lemma entries_length L s c : cb_ok L s -> length (table L s c) = length (L c).
Proof.
  intros Hs. unfold table. assert (forall p, p ∈ L c -> is_Some (heap s !! p)) as Hn by (intros p Hp; destruct (ok_node _ _ _ _ Hs Hp) as [n Hn]; by eexists).
  induction (L c) as [|p ps IH]; [done|]. destruct (Hn p) as [n Hp]; [by left|]. rewrite (entries_cons _ _ n) by done. cbn. f_equal. apply IH. intros q Hq. apply Hn. by right.
Qed.

Lemma count_safe major minor L s : cb_ok L s -> 0 <= major -> 0 <= minor ->
  runs (snmp_count_callbacks major minor) (fun r s' => safe L s (Some r) s' /\ (in_range (major, minor) = true -> r = s32 (Z.of_nat (length (table L s (major, minor)))))) s.
Proof.
  intros Hs H1 H2. unfold snmp_count_callbacks, runs. destruct (out_of_bounds major minor) eqn:Hb.
  - split; [by exists L|]. intros Hc. apply in_bounds in Hc. cbn in Hc. congruence.
  - apply in_range_bounds in Hb as Hc; [|done..]. step (by eapply maybe_init_eq). step (by apply head_of_eq). step done. cbn [thecallbacks set_need_init].
    erewrite bind_lift by (exact (walk_map _ _ _ _ (ok_chain L s Hs _ Hc))). cbn. split.
    + exists L. split; [by apply ok_maybe_init|done].
    + intros _. by rewrite entries_length.
Qed.

Lemma clear_arg_safe ptr i j L s : cb_ok L s -> 0 <= i -> 0 <= j -> runs (netsnmp_callback_clear_client_arg ptr i j) (fun r s' => safe L s (Some r) s') s.
Proof.
  intros Hs Hi Hj. unfold netsnmp_callback_clear_client_arg, runs. destruct (clear_arg_cells_eq ptr L (cells_from i j) 0 s) as (k & Hk).
  - intros c Hc. apply cells_from_in_range in Hc; [|done..]. split; [done|]. by apply ok_chain.
  - step (exact Hk). cbn. exists L. split; [apply (ok_shape L s); try done; intros p; apply clear_at_shape|]. intros c. split; [done|]. intros _.
    split; [done|]. split; [|done]. intros p _. apply clear_at_shape.
Qed.

Lemma clear_safe L s : cb_ok L s -> runs clear_callback (safe L s) s.
Proof.
  intros Hs. eapply runs_mono; [apply (clear_callback_runs L); [done|by left]|]. cbv beta. intros [u|] s'; [|done].
  intros (L' & Hok & He & Hl & (F & Ht & _) & Hfree). exists L'. split; [done|]. intros c. split; [done|]. intros Hc.
  destruct (in_range c) eqn:Hr; [rewrite Hfree in Hc by done; lia|]. pose proof (ok_range _ _ Hs c Hr) as HL. rewrite He, HL.
  split; [done|]. split; [by intros p ?%not_elem_of_nil|]. rewrite Ht. clear. induction F as [|a F IH]; [done|exact IH].
Qed.

(** * Calls *)

(** Whatever the functions of the list [c] do, [c] and other locked lists stay as they are. *)
Definition called_post c (fns : list Z) L s L' s' : Prop :=
  (forall c', lock_count c' s' = lock_count c' s) /\
  (forall c', lock_count c' s = 1 -> L' c' = L c' /\ (forall p, p ∈ L c' -> shape <$> heap s' !! p = shape <$> heap s !! p) /\
     (c' <> c -> calls c' (trace s') = calls c' (trace s))) /\
  calls c (trace s') = reverse fns ++ calls c (trace s).

Lemma functions_shape h h' ps : (forall p, p ∈ ps -> shape <$> h' !! p = shape <$> h !! p) -> functions (entries h' ps) = functions (entries h ps).
Proof.
  induction ps as [|p ps IH]; intros He; [done|]. pose proof (He p ltac:(by left)) as Hp. change (p :: ps) with ([p] ++ ps).
  rewrite !entries_app. unfold functions. rewrite !omap_app. f_equal; [|apply IH; intros q Hq; apply He; by right].
  unfold entries. cbn. destruct (h' !! p), (h !! p); cbn in *; try done. unfold shape in Hp. injection Hp as -> _ _. done.
Qed.

Lemma call_loop_runs (run : client W -> M (callbacks W) (option unit)) turns c arg ps2 : forall L ps1 s,
  (forall fn carg L s, cb_ok L s -> runs (run (function fn c arg carg)) (safe L s) s) ->
  cb_ok L s -> lock_count c s = 1 -> L c = ps1 ++ ps2 ->
  runs (call_loop run turns c arg (head ps2)) (fun r s' => r = Some tt -> exists L', cb_ok L' s' /\ called_post c (functions (entries (heap s) ps2)) L s L' s') s.
Proof.
  revert turns. induction ps2 as [|p ps2 IH]; intros turns L ps1 s Hrun Hs Hl HL.
  - assert (call_loop run turns c arg None s = Some (Some tt, s)) as Heq by (by destruct turns). cbn [list.head]. unfold runs. rewrite Heq.
    intros _. exists L. done.
  - destruct turns as [|turns]; [done|]. cbn [call_loop list.head]. destruct (ok_node L s c p Hs) as [n Hn]; [rewrite HL; apply elem_of_app; right; by left|].
    assert (in_range c = true) as Hc by (eapply (ok_in_range L s); [done|]; rewrite HL; apply elem_of_app; right; by left).
    assert (next n = head ps2) as Hnx.
    { pose proof (ok_chain _ _ Hs c Hc) as Hch. rewrite HL in Hch. apply linked_app in Hch as (r & _ & [-> (m & Hm & H2)]).
      rewrite Hn in Hm. cbn in Hm. injection Hm as <-. by eapply chain_head. }
    unfold runs. step (by apply callback_at_eq). rewrite (entries_cons _ _ n) by done. destruct (sc_callback n) as [fn|] eqn:Hfn.
    + step done. set (s1 := log _ s). apply runs_bind. eapply runs_mono; [apply (Hrun fn (sc_client_arg n) L s1); by eapply ok_same; [..|left]|].
      cbv beta. intros [u|] s2; [|done]. intros (L2 & Hok2 & Hf2). destruct (Hf2 c) as [Hl2 Hc2]. destruct (Hc2 Hl) as (HL2 & Hp2 & Ht2).
      destruct (ok_node L2 s2 c p Hok2) as [n2 Hn2]; [rewrite HL2, HL; apply elem_of_app; right; by left|]. unfold runs. step (by apply callback_at_eq).
      pose proof (Hp2 p ltac:(rewrite HL; apply elem_of_app; right; by left)) as Hsh. change (heap s1) with (heap s) in Hsh, Hp2. rewrite Hn2, Hn in Hsh.
      cbn in Hsh. injection Hsh as _ _ Hnx2. rewrite Hnx2, Hnx. eapply runs_mono; [apply (IH turns L2 (ps1 ++ [p]))|].
      * done.
      * done.
      * rewrite Hl2. exact Hl.
      * by rewrite HL2, HL, <- app_assoc.
      * cbv beta. intros r s3 Hpost Hr. destruct (Hpost Hr) as (L3 & Hok3 & Hlk3 & Hk3 & Ht3). exists L3. split; [done|]. split; [|split].
        -- intros c'. rewrite Hlk3. apply Hf2.
        -- intros c' Hc'. destruct (Hf2 c') as [Hla Hka]. destruct (Hka Hc') as (HLa & Hpa & Hta). destruct (Hk3 c') as (HLb & Hpb & Htb); [by rewrite Hla|].
           split; [by rewrite HLb|]. split; [intros q Hq; rewrite Hpb by (by rewrite HLa); by apply Hpa|]. intros Hne. rewrite Htb, Hta by done.
           unfold s1. cbn. by rewrite decide_False by congruence.
        -- rewrite Ht3, Ht2. rewrite (functions_shape (heap s)) by (intros q Hq; apply Hp2; rewrite HL; apply elem_of_app; right; by right).
           rewrite functions_cons. cbn [view fst]. rewrite Hfn, reverse_cons, <- app_assoc. cbn. unfold s1. cbn. by rewrite decide_True.
    + rewrite Hnx. eapply runs_mono; [apply (IH turns L (ps1 ++ [p])); [done..|by rewrite <- app_assoc]|]. cbv beta.
      rewrite functions_cons. cbn [view fst]. by rewrite Hfn.
Qed.

Hypothesis functions_ok : forall fn c arg carg, in_range c = true -> client_ok (function fn c arg carg).

(** What a call of the functions of a list comes to. *)
Definition call_post major minor L s (r : option Z) s' : Prop :=
  safe L s r s' /\ (is_Some r -> in_range (major, minor) = true ->
    lock_count (major, minor) s = 0 /\
    calls (major, minor) (trace s') = reverse (functions (table L s (major, minor))) ++ calls (major, minor) (trace s)).

Definition calls_safe (calls : Z -> Z -> option Z -> M (callbacks W) (option Z)) : Prop :=
  forall major minor arg L s, cb_ok L s -> 0 <= major -> 0 <= minor -> runs (calls major minor arg) (call_post major minor L s) s.

Lemma execute_safe calls k : calls_safe calls -> client_ok k -> forall L s, cb_ok L s -> runs (execute calls k) (safe L s) s.
Proof.
  intros Hcalls. induction k as [|o k IH|f k IH]; intros Hk L s Hs; cbn [execute].
  - by exists L.
  - destruct Hk as [Ho Hk]. apply runs_bind. assert (runs (run_call calls o) (safe L s) s) as Hrun.
    { destruct o as [major minor fn arg prio|major minor arg|major minor target arg ma|major minor|major minor|ptr i j|]; cbn [run_call call_ok] in *.
      - destruct Ho. by apply register_safe.
      - destruct Ho. eapply runs_mono; [by apply Hcalls|]. by intros r s' [? _].
      - by apply unregister_safe.
      - apply runs_bind. destruct Ho. eapply runs_mono; [by apply available_safe|]. by intros r s' [? _].
      - apply runs_bind. destruct Ho. eapply runs_mono; [by apply count_safe|]. by intros r s' [? _].
      - apply runs_bind. destruct Ho. eapply runs_mono; [by apply clear_arg_safe|]. by intros r s' ?.
      - apply runs_bind. eapply runs_mono; [by apply clear_safe|]. by intros [u|] s' ?. }
    eapply runs_mono; [exact Hrun|]. cbv beta. intros [x|] s1; [|done]. intros (L1 & Hok & Hf). eapply runs_mono; [by apply IH|].
    intros r s2. by apply safe_frame.
  - run. eapply runs_mono; [apply (IH (world s)); [done|]; by eapply ok_same; [..|left]|]. intros r s'. by apply safe_frame.
Qed.

Lemma call_callbacks_runs run turns major minor arg L s :
  (forall fn c carg L s, in_range c = true -> cb_ok L s -> runs (run (function fn c arg carg)) (safe L s) s) -> cb_ok L s -> 0 <= major -> 0 <= minor ->
  runs (call_callbacks run turns major minor arg) (call_post major minor L s) s.
Proof.
  intros Hrun Hs H1 H2. unfold call_callbacks. destruct (out_of_bounds major minor) eqn:Hb.
  { split; [by exists L|]. intros _ Hc. apply in_bounds in Hc. cbn in Hc. congruence. }
  apply in_range_bounds in Hb as Hc; [|done..]. cbv zeta. set (c := (major, minor)) in *.
  eapply locked_safe; [done..| |]; [intros s'; split; [done|by intros []]|]. intros Hl.
  unfold runs. step (by eapply maybe_init_eq). erewrite proceed_Some by (by apply callback_lock_free). set (s1 := with_lock c 1 (set_need_init false s)).
  assert (cb_ok L s1) as Hs1 by (apply ok_with_lock; [by apply ok_maybe_init|done|by right]).
  assert (lock_count c s1 = 1) as Hl1 by (by unfold s1; rewrite with_lock_count, decide_True).
  step (by apply head_of_eq). rewrite (chain_head _ _ _ (ok_chain _ _ Hs1 c Hc)). apply runs_bind.
  eapply runs_mono; [apply (call_loop_runs run turns c arg (L c) L [] s1); [intros; apply Hrun; done|done..]|].
  cbv beta. intros [[]|] s2 Hpost; [|split; [done|by intros []]]. destruct (Hpost eq_refl) as (L' & Hok & Hlk & Hk & Ht).
  assert (lock_count c s2 = 1) as Hl2 by (by rewrite Hlk). unfold runs. step (by apply callback_unlock_eq). split.
  - exists L'. split; [apply ok_with_lock; [done| |by left]|].
    + destruct (callback_need_init s2) eqn:Hi; [|done]. destruct (ok_init _ _ Hok Hi) as [_ Hlocks]. unfold lock_count in Hl2. rewrite Hlocks, lookup_empty in Hl2. done.
    + intros c'. rewrite with_lock_count. specialize (Hlk c'). unfold s1 in Hlk. rewrite with_lock_count in Hlk. destruct (decide (c' = c)) as [->|Hne].
      * split; [done|]. congruence.
      * split; [done|]. intros Hc'. destruct (Hk c') as (HL & Hp & Htc); [by unfold s1; rewrite with_lock_count, decide_False|]. split; [done|]. split; [|by apply Htc].
        intros p Hin. apply Hp. rewrite ?HL. exact Hin.
  - intros _ _. split; [done|exact Ht].
Qed.

Lemma calls_are_safe turns : calls_safe (snmp_call_callbacks turns).
Proof.
  induction turns as [|turns IH]; intros major minor arg L s Hs H1 H2; cbn [snmp_call_callbacks].
  - split; [done|by intros []].
  - apply call_callbacks_runs; [|done..]. intros fn c carg L0 s0 Hc H0. apply execute_safe; [done|by apply functions_ok|done].
Qed.
End safety.

(** * Functions that leave the callbacks alone *)

Fixpoint quiet {W} (k : client W) : Prop :=
  match k with
  | Return => True
  | Call _ _ => False
  | World f k => forall w, quiet (k w)
  end.

Definition called c (arg : option Z) (l : list entry) : list event := omap (fun e => fn ← e.1.1; Some (Called fn c arg e.1.2)) l.

Lemma called_cons c arg (e : entry) l :
  called c arg (e :: l) = match e.1.1 with Some fn => Called fn c arg e.1.2 :: called c arg l | None => called c arg l end.
Proof. unfold called. cbn. by destruct (e.1.1). Qed.

Section quiet.
Context {W : Type} `{Env : CallbackEnv W}.
Implicit Types s : callbacks W.

Lemma callback_execute_quiet calls k s : quiet k -> exists w, execute calls k s = Some (Some tt, set_world w s).
Proof.
  revert s. induction k as [|o k IH|f k IH]; intros s Hk; cbn [execute]; [|done|].
  - exists (world s). by destruct s.
  - step done. step done. destruct (IH (world s) (set_world (f (world s)) s)) as (w & ->); [done|]. by exists w.
Qed.

Definition with_trace (tr : list event) s : callbacks W := mkcallbacks (heap s) (thecallbacks s) (locks s) (callback_need_init s) (world s) (tr ++ trace s).

Lemma call_loop_quiet calls c arg ps : forall turns r s, chain (nxt (heap s)) r ps -> (length ps < turns)%nat ->
  (forall e fn, e ∈ entries (heap s) ps -> e.1.1 = Some fn -> quiet (function (W := W) fn c arg e.1.2)) ->
  exists w, call_loop (execute calls) turns c arg r s = Some (Some tt, set_world w (with_trace (reverse (called c arg (entries (heap s) ps))) s)).
Proof.
  induction ps as [|p ps IH]; intros [|turns] r s Hch Hf Hq; cbn in Hf; try lia.
  - cbn in Hch. subst r. exists (world s). by destruct s.
  - destruct Hch as [-> (m & Hm & Hch)]. apply fmap_Some in Hm as (n & Hn & ->). cbn [call_loop]. rewrite (entries_cons _ _ n) in Hq |- * by done. step (by apply callback_at_eq).
    rewrite called_cons. cbn [view fst snd]. destruct (sc_callback n) as [fn|] eqn:Hfn.
    + step done. destruct (callback_execute_quiet calls (function fn c arg (sc_client_arg n)) (log (Called fn c arg (sc_client_arg n)) s)) as (w & Hw).
      { by apply (Hq (view n)); [left|]. }
      erewrite proceed_Some by exact Hw. step (by apply callback_at_eq).
      destruct (IH turns (next n) (set_world w (log (Called fn c arg (sc_client_arg n)) s))) as (w' & Hw'); [done|lia|by intros e fn' He; apply Hq; right|].
      exists w'. rewrite Hw'. unfold with_trace. by rewrite reverse_cons, <- app_assoc.
    + apply IH; [done|lia|by intros e fn' He; apply Hq; right].
Qed.
End quiet.

(** * The lists as an abstract table *)

(** No list is being worked on, and the lists have these entries. *)
Definition repr {W} (T : cell -> list entry) (s : callbacks W) : Prop :=
  exists L, cb_ok L s /\ (forall c, lock_count c s = 0) /\ forall c, table L s c = T c.

(** What an operation answers, and the table after it. *)
Definition table_step (T : cell -> list entry) (o : cb_call) (r : Z) (T' : cell -> list entry) : Prop :=
  match o with
  | CallRegister major minor fn arg prio =>
      (r = SNMPERR_GENERR /\ forall c, T' c = T c) \/
      (r = SNMPERR_SUCCESS /\ forall c, T' c = (if decide (c = (major, minor)) then insert_entry (fn, arg, prio) (T c) else T c))
  | CallCallbacks _ _ _ => False
  | CallUnregister major minor target arg ma =>
      r = s32 (Z.of_nat (length (List.filter (matches target arg ma) (T (major, minor))))) /\
      forall c, T' c = (if decide (c = (major, minor)) then List.filter (fun e => negb (matches target arg ma e)) (T c) else T c)
  | CallAvailable major minor => (r = SNMPERR_SUCCESS <-> T (major, minor) <> []) /\ forall c, T' c = T c
  | CallCount major minor => r = s32 (Z.of_nat (length (T (major, minor)))) /\ forall c, T' c = T c
  | CallClearArg ptr i j => forall c, T' c = (if decide (c ∈ cells_from i j) then clear_entry ptr <$> T c else T c)
  | CallClear => forall c, T' c = []
  end.

(** The numbers of a list. *)
Definition names_list (o : cb_call) : Prop :=
  match o with
  | CallRegister major minor _ _ _ | CallUnregister major minor _ _ _ | CallAvailable major minor | CallCount major minor => in_range (major, minor) = true
  | CallClearArg _ i j => 0 <= i /\ 0 <= j
  | CallCallbacks _ _ _ => False
  | CallClear => True
  end.

Section table.
Context {W : Type} `{Env : CallbackEnv W} {Laws : CallbackEnvLaws W}.
Implicit Types s : callbacks W.

Lemma only_repr T L s c L' s' l : cb_ok L' s' -> only c L s L' s' -> (forall c, lock_count c s = 0) -> (forall c, table L s c = T c) -> table L' s' c = l ->
  repr (<[c := l]> T) s'.
Proof.
  intros Hok Ho Hl HT Hc. exists L'. split; [done|]. split; [intros c'; destruct Ho as (_ & Hlk & _); by rewrite Hlk|]. intros c'.
  destruct (decide (c' = c)) as [->|Hne]; [by rewrite fn_lookup_insert|]. rewrite fn_lookup_insert_ne, <- HT by congruence. by apply (only_table c).
Qed.

(** The state after [maybe_init] and a reading. *)
Lemma read_repr T s : repr T s -> repr T (set_need_init false s).
Proof. intros (L & Hs & Hl & HT). exists L. split; [by apply ok_maybe_init|]. split; [exact Hl|exact HT]. Qed.

Lemma table_clear ptr L s cells c : cb_ok L s -> table L (clear_at ptr (cells ≫= L) s) c = if decide (c ∈ cells) then clear_entry ptr <$> table L s c else table L s c.
Proof.
  intros Hs. destruct (decide (c ∈ cells)) as [Hin|Hnin].
  - apply entries_clear. intros p Hp. rewrite clear_at_lookup, decide_True; [done|]. apply list_elem_of_bind. eauto.
  - apply entries_ext. intros p Hp. rewrite clear_at_lookup, decide_False; [done|]. intros (c' & Hp' & Hc')%list_elem_of_bind.
    assert (c' = c) as -> by (by eapply ok_disjoint). done.
Qed.

(** C19: The lists of callbacks are ordered by priority, and the functions of the interface do
    what they say to them: a registration puts its entry behind those of the same or a
    lower priority number, or fails without memory; a removal takes out exactly the
    entries that match and counts them; clearing an argument clears it in the lists it
    is asked to; the rest stays as it is. *)
Theorem callbacks_refine_table calls o T s : repr T s -> names_list o ->
  runs (run_call calls o) (fun r s' => exists x T', r = Some x /\ table_step T o x T' /\ repr T' s') s.
Proof.
  intros (L & Hs & Hl & HT) Ho. destruct o as [major minor fn arg prio|major minor arg|major minor target arg ma|major minor|major minor|ptr i j|]; cbn [run_call names_list] in *.
  - eapply runs_mono; [by apply (register_runs malloc_fresh major minor fn arg prio L)|]. cbv beta. intros r s' (L' & Hok & Hon & [[-> Ht]|[-> Ht]]);
      eexists _, (<[(major, minor) := table L' s' (major, minor)]> T); (split; [done|]); (split; [|by eapply only_repr]); rewrite Ht, HT; [left|right]; (split; [done|]); intros c; destruct (decide (c = (major, minor))) as [->|];
      by rewrite ?fn_lookup_insert, ?fn_lookup_insert_ne by congruence.
  - done.
  - eapply runs_mono; [by apply (unregister_runs major minor target arg ma L)|]. cbv beta. intros r s' (L' & Hok & Hon & -> & Ht).
    eexists _, (<[(major, minor) := table L' s' (major, minor)]> T). split; [done|]. split; [|by eapply only_repr]. rewrite Ht, HT. split; [done|]. intros c. destruct (decide (c = (major, minor))) as [->|];
      by rewrite ?fn_lookup_insert, ?fn_lookup_insert_ne by congruence.
  - destruct (in_range_nonneg _ Ho) as [H1 H2]. unfold runs, snmp_callback_available. pose proof (in_bounds _ Ho) as Hb. cbn in Hb. rewrite Hb.
    step (step (by eapply maybe_init_eq); step (by apply head_of_eq); done). eexists _, T. split; [done|]. split; [|by apply read_repr; exists L].
    split; [|done]. rewrite <- HT. pose proof (ok_chain _ _ Hs _ Ho) as Hch. unfold table. cbn. destruct (L (major, minor)) as [|p ps] eqn:HL; cbn in Hch.
    + rewrite Hch. by split.
    + destruct (ok_node L s (major, minor) p Hs) as [n Hn]; [rewrite HL; by left|]. destruct Hch as [-> _]. by rewrite (entries_cons _ _ n).
  - unfold runs, snmp_count_callbacks. pose proof (in_bounds _ Ho) as Hb. cbn in Hb. rewrite Hb.
    step (step (by eapply maybe_init_eq); step (by apply head_of_eq); step done; erewrite bind_lift by (exact (walk_map _ _ _ _ (ok_chain L s Hs _ Ho))); done).
    eexists _, T. split; [done|]. split; [|by apply read_repr; exists L]. split; [|done]. by rewrite <- HT, entries_length.
  - destruct Ho as [H1 H2]. unfold runs, netsnmp_callback_clear_client_arg. destruct (clear_arg_cells_eq ptr L (cells_from i j) 0 s) as (k & Hk).
    { intros c Hc. apply cells_from_in_range in Hc; [|done..]. split; [done|]. by apply ok_chain. }
    step (step (exact Hk); done). set (s' := clear_at _ _ s). eexists _, (table L s'). split; [done|]. split.
    + cbn. intros c. unfold s'. rewrite table_clear by done. by rewrite HT.
    + exists L. split; [apply (ok_shape L s); try done; intros p; apply clear_at_shape|]. done.
  - apply runs_bind. eapply runs_mono; [apply (clear_callback_runs L); [done|by right]|]. cbv beta. intros [u|] s'; [|by intros (c & Hc); rewrite Hl in Hc].
    intros (L' & Hok & He & Hlk & _). exists 0, (fun _ => []). split; [done|]. split; [done|]. exists L'. split; [done|]. split; [intros c; by rewrite Hlk|].
    intros c. unfold table. by rewrite He.
Qed.
End table.

(** * Properties of the calls and of the end *)

Section properties.
Context {W : Type} `{Env : CallbackEnv W} {Laws : CallbackEnvLaws W}.
Implicit Types s : callbacks W.

(** When an event comes, the functions of its list are called, each once, in the order of
    their priorities, with the caller's argument and their own; then the lists and the
    locks are as they were.  The functions are ones that leave the callbacks alone. *)
Theorem callbacks_called_in_order major minor arg turns L s (c := (major, minor)) :
  cb_ok L s -> in_range c = true -> lock_count c s = 0 -> (S (length (table L s c)) < turns)%nat ->
  (forall e fn, e ∈ table L s c -> e.1.1 = Some fn -> quiet (function (W := W) fn c arg e.1.2)) ->
  exists s', snmp_call_callbacks turns major minor arg s = Some (Some SNMPERR_SUCCESS, s') /\
    trace s' = reverse (called c arg (table L s c)) ++ trace s /\ StronglySorted (fun x y => x.2 <= y.2) (table L s c) /\
    heap s' = heap s /\ thecallbacks s' = thecallbacks s /\ (forall c', lock_count c' s' = lock_count c' s) /\ cb_ok L s'.
Proof.
  intros Hs Hc Hl Hturns Hq. destruct turns as [|turns]; [lia|]. cbn [snmp_call_callbacks]. unfold call_callbacks. pose proof (in_bounds c Hc) as Hb. cbn in Hb. rewrite Hb.
  cbv zeta. fold c. rewrite entries_length in Hturns by done. step (by eapply maybe_init_eq). erewrite proceed_Some by (by apply callback_lock_free). set (s1 := with_lock c 1 (set_need_init false s)).
  assert (cb_ok L s1) as Hs1 by (apply ok_with_lock; [by apply ok_maybe_init|done|by right]).
  step (by apply head_of_eq). destruct (call_loop_quiet (snmp_call_callbacks turns) c arg (L c) turns (thecallbacks s1 !! c) s1) as (w & Hw); [by apply ok_chain|lia|exact Hq|].
  erewrite proceed_Some by exact Hw. set (s2 := set_world w _). assert (lock_count c s2 = 1) as Hl2 by (unfold lock_count; cbn; by rewrite lookup_insert_eq).
  step (by apply callback_unlock_eq). eexists. split; [done|]. split; [done|]. split; [by eapply ok_sorted|]. split; [done|]. split; [done|]. split.
  - intros c'. rewrite with_lock_count. destruct (decide (c' = c)) as [->|Hne]; [done|]. unfold lock_count. cbn. by rewrite lookup_insert_ne.
  - apply ok_with_lock; [|done|by left]. by eapply ok_same; [exact Hs1|..|left].
Qed.

(** C18: Built with its assertions, the interface keeps its memory in order whatever the
    functions of the clients do with it -- register, remove, clear, call one another --:
    no freed node is looked at, and when a call of a list has come to its end the
    functions that were in it at the beginning were called in that order, unless the
    program was ended because a function used the list it was called from. *)
Theorem callbacks_safe major minor arg turns L s :
  use_assert = true -> (forall fn c arg carg, in_range c = true -> client_ok (function fn c arg carg)) -> cb_ok L s -> 0 <= major -> 0 <= minor ->
  runs (snmp_call_callbacks turns major minor arg) (call_post major minor L s) s.
Proof. intros Ha Hfn Hs H1 H2. by apply calls_are_safe. Qed.

(** C20: In the end every node is gone and every argument a function was registered with is
    freed, once, however many nodes shared it. *)
Theorem clear_callback_frees_once L s : cb_ok L s -> (forall c, lock_count c s = 0) ->
  runs clear_callback (fun r s' => r = Some tt /\ heap s' = ∅ /\ (forall c, in_range c = true -> thecallbacks s' !! c = None) /\
    exists F, trace s' = (Freed <$> F) ++ trace s /\ NoDup F /\
      forall a, a ∈ F <-> exists c e, e ∈ table L s c /\ is_Some e.1.1 /\ e.1.2 = Some a) s.
Proof.
  intros Hs Hl. eapply runs_mono; [apply (clear_callback_runs L); [done|by right]|]. cbv beta. intros [[]|] s'; [|by intros (c & Hc); rewrite Hl in Hc].
  intros (L' & Hok & He & _ & (F & Ht & Hnd & Hin & Hlive) & _). split; [done|]. split; [|split].
  - apply map_empty. intros p. destruct (heap s' !! p) as [n|] eqn:Hp; [|done]. exfalso. apply elem_of_dom_2, (ok_all _ _ Hok) in Hp as [c Hp].
    rewrite He in Hp. by apply not_elem_of_nil in Hp.
  - intros c Hc. pose proof (ok_chain _ _ Hok c Hc) as Hch. by rewrite He in Hch.
  - exists F. split; [done|]. split; [done|]. intros a. split; [apply Hin|]. intros Ha. destruct (decide (a ∈ F)) as [|Hnin]; [done|exfalso].
    destruct (proj2 (Hlive a)) as (c & e & Hc & _); [done|]. unfold table in Hc. rewrite He in Hc. by apply not_elem_of_nil in Hc.
Qed.
End properties.

(** * Concrete runs *)

(** Function 7 unregisters itself, function 8 registers another one in the list it is
    called from, the others do nothing. *)
Definition sample_function (fn : Z) (c : cell) (_ carg : option Z) : client unit :=
  if fn =? 7 then Call (CallUnregister c.1 c.2 (Some 7) None false) (fun _ => Return)
  else if fn =? 8 then Call (CallRegister c.1 c.2 (Some 9) None 0) (fun _ => Return)
  else if fn =? 6 then Call (CallCallbacks 1 15 None) (fun _ => Return)
  else Return.

Definition plain_build : CallbackEnv unit := {| use_assert := false; malloc taken w := (Some (fresh taken), w); function := sample_function |}.
Definition assert_build : CallbackEnv unit := {| use_assert := true; malloc taken w := (Some (fresh taken), w); function := sample_function |}.

Lemma fresh_laws b : CallbackEnvLaws (Env := {| use_assert := b; malloc taken w := (Some (fresh taken), w); function := sample_function |}) unit.
Proof. intros taken w p w' [= <- _]. apply is_fresh. Qed.

(** One list with two nodes. *)
Definition two_nodes (fn1 fn2 : Z) : callbacks unit :=
  mkcallbacks {[ 1 := mkcallback (Some fn1) (Some 50) (-1) (Some 2); 2 := mkcallback (Some fn2) (Some 50) 0 None ]} {[ (0, 3) := 1 ]} ∅ false tt [].
Definition two_lists (c : cell) : list Z := if decide (c = (0, 3)) then [1; 2] else [].

Lemma two_nodes_ok fn1 fn2 : cb_ok two_lists (two_nodes fn1 fn2).
Proof.
  split.
  - intros c _. unfold two_lists. destruct (decide (c = (0, 3))) as [->|Hne].
    + split; [by vm_compute|]. exists (Some 2). split; [by vm_compute|]. split; [done|]. exists None. split; by vm_compute.
    + cbn. by rewrite lookup_singleton_ne.
  - intros c Hc. unfold two_lists. destruct (decide (c = (0, 3))) as [->|]; [by vm_compute in Hc|done].
  - intros c c' p. unfold two_lists. destruct (decide (c = (0, 3))) as [->|], (decide (c' = (0, 3))) as [->|]; try done; by intros ?%not_elem_of_nil || by intros _ ?%not_elem_of_nil.
  - intros p Hp. exists (0, 3). unfold two_lists. rewrite decide_True by done. cbn in Hp. rewrite dom_insert_L, dom_singleton_L in Hp.
    apply elem_of_union in Hp as [->%elem_of_singleton| ->%elem_of_singleton]; [by left|right; by left].
  - intros c. unfold two_lists. destruct (decide (c = (0, 3))) as [->|]; [|constructor]. rewrite (entries_cons _ _ (mkcallback (Some fn1) (Some 50) (-1) (Some 2))) by by vm_compute.
    rewrite (entries_cons _ _ (mkcallback (Some fn2) (Some 50) 0 None)) by by vm_compute. repeat constructor; cbn; lia.
  - intros c. left. done.
  - done.
Qed.

#[local] Existing Instance plain_build.

Lemma plain_laws : CallbackEnvLaws unit.
Proof. exact (fresh_laws false). Qed.

Lemma callbacks_called_in_order_witness : exists s', snmp_call_callbacks 5 0 3 None (two_nodes 1 2) = Some (Some SNMPERR_SUCCESS, s') /\
  trace s' = [Called 2 (0, 3) None (Some 50); Called 1 (0, 3) None (Some 50)].
Proof.
  destruct (callbacks_called_in_order 0 3 None 5 two_lists (two_nodes 1 2)) as (s' & Hs & Ht & _).
  - apply two_nodes_ok.
  - reflexivity.
  - reflexivity.
  - vm_compute. lia.
  - intros e fn He. change (e ∈ [(Some 1, Some 50, -1); (Some 2, Some 50, 0)]) in He.
    apply elem_of_cons in He as [->|He]; [by intros [= <-]|]. apply list_elem_of_singleton in He as ->. by intros [= <-].
  - exists s'. split; [exact Hs|]. rewrite Ht. vm_compute. reflexivity.
Defined.

Lemma callbacks_refine_table_witness :
  runs (run_call (snmp_call_callbacks 5) (CallRegister 0 3 (Some 5) None (-1))) (fun r s' => exists x T', r = Some x /\
    table_step (table two_lists (two_nodes 1 2)) (CallRegister 0 3 (Some 5) None (-1)) x T' /\ repr T' s') (two_nodes 1 2).
Proof.
  apply (callbacks_refine_table (Laws := plain_laws)); [|reflexivity]. exists two_lists. split; [apply two_nodes_ok|]. split; [reflexivity|reflexivity].
Defined.

Lemma clear_callback_frees_once_witness : runs clear_callback (fun r s' => r = Some tt /\ heap s' = ∅) (two_nodes 1 2).
Proof.
  eapply runs_mono; [apply (clear_callback_frees_once two_lists (two_nodes 1 2)); [apply two_nodes_ok|reflexivity]|].
  intros r s' (Hr & Hh & _). split; [exact Hr|exact Hh].
Defined.

Lemma callbacks_safe_witness : runs (snmp_call_callbacks (Env := assert_build) 5 0 3 None) (call_post 0 3 two_lists (two_nodes 7 8)) (two_nodes 7 8).
Proof.
  apply (callbacks_safe (Laws := fresh_laws true)); [reflexivity| |apply two_nodes_ok|lia|lia]. intros fn c arg carg Hc. cbn. unfold sample_function.
  destruct (fn =? 7); [split; [by destruct c|done]|]. destruct (fn =? 8); [split; [by apply in_range_nonneg|done]|]. destruct (fn =? 6); [split; [cbn; lia|done]|done].
Defined.

(** Both functions of the list share their argument: it is freed once. *)
Example shared_argument_ex : (trace ∘ snd <$> clear_callback (two_nodes 1 2)) = Some [Freed 50].
Proof. vm_compute. reflexivity. Qed.

(** Without assertions, a function that removes itself frees the node whose link is
    followed next. *)
Example self_removal_ex : snmp_call_callbacks 5 0 3 None (two_nodes 7 2) = None.
Proof. vm_compute. reflexivity. Qed.

(** A function that registers another one in its list gives up the lock of the call: it
    ends at -1, and from then on removed nodes are only marked. *)
Example lock_drifts_ex : (lock_count (0, 3) ∘ snd <$> snmp_call_callbacks 9 0 3 None (two_nodes 8 2)) = Some (-1).
Proof. vm_compute. reflexivity. Qed.

Example removal_marks_ex :
  (r ← snmp_call_callbacks 9 0 3 None (two_nodes 8 2); r ← snmp_unregister_callback 0 3 (Some 2) None false r.2; Some (r.1, size (heap r.2))) = Some (Some 1, 3%nat).
Proof. vm_compute. reflexivity. Qed.

(** The array is read before its bounds are tested. *)
Example read_before_test_ex : snmp_unregister_callback 2 0 (Some 1) None false (two_nodes 1 2) = None.
Proof. reflexivity. Qed.
