(* ===== verification/OidStash.v ===== *)
(** The stash of identifiers, [snmplib/oid_stash.c]: data by object identifier, in a
    tree with a node for every prefix; the children of a node are in the lists of a
    hash table.  The nodes are on the heap; a node and its table are one object here. *)
From Stdlib Require Import ZArith Lia.
From stdpp Require Import gmap.
From S2P Require Import Prelude StateMonad Chains SnmpDefs.

Definition OID_STASH_CHILDREN_SIZE : Z := 31.

(** [netsnmp_oid_stash_node]; a null pointer is [None]. *)
Record netsnmp_oid_stash_node : Type := mknode {
  value : Z;
  children : list (option Z);
  children_size : Z;
  next_sibling : option Z;
  prev_sibling : option Z;
  parent : option Z;
  thedata : option Z
}.

Definition set_stash_value (x : Z) (n : netsnmp_oid_stash_node) : netsnmp_oid_stash_node :=
  mknode x (children n) (children_size n) (next_sibling n) (prev_sibling n) (parent n) (thedata n).
Definition set_stash_children (x : list (option Z)) (n : netsnmp_oid_stash_node) : netsnmp_oid_stash_node :=
  mknode (value n) x (children_size n) (next_sibling n) (prev_sibling n) (parent n) (thedata n).
Definition set_next_sibling (x : option Z) (n : netsnmp_oid_stash_node) : netsnmp_oid_stash_node :=
  mknode (value n) (children n) (children_size n) x (prev_sibling n) (parent n) (thedata n).
Definition set_prev_sibling (x : option Z) (n : netsnmp_oid_stash_node) : netsnmp_oid_stash_node :=
  mknode (value n) (children n) (children_size n) (next_sibling n) x (parent n) (thedata n).
Definition set_parent (x : option Z) (n : netsnmp_oid_stash_node) : netsnmp_oid_stash_node :=
  mknode (value n) (children n) (children_size n) (next_sibling n) (prev_sibling n) x (thedata n).
Definition set_thedata (x : option Z) (n : netsnmp_oid_stash_node) : netsnmp_oid_stash_node :=
  mknode (value n) (children n) (children_size n) (next_sibling n) (prev_sibling n) (parent n) x.

(** The heap, the world and the data freed, with the nodes they were in, last one
    first. *)
Record stash (W : Type) : Type := mkstash {
  heap : gmap Z netsnmp_oid_stash_node;
  world : W;
  freed : list (Z * Z)
}.
Arguments mkstash {W}. Arguments heap {W}. Arguments world {W}. Arguments freed {W}.

Section setters.
Context {W : Type}.
Implicit Types s : stash W.
Definition set_heap (x : gmap Z netsnmp_oid_stash_node) s : stash W := mkstash x (world s) (freed s).
Definition set_world (x : W) s : stash W := mkstash (heap s) x (freed s).
Definition free_data (p d : Z) s : stash W := mkstash (heap s) (world s) ((p, d) :: freed s).
End setters.

(** [malloc] of a node and its table, with the addresses that are taken. *)
Class StashEnv (W : Type) : Type := malloc : gset Z -> W -> option Z * W.

Section functions.
Context {W : Type} `{Env : StashEnv W}.
Abbreviation st A := (M (stash W) A).

Definition stash_at (p : Z) : st netsnmp_oid_stash_node := s ← get; lift (heap s !! p).

Definition update_stash (p : Z) (f : netsnmp_oid_stash_node -> netsnmp_oid_stash_node) : st unit :=
  n ← stash_at p; modify (fun s => set_heap (<[p := f n]> (heap s)) s).

Definition free_stash_node (p : Z) : st unit := _ ← stash_at p; modify (fun s => set_heap (delete p (heap s)) s).

Definition netsnmp_oid_stash_create_sized_node (mysize : Z) : st (option Z) :=
  s ← get;
  let '(o, w) := malloc (dom (heap s)) (world s) in
  modify (set_world w);;
  match o with
  | None => mret None
  | Some p =>
    modify (fun s => set_heap (<[p := mknode 0 (replicate (Z.to_nat mysize) None) mysize None None None None]> (heap s)) s);;
    mret (Some p)
  end.

Definition netsnmp_oid_stash_create_node : st (option Z) := netsnmp_oid_stash_create_sized_node OID_STASH_CHILDREN_SIZE.

(** [children[v % children_size]]: its index, what it holds, and an assignment. *)
Definition slot (n : netsnmp_oid_stash_node) (v : Z) : option nat :=
  if children_size n =? 0 then None else Some (Z.to_nat (v mod children_size n)).

Definition child (p : Z) (v : Z) : st (option Z) := n ← stash_at p; i ← lift (slot n v); lift (children n !! i).

Definition set_child (p : Z) (v : Z) (x : option Z) : st unit :=
  n ← stash_at p;
  i ← lift (slot n v);
  _ ← lift (children n !! i);
  update_stash p (set_stash_children (<[i := x]> (children n))).

(** [for (loopp = tmpp; loopp; loopp = loopp->next_sibling) if (loopp->value == v) break;] *)
Fixpoint find_sibling (fuel : nat) (v : Z) (loopp : option Z) : st (option Z) :=
  match fuel, loopp with
  | _, None => mret None
  | O, _ => lift None
  | S fuel, Some p => n ← stash_at p; if value n =? v then mret (Some p) else find_sibling fuel v (next_sibling n)
  end.

(** One turn of the loop of [netsnmp_oid_stash_add_data]: the child [v] of [curnode],
    which is made if there is none.  The result of the creation is not tested. *)
Definition add_step (curnode : Z) (v : Z) : st Z :=
  o ← child curnode v;
  match o with
  | None =>
    o ← netsnmp_oid_stash_create_node;
    set_child curnode v o;;
    tmpp ← lift o;
    update_stash tmpp (set_stash_value v);;
    update_stash tmpp (set_parent (Some curnode));;
    mret tmpp
  | Some tmpp =>
    s ← get;
    o ← find_sibling (S (size (heap s))) v (Some tmpp);
    match o with
    | Some loopp => mret loopp
    | None =>
      o ← netsnmp_oid_stash_create_node;
      loopp ← lift o;
      update_stash loopp (set_stash_value v);;
      update_stash loopp (set_next_sibling (Some tmpp));;
      update_stash loopp (set_parent (Some curnode));;
      update_stash tmpp (set_prev_sibling (Some loopp));;
      set_child curnode v (Some loopp);;
      mret loopp
    end
  end.

Fixpoint add_path (curnode : Z) (lookup : list Z) : st Z :=
  match lookup with
  | [] => mret curnode
  | v :: lookup => p ← add_step curnode v; add_path p lookup
  end.

(** [*root] is an argument and part of the result; [lookup], which is not null, has
    [lookup_len] components. *)
Definition netsnmp_oid_stash_add_data (root : option Z) (lookup : list Z) (mydata : option Z) : st (Z * option Z) :=
  match lookup with
  | [] => mret (SNMPERR_GENERR, root)
  | _ =>
    root ← (match root with Some r => mret (Some r) | None => netsnmp_oid_stash_create_node end);
    match root with
    | None => mret (SNMPERR_MALLOC, None)
    | Some r =>
      curnode ← add_path r lookup;
      n ← stash_at curnode;
      match thedata n with
      | Some _ => mret (SNMPERR_GENERR, Some r)
      | None => update_stash curnode (set_thedata mydata);; mret (SNMPERR_SUCCESS, Some r)
      end
    end
  end.

(** The loop of [netsnmp_oid_stash_get_node]. *)
Fixpoint get_path (curnode : Z) (lookup : list Z) : st (option Z) :=
  match lookup with
  | [] => mret (Some curnode)
  | v :: lookup =>
    o ← child curnode v;
    s ← get;
    o ← find_sibling (S (size (heap s))) v o;
    match o with Some p => get_path p lookup | None => mret None end
  end.

Definition netsnmp_oid_stash_get_node (root : option Z) (lookup : list Z) : st (option Z) :=
  match root, lookup with
  | None, _ | _, [] => mret None
  | Some r, _ => get_path r lookup
  end.

Definition netsnmp_oid_stash_get_data (root : option Z) (lookup : list Z) : st (option Z) :=
  ret ← netsnmp_oid_stash_get_node root lookup;
  match ret with Some p => n ← stash_at p; mret (thedata n) | None => mret None end.

(** * The next node

    The first loop: as far down as the prefixes go, with the components that are left. *)
Fixpoint closest (curnode : Z) (lookup : list Z) : st (Z * list Z) :=
  match lookup with
  | [] => mret (curnode, [])
  | v :: rest =>
    o ← child curnode v;
    s ← get;
    o ← find_sibling (S (size (heap s))) v o;
    match o with Some p => closest p rest | None => mret (curnode, lookup) end
  end.

(** The loop over the nodes of one list; [true]: there can be no better one. *)
Fixpoint best_sibling (fuel : nat) (size : Z) (bigger_than : option Z) (loopp : option Z) (best : option (Z * Z)) : st (option (Z * Z) * bool) :=
  match fuel, loopp with
  | _, None => mret (best, false)
  | O, _ => lift None
  | S fuel, Some p =>
    n ← stash_at p;
    if match bigger_than with None => true | Some b => b <? value n end &&
       match best with None => true | Some (_, v) => value n <? v end then
      if value n <=? size - 1 then mret (Some (p, value n), true)
      else best_sibling fuel size bigger_than (next_sibling n) (Some (p, value n))
    else best_sibling fuel size bigger_than (next_sibling n) best
  end.

Fixpoint best_child (lists : list (option Z)) (fuel : nat) (size : Z) (bigger_than : option Z) (best : option (Z * Z)) : st (option (Z * Z)) :=
  match lists with
  | [] => mret best
  | x :: lists =>
    r ← best_sibling fuel size bigger_than x best;
    if r.2 : bool then mret r.1 else best_child lists fuel size bigger_than r.1
  end.

(** The second loop; [bigger_than] is [None] when [do_bigger] is zero. *)
Fixpoint next_loop (fuel : nat) (bigger_than : option Z) (curnode : Z) : st (option Z) :=
  match fuel with
  | O => lift None
  | S fuel =>
    n ← stash_at curnode;
    s ← get;
    o ← best_child (take (Z.to_nat (children_size n)) (children n)) (S (size (heap s))) (children_size n) bigger_than None;
    match o with
    | Some (tmpp, _) =>
      c ← stash_at tmpp;
      match thedata c with
      | Some _ => mret (Some tmpp)
      | None => next_loop fuel None tmpp
      end
    | None =>
      match parent n with
      | Some p => next_loop fuel (Some (u32 (value n))) p
      | None => mret None
      end
    end
  end.

Definition netsnmp_oid_stash_getnext_node (root : option Z) (lookup : list Z) : st (option Z) :=
  match root with
  | None => mret None
  | Some r =>
    c ← closest r lookup;
    let '(curnode, rest) := c in
    s ← get;
    next_loop (S (2 * size (heap s))) (match rest with _ :: v :: _ => Some (u32 v) | _ => None end) curnode
  end.

(** * The end *)

(** [netsnmp_oid_stash_free]; the nodes below are freed first. *)
Fixpoint netsnmp_oid_stash_free (fuel : nat) (root : option Z) : st unit :=
  match fuel, root with
  | _, None => skip
  | O, _ => lift None
  | S fuel, Some r =>
    n ← stash_at r;
    for_each (free_siblings fuel) (take (Z.to_nat (children_size n)) (children n));;
    free_stash_node r
  end
(** The loop over the nodes of one list. *)
with free_siblings (fuel : nat) (tmpp : option Z) : st unit :=
  match fuel, tmpp with
  | _, None => skip
  | O, _ => lift None
  | S fuel, Some p =>
    n ← stash_at p;
    (match thedata n with Some d => modify (free_data p d) | None => skip end);;
    netsnmp_oid_stash_free fuel (Some p);;
    free_siblings fuel (next_sibling n)
  end.
End functions.
