(* ===== verification/OidStashTree.v ===== *)
(** The tree of a stash: which nodes are where, that its loops find and add them,
    and which nodes and data its end frees. *)
From Stdlib Require Import ZArith Lia.
From stdpp Require Import gmap.
From S2P Require Import Prelude StateMonad Chains SnmpDefs OidStash.

Implicit Types (h : gmap Z netsnmp_oid_stash_node) (T : gmap (list Z) Z) (p q v : Z) (w : list Z).


Abbreviation sibling h := (fun p => next_sibling <$> h !! p).

(** The nodes [ps] of the children [vs] of [w]. *)
Definition nodes_of T w (vs ps : list Z) : Prop := Forall2 (fun v p => T !! (w ++ [v]) = Some p) vs ps.

(** The list in slot [j] of a node has the children of [w] that belong there. *)
Definition slot_ok h T w (n : netsnmp_oid_stash_node) (j : nat) : Prop :=
  exists vs ps o, children n !! j = Some o /\ chain (sibling h) o ps /\ nodes_of T w vs ps /\
    forall v, v ∈ vs <-> is_Some (T !! (w ++ [v])) /\ v mod children_size n = Z.of_nat j.

Record node_ok h T w (n : netsnmp_oid_stash_node) : Prop := {
  n_size : children_size n = Z.of_nat (length (children n)) /\ 0 < children_size n;
  n_slots j : (j < length (children n))%nat -> slot_ok h T w n j;
  n_place w0 v : w = w0 ++ [v] -> value n = v /\ parent n = T !! w0;
  n_top : w = [] -> parent n = None
}.

(** [T] says at which address the node for an identifier is. *)
Record stash_ok {W} T (s : stash W) (root : Z) : Prop := {
  s_root : T !! [] = Some root;
  s_inj w w' p : T !! w = Some p -> T !! w' = Some p -> w = w';
  s_up w v p : T !! (w ++ [v]) = Some p -> exists q, T !! w = Some q;
  s_node w p : T !! w = Some p -> exists n, heap s !! p = Some n /\ node_ok (heap s) T w n
}.

(** The data at an identifier. *)
Definition data {W} T (s : stash W) w : option Z := p ← T !! w; n ← heap s !! p; thedata n.

Section tree.
Context {W : Type} `{Env : StashEnv W}.
Implicit Types s : stash W.

Lemma stash_at_eq p n s : heap s !! p = Some n -> stash_at p s = Some (n, s).
Proof. intros Hp. unfold stash_at. erewrite bind_Some by done. unfold lift. by rewrite Hp. Qed.

Lemma update_stash_eq p f n s : heap s !! p = Some n -> update_stash p f s = Some (tt, set_heap (alter f p (heap s)) s).
Proof.
  intros Hp. unfold update_stash. erewrite bind_Some by (by apply stash_at_eq). unfold modify. do 3 f_equal. apply map_eq. intros q.
  destruct (decide (q = p)) as [->|]; [by rewrite lookup_insert_eq, lookup_alter_eq, Hp|by rewrite lookup_insert_ne, lookup_alter_ne].
Qed.

(** The slot of a child. *)
Definition index (n : netsnmp_oid_stash_node) v : nat := Z.to_nat (v mod children_size n).

Lemma index_ok h T w n v : node_ok h T w n -> slot n v = Some (index n v) /\ (index n v < length (children n))%nat /\ Z.of_nat (index n v) = v mod children_size n.
Proof.
  intros [[Hs Hpos] _ _ _]. pose proof (Z.mod_pos_bound v _ Hpos). unfold slot, index. rewrite (proj2 (Z.eqb_neq _ 0)) by lia. split; [done|]. lia.
Qed.

Lemma child_eq p n w v T s : heap s !! p = Some n -> node_ok (heap s) T w n ->
  exists o vs ps, children n !! index n v = Some o /\ child p v s = Some (o, s) /\ chain (sibling (heap s)) o ps /\ nodes_of T w vs ps /\
    forall v', v' ∈ vs <-> is_Some (T !! (w ++ [v'])) /\ v' mod children_size n = v mod children_size n.
Proof.
  intros Hp Hn. destruct (index_ok _ _ _ _ v Hn) as (Hslot & Hlt & Hmod). destruct (n_slots _ _ _ _ Hn _ Hlt) as (vs & ps & o & Ho & Hch & Hnodes & Hvs).
  exists o, vs, ps. split; [done|]. split; [|rewrite Hmod in Hvs; done]. unfold child. step (by apply stash_at_eq). erewrite bind_lift by done. unfold lift. by rewrite Ho.
Qed.

(** The search in a list finds the child, or says there is none. *)
Lemma find_sibling_eq T w v vs ps : forall fuel o s root, stash_ok T s root -> chain (sibling (heap s)) o ps -> nodes_of T w vs ps -> (length ps < fuel)%nat ->
  find_sibling fuel v o s = Some (if decide (v ∈ vs) then T !! (w ++ [v]) else None, s).
Proof.
  intros fuel o s root Hs Hch Hn. revert fuel o Hch. induction Hn as [|v' p vs ps Hp Hn IH]; intros [|fuel] o Hch Hf; cbn in Hf; try lia.
  - cbn in Hch. subst o. by rewrite decide_False by apply not_elem_of_nil.
  - destruct Hch as [-> (m & Hm & Hch)]. apply fmap_Some in Hm as (n & Hnp & ->). cbn [find_sibling]. step (by apply stash_at_eq).
    destruct (s_node _ _ _ Hs _ _ Hp) as (n' & Hn' & Hok). rewrite Hnp in Hn'. injection Hn' as <-. destruct (n_place _ _ _ _ Hok w v' eq_refl) as [-> _].
    destruct (Z.eqb_spec v' v) as [->|Hne].
    + rewrite decide_True by (by left). by rewrite Hp.
    + rewrite IH by (done || lia). destruct (decide (v ∈ vs)); [by rewrite decide_True by (by right)|]. rewrite decide_False; [done|].
      by intros [?|?]%elem_of_cons.
Qed.

Lemma chain_fuel T (ps : list Z) o s root : stash_ok T s root -> chain (sibling (heap s)) o ps -> (length ps < S (size (heap s)))%nat.
Proof. intros Hs Hch. apply chain_length in Hch. lia. Qed.

(** One step down. *)
Lemma down_eq p w v T s root : stash_ok T s root -> T !! w = Some p ->
  exists o, child p v s = Some (o, s) /\ find_sibling (S (size (heap s))) v o s = Some (T !! (w ++ [v]), s).
Proof.
  intros Hs Hp. destruct (s_node _ _ _ Hs _ _ Hp) as (n & Hn & Hok). destruct (child_eq p n w v T s Hn Hok) as (o & vs & ps & Ho & Hc & Hch & Hnodes & Hvs).
  exists o. split; [done|]. erewrite find_sibling_eq by (done || by eapply chain_fuel). destruct (decide (v ∈ vs)) as [Hin|Hnin]; [done|].
  destruct (T !! (w ++ [v])) as [q|] eqn:Hq; [|done]. exfalso. apply Hnin, Hvs. by rewrite Hq.
Qed.

(** [netsnmp_oid_stash_get_node] *)
Lemma get_path_eq T lookup : forall w p s root, stash_ok T s root -> T !! w = Some p -> get_path p lookup s = Some (T !! (w ++ lookup), s).
Proof.
  induction lookup as [|v lookup IH]; intros w p s root Hs Hp; cbn [get_path].
  - by rewrite app_nil_r, Hp.
  - destruct (down_eq p w v T s root Hs Hp) as (o & Hc & Hf). step (exact Hc). step done. step (exact Hf). rewrite (cons_middle v w lookup).
    destruct (T !! (w ++ [v])) as [q|] eqn:Hq.
    + rewrite (IH (w ++ [v]) q s root Hs Hq). by rewrite <- app_assoc.
    + destruct (T !! (w ++ [v] ++ lookup)) as [q|] eqn:Hq'; [|done]. exfalso. rewrite app_assoc in Hq'. clear IH Hf.
      revert q Hq'. induction lookup as [|x l IHl] using rev_ind; intros q Hq'; [rewrite app_nil_r in Hq'; congruence|].
      rewrite app_assoc in Hq'. destruct (s_up _ _ _ Hs _ _ _ Hq') as [q' Hq2]. by apply IHl in Hq2.
Qed.

(** * A new node *)

Lemma node_ok_same h h' T T' w n n' : node_ok h T w n ->
  value n' = value n -> children n' = children n -> children_size n' = children_size n -> parent n' = parent n ->
  (forall v x, T !! (w ++ [v]) = Some x -> next_sibling <$> h' !! x = next_sibling <$> h !! x) ->
  (forall v, T' !! (w ++ [v]) = T !! (w ++ [v])) -> (forall w0 v0, w = w0 ++ [v0] -> T' !! w0 = T !! w0) -> node_ok h' T' w n'.
Proof.
  intros [Hsz Hsl Hpl Htop] Hv Hc Hcs Hpar Hsib HT HT0. split.
  - by rewrite Hc, Hcs.
  - intros j Hj. rewrite Hc in Hj. destruct (Hsl j Hj) as (vs & ps & o & Ho & Hch & Hn & Hvs). exists vs, ps, o. split; [by rewrite Hc|]. split; [|split].
    + eapply linked_ext; [|exact Hch]. intros x Hx. cbn beta. apply list_elem_of_lookup in Hx as [i Hi].
      destruct (Forall2_lookup_r _ _ _ _ _ Hn Hi) as (v & _ & Hvx). by apply (Hsib v).
    + eapply list.Forall2_impl; [exact Hn|]. intros v x. cbn. by rewrite HT.
    + intros v. by rewrite HT, Hcs.
  - intros w0 v0 Hw. rewrite Hv, Hpar, (HT0 w0 v0 Hw). by apply Hpl.
  - by rewrite Hpar.
Qed.

(** A change of data or of a link back is none to the tree. *)
Definition same_place (n n' : netsnmp_oid_stash_node) : Prop :=
  value n' = value n /\ children n' = children n /\ children_size n' = children_size n /\ next_sibling n' = next_sibling n /\ parent n' = parent n.

(** What a new child [q] in front of a list changes. *)
Record child_in (h h' : gmap Z netsnmp_oid_stash_node) (p q v : Z) (n : netsnmp_oid_stash_node) (o : option Z) : Prop := {
  c_new : h' !! q = Some (mknode v (replicate 31 None) 31 o None (Some p) None);
  c_parent : h' !! p = Some (set_stash_children (<[index n v := Some q]> (children n)) n);
  c_rest x m : x <> p -> x <> q -> h !! x = Some m -> exists m', h' !! x = Some m' /\ same_place m m' /\ thedata m' = thedata m
}.

Lemma app_snoc_ne (w : list Z) v : w ++ [v] <> w.
Proof. intros H. apply (f_equal length) in H. rewrite length_app in H. cbn in H. lia. Qed.

Lemma in_tree T s root w p : stash_ok T s root -> T !! w = Some p -> p ∈ dom (heap s).
Proof. intros Hs Hp. destruct (s_node _ _ _ Hs _ _ Hp) as (n & Hn & _). by eapply elem_of_dom_2. Qed.

Lemma child_sibling h h' p q v n o x : child_in h h' p q v n o -> h !! p = Some n -> x <> q -> x ∈ dom h -> next_sibling <$> h' !! x = next_sibling <$> h !! x.
Proof.
  intros Hc Hp Hx Hd. destruct (decide (x = p)) as [->|Hne]; [by rewrite (c_parent _ _ _ _ _ _ _ Hc), Hp|]. apply elem_of_dom in Hd as [m Hm].
  destruct (c_rest _ _ _ _ _ _ _ Hc x m Hne Hx Hm) as (m' & -> & (_ & _ & _ & Hn & _) & _). rewrite Hm. cbn. by rewrite Hn.
Qed.

Section added.
Context (T : gmap (list Z) Z) (s s' : stash W) (root p q v : Z) (w : list Z) (n : netsnmp_oid_stash_node) (o : option Z).
Hypothesis Hs : stash_ok T s root.
Hypothesis Hp : T !! w = Some p.
Hypothesis Hv : T !! (w ++ [v]) = None.
Hypothesis Hn : heap s !! p = Some n.
Hypothesis Hq : q ∉ dom (heap s).
Hypothesis Ho : children n !! index n v = Some o.
Hypothesis Hc : child_in (heap s) (heap s') p q v n o.
Abbreviation T' := (<[w ++ [v] := q]> T).

Lemma added_below w' : T !! ((w ++ [v]) ++ w') = None.
Proof.
  destruct (T !! ((w ++ [v]) ++ w')) as [x|] eqn:Hx; [|done]. exfalso. revert x Hx. induction w' as [|y l IH] using rev_ind; intros x Hx; [rewrite app_nil_r in Hx; congruence|].
  rewrite app_assoc in Hx. destruct (s_up _ _ _ Hs _ _ _ Hx) as [x' Hx']. by apply IH in Hx'.
Qed.

Lemma added_in w' x : T !! w' = Some x -> x <> q.
Proof. intros Hx ->. by eapply Hq, in_tree. Qed.

Lemma added_other w' : w' <> w ++ [v] -> T' !! w' = T !! w'.
Proof. intros Hne. by rewrite lookup_insert_ne. Qed.

Lemma added_sibling w' x : T !! w' = Some x -> next_sibling <$> heap s' !! x = next_sibling <$> heap s !! x.
Proof. intros Hx. eapply child_sibling; [exact Hc|done|by eapply added_in|by eapply in_tree]. Qed.

Lemma added_new : node_ok (heap s') T' (w ++ [v]) (mknode v (replicate 31 None) 31 o None (Some p) None).
Proof.
  split; cbn.
  - lia.
  - intros j Hj. exists [], [], None. split; [change (replicate 31 (None : option Z) !! j = Some None); by apply lookup_replicate_2|]. split; [done|]. split; [constructor|]. intros v'.
    rewrite added_other by apply app_snoc_ne. rewrite added_below. split; [by intros ?%not_elem_of_nil|by intros [[] _]].
  - intros w0 v0 [<- <-]%app_inj_tail. rewrite added_other; [done|]. intros H. symmetry in H. by apply app_snoc_ne in H.
  - by destruct w.
Qed.

Lemma added_parent : node_ok (heap s') T' w (set_stash_children (<[index n v := Some q]> (children n)) n).
Proof.
  destruct (s_node _ _ _ Hs _ _ Hp) as (n0 & Hn0 & Hok). rewrite Hn in Hn0. injection Hn0 as <-. pose proof Hok as [Hsz Hsl Hpl Htop].
  assert (forall w0 v0, w = w0 ++ [v0] -> T' !! w0 = T !! w0) as HT0.
  { intros w0 v0 Hw. apply added_other. intros H. rewrite H in Hw. apply (f_equal length) in Hw. rewrite !length_app in Hw. cbn in Hw. lia. }
  destruct (index_ok _ _ _ _ v Hok) as (_ & Hlt & Hmod). split; cbn.
  - by rewrite length_insert.
  - intros j Hj. rewrite length_insert in Hj. destruct (Hsl j Hj) as (vs & ps & o1 & Ho1 & Hch & Hnodes & Hvs).
    assert (chain (sibling (heap s')) o1 ps) as Hch'.
    { eapply linked_ext; [|exact Hch]. intros x Hx. cbn beta. apply list_elem_of_lookup in Hx as [i Hi]. destruct (Forall2_lookup_r _ _ _ _ _ Hnodes Hi) as (v1 & _ & Hvx).
      by eapply added_sibling. }
    assert (nodes_of T' w vs ps) as Hnodes'.
    { eapply list.Forall2_impl; [exact Hnodes|]. intros v1 x Hx. cbn in *. rewrite added_other; [done|]. intros Heq. rewrite Heq in Hx. congruence. }
    destruct (decide (j = index n v)) as [->|Hj'].
    + rewrite Ho in Ho1. injection Ho1 as <-. exists (v :: vs), (q :: ps), (Some q). cbn. split; [by apply list_lookup_insert_eq|]. split; [|split].
      * split; [done|]. exists o. by rewrite (c_new _ _ _ _ _ _ _ Hc).
      * constructor; [apply lookup_insert_eq|done].
      * intros v1. rewrite elem_of_cons, Hvs. destruct (decide (v1 = v)) as [->|Hne].
        -- rewrite lookup_insert_eq. split; [|by left]. intros _. split; [by eexists|done].
        -- rewrite added_other; [tauto|]. intros [_ H]%app_inj_tail. done.
    + exists vs, ps, o1. cbn. split; [by rewrite list_lookup_insert_ne|]. split; [done|]. split; [done|]. intros v1. rewrite Hvs. destruct (decide (v1 = v)) as [->|Hne].
      * rewrite Hv, lookup_insert_eq. split; [by intros [[] _]|]. intros [_ Hm]. exfalso. apply Hj'. lia.
      * rewrite added_other; [done|]. intros [_ H]%app_inj_tail. done.
  - intros w0 v0 Hw. rewrite (HT0 _ _ Hw). by apply Hpl.
  - done.
Qed.

Lemma added_ok : stash_ok T' s' root /\ forall w', data T' s' w' = data T s w'.
Proof.
  split; [split|].
  - rewrite added_other; [apply Hs|]. by destruct w.
  - intros w1 w2 x. destruct (decide (w1 = w ++ [v])) as [->|H1], (decide (w2 = w ++ [v])) as [->|H2];
      rewrite ?lookup_insert_eq; rewrite ?lookup_insert_ne by done; [done| | |apply Hs].
    + intros [= <-] Hx. by apply added_in in Hx.
    + intros Hx [= <-]. by apply added_in in Hx.
  - intros w1 v1 x. destruct (decide (w1 = w ++ [v])) as [->|H1]; [exists q; apply lookup_insert_eq|]. rewrite (added_other w1) by done.
    destruct (decide (w1 ++ [v1] = w ++ [v])) as [[H3 _]%app_inj_tail|H2]; [rewrite H3; eauto|]. rewrite lookup_insert_ne by done. apply Hs.
  - intros w1 x. destruct (decide (w1 = w ++ [v])) as [->|H1].
    + rewrite lookup_insert_eq. intros [= <-]. eexists. split; [apply Hc|]. apply added_new.
    + rewrite lookup_insert_ne by done. intros Hx. destruct (decide (w1 = w)) as [->|Hne].
      * rewrite Hp in Hx. injection Hx as <-. eexists. split; [apply Hc|]. apply added_parent.
      * destruct (s_node _ _ _ Hs _ _ Hx) as (m & Hm & Hok). assert (x <> p) as Hxp by (intros ->; apply Hne; by eapply s_inj).
        destruct (c_rest _ _ _ _ _ _ _ Hc x m Hxp (added_in _ _ Hx) Hm) as (m' & Hm' & (Hva & Hch & Hcs & _ & Hpa) & _). exists m'. split; [done|].
        eapply node_ok_same; [exact Hok|done..| | |].
        -- intros v1 y Hy. by eapply added_sibling.
        -- intros v1. apply added_other. by intros [? _]%app_inj_tail.
        -- intros w0 v0 Hw. apply added_other. intros H. rewrite Hw, H, added_below in Hx. done.
  - intros w1. unfold data. destruct (decide (w1 = w ++ [v])) as [->|H1].
    + rewrite lookup_insert_eq, Hv. cbn. by rewrite (c_new _ _ _ _ _ _ _ Hc).
    + rewrite lookup_insert_ne by done. destruct (T !! w1) as [x|] eqn:Hx; [|done]. cbn. destruct (s_node _ _ _ Hs _ _ Hx) as (m & Hm & _).
      destruct (decide (x = p)) as [->|Hne]; [rewrite (c_parent _ _ _ _ _ _ _ Hc), Hn; done|].
      destruct (c_rest _ _ _ _ _ _ _ Hc x m Hne (added_in _ _ Hx) Hm) as (m' & -> & _ & Hd). rewrite Hm. exact Hd.
Qed.
End added.

Hypothesis malloc_ok : forall taken (u : W), exists p u', malloc taken u = (Some p, u') /\ p ∉ taken.

Definition new_node : netsnmp_oid_stash_node := mknode 0 (replicate 31 None) 31 None None None None.

Lemma create_eq s : exists q u, netsnmp_oid_stash_create_node s = Some (Some q, set_heap (<[q := new_node]> (heap s)) (set_world u s)) /\ q ∉ dom (heap s).
Proof.
  destruct (malloc_ok (dom (heap s)) (world s)) as (q & u & Hm & Hq). exists q, u. split; [|done].
  unfold netsnmp_oid_stash_create_node, netsnmp_oid_stash_create_sized_node. step done. rewrite Hm. by step done.
Qed.

Lemma set_child_eq p n i o v x s : heap s !! p = Some n -> slot n v = Some i -> children n !! i = Some o ->
  set_child p v x s = Some (tt, set_heap (alter (set_stash_children (<[i := x]> (children n))) p (heap s)) s).
Proof.
  intros Hp Hi Ho. unfold set_child. step (by apply stash_at_eq). erewrite bind_lift by done. cbv beta. erewrite bind_lift by done. by eapply update_stash_eq.
Qed.

(** Looks up in a heap that was changed at known addresses. *)
Ltac lookups := repeat first [rewrite lookup_alter_eq|rewrite lookup_insert_eq|rewrite lookup_alter_ne by congruence|rewrite lookup_insert_ne by congruence].

(** The list was empty. *)
Lemma add_first_eq p n i v s : heap s !! p = Some n -> slot n v = Some i -> children n !! i = Some None -> index n v = i ->
  child p v s = Some (None, s) ->
  exists q s', add_step p v s = Some (q, s') /\ (q ∉ dom (heap s)) /\ child_in (heap s) (heap s') p q v n None /\ freed s' = freed s.
Proof.
  intros Hp Hi Ho Hidx Hc. unfold add_step. step (exact Hc). destruct (create_eq s) as (q & u & Hq & Hfresh).
  assert (p <> q) as Hpq by (intros ->; by eapply Hfresh, elem_of_dom_2). exists q.
  step (exact Hq). step (eapply (set_child_eq p n i None); [cbn; by lookups|done|done]). erewrite bind_lift by done. cbv beta.
  step (eapply update_stash_eq; cbn; by lookups). step (eapply update_stash_eq; cbn; by lookups). eexists. split; [done|]. split; [done|]. split; [|done].
  split; cbn.
  - by lookups.
  - lookups. by rewrite Hp, Hidx.
  - intros x m Hxp Hxq Hx. exists m. split; [by lookups|]. done.
Qed.

(** The list had a first node. *)
Lemma add_next_eq p n i v r m s : heap s !! p = Some n -> slot n v = Some i -> children n !! i = Some (Some r) -> index n v = i -> heap s !! r = Some m -> r <> p ->
  child p v s = Some (Some r, s) -> find_sibling (S (size (heap s))) v (Some r) s = Some (None, s) ->
  exists q s', add_step p v s = Some (q, s') /\ (q ∉ dom (heap s)) /\ child_in (heap s) (heap s') p q v n (Some r) /\ freed s' = freed s.
Proof.
  intros Hp Hi Ho Hidx Hr Hrp Hc Hf. unfold add_step. step (exact Hc). step done. step (exact Hf). destruct (create_eq s) as (q & u & Hq & Hfresh).
  assert (p <> q) as Hpq by (intros ->; by eapply Hfresh, elem_of_dom_2). assert (r <> q) as Hrq by (intros ->; by eapply Hfresh, elem_of_dom_2). exists q.
  step (exact Hq). erewrite bind_lift by done. cbv beta. do 3 step (eapply update_stash_eq; cbn; by lookups). step (eapply update_stash_eq; cbn; by lookups).
  step (eapply (set_child_eq p n i (Some r)); [cbn; by lookups|done|done]). eexists. split; [done|]. split; [done|]. split; [|done].
  split; cbn.
  - by lookups.
  - lookups. by rewrite Hp, Hidx.
  - intros x k Hxp Hxq Hx. destruct (decide (x = r)) as [->|Hxr].
    + rewrite Hr in Hx. injection Hx as <-. exists (set_prev_sibling (Some q) m). split; [|done]. lookups. by rewrite Hr.
    + exists k. split; [by lookups|]. done.
Qed.

(** One turn of the loop, in the tree. *)
Lemma add_step_eq T s root w p v : stash_ok T s root -> T !! w = Some p ->
  exists q T' s', add_step p v s = Some (q, s') /\ stash_ok T' s' root /\ T' !! (w ++ [v]) = Some q /\ (forall w', data T' s' w' = data T s w') /\ freed s' = freed s.
Proof.
  intros Hs Hp. destruct (s_node _ _ _ Hs _ _ Hp) as (n & Hn & Hok). destruct (index_ok _ _ _ _ v Hok) as (Hslot & _ & _).
  destruct (child_eq p n w v T s Hn Hok) as (o & vs & ps & Ho & Hc & Hch & Hnodes & Hvs).
  pose proof (find_sibling_eq T w v vs ps (S (size (heap s))) o s root Hs Hch Hnodes (chain_fuel T ps o s root Hs Hch)) as Hf.
  destruct (decide (v ∈ vs)) as [Hin|Hnin].
  - destruct (proj1 (Hvs v) Hin) as [[q Hq] _]. destruct o as [r|].
    + exists q, T, s. split; [|done]. unfold add_step. step (exact Hc). step done. step (exact Hf). by rewrite Hq.
    + destruct ps; [|by destruct Hch]. by inversion Hnodes; subst; apply not_elem_of_nil in Hin.
  - assert (T !! (w ++ [v]) = None) as Hv by (destruct (T !! (w ++ [v])) eqn:Hv; [|done]; exfalso; by apply Hnin, Hvs; rewrite Hv).
    assert (exists q s', add_step p v s = Some (q, s') /\ (q ∉ dom (heap s)) /\ child_in (heap s) (heap s') p q v n o /\ freed s' = freed s) as (q & s' & Hadd & Hq & Hci & Hfr).
    { destruct o as [r|]; [|by eapply add_first_eq]. destruct ps as [|r' ps]; [done|]. destruct Hch as [[= <-] (m' & Hm' & _)]. apply fmap_Some in Hm' as (m & Hm & _).
      inversion Hnodes as [|v1 ? vs1 ? Hv1 _]; subst. eapply add_next_eq; [done..|exact Hm| |exact Hc|exact Hf]. intros ->.
      by eapply app_snoc_ne, (s_inj _ _ _ Hs). }
    destruct (added_ok T s s' root p q v w n o) as [Hok' Hdata]; [done..|]. exists q, (<[w ++ [v] := q]> T), s'. split; [done|]. split; [done|].
    split; [apply lookup_insert_eq|done].
Qed.

Lemma add_path_eq lookup : forall T s root w p, stash_ok T s root -> T !! w = Some p ->
  exists q T' s', add_path p lookup s = Some (q, s') /\ stash_ok T' s' root /\ T' !! (w ++ lookup) = Some q /\ (forall w', data T' s' w' = data T s w') /\ freed s' = freed s.
Proof.
  induction lookup as [|v lookup IH]; intros T s root w p Hs Hp; cbn [add_path].
  - exists p, T, s. by rewrite app_nil_r.
  - destruct (add_step_eq T s root w p v Hs Hp) as (q & T1 & s1 & Hadd & Hs1 & Hq & Hd1 & Hf1). step (exact Hadd).
    destruct (IH T1 s1 root (w ++ [v]) q Hs1 Hq) as (q' & T2 & s2 & Hadd2 & Hs2 & Hq2 & Hd2 & Hf2). exists q', T2, s2. split; [done|]. split; [done|].
    split; [by rewrite <- app_assoc in Hq2|]. split; [intros w'; by rewrite Hd2|by rewrite Hf2].
Qed.

(** Data put into a node. *)
Lemma set_data_ok T s root w p d (s' := set_heap (alter (set_thedata d) p (heap s)) s) : stash_ok T s root -> T !! w = Some p ->
  stash_ok T s' root /\ forall w', data T s' w' = if decide (w' = w) then d else data T s w'.
Proof.
  intros Hs Hp. assert (forall x, next_sibling <$> heap s' !! x = next_sibling <$> heap s !! x) as Hsib.
  { intros x. cbn. destruct (decide (x = p)) as [->|]; [rewrite lookup_alter_eq; by destruct (heap s !! p)|by rewrite lookup_alter_ne]. }
  split; [split; [apply Hs|apply Hs|apply Hs|]|].
  - intros w1 x Hx. destruct (s_node _ _ _ Hs _ _ Hx) as (m & Hm & Hok). destruct (decide (x = p)) as [->|Hne].
    + exists (set_thedata d m). split; [cbn; by rewrite lookup_alter_eq, Hm|]. eapply node_ok_same; [exact Hok|done..].
    + exists m. split; [cbn; by rewrite lookup_alter_ne|]. eapply node_ok_same; [exact Hok|done..].
  - intros w'. unfold data. destruct (decide (w' = w)) as [->|Hne].
    + rewrite Hp. cbn. rewrite lookup_alter_eq. destruct (s_node _ _ _ Hs _ _ Hp) as (m & -> & _). done.
    + destruct (T !! w') as [x|] eqn:Hx; [|done]. cbn. rewrite lookup_alter_ne; [done|]. intros ->. apply Hne. by eapply s_inj.
Qed.
End tree.

Section free.
Context {W : Type} `{Env : StashEnv W}.
Implicit Types s : stash W.

(** The tree before anything is freed. *)
Context (T : gmap (list Z) Z) (s0 : stash W) (root : Z).
Hypothesis Hs0 : stash_ok T s0 root.

Definition datum p : option Z := n ← heap s0 !! p; thedata n.

(** The nodes [A] are gone, and the data of the nodes [B] are freed. *)
Record dropped (A B : Z -> Prop) (s s' : stash W) : Prop := {
  d_gone p : A p -> heap s' !! p = None;
  d_kept p : ~ A p -> heap s' !! p = heap s !! p;
  d_freed : exists F, freed s' = F ++ freed s /\ NoDup F.*1 /\ forall p d, (p, d) ∈ F <-> B p /\ datum p = Some d
}.

Lemma dropped_trans A1 B1 A2 B2 s1 s2 s3 : (forall p, A1 p -> A2 p -> False) -> (forall p, B1 p -> B2 p -> False) ->
  dropped A1 B1 s1 s2 -> dropped A2 B2 s2 s3 -> dropped (fun p => A1 p \/ A2 p) (fun p => B1 p \/ B2 p) s1 s3.
Proof.
  intros HA HB [Hg1 Hk1 (F1 & Hf1 & Hnd1 & Hin1)] [Hg2 Hk2 (F2 & Hf2 & Hnd2 & Hin2)]. split.
  - intros p [H1|H2]; [|by apply Hg2]. rewrite Hk2 by (intros H2; by apply (HA p)). by apply Hg1.
  - intros p Hn. rewrite Hk2 by tauto. apply Hk1. tauto.
  - exists (F2 ++ F1). split; [by rewrite Hf2, Hf1, <- app_assoc|]. split.
    + rewrite fmap_app. apply list.NoDup_app. split; [done|]. split; [|done]. intros p ((p2 & d2) & -> & H2)%list_elem_of_fmap ((p1 & d1) & Heq & H1)%list_elem_of_fmap.
      cbn in Heq. subst p1. apply Hin1 in H1 as [H1 _]. apply Hin2 in H2 as [H2 _]. by apply (HB p2).
    + intros p d. rewrite elem_of_app, Hin1, Hin2. tauto.
Qed.

Lemma dropped_iff A B A' B' s s' : (forall p, A p <-> A' p) -> (forall p, B p <-> B' p) -> dropped A B s s' -> dropped A' B' s s'.
Proof.
  intros HA HB [Hg Hk (F & Hf & Hnd & Hin)]. split.
  - intros p Hp. by apply Hg, HA.
  - intros p Hp. apply Hk. by rewrite HA.
  - exists F. split; [done|]. split; [done|]. intros p d. by rewrite Hin, HB.
Qed.

Lemma dropped_none s : dropped (fun _ => False) (fun _ => False) s s.
Proof. split; [done|done|]. exists []. split; [done|]. split; [constructor|]. intros p d. split; [by intros ?%not_elem_of_nil|by intros [[] _]]. Qed.

(** The nodes below and at an identifier. *)
Definition below w x : Prop := exists w', T !! (w ++ w') = Some x.
Definition strictly_below w x : Prop := exists w', w' <> [] /\ T !! (w ++ w') = Some x.

Lemma prefix_in w w' x : T !! (w ++ w') = Some x -> exists p, T !! w = Some p.
Proof.
  revert x. induction w' as [|v w' IH] using rev_ind; intros x Hx; [rewrite app_nil_r in Hx; eauto|].
  rewrite app_assoc in Hx. apply (s_up _ _ _ Hs0) in Hx as [y Hy]. by eapply IH.
Qed.

Lemma below_child w x : strictly_below w x <-> exists v, below (w ++ [v]) x.
Proof.
  split.
  - intros (w' & Hw' & Hx). destruct w' as [|v w']; [done|]. exists v, w'. by rewrite <- app_assoc.
  - intros (v & w' & Hx). exists (v :: w'). split; [done|]. by rewrite <- app_assoc in Hx.
Qed.

Lemma below_self w p x : T !! w = Some p -> below w x <-> strictly_below w x \/ x = p.
Proof.
  intros Hp. split.
  - intros ([|v w'] & Hx); [right; rewrite app_nil_r in Hx; congruence|left; by exists (v :: w')].
  - intros [(w' & _ & Hx)|<-]; [by exists w'|exists []; by rewrite app_nil_r].
Qed.

Lemma below_disjoint w v v' x : below (w ++ [v]) x -> below (w ++ [v']) x -> v = v'.
Proof.
  intros (w1 & H1) (w2 & H2). pose proof (s_inj _ _ _ Hs0 _ _ _ H1 H2) as Heq. rewrite <- !app_assoc in Heq. apply app_inv_head in Heq. by injection Heq.
Qed.

Lemma not_strictly w p : T !! w = Some p -> ~ strictly_below w p.
Proof.
  intros Hp (w' & Hne & Hx). pose proof (s_inj _ _ _ Hs0 _ _ _ Hp Hx) as Heq. rewrite <- (app_nil_r w) in Heq at 1. apply app_inv_head in Heq. congruence.
Qed.

(** The nodes [A] are as they were. *)
Definition agrees (A : Z -> Prop) s : Prop := forall x, A x -> heap s !! x = heap s0 !! x.

(** With enough turns, [m] drops [A] and [B]. *)
Definition drops (m : nat -> M (stash W) unit) (A B : Z -> Prop) : Prop :=
  exists f0, forall f, (f0 <= f)%nat -> forall s, agrees A s -> exists s', m f s = Some (tt, s') /\ dropped A B s s'.

Lemma drops_iff m A B A' B' : (forall p, A p <-> A' p) -> (forall p, B p <-> B' p) -> drops m A B -> drops m A' B'.
Proof.
  intros HA HB (f0 & H). exists f0. intros f Hf s Hs. destruct (H f Hf s) as (s' & Hr & Hd); [intros x Hx; by apply Hs, HA|].
  exists s'. split; [done|]. by eapply dropped_iff.
Qed.

Lemma drops_seq m1 m2 A1 B1 A2 B2 : (forall p, A1 p -> A2 p -> False) -> (forall p, B1 p -> B2 p -> False) ->
  drops m1 A1 B1 -> drops m2 A2 B2 -> drops (fun f => m1 f;; m2 f) (fun p => A1 p \/ A2 p) (fun p => B1 p \/ B2 p).
Proof.
  intros HA HB (f1 & H1) (f2 & H2). exists (f1 `max` f2)%nat. intros f Hf s Hs. destruct (H1 f ltac:(lia) s) as (s1 & Hr1 & Hd1); [intros x Hx; apply Hs; by left|].
  destruct (H2 f ltac:(lia) s1) as (s2 & Hr2 & Hd2).
  - intros x Hx. rewrite (d_kept _ _ _ _ Hd1); [apply Hs; by right|]. intros Hx1. by apply (HA x).
  - exists s2. split; [by step (exact Hr1)|]. by eapply dropped_trans.
Qed.

(** The nodes of one list. *)
Lemma siblings_drop w vs : forall o ps, chain (sibling (heap s0)) o ps -> nodes_of T w vs ps -> NoDup vs ->
  (forall v p, v ∈ vs -> T !! (w ++ [v]) = Some p -> drops (fun f => netsnmp_oid_stash_free f (Some p)) (below (w ++ [v])) (strictly_below (w ++ [v]))) ->
  drops (fun f => free_siblings f o) (fun x => exists v, v ∈ vs /\ below (w ++ [v]) x) (fun x => exists v, v ∈ vs /\ below (w ++ [v]) x).
Proof.
  induction vs as [|v vs IH]; intros o ps Hch Hn Hnd Hfree; inversion Hn as [|? p ? ps' Hp Hn']; subst.
  - cbn in Hch. subst o. exists 0%nat. intros f _ s _. exists s. split; [by destruct f|]. eapply dropped_iff; [| |apply dropped_none];
      (intros p; split; [done|]; by intros (v & ?%not_elem_of_nil & _)).
  - destruct Hch as [-> (m & Hm & Hch)]. apply fmap_Some in Hm as (n & Hnp & ->). apply list.NoDup_cons in Hnd as [Hv Hnd].
    destruct (Hfree v p) as (f1 & H1); [by left|done|]. destruct (IH (next_sibling n) ps' Hch Hn' Hnd) as (f2 & H2); [intros v' p' Hv'; apply Hfree; by right|].
    exists (S (f1 `max` f2))%nat. intros [|f] Hf s Hs; [lia|]. cbn [free_siblings].
    assert (below (w ++ [v]) p) as Hbp by (exists []; by rewrite app_nil_r).
    assert (heap s !! p = Some n) as Hsp by (rewrite Hs; [done|exists v; split; [by left|done]]). step (by apply stash_at_eq).
    set (s1 := match thedata n with Some d => free_data p d s | None => s end).
    assert (dropped (fun _ => False) (fun x => x = p) s s1) as Hd1.
    { split; [done|intros; by unfold s1; destruct (thedata n)|]. unfold s1. destruct (thedata n) as [d|] eqn:Hd.
      - exists [(p, d)]. split; [done|]. split; [apply NoDup_singleton|]. intros x e. rewrite list_elem_of_singleton. unfold datum. split.
        + intros [= -> ->]. split; [done|]. by rewrite Hnp.
        + intros [-> He]. rewrite Hnp in He. cbn in He. congruence.
      - exists []. split; [done|]. split; [constructor|]. intros x e. split; [by intros ?%not_elem_of_nil|]. intros [-> He]. unfold datum in He. rewrite Hnp in He.
        cbn in He. congruence. }
    assert ((match thedata n with Some d => modify (free_data p d) | None => skip end) s = Some (tt, s1)) as Hdata by (unfold s1; by destruct (thedata n)). step (exact Hdata).
    destruct (H1 f ltac:(lia) s1) as (s2 & Hr2 & Hd2).
    { intros x Hx. transitivity (heap s !! x); [unfold s1; by destruct (thedata n)|]. apply Hs. exists v. split; [by left|done]. }
    step (exact Hr2). assert (dropped (fun x => False \/ below (w ++ [v]) x) (fun x => x = p \/ strictly_below (w ++ [v]) x) s s2) as Hd12.
    { eapply dropped_trans; [by intros x []| |exact Hd1|exact Hd2]. intros x ->. by apply not_strictly. }
    destruct (H2 f ltac:(lia) s2) as (s3 & Hr3 & Hd3).
    { intros x (v' & Hv' & Hx). rewrite (d_kept _ _ _ _ Hd12); [apply Hs; exists v'; split; [by right|done]|]. intros [[]|Hx'].
      assert (v' = v) as -> by (by eapply below_disjoint). done. }
    exists s3. split; [exact Hr3|]. assert (forall x, strictly_below (w ++ [v]) x -> below (w ++ [v]) x) as Hsb by (intros x (w' & _ & Hx); by exists w').
    eapply dropped_iff; [| |eapply dropped_trans; [| |exact Hd12|exact Hd3]].
    + intros x. cbn. split; [intros [[[]|Hx]|(v' & Hv' & Hx)]|intros (v' & [->|Hv']%elem_of_cons & Hx)]; [exists v; split; [by left|done]|exists v'; split; [by right|done]|by left; right|right; by exists v'].
    + intros x. cbn. pose proof (below_self (w ++ [v]) p x Hp) as Hself. split.
      * intros [[->|Hx]|(v' & Hv' & Hx)]; [exists v; split; [by left|done]|exists v; split; [by left|by apply Hsb]|exists v'; split; [by right|done]].
      * intros (v' & [->|Hv']%elem_of_cons & Hx); [left; tauto|right; by exists v'].
    + intros x [[]|Hx] (v' & Hv' & Hx'). assert (v' = v) as -> by (by eapply below_disjoint). done.
    + intros x Hx (v' & Hv' & Hx'). assert (v' = v) as -> by (eapply below_disjoint; [exact Hx'|]; destruct Hx as [->|Hx]; [exact Hbp|by apply Hsb]). done.
Qed.

(** The nodes below the slots from [i] on. *)
Definition from_slot w (n : netsnmp_oid_stash_node) (i : nat) x : Prop := exists v, Z.of_nat i <= v mod children_size n /\ below (w ++ [v]) x.

Lemma slots_drop w p n k : T !! w = Some p -> heap s0 !! p = Some n ->
  (forall v q, T !! (w ++ [v]) = Some q -> drops (fun f => netsnmp_oid_stash_free f (Some q)) (below (w ++ [v])) (strictly_below (w ++ [v]))) ->
  forall i, (i + k = length (children n))%nat -> drops (fun f => for_each (free_siblings f) (List.skipn i (children n))) (from_slot w n i) (from_slot w n i).
Proof.
  intros Hp Hn Hfree. destruct (s_node _ _ _ Hs0 _ _ Hp) as (n0 & Hn0 & Hok). rewrite Hn in Hn0. injection Hn0 as <-.
  destruct Hok as [[Hsz Hpos] Hslots _ _]. assert (forall v, 0 <= v mod children_size n < children_size n) as Hmod by (intros v; apply Z.mod_pos_bound; lia).
  induction k as [|k IH]; intros i Hi.
  - rewrite List.skipn_all2 by lia. exists 0%nat. intros f _ s _. exists s. split; [done|]. eapply dropped_iff; [| |apply dropped_none];
      (intros x; split; [done|]; intros (v & Hv & _); specialize (Hmod v); lia).
  - destruct (Hslots i) as (vs & ps & o & Ho & Hch & Hnodes & Hvs); [lia|]. assert (List.skipn i (children n) = o :: List.skipn (S i) (children n)) as ->.
    { by apply drop_S. }
    assert (NoDup vs) as Hnd.
    { assert (NoDup ps) as Hndp by (by eapply chain_NoDup). clear -Hnodes Hndp. induction Hnodes as [|v q vs ps Hq Hnodes IH]; [constructor|].
      apply list.NoDup_cons in Hndp as [Hqn Hndp]. constructor; [|by apply IH]. intros Hin. apply Hqn. apply list_elem_of_lookup in Hin as [j Hj].
      destruct (Forall2_lookup_l _ _ _ _ _ Hnodes Hj) as (q' & Hq' & Hvq). rewrite Hq in Hvq. injection Hvq as ->. by eapply list_elem_of_lookup_2. }
    cbn [for_each]. eapply drops_iff; [| |apply drops_seq; [| |eapply (siblings_drop w vs o ps); [done..|]|apply (IH (S i)); lia]].
    + intros x. split.
      * intros [(v & Hv & Hx)|(v & Hv & Hx)]; exists v; (split; [|done]); [apply Hvs in Hv as [_ ->]; lia|lia].
      * intros (v & Hv & Hx). destruct (decide (v mod children_size n = Z.of_nat i)) as [Heq|Hne]; [left|right]; exists v; (split; [|done]); [|lia].
        apply Hvs. split; [|done]. destruct Hx as (w' & Hx). by apply prefix_in in Hx as [q Hq].
    + intros x. split.
      * intros [(v & Hv & Hx)|(v & Hv & Hx)]; exists v; (split; [|done]); [apply Hvs in Hv as [_ ->]; lia|lia].
      * intros (v & Hv & Hx). destruct (decide (v mod children_size n = Z.of_nat i)) as [Heq|Hne]; [left|right]; exists v; (split; [|done]); [|lia].
        apply Hvs. split; [|done]. destruct Hx as (w' & Hx). by apply prefix_in in Hx as [q Hq].
    + intros x (v & Hv & Hx) (v' & Hv' & Hx'). apply Hvs in Hv as [_ Hv]. assert (v' = v) as -> by (by eapply below_disjoint). lia.
    + intros x (v & Hv & Hx) (v' & Hv' & Hx'). apply Hvs in Hv as [_ Hv]. assert (v' = v) as -> by (by eapply below_disjoint). lia.
    + intros v q _. apply Hfree.
Qed.

(** A node, when the ones below can be freed. *)
Lemma node_drops w p : T !! w = Some p ->
  (forall v q, T !! (w ++ [v]) = Some q -> drops (fun f => netsnmp_oid_stash_free f (Some q)) (below (w ++ [v])) (strictly_below (w ++ [v]))) ->
  drops (fun f => netsnmp_oid_stash_free f (Some p)) (below w) (strictly_below w).
Proof.
  intros Hp Hchild. destruct (s_node _ _ _ Hs0 _ _ Hp) as (n & Hn & Hok). pose proof Hok as [[Hsz Hpos] _ _ _].
  destruct (slots_drop w p n (length (children n)) Hp Hn Hchild 0) as (f1 & H1); [done|].
  exists (S f1). intros [|f] Hf s Hs; [lia|]. cbn [netsnmp_oid_stash_free].
  assert (heap s !! p = Some n) as Hsp by (rewrite Hs; [done|exists []; by rewrite app_nil_r]). step (by apply stash_at_eq).
  assert (forall x, from_slot w n 0 x <-> strictly_below w x) as Hslot.
  { intros x. rewrite below_child. split; [intros (v & _ & Hx); by exists v|]. intros (v & Hx). exists v. split; [|done]. pose proof (Z.mod_pos_bound v (children_size n)). lia. }
  rewrite take_ge by lia. destruct (H1 f ltac:(lia) s) as (s1 & Hr1 & Hd1); [intros x Hx; apply Hs; apply (below_self w p x Hp); left; by apply Hslot|].
  cbn [List.skipn] in Hr1. step (exact Hr1). assert (~ from_slot w n 0 p) as Hnp by (rewrite Hslot; by apply not_strictly).
  assert (heap s1 !! p = Some n) as Hs1p by (by rewrite (d_kept _ _ _ _ Hd1)). set (s2 := set_heap (delete p (heap s1)) s1).
  assert (dropped (fun x => x = p) (fun _ => False) s1 s2) as Hd2.
  { split; [intros x ->; cbn; apply lookup_delete_eq|intros x Hx; cbn; by apply lookup_delete_ne|]. exists []. split; [done|]. split; [constructor|].
    intros x d. split; [by intros ?%not_elem_of_nil|by intros [[] _]]. }
  exists s2. split; [unfold free_stash_node; by step (by apply stash_at_eq)|]. eapply dropped_iff; [| |eapply dropped_trans; [| |exact Hd1|exact Hd2]].
  - intros x. cbn beta. rewrite Hslot. symmetry. by apply below_self.
  - intros x. cbn beta. rewrite Hslot. tauto.
  - by intros x Hx ->.
  - done.
Qed.

(** The whole tree below an identifier. *)
Lemma free_drops K : (forall w p, T !! w = Some p -> (length w <= K)%nat) -> forall k w p, (K <= length w + k)%nat -> T !! w = Some p ->
  drops (fun f => netsnmp_oid_stash_free f (Some p)) (below w) (strictly_below w).
Proof.
  intros HK. induction k as [|k IH]; intros w p Hk Hp; apply node_drops; try done; intros v q Hq.
  - apply HK in Hq. rewrite length_app in Hq. cbn in Hq. lia.
  - apply IH; [|done]. rewrite length_app. cbn. lia.
Qed.
End free.

Lemma depth_bound T : exists K, forall w p, T !! w = Some p -> (length w <= K)%nat.
Proof.
  induction T as [|w p T Hw IH] using map_ind; [exists 0%nat; intros w p; by rewrite lookup_empty|]. destruct IH as [K HK]. exists (length w `max` K)%nat.
  intros w' p'. destruct (decide (w' = w)) as [->|Hne]; [lia|]. rewrite lookup_insert_ne by done. intros H. apply HK in H. lia.
Qed.
