(* ===== verification/OidStashProps.v ===== *)
(** What the stash promises: it is a map from identifiers to data, and its end frees
    every node and all data, once. *)
From Stdlib Require Import ZArith Lia.
From stdpp Require Import gmap.
From S2P Require Import Prelude StateMonad Chains SnmpDefs OidStash OidStashTree.

Implicit Types (h : gmap Z netsnmp_oid_stash_node) (T : gmap (list Z) Z) (p q v : Z) (w : list Z).

(** The stash at [root] holds the data [D]. *)
Definition repr {W} (D : list Z -> option Z) (root : option Z) (s : stash W) : Prop :=
  match root with
  | None => forall w, D w = None
  | Some r => exists T, stash_ok T s r /\ forall w, data T s w = D w
  end.

Section map.
Context {W : Type} `{Env : StashEnv W}.
Implicit Types s : stash W.

Lemma new_root_ok s q : heap s !! q = Some new_node -> stash_ok {[ [] := q ]} s q /\ forall w, data {[ [] := q ]} s w = None.
Proof.
  intros Hq. assert (forall w v, ({[ [] := q ]} : gmap (list Z) Z) !! (w ++ [v]) = None) as Hn by (intros w v; apply lookup_singleton_ne; by destruct w).
  split; [split|].
  - apply lookup_singleton_eq.
  - intros w w' p [<- _]%lookup_singleton_Some [<- _]%lookup_singleton_Some. done.
  - intros w v p. by rewrite Hn.
  - intros w p [<- <-]%lookup_singleton_Some. exists new_node. split; [done|]. split.
    + done.
    + intros j Hj. exists [], [], None. split; [change (replicate 31 (None : option Z) !! j = Some None); by apply lookup_replicate_2|]. split; [done|].
      split; [constructor|]. intros v. rewrite Hn. split; [by intros ?%not_elem_of_nil|by intros [[] _]].
    + intros w v Hw. by destruct w.
    + done.
  - intros w. unfold data. destruct w as [|v w]; [rewrite lookup_singleton_eq; cbn; by rewrite Hq|by rewrite lookup_singleton_ne].
Qed.

(** C21: The stash is a map from identifiers to data: a lookup gives what was stored under the
    very identifier, a second addition under it is refused and changes nothing, and an
    addition under another one leaves it alone. *)
Theorem stash_refines_map D root s lookup d :
  (forall taken (u : W), exists p u', malloc taken u = (Some p, u') /\ p ∉ taken) -> repr D root s -> lookup <> [] ->
  netsnmp_oid_stash_get_data root lookup s = Some (D lookup, s) /\
  exists rc r s', netsnmp_oid_stash_add_data root lookup (Some d) s = Some ((rc, Some r), s') /\ freed s' = freed s /\
    match D lookup with
    | None => rc = SNMPERR_SUCCESS /\ repr (fun w => if decide (w = lookup) then Some d else D w) (Some r) s'
    | Some _ => rc = SNMPERR_GENERR /\ repr D (Some r) s'
    end.
Proof.
  intros Hmalloc HD Hl. destruct lookup as [|v0 lookup0]; [done|]. set (lookup := v0 :: lookup0) in *. split.
  - destruct root as [r|]; cbn [repr] in HD; [|by rewrite HD]. destruct HD as (T & Hs & HD). rewrite <- HD.
    unfold netsnmp_oid_stash_get_data, data. step (exact (get_path_eq T lookup [] r s r Hs (s_root _ _ _ Hs))). cbn [app].
    destruct (T !! lookup) as [p|] eqn:Hp; [|done]. destruct (s_node _ _ _ Hs _ _ Hp) as (n & Hn & _). step (by apply stash_at_eq). cbn. by rewrite Hn.
  - assert (exists r s1, (match root with Some r => mret (Some r) | None => netsnmp_oid_stash_create_node end) s = Some (Some r, s1) /\ freed s1 = freed s /\ repr D (Some r) s1)
      as (r & s1 & Hroot & Hf1 & T & Hs1 & HD1).
    { destruct root as [r|]; [by exists r, s|]. destruct (create_eq Hmalloc s) as (q & u & Hq & _). exists q. eexists. split; [exact Hq|]. split; [done|].
      set (s1 := set_heap _ _). destruct (new_root_ok s1 q) as [Hok Hd]; [apply lookup_insert_eq|]. exists {[ [] := q ]}. split; [done|]. intros w. by rewrite Hd, HD. }
    unfold netsnmp_oid_stash_add_data. change (match lookup with [] => _ | _ :: _ => ?x end) with x. step (exact Hroot).
    destruct (add_path_eq Hmalloc lookup T s1 r [] r Hs1 (s_root _ _ _ Hs1)) as (q & T' & s2 & Hadd & Hs2 & Hq & Hd2 & Hf2). cbn [app] in Hq. step (exact Hadd).
    destruct (s_node _ _ _ Hs2 _ _ Hq) as (n & Hn & _). step (by apply stash_at_eq).
    assert (D lookup = thedata n) as -> by (rewrite <- HD1, <- Hd2; unfold data; rewrite Hq; cbn; by rewrite Hn).
    destruct (thedata n) as [d'|] eqn:Hdn.
    + exists SNMPERR_GENERR, r, s2. split; [done|]. split; [by rewrite Hf2|]. split; [done|]. exists T'. split; [done|]. intros w. by rewrite Hd2.
    + step (by eapply update_stash_eq). exists SNMPERR_SUCCESS, r. eexists. split; [done|]. split; [cbn; by rewrite Hf2|]. split; [done|].
      destruct (set_data_ok T' s2 r lookup q (Some d) Hs2 Hq) as [Hok Hd]. exists T'. split; [done|]. intros w. rewrite Hd. destruct (decide (w = lookup)); [done|]. by rewrite Hd2.
Qed.
End map.

Section free.
Context {W : Type} `{Env : StashEnv W}.
Implicit Types s : stash W.

(** The end of a stash returns: every node of it is gone, every other object is as it was,
    and the data stored under each identifier are freed, once. *)
Theorem stash_free_frees_once T s root : stash_ok T s root ->
  exists f0, forall f, (f0 <= f)%nat -> exists s', netsnmp_oid_stash_free f (Some root) s = Some (tt, s') /\
    (forall w p, T !! w = Some p -> heap s' !! p = None) /\
    (forall p, (forall w, T !! w <> Some p) -> heap s' !! p = heap s !! p) /\
    exists ws, NoDup ws /\ (forall w, w ∈ ws <-> w <> [] /\ is_Some (data T s w)) /\
      (freed s').*2 = omap (data T s) ws ++ (freed s).*2.
Proof.
  intros Hs. destruct (depth_bound T) as [K HK]. destruct (free_drops T s root Hs K HK K [] root) as (f0 & Hf0); [lia|by apply Hs|].
  exists f0. intros f Hf. destruct (Hf0 f Hf s) as (s' & Hrun & [Hg Hk (F & HF & Hnd & Hin)]); [done|]. exists s'. split; [done|].
  split; [intros w p Hp; apply Hg; by exists w|]. split; [intros p Hp; apply Hk; intros (w & Hw); by apply (Hp w)|].
  assert (exists ws, Forall2 (fun pd w => w <> [] /\ T !! w = Some pd.1 /\ data T s w = Some pd.2) F ws) as (ws & Hws).
  { apply Forall_exists_Forall2_l, list.Forall_forall. intros [p d] Hpd. apply Hin in Hpd as [(w & Hne & Hw) Hd]. cbn [app] in Hw. exists w. split; [done|]. split; [done|].
    unfold data. by rewrite Hw. }
  exists ws. split; [|split].
  - clear -Hws Hnd. induction Hws as [|[p d] w F ws (_ & Hp & _) Hws IH]; [constructor|]. apply list.NoDup_cons in Hnd as [Hn Hnd]. constructor; [|by apply IH].
    intros Hw. apply Hn. apply list_elem_of_lookup in Hw as [i Hi]. destruct (Forall2_lookup_r _ _ _ _ _ Hws Hi) as ([p' d'] & Hi' & _ & Hp' & _).
    cbn in *. rewrite Hp in Hp'. injection Hp' as ->. apply list_elem_of_fmap. exists (p', d'). split; [done|]. by eapply list_elem_of_lookup_2.
  - intros w. split.
    + intros Hw. apply list_elem_of_lookup in Hw as [i Hi]. destruct (Forall2_lookup_r _ _ _ _ _ Hws Hi) as (pd & _ & Hne & _ & Hd). split; [done|by eexists].
    + intros [Hne [d Hd]]. unfold data in Hd. destruct (T !! w) as [p|] eqn:Hp; [|done].
      assert ((p, d) ∈ F) as Hpd by (apply Hin; split; [by exists w|exact Hd]). apply list_elem_of_lookup in Hpd as [i Hi].
      destruct (Forall2_lookup_l _ _ _ _ _ Hws Hi) as (w' & Hi' & _ & Hp' & _). assert (w = w') as -> by (by eapply s_inj). by eapply list_elem_of_lookup_2.
  - rewrite HF, fmap_app. f_equal. clear -Hws. induction Hws as [|[p d] w F ws (_ & _ & Hd) Hws IH]; [done|]. cbn. rewrite Hd. f_equal. exact IH.
Qed.
End free.

(** * A concrete stash *)

#[local] Instance sample_env : StashEnv unit := fun taken u => (Some (fresh taken), u).

Lemma sample_malloc (taken : gset Z) (u : unit) : exists p u', malloc taken u = (Some p, u') /\ p ∉ taken.
Proof. exists (fresh taken), u. split; [done|apply is_fresh]. Qed.

Definition no_stash : stash unit := mkstash ∅ tt [].

(** Additions under some identifiers; the root and the stash. *)
Fixpoint stash_of (l : list (list Z * Z)) (root : option Z) (s : stash unit) : option (option Z * stash unit) :=
  match l with
  | [] => Some (root, s)
  | (w, d) :: l => r ← netsnmp_oid_stash_add_data root w (Some d) s; stash_of l r.1.2 r.2
  end.

Lemma stash_refines_map_witness :
  netsnmp_oid_stash_get_data None [1; 3] no_stash = Some (None, no_stash) /\
  exists rc r s', netsnmp_oid_stash_add_data None [1; 3] (Some 7) no_stash = Some ((rc, Some r), s') /\ rc = SNMPERR_SUCCESS.
Proof.
  destruct (stash_refines_map (fun _ => None) None no_stash [1; 3] 7 sample_malloc) as [Hget (rc & r & s' & Hadd & _ & Hrc & _)]; [intros w; reflexivity|discriminate|].
  split; [exact Hget|]. exists rc, r, s'. split; [exact Hadd|exact Hrc].
Defined.

Lemma stash_free_frees_once_witness (s := set_heap {[ 5 := new_node ]} no_stash) :
  exists f0, forall f, (f0 <= f)%nat -> exists s', netsnmp_oid_stash_free f (Some 5) s = Some (tt, s') /\ heap s' !! 5 = None.
Proof.
  destruct (stash_free_frees_once {[ [] := 5 ]} s 5) as (f0 & Hf0); [apply new_root_ok; reflexivity|]. exists f0. intros f Hf. destruct (Hf0 f Hf) as (s' & Hr & Hg & _).
  exists s'. split; [exact Hr|]. apply (Hg []). reflexivity.
Defined.

(** Data under 1.3, 1.34 (in the same list of the table) and 2 are found again, others not. *)
Example lookup_ex :
  (r ← stash_of [([1; 3], 7); ([1; 34], 8); ([2], 9)] None no_stash;
   a ← netsnmp_oid_stash_get_data r.1 [1; 3] r.2; b ← netsnmp_oid_stash_get_data r.1 [1; 34] r.2; c ← netsnmp_oid_stash_get_data r.1 [1] r.2; Some [a.1; b.1; c.1])
  = Some [Some 7; Some 8; None].
Proof. vm_compute. reflexivity. Qed.

Example free_ex :
  (r ← stash_of [([1; 3], 7); ([1; 34], 8); ([2], 9)] None no_stash; x ← netsnmp_oid_stash_free 10 r.1 r.2; Some ((freed x.2).*2, size (heap x.2)))
  = Some ([9; 7; 8], 0%nat).
Proof. vm_compute. reflexivity. Qed.

(** The next identifier after 5 is said to be 3, when 3 and 7 are there. *)
Example next_goes_back_ex :
  (r ← stash_of [([3], 1); ([7], 2)] None no_stash; x ← netsnmp_oid_stash_getnext_node r.1 [5] r.2; p ← x.1; n ← heap r.2 !! p; Some (value n)) = Some 3.
Proof. vm_compute. reflexivity. Qed.

(** After 1.2 it is found. *)
Example next_ex :
  (r ← stash_of [([1; 2], 1); ([1; 40], 2); ([1; 33], 2); ([7; 1], 2)] None no_stash; x ← netsnmp_oid_stash_getnext_node r.1 [1; 2] r.2; p ← x.1; n ← heap r.2 !! p;
   Some (value n)) = Some 33.
Proof. vm_compute. reflexivity. Qed.

(** Without memory for a node, the address that was not given is written through. *)
Example no_memory_ex : netsnmp_oid_stash_add_data (Env := fun taken u => (if bool_decide (taken = ∅) then Some 1 else None, u)) None [1] (Some 7) no_stash = None.
Proof. vm_compute. reflexivity. Qed.
