(* ===== verification/RedisReader.v ===== *)
(** The reader of replies of the redis client, [hiredis-master/read.c]: bytes are fed
    to it as they come, and it makes replies of them, one at a time.

    The functions that make the objects of a reply ([redisReplyObjectFunctions]) are
    the class [ReplyFunctions]; an object is known by its address, and no address is
    the null pointer they return when they are out of memory.  The buffer is the list
    of its bytes; its spare room, which decides whether an empty buffer is made anew,
    is an argument of [redisReaderFeed].  The texts of errors are left out. *)
From Stdlib Require Import ZArith Lia.
From stdpp Require Import gmap.
From S2P Require Import Prelude StateMonad.

Definition REDIS_ERR : Z := -1.
Definition REDIS_OK : Z := 0.
Definition REDIS_ERR_PROTOCOL : Z := 4.
Definition REDIS_ERR_OOM : Z := 5.
Definition REDIS_REPLY_STRING : Z := 1.
Definition REDIS_REPLY_ARRAY : Z := 2.
Definition REDIS_REPLY_INTEGER : Z := 3.
Definition REDIS_REPLY_NIL : Z := 4.
Definition REDIS_REPLY_STATUS : Z := 5.
Definition REDIS_REPLY_ERROR : Z := 6.
Definition REDIS_READER_MAX_BUF : Z := 1024 * 16.

Definition CR : Z := 13.
Definition LF : Z := 10.

(** [redisReadTask]; [t_parent] is the place of the parent in the stack. *)
Record redisReadTask : Type := mktask {
  t_type : Z;                (* int *)
  t_elements : Z;            (* int *)
  t_idx : Z;                 (* int *)
  t_obj : option Z;
  t_parent : option Z
}.

(** What a function sees of its task: the type, the place in the parent, and the
    object of the parent, if there is a parent. *)
Record task_view : Type := mktview { tv_type : Z; tv_idx : Z; tv_parent : option (option Z) }.

(** [redisReplyObjectFunctions] on a heap of objects. *)
Class ReplyFunctions (H : Type) : Type := {
  createString : task_view -> list Z -> H -> option (option Z * H);
  createArray : task_view -> Z -> H -> option (option Z * H);
  createInteger : task_view -> Z -> H -> option (option Z * H);
  createNil : task_view -> H -> option (option Z * H);
  freeObject : Z -> H -> option H
}.

Record redisReader (H : Type) : Type := mkreader {
  r_err : Z;                 (* int *)
  r_buf : option (list Z);
  r_pos : Z;                 (* size_t *)
  r_len : Z;                 (* size_t *)
  r_maxbuf : Z;              (* size_t *)
  r_stack : list redisReadTask;
  r_idx : Z;                 (* int *)
  r_reply : option Z;
  r_heap : H
}.
Arguments mkreader {H}. Arguments r_err {H}. Arguments r_buf {H}. Arguments r_pos {H}. Arguments r_len {H}. Arguments r_maxbuf {H}.
Arguments r_stack {H}. Arguments r_idx {H}. Arguments r_reply {H}. Arguments r_heap {H}.

Section code.
Context {H : Type} `{F : ReplyFunctions H}.
Abbreviation reader := (redisReader H).
Abbreviation m A := (M reader A).
Implicit Types r : reader.

Definition set_r_pos (x : Z) r : reader := mkreader (r_err r) (r_buf r) x (r_len r) (r_maxbuf r) (r_stack r) (r_idx r) (r_reply r) (r_heap r).
Definition set_r_buf (x : option (list Z)) (pos len : Z) r : reader := mkreader (r_err r) x pos len (r_maxbuf r) (r_stack r) (r_idx r) (r_reply r) (r_heap r).
Definition set_r_stack (x : list redisReadTask) r : reader := mkreader (r_err r) (r_buf r) (r_pos r) (r_len r) (r_maxbuf r) x (r_idx r) (r_reply r) (r_heap r).
Definition set_r_idx (x : Z) r : reader := mkreader (r_err r) (r_buf r) (r_pos r) (r_len r) (r_maxbuf r) (r_stack r) x (r_reply r) (r_heap r).
Definition set_r_reply (x : option Z) r : reader := mkreader (r_err r) (r_buf r) (r_pos r) (r_len r) (r_maxbuf r) (r_stack r) (r_idx r) x (r_heap r).
Definition set_r_heap (x : H) r : reader := mkreader (r_err r) (r_buf r) (r_pos r) (r_len r) (r_maxbuf r) (r_stack r) (r_idx r) (r_reply r) x.
Definition set_r_err (x : Z) r : reader := mkreader x (r_buf r) (r_pos r) (r_len r) (r_maxbuf r) (r_stack r) (r_idx r) (r_reply r) (r_heap r).

(** [__redisReaderSetError] *)
Definition redisReaderSetError (type : Z) : m unit :=
  r ← get;
  (match r_reply r with
   | Some p => h ← lift (freeObject p (r_heap r)); modify (set_r_heap h) ;; modify (set_r_reply None)
   | None => skip
   end) ;;
  (match r_buf r with Some _ => modify (set_r_buf None 0 0) | None => skip end) ;;
  modify (set_r_idx (-1)) ;; modify (set_r_err type).

Definition redisReaderSetErrorProtocolByte : m unit := redisReaderSetError REDIS_ERR_PROTOCOL.
Definition redisReaderSetErrorOOM : m unit := redisReaderSetError REDIS_ERR_OOM.

(** The bytes from [r->buf + r->pos] on. *)
Definition rest_of r : option (list Z) := b ← r_buf r; if (0 <=? r_pos r) && (r_pos r <=? Z.of_nat (length b)) then Some (drop (Z.to_nat (r_pos r)) b) else None.

(** What is left of the bytes, [r->len - r->pos]. *)
Definition bytes_left r : Z := u64 (r_len r - r_pos r).

(** [readBytes]: the place it gives is the old [pos]. *)
Definition readBytes (n : Z) : m (option Z) :=
  r ← get; if n <=? bytes_left r then modify (set_r_pos (u64 (r_pos r + n))) ;; mret (Some (r_pos r)) else mret None.

(** [seekNewline] on the bytes [s]; the place of the carriage return, if there is one
    before [_len]. *)
Fixpoint seek_loop (fuel : nat) (s : list Z) (_len pos : Z) : option (option Z) :=
  if pos <? _len then
    match fuel with
    | O => None
    | S fuel =>
      c ← peek s pos;
      if negb (c =? CR) then seek_loop fuel s _len (pos + 1)
      else d ← peek s (pos + 1); if d =? LF then Some (Some pos) else seek_loop fuel s _len (pos + 1)
    end
  else Some None.

Definition seekNewline (s : list Z) (len : Z) : option (option Z) := seek_loop (length s) s (s32 (u64 (len - 1))) 0.

(** The digits up to a carriage return. *)
Fixpoint digits_loop (s : list Z) (mult v : Z) : option Z :=
  match s with
  | [] => None
  | c :: s =>
    if c =? CR then Some (s64 (mult * v))
    else
      let dec := c - 48 in
      if (0 <=? dec) && (dec <? 10) then digits_loop s mult (s64 (s64 (v * 10) + dec)) else Some (-1)
  end.

Definition readLongLong (s : list Z) : option Z :=
  match s with
  | [] => None
  | c :: s' => if c =? 45 then digits_loop s' (-1) 0 else if c =? 43 then digits_loop s' 1 0 else digits_loop s 1 0
  end.

(** The line, from the old [pos] on, and its length. *)
Definition readLine : m (option (list Z * Z)) :=
  r ← get;
  p ← lift (rest_of r);
  s ← lift (seekNewline p (bytes_left r));
  match s with
  | Some len => modify (set_r_pos (u64 (r_pos r + u64 (s32 len + 2)))) ;; mret (Some (p, s32 len))
  | None => mret None
  end.

(** The task at a place of the stack. *)
Definition task_at (i : Z) : m redisReadTask := r ← get; lift (if 0 <=? i then r_stack r !! Z.to_nat i else None).
Definition upd_task (i : Z) (f : redisReadTask -> redisReadTask) : m unit :=
  t ← task_at i; modify (fun r => set_r_stack (<[Z.to_nat i := f t]> (r_stack r)) r).

Definition current : m redisReadTask := r ← get; task_at (r_idx r).

(** The task as the functions see it. *)
Definition view_of (t : redisReadTask) : m task_view :=
  match t_parent t with
  | None => mret (mktview (t_type t) (t_idx t) None)
  | Some p => q ← task_at p; mret (mktview (t_type t) (t_idx t) (Some (t_obj q)))
  end.

(** A call of one of the functions on the current task. *)
Definition create (f : task_view -> H -> option (option Z * H)) : m (option Z) :=
  t ← current; v ← view_of t; r ← get; '(p, h) ← lift (f v (r_heap r)); modify (set_r_heap h) ;; mret p.

(** [moveToNextTask]; [fuel] bounds the tasks it leaves. *)
Fixpoint moveToNextTask (fuel : nat) : m unit :=
  r ← get;
  if 0 <=? r_idx r then
    if r_idx r =? 0 then modify (set_r_idx (-1))
    else
      cur ← task_at (r_idx r); prv ← task_at (r_idx r - 1);
      if negb (t_type prv =? REDIS_REPLY_ARRAY) then lift None
      else if t_idx cur =? t_elements prv - 1 then
        match fuel with O => lift None | S fuel => modify (set_r_idx (r_idx r - 1)) ;; moveToNextTask fuel end
      else if negb (t_idx cur <? t_elements prv) then lift None
      else upd_task (r_idx r) (fun t => mktask (-1) (-1) (s32 (t_idx t + 1)) (t_obj t) (t_parent t))
  else skip.

Definition MAX_TASKS : nat := 9.

(** [if (r->ridx == 0) r->reply = obj; moveToNextTask(r);] *)
Definition item_done (obj : option Z) : m unit :=
  r ← get; (if r_idx r =? 0 then modify (set_r_reply obj) else skip) ;; moveToNextTask MAX_TASKS.

Definition processLineItem : m Z :=
  cur ← current;
  line ← readLine;
  match line with
  | Some (p, len) =>
    obj ← (if t_type cur =? REDIS_REPLY_INTEGER then v ← lift (readLongLong p); create (fun t => createInteger t v)
           else create (fun t => createString t (take (Z.to_nat len) p)));
    match obj with
    | None => redisReaderSetErrorOOM ;; mret REDIS_ERR
    | Some _ => item_done obj ;; mret REDIS_OK
    end
  | None => mret REDIS_ERR
  end.

(** The [len] bytes at [from]. *)
Definition bulk_bytes (p : list Z) (from len : Z) : option (list Z) := peek_n p from len.

Definition processBulkItem : m Z :=
  r ← get;
  p ← lift (rest_of r);
  s ← lift (seekNewline p (bytes_left r));
  match s with
  | None => mret REDIS_ERR
  | Some s =>
    let bytelen := u64 (s + 2) in
    len ← lift (readLongLong p);
    done ←
      (if len <? 0 then obj ← create createNil; mret (Some (obj, bytelen))
       else
         let bytelen := u64 (bytelen + s64 (len + 2)) in
         if u64 (r_pos r + bytelen) <=? r_len r then
           str ← lift (bulk_bytes p (s + 2) len); obj ← create (fun t => createString t str); mret (Some (obj, bytelen))
         else mret None);
    match done with
    | None => mret REDIS_ERR
    | Some (None, _) => redisReaderSetErrorOOM ;; mret REDIS_ERR
    | Some (Some obj, bytelen) =>
      modify (fun r => set_r_pos (u64 (r_pos r + bytelen)) r) ;; item_done (Some obj) ;; mret REDIS_OK
    end
  end.

(** The task an array puts on the stack for its elements. *)
Definition push_task (elements : Z) (obj : option Z) : m unit :=
  r ← get;
  upd_task (r_idx r) (fun t => mktask (t_type t) (s32 elements) (t_idx t) obj (t_parent t)) ;;
  modify (set_r_idx (r_idx r + 1)) ;;
  upd_task (r_idx r + 1) (fun _ => mktask (-1) (-1) 0 None (Some (r_idx r))).

Definition processMultiBulkItem : m Z :=
  r ← get;
  if r_idx r =? 8 then redisReaderSetError REDIS_ERR_PROTOCOL ;; mret REDIS_ERR
  else
    line ← readLine;
    match line with
    | None => mret REDIS_ERR
    | Some (p, _) =>
      elements ← lift (readLongLong p);
      r ← get;
      let root := r_idx r =? 0 in
      obj ← (if elements =? -1 then create createNil else create (fun t => createArray t (s32 elements)));
      match obj with
      | None => redisReaderSetErrorOOM ;; mret REDIS_ERR
      | Some _ =>
        (if elements =? -1 then moveToNextTask MAX_TASKS
         else if 0 <? elements then push_task elements obj else moveToNextTask MAX_TASKS) ;;
        (if root then modify (set_r_reply obj) else skip) ;;
        mret REDIS_OK
      end
    end.

Definition type_of_byte (c : Z) : option Z :=
  if c =? 45 then Some REDIS_REPLY_ERROR
  else if c =? 43 then Some REDIS_REPLY_STATUS
  else if c =? 58 then Some REDIS_REPLY_INTEGER
  else if c =? 36 then Some REDIS_REPLY_STRING
  else if c =? 42 then Some REDIS_REPLY_ARRAY
  else None.

(** [cur->type = ...] *)
Definition set_task_type (x : Z) (t : redisReadTask) : redisReadTask := mktask x (t_elements t) (t_idx t) (t_obj t) (t_parent t).

(** The item of the type of the task. *)
Definition process_typed : m Z :=
  cur ← current;
  if (t_type cur =? REDIS_REPLY_ERROR) || (t_type cur =? REDIS_REPLY_STATUS) || (t_type cur =? REDIS_REPLY_INTEGER) then processLineItem
  else if t_type cur =? REDIS_REPLY_STRING then processBulkItem
  else if t_type cur =? REDIS_REPLY_ARRAY then processMultiBulkItem
  else lift None.

Definition processItem : m Z :=
  cur ← current;
  if t_type cur <? 0 then
    p ← readBytes 1;
    match p with
    | None => mret REDIS_ERR
    | Some p =>
      r ← get;
      c ← lift (b ← r_buf r; peek b p);
      match type_of_byte c with
      | None => redisReaderSetErrorProtocolByte ;; mret REDIS_ERR
      | Some type => upd_task (r_idx r) (set_task_type type) ;; process_typed
      end
    end
  else process_typed.

(** [redisReaderCreateWithFunctions], with memory. *)
Definition zero_task : redisReadTask := mktask 0 0 0 None None.
Definition redisReaderCreateWithFunctions (h : H) : reader := mkreader 0 (Some []) 0 0 REDIS_READER_MAX_BUF (replicate 9 zero_task) (-1) None h.

(** [buf] and [len]; [mem] tells whether [sdscatlen] finds memory, [avail] is what
    [sdsavail] gives. *)
Definition redisReaderFeed (mem : bool) (avail : Z) (bytes : option (list Z)) : m Z :=
  r ← get;
  if negb (r_err r =? 0) then mret REDIS_ERR
  else
    match bytes with
    | Some ((_ :: _) as l) =>
      (if (r_len r =? 0) && negb (r_maxbuf r =? 0) && (r_maxbuf r <? avail) then modify (set_r_buf (Some []) 0 (r_len r)) else skip) ;;
      r ← get;
      b ← lift (r_buf r);
      if mem then modify (set_r_buf (Some (b ++ l)) (r_pos r) (Z.of_nat (length (b ++ l)))) ;; mret REDIS_OK
      else redisReaderSetErrorOOM ;; mret REDIS_ERR
    | _ => mret REDIS_OK
    end.

(** [while (r->ridx >= 0) if (processItem(r) != REDIS_OK) break;] *)
Fixpoint process_items (fuel : nat) : m unit :=
  r ← get;
  if 0 <=? r_idx r then
    match fuel with
    | O => lift None
    | S fuel => rc ← processItem; if rc =? REDIS_OK then process_items fuel else skip
    end
  else skip.

(** The loop of [redisReaderGetReply], with fuel for the bytes that are left. *)
Definition process_all : m unit := r ← get; process_items (S (Z.to_nat (bytes_left r))).

(** The first task is set up when the stack is empty. *)
Definition first_task : m unit :=
  r ← get;
  if r_idx r =? -1 then upd_task 0 (fun _ => mktask (-1) (-1) (-1) None None) ;; modify (set_r_idx 0) else skip.

(** Drops what has been consumed, from 1k on. *)
Definition discard : m unit :=
  r ← get;
  if 1024 <=? r_pos r then
    b ← lift (r_buf r);
    let b := drop (Z.to_nat (r_pos r)) b in modify (set_r_buf (Some b) 0 (Z.of_nat (length b)))
  else skip.

(** The result and [*reply]. *)
Definition redisReaderGetReply : m (Z * option Z) :=
  r ← get;
  if negb (r_err r =? 0) then mret (REDIS_ERR, None)
  else if r_len r =? 0 then mret (REDIS_OK, None)
  else
    first_task ;; process_all ;;
    r ← get;
    if negb (r_err r =? 0) then mret (REDIS_ERR, None)
    else
      discard ;;
      r ← get;
      if r_idx r =? -1 then modify (set_r_reply None) ;; mret (REDIS_OK, r_reply r) else mret (REDIS_OK, None).
End code.
