(* ===== verification/RedisLex.v ===== *)
(** The reader of replies as a lexer: what [processItem] does to the buffer is to take
    the next token ([lex]) off the bytes that are left, or to wait; what it does to the
    stack of tasks and to the objects ([apply_item]) does not see the buffer. *)
From Stdlib Require Import ZArith Lia.
From stdpp Require Import list.
From S2P Require Import Prelude StateMonad Decimal RedisReader.

(** * Lines *)

(** Where the first line end is. *)
Fixpoint find_crlf (s : list Z) : option nat :=
  match s with
  | [] => None
  | c :: s' => if (c =? CR) && bool_decide (head s' = Some LF) then Some O else S <$> find_crlf s'
  end.

Lemma find_crlf_cons c s : find_crlf (c :: s) = if (c =? CR) && bool_decide (head s = Some LF) then Some O else S <$> find_crlf s.
Proof. done. Qed.

Lemma find_crlf_app s e n : find_crlf s = Some n -> find_crlf (s ++ e) = Some n.
Proof.
  revert n. induction s as [|c s IH]; intros n; [done|]. cbn [app]. rewrite !find_crlf_cons.
  assert (Hh : s <> [] -> head (s ++ e) = head s) by (by destruct s).
  destruct (decide (s = [])) as [->|Hs]; [by rewrite andb_false_r|]. rewrite (Hh Hs).
  destruct (_ && _); [done|]. intros (n' & Hn & ->)%fmap_Some. by rewrite (IH n').
Qed.

Lemma find_crlf_bound s n : find_crlf s = Some n -> (n + 2 <= length s)%nat /\ s !! n = Some CR.
Proof.
  revert n. induction s as [|c s IH]; intros n; [done|]. cbn [find_crlf].
  destruct ((c =? CR) && bool_decide (head s = Some LF)) eqn:Hc.
  - intros [= <-]. apply andb_prop in Hc as [->%Z.eqb_eq Hh%bool_decide_eq_true]. destruct s; [done|]. cbn. split; [lia|done].
  - intros (n' & Hn & ->)%fmap_Some. destruct (IH _ Hn). cbn. split; [lia|done].
Qed.

(** A text without a line end is read up to the line end behind it. *)
Lemma find_crlf_line l e : find_crlf l = None -> find_crlf (l ++ CR :: LF :: e) = Some (length l).
Proof.
  intros Hl. induction l as [|c l IH]; [done|]. cbn [app length]. rewrite find_crlf_cons in *.
  assert (Hh : head (l ++ CR :: LF :: e) = Some LF -> head l = Some LF) by (by destruct l).
  destruct (c =? CR); cbn [andb] in *; [|by rewrite IH by (by apply fmap_None in Hl)].
  destruct (decide (head l = Some LF)) as [H1|H1]; [by rewrite bool_decide_true in Hl|]. rewrite bool_decide_false in * by tauto.
  by rewrite IH by (by apply fmap_None in Hl).
Qed.

Lemma seek_loop_spec s fuel k : (k <= length s)%nat -> (length s <= k + fuel)%nat ->
  seek_loop fuel s (Z.of_nat (length s) - 1) (Z.of_nat k) = Some ((fun n => Z.of_nat (k + n)) <$> find_crlf (drop k s)).
Proof.
  revert k. induction fuel as [|fuel IH]; intros k Hk Hf; cbn [seek_loop].
  - rewrite (proj2 (Z.ltb_ge _ _)) by lia. by rewrite drop_ge by lia.
  - destruct (Z.ltb_spec (Z.of_nat k) (Z.of_nat (length s) - 1)) as [Hlt|Hge].
    + destruct (lookup_lt_is_Some_2 s k) as [c Hc]; [lia|]. destruct (lookup_lt_is_Some_2 s (S k)) as [d Hd]; [lia|].
      assert (Hnext : seek_loop fuel s (Z.of_nat (length s) - 1) (Z.of_nat k + 1) = Some ((fun n => Z.of_nat (k + n)) <$> (S <$> find_crlf (drop (S k) s)))).
      { replace (Z.of_nat k + 1) with (Z.of_nat (S k)) by lia. rewrite IH by lia. rewrite <- option_fmap_compose.
        f_equal. apply option_fmap_ext. intros n. cbn. lia. }
      rewrite Hnext. unfold peek. rewrite !(proj2 (Z.leb_le _ _)), Nat2Z.id by lia. replace (Z.to_nat (Z.of_nat k + 1)) with (S k) by lia.
      rewrite Hc, Hd. cbn [mbind option_bind]. rewrite (drop_S s c k) by done. cbn [find_crlf]. rewrite (drop_S s d (S k)) by done. cbn [head].
      destruct (c =? CR); cbn [negb andb]; [|done]. destruct (Z.eqb_spec d LF) as [->|Hne].
      * rewrite bool_decide_true by done. cbn. do 2 f_equal. lia.
      * rewrite bool_decide_false by congruence. done.
    + destruct (decide (k = length s)) as [->|]; [by rewrite drop_all|].
      destruct (lookup_lt_is_Some_2 s k) as [c Hc]; [lia|]. rewrite (drop_S s c k), drop_ge by (done || lia). cbn [find_crlf head].
      by rewrite bool_decide_false, andb_false_r by done.
Qed.

Lemma seekNewline_spec s : Z.of_nat (length s) < 2 ^ 31 -> seekNewline s (Z.of_nat (length s)) = Some (Z.of_nat <$> find_crlf s).
Proof.
  intros Hs. unfold seekNewline. destruct s as [|c s]; [done|].
  rewrite wrap_small, swrap_small by (cbn [length] in *; lia). pose proof (seek_loop_spec (c :: s) (length (c :: s)) 0) as H.
  rewrite drop_0 in H. apply H; lia.
Qed.

(** * Numbers *)

Lemma digits_loop_app s e mult v n : digits_loop s mult v = Some n -> digits_loop (s ++ e) mult v = Some n.
Proof. revert v. induction s as [|c s IH]; intros v; [done|]. cbn. destruct (c =? CR); [done|]. destruct (_ && _); [apply IH|done]. Qed.

Lemma readLongLong_app s e n : readLongLong s = Some n -> readLongLong (s ++ e) = Some n.
Proof.
  unfold readLongLong. destruct s as [|c s]; [done|]. cbn [app]. change (c :: s ++ e) with ((c :: s) ++ e).
  destruct (c =? 45); [apply digits_loop_app|]. destruct (c =? 43); apply digits_loop_app.
Qed.

(** In front of a line end there is something to read. *)
Lemma digits_loop_total s mult v : CR ∈ s -> is_Some (digits_loop s mult v).
Proof.
  revert v. induction s as [|c s IH]; intros v Hs; [by apply elem_of_nil in Hs|]. cbn. destruct (Z.eqb_spec c CR); [by eexists|].
  destruct (_ && _); [|by eexists]. apply IH. by apply elem_of_cons in Hs as [?|?].
Qed.

Lemma readLongLong_total s : CR ∈ s -> is_Some (readLongLong s).
Proof.
  intros Hs. unfold readLongLong. destruct s as [|c s]; [by apply elem_of_nil in Hs|].
  destruct (Z.eqb_spec c 45) as [->|]; [apply digits_loop_total; by apply elem_of_cons in Hs as [?|?]|].
  destruct (Z.eqb_spec c 43) as [->|]; [apply digits_loop_total; by apply elem_of_cons in Hs as [?|?]|]. by apply digits_loop_total.
Qed.

Lemma read_digit_le ds : forall v, Forall digit ds -> 0 <= v -> v <= fold_left read_digit ds v.
Proof.
  induction ds as [|d ds IH]; intros v Hds Hv; [done|]. inversion Hds; subst. cbn. unfold digit in *.
  etrans; [|apply IH]; unfold read_digit; [lia|done|lia].
Qed.

Lemma digits_loop_spec ds e mult v : Forall digit ds -> 0 <= v -> fold_left read_digit ds v < 2 ^ 63 -> mult = 1 \/ mult = -1 ->
  digits_loop (ds ++ CR :: e) mult v = Some (mult * fold_left read_digit ds v).
Proof.
  intros Hds. revert v. induction Hds as [|d ds Hd Hds IH]; intros v Hv Hb Hm; cbn [digits_loop app fold_left] in *.
  - rewrite Z.eqb_refl, swrap_small by lia. done.
  - unfold digit in Hd. assert (Hrd : read_digit v d = v * 10 + (d - 48)) by done.
    pose proof (read_digit_le ds (read_digit v d) Hds ltac:(lia)) as Hle.
    destruct (Z.eqb_spec d CR) as [->|]; [unfold CR in Hd; lia|]. rewrite (proj2 (Z.leb_le _ _)), (proj2 (Z.ltb_lt _ _)) by lia. cbn [andb].
    rewrite (swrap_small 64 (v * 10)), swrap_small by lia. rewrite <- Hrd. apply IH; [lia|done|done].
Qed.

(** A number that [printf] wrote is read. *)
Lemma readLongLong_zdec n e : - 2 ^ 63 < n < 2 ^ 63 -> readLongLong (zdec n ++ CR :: e) = Some n.
Proof.
  intros Hn. unfold zdec. destruct (Z.ltb_spec n 0).
  - destruct (dec_decimal (- n)) as (Hd & _ & Hv & _); [lia|]. cbn [app readLongLong]. rewrite Z.eqb_refl.
    rewrite digits_loop_spec, Hv by (done || lia || (right; done)). f_equal. lia.
  - pose proof (dec_decimal n ltac:(lia)) as Hdec. destruct (decimal_head _ _ Hdec) as (d & ds & Heq & Hd). destruct Hdec as (Hds & _ & Hv & _).
    rewrite Heq in *. cbn [app readLongLong]. unfold digit in Hd. rewrite !(proj2 (Z.eqb_neq _ _)) by lia.
    change (d :: ds ++ CR :: e) with ((d :: ds) ++ CR :: e). rewrite digits_loop_spec, Hv by (done || lia || (left; done)). f_equal. lia.
Qed.

(** * Tokens *)

Inductive item : Type :=
  | IString (bs : list Z)
  | IInteger (n : Z)
  | INil
  | IArray (n : Z).

(** The token of a type at the head of the bytes, and how many bytes it has. *)
Definition lex (type : Z) (s : list Z) : option (item * nat) :=
  n ← find_crlf s;
  if (type =? REDIS_REPLY_ERROR) || (type =? REDIS_REPLY_STATUS) then Some (IString (take n s), (n + 2)%nat)
  else
    v ← readLongLong s;
    if type =? REDIS_REPLY_INTEGER then Some (IInteger v, (n + 2)%nat)
    else if type =? REDIS_REPLY_STRING then
      if v <? 0 then Some (INil, (n + 2)%nat)
      else if Z.of_nat (n + 2) + v + 2 <=? Z.of_nat (length s) then Some (IString (take (Z.to_nat v) (drop (n + 2) s)), (n + 2 + Z.to_nat v + 2)%nat)
      else None
    else Some (if v =? -1 then INil else IArray v, (n + 2)%nat).

Lemma lex_string s : lex REDIS_REPLY_STRING s =
  n ← find_crlf s; v ← readLongLong s;
  if v <? 0 then Some (INil, (n + 2)%nat)
  else if Z.of_nat (n + 2) + v + 2 <=? Z.of_nat (length s) then Some (IString (take (Z.to_nat v) (drop (n + 2) s)), (n + 2 + Z.to_nat v + 2)%nat)
  else None.
Proof. done. Qed.

Lemma lex_array s : lex REDIS_REPLY_ARRAY s = n ← find_crlf s; v ← readLongLong s; Some (if v =? -1 then INil else IArray v, (n + 2)%nat).
Proof. done. Qed.

(** A token is read the same when more bytes follow it. *)
Lemma lex_app type s e x : lex type s = Some x -> lex type (s ++ e) = Some x.
Proof.
  unfold lex. destruct (find_crlf s) as [n|] eqn:Hn; [|done]. rewrite (find_crlf_app _ _ _ Hn). cbn [mbind option_bind].
  destruct (find_crlf_bound _ _ Hn) as [Hb _]. destruct (_ || _); [rewrite take_app_le by lia; done|].
  destruct (readLongLong s) as [v|] eqn:Hv; [|done]. rewrite (readLongLong_app _ _ _ Hv). cbn [mbind option_bind].
  destruct (_ =? _); [done|]. destruct (_ =? _); [|done]. destruct (Z.ltb_spec v 0); [done|].
  destruct (Z.leb_spec (Z.of_nat (n + 2) + v + 2) (Z.of_nat (length s))); [|done]. rewrite (proj2 (Z.leb_le _ _)) by (rewrite length_app; lia).
  intros [= <-]. by rewrite drop_app_le, take_app_le by (rewrite ?length_drop; lia).
Qed.

Lemma lex_bound type s it n : lex type s = Some (it, n) -> (2 <= n <= length s)%nat.
Proof.
  unfold lex. destruct (find_crlf s) as [k|] eqn:Hk; [|done]. destruct (find_crlf_bound _ _ Hk) as [Hb _]. cbn [mbind option_bind].
  destruct (_ || _); [intros [= _ <-]; lia|]. destruct (readLongLong s) as [v|]; [|done]. cbn [mbind option_bind].
  destruct (_ =? _); [intros [= _ <-]; lia|]. destruct (_ =? _); [|intros [= _ <-]; lia]. destruct (Z.ltb_spec v 0); [intros [= _ <-]; lia|].
  destruct (Z.leb_spec (Z.of_nat (k + 2) + v + 2) (Z.of_nat (length s))); [|done]. intros [= _ <-]. lia.
Qed.

(** * Tokens and tasks *)

Section tokens.
Context {H : Type} `{F : ReplyFunctions H}.
Abbreviation reader := (redisReader H).
Abbreviation m A := (M reader A).
Implicit Types r : reader.

(** An object that has been made is the reply or an element. *)
Definition leaf (obj : option Z) : m Z :=
  match obj with
  | None => redisReaderSetErrorOOM ;; mret REDIS_ERR
  | Some _ => item_done obj ;; mret REDIS_OK
  end.

(** What a token does. *)
Definition apply_item (it : item) : m Z :=
  match it with
  | IString bs => create (fun t => createString t bs) ≫= leaf
  | IInteger n => create (fun t => createInteger t n) ≫= leaf
  | INil => create createNil ≫= leaf
  | IArray n =>
    r ← get;
    obj ← create (fun t => createArray t (s32 n));
    match obj with
    | None => redisReaderSetErrorOOM ;; mret REDIS_ERR
    | Some _ =>
      (if 0 <? n then push_task n obj else moveToNextTask MAX_TASKS) ;;
      (if r_idx r =? 0 then modify (set_r_reply obj) else skip) ;; mret REDIS_OK
    end
  end.

(** A computation that neither sees the buffer nor touches it. *)
Definition buffer_free {A} (f : m A) : Prop :=
  forall b p l r, f (set_r_buf b p l r) = match f r with Some (x, r') => Some (x, set_r_buf b p l r') | None => None end.

Lemma buffer_free_ret {A} (x : A) : buffer_free (mret x).
Proof. done. Qed.

Lemma buffer_free_lift {A} (o : option A) : buffer_free (lift o).
Proof. intros b p l r. by destruct o. Qed.

Lemma buffer_free_modify (f : reader -> reader) : (forall b p l r, f (set_r_buf b p l r) = set_r_buf b p l (f r)) -> buffer_free (modify f).
Proof. intros Hf b p l r. unfold modify. by rewrite Hf. Qed.

Lemma buffer_free_bind {A B} (f : m A) (k : A -> m B) : buffer_free f -> (forall x, buffer_free (k x)) -> buffer_free (f ≫= k).
Proof. intros Hf Hk b p l r. unfold mbind, M_bind. rewrite Hf. destruct (f r) as [[x r']|]; [apply Hk|done]. Qed.

Lemma buffer_free_get {B} (k : reader -> m B) :
  (forall b p l r, k (set_r_buf b p l r) = k r) -> (forall r, buffer_free (k r)) -> buffer_free (get ≫= k).
Proof. intros Hs Hk b p l r. unfold mbind, M_bind, get. rewrite Hs. apply Hk. Qed.

Ltac bfree1 :=
  lazymatch goal with
  | |- forall _, _ => intros
  | |- buffer_free (get ≫= _) => apply buffer_free_get; [by intros|intros]
  | |- buffer_free (_ ≫= _) => apply buffer_free_bind; [|intros]
  | |- buffer_free (mret _) => apply buffer_free_ret
  | |- buffer_free (lift _) => apply buffer_free_lift
  | |- buffer_free (modify _) => apply buffer_free_modify; by intros
  | |- buffer_free skip => apply buffer_free_ret
  | |- buffer_free (if ?b then _ else _) => destruct b
  | |- buffer_free (match ?x with _ => _ end) => destruct x
  end.
Ltac bfree := repeat bfree1; auto.

Lemma task_at_free i : buffer_free (task_at (H := H) i).
Proof. unfold task_at. bfree. Qed.

Lemma upd_task_free i f : buffer_free (upd_task (H := H) i f).
Proof. unfold upd_task. bfree. apply task_at_free. Qed.

Lemma create_free f : buffer_free (create (H := H) f).
Proof. unfold create, current, view_of. bfree; apply task_at_free. Qed.

Lemma moveToNextTask_free k : buffer_free (moveToNextTask (H := H) k).
Proof. induction k; cbn [moveToNextTask]; bfree; first [apply task_at_free|apply upd_task_free]. Qed.

Lemma item_done_free obj : buffer_free (item_done (H := H) obj).
Proof. unfold item_done. bfree. apply moveToNextTask_free. Qed.

Lemma push_task_free n obj : buffer_free (push_task (H := H) n obj).
Proof. unfold push_task. bfree; apply upd_task_free. Qed.

(** The bytes that are left, in a reader without an error; its buffer has at most
    [cap] bytes. *)
Definition holds_rest (cap : Z) (r : reader) (s : list Z) : Prop :=
  r_err r = 0 /\ exists b, r_buf r = Some b /\ 0 <= r_pos r <= Z.of_nat (length b) /\ r_len r = Z.of_nat (length b) /\ r_len r <= cap < 2 ^ 31 /\
    s = drop (Z.to_nat (r_pos r)) b.

Definition advance (n : nat) r : reader := set_r_pos (r_pos r + Z.of_nat n) r.

Context {cap : Z}.

Lemma holds_rest_left r s : holds_rest cap r s -> bytes_left r = Z.of_nat (length s) /\ rest_of r = Some s /\ Z.of_nat (length s) < 2 ^ 31.
Proof.
  intros (_ & b & Hb & Hp & Hl & Hm & ->). unfold bytes_left, rest_of. rewrite Hb, Hl, length_drop. cbn [mbind option_bind].
  rewrite wrap_small, !(proj2 (Z.leb_le _ _)) by lia. cbn. split_and!; [lia|done|lia].
Qed.

Lemma holds_rest_advance r s n : holds_rest cap r s -> (n <= length s)%nat -> holds_rest cap (advance n r) (drop n s).
Proof.
  intros (He & b & Hb & Hp & Hl & Hm & ->) Hn. rewrite length_drop in Hn. split; [done|]. exists b. cbn.
  split_and!; [done|lia|lia|done|lia|lia|]. rewrite drop_drop. f_equal. lia.
Qed.

Lemma u64_pos r s n : holds_rest cap r s -> 0 <= n <= Z.of_nat (length s) -> u64 (r_pos r + n) = r_pos r + n.
Proof. intros (_ & b & _ & Hp & Hl & Hm & ->) Hn. rewrite length_drop in Hn. apply wrap_small. lia. Qed.

Lemma readLine_spec r s : holds_rest cap r s ->
  readLine r = match find_crlf s with Some n => Some (Some (s, Z.of_nat n), advance (n + 2) r) | None => Some (None, r) end.
Proof.
  intros Hr. destruct (holds_rest_left r s Hr) as (Hl & Hs & Hb). unfold readLine, mbind, M_bind, get, lift.
  rewrite Hs, Hl, seekNewline_spec by done. destruct (find_crlf s) as [n|] eqn:Hn; [|done]. cbn.
  destruct (find_crlf_bound _ _ Hn) as [Hn2 _]. unfold mbind, M_bind, modify, mret, M_ret. rewrite swrap_small, (wrap_small 64 (_ + 2)) by lia.
  rewrite (u64_pos r s) by (done || lia). unfold advance. do 4 f_equal. lia.
Qed.

(** The current task is [t]. *)
Definition top r (t : redisReadTask) : Prop := 0 <= r_idx r /\ r_stack r !! Z.to_nat (r_idx r) = Some t.

Lemma current_top r t : top r t -> current r = Some (t, r).
Proof. intros [Hi Ht]. unfold current, task_at, mbind, M_bind, get. by rewrite (proj2 (Z.leb_le _ _)), Ht by done. Qed.

(** What is behind a line end is not looked at for the number of the line. *)
Lemma line_number s n : find_crlf s = Some n -> exists v, readLongLong s = Some v.
Proof. intros [_ Hn]%find_crlf_bound. apply readLongLong_total. by apply list_elem_of_lookup_2 in Hn. Qed.

Lemma processLineItem_lex r s t : holds_rest cap r s -> top r t -> t_type t ∈ [REDIS_REPLY_ERROR; REDIS_REPLY_STATUS; REDIS_REPLY_INTEGER] ->
  processLineItem r = match lex (t_type t) s with Some (it, n) => apply_item it (advance n r) | None => Some (REDIS_ERR, r) end.
Proof.
  intros Hr Ht Hty. unfold processLineItem. rewrite (bind_Some _ _ _ _ _ (current_top _ _ Ht)). unfold lex.
  pose proof (readLine_spec r s Hr) as Hline. destruct (find_crlf s) as [n|] eqn:Hn; [|by rewrite (bind_Some _ _ _ _ _ Hline)].
  rewrite (bind_Some _ _ _ _ _ Hline). cbn [mbind option_bind]. destruct (line_number s n Hn) as [v Hv]. rewrite Hv. rewrite Nat2Z.id.
  rewrite !elem_of_cons in Hty. destruct Hty as [->|[->|[->|[]%not_elem_of_nil]]]; reflexivity.
Qed.

Lemma free_keeps {A} (f : m A) r x r' : buffer_free f -> f r = Some (x, r') -> r' = set_r_buf (r_buf r) (r_pos r) (r_len r) r'.
Proof.
  intros Hf Hx. specialize (Hf (r_buf r) (r_pos r) (r_len r) r). replace (set_r_buf _ _ _ r) with r in Hf by (by destruct r).
  rewrite Hx in Hf. congruence.
Qed.

(** A bulk item makes its object before it is taken off the buffer: that is the same. *)
Lemma create_then_leaf f r s n : holds_rest cap r s -> (n <= length s)%nat ->
  (obj ← create f;
   match obj with
   | None => redisReaderSetErrorOOM ;; mret REDIS_ERR
   | Some obj => modify (fun r => set_r_pos (u64 (r_pos r + Z.of_nat n)) r) ;; item_done (Some obj) ;; mret REDIS_OK
   end) r = (create f ≫= leaf) (advance n r).
Proof.
  intros Hr Hn. unfold mbind at 1 5, M_bind. change (advance n r) with (set_r_buf (r_buf r) (r_pos r + Z.of_nat n) (r_len r) r).
  rewrite create_free. destruct (create f r) as [[obj r1]|] eqn:Hc; [|done].
  pose proof (free_keeps _ _ _ _ (create_free f) Hc) as Hk. destruct obj as [p|]; cbn [leaf].
  - unfold mbind at 1, M_bind, modify. rewrite Hk at 1 2. cbn [r_pos set_r_buf]. rewrite (u64_pos r s) by (done || lia).
    replace (set_r_pos _ _) with (set_r_buf (r_buf r) (r_pos r + Z.of_nat n) (r_len r) r1); [done|]. by rewrite Hk.
  - unfold redisReaderSetErrorOOM. destruct Hr as (_ & b & Hb & _). rewrite Hk. rewrite Hb in *.
    destruct (r_reply r1) eqn:Hrep; unfold redisReaderSetError, mbind, M_bind, get; cbn; rewrite Hrep; [|done]. cbn. unfold lift, mbind, M_bind.
    by destruct (freeObject _ _).
Qed.

(** [len + 2] does not overflow when the item is there. *)
Lemma bulk_len n v : Z.of_nat n < 2 ^ 31 -> 0 <= v < 2 ^ 63 -> exists x, u64 (u64 (Z.of_nat n + 2) + s64 (v + 2)) = x /\ 0 <= x < 2 ^ 64 - 2 ^ 31 /\
  (x = Z.of_nat n + 2 + (v + 2) \/ 2 ^ 63 <= x /\ 2 ^ 63 <= v + 2).
Proof.
  intros Hn Hv. rewrite (wrap_small 64 (Z.of_nat n + 2)) by lia. destruct (decide (v + 2 < 2 ^ 63)) as [Hs|Hs].
  - rewrite swrap_small, wrap_small by lia. eexists; split; [done|lia].
  - assert (s64 (v + 2) = v + 2 - 2 ^ 64) as ->.
    { unfold swrap. replace (v + 2 + 2 ^ (64 - 1)) with (v + 2 - 2 ^ 63 + 1 * 2 ^ 64) by lia. rewrite Z.mod_add, Z.mod_small by lia. lia. }
    replace (Z.of_nat n + 2 + (v + 2 - 2 ^ 64)) with (Z.of_nat n + v + 4 + (-1) * 2 ^ 64) by lia. unfold wrap. rewrite Z.mod_add, Z.mod_small by lia.
    eexists; split; [done|lia].
Qed.

Lemma bulk_fits r s n v : holds_rest cap r s -> (n + 2 <= length s)%nat -> 0 <= v < 2 ^ 63 ->
  let bytelen := u64 (u64 (Z.of_nat n + 2) + s64 (v + 2)) in
  (u64 (r_pos r + bytelen) <=? r_len r) = (Z.of_nat (n + 2) + v + 2 <=? Z.of_nat (length s)) /\
  (Z.of_nat (n + 2) + v + 2 <= Z.of_nat (length s) -> bytelen = Z.of_nat (n + 2 + Z.to_nat v + 2)).
Proof.
  intros (_ & b & _ & Hp & Hl & Hm & ->) Hn Hv. rewrite length_drop in *. cbv zeta.
  destruct (bulk_len n v) as (x & -> & Hx & Hc); [lia|done|]. rewrite wrap_small by lia. split; [|lia].
  apply eq_true_iff_eq. rewrite !Z.leb_le. lia.
Qed.

Lemma digits_loop_range s mult v n : digits_loop s mult v = Some n -> - 2 ^ 63 <= n < 2 ^ 63.
Proof.
  revert v. induction s as [|c s IH]; intros v; [done|]. cbn. destruct (c =? CR); [intros [= <-]; apply (swrap_range 64); lia|].
  destruct (_ && _); [apply IH|intros [= <-]; lia].
Qed.

Lemma readLongLong_range s n : readLongLong s = Some n -> - 2 ^ 63 <= n < 2 ^ 63.
Proof.
  unfold readLongLong. destruct s as [|c s]; [done|]. destruct (c =? 45); [apply digits_loop_range|]. destruct (c =? 43); apply digits_loop_range.
Qed.

Lemma processBulkItem_lex r s t : holds_rest cap r s -> top r t -> t_type t = REDIS_REPLY_STRING ->
  processBulkItem r = match lex (t_type t) s with Some (it, n) => apply_item it (advance n r) | None => Some (REDIS_ERR, r) end.
Proof.
  intros Hr Ht ->. destruct (holds_rest_left r s Hr) as (Hl & Hs & Hb). unfold processBulkItem. rewrite (bind_Some get _ r r r) by done.
  rewrite (bind_lift _ _ _ _ Hs), Hl, (bind_lift _ _ _ _ (seekNewline_spec s Hb)). rewrite lex_string. destruct (find_crlf s) as [n|] eqn:Hn; [|done].
  cbn [fmap option_fmap option_map mbind option_bind]. destruct (line_number s n Hn) as [v Hv]. rewrite (bind_lift _ _ _ _ Hv), Hv.
  destruct (find_crlf_bound _ _ Hn) as [Hn2 _]. pose proof (readLongLong_range _ _ Hv).
  cbn [mbind option_bind]. destruct (Z.ltb_spec v 0) as [Hneg|Hpos].
  - pose proof (create_then_leaf createNil r s (n + 2) Hr Hn2) as Hc. replace (Z.of_nat (n + 2)) with (u64 (Z.of_nat n + 2)) in Hc by (rewrite wrap_small; lia).
    cbn [apply_item]. rewrite <- Hc. unfold mbind, M_bind. by destruct (create createNil r) as [[[p|] r1]|].
  - destruct (bulk_fits r s n v) as [-> Hlen]; [done|done|lia|]. destruct (Z.leb_spec (Z.of_nat (n + 2) + v + 2) (Z.of_nat (length s))) as [Hf|Hf]; [|done].
    rewrite Hlen by done. cbn [apply_item].
    assert (bulk_bytes s (Z.of_nat n + 2) v = Some (take (Z.to_nat v) (drop (n + 2) s))) as ->.
    { unfold bulk_bytes, peek_n. rewrite !(proj2 (Z.leb_le _ _)) by lia. cbn [andb]. do 2 f_equal. f_equal. lia. }
    rewrite <- create_then_leaf with (s := s) by (done || lia). unfold mbind, M_bind, lift. by destruct (create _ r) as [[[p|] r1]|].
Qed.

Lemma create_heap f r obj r1 : create f r = Some (obj, r1) -> exists h, r1 = set_r_heap h r.
Proof.
  unfold create, current, view_of, task_at, mbind, M_bind, get, lift. intros Hc.
  repeat (case_match; try discriminate); simplify_eq; unfold mret, M_ret in *; simplify_eq; eauto.
  all: match goal with H : modify _ _ = _ |- _ => injection H as <- end; eauto.
Qed.

(** A finished root leaves an empty stack: the reply may be set before or after. *)
Lemma item_done_root (r : reader) obj k : r_idx r = k ->
  (moveToNextTask MAX_TASKS ;; (if k =? 0 then modify (set_r_reply obj) else skip) ;; mret REDIS_OK) r = (item_done obj ;; mret REDIS_OK) r.
Proof.
  intros <-. unfold item_done. unfold mbind at 1 3 4, M_bind, get. destruct (Z.eqb_spec (r_idx r) 0) as [Hz|Hz].
  - unfold MAX_TASKS. cbn [moveToNextTask]. unfold mbind, M_bind, get, modify. cbn. rewrite Hz. done.
  - unfold skip, mret, M_ret. unfold mbind, M_bind. by destruct (moveToNextTask MAX_TASKS r) as [[[] ?]|].
Qed.

Lemma processMultiBulkItem_lex r s t : holds_rest cap r s -> top r t -> t_type t = REDIS_REPLY_ARRAY ->
  processMultiBulkItem r =
    if r_idx r =? 8 then (redisReaderSetError REDIS_ERR_PROTOCOL ;; mret REDIS_ERR) r
    else match lex (t_type t) s with Some (it, n) => apply_item it (advance n r) | None => Some (REDIS_ERR, r) end.
Proof.
  intros Hr Ht ->. unfold processMultiBulkItem. rewrite (bind_Some get _ r r r) by done. destruct (r_idx r =? 8); [done|].
  pose proof (readLine_spec r s Hr) as Hline. rewrite lex_array. destruct (find_crlf s) as [n|] eqn:Hn; [|by rewrite (bind_Some _ _ _ _ _ Hline)].
  rewrite (bind_Some _ _ _ _ _ Hline). cbn [mbind option_bind]. destruct (line_number s n Hn) as [v Hv]. rewrite (bind_lift _ _ _ _ Hv), Hv.
  rewrite (bind_Some get _ _ _ _ eq_refl). cbn [mbind option_bind].
  destruct (Z.eqb_spec v (-1)) as [->|Hne]; cbn [apply_item].
  - destruct (create createNil (advance (n + 2) r)) as [[obj r1]|] eqn:Hc; [|by rewrite !(bind_None _ _ _ Hc)].
    rewrite !(bind_Some _ _ _ _ _ Hc). apply create_heap in Hc as [h ->].
    destruct obj as [p|]; [|done]. by apply item_done_root.
  - by rewrite (bind_Some get _ _ _ _ eq_refl).
Qed.

Lemma process_typed_lex r s t : holds_rest cap r s -> top r t ->
  t_type t ∈ [REDIS_REPLY_ERROR; REDIS_REPLY_STATUS; REDIS_REPLY_INTEGER; REDIS_REPLY_STRING; REDIS_REPLY_ARRAY] ->
  process_typed r =
    if (t_type t =? REDIS_REPLY_ARRAY) && (r_idx r =? 8) then (redisReaderSetError REDIS_ERR_PROTOCOL ;; mret REDIS_ERR) r
    else match lex (t_type t) s with Some (it, n) => apply_item it (advance n r) | None => Some (REDIS_ERR, r) end.
Proof.
  intros Hr Ht Hty. unfold process_typed. rewrite (bind_Some _ _ _ _ _ (current_top _ _ Ht)).
  pose proof (processLineItem_lex r s t Hr Ht) as Hline. pose proof (processBulkItem_lex r s t Hr Ht) as Hbulk.
  pose proof (processMultiBulkItem_lex r s t Hr Ht) as Hmulti. rewrite !elem_of_cons in Hty.
  destruct Hty as [Hty|[Hty|[Hty|[Hty|[Hty|[]%not_elem_of_nil]]]]]; rewrite Hty in *; cbn.
  1-3: apply Hline; rewrite !elem_of_cons; auto. all: auto.
Qed.
End tokens.
