(* ===== verification/RedisStream.v ===== *)
(** The reader of replies as a machine on a stream of bytes: its state without the
    buffer, and the bytes that are left.  The reader implements it, and it reads a
    stream the same however the stream is cut. *)
From Stdlib Require Import ZArith Lia.
From stdpp Require Import list.
From S2P Require Import Prelude StateMonad RedisReader RedisLex.

Section stream.
Context {H : Type} `{F : ReplyFunctions H}.
Abbreviation reader := (redisReader H).
Abbreviation m A := (M reader A).
Implicit Types r c : reader.

(** The state without the buffer. *)
Definition bare r : reader := set_r_buf None 0 0 r.

Definition fail_with (type : Z) c : option (Z * reader * list Z) := '(_, c) ← redisReaderSetError type c; Some (REDIS_ERR, c, []).

Definition next_typed (c : reader) (s : list Z) : option (Z * reader * list Z) :=
  '(t, _) ← current c;
  if bool_decide (t_type t ∈ [REDIS_REPLY_ERROR; REDIS_REPLY_STATUS; REDIS_REPLY_INTEGER; REDIS_REPLY_STRING; REDIS_REPLY_ARRAY]) then
    if (t_type t =? REDIS_REPLY_ARRAY) && (r_idx c =? 8) then fail_with REDIS_ERR_PROTOCOL c
    else
      match lex (t_type t) s with
      | Some (it, n) => '(rc, c) ← apply_item it c; Some (rc, c, drop n s)
      | None => Some (REDIS_ERR, c, s)
      end
  else None.

(** The next item of the stream: the result, and the state and the bytes behind it. *)
Definition next_item (c : reader) (s : list Z) : option (Z * reader * list Z) :=
  '(t, _) ← current c;
  if t_type t <? 0 then
    match s with
    | [] => Some (REDIS_ERR, c, s)
    | b :: s =>
      match type_of_byte b with
      | None => fail_with REDIS_ERR_PROTOCOL c
      | Some type => '(_, c) ← upd_task (r_idx c) (set_task_type type) c; next_typed c s
      end
    end
  else next_typed c s.

(** The items up to the end of a reply, to an error, or to the end of the bytes. *)
Inductive stream_runs : reader -> list Z -> reader -> list Z -> Prop :=
  | stream_end c s : r_idx c < 0 -> stream_runs c s c s
  | stream_stop c s rc c' s' : 0 <= r_idx c -> next_item c s = Some (rc, c', s') -> rc <> REDIS_OK -> stream_runs c s c' s'
  | stream_next c s c1 s1 c' s' : 0 <= r_idx c -> next_item c s = Some (REDIS_OK, c1, s1) -> stream_runs c1 s1 c' s' -> stream_runs c s c' s'.

(** ** The stream may be cut *)

Lemma current_inv c t c1 : current c = Some (t, c1) -> c1 = c /\ top c t.
Proof.
  unfold current, task_at, mbind, M_bind, get, lift, top. destruct (Z.leb_spec 0 (r_idx c)); [|done].
  destruct (r_stack c !! Z.to_nat (r_idx c)); [|done]. by intros [= -> ->].
Qed.

Lemma upd_task_inv i f c u c' : upd_task i f c = Some (u, c') ->
  exists t, 0 <= i /\ r_stack c !! Z.to_nat i = Some t /\ c' = set_r_stack (<[Z.to_nat i := f t]> (r_stack c)) c.
Proof.
  unfold upd_task, task_at, mbind, M_bind, get, lift, modify. destruct (Z.leb_spec 0 i); [|done].
  destruct (r_stack c !! Z.to_nat i) as [t|] eqn:Ht; [|done]. intros [= _ <-]. by exists t.
Qed.

Lemma type_of_byte_pos b ty : type_of_byte b = Some ty -> 0 < ty.
Proof. unfold type_of_byte. by repeat case_match; intros [= <-]. Qed.

(** An error empties the stack. *)
Lemma error_set type c u c' : redisReaderSetError type c = Some (u, c') -> r_err c' = type /\ r_idx c' = -1.
Proof.
  unfold redisReaderSetError, mbind, M_bind, get, modify, lift, skip, mret, M_ret.
  intros Hc. repeat (case_match; try discriminate); simplify_eq; done.
Qed.

Lemma fail_with_inv type c rc c' s' : fail_with type c = Some (rc, c', s') -> rc = REDIS_ERR /\ r_err c' = type /\ r_idx c' = -1.
Proof.
  unfold fail_with. destruct (redisReaderSetError _ c) as [[u c2]|] eqn:He; [|done]. intros [= <- <- <-]. by apply error_set in He.
Qed.

(** [f] leaves [err] alone. *)
Definition keeps_err {A} (f : m A) : Prop := forall r x r', f r = Some (x, r') -> r_err r' = r_err r.

Lemma keeps_err_bind {A B} (f : m A) (k : A -> m B) : keeps_err f -> (forall x, keeps_err (k x)) -> keeps_err (f ≫= k).
Proof.
  intros Hf Hk r x r'. unfold mbind, M_bind. destruct (f r) as [[y r1]|] eqn:Hy; [|done]. intros Hx.
  rewrite (Hk _ _ _ _ Hx). by apply Hf in Hy.
Qed.

Lemma keeps_err_get : keeps_err get.
Proof. by intros r x r' [= _ <-]. Qed.

Lemma keeps_err_ret {A} (x : A) : keeps_err (mret x).
Proof. by intros r y r' [= _ <-]. Qed.

Lemma keeps_err_lift {A} (o : option A) : keeps_err (lift o).
Proof. intros r y r'. unfold lift. destruct o; [|done]. by intros [= _ <-]. Qed.

Lemma keeps_err_modify (f : reader -> reader) : (forall r, r_err (f r) = r_err r) -> keeps_err (modify f).
Proof. by intros Hf r y r' [= _ <-]. Qed.

Ltac kerr1 :=
  lazymatch goal with
  | |- forall _, _ => intros
  | |- keeps_err (_ ≫= _) => apply keeps_err_bind
  | |- keeps_err get => apply keeps_err_get
  | |- keeps_err (mret _) => apply keeps_err_ret
  | |- keeps_err (lift _) => apply keeps_err_lift
  | |- keeps_err (modify _) => apply keeps_err_modify; by intros
  | |- keeps_err skip => apply keeps_err_ret
  | |- keeps_err (if ?b then _ else _) => destruct b
  | |- keeps_err (match ?x with _ => _ end) => destruct x
  | |- keeps_err (task_at _) => unfold task_at
  | |- keeps_err (upd_task _ _) => unfold upd_task
  | |- keeps_err current => unfold current
  | |- keeps_err (view_of _) => unfold view_of
  end.
Ltac kerr := repeat kerr1; auto.

Lemma moveToNextTask_err k : keeps_err (moveToNextTask (H := H) k).
Proof. induction k; cbn [moveToNextTask]; kerr. Qed.

Lemma create_err f : keeps_err (create (H := H) f).
Proof. unfold create. kerr. Qed.

Lemma push_task_err n obj : keeps_err (push_task (H := H) n obj).
Proof. unfold push_task. kerr. Qed.

Lemma apply_item_rc it c rc c' : apply_item it c = Some (rc, c') ->
  (rc = REDIS_OK /\ r_err c' = r_err c) \/ (rc = REDIS_ERR /\ r_err c' = REDIS_ERR_OOM /\ r_idx c' = -1).
Proof.
  assert (Hoom : forall r, (redisReaderSetErrorOOM ;; mret REDIS_ERR) r = Some (rc, c') -> rc = REDIS_ERR /\ r_err c' = REDIS_ERR_OOM /\ r_idx c' = -1).
  { intros r. unfold mbind, M_bind, redisReaderSetErrorOOM. destruct (redisReaderSetError _ r) as [[u r1]|] eqn:He; [|done]. intros [= <- <-]. by apply error_set in He. }
  assert (Hok : forall (f : m unit) r, keeps_err f -> (f ;; mret REDIS_OK) r = Some (rc, c') -> r_err r = r_err c -> rc = REDIS_OK /\ r_err c' = r_err c).
  { intros f r Hf. unfold mbind, M_bind. destruct (f r) as [[u r1]|] eqn:Hr; [|done]. intros [= <- <-] <-. by apply Hf in Hr. }
  assert (Hleaf : forall g, (create g ≫= leaf) c = Some (rc, c') ->
    (rc = REDIS_OK /\ r_err c' = r_err c) \/ (rc = REDIS_ERR /\ r_err c' = REDIS_ERR_OOM /\ r_idx c' = -1)).
  { intros g. destruct (create g c) as [[obj r1]|] eqn:Hg; [|by rewrite (bind_None _ _ _ Hg)]. rewrite (bind_Some _ _ _ _ _ Hg).
    apply create_err in Hg. destruct obj as [p|]; cbn [leaf]; [|right; eauto]. intros Hx. left. eapply Hok; [|exact Hx|done].
    unfold item_done. kerr. apply moveToNextTask_err. }
  destruct it as [bs|n| |n]; cbn [apply_item]; [apply Hleaf..|]. rewrite (bind_Some get _ _ _ _ eq_refl).
  destruct (create (fun t => createArray t (s32 n)) c) as [[obj r1]|] eqn:Hg; [|by rewrite (bind_None _ _ _ Hg)]. rewrite (bind_Some _ _ _ _ _ Hg).
  apply create_err in Hg. destruct obj as [p|]; [|right; eauto].
  destruct ((if 0 <? n then push_task n (Some p) else moveToNextTask MAX_TASKS : m unit) r1) as [[u r2]|] eqn:Hm; [|by rewrite (bind_None _ _ _ Hm)].
  rewrite (bind_Some _ _ _ _ _ Hm). intros Hx. left. assert (r_err r2 = r_err r1) as Hr2 by (destruct (0 <? n); [by apply push_task_err in Hm|by apply moveToNextTask_err in Hm]).
  eapply Hok; [|exact Hx|congruence]. kerr.
Qed.

(** An item has been read, there is an error, or the reader waits: in the first two
    cases the bytes behind do not matter. *)
Inductive item_cases (o : list Z -> option (Z * reader * list Z)) (wait : reader -> list Z -> Prop) (s : list Z) : Z -> reader -> list Z -> Prop :=
  | item_read c' s' : r_err c' = 0 -> (exists n, (n <= length s)%nat /\ (0 < n)%nat /\ s' = drop n s) -> (forall e, o (s ++ e) = Some (REDIS_OK, c', s' ++ e)) -> item_cases o wait s REDIS_OK c' s'
  | item_error c' s' : r_err c' <> 0 -> r_err c' = REDIS_ERR_PROTOCOL \/ r_err c' = REDIS_ERR_OOM -> r_idx c' < 0 -> (forall e, exists s'', o (s ++ e) = Some (REDIS_ERR, c', s'')) -> item_cases o wait s REDIS_ERR c' s'
  | item_waits c' s' : wait c' s' -> item_cases o wait s REDIS_ERR c' s'.

Lemma fail_with_cases (o : list Z -> option (Z * reader * list Z)) wait type c s : type = REDIS_ERR_PROTOCOL -> (forall e, o (s ++ e) = fail_with type c) ->
  forall rc c' s', fail_with type c = Some (rc, c', s') -> item_cases o wait s rc c' s'.
Proof.
  intros -> Ho rc c' s' Hf. destruct (fail_with_inv _ _ _ _ _ Hf) as (-> & He & Hi). apply item_error; [by rewrite He|by left|lia|].
  intros e. exists s'. by rewrite Ho.
Qed.

Lemma next_typed_cases c s rc c' s' : r_err c = 0 -> next_typed c s = Some (rc, c', s') ->
  item_cases (next_typed c) (fun c1 s1 => c1 = c /\ s1 = s) s rc c' s'.
Proof.
  intros He. unfold next_typed. destruct (current c) as [[t c1]|] eqn:Hc; [|done]. cbn [mbind option_bind]. case_bool_decide; [|done].
  destruct (_ && _); [by apply fail_with_cases|].
  destruct (lex (t_type t) s) as [[it n]|] eqn:Hl; [|intros [= <- <- <-]; by apply item_waits].
  destruct (apply_item it c) as [[rc1 c2]|] eqn:Ha; [|done]. intros [= <- <- <-]. pose proof (lex_bound _ _ _ _ Hl).
  destruct (apply_item_rc _ _ _ _ Ha) as [[-> Hr]|(-> & Hr & Hi)].
  - apply item_read; [congruence|exists n; split_and!; [lia|lia|done]|]. intros e. rewrite (lex_app _ _ _ _ Hl), Ha. cbn. by rewrite drop_app_le by lia.
  - apply item_error; [by rewrite Hr|by right|lia|]. intros e. rewrite (lex_app _ _ _ _ Hl), Ha. cbn. by eexists.
Qed.

Lemma next_typed_head c s e x : next_typed c (s ++ e) = Some x -> exists rc c' s', next_typed c s = Some (rc, c', s').
Proof.
  unfold next_typed. destruct (current c) as [[t c1]|] eqn:Hc; [|done]. cbn [mbind option_bind]. case_bool_decide; [|done].
  destruct (_ && _); [destruct x as [[]]; by eauto|]. destruct (lex (t_type t) s) as [[it n]|] eqn:Hl; [|by eauto].
  rewrite (lex_app _ _ _ _ Hl). destruct (apply_item it c) as [[rc1 c2]|]; [|done]. cbn. by eauto.
Qed.

(** The reader waits: it goes on as if it had not been asked before. *)
Definition waits c s c1 (s1 : list Z) : Prop :=
  r_err c1 = r_err c /\ r_idx c1 = r_idx c /\ forall e, next_item c1 (s1 ++ e) = next_item c (s ++ e).

Lemma next_item_cases c s rc c' s' : r_err c = 0 -> next_item c s = Some (rc, c', s') -> item_cases (next_item c) (waits c s) s rc c' s'.
Proof.
  intros He. unfold next_item at 1. destruct (current c) as [[t c1]|] eqn:Hc; [|done]. cbn [mbind option_bind].
  destruct (t_type t <? 0) eqn:Hneg.
  - assert (Ho : forall b s e, next_item c ((b :: s) ++ e) = match type_of_byte b with None => fail_with REDIS_ERR_PROTOCOL c | Some type => '(_, c) ← upd_task (r_idx c) (set_task_type type) c; next_typed c (s ++ e) end).
    { intros b s0 e. unfold next_item. rewrite Hc. cbn [mbind option_bind]. by rewrite Hneg. }
    destruct s as [|b s]; [intros [= <- <- <-]; by apply item_waits|]. destruct (type_of_byte b) as [ty|] eqn:Hb; [|apply fail_with_cases; [done|]; intros e; by rewrite Ho, Hb].
    destruct (upd_task (r_idx c) _ c) as [[u c2]|] eqn:Hu; [|done]. cbn [mbind option_bind]. intros Hn.
    assert (Ho2 : forall e, next_item c ((b :: s) ++ e) = next_typed c2 (s ++ e)) by (intros e; by rewrite Ho, Hb, Hu).
    apply upd_task_inv in Hu as (t2 & Hi & Ht2 & ->). set (c2 := set_r_stack (<[_ := _]> _) c) in *.
    assert (Hc2 : current c2 = Some (set_task_type ty t2, c2)).
    { apply current_top. split; [done|]. cbn. apply list_lookup_insert_eq. by apply lookup_lt_Some in Ht2. }
    apply next_typed_cases in Hn; [|done]. destruct Hn as [c' s' He' (n & Hn & Hn0 & ->) Ho'|c' s' He' Hk' Hi' Ho'|c' s' [-> ->]]; [apply item_read|apply item_error|apply item_waits]; try done.
    + exists (S n). cbn. split_and!; [lia|lia|done].
    + intros e. by rewrite Ho2.
    + intros e. destruct (Ho' e) as [s'' Hs'']. exists s''. by rewrite Ho2.
    + split_and!; [done..|]. intros e. rewrite Ho2. unfold next_item. rewrite Hc2. cbn [mbind option_bind set_task_type t_type].
      apply type_of_byte_pos in Hb. by rewrite (proj2 (Z.ltb_ge _ _)) by lia.
  - assert (Ho : forall s, next_item c s = next_typed c s) by (intros s0; unfold next_item; rewrite Hc; cbn; by rewrite Hneg).
    intros Hn%next_typed_cases; [|done]. destruct Hn as [c' s' He' Hs' Ho'|c' s' He' Hk' Hi' Ho'|c' s' [-> ->]]; [apply item_read|apply item_error|apply item_waits]; try done.
    + intros e. by rewrite Ho.
    + intros e. rewrite Ho. apply Ho'.
Qed.

Lemma next_item_ok c s c' s' : r_err c = 0 -> next_item c s = Some (REDIS_OK, c', s') -> r_err c' = 0 /\ (length s' < length s)%nat.
Proof.
  intros He Hn. remember REDIS_OK as rc eqn:Hrc. destruct (next_item_cases _ _ _ _ _ He Hn) as [c' s' He' (n & Hl & Hn0 & ->) _|c' s' _ _ _ _|c' s' _]; [|done..].
  rewrite length_drop. split; [done|lia].
Qed.

Lemma next_item_head c s e x : next_item c (s ++ e) = Some x -> exists rc c' s', next_item c s = Some (rc, c', s').
Proof.
  unfold next_item. destruct (current c) as [[t c1]|] eqn:Hc; [|done]. cbn [mbind option_bind].
  destruct (t_type t <? 0); [|apply next_typed_head]. destruct s as [|b s]; [by eauto|]. cbn [app].
  destruct (type_of_byte b) as [ty|]; [|destruct x as [[]]; by eauto]. destruct (upd_task (r_idx c) _ c) as [[u c2]|]; [|done]. apply next_typed_head.
Qed.

(** A run on a stream is a run on its head, which is over, or is waiting and goes on
    when the rest is there. *)
Lemma stream_runs_app c s e c' s' : r_err c = 0 -> stream_runs c (s ++ e) c' s' ->
  (exists s'', stream_runs c s c' s'' /\ r_idx c' < 0 /\ (r_err c' = 0 -> s' = s'' ++ e)) \/
  (exists c1 s1, stream_runs c s c1 s1 /\ r_err c1 = 0 /\ 0 <= r_idx c1 /\ stream_runs c1 (s1 ++ e) c' s').
Proof.
  intros He Hrun. remember (s ++ e) as se eqn:Hse. revert s He Hse.
  induction Hrun as [c se Hi|c se rc c' s' Hi Hn Hrc|c se c1 s1 c' s' Hi Hn Hrun IH]; intros s He ->.
  - left. exists s. split_and!; [by constructor|done|done].
  - destruct (next_item_head _ _ _ _ Hn) as (rc1 & c1 & s1 & Hs).
    destruct (next_item_cases _ _ _ _ _ He Hs) as [c1 s1 He1 _ Ho|c1 s1 He1 Hk1 Hi1 Ho|c1 s1 (He1 & Hi1 & Ho)].
    + rewrite Ho in Hn. congruence.
    + destruct (Ho e) as [s'' Hs'']. rewrite Hs'' in Hn. simplify_eq. left. exists s1. split_and!; [by eapply stream_stop|done|done].
    + right. exists c1, s1. split_and!; [by eapply stream_stop|congruence|lia|]. eapply stream_stop; [lia| |exact Hrc]. by rewrite Ho.
  - destruct (next_item_head _ _ _ _ Hn) as (rc2 & c2 & s2 & Hs).
    destruct (next_item_cases _ _ _ _ _ He Hs) as [c2 s2 He2 _ Ho|c2 s2 He2 Hk2 Hi2 Ho|c2 s2 (He2 & Hi2 & Ho)].
    + rewrite Ho in Hn. simplify_eq. destruct (IH s2 He2 eq_refl) as [(s'' & ? & ? & ?)|(c3 & s3 & ? & ? & ? & ?)].
      * left. exists s''. split_and!; [by eapply stream_next|done|done].
      * right. exists c3, s3. split_and!; [by eapply stream_next|done..].
    + destruct (Ho e) as [s'' Hs'']. by rewrite Hs'' in Hn.
    + right. exists c2, s2. split_and!; [by eapply stream_stop|congruence|lia|]. eapply stream_next; [lia| |exact Hrun]. by rewrite Ho.
Qed.

Lemma stream_runs_error c s c' s' : stream_runs c s c' s' -> r_err c = 0 -> r_err c' = 0 \/ r_err c' = REDIS_ERR_PROTOCOL \/ r_err c' = REDIS_ERR_OOM.
Proof.
  induction 1 as [c s Hi|c s rc c' s' Hi Hn Hrc|c s c1 s1 c' s' Hi Hn Hrun IH]; intros He; [by left| |].
  - destruct (next_item_cases _ _ _ _ _ He Hn) as [c' s' ? _ _|c' s' _ ? _ _|c' s' (-> & _)]; auto.
  - apply IH. by eapply next_item_ok.
Qed.

(** ** The reader implements the machine *)

Context {cap : Z}.

Definition implements r c s : Prop := c = bare r /\ (r_err r = 0 -> holds_rest cap r s).

Definition same_buffer r r' : Prop := r_buf r' = r_buf r /\ r_pos r' = r_pos r /\ r_len r' = r_len r.

(** What runs on the bare state runs on the reader, to the same state and with the
    same buffer, unless there is an error. *)
Definition lifts {A} (f : m A) : Prop :=
  forall r x c', f (bare r) = Some (x, c') -> exists r', f r = Some (x, r') /\ c' = bare r' /\ (r_err r' = 0 -> same_buffer r r').

Lemma buffer_free_lifts {A} (f : m A) : buffer_free f -> lifts f.
Proof.
  intros Hf r x c' Hx. unfold bare in Hx. rewrite Hf in Hx. destruct (f r) as [[y r']|] eqn:Hr; [|done]. simplify_eq.
  exists r'. split_and!; [done|done|]. intros _. rewrite (free_keeps _ _ _ _ Hf Hr). done.
Qed.

Lemma error_lifts type : type <> 0 -> lifts (redisReaderSetError type ;; mret REDIS_ERR).
Proof.
  intros Hty r x c' Hx. enough (exists r', (redisReaderSetError type ;; mret REDIS_ERR) r = Some (x, r') /\ c' = bare r') as (r' & Hr & ->).
  { exists r'. split_and!; [done|done|]. intros He. destruct (redisReaderSetError type r) as [[u r1]|] eqn:Hs; [|by rewrite (bind_None _ _ _ Hs) in Hr].
    rewrite (bind_Some _ _ _ _ _ Hs) in Hr. apply error_set in Hs as [Hs _]. unfold mret, M_ret in Hr. congruence. }
  unfold redisReaderSetError, mbind, M_bind, get, modify, lift, skip, mret, M_ret in *. cbn in *.
  destruct (r_reply r) as [p|]; cbn in *; [destruct (freeObject p (r_heap r)) as [h|]; [|done]|]; cbn in *; destruct (r_buf r);
    simplify_eq; eexists; (split; [reflexivity|done]).
Qed.

Lemma apply_item_lifts it : lifts (apply_item it).
Proof.
  assert (Hleaf : forall f, lifts (create f ≫= leaf)).
  { intros f r x c'. destruct (create f (bare r)) as [[obj c1]|] eqn:Hc; [|by rewrite (bind_None _ _ _ Hc)]. rewrite (bind_Some _ _ _ _ _ Hc).
    destruct (buffer_free_lifts _ (create_free f) _ _ _ Hc) as (r1 & Hr1 & -> & _). rewrite (bind_Some _ _ _ _ _ Hr1).
    pose proof (free_keeps _ _ _ _ (create_free f) Hr1) as Hk. intros Hl.
    assert (Hll : lifts (leaf (H := H) obj)).
    { destruct obj as [p|]; cbn [leaf]; [|by apply error_lifts]. apply buffer_free_lifts, buffer_free_bind; [apply item_done_free|]. intros. apply buffer_free_ret. }
    destruct (Hll _ _ _ Hl) as (r' & Hr' & -> & Hb). exists r'. split_and!; [done|done|]. intros He. specialize (Hb He).
    rewrite Hk in Hb. exact Hb. }
  destruct it as [bs|n| |n]; cbn [apply_item]; [apply Hleaf..|]. intros r x c'. rewrite !(bind_Some get _ _ _ _ eq_refl). cbn [r_idx bare set_r_buf].
  destruct (create (fun t => createArray t (s32 n)) (bare r)) as [[obj c1]|] eqn:Hc; [|by rewrite (bind_None _ _ _ Hc)]. rewrite (bind_Some _ _ _ _ _ Hc).
  destruct (buffer_free_lifts _ (create_free _) _ _ _ Hc) as (r1 & Hr1 & -> & _). rewrite (bind_Some _ _ _ _ _ Hr1).
  pose proof (free_keeps _ _ _ _ (create_free _) Hr1) as Hk. intros Hl.
  match goal with Hl : ?f (bare r1) = _ |- _ => assert (Hll : lifts f) end.
  { destruct obj as [p|]; [|by apply error_lifts]. apply buffer_free_lifts. repeat (apply buffer_free_bind; [|intros]).
    - destruct (0 <? n); [apply push_task_free|apply moveToNextTask_free].
    - destruct (r_idx r =? 0); [by apply buffer_free_modify|apply buffer_free_ret].
    - apply buffer_free_ret. }
  destruct (Hll _ _ _ Hl) as (r' & Hr' & -> & Hb). exists r'. split_and!; [done|done|]. intros He. specialize (Hb He).
  rewrite Hk in Hb. exact Hb.
Qed.

Lemma implements_buffer r r' s : holds_rest cap r s -> r_err r' = 0 -> same_buffer r r' -> holds_rest cap r' s.
Proof. intros (_ & b & Hb & Hp & Hl & Hm & Hs) He (Hb' & Hp' & Hl'). split; [done|]. exists b. by rewrite Hb', Hp', Hl'. Qed.

Lemma fail_with_lifts type r rc c' s' : type <> 0 -> fail_with type (bare r) = Some (rc, c', s') ->
  exists r', (redisReaderSetError type ;; mret REDIS_ERR) r = Some (rc, r') /\ implements r' c' s'.
Proof.
  intros Hty Hf. destruct (fail_with_inv _ _ _ _ _ Hf) as (-> & He & _). unfold fail_with in Hf.
  destruct (redisReaderSetError type (bare r)) as [[u c1]|] eqn:Hs; [|done]. cbn in Hf. injection Hf as -> <-.
  destruct (error_lifts type Hty r REDIS_ERR c') as (r' & Hr' & -> & _); [by rewrite (bind_Some _ _ _ _ _ Hs)|].
  exists r'. split; [done|]. split; [done|]. intros He'. change (r_err r' = type) in He. congruence.
Qed.

Lemma process_typed_stream r s rc c' s' : holds_rest cap r s -> next_typed (bare r) s = Some (rc, c', s') ->
  exists r', process_typed r = Some (rc, r') /\ implements r' c' s'.
Proof.
  intros Hr. unfold next_typed. destruct (current (bare r)) as [[t c1]|] eqn:Hc; [|done]. apply current_inv in Hc as [_ Ht].
  cbn [mbind option_bind]. case_bool_decide as Hty; [|done]. rewrite (process_typed_lex r s t Hr Ht Hty). cbn [r_idx bare set_r_buf].
  destruct (_ && _); [by apply fail_with_lifts|]. destruct (lex (t_type t) s) as [[it n]|] eqn:Hl; [|intros [= <- <- <-]; by exists r].
  apply lex_bound in Hl. change (bare r) with (bare (advance n r)). destruct (apply_item it _) as [[rc1 c2]|] eqn:Ha; [|done]. intros [= <- <- <-].
  destruct (apply_item_lifts it _ _ _ Ha) as (r' & Hr' & -> & Hb). exists r'. split; [done|]. split; [done|]. intros He.
  eapply implements_buffer; [by apply holds_rest_advance; [exact Hr|lia]|done|auto].
Qed.

Lemma processItem_stream r s rc c' s' : holds_rest cap r s -> next_item (bare r) s = Some (rc, c', s') ->
  exists r', processItem r = Some (rc, r') /\ implements r' c' s'.
Proof.
  intros Hr. unfold next_item. destruct (current (bare r)) as [[t c1]|] eqn:Hc; [|done]. apply current_inv in Hc as [_ Ht].
  cbn [mbind option_bind]. unfold processItem. assert (Ht' : top r t) by exact Ht. rewrite (bind_Some _ _ _ _ _ (current_top r t Ht')).
  destruct (t_type t <? 0); [|by apply process_typed_stream]. destruct (holds_rest_left r s Hr) as (Hleft & _ & _).
  assert (Hread : readBytes 1 r = match s with [] => Some (None, r) | _ :: _ => Some (Some (r_pos r), advance 1 r) end).
  { unfold readBytes, mbind, M_bind, get. rewrite Hleft. destruct s as [|b s]; [done|]. rewrite (proj2 (Z.leb_le _ _)) by (cbn; lia).
    rewrite (u64_pos r (b :: s)) by (done || (cbn; lia)). done. }
  destruct s as [|b s]; rewrite (bind_Some _ _ _ _ _ Hread); [intros [= <- <- <-]; by exists r|]. rewrite (bind_Some get _ _ _ _ eq_refl).
  assert (Hpeek : (b ← r_buf (advance 1 r); peek b (r_pos r)) = Some b).
  { destruct Hr as (_ & bs & Hb & Hp & _ & _ & Hs). cbn. rewrite Hb. cbn. unfold peek. rewrite (proj2 (Z.leb_le _ _)) by lia.
    rewrite <- (Nat.add_0_r (Z.to_nat (r_pos r))), <- lookup_drop, <- Hs. done. }
  rewrite (bind_lift _ _ _ _ Hpeek). pose proof (holds_rest_advance r (b :: s) 1 Hr ltac:(cbn; lia)) as Hadv. cbn [drop] in Hadv.
  destruct (type_of_byte b) as [ty|].
  - cbn [r_idx bare set_r_buf]. destruct (upd_task (r_idx r) _ (bare r)) as [[u c2]|] eqn:Hu; [|done]. cbn [mbind option_bind].
    destruct (buffer_free_lifts _ (upd_task_free _ _) (advance 1 r) _ _ Hu) as (r2 & Hr2 & -> & Hb). rewrite (bind_Some _ _ _ _ _ Hr2).
    intros Hn. apply upd_task_inv in Hr2 as (t2 & _ & _ & ->). eapply process_typed_stream; [|exact Hn]. pose proof (proj1 Hadv). eapply implements_buffer; [exact Hadv|done|by apply Hb].
  - intros Hf. change (bare r) with (bare (advance 1 r)) in Hf. by apply fail_with_lifts in Hf.
Qed.

(** The loop of [redisReaderGetReply] ends: every item takes bytes. *)
Lemma process_items_stream c s c' s' : stream_runs c s c' s' -> forall fuel r, (length s < fuel)%nat -> r_err r = 0 -> implements r c s ->
  exists r', process_items fuel r = Some (tt, r') /\ implements r' c' s'.
Proof.
  induction 1 as [c s Hi|c s rc c' s' Hi Hn Hrc|c s c1 s1 c' s' Hi Hn Hrun IH]; intros fuel r Hf He [-> Hr];
    (destruct fuel as [|fuel]; [lia|]); cbn [process_items]; rewrite (bind_Some get _ _ _ _ eq_refl); cbn [bare set_r_buf r_idx] in Hi.
  - rewrite (proj2 (Z.leb_gt _ _)) by done. exists r. split; [done|]. by split.
  - rewrite (proj2 (Z.leb_le _ _)) by done. destruct (processItem_stream _ _ _ _ _ (Hr He) Hn) as (r1 & Hr1 & Himp).
    rewrite (bind_Some _ _ _ _ _ Hr1), (proj2 (Z.eqb_neq _ _)) by done. by exists r1.
  - rewrite (proj2 (Z.leb_le _ _)) by done. destruct (processItem_stream _ _ _ _ _ (Hr He) Hn) as (r1 & Hr1 & Himp).
    rewrite (bind_Some _ _ _ _ _ Hr1), Z.eqb_refl.
    destruct (next_item_ok (bare r) _ _ _ He Hn) as [He1 Hlen]. apply IH; [lia| |done]. by destruct Himp as [-> _].
Qed.

(** ** Replies *)

(** The reader between two calls, with its first task set up. *)
Definition ready r c s : Prop := holds_rest cap r s /\ first_task (bare r) = Some (tt, c).

Lemma first_task_free : buffer_free (first_task (H := H)).
Proof. unfold first_task. apply buffer_free_get; [by intros|]. intros r. destruct (_ =? _); [|apply buffer_free_ret]. apply buffer_free_bind; [apply upd_task_free|by intros; apply buffer_free_modify]. Qed.

Lemma first_task_err : keeps_err (first_task (H := H)).
Proof. unfold first_task. kerr. Qed.

Lemma first_task_idx c u c1 : first_task c = Some (u, c1) -> r_idx c1 <> -1.
Proof.
  unfold first_task, mbind, M_bind, get. destruct (Z.eqb_spec (r_idx c) (-1)); [|by intros [= _ <-]].
  destruct (upd_task 0 _ c) as [[v c2]|]; [|done]. by intros [= _ <-].
Qed.

Lemma first_task_again c u c1 : first_task c = Some (u, c1) -> first_task c1 = Some (tt, c1).
Proof. intros Hi%first_task_idx. unfold first_task, mbind, M_bind, get. by rewrite (proj2 (Z.eqb_neq _ _)). Qed.

(** What has been consumed is dropped, which is not seen. *)
Lemma discard_spec r s : holds_rest cap r s -> exists r', discard r = Some (tt, r') /\ bare r' = bare r /\ holds_rest cap r' s .
Proof.
  intros Hr. pose proof Hr as (He & b & Hb & Hp & Hl & Hm & ->). unfold discard, mbind, M_bind, get. destruct (Z.leb_spec 1024 (r_pos r)); [|by exists r].
  unfold lift, modify. rewrite Hb. eexists. split; [reflexivity|]. cbn. split; [done|]. 
  split; [done|]. eexists. cbn. split; [reflexivity|]. rewrite length_drop. split_and!; [lia|lia|done|lia|lia|by rewrite drop_0].
Qed.

(** What a call gives, by the state the machine is left in. *)
Definition reply_of c : Z * option Z := if negb (r_err c =? 0) then (REDIS_ERR, None) else (REDIS_OK, if r_idx c =? -1 then r_reply c else None).

Lemma implements_done r c s : implements r c s -> r_err c = r_err r /\ r_idx c = r_idx r /\ r_reply c = r_reply r.
Proof. by intros [-> _]. Qed.

Lemma redisReaderGetReply_stream r c s c' s' : ready r c s -> r_len r <> 0 -> stream_runs c s c' s' ->
  exists r', redisReaderGetReply r = Some (reply_of c', r') /\ r_err r' = r_err c' /\
    (r_err c' = 0 -> holds_rest cap r' s' /\ bare r' = (if r_idx c' =? -1 then set_r_reply None c' else c')).
Proof.
  intros [Hr Hc] Hlen Hrun. pose proof (proj1 Hr) as He. unfold redisReaderGetReply. rewrite (bind_Some get _ _ _ _ eq_refl), He, Z.eqb_refl. cbn [negb].
  rewrite (proj2 (Z.eqb_neq _ _)) by done. destruct (buffer_free_lifts _ first_task_free _ _ _ Hc) as (r1 & Hr1 & -> & Hb).
  pose proof (first_task_err _ _ _ Hr1) as He1. rewrite He in He1. rewrite (bind_Some _ _ _ _ _ Hr1).
  pose proof (implements_buffer _ _ _ Hr He1 (Hb He1)) as Hrest. destruct (holds_rest_left _ _ Hrest) as (Hl & _ & _).
  destruct (process_items_stream _ _ _ _ Hrun (S (Z.to_nat (bytes_left r1))) r1) as (r2 & Hr2 & Himp); [lia|done|by split|].
  assert (Hall : process_all r1 = Some (tt, r2)) by (unfold process_all; by rewrite (bind_Some get _ _ _ _ eq_refl)).
  rewrite (bind_Some _ _ _ _ _ Hall), (bind_Some get _ _ _ _ eq_refl). destruct Himp as [-> Hr2']. unfold reply_of. cbn [r_err r_idx r_reply bare set_r_buf].
  destruct (Z.eqb_spec (r_err r2) 0) as [He2|He2]; cbn [negb]; [|by exists r2].
  destruct (discard_spec r2 s' (Hr2' He2)) as (r3 & Hr3 & Hb3 & Hrest3). rewrite (bind_Some _ _ _ _ _ Hr3), (bind_Some get _ _ _ _ eq_refl).
  assert (r_idx r3 = r_idx r2 /\ r_reply r3 = r_reply r2 /\ r_err r3 = r_err r2) as (-> & -> & He3)
    by (split; [by apply (f_equal r_idx) in Hb3|split; [by apply (f_equal r_reply) in Hb3|by apply (f_equal r_err) in Hb3]]).
  destruct (r_idx r2 =? -1); eexists; (split; [reflexivity|]); (split; [exact He3|]); intros _; [|done].
  split; [exact Hrest3|]. change (bare (set_r_reply None r3)) with (set_r_reply None (bare r3)). by rewrite Hb3.
Qed.

(** Without bytes there is no reply. *)
Lemma redisReaderGetReply_empty r c : ready r c [] -> (exists t, top c t /\ t_type t < 0) ->
  exists r', redisReaderGetReply r = Some ((REDIS_OK, None), r') /\ ready r' c [].
Proof.
  intros Hr (t & Ht & Hneg). destruct (decide (r_len r = 0)) as [Hz|Hz].
  - exists r. split; [|done]. pose proof (proj1 (proj1 Hr)) as He. unfold redisReaderGetReply. by rewrite (bind_Some get _ _ _ _ eq_refl), He, Hz.
  - pose proof Hr as [Hrest Hc]. assert (He : r_err c = 0) by (rewrite (first_task_err _ _ _ Hc); apply Hrest).
    assert (Hidx : r_idx c <> -1) by by apply first_task_idx in Hc.
    destruct (redisReaderGetReply_stream r c [] c []) as (r' & Hr' & _ & Hb); [done|done| |].
    { eapply stream_stop with (rc := REDIS_ERR); [apply Ht| |done]. unfold next_item. rewrite (current_top _ _ Ht). cbn. by rewrite (proj2 (Z.ltb_lt _ _)). }
    exists r'. unfold reply_of in Hr'. rewrite He, Z.eqb_refl, (proj2 (Z.eqb_neq _ _)) in Hr' by done. split; [exact Hr'|].
    destruct (Hb He) as [Hrest' Hbare]. rewrite (proj2 (Z.eqb_neq _ _)) in Hbare by done. split; [done|]. rewrite Hbare. by eapply first_task_again.
Qed.
End stream.

Section feed.
Context {H : Type} `{F : ReplyFunctions H}.

Lemma redisReaderFeed_ready cap (r c : redisReader H) s avail l : ready (cap := cap) r c s -> l <> [] -> cap + Z.of_nat (length l) < 2 ^ 31 ->
  exists r', redisReaderFeed true avail (Some l) r = Some (REDIS_OK, r') /\ ready (cap := cap + Z.of_nat (length l)) r' c (s ++ l) /\ r_len r' <> 0.
Proof.
  intros [(He & b & Hb & Hp & Hl & Hm & ->) Hc] Hne Hcap. destruct l as [|x l]; [done|]. clear Hne. unfold redisReaderFeed.
  rewrite (bind_Some get _ _ _ _ eq_refl), He, Z.eqb_refl. cbn [negb].
  match goal with |- exists r', (?f ≫= _) r = _ /\ _ =>
    assert (exists r1 b1, f r = Some (tt, r1) /\ bare r1 = bare r /\ r_buf r1 = Some b1 /\ 0 <= r_pos r1 <= Z.of_nat (length b1) /\
      drop (Z.to_nat (r_pos r1)) b1 = drop (Z.to_nat (r_pos r)) b /\ Z.of_nat (length b1) <= cap) as (r1 & b1 & Hr1 & Hbare & Hb1 & Hp1 & Hd & Hcap1) end.
  { destruct (Z.eqb_spec (r_len r) 0) as [Hz|Hz]; cbn [andb]; [|exists r, b; split_and!; (done || lia)].
    assert (b = []) as -> by (apply nil_length_inv; lia).
    destruct (negb _ && _); [|exists r, []; split_and!; (done || lia)]. exists (set_r_buf (Some []) 0 (r_len r) r), [].
    split_and!; try done; cbn; try lia. by rewrite !drop_nil. }
  rewrite (bind_Some _ _ _ _ _ Hr1), (bind_Some get _ _ _ _ eq_refl), (bind_lift _ _ _ _ Hb1). eexists. split; [reflexivity|].
  rewrite <- Hd. split; [|cbn [r_len set_r_buf]; rewrite length_app; cbn; lia]. split.
  - split; [apply (f_equal r_err) in Hbare; cbn in *; congruence|]. eexists. split; [reflexivity|]. cbn [r_pos r_len set_r_buf].
    rewrite length_app in *. split_and!; try lia. by rewrite drop_app_le by lia.
  - change (bare (set_r_buf _ _ _ r1)) with (bare r1). by rewrite Hbare.
Qed.
End feed.
