(* ===== verification/RedisReply.v ===== *)
(** Replies of the redis protocol: their encoding, the objects that are to be made of
    them, and that the reader makes them; streams of replies, of which bytes come in
    chunks and the replies that are complete are taken from the reader after each. *)
From Stdlib Require Import ZArith Lia.
From stdpp Require Import list.
From S2P Require Import Prelude StateMonad Decimal RedisReader RedisLex RedisStream.

(** * Values *)

#[warnings="-register-all"]
Inductive value : Type :=
  | VStatus (s : list Z)
  | VError (s : list Z)
  | VInteger (n : Z)
  | VString (s : list Z)
  | VNil
  | VNilArray
  | VArray (vs : list value).

Section value_ind.
Variable P : value -> Prop.
Hypotheses (Hstatus : forall s, P (VStatus s)) (Herror : forall s, P (VError s)) (Hinteger : forall n, P (VInteger n))
  (Hstring : forall s, P (VString s)) (Hnil : P VNil) (Hnila : P VNilArray) (Harray : forall vs, Forall P vs -> P (VArray vs)).

Fixpoint value_rec' (v : value) : P v :=
  match v with
  | VStatus s => Hstatus s | VError s => Herror s | VInteger n => Hinteger n | VString s => Hstring s | VNil => Hnil | VNilArray => Hnila
  | VArray vs => Harray vs ((fix go vs : Forall P vs := match vs with [] => List.Forall_nil _ | v :: vs => List.Forall_cons _ _ _ (value_rec' v) (go vs) end) vs)
  end.
End value_ind.

(** ** The protocol *)

Definition crlf : list Z := [CR; LF].

Fixpoint encode (v : value) : list Z :=
  match v with
  | VStatus s => 43 :: s ++ crlf
  | VError s => 45 :: s ++ crlf
  | VInteger n => 58 :: zdec n ++ crlf
  | VString s => 36 :: zdec (Z.of_nat (length s)) ++ crlf ++ s ++ crlf
  | VNil => 36 :: zdec (-1) ++ crlf
  | VNilArray => 42 :: zdec (-1) ++ crlf
  | VArray vs => 42 :: zdec (Z.of_nat (length vs)) ++ crlf ++ concat (map encode vs)
  end.

(** How deep arrays are nested. *)
Fixpoint depth (v : value) : nat :=
  match v with
  | VNilArray => 1
  | VArray vs => S (fold_right max O (map depth vs))
  | _ => 0
  end.

(** What can be told in the protocol: a line has no line end in it, a number fits its
    type. *)
Fixpoint encodable (v : value) : Prop :=
  match v with
  | VStatus s | VError s => find_crlf s = None
  | VInteger n => - 2 ^ 63 < n < 2 ^ 63
  | VString s => Z.of_nat (length s) < 2 ^ 31
  | VNil | VNilArray => True
  | VArray vs => Z.of_nat (length vs) < 2 ^ 31 /\ fold_right and True (map encodable vs)
  end.

(** ** Tokens of the protocol *)

Lemma find_crlf_none s : CR ∉ s -> find_crlf s = None.
Proof.
  induction s as [|c s IH]; [done|]. rewrite not_elem_of_cons. intros [Hc Hs]. rewrite find_crlf_cons.
  rewrite (proj2 (Z.eqb_neq _ _)) by done. by rewrite IH.
Qed.

Lemma zdec_line n : find_crlf (zdec n) = None.
Proof.
  apply find_crlf_none. assert (Hd : forall m, 0 <= m -> CR ∉ dec m).
  { intros m Hm. destruct (dec_decimal m Hm) as (Hds & _). rewrite list.Forall_forall in Hds. intros Hin. apply Hds in Hin. unfold digit, CR in Hin. lia. }
  unfold zdec. destruct (Z.ltb_spec n 0); [rewrite not_elem_of_cons; split; [done|]|]; apply Hd; lia.
Qed.

Lemma lex_line type s tl : type = REDIS_REPLY_STATUS \/ type = REDIS_REPLY_ERROR -> find_crlf s = None ->
  lex type (s ++ crlf ++ tl) = Some (IString s, length (s ++ crlf)).
Proof.
  intros Hty Hs. unfold lex. cbn [crlf app]. rewrite find_crlf_line by done. cbn [mbind option_bind]. rewrite take_app_length.
  rewrite (length_app s crlf). by destruct Hty as [->| ->].
Qed.

(** The number of a line. *)
Lemma line_zdec n e : - 2 ^ 63 < n < 2 ^ 63 -> find_crlf (zdec n ++ crlf ++ e) = Some (length (zdec n)) /\ readLongLong (zdec n ++ crlf ++ e) = Some n.
Proof. intros Hn. cbn [crlf app]. split; [apply find_crlf_line, zdec_line|by apply readLongLong_zdec]. Qed.

Lemma lex_integer n tl : - 2 ^ 63 < n < 2 ^ 63 -> lex REDIS_REPLY_INTEGER (zdec n ++ crlf ++ tl) = Some (IInteger n, length (zdec n ++ crlf)).
Proof. intros Hn. destruct (line_zdec n tl Hn) as [Hl Hv]. unfold lex. rewrite Hl, (length_app _ crlf). cbn [mbind option_bind]. by rewrite Hv. Qed.

Lemma lex_bulk s tl : Z.of_nat (length s) < 2 ^ 31 ->
  lex REDIS_REPLY_STRING (zdec (Z.of_nat (length s)) ++ crlf ++ s ++ crlf ++ tl) = Some (IString s, length (zdec (Z.of_nat (length s)) ++ crlf ++ s ++ crlf)).
Proof.
  intros Hs. destruct (line_zdec (Z.of_nat (length s)) (s ++ crlf ++ tl)) as [Hl Hv]; [lia|]. rewrite lex_string, Hl. cbn [mbind option_bind]. rewrite Hv.
  cbn [mbind option_bind]. rewrite (proj2 (Z.ltb_ge _ _)), (proj2 (Z.leb_le _ _)) by (rewrite ?length_app; cbn [crlf length]; lia).
  rewrite Nat2Z.id, !length_app. rewrite app_assoc, drop_app_length' by (rewrite length_app; done). rewrite take_app_length. cbn [crlf length].
  do 2 f_equal. lia.
Qed.

Lemma lex_bulk_nil tl : lex REDIS_REPLY_STRING (zdec (-1) ++ crlf ++ tl) = Some (INil, length (zdec (-1) ++ crlf)).
Proof. done. Qed.

Lemma lex_multi n tl : - 2 ^ 63 < n < 2 ^ 63 ->
  lex REDIS_REPLY_ARRAY (zdec n ++ crlf ++ tl) = Some (if n =? -1 then INil else IArray n, length (zdec n ++ crlf)).
Proof. intros Hn. destruct (line_zdec n tl Hn) as [Hl Hv]. rewrite lex_array, Hl, (length_app _ crlf). cbn [mbind option_bind]. by rewrite Hv. Qed.

Section reply.
Context {H : Type} `{F : ReplyFunctions H}.
Abbreviation reader := (redisReader H).

(** ** Objects *)

(** An object that is not the null pointer. *)
Definition made (o : option (option Z * H)) : option (Z * H) := '(p, h) ← o; p ← p; Some (p, h).

(** The objects of a value, for a parent (the object of the array it is in, if it is in
    one) and a place in it. *)
Fixpoint build (v : value) (parent : option (option Z)) (idx : Z) (h : H) : option (Z * H) :=
  match v with
  | VStatus s => made (createString (mktview REDIS_REPLY_STATUS idx parent) s h)
  | VError s => made (createString (mktview REDIS_REPLY_ERROR idx parent) s h)
  | VInteger n => made (createInteger (mktview REDIS_REPLY_INTEGER idx parent) n h)
  | VString s => made (createString (mktview REDIS_REPLY_STRING idx parent) s h)
  | VNil => made (createNil (mktview REDIS_REPLY_STRING idx parent) h)
  | VNilArray => made (createNil (mktview REDIS_REPLY_ARRAY idx parent) h)
  | VArray vs =>
    '(p, h) ← made (createArray (mktview REDIS_REPLY_ARRAY idx parent) (Z.of_nat (length vs)) h);
    h ← (fix elements i vs h := match vs with [] => Some h | v :: vs => '(_, h) ← build v (Some (Some p)) i h; elements (i + 1) vs h end) 0 vs h;
    Some (p, h)
  end.

Fixpoint build_elements (p : Z) (i : Z) (vs : list value) (h : H) : option H :=
  match vs with
  | [] => Some h
  | v :: vs => '(_, h) ← build v (Some (Some p)) i h; build_elements p (i + 1) vs h
  end.

Lemma build_array vs parent idx h : build (VArray vs) parent idx h =
  '(p, h) ← made (createArray (mktview REDIS_REPLY_ARRAY idx parent) (Z.of_nat (length vs)) h);
  h ← build_elements p 0 vs h; Some (p, h).
Proof.
  cbn [build]. destruct (made _) as [[p h1]|]; [|done]. cbn [mbind option_bind]. f_equal. generalize 0 as i. revert h1.
  induction vs as [|v vs IH]; intros h1 i; [done|]. cbn [build_elements]. destruct (build v _ i h1) as [[q h2]|]; [|done]. apply IH.
Qed.

(** ** The stack *)

(** The stack with [t] on [lower]; what is above is of no use. *)
Definition mk (mx : Z) (lower : list redisReadTask) (t : redisReadTask) (junk : list redisReadTask) (rep : option Z) (h : H) : reader :=
  mkreader 0 None 0 0 mx (lower ++ t :: junk) (Z.of_nat (length lower)) rep h.

Definition place (lower : list redisReadTask) : option Z := match lower with [] => None | _ => Some (Z.of_nat (length lower) - 1) end.

(** The object of the parent. *)
Definition parent_of (lower : list redisReadTask) : option (option Z) := t_obj <$> list.last lower.

Section stack.
Context {mx : Z}.

Lemma task_at_lower lower q t junk rep h : task_at (Z.of_nat (length lower)) (mk mx (lower ++ [q]) t junk rep h) = Some (q, mk mx (lower ++ [q]) t junk rep h).
Proof.
  unfold task_at. rewrite (bind_Some get _ _ _ _ eq_refl). unfold lift. rewrite (proj2 (Z.leb_le _ _)), Nat2Z.id by lia. cbn [r_stack mk].
  rewrite <- app_assoc. cbn [app]. by rewrite list_lookup_middle.
Qed.

Lemma task_at_top lower t junk rep h : task_at (Z.of_nat (length lower)) (mk mx lower t junk rep h) = Some (t, mk mx lower t junk rep h).
Proof.
  unfold task_at. rewrite (bind_Some get _ _ _ _ eq_refl). unfold lift. rewrite (proj2 (Z.leb_le _ _)), Nat2Z.id by lia. cbn [r_stack mk].
  by rewrite list_lookup_middle.
Qed.

Lemma current_mk lower t junk rep h : current (mk mx lower t junk rep h) = Some (t, mk mx lower t junk rep h).
Proof. unfold current. rewrite (bind_Some get _ _ _ _ eq_refl). apply task_at_top. Qed.

Lemma upd_mk lower t junk rep h f : upd_task (Z.of_nat (length lower)) f (mk mx lower t junk rep h) = Some (tt, mk mx lower (f t) junk rep h).
Proof.
  unfold upd_task. rewrite (bind_Some _ _ _ _ _ (task_at_top lower t junk rep h)). unfold modify, set_r_stack, mk. cbn.
  by rewrite Nat2Z.id, insert_app_r_alt, Nat.sub_diag by lia.
Qed.

Lemma create_mk lower t junk rep h f : t_parent t = place lower ->
  create f (mk mx lower t junk rep h) = '(p, h) ← f (mktview (t_type t) (t_idx t) (parent_of lower)) h; Some (p, mk mx lower t junk rep h).
Proof.
  intros Hp. unfold create. rewrite (bind_Some _ _ _ _ _ (current_mk lower t junk rep h)).
  assert (Hv : view_of t (mk mx lower t junk rep h) = Some (mktview (t_type t) (t_idx t) (parent_of lower), mk mx lower t junk rep h)).
  { unfold view_of. rewrite Hp. destruct lower as [|q lower _] using rev_ind; [done|]. unfold place, parent_of. rewrite last_snoc. cbn [fmap option_fmap option_map].
    replace (match lower ++ [q] with [] => None | _ => _ end) with (Some (Z.of_nat (length lower))) by (destruct lower; cbn; rewrite ?length_app; cbn; f_equal; lia).
    by rewrite (bind_Some _ _ _ _ _ (task_at_lower lower q t junk rep h)). }
  rewrite (bind_Some _ _ _ _ _ Hv), (bind_Some get _ _ _ _ eq_refl). unfold mbind at 1, M_bind, lift. cbn [r_heap mk].
  by destruct (f _ h) as [[p h1]|].
Qed.

(** [moveToNextTask] *)
Lemma move_root k t junk rep h : moveToNextTask k (mk mx [] t junk rep h) = Some (tt, set_r_idx (-1) (mk mx [] t junk rep h)).
Proof. by destruct k. Qed.

Lemma idx_snoc (lower : list redisReadTask) q : Z.of_nat (length (lower ++ [q])) = Z.of_nat (length lower) + 1.
Proof. rewrite length_app. cbn. lia. Qed.

Lemma move_unfold k lower q t junk rep h : t_type q = REDIS_REPLY_ARRAY ->
  moveToNextTask k (mk mx (lower ++ [q]) t junk rep h) =
    if t_idx t =? t_elements q - 1 then match k with O => None | S k => moveToNextTask k (mk mx lower q (t :: junk) rep h) end
    else if t_idx t <? t_elements q then
      Some (tt, mk mx (lower ++ [q]) (mktask (-1) (-1) (s32 (t_idx t + 1)) (t_obj t) (t_parent t)) junk rep h)
    else None.
Proof.
  intros Hq.
  assert (Hbody : forall f : M reader unit,
    (cur ← task_at (Z.of_nat (length (lower ++ [q]))); prv ← task_at (Z.of_nat (length (lower ++ [q])) - 1);
      if negb (t_type prv =? REDIS_REPLY_ARRAY) then lift None
      else if t_idx cur =? t_elements prv - 1 then f
      else if negb (t_idx cur <? t_elements prv) then lift None
      else upd_task (Z.of_nat (length (lower ++ [q]))) (fun t => mktask (-1) (-1) (s32 (t_idx t + 1)) (t_obj t) (t_parent t)))
      (mk mx (lower ++ [q]) t junk rep h) =
    if t_idx t =? t_elements q - 1 then f (mk mx (lower ++ [q]) t junk rep h)
    else if t_idx t <? t_elements q then
      Some (tt, mk mx (lower ++ [q]) (mktask (-1) (-1) (s32 (t_idx t + 1)) (t_obj t) (t_parent t)) junk rep h)
    else None).
  { intros f. rewrite (bind_Some _ _ _ _ _ (task_at_top _ _ _ _ _)). rewrite idx_snoc at 1. replace (Z.of_nat (length lower) + 1 - 1) with (Z.of_nat (length lower)) by lia.
    rewrite (bind_Some _ _ _ _ _ (task_at_lower _ _ _ _ _ _)), Hq. cbn [negb Z.eqb]. rewrite Z.eqb_refl. cbn [negb].
    destruct (t_idx t =? t_elements q - 1); [done|]. destruct (t_idx t <? t_elements q); [apply upd_mk|done]. }
  destruct k as [|k]; cbn [moveToNextTask]; rewrite (bind_Some get _ _ _ _ eq_refl); cbn [r_idx mk];
    rewrite (proj2 (Z.leb_le _ _)) by lia; rewrite (proj2 (Z.eqb_neq (Z.of_nat (length (lower ++ [q]))) 0)) by (rewrite idx_snoc; lia);
    rewrite Hbody; [done|]. destruct (t_idx t =? t_elements q - 1); [|done]. unfold mbind, M_bind, modify. f_equal.
  unfold set_r_idx, mk. cbn. rewrite idx_snoc, <- app_assoc. cbn [app]. f_equal. lia.
Qed.

(** The fuel is enough. *)
Lemma move_fuel k : forall lower t junk rep h, Forall (fun q => t_type q = REDIS_REPLY_ARRAY) lower -> (length lower <= k)%nat ->
  moveToNextTask (S k) (mk mx lower t junk rep h) = moveToNextTask k (mk mx lower t junk rep h).
Proof.
  induction k as [|k IH]; intros lower t junk rep h Hl Hk; (destruct lower as [|q lower _] using rev_ind; [by rewrite !move_root|]); rewrite length_app in Hk; cbn in Hk; [lia|].
  apply Forall_app in Hl as [Hl Hq]. rewrite list.Forall_singleton in Hq. rewrite !(move_unfold _ lower q) by done.
  destruct (_ =? _); [|done]. apply IH; [done|lia].
Qed.

(** The items of a stream, read one by one. *)
Inductive steps : reader -> list Z -> reader -> list Z -> Prop :=
  | steps_refl c s : steps c s c s
  | steps_next c s c1 s1 c' s' : 0 <= r_idx c -> next_item c s = Some (REDIS_OK, c1, s1) -> steps c1 s1 c' s' -> steps c s c' s'.

Lemma steps_trans c s c1 s1 c' s' : steps c s c1 s1 -> steps c1 s1 c' s' -> steps c s c' s'.
Proof. induction 1; [done|]. intros. eapply steps_next; eauto. Qed.

Lemma steps_runs c s c1 s1 c' s' : steps c s c1 s1 -> stream_runs c1 s1 c' s' -> stream_runs c s c' s'.
Proof. induction 1; [done|]. intros. eapply stream_next; eauto. Qed.

(** A token of a type at the head of the stream. *)
Lemma next_item_mk lower t junk rep h b type s it n :
  t_type t < 0 -> type_of_byte b = Some type -> (type = REDIS_REPLY_ARRAY -> (length lower < 8)%nat) -> lex type s = Some (it, n) ->
  next_item (mk mx lower t junk rep h) (b :: s) = '(rc, c) ← apply_item it (mk mx lower (set_task_type type t) junk rep h); Some (rc, c, drop n s).
Proof.
  intros Ht Hb Hd Hl. unfold next_item. rewrite current_mk. cbn [mbind option_bind]. rewrite (proj2 (Z.ltb_lt _ _)), Hb by done.
  change (r_idx (mk mx lower t junk rep h)) with (Z.of_nat (length lower)). rewrite upd_mk. cbn [mbind option_bind]. unfold next_typed. rewrite current_mk. cbn [mbind option_bind set_task_type t_type r_idx mk].
  rewrite bool_decide_true by (unfold type_of_byte in Hb; repeat case_match; simplify_eq; rewrite !elem_of_cons; auto 6).
  rewrite Hl. destruct (Z.eqb_spec type REDIS_REPLY_ARRAY) as [->|]; [|done]. specialize (Hd eq_refl).
  by rewrite (proj2 (Z.eqb_neq _ _)) by lia.
Qed.

(** An object that is no array. *)
Lemma leaf_mk lower t junk rep h f p h' : t_parent t = place lower -> made (f (mktview (t_type t) (t_idx t) (parent_of lower)) h) = Some (p, h') ->
  (create f ≫= leaf) (mk mx lower t junk rep h) =
    (moveToNextTask MAX_TASKS ;; mret REDIS_OK) (mk mx lower t junk (if decide (lower = []) then Some p else rep) h').
Proof.
  intros Hp Hm. pose proof (create_mk lower t junk rep h f Hp) as Hc. unfold made in Hm. destruct (f _ h) as [[q h1]|]; [|done].
  cbn [mbind option_bind] in *. destruct q as [q|]; [|done]. cbn in Hm. simplify_eq. rewrite (bind_Some _ _ _ _ _ Hc). cbn [leaf].
  unfold item_done. case_decide as Hl; [by rewrite Hl|]. destruct lower as [|q lower _] using rev_ind; [done|].
  apply bind_eq. rewrite (bind_Some get _ _ _ _ eq_refl). cbn [r_idx mk]. by rewrite (proj2 (Z.eqb_neq _ _)) by (rewrite idx_snoc; lia).
Qed.

Definition all_arrays (lower : list redisReadTask) : Prop := Forall (fun q => t_type q = REDIS_REPLY_ARRAY) lower.

(** A value has been read: nothing is left but to go to the next task. *)
Definition value_read (lower : list redisReadTask) (t : redisReadTask) (junk : list redisReadTask) (rep : option Z) (h : H) (s : list Z) (p : Z) (h' : H) (tl : list Z) : Prop :=
  exists t1 junk1, t_idx t1 = t_idx t /\ t_parent t1 = t_parent t /\ length junk1 = length junk /\
  forall c2, moveToNextTask MAX_TASKS (mk mx lower t1 junk1 (if decide (lower = []) then Some p else rep) h') = Some (tt, c2) -> steps (mk mx lower t junk rep h) s c2 tl.

Lemma leaf_read lower t junk rep h b type s tl it f p h' :
  t_type t < 0 -> t_parent t = place lower -> type_of_byte b = Some type -> (type = REDIS_REPLY_ARRAY -> (length lower < 8)%nat) ->
  lex type (s ++ tl) = Some (it, length s) -> (forall r, apply_item it r = (create f ≫= leaf) r) ->
  made (f (mktview type (t_idx t) (parent_of lower)) h) = Some (p, h') ->
  value_read lower t junk rep h (b :: s ++ tl) p h' tl.
Proof.
  intros Ht Hp Hb Hd Hl Hit Hm. exists (set_task_type type t), junk. split_and!; [done..|]. intros c2 Hc2.
  eapply steps_next; [cbn; lia| |apply steps_refl]. rewrite (next_item_mk _ _ _ _ _ _ _ _ _ _ Ht Hb Hd Hl), Hit.
  rewrite (leaf_mk lower (set_task_type type t) junk rep h f p h') by done. rewrite (bind_Some _ _ _ _ _ Hc2). cbn. by rewrite drop_app_length.
Qed.

Definition readable (v : value) : Prop := forall lower t junk rep h tl p h',
  t_type t < 0 -> t_parent t = place lower -> all_arrays lower -> (length lower + length junk = 8)%nat -> (length lower + depth v <= 8)%nat ->
  build v (parent_of lower) (t_idx t) h = Some (p, h') -> value_read lower t junk rep h (encode v ++ tl) p h' tl.

Lemma snoc_not_nil {A} (l : list A) x : l ++ [x] <> [].
Proof. by destruct l. Qed.

Lemma parent_of_snoc lower q : parent_of (lower ++ [q]) = Some (t_obj q).
Proof. unfold parent_of. by rewrite last_snoc. Qed.

(** The elements of an array, from some place on. *)
Lemma read_elements vs : Forall readable vs -> vs <> [] -> forall lower q t junk rep h tl p h',
  t_type t < 0 -> t_parent t = place (lower ++ [q]) -> all_arrays (lower ++ [q]) -> (length (lower ++ [q]) + length junk = 8)%nat ->
  Forall (fun v => length (lower ++ [q]) + depth v <= 8)%nat vs ->
  t_obj q = Some p -> t_elements q = t_idx t + Z.of_nat (length vs) -> 0 <= t_idx t -> t_elements q < 2 ^ 31 ->
  build_elements p (t_idx t) vs h = Some h' ->
  exists t1 junk1, t_idx t1 = t_elements q - 1 /\ length junk1 = length junk /\
    forall c2, moveToNextTask MAX_TASKS (mk mx (lower ++ [q]) t1 junk1 rep h') = Some (tt, c2) ->
      steps (mk mx (lower ++ [q]) t junk rep h) (concat (map encode vs) ++ tl) c2 tl.
Proof.
  intros Hvs. induction Hvs as [|v vs Hv Hvs IH]; intros Hne; [done|]. clear Hne. intros lower q t junk rep h tl p h' Ht Hp Ha Hj Hd Hobj Hel Hi Hm Hb.
  apply list.Forall_cons in Hd as [Hdv Hd]. cbn [build_elements length] in *. 
  destruct (build v (Some (Some p)) (t_idx t) h) as [[p1 h1]|] eqn:Hbv; [|done]. cbn [mbind option_bind] in Hb.
  assert (Hbv' : build v (parent_of (lower ++ [q])) (t_idx t) h = Some (p1, h1)) by (rewrite parent_of_snoc, Hobj; done).
  destruct (Hv (lower ++ [q]) t junk rep h (concat (map encode vs) ++ tl) p1 h1 Ht Hp Ha Hj Hdv Hbv') as (t1 & junk1 & Hi1 & Hp1 & Hl1 & Hgo).
  rewrite decide_False in Hgo by apply snoc_not_nil. cbn [map concat]. rewrite <- app_assoc. destruct vs as [|v2 vs].
  - cbn in Hb. simplify_eq. cbn [length] in Hel. exists t1, junk1. split_and!; [lia|done|]. intros c2 Hc2. apply Hgo, Hc2.
  - assert (Hq : t_type q = REDIS_REPLY_ARRAY) by (apply Forall_app in Ha as [_ Ha]; by rewrite list.Forall_singleton in Ha).
    pose proof (move_unfold MAX_TASKS lower q t1 junk1 rep h1 Hq) as Hmove. cbn [length] in Hel.
    rewrite (proj2 (Z.eqb_neq _ _)), (proj2 (Z.ltb_lt _ _)) in Hmove by lia. specialize (Hgo _ Hmove). rewrite swrap_small in Hgo by lia.
    set (t2 := mktask (-1) (-1) (t_idx t1 + 1) (t_obj t1) (t_parent t1)) in *.
    destruct (IH ltac:(done) lower q t2 junk1 rep h1 tl p h') as (t3 & junk3 & Hi3 & Hl3 & Hgo3); try done; cbn [t2 t_idx t_parent t_type]; try congruence; try lia.
    { cbn [length]. lia. }
    exists t3, junk3. split_and!; [done|congruence|]. intros c2 Hc2. eapply steps_trans; [exact Hgo|by apply Hgo3].
Qed.

Lemma depth_elements n vs : (fold_right max O (map depth vs) <= n)%nat -> Forall (fun v => depth v <= n)%nat vs.
Proof. induction vs as [|v vs IH]; cbn; intros Hn; constructor; [lia|apply IH; lia]. Qed.

(** The first token of an array that is not empty. *)
Lemma apply_array lower t junk0 junk rep h n p h' : t_parent t = place lower -> 0 < n < 2 ^ 31 ->
  made (createArray (mktview (t_type t) (t_idx t) (parent_of lower)) n h) = Some (p, h') ->
  apply_item (IArray n) (mk mx lower t (junk0 :: junk) rep h) =
    Some (REDIS_OK, mk mx (lower ++ [mktask (t_type t) n (t_idx t) (Some p) (t_parent t)])
      (mktask (-1) (-1) 0 None (Some (Z.of_nat (length lower)))) junk (if decide (lower = []) then Some p else rep) h').
Proof.
  intros Hp Hn Hm. cbn [apply_item]. rewrite (bind_Some get _ _ _ _ eq_refl), swrap_small by lia.
  pose proof (create_mk lower t (junk0 :: junk) rep h (fun t => createArray t n) Hp) as Hc. cbv beta in Hc. unfold made in Hm. destruct (createArray _ n h) as [[q h1]|]; [|done].
  cbn [mbind option_bind] in *. destruct q as [q|]; [|done]. cbn in Hm. simplify_eq. rewrite (bind_Some _ _ _ _ _ Hc).
  rewrite (proj2 (Z.ltb_lt _ _)) by lia.
  assert (Hpush : push_task n (Some p) (mk mx lower t (junk0 :: junk) rep h') =
    Some (tt, mk mx (lower ++ [mktask (t_type t) n (t_idx t) (Some p) (t_parent t)]) (mktask (-1) (-1) 0 None (Some (Z.of_nat (length lower)))) junk rep h')).
  { unfold push_task. rewrite (bind_Some get _ _ _ _ eq_refl). change (r_idx (mk _ _ _ _ _ _)) with (Z.of_nat (length lower)).
    rewrite (bind_Some _ _ _ _ _ (upd_mk _ _ _ _ _ _)), swrap_small by lia. unfold modify at 1. unfold mbind at 1, M_bind.
    replace (set_r_idx _ _) with (mk mx (lower ++ [mktask (t_type t) n (t_idx t) (Some p) (t_parent t)]) junk0 junk rep h')
      by (unfold mk, set_r_idx; cbn; rewrite idx_snoc, <- app_assoc; done).
    rewrite <- idx_snoc with (q := mktask (t_type t) n (t_idx t) (Some p) (t_parent t)). by rewrite upd_mk. }
  rewrite (bind_Some _ _ _ _ _ Hpush). change (r_idx (mk _ _ _ _ _ _)) with (Z.of_nat (length lower)). case_decide as Hl; [by rewrite Hl|].
  rewrite (proj2 (Z.eqb_neq _ _)) by (destruct lower; [done|cbn; lia]). done.
Qed.

Lemma apply_array_empty r : apply_item (IArray 0) r = (create (fun t => createArray t 0) ≫= leaf) r.
Proof.
  cbn [apply_item]. rewrite (bind_Some get _ _ _ _ eq_refl). change (s32 0) with 0. change (0 <? 0) with false. cbn match.
  destruct (create (fun t => createArray t 0) r) as [[obj r1]|] eqn:Hc; [|by rewrite !(bind_None _ _ _ Hc)].
  rewrite !(bind_Some _ _ _ _ _ Hc). apply create_heap in Hc as [h ->]. destruct obj as [p|]; [|done]. by apply item_done_root.
Qed.

Lemma encodable_elements vs : encodable (VArray vs) -> Forall encodable vs.
Proof. intros [_ Hvs]. induction vs as [|v vs IH]; constructor; [apply Hvs|apply IH, Hvs]. Qed.

(** A value is read off the stream, and its objects are made. *)
Lemma read_value v : encodable v -> readable v.
Proof.
  induction v as [s|s|n|s| | |vs IH] using value_rec'; intros Hv lower t junk rep h tl p h' Ht Hp Ha Hj Hd Hb; cbn [encode app]; rewrite <- ?app_assoc.
  - rewrite app_assoc. apply leaf_read with REDIS_REPLY_STATUS (IString s) (fun t => createString t s); try done. rewrite <- app_assoc. apply lex_line; [by left|done].
  - rewrite app_assoc. apply leaf_read with REDIS_REPLY_ERROR (IString s) (fun t => createString t s); try done. rewrite <- app_assoc. apply lex_line; [by right|done].
  - rewrite app_assoc. apply leaf_read with REDIS_REPLY_INTEGER (IInteger n) (fun t => createInteger t n); try done. rewrite <- app_assoc. by apply lex_integer.
  - rewrite !app_assoc. apply leaf_read with REDIS_REPLY_STRING (IString s) (fun t => createString t s); try done. rewrite <- !app_assoc. by apply lex_bulk.
  - rewrite app_assoc. by apply leaf_read with REDIS_REPLY_STRING INil createNil.
  - rewrite app_assoc. apply leaf_read with REDIS_REPLY_ARRAY INil createNil; try done. intros _. cbn in Hd. lia.
  - cbn [depth] in Hd. destruct vs as [|v vs].
    + cbn [map concat app length Z.of_nat]. rewrite app_assoc. apply leaf_read with REDIS_REPLY_ARRAY (IArray 0) (fun t => createArray t 0); try done.
      * intros _. cbn in Hd. lia.
      * apply apply_array_empty.
      * rewrite build_array in Hb. destruct (made _) as [[q h1]|] eqn:Hm; [|done]. cbn in Hb. by simplify_eq.
    + set (us := v :: vs) in *. assert (Hus : us <> []) by done. assert (Hlen : 0 < Z.of_nat (length us) < 2 ^ 31) by (destruct Hv as [Hv _]; unfold us in *; cbn [length] in *; lia).
      rewrite build_array in Hb. destruct (made _) as [[q h1]|] eqn:Hm; [|done]. cbn [mbind option_bind] in Hb.
      destruct (build_elements q 0 us h1) as [h2|] eqn:Hbe; [|done]. cbn in Hb. simplify_eq.
      destruct junk as [|junk0 junk]; [cbn in *; lia|]. cbn [length] in Hj.
      set (q := mktask REDIS_REPLY_ARRAY (Z.of_nat (length us)) (t_idx t) (Some p) (t_parent t)).
      destruct (read_elements us) with (lower := lower) (q := q) (t := mktask (-1) (-1) 0 None (Some (Z.of_nat (length lower)))) (junk := junk)
        (rep := if decide (lower = []) then Some p else rep) (h := h1) (tl := tl) (p := p) (h' := h') as (t1 & junk1 & Hi1 & Hl1 & Hgo); try done.
      * pose proof (encodable_elements us Hv) as Hes. clear -IH Hes. induction IH; [constructor|]. apply list.Forall_cons in Hes as [? ?]. constructor; auto.
      * unfold place. destruct lower; cbn; [done|]. rewrite length_app. cbn. do 2 f_equal. lia.
      * apply Forall_app. split; [done|]. by apply list.Forall_singleton.
      * rewrite length_app. cbn. lia.
      * assert (Hmax : (fold_right max 0 (map depth us) <= 7 - length lower)%nat) by lia. apply depth_elements in Hmax.
        eapply list.Forall_impl; [exact Hmax|]. intros w Hw. rewrite length_app. cbn [length]. cbv beta in Hw. lia.
      * change (t_elements q) with (Z.of_nat (length us)). lia.
      * exists q, (t1 :: junk1). split_and!; [done|done|cbn; congruence|]. intros c2 Hc2.
        eapply steps_next; [cbn; lia| |].
        { assert (Hl8 : REDIS_REPLY_ARRAY = REDIS_REPLY_ARRAY -> (length lower < 8)%nat) by lia.
          assert (Hn63 : - 2 ^ 63 < Z.of_nat (length us) < 2 ^ 63) by lia.
          rewrite (next_item_mk _ _ _ _ _ 42 REDIS_REPLY_ARRAY _ _ _ Ht eq_refl Hl8 (lex_multi _ _ Hn63)).
          rewrite apply_array with (p := p) (h' := h1) by done. reflexivity. }
        rewrite app_assoc, drop_app_length. cbn [set_task_type t_type t_idx t_parent]. apply Hgo.
        rewrite move_unfold, Hi1 by done. rewrite Z.eqb_refl. cbn match. unfold MAX_TASKS in *. rewrite <- move_fuel; [exact Hc2|done|lia].
Qed.
End stack.
End reply.

Section replies.
Context {H : Type} `{F : ReplyFunctions H}.
Abbreviation reader := (redisReader H).
Abbreviation m A := (M reader A).
Implicit Types r c : reader.

(** Takes replies until there is none: how the clients of the reader call it. *)
Fixpoint take_replies (fuel : nat) : m (list Z) :=
  '(rc, reply) ← redisReaderGetReply;
  if rc =? REDIS_OK then
    match reply with
    | None => mret []
    | Some p => match fuel with O => lift None | S fuel => ps ← take_replies fuel; mret (p :: ps) end
    end
  else lift None.

(** The chunks, each with the spare room the buffer has when it comes. *)
Fixpoint read_chunks (fuel : nat) (chunks : list (Z * list Z)) : m (list Z) :=
  match chunks with
  | [] => mret []
  | (avail, l) :: chunks =>
    rc ← redisReaderFeed true avail (Some l);
    if rc =? REDIS_OK then ps ← take_replies fuel; qs ← read_chunks fuel chunks; mret (ps ++ qs) else lift None
  end.

(** The objects of the replies. *)
Fixpoint build_replies (vs : list value) (h : H) : option (list Z * H) :=
  match vs with
  | [] => Some ([], h)
  | v :: vs => '(p, h) ← build v None (-1) h; '(ps, h) ← build_replies vs h; Some (p :: ps, h)
  end.

(** ** Replies of a stream *)

Definition fresh (c : reader) : Prop := exists t, top c t /\ t_type t < 0.

Inductive yields : reader -> list Z -> list Z -> reader -> Prop :=
  | yields_end c : fresh c -> yields c [] [] c
  | yields_reply c s c1 s1 p c2 ps c' : stream_runs c s c1 s1 -> r_err c1 = 0 -> r_idx c1 = -1 -> r_reply c1 = Some p ->
    first_task (set_r_reply None c1) = Some (tt, c2) -> yields c2 s1 ps c' -> yields c s (p :: ps) c'.

Lemma stream_runs_det c s c1 s1 c2 s2 : stream_runs c s c1 s1 -> stream_runs c s c2 s2 -> c1 = c2 /\ s1 = s2.
Proof.
  induction 1 as [c s Hi|c s rc c1 s1 Hi Hn Hrc|c s ca sa c1 s1 Hi Hn _ IH]; inversion 1; subst; try lia; [done|..];
    try match goal with H1 : next_item c s = _, H2 : next_item c s = _ |- _ => rewrite H1 in H2; simplify_eq end; auto.
Qed.

Lemma first_task_fresh c c1 : r_idx c = -1 -> first_task c = Some (tt, c1) -> fresh c1.
Proof.
  intros Hi. unfold first_task. rewrite (bind_Some get _ _ _ _ eq_refl), Hi, Z.eqb_refl.
  destruct (upd_task 0 (fun _ => mktask (-1) (-1) (-1) None None) c) as [[u c2]|] eqn:Hu; [|by rewrite (bind_None _ _ _ Hu)]. rewrite (bind_Some _ _ _ _ _ Hu).
  apply upd_task_inv in Hu as (t & _ & Ht & ->). intros [= <-]. exists (mktask (-1) (-1) (-1) None None). split; [split; [done|]|]; cbn; [|done].
  apply list_lookup_insert_eq. by apply lookup_lt_Some in Ht.
Qed.

Lemma first_task_running c : r_idx c <> -1 -> first_task c = Some (tt, c).
Proof. intros Hi. unfold first_task. by rewrite (bind_Some get _ _ _ _ eq_refl), (proj2 (Z.eqb_neq _ _)). Qed.

Lemma ready_ok cap (r c : reader) s : ready (cap := cap) r c s -> r_err c = 0 /\ (r_len r = 0 -> s = []).
Proof.
  intros [Hr Hc]. split; [rewrite (first_task_err _ _ _ Hc); apply Hr|]. intros Hz. destruct Hr as (_ & b & _ & Hp & Hl & _ & ->).
  apply drop_ge. lia.
Qed.

Lemma fresh_waits c c1 s1 : fresh c -> stream_runs c [] c1 s1 -> c1 = c.
Proof.
  intros (t & Ht & Hneg) Hrun. assert (Hn : next_item c [] = Some (REDIS_ERR, c, [])).
  { unfold next_item. rewrite (current_top _ _ Ht). cbn. by rewrite (proj2 (Z.ltb_lt _ _)). }
  destruct Ht as [Hi _]. by destruct (stream_runs_det _ _ _ _ c [] Hrun (stream_stop _ _ _ _ _ Hi Hn ltac:(done))).
Qed.

Section cap.
Context {cap : Z}.

(** What is complete is taken; what is not is left for the next chunk. *)
Lemma take_replies_spec c st ps c' : yields c st ps c' -> forall fuel r s t, st = s ++ t -> ready (cap := cap) r c s -> r_len r <> 0 \/ fresh c -> (length ps <= fuel)%nat ->
  exists ps1 ps2 r' c1 s1, take_replies fuel r = Some (ps1, r') /\ ready (cap := cap) r' c1 s1 /\ ps = ps1 ++ ps2 /\ yields c1 (s1 ++ t) ps2 c' /\
    (t = [] -> ps2 = [] /\ c1 = c' /\ s1 = []).
Proof.
  induction 1 as [c Hf|c st c1 st1 p c2 ps c' Hrun He Hi Hp Hft Hy IH]; intros fuel r s t Hst Hr Hlen Hfuel.
  - symmetry in Hst. apply app_eq_nil in Hst as [-> ->]. destruct (redisReaderGetReply_empty r c Hr Hf) as (r' & Hg & Hr').
    exists [], [], r', c, []. destruct fuel; cbn [take_replies]; rewrite (bind_Some _ _ _ _ _ Hg); (split_and!; [done|done|done|by constructor|done]).
  - subst st. destruct (ready_ok _ _ _ _ Hr) as [Hec Hz]. 
destruct (decide (r_len r = 0)) as [Hl0|Hl0].
    + destruct Hlen as [|Hf]; [done|]. rewrite (Hz Hl0) in *. destruct (redisReaderGetReply_empty r c Hr Hf) as (r' & Hg & Hr').
      exists [], (p :: ps), r', c, []. destruct fuel; cbn [take_replies]; rewrite (bind_Some _ _ _ _ _ Hg);
        (split_and!; [done|done|done|by eapply yields_reply|intros ->; exfalso]); apply fresh_waits in Hrun; [|done| |done]; subst c1;
        destruct Hf as (t1 & [Hi1 _] & _); lia.
    + destruct (stream_runs_app _ _ _ _ _ Hec Hrun) as [(s2 & Hrun2 & _ & Hst1)|(c3 & s3 & Hrun3 & He3 & Hi3 & Hrun4)].
      * rewrite (Hst1 He) in *. clear Hst1. destruct fuel as [|fuel]; [cbn in Hfuel; lia|]. destruct (redisReaderGetReply_stream r c s c1 s2 Hr Hl0 Hrun2) as (r1 & Hg & _ & Hrest).
        destruct (Hrest He) as [Hr1 Hb1]. unfold reply_of in Hg. rewrite He, Hi, Z.eqb_refl in *. cbn [negb] in Hg. rewrite Z.eqb_refl, Hp in Hg.
        assert (Hready : ready (cap := cap) r1 c2 s2) by (split; [done|by rewrite Hb1]).
        destruct (IH fuel r1 s2 t eq_refl Hready) as (ps1 & ps2 & r' & c4 & s4 & Hd & Hr' & -> & Hy' & Hend).
        { right. by eapply first_task_fresh; [|exact Hft]. }
        { cbn in Hfuel. lia. }
        exists (p :: ps1), ps2, r', c4, s4. split_and!; try done. cbn [take_replies]. rewrite (bind_Some _ _ _ _ _ Hg), Z.eqb_refl. by rewrite (bind_Some _ _ _ _ _ Hd).
      * destruct (redisReaderGetReply_stream r c s c3 s3 Hr Hl0 Hrun3) as (r1 & Hg & _ & Hrest). destruct (Hrest He3) as [Hr1 Hb1].
        unfold reply_of in Hg. rewrite He3, Z.eqb_refl in Hg. cbn [negb] in Hg. rewrite (proj2 (Z.eqb_neq (r_idx c3) (-1))) in Hg, Hb1 by lia.
        exists [], (p :: ps), r1, c3, s3. assert (Hready : ready (cap := cap) r1 c3 s3).
        { split; [done|]. rewrite Hb1. apply first_task_running. lia. }
        destruct fuel; cbn [take_replies]; rewrite (bind_Some _ _ _ _ _ Hg); (split_and!; [done|done|done|by eapply yields_reply|intros ->; exfalso]);
          rewrite app_nil_r in *; destruct (stream_runs_det _ _ _ _ _ _ Hrun Hrun3) as [-> _]; lia.
Qed.
End cap.

Lemma read_chunks_spec fuel chunks : forall cap r c s ps c', ready (cap := cap) r c s -> yields c (s ++ concat (map snd chunks)) ps c' ->
  Forall (fun l => snd l <> []) chunks -> cap + Z.of_nat (length (concat (map snd chunks))) < 2 ^ 31 -> (length ps <= fuel)%nat ->
  (chunks = [] -> s = [] /\ ps = [] /\ c = c') ->
  exists cap' r', read_chunks fuel chunks r = Some (ps, r') /\ ready (cap := cap') r' c' [].
Proof.
  induction chunks as [|[avail l] chunks IH]; intros cap r c s ps c' Hr Hy Hne Hcap Hfuel Hnil.
  - destruct (Hnil eq_refl) as (-> & -> & ->). by exists cap, r.
  - apply list.Forall_cons in Hne as [Hl Hne]. cbn [map concat fst snd] in *. rewrite length_app in Hcap.
    destruct (redisReaderFeed_ready cap r c s avail l Hr Hl) as (r1 & Hfeed & Hr1 & Hlen); [lia|].
    destruct (take_replies_spec (cap := cap + Z.of_nat (length l)) _ _ _ _ Hy fuel r1 (s ++ l) (concat (map snd chunks))) as (ps1 & ps2 & r2 & c1 & s1 & Hd & Hr2 & -> & Hy2 & Hend);
      [by rewrite app_assoc|done|by left|done|].
    rewrite length_app in Hfuel.
    destruct (IH _ r2 c1 s1 ps2 c' Hr2 Hy2) as (cap' & r' & Hrc & Hr'); [done|lia|lia| |].
    { intros ->. destruct Hend as (-> & -> & ->); done. }
    exists cap', r'. split; [|done]. cbn [read_chunks]. rewrite (bind_Some _ _ _ _ _ Hfeed), Z.eqb_refl, (bind_Some _ _ _ _ _ Hd), (bind_Some _ _ _ _ _ Hrc). done.
Qed.

(** ** The stream of the protocol *)

Definition first : redisReadTask := mktask (-1) (-1) (-1) None None.

(** A reader between two replies. *)
Definition between_replies (cap : Z) (r : reader) (h : H) : Prop :=
  exists mx junk, length junk = 8%nat /\ ready (cap := cap) r (mk mx [] first junk None h) [].

Lemma created_reader h : between_replies 0 (redisReaderCreateWithFunctions h) h.
Proof.
  exists REDIS_READER_MAX_BUF, (replicate 8 zero_task). split; [done|]. split; [|done]. split; [done|]. exists []. done.
Qed.

Lemma value_runs mx v junk h p h' tl : encodable v -> (depth v <= 8)%nat -> length junk = 8%nat -> build v None (-1) h = Some (p, h') ->
  exists t1 junk1, length junk1 = 8%nat /\
    stream_runs (mk mx [] first junk None h) (encode v ++ tl) (set_r_idx (-1) (mk mx [] t1 junk1 (Some p) h')) tl.
Proof.
  intros Hv Hd Hj Hb. destruct (read_value (mx := mx) v Hv [] first junk None h tl p h') as (t1 & junk1 & _ & _ & Hl & Hgo); [done|done|constructor|done|done|done|].
  exists t1, junk1. split; [congruence|]. eapply steps_runs; [apply Hgo, move_root|]. by apply stream_end.
Qed.

Lemma yields_values mx vs : forall junk h ps h', Forall encodable vs -> Forall (fun v => depth v <= 8)%nat vs -> length junk = 8%nat ->
  build_replies vs h = Some (ps, h') ->
  exists junk', length junk' = 8%nat /\ yields (mk mx [] first junk None h) (concat (map encode vs)) ps (mk mx [] first junk' None h').
Proof.
  induction vs as [|v vs IH]; intros junk h ps h' He Hd Hj Hb; cbn [build_replies] in Hb.
  - simplify_eq. exists junk. split; [done|]. apply yields_end. exists first. split; [split; [done|]|done]. done.
  - apply list.Forall_cons in He as [Hev He], Hd as [Hdv Hd]. destruct (build v None (-1) h) as [[p h1]|] eqn:Hbv; [|done]. cbn [mbind option_bind] in Hb.
    destruct (build_replies vs h1) as [[ps1 h2]|] eqn:Hbs; [|done]. cbn in Hb. simplify_eq. cbn [map concat].
    destruct (value_runs mx v junk h p h1 (concat (map encode vs)) Hev Hdv Hj Hbv) as (t1 & junk1 & Hj1 & Hrun).
    destruct (IH junk1 h1 ps1 h' He Hd Hj1 Hbs) as (junk' & Hj' & Hy). exists junk'. split; [done|]. by eapply yields_reply; [exact Hrun|..|exact Hy].
Qed.

Theorem replies_in_chunks cap r h vs ps h' chunks fuel :
  between_replies cap r h -> Forall encodable vs -> Forall (fun v => depth v <= 8)%nat vs -> build_replies vs h = Some (ps, h') ->
  Forall (fun l => snd l <> []) chunks -> concat (map snd chunks) = concat (map encode vs) ->
  cap + Z.of_nat (length (concat (map encode vs))) < 2 ^ 31 -> (length vs <= fuel)%nat ->
  exists cap' r', read_chunks fuel chunks r = Some (ps, r') /\ between_replies cap' r' h'.
Proof.
  intros (mx & junk & Hj & Hr) He Hd Hb Hne Hc Hcap Hfuel. destruct (yields_values mx vs junk h ps h' He Hd Hj Hb) as (junk' & Hj' & Hy).
  assert (Hps : length ps = length vs).
  { clear -Hb. revert h ps Hb. induction vs as [|v vs IH]; cbn; intros h ps Hb; [by simplify_eq|].
    destruct (build v None (-1) h) as [[p h1]|]; [|done]. cbn in Hb. destruct (build_replies vs h1) as [[ps1 h2]|] eqn:Hbs; [|done]. cbn in Hb. simplify_eq.
    cbn. by rewrite (IH _ _ Hbs). }
  destruct (read_chunks_spec fuel chunks cap r _ [] ps _ Hr ltac:(cbn [app]; rewrite Hc; exact Hy)) as (cap' & r' & Hrc & Hr'); [done|by rewrite Hc|lia| |].
  { intros ->. split; [done|]. inversion Hy as [? Hf|c s c1 s1 p c2 ps1 ? Hrun _ Hi]; subst; [done|exfalso].
    cbn in Hc. rewrite <- Hc in Hrun. apply fresh_waits in Hrun; [subst; done|]. exists first. split; [split; [done|]|done]. done. }
  exists cap', r'. split; [done|]. by exists mx, junk'.
Qed.
End replies.
