(* ===== verification/RedisObjects.v ===== *)
(** The objects of replies that [hiredis.c] makes by default: [createReplyObject],
    [freeReplyObject] and the functions of [defaultFunctions].

    The heap maps addresses to objects; the text of an object and its array of elements
    are blocks of their own in the code and parts of the object here.  The answers of
    the allocator are the list [h_alloc]; there is memory when it is used up.

    The objects of a reply are the tree of its value, and [freeReplyObject] gives back
    all of them. *)
From Stdlib Require Import ZArith Lia.
From stdpp Require Import gmap list.
From S2P Require Import Prelude StateMonad RedisReader RedisLex RedisStream RedisReply.

(** [struct redisReply] *)
Record redisReply : Type := mkreply {
  p_type : Z;                          (* int *)
  p_integer : Z;                       (* long long *)
  p_len : Z;                           (* size_t *)
  p_str : option (list Z);
  p_elements : Z;                      (* size_t *)
  p_element : option (list (option Z))
}.

Record objects : Type := mkobjects { h_mem : gmap Z redisReply; h_next : Z; h_alloc : list bool }.

#[local] Abbreviation m A := (M objects A).

Definition set_h_mem (x : gmap Z redisReply) (h : objects) : objects := mkobjects x (h_next h) (h_alloc h).

(** Whether there is memory. *)
Definition granted : m bool :=
  h ← get;
  match h_alloc h with
  | [] => mret true
  | b :: bs => modify (fun h => mkobjects (h_mem h) (h_next h) bs) ;; mret b
  end.

Definition object (p : Z) : m redisReply := h ← get; lift (h_mem h !! p).
Definition set_object (p : Z) (o : redisReply) : m unit := object p ;; modify (fun h => set_h_mem (<[p := o]> (h_mem h)) h).

Definition createReplyObject (type : Z) : m (option Z) :=
  b ← granted;
  if (b : bool) then
    h ← get;
    modify (fun h => mkobjects (<[h_next h := mkreply type 0 0 None 0 None]> (h_mem h)) (h_next h + 1) (h_alloc h)) ;; mret (Some (h_next h))
  else mret None.

Definition free (p : Z) : m unit := object p ;; modify (fun h => set_h_mem (delete p (h_mem h)) h).

(** [freeReplyObject]; [fuel] bounds the nesting, which the addresses do. *)
Fixpoint free_reply (fuel : nat) (r : Z) : m unit :=
  match fuel with
  | O => lift None
  | S fuel =>
    o ← object r;
    (if p_type o =? REDIS_REPLY_ARRAY then
       match p_element o with
       | Some es =>
         if p_elements o <=? Z.of_nat (length es)
         then for_each (fun e => match e with Some e => free_reply fuel e | None => skip end) (take (Z.to_nat (p_elements o)) es)
         else lift None
       | None => skip
       end
     else skip) ;;
    free r
  end.

Definition freeReplyObject (reply : option Z) : m unit :=
  match reply with
  | None => skip
  | Some r => h ← get; free_reply (S (Z.to_nat (h_next h))) r
  end.

(** [if (task->parent) ... parent->element[task->idx] = r;] *)
Definition set_element (task : task_view) (r : Z) : m unit :=
  match tv_parent task with
  | None => skip
  | Some obj =>
    parent ← lift obj;
    o ← object parent;
    if p_type o =? REDIS_REPLY_ARRAY then
      es ← lift (p_element o);
      if (0 <=? tv_idx task) && (tv_idx task <? Z.of_nat (length es))
      then set_object parent (mkreply (p_type o) (p_integer o) (p_len o) (p_str o) (p_elements o) (Some (<[Z.to_nat (tv_idx task) := Some r]> es)))
      else lift None
    else lift None
  end.

Definition createStringObject (task : task_view) (str : list Z) : m (option Z) :=
  r ← createReplyObject (tv_type task);
  match r with
  | None => mret None
  | Some r =>
    buf ← granted;
    if (buf : bool) then
      (if (tv_type task =? REDIS_REPLY_ERROR) || (tv_type task =? REDIS_REPLY_STATUS) || (tv_type task =? REDIS_REPLY_STRING) then skip else lift None) ;;
      set_object r (mkreply (tv_type task) 0 (Z.of_nat (length str)) (Some (str ++ [0])) 0 None) ;;
      set_element task r ;; mret (Some r)
    else freeReplyObject (Some r) ;; mret None
  end.

Definition createArrayObject (task : task_view) (elements : Z) : m (option Z) :=
  r ← createReplyObject REDIS_REPLY_ARRAY;
  match r with
  | None => mret None
  | Some r =>
    ok ← (if 0 <? elements then
            b ← granted;
            if (b : bool) then set_object r (mkreply REDIS_REPLY_ARRAY 0 0 None 0 (Some (replicate (Z.to_nat elements) None))) ;; mret true
            else freeReplyObject (Some r) ;; mret false
          else mret true);
    if (ok : bool) then
      o ← object r;
      set_object r (mkreply (p_type o) (p_integer o) (p_len o) (p_str o) (u64 elements) (p_element o)) ;;
      set_element task r ;; mret (Some r)
    else mret None
  end.

Definition createIntegerObject (task : task_view) (value : Z) : m (option Z) :=
  r ← createReplyObject REDIS_REPLY_INTEGER;
  match r with
  | None => mret None
  | Some r => set_object r (mkreply REDIS_REPLY_INTEGER value 0 None 0 None) ;; set_element task r ;; mret (Some r)
  end.

Definition createNilObject (task : task_view) : m (option Z) :=
  r ← createReplyObject REDIS_REPLY_NIL;
  match r with
  | None => mret None
  | Some r => set_element task r ;; mret (Some r)
  end.

(** [defaultFunctions] *)
#[export] Instance defaultFunctions : ReplyFunctions objects := {|
  createString := createStringObject;
  createArray := createArrayObject;
  createInteger := createIntegerObject;
  createNil := createNilObject;
  freeObject p h := snd <$> freeReplyObject (Some p) h
|}.

(** [redisReaderCreate], [redisReaderFree] *)
Definition redisReaderCreate (h : objects) : redisReader objects := redisReaderCreateWithFunctions h.

Definition redisReaderFree (r : redisReader objects) : option objects :=
  match r_reply r with Some p => snd <$> freeReplyObject (Some p) (r_heap r) | None => Some (r_heap r) end.

Definition no_objects : objects := mkobjects ∅ 1 [].

(** ["*2\r\n+OK\r\n:7\r\n"], in two pieces *)
Example read_ex :
  ('(rc, r) ← redisReaderFeed true 0 (Some [42; 50; 13; 10; 43; 79; 75]) (redisReaderCreate no_objects);
   '(a, r) ← redisReaderGetReply r;
   '(_, r) ← redisReaderFeed true 0 (Some [13; 10; 58; 55; 13; 10]) r;
   '(b, r) ← redisReaderGetReply r; Some (a, b, h_mem (r_heap r) !! 1, h_mem (r_heap r) !! 3)) =
  Some ((REDIS_OK, None), (REDIS_OK, Some 1), Some (mkreply REDIS_REPLY_ARRAY 0 0 None 2 (Some [Some 2; Some 3])), Some (mkreply REDIS_REPLY_INTEGER 7 0 None 0 None)).
Proof. vm_compute. reflexivity. Qed.

(** ["*4294967296\r\n:1\r\n"] *)
Example crash_ex :
  ('(rc, r) ← redisReaderFeed true 0 (Some [42; 52; 50; 57; 52; 57; 54; 55; 50; 57; 54; 13; 10; 58; 49; 13; 10]) (redisReaderCreate no_objects);
   redisReaderGetReply r) = None.
Proof. vm_compute. reflexivity. Qed.

(** The object at [p] is the tree of a value. *)
#[warnings="-register-all"]
Inductive represents (mem : gmap Z redisReply) : value -> Z -> Prop :=
  | rep_status s p : mem !! p = Some (mkreply REDIS_REPLY_STATUS 0 (Z.of_nat (length s)) (Some (s ++ [0])) 0 None) -> represents mem (VStatus s) p
  | rep_error s p : mem !! p = Some (mkreply REDIS_REPLY_ERROR 0 (Z.of_nat (length s)) (Some (s ++ [0])) 0 None) -> represents mem (VError s) p
  | rep_string s p : mem !! p = Some (mkreply REDIS_REPLY_STRING 0 (Z.of_nat (length s)) (Some (s ++ [0])) 0 None) -> represents mem (VString s) p
  | rep_integer n p : mem !! p = Some (mkreply REDIS_REPLY_INTEGER n 0 None 0 None) -> represents mem (VInteger n) p
  | rep_nil v p : v = VNil \/ v = VNilArray -> mem !! p = Some (mkreply REDIS_REPLY_NIL 0 0 None 0 None) -> represents mem v p
  | rep_array vs ps p :
    mem !! p = Some (mkreply REDIS_REPLY_ARRAY 0 0 None (Z.of_nat (length vs)) (if decide (vs = []) then None else Some (map Some ps))) ->
    Forall2 (represents mem) vs ps -> represents mem (VArray vs) p.

(** A heap with memory, whose objects are below the next address. *)
Record heap_ok (h : objects) : Prop := { heap_granted : h_alloc h = []; heap_below : forall a, h_next h <= a -> h_mem h !! a = None }.

(** The place of the parent that an object is put in. *)
Definition parent_ok (parent : option (option Z)) (idx : Z) (h : objects) : Prop :=
  match parent with
  | None => True
  | Some obj => exists q o es, obj = Some q /\ h_mem h !! q = Some o /\ p_type o = REDIS_REPLY_ARRAY /\ p_element o = Some es /\ 0 <= idx < Z.of_nat (length es)
  end.

Definition with_element (o : redisReply) (es : list (option Z)) : redisReply := mkreply (p_type o) (p_integer o) (p_len o) (p_str o) (p_elements o) (Some es).

(** The object of a parent with the element put in. *)
Definition put (parent : option (option Z)) (idx p : Z) (mem : gmap Z redisReply) : gmap Z redisReply :=
  match parent with
  | Some (Some q) =>
    match mem !! q with
    | Some o => match p_element o with Some es => <[q := with_element o (<[Z.to_nat idx := Some p]> es)]> mem | None => mem end
    | None => mem
    end
  | _ => mem
  end.

(** [h] with the new object [o] at the next address. *)
Definition add_object (o : redisReply) (h : objects) : objects := mkobjects (<[h_next h := o]> (h_mem h)) (h_next h + 1) (h_alloc h).

Lemma createReplyObject_ok type h : heap_ok h -> createReplyObject type h = Some (Some (h_next h), add_object (mkreply type 0 0 None 0 None) h).
Proof. intros [Ha _]. unfold createReplyObject, granted, mbind, M_bind, get. rewrite Ha. done. Qed.

Lemma set_object_new o o' h : set_object (h_next h) o' (add_object o h) = Some (tt, add_object o' h).
Proof.
  unfold set_object, object, mbind, M_bind, get, lift, modify. cbn. rewrite lookup_insert_eq. unfold set_h_mem, add_object. cbn. by rewrite insert_insert_eq.
Qed.

Lemma set_element_ok type parent idx o h : heap_ok h -> parent_ok parent idx h ->
  set_element (mktview type idx parent) (h_next h) (add_object o h) = Some (tt, mkobjects (put parent idx (h_next h) (h_mem (add_object o h))) (h_next h + 1) []).
Proof.
  intros [Ha Hf] Hp. unfold set_element. cbn [tv_parent tv_idx]. destruct parent as [obj|]; [|unfold add_object; cbn; by rewrite Ha].
  destruct Hp as (q & o' & es & -> & Hq & Ht & He & Hi). assert (Hne : h_next h <> q) by (intros <-; rewrite Hf in Hq; [done|lia]).
  unfold mbind at 1, M_bind, lift. unfold object at 1, mbind, M_bind, get, lift. cbn [put]. cbn [h_mem add_object]. rewrite lookup_insert_ne by done. rewrite Hq, Ht, He, Z.eqb_refl.
  rewrite (proj2 (Z.leb_le _ _)), (proj2 (Z.ltb_lt _ _)) by lia. cbn [andb]. unfold set_object, object, mbind, M_bind, get, lift, modify. cbn.
  rewrite lookup_insert_ne, Hq by done. unfold set_h_mem, with_element. cbn. by rewrite Ha, Ht.
Qed.

Lemma put_new parent idx p o h : heap_ok h -> parent_ok parent idx h -> put parent idx p (<[h_next h := o]> (h_mem h)) = <[h_next h := o]> (put parent idx p (h_mem h)).
Proof.
  intros [_ Hf] Hp. destruct parent as [obj|]; [|done]. destruct Hp as (q & o' & es & -> & Hq & _ & He & _).
  assert (Hne : h_next h <> q) by (intros <-; rewrite Hf in Hq; [done|lia]). cbn [put]. rewrite lookup_insert_ne, Hq, He by done. by rewrite insert_insert_ne by done.
Qed.

Lemma put_high parent idx p h a : heap_ok h -> parent_ok parent idx h -> h_next h <= a -> put parent idx p (h_mem h) !! a = None.
Proof.
  intros [_ Hf] Hp Ha. destruct parent as [obj|]; [|by apply Hf]. destruct Hp as (q & o' & es & -> & Hq & _ & He & _). cbn [put]. rewrite Hq, He.
  assert (Hne : q <> a) by (intros <-; rewrite Hf in Hq; done). rewrite lookup_insert_ne by done. by apply Hf.
Qed.

(** The heaps agree on a range of addresses. *)
Definition agree (lo hi : Z) (m1 m2 : gmap Z redisReply) : Prop := forall a, lo <= a < hi -> m1 !! a = m2 !! a.

(** [m2] is [m1] without the objects of a range. *)
Definition without (lo hi : Z) (m1 m2 : gmap Z redisReply) : Prop := forall a, m2 !! a = if decide (lo <= a < hi) then None else m1 !! a.

(** The objects of the range are the tree of [v] with the root [p], and freeing it
    frees them. *)
Definition owns (lo hi : Z) (v : value) (p : Z) (mem0 : gmap Z redisReply) : Prop :=
  forall mem, agree lo hi mem mem0 -> represents mem v p /\
  forall fuel nx al, (depth v < fuel)%nat ->
    exists mem', free_reply fuel p (mkobjects mem nx al) = Some (tt, mkobjects mem' nx al) /\ without lo hi mem mem'.

Definition built (v : value) (parent : option (option Z)) (idx : Z) (h : objects) (p : Z) (h' : objects) : Prop :=
  p = h_next h /\ h_next h < h_next h' /\ Z.of_nat (depth v) <= h_next h' - h_next h /\ heap_ok h' /\
  (forall a, a < h_next h -> h_mem h' !! a = put parent idx p (h_mem h) !! a) /\
  owns (h_next h) (h_next h') v p (h_mem h').

Definition buildable (v : value) : Prop := forall parent idx h, heap_ok h -> parent_ok parent idx h ->
  exists p h', build v parent idx h = Some (p, h') /\ built v parent idx h p h'.

(** What [set_element] leaves. *)
Definition with_object (o : redisReply) (parent : option (option Z)) (idx : Z) (h : objects) : objects :=
  mkobjects (put parent idx (h_next h) (h_mem (add_object o h))) (h_next h + 1) [].

Lemma with_object_ok o parent idx h : heap_ok h -> parent_ok parent idx h -> heap_ok (with_object o parent idx h) /\
  h_mem (with_object o parent idx h) !! h_next h = Some o /\ (forall a, a < h_next h -> h_mem (with_object o parent idx h) !! a = put parent idx (h_next h) (h_mem h) !! a).
Proof.
  intros Hh Hp. unfold with_object. cbn [h_mem add_object]. rewrite put_new by done. split_and!.
  - split; [done|]. cbn. intros a Ha. rewrite lookup_insert_ne by lia. apply put_high; [done|done|lia].
  - apply lookup_insert_eq.
  - intros a Ha. by rewrite lookup_insert_ne by lia.
Qed.

(** An object without elements. *)
Lemma free_leaf fuel p o mem nx al : (0 < fuel)%nat -> mem !! p = Some o -> (p_type o = REDIS_REPLY_ARRAY -> p_element o = None) ->
  exists mem', free_reply fuel p (mkobjects mem nx al) = Some (tt, mkobjects mem' nx al) /\ without p (p + 1) mem mem'.
Proof.
  intros Hf Hp Ho. destruct fuel as [|fuel]; [lia|]. exists (delete p mem). split.
  - cbn [free_reply]. unfold free, object, mbind, M_bind, get, lift, modify. cbn. rewrite Hp. cbn.
    destruct (Z.eqb_spec (p_type o) REDIS_REPLY_ARRAY) as [Ha|]; [rewrite (Ho Ha)|]; unfold skip, mret, M_ret; cbn; by rewrite Hp.
  - intros a. destruct (decide (p <= a < p + 1)) as [Ha|Ha]; [replace a with p by lia; apply lookup_delete_eq|]. apply lookup_delete_ne. lia.
Qed.

Lemma leaf_built v o parent idx h : heap_ok h -> parent_ok parent idx h -> (depth v <= 1)%nat -> (p_type o = REDIS_REPLY_ARRAY -> p_element o = None) ->
  (forall mem, mem !! h_next h = Some o -> represents mem v (h_next h)) -> built v parent idx h (h_next h) (with_object o parent idx h).
Proof.
  intros Hh Hp Hd Ho Hrep. destruct (with_object_ok o parent idx h Hh Hp) as (Hok & Hnew & Hold). split; [done|]. split; [cbn; lia|]. split; [cbn; lia|]. split; [done|]. split; [done|].
  intros mem Hag. assert (Hmem : mem !! h_next h = Some o) by (rewrite Hag; [done|cbn; lia]). split; [by apply Hrep|].
  intros fuel nx al Hf. apply free_leaf with o; [lia|done|done].
Qed.

Lemma granted_ok o h : heap_ok h -> granted (add_object o h) = Some (true, add_object o h).
Proof. intros [Ha _]. unfold granted. rewrite (bind_Some get _ _ _ _ eq_refl). cbn. by rewrite Ha. Qed.

Lemma place_ok type parent idx o h : heap_ok h -> parent_ok parent idx h ->
  (set_element (mktview type idx parent) (h_next h) ;; mret (Some (h_next h))) (add_object o h) = Some (Some (h_next h), with_object o parent idx h).
Proof. intros Hh Hp. by rewrite (bind_Some _ _ _ _ _ (set_element_ok type parent idx o h Hh Hp)). Qed.

Lemma createString_ok type parent idx str h : heap_ok h -> parent_ok parent idx h ->
  type = REDIS_REPLY_ERROR \/ type = REDIS_REPLY_STATUS \/ type = REDIS_REPLY_STRING ->
  createStringObject (mktview type idx parent) str h =
    Some (Some (h_next h), with_object (mkreply type 0 (Z.of_nat (length str)) (Some (str ++ [0])) 0 None) parent idx h).
Proof.
  intros Hh Hp Hty. unfold createStringObject. cbn [tv_type]. rewrite (bind_Some _ _ _ _ _ (createReplyObject_ok type h Hh)), (bind_Some _ _ _ _ _ (granted_ok _ _ Hh)).
  rewrite (bind_Some _ _ _ tt (add_object (mkreply type 0 0 None 0 None) h)) by (by destruct Hty as [->|[->| ->]]).
  rewrite (bind_Some _ _ _ _ _ (set_object_new _ _ _)). by apply place_ok.
Qed.

Lemma createInteger_ok type parent idx n h : heap_ok h -> parent_ok parent idx h ->
  createIntegerObject (mktview type idx parent) n h = Some (Some (h_next h), with_object (mkreply REDIS_REPLY_INTEGER n 0 None 0 None) parent idx h).
Proof.
  intros Hh Hp. unfold createIntegerObject. rewrite (bind_Some _ _ _ _ _ (createReplyObject_ok _ h Hh)), (bind_Some _ _ _ _ _ (set_object_new _ _ _)). by apply place_ok.
Qed.

Lemma createNil_ok type parent idx h : heap_ok h -> parent_ok parent idx h ->
  createNilObject (mktview type idx parent) h = Some (Some (h_next h), with_object (mkreply REDIS_REPLY_NIL 0 0 None 0 None) parent idx h).
Proof. intros Hh Hp. unfold createNilObject. rewrite (bind_Some _ _ _ _ _ (createReplyObject_ok _ h Hh)). by apply place_ok. Qed.

(** An array of [n] elements that are to come. *)
Definition new_array (n : nat) : redisReply := mkreply REDIS_REPLY_ARRAY 0 0 None (Z.of_nat n) (if decide (n = O) then None else Some (replicate n None)).

Lemma createArray_ok type parent idx n h : heap_ok h -> parent_ok parent idx h -> Z.of_nat n < 2 ^ 31 ->
  createArrayObject (mktview type idx parent) (Z.of_nat n) h = Some (Some (h_next h), with_object (new_array n) parent idx h).
Proof.
  intros Hh Hp Hn. unfold createArrayObject. rewrite (bind_Some _ _ _ _ _ (createReplyObject_ok _ h Hh)).
  set (o := mkreply REDIS_REPLY_ARRAY 0 0 None 0 (p_element (new_array n))).
  assert (Ho : (if 0 <? Z.of_nat n then b ← granted;
        if (b : bool) then set_object (h_next h) (mkreply REDIS_REPLY_ARRAY 0 0 None 0 (Some (replicate (Z.to_nat (Z.of_nat n)) None))) ;; mret true
        else freeReplyObject (Some (h_next h)) ;; mret false else mret true) (add_object (mkreply REDIS_REPLY_ARRAY 0 0 None 0 None) h) = Some (true, add_object o h)).
  { unfold o, new_array. cbn [p_element]. case_decide as Hz; [by rewrite Hz|]. rewrite (proj2 (Z.ltb_lt _ _)) by lia.
    rewrite (bind_Some _ _ _ _ _ (granted_ok _ _ Hh)), (bind_Some _ _ _ _ _ (set_object_new _ _ _)). by rewrite Nat2Z.id. }
  rewrite (bind_Some _ _ _ _ _ Ho). assert (Hobj : object (h_next h) (add_object o h) = Some (o, add_object o h)).
  { unfold object, mbind, M_bind, get, lift. cbn. by rewrite lookup_insert_eq. }
  rewrite (bind_Some _ _ _ _ _ Hobj), (bind_Some _ _ _ _ _ (set_object_new _ _ _)), wrap_small by lia. by apply place_ok.
Qed.

(** ** Elements *)

Lemma depth_array (n : Z) vs : Forall (fun v => Z.of_nat (depth v) <= n) vs -> 0 <= n -> Z.of_nat (fold_right max O (map depth vs)) <= n.
Proof. induction 1 as [|v vs Hv _ IH]; cbn; intros Hn; [done|]. specialize (IH Hn). lia. Qed.


Lemma build_leaf (f : option (option Z * objects)) v o parent idx h : heap_ok h -> parent_ok parent idx h -> f = Some (Some (h_next h), with_object o parent idx h) ->
  build v parent idx h = made f -> (depth v <= 1)%nat -> (p_type o = REDIS_REPLY_ARRAY -> p_element o = None) ->
  (forall mem, mem !! h_next h = Some o -> represents mem v (h_next h)) ->
  exists p h', build v parent idx h = Some (p, h') /\ built v parent idx h p h'.
Proof. intros Hh Hp -> Hb Hd Ho Hrep. rewrite Hb. eexists _, _. split; [reflexivity|by apply leaf_built]. Qed.

(** The elements of the array [q], from the place after [pre] on. *)
Lemma build_elements_ok vs : Forall buildable vs -> forall q o pre h, heap_ok h ->
  h_mem h !! q = Some o -> p_type o = REDIS_REPLY_ARRAY -> p_element o = Some (pre ++ replicate (length vs) None) ->
  exists ps h', build_elements q (Z.of_nat (length pre)) vs h = Some h' /\ heap_ok h' /\ h_next h <= h_next h' /\ length ps = length vs /\
    Forall (fun v => Z.of_nat (depth v) <= h_next h' - h_next h) vs /\
    (forall a, a < h_next h -> h_mem h' !! a = if decide (a = q) then Some (with_element o (pre ++ map Some ps)) else h_mem h !! a) /\
    (forall mem, agree (h_next h) (h_next h') mem (h_mem h') -> Forall2 (represents mem) vs ps /\
      forall fuel nx al, Forall (fun v => depth v < fuel)%nat vs ->
        exists mem', for_each (fun e => match e with Some e => free_reply fuel e | None => skip end) (map Some ps) (mkobjects mem nx al) = Some (tt, mkobjects mem' nx al) /\
          without (h_next h) (h_next h') mem mem').
Proof.
  induction 1 as [|v vs Hv Hvs IH]; intros q o pre h Hh Hq Ht He.
  - exists [], h. cbn [build_elements length map replicate] in *. rewrite app_nil_r in *. split_and!; try done.
    + intros a _. case_decide as Ha; [subst a|done]. rewrite Hq. unfold with_element. destruct o. by cbn in *; subst.
    + intros mem _. split; [done|]. intros fuel nx al _. exists mem. split; [done|]. intros a. by rewrite decide_False by lia.
  - cbn [length replicate] in He. assert (Hqlt : q < h_next h) by (destruct (decide (q < h_next h)); [done|]; rewrite (heap_below h) in Hq by (done || lia); done).
    destruct (Hv (Some (Some q)) (Z.of_nat (length pre)) h Hh) as (p & h1 & Hb & -> & Hlt & Hdep & Hh1 & Hold & Hown).
    { exists q, o, (pre ++ None :: replicate (length vs) None). split_and!; [done..|lia|]. rewrite length_app. cbn. lia. }
    set (o1 := with_element o (pre ++ Some (h_next h) :: replicate (length vs) None)).
    assert (Hput : put (Some (Some q)) (Z.of_nat (length pre)) (h_next h) (h_mem h) = <[q := o1]> (h_mem h)).
    { cbn [put]. rewrite Hq, He. unfold o1. do 2 f_equal. by rewrite Nat2Z.id, insert_app_r_alt, Nat.sub_diag by lia. }
    rewrite Hput in Hold. assert (Hq1 : h_mem h1 !! q = Some o1) by (rewrite Hold by done; apply lookup_insert_eq).
    destruct (IH q o1 (pre ++ [Some (h_next h)]) h1 Hh1 Hq1 Ht) as (ps & h' & Hbs & Hh' & Hle & Hlen & Hdeps & Hold' & Hown').
    { cbn. by rewrite <- app_assoc. }
    exists (h_next h :: ps), h'. split_and!; [|done|lia|cbn; congruence|constructor; [lia|eapply list.Forall_impl; [exact Hdeps|]; cbv beta; lia]|..].
    + cbn [build_elements]. rewrite Hb. cbn [mbind option_bind]. rewrite length_app in Hbs. cbn [length] in Hbs. rewrite <- Hbs. f_equal. lia.
    + intros a Ha. rewrite Hold' by lia. case_decide as Hqa; [by rewrite <- app_assoc|]. by rewrite Hold, lookup_insert_ne by done.
    + intros mem Hag. assert (Hag1 : agree (h_next h) (h_next h1) mem (h_mem h1)).
      { intros a Ha. rewrite Hag by lia. by rewrite Hold', decide_False by lia. }
      assert (Hag2 : agree (h_next h1) (h_next h') mem (h_mem h')) by (intros a Ha; apply Hag; lia).
      destruct (Hown mem Hag1) as [Hrep Hfree]. destruct (Hown' mem Hag2) as [Hreps _]. split; [by constructor|].
      intros fuel nx al Hd. apply list.Forall_cons in Hd as [Hdv Hd]. destruct (Hfree fuel nx al Hdv) as (mem1 & Hf1 & Hw1).
      assert (Hag3 : agree (h_next h1) (h_next h') mem1 (h_mem h')) by (intros a Ha; rewrite (Hw1 a), decide_False by lia; by apply Hag2).
      destruct (Hown' mem1 Hag3) as [_ Hfrees]. destruct (Hfrees fuel nx al Hd) as (mem2 & Hf2 & Hw2). exists mem2. split.
      * cbn [map for_each]. by rewrite (bind_Some _ _ _ _ _ Hf1).
      * intros a. rewrite (Hw2 a), (Hw1 a). repeat case_decide; (done || lia).
Qed.

(** The objects of a value are made, whatever they are put in. *)
Lemma build_ok v : encodable v -> buildable v.
Proof.
  induction v as [s|s|n|s| | |vs IH] using value_rec'; intros Hv parent idx h Hh Hp.
  - eapply build_leaf; [done|done|apply (createString_ok REDIS_REPLY_STATUS parent idx s); auto|done|cbn; lia|done|intros; by constructor].
  - eapply build_leaf; [done|done|apply (createString_ok REDIS_REPLY_ERROR parent idx s); auto|done|cbn; lia|done|intros; by constructor].
  - eapply build_leaf; [done|done|by apply (createInteger_ok REDIS_REPLY_INTEGER parent idx n)|done|cbn; lia|done|intros; by constructor].
  - eapply build_leaf; [done|done|apply (createString_ok REDIS_REPLY_STRING parent idx s); auto|done|cbn; lia|done|intros; by constructor].
  - eapply build_leaf; [done|done|by apply (createNil_ok REDIS_REPLY_STRING parent idx)|done|cbn; lia|done|intros; constructor; auto].
  - eapply build_leaf; [done|done|by apply (createNil_ok REDIS_REPLY_ARRAY parent idx)|done|cbn; lia|done|intros; constructor; auto].
  - pose proof (encodable_elements vs Hv) as Hes. destruct Hv as [Hlen _]. destruct (decide (vs = [])) as [->|Hne].
    + eapply build_leaf; [done|done|by apply (createArray_ok REDIS_REPLY_ARRAY parent idx 0)| |cbn; lia|done|intros mem Hm].
      { rewrite build_array. cbn [build_elements length createArray defaultFunctions]. by destruct (made _) as [[? ?]|]. }
      by apply rep_array with [].
    + assert (Hbs : Forall buildable vs) by (clear -IH Hes; induction IH; [constructor|]; apply list.Forall_cons in Hes as [? ?]; constructor; auto).
      rewrite build_array. cbn [createArray defaultFunctions]. rewrite (createArray_ok _ _ _ (length vs)) by done. cbn [made mbind option_bind].
      set (o := new_array (length vs)). destruct (with_object_ok o parent idx h Hh Hp) as (Hok & Hnew & Hold). set (h1 := with_object o parent idx h) in *.
      assert (Hel : p_element o = Some ([] ++ replicate (length vs) None)) by (unfold o, new_array; cbn; rewrite decide_False; [done|by destruct vs]).
      destruct (build_elements_ok vs Hbs (h_next h) o [] h1 Hok Hnew eq_refl Hel) as (ps & h' & Hb & Hh' & Hle & Hlps & Hdeps & Hold' & Hown).
      change (Z.of_nat (length [])) with 0 in Hb. rewrite Hb. cbn [mbind option_bind]. eexists _, _. split; [reflexivity|].
      assert (Hroot : h_mem h' !! h_next h = Some (mkreply REDIS_REPLY_ARRAY 0 0 None (Z.of_nat (length vs)) (Some (map Some ps)))).
      { rewrite Hold' by (cbn; lia). by rewrite decide_True. }
      assert (Hnext : h_next h1 = h_next h + 1) by done.
      split; [done|]. split; [lia|]. split; [apply depth_array in Hdeps; cbn [depth]; lia|]. split; [done|]. split; [intros a Ha; rewrite Hold', decide_False by lia; by apply Hold|].
      intros mem Hag. assert (Hm : mem !! h_next h = Some (mkreply REDIS_REPLY_ARRAY 0 0 None (Z.of_nat (length vs)) (Some (map Some ps)))) by (rewrite Hag by lia; done).
      assert (Hag1 : agree (h_next h1) (h_next h') mem (h_mem h')) by (intros a Ha; apply Hag; lia). destruct (Hown mem Hag1) as [Hreps Hfree].
      split; [by apply rep_array with ps; [rewrite decide_False by done|]|]. intros fuel nx al Hd. destruct fuel as [|fuel]; [cbn in Hd; lia|].
      destruct (Hfree fuel nx al) as (mem1 & Hf1 & Hw1).
      { cbn [depth] in Hd. assert (Hmax : (fold_right max 0 (map depth vs) <= pred fuel)%nat) by lia. apply depth_elements in Hmax.
        eapply list.Forall_impl; [exact Hmax|]. cbv beta. intros w Hw. cbn in Hd. lia. }
      exists (delete (h_next h) mem1). split.
      * cbn [free_reply]. assert (Hobj : object (h_next h) (mkobjects mem nx al) = Some (mkreply REDIS_REPLY_ARRAY 0 0 None (Z.of_nat (length vs)) (Some (map Some ps)), mkobjects mem nx al)).
        { unfold object, mbind, M_bind, get, lift. cbn. by rewrite Hm. }
        rewrite (bind_Some _ _ _ _ _ Hobj). cbn [p_type p_element p_elements]. rewrite Z.eqb_refl, (proj2 (Z.leb_le _ _)) by (rewrite length_map; lia).
        rewrite Nat2Z.id, take_ge by (rewrite length_map; lia). rewrite (bind_Some _ _ _ _ _ Hf1).
        unfold free, object, mbind, M_bind, get, lift, modify. cbn. by rewrite (Hw1 (h_next h)), decide_False, Hm by lia.
      * intros a. destruct (decide (a = h_next h)) as [->|Ha]; [rewrite lookup_delete_eq, decide_True by lia; done|].
        rewrite lookup_delete_ne, (Hw1 a) by done. repeat case_decide; (done || lia).
Qed.
