(* ===== verification/RedisFormat.v ===== *)
(** Commands of the redis client, [hiredis.c]: how [redisFormatCommandArgv] and
    [redisFormatSdsCommandArgv] write the arguments of a command, and that the reader
    of replies reads them back.

    An argument is the memory from its address on; [malloc] gives a block of the size
    it is asked for, or nothing. *)
From Stdlib Require Import ZArith Lia.
From stdpp Require Import list.
From S2P Require Import Prelude Decimal RedisReader RedisLex RedisReply.

(** [for (;;) { if (v < 10) return result; ... v /= 10000U; result += 4; }]; a number of
    64 bits has five groups of digits at most. *)
Fixpoint countDigits_loop (fuel : nat) (v result : Z) : option Z :=
  match fuel with
  | O => None
  | S fuel =>
    if v <? 10 then Some result
    else if v <? 100 then Some (u32 (result + 1))
    else if v <? 1000 then Some (u32 (result + 2))
    else if v <? 10000 then Some (u32 (result + 3))
    else countDigits_loop fuel (v / 10000) (u32 (result + 4))
  end.

Definition countDigits (v : Z) : option Z := countDigits_loop 5 v 1.

Definition bulklen (len : Z) : option Z := n ← countDigits len; Some (u64 (1 + n + 2 + len + 2)).

Fixpoint c_strlen (s : list Z) : option Z :=
  match s with
  | [] => None
  | c :: s => if c =? 0 then Some 0 else n ← c_strlen s; Some (n + 1)
  end.

(** [argvlen ? argvlen[j] : strlen(argv[j])] *)
Definition arg_len (argv : list (list Z)) (argvlen : option (list Z)) (j : nat) : option Z :=
  match argvlen with
  | Some lens => lens !! j
  | None => s ← argv !! j; c_strlen s
  end.

(** The bytes of [argv[j]]. *)
Definition arg_bytes (argv : list (list Z)) (j : nat) (len : Z) : option (list Z) := s ← argv !! j; peek_n s 0 len.

(** The size of the command: an [int] here, an [unsigned long long] there. *)
Fixpoint command_len (w : Z -> Z) (argv : list (list Z)) (argvlen : option (list Z)) (js : list nat) (totlen : Z) : option Z :=
  match js with
  | [] => Some totlen
  | j :: js => len ← arg_len argv argvlen j; n ← bulklen len; command_len w argv argvlen js (w (totlen + n))
  end.

Definition command_totlen (w : Z -> Z) (argc : Z) (argv : list (list Z)) (argvlen : option (list Z)) : option Z :=
  n ← countDigits (u64 argc); command_len w argv argvlen (seq 0 (Z.to_nat argc)) (w (1 + n + 2)).

(** [pos += sprintf(cmd+pos, ...)]: the text, and a zero behind it. *)
Definition sprintf_at (cmd : list Z) (pos : Z) (text : list Z) : option (list Z * Z) :=
  cmd ← poke_n cmd pos (text ++ [0]); Some (cmd, s32 (pos + Z.of_nat (length text))).

Fixpoint write_args (argv : list (list Z)) (argvlen : option (list Z)) (js : list nat) (cmd : list Z) (pos : Z) : option (list Z * Z) :=
  match js with
  | [] => Some (cmd, pos)
  | j :: js =>
    len ← arg_len argv argvlen j;
    '(cmd, pos) ← sprintf_at cmd pos (36 :: dec len ++ crlf);
    bs ← arg_bytes argv j len;
    cmd ← poke_n cmd pos bs;
    let pos := s32 (pos + len) in
    cmd ← poke cmd pos CR; cmd ← poke cmd (s32 (pos + 1)) LF;
    write_args argv argvlen js cmd (s32 (s32 (pos + 1) + 1))
  end.

(** The result and the command. *)
Definition redisFormatCommandArgv (malloc : Z -> option (list Z)) (argc : Z) (argv : list (list Z)) (argvlen : option (list Z)) : option (Z * option (list Z)) :=
  totlen ← command_totlen s32 argc argv argvlen;
  match malloc (u64 (s32 (totlen + 1))) with
  | None => Some (-1, None)
  | Some cmd =>
    '(cmd, pos) ← sprintf_at cmd 0 (42 :: zdec argc ++ crlf);
    '(cmd, pos) ← write_args argv argvlen (seq 0 (Z.to_nat argc)) cmd pos;
    if pos =? totlen then cmd ← poke cmd pos 0; Some (totlen, Some cmd) else None
  end.

Fixpoint append_args (argv : list (list Z)) (argvlen : option (list Z)) (js : list nat) (cmd : list Z) : option (list Z) :=
  match js with
  | [] => Some cmd
  | j :: js =>
    len ← arg_len argv argvlen j;
    bs ← arg_bytes argv j len;
    append_args argv argvlen js (cmd ++ (36 :: dec (u32 len) ++ crlf) ++ bs ++ crlf)
  end.

(** With memory; [%u] of [sdscatfmt] takes an [unsigned int]. *)
Definition redisFormatSdsCommandArgv (argc : Z) (argv : list (list Z)) (argvlen : option (list Z)) : option (Z * list Z) :=
  totlen ← command_totlen u64 argc argv argvlen;
  cmd ← append_args argv argvlen (seq 0 (Z.to_nat argc)) (42 :: zdec argc ++ crlf);
  if Z.of_nat (length cmd) =? totlen then Some (s32 totlen, cmd) else None.

(** [SET foo bar], of [test.c] *)
Example format_ex :
  redisFormatCommandArgv (fun n => Some (replicate (Z.to_nat n) 9)) 3 [[83; 69; 84; 0]; [102; 111; 111; 0]; [98; 97; 114; 0]] None =
  Some (31, Some ([42; 51; 13; 10; 36; 51; 13; 10; 83; 69; 84; 13; 10; 36; 51; 13; 10; 102; 111; 111; 13; 10; 36; 51; 13; 10; 98; 97; 114; 13; 10; 0])).
Proof. vm_compute. reflexivity. Qed.

(** * The numbers of digits *)

Definition digits_of (v : Z) (t : nat) : Prop := 10 ^ Z.of_nat t <= v < 10 ^ (Z.of_nat t + 1) \/ (t = O /\ v < 10).

Lemma digits_exist k v : 0 <= v < 10 ^ Z.of_nat (S k) -> exists t, (t <= k)%nat /\ digits_of v t.
Proof.
  revert v. induction k as [|k IH]; intros v Hv.
  - exists O. split; [done|right]. split; [done|]. change (10 ^ Z.of_nat 1) with 10 in Hv. lia.
  - destruct (decide (v < 10 ^ Z.of_nat (S k))) as [Hlt|Hge].
    + destruct (IH v) as (t & Ht & Hd); [lia|]. exists t. split; [lia|done].
    + exists (S k). split; [done|left]. rewrite (Nat2Z.inj_succ (S k)) in Hv. rewrite Z.add_1_r. lia.
Qed.

(** Evaluates the constants of [a <= x < b]. *)
Ltac eval_bounds H :=
  try match type of H with
  | ?a <= _ < ?b => let a' := eval vm_compute in a in let b' := eval vm_compute in b in change a with a' in H; change b with b' in H
  end.

Lemma countDigits_loop_spec fuel : forall v t r, (t < 4 * fuel)%nat -> 0 <= v -> 0 <= r -> r + Z.of_nat t < 2 ^ 32 -> digits_of v t ->
  countDigits_loop fuel v r = Some (r + Z.of_nat t).
Proof.
  induction fuel as [|fuel IH]; intros v t r Hf Hv Hr Hrt Hd; [lia|]. cbn [countDigits_loop].
  destruct t as [|[|[|[|t]]]].
  1-4: destruct Hd as [Hd|[? Hd]]; try done; eval_bounds Hd; 
    destruct (Z.ltb_spec v 10), (Z.ltb_spec v 100), (Z.ltb_spec v 1000), (Z.ltb_spec v 10000); try lia; rewrite ?wrap_small by lia; f_equal; lia.
  destruct Hd as [Hd|[? _]]; [|done]. replace (Z.of_nat (S (S (S (S t))))) with (Z.of_nat t + 4) in * by lia.
  replace (Z.of_nat t + 4 + 1) with (Z.of_nat t + 1 + 4) in Hd by lia. rewrite !Z.pow_add_r in Hd by lia. change (10 ^ 4) with 10000 in Hd.
  pose proof (Z.pow_pos_nonneg 10 (Z.of_nat t) ltac:(lia) ltac:(lia)). rewrite !(proj2 (Z.ltb_ge _ _)) by lia.
  rewrite wrap_small by lia. rewrite IH with (t := t); [f_equal; lia|lia|apply Z.div_pos; lia|lia|lia|].
  left. split; [apply Z.div_le_lower_bound; lia|]. apply Z.div_lt_upper_bound; rewrite ?Z.pow_add_r by lia; lia.
Qed.

Lemma countDigits_spec v : 0 <= v < 2 ^ 64 -> countDigits v = Some (Z.of_nat (length (dec v))).
Proof.
  intros Hv. destruct (digits_exist 19 v) as (t & Ht & Hd); [change (10 ^ Z.of_nat 20) with 100000000000000000000; lia|].
  unfold countDigits. rewrite (countDigits_loop_spec 5 v t) by (lia || done). rewrite (length_dec v t) by (lia || exact Hd). f_equal. lia.
Qed.

Lemma length_dec_bound v : 0 <= v < 2 ^ 64 -> (1 <= length (dec v) <= 20)%nat.
Proof.
  intros Hv. destruct (digits_exist 19 v) as (t & Ht & Hd); [change (10 ^ Z.of_nat 20) with 100000000000000000000; lia|].
  rewrite (length_dec v t) by (lia || exact Hd). lia.
Qed.

(** * The size of a command *)

(** The arguments of a command. *)
Record arguments (argc : Z) (argv : list (list Z)) (argvlen : option (list Z)) (args : list (list Z)) : Prop := {
  args_count : argc = Z.of_nat (length args);
  args_len : forall j a, args !! j = Some a -> arg_len argv argvlen j = Some (Z.of_nat (length a));
  args_bytes : forall j a, args !! j = Some a -> arg_bytes argv j (Z.of_nat (length a)) = Some a
}.

(** The command, in the protocol. *)
Definition command (args : list (list Z)) : list Z := encode (VArray (map VString args)).

Definition bulk (a : list Z) : list Z := encode (VString a).

Lemma command_unfold args : command args = (42 :: zdec (Z.of_nat (length args)) ++ crlf) ++ concat (map bulk args).
Proof. unfold command. cbn [encode]. rewrite length_map, map_map. cbn [app]. by rewrite <- app_assoc. Qed.

Lemma zdec_dec n : 0 <= n -> zdec n = dec n.
Proof. intros Hn. unfold zdec. by rewrite (proj2 (Z.ltb_ge _ _)). Qed.

Lemma length_bulk a : length (bulk a) = (1 + length (dec (Z.of_nat (length a))) + 2 + length a + 2)%nat.
Proof. unfold bulk. cbn [encode length]. rewrite zdec_dec, !length_app by lia. cbn. lia. Qed.

Lemma bulklen_spec a : Z.of_nat (length a) < 2 ^ 31 -> bulklen (Z.of_nat (length a)) = Some (Z.of_nat (length (bulk a))).
Proof.
  intros Ha. unfold bulklen. rewrite countDigits_spec by lia. cbn [mbind option_bind]. pose proof (length_dec_bound (Z.of_nat (length a)) ltac:(lia)).
  rewrite length_bulk, wrap_small by lia. f_equal. lia.
Qed.

Section args.
Context {argc : Z} {argv : list (list Z)} {argvlen : option (list Z)} {args : list (list Z)} (Hargs : arguments argc argv argvlen args).

(** [w] keeps the sizes there are. *)
Variables (w : Z -> Z) (bound : Z).
Hypothesis Hw : forall n, 0 <= n < bound -> w n = n.
Hypothesis Hsize : Z.of_nat (length (command args)) < bound.
Hypothesis Hbound : bound <= 2 ^ 31.

Lemma command_len_spec k : forall totlen, (k <= length args)%nat -> 0 <= totlen ->
  totlen + Z.of_nat (length (concat (map bulk (drop (length args - k) args)))) < bound ->
  command_len w argv argvlen (seq (length args - k) k) totlen = Some (totlen + Z.of_nat (length (concat (map bulk (drop (length args - k) args))))).
Proof using Hargs Hw Hbound.
  induction k as [|k IH]; intros totlen Hk Ht Hb.
  - rewrite Nat.sub_0_r, drop_all. cbn. f_equal. lia.
  - destruct (lookup_lt_is_Some_2 args (length args - S k)) as [a Ha]; [lia|]. rewrite (drop_S _ _ _ Ha) in *. cbn [map concat] in *. rewrite length_app in *.
    cbn [seq command_len]. rewrite (args_len _ _ _ _ Hargs _ _ Ha). cbn [mbind option_bind]. pose proof (length_bulk a).
    rewrite bulklen_spec by lia. cbn [mbind option_bind]. replace (S (length args - S k)) with (length args - k)%nat in * by lia.
    rewrite Hw by lia. rewrite IH by lia. f_equal. lia.
Qed.

Lemma command_totlen_spec : command_totlen w argc argv argvlen = Some (Z.of_nat (length (command args))).
Proof using Hargs Hw Hbound Hsize.
  pose proof (args_count _ _ _ _ Hargs) as Hc. rewrite command_unfold, length_app in *. cbn [length] in Hsize. rewrite length_app in Hsize.
  assert (Hn : Z.of_nat (length args) < 2 ^ 31).
  { assert (Hl : (length args <= length (concat (map bulk args)))%nat); [|lia]. clear. induction args as [|a l IH]; [done|]. cbn [map concat length].
    rewrite length_app. pose proof (length_bulk a). lia. }
  unfold command_totlen. rewrite Hc, Nat2Z.id, wrap_small by lia. rewrite countDigits_spec by lia. cbn [mbind option_bind].
  pose proof (command_len_spec (length args)) as Hl. rewrite Nat.sub_diag, drop_0 in Hl. rewrite zdec_dec in Hsize by lia. cbn [crlf length] in Hsize.
  rewrite Hw by lia. rewrite Hl by lia. f_equal. cbn [length]. rewrite length_app, zdec_dec by lia. cbn [crlf length]. lia.
Qed.
End args.

(** * Writing *)

(** The first bytes of the block are [s]. *)
Definition begins (cmd : list Z) (s : list Z) : Prop := exists r, cmd = s ++ r.

Lemma poke_n_begins cmd s t bs u : begins cmd s -> bs = t ++ u -> Z.of_nat (length s + length bs) <= Z.of_nat (length cmd) ->
  exists cmd', poke_n cmd (Z.of_nat (length s)) bs = Some cmd' /\ begins cmd' (s ++ t) /\ length cmd' = length cmd.
Proof.
  intros [r ->] -> Hl. rewrite !length_app in Hl. rewrite poke_n_patch by (rewrite ?length_app; lia). eexists. split; [reflexivity|].
  unfold patch. rewrite Nat2Z.id, take_app_length. split.
  - rewrite <- !app_assoc. eexists. by rewrite app_assoc.
  - rewrite !length_app, length_drop, !length_app. lia.
Qed.

Lemma poke_begins cmd s c : begins cmd s -> Z.of_nat (length s + 1) <= Z.of_nat (length cmd) ->
  exists cmd', poke cmd (Z.of_nat (length s)) c = Some cmd' /\ begins cmd' (s ++ [c]) /\ length cmd' = length cmd.
Proof.
  intros Hb Hl. destruct (poke_n_begins cmd s [c] [c] [] Hb) as (cmd' & Hp & Hb' & Hl'); [done|cbn; lia|]. exists cmd'. split_and!; try done.
  rewrite poke_patch by lia. rewrite poke_n_patch in Hp by (cbn; lia). done.
Qed.

Lemma sprintf_begins cmd s text : begins cmd s -> Z.of_nat (length s + length text + 1) <= Z.of_nat (length cmd) -> Z.of_nat (length cmd) <= 2 ^ 31 ->
  exists cmd', sprintf_at cmd (Z.of_nat (length s)) text = Some (cmd', Z.of_nat (length (s ++ text))) /\ begins cmd' (s ++ text) /\ length cmd' = length cmd.
Proof.
  intros Hb Hl Hm. destruct (poke_n_begins cmd s text (text ++ [0]) [0] Hb eq_refl) as (cmd' & Hp & Hb' & Hl'); [rewrite length_app; cbn; lia|].
  exists cmd'. split_and!; try done. unfold sprintf_at. rewrite Hp. cbn [mbind option_bind]. rewrite swrap_small, length_app by lia. do 2 f_equal. lia.
Qed.

Section write.
Context {argc : Z} {argv : list (list Z)} {argvlen : option (list Z)} {args : list (list Z)} (Hargs : arguments argc argv argvlen args).

Lemma write_args_spec k : forall cmd s, (k <= length args)%nat -> begins cmd s ->
  Z.of_nat (length (s ++ concat (map bulk (drop (length args - k) args))) + 1) <= Z.of_nat (length cmd) -> Z.of_nat (length cmd) <= 2 ^ 31 ->
  exists cmd', write_args argv argvlen (seq (length args - k) k) cmd (Z.of_nat (length s)) =
      Some (cmd', Z.of_nat (length (s ++ concat (map bulk (drop (length args - k) args))))) /\
    begins cmd' (s ++ concat (map bulk (drop (length args - k) args))) /\ length cmd' = length cmd.
Proof using Hargs.
  induction k as [|k IH]; intros cmd s Hk Hb Hl Hm.
  - rewrite Nat.sub_0_r, drop_all in *. cbn [map concat] in *. rewrite app_nil_r in *. by exists cmd.
  - destruct (lookup_lt_is_Some_2 args (length args - S k)) as [a Ha]; [lia|]. rewrite (drop_S _ _ _ Ha) in *. cbn [map concat] in *.
    replace (S (length args - S k)) with (length args - k)%nat in * by lia. rewrite !length_app in Hl. pose proof (length_bulk a) as Hla.
    cbn [seq write_args]. replace (S (length args - S k)) with (length args - k)%nat by lia. rewrite (args_len _ _ _ _ Hargs _ _ Ha). cbn [mbind option_bind].
    destruct (sprintf_begins cmd s (36 :: dec (Z.of_nat (length a)) ++ crlf) Hb) as (cmd1 & -> & Hb1 & Hl1); [cbn [length]; rewrite length_app; cbn [crlf length]; lia|done|].
    cbn [mbind option_bind]. rewrite (args_bytes _ _ _ _ Hargs _ _ Ha). cbn [mbind option_bind]. set (s1 := s ++ 36 :: dec (Z.of_nat (length a)) ++ crlf) in *.
    assert (Hs1 : length s1 = (length s + (length (bulk a) - length a - 2))%nat) by (unfold s1; rewrite !length_app; cbn [length]; rewrite length_app; cbn [crlf length]; lia).
    destruct (poke_n_begins cmd1 s1 a a [] Hb1) as (cmd2 & -> & Hb2 & Hl2); [by rewrite app_nil_r|lia|]. cbn [mbind option_bind].
    rewrite (swrap_small 32 (Z.of_nat (length s1) + _)) by lia. replace (Z.of_nat (length s1) + Z.of_nat (length a)) with (Z.of_nat (length (s1 ++ a))) by (rewrite length_app; lia).
    destruct (poke_begins cmd2 (s1 ++ a) CR Hb2) as (cmd3 & -> & Hb3 & Hl3); [rewrite length_app; lia|]. cbn [mbind option_bind].
    rewrite (swrap_small 32 (Z.of_nat (length (s1 ++ a)) + 1)) by (rewrite ?length_app; lia).
    replace (Z.of_nat (length (s1 ++ a)) + 1) with (Z.of_nat (length ((s1 ++ a) ++ [CR]))) by (rewrite (length_app _ [CR]); cbn [length]; lia).
    destruct (poke_begins cmd3 ((s1 ++ a) ++ [CR]) LF Hb3) as (cmd4 & -> & Hb4 & Hl4); [rewrite !length_app; cbn [length]; lia|]. cbn [mbind option_bind].
    rewrite (swrap_small 32) by (rewrite ?length_app; cbn [length]; lia).
    assert (Heq : ((s1 ++ a) ++ [CR]) ++ [LF] = s ++ bulk a).
    { unfold s1, bulk. cbn [encode]. rewrite zdec_dec by lia. rewrite <- !app_assoc. cbn [app]. by rewrite <- !app_assoc. }
    rewrite Heq in Hb4. replace (Z.of_nat (length ((s1 ++ a) ++ [CR])) + 1) with (Z.of_nat (length (s ++ bulk a))) by (rewrite <- Heq, (length_app _ [LF]); cbn [length]; lia).
    destruct (IH cmd4 (s ++ bulk a)) as (cmd' & Hw & Hb' & Hl'); [lia|done|rewrite !length_app; lia|lia|].
    exists cmd'. rewrite <- app_assoc in *. split_and!; [done|done|lia].
Qed.

Lemma append_args_spec k : forall cmd, (k <= length args)%nat -> Forall (fun a => Z.of_nat (length a) < 2 ^ 32) args ->
  append_args argv argvlen (seq (length args - k) k) cmd = Some (cmd ++ concat (map bulk (drop (length args - k) args))).
Proof using Hargs.
  induction k as [|k IH]; intros cmd Hk Hl.
  - rewrite Nat.sub_0_r, drop_all. cbn. by rewrite app_nil_r.
  - destruct (lookup_lt_is_Some_2 args (length args - S k)) as [a Ha]; [lia|]. rewrite (drop_S _ _ _ Ha). cbn [map concat seq append_args].
    rewrite (args_len _ _ _ _ Hargs _ _ Ha). cbn [mbind option_bind]. rewrite (args_bytes _ _ _ _ Hargs _ _ Ha). cbn [mbind option_bind].
    replace (S (length args - S k)) with (length args - k)%nat by lia. rewrite IH by (done || lia). f_equal.
    pose proof (Forall_lookup_1 _ _ _ _ Hl Ha) as Hla. cbv beta in Hla. rewrite wrap_small by lia. unfold bulk. cbn [encode]. rewrite zdec_dec by lia.
    rewrite <- !app_assoc. cbn [app]. by rewrite <- !app_assoc.
Qed.

(** A block is allocated that is just large enough. *)
Lemma redisFormatCommandArgv_spec malloc block :
  Z.of_nat (length (command args)) + 1 < 2 ^ 31 -> malloc (Z.of_nat (length (command args)) + 1) = Some block -> Z.of_nat (length block) = Z.of_nat (length (command args)) + 1 ->
  redisFormatCommandArgv malloc argc argv argvlen = Some (Z.of_nat (length (command args)), Some (command args ++ [0])).
Proof using Hargs.
  intros Hsize Hm Hb. unfold redisFormatCommandArgv.
  rewrite (command_totlen_spec Hargs s32 (2 ^ 31)); [|intros; apply swrap_small; lia|lia|done]. cbn [mbind option_bind].
  rewrite swrap_small, wrap_small, Hm by lia. pose proof (args_count _ _ _ _ Hargs) as Hc. pose proof (command_unfold args) as Hu. rewrite <- Hc in Hu.
  set (hd := 42 :: zdec argc ++ crlf) in *. rewrite Hu, length_app in *.
  destruct (sprintf_begins block [] hd) as (cmd1 & Hs & Hb1 & Hl1); [by exists block|cbn [length]; lia|lia|]. change (Z.of_nat (length [])) with 0 in Hs. cbn [app] in Hs, Hb1. rewrite Hs. cbn [mbind option_bind].
  pose proof (write_args_spec (length args) cmd1 hd) as Hw. rewrite Nat.sub_diag, drop_0 in Hw.
  destruct Hw as (cmd2 & Hw & Hb2 & Hl2); [done|done|rewrite length_app; lia|lia|]. rewrite Hc, Nat2Z.id, Hw. cbn [mbind option_bind].
  rewrite length_app, Nat2Z.inj_add, Z.eqb_refl. destruct (poke_begins cmd2 (hd ++ concat (map bulk args)) 0 Hb2) as (cmd3 & Hp & [r ->] & Hl3); [rewrite length_app; lia|].
  rewrite <- Nat2Z.inj_add, <- length_app, Hp. cbn [mbind option_bind]. rewrite !length_app in Hl3. cbn [length] in Hl3.
  destruct r as [|]; [|cbn [length] in Hl3; lia]. by rewrite app_nil_r.
Qed.

Lemma redisFormatSdsCommandArgv_spec : Z.of_nat (length (command args)) < 2 ^ 31 ->
  redisFormatSdsCommandArgv argc argv argvlen = Some (Z.of_nat (length (command args)), command args).
Proof using Hargs.
  intros Hsize. unfold redisFormatSdsCommandArgv.
  rewrite (command_totlen_spec Hargs u64 (2 ^ 31)); [|intros; apply wrap_small; lia|done|done]. cbn [mbind option_bind].
  pose proof (args_count _ _ _ _ Hargs) as Hc. pose proof (append_args_spec (length args) (42 :: zdec argc ++ crlf)) as Ha.
  rewrite Nat.sub_diag, drop_0 in Ha. rewrite Hc, Nat2Z.id in *. rewrite Ha, <- command_unfold; [|done|].
  - cbn [mbind option_bind]. by rewrite Z.eqb_refl, swrap_small by lia.
  - assert (Hl : (Forall (fun a => length a <= length (concat (map bulk args)))%nat args)).
    { clear. induction args as [|a l IH]; constructor; cbn [map concat]; rewrite length_app; [pose proof (length_bulk a); lia|].
      eapply list.Forall_impl; [exact IH|]. cbv beta. lia. }
    eapply list.Forall_impl; [exact Hl|]. cbv beta. intros a H. rewrite command_unfold, length_app in Hsize. lia.
Qed.
End write.

(** What can be sent fits the protocol. *)
Lemma length_args args : (length args <= length (concat (map bulk args)))%nat /\ Forall (fun a => length a <= length (concat (map bulk args)))%nat args.
Proof.
  induction args as [|a args [IH1 IH2]]; [done|]. cbn [map concat length]. rewrite length_app. pose proof (length_bulk a). split; [lia|].
  constructor; [lia|]. eapply list.Forall_impl; [exact IH2|]. cbv beta. lia.
Qed.

Lemma command_encodable args : Z.of_nat (length (command args)) < 2 ^ 31 -> encodable (VArray (map VString args)).
Proof.
  rewrite command_unfold, length_app. intros Hl. destruct (length_args args) as [Hn Hs]. split; [rewrite length_map; lia|].
  rewrite map_map. assert (Hb : Forall (fun a => Z.of_nat (length a) < 2 ^ 31) args) by (eapply list.Forall_impl; [exact Hs|]; cbv beta; lia).
  clear -Hb. induction Hb; cbn; auto.
Qed.
