(* ===== verification/RedisProps.v ===== *)
(** The redis client: what its reader of replies and its commands promise. *)
From Stdlib Require Import ZArith Lia.
From stdpp Require Import gmap list.
From S2P Require Import Prelude StateMonad Decimal RedisReader RedisLex RedisStream RedisReply RedisObjects.
From S2P Require Import RedisFormat.

Lemma between_heap {H} `{F : ReplyFunctions H} cap (r : redisReader H) h : between_replies cap r h -> r_heap r = h /\ r_err r = 0.
Proof.
  intros (mx & junk & _ & Hr & Hft). split; [|apply Hr]. unfold first_task in Hft. rewrite (bind_Some get _ _ _ _ eq_refl) in Hft.
  destruct (_ =? _); [|apply (f_equal (fmap (fun x => r_heap (snd x)))) in Hft; cbn in Hft; by simplify_eq].
  destruct (upd_task 0 (fun _ => mktask (-1) (-1) (-1) None None) (bare r)) as [[u c2]|] eqn:Hu; [|by rewrite (bind_None _ _ _ Hu) in Hft].
  rewrite (bind_Some _ _ _ _ _ Hu) in Hft. apply upd_task_inv in Hu as (t & _ & _ & ->). 
  apply (f_equal (fmap (fun x => r_heap (snd x)))) in Hft. cbn in Hft. by simplify_eq.
Qed.

Lemma build_replies_ok vs : Forall encodable vs -> forall h, heap_ok h ->
  exists ps h', build_replies vs h = Some (ps, h') /\ heap_ok h' /\ h_next h <= h_next h' /\
    (forall a, a < h_next h -> h_mem h' !! a = h_mem h !! a) /\
    (forall mem, agree (h_next h) (h_next h') mem (h_mem h') -> Forall2 (represents mem) vs ps).
Proof.
  induction 1 as [|v vs Hv _ IH]; intros h Hh.
  - exists [], h. split_and!; try done.
  - destruct (build_ok v Hv None (-1) h Hh) as (p & h1 & Hb & -> & Hlt & _ & Hh1 & Hold & Hown); [done|]. cbn [put] in Hold.
    destruct (IH h1 Hh1) as (ps & h' & Hbs & Hh' & Hle & Hold' & Hreps). exists (h_next h :: ps), h'. split_and!; [|done|lia|..].
    + cbn [build_replies]. rewrite Hb. cbn [mbind option_bind]. by rewrite Hbs.
    + intros a Ha. rewrite Hold' by lia. by apply Hold.
    + intros mem Hag. constructor; [|apply Hreps; intros a Ha; apply Hag; lia]. apply Hown.
      intros a Ha. rewrite Hag by lia. apply Hold'. lia.
Qed.

(** Replies that come in any chunks are taken by a new client as the trees of the
    values that were sent. *)
Lemma read_values vs chunks : Forall encodable vs -> Forall (fun v => depth v <= 8)%nat vs -> Forall (fun l => snd l <> []) chunks ->
  concat (map snd chunks) = concat (map encode vs) -> Z.of_nat (length (concat (map encode vs))) < 2 ^ 31 ->
  exists ps r', read_chunks (length vs) chunks (redisReaderCreate no_objects) = Some (ps, r') /\ r_err r' = 0 /\ Forall2 (represents (h_mem (r_heap r'))) vs ps.
Proof.
  intros He Hd Hne Hc Hl. destruct (build_replies_ok vs He no_objects) as (ps & h' & Hb & _ & _ & _ & Hreps); [split; [done|]; intros; apply lookup_empty|].
  destruct (replies_in_chunks 0 (redisReaderCreate no_objects) no_objects vs ps h' chunks (length vs)) as (cap & r' & Hr & Hbet); [apply created_reader|done..|].
  apply between_heap in Hbet as [Hh He']. exists ps, r'. split_and!; [done|done|]. rewrite Hh. by apply Hreps.
Qed.

(** C12: The client reads what the protocol says: whatever replies are sent,
    nested up to eight deep, and however their bytes are cut into chunks, the calls of
    [redisReaderFeed] and [redisReaderGetReply] give one object for each, in their
    order, and the object is the tree of its value. *)
Theorem replies_are_read vs chunks :
  Forall encodable vs -> Forall (fun v => depth v <= 8)%nat vs -> Forall (fun l => snd l <> []) chunks ->
  concat (map snd chunks) = concat (map encode vs) -> Z.of_nat (length (concat (map encode vs))) < 2 ^ 31 ->
  exists ps r', read_chunks (length vs) chunks (redisReaderCreate no_objects) = Some (ps, r') /\ r_err r' = 0 /\
    Forall2 (represents (h_mem (r_heap r'))) vs ps.
Proof. apply read_values. Qed.

Lemma replies_are_read_witness :
  exists ps r', read_chunks 2 [(0, [43; 79; 75; 13]); (9, [10; 42; 50; 13; 10; 58; 45; 55]); (0, [13; 10; 36; 45; 49; 13; 10])] (redisReaderCreate no_objects) = Some (ps, r') /\ r_err r' = 0 /\
    Forall2 (represents (h_mem (r_heap r'))) [VStatus [79; 75]; VArray [VInteger (-7); VNil]] ps.
Proof.
  apply (replies_are_read [VStatus [79; 75]; VArray [VInteger (-7); VNil]]).
  - repeat constructor.
  - repeat constructor; cbn; lia.
  - repeat constructor; done.
  - reflexivity.
  - reflexivity.
Defined.

(** C15: A reply is given back as a whole: whatever value it has, [freeReplyObject] frees
    every object that was made for it, and nothing else. *)
Theorem reply_is_freed v h : encodable v -> heap_ok h -> 0 <= h_next h ->
  exists p h' h2, build v None (-1) h = Some (p, h') /\ represents (h_mem h') v p /\
    freeReplyObject (Some p) h' = Some (tt, h2) /\ h_mem h2 = h_mem h.
Proof.
  intros Hv Hh Hn. destruct (build_ok v Hv None (-1) h Hh) as (p & h' & Hb & -> & Hlt & Hdep & Hh' & Hold & Hown); [done|]. cbn [put] in Hold.
  destruct (Hown (h_mem h')) as [Hrep Hfree]; [done|]. destruct (Hfree (S (Z.to_nat (h_next h'))) (h_next h') (h_alloc h')) as (mem' & Hf & Hw).
  { lia. }
  exists (h_next h), h', (mkobjects mem' (h_next h') (h_alloc h')). split_and!; [done|done| |].
  - unfold freeReplyObject. rewrite (bind_Some get _ _ _ _ eq_refl). destruct h'. exact Hf.
  - apply map_eq. intros a. cbn [h_mem]. rewrite (Hw a). case_decide as Ha; [symmetry; apply (heap_below h Hh); lia|].
    destruct (decide (a < h_next h)); [by apply Hold|]. rewrite (heap_below h' Hh') by lia. symmetry. apply (heap_below h Hh). lia.
Qed.

Lemma reply_is_freed_witness :
  exists p h' h2, build (VArray [VString [97; 0; 98]; VArray []; VNilArray]) None (-1) no_objects = Some (p, h') /\
    represents (h_mem h') (VArray [VString [97; 0; 98]; VArray []; VNilArray]) p /\
    freeReplyObject (Some p) h' = Some (tt, h2) /\ h_mem h2 = h_mem no_objects.
Proof.
  apply reply_is_freed; [by cbn| |done]. split; [done|]. intros a _. apply lookup_empty.
Defined.

(** C14: The reader implements the stream machine: after bytes [l] have come, a call gives
    what the machine gives on what was left and [l]: a reply, an error, or nothing
    yet; and it leaves the state and the bytes that the machine leaves. *)
Theorem reader_refines_stream {H} `{F : ReplyFunctions H} cap (r c : redisReader H) s l avail c' s' :
  ready (cap := cap) r c s -> l <> [] -> cap + Z.of_nat (length l) < 2 ^ 31 -> stream_runs c (s ++ l) c' s' ->
  exists r1 r2, redisReaderFeed true avail (Some l) r = Some (REDIS_OK, r1) /\ redisReaderGetReply r1 = Some (reply_of c', r2) /\
    (r_err c' = 0 -> holds_rest (cap + Z.of_nat (length l)) r2 s' /\ bare r2 = if r_idx c' =? -1 then set_r_reply None c' else c').
Proof.
  intros Hr Hl Hcap Hrun. destruct (redisReaderFeed_ready cap r c s avail l Hr Hl Hcap) as (r1 & Hf & Hr1 & Hlen).
  destruct (redisReaderGetReply_stream (cap := cap + Z.of_nat (length l)) _ _ _ _ _ Hr1 Hlen Hrun) as (r2 & Hg & _ & Hend). by exists r1, r2.
Qed.

Lemma reader_refines_stream_witness :
  exists c' s' r1 r2, redisReaderFeed true 0 (Some [58; 49; 13; 10]) (redisReaderCreate no_objects) = Some (REDIS_OK, r1) /\ redisReaderGetReply r1 = Some (reply_of c', r2) /\
    (r_err c' = 0 -> holds_rest (0 + Z.of_nat 4) r2 s' /\ bare r2 = if r_idx c' =? -1 then set_r_reply None c' else c').
Proof.
  eexists _, _. eapply (reader_refines_stream 0 (redisReaderCreate no_objects) (mk REDIS_READER_MAX_BUF [] first (replicate 8 zero_task) None no_objects) [] [58; 49; 13; 10] 0).
  - split; [|reflexivity]. split; [reflexivity|]. exists []. done.
  - discriminate.
  - reflexivity.
  - eapply stream_next; [discriminate|vm_compute; reflexivity|]. apply stream_end. reflexivity.
Defined.

(** Where the bytes are cut does not matter: when [a] and [b] come one after the other,
    the reader gives at [a] what it gives on the whole, and [b] is left to it, or it
    gives nothing at [a], and at [b] what it gives on the whole.  This holds for bytes
    that are not in the protocol as well. *)
Theorem chunks_do_not_matter {H} `{F : ReplyFunctions H} cap (r c : redisReader H) s a b c' s' :
  ready (cap := cap) r c s -> a <> [] -> b <> [] -> cap + Z.of_nat (length a) + Z.of_nat (length b) < 2 ^ 31 -> stream_runs c (s ++ a ++ b) c' s' ->
  exists r1 r2, redisReaderFeed true 0 (Some a) r = Some (REDIS_OK, r1) /\
    ((redisReaderGetReply r1 = Some (reply_of c', r2) /\ r_idx c' < 0 /\
      (r_err c' = 0 -> exists s2, holds_rest (cap + Z.of_nat (length a)) r2 s2 /\ s' = s2 ++ b)) \/
     (redisReaderGetReply r1 = Some ((REDIS_OK, None), r2) /\
      exists r3 r4, redisReaderFeed true 0 (Some b) r2 = Some (REDIS_OK, r3) /\ redisReaderGetReply r3 = Some (reply_of c', r4) /\
        (r_err c' = 0 -> holds_rest (cap + Z.of_nat (length a) + Z.of_nat (length b)) r4 s'))).
Proof.
  intros Hr Ha Hb Hcap Hrun. destruct (redisReaderFeed_ready cap r c s 0 a Hr Ha) as (r1 & Hf & Hr1 & Hlen); [lia|]. rewrite app_assoc in Hrun.
  destruct (ready_ok _ _ _ _ Hr) as [He _]. destruct (stream_runs_app _ _ _ _ _ He Hrun) as [(s2 & Hrun2 & Hi & Hs)|(c1 & s1 & Hrun1 & He1 & Hi1 & Hrun2)].
  - destruct (redisReaderGetReply_stream _ _ _ _ _ Hr1 Hlen Hrun2) as (r2 & Hg & _ & Hend). exists r1, r2. split; [done|left].
    split_and!; [done|done|]. intros He'. exists s2. split; [by apply Hend|auto].
  - destruct (redisReaderGetReply_stream _ _ _ _ _ Hr1 Hlen Hrun1) as (r2 & Hg & _ & Hend). exists r1, r2. split; [done|right].
    destruct (Hend He1) as [Hrest Hbare]. unfold reply_of in Hg. rewrite He1, Z.eqb_refl, (proj2 (Z.eqb_neq (r_idx c1) (-1))) in * by lia.
    split; [exact Hg|]. assert (Hr2 : ready (cap := cap + Z.of_nat (length a)) r2 c1 s1) by (split; [done|]; rewrite Hbare; apply first_task_running; lia).
    destruct (redisReaderFeed_ready _ r2 c1 s1 0 b Hr2 Hb) as (r3 & Hf3 & Hr3 & Hlen3); [lia|].
    destruct (redisReaderGetReply_stream _ _ _ _ _ Hr3 Hlen3 Hrun2) as (r4 & Hg4 & _ & Hend4). exists r3, r4.
    split_and!; [done|done|]. intros He'. by apply Hend4.
Qed.

Lemma chunks_do_not_matter_witness :
  exists (c' : redisReader objects) s' r1 r2, redisReaderFeed true 0 (Some [43; 79]) (redisReaderCreate no_objects) = Some (REDIS_OK, r1) /\
    ((redisReaderGetReply r1 = Some (reply_of c', r2) /\ r_idx c' < 0 /\
      (r_err c' = 0 -> exists s2, holds_rest (0 + Z.of_nat 2) r2 s2 /\ s' = s2 ++ [75; 13; 10])) \/
     (redisReaderGetReply r1 = Some ((REDIS_OK, None), r2) /\
      exists r3 r4, redisReaderFeed true 0 (Some [75; 13; 10]) r2 = Some (REDIS_OK, r3) /\ redisReaderGetReply r3 = Some (reply_of c', r4) /\
        (r_err c' = 0 -> holds_rest (0 + Z.of_nat 2 + Z.of_nat 3) r4 s'))).
Proof.
  eexists _, _. eapply (chunks_do_not_matter 0 (redisReaderCreate no_objects) (mk REDIS_READER_MAX_BUF [] first (replicate 8 zero_task) None no_objects) [] [43; 79] [75; 13; 10]).
  - split; [|reflexivity]. split; [reflexivity|]. exists []. done.
  - discriminate.
  - discriminate.
  - reflexivity.
  - eapply stream_next; [discriminate|vm_compute; reflexivity|]. apply stream_end. reflexivity.
Defined.

(** An error is one of the protocol or of memory, there is no reply with it, and it is
    final: bytes that come later are refused, and the reader stays as it is. *)
Theorem error_is_final {H} `{F : ReplyFunctions H} cap (r c : redisReader H) s c' s' :
  ready (cap := cap) r c s -> r_len r <> 0 -> stream_runs c s c' s' -> r_err c' <> 0 ->
  exists r', redisReaderGetReply r = Some ((REDIS_ERR, None), r') /\ (r_err r' = REDIS_ERR_PROTOCOL \/ r_err r' = REDIS_ERR_OOM) /\
    (forall mem avail bytes, redisReaderFeed mem avail bytes r' = Some (REDIS_ERR, r')) /\ redisReaderGetReply r' = Some ((REDIS_ERR, None), r').
Proof.
  intros Hr Hlen Hrun He. destruct (redisReaderGetReply_stream _ _ _ _ _ Hr Hlen Hrun) as (r' & Hg & He' & _). exists r'.
  destruct (ready_ok _ _ _ _ Hr) as [Hec _]. destruct (stream_runs_error _ _ _ _ Hrun Hec) as [|Hk]; [done|]. unfold reply_of in Hg.
  rewrite (proj2 (Z.eqb_neq (r_err c') 0)) in Hg by done. split_and!; [done|by rewrite He'|..].
  - intros mem avail bytes. unfold redisReaderFeed. by rewrite (bind_Some get _ _ _ _ eq_refl), (proj2 (Z.eqb_neq _ _)) by congruence.
  - unfold redisReaderGetReply. by rewrite (bind_Some get _ _ _ _ eq_refl), (proj2 (Z.eqb_neq _ _)) by congruence.
Qed.

(** ["!"] *)
Lemma error_is_final_witness :
  exists r r', redisReaderFeed true 0 (Some [33]) (redisReaderCreate no_objects) = Some (REDIS_OK, r) /\
    redisReaderGetReply r = Some ((REDIS_ERR, None), r') /\ (r_err r' = REDIS_ERR_PROTOCOL \/ r_err r' = REDIS_ERR_OOM) /\
    (forall mem avail bytes, redisReaderFeed mem avail bytes r' = Some (REDIS_ERR, r')) /\ redisReaderGetReply r' = Some ((REDIS_ERR, None), r').
Proof.
  pose (r := mkreader 0 (Some [33]) 0 1 REDIS_READER_MAX_BUF (replicate 9 zero_task) (-1) None no_objects).
  destruct (error_is_final 1 r (mk REDIS_READER_MAX_BUF [] first (replicate 8 zero_task) None no_objects) [33]
    (set_r_err REDIS_ERR_PROTOCOL (set_r_idx (-1) (mk REDIS_READER_MAX_BUF [] first (replicate 8 zero_task) None no_objects))) []) as [r' Hr'].
  - split; [|reflexivity]. split; [reflexivity|]. exists [33]. done.
  - discriminate.
  - eapply stream_stop; [discriminate|vm_compute; reflexivity|discriminate].
  - discriminate.
  - exists r, r'. split; [reflexivity|exact Hr'].
Defined.

(** C13: The commands of the client are in the protocol: [redisFormatCommandArgv] and
    [redisFormatSdsCommandArgv] write the array of their arguments, whatever bytes
    these have, into a block that is just large enough, their assertions hold, and the
    reader reads the arguments back. *)
Theorem commands_are_read argc argv argvlen args malloc block :
  arguments argc argv argvlen args -> Z.of_nat (length (command args)) + 1 < 2 ^ 31 ->
  malloc (Z.of_nat (length (command args)) + 1) = Some block -> Z.of_nat (length block) = Z.of_nat (length (command args)) + 1 ->
  redisFormatCommandArgv malloc argc argv argvlen = Some (Z.of_nat (length (command args)), Some (command args ++ [0])) /\
  redisFormatSdsCommandArgv argc argv argvlen = Some (Z.of_nat (length (command args)), command args) /\
  exists p r', read_chunks 1 [(0, command args)] (redisReaderCreate no_objects) = Some ([p], r') /\
    represents (h_mem (r_heap r')) (VArray (map VString args)) p.
Proof.
  intros Hargs Hsize Hm Hb. split; [by apply (redisFormatCommandArgv_spec Hargs _ block)|]. split; [apply (redisFormatSdsCommandArgv_spec Hargs); lia|].
  destruct (read_values [VArray (map VString args)] [(0, command args)]) as (ps & r' & Hr & _ & Hrep).
  - constructor; [|constructor]. apply command_encodable. lia.
  - constructor; [|constructor]. cbn [depth]. rewrite map_map. cbn [depth]. clear. induction args as [|a args IH]; cbn in *; lia.
  - constructor; [done|constructor].
  - done.
  - cbn [map concat]. rewrite app_nil_r. unfold command in Hsize. lia.
  - inversion Hrep as [|v p vs' ps' Hp Hps]; subst. inversion Hps; subst. by exists p, r'.
Qed.

Lemma commands_are_read_witness :
  redisFormatCommandArgv (fun n => Some (replicate (Z.to_nat n) 0)) 2 [[71; 69; 84; 0]; [0; 255; 13; 10]] (Some [3; 4]) =
    Some (23, Some (command [[71; 69; 84]; [0; 255; 13; 10]] ++ [0])) /\
  redisFormatSdsCommandArgv 2 [[71; 69; 84; 0]; [0; 255; 13; 10]] (Some [3; 4]) = Some (23, command [[71; 69; 84]; [0; 255; 13; 10]]) /\
  exists p r', read_chunks 1 [(0, command [[71; 69; 84]; [0; 255; 13; 10]])] (redisReaderCreate no_objects) = Some ([p], r') /\
    represents (h_mem (r_heap r')) (VArray (map VString [[71; 69; 84]; [0; 255; 13; 10]])) p.
Proof.
  apply (commands_are_read 2 [[71; 69; 84; 0]; [0; 255; 13; 10]] (Some [3; 4]) [[71; 69; 84]; [0; 255; 13; 10]] _ (replicate 24 0)).
  - split; [done| |]; (intros [|[|j]] a Ha; [by injection Ha as <-|by injection Ha as <-|done]).
  - reflexivity.
  - reflexivity.
  - reflexivity.
Defined.
